(* ===== verification/_CoqProject ===== *)
-Q . S2P
Prelude.v
Float32.v
Cwpack.v
CwpackSpec.v
CwpackProof.v
CwUnpack.v
CwDecode.v
CwRoundtrip.v
CwSafety.v
CwTheorems.v
Biquad.v
FreqResponse.v
Sensors.v
Util.v
Eeprom.v
ChTime.v
ChVt.v
ChVtProof.v
ChVtTick.v
ChSched.v
ChSync.v
ChKernelInv.v
ChKernelOps.v
ChMailbox.v
ChKernel.v
ChKernelProof.v
ChSyncSteps.v
ChThreadSteps.v
ChKernelTheorems.v
LwipMem.v
LwipMemInv.v
LwipMemProof.v
LwipMemTheorems.v
Memp.v
MempTheorems.v
Pbuf.v
PbufChain.v
PbufReadWrite.v
PbufCopy.v
PbufTheorems.v
PbufAlloc.v
PbufAllocProof.v
LwipAlloc.v
PbufNet.v
PbufSystem.v
PbufNetTheorems.v
EthMac.v
EthMacProof.v
EthMacTheorems.v
EthInput.v
Motor.v
Command.v
Timeouts.v
TimeoutsTheorems.v
SysArch.v
LwipDef.v
LwipDefTheorems.v
InetChksum.v
InetChksumSpec.v
InetChksumProof.v
InetChksumTheorems.v
Ip4Addr.v
Ip4AddrTheorems.v
Etharp.v
EtharpProof.v
Ip4.v
Ip4Reass.v
Ip4Theorems.v
MqttRing.v
MqttReq.v
Mqtt.v
MqttInv.v
MqttSend.v
MqttParse.v
MqttDeliver.v
MqttState.v
MqttSession.v
Comms.v
CommsProof.v
CommsSystem.v
