(* ===== verification/Prelude.v ===== *)
(** * Verification of the maglev dual-controller firmware

    The firmware (src/src, on ChibiOS 18.2.1 and lwIP) drives a motor: a PWM
    interrupt measures the phase current, runs a current controller and sets the
    duty cycle; a communication thread keeps an MQTT session over TCP, on which
    commands arrive and telemetry and heartbeats are published, as MessagePack.
    This library models the firmware's own code and the parts of ChibiOS and
    lwIP that carry its data, and proves what makes each part correct.

    ** How the code is modelled

    C functions are Rocq functions on explicit state.  Integers are [Z], with the
    wrap-around of their width written out ([u8], [u16], [u32], ...); the target
    is 32-bit and little-endian.  Memory is a finite map from allocated addresses
    to bytes where the code works with pointers into buffers.  [None] (or [Fault])
    is an access outside allocated memory, other undefined behaviour, or a halt:
    kernel assertions, [LWIP_ASSERT] and [LWIP_ERROR] are enabled in this build
    and stop the system.  Floating point is binary32 and binary64 as executable
    specifications; a conversion to [uint32_t] saturates as the processor's does.
    Multi-byte accesses of the MessagePack code work at any address ([Cwpack] says
    what that leaves out).  Hardware, the C library's transcendental functions, TCP and
    the clock are parameters: what a pin or register reads, what TCP accepts and
    delivers, which times are read.

    Loops that walk a linked structure or decode input take fuel.  It is chosen
    so that it cannot run out on the states the theorems speak about, and the
    theorems say that a result is produced: one step per pbuf of the heap for a
    chain ([chain_fuel]), one per block header for the heap ([walk_fuel]), one per
    byte of the frame for a chain of pool pbufs, one per receive descriptor for
    the frames that are discarded, one per armed timer or timeout
    for the timer lists, one per thread for the queues of the kernel, one per byte of memory for a terminated string
    ([str_fuel]), one per byte and message for the MQTT parser
    ([mqtt_parse_terminates]), the number of items for [cw_skip_items].

    ** Components and files

    - MessagePack, src/src/cwpack: [Cwpack] (packer), [CwUnpack] (unpacker and
      [cw_skip_items]); [CwpackSpec] is the encoding as a function on byte lists,
      which [CwpackProof] shows the packer to refine; [CwDecode], [CwRoundtrip],
      [CwSafety] are about the unpacker; [CwTheorems] has the
      properties.  The union [item.as] is kept as its eight bytes because callers
      read a member other than the one last written.
    - Control: [Float32] (arithmetic), [Biquad] (biquad.c), [FreqResponse]
      (freq_response.c, with the interrupt preempting the poll between any two
      statements), [Sensors] (hall_sensors.c, tach.c), [Motor] (motor_control.c
      and the register set-up of main.c).
    - Identification: [Util] (util.c), [Eeprom] (93AA46AE48.c, a trace of pin
      events).
    - ChibiOS: [ChTime] (chtime.h), [ChVt] (chvt.c, chvt.h: the delta list of
      virtual timers with its pointers), [ChVtProof] and [ChVtTick]
      (refinement of the pointer structure to a list of deadlines).
    - ChibiOS kernel: [ChSched] (chschd.c, chschd.h, chthreads.c: queues, the ready
      list, sleeping and waking, threads), [ChSync] (chsem.c, chmboxes.c),
      [ChKernelInv] (linked queues as lists, the invariant), [ChKernelOps],
      [ChMailbox] (what the operations do to the queues and buffers), [ChKernel] (calls
      of threads, interrupts and ends of sleeps as steps of a system),
      [ChKernelProof], [ChSyncSteps], [ChThreadSteps] (every step keeps the invariant
      of the system), [ChKernelTheorems].
    - lwIP memory: [LwipMem] (core/mem.c: the heap with its block headers),
      [LwipMemInv], [LwipMemProof] (refinement to first fit on a
      list of blocks), [LwipMemTheorems]; [Memp] (core/memp.c: the pools),
      [MempTheorems] (also pool operations preempted between two
      memory accesses).
    - lwIP packet buffers, core/pbuf.c: [Pbuf] (model), [PbufChain] (a chain of
      pbufs stands for a byte string), [PbufReadWrite], [PbufCopy] (also reference
      counts), [PbufTheorems].  [PbufAlloc] has the functions that allocate and
      the receive routine of lwipthread.c, over an interface (a class of
      operations and one of their laws) of the allocator;
      [PbufAllocProof], [PbufNet] and [PbufSystem] prove against the
      interface, [LwipAlloc] implements it with the heap and the pools,
      [PbufNetTheorems] has the properties.
    - Ethernet driver, hal_mac.c and MACv1/hal_mac_lld.c: [EthMac] (the rings of
      descriptors, and the transmit routine of lwipthread.c), [EthMacProof] (the rings
      as queues, the DMA engine), [EthMacTheorems] (any number of sending threads, the
      receiving thread and the engine interleaved call by call),
      [EthInput] (the receive routine with the driver calls it makes).
    - lwIP timeouts, core/timeouts.c: [Timeouts],
      [TimeoutsTheorems] (deadlines, handlers that set timeouts again); the port of lwIP to ChibiOS, arch/sys_arch.c: [SysArch].
    - lwIP checksums and addresses: [LwipDef], [LwipDefTheorems] (core/def.c: byte
      order, strings, numbers); [InetChksum] (core/inet_chksum.c), [InetChksumSpec]
      (RFC 1071 and sums up to carries), [InetChksumProof],
      [InetChksumTheorems]; [Ip4Addr] (core/ipv4/ip4_addr.c), [Ip4AddrTheorems].
    - ARP and Ethernet, core/ipv4/etharp.c and netif/ethernet.c: [Etharp],
      [EtharpProof] (invariant, resolution between two hosts, aging).
    - IP, core/ipv4/ip4.c and ip4_frag.c: [Ip4] (routing, sending, fragments,
      reassembly, receiving), [Ip4Reass] (fragments in any order, histories, the timer),
      [Ip4Theorems] (datagrams from one host to another).
    - MQTT client, apps/mqtt/mqtt.c: [MqttRing] (output ring and message
      building, with the interface class of TCP), [MqttReq] (requests in flight,
      refined to a list), [Mqtt] (the client), [MqttInv] (its invariant),
      [MqttSend] (outgoing packets), [MqttParse] and [MqttDeliver] (incoming
      stream), [MqttState] (the client as a transition system), [MqttSession].
    - Application: [Command] (the command and telemetry handlers of main.c),
      [Comms] (comms.c), [CommsProof], [CommsSystem] (communication thread,
      network thread and motor interrupt on the shared state, in steps that do not
      interrupt each other: from sleep to sleep, the client's work on an event, a
      callback).

    This file is the prelude: machine integers, bit and byte lemmas, memory, the
    statement monad of straight-line C with early returns, and the tactics and
    hints the components share.

    ** What the theorems show

    - The command path end to end: the bytes of a PUBLISH packet that arrive in a TCP
      segment end as exactly the updates of the motor that the MessagePack entries
      describe ([command_end_to_end]), composed from the theorems on the MQTT parser
      ([mqtt_publish_delivered]; that the segmentation does not matter to the parser
      is [mqtt_parse_segments]), on the reassembly in comms.c and on the decoder.
    - Round trips and refinement: the packer refines the encoding and the
      unpacker inverts it; the timer list refines a sorted list of deadlines; the
      packet buffers refine byte strings; the heap refines first fit on a list of
      blocks; the descriptor rings of the Ethernet driver are queues of frames;
      checksums over chains of pbufs are those of RFC 1071 over the bytes;
      an IP packet reaches another host intact, its fragments in any order (no short
      pbufs behind the first, an MTU that fits fragments of eight bytes);
      the MQTT request queue refines a list and the output ring a FIFO; printed
      addresses are parsed back.
    - Safety and invariants: in all reachable states of the MQTT client its
      invariant holds; heap and pool memory that is handed out never overlaps and
      comes back; received frames stay intact until they are released, in any
      order, and with the allocators of lwIP all memory is free again afterwards;
      the Ethernet driver never fails an assertion or leaves its buffers, a packet
      is sent as one frame and the oldest frame becomes a packet;
      the kernel runs a ready thread of the highest priority and never halts, loses no
      permit of a semaphore, no message of a mailbox and no wake-up; the ARP table has
      no address twice and leaks no packet, for packets that it can take over and frames
      that hold an ARP packet;
      the communication thread never faults in any order of whole steps; the unpacker
      stays inside its buffer unless its 32-bit length check wraps; duty cycle and
      filter outputs are within their limits for all inputs, NaN and infinities
      included.
    - Liveness and termination: a lost session is set up again when the server
      answers; a connection attempt that is not answered is closed by the timer;
      due timers and timeouts are called, also when they start themselves again; an address is resolved and the packet that
      waited for it sent, or it is given up and the packet released; the parser and [cw_skip_items] end.
    - Where the code does not do what it means to: lengths that wrap the address
      or 16-bit arithmetic of the checks, a limit that is the smallest positive
      float instead of the most negative, a string comparison bounded by the
      wrong length, telemetry that stops when the tick counter wraps, allocation
      sizes that wrap to zero, pool elements lost to preemption, timeouts that
      delay one another or are called at once, among them when the clock of lwIP wraps at
      a tenth of its range, packets that stop the system when ARP has to queue them or IP has
      to fragment them, IP fragments that are freed twice, leave an entry without a packet, or
      are marked as the last one too early, negative controller outputs in an unsigned
      register, unaligned accesses.

    ** What is not modelled

    The preemption of a function of the MQTT client, or of its callbacks, by the
    communication thread, which calls the client without a lock.
    The TCP, UDP and ICMP code of lwIP (TCP is an interface of the MQTT model),
    its sequential API and the set-up of the interface in lwipthread.c; the
    mutexes, condition variables, events and messages of ChibiOS, the end of threads,
    its heap and pools, and the saving and switching of registers; the other HAL drivers and the
    registers of the Ethernet MAC, board files, start-up code and the sequence of
    [main]; the measurement thread of motor_control.c, which sends a datagram;
    test suites, the other kernel and the applications of ChibiOS and lwIP that
    the firmware does not use. *)

From Stdlib Require Import ZArith Lia.
From stdpp Require Import base gmap list option numbers.

Local Open Scope Z_scope.

(** ** Machine integers

    A [w]-bit unsigned integer is a [Z] in [0, 2^w); [wrap] is the conversion
    C performs on assignment to an unsigned type.  [swrap] is the two's
    complement conversion to a signed type. *)

Definition wrap (w z : Z) : Z := z mod 2 ^ w.
Definition swrap (w z : Z) : Z := (z + 2 ^ (w - 1)) mod 2 ^ w - 2 ^ (w - 1).

Definition u8 (z : Z) : Z := wrap 8 z.
Definition u16 (z : Z) : Z := wrap 16 z.
Definition u32 (z : Z) : Z := wrap 32 z.
Definition u64 (z : Z) : Z := wrap 64 z.
Definition s8 (z : Z) : Z := swrap 8 z.
Definition s16 (z : Z) : Z := swrap 16 z.
Definition s32 (z : Z) : Z := swrap 32 z.
Definition s64 (z : Z) : Z := swrap 64 z.

Definition is_u (w z : Z) : Prop := 0 <= z < 2 ^ w.
Definition is_byte (b : Z) : Prop := 0 <= b < 256.
Abbreviation bytes := (Forall is_byte).

(** C truth value of an integer. *)
Definition truthy (z : Z) : bool := negb (z =? 0).

Lemma wrap_range w z : 0 <= w -> is_u w (wrap w z).
Proof. intros. apply Z.mod_pos_bound. apply Z.pow_pos_nonneg; lia. Qed.

Lemma wrap_small w z : is_u w z -> wrap w z = z.
Proof. intros. by apply Z.mod_small. Qed.

Lemma wrap_wrap w z : 0 <= w -> wrap w (wrap w z) = wrap w z.
Proof. intros. by apply wrap_small, wrap_range. Qed.

Lemma u8_small z : 0 <= z < 256 -> u8 z = z.
Proof. apply (wrap_small 8). Qed.

Lemma u16_small z : 0 <= z < 65536 -> u16 z = z.
Proof. apply (wrap_small 16). Qed.

Lemma u32_small z : 0 <= z < 2 ^ 32 -> u32 z = z.
Proof. apply (wrap_small 32). Qed.

Lemma u64_small z : 0 <= z < 2 ^ 64 -> u64 z = z.
Proof. apply (wrap_small 64). Qed.

(** Conversions commute with addition. *)
Lemma wrap_add_l w a b : wrap w (wrap w a + b) = wrap w (a + b).
Proof. unfold wrap. apply Zplus_mod_idemp_l. Qed.

Lemma u32_add_l a b : u32 (u32 a + b) = u32 (a + b).
Proof. apply wrap_add_l. Qed.

Lemma swrap_small w z :
  0 < w -> - 2 ^ (w - 1) <= z < 2 ^ (w - 1) -> swrap w z = z.
Proof.
  intros Hw Hz. unfold swrap.
  assert (2 ^ w = 2 * 2 ^ (w - 1)) as E.
  { replace w with (Z.succ (w - 1)) at 1 by lia. rewrite Z.pow_succ_r; lia. }
  rewrite Z.mod_small; lia.
Qed.

(** [cbn_pow] evaluates the powers of two that the width constants leave. *)
Ltac cbn_pow :=
  unfold u8, u16, u32, u64, s8, s16, s32, s64, is_u, wrap, swrap in *;
  repeat match goal with
         | H : context [2 ^ ?k] |- _ =>
             let v := eval vm_compute in (2 ^ k) in
             lazymatch v with Zpos _ => change (2 ^ k) with v in H end
         | |- context [2 ^ ?k] =>
             let v := eval vm_compute in (2 ^ k) in
             lazymatch v with Zpos _ => change (2 ^ k) with v end
         end.

(** [wsolve]: linear arithmetic modulo the machine-integer conversions. *)
Ltac wsolve := cbn_pow; unfold is_byte in *; Z.div_mod_to_equations; lia.

(** Case analysis on the boolean comparisons of a goal. *)
Ltac case_cmp :=
  repeat match goal with
         | |- context [?a <? ?b] => destruct (Z.ltb_spec a b)
         | |- context [?a <=? ?b] => destruct (Z.leb_spec a b)
         | |- context [?a =? ?b] => destruct (Z.eqb_spec a b)
         | |- context [?a >? ?b] => rewrite (Z.gtb_ltb a b)
         | |- context [?a >=? ?b] => rewrite (Z.geb_leb a b)
         end.

Lemma truthy_0 : truthy 0 = false.
Proof. reflexivity. Qed.

Lemma truthy_spec z : truthy z = true <-> z <> 0.
Proof. unfold truthy. destruct (Z.eqb_spec z 0); simpl; naive_solver. Qed.

(** ** Byte strings of a word *)

Fixpoint le_bytes (n : nat) (z : Z) : list Z :=
  match n with
  | O => []
  | S n => z mod 256 :: le_bytes n (z / 256)
  end.

Fixpoint of_le (l : list Z) : Z :=
  match l with
  | [] => 0
  | b :: l => b + 256 * of_le l
  end.

Definition be_bytes (n : nat) (z : Z) : list Z := rev (le_bytes n z).
Definition of_be (l : list Z) : Z := of_le (rev l).

Lemma length_le_bytes n z : length (le_bytes n z) = n.
Proof. revert z; induction n; simpl; auto. Qed.

Lemma length_be_bytes n z : length (be_bytes n z) = n.
Proof. unfold be_bytes. by rewrite length_rev, length_le_bytes. Qed.

Lemma bytes_le_bytes n z : bytes (le_bytes n z).
Proof.
  revert z; induction n as [|n IH]; intros z; constructor; auto.
  unfold is_byte. apply Z.mod_pos_bound. lia.
Qed.

Lemma bytes_be_bytes n z : bytes (be_bytes n z).
Proof. apply Forall_rev, bytes_le_bytes. Qed.

Lemma of_le_range l : bytes l -> 0 <= of_le l < 256 ^ Z.of_nat (length l).
Proof.
  induction 1 as [|b l Hb _ IH]; [simpl; lia|].
  cbn [of_le length]. rewrite Nat2Z.inj_succ, Z.pow_succ_r by lia.
  unfold is_byte in *. lia.
Qed.

Lemma of_le_le_bytes n z : of_le (le_bytes n z) = z mod 256 ^ Z.of_nat n.
Proof.
  revert z; induction n as [|n IH]; intros z.
  - simpl. by rewrite Z.mod_1_r.
  - cbn [of_le le_bytes]. rewrite IH, Nat2Z.inj_succ, Z.pow_succ_r by lia.
    rewrite Z.rem_mul_r; [lia|lia|]. apply Z.pow_pos_nonneg; lia.
Qed.

Lemma le_bytes_of_le l : bytes l -> le_bytes (length l) (of_le l) = l.
Proof.
  induction 1 as [|b l Hb _ IH]; [done|].
  cbn [of_le length le_bytes]. unfold is_byte in *.
  replace ((b + 256 * of_le l) / 256) with (of_le l) by (Z.div_mod_to_equations; lia).
  rewrite IH. f_equal. Z.div_mod_to_equations; lia.
Qed.

Lemma of_be_be_bytes n z : of_be (be_bytes n z) = z mod 256 ^ Z.of_nat n.
Proof. unfold of_be, be_bytes. by rewrite rev_involutive, of_le_le_bytes. Qed.

Lemma be_bytes_of_be l : bytes l -> be_bytes (length l) (of_be l) = l.
Proof.
  intros H. unfold of_be, be_bytes.
  rewrite <- (length_rev l), le_bytes_of_le by by apply Forall_rev.
  apply rev_involutive.
Qed.

Lemma of_be_range l : bytes l -> 0 <= of_be l < 256 ^ Z.of_nat (length l).
Proof.
  intros. unfold of_be. rewrite <- (length_rev l). by apply of_le_range, Forall_rev.
Qed.

Lemma testbit_byte_cons b r i :
  is_byte b -> 0 <= i ->
  Z.testbit (b + 256 * r) i = if i <? 8 then Z.testbit b i else Z.testbit r (i - 8).
Proof.
  intros Hb Hi. unfold is_byte in Hb. destruct (Z.ltb_spec i 8).
  - rewrite <- (Z.mod_pow2_bits_low (b + 256 * r) 8 i), <- (Z.mod_pow2_bits_low b 8 i) by lia.
    f_equal. change (2 ^ 8) with 256. Z.div_mod_to_equations; lia.
  - replace i with ((i - 8) + 8) at 1 by lia. rewrite <- Z.div_pow2_bits by lia.
    f_equal. change (2 ^ 8) with 256. Z.div_mod_to_equations; lia.
Qed.

(** Extensionality at a fixed width: two words with the same bits are equal.
    [bit_step] computes one bit of an expression built from shifts, masks,
    conversions and byte strings at a literal position. *)

Lemma testbit_wrap_low w z i : 0 <= i < w -> Z.testbit (wrap w z) i = Z.testbit z i.
Proof. intros. unfold wrap. apply Z.mod_pow2_bits_low. lia. Qed.

Lemma testbit_wrap_high w z i : 0 <= w <= i -> Z.testbit (wrap w z) i = false.
Proof. intros. unfold wrap. apply Z.mod_pow2_bits_high. lia. Qed.

Lemma testbit_mod256 z i : 0 <= i < 8 -> Z.testbit (z mod 256) i = Z.testbit z i.
Proof. intros. change 256 with (2 ^ 8). apply Z.mod_pow2_bits_low. lia. Qed.
Lemma testbit_div256 z i : 0 <= i -> Z.testbit (z / 256) i = Z.testbit z (i + 8).
Proof. intros. change 256 with (2 ^ 8). rewrite Z.div_pow2_bits by lia. done. Qed.

Lemma bits_eq n a b :
  0 <= n -> is_u n a -> is_u n b ->
  (forall i, 0 <= i < n -> Z.testbit a i = Z.testbit b i) -> a = b.
Proof.
  intros Hn Ha Hb H. apply Z.bits_inj'. intros i Hi.
  destruct (Z.lt_ge_cases i n) as [?|Hge]; [apply H; lia|].
  rewrite <- (wrap_small n a), <- (wrap_small n b) by done.
  by rewrite !testbit_wrap_high.
Qed.

Lemma is_u_lor w a b : 0 < w -> is_u w a -> is_u w b -> is_u w (Z.lor a b).
Proof.
  intros Hw Ha Hb. unfold is_u in *. split; [apply Z.lor_nonneg; lia|].
  destruct (Z.eq_dec (Z.lor a b) 0) as [->|Hn]; [lia|].
  apply Z.log2_lt_pow2; [pose proof (Z.lor_nonneg a b); lia|].
  rewrite Z.log2_lor by lia. apply Z.max_lub_lt.
  - destruct (Z.eq_dec a 0) as [->|]; [done|]. apply Z.log2_lt_pow2; lia.
  - destruct (Z.eq_dec b 0) as [->|]; [done|]. apply Z.log2_lt_pow2; lia.
Qed.

Ltac norm_idx k := let v := eval vm_compute in k in (constr_eq k v; fail 1) || change k with v.
Ltac bit_step :=
  match goal with
  | |- context [Z.testbit _ (?a + ?b)] => norm_idx (a + b)
  | |- context [Z.testbit _ (?a - ?b)] => norm_idx (a - b)
  | |- context [Z.testbit (Zpos ?p) ?k] =>
     let v := eval vm_compute in (Z.testbit (Zpos p) k) in change (Z.testbit (Zpos p) k) with v
  | |- context [Z.testbit 0 ?k] => rewrite (Z.testbit_0_l k)
  | |- context [Z.testbit ?z (Zneg ?k)] => rewrite (Z.testbit_neg_r z (Zneg k)) by lia
  | |- context [Z.testbit (wrap ?w ?z) ?k] =>
      first [rewrite (testbit_wrap_low w z k) by lia | rewrite (testbit_wrap_high w z k) by lia]
  | |- context [Z.testbit (Z.lor ?a ?b) ?k] => rewrite (Z.lor_spec a b k)
  | |- context [Z.testbit (Z.land ?a ?b) ?k] => rewrite (Z.land_spec a b k)
  | |- context [Z.testbit (Z.shiftr ?a ?b) ?k] => rewrite (Z.shiftr_spec a b k) by lia
  | |- context [Z.testbit (Z.shiftl ?a ?b) ?k] => rewrite (Z.shiftl_spec a b k) by lia
  | |- context [Z.testbit (?b + 256 * ?r) ?k] =>
      rewrite (testbit_byte_cons b r k) by first [lia | unfold is_byte; apply Z.mod_pos_bound; lia];
      let v := eval vm_compute in (k <? 8) in change (k <? 8) with v; cbv iota
  | |- context [Z.testbit (?z mod 256) ?k] => rewrite (testbit_mod256 z k) by lia
  | |- context [Z.testbit (?z / 256) ?k] => rewrite (testbit_div256 z k) by lia
  end.
Ltac enum_bit i n :=
    lazymatch n with
    | O => exfalso; lia
    | S ?n' => let v := eval vm_compute in (Z.of_nat n') in
       destruct (decide (i = v)) as [->|]; [|enum_bit i n']
    end.
Create HintDb words.
#[export] Hint Resolve bytes_le_bytes bytes_be_bytes : words.
Create Rewrite HintDb wordsize.
#[export] Hint Rewrite length_le_bytes length_be_bytes of_le_le_bytes of_be_be_bytes : wordsize.

(** ** Byte memory

    Memory maps the allocated addresses to bytes.  An access to an address
    that is not allocated is undefined behaviour and yields [None]. *)

Abbreviation mem := (gmap Z Z).

Fixpoint write (m : gmap Z Z) (a : Z) (l : list Z) : gmap Z Z :=
  match l with
  | [] => m
  | b :: l => write (<[a := b]> m) (a + 1) l
  end.

Definition allocated (m : gmap Z Z) (a n : Z) : Prop :=
  forall i, a <= i < a + n -> is_Some (m !! i).

Definition allocatedb (m : gmap Z Z) (a n : Z) : bool :=
  forallb (fun i => bool_decide (is_Some (m !! i))) (seqZ a n).

Definition store (m : gmap Z Z) (a : Z) (l : list Z) : option (gmap Z Z) :=
  if allocatedb m a (Z.of_nat (length l)) then Some (write m a l) else None.

Definition load (m : gmap Z Z) (a : Z) (n : nat) : option (list Z) :=
  mapM (fun i => m !! i) (seqZ a (Z.of_nat n)).

Lemma allocatedb_spec m a n : allocatedb m a n = true <-> allocated m a n.
Proof.
  unfold allocatedb, allocated. rewrite forallb_forall. split.
  - intros H i Hi. specialize (H i).
    rewrite bool_decide_eq_true in H. apply H.
    apply list_elem_of_In, elem_of_seqZ. lia.
  - intros H i Hi. apply list_elem_of_In, elem_of_seqZ in Hi.
    apply bool_decide_eq_true. apply H. lia.
Qed.

Lemma store_allocated m a l :
  allocated m a (Z.of_nat (length l)) -> store m a l = Some (write m a l).
Proof. intros H. unfold store. by rewrite (proj2 (allocatedb_spec _ _ _) H). Qed.

Lemma lookup_write_outside m a l i :
  i < a \/ a + Z.of_nat (length l) <= i -> write m a l !! i = m !! i.
Proof.
  revert m a; induction l as [|b l IH]; intros m a Hi; simpl; [done|].
  simpl in Hi. rewrite IH by lia. rewrite lookup_insert_ne by lia. done.
Qed.

Lemma lookup_write_inside m a l (k : nat) b :
  l !! k = Some b -> write m a l !! (a + Z.of_nat k) = Some b.
Proof.
  revert m a k; induction l as [|c l IH]; intros m a k Hk; [done|].
  destruct k as [|k]; simpl in *.
  - simplify_eq. rewrite lookup_write_outside by lia.
    rewrite Z.add_0_r. apply lookup_insert_eq.
  - replace (a + Z.of_nat (S k)) with ((a + 1) + Z.of_nat k) by lia. auto.
Qed.

Lemma lookup_write m a l i :
  write m a l !! i =
    if decide (a <= i < a + Z.of_nat (length l)) then l !! Z.to_nat (i - a) else m !! i.
Proof.
  case_decide as Hi; [|apply lookup_write_outside; lia].
  destruct (lookup_lt_is_Some_2 l (Z.to_nat (i - a))) as [b Hb]; [lia|].
  rewrite Hb. replace i with (a + Z.of_nat (Z.to_nat (i - a))) at 1 by lia.
  by apply lookup_write_inside.
Qed.

Lemma write_app m a l1 l2 :
  write m a (l1 ++ l2) = write (write m a l1) (a + Z.of_nat (length l1)) l2.
Proof.
  revert m a; induction l1 as [|b l1 IH]; intros m a; simpl.
  - by rewrite Z.add_0_r.
  - rewrite IH. f_equal. lia.
Qed.

Lemma allocated_write m a l b n : allocated m b n -> allocated (write m a l) b n.
Proof.
  intros H i Hi. rewrite lookup_write. case_decide; [|auto].
  apply lookup_lt_is_Some. lia.
Qed.

Lemma allocated_sub m a n b k :
  allocated m a n -> a <= b -> b + k <= a + n -> allocated m b k.
Proof. intros H ?? i Hi. apply H. lia. Qed.

#[export] Hint Resolve allocated_write : words.

Lemma load_Some m a n l :
  load m a n = Some l <->
  length l = n /\ forall k b, l !! k = Some b -> m !! (a + Z.of_nat k) = Some b.
Proof.
  unfold load. rewrite mapM_Some, Forall2_lookup. split.
  - intros H. assert (length l = n) as Hl.
    { apply Forall2_lookup, Forall2_length in H. rewrite length_seqZ in H. lia. }
    split; [done|]. intros k b Hk. specialize (H k). rewrite Hk in H.
    inversion H as [x y Hxy E1 E2|]; simplify_eq.
    symmetry in E1. apply lookup_seqZ in E1 as [-> _]. done.
  - intros [Hl H] k. destruct (l !! k) as [b|] eqn:Hk.
    + rewrite (proj2 (lookup_seqZ a (Z.of_nat n) k (a + Z.of_nat k))).
      * constructor. auto.
      * apply lookup_lt_Some in Hk. lia.
    + rewrite lookup_seqZ_ge; [constructor|].
      apply lookup_ge_None in Hk. lia.
Qed.

Lemma load_write m a l : load (write m a l) a (length l) = Some l.
Proof. apply load_Some. split; [done|]. intros. by apply lookup_write_inside. Qed.

Lemma load_app m a n1 n2 l1 l2 :
  length l1 = n1 -> length l2 = n2 ->
  load m a (n1 + n2) = Some (l1 ++ l2) <->
  load m a n1 = Some l1 /\ load m (a + Z.of_nat n1) n2 = Some l2.
Proof.
  intros H1 H2. rewrite !load_Some, length_app. split.
  - intros [_ H]. split; split; try done; intros k b Hk.
    + apply H. rewrite lookup_app_l; [done|]. by eapply lookup_lt_Some.
    + rewrite <- Z.add_assoc, <- Nat2Z.inj_add. apply H.
      rewrite lookup_app_r by lia. rewrite <- Hk. f_equal. lia.
  - intros [[_ HA] [_ HB]]. split; [lia|]. intros k b Hk.
    apply lookup_app_Some in Hk as [Hk|[Hge Hk]]; [by apply HA|].
    specialize (HB _ _ Hk). rewrite <- HB. f_equal. lia.
Qed.

Lemma load_cons m a n b d : load m a (S n) = Some (b :: d) <-> m !! a = Some b /\ load m (a + 1) n = Some d.
Proof.
  rewrite !load_Some. cbn [length]. split.
  - intros [E H]. split; [specialize (H 0%nat b eq_refl); by rewrite Z.add_0_r in H|]. split; [lia|].
    intros k c Hk. specialize (H (S k) c Hk). rewrite <- H. f_equal. lia.
  - intros (H0 & E & H). split; [lia|]. intros [|k] c Hk; [injection Hk as <-; by rewrite Z.add_0_r|].
    specialize (H k c Hk). rewrite <- H. f_equal. lia.
Qed.

Lemma load_len m a n d : load m a n = Some d -> length d = n.
Proof. intros H. by apply load_Some in H as [H _]. Qed.

Lemma load_0 m a d : load m a 0 = Some d -> d = [].
Proof. intros H%load_len. by destruct d. Qed.

Lemma load_ext m m' a n : (forall i, a <= i < a + Z.of_nat n -> m' !! i = m !! i) -> load m' a n = load m a n.
Proof.
  intros H. unfold load. assert (forall i, i ∈ seqZ a (Z.of_nat n) -> m' !! i = m !! i) as H'.
  { intros i Hi. apply elem_of_seqZ in Hi. apply H. lia. }
  clear H. induction (seqZ a (Z.of_nat n)) as [|i l IH]; [done|]. cbn [mapM]. rewrite (H' i) by set_solver.
  rewrite IH; [done|]. intros j Hj. apply H'. set_solver.
Qed.

(** What is loaded is part of the memory. *)
Lemma load_size m a n d : load m a n = Some d -> (n <= size m)%nat.
Proof.
  intros [Hl H]%load_Some. rewrite <- (Nat2Z.id n) at 1. rewrite <- length_seqZ with (m := a).
  rewrite <- (size_list_to_set (C := gset Z)) by apply NoDup_seqZ. rewrite <- (size_dom (D := gset Z)).
  apply subseteq_size. intros i Hi. rewrite elem_of_list_to_set, elem_of_seqZ in Hi.
  destruct (lookup_lt_is_Some_2 d (Z.to_nat (i - a))) as [b Hb]; [lia|]. specialize (H _ _ Hb).
  apply elem_of_dom. exists b. rewrite <- H. f_equal. lia.
Qed.

(** ** Straight-line C with early returns

    A statement of a C function acts on a state and either falls through
    ([Go]), executes a [return] statement ([Return]), or performs an access
    with undefined behaviour ([Fault]). *)

Inductive outcome (S A : Type) : Type :=
| Go (a : A) (s : S)
| Return (s : S)
| Fault.
Arguments Go {S A} _ _.
Arguments Return {S A} _.
Arguments Fault {S A}.

Definition stmt (S A : Type) : Type := S -> outcome S A.

Section Stmt.
Context {S : Type}.

Definition sret {A} (a : A) : stmt S A := fun s => Go a s.
Definition sbind {A B} (c : stmt S A) (k : A -> stmt S B) : stmt S B :=
  fun s => match c s with
           | Go a s => k a s
           | Return s => Return s
           | Fault => Fault
           end.
Definition sget : stmt S S := fun s => Go s s.
Definition smodify (f : S -> S) : stmt S unit := fun s => Go tt (f s).
Definition sreturn {A} : stmt S A := fun s => Return s.
Definition sfault {A} : stmt S A := fun _ => Fault.
Definition swhen (b : bool) (c : stmt S unit) : stmt S unit := if b then c else sret tt.
Definition sopt {A} (o : option A) : stmt S A :=
  match o with Some a => sret a | None => sfault end.

(** Execution of a function body: [None] is undefined behaviour. *)
Definition exec {A} (c : stmt S A) (s : S) : option S :=
  match c s with
  | Go _ s => Some s
  | Return s => Some s
  | Fault => None
  end.

(** A call of a [void] function inside another body. *)
Definition scall {A} (c : stmt S A) : stmt S unit :=
  fun s => match exec c s with Some s => Go tt s | None => Fault end.
End Stmt.

Declare Scope stmt_scope.
Delimit Scope stmt_scope with stmt.
Module StmtNotations.
Notation "'let!' x ':=' c 'in' k" := (sbind c (fun x => k))
  (at level 100, x binder, c at next level, right associativity) : stmt_scope.
Notation "c ';!' k" := (sbind c (fun _ => k))
  (at level 100, right associativity) : stmt_scope.
End StmtNotations.

(** ** Partial functions

    Functions that may halt or read outside an object return an [option];
    [let?] passes the failure on. *)

Module OptionNotations.
Notation "'let?' x ':=' c 'in' k" := (match c with Some x => k | None => None end)
  (at level 100, x pattern, c at level 200, right associativity).
End OptionNotations.
