(* ===== verification/Float32.v ===== *)
(** * IEEE-754 arithmetic of the target

    The STM32F429 computes [float] in binary32 and [double] in binary64, both
    with round-to-nearest-even.  The operations are the Standard Library's
    executable specification [SpecFloat] at precisions 24 and 53; NaN payloads
    are not observable in the modelled code and are identified.  [float] and
    [double] values that the code reinterprets as integers are kept as bit
    patterns and related to [spec_float] by [of_bits]/[to_bits]. *)

From Stdlib Require Import ZArith Lia.
From Stdlib Require Import SpecFloat.
From stdpp Require Import base option numbers.
From S2P Require Import Prelude.

Local Open Scope Z_scope.

(** ** binary32 and binary64 *)

Definition f32_add (x y : spec_float) : spec_float := SFadd 24 128 x y.
Definition f32_sub (x y : spec_float) : spec_float := SFsub 24 128 x y.
Definition f32_mul (x y : spec_float) : spec_float := SFmul 24 128 x y.
Definition f32_div (x y : spec_float) : spec_float := SFdiv 24 128 x y.
Definition f64_add (x y : spec_float) : spec_float := SFadd 53 1024 x y.
Definition f64_sub (x y : spec_float) : spec_float := SFsub 53 1024 x y.
Definition f64_mul (x y : spec_float) : spec_float := SFmul 53 1024 x y.
Definition f64_div (x y : spec_float) : spec_float := SFdiv 53 1024 x y.

(** The relational operators of C: false when an operand is a NaN. *)
Definition flt (x y : spec_float) : bool := SFltb x y.
Definition fgt (x y : spec_float) : bool := SFltb y x.
Definition fle (x y : spec_float) : bool := SFleb x y.
Definition fge (x y : spec_float) : bool := SFleb y x.
Definition feq (x y : spec_float) : bool := SFeqb x y.

(** Conversions between the two formats and from integers. *)
Definition round_to (prec emax : Z) (x : spec_float) : spec_float :=
  match x with
  | S754_finite s m e => binary_round prec emax s m e
  | _ => x
  end.
Definition f32_of_f64 (x : spec_float) : spec_float := round_to 24 128 x.
Definition f64_of_f32 (x : spec_float) : spec_float := round_to 53 1024 x.
Definition f32_of_Z (z : Z) : spec_float := binary_normalize 24 128 z 0 false.
Definition f64_of_Z (z : Z) : spec_float := binary_normalize 53 1024 z 0 false.

(** The decimal literal [p/q] rounded to nearest, as the compiler does. *)
Definition f32_lit (p : Z) (q : positive) : spec_float :=
  match p with
  | Z0 => S754_zero false
  | Zpos m => SFdiv 24 128 (S754_finite false m 0) (S754_finite false q 0)
  | Zneg m => SFdiv 24 128 (S754_finite true m 0) (S754_finite false q 0)
  end.
Definition f64_lit (p : positive) (q : positive) : spec_float :=
  SFdiv 53 1024 (S754_finite false p 0) (S754_finite false q 0).

Definition f_zero : spec_float := S754_zero false.
Definition FLT_MIN : spec_float := S754_finite false (2 ^ 23) (-149).
Definition FLT_MAX : spec_float := SFmax_float 24 128.

(** Conversion to an integer type drops the fraction. *)
Definition f_val (m : positive) (e : Z) : Z :=
  match e with
  | Zneg _ => Zpos m / 2 ^ (- e)
  | _ => Zpos m * 2 ^ e
  end.
Definition f_trunc (x : spec_float) : option Z :=
  match x with
  | S754_zero _ => Some 0
  | S754_finite s m e => Some (if s then - f_val m e else f_val m e)
  | _ => None
  end.

(** A value that does not fit has no defined result in C (C11 6.3.1.4).  To [uint32_t]
    the processor's instruction saturates, and not-a-number gives zero. *)
Definition f_to_u32 (x : spec_float) : Z :=
  match x with
  | S754_finite false m e => Z.min (f_val m e) (2 ^ 32 - 1)
  | S754_infinity false => 2 ^ 32 - 1
  | _ => 0
  end.

(** To [int32_t]: [None] for a value that does not fit. *)
Definition f_to_s32 (x : spec_float) : option Z :=
  match f_trunc x with
  | Some z => if (- 2 ^ 31 <=? z) && (z <? 2 ^ 31) then Some z else None
  | None => None
  end.

(** ** Bit patterns

    [mw] mantissa bits and [ew] exponent bits: (23, 8) and (52, 11). *)

Definition of_bits (mw ew z : Z) : spec_float :=
  let s := Z.testbit z (mw + ew) in
  let ex := Z.land (Z.shiftr z mw) (Z.ones ew) in
  let man := Z.land z (Z.ones mw) in
  let bias := 2 ^ (ew - 1) - 1 in
  if ex =? Z.ones ew then (if man =? 0 then S754_infinity s else S754_nan)
  else if ex =? 0 then
    match man with
    | Zpos m => S754_finite s m (1 - bias - mw)
    | _ => S754_zero s
    end
  else match man + 2 ^ mw with
       | Zpos m => S754_finite s m (ex - bias - mw)
       | _ => S754_nan
       end.

Definition to_bits (mw ew : Z) (x : spec_float) : Z :=
  let bias := 2 ^ (ew - 1) - 1 in
  let sbit (s : bool) := if s then 2 ^ (mw + ew) else 0 in
  match x with
  | S754_zero s => sbit s
  | S754_infinity s => sbit s + Z.ones ew * 2 ^ mw
  | S754_nan => Z.ones ew * 2 ^ mw + 2 ^ (mw - 1)
  | S754_finite s m e =>
      if 2 ^ mw <=? Zpos m
      then sbit s + (e + bias + mw) * 2 ^ mw + (Zpos m - 2 ^ mw)
      else sbit s + Zpos m
  end.

Definition f32_of_bits (z : Z) : spec_float := of_bits 23 8 z.
Definition f32_to_bits (x : spec_float) : Z := to_bits 23 8 x.
Definition f64_of_bits (z : Z) : spec_float := of_bits 52 11 z.
Definition f64_to_bits (x : spec_float) : Z := to_bits 52 11 x.

(** The operations are unfolded only by evaluation of closed terms. *)
#[global] Arguments f32_add : simpl never.
#[global] Arguments f32_sub : simpl never.
#[global] Arguments f32_mul : simpl never.
#[global] Arguments f32_div : simpl never.
#[global] Arguments f64_add : simpl never.
#[global] Arguments f64_sub : simpl never.
#[global] Arguments f64_mul : simpl never.
#[global] Arguments f64_div : simpl never.
#[global] Arguments flt : simpl never.
#[global] Arguments fgt : simpl never.
#[global] Arguments fle : simpl never.
#[global] Arguments fge : simpl never.
#[global] Arguments feq : simpl never.
#[global] Arguments f32_of_f64 : simpl never.
#[global] Arguments f64_of_f32 : simpl never.
#[global] Arguments f32_of_Z : simpl never.
#[global] Arguments f64_of_Z : simpl never.

(** ** Order facts *)

Lemma flt_fle x y : flt x y = true -> fle x y = true.
Proof. unfold flt, fle, SFltb, SFleb. by destruct (SFcompare x y) as [[]|]. Qed.

Lemma fle_refl x : x <> S754_nan -> fle x x = true.
Proof.
  unfold fle, SFleb, SFcompare. destruct x as [?|[]| |[] m e]; try done;
    intros _; rewrite Z.compare_refl, Pos.compare_cont_refl; done.
Qed.

Lemma fle_not_nan_l x y : fle x y = true -> x <> S754_nan.
Proof. by destruct x. Qed.

Lemma fle_not_nan_r x y : fle x y = true -> y <> S754_nan.
Proof. by destruct x, y. Qed.

Lemma flt_not_nan x y : flt x y = true -> x <> S754_nan /\ y <> S754_nan.
Proof. intros H. apply flt_fle in H. eauto using fle_not_nan_l, fle_not_nan_r. Qed.

(** Negation of a comparison between numbers that are not NaN. *)
Lemma flt_false_fle x y :
  x <> S754_nan -> y <> S754_nan -> flt x y = false -> fle y x = true.
Proof.
  unfold flt, fle, SFltb, SFleb. intros Hx Hy.
  destruct x as [?|[]| |[] m e], y as [?|[]| |[] m' e']; try done; simpl;
    rewrite (Z.compare_antisym e e'); destruct (Z.compare e e') eqn:E; simpl; try done;
    fold (Pos.compare m m') (Pos.compare m' m); rewrite (Pos.compare_antisym m m');
    by destruct (Pos.compare m m').
Qed.

(** Patterns that are not NaNs survive the round trip through [spec_float]. *)
Section Bits.
Context (mw ew : Z) (Hmw : 0 < mw) (Hew : 1 < ew).

Lemma bits_split z :
  is_u (mw + ew + 1) z ->
  z = (if Z.testbit z (mw + ew) then 2 ^ (mw + ew) else 0)
      + Z.land (Z.shiftr z mw) (Z.ones ew) * 2 ^ mw + Z.land z (Z.ones mw).
Proof.
  intros [Hz0 Hz]. rewrite !Z.land_ones, Z.shiftr_div_pow2 by lia.
  assert (Z.testbit z (mw + ew) = (2 ^ (mw + ew) <=? z)) as ->.
  { rewrite Z.testbit_eqb by lia.
    replace (mw + ew + 1) with (Z.succ (mw + ew)) in Hz by lia.
    rewrite Z.pow_succ_r in Hz by lia.
    destruct (Z.leb_spec (2 ^ (mw + ew)) z).
    - apply Z.eqb_eq. replace (z / 2 ^ (mw + ew)) with 1; [done|].
      apply Z.div_unique with (z - 2 ^ (mw + ew)); lia.
    - apply Z.eqb_neq. rewrite Z.div_small by lia. done. }
  assert (0 < 2 ^ mw) by (apply Z.pow_pos_nonneg; lia).
  assert (0 < 2 ^ ew) by (apply Z.pow_pos_nonneg; lia).
  replace (mw + ew + 1) with (Z.succ (mw + ew)) in Hz by lia.
  rewrite Z.pow_succ_r, Z.pow_add_r in * by lia.
  pose proof (Z.div_mod z (2 ^ mw)) as Hd.
  pose proof (Z.mod_pos_bound z (2 ^ mw)) as Hb.
  set (q := z / 2 ^ mw) in *. set (r := z mod 2 ^ mw) in *.
  destruct (Z.leb_spec (2 ^ mw * 2 ^ ew) z).
  - replace (q mod 2 ^ ew) with (q - 2 ^ ew); [lia|].
    apply Z.mod_unique with 1; [left|]; nia.
  - rewrite Z.mod_small by nia. lia.
Qed.

Lemma to_of_bits z :
  is_u (mw + ew + 1) z -> of_bits mw ew z <> S754_nan ->
  to_bits mw ew (of_bits mw ew z) = z.
Proof.
  intros Hz Hn. pose proof (bits_split z Hz) as E. revert Hn.
  unfold of_bits. set (ex := Z.land (Z.shiftr z mw) (Z.ones ew)) in *.
  set (man := Z.land z (Z.ones mw)) in *. set (s := Z.testbit z (mw + ew)) in *.
  assert (0 <= man < 2 ^ mw) as Hman
    by (unfold man; rewrite Z.land_ones by lia; apply Z.mod_pos_bound; lia).
  destruct (Z.eqb_spec ex (Z.ones ew)) as [Ex|Ex].
  { destruct (Z.eqb_spec man 0); [|done]. intros _. unfold to_bits.
    rewrite <- Ex. lia. }
  destruct (Z.eqb_spec ex 0) as [Ez|Ez]; intros _.
  { destruct man as [|m|m] eqn:Em; unfold to_bits; [lia| |lia].
    destruct (Z.leb_spec (2 ^ mw) (Zpos m)); lia. }
  destruct (man + 2 ^ mw) as [|m|m] eqn:Em; [lia| |lia]. unfold to_bits.
  destruct (Z.leb_spec (2 ^ mw) (Zpos m)); [|lia].
  rewrite E at 1. nia.
Qed.
End Bits.

(** ** Size of the mantissa

    Every result of rounding has a mantissa below [2^prec]; on such numbers the
    order of the format is the order of the values, which gives bounds on the
    conversion to an integer. *)

Lemma shr_1_half r : 0 <= shr_m r -> shr_m (shr_1 r) = shr_m r / 2.
Proof.
  destruct r as [[|p|p] rr rs]; cbn [shr_m]; intros H; [done| |lia].
  destruct p as [p|p|]; cbn [shr_1 shr_m]; Z.div_mod_to_equations; lia.
Qed.

Lemma iter_shr_1 p : forall r, 0 <= shr_m r -> shr_m (SpecFloat.iter_pos shr_1 p r) = shr_m r / 2 ^ Zpos p.
Proof.
  induction p as [p IH|p IH|]; intros r Hr; cbn [SpecFloat.iter_pos].
  - assert (0 <= shr_m (shr_1 r)) by (rewrite shr_1_half by done; Z.div_mod_to_equations; lia).
    rewrite (IH (SpecFloat.iter_pos shr_1 p (shr_1 r))), IH, shr_1_half; try done.
    + rewrite !Z.div_div by lia. f_equal. change 2 with (2 ^ 1) at 1.
      rewrite <- !Z.pow_add_r by lia. f_equal. lia.
    + rewrite IH by done. apply Z.div_pos; lia.
  - rewrite (IH (SpecFloat.iter_pos shr_1 p r)), IH; try done.
    + rewrite Z.div_div by lia. f_equal. rewrite <- Z.pow_add_r by lia. f_equal. lia.
    + rewrite IH by done. apply Z.div_pos; lia.
  - by apply shr_1_half.
Qed.

Lemma digits2_pos_bound p : Zpos p < 2 ^ Zpos (digits2_pos p).
Proof.
  induction p as [p IH|p IH|]; cbn [digits2_pos]; rewrite ?Pos2Z.inj_succ, ?Z.pow_succ_r by lia; lia.
Qed.

Lemma Zdigits2_bound m : 0 <= m -> m < 2 ^ Zdigits2 m.
Proof. destruct m as [|p|p]; intros H; [done|apply digits2_pos_bound|lia]. Qed.

Lemma shr_fexp_bound prec emax m e l :
  0 < prec -> 0 <= m ->
  0 <= shr_m (fst (shr_fexp prec emax m e l)) < 2 ^ prec.
Proof.
  intros Hp Hm. unfold shr_fexp, shr.
  assert (shr_m (shr_record_of_loc m l) = m) as E by by destruct l as [|[]].
  assert (fexp prec emax (Zdigits2 m + e) - e >= Zdigits2 m - prec) as Hf by (unfold fexp; lia).
  pose proof (Zdigits2_bound m Hm) as Hd.
  destruct (fexp prec emax (Zdigits2 m + e) - e) as [|p|p] eqn:Ep; cbn [fst]; rewrite ?E.
  1, 3: split; [done|]; eapply Z.lt_le_trans; [exact Hd|]; apply Z.pow_le_mono_r; lia.
  rewrite iter_shr_1 by by rewrite E. rewrite E. split; [apply Z.div_pos; lia|].
  apply Z.div_lt_upper_bound; [lia|]. rewrite <- Z.pow_add_r by lia.
  eapply Z.lt_le_trans; [exact Hd|]. apply Z.pow_le_mono_r; lia.
Qed.

Definition mantissa_ok (prec : Z) (x : spec_float) : Prop :=
  match x with S754_finite _ m _ => Zpos m < 2 ^ prec | _ => True end.

Section Mantissa.
Context (prec emax : Z) (Hprec : 0 < prec).

Lemma round_aux_mantissa s m e l :
  0 <= m -> mantissa_ok prec (binary_round_aux prec emax s m e l).
Proof.
  intros Hm. unfold binary_round_aux.
  pose proof (shr_fexp_bound prec emax m e l Hprec Hm) as H1.
  destruct (shr_fexp prec emax m e l) as [r1 e1]. cbn [fst] in H1.
  assert (0 <= round_nearest_even (shr_m r1) (loc_of_shr_record r1)) as H2.
  { unfold round_nearest_even. destruct (loc_of_shr_record r1) as [|[]]; try lia.
    destruct (Z.even _); lia. }
  pose proof (shr_fexp_bound prec emax _ e1 loc_Exact Hprec H2) as H3.
  destruct (shr_fexp _ _ _ e1 _) as [r2 e2]. cbn [fst] in H3.
  destruct (shr_m r2); try done. destruct (_ <=? _); [exact (proj2 H3)|done].
Qed.

Lemma normalize_mantissa m e b : mantissa_ok prec (binary_normalize prec emax m e b).
Proof.
  unfold binary_normalize, binary_round. destruct m as [|m|m]; [done|..];
    destruct (shl_align _ _ _); by apply round_aux_mantissa.
Qed.

Lemma SFmul_mantissa x y : mantissa_ok prec (SFmul prec emax x y).
Proof. destruct x, y; try done. by apply round_aux_mantissa. Qed.

Lemma SFadd_mantissa x y :
  mantissa_ok prec x -> mantissa_ok prec y -> mantissa_ok prec (SFadd prec emax x y).
Proof.
  destruct x as [[]|[]| |], y as [[]|[]| |]; try done. intros _ _. apply normalize_mantissa.
Qed.

Lemma SFsub_mantissa x y :
  mantissa_ok prec x -> mantissa_ok prec y -> mantissa_ok prec (SFsub prec emax x y).
Proof.
  destruct x as [[]|[]| |], y as [[]|[]| |]; try done. intros _ _. apply normalize_mantissa.
Qed.
End Mantissa.

Lemma f_val_neg m e : e < 0 -> f_val m e = Zpos m / 2 ^ (- e).
Proof. by destruct e. Qed.
Lemma f_val_nonneg m e : 0 <= e -> f_val m e = Zpos m * 2 ^ e.
Proof. by destruct e. Qed.

Lemma f_val_pos m e : 0 <= f_val m e.
Proof.
  destruct (Z.lt_ge_cases e 0).
  - rewrite f_val_neg by done. apply Z.div_pos; lia.
  - rewrite f_val_nonneg by done. apply Z.mul_nonneg_nonneg; [lia|apply Z.pow_nonneg; lia].
Qed.

Lemma f_val_mono p q a b :
  a <= b -> Zpos p <= Zpos q * 2 ^ (b - a) -> f_val p a <= f_val q b.
Proof.
  intros Hab Hpq. destruct (Z.lt_ge_cases a 0) as [Ha|Ha], (Z.lt_ge_cases b 0) as [Hb|Hb]; [| |lia|].
  - rewrite !f_val_neg by done. replace (- a) with ((b - a) + - b) by lia.
    rewrite Z.pow_add_r by lia. rewrite <- Z.div_div by lia. apply Z.div_le_mono; [lia|].
    apply Z.div_le_upper_bound; lia.
  - rewrite f_val_neg, f_val_nonneg by done. apply Z.div_le_upper_bound; [lia|].
    replace (b - a) with (b + - a) in Hpq by lia. rewrite Z.pow_add_r in Hpq by lia. lia.
  - rewrite !f_val_nonneg by done.
    assert (2 ^ b = 2 ^ (b - a) * 2 ^ a) as -> by (rewrite <- Z.pow_add_r by lia; f_equal; lia).
    nia.
Qed.

(** Below a positive normal number, every number truncates to at most its value. *)
Lemma f_trunc_le prec x m e z :
  0 < prec -> mantissa_ok prec x -> 2 ^ (prec - 1) <= Zpos m ->
  fle x (S754_finite false m e) = true -> f_trunc x = Some z -> z <= f_val m e.
Proof.
  intros Hp Hx Hm Hle Hz. pose proof (f_val_pos m e).
  destruct x as [s|s| |s mx ex]; cbn [f_trunc] in Hz; try done; injection Hz as <-; [done|].
  pose proof (f_val_pos mx ex). destruct s; [lia|].
  unfold fle, SFleb, SFcompare in Hle. cbn [mantissa_ok] in Hx.
  destruct (Z.compare_spec ex e) as [He|He|He]; [|clear Hle|done].
  - subst ex. apply f_val_mono; [lia|]. rewrite Z.sub_diag, Z.mul_1_r.
    change (Pos.compare_cont Eq mx m) with (Pos.compare mx m) in Hle.
    destruct (Pos.compare_spec mx m); try done; lia.
  - apply f_val_mono; [lia|].
    assert (2 ^ 1 <= 2 ^ (e - ex)) by (apply Z.pow_le_mono_r; lia).
    assert (2 ^ prec = 2 * 2 ^ (prec - 1)) by
      (replace prec with (Z.succ (prec - 1)) at 1 by lia; rewrite Z.pow_succ_r; lia).
    nia.
Qed.
