(* ===== verification/Cwpack.v ===== *)
(** * CWPack, the MessagePack encoder: [src/src/cwpack/cwpack.c], pack side

    The packer writes MessagePack items into a caller-supplied buffer through
    three pointers ([start], [current], [end]).  Pointers are 32-bit addresses
    of the Cortex-M4, so [p + more] is computed modulo 2^32 as the target does.
    The build is little endian ([COMPILE_FOR_LITTLE_ENDIAN] in
    [cwpack_defines.h]), so the multi-byte stores are byte swaps followed by a
    little-endian word store.

    Alignment: the code stores through cast pointers at any address
    ([FORCE_ALIGNMENT] is not defined), which the C standard leaves undefined.
    The stores here work at every address, as the half-word and word
    instructions of the Cortex-M4 do, and take a 64-bit store to be two of these;
    the doubleword instruction that a compiler may choose for it faults at an
    address that is not a multiple of four, and that case is not modelled.  The
    same holds for the loads of [CwUnpack].

    The overflow handler is supplied by the caller and is a parameter; the
    firmware passes a null handler everywhere. *)

From Stdlib Require Import ZArith Lia.
From stdpp Require Import base gmap list option numbers.
From S2P Require Import Prelude Float32.
Import StmtNotations.

Local Open Scope Z_scope.
Local Open Scope stmt_scope.

(** ** Return codes, [cwpack.h] *)

Definition CWP_RC_OK : Z := 0.
Definition CWP_RC_END_OF_INPUT : Z := -1.
Definition CWP_RC_BUFFER_OVERFLOW : Z := -2.
Definition CWP_RC_BUFFER_UNDERFLOW : Z := -3.
Definition CWP_RC_MALFORMED_INPUT : Z := -4.
Definition CWP_RC_WRONG_BYTE_ORDER : Z := -5.
Definition CWP_RC_ILLEGAL_CALL : Z := -7.

(** ** Byte order *)

(** [test_byte_order] reads the four characters "1234" as one word. *)
Definition test_byte_order : Z :=
  if of_le [49; 50; 51; 52] =? 0x34333231 then CWP_RC_OK else CWP_RC_WRONG_BYTE_ORDER.

(** The values the little-endian [cw_store16/32/64] macros assign. *)
Definition cw_swap16 (d : Z) : Z :=
  u16 (Z.lor (Z.land (Z.shiftr d 8) 0xff) (Z.shiftl d 8)).

Definition cw_swap32 (x : Z) : Z :=
  let x := u32 x in
  u32 (Z.lor (Z.shiftr x 24)
      (Z.lor (Z.shiftr (Z.land x 0x00ff0000) 8)
      (Z.lor (u32 (Z.shiftl (Z.land x 0x0000ff00) 8))
             (u32 (Z.shiftl x 24))))).

Definition cw_swap64 (x : Z) : Z :=
  let x := u64 x in
  u64 (Z.lor (Z.land (Z.lor (Z.shiftr x 40) (u64 (Z.shiftl x 24))) 0x0000ff000000ff00)
      (Z.lor (Z.land (Z.lor (Z.shiftr x 24) (u64 (Z.shiftl x 40))) 0x00ff000000ff0000)
      (Z.lor (Z.shiftr (Z.land x 0x000000ff00000000) 8)
      (Z.lor (u64 (Z.shiftl (Z.land x 0x00000000ff000000) 8))
      (Z.lor (Z.shiftr x 56)
             (u64 (Z.shiftl x 56))))))).

(** ** The packer *)

Record cw_pack_context := PackCtx {
  start : Z;
  current : Z;
  end_ : Z;
  be_compatible : bool;
  return_code : Z;
  err_no : Z
}.

Record pack_state := PackState {
  ctx : cw_pack_context;
  pmem : gmap Z Z
}.

Definition set_ctx (f : cw_pack_context -> cw_pack_context) (s : pack_state) : pack_state :=
  PackState (f (ctx s)) (pmem s).
Definition set_current (p : Z) (c : cw_pack_context) : cw_pack_context :=
  PackCtx (start c) p (end_ c) (be_compatible c) (return_code c) (err_no c).
Definition set_return_code (rc : Z) (c : cw_pack_context) : cw_pack_context :=
  PackCtx (start c) (current c) (end_ c) (be_compatible c) rc (err_no c).

Definition cw_pack_context_init (data length : Z) (m : gmap Z Z) : Z * pack_state :=
  let rc := test_byte_order in
  (rc, PackState (PackCtx data data (u32 (data + length)) false rc 0) m).

Definition cw_pack_set_compatibility (b : bool) (s : pack_state) : pack_state :=
  set_ctx (fun c => PackCtx (start c) (current c) (end_ c) b (return_code c) (err_no c)) s.

Definition PACK_ERROR {A} (error_code : Z) : stmt pack_state A :=
  smodify (set_ctx (set_return_code error_code)) ;! sreturn.

(** [*p = b] for a byte, and the word stores, at any address (see the header). *)
Definition put_bytes (p : Z) (l : list Z) : stmt pack_state unit :=
  let! s := sget in
  let! m := sopt (store (pmem s) p l) in
  smodify (fun s => PackState (ctx s) m).

Definition cw_store16 (p d : Z) : stmt pack_state unit := put_bytes p (le_bytes 2 (cw_swap16 d)).
Definition cw_store32 (p d : Z) : stmt pack_state unit := put_bytes p (le_bytes 4 (cw_swap32 d)).
Definition cw_store64 (p d : Z) : stmt pack_state unit := put_bytes p (le_bytes 8 (cw_swap64 d)).

(** [memcpy(p, v, l)] where [v] points to an object holding the bytes [v]. *)
Definition memcpy_in (p : Z) (v : list Z) (l : Z) : stmt pack_state unit :=
  if Z.of_nat (length v) <? l then sfault else put_bytes p (take (Z.to_nat l) v).

Section Packer.
(** The overflow handler: gets the state and the space required, returns a
    code and the state in which it may have moved or flushed the buffer. *)
Variable handle_pack_overflow : option (pack_state -> Z -> Z * pack_state).

Definition cw_pack_reserve_space (more : Z) : stmt pack_state Z :=
  let! s := sget in
  let p := current (ctx s) in
  let nyp := u32 (p + more) in
  if end_ (ctx s) <? nyp then
    match handle_pack_overflow with
    | None => PACK_ERROR CWP_RC_BUFFER_OVERFLOW
    | Some h =>
        let rc := fst (h s (u32 more)) in
        let s' := snd (h s (u32 more)) in
        smodify (fun _ => s') ;!
        (if truthy rc then PACK_ERROR rc
         else
           let p := current (ctx s') in
           smodify (set_ctx (set_current (u32 (p + more)))) ;!
           sret p)
    end
  else
    smodify (set_ctx (set_current nyp)) ;!
    sret p.

Definition tryMove0 (t : Z) : stmt pack_state unit :=
  let! p := cw_pack_reserve_space 1 in
  put_bytes p [u8 t] ;! sreturn.

Definition tryMove1 (t d : Z) : stmt pack_state unit :=
  let! p := cw_pack_reserve_space 2 in
  put_bytes p [u8 t] ;! put_bytes (u32 (p + 1)) [u8 d] ;! sreturn.

Definition tryMove2 (t d : Z) : stmt pack_state unit :=
  let! p := cw_pack_reserve_space 3 in
  put_bytes p [u8 t] ;! cw_store16 (u32 (p + 1)) d ;! sreturn.

Definition tryMove4 (t d : Z) : stmt pack_state unit :=
  let! p := cw_pack_reserve_space 5 in
  put_bytes p [u8 t] ;! cw_store32 (u32 (p + 1)) d ;! sreturn.

Definition tryMove8 (t d : Z) : stmt pack_state unit :=
  let! p := cw_pack_reserve_space 9 in
  put_bytes p [u8 t] ;! cw_store64 (u32 (p + 1)) d ;! sreturn.

(** [if (pack_context->return_code) return;] *)
Definition check_rc : stmt pack_state unit :=
  let! s := sget in swhen (truthy (return_code (ctx s))) sreturn.

Definition cw_pack_unsigned (i : Z) : stmt pack_state unit :=
  check_rc ;!
  swhen (i <? 128) (tryMove0 i) ;!
  swhen (i <? 256) (tryMove1 0xcc i) ;!
  swhen (i <? 0x10000) (tryMove2 0xcd i) ;!
  swhen (i <? 0x100000000) (tryMove4 0xce i) ;!
  tryMove8 0xcf i.

Definition cw_pack_signed (i : Z) : stmt pack_state unit :=
  check_rc ;!
  swhen (127 <? i)
    (swhen (i <? 256) (tryMove1 0xcc i) ;!
     swhen (i <? 0x10000) (tryMove2 0xcd i) ;!
     swhen (i <? 0x100000000) (tryMove4 0xce i) ;!
     tryMove8 0xcf i) ;!
  swhen (-32 <=? i) (tryMove0 i) ;!
  swhen (-128 <=? i) (tryMove1 0xd0 i) ;!
  swhen (-32768 <=? i) (tryMove2 0xd1 i) ;!
  swhen (s64 0xffffffff80000000 <=? i) (tryMove4 0xd2 i) ;!
  tryMove8 0xd3 i.

(** The argument is the bit pattern of the [float] or [double]. *)
Definition cw_pack_float (f : Z) : stmt pack_state unit :=
  check_rc ;! tryMove4 0xca f.

Definition cw_pack_double (d : Z) : stmt pack_state unit :=
  check_rc ;! tryMove8 0xcb d.

Definition cw_pack_real (d : Z) : stmt pack_state unit :=
  let f := f32_of_f64 (f64_of_bits d) in
  let df := f64_of_f32 f in
  if feq df (f64_of_bits d) then scall (cw_pack_float (f32_to_bits f))
  else scall (cw_pack_double d).

Definition cw_pack_nil : stmt pack_state unit := check_rc ;! tryMove0 0xc0.
Definition cw_pack_true : stmt pack_state unit := check_rc ;! tryMove0 0xc3.
Definition cw_pack_false : stmt pack_state unit := check_rc ;! tryMove0 0xc2.
Definition cw_pack_boolean (b : bool) : stmt pack_state unit :=
  check_rc ;! tryMove0 (if b then 0xc3 else 0xc2).

Definition cw_pack_array_size (n : Z) : stmt pack_state unit :=
  check_rc ;!
  swhen (n <? 16) (tryMove0 (Z.lor 0x90 n)) ;!
  swhen (n <? 65536) (tryMove2 0xdc n) ;!
  tryMove4 0xdd n.

Definition cw_pack_map_size (n : Z) : stmt pack_state unit :=
  check_rc ;!
  swhen (n <? 16) (tryMove0 (Z.lor 0x80 n)) ;!
  swhen (n <? 65536) (tryMove2 0xde n) ;!
  tryMove4 0xdf n.

Definition cw_pack_str (v : list Z) (l : Z) : stmt pack_state unit :=
  check_rc ;!
  swhen (l <? 32)
    (let! p := cw_pack_reserve_space (l + 1) in
     put_bytes p [u8 (0xa0 + l)] ;!
     memcpy_in (u32 (p + 1)) v l ;! sreturn) ;!
  (let! s := sget in
   swhen ((l <? 256) && negb (be_compatible (ctx s)))
    (let! p := cw_pack_reserve_space (l + 2) in
     put_bytes p [0xd9] ;!
     put_bytes (u32 (p + 1)) [u8 l] ;!
     memcpy_in (u32 (p + 2)) v l ;! sreturn)) ;!
  swhen (l <? 65536)
    (let! p := cw_pack_reserve_space (l + 3) in
     put_bytes p [0xda] ;!
     cw_store16 (u32 (p + 1)) l ;!
     memcpy_in (u32 (p + 3)) v l ;! sreturn) ;!
  (let! p := cw_pack_reserve_space (l + 5) in
   put_bytes p [0xdb] ;!
   cw_store32 (u32 (p + 1)) l ;!
   memcpy_in (u32 (p + 5)) v l ;! sreturn).

Definition cw_pack_bin (v : list Z) (l : Z) : stmt pack_state unit :=
  check_rc ;!
  (let! s := sget in
   swhen (be_compatible (ctx s)) (scall (cw_pack_str v l) ;! sreturn)) ;!
  swhen (l <? 256)
    (let! p := cw_pack_reserve_space (l + 2) in
     put_bytes p [0xc4] ;!
     put_bytes (u32 (p + 1)) [u8 l] ;!
     memcpy_in (u32 (p + 2)) v l ;! sreturn) ;!
  swhen (l <? 65536)
    (let! p := cw_pack_reserve_space (l + 3) in
     put_bytes p [0xc5] ;!
     cw_store16 (u32 (p + 1)) l ;!
     memcpy_in (u32 (p + 3)) v l ;! sreturn) ;!
  (let! p := cw_pack_reserve_space (l + 5) in
   put_bytes p [0xc6] ;!
   cw_store32 (u32 (p + 1)) l ;!
   memcpy_in (u32 (p + 5)) v l ;! sreturn).

(** The fixext cases share the tail after the [switch]. *)
Definition cw_pack_ext (type : Z) (v : list Z) (l : Z) : stmt pack_state unit :=
  check_rc ;!
  (let! s := sget in
   swhen (be_compatible (ctx s)) (PACK_ERROR CWP_RC_ILLEGAL_CALL)) ;!
  let tail (p : Z) : stmt pack_state unit :=
    put_bytes p [u8 type] ;! memcpy_in (u32 (p + 1)) v l in
  let fixext (tag more : Z) : stmt pack_state unit :=
    let! p := cw_pack_reserve_space more in
    put_bytes p [tag] ;! tail (u32 (p + 1)) in
  if l =? 1 then
    let! p := cw_pack_reserve_space 3 in
    put_bytes p [0xd4] ;!
    put_bytes (u32 (p + 1)) [u8 type] ;!
    memcpy_in (u32 (p + 2)) v 1 ;! sreturn
  else if l =? 2 then fixext 0xd5 4
  else if l =? 4 then fixext 0xd6 6
  else if l =? 8 then fixext 0xd7 10
  else if l =? 16 then fixext 0xd8 18
  else if l <? 256 then
    let! p := cw_pack_reserve_space (l + 3) in
    put_bytes p [0xc7] ;!
    put_bytes (u32 (p + 1)) [u8 l] ;!
    tail (u32 (p + 2))
  else if l <? 65536 then
    let! p := cw_pack_reserve_space (l + 4) in
    put_bytes p [0xc8] ;!
    cw_store16 (u32 (p + 1)) l ;!
    tail (u32 (p + 3))
  else
    let! p := cw_pack_reserve_space (l + 6) in
    put_bytes p [0xc9] ;!
    cw_store32 (u32 (p + 1)) l ;!
    tail (u32 (p + 5)).

Definition cw_pack_insert (v : list Z) (l : Z) : stmt pack_state unit :=
  let! p := cw_pack_reserve_space l in
  memcpy_in p v l.
End Packer.
