(* ===== verification/CwpackSpec.v ===== *)
(** * MessagePack encoding: what the CWPack packer writes

    [enc] is the MessagePack encoding of one item as a byte list.  The packer
    of [Cwpack.v] refines it: a pack call appends exactly [enc] to the buffer
    when it fits, and otherwise leaves memory alone and latches
    [CWP_RC_BUFFER_OVERFLOW]. *)

From Stdlib Require Import ZArith Lia.
From stdpp Require Import base gmap list option numbers.
From S2P Require Import Prelude Float32 Cwpack.
Import StmtNotations.

Local Open Scope Z_scope.
Local Open Scope stmt_scope.

(** ** The items the packing routines write *)

Inductive pack_cmd :=
| PNil
| PBool (b : bool)
| PUnsigned (i : Z)
| PSigned (i : Z)
| PFloat (f : Z)
| PDouble (d : Z)
| PArray (n : Z)
| PMap (n : Z)
| PStr (v : list Z)
| PBin (v : list Z)
| PExt (t : Z) (v : list Z).

(** The arguments are values of the C parameter types. *)
Definition cmd_ok (c : pack_cmd) : Prop :=
  match c with
  | PNil | PBool _ => True
  | PUnsigned i | PDouble i => is_u 64 i
  | PSigned i => - 2 ^ 63 <= i < 2 ^ 63
  | PFloat f => is_u 32 f
  | PArray n | PMap n => is_u 32 n
  | PStr v | PBin v => bytes v /\ is_u 32 (Z.of_nat (length v))
  | PExt t v => - 128 <= t < 128 /\ bytes v /\ is_u 32 (Z.of_nat (length v))
  end.

(** Number of payload bytes; the item header takes at most nine more. *)
Definition payload (c : pack_cmd) : Z :=
  match c with
  | PStr v | PBin v | PExt _ v => Z.of_nat (length v)
  | _ => 0
  end.

Definition pack (c : pack_cmd) : stmt pack_state unit :=
  match c with
  | PNil => cw_pack_nil None
  | PBool b => cw_pack_boolean None b
  | PUnsigned i => cw_pack_unsigned None i
  | PSigned i => cw_pack_signed None i
  | PFloat f => cw_pack_float None f
  | PDouble d => cw_pack_double None d
  | PArray n => cw_pack_array_size None n
  | PMap n => cw_pack_map_size None n
  | PStr v => cw_pack_str None v (Z.of_nat (length v))
  | PBin v => cw_pack_bin None v (Z.of_nat (length v))
  | PExt t v => cw_pack_ext None t v (Z.of_nat (length v))
  end.

(** ** The encoding *)

Definition enc_unsigned (i : Z) : list Z :=
  if i <? 128 then [i]
  else if i <? 256 then [0xcc; i]
  else if i <? 0x10000 then 0xcd :: be_bytes 2 i
  else if i <? 0x100000000 then 0xce :: be_bytes 4 i
  else 0xcf :: be_bytes 8 i.

Definition enc_signed (i : Z) : list Z :=
  if 0 <=? i then enc_unsigned i
  else if -32 <=? i then [i mod 256]
  else if -128 <=? i then [0xd0; i mod 256]
  else if -32768 <=? i then 0xd1 :: be_bytes 2 i
  else if - 2 ^ 31 <=? i then 0xd2 :: be_bytes 4 i
  else 0xd3 :: be_bytes 8 i.

Definition enc_size (fix_tag tag16 tag32 n : Z) : list Z :=
  if n <? 16 then [fix_tag + n]
  else if n <? 65536 then tag16 :: be_bytes 2 n
  else tag32 :: be_bytes 4 n.

Definition str_header (compat : bool) (l : Z) : list Z :=
  if l <? 32 then [0xa0 + l]
  else if (l <? 256) && negb compat then [0xd9; l]
  else if l <? 65536 then 0xda :: be_bytes 2 l
  else 0xdb :: be_bytes 4 l.

Definition bin_header (l : Z) : list Z :=
  if l <? 256 then [0xc4; l]
  else if l <? 65536 then 0xc5 :: be_bytes 2 l
  else 0xc6 :: be_bytes 4 l.

Definition ext_header (l : Z) : list Z :=
  if l =? 1 then [0xd4]
  else if l =? 2 then [0xd5]
  else if l =? 4 then [0xd6]
  else if l =? 8 then [0xd7]
  else if l =? 16 then [0xd8]
  else if l <? 256 then [0xc7; l]
  else if l <? 65536 then 0xc8 :: be_bytes 2 l
  else 0xc9 :: be_bytes 4 l.

(** Extension items do not exist in the old specification that
    [be_compatible] selects; binary items are written as strings there. *)
Definition enc (compat : bool) (c : pack_cmd) : option (list Z) :=
  match c with
  | PNil => Some [0xc0]
  | PBool b => Some [if b then 0xc3 else 0xc2]
  | PUnsigned i => Some (enc_unsigned i)
  | PSigned i => Some (enc_signed i)
  | PFloat f => Some (0xca :: be_bytes 4 f)
  | PDouble d => Some (0xcb :: be_bytes 8 d)
  | PArray n => Some (enc_size 0x90 0xdc 0xdd n)
  | PMap n => Some (enc_size 0x80 0xde 0xdf n)
  | PStr v => Some (str_header compat (Z.of_nat (length v)) ++ v)
  | PBin v =>
      if compat then Some (str_header compat (Z.of_nat (length v)) ++ v)
      else Some (bin_header (Z.of_nat (length v)) ++ v)
  | PExt t v =>
      if compat then None
      else Some (ext_header (Z.of_nat (length v)) ++ [t mod 256] ++ v)
  end.

(** Appending bytes to the buffer, the abstract effect of a pack call. *)
Definition emit (l : list Z) (s : pack_state) : pack_state :=
  if truthy (return_code (ctx s)) then s
  else if end_ (ctx s) <? current (ctx s) + Z.of_nat (length l)
       then set_ctx (set_return_code CWP_RC_BUFFER_OVERFLOW) s
       else PackState (set_current (current (ctx s) + Z.of_nat (length l)) (ctx s))
                      (write (pmem s) (current (ctx s)) l).

Definition emit_cmd (c : pack_cmd) (s : pack_state) : pack_state :=
  match enc (be_compatible (ctx s)) c with
  | Some l => emit l s
  | None => if truthy (return_code (ctx s)) then s
            else set_ctx (set_return_code CWP_RC_ILLEGAL_CALL) s
  end.

(** ** Well-formed contexts *)

Record pack_wf (s : pack_state) : Prop := {
  wf_order : 0 <= start (ctx s) <= current (ctx s) /\ current (ctx s) <= end_ (ctx s);
  wf_top : end_ (ctx s) < 2 ^ 32;
  wf_alloc : allocated (pmem s) (start (ctx s)) (end_ (ctx s) - start (ctx s))
}.

(** ** The little-endian stores write big-endian bytes *)

Ltac swap_bits n :=
  apply (bits_eq n); [lia|apply wrap_range; lia| apply of_le_range; apply bytes_be_bytes|];
  let i := fresh "i" in intros i ?;
  unfold be_bytes; cbn [le_bytes rev app of_le];
  let m := eval vm_compute in (Z.to_nat n) in enum_bit i m;
  repeat match goal with H : _ <> _ |- _ => clear H end; repeat bit_step;
  repeat match goal with |- context [Z.testbit ?x ?k] => destruct (Z.testbit x k) end; reflexivity.


Lemma cw_swap16_val x : cw_swap16 x = of_le (be_bytes 2 x).
Proof. unfold cw_swap16, u16. swap_bits 16. Qed.

Lemma cw_swap32_val x : cw_swap32 x = of_le (be_bytes 4 x).
Proof. unfold cw_swap32, u32. swap_bits 32. Qed.

Lemma cw_swap64_val x : cw_swap64 x = of_le (be_bytes 8 x).
Proof. unfold cw_swap64, u64. swap_bits 64. Qed.

Lemma le_bytes_of_le_be n x : le_bytes n (of_le (be_bytes n x)) = be_bytes n x.
Proof.
  rewrite <- (length_be_bytes n x) at 1. apply le_bytes_of_le, bytes_be_bytes.
Qed.

Lemma cw_swap16_be x : le_bytes 2 (cw_swap16 x) = be_bytes 2 x.
Proof. rewrite cw_swap16_val. apply le_bytes_of_le_be. Qed.

Lemma cw_swap32_be x : le_bytes 4 (cw_swap32 x) = be_bytes 4 x.
Proof. rewrite cw_swap32_val. apply le_bytes_of_le_be. Qed.

Lemma cw_swap64_be x : le_bytes 8 (cw_swap64 x) = be_bytes 8 x.
Proof. rewrite cw_swap64_val. apply le_bytes_of_le_be. Qed.

(** Swapping twice is the conversion to the width. *)
Lemma of_le_be_twice n z : of_le (be_bytes n (of_le (be_bytes n z))) = z mod 256 ^ Z.of_nat n.
Proof.
  unfold be_bytes at 1. rewrite le_bytes_of_le_be. unfold be_bytes.
  by rewrite rev_involutive, of_le_le_bytes.
Qed.
