(* ===== verification/CwpackProof.v ===== *)
(** * The packer refines the MessagePack encoding

    Every pack routine of [Cwpack.v], run without an overflow handler on a
    well-formed context, has exactly the abstract effect [emit_cmd]. *)

From Stdlib Require Import ZArith Lia.
From stdpp Require Import base gmap list option numbers.
From S2P Require Import Prelude Float32 Cwpack CwpackSpec.
Import StmtNotations.

Local Open Scope Z_scope.
Local Open Scope stmt_scope.

(** ** Stepping through a pack routine *)

Lemma sbind_Go {S A B} (c : stmt S A) (k : A -> stmt S B) a s s' :
  c s = Go a s' -> (let! x := c in k x) s = k a s'.
Proof. unfold sbind. by intros ->. Qed.

Lemma sbind_Return {S A B} (c : stmt S A) (k : A -> stmt S B) s s' :
  c s = Return s' -> (let! x := c in k x) s = Return s'.
Proof. unfold sbind. by intros ->. Qed.

Lemma put_bytes_Go p l s :
  allocated (pmem s) p (Z.of_nat (length l)) ->
  put_bytes p l s = Go tt (PackState (ctx s) (write (pmem s) p l)).
Proof.
  intros H. unfold put_bytes, sbind, sget, sopt. by rewrite store_allocated.
Qed.

Definition reserved (n : Z) (s : pack_state) : pack_state :=
  set_ctx (set_current (current (ctx s) + n)) s.
Definition overflowed (s : pack_state) : pack_state :=
  set_ctx (set_return_code CWP_RC_BUFFER_OVERFLOW) s.

Lemma reserve_cases n s :
  pack_wf s -> 0 <= n -> current (ctx s) + n < 2 ^ 32 ->
  cw_pack_reserve_space None n s =
    if end_ (ctx s) <? current (ctx s) + n then Return (overflowed s)
    else Go (current (ctx s)) (reserved n s).
Proof.
  intros [Ho Ht _] Hn Hc. unfold cw_pack_reserve_space, sbind, sget.
  rewrite u32_small by lia.
  by destruct (_ <? _).
Qed.

(** A list of chunks written one after the other. *)
Fixpoint put_chunks (p : Z) (ls : list (list Z)) : stmt pack_state unit :=
  match ls with
  | [] => sret tt
  | l :: ls => put_bytes p l ;! put_chunks (u32 (p + Z.of_nat (length l))) ls
  end.

Lemma put_chunks_Go p ls s :
  0 <= p -> p + Z.of_nat (length (concat ls)) < 2 ^ 32 ->
  allocated (pmem s) p (Z.of_nat (length (concat ls))) ->
  put_chunks p ls s = Go tt (PackState (ctx s) (write (pmem s) p (concat ls))).
Proof.
  revert p s; induction ls as [|l ls IH]; intros p s Hp Hb Ha; simpl in *.
  - by destruct s.
  - rewrite length_app in *.
    erewrite sbind_Go by (apply put_bytes_Go; eapply allocated_sub; [done|lia..]).
    rewrite u32_small by lia. rewrite IH; simpl; [by rewrite write_app|lia..|].
    apply allocated_write. eapply allocated_sub; [done|lia..].
Qed.

(** The common shape of all the packing routines: reserve, then write. *)
Lemma exec_bind {S A B} (c : stmt S A) (k : A -> stmt S B) s :
  exec (let! x := c in k x) s =
    match c s with Go a s' => exec (k a) s' | Return s' => Some s' | Fault => None end.
Proof. unfold exec, sbind. by destruct (c s). Qed.

Lemma exec_reserve_write (body : Z -> stmt pack_state unit) ls n s :
  pack_wf s -> return_code (ctx s) = 0 ->
  n = Z.of_nat (length (concat ls)) -> current (ctx s) + n < 2 ^ 32 ->
  (forall p s', exec (body p) s' = exec (put_chunks p ls) s') ->
  exec (let! p := cw_pack_reserve_space None n in body p) s = Some (emit (concat ls) s).
Proof.
  intros Hwf Hrc -> Hb E. unfold emit. rewrite Hrc, exec_bind. simpl truthy. cbv iota.
  pose proof Hwf as [Ho Ht Ha]. rewrite reserve_cases by (done || lia).
  destruct (Z.ltb_spec (end_ (ctx s)) (current (ctx s) + Z.of_nat (length (concat ls))));
    [done|].
  rewrite E. unfold exec. rewrite put_chunks_Go; simpl; [done|lia..|].
  eapply allocated_sub; [done|lia..].
Qed.

(** [exec] only looks at the final state, so a body that falls through and a
    body that returns are the same to a caller. *)
Lemma exec_check_rc (c : stmt pack_state unit) s :
  exec (check_rc ;! c) s =
    if truthy (return_code (ctx s)) then Some s else exec c s.
Proof. unfold exec, check_rc, sbind, swhen, sget, sreturn. by destruct (truthy _). Qed.

Lemma exec_when {S} (b : bool) (c d : stmt S unit) s :
  (forall s', c s <> Go tt s') ->
  exec (swhen b c ;! d) s = if b then exec c s else exec d s.
Proof.
  intros H. unfold exec, sbind, swhen, sret. destruct b; [|done].
  destruct (c s) as [[] s'| |]; try done. by destruct (H s').
Qed.

Definition returns {S A} (c : stmt S A) : Prop := forall s a s', c s <> Go a s'.

Lemma returns_bind {S A B} (c : stmt S A) (k : A -> stmt S B) :
  (forall a, returns (k a)) -> returns (let! x := c in k x).
Proof. intros H s b s'. unfold sbind. destruct (c s); [apply H|done|done]. Qed.

Lemma returns_sreturn {S A} : returns (@sreturn S A).
Proof. by intros s a s'. Qed.

Lemma exec_when_returns {S} (b : bool) (c d : stmt S unit) s :
  returns c -> exec (swhen b c ;! d) s = if b then exec c s else exec d s.
Proof. intros H. apply exec_when. intros s'. apply H. Qed.

Lemma exec_get_when {S} (b : S -> bool) (c d : stmt S unit) s :
  returns c ->
  exec ((let! s := sget in swhen (b s) c) ;! d) s = if b s then exec c s else exec d s.
Proof.
  intros H. unfold exec, sbind, swhen, sret, sget. destruct (b s); [|done].
  pose proof (H s) as Hs. destruct (c s) as [[] s'| |]; try done. by destruct (Hs tt s').
Qed.

Lemma exec_scall_return {S} (c : stmt S unit) s : exec (scall c ;! (sreturn : stmt S unit)) s = exec c s.
Proof. unfold exec at 1, sbind, scall, sreturn. by destruct (exec c s). Qed.

Ltac solve_returns :=
  repeat first [apply returns_sreturn | apply returns_bind; intros].

Lemma memcpy_in_all p v l : l = Z.of_nat (length v) -> memcpy_in p v l = put_bytes p v.
Proof.
  intros ->. unfold memcpy_in. rewrite Z.ltb_irrefl, Nat2Z.id. by rewrite take_ge.
Qed.

(** The bodies are the chunk writers: unfold, and follow the stores. *)
Ltac solve_chunks :=
  intros ? ?; unfold exec, sreturn, cw_store16, cw_store32, cw_store64;
  cbn [put_chunks length]; unfold sret;
  rewrite ?cw_swap16_be, ?cw_swap32_be, ?cw_swap64_be, ?memcpy_in_all by lia;
  rewrite ?length_be_bytes; cbn [length];
  change (Z.of_nat 1) with 1; change (Z.of_nat 2) with 2;
  change (Z.of_nat 4) with 4; change (Z.of_nat 8) with 8;
  rewrite ?u32_add_l, <- ?Z.add_assoc;
  repeat match goal with
         | |- context [Zpos ?a + Zpos ?b] =>
             let v := eval vm_compute in (Zpos a + Zpos b) in change (Zpos a + Zpos b) with v
         end;
  unfold sbind;
  repeat match goal with |- context [put_bytes ?p ?l ?s] => destruct (put_bytes p l s) as [[] ?| |] end;
  reflexivity.

Section Moves.
Context (s : pack_state) (Hwf : pack_wf s) (Hrc : return_code (ctx s) = 0).

Lemma tryMove0_emit t :
  current (ctx s) + 1 < 2 ^ 32 ->
  exec (tryMove0 None t) s = Some (emit [u8 t] s).
Proof.
  intros. change [u8 t] with (concat [[u8 t]]).
  apply exec_reserve_write; [done..|solve_chunks].
Qed.

Lemma tryMove1_emit t d :
  current (ctx s) + 2 < 2 ^ 32 ->
  exec (tryMove1 None t d) s = Some (emit [u8 t; u8 d] s).
Proof.
  intros. change [u8 t; u8 d] with (concat [[u8 t]; [u8 d]]).
  apply exec_reserve_write; [done..|solve_chunks].
Qed.

Lemma tryMove2_emit t d :
  current (ctx s) + 3 < 2 ^ 32 ->
  exec (tryMove2 None t d) s = Some (emit (u8 t :: be_bytes 2 d) s).
Proof.
  intros. change (u8 t :: be_bytes 2 d) with (concat [[u8 t]; be_bytes 2 d]).
  apply exec_reserve_write; [done..|solve_chunks].
Qed.

Lemma tryMove4_emit t d :
  current (ctx s) + 5 < 2 ^ 32 ->
  exec (tryMove4 None t d) s = Some (emit (u8 t :: be_bytes 4 d) s).
Proof.
  intros. change (u8 t :: be_bytes 4 d) with (concat [[u8 t]; be_bytes 4 d]).
  apply exec_reserve_write; [done..|solve_chunks].
Qed.

Lemma tryMove8_emit t d :
  current (ctx s) + 9 < 2 ^ 32 ->
  exec (tryMove8 None t d) s = Some (emit (u8 t :: be_bytes 8 d) s).
Proof.
  intros. change (u8 t :: be_bytes 8 d) with (concat [[u8 t]; be_bytes 8 d]).
  apply exec_reserve_write; [done..|solve_chunks].
Qed.
End Moves.

(** ** Refinement of each routine *)

Lemma emit_latched l s : truthy (return_code (ctx s)) = true -> emit l s = s.
Proof. intros H. unfold emit. by rewrite H. Qed.

Lemma emit_cmd_latched c s : truthy (return_code (ctx s)) = true -> emit_cmd c s = s.
Proof.
  intros H. unfold emit_cmd. rewrite H. destruct (enc _ c); [by apply emit_latched|done].
Qed.

Lemma truthy_false z : truthy z = false -> z = 0.
Proof. unfold truthy. destruct (Z.eqb_spec z 0); done. Qed.

Section Refine.
Context (s : pack_state) (Hwf : pack_wf s).

(** A set return code: both sides leave the state alone. *)
Ltac by_rc :=
  rewrite exec_check_rc;
  destruct (truthy (return_code (ctx s))) eqn:Erc;
  [by rewrite emit_cmd_latched|]; pose proof (truthy_false _ Erc) as Hrc;
  unfold emit_cmd, enc.

Ltac by_when := repeat (rewrite exec_when_returns; [|solve [solve_returns]]).

Ltac by_move :=
  first [ rewrite tryMove0_emit | rewrite tryMove1_emit | rewrite tryMove2_emit
        | rewrite tryMove4_emit | rewrite tryMove8_emit ]; [|done|done|lia].

Lemma unsigned_refines i :
  is_u 64 i -> current (ctx s) + 9 < 2 ^ 32 ->
  exec (cw_pack_unsigned None i) s = Some (emit_cmd (PUnsigned i) s).
Proof.
  intros [Hi _] Hc. unfold cw_pack_unsigned. by_rc. by_when. unfold enc_unsigned.
  case_cmp; by_move; rewrite ?u8_small by lia; done.
Qed.

Lemma signed_refines i :
  - 2 ^ 63 <= i < 2 ^ 63 -> current (ctx s) + 9 < 2 ^ 32 ->
  exec (cw_pack_signed None i) s = Some (emit_cmd (PSigned i) s).
Proof.
  intros Hi Hc. unfold cw_pack_signed. by_rc. by_when.
  change (s64 0xffffffff80000000) with (- 2 ^ 31). unfold enc_signed, enc_unsigned.
  case_cmp; try lia; by_move; rewrite ?u8_small by lia; done.
Qed.

Lemma float_refines f :
  current (ctx s) + 9 < 2 ^ 32 ->
  exec (cw_pack_float None f) s = Some (emit_cmd (PFloat f) s).
Proof. intros Hc. unfold cw_pack_float. by_rc. by by_move. Qed.

Lemma double_refines d :
  current (ctx s) + 9 < 2 ^ 32 ->
  exec (cw_pack_double None d) s = Some (emit_cmd (PDouble d) s).
Proof. intros Hc. unfold cw_pack_double. by_rc. by by_move. Qed.

Lemma nil_refines :
  current (ctx s) + 9 < 2 ^ 32 ->
  exec (cw_pack_nil None) s = Some (emit_cmd PNil s).
Proof. intros Hc. unfold cw_pack_nil. by_rc. by by_move. Qed.

Lemma boolean_refines b :
  current (ctx s) + 9 < 2 ^ 32 ->
  exec (cw_pack_boolean None b) s = Some (emit_cmd (PBool b) s).
Proof. intros Hc. unfold cw_pack_boolean. by_rc. by_move. by destruct b. Qed.

Lemma fix_tag_lor tag n : 0 <= n < 16 -> tag = 0x90 \/ tag = 0x80 -> u8 (Z.lor tag n) = tag + n.
Proof.
  intros Hn Ht.
  assert (Hc : forall k : nat, (k < 16)%nat ->
             u8 (Z.lor 0x90 (Z.of_nat k)) = 0x90 + Z.of_nat k /\
             u8 (Z.lor 0x80 (Z.of_nat k)) = 0x80 + Z.of_nat k).
  { intros k Hk. do 16 (destruct k as [|k]; [by vm_compute|]). lia. }
  specialize (Hc (Z.to_nat n)). rewrite Z2Nat.id in Hc by lia.
  destruct Ht as [->| ->]; apply Hc; lia.
Qed.

Lemma array_refines n :
  is_u 32 n -> current (ctx s) + 9 < 2 ^ 32 ->
  exec (cw_pack_array_size None n) s = Some (emit_cmd (PArray n) s).
Proof.
  intros [Hn _] Hc. unfold cw_pack_array_size. by_rc. by_when. unfold enc_size.
  case_cmp; by_move; rewrite ?fix_tag_lor by auto with lia; done.
Qed.

Lemma map_refines n :
  is_u 32 n -> current (ctx s) + 9 < 2 ^ 32 ->
  exec (cw_pack_map_size None n) s = Some (emit_cmd (PMap n) s).
Proof.
  intros [Hn _] Hc. unfold cw_pack_map_size. by_rc. by_when. unfold enc_size.
  case_cmp; by_move; rewrite ?fix_tag_lor by auto with lia; done.
Qed.

(** [by_chunks ls] closes a blob branch that writes the chunks [ls]. *)
Ltac by_chunks ls :=
  transitivity (Some (emit (concat ls) s));
  [apply exec_reserve_write;
     [done|done| cbn [concat app length];
                 repeat (rewrite ?length_app, ?length_be_bytes; cbn [length]); lia
     | lia | solve_chunks]
  |cbn [concat app]; rewrite ?app_nil_r;
   try rewrite (u8_small (Z.of_nat _)) by lia;
   try rewrite (u8_small (0xa0 + _)) by lia; done].

Lemma str_branches v :
  return_code (ctx s) = 0 -> current (ctx s) + Z.of_nat (length v) + 9 < 2 ^ 32 ->
  exec (cw_pack_str None v (Z.of_nat (length v))) s =
    Some (emit (str_header (be_compatible (ctx s)) (Z.of_nat (length v)) ++ v) s).
Proof.
  intros Hrc Hc. unfold cw_pack_str. rewrite exec_check_rc, Hrc. simpl truthy. cbv iota.
  rewrite exec_when_returns by solve_returns. unfold str_header.
  rewrite (exec_get_when (fun s => (Z.of_nat (length v) <? 256)
             && negb (be_compatible (ctx s)))) by solve_returns.
  rewrite exec_when_returns by solve_returns.
  destruct (Z.ltb_spec (Z.of_nat (length v)) 32).
  { by_chunks [[u8 (0xa0 + Z.of_nat (length v))]; v]. }
  destruct (Z.ltb_spec (Z.of_nat (length v)) 256); simpl andb;
    [destruct (negb (be_compatible (ctx s)))|];
    [by_chunks [[0xd9]; [u8 (Z.of_nat (length v))]; v]| |];
    (destruct (Z.ltb_spec (Z.of_nat (length v)) 65536);
     [by_chunks [[0xda]; be_bytes 2 (Z.of_nat (length v)); v]
     |by_chunks [[0xdb]; be_bytes 4 (Z.of_nat (length v)); v]]).
Qed.

Lemma str_refines v :
  current (ctx s) + Z.of_nat (length v) + 9 < 2 ^ 32 ->
  exec (cw_pack_str None v (Z.of_nat (length v))) s = Some (emit_cmd (PStr v) s).
Proof.
  intros Hc. destruct (truthy (return_code (ctx s))) eqn:Erc.
  - unfold cw_pack_str. rewrite exec_check_rc, Erc. by rewrite emit_cmd_latched.
  - apply str_branches; [by apply truthy_false|done].
Qed.

Lemma bin_refines v :
  current (ctx s) + Z.of_nat (length v) + 9 < 2 ^ 32 ->
  exec (cw_pack_bin None v (Z.of_nat (length v))) s = Some (emit_cmd (PBin v) s).
Proof.
  intros Hc. unfold cw_pack_bin. by_rc.
  rewrite (exec_get_when (fun s => be_compatible (ctx s))) by solve_returns.
  rewrite exec_scall_return. by_when.
  destruct (be_compatible (ctx s)) eqn:Eb.
  { rewrite str_branches by done. by rewrite Eb. }
  unfold bin_header.
  destruct (Z.ltb_spec (Z.of_nat (length v)) 256);
    [by_chunks [[0xc4]; [u8 (Z.of_nat (length v))]; v]|].
  destruct (Z.ltb_spec (Z.of_nat (length v)) 65536);
    [by_chunks [[0xc5]; be_bytes 2 (Z.of_nat (length v)); v]
    |by_chunks [[0xc6]; be_bytes 4 (Z.of_nat (length v)); v]].
Qed.

Lemma ext_refines t v :
  current (ctx s) + Z.of_nat (length v) + 9 < 2 ^ 32 ->
  exec (cw_pack_ext None t v (Z.of_nat (length v))) s = Some (emit_cmd (PExt t v) s).
Proof.
  intros Hc. unfold cw_pack_ext. by_rc.
  rewrite (exec_get_when (fun s => be_compatible (ctx s))) by solve_returns.
  destruct (be_compatible (ctx s)) eqn:Eb; [by rewrite Erc|].
  unfold ext_header. cbv zeta.
  repeat match goal with
  | |- context [Z.of_nat (length v) =? ?k] =>
      destruct (Z.eqb_spec (Z.of_nat (length v)) k) as [El|_]
  end.
  - by_chunks [[0xd4]; [u8 t]; v].
  - by_chunks [[0xd5]; [u8 t]; v].
  - by_chunks [[0xd6]; [u8 t]; v].
  - by_chunks [[0xd7]; [u8 t]; v].
  - by_chunks [[0xd8]; [u8 t]; v].
  - destruct (Z.ltb_spec (Z.of_nat (length v)) 256);
      [by_chunks [[0xc7]; [u8 (Z.of_nat (length v))]; [u8 t]; v]|].
    destruct (Z.ltb_spec (Z.of_nat (length v)) 65536);
      [by_chunks [[0xc8]; be_bytes 2 (Z.of_nat (length v)); [u8 t]; v]
      |by_chunks [[0xc9]; be_bytes 4 (Z.of_nat (length v)); [u8 t]; v]].
Qed.
End Refine.

Lemma pack_emit_cmd c s :
  pack_wf s -> cmd_ok c -> current (ctx s) + payload c + 9 < 2 ^ 32 ->
  exec (pack c) s = Some (emit_cmd c s).
Proof.
  intros Hwf Hok Hc. destruct c; cbn [cmd_ok pack payload] in *; destruct_and?;
    first [ apply nil_refines | apply boolean_refines | apply unsigned_refines
          | apply signed_refines | apply float_refines | apply double_refines
          | apply array_refines | apply map_refines | apply str_refines
          | apply bin_refines | apply ext_refines ]; try done; lia.
Qed.
