(* ===== verification/CwUnpack.v ===== *)
(** * CWPack, the MessagePack decoder: [src/src/cwpack/cwpack.c], unpack side

    [cw_unpack_next] decodes the item at [current] into the [item] field;
    [cw_skip_items] steps over items.  The union [item.as] is kept as the eight
    bytes it occupies on the target, because its users read one member after
    another was written: [boolean] is byte 0, [real] and the container sizes are
    bytes 0-3, a blob is its [start] address in bytes 0-3 and its [length] in
    bytes 4-7.

    The underflow handler is supplied by the caller and is a parameter; the
    firmware passes a null handler. *)

From Stdlib Require Import ZArith Lia.
From stdpp Require Import base gmap list option numbers.
From S2P Require Import Prelude Cwpack.
Import StmtNotations.

Local Open Scope Z_scope.
Local Open Scope stmt_scope.

(** ** Item types, [cwpack.h] *)

Definition CWP_ITEM_NIL : Z := 300.
Definition CWP_ITEM_BOOLEAN : Z := 301.
Definition CWP_ITEM_POSITIVE_INTEGER : Z := 302.
Definition CWP_ITEM_NEGATIVE_INTEGER : Z := 303.
Definition CWP_ITEM_FLOAT : Z := 304.
Definition CWP_ITEM_DOUBLE : Z := 305.
Definition CWP_ITEM_STR : Z := 306.
Definition CWP_ITEM_BIN : Z := 307.
Definition CWP_ITEM_ARRAY : Z := 308.
Definition CWP_ITEM_MAP : Z := 309.
Definition CWP_ITEM_EXT : Z := 310.
Definition CWP_NOT_AN_ITEM : Z := 999.

(** ** The union [item.as] *)

Record cwpack_item := Item {
  type : Z;
  as_word : Z
}.

Definition low32 (w : Z) : Z := w mod 2 ^ 32.
Definition high32 (w : Z) : Z := w / 2 ^ 32.

Definition as_boolean (it : cwpack_item) : bool := truthy (as_word it mod 256).
Definition as_u64 (it : cwpack_item) : Z := as_word it.
Definition as_i64 (it : cwpack_item) : Z := s64 (as_word it).
Definition as_real (it : cwpack_item) : Z := low32 (as_word it).
Definition as_long_real (it : cwpack_item) : Z := as_word it.
Definition as_size (it : cwpack_item) : Z := low32 (as_word it).
Definition blob_start (it : cwpack_item) : Z := low32 (as_word it).
Definition blob_length (it : cwpack_item) : Z := high32 (as_word it).

Definition set_byte0 (b w : Z) : Z := w - w mod 256 + b.
Definition set_low32 (v w : Z) : Z := high32 w * 2 ^ 32 + v.
Definition set_high32 (v w : Z) : Z := v * 2 ^ 32 + low32 w.

(** ** The unpacker *)

Record cw_unpack_context := UnpackCtx {
  item : cwpack_item;
  ustart : Z;
  ucurrent : Z;
  uend : Z;
  ureturn_code : Z;
  uerr_no : Z
}.

Record unpack_state := UnpackState {
  uctx : cw_unpack_context;
  umem : gmap Z Z
}.

Definition set_uctx (f : cw_unpack_context -> cw_unpack_context) (s : unpack_state) : unpack_state :=
  UnpackState (f (uctx s)) (umem s).
Definition set_ucurrent (p : Z) (c : cw_unpack_context) : cw_unpack_context :=
  UnpackCtx (item c) (ustart c) p (uend c) (ureturn_code c) (uerr_no c).
Definition set_ureturn_code (rc : Z) (c : cw_unpack_context) : cw_unpack_context :=
  UnpackCtx (item c) (ustart c) (ucurrent c) (uend c) rc (uerr_no c).
Definition set_type (t : Z) (c : cw_unpack_context) : cw_unpack_context :=
  UnpackCtx (Item t (as_word (item c))) (ustart c) (ucurrent c) (uend c)
    (ureturn_code c) (uerr_no c).
Definition set_as (f : Z -> Z) (c : cw_unpack_context) : cw_unpack_context :=
  UnpackCtx (Item (type (item c)) (f (as_word (item c)))) (ustart c) (ucurrent c) (uend c)
    (ureturn_code c) (uerr_no c).

(** [item] is not initialised: its contents before the call are [it0]. *)
Definition cw_unpack_context_init (it0 : cwpack_item) (data length : Z) (m : gmap Z Z)
    : Z * unpack_state :=
  let rc := test_byte_order in
  (rc, UnpackState (UnpackCtx it0 data data (u32 (data + length)) rc 0) m).

Definition UNPACK_ERROR {A} (error_code : Z) : stmt unpack_state A :=
  smodify (set_uctx (set_type CWP_NOT_AN_ITEM)) ;!
  smodify (set_uctx (set_ureturn_code error_code)) ;! sreturn.

Definition get_byte (p : Z) : stmt unpack_state Z :=
  let! s := sget in sopt (umem s !! p).
Definition get_word (p : Z) (n : nat) : stmt unpack_state Z :=
  let! s := sget in let! l := sopt (load (umem s) p n) in sret (of_le l).

(** The little-endian [cw_load16/32/64] macros: word load, then byte swap. *)
Definition cw_unswap16 (t : Z) : Z := u16 (Z.lor (Z.shiftl t 8) (Z.shiftr t 8)).
Definition cw_unswap32 (t : Z) : Z :=
  u32 (Z.lor (Z.shiftl t 24)
      (Z.lor (Z.shiftl (Z.land t 0xff00) 8)
      (Z.lor (Z.shiftr (Z.land t 0xff0000) 8)
             (Z.shiftr t 24)))).
Definition cw_unswap64 (t : Z) : Z :=
  u64 (Z.lor (Z.land (Z.lor (Z.shiftr t 40) (u64 (Z.shiftl t 24))) 0x0000ff000000ff00)
      (Z.lor (Z.land (Z.lor (Z.shiftr t 24) (u64 (Z.shiftl t 40))) 0x00ff000000ff0000)
      (Z.lor (Z.shiftr (Z.land t 0x000000ff00000000) 8)
      (Z.lor (u64 (Z.shiftl (Z.land t 0x00000000ff000000) 8))
      (Z.lor (Z.shiftr t 56)
             (u64 (Z.shiftl t 56))))))).

Definition cw_load16 (p : Z) : stmt unpack_state Z := let! t := get_word p 2 in sret (cw_unswap16 t).
Definition cw_load32 (p : Z) : stmt unpack_state Z := let! t := get_word p 4 in sret (cw_unswap32 t).
Definition cw_load64 (p : Z) : stmt unpack_state Z := let! t := get_word p 8 in sret (cw_unswap64 t).

Section Unpacker.
Variable handle_unpack_underflow : option (unpack_state -> Z -> Z * unpack_state).

Definition cw_unpack_assert_space (buffer_end_return_code more : Z) : stmt unpack_state Z :=
  let! s := sget in
  let p := ucurrent (uctx s) in
  let nyp := u32 (p + more) in
  if uend (uctx s) <? nyp then
    match handle_unpack_underflow with
    | None => UNPACK_ERROR buffer_end_return_code
    | Some h =>
        let rc := fst (h s (u32 more)) in
        let s' := snd (h s (u32 more)) in
        smodify (fun _ => s') ;!
        (if negb (rc =? CWP_RC_OK) then
           if negb (rc =? CWP_RC_END_OF_INPUT) then UNPACK_ERROR rc
           else UNPACK_ERROR buffer_end_return_code
         else
           let p := ucurrent (uctx s') in
           smodify (set_uctx (set_ucurrent (u32 (p + more)))) ;!
           sret p)
    end
  else
    smodify (set_uctx (set_ucurrent nyp)) ;!
    sret p.

Definition ucheck_rc : stmt unpack_state unit :=
  let! s := sget in swhen (truthy (ureturn_code (uctx s))) sreturn.

Definition set_item_type (t : Z) : stmt unpack_state unit := smodify (set_uctx (set_type t)).
Definition set_item_as (f : Z -> Z) : stmt unpack_state unit := smodify (set_uctx (set_as f)).

(** After the first byte a short buffer is [CWP_RC_BUFFER_UNDERFLOW]. *)
Definition space (more : Z) : stmt unpack_state Z :=
  cw_unpack_assert_space CWP_RC_BUFFER_UNDERFLOW more.

Definition cw_unpack_assert_blob : stmt unpack_state unit :=
  let! s := sget in
  let! p := space (blob_length (item (uctx s))) in
  set_item_as (set_low32 p) ;! sreturn.

Definition getDDItem (typ : Z) (f : Z -> Z) : stmt unpack_state unit :=
  set_item_type typ ;! set_item_as f.
Definition getDDItem1 (typ : Z) (var : Z -> Z -> Z) (cast : Z -> Z) : stmt unpack_state unit :=
  set_item_type typ ;!
  let! p := space 1 in let! b := get_byte p in set_item_as (var (cast b)).
Definition getDDItem2 (typ : Z) (var : Z -> Z -> Z) (cast : Z -> Z) : stmt unpack_state unit :=
  set_item_type typ ;!
  let! p := space 2 in let! t := cw_load16 p in set_item_as (var (cast t)).
Definition getDDItem4 (typ : Z) (var : Z -> Z -> Z) (cast : Z -> Z) : stmt unpack_state unit :=
  set_item_type typ ;!
  let! p := space 4 in let! t := cw_load32 p in set_item_as (var (cast t)).
Definition getDDItem8 (typ : Z) : stmt unpack_state unit :=
  set_item_type typ ;!
  let! p := space 8 in let! t := cw_load64 p in set_item_as (fun _ => t).

Definition get_ext_type : stmt unpack_state unit :=
  let! p := space 1 in let! b := get_byte p in set_item_type (s8 b).

Definition getDDItemFix (len : Z) : stmt unpack_state unit :=
  get_ext_type ;! set_item_as (set_high32 len) ;! cw_unpack_assert_blob.

(** Assignment to the 64-bit members of the union. *)
Definition to_u64 (v _w : Z) : Z := u64 v.

(** [if (item.as.i64 >= 0) item.type = CWP_ITEM_POSITIVE_INTEGER; return;] *)
Definition fix_sign : stmt unpack_state unit :=
  let! s := sget in
  swhen (0 <=? as_i64 (item (uctx s))) (set_item_type CWP_ITEM_POSITIVE_INTEGER) ;! sreturn.

Definition cw_unpack_next : stmt unpack_state unit :=
  ucheck_rc ;!
  let! p := cw_unpack_assert_space CWP_RC_END_OF_INPUT 1 in
  let! c := get_byte p in
  if c <=? 0x7f then getDDItem CWP_ITEM_POSITIVE_INTEGER (to_u64 c) ;! sreturn
  else if c <=? 0x8f then getDDItem CWP_ITEM_MAP (set_low32 (Z.land c 0x0f)) ;! sreturn
  else if c <=? 0x9f then getDDItem CWP_ITEM_ARRAY (set_low32 (Z.land c 0x0f)) ;! sreturn
  else if c <=? 0xbf then
    getDDItem CWP_ITEM_STR (set_high32 (Z.land c 0x1f)) ;! cw_unpack_assert_blob
  else if c =? 0xc0 then set_item_type CWP_ITEM_NIL ;! sreturn
  else if c =? 0xc2 then getDDItem CWP_ITEM_BOOLEAN (set_byte0 0) ;! sreturn
  else if c =? 0xc3 then getDDItem CWP_ITEM_BOOLEAN (set_byte0 1) ;! sreturn
  else if c =? 0xc4 then getDDItem1 CWP_ITEM_BIN set_high32 u8 ;! cw_unpack_assert_blob
  else if c =? 0xc5 then getDDItem2 CWP_ITEM_BIN set_high32 u16 ;! cw_unpack_assert_blob
  else if c =? 0xc6 then getDDItem4 CWP_ITEM_BIN set_high32 u32 ;! cw_unpack_assert_blob
  else if c =? 0xc7 then
    getDDItem1 CWP_ITEM_EXT set_high32 u8 ;! get_ext_type ;! cw_unpack_assert_blob
  else if c =? 0xc8 then
    getDDItem2 CWP_ITEM_EXT set_high32 u16 ;! get_ext_type ;! cw_unpack_assert_blob
  else if c =? 0xc9 then
    getDDItem4 CWP_ITEM_EXT set_high32 u32 ;! get_ext_type ;! cw_unpack_assert_blob
  else if c =? 0xca then getDDItem4 CWP_ITEM_FLOAT set_low32 u32 ;! sreturn
  else if c =? 0xcb then getDDItem8 CWP_ITEM_DOUBLE ;! sreturn
  else if c =? 0xcc then getDDItem1 CWP_ITEM_POSITIVE_INTEGER to_u64 u8 ;! sreturn
  else if c =? 0xcd then getDDItem2 CWP_ITEM_POSITIVE_INTEGER to_u64 u16 ;! sreturn
  else if c =? 0xce then getDDItem4 CWP_ITEM_POSITIVE_INTEGER to_u64 u32 ;! sreturn
  else if c =? 0xcf then getDDItem8 CWP_ITEM_POSITIVE_INTEGER ;! sreturn
  else if c =? 0xd0 then getDDItem1 CWP_ITEM_NEGATIVE_INTEGER to_u64 s8 ;! fix_sign
  else if c =? 0xd1 then getDDItem2 CWP_ITEM_NEGATIVE_INTEGER to_u64 s16 ;! fix_sign
  else if c =? 0xd2 then getDDItem4 CWP_ITEM_NEGATIVE_INTEGER to_u64 s32 ;! fix_sign
  else if c =? 0xd3 then getDDItem8 CWP_ITEM_NEGATIVE_INTEGER ;! fix_sign
  else if c =? 0xd4 then getDDItemFix 1
  else if c =? 0xd5 then getDDItemFix 2
  else if c =? 0xd6 then getDDItemFix 4
  else if c =? 0xd7 then getDDItemFix 8
  else if c =? 0xd8 then getDDItemFix 16
  else if c =? 0xd9 then getDDItem1 CWP_ITEM_STR set_high32 u8 ;! cw_unpack_assert_blob
  else if c =? 0xda then getDDItem2 CWP_ITEM_STR set_high32 u16 ;! cw_unpack_assert_blob
  else if c =? 0xdb then getDDItem4 CWP_ITEM_STR set_high32 u32 ;! cw_unpack_assert_blob
  else if c =? 0xdc then getDDItem2 CWP_ITEM_ARRAY set_low32 u16 ;! sreturn
  else if c =? 0xdd then getDDItem4 CWP_ITEM_ARRAY set_low32 u32 ;! sreturn
  else if c =? 0xde then getDDItem2 CWP_ITEM_MAP set_low32 u16 ;! sreturn
  else if c =? 0xdf then getDDItem4 CWP_ITEM_MAP set_low32 u32 ;! sreturn
  else if 0xe0 <=? c then getDDItem CWP_ITEM_NEGATIVE_INTEGER (to_u64 (s8 c)) ;! sreturn
  else UNPACK_ERROR CWP_RC_MALFORMED_INPUT.

(** The body of the [while] loop of [cw_skip_items]: steps over one item
    header and payload and yields the number of items it adds to
    [item_count]. *)
Definition cw_skip_bytes (n : Z) : stmt unpack_state Z := space n ;! sret 0.

Definition skip_one : stmt unpack_state Z :=
  let! p := cw_unpack_assert_space CWP_RC_END_OF_INPUT 1 in
  let! c := get_byte p in
  if (c <=? 0x7f) || (0xe0 <=? c) || (c =? 0xc0) || (c =? 0xc2) || (c =? 0xc3) then sret 0
  else if (c =? 0xcc) || (c =? 0xd0) then cw_skip_bytes 1
  else if (c =? 0xcd) || (c =? 0xd1) || (c =? 0xd4) then cw_skip_bytes 2
  else if c =? 0xd5 then cw_skip_bytes 3
  else if (c =? 0xca) || (c =? 0xce) || (c =? 0xd2) then cw_skip_bytes 4
  else if c =? 0xd6 then cw_skip_bytes 5
  else if (c =? 0xcb) || (c =? 0xcf) || (c =? 0xd3) then cw_skip_bytes 8
  else if c =? 0xd7 then cw_skip_bytes 9
  else if c =? 0xd8 then cw_skip_bytes 17
  else if (0xa0 <=? c) && (c <=? 0xbf) then cw_skip_bytes (Z.land c 0x1f)
  else if (c =? 0xd9) || (c =? 0xc4) then
    let! p := space 1 in let! t := get_byte p in cw_skip_bytes t
  else if (c =? 0xda) || (c =? 0xc5) then
    let! p := space 2 in let! t := cw_load16 p in cw_skip_bytes t
  else if (c =? 0xdb) || (c =? 0xc6) then
    let! p := space 4 in let! t := cw_load32 p in cw_skip_bytes t
  else if (0x80 <=? c) && (c <=? 0x8f) then sret (2 * Z.land c 15)
  else if (0x90 <=? c) && (c <=? 0x9f) then sret (Z.land c 15)
  else if c =? 0xdc then let! p := space 2 in cw_load16 p
  else if c =? 0xde then let! p := space 2 in let! t := cw_load16 p in sret (2 * t)
  else if c =? 0xdd then let! p := space 4 in cw_load32 p
  else if c =? 0xdf then let! p := space 4 in let! t := cw_load32 p in sret (u32 (2 * t))
  else if c =? 0xc7 then
    let! p := space 1 in let! t := get_byte p in cw_skip_bytes (u32 (t + 1))
  else if c =? 0xc8 then
    let! p := space 2 in let! t := cw_load16 p in cw_skip_bytes (t + 1)
  else if c =? 0xc9 then
    let! p := space 4 in let! t := cw_load32 p in cw_skip_bytes (u32 (t + 1))
  else UNPACK_ERROR CWP_RC_MALFORMED_INPUT.

(** [while (item_count-- > 0)], [item_count] a 32-bit [long]; [None] when
    [fuel] iterations were not enough. *)
Fixpoint skip_loop (fuel : nat) (item_count : Z) (s : unpack_state)
    : option (outcome unpack_state unit) :=
  match fuel with
  | O => None
  | S fuel =>
      if 0 <? item_count then
        match skip_one s with
        | Go added s' => skip_loop fuel (s32 (item_count - 1 + added)) s'
        | Return s' => Some (Return s')
        | Fault => Some Fault
        end
      else Some (Return s)
  end.

Definition cw_skip_items (fuel : nat) (item_count : Z) (s : unpack_state)
    : option (option unpack_state) :=
  if truthy (ureturn_code (uctx s)) then Some (Some s)
  else match skip_loop fuel item_count s with
       | Some o => Some (exec (fun _ => o) s)
       | None => None
       end.
End Unpacker.
