(* ===== verification/CwDecode.v ===== *)
(** * The decoder inverts the encoding, case by case

    [cw_unpack_next] is stepped through for every tag byte on input that starts
    with an encoding of [CwpackSpec.v]. *)

From Stdlib Require Import ZArith Lia.
From stdpp Require Import base gmap list option numbers.
From S2P Require Import Prelude Float32 Cwpack CwpackSpec CwpackProof CwUnpack.
Import StmtNotations.

Local Open Scope Z_scope.
Local Open Scope stmt_scope.

(** ** Big-endian loads *)

Ltac unswap_bits n :=
  apply (bits_eq n); [lia|apply wrap_range; lia|apply wrap_range; lia|];
  let i := fresh "i" in intros i ?;
  unfold be_bytes; cbn [le_bytes rev app of_le];
  let m := eval vm_compute in (Z.to_nat n) in enum_bit i m;
  repeat match goal with H : _ <> _ |- _ => clear H end; repeat bit_step;
  repeat match goal with |- context [Z.testbit ?x ?k] => destruct (Z.testbit x k) end; reflexivity.

Lemma cw_unswap16_be z : cw_unswap16 (of_le (be_bytes 2 z)) = u16 z.
Proof. unfold cw_unswap16, u16. unswap_bits 16. Qed.

Lemma cw_unswap32_be z : cw_unswap32 (of_le (be_bytes 4 z)) = u32 z.
Proof. unfold cw_unswap32, u32. unswap_bits 32. Qed.

Lemma cw_unswap64_be z : cw_unswap64 (of_le (be_bytes 8 z)) = u64 z.
Proof.
  set (t := of_le (be_bytes 8 z)).
  assert (0 <= t < 2 ^ 64) as Ht by apply (of_le_range _ (bytes_be_bytes 8 z)).
  transitivity (cw_swap64 t).
  - unfold cw_swap64. by rewrite (u64_small t).
  - rewrite cw_swap64_val. subst t. by rewrite of_le_be_twice.
Qed.

(** ** Input at the read position *)

(** The bytes [l] are the next input of the context. *)
Record input (s : unpack_state) (l : list Z) : Prop := {
  in_load : load (umem s) (ucurrent (uctx s)) (length l) = Some l;
  in_low : 0 <= ucurrent (uctx s);
  in_end : ucurrent (uctx s) + Z.of_nat (length l) <= uend (uctx s);
  in_top : uend (uctx s) < 2 ^ 32
}.

Definition advance (n : Z) (s : unpack_state) : unpack_state :=
  set_uctx (set_ucurrent (ucurrent (uctx s) + n)) s.

Lemma input_app s l1 l2 : input s (l1 ++ l2) -> input (advance (Z.of_nat (length l1)) s) l2.
Proof.
  intros [Hl H0 He Ht]. rewrite length_app in *.
  apply load_app in Hl as [_ Hl]; [|done..].
  split; simpl; [done|lia|lia|lia].
Qed.

Lemma input_prefix s l1 l2 : input s (l1 ++ l2) -> input s l1.
Proof.
  intros [Hl H0 He Ht]. rewrite length_app in *.
  apply load_app in Hl as [Hl _]; [|done..].
  split; simpl; [done|lia|lia|lia].
Qed.

(** The item fields do not affect the input. *)
Lemma input_set_type s l t : input s l -> input (set_uctx (set_type t) s) l.
Proof. by intros []. Qed.
Lemma input_set_as s l f : input s l -> input (set_uctx (set_as f) s) l.
Proof. by intros []. Qed.
#[local] Hint Resolve input_set_type input_set_as : words.

Lemma assert_space_Go rc n s :
  0 <= n -> 0 <= ucurrent (uctx s) -> ucurrent (uctx s) + n <= uend (uctx s) ->
  uend (uctx s) < 2 ^ 32 ->
  cw_unpack_assert_space None rc n s = Go (ucurrent (uctx s)) (advance n s).
Proof.
  intros. unfold cw_unpack_assert_space, sbind, sget. rewrite u32_small by lia.
  destruct (Z.ltb_spec (uend (uctx s)) (ucurrent (uctx s) + n)); [lia|done].
Qed.

Lemma assert_space_short rc n s :
  0 <= ucurrent (uctx s) -> 0 <= n -> ucurrent (uctx s) + n < 2 ^ 32 ->
  uend (uctx s) < ucurrent (uctx s) + n ->
  cw_unpack_assert_space None rc n s =
    Return (set_uctx (set_ureturn_code rc) (set_uctx (set_type CWP_NOT_AN_ITEM) s)).
Proof.
  intros. unfold cw_unpack_assert_space, sbind, sget. rewrite u32_small by lia.
  destruct (Z.ltb_spec (uend (uctx s)) (ucurrent (uctx s) + n)); [done|lia].
Qed.

Section Fetch.
Context {B : Type} (s : unpack_state) (l : list Z).

Lemma fetch_byte rc b (k : Z -> stmt unpack_state B) :
  input s (b :: l) ->
  (let! p := cw_unpack_assert_space None rc 1 in let! c := get_byte p in k c) s
    = k b (advance 1 s).
Proof.
  intros [Hl H0 He Ht]. cbn [length] in *.
  unfold sbind. rewrite assert_space_Go by lia.
  apply load_Some in Hl as [_ Hl]. specialize (Hl 0%nat b eq_refl).
  rewrite Z.add_0_r in Hl. unfold get_byte, sbind, sget. simpl. by rewrite Hl.
Qed.

Lemma fetch_word n (k : Z -> stmt unpack_state B) w :
  length w = n -> input s (w ++ l) ->
  (let! p := space None (Z.of_nat n) in let! t := get_word p n in k t) s
    = k (of_le w) (advance (Z.of_nat n) s).
Proof.
  intros Hn [Hl H0 He Ht]. rewrite length_app in *.
  unfold space, sbind. rewrite assert_space_Go by lia.
  apply load_app in Hl as [Hl _]; [|done..]. rewrite Hn in Hl.
  unfold get_word, sbind, sget, sopt. simpl. by rewrite Hl.
Qed.

Lemma fetch16 z (k : Z -> stmt unpack_state B) :
  input s (be_bytes 2 z ++ l) ->
  (let! p := space None 2 in let! t := cw_load16 p in k t) s = k (u16 z) (advance 2 s).
Proof.
  intros H. rewrite <- cw_unswap16_be.
  apply (fetch_word 2 (fun t => k (cw_unswap16 t))) in H; [|apply length_be_bytes].
  change (Z.of_nat 2) with 2 in H. rewrite <- H. unfold cw_load16, sbind, sret.
  destruct (space None 2 s) as [p s'| |]; try done.
  by destruct (get_word p 2 s').
Qed.

Lemma fetch32 z (k : Z -> stmt unpack_state B) :
  input s (be_bytes 4 z ++ l) ->
  (let! p := space None 4 in let! t := cw_load32 p in k t) s = k (u32 z) (advance 4 s).
Proof.
  intros H. rewrite <- cw_unswap32_be.
  apply (fetch_word 4 (fun t => k (cw_unswap32 t))) in H; [|apply length_be_bytes].
  change (Z.of_nat 4) with 4 in H. rewrite <- H. unfold cw_load32, sbind, sret.
  destruct (space None 4 s) as [p s'| |]; try done.
  by destruct (get_word p 4 s').
Qed.

Lemma fetch64 z (k : Z -> stmt unpack_state B) :
  input s (be_bytes 8 z ++ l) ->
  (let! p := space None 8 in let! t := cw_load64 p in k t) s = k (u64 z) (advance 8 s).
Proof.
  intros H. rewrite <- cw_unswap64_be.
  apply (fetch_word 8 (fun t => k (cw_unswap64 t))) in H; [|apply length_be_bytes].
  change (Z.of_nat 8) with 8 in H. rewrite <- H. unfold cw_load64, sbind, sret.
  destruct (space None 8 s) as [p s'| |]; try done.
  by destruct (get_word p 8 s').
Qed.
End Fetch.

(** ** The decoded item *)

(** Address of the payload of a blob item encoded at [a]. *)
Definition payload_addr (compat : bool) (a : Z) (c : pack_cmd) : Z :=
  match enc compat c with
  | Some l => a + Z.of_nat (length l) - payload c
  | None => a
  end.

(** What decoding the encoding of [c] at address [a] leaves in [item] when the
    union held [w] before. *)
Definition item_of (compat : bool) (w a : Z) (c : pack_cmd) : cwpack_item :=
  let blob := payload c * 2 ^ 32 + payload_addr compat a c in
  match c with
  | PNil => Item CWP_ITEM_NIL w
  | PBool b => Item CWP_ITEM_BOOLEAN (set_byte0 (if b then 1 else 0) w)
  | PUnsigned i => Item CWP_ITEM_POSITIVE_INTEGER i
  | PSigned i =>
      Item (if 0 <=? i then CWP_ITEM_POSITIVE_INTEGER else CWP_ITEM_NEGATIVE_INTEGER) (u64 i)
  | PFloat f => Item CWP_ITEM_FLOAT (set_low32 f w)
  | PDouble d => Item CWP_ITEM_DOUBLE d
  | PArray n => Item CWP_ITEM_ARRAY (set_low32 n w)
  | PMap n => Item CWP_ITEM_MAP (set_low32 n w)
  | PStr _ => Item CWP_ITEM_STR blob
  | PBin _ => Item (if compat then CWP_ITEM_STR else CWP_ITEM_BIN) blob
  | PExt t _ => Item t blob
  end.

Definition set_item (it : cwpack_item) (s : unpack_state) : unpack_state :=
  set_uctx (fun c => UnpackCtx it (ustart c) (ucurrent c) (uend c)
                       (ureturn_code c) (uerr_no c)) s.

Lemma high32_set_high32 v w : high32 (set_high32 v w) = v.
Proof.
  unfold high32, set_high32, low32. rewrite Z.div_add_l by lia.
  rewrite (Z.div_small (w mod _)); [lia|]. apply Z.mod_pos_bound. lia.
Qed.

Lemma set_low32_set_high32 v p w : set_low32 p (set_high32 v w) = v * 2 ^ 32 + p.
Proof. unfold set_low32. by rewrite high32_set_high32. Qed.

Lemma unpack_state_eq (s s' : unpack_state) :
  uctx s = uctx s' -> umem s = umem s' -> s = s'.
Proof. destruct s, s'; simpl; congruence. Qed.

(** ** Decoding, macro by macro *)

Section Macros.
Context (s : unpack_state) (l : list Z).

Definition got (typ : Z) (f : Z -> Z) (n : Z) : unpack_state :=
  set_uctx (set_as f) (advance n (set_uctx (set_type typ) s)).

Lemma getDDItem1_Go typ var cast b :
  input s (b :: l) ->
  getDDItem1 None typ var cast s = Go tt (got typ (var (cast b)) 1).
Proof.
  intros H. unfold getDDItem1. erewrite sbind_Go by reflexivity. unfold space.
  by rewrite (fetch_byte _ l _ b) by auto with words.
Qed.

Lemma getDDItem2_Go typ var cast z :
  input s (be_bytes 2 z ++ l) ->
  getDDItem2 None typ var cast s = Go tt (got typ (var (cast (u16 z))) 2).
Proof.
  intros H. unfold getDDItem2. erewrite sbind_Go by reflexivity.
  by rewrite (fetch16 _ l z) by auto with words.
Qed.

Lemma getDDItem4_Go typ var cast z :
  input s (be_bytes 4 z ++ l) ->
  getDDItem4 None typ var cast s = Go tt (got typ (var (cast (u32 z))) 4).
Proof.
  intros H. unfold getDDItem4. erewrite sbind_Go by reflexivity.
  by rewrite (fetch32 _ l z) by auto with words.
Qed.

Lemma getDDItem8_Go typ z :
  input s (be_bytes 8 z ++ l) ->
  getDDItem8 None typ s = Go tt (got typ (fun _ => u64 z) 8).
Proof.
  intros H. unfold getDDItem8. erewrite sbind_Go by reflexivity.
  by rewrite (fetch64 _ l z) by auto with words.
Qed.

Lemma get_ext_type_Go b :
  input s (b :: l) ->
  get_ext_type None s = Go tt (set_uctx (set_type (s8 b)) (advance 1 s)).
Proof. intros H. unfold get_ext_type, space. by rewrite (fetch_byte _ l _ b). Qed.

Lemma assert_blob_Return v :
  input s (v ++ l) -> blob_length (item (uctx s)) = Z.of_nat (length v) ->
  cw_unpack_assert_blob None s =
    Return (set_uctx (set_as (set_low32 (ucurrent (uctx s))))
              (advance (Z.of_nat (length v)) s)).
Proof.
  intros [Hl H0 He Ht] Hb. rewrite length_app in *.
  unfold cw_unpack_assert_blob. erewrite sbind_Go by reflexivity. rewrite Hb.
  unfold space, sbind. by rewrite assert_space_Go by lia.
Qed.
End Macros.

(** Evaluate the tests of the [switch] at a literal first byte. *)
Ltac lit_if :=
  match goal with
  | |- context [if Zpos ?a <=? Zpos ?b then _ else _] =>
      let v := eval vm_compute in (Zpos a <=? Zpos b) in
      change (Zpos a <=? Zpos b) with v; cbv iota
  | |- context [if Zpos ?a =? Zpos ?b then _ else _] =>
      let v := eval vm_compute in (Zpos a =? Zpos b) in
      change (Zpos a =? Zpos b) with v; cbv iota
  end.

Ltac sym_if :=
  match goal with
  | |- context [if ?a <=? ?b then _ else _] =>
      first [ rewrite (proj2 (Z.leb_le a b)) by lia | rewrite (proj2 (Z.leb_gt a b)) by lia ];
      cbv iota
  | |- context [if ?a =? ?b then _ else _] =>
      rewrite (proj2 (Z.eqb_neq a b)) by lia; cbv iota
  end.

(** The rest of the input after [n] bytes. *)
Lemma input_skip s n (w l : list Z) :
  n = Z.of_nat (length w) -> input s (w ++ l) -> input (advance n s) l.
Proof. intros ->. apply input_app. Qed.

Lemma input_got s typ f n (w l : list Z) :
  n = Z.of_nat (length w) -> input s (w ++ l) -> input (got s typ f n) l.
Proof.
  intros Hn H. unfold got. apply input_set_as. eapply input_skip; [done|].
  by apply input_set_type.
Qed.

Lemma input_got1 s typ f b (l : list Z) : input s (b :: l) -> input (got s typ f 1) l.
Proof. intros H. by apply (input_got s typ f 1 [b]). Qed.

Lemma exec_Go {S A} (c : stmt S A) a s s' : c s = Go a s' -> exec c s = Some s'.
Proof. unfold exec. by intros ->. Qed.
Lemma exec_Return {S A} (c : stmt S A) s s' : c s = Return s' -> exec c s = Some s'.
Proof. unfold exec. by intros ->. Qed.

(** All states met while decoding differ from the start only in the item and in
    the read position; these equations keep them in that form. *)
Definition decoded (it : cwpack_item) (n : Z) (s : unpack_state) : unpack_state :=
  set_item it (advance n s).

Lemma decoded_init n s : advance n s = decoded (item (uctx s)) n s.
Proof. by destruct s as [[[] ?????] ?]. Qed.
Lemma decoded_advance it n k s : advance k (decoded it n s) = decoded it (n + k) s.
Proof. unfold decoded, advance, set_item, set_uctx, set_ucurrent; simpl. by rewrite Z.add_assoc. Qed.
Lemma decoded_type it n t s :
  set_uctx (set_type t) (decoded it n s) = decoded (Item t (as_word it)) n s.
Proof. done. Qed.
Lemma decoded_as it n f s :
  set_uctx (set_as f) (decoded it n s) = decoded (Item (type it) (f (as_word it))) n s.
Proof. done. Qed.
Lemma decoded_got it n typ f k s :
  got (decoded it n s) typ f k = decoded (Item typ (f (as_word it))) (n + k) s.
Proof. unfold got. by rewrite decoded_type, decoded_advance, decoded_as. Qed.
Lemma decoded_current it n s : ucurrent (uctx (decoded it n s)) = ucurrent (uctx s) + n.
Proof. done. Qed.
Lemma decoded_item it n s : item (uctx (decoded it n s)) = it.
Proof. done. Qed.

Create Rewrite HintDb decoding.
#[local] Hint Rewrite decoded_advance decoded_type decoded_as decoded_got decoded_current
  decoded_item : decoding.

Section Decode.
Context (s : unpack_state) (Hrc : ureturn_code (uctx s) = 0).

Lemma check_pass {A} (k : stmt unpack_state A) : (ucheck_rc ;! k) s = k s.
Proof. unfold ucheck_rc, sbind, sget, swhen. by rewrite Hrc. Qed.

(** [start H]: consume the first byte of the input [H] and select the case. *)
Ltac start H :=
  unfold cw_unpack_next; rewrite check_pass, (fetch_byte _ _ _ _ _ H);
  repeat lit_if; repeat sym_if.
Ltac state_eq :=
  rewrite ?(decoded_init _ s); autorewrite with decoding; cbn [as_word type];
  unfold sreturn;
  repeat first [reflexivity | lia | f_equal].

Lemma decode_fixint b l :
  0 <= b < 128 -> input s (b :: l) ->
  exec (cw_unpack_next None) s = Some (decoded (Item CWP_ITEM_POSITIVE_INTEGER b) 1 s).
Proof.
  intros Hb H. eapply exec_Return. start H.
  unfold to_u64. by rewrite u64_small by lia.
Qed.

Lemma decode_negfix i l :
  -32 <= i < 0 -> input s (i mod 256 :: l) ->
  exec (cw_unpack_next None) s = Some (decoded (Item CWP_ITEM_NEGATIVE_INTEGER (u64 i)) 1 s).
Proof.
  intros Hb H. assert (i mod 256 = 256 + i) as E by (Z.div_mod_to_equations; lia).
  rewrite E in H. eapply exec_Return. start H.
  unfold to_u64. replace (s8 (256 + i)) with i by wsolve. done.
Qed.

Lemma decode_fixmap n l :
  0 <= n < 16 -> input s (0x80 + n :: l) ->
  exec (cw_unpack_next None) s =
    Some (decoded (Item CWP_ITEM_MAP (set_low32 n (as_word (item (uctx s))))) 1 s).
Proof.
  intros Hb H. eapply exec_Return. start H.
  replace (Z.land (0x80 + n) 15) with n; [done|].
  change 15 with (Z.ones 4). rewrite Z.land_ones by lia. wsolve.
Qed.

Lemma decode_fixarray n l :
  0 <= n < 16 -> input s (0x90 + n :: l) ->
  exec (cw_unpack_next None) s =
    Some (decoded (Item CWP_ITEM_ARRAY (set_low32 n (as_word (item (uctx s))))) 1 s).
Proof.
  intros Hb H. eapply exec_Return. start H.
  replace (Z.land (0x90 + n) 15) with n; [done|].
  change 15 with (Z.ones 4). rewrite Z.land_ones by lia. wsolve.
Qed.

Lemma decode_nil l :
  input s (0xc0 :: l) ->
  exec (cw_unpack_next None) s =
    Some (decoded (Item CWP_ITEM_NIL (as_word (item (uctx s)))) 1 s).
Proof. intros H. eapply exec_Return. by start H. Qed.

Lemma decode_bool (b : bool) l :
  input s ((if b then 0xc3 else 0xc2) :: l) ->
  exec (cw_unpack_next None) s =
    Some (decoded (Item CWP_ITEM_BOOLEAN
            (set_byte0 (if b then 1 else 0) (as_word (item (uctx s))))) 1 s).
Proof. intros H. eapply exec_Return. destruct b; by start H. Qed.

(** One- to eight-byte operands: the tag byte, then the operand macro. *)
Ltac operand H lem :=
  let H1 := fresh "Hrest" in
  first [ pose proof (input_skip s 1 [_] _ eq_refl H) as H1 ];
  first [ erewrite sbind_Go by (eapply lem; exact H1) ].

Lemma decode_u8 tag typ (var : Z -> Z -> Z) z l :
  In (tag, typ, var) [(0xcc, CWP_ITEM_POSITIVE_INTEGER, to_u64)] ->
  0 <= z < 256 -> input s (tag :: z :: l) ->
  exec (cw_unpack_next None) s =
    Some (decoded (Item typ (var z (as_word (item (uctx s))))) 2 s).
Proof.
  intros Ht Hz H. eapply exec_Return. simpl in Ht. destruct_or?; try done; simplify_eq.
  start H. operand H getDDItem1_Go. rewrite u8_small by lia. state_eq.
Qed.

Lemma decode_u16 tag typ (var : Z -> Z -> Z) z l :
  In (tag, typ, var)
    [(0xcd, CWP_ITEM_POSITIVE_INTEGER, to_u64); (0xdc, CWP_ITEM_ARRAY, set_low32);
     (0xde, CWP_ITEM_MAP, set_low32)] ->
  0 <= z < 65536 -> input s (tag :: be_bytes 2 z ++ l) ->
  exec (cw_unpack_next None) s =
    Some (decoded (Item typ (var z (as_word (item (uctx s))))) 3 s).
Proof.
  intros Ht Hz H. eapply exec_Return. simpl in Ht. destruct_or?; try done; simplify_eq;
  start H; operand H getDDItem2_Go; rewrite !u16_small by (rewrite ?u16_small; lia); state_eq.
Qed.

Lemma decode_u32 tag typ (var : Z -> Z -> Z) z l :
  In (tag, typ, var)
    [(0xce, CWP_ITEM_POSITIVE_INTEGER, to_u64); (0xdd, CWP_ITEM_ARRAY, set_low32);
     (0xdf, CWP_ITEM_MAP, set_low32); (0xca, CWP_ITEM_FLOAT, set_low32)] ->
  is_u 32 z -> input s (tag :: be_bytes 4 z ++ l) ->
  exec (cw_unpack_next None) s =
    Some (decoded (Item typ (var z (as_word (item (uctx s))))) 5 s).
Proof.
  intros Ht Hz H. eapply exec_Return. simpl in Ht. destruct_or?; try done; simplify_eq;
  start H; operand H getDDItem4_Go; rewrite !u32_small by (rewrite ?u32_small; done); state_eq.
Qed.

Lemma decode_u64 tag typ z l :
  In (tag, typ) [(0xcf, CWP_ITEM_POSITIVE_INTEGER); (0xcb, CWP_ITEM_DOUBLE)] ->
  is_u 64 z -> input s (tag :: be_bytes 8 z ++ l) ->
  exec (cw_unpack_next None) s = Some (decoded (Item typ z) 9 s).
Proof.
  intros Ht Hz H. eapply exec_Return. simpl in Ht. destruct_or?; try done; simplify_eq;
  start H; operand H getDDItem8_Go; rewrite u64_small by done; state_eq.
Qed.

(** Signed operands: the value is negative, so the type is left alone. *)
Lemma fix_sign_negative (st : unpack_state) i :
  - 2 ^ 63 <= i < 0 -> as_word (item (uctx st)) = u64 i ->
  fix_sign st = Return st.
Proof.
  intros Hi Hw. unfold fix_sign, sbind, sget, swhen, sret, as_i64. rewrite Hw.
  replace (s64 (u64 i)) with i by wsolve.
  by rewrite (proj2 (Z.leb_gt 0 i)) by lia.
Qed.

Lemma decode_s8 i l :
  -128 <= i < 0 -> input s (0xd0 :: i mod 256 :: l) ->
  exec (cw_unpack_next None) s =
    Some (decoded (Item CWP_ITEM_NEGATIVE_INTEGER (u64 i)) 2 s).
Proof.
  intros Hi H. eapply exec_Return. start H. operand H getDDItem1_Go.
  replace (s8 (i mod 256)) with i by wsolve.
  rewrite (fix_sign_negative _ i) by (done || lia). state_eq.
Qed.

Lemma decode_s16 i l :
  -32768 <= i < 0 -> input s (0xd1 :: be_bytes 2 i ++ l) ->
  exec (cw_unpack_next None) s =
    Some (decoded (Item CWP_ITEM_NEGATIVE_INTEGER (u64 i)) 3 s).
Proof.
  intros Hi H. eapply exec_Return. start H. operand H getDDItem2_Go.
  replace (s16 (u16 i)) with i by wsolve.
  rewrite (fix_sign_negative _ i) by (done || lia). state_eq.
Qed.

Lemma decode_s32 i l :
  - 2 ^ 31 <= i < 0 -> input s (0xd2 :: be_bytes 4 i ++ l) ->
  exec (cw_unpack_next None) s =
    Some (decoded (Item CWP_ITEM_NEGATIVE_INTEGER (u64 i)) 5 s).
Proof.
  intros Hi H. eapply exec_Return. start H. operand H getDDItem4_Go.
  replace (s32 (u32 i)) with i by wsolve.
  rewrite (fix_sign_negative _ i) by (done || lia). state_eq.
Qed.

Lemma decode_s64 i l :
  - 2 ^ 63 <= i < 0 -> input s (0xd3 :: be_bytes 8 i ++ l) ->
  exec (cw_unpack_next None) s =
    Some (decoded (Item CWP_ITEM_NEGATIVE_INTEGER (u64 i)) 9 s).
Proof.
  intros Hi H. eapply exec_Return. start H. operand H getDDItem8_Go.
  rewrite (fix_sign_negative _ i) by (done || lia). state_eq.
Qed.

(** Blobs: header, then the payload in place. *)
Definition blob_item (typ : Z) (hlen : Z) (v : list Z) : cwpack_item :=
  Item typ (Z.of_nat (length v) * 2 ^ 32 + (ucurrent (uctx s) + hlen)).

Ltac finish_blob :=
  erewrite assert_blob_Return by
    first [ by unfold blob_length; simpl; rewrite high32_set_high32; lia | eassumption
          | by eapply input_got1
          | eapply input_got; [|eassumption]; by rewrite length_be_bytes ];
  rewrite ?(decoded_init _ s); autorewrite with decoding; cbn [as_word type];
  rewrite set_low32_set_high32; unfold blob_item;
  repeat first [reflexivity | lia | f_equal].

Lemma decode_fixstr v l :
  Z.of_nat (length v) < 32 -> input s (0xa0 + Z.of_nat (length v) :: v ++ l) ->
  exec (cw_unpack_next None) s =
    Some (decoded (blob_item CWP_ITEM_STR 1 v) (1 + Z.of_nat (length v)) s).
Proof.
  intros Hv H. eapply exec_Return. start H.
  assert (Z.land (0xa0 + Z.of_nat (length v)) 31 = Z.of_nat (length v)) as ->.
  { change 31 with (Z.ones 5). rewrite Z.land_ones by lia. wsolve. }
  erewrite sbind_Go by reflexivity.
  pose proof (input_skip s 1 [_] _ eq_refl H) as H1.
  apply (input_set_type _ _ CWP_ITEM_STR), (input_set_as _ _ (set_high32 (Z.of_nat (length v)))) in H1.
  finish_blob.
Qed.

Lemma decode_blob8 tag typ v l :
  In (tag, typ) [(0xd9, CWP_ITEM_STR); (0xc4, CWP_ITEM_BIN)] ->
  Z.of_nat (length v) < 256 -> input s (tag :: Z.of_nat (length v) :: v ++ l) ->
  exec (cw_unpack_next None) s =
    Some (decoded (blob_item typ 2 v) (2 + Z.of_nat (length v)) s).
Proof.
  intros Ht Hv H. eapply exec_Return. simpl in Ht. destruct_or?; try done; simplify_eq;
  start H; operand H getDDItem1_Go; rewrite u8_small by lia;
  finish_blob.
Qed.

Lemma decode_blob16 tag typ v l :
  In (tag, typ) [(0xda, CWP_ITEM_STR); (0xc5, CWP_ITEM_BIN)] ->
  Z.of_nat (length v) < 65536 ->
  input s (tag :: be_bytes 2 (Z.of_nat (length v)) ++ v ++ l) ->
  exec (cw_unpack_next None) s =
    Some (decoded (blob_item typ 3 v) (3 + Z.of_nat (length v)) s).
Proof.
  intros Ht Hv H. eapply exec_Return. simpl in Ht. destruct_or?; try done; simplify_eq;
  start H; operand H getDDItem2_Go; rewrite !u16_small by (rewrite ?u16_small; lia);
  finish_blob.
Qed.

Lemma decode_blob32 tag typ v l :
  In (tag, typ) [(0xdb, CWP_ITEM_STR); (0xc6, CWP_ITEM_BIN)] ->
  is_u 32 (Z.of_nat (length v)) ->
  input s (tag :: be_bytes 4 (Z.of_nat (length v)) ++ v ++ l) ->
  exec (cw_unpack_next None) s =
    Some (decoded (blob_item typ 5 v) (5 + Z.of_nat (length v)) s).
Proof.
  intros Ht Hv H. eapply exec_Return. simpl in Ht. destruct_or?; try done; simplify_eq;
  start H; operand H getDDItem4_Go; rewrite !u32_small by (rewrite ?u32_small; done);
  finish_blob.
Qed.

(** Extension items: the type byte comes between the header and the data. *)
Ltac ext_type Hin :=
  erewrite sbind_Go by (eapply get_ext_type_Go; exact Hin).

Lemma s8_byte t : -128 <= t < 128 -> s8 (t mod 256) = t.
Proof. intros. wsolve. Qed.

Lemma decode_fixext tag t v l :
  In (tag, Z.of_nat (length v)) [(0xd4, 1); (0xd5, 2); (0xd6, 4); (0xd7, 8); (0xd8, 16)] ->
  -128 <= t < 128 -> input s (tag :: t mod 256 :: v ++ l) ->
  exec (cw_unpack_next None) s =
    Some (decoded (blob_item t 2 v) (2 + Z.of_nat (length v)) s).
Proof.
  intros Hv Ht H. eapply exec_Return. simpl in Hv.
  pose proof (input_skip s 1 [_] _ eq_refl H) as H1.
  pose proof (input_skip _ 1 [_] _ eq_refl H1) as H2.
  apply (input_set_type _ _ t), (input_set_as _ _ (set_high32 (Z.of_nat (length v)))) in H2.
  destruct_or?; try done; injection Hv as Htag Hlen; subst tag;
  start H; unfold getDDItemFix; ext_type H1;
  rewrite s8_byte by done; rewrite Hlen; erewrite sbind_Go by reflexivity;
  rewrite <- Hlen in H2 |- *; finish_blob.
Qed.

Lemma decode_ext8 t v l :
  Z.of_nat (length v) < 256 -> -128 <= t < 128 ->
  input s (0xc7 :: Z.of_nat (length v) :: t mod 256 :: v ++ l) ->
  exec (cw_unpack_next None) s =
    Some (decoded (blob_item t 3 v) (3 + Z.of_nat (length v)) s).
Proof.
  intros Hv Ht H. eapply exec_Return. start H. operand H getDDItem1_Go.
  rewrite u8_small by lia.
  pose proof (input_got1 _ CWP_ITEM_EXT (set_high32 (Z.of_nat (length v))) _ _ Hrest) as H1.
  ext_type H1. rewrite s8_byte by done.
  pose proof (input_set_type _ _ t (input_skip _ 1 [_] _ eq_refl H1)) as H2. finish_blob.
Qed.

Lemma decode_ext16 t v l :
  Z.of_nat (length v) < 65536 -> -128 <= t < 128 ->
  input s (0xc8 :: be_bytes 2 (Z.of_nat (length v)) ++ t mod 256 :: v ++ l) ->
  exec (cw_unpack_next None) s =
    Some (decoded (blob_item t 4 v) (4 + Z.of_nat (length v)) s).
Proof.
  intros Hv Ht H. eapply exec_Return. start H. operand H getDDItem2_Go.
  rewrite !u16_small by (rewrite ?u16_small; lia).
  pose proof (input_got _ CWP_ITEM_EXT (set_high32 (Z.of_nat (length v))) 2 (be_bytes 2 _) _ eq_refl Hrest) as H1.
  ext_type H1. rewrite s8_byte by done.
  pose proof (input_set_type _ _ t (input_skip _ 1 [_] _ eq_refl H1)) as H2. finish_blob.
Qed.

Lemma decode_ext32 t v l :
  is_u 32 (Z.of_nat (length v)) -> -128 <= t < 128 ->
  input s (0xc9 :: be_bytes 4 (Z.of_nat (length v)) ++ t mod 256 :: v ++ l) ->
  exec (cw_unpack_next None) s =
    Some (decoded (blob_item t 6 v) (6 + Z.of_nat (length v)) s).
Proof.
  intros Hv Ht H. eapply exec_Return. start H. operand H getDDItem4_Go.
  rewrite !u32_small by (rewrite ?u32_small; done).
  pose proof (input_got _ CWP_ITEM_EXT (set_high32 (Z.of_nat (length v))) 4 (be_bytes 4 _) _ eq_refl Hrest) as H1.
  ext_type H1. rewrite s8_byte by done.
  pose proof (input_set_type _ _ t (input_skip _ 1 [_] _ eq_refl H1)) as H2. finish_blob.
Qed.
End Decode.
