(* ===== verification/CwRoundtrip.v ===== *)
(** * MessagePack round trip: what the packer writes, the unpacker reads back *)

From Stdlib Require Import ZArith Lia.
From stdpp Require Import base gmap list option numbers.
From S2P Require Import Prelude Float32 Cwpack CwpackSpec CwpackProof CwUnpack CwDecode.
Import StmtNotations.

Local Open Scope Z_scope.
Local Open Scope stmt_scope.

(** ** One item *)

Section OneItem.
Context (s : unpack_state) (Hrc : ureturn_code (uctx s) = 0).

Ltac feed H := rewrite <- ?app_assoc in H; cbn [app] in H.

Lemma decode_unsigned i rest :
  is_u 64 i -> input s (enc_unsigned i ++ rest) ->
  exec (cw_unpack_next None) s =
    Some (decoded (Item CWP_ITEM_POSITIVE_INTEGER i) (Z.of_nat (length (enc_unsigned i))) s).
Proof.
  intros Hi H. unfold enc_unsigned in *. destruct Hi as [Hi0 Hi1].
  destruct (Z.ltb_spec i 128); [by eapply decode_fixint|].
  destruct (Z.ltb_spec i 256).
  { rewrite (decode_u8 s Hrc 0xcc _ to_u64 i rest) by (done || lia || by left). unfold to_u64. by rewrite u64_small by lia. }
  destruct (Z.ltb_spec i 0x10000).
  { rewrite (decode_u16 s Hrc 0xcd _ to_u64 i rest) by (done || lia || by left). unfold to_u64. by rewrite u64_small by lia. }
  destruct (Z.ltb_spec i 0x100000000).
  { rewrite (decode_u32 s Hrc 0xce _ to_u64 i rest) by (done || (split; lia) || by left). unfold to_u64.
    by rewrite u64_small by lia. }
  apply (decode_u64 s Hrc 0xcf _ i rest); [by left|done|done].
Qed.

Lemma decode_signed i rest :
  - 2 ^ 63 <= i < 2 ^ 63 -> input s (enc_signed i ++ rest) ->
  exec (cw_unpack_next None) s =
    Some (decoded (Item (if 0 <=? i then CWP_ITEM_POSITIVE_INTEGER else CWP_ITEM_NEGATIVE_INTEGER)
                    (u64 i)) (Z.of_nat (length (enc_signed i))) s).
Proof.
  intros Hi H. unfold enc_signed in *. destruct (Z.leb_spec 0 i).
  { rewrite u64_small by lia. eapply decode_unsigned; [split; lia|done]. }
  destruct (Z.leb_spec (-32) i); [eapply decode_negfix; [done|lia|exact H]|].
  destruct (Z.leb_spec (-128) i); [eapply decode_s8; [done|lia|exact H]|].
  destruct (Z.leb_spec (-32768) i); [eapply decode_s16; [done|lia|exact H]|].
  destruct (Z.leb_spec (- 2 ^ 31) i); [eapply decode_s32; [done|lia|exact H]|].
  eapply decode_s64; [done|lia|exact H].
Qed.

Lemma decode_map n rest :
  is_u 32 n -> input s (enc_size 0x80 0xde 0xdf n ++ rest) ->
  exec (cw_unpack_next None) s =
    Some (decoded (Item CWP_ITEM_MAP (set_low32 n (as_word (item (uctx s)))))
            (Z.of_nat (length (enc_size 0x80 0xde 0xdf n))) s).
Proof.
  intros Hn H. unfold enc_size in *. pose proof Hn as [Hn0 Hn1].
  destruct (Z.ltb_spec n 16); [by eapply decode_fixmap|].
  destruct (Z.ltb_spec n 65536).
  - eapply decode_u16; [done| | |exact H]; [simpl; auto|lia].
  - eapply decode_u32; [done| | |exact H]; [simpl; auto|done].
Qed.

Lemma decode_array n rest :
  is_u 32 n -> input s (enc_size 0x90 0xdc 0xdd n ++ rest) ->
  exec (cw_unpack_next None) s =
    Some (decoded (Item CWP_ITEM_ARRAY (set_low32 n (as_word (item (uctx s)))))
            (Z.of_nat (length (enc_size 0x90 0xdc 0xdd n))) s).
Proof.
  intros Hn H. unfold enc_size in *. pose proof Hn as [Hn0 Hn1].
  destruct (Z.ltb_spec n 16); [by eapply decode_fixarray|].
  destruct (Z.ltb_spec n 65536).
  - eapply decode_u16; [done| | |exact H]; [simpl; auto|lia].
  - eapply decode_u32; [done| | |exact H]; [simpl; auto|done].
Qed.

Lemma decode_str compat v rest :
  let h := str_header compat (Z.of_nat (length v)) in
  is_u 32 (Z.of_nat (length v)) -> input s ((h ++ v) ++ rest) ->
  exec (cw_unpack_next None) s =
    Some (decoded (blob_item s CWP_ITEM_STR (Z.of_nat (length h)) v)
            (Z.of_nat (length h) + Z.of_nat (length v)) s).
Proof.
  intros h Hn H. unfold h, str_header in *. clear h. rewrite <- app_assoc in H.
  destruct (Z.ltb_spec (Z.of_nat (length v)) 32); [eapply decode_fixstr; [done|done|exact H]|].
  destruct ((Z.of_nat (length v) <? 256) && negb compat) eqn:E.
  { eapply decode_blob8; [done| | |exact H]; [simpl; auto|].
    apply andb_prop in E as [E _]. by apply Z.ltb_lt in E. }
  destruct (Z.ltb_spec (Z.of_nat (length v)) 65536).
  - eapply decode_blob16; [done| |done|exact H]. simpl; auto.
  - eapply decode_blob32; [done| |done|exact H]. simpl; auto.
Qed.

Lemma decode_bin v rest :
  let h := bin_header (Z.of_nat (length v)) in
  is_u 32 (Z.of_nat (length v)) -> input s ((h ++ v) ++ rest) ->
  exec (cw_unpack_next None) s =
    Some (decoded (blob_item s CWP_ITEM_BIN (Z.of_nat (length h)) v)
            (Z.of_nat (length h) + Z.of_nat (length v)) s).
Proof.
  intros h Hn H. unfold h, bin_header in *. clear h. rewrite <- app_assoc in H.
  destruct (Z.ltb_spec (Z.of_nat (length v)) 256);
    [eapply decode_blob8; [done| |done|exact H]; simpl; auto|].
  destruct (Z.ltb_spec (Z.of_nat (length v)) 65536).
  - eapply decode_blob16; [done| |done|exact H]. simpl; auto.
  - eapply decode_blob32; [done| |done|exact H]. simpl; auto.
Qed.

Lemma decode_ext t v rest :
  let h := ext_header (Z.of_nat (length v)) in
  -128 <= t < 128 -> is_u 32 (Z.of_nat (length v)) ->
  input s ((h ++ [t mod 256] ++ v) ++ rest) ->
  exec (cw_unpack_next None) s =
    Some (decoded (blob_item s t (Z.of_nat (length h) + 1) v)
            (Z.of_nat (length h) + 1 + Z.of_nat (length v)) s).
Proof.
  intros h Ht Hn H. unfold h, ext_header in *. clear h.
  rewrite <- !app_assoc in H; cbn [app] in H.
  repeat match type of H with
  | context [Z.of_nat (length v) =? ?k] =>
      destruct (Z.eqb_spec (Z.of_nat (length v)) k) as [El|?];
      [eapply decode_fixext; [done| |done|exact H]; rewrite El; simpl; auto 10|]
  end.
  destruct (Z.ltb_spec (Z.of_nat (length v)) 256); [eapply decode_ext8; [done|done|done|exact H]|].
  destruct (Z.ltb_spec (Z.of_nat (length v)) 65536);
    [eapply decode_ext16; [done|done|done|exact H]|eapply decode_ext32; [done|done|done|exact H]].
Qed.

Lemma payload_addr_app compat a c h v :
  enc compat c = Some (h ++ v) -> payload c = Z.of_nat (length v) ->
  payload_addr compat a c = a + Z.of_nat (length h).
Proof. intros He Hp. unfold payload_addr. rewrite He, Hp, length_app. lia. Qed.

Lemma decode_cmd compat c l rest :
  cmd_ok c -> enc compat c = Some l -> input s (l ++ rest) ->
  exec (cw_unpack_next None) s =
    Some (decoded (item_of compat (as_word (item (uctx s))) (ucurrent (uctx s)) c)
            (Z.of_nat (length l)) s).
Proof.
  intros Hok He H. destruct c; cbn [enc cmd_ok] in *; simplify_eq; unfold item_of.
  - eapply decode_nil; [done|exact H].
  - eapply decode_bool; [done|exact H].
  - by eapply decode_unsigned.
  - by eapply decode_signed.
  - eapply decode_u32; [done| |done|exact H]. simpl; auto.
  - eapply decode_u64; [done| |done|exact H]. simpl; auto.
  - by eapply decode_array.
  - by eapply decode_map.
  - destruct Hok as [_ Hok]. rewrite length_app, Nat2Z.inj_add.
    erewrite payload_addr_app by done. by eapply decode_str.
  - destruct Hok as [_ Hok]. destruct compat; simplify_eq;
      rewrite length_app, Nat2Z.inj_add; erewrite payload_addr_app by done;
      [by eapply decode_str|by eapply decode_bin].
  - destruct Hok as (Ht & _ & Hok). destruct compat; simplify_eq.
    erewrite (payload_addr_app _ _ _ (ext_header (Z.of_nat (length v)) ++ [t mod 256]) v);
      [|simpl; by rewrite <- app_assoc|done].
    rewrite (decode_ext t v rest) by done. unfold blob_item. simpl payload.
    rewrite !length_app. cbn [length]. do 3 f_equal; [f_equal|]; lia.
Qed.
End OneItem.

(** ** Sequences of items *)

Fixpoint pack_all (cs : list pack_cmd) (s : pack_state) : option pack_state :=
  match cs with
  | [] => Some s
  | c :: cs => match exec (pack c) s with Some s' => pack_all cs s' | None => None end
  end.

(** Run [cw_unpack_next] [n] times, collecting the items. *)
Fixpoint unpack_all (n : nat) (s : unpack_state) : option (list cwpack_item * unpack_state) :=
  match n with
  | O => Some ([], s)
  | S n =>
      match exec (cw_unpack_next None) s with
      | Some s' =>
          match unpack_all n s' with
          | Some (its, s'') => Some (item (uctx s') :: its, s'')
          | None => None
          end
      | None => None
      end
  end.

Definition enc1 (c : pack_cmd) : list Z :=
  match enc false c with Some l => l | None => [] end.
Definition enc_all (cs : list pack_cmd) : list Z := concat (map enc1 cs).

Lemma enc1_Some c : enc false c = Some (enc1 c).
Proof. by destruct c. Qed.

Lemma payload_le c : payload c <= Z.of_nat (length (enc1 c)).
Proof. destruct c; unfold enc1; cbn [enc payload]; rewrite ?length_app; simpl; lia. Qed.

Lemma pack_all_write cs s :
  pack_wf s -> return_code (ctx s) = 0 -> be_compatible (ctx s) = false ->
  Forall cmd_ok cs -> end_ (ctx s) + 9 < 2 ^ 32 ->
  current (ctx s) + Z.of_nat (length (enc_all cs)) <= end_ (ctx s) ->
  pack_all cs s =
    Some (PackState (set_current (current (ctx s) + Z.of_nat (length (enc_all cs))) (ctx s))
            (write (pmem s) (current (ctx s)) (enc_all cs))).
Proof.
  intros Hwf Hrc Hbe Hok Htop. revert s Hwf Hrc Hbe Htop.
  induction Hok as [|c cs Hc Hok IH]; intros s Hwf Hrc Hbe Htop Hfit.
  { simpl. f_equal. rewrite Z.add_0_r. by destruct s as [[] ?]. }
  unfold enc_all in *. cbn [map concat pack_all] in *. rewrite length_app in *.
  pose proof (payload_le c). pose proof Hwf as [Ho Ht Ha].
  rewrite pack_emit_cmd by (done || lia).
  unfold emit_cmd. rewrite Hbe, enc1_Some. unfold emit. rewrite Hrc.
  simpl truthy. cbv iota. destruct (Z.ltb_spec (end_ (ctx s)) (current (ctx s) + Z.of_nat (length (enc1 c))));
    [lia|].
  rewrite IH; simpl; try done; [|split; simpl; [lia|lia|by apply allocated_write]|lia].
  rewrite write_app. unfold set_current. simpl. do 3 f_equal. lia.
Qed.

(** How a client reads an item through the union members. *)
Definition reads (m : gmap Z Z) (it : cwpack_item) (c : pack_cmd) : Prop :=
  match c with
  | PNil => type it = CWP_ITEM_NIL
  | PBool b => type it = CWP_ITEM_BOOLEAN /\ as_boolean it = b
  | PUnsigned i => type it = CWP_ITEM_POSITIVE_INTEGER /\ as_u64 it = i
  | PSigned i =>
      type it = (if 0 <=? i then CWP_ITEM_POSITIVE_INTEGER else CWP_ITEM_NEGATIVE_INTEGER) /\
      as_i64 it = i
  | PFloat f => type it = CWP_ITEM_FLOAT /\ as_real it = f
  | PDouble d => type it = CWP_ITEM_DOUBLE /\ as_long_real it = d
  | PArray n => type it = CWP_ITEM_ARRAY /\ as_size it = n
  | PMap n => type it = CWP_ITEM_MAP /\ as_size it = n
  | PStr v =>
      type it = CWP_ITEM_STR /\ blob_length it = Z.of_nat (length v) /\
      load m (blob_start it) (length v) = Some v
  | PBin v =>
      type it = CWP_ITEM_BIN /\ blob_length it = Z.of_nat (length v) /\
      load m (blob_start it) (length v) = Some v
  | PExt t v =>
      type it = t /\ blob_length it = Z.of_nat (length v) /\
      load m (blob_start it) (length v) = Some v
  end.

Lemma low32_set v w : is_u 32 v -> low32 (set_low32 v w) = v.
Proof.
  intros Hv. unfold low32, set_low32. rewrite Z.add_comm, Z.mod_add by lia.
  by apply Z.mod_small.
Qed.

Lemma blob_split n a : is_u 32 a -> low32 (n * 2 ^ 32 + a) = a /\ high32 (n * 2 ^ 32 + a) = n.
Proof.
  intros Ha. unfold low32, high32, is_u in *. split.
  - rewrite Z.add_comm, Z.mod_add by lia. apply Z.mod_small; lia.
  - rewrite Z.div_add_l, Z.div_small by lia. lia.
Qed.

(** The payload is the tail of the encoding. *)
Lemma load_payload m a l h v :
  l = h ++ v -> load m a (length l) = Some l ->
  load m (a + Z.of_nat (length l) - Z.of_nat (length v)) (length v) = Some v.
Proof.
  intros -> H. rewrite length_app in H. apply load_app in H as [_ H]; [|done..].
  rewrite <- H. f_equal. rewrite length_app. lia.
Qed.

Lemma item_of_reads m w a c :
  cmd_ok c -> 0 <= a -> a + Z.of_nat (length (enc1 c)) < 2 ^ 32 ->
  load m a (length (enc1 c)) = Some (enc1 c) -> reads m (item_of false w a c) c.
Proof.
  intros Hok Ha Htop Hl. pose proof (payload_le c) as Hp.
  assert (payload c = 0 \/ 0 <= payload c) as Hp0 by (destruct c; simpl; lia).
  assert (is_u 32 (payload_addr false a c)) as Hu.
  { unfold payload_addr. rewrite enc1_Some. unfold is_u. lia. }
  destruct (blob_split (payload c) _ Hu) as [Elow Ehigh].
  destruct c; cbn [reads item_of type cmd_ok] in *;
    unfold as_size, as_real, as_boolean, as_u64, as_i64, as_long_real, blob_start, blob_length;
    cbn [as_word]; try done; try (split; [done|]); try by apply low32_set.
  - unfold set_byte0. replace ((w - w mod 256 + (if b then 1 else 0)) mod 256)
      with (if b then 1 else 0); [by destruct b|]. destruct b; wsolve.
  - clear -Hok. wsolve.
  - rewrite Ehigh, Elow. split; [done|]. unfold payload_addr. rewrite enc1_Some.
    by eapply load_payload.
  - rewrite Ehigh, Elow. split; [done|]. unfold payload_addr. rewrite enc1_Some.
    by eapply load_payload.
  - rewrite Ehigh, Elow. split; [done|]. unfold payload_addr. rewrite enc1_Some.
    eapply load_payload; [|done]. unfold enc1, enc. by rewrite app_assoc.
Qed.

Lemma unpack_all_reads cs s rest :
  Forall cmd_ok cs -> ureturn_code (uctx s) = 0 -> input s (enc_all cs ++ rest) ->
  exists its s', unpack_all (length cs) s = Some (its, s') /\
    Forall2 (reads (umem s)) its cs /\
    ureturn_code (uctx s') = 0 /\ umem s' = umem s /\ uend (uctx s') = uend (uctx s) /\
    ucurrent (uctx s') = ucurrent (uctx s) + Z.of_nat (length (enc_all cs)).
Proof.
  intros Hok. revert s. induction Hok as [|c cs Hc Hok IH]; intros s Hrc Hin.
  { exists [], s. simpl. rewrite Z.add_0_r. repeat split; auto. }
  unfold enc_all in *. cbn [map concat length unpack_all] in *. rewrite <- app_assoc in Hin.
  rewrite (decode_cmd s Hrc false c (enc1 c) _ Hc (enc1_Some c) Hin).
  set (s1 := decoded _ _ s).
  destruct (IH s1) as (its & s' & E & Hr & Hrc' & Hm & He & Hcur); [done| |].
  { apply (input_app s (enc1 c)) in Hin. by destruct Hin. }
  rewrite E. eexists _, s'. split; [done|]. split.
  - constructor; [|done]. apply input_prefix in Hin as [Hl H0 Hle Ht].
    apply item_of_reads; [done|done|lia|done].
  - rewrite Hcur. simpl. rewrite length_app. repeat split; auto. lia.
Qed.
