(* ===== verification/CwSafety.v ===== *)
(** * Memory safety and limits of the MessagePack decoder

    [cw_unpack_next] on arbitrary input never reads outside the unread part of
    the buffer.  Because addresses are 32 bits wide the length check itself can
    wrap around; the last section states what happens then. *)

From Stdlib Require Import ZArith Lia.
From stdpp Require Import base gmap list option numbers.
From S2P Require Import Prelude Cwpack CwpackSpec CwpackProof CwUnpack CwDecode CwRoundtrip.
Import StmtNotations.

Local Open Scope Z_scope.
Local Open Scope stmt_scope.

Section Safe.
Context (m : gmap Z Z) (b e : Z).
Hypothesis Hal : allocated m b (e - b).
Hypothesis Hb : 0 <= b.
Hypothesis He : e + 17 < 2 ^ 32.

(** The read position is inside the buffer and memory is unchanged. *)
Definition inside (s : unpack_state) : Prop :=
  umem s = m /\ uend (uctx s) = e /\ b <= ucurrent (uctx s) <= e.
Definition untouched (s : unpack_state) : Prop := umem s = m /\ uend (uctx s) = e.

Definition safe {A} (c : stmt unpack_state A) (Q : A -> Prop) : Prop :=
  forall s, inside s ->
  match c s with
  | Go a s' => Q a /\ inside s'
  | Return s' => untouched s'
  | Fault => False
  end.

Lemma safe_bind {A B} (c : stmt unpack_state A) (k : A -> stmt unpack_state B) P Q :
  safe c P -> (forall a, P a -> safe (k a) Q) -> safe (let! x := c in k x) Q.
Proof.
  intros Hc Hk s Hs. specialize (Hc s Hs). unfold sbind.
  destruct (c s) as [a s'| |]; try done. destruct Hc as [Ha Hs']. by apply Hk.
Qed.

Lemma safe_ret {A} (a : A) (Q : A -> Prop) : Q a -> safe (sret a) Q.
Proof. by intros Ha s Hs. Qed.

Lemma safe_return {A} Q : safe (@sreturn unpack_state A) Q.
Proof. by intros s (? & ? & _). Qed.

Lemma safe_if {A} (t : bool) (c d : stmt unpack_state A) Q :
  safe c Q -> safe d Q -> safe (if t then c else d) Q.
Proof. by destruct t. Qed.

Lemma safe_type t : safe (set_item_type t) (fun _ => True).
Proof. by intros s (? & ? & ?). Qed.

Lemma safe_as f : safe (set_item_as f) (fun _ => True).
Proof. by intros s (? & ? & ?). Qed.

Lemma safe_error {A} rc Q : safe (@UNPACK_ERROR A rc) Q.
Proof. by intros s (? & ? & ?). Qed.

Lemma safe_space rc n :
  0 <= n <= 17 ->
  safe (cw_unpack_assert_space None rc n) (fun p => b <= p /\ p + n <= e).
Proof.
  intros Hn s (Hm & Hs & Hc). unfold cw_unpack_assert_space, sbind, sget.
  rewrite u32_small by lia. rewrite Hs.
  destruct (Z.ltb_spec e (ucurrent (uctx s) + n)).
  - by apply safe_error.
  - split; [lia|]. repeat split; simpl; try done; lia.
Qed.

Lemma safe_get_byte p : b <= p /\ p + 1 <= e -> safe (get_byte p) (fun _ => True).
Proof.
  intros Hp s Hs. pose proof Hs as (Hm & _). unfold get_byte, sbind, sget. rewrite Hm.
  destruct (Hal p) as [x ->]; [lia|]. by split.
Qed.

Lemma safe_get_word p n :
  b <= p /\ p + Z.of_nat n <= e -> safe (get_word p n) (fun _ => True).
Proof.
  intros Hp s Hs. pose proof Hs as (Hm & _). unfold get_word, sbind, sget, sopt. rewrite Hm.
  destruct (load m p n) as [l|] eqn:El; [by split|].
  unfold load in El. apply mapM_None in El. apply Exists_exists in El as (i & Hi & Hn).
  apply list_elem_of_In, elem_of_seqZ in Hi. destruct (Hal i) as [x Hx]; [lia|]. by rewrite Hx in Hn.
Qed.

Lemma safe_blob Q : safe (cw_unpack_assert_blob None) Q.
Proof.
  intros s (Hm & Hs & Hc).
  unfold cw_unpack_assert_blob, space, cw_unpack_assert_space, sbind, sget.
  destruct (_ <? _); by simpl.
Qed.

Lemma safe_load16 p : b <= p /\ p + 2 <= e -> safe (cw_load16 p) (fun _ => True).
Proof. intros. eapply safe_bind; [by apply safe_get_word|]. intros. by apply safe_ret. Qed.
Lemma safe_load32 p : b <= p /\ p + 4 <= e -> safe (cw_load32 p) (fun _ => True).
Proof. intros. eapply safe_bind; [by apply safe_get_word|]. intros. by apply safe_ret. Qed.
Lemma safe_load64 p : b <= p /\ p + 8 <= e -> safe (cw_load64 p) (fun _ => True).
Proof. intros. eapply safe_bind; [by apply safe_get_word|]. intros. by apply safe_ret. Qed.

(** Follow the statement: one rule per construct. *)
Ltac safe_step :=
  lazymatch goal with
  | |- safe (if _ then _ else _) _ => apply safe_if
  | |- safe (sbind _ _) _ => eapply safe_bind; [|intros; simpl in *]
  | |- safe (cw_unpack_assert_space _ _ _) _ => apply safe_space; lia
  | |- safe (space _ _) _ => apply safe_space; lia
  | |- safe (get_byte _) _ => apply safe_get_byte; eassumption
  | |- safe (cw_load16 _) _ => apply safe_load16; eassumption
  | |- safe (cw_load32 _) _ => apply safe_load32; eassumption
  | |- safe (cw_load64 _) _ => apply safe_load64; eassumption
  | |- safe (set_item_type _) _ => apply safe_type
  | |- safe (set_item_as _) _ => apply safe_as
  | |- safe (UNPACK_ERROR _) _ => apply safe_error
  | |- safe (cw_unpack_assert_blob _) _ => apply safe_blob
  | |- safe sreturn _ => apply safe_return
  | |- safe (sret _) _ => by apply safe_ret
  end.

Lemma safe_getDDItem1 typ var cast : safe (getDDItem1 None typ var cast) (fun _ => True).
Proof. unfold getDDItem1. repeat safe_step. Qed.
Lemma safe_getDDItem2 typ var cast : safe (getDDItem2 None typ var cast) (fun _ => True).
Proof. unfold getDDItem2. repeat safe_step. Qed.
Lemma safe_getDDItem4 typ var cast : safe (getDDItem4 None typ var cast) (fun _ => True).
Proof. unfold getDDItem4. repeat safe_step. Qed.
Lemma safe_getDDItem8 typ : safe (getDDItem8 None typ) (fun _ => True).
Proof. unfold getDDItem8. repeat safe_step. Qed.
Lemma safe_ext_type : safe (get_ext_type None) (fun _ => True).
Proof. unfold get_ext_type. repeat safe_step. Qed.
Lemma safe_getDDItemFix n : safe (getDDItemFix None n) (fun _ => True).
Proof.
  unfold getDDItemFix. eapply safe_bind; [apply safe_ext_type|intros]. repeat safe_step.
Qed.
Lemma safe_fix_sign : safe fix_sign (fun _ => True).
Proof. intros s (? & ? & ?). unfold fix_sign, sbind, sget, swhen. by destruct (_ <=? _). Qed.

Lemma safe_unpack_next : safe (cw_unpack_next None) (fun _ => True).
Proof.
  unfold cw_unpack_next. eapply safe_bind.
  { intros s (? & ? & ?). unfold ucheck_rc, sbind, sget, swhen.
    instantiate (1 := fun _ => True). by destruct (truthy _). }
  intros _ _. repeat first
    [ safe_step | apply safe_getDDItem1 | apply safe_getDDItem2 | apply safe_getDDItem4
    | apply safe_getDDItem8 | apply safe_ext_type | apply safe_getDDItemFix
    | apply safe_fix_sign | unfold getDDItem ].
Qed.
End Safe.

(** ** Memory is only read

    Whatever the input and the context, decoding leaves memory alone. *)

Definition keeps {A} (c : stmt unpack_state A) : Prop :=
  forall s, match c s with
            | Go _ s' | Return s' => umem s' = umem s
            | Fault => True
            end.

Lemma keeps_bind {A B} (c : stmt unpack_state A) (k : A -> stmt unpack_state B) :
  keeps c -> (forall a, keeps (k a)) -> keeps (let! x := c in k x).
Proof.
  intros Hc Hk s. specialize (Hc s). unfold sbind. destruct (c s) as [a s'|s'|]; try done.
  specialize (Hk a s'). by destruct (k a s'); try rewrite Hk.
Qed.

Lemma keeps_if {A} (b : bool) (c d : stmt unpack_state A) : keeps c -> keeps d -> keeps (if b then c else d).
Proof. by destruct b. Qed.

Lemma keeps_modify f : keeps (smodify (set_uctx f)).
Proof. by intros s. Qed.

Lemma keeps_sopt {A} (o : option A) : keeps (sopt o).
Proof. by destruct o; intros s. Qed.

Lemma keeps_pure {A} (a : A) : keeps (sret a) /\ keeps sget /\ keeps (@sreturn unpack_state A).
Proof. by repeat split; intros s. Qed.

Ltac keeps_step :=
  lazymatch goal with
  | |- keeps (if _ then _ else _) => apply keeps_if
  | |- keeps (sbind _ _) => apply keeps_bind; [|intros]
  | |- keeps (smodify (set_uctx _)) => apply keeps_modify
  | |- keeps (sopt _) => apply keeps_sopt
  | |- keeps (sret _) => by intros s
  | |- keeps sget => by intros s
  | |- keeps sreturn => by intros s
  | |- keeps (let _ := _ in _) => cbv zeta
  | |- keeps (?c _ _ _ _) => unfold c
  | |- keeps (?c _ _ _) => unfold c
  | |- keeps (?c _ _) => unfold c
  | |- keeps (?c _) => unfold c
  | |- keeps ?c => unfold c
  end.

Lemma unpack_next_keeps : keeps (cw_unpack_next None).
Proof. repeat keeps_step. Qed.

Lemma exec_keeps {A} (c : stmt unpack_state A) s s' : keeps c -> exec c s = Some s' -> umem s' = umem s.
Proof.
  intros Hc E. specialize (Hc s). unfold exec in E. by destruct (c s); simplify_eq.
Qed.

(** ** Properties of the MessagePack component *)

(** Initial context of the packer over a fresh buffer. *)
Lemma pack_init_wf a n m :
  0 <= a -> 0 <= n -> a + n < 2 ^ 32 -> allocated m a n ->
  pack_wf (snd (cw_pack_context_init a n m)).
Proof.
  intros. unfold cw_pack_context_init. split; simpl; rewrite ?u32_small by lia; try lia.
  eapply allocated_sub; [done|lia..].
Qed.

(** * Skipping items: [cw_skip_items]

    On the encoding of a complete sequence of items, nested containers
    included, [cw_skip_items] stops exactly behind the sequence. *)

(** Number of further items a container header announces. *)
Definition arity (c : pack_cmd) : Z :=
  match c with
  | PArray n => n
  | PMap n => 2 * n
  | _ => 0
  end.

(** [complete k cs]: reading [k] items, each container bringing its elements,
    uses up exactly the headers and leaves [cs]; the pending count stays within
    a [long]. *)
Fixpoint complete (k : Z) (cs : list pack_cmd) : Prop :=
  match cs with
  | [] => k = 0
  | c :: cs => 0 < k /\ k - 1 + arity c < 2 ^ 31 /\ complete (k - 1 + arity c) cs
  end.

Lemma bind_tail {S A B} (c : stmt S A) (f : A -> stmt S B) s :
  (let! p := c in f p) s = (let! p := c in let! t := f p in sret t) s.
Proof.
  unfold sbind, sret. destruct (c s) as [p s'| |]; try done. by destruct (f p s').
Qed.

Section SkipOne.
Context (s : unpack_state).

Ltac lit_cond :=
  match goal with
  | |- context [if ?b then _ else _] =>
      let v := eval vm_compute in b in
      lazymatch v with
      | true => change b with true; cbv iota
      | false => change b with false; cbv iota
      end
  end.
Ltac sym_cond :=
  match goal with
  | |- context [?a <=? ?b] =>
      first [ rewrite (proj2 (Z.leb_le a b)) by lia | rewrite (proj2 (Z.leb_gt a b)) by lia ]
  | |- context [?a =? ?b] => rewrite (proj2 (Z.eqb_neq a b)) by lia
  end.
Ltac start H :=
  unfold skip_one; rewrite (fetch_byte _ _ _ _ _ H);
  repeat lit_cond; repeat sym_cond; cbn [orb andb].

Lemma advance_advance n k st : advance k (advance n st) = advance (n + k) st.
Proof.
  unfold advance, set_uctx, set_ucurrent; simpl. by rewrite Z.add_assoc.
Qed.

Lemma skip_bytes_Go n (v l : list Z) st :
  n = Z.of_nat (length v) -> input st (v ++ l) ->
  cw_skip_bytes None n st = Go 0 (advance n st).
Proof.
  intros -> [Hl H0 He Ht]. rewrite length_app in *.
  unfold cw_skip_bytes, space, sbind. by rewrite assert_space_Go by lia.
Qed.

Ltac skip_tail H v :=
  let H1 := fresh in
  pose proof (input_skip s 1 [_] _ eq_refl H) as H1;
  match goal with
  | |- cw_skip_bytes None ?n ?st = _ =>
      rewrite (skip_bytes_Go n v _ st eq_refl H1), advance_advance; done
  end.

Lemma skip_unsigned i rest :
  is_u 64 i -> input s (enc_unsigned i ++ rest) ->
  skip_one None s = Go 0 (advance (Z.of_nat (length (enc_unsigned i))) s).
Proof.
  intros [Hi0 Hi1] H. unfold enc_unsigned in *.
  destruct (Z.ltb_spec i 128); [by start H|].
  destruct (Z.ltb_spec i 256); [start H; skip_tail H [i]|].
  destruct (Z.ltb_spec i 0x10000); [start H; skip_tail H (be_bytes 2 i)|].
  destruct (Z.ltb_spec i 0x100000000); start H;
    [skip_tail H (be_bytes 4 i)|skip_tail H (be_bytes 8 i)].
Qed.

Lemma skip_signed i rest :
  - 2 ^ 63 <= i < 2 ^ 63 -> input s (enc_signed i ++ rest) ->
  skip_one None s = Go 0 (advance (Z.of_nat (length (enc_signed i))) s).
Proof.
  intros Hi H. unfold enc_signed in *. destruct (Z.leb_spec 0 i).
  { apply (skip_unsigned i rest); [split; lia|done]. }
  destruct (Z.leb_spec (-32) i).
  { assert (i mod 256 = 256 + i) as E by (Z.div_mod_to_equations; lia).
    rewrite E in H. by start H. }
  destruct (Z.leb_spec (-128) i); [start H; skip_tail H [i mod 256]|].
  destruct (Z.leb_spec (-32768) i); [start H; skip_tail H (be_bytes 2 i)|].
  destruct (Z.leb_spec (- 2 ^ 31) i); start H;
    [skip_tail H (be_bytes 4 i)|skip_tail H (be_bytes 8 i)].
Qed.

Lemma land15 t n : 0 <= n < 16 -> t = 0x80 \/ t = 0x90 -> Z.land (t + n) 15 = n.
Proof.
  intros Hn Ht. change 15 with (Z.ones 4). rewrite Z.land_ones by lia.
  destruct Ht as [->| ->]; wsolve.
Qed.

Lemma skip_map n rest :
  0 <= n < 2 ^ 30 -> input s (enc_size 0x80 0xde 0xdf n ++ rest) ->
  skip_one None s = Go (2 * n) (advance (Z.of_nat (length (enc_size 0x80 0xde 0xdf n))) s).
Proof.
  intros Hn H. unfold enc_size in *.
  destruct (Z.ltb_spec n 16); [start H; rewrite land15; [done|lia|auto]|].
  destruct (Z.ltb_spec n 65536); start H.
  - rewrite (fetch16 _ rest n) by (by apply (input_skip s 1 [_] _ eq_refl) in H).
    rewrite u16_small, advance_advance by lia. done.
  - rewrite (fetch32 _ rest n) by (by apply (input_skip s 1 [_] _ eq_refl) in H).
    rewrite !u32_small by (rewrite ?u32_small; lia). by rewrite advance_advance.
Qed.

Lemma skip_array n rest :
  is_u 32 n -> input s (enc_size 0x90 0xdc 0xdd n ++ rest) ->
  skip_one None s = Go n (advance (Z.of_nat (length (enc_size 0x90 0xdc 0xdd n))) s).
Proof.
  intros [Hn0 Hn1] H. unfold enc_size in *.
  destruct (Z.ltb_spec n 16); [start H; rewrite land15; [done|lia|auto]|].
  destruct (Z.ltb_spec n 65536); start H.
  - rewrite bind_tail, (fetch16 _ rest n) by (by apply (input_skip s 1 [_] _ eq_refl) in H).
    rewrite u16_small, advance_advance by lia. done.
  - rewrite bind_tail, (fetch32 _ rest n) by (by apply (input_skip s 1 [_] _ eq_refl) in H).
    rewrite u32_small by lia. by rewrite advance_advance.
Qed.

(** Blobs: the length operand, then that many bytes. *)
Lemma skip_len8 (v rest : list Z) (k : Z -> Z) st :
  input st (Z.of_nat (length v) :: rest) ->
  (let! p := space None 1 in let! t := get_byte p in cw_skip_bytes None (k t)) st
    = cw_skip_bytes None (k (Z.of_nat (length v))) (advance 1 st).
Proof. intros H. unfold space. by rewrite (fetch_byte _ _ _ _ _ H). Qed.

Lemma skip_len16 (n : Z) (rest : list Z) (k : Z -> Z) st :
  0 <= n < 65536 -> input st (be_bytes 2 n ++ rest) ->
  (let! p := space None 2 in let! t := cw_load16 p in cw_skip_bytes None (k t)) st
    = cw_skip_bytes None (k n) (advance 2 st).
Proof. intros Hn H. rewrite (fetch16 _ _ _ _ H). by rewrite u16_small by lia. Qed.

Lemma skip_len32 (n : Z) (rest : list Z) (k : Z -> Z) st :
  is_u 32 n -> input st (be_bytes 4 n ++ rest) ->
  (let! p := space None 4 in let! t := cw_load32 p in cw_skip_bytes None (k t)) st
    = cw_skip_bytes None (k n) (advance 4 st).
Proof. intros Hn H. rewrite (fetch32 _ _ _ _ H). by rewrite u32_small. Qed.

Ltac skip_blob H v :=
  let H1 := fresh in let H2 := fresh in
  pose proof (input_skip s 1 [_] _ eq_refl H) as H1;
  first
    [ rewrite (skip_len8 v _ (fun t => t) _ H1);
      pose proof (input_skip _ 1 [_] _ eq_refl H1) as H2
    | rewrite (skip_len16 (Z.of_nat (length v)) _ (fun t => t) _ ltac:(lia) H1);
      pose proof (input_skip _ 2 (be_bytes 2 _) _ eq_refl H1) as H2
    | rewrite (skip_len32 (Z.of_nat (length v)) _ (fun t => t) _ ltac:(done) H1);
      pose proof (input_skip _ 4 (be_bytes 4 _) _ eq_refl H1) as H2 ];
  rewrite (skip_bytes_Go _ v _ _ eq_refl H2), !advance_advance;
  rewrite length_app, Nat2Z.inj_add; do 2 f_equal;
  cbn [length]; rewrite ?length_be_bytes; lia.

Lemma skip_str compat v rest :
  is_u 32 (Z.of_nat (length v)) ->
  input s ((str_header compat (Z.of_nat (length v)) ++ v) ++ rest) ->
  skip_one None s =
    Go 0 (advance (Z.of_nat (length (str_header compat (Z.of_nat (length v)) ++ v))) s).
Proof.
  intros Hn H. unfold str_header in *. rewrite <- app_assoc in H.
  destruct (Z.ltb_spec (Z.of_nat (length v)) 32).
  { start H. assert (Z.land (0xa0 + Z.of_nat (length v)) 31 = Z.of_nat (length v)) as ->.
    { change 31 with (Z.ones 5). rewrite Z.land_ones by lia. wsolve. }
    pose proof (input_skip s 1 [_] _ eq_refl H) as H1.
    rewrite (skip_bytes_Go _ v _ _ eq_refl H1), advance_advance.
    rewrite length_app, Nat2Z.inj_add. done. }
  destruct ((Z.of_nat (length v) <? 256) && negb compat); [start H; skip_blob H v|].
  destruct (Z.ltb_spec (Z.of_nat (length v)) 65536); start H; skip_blob H v.
Qed.

Lemma skip_bin v rest :
  is_u 32 (Z.of_nat (length v)) ->
  input s ((bin_header (Z.of_nat (length v)) ++ v) ++ rest) ->
  skip_one None s =
    Go 0 (advance (Z.of_nat (length (bin_header (Z.of_nat (length v)) ++ v))) s).
Proof.
  intros Hn H. unfold bin_header in *. rewrite <- app_assoc in H.
  destruct (Z.ltb_spec (Z.of_nat (length v)) 256); [start H; skip_blob H v|].
  destruct (Z.ltb_spec (Z.of_nat (length v)) 65536); start H; skip_blob H v.
Qed.

Lemma skip_ext_tail t v rest h st n k :
  k = Z.of_nat (length v) + 1 -> input st (([t mod 256] ++ v) ++ rest) -> st = advance n s ->
  Z.of_nat (length h) = n ->
  cw_skip_bytes None k st =
    Go 0 (advance (Z.of_nat (length (h ++ [t mod 256] ++ v))) s).
Proof.
  intros Hk H -> <-.
  assert (k = Z.of_nat (length ([t mod 256] ++ v))) as E
    by (rewrite length_app; cbn [length]; lia).
  rewrite E, (skip_bytes_Go _ _ _ _ eq_refl H), advance_advance, (length_app h), Nat2Z.inj_add. done.
Qed.

Lemma skip_ext t v rest :
  is_u 32 (Z.of_nat (length v)) -> Z.of_nat (length v) < 2 ^ 32 - 1 ->
  input s ((ext_header (Z.of_nat (length v)) ++ [t mod 256] ++ v) ++ rest) ->
  skip_one None s =
    Go 0 (advance (Z.of_nat (length (ext_header (Z.of_nat (length v)) ++ [t mod 256] ++ v))) s).
Proof.
  intros Hn Htop H. unfold ext_header in *. rewrite <- app_assoc in H.
  repeat match goal with
  | |- context [?x =? ?y] =>
      destruct (Z.eqb_spec x y);
      [start H; pose proof (input_skip s 1 [_] _ eq_refl H) as Hrest;
       eapply skip_ext_tail; [lia|exact Hrest|done|done]|]
  end.
  destruct (Z.ltb_spec (Z.of_nat (length v)) 256);
    [|destruct (Z.ltb_spec (Z.of_nat (length v)) 65536)]; start H;
    pose proof (input_skip s 1 [_] _ eq_refl H) as Htl.
  - rewrite (skip_len8 v _ (fun t => u32 (t + 1)) _ Htl).
    pose proof (input_skip _ 1 [_] _ eq_refl Htl) as H2. rewrite u32_small by lia.
    rewrite advance_advance in *. eapply skip_ext_tail; [lia|exact H2|done|done].
  - rewrite (skip_len16 (Z.of_nat (length v)) _ (fun t => t + 1) _ ltac:(lia) Htl).
    pose proof (input_skip _ 2 (be_bytes 2 _) _ eq_refl Htl) as H2.
    rewrite advance_advance in *. eapply skip_ext_tail; [lia|exact H2|done|done].
  - rewrite (skip_len32 (Z.of_nat (length v)) _ (fun t => u32 (t + 1)) _ ltac:(done) Htl).
    pose proof (input_skip _ 4 (be_bytes 4 _) _ eq_refl Htl) as H2. rewrite u32_small by lia.
    rewrite advance_advance in *. eapply skip_ext_tail; [lia|exact H2|done|done].
Qed.

(** An extension of [2^32 - 1] bytes cannot lie in a 32-bit address space
    together with its header, so [cmd_ok] input never has one. *)
Lemma skip_cmd c rest :
  cmd_ok c -> arity c < 2 ^ 31 -> input s (enc1 c ++ rest) ->
  skip_one None s = Go (arity c) (advance (Z.of_nat (length (enc1 c))) s).
Proof.
  intros Hok Har H. destruct c; unfold enc1 in *; cbn [enc cmd_ok arity] in *.
  - by start H.
  - destruct b; by start H.
  - by eapply skip_unsigned.
  - by eapply skip_signed.
  - start H. skip_tail H (be_bytes 4 f).
  - start H. skip_tail H (be_bytes 8 d).
  - by eapply skip_array.
  - eapply skip_map; [unfold is_u in *; lia|done].
  - destruct Hok. by eapply skip_str.
  - destruct Hok. by eapply skip_bin.
  - destruct Hok as (? & ? & ?). eapply skip_ext; [done| |done].
    destruct H as [_ Hlow He Htop]. rewrite !length_app in He. cbn [length] in He. lia.
Qed.
End SkipOne.

(** The loop counts the pending items exactly as [complete] does. *)
Lemma skip_loop_complete cs : forall k s rest fuel,
  Forall cmd_ok cs -> complete k cs -> k < 2 ^ 31 -> (length cs < fuel)%nat ->
  input s (enc_all cs ++ rest) ->
  skip_loop None fuel k s = Some (Return (advance (Z.of_nat (length (enc_all cs))) s)).
Proof.
  induction cs as [|c cs IH]; intros k s rest fuel Hok Hc Hk Hf Hin;
    (destruct fuel as [|fuel]; [cbn [length] in Hf; lia|]); cbn [skip_loop complete] in *.
  - subst k. do 2 f_equal. unfold advance, set_uctx, set_ucurrent; simpl.
    rewrite Z.add_0_r. by destruct s as [[] ?].
  - destruct Hc as (Hpos & Hlt & Hc). apply Forall_cons_1 in Hok as [Hc0 Hok].
    rewrite (proj2 (Z.ltb_lt 0 k)) by lia.
    unfold enc_all in *. cbn [map concat length] in *. rewrite <- app_assoc in Hin.
    assert (0 <= arity c) by (destruct c; cbn [arity cmd_ok] in *; unfold is_u in *; lia).
    rewrite (skip_cmd s c _ Hc0 ltac:(lia) Hin).
    rewrite (swrap_small 32) by lia.
    rewrite (IH _ _ rest); [|done|done|lia|lia|by apply (input_app s (enc1 c))].
    rewrite advance_advance, length_app, Nat2Z.inj_add. done.
Qed.
