(* ===== verification/CwTheorems.v ===== *)
(** * Properties of the MessagePack codec

    The packer implements the encoding of [CwpackSpec.v], the unpacker inverts
    it and stays inside its buffer on any input, [cw_skip_items] steps over
    complete items; the last section shows where the 32-bit length check of the
    unpacker gives way. *)

From Stdlib Require Import ZArith Lia.
From stdpp Require Import base gmap list option numbers.
From S2P Require Import Prelude Cwpack CwpackSpec CwpackProof CwUnpack CwDecode.
From S2P Require Import CwRoundtrip CwSafety.
Import StmtNotations.

Local Open Scope Z_scope.
Local Open Scope stmt_scope.

(** ** Concrete buffers for the witnesses *)

Definition zeroed (a n : Z) : gmap Z Z := write ∅ a (repeat 0 (Z.to_nat n)).

Lemma zeroed_allocated a n : 0 <= n -> allocated (zeroed a n) a n.
Proof.
  intros Hn i Hi. unfold zeroed. rewrite lookup_write, repeat_length.
  rewrite decide_True by lia. apply lookup_lt_is_Some. rewrite repeat_length. lia.
Qed.

(** A decoder state over the bytes [l] placed at address [a]. *)
Definition reading (a : Z) (l : list Z) : unpack_state :=
  snd (cw_unpack_context_init (Item 0 0) a (Z.of_nat (length l)) (write ∅ a l)).

Lemma reading_input a l :
  0 <= a -> a + Z.of_nat (length l) < 2 ^ 32 -> input (reading a l) l.
Proof.
  intros. unfold reading, cw_unpack_context_init. split; simpl; [apply load_write|lia|..];
    rewrite u32_small by lia; lia.
Qed.

(** ** Packing *)

Lemma emit_wf l s : pack_wf s -> pack_wf (emit l s).
Proof.
  intros [Ho Ht Ha]. unfold emit. destruct (truthy _); [done|].
  destruct (Z.ltb_spec (end_ (ctx s)) (current (ctx s) + Z.of_nat (length l))); [done|].
  split; simpl; [lia|lia|by apply allocated_write].
Qed.

Lemma emit_frame l s i :
  ~ (current (ctx s) <= i < end_ (ctx s)) -> pmem (emit l s) !! i = pmem s !! i.
Proof.
  intros Hi. unfold emit. destruct (truthy _); [done|].
  destruct (Z.ltb_spec (end_ (ctx s)) (current (ctx s) + Z.of_nat (length l))); [done|].
  simpl. rewrite lookup_write, decide_False by lia. done.
Qed.

(** C23: Every pack routine with a null overflow handler computes the abstract
    append of the MessagePack encoding: nothing if an error is latched; the
    item's bytes at [current] when they fit below [end]; otherwise only
    [CWP_RC_BUFFER_OVERFLOW] (or [CWP_RC_ILLEGAL_CALL] for an extension in
    compatibility mode) is latched.  The context stays well-formed and no byte
    outside the free part of the buffer changes. *)
Theorem pack_refines_encoding (c : pack_cmd) (s : pack_state) :
  pack_wf s -> cmd_ok c -> current (ctx s) + payload c + 9 < 2 ^ 32 ->
  exec (pack c) s = Some (emit_cmd c s) /\
  pack_wf (emit_cmd c s) /\
  (forall i, ~ (current (ctx s) <= i < end_ (ctx s)) -> pmem (emit_cmd c s) !! i = pmem s !! i).
Proof.
  intros Hwf Hok Htop. rewrite pack_emit_cmd by done. split; [done|].
  unfold emit_cmd. destruct (enc _ c) as [l|].
  - split; [by apply emit_wf|]. intros. by apply emit_frame.
  - destruct (truthy _); [done|]. destruct Hwf. done.
Qed.

Lemma pack_refines_encoding_witness :
  exec (pack (PUnsigned 300)) (snd (cw_pack_context_init 0x20000000 16 (zeroed 0x20000000 16)))
    = Some (emit_cmd (PUnsigned 300)
              (snd (cw_pack_context_init 0x20000000 16 (zeroed 0x20000000 16)))).
Proof.
  apply pack_refines_encoding; [|by vm_compute|by vm_compute].
  apply pack_init_wf; [lia..|by apply zeroed_allocated].
Defined.

(** ** Round trip *)

(** C2: Packing any sequence of well-typed items into a buffer that holds them
    and unpacking the written bytes with [cw_unpack_next], once per item, yields
    the items in order: types, values and payload bytes as a client reads them
    through the item union.  Neither side reports an error, the writer's and the
    reader's positions agree, and one further [cw_unpack_next] reports the end
    of the input. *)
Theorem messagepack_roundtrip (cs : list pack_cmd) (a n : Z) (m : gmap Z Z) (it0 : cwpack_item) :
  Forall cmd_ok cs -> 0 <= a -> a + n + 9 < 2 ^ 32 -> allocated m a n ->
  Z.of_nat (length (enc_all cs)) <= n ->
  exists sp its su,
    pack_all cs (snd (cw_pack_context_init a n m)) = Some sp /\
    return_code (ctx sp) = CWP_RC_OK /\
    unpack_all (length cs)
      (snd (cw_unpack_context_init it0 a (current (ctx sp) - start (ctx sp)) (pmem sp)))
      = Some (its, su) /\
    Forall2 (reads (pmem sp)) its cs /\
    ureturn_code (uctx su) = CWP_RC_OK /\
    ucurrent (uctx su) = current (ctx sp) /\
    (exists su', exec (cw_unpack_next None) su = Some su' /\
       ureturn_code (uctx su') = CWP_RC_END_OF_INPUT).
Proof.
  intros Hok Ha Htop Hal Hfit.
  pose proof (pack_init_wf a n m ltac:(lia) ltac:(lia) ltac:(lia) Hal) as Hwf.
  rewrite (pack_all_write cs _ Hwf) by
    (done || (unfold cw_pack_context_init; simpl; rewrite u32_small by lia; lia)).
  set (s0 := snd (cw_unpack_context_init it0 a (Z.of_nat (length (enc_all cs)))
               (write m a (enc_all cs)))).
  assert (input s0 (enc_all cs ++ [])) as Hin.
  { rewrite app_nil_r. split; simpl; [apply load_write|lia|..]; rewrite u32_small by lia; lia. }
  destruct (unpack_all_reads cs s0 [] Hok eq_refl Hin)
    as (its & su & E & Hr & Hrc & Hm & He & Hcur).
  eexists _, its, su. split; [done|]. unfold cw_pack_context_init; simpl.
  replace (a + Z.of_nat (length (enc_all cs)) - a) with (Z.of_nat (length (enc_all cs))) by lia.
  repeat (split; [done|]).
  unfold cw_unpack_next. unfold exec. rewrite check_pass by done.
  unfold sbind at 1. rewrite assert_space_short; [by eexists| | |rewrite Hcur|rewrite Hcur, He];
    rewrite ?Hcur; simpl; rewrite ?u32_small by lia; lia.
Qed.

Definition sample_cmds : list pack_cmd :=
  [PMap 2; PStr [0x69; 0x5f; 0x61]; PFloat 0x40490fdb; PStr [0x6f; 0x6b]; PArray 3;
   PBool true; PSigned (-1000); PNil].

Lemma sample_cmds_ok : Forall cmd_ok sample_cmds.
Proof.
  repeat constructor; try done; unfold is_byte; lia.
Qed.

Lemma messagepack_roundtrip_witness :
  exists sp its su,
    pack_all sample_cmds (snd (cw_pack_context_init 0x20000000 64 (zeroed 0x20000000 64))) = Some sp /\
    unpack_all 8 (snd (cw_unpack_context_init (Item 0 0) 0x20000000
                         (current (ctx sp) - start (ctx sp)) (pmem sp))) = Some (its, su) /\
    Forall2 (reads (pmem sp)) its sample_cmds.
Proof.
  destruct (messagepack_roundtrip sample_cmds 0x20000000 64 (zeroed 0x20000000 64) (Item 0 0))
    as (sp & its & su & H1 & _ & H2 & H3 & _);
    [apply sample_cmds_ok|lia|lia|by apply zeroed_allocated|by vm_compute|].
  exists sp, its, su. auto.
Defined.

(** ** Arbitrary input *)

(** C33: On arbitrary bytes between the read position and [end], one call of
    [cw_unpack_next] completes without an access outside that region, whatever
    the item header announces, and changes neither memory nor the end of the
    buffer. *)
Theorem unpack_next_safe (s : unpack_state) :
  0 <= ucurrent (uctx s) <= uend (uctx s) -> uend (uctx s) + 17 < 2 ^ 32 ->
  allocated (umem s) (ucurrent (uctx s)) (uend (uctx s) - ucurrent (uctx s)) ->
  exists s', exec (cw_unpack_next None) s = Some s' /\
    umem s' = umem s /\ uend (uctx s') = uend (uctx s).
Proof.
  intros Hc Ht Hal.
  pose proof (safe_unpack_next _ _ _ Hal ltac:(lia) Ht s) as H. unfold exec.
  destruct (cw_unpack_next None s) as [u s'|s'|].
  - destruct H as (_ & ? & ? & _); [by repeat split; try lia|]. eauto.
  - destruct H as (? & ?); [by repeat split; try lia|]. eauto.
  - destruct H. by repeat split; try lia.
Qed.

Lemma unpack_next_safe_witness :
  exists s', exec (cw_unpack_next None) (reading 0x20000000 [0xd9; 0xff; 0x61]) = Some s' /\
    umem s' = umem (reading 0x20000000 [0xd9; 0xff; 0x61]) /\
    uend (uctx s') = 0x20000003.
Proof.
  destruct (unpack_next_safe (reading 0x20000000 [0xd9; 0xff; 0x61])) as (s' & H1 & H2 & H3);
    [by vm_compute|by vm_compute| |by exists s'].
  apply allocatedb_spec. by vm_compute.
Defined.

(** C34: [cw_skip_items] with count [k] on the encoding of exactly [k] items,
    each container followed by its elements, terminates without an error and
    leaves the read position behind the last byte of the last item; one loop
    iteration per header is enough. *)
Theorem skip_items_complete (cs : list pack_cmd) (k : Z) (s : unpack_state) (rest : list Z) (fuel : nat) :
  Forall cmd_ok cs -> complete k cs -> k < 2 ^ 31 -> (length cs < fuel)%nat ->
  ureturn_code (uctx s) = 0 -> input s (enc_all cs ++ rest) ->
  cw_skip_items None fuel k s
    = Some (Some (advance (Z.of_nat (length (enc_all cs))) s)).
Proof.
  intros Hok Hc Hk Hf Hrc Hin. unfold cw_skip_items. rewrite Hrc.
  by rewrite (skip_loop_complete cs k s rest fuel).
Qed.

Lemma skip_items_complete_witness :
  cw_skip_items None 9 1 (reading 0x20000000 (enc_all sample_cmds ++ [0x2a]))
    = Some (Some (advance (Z.of_nat (length (enc_all sample_cmds)))
                    (reading 0x20000000 (enc_all sample_cmds ++ [0x2a])))).
Proof.
  apply (skip_items_complete sample_cmds 1 _ [0x2a]);
    [apply sample_cmds_ok|by vm_compute|lia|by vm_compute; lia|done|].
  by apply reading_input; vm_compute.
Defined.

(** ** The length check wraps around *)

Lemma assert_space_wrap rc n s a :
  0 <= a -> a <= uend (uctx s) -> uend (uctx s) < 2 ^ 32 ->
  ucurrent (uctx s) + n = a + 2 ^ 32 ->
  cw_unpack_assert_space None rc n s
    = Go (ucurrent (uctx s)) (set_uctx (set_ucurrent a) s).
Proof.
  intros. unfold cw_unpack_assert_space, sbind, sget.
  replace (u32 (ucurrent (uctx s) + n)) with a by (unfold u32, wrap; Z.div_mod_to_equations; lia).
  by rewrite (proj2 (Z.ltb_ge _ _)) by lia.
Qed.

Definition endless : list Z := [0xdd; 0; 0; 0; 2] ++ [0xdb; 0xff; 0xff; 0xff; 0xf6].

Lemma endless_array s rest :
  input s (endless ++ rest) -> skip_one None s = Go 2 (advance 5 s).
Proof.
  intros H. change (input s (0xdd :: be_bytes 4 2 ++ [0xdb; 0xff; 0xff; 0xff; 0xf6] ++ rest)) in H.
  unfold skip_one. rewrite (fetch_byte _ _ _ _ _ H).
  pose proof (input_skip s 1 [_] _ eq_refl H) as H1.
  pose proof (fetch32 _ _ _ (sret (A := Z)) H1) as E. rewrite advance_advance in E.
  rewrite <- bind_tail in E. exact E.
Qed.

Lemma endless_string s rest :
  input s (endless ++ rest) -> skip_one None (advance 5 s) = Go 0 s.
Proof.
  intros H. pose proof H as [_ Hl He Ht].
  change (input s ([0xdd; 0; 0; 0; 2] ++ 0xdb :: be_bytes 4 0xfffffff6 ++ rest)) in H.
  pose proof (input_skip s 5 [_;_;_;_;_] _ eq_refl H) as H1.
  unfold skip_one. rewrite (fetch_byte _ _ _ _ _ H1).
  pose proof (input_skip _ 1 [_] _ eq_refl H1) as H2.
  assert (is_u 32 0xfffffff6) as Hu by (unfold is_u; lia).
  etransitivity; [exact (skip_len32 0xfffffff6 rest (fun t => t) _ Hu H2)|].
  rewrite !advance_advance. unfold cw_skip_bytes, space, sbind.
  rewrite (assert_space_wrap _ _ _ (ucurrent (uctx s))); [|done|simpl in *; lia|done|simpl; lia].
  by destruct s as [[] ?].
Qed.

(** [cw_skip_items] does not terminate on every input: a ten-byte message
    (an array of two whose first element is a string of length [2^32 - 10])
    passes the length check because the end address wraps around to the start
    of the message, and the same two headers are read again forever.  No number
    of iterations is enough. *)
Theorem skip_items_diverges (s : unpack_state) (rest : list Z) (fuel : nat) :
  ureturn_code (uctx s) = 0 -> input s (endless ++ rest) ->
  cw_skip_items None fuel 1 s = None.
Proof.
  intros Hrc H. unfold cw_skip_items. rewrite Hrc. simpl.
  assert (skip_loop None fuel 1 s = None /\ skip_loop None fuel 2 (advance 5 s) = None) as [-> _];
    [|done].
  induction fuel as [|fuel [IH1 IH2]]; [done|]. split; cbn [skip_loop].
  - by rewrite (endless_array s rest).
  - by rewrite (endless_string s rest).
Qed.

Lemma skip_items_diverges_witness :
  cw_skip_items None 1000 1 (reading 0x20000000 (endless ++ [])) = None.
Proof.
  apply (skip_items_diverges _ []); [done|]. by apply reading_input; vm_compute.
Defined.
