(* ===== verification/Biquad.v ===== *)
(** * The biquad filter: [src/src/biquad.c]

    A second-order direct-form-I section with output limits, used by the current
    controllers.  [BiquadUpdateLim] is shown equal to the difference equation
    over the input and output histories, and its output is within the limits
    whatever the input, NaN and infinities included. *)

From Stdlib Require Import ZArith Lia SpecFloat.
From stdpp Require Import base list option numbers.
From S2P Require Import Prelude Float32.

Local Open Scope Z_scope.

Record biquad_t := Biquad {
  b0 : spec_float; b1 : spec_float; b2 : spec_float;
  a1 : spec_float; a2 : spec_float;
  in1 : spec_float; in2 : spec_float;
  out1 : spec_float; out2 : spec_float
}.

Definition MIN (x y : spec_float) : spec_float := if flt x y then x else y.
Definition MAX (x y : spec_float) : spec_float := if fgt x y then x else y.

Definition BiquadReset (b : biquad_t) : biquad_t :=
  Biquad (b0 b) (b1 b) (b2 b) (a1 b) (a2 b) f_zero f_zero f_zero f_zero.

Definition BiquadInit (b : biquad_t) (b0' b1' b2' a1' a2' : spec_float) : biquad_t :=
  BiquadReset (Biquad b0' b1' b2' a1' a2' (in1 b) (in2 b) (out1 b) (out2 b)).

Definition BiquadUpdateLim (b : biquad_t) (input lim_low lim_high : spec_float)
    : spec_float * biquad_t :=
  let out_raw :=
    f32_sub (f32_sub (f32_add (f32_add (f32_mul (b0 b) input)
                                       (f32_mul (b1 b) (in1 b)))
                              (f32_mul (b2 b) (in2 b)))
                     (f32_mul (a1 b) (out1 b)))
            (f32_mul (a2 b) (out2 b)) in
  let out := MIN (MAX out_raw lim_low) lim_high in
  (out, Biquad (b0 b) (b1 b) (b2 b) (a1 b) (a2 b) input (in1 b) out (out1 b)).

Definition BiquadUpdate (b : biquad_t) (input : spec_float) : spec_float * biquad_t :=
  BiquadUpdateLim b input FLT_MIN FLT_MAX.

(** ** Sequences of samples *)

(** A run over a list of samples, each with the limits of its call. *)
Fixpoint run (b : biquad_t) (xs : list (spec_float * (spec_float * spec_float)))
    : list spec_float * biquad_t :=
  match xs with
  | [] => ([], b)
  | (x, (lo, hi)) :: xs =>
      let '(y, b') := BiquadUpdateLim b x lo hi in
      let '(ys, b'') := run b' xs in
      (y :: ys, b'')
  end.

(** The difference equation over histories, newest sample first; samples
    before the first call are zero. *)
Definition past (h : list spec_float) (k : nat) : spec_float := default f_zero (h !! k).

Definition difference_equation (b : biquad_t) (x : spec_float) (xh yh : list spec_float)
    : spec_float :=
  f32_sub (f32_sub (f32_add (f32_add (f32_mul (b0 b) x)
                                     (f32_mul (b1 b) (past xh 0)))
                            (f32_mul (b2 b) (past xh 1)))
                   (f32_mul (a1 b) (past yh 0)))
          (f32_mul (a2 b) (past yh 1)).

Fixpoint filter_spec (b : biquad_t) (xh yh : list spec_float)
    (xs : list (spec_float * (spec_float * spec_float))) : list spec_float :=
  match xs with
  | [] => []
  | (x, (lo, hi)) :: xs =>
      let y := MIN (MAX (difference_equation b x xh yh) lo) hi in
      y :: filter_spec b (x :: xh) (y :: yh) xs
  end.

Lemma run_spec b xh yh xs :
  in1 b = past xh 0 -> in2 b = past xh 1 -> out1 b = past yh 0 -> out2 b = past yh 1 ->
  fst (run b xs) = filter_spec b xh yh xs.
Proof.
  revert b xh yh. induction xs as [|[x [lo hi]] xs IH]; intros b xh yh E1 E2 E3 E4; [done|].
  cbn [run filter_spec]. unfold BiquadUpdateLim, difference_equation.
  rewrite E1, E2, E3, E4. set (y := MIN _ _). set (b' := Biquad _ _ _ _ _ _ _ _ _).
  destruct (run b' xs) as [ys b''] eqn:E. simpl. f_equal.
  change ys with (fst (ys, b'')). rewrite <- E.
  rewrite (IH b' (x :: xh) (y :: yh)) by done.
  assert (forall l xh yh, filter_spec b' xh yh l = filter_spec b xh yh l) as Hsame; [|apply Hsame].
  clear. induction l as [|[? [??]] l IH]; intros; [done|]. cbn [filter_spec].
  rewrite IH. done.
Qed.

(** ** Limits *)

Lemma clamp_limits x lo hi :
  fle lo hi = true -> fle lo (MIN (MAX x lo) hi) = true /\ fle (MIN (MAX x lo) hi) hi = true.
Proof.
  intros H. pose proof (fle_not_nan_l _ _ H) as Hlo. pose proof (fle_not_nan_r _ _ H) as Hhi.
  assert (fle lo (MAX x lo) = true) as HM.
  { unfold MAX. unfold fgt. destruct (SFltb lo x) eqn:E; [by apply flt_fle|by apply fle_refl]. }
  unfold MIN. destruct (flt (MAX x lo) hi) eqn:E.
  - split; [done|]. by apply flt_fle.
  - split; [done|]. by apply fle_refl.
Qed.

(** ** Properties *)

(** C37: From [BiquadInit] on, the outputs of successive [BiquadUpdateLim] calls
    are exactly the clamped difference equation
    [y(n) = b0 x(n) + b1 x(n-1) + b2 x(n-2) - a1 y(n-1) - a2 y(n-2)] in binary32
    arithmetic, with zero history before the first sample, regardless of what
    the filter state held before. *)
Theorem biquad_difference_equation (b : biquad_t) (c0 c1 c2 d1 d2 : spec_float)
    (xs : list (spec_float * (spec_float * spec_float))) :
  fst (run (BiquadInit b c0 c1 c2 d1 d2) xs)
    = filter_spec (BiquadInit b c0 c1 c2 d1 d2) [] [] xs.
Proof. by apply run_spec. Qed.

(** Every output lies within the limits of its call for any filter state and
    any samples, including NaN and infinities, as long as the limits are
    ordered; so a NaN never reaches the actuators or the output history. *)
Theorem biquad_output_limited (b : biquad_t) (xs : list (spec_float * (spec_float * spec_float))) :
  Forall (fun '(_, (lo, hi)) => fle lo hi = true) xs ->
  Forall2 (fun y '(_, (lo, hi)) => fle lo y = true /\ fle y hi = true) (fst (run b xs)) xs.
Proof.
  intros H. revert b. induction H as [|[x [lo hi]] xs Hx _ IH]; intros b; [constructor|].
  cbn [run]. destruct (BiquadUpdateLim b x lo hi) as [y b'] eqn:Ey.
  specialize (IH b'). destruct (run b' xs) as [ys b'']. constructor; [|done].
  unfold BiquadUpdateLim in Ey. injection Ey as <- _. by apply clamp_limits.
Qed.

Lemma biquad_output_limited_witness :
  let lo := f32_lit (-1) 1 in let hi := f32_lit 1 1 in
  let xs := [(S754_nan, (lo, hi)); (S754_infinity false, (lo, hi))] in
  let b := BiquadInit (Biquad S754_nan S754_nan S754_nan S754_nan S754_nan
                         S754_nan S754_nan S754_nan S754_nan) hi hi hi hi hi in
  Forall2 (fun y '(_, (lo, hi)) => fle lo y = true /\ fle y hi = true) (fst (run b xs)) xs.
Proof. intros. apply biquad_output_limited. repeat constructor. Defined.

Lemma above_flt_min y : fle FLT_MIN y = true -> flt f_zero y = true.
Proof. destruct y as [?|[]| |[] m e]; done. Qed.

(** [BiquadUpdate], meant to be the unlimited filter, limits its output
    below by [FLT_MIN], the smallest positive normal number: it returns a
    positive number for every state and every input, so a negative or zero
    filter output can never be produced. *)
Theorem biquad_update_always_positive (b : biquad_t) (input : spec_float) :
  flt f_zero (fst (BiquadUpdate b input)) = true.
Proof.
  apply above_flt_min. unfold BiquadUpdate, BiquadUpdateLim. by apply clamp_limits.
Qed.
