(* ===== verification/FreqResponse.v ===== *)
(** * Frequency response measurement: [src/src/freq_response.c]

    [FreqResponse_Poll] runs in a thread and configures the next frequency;
    [FreqResponse_UpdateWithOffset] runs in the control interrupt, injects the
    excitation and accumulates the correlation sums.  [sinf], [cosf] and [powf]
    come from the C library and the [emit] callback from the client: they are
    parameters. *)

From Stdlib Require Import ZArith Lia SpecFloat.
From stdpp Require Import base list option numbers.
From S2P Require Import Prelude Float32.

Local Open Scope Z_scope.

Record freq_response_result_t := FrResult {
  freq : spec_float;
  real : spec_float;
  imag : spec_float;
  exc_real : spec_float;
  exc_imag : spec_float
}.

Record freq_response_t := Fr {
  fs : spec_float;
  f_min : spec_float; f_max : spec_float;
  frequencies_per_decade : spec_float;
  magnitude : spec_float;
  wavelengths_per_frequency : Z;
  emit : bool;                      (* the callback pointer is not null *)
  fr_f : spec_float;
  theta : spec_float; theta_increment : spec_float;
  normalization_factor : spec_float;
  samples_remaining : Z;
  sin_sum : spec_float; cos_sum : spec_float;
  sin_exc_sum : spec_float; cos_exc_sum : spec_float
}.

Definition set_f (v : spec_float) (r : freq_response_t) : freq_response_t :=
  Fr (fs r) (f_min r) (f_max r) (frequencies_per_decade r) (magnitude r)
     (wavelengths_per_frequency r) (emit r) v (theta r) (theta_increment r)
     (normalization_factor r) (samples_remaining r) (sin_sum r) (cos_sum r)
     (sin_exc_sum r) (cos_exc_sum r).
Definition set_theta (v : spec_float) (r : freq_response_t) : freq_response_t :=
  Fr (fs r) (f_min r) (f_max r) (frequencies_per_decade r) (magnitude r)
     (wavelengths_per_frequency r) (emit r) (fr_f r) v (theta_increment r)
     (normalization_factor r) (samples_remaining r) (sin_sum r) (cos_sum r)
     (sin_exc_sum r) (cos_exc_sum r).
Definition set_theta_increment (v : spec_float) (r : freq_response_t) : freq_response_t :=
  Fr (fs r) (f_min r) (f_max r) (frequencies_per_decade r) (magnitude r)
     (wavelengths_per_frequency r) (emit r) (fr_f r) (theta r) v
     (normalization_factor r) (samples_remaining r) (sin_sum r) (cos_sum r)
     (sin_exc_sum r) (cos_exc_sum r).
Definition set_normalization (v : spec_float) (r : freq_response_t) : freq_response_t :=
  Fr (fs r) (f_min r) (f_max r) (frequencies_per_decade r) (magnitude r)
     (wavelengths_per_frequency r) (emit r) (fr_f r) (theta r) (theta_increment r)
     v (samples_remaining r) (sin_sum r) (cos_sum r) (sin_exc_sum r) (cos_exc_sum r).
Definition set_samples (v : Z) (r : freq_response_t) : freq_response_t :=
  Fr (fs r) (f_min r) (f_max r) (frequencies_per_decade r) (magnitude r)
     (wavelengths_per_frequency r) (emit r) (fr_f r) (theta r) (theta_increment r)
     (normalization_factor r) v (sin_sum r) (cos_sum r) (sin_exc_sum r) (cos_exc_sum r).
Definition set_sums (s c se ce : spec_float) (r : freq_response_t) : freq_response_t :=
  Fr (fs r) (f_min r) (f_max r) (frequencies_per_decade r) (magnitude r)
     (wavelengths_per_frequency r) (emit r) (fr_f r) (theta r) (theta_increment r)
     (normalization_factor r) (samples_remaining r) s c se ce.

(** [M_PI] is a [double]; [2.f * M_PI] is evaluated in [double]. *)
Definition M_PI : spec_float := f64_lit 314159265358979323846 100000000000000000000.
Definition TWO_PI : spec_float := f64_mul (f64_of_Z 2) M_PI.

Section FreqResponse.
Context {E : Type}.
Variables (sinf cosf : spec_float -> spec_float) (powf : spec_float -> spec_float -> spec_float).
Variable emit_cb : E -> freq_response_t -> freq_response_result_t -> E * freq_response_t.

Definition current_result (r : freq_response_t) : freq_response_result_t :=
  FrResult (fr_f r)
    (f32_mul (sin_sum r) (normalization_factor r))
    (f32_mul (cos_sum r) (normalization_factor r))
    (f32_mul (sin_exc_sum r) (normalization_factor r))
    (f32_mul (cos_exc_sum r) (normalization_factor r)).

(** State of one activation of [FreqResponse_Poll]: the client's environment,
    the object and the local [samples_remaining]. *)
Record poll_state := PollState { env : E; obj : freq_response_t; local_samples : Z }.

Definition on_obj (g : freq_response_t -> freq_response_t) (s : poll_state) : option poll_state :=
  Some (PollState (env s) (g (obj s)) (local_samples s)).

Definition poll_emit (s : poll_state) : option poll_state :=
  let r := obj s in
  if fge (fr_f r) (f_min r) && emit r then
    let '(e, r') := emit_cb (env s) r (current_result r) in
    Some (PollState e r' (local_samples s))
  else Some s.

(** The statements of the body of [FreqResponse_Poll], in order; [None] is a
    conversion to [int] out of range. *)
Definition poll_steps : list (poll_state -> option poll_state) :=
  [ poll_emit;
    on_obj (fun r => set_f (f32_mul (fr_f r)
      (powf (f32_of_Z 10) (f32_div (f32_of_Z 1) (frequencies_per_decade r)))) r);
    on_obj (fun r => if flt (fr_f r) (f_min r) || fgt (fr_f r) (f_max r)
                     then set_f (f_min r) r else r);
    on_obj (fun r => set_theta_increment
      (f32_of_f64 (f64_div TWO_PI (f64_of_f32 (f32_div (fs r) (fr_f r))))) r);
    on_obj (set_theta f_zero);
    on_obj (fun r => set_sums f_zero (cos_sum r) (sin_exc_sum r) (cos_exc_sum r) r);
    on_obj (fun r => set_sums (sin_sum r) f_zero (sin_exc_sum r) (cos_exc_sum r) r);
    on_obj (fun r => set_sums (sin_sum r) (cos_sum r) f_zero (cos_exc_sum r) r);
    on_obj (fun r => set_sums (sin_sum r) (cos_sum r) (sin_exc_sum r) f_zero r);
    (fun s => let r := obj s in
      match f_to_s32 (f32_mul (f32_div (fs r) (fr_f r))
                              (f32_of_Z (wavelengths_per_frequency r))) with
      | Some n => Some (PollState (env s) r n)
      | None => None
      end);
    (fun s => on_obj (set_normalization (f32_div (f32_of_Z 2) (f32_of_Z (local_samples s)))) s);
    (fun s => on_obj (set_samples (local_samples s)) s) ].

Fixpoint run_steps (ps : list (poll_state -> option poll_state)) (s : poll_state)
    : option poll_state :=
  match ps with
  | [] => Some s
  | p :: ps => match p s with Some s' => run_steps ps s' | None => None end
  end.

Definition FreqResponse_Poll (e : E) (r : freq_response_t) : option (E * freq_response_t) :=
  if samples_remaining r =? 0 then
    match run_steps poll_steps (PollState e r 0) with
    | Some s => Some (env s, obj s)
    | None => None
    end
  else Some (e, r).

(** [samples_remaining--] is a 32-bit subtraction. *)
Definition FreqResponse_UpdateWithOffset (r : freq_response_t) (sample offset : spec_float)
    : spec_float * freq_response_t :=
  if truthy (samples_remaining r) then
    let r := set_theta (f32_add (theta r) (theta_increment r)) r in
    let r := if fgt (f64_of_f32 (theta r)) TWO_PI
             then set_theta (f32_of_f64 (f64_sub (f64_of_f32 (theta r)) TWO_PI)) r else r in
    let sin_theta := sinf (theta r) in
    let cos_theta := cosf (theta r) in
    let excitation := f32_add offset (f32_mul sin_theta (magnitude r)) in
    let r := set_sums (f32_add (sin_sum r) (f32_mul sin_theta sample))
                      (f32_add (cos_sum r) (f32_mul cos_theta sample))
                      (f32_add (sin_exc_sum r) (f32_mul sin_theta excitation))
                      (f32_add (cos_exc_sum r) (f32_mul cos_theta excitation)) r in
    (excitation, set_samples (s32 (samples_remaining r - 1)) r)
  else (sample, r).

Definition FreqResponse_Update (r : freq_response_t) (sample : spec_float)
    : spec_float * freq_response_t :=
  FreqResponse_UpdateWithOffset r sample sample.

(** ** Interrupts during the poll *)

(** The control interrupt fires any number of times with the given samples. *)
Fixpoint interrupts (irqs : list (spec_float * spec_float)) (r : freq_response_t)
    : list spec_float * freq_response_t :=
  match irqs with
  | [] => ([], r)
  | (sample, offset) :: irqs =>
      let '(y, r') := FreqResponse_UpdateWithOffset r sample offset in
      let '(ys, r'') := interrupts irqs r' in
      (y :: ys, r'')
  end.

(** The poll with the interrupts [irqs !! k] taken just before statement [k];
    the second result collects what the interrupts returned. *)
Fixpoint run_preempted (ps : list (poll_state -> option poll_state))
    (irqs : list (list (spec_float * spec_float))) (s : poll_state)
    : option (poll_state * list spec_float) :=
  match ps with
  | [] => Some (s, [])
  | p :: ps =>
      let '(ys, r) := interrupts (hd [] irqs) (obj s) in
      match p (PollState (env s) r (local_samples s)) with
      | Some s' =>
          match run_preempted ps (tl irqs) s' with
          | Some (s'', zs) => Some (s'', ys ++ zs)
          | None => None
          end
      | None => None
      end
  end.

Lemma interrupts_idle irqs r :
  samples_remaining r = 0 -> interrupts irqs r = (map fst irqs, r).
Proof.
  intros H. induction irqs as [|[x o] irqs IH]; [done|]. cbn [interrupts map].
  unfold FreqResponse_UpdateWithOffset. rewrite H. simpl. by rewrite IH.
Qed.

(** A statement keeps the object idle. *)
Definition idle (s : poll_state) : Prop := samples_remaining (obj s) = 0.
Definition keeps_idle (p : poll_state -> option poll_state) : Prop :=
  forall s s', idle s -> p s = Some s' -> idle s'.

Lemma run_preempted_idle ps p irqs s :
  Forall keeps_idle ps -> idle s ->
  run_preempted (ps ++ [p]) irqs s =
    match run_steps (ps ++ [p]) s with
    | Some s' => Some (s', map fst (concat (take (length ps + 1) irqs)))
    | None => None
    end.
Proof.
  intros H. revert irqs s. induction H as [|q ps Hq _ IH]; intros irqs s Hs;
    cbn [app run_preempted run_steps].
  - rewrite interrupts_idle by done. destruct s as [e r n]. simpl.
    destruct (p _) as [s'|]; [|done]. destruct irqs as [|i irqs]; [done|].
    simpl. by rewrite !app_nil_r.
  - rewrite interrupts_idle by done. destruct s as [e r n]. cbn [env obj local_samples].
    destruct (q _) as [s'|] eqn:Eq; [|done]. rewrite IH by by eapply Hq.
    destruct (run_steps _ s') as [s''|]; [|done].
    destruct irqs as [|i irqs]; cbn [hd tl length Nat.add take concat map app].
    + by rewrite take_nil.
    + by rewrite map_app.
Qed.

(** ** The measurement *)

Definition next_theta (incr t : spec_float) : spec_float :=
  let t := f32_add t incr in
  if fgt (f64_of_f32 t) TWO_PI then f32_of_f64 (f64_sub (f64_of_f32 t) TWO_PI) else t.

Fixpoint phases (n : nat) (incr t : spec_float) : list spec_float :=
  match n with
  | O => []
  | S n => next_theta incr t :: phases n incr (next_theta incr t)
  end.

(** Correlation of a signal with a carrier, in the order of the samples. *)
Definition correlate (acc : spec_float) (carrier signal : list spec_float) : spec_float :=
  fold_left (fun a '(c, x) => f32_add a (f32_mul c x)) (combine carrier signal) acc.

Definition excitations (mag : spec_float) (carrier offsets : list spec_float) : list spec_float :=
  map (fun '(c, o) => f32_add o (f32_mul c mag)) (combine carrier offsets).

Definition measured (r : freq_response_t) (xs : list (spec_float * spec_float))
    : freq_response_t :=
  let ph := phases (length xs) (theta_increment r) (theta r) in
  let sn := map sinf ph in let cs := map cosf ph in
  let exc := excitations (magnitude r) sn (map snd xs) in
  set_theta (List.last ph (theta r))
    (set_samples (samples_remaining r - Z.of_nat (length xs))
      (set_sums (correlate (sin_sum r) sn (map fst xs)) (correlate (cos_sum r) cs (map fst xs))
                (correlate (sin_exc_sum r) sn exc) (correlate (cos_exc_sum r) cs exc) r)).

Lemma last_nonempty (x y d : spec_float) l : List.last (x :: l) d = List.last (x :: l) y.
Proof. revert x. induction l as [|z l IH]; intros x; [done|]. apply (IH z). Qed.

Lemma correlate_cons a c cs x xs :
  correlate a (c :: cs) (x :: xs) = correlate (f32_add a (f32_mul c x)) cs xs.
Proof. done. Qed.

Lemma excitations_cons m c cs o os :
  excitations m (c :: cs) (o :: os) = f32_add o (f32_mul c m) :: excitations m cs os.
Proof. done. Qed.

Lemma measured_one r x o :
  let t := next_theta (theta_increment r) (theta r) in
  let e := f32_add o (f32_mul (sinf t) (magnitude r)) in
  measured r [(x, o)] =
    set_theta t (set_samples (samples_remaining r - 1)
      (set_sums (f32_add (sin_sum r) (f32_mul (sinf t) x)) (f32_add (cos_sum r) (f32_mul (cosf t) x))
                (f32_add (sin_exc_sum r) (f32_mul (sinf t) e))
                (f32_add (cos_exc_sum r) (f32_mul (cosf t) e)) r)).
Proof. done. Qed.

Lemma update_active r x o :
  0 < samples_remaining r < 2 ^ 31 ->
  FreqResponse_UpdateWithOffset r x o =
    (f32_add o (f32_mul (sinf (next_theta (theta_increment r) (theta r))) (magnitude r)),
     measured r [(x, o)]).
Proof.
  intros H. rewrite measured_one. unfold FreqResponse_UpdateWithOffset, truthy.
  rewrite (proj2 (Z.eqb_neq _ _)) by lia. cbn [negb]. unfold next_theta.
  destruct r as [? ? ? ? ? ? ? ? t ? ? n ? ? ? ?].
  cbn [theta set_theta theta_increment samples_remaining] in *.
  destruct (fgt _ TWO_PI); unfold set_theta, set_samples, set_sums;
    cbn [fs f_min f_max frequencies_per_decade magnitude wavelengths_per_frequency emit fr_f
         theta theta_increment normalization_factor samples_remaining
         sin_sum cos_sum sin_exc_sum cos_exc_sum];
    rewrite (swrap_small 32) by lia; done.
Qed.

Lemma measured_cons r x o xs :
  measured (measured r [(x, o)]) xs = measured r ((x, o) :: xs).
Proof.
  rewrite measured_one. set (t := next_theta _ _). set (e := f32_add o _).
  unfold measured. cbn [length phases map fst snd]. fold t.
  rewrite excitations_cons, !correlate_cons. fold e.
  cbn [theta_increment magnitude theta samples_remaining set_theta set_samples set_sums
       sin_sum cos_sum sin_exc_sum cos_exc_sum].
  replace (samples_remaining r - 1 - Z.of_nat (length xs))
    with (samples_remaining r - Z.of_nat (S (length xs))) by lia.
  replace (List.last (t :: phases (length xs) (theta_increment r) t) (theta r))
    with (List.last (phases (length xs) (theta_increment r) t) t); [done|].
  destruct (phases (length xs) (theta_increment r) t) as [|p ps]; [done|].
  apply (last_nonempty p (theta r)).
Qed.

Lemma interrupts_measure xs r :
  Z.of_nat (length xs) <= samples_remaining r < 2 ^ 31 ->
  interrupts xs r =
    (excitations (magnitude r)
       (map sinf (phases (length xs) (theta_increment r) (theta r))) (map snd xs),
     measured r xs).
Proof.
  revert r. induction xs as [|[x o] xs IH]; intros r Hn.
  { unfold measured, correlate, excitations; simpl. f_equal.
    destruct r; unfold set_theta, set_samples, set_sums; simpl. f_equal. lia. }
  cbn [interrupts length] in *. rewrite update_active by lia.
  rewrite IH by (cbn; lia). by rewrite measured_cons.
Qed.

(** ** What the poll configures *)

Definition next_f (r : freq_response_t) : spec_float :=
  let g := f32_mul (fr_f r)
             (powf (f32_of_Z 10) (f32_div (f32_of_Z 1) (frequencies_per_decade r))) in
  if flt g (f_min r) || fgt g (f_max r) then f_min r else g.

Definition sample_count (r : freq_response_t) : option Z :=
  f_to_s32 (f32_mul (f32_div (fs r) (next_f r)) (f32_of_Z (wavelengths_per_frequency r))).

Definition configured (n : Z) (r : freq_response_t) : freq_response_t :=
  Fr (fs r) (f_min r) (f_max r) (frequencies_per_decade r) (magnitude r)
     (wavelengths_per_frequency r) (emit r) (next_f r) f_zero
     (f32_of_f64 (f64_div TWO_PI (f64_of_f32 (f32_div (fs r) (next_f r)))))
     (f32_div (f32_of_Z 2) (f32_of_Z n)) n f_zero f_zero f_zero f_zero.

Lemma run_steps_on_obj g ps s :
  run_steps (on_obj g :: ps) s = run_steps ps (PollState (env s) (g (obj s)) (local_samples s)).
Proof. done. Qed.

Lemma run_steps_configure s :
  run_steps (tl poll_steps) s =
    match sample_count (obj s) with
    | Some n => Some (PollState (env s) (configured n (obj s)) n)
    | None => None
    end.
Proof.
  destruct s as [e r k]. destruct r as [? ? ? ? ? ? ? ? ? ? ? ? ? ? ? ?].
  unfold poll_steps, sample_count, configured, next_f. cbn [tl env obj local_samples].
  do 2 (rewrite run_steps_on_obj; cbn [env obj local_samples set_f set_theta set_theta_increment
    set_sums set_normalization set_samples fr_f f_min f_max fs
    frequencies_per_decade magnitude wavelengths_per_frequency emit theta theta_increment
    normalization_factor samples_remaining sin_sum cos_sum sin_exc_sum cos_exc_sum]).
  destruct (flt _ _ || fgt _ _);
    do 6 (rewrite run_steps_on_obj; cbn [env obj local_samples set_f set_theta set_theta_increment
    set_sums set_normalization set_samples fr_f f_min f_max fs
    frequencies_per_decade magnitude wavelengths_per_frequency emit theta theta_increment
    normalization_factor samples_remaining sin_sum cos_sum sin_exc_sum cos_exc_sum]);
    cbn [run_steps on_obj env obj local_samples set_f set_theta set_theta_increment
    set_sums set_normalization set_samples fr_f f_min f_max fs
    frequencies_per_decade magnitude wavelengths_per_frequency emit theta theta_increment
    normalization_factor samples_remaining sin_sum cos_sum sin_exc_sum cos_exc_sum];
    by destruct (f_to_s32 _).
Qed.

Lemma poll_configures e r e' r' :
  samples_remaining r = 0 -> FreqResponse_Poll e r = Some (e', r') ->
  exists s n, poll_emit (PollState e r 0) = Some s /\ env s = e' /\
    sample_count (obj s) = Some n /\ r' = configured n (obj s).
Proof.
  intros H0. unfold FreqResponse_Poll. rewrite H0, Z.eqb_refl.
  change poll_steps with (poll_emit :: tl poll_steps). generalize (run_steps_configure).
  generalize (tl poll_steps). intros ps Hps. cbn [run_steps].
  destruct (poll_emit (PollState e r 0)) as [s|]; [|done]. rewrite Hps.
  destruct (sample_count (obj s)) as [n|] eqn:En; [|done].
  cbn [env obj]. intros [= <- <-]. eauto 10.
Qed.

Lemma poll_steps_keep_idle :
  (forall e r res, samples_remaining r = 0 -> samples_remaining (snd (emit_cb e r res)) = 0) ->
  Forall keeps_idle (take 11 poll_steps).
Proof.
  intros Hcb. assert (forall g, (forall r, samples_remaining (g r) = samples_remaining r) ->
                       keeps_idle (on_obj g)) as Hobj.
  { intros g Hg s s' Hs H. unfold on_obj in H. injection H as <-. unfold idle in *. simpl.
    by rewrite Hg. }
  unfold poll_steps. cbn [take].
  repeat apply List.Forall_cons; try apply List.Forall_nil; try (apply Hobj; done).
  - intros s s' Hs H. unfold poll_emit in H. destruct (_ && _); [|by injection H as <-].
    pose proof (Hcb (env s) (obj s) (current_result (obj s)) Hs) as Hr.
    destruct (emit_cb _ _ _) as [e r']. by injection H as <-.
  - apply Hobj. intros r. by destruct (_ || _).
  - intros s s' Hs H. destruct (f_to_s32 _); [|done]. by injection H as <-.
  - intros s s' Hs H. by injection H as <-.
Qed.
End FreqResponse.

(** ** Properties *)

Section Properties.
Context {E : Type}.
Variables (sinf cosf : spec_float -> spec_float) (powf : spec_float -> spec_float -> spec_float).
Variable emit_cb : E -> freq_response_t -> freq_response_result_t -> E * freq_response_t.

(** The control interrupt may preempt [FreqResponse_Poll] before any of its
    statements, any number of times: because [samples_remaining] is written
    last, every such interrupt passes its sample through and the poll ends in
    the state of an uninterrupted poll.  The client's callback must not start a
    measurement itself. *)
Theorem freq_poll_preemption (e : E) (r : freq_response_t)
    (irqs : list (list (spec_float * spec_float))) :
  samples_remaining r = 0 ->
  (forall e r res, samples_remaining r = 0 -> samples_remaining (snd (emit_cb e r res)) = 0) ->
  run_preempted sinf cosf (poll_steps powf emit_cb) irqs (PollState e r 0) =
    match run_steps (poll_steps powf emit_cb) (PollState e r 0) with
    | Some s => Some (s, map fst (concat (take 12 irqs)))
    | None => None
    end.
Proof.
  intros H0 Hcb.
  apply (run_preempted_idle sinf cosf (take 11 (poll_steps powf emit_cb))); [|done].
  by apply poll_steps_keep_idle.
Qed.

(** C38: One measurement: after a poll has configured [n] samples, the next [n]
    interrupts return offset plus scaled carrier, and the values the following
    poll emits are the correlations of the [n] samples and of the [n]
    excitations with the sine and cosine of the phase sequence, scaled by
    [2 / n]; the object is idle again. *)
Theorem freq_measurement (e e' : E) (r r' : freq_response_t) (xs : list (spec_float * spec_float)) :
  samples_remaining r = 0 ->
  FreqResponse_Poll powf emit_cb e r = Some (e', r') ->
  samples_remaining r' = Z.of_nat (length xs) -> Z.of_nat (length xs) < 2 ^ 31 ->
  let ph := phases (length xs) (theta_increment r') f_zero in
  let exc := excitations (magnitude r') (map sinf ph) (map snd xs) in
  let scale s := f32_mul s (f32_div (f32_of_Z 2) (f32_of_Z (Z.of_nat (length xs)))) in
  fst (interrupts sinf cosf xs r') = exc /\
  samples_remaining (snd (interrupts sinf cosf xs r')) = 0 /\
  current_result (snd (interrupts sinf cosf xs r')) =
    FrResult (fr_f r')
      (scale (correlate f_zero (map sinf ph) (map fst xs)))
      (scale (correlate f_zero (map cosf ph) (map fst xs)))
      (scale (correlate f_zero (map sinf ph) exc))
      (scale (correlate f_zero (map cosf ph) exc)).
Proof.
  intros H0 Hp Hn Hlt. destruct (poll_configures powf emit_cb e r e' r' H0 Hp)
    as (s & n & _ & _ & Hc & ->).
  cbn [configured samples_remaining] in Hn. subst n.
  rewrite interrupts_measure by (cbn [configured samples_remaining]; lia).
  split; [done|]. split; [|done]. unfold measured; cbn. lia.
Qed.

(** After a completed poll the frequency lies between [f_min] and [f_max],
    provided the bounds are ordered, the step [f * powf(...)] is not a NaN and
    the callback leaves the object alone. *)
Theorem freq_poll_range (e e' : E) (r r' : freq_response_t) :
  samples_remaining r = 0 -> fle (f_min r) (f_max r) = true ->
  (forall e r res, snd (emit_cb e r res) = r) ->
  f32_mul (fr_f r) (powf (f32_of_Z 10) (f32_div (f32_of_Z 1) (frequencies_per_decade r))) <> S754_nan ->
  FreqResponse_Poll powf emit_cb e r = Some (e', r') ->
  fle (f_min r') (fr_f r') = true /\ fle (fr_f r') (f_max r') = true /\
  f_min r' = f_min r /\ f_max r' = f_max r.
Proof.
  intros H0 Hle Hcb Hnan Hp. destruct (poll_configures powf emit_cb e r e' r' H0 Hp)
    as (s & n & Hs & _ & _ & ->).
  assert (obj s = r) as ->.
  { unfold poll_emit in Hs. cbn [obj env] in Hs. destruct (_ && _); [|by injection Hs as <-].
    specialize (Hcb e r (current_result r)). destruct (emit_cb _ _ _); simpl in *.
    by injection Hs as <-. }
  cbn [configured f_min f_max fr_f]. unfold next_f.
  pose proof (fle_not_nan_l _ _ Hle). pose proof (fle_not_nan_r _ _ Hle).
  destruct (flt _ (f_min r)) eqn:E1; [simpl; by rewrite fle_refl|].
  destruct (fgt _ (f_max r)) eqn:E2; [simpl; by rewrite fle_refl|]. cbn [orb].
  split; [|split; [|done]]; by apply flt_false_fle.
Qed.
End Properties.

(** *** Witnesses: a sweep from 10 Hz to 100 Hz at 1 kHz, one step per decade,
    with a carrier that is constantly one and a recording callback. *)

Definition unit_carrier (_ : spec_float) : spec_float := f32_of_Z 1.
Definition pow_ten (_ _ : spec_float) : spec_float := f32_of_Z 10.
Definition record_cb (e : list freq_response_result_t) (r : freq_response_t)
    (res : freq_response_result_t) : list freq_response_result_t * freq_response_t :=
  (res :: e, r).
Definition sweep : freq_response_t :=
  Fr (f32_of_Z 1000) (f32_of_Z 10) (f32_of_Z 100) (f32_of_Z 1) (f32_lit 1 2) 1 true
     f_zero f_zero f_zero f_zero 0 f_zero f_zero f_zero f_zero.
Definition sweep_polled : freq_response_t :=
  match FreqResponse_Poll pow_ten record_cb [] sweep with Some (_, r) => r | None => sweep end.

Lemma freq_poll_preemption_witness :
  run_preempted unit_carrier unit_carrier (poll_steps pow_ten record_cb)
      [[(f32_of_Z 3, f_zero)]; []; [(f32_of_Z 5, f_zero); (f32_of_Z 6, f_zero)]] (PollState [] sweep 0) =
    match run_steps (poll_steps pow_ten record_cb) (PollState [] sweep 0) with
    | Some s => Some (s, [f32_of_Z 3; f32_of_Z 5; f32_of_Z 6])
    | None => None
    end.
Proof. by apply (freq_poll_preemption unit_carrier unit_carrier pow_ten record_cb). Defined.

Lemma freq_measurement_witness :
  samples_remaining (snd (interrupts unit_carrier unit_carrier
     (repeat (f32_of_Z 1, f_zero) 100) sweep_polled)) = 0.
Proof.
  apply (freq_measurement unit_carrier unit_carrier pow_ten record_cb [] [] sweep sweep_polled
           (repeat (f32_of_Z 1, f_zero) 100)); by vm_compute.
Defined.

Lemma freq_poll_range_witness :
  fle (f_min sweep_polled) (fr_f sweep_polled) = true.
Proof.
  apply (freq_poll_range pow_ten record_cb [] [] sweep sweep_polled); by vm_compute.
Defined.
