(* ===== verification/Sensors.v ===== *)
(** * Hall sensors and tachometer: [hall_sensors.c], [tach.c]

    Three Hall lines encode the rotor segment in a Gray code; the tachometer
    accumulates segment changes.  Reading a line goes through the HAL and is a
    parameter. *)

From Stdlib Require Import ZArith Lia SpecFloat.
From stdpp Require Import base list option numbers.
From S2P Require Import Prelude Float32 FreqResponse.

Local Open Scope Z_scope.

(** ** [hall_sensors.c] *)

Record hall_sensors_t := HallSensors { hall_a : Z; hall_b : Z; hall_c : Z }.

Definition HALL_SENSOR_STATE_LOW : Z := 0.
Definition HALL_SENSOR_STATE_0 : Z := 1.
Definition HALL_SENSOR_STATE_60 : Z := 5.
Definition HALL_SENSOR_STATE_120 : Z := 4.
Definition HALL_SENSOR_STATE_180 : Z := 6.
Definition HALL_SENSOR_STATE_240 : Z := 2.
Definition HALL_SENSOR_STATE_300 : Z := 3.
Definition HALL_SENSOR_STATE_HIGH : Z := 7.

Definition HallSensorsGetState (palReadLine : Z -> Z) (hs : hall_sensors_t) : Z :=
  Z.lor (Z.lor (if truthy (palReadLine (hall_a hs)) then 1 else 0)
               (if truthy (palReadLine (hall_b hs)) then 2 else 0))
        (if truthy (palReadLine (hall_c hs)) then 4 else 0).

Definition HallSensorsStateToSegment (state : Z) : Z :=
  if state =? HALL_SENSOR_STATE_60 then 1
  else if state =? HALL_SENSOR_STATE_120 then 2
  else if state =? HALL_SENSOR_STATE_180 then 3
  else if state =? HALL_SENSOR_STATE_240 then 4
  else if state =? HALL_SENSOR_STATE_300 then 5
  else 0.

(** The segment times [(float)(M_PI / 3.f)]. *)
Definition HallSensorsStateToAngle (state : Z) : spec_float :=
  f32_mul (f32_of_Z (HallSensorsStateToSegment state))
          (f32_of_f64 (f64_div M_PI (f64_of_Z 3))).

(** ** [tach.c] *)

Record tach_t := Tach { current_segment : Z; counter : Z }.

Definition TachInit (t : tach_t) (initial_state : Z) : tach_t :=
  Tach (HallSensorsStateToSegment initial_state) (counter t).

Definition TachUpdate (t : tach_t) (current_state : Z) : Z * tach_t :=
  let new_segment := HallSensorsStateToSegment current_state in
  let segment_diff := new_segment - current_segment t in
  let segment_diff := if 2 <? segment_diff then segment_diff - 6 else segment_diff in
  let segment_diff := if segment_diff <? -2 then segment_diff + 6 else segment_diff in
  let c := s32 (counter t + segment_diff) in
  (c, Tach new_segment c).

(** ** The rotor

    A rotor position counts segments of sixty electrical degrees; the sensors
    show it modulo six. *)

Definition sensor_lines (p : Z) : bool * bool * bool :=
  match p mod 6 with
  | 0 => (true, false, false)
  | 1 => (true, false, true)
  | 2 => (false, false, true)
  | 3 => (false, true, true)
  | 4 => (false, true, false)
  | _ => (true, true, false)
  end.

(** Line levels at rotor position [p]. *)
Definition read_rotor (hs : hall_sensors_t) (p : Z) (line : Z) : Z :=
  let '(a, b, c) := sensor_lines p in
  if line =? hall_a hs then Z.b2z a
  else if line =? hall_b hs then Z.b2z b
  else Z.b2z c.

Definition distinct_lines (hs : hall_sensors_t) : Prop :=
  hall_a hs <> hall_b hs /\ hall_a hs <> hall_c hs /\ hall_b hs <> hall_c hs.

Lemma mod6_cases p : p mod 6 = 0 \/ p mod 6 = 1 \/ p mod 6 = 2 \/ p mod 6 = 3 \/ p mod 6 = 4 \/ p mod 6 = 5.
Proof. pose proof (Z.mod_pos_bound p 6). lia. Qed.

Lemma rotor_segment hs p :
  distinct_lines hs ->
  HallSensorsStateToSegment (HallSensorsGetState (read_rotor hs p) hs) = p mod 6.
Proof.
  intros (H1 & H2 & H3). unfold HallSensorsGetState, read_rotor, sensor_lines.
  rewrite !Z.eqb_refl.
  rewrite (proj2 (Z.eqb_neq (hall_b hs) (hall_a hs))), (proj2 (Z.eqb_neq (hall_c hs) (hall_a hs))),
    (proj2 (Z.eqb_neq (hall_c hs) (hall_b hs))) by congruence.
  destruct (mod6_cases p) as [->|[->|[->|[->|[->| ->]]]]]; done.
Qed.

Fixpoint TachRun (hs : hall_sensors_t) (t : tach_t) (ps : list Z) : tach_t :=
  match ps with
  | [] => t
  | p :: ps => TachRun hs (snd (TachUpdate t (HallSensorsGetState (read_rotor hs p) hs))) ps
  end.

(** The rotor moves by at most two segments between updates and the position,
    counted from [c - p0], stays in the range of an [int]. *)
Fixpoint slow_rotor (off p0 : Z) (ps : list Z) : Prop :=
  match ps with
  | [] => True
  | p :: ps => -2 <= p - p0 <= 2 /\ - 2 ^ 31 <= off + p < 2 ^ 31 /\ slow_rotor off p ps
  end.

Lemma segment_step p0 p :
  -2 <= p - p0 <= 2 ->
  let d := p mod 6 - p0 mod 6 in
  let d := if 2 <? d then d - 6 else d in
  (if d <? -2 then d + 6 else d) = p - p0.
Proof.
  intros H d d'. subst d d'. case_cmp; Z.div_mod_to_equations; lia.
Qed.

(** ** Properties *)

(** The tachometer follows the rotor: started at the rotor's segment, and as
    long as the rotor moves by at most two segments between updates in either
    direction, the counter changes by exactly the rotor's displacement, over any
    number of turns. *)
Theorem tach_follows_rotor (hs : hall_sensors_t) (t : tach_t) (p0 : Z) (ps : list Z) :
  distinct_lines hs -> current_segment t = p0 mod 6 -> slow_rotor (counter t - p0) p0 ps ->
  - 2 ^ 31 <= counter t < 2 ^ 31 ->
  counter (TachRun hs t ps) = counter t + (List.last ps p0 - p0) /\
  current_segment (TachRun hs t ps) = List.last ps p0 mod 6.
Proof.
  intros Hd. revert t p0. induction ps as [|p ps IH]; intros t p0 Hs Hslow Hr.
  { simpl. split; [lia|done]. }
  destruct Hslow as (Hstep & Hrange & Hslow). cbn [TachRun].
  unfold TachUpdate. rewrite rotor_segment, Hs by done.
  pose proof (segment_step p0 p Hstep) as E. cbv zeta in E. rewrite E. cbn [snd].
  rewrite (swrap_small 32) by lia.
  destruct (IH (Tach (p mod 6) (counter t + (p - p0))) p) as [IH1 IH2]; cbn [counter current_segment];
    [done| |lia|].
  { replace (counter t + (p - p0) - p) with (counter t - p0) by lia. done. }
  cbn [counter current_segment] in *. rewrite IH1, IH2.
  assert (List.last (p :: ps) p0 = List.last ps p) as ->; [|split; [lia|done]].
  destruct ps as [|q ps]; [done|]. cbn [List.last].
  clear. revert q. induction ps as [|x ps IH]; intros q; [done|]. apply (IH x).
Qed.

Lemma tach_follows_rotor_witness :
  counter (TachRun (HallSensors 10 11 12) (Tach 5 100) [6; 7; 8; 7; 9; 11; 12]) = 107.
Proof.
  destruct (tach_follows_rotor (HallSensors 10 11 12) (Tach 5 100) 5 [6; 7; 8; 7; 9; 11; 12])
    as [H _]; [by repeat split|done|by repeat split; vm_compute|by vm_compute|done].
Defined.

(** The Hall states form a Gray code: rotor positions one segment apart
    change exactly one of the three sensor bits, and the segment decoded from
    the six legal states is the position modulo six. *)
Theorem hall_gray_code (hs : hall_sensors_t) (p : Z) :
  distinct_lines hs ->
  let state q := HallSensorsGetState (read_rotor hs q) hs in
  HallSensorsStateToSegment (state p) = p mod 6 /\
  (exists bit, 0 <= bit < 3 /\ Z.lxor (state p) (state (p + 1)) = 2 ^ bit).
Proof.
  intros Hd state. split; [by apply rotor_segment|]. destruct Hd as (H1 & H2 & H3).
  unfold state, HallSensorsGetState, read_rotor, sensor_lines. rewrite !Z.eqb_refl.
  rewrite (proj2 (Z.eqb_neq (hall_b hs) (hall_a hs))), (proj2 (Z.eqb_neq (hall_c hs) (hall_a hs))),
    (proj2 (Z.eqb_neq (hall_c hs) (hall_b hs))) by congruence.
  rewrite (Z.add_mod p 1 6) by lia.
  destruct (mod6_cases p) as [->|[->|[->|[->|[->| ->]]]]]; vm_compute;
    [exists 2|exists 0|exists 1|exists 2|exists 0|exists 1]; done.
Qed.

Lemma hall_gray_code_witness :
  HallSensorsStateToSegment (HallSensorsGetState (read_rotor (HallSensors 10 11 12) 8)
                               (HallSensors 10 11 12)) = 2.
Proof.
  destruct (hall_gray_code (HallSensors 10 11 12) 8) as [H _]; [by repeat split|]. exact H.
Defined.
