(* ===== verification/Util.v ===== *)
(** * Hexadecimal identifiers: [src/src/util.c]

    [bytesToHex] writes two digits per byte into memory; [uniqueID] caches the
    hexadecimal form of the 96-bit device identifier. *)

From Stdlib Require Import ZArith Lia.
From stdpp Require Import base gmap list option numbers.
From S2P Require Import Prelude.

Local Open Scope Z_scope.

(** The string literal "0123456789ABCDEF". *)
Definition hex : list Z :=
  [48; 49; 50; 51; 52; 53; 54; 55; 56; 57; 65; 66; 67; 68; 69; 70].

Definition nibbleToHex (nibble : Z) : Z := nth (Z.to_nat (Z.land nibble 0xF)) hex 0.

(** [for(i = 0; i < numBytes; i++)] from index [i] with [n] iterations left. *)
Fixpoint bytesToHex_loop (buffer src : Z) (i : Z) (n : nat) (m : gmap Z Z) : option (gmap Z Z) :=
  match n with
  | O => Some m
  | S n =>
      match m !! (src + i) with
      | Some b =>
          match store m (buffer + 2 * i) [nibbleToHex (Z.shiftr b 4)] with
          | Some m =>
              (* [bytes[i]] is read again for the second digit *)
              match m !! (src + i) with
              | Some b =>
                  match store m (buffer + (2 * i + 1)) [nibbleToHex b] with
                  | Some m => bytesToHex_loop buffer src (i + 1) n m
                  | None => None
                  end
              | None => None
              end
          | None => None
          end
      | None => None
      end
  end.

Definition bytesToHex (buffer src : Z) (numBytes : nat) (m : gmap Z Z) : option (gmap Z Z) :=
  bytesToHex_loop buffer src 0 numBytes m.

Definition STM32_UUID : Z := 0x1FFF7A10.
Definition STM32_UUID_LEN : nat := 12.

(** The static variables of [uniqueID]: the cached pointer (null is 0); the
    buffer is at a fixed address. *)
Record uid_state := UidState { uid : Z; uid_mem : gmap Z Z }.

Definition uniqueID (buffer : Z) (s : uid_state) : option (Z * uid_state) :=
  if uid s =? 0 then
    match bytesToHex buffer STM32_UUID STM32_UUID_LEN (uid_mem s) with
    | Some m => Some (buffer, UidState buffer m)
    | None => None
    end
  else Some (uid s, s).

(** ** The digits *)

Definition hex_of (l : list Z) : list Z :=
  concat (map (fun b => [nibbleToHex (Z.shiftr b 4); nibbleToHex b]) l).

(** Reading digits back, as a receiver of the identifier does. *)
Definition digit_value (c : Z) : option Z :=
  if (48 <=? c) && (c <=? 57) then Some (c - 48)
  else if (65 <=? c) && (c <=? 70) then Some (c - 55)
  else None.

Fixpoint unhex (l : list Z) : option (list Z) :=
  match l with
  | [] => Some []
  | h :: l :: r =>
      match digit_value h, digit_value l, unhex r with
      | Some h, Some l, Some r => Some (16 * h + l :: r)
      | _, _, _ => None
      end
  | _ => None
  end.

Lemma digit_value_nibble n : digit_value (nibbleToHex n) = Some (n mod 16).
Proof.
  unfold nibbleToHex. change 0xF with (Z.ones 4). rewrite Z.land_ones by lia. change (2 ^ 4) with 16.
  pose proof (Z.mod_pos_bound n 16 ltac:(lia)) as H.
  remember (n mod 16) as k eqn:E; clear E.
  assert (k = 0 \/ k = 1 \/ k = 2 \/ k = 3 \/ k = 4 \/ k = 5 \/ k = 6 \/ k = 7 \/ k = 8 \/ k = 9 \/
    k = 10 \/ k = 11 \/ k = 12 \/ k = 13 \/ k = 14 \/ k = 15) as Hk by lia.
  repeat destruct Hk as [->|Hk]; try done. by subst.
Qed.

Lemma length_hex_of l : length (hex_of l) = (2 * length l)%nat.
Proof.
  unfold hex_of. induction l as [|b l IH]; [done|]. cbn [map concat].
  rewrite length_app, IH. cbn [length]. lia.
Qed.

Lemma unhex_hex_of l : bytes l -> unhex (hex_of l) = Some l.
Proof.
  induction 1 as [|b l Hb _ IH]; [done|].
  change (hex_of (b :: l)) with (nibbleToHex (Z.shiftr b 4) :: nibbleToHex b :: hex_of l).
  cbn [unhex]. rewrite !digit_value_nibble, IH. do 2 f_equal.
  rewrite Z.shiftr_div_pow2 by lia. change (2 ^ 4) with 16. unfold is_byte in Hb.
  rewrite (Z.mod_small (b / 16)) by (Z.div_mod_to_equations; lia). Z.div_mod_to_equations; lia.
Qed.

(** The loop writes the digits behind those already written. *)
Lemma bytesToHex_loop_write buffer src l i m :
  0 <= i ->
  (forall k b, l !! k = Some b -> m !! (src + i + Z.of_nat k) = Some b) ->
  allocated m (buffer + 2 * i) (2 * Z.of_nat (length l)) ->
  src + i + Z.of_nat (length l) <= buffer \/ buffer + 2 * (i + Z.of_nat (length l)) <= src ->
  bytesToHex_loop buffer src i (length l) m = Some (write m (buffer + 2 * i) (hex_of l)).
Proof.
  revert i m. induction l as [|b l IH]; intros i m Hi Hsrc Hal Hdis; [done|].
  cbn [length bytesToHex_loop] in *.
  pose proof (Hsrc 0%nat b eq_refl) as Hb. rewrite Z.add_0_r in Hb. rewrite Hb.
  rewrite store_allocated by (eapply allocated_sub; [exact Hal| |]; cbn [length]; lia).
  rewrite lookup_write_outside, Hb by (cbn [length]; lia).
  rewrite store_allocated
    by (apply allocated_write; eapply allocated_sub; [exact Hal| |]; cbn [length]; lia).
  change (hex_of (b :: l)) with ([nibbleToHex (Z.shiftr b 4)] ++ [nibbleToHex b] ++ hex_of l).
  rewrite !write_app. cbn [length].
  replace (buffer + (2 * i + 1)) with (buffer + 2 * i + Z.of_nat 1) by lia.
  rewrite IH; [f_equal; f_equal; lia|lia| | |lia].
  - intros k c Hk. specialize (Hsrc (S k) c Hk).
    replace (src + (i + 1) + Z.of_nat k) with (src + i + Z.of_nat (S k)) by lia.
    apply lookup_lt_Some in Hk.
    rewrite !lookup_write_outside by (cbn [length]; lia). done.
  - do 2 apply allocated_write. eapply allocated_sub; [exact Hal| |]; lia.
Qed.

(** ** Properties *)

(** [bytesToHex] writes exactly the [2 * numBytes] hexadecimal digits of the
    source bytes to the buffer, most significant nibble first, without an access
    outside the two regions; reading the digits back yields the bytes. *)
Theorem bytesToHex_roundtrip (buffer src : Z) (l : list Z) (m : gmap Z Z) :
  bytes l -> load m src (length l) = Some l ->
  allocated m buffer (2 * Z.of_nat (length l)) ->
  src + Z.of_nat (length l) <= buffer \/ buffer + 2 * Z.of_nat (length l) <= src ->
  exists m', bytesToHex buffer src (length l) m = Some m' /\
    (forall i, i < buffer \/ buffer + 2 * Z.of_nat (length l) <= i -> m' !! i = m !! i) /\
    (exists ds, load m' buffer (2 * length l) = Some ds /\ unhex ds = Some l).
Proof.
  intros Hb Hl Hal Hd. apply load_Some in Hl as [_ Hl].
  exists (write m buffer (hex_of l)). unfold bytesToHex.
  rewrite bytesToHex_loop_write; [|lia| |by rewrite Z.add_0_r|lia].
  - rewrite Z.add_0_r. split; [done|]. split.
    + intros i Hi. apply lookup_write_outside. rewrite length_hex_of. lia.
    + exists (hex_of l). split; [|by apply unhex_hex_of].
      rewrite <- length_hex_of. apply load_write.
  - intros k b Hk. rewrite Z.add_0_r. by apply Hl.
Qed.

Lemma bytesToHex_roundtrip_witness :
  exists m', bytesToHex 0x20000100 0x20000000 2
               (write (write ∅ 0x20000000 [0xde; 0x0f]) 0x20000100 [0; 0; 0; 0]) = Some m'.
Proof.
  destruct (bytesToHex_roundtrip 0x20000100 0x20000000 [0xde; 0x0f]
    (write (write ∅ 0x20000000 [0xde; 0x0f]) 0x20000100 [0; 0; 0; 0])) as (m' & H & _).
  - by repeat constructor.
  - by vm_compute.
  - apply allocatedb_spec. by vm_compute.
  - left. by vm_compute.
  - by exists m'.
Defined.

(** [uniqueID] computes the identifier once: the first call leaves the
    twenty-four hexadecimal digits of the device identifier in its buffer, and
    a second call returns the same pointer and changes nothing. *)
Lemma uniqueID_cached (buffer : Z) (l : list Z) (m : gmap Z Z) :
  length l = STM32_UUID_LEN -> load m STM32_UUID STM32_UUID_LEN = Some l ->
  0 < buffer -> allocated m buffer 25 ->
  STM32_UUID + 12 <= buffer \/ buffer + 25 <= STM32_UUID ->
  exists s, uniqueID buffer (UidState 0 m) = Some (buffer, s) /\
    load (uid_mem s) buffer 24 = Some (hex_of l) /\
    uniqueID buffer s = Some (buffer, s) /\ s = UidState buffer (write m buffer (hex_of l)).
Proof.
  intros Hlen Hl Hbuf Hal Hd. apply load_Some in Hl as [_ Hl].
  assert (Z.of_nat (length l) = 12) as Hz by (rewrite Hlen; done).
  exists (UidState buffer (write m buffer (hex_of l))).
  unfold uniqueID at 1, bytesToHex. cbn [uid uid_mem]. rewrite Z.eqb_refl. rewrite <- Hlen.
  rewrite bytesToHex_loop_write; [|lia| |eapply allocated_sub; [exact Hal|lia|lia]|lia].
  - rewrite Z.add_0_r. split; [done|]. split.
    + replace 24%nat with (length (hex_of l)); [apply load_write|].
      rewrite length_hex_of, Hlen. done.
    + unfold uniqueID. cbn [uid]. rewrite (proj2 (Z.eqb_neq buffer 0)) by lia. done.
  - intros k b Hk. rewrite Z.add_0_r. by apply Hl.
Qed.
