(* ===== verification/Eeprom.v ===== *)
(** * The MAC-address EEPROM: [src/src/93AA46AE48.c]

    A bit-banged Microwire read.  The driver's interaction with the pins is a
    trace of pin writes, delays and reads; what the data line returns at each
    read is a parameter, the [k]-th read of [miso] yielding [miso k]. *)

From Stdlib Require Import ZArith Lia.
From stdpp Require Import base list option numbers.
From S2P Require Import Prelude.

Local Open Scope Z_scope.

Record mc_93aa46ae48_t := Mc { mc_cs : Z; mc_sck : Z; mc_miso : Z; mc_mosi : Z }.

Inductive event :=
| PalWriteLine (line : Z) (high : bool)
| SleepMicroseconds (us : Z)
| PalReadLine (line : Z).

Definition PAL_HIGH : bool := true.
Definition PAL_LOW : bool := false.

(** Trace so far (newest first) and number of reads done. *)
Record bus := Bus { events : list event; reads_done : nat }.

Lemma fold_left_map {A B C} (f : A -> B -> A) (g : C -> B) (h : A -> C -> A) l a :
  (forall a c, f a (g c) = h a c) -> fold_left f (map g l) a = fold_left h l a.
Proof. intros H. revert a. induction l as [|c l IH]; intros a; [done|]. simpl. by rewrite H. Qed.

Section Eeprom.
Variable miso : nat -> Z.
Variable mc : mc_93aa46ae48_t.

Definition palWriteLine (line : Z) (v : bool) (s : bus) : bus :=
  Bus (PalWriteLine line v :: events s) (reads_done s).
Definition chThdSleepMicroseconds (us : Z) (s : bus) : bus :=
  Bus (SleepMicroseconds us :: events s) (reads_done s).
Definition palReadLine (line : Z) (s : bus) : Z * bus :=
  (miso (reads_done s), Bus (PalReadLine line :: events s) (S (reads_done s))).

Definition transfer_bit (bit : Z) (s : bus) : Z * bus :=
  let s := palWriteLine (mc_mosi mc) (if truthy bit then PAL_HIGH else PAL_LOW) s in
  let s := chThdSleepMicroseconds 1 s in
  let s := palWriteLine (mc_sck mc) PAL_HIGH s in
  let s := chThdSleepMicroseconds 1 s in
  let s := palWriteLine (mc_sck mc) PAL_LOW s in
  let '(v, s) := palReadLine (mc_miso mc) s in
  (u8 v, s).

Fixpoint address_loop (address : Z) (i : Z) (n : nat) (s : bus) : bus :=
  match n with
  | O => s
  | S n => address_loop address (i + 1) n
             (snd (transfer_bit (Z.land (Z.shiftr address (6 - i)) 1) s))
  end.

Definition write_address (opcode address : Z) (s : bus) : bus :=
  let s := snd (transfer_bit 1 s) in
  let s := snd (transfer_bit (if truthy (Z.land opcode 2) then 1 else 0) s) in
  let s := snd (transfer_bit (if truthy (Z.land opcode 1) then 1 else 0) s) in
  address_loop address 0 7 s.

Fixpoint read_loop (b : Z) (n : nat) (s : bus) : Z * bus :=
  match n with
  | O => (b, s)
  | S n =>
      let b := u8 (Z.shiftl b 1) in
      let '(v, s) := transfer_bit 0 s in
      read_loop (u8 (Z.lor b v)) n s
  end.

Definition read_byte (s : bus) : Z * bus := read_loop 0 8 s.

Definition Mc94AA46AE58Init (s : bus) : bus := palWriteLine (mc_cs mc) PAL_LOW s.

Fixpoint mac_loop (n : nat) (s : bus) : list Z * bus :=
  match n with
  | O => ([], s)
  | S n =>
      let '(b, s) := read_byte s in
      let '(bs, s) := mac_loop n s in
      (b :: bs, s)
  end.

(** The debug assertion halts the system: no result. *)
Definition Mc94AA46AE58GetID (s : bus) : option (list Z * bus) :=
  let s := palWriteLine (mc_cs mc) PAL_HIGH s in
  let s := write_address 2 0 s in
  let '(epi, s) := read_byte s in
  if epi =? 0xa5 then
    let '(mac, s) := mac_loop 6 s in
    let s := palWriteLine (mc_cs mc) PAL_LOW s in
    Some (mac, chThdSleepMicroseconds 1 s)
  else None.

(** ** What goes over the wire *)

(** One clock: data set up before the rising edge, sampled after the falling
    edge. *)
Definition clock (bit : bool) : list event :=
  [PalWriteLine (mc_mosi mc) bit; SleepMicroseconds 1; PalWriteLine (mc_sck mc) true;
   SleepMicroseconds 1; PalWriteLine (mc_sck mc) false; PalReadLine (mc_miso mc)].

(** Chip select around start bit, READ opcode (10), seven address bits of 0 and
    [n] data bytes. *)
Definition read_command (n : nat) : list event :=
  [PalWriteLine (mc_cs mc) true]
  ++ concat (map clock ([true; true; false] ++ repeat false 7 ++ repeat false (8 * n)))
  ++ [PalWriteLine (mc_cs mc) false; SleepMicroseconds 1].

(** The byte the device shifts out in reads [k .. k+7]. *)
Definition wire_byte (k : nat) : Z :=
  fold_left (fun b j => 2 * b + miso (k + j)%nat) (seq 0 8) 0.

Definition levels : Prop := forall k, miso k = 0 \/ miso k = 1.

Lemma transfer_bit_run (bit : bool) s :
  levels ->
  transfer_bit (Z.b2z bit) s =
    (miso (reads_done s), Bus (rev (clock bit) ++ events s) (S (reads_done s))).
Proof.
  intros Hl. unfold transfer_bit, palWriteLine, chThdSleepMicroseconds, palReadLine; simpl.
  rewrite u8_small by (destruct (Hl (reads_done s)); lia). by destruct bit.
Qed.

Lemma read_loop_run n b s :
  levels -> 0 <= b -> (b + 1) * 2 ^ Z.of_nat n <= 256 ->
  read_loop b n s =
    (fold_left (fun b j => 2 * b + miso (reads_done s + j)%nat) (seq 0 n) b,
     Bus (rev (concat (repeat (clock false) n)) ++ events s) (reads_done s + n)).
Proof.
  intros Hl. revert b s. induction n as [|n IH]; intros b s Hb Hn.
  { simpl. rewrite Nat.add_0_r. by destruct s. }
  cbn [read_loop]. change 0 with (Z.b2z false). rewrite transfer_bit_run by done.
  rewrite Nat2Z.inj_succ, Z.pow_succ_r in Hn by lia.
  assert (0 < 2 ^ Z.of_nat n) by (apply Z.pow_pos_nonneg; lia).
  pose proof (Hl (reads_done s)) as Hv.
  rewrite Z.shiftl_mul_pow2 by lia. change (2 ^ 1) with 2.
  rewrite (u8_small (b * 2)) by nia.
  assert (Z.lor (b * 2) (miso (reads_done s)) = 2 * b + miso (reads_done s)) as ->.
  { rewrite Z.mul_comm. destruct Hv as [-> | ->]; [by rewrite Z.lor_0_r, Z.add_0_r|].
    destruct b; done. }
  rewrite u8_small by (destruct Hv; nia).
  rewrite IH by (destruct Hv; nia). cbn [reads_done events seq fold_left repeat concat].
  rewrite Nat.add_0_r, <- seq_shift, rev_app_distr, <- app_assoc, Nat.add_succ_r. f_equal.
  symmetry. apply fold_left_map. intros. by rewrite Nat.add_succ_r.
Qed.

Lemma read_byte_run s :
  levels ->
  read_byte s = (wire_byte (reads_done s),
    Bus (rev (concat (repeat (clock false) 8)) ++ events s) (reads_done s + 8)).
Proof. intros Hl. unfold read_byte. by rewrite read_loop_run by (done || lia). Qed.

Lemma mac_loop_run n s :
  levels ->
  mac_loop n s =
    (map (fun i => wire_byte (reads_done s + 8 * i)) (seq 0 n),
     Bus (rev (concat (repeat (clock false) (8 * n))) ++ events s) (reads_done s + 8 * n)).
Proof.
  intros Hl. revert s. induction n as [|n IH]; intros s.
  { simpl. rewrite Nat.add_0_r. by destruct s. }
  cbn [mac_loop]. rewrite read_byte_run, IH by done. cbn [reads_done events seq map].
  replace (8 * S n)%nat with (8 + 8 * n)%nat by lia.
  rewrite repeat_app, concat_app, rev_app_distr, <- app_assoc. f_equal; [|f_equal; lia].
  rewrite Nat.mul_0_r, Nat.add_0_r. f_equal. rewrite <- seq_shift, map_map. apply map_ext.
  intros i. f_equal. lia.
Qed.

Ltac clock_step Hl :=
  match goal with
  | |- context [transfer_bit ?z] =>
      let v := eval vm_compute in z in
      lazymatch v with
      | 0 => change (transfer_bit z) with (transfer_bit (Z.b2z false))
      | 1 => change (transfer_bit z) with (transfer_bit (Z.b2z true))
      end
  end; rewrite transfer_bit_run by done; cbn [snd events reads_done].

Lemma write_address_run s :
  levels ->
  write_address 2 0 s =
    Bus (rev (concat (map clock ([true; true; false] ++ repeat false 7))) ++ events s)
        (reads_done s + 10).
Proof.
  intros Hl. unfold write_address, address_loop. cbn [Z.land truthy].
  repeat clock_step Hl. simpl. f_equal. lia.
Qed.

(** The device drives the bytes [bs], most significant bit first, in the reads
    from number [k] on. *)
Definition shifts_out (k : nat) (bs : list Z) : Prop :=
  forall i b j, bs !! i = Some b -> (j < 8)%nat ->
    miso (k + 8 * i + j) = Z.b2z (Z.testbit b (7 - Z.of_nat j)).

Lemma wire_byte_shifted k bs i b :
  shifts_out k bs -> bs !! i = Some b -> is_byte b -> wire_byte (k + 8 * i) = b.
Proof.
  intros Hs Hi Hb. unfold wire_byte. cbn [seq fold_left].
  rewrite !(Hs i b) by (done || lia). rewrite !Z.testbit_spec' by lia.
  unfold is_byte in Hb.
  repeat match goal with |- context [2 ^ ?k] =>
    let v := eval vm_compute in (2 ^ k) in change (2 ^ k) with v end.
  Z.div_mod_to_equations; lia.
Qed.
End Eeprom.

(** ** Property *)

(** [Mc94AA46AE58GetID] clocks out exactly the Microwire READ command for
    address 0 and seven data bytes, inside one chip-select pulse.  If the device
    answers with [0xa5] followed by six bytes, most significant bit first, those
    six bytes are the MAC address returned; any other first byte stops the
    system. *)
Theorem eeprom_reads_mac (miso : nat -> Z) (mc : mc_93aa46ae48_t) (s : bus) (epi : Z) (mac : list Z) :
  levels miso -> shifts_out miso (reads_done s + 10) (epi :: mac) ->
  bytes (epi :: mac) -> length mac = 6%nat ->
  Mc94AA46AE58GetID miso mc s =
    if epi =? 0xa5
    then Some (mac, Bus (rev (read_command mc 7) ++ events s) (reads_done s + 66))
    else None.
Proof.
  intros Hl Hs Hb Hlen. unfold Mc94AA46AE58GetID.
  rewrite write_address_run, read_byte_run by done. cbn [reads_done events palWriteLine].
  assert (wire_byte miso (reads_done s + 10) = epi) as ->.
  { replace (reads_done s + 10)%nat with (reads_done s + 10 + 8 * 0)%nat by lia.
    apply (wire_byte_shifted miso _ _ 0 epi Hs eq_refl). by apply Forall_cons_1 in Hb as [? _]. }
  destruct (epi =? 0xa5); [|done]. rewrite mac_loop_run by done. cbn [reads_done events].
  do 2 f_equal.
  - apply list_eq. intros i. replace (seq 0 6) with (seq 0 (length mac)) by by rewrite Hlen.
    destruct (mac !! i) as [b|] eqn:Ei.
    + rewrite list_lookup_fmap.
      assert (seq 0 (length mac) !! i = Some i) as ->
        by (apply lookup_seq; apply lookup_lt_Some in Ei; lia).
      cbn [fmap option_fmap option_map]. f_equal.
      replace (reads_done s + 10 + 8 + 8 * i)%nat with (reads_done s + 10 + 8 * S i)%nat by lia.
      apply (wire_byte_shifted miso _ _ (S i) b Hs Ei).
      apply Forall_cons_1 in Hb as [_ Hb]. eapply Forall_lookup_1; [exact Hb|exact Ei].
    + apply lookup_ge_None. rewrite length_map, length_seq. by apply lookup_ge_None.
  - unfold palWriteLine, chThdSleepMicroseconds; cbn [events reads_done].
    replace (reads_done s + 10 + 8 + 8 * 6)%nat with (reads_done s + 66)%nat by lia. done.
Qed.

Definition sample_mac : list Z := [0x00; 0x04; 0xa3; 0x12; 0x34; 0x56].
Definition sample_device (k : nat) : Z :=
  if (k <? 10)%nat then 0
  else Z.b2z (Z.testbit (nth ((k - 10) / 8) (0xa5 :: sample_mac) 0) (7 - Z.of_nat ((k - 10) mod 8))).

Lemma sample_device_shifts : shifts_out sample_device 10 (0xa5 :: sample_mac).
Proof.
  intros i b j Hi Hj. unfold sample_device.
  rewrite (proj2 (Nat.ltb_ge _ _)) by lia.
  replace (10 + 8 * i + j - 10)%nat with (j + i * 8)%nat by lia.
  rewrite Nat.div_add, Nat.Div0.mod_add, Nat.div_small, Nat.mod_small by lia. simpl Nat.add.
  by rewrite (nth_lookup_Some _ _ _ _ Hi).
Qed.

Lemma eeprom_reads_mac_witness :
  Mc94AA46AE58GetID sample_device (Mc 1 2 3 4) (Bus [] 0)
    = Some (sample_mac, Bus (rev (read_command (Mc 1 2 3 4) 7) ++ []) 66).
Proof.
  apply (eeprom_reads_mac sample_device (Mc 1 2 3 4) (Bus [] 0) 0xa5 sample_mac).
  - intros k. unfold sample_device. destruct (k <? 10)%nat; [by left|].
    destruct (Z.testbit _ _); [by right|by left].
  - apply sample_device_shifts.
  - by repeat constructor.
  - done.
Defined.
