(* ===== verification/ChTime.v ===== *)
(** * System time: [os/rt/include/chtime.h]

    Times and intervals are 32-bit tick counts at 10 kHz ([chconf.h]); the
    conversions are computed in 64 bits.  Debug assertions are enabled and halt
    the system: [None]. *)

From Stdlib Require Import ZArith Lia.
From stdpp Require Import base option numbers.
From S2P Require Import Prelude.

Local Open Scope Z_scope.

Definition CH_CFG_ST_FREQUENCY : Z := 10000.
Definition TIME_IMMEDIATE : Z := 0.
Definition TIME_INFINITE : Z := 2 ^ 32 - 1.
Definition TIME_MAX_INTERVAL : Z := 2 ^ 32 - 2.

Definition TIME_S2I (secs : Z) : Z := u32 (u64 (secs * CH_CFG_ST_FREQUENCY)).
Definition TIME_MS2I (msecs : Z) : Z :=
  u32 (u64 (msecs * CH_CFG_ST_FREQUENCY + 999) / 1000).
Definition TIME_US2I (usecs : Z) : Z :=
  u32 (u64 (usecs * CH_CFG_ST_FREQUENCY + 999999) / 1000000).
Definition TIME_I2S (interval : Z) : Z :=
  u32 (u64 (interval + CH_CFG_ST_FREQUENCY - 1) / CH_CFG_ST_FREQUENCY).
Definition TIME_I2MS (interval : Z) : Z :=
  u32 (u64 (interval * 1000 + CH_CFG_ST_FREQUENCY - 1) / CH_CFG_ST_FREQUENCY).
Definition TIME_I2US (interval : Z) : Z :=
  u32 (u64 (interval * 1000000 + CH_CFG_ST_FREQUENCY - 1) / CH_CFG_ST_FREQUENCY).

Definition chTimeS2I (secs : Z) : option Z :=
  let ticks := u64 (secs * CH_CFG_ST_FREQUENCY) in
  if ticks <=? TIME_MAX_INTERVAL then Some (u32 ticks) else None.
Definition chTimeMS2I (msec : Z) : option Z :=
  let ticks := u64 (msec * CH_CFG_ST_FREQUENCY + 999) / 1000 in
  if ticks <=? TIME_MAX_INTERVAL then Some (u32 ticks) else None.
Definition chTimeUS2I (usec : Z) : option Z :=
  let ticks := u64 (usec * CH_CFG_ST_FREQUENCY + 999999) / 1000000 in
  if ticks <=? TIME_MAX_INTERVAL then Some (u32 ticks) else None.
Definition chTimeI2S (interval : Z) : option Z :=
  let secs := u64 (interval + CH_CFG_ST_FREQUENCY - 1) / CH_CFG_ST_FREQUENCY in
  if secs <? 2 ^ 32 - 1 then Some (u32 secs) else None.
Definition chTimeI2MS (interval : Z) : option Z :=
  let msecs := u64 (interval * 1000 + CH_CFG_ST_FREQUENCY - 1) / CH_CFG_ST_FREQUENCY in
  if msecs <? 2 ^ 32 - 1 then Some (u32 msecs) else None.
Definition chTimeI2US (interval : Z) : option Z :=
  let usecs := u64 (interval * 1000000 + CH_CFG_ST_FREQUENCY - 1) / CH_CFG_ST_FREQUENCY in
  if usecs <=? 2 ^ 32 - 1 then Some (u32 usecs) else None.

Definition chTimeAddX (systime interval : Z) : Z := u32 (systime + interval).
Definition chTimeDiffX (start end' : Z) : Z := u32 (end' - start).
Definition chTimeIsInRangeX (time start end' : Z) : bool :=
  u32 (time - start) <? u32 (end' - start).

(** Rounding up never shortens a delay. *)
Lemma chTimeMS2I_exact ms :
  is_u 32 ms -> ms * 10 <= TIME_MAX_INTERVAL -> chTimeMS2I ms = Some (ms * 10).
Proof.
  unfold chTimeMS2I, TIME_MAX_INTERVAL, CH_CFG_ST_FREQUENCY. intros [??] ?.
  rewrite u64_small by lia.
  replace ((ms * 10000 + 999) / 1000) with (ms * 10) by (Z.div_mod_to_equations; lia).
  rewrite (proj2 (Z.leb_le _ _)) by lia. by rewrite u32_small by lia.
Qed.

(** A time within [d] ticks after [t0] is in the window, whatever the wrap-around. *)
Lemma in_range_iff t0 d k :
  is_u 32 t0 -> is_u 32 k -> is_u 32 d ->
  chTimeIsInRangeX (chTimeAddX t0 k) t0 (chTimeAddX t0 d) = (k <? d).
Proof.
  intros H0 Hk Hd. unfold chTimeIsInRangeX, chTimeAddX.
  replace (u32 (u32 (t0 + k) - t0)) with k by wsolve.
  replace (u32 (u32 (t0 + d) - t0)) with d by wsolve. done.
Qed.

(** ** Property *)

(** Time arithmetic is immune to the wrap-around of the 32-bit tick counter:
    the interval between a time and the time [k] ticks later is [k], and the
    later time is in the window of length [d] exactly when [k < d].  Millisecond
    intervals convert to ten ticks each without loss and back, and a conversion
    that would exceed the largest interval halts. *)
Theorem time_wrap_and_conversion (t0 k d ms : Z) :
  is_u 32 t0 -> is_u 32 k -> is_u 32 d -> is_u 32 ms ->
  chTimeDiffX t0 (chTimeAddX t0 k) = k /\
  chTimeIsInRangeX (chTimeAddX t0 k) t0 (chTimeAddX t0 d) = (k <? d) /\
  chTimeMS2I ms = (if ms * 10 <=? TIME_MAX_INTERVAL then Some (ms * 10) else None) /\
  (ms * 10 <= TIME_MAX_INTERVAL -> chTimeI2MS (ms * 10) = Some ms).
Proof.
  intros H0 Hk Hd Hms. split; [|split; [by apply in_range_iff|split]].
  - unfold chTimeDiffX, chTimeAddX. wsolve.
  - destruct (Z.leb_spec (ms * 10) TIME_MAX_INTERVAL); [by apply chTimeMS2I_exact|].
    unfold chTimeMS2I, TIME_MAX_INTERVAL, CH_CFG_ST_FREQUENCY in *. unfold is_u in *.
    rewrite u64_small by lia.
    replace ((ms * 10000 + 999) / 1000) with (ms * 10) by (Z.div_mod_to_equations; lia).
    by rewrite (proj2 (Z.leb_gt _ _)) by lia.
  - intros Hle. unfold chTimeI2MS, TIME_MAX_INTERVAL, CH_CFG_ST_FREQUENCY in *. unfold is_u in *.
    rewrite u64_small by lia.
    replace ((ms * 10 * 1000 + 10000 - 1) / 10000) with ms by (Z.div_mod_to_equations; lia).
    rewrite (proj2 (Z.ltb_lt _ _)) by lia. by rewrite u32_small by lia.
Qed.

Lemma time_wrap_and_conversion_witness :
  chTimeDiffX 0xfffffff0 (chTimeAddX 0xfffffff0 0x20) = 0x20 /\ chTimeMS2I 2000 = Some 20000.
Proof.
  destruct (time_wrap_and_conversion 0xfffffff0 0x20 0x30 2000) as (H1 & _ & H2 & _);
    [by vm_compute..|]. by split.
Defined.
