(* ===== verification/ChVt.v ===== *)
(** * Virtual timers: [os/rt/src/chvt.c] and [os/rt/include/chvt.h]

    The kernel's timers in tickless mode ([CH_CFG_ST_TIMEDELTA] is 2): a
    circular, doubly linked delta list around a header, and the alarm of the
    port's timer.  Nodes are records at addresses; the header [ch.vtlist] is
    the node [VTLIST].  Assertions and checks are enabled in this firmware:
    [None] is a system halt.  The context checks ([chDbgCheckClassI], the
    system lock) are not modelled. *)

From Stdlib Require Import ZArith Lia.
From stdpp Require Import base list option numbers functions.
From S2P Require Import Prelude ChTime.
Import OptionNotations.

Local Open Scope Z_scope.

Definition CH_CFG_ST_TIMEDELTA : Z := 2.

(** ** State *)

Record virtual_timer_t := VTimer {
  vt_next : Z;
  vt_prev : Z;
  vt_delta : Z;
  vt_func : option Z;           (* the null pointer is [None] *)
  vt_par : Z
}.

Definition set_vt_next (v : Z) (t : virtual_timer_t) : virtual_timer_t :=
  VTimer v (vt_prev t) (vt_delta t) (vt_func t) (vt_par t).
Definition set_vt_prev (v : Z) (t : virtual_timer_t) : virtual_timer_t :=
  VTimer (vt_next t) v (vt_delta t) (vt_func t) (vt_par t).
Definition set_vt_delta (v : Z) (t : virtual_timer_t) : virtual_timer_t :=
  VTimer (vt_next t) (vt_prev t) v (vt_func t) (vt_par t).
Definition set_vt_func (f : option Z) (t : virtual_timer_t) : virtual_timer_t :=
  VTimer (vt_next t) (vt_prev t) (vt_delta t) f (vt_par t).
Definition set_vt_par (v : Z) (t : virtual_timer_t) : virtual_timer_t :=
  VTimer (vt_next t) (vt_prev t) (vt_delta t) (vt_func t) v.

(** The address of [ch.vtlist]; the null pointer is 0. *)
Definition VTLIST : Z := 1.
Definition NULL : Z := 0.

(** [alarm] is the programmed alarm of the port's timer, [fired] the callbacks
    that have been called with their parameters, oldest first. *)
Record vt_state := VtState {
  node : Z -> virtual_timer_t;
  lasttime : Z;
  alarm : option Z;
  fired : list (Z * Z)
}.

Definition upd (p : Z) (g : virtual_timer_t -> virtual_timer_t) (s : vt_state) : vt_state :=
  VtState (<[p := g (node s p)]> (node s)) (lasttime s) (alarm s) (fired s).
Definition set_lasttime (t : Z) (s : vt_state) : vt_state := VtState (node s) t (alarm s) (fired s).
Definition set_alarm (a : option Z) (s : vt_state) : vt_state := VtState (node s) (lasttime s) a (fired s).
(** Calling [fn(par)]; the callbacks considered do not use the timers. *)
Definition call (fn par : Z) (s : vt_state) : vt_state :=
  VtState (node s) (lasttime s) (alarm s) (fired s ++ [(fn, par)]).

Definition next (p : Z) (s : vt_state) : Z := vt_next (node s p).
Definition prev (p : Z) (s : vt_state) : Z := vt_prev (node s p).
Definition delta (p : Z) (s : vt_state) : Z := vt_delta (node s p).

(** ** Operations *)

Definition _vt_init (s : vt_state) : vt_state :=
  let s := upd VTLIST (set_vt_next VTLIST) s in
  let s := upd VTLIST (set_vt_prev VTLIST) s in
  let s := upd VTLIST (set_vt_delta (u32 (-1))) s in
  set_lasttime 0 s.

(** The loop of [chVTDoSetI] that finds the place for the timer. *)
Fixpoint vt_scan (fuel : nat) (vtp p d : Z) (s : vt_state) : option (Z * Z) :=
  if delta p s <? d then
    match fuel with
    | O => None
    | S fuel => if p =? vtp then None else vt_scan fuel vtp (next p s) (u32 (d - delta p s)) s
    end
  else Some (p, d).

(** Linking the timer in before [p], with the delta of [p] adjusted and that of
    the header restored. *)
Definition vt_insert (vtp p d : Z) (s : vt_state) : vt_state :=
  let s := upd vtp (set_vt_next p) s in
  let s := upd vtp (set_vt_prev (prev (next vtp s) s)) s in
  let s := upd (prev vtp s) (set_vt_next vtp) s in
  let s := upd p (set_vt_prev vtp) s in
  let s := upd vtp (set_vt_delta d) s in
  let s := upd p (set_vt_delta (u32 (delta p s - d))) s in
  upd VTLIST (set_vt_delta (u32 (-1))) s.

(** [now] is the reading of the port's timer; [fuel] bounds the loop. *)
Definition chVTDoSetI (fuel : nat) (vtp delay : Z) (vtfunc : option Z) (par now : Z) (s : vt_state)
    : option vt_state :=
  if (vtp =? NULL) || negb (bool_decide (is_Some vtfunc)) || (delay =? TIME_IMMEDIATE) then None
  else
    let s := upd vtp (set_vt_par par) s in
    let s := upd vtp (set_vt_func vtfunc) s in
    let delay := if delay <? CH_CFG_ST_TIMEDELTA then CH_CFG_ST_TIMEDELTA else delay in
    if next VTLIST s =? VTLIST then
      let s := set_lasttime now s in
      let s := upd VTLIST (set_vt_next vtp) s in
      let s := upd VTLIST (set_vt_prev vtp) s in
      let s := upd vtp (set_vt_next VTLIST) s in
      let s := upd vtp (set_vt_prev VTLIST) s in
      let s := upd vtp (set_vt_delta delay) s in
      Some (set_alarm (Some (chTimeAddX (lasttime s) delay)) s)
    else
      let p := next VTLIST s in
      let d := u32 (chTimeDiffX (lasttime s) now + delay) in
      let '(p, d, s) :=
        if d <? chTimeDiffX (lasttime s) now then (next p s, u32 (d - delta p s), s)
        else if d <? delta p s then (p, d, set_alarm (Some (chTimeAddX (lasttime s) d)) s)
        else (p, d, s) in
      let? (p, d) := vt_scan fuel vtp p d s in
      Some (vt_insert vtp p d s).

Definition chVTDoResetI (vtp now : Z) (s : vt_state) : option vt_state :=
  if (vtp =? NULL) || negb (bool_decide (is_Some (vt_func (node s vtp)))) then None
  else if negb (next VTLIST s =? vtp) then
    let s := upd (prev vtp s) (set_vt_next (next vtp s)) s in
    let s := upd (next vtp s) (set_vt_prev (prev vtp s)) s in
    let s := upd vtp (set_vt_func None) s in
    Some (if negb (VTLIST =? next vtp s)
          then upd (next vtp s) (set_vt_delta (u32 (delta (next vtp s) s + delta vtp s))) s else s)
  else
    let s := upd VTLIST (set_vt_next (next vtp s)) s in
    let s := upd (next VTLIST s) (set_vt_prev VTLIST) s in
    let s := upd vtp (set_vt_func None) s in
    if VTLIST =? next VTLIST s then Some (set_alarm None s)
    else
      let s := upd (next VTLIST s) (set_vt_delta (u32 (delta (next VTLIST s) s + delta vtp s))) s in
      let nowdelta := chTimeDiffX (lasttime s) now in
      if delta (next VTLIST s) s <=? nowdelta then Some s
      else
        let d := u32 (delta (next VTLIST s) s - nowdelta) in
        let d := if d <? CH_CFG_ST_TIMEDELTA then u32 (nowdelta + CH_CFG_ST_TIMEDELTA)
                 else u32 (nowdelta + d) in
        Some (set_alarm (Some (chTimeAddX (lasttime s) d)) s).

Definition chVTObjectInit (vtp : Z) (s : vt_state) : vt_state := upd vtp (set_vt_func None) s.

Definition chVTTimeElapsedSinceX (start now : Z) : Z := chTimeDiffX start now.
Definition chVTIsSystemTimeWithinX (start end' now : Z) : bool := chTimeIsInRangeX now start end'.

(** [None] for an empty list, else the time to the next event. *)
Definition chVTGetTimersStateI (now : Z) (s : vt_state) : option Z :=
  if VTLIST =? next VTLIST s then None
  else Some (chTimeDiffX now
         (chTimeAddX (lasttime s) (u32 (delta (next VTLIST s) s + CH_CFG_ST_TIMEDELTA)))).

Definition chVTIsArmedI (vtp : Z) (s : vt_state) : bool := bool_decide (is_Some (vt_func (node s vtp))).
Definition chVTResetI (vtp now : Z) (s : vt_state) : option vt_state :=
  if chVTIsArmedI vtp s then chVTDoResetI vtp now s else Some s.
Definition chVTSetI (fuel : nat) (vtp delay : Z) (vtfunc : option Z) (par now1 now2 : Z) (s : vt_state)
    : option vt_state :=
  let? s := chVTResetI vtp now1 s in chVTDoSetI fuel vtp delay vtfunc par now2 s.

(** Expiration of the first timer: the body of the [do] loop up to the test.  A
    null callback cannot be called. *)
Definition vt_expire (nowdelta : Z) (s : vt_state) : option (Z * vt_state) :=
  let vtp := next VTLIST s in
  let s := set_lasttime (u32 (lasttime s + delta vtp s)) s in
  let nowdelta := u32 (nowdelta - delta vtp s) in
  let s := upd (next vtp s) (set_vt_prev VTLIST) s in
  let s := upd VTLIST (set_vt_next (next vtp s)) s in
  let fn := vt_func (node s vtp) in
  let s := upd vtp (set_vt_func None) s in
  let s := if next VTLIST s =? VTLIST then set_alarm None s else s in
  let? fn := fn in
  Some (nowdelta, call fn (vt_par (node s vtp)) s).

(** The [do ... while] loop. *)
Fixpoint vt_consume (fuel : nat) (nowdelta : Z) (s : vt_state) : option (Z * vt_state) :=
  match fuel with
  | O => None
  | S fuel =>
      let? (nowdelta, s) := vt_expire nowdelta s in
      if delta (next VTLIST s) s <=? nowdelta then vt_consume fuel nowdelta s else Some (nowdelta, s)
  end.

(** The [while (true)] loop; [nows] are the successive readings of the time. *)
Fixpoint vt_loop (fuel : nat) (nows : list Z) (s : vt_state) : option (Z * Z * vt_state) :=
  match nows with
  | [] => None
  | now :: nows =>
      let nowdelta := chTimeDiffX (lasttime s) now in
      if nowdelta <? delta (next VTLIST s) s then Some (now, nowdelta, s)
      else let? (_, s) := vt_consume fuel nowdelta s in vt_loop fuel nows s
  end.

(** [last] is the reading of the time in the final assertion. *)
Definition chVTDoTickI (fuel : nat) (nows : list Z) (last : Z) (s : vt_state) : option vt_state :=
  let? (now, nowdelta, s) := vt_loop fuel nows s in
  if next VTLIST s =? VTLIST then Some s
  else
    let s := set_lasttime (u32 (lasttime s + nowdelta)) s in
    let s := upd (next VTLIST s) (set_vt_delta (u32 (delta (next VTLIST s) s - nowdelta))) s in
    let d := chTimeDiffX now (chTimeAddX (lasttime s) (delta (next VTLIST s) s)) in
    let d := if d <? CH_CFG_ST_TIMEDELTA then CH_CFG_ST_TIMEDELTA else d in
    let s := set_alarm (Some (chTimeAddX now d)) s in
    if chTimeDiffX (lasttime s) last <=? chTimeDiffX (lasttime s) (chTimeAddX now d) then Some s else None.
