(* ===== verification/ChVtProof.v ===== *)
(** * The linked list of the virtual timers

    Segments of the doubly linked list, deltas and deadlines, and what the
    insertion of a node does to them. *)

From Stdlib Require Import ZArith Lia.
From stdpp Require Import base list option numbers functions.
From S2P Require Import Prelude ChTime ChVt.
From stdpp Require Import sets list.
Import OptionNotations.

Local Open Scope Z_scope.

(** ** Updates of nodes *)

Lemma node_upd p g s q : node (upd p g s) q = if decide (q = p) then g (node s p) else node s q.
Proof.
  unfold upd. cbn [node]. destruct (decide (q = p)) as [->|Hne].
  - by rewrite fn_lookup_insert.
  - by rewrite fn_lookup_insert_ne by auto.
Qed.

(** ** Segments of the linked list *)

Fixpoint seg (s : vt_state) (x : Z) (l : list Z) (y : Z) : Prop :=
  match l with
  | [] => next x s = y /\ prev y s = x
  | z :: l => next x s = z /\ prev z s = x /\ seg s z l y
  end.

Lemma seg_app s x l1 z l2 y : seg s x (l1 ++ z :: l2) y <-> seg s x l1 z /\ seg s z l2 y.
Proof.
  revert x. induction l1 as [|a l1 IH]; intros x; cbn [app seg]; [tauto|]. rewrite IH. tauto.
Qed.

(** A segment depends on the successors of its nodes and the predecessors of
    those after the first. *)
Lemma seg_frame s s' x l y :
  seg s x l y ->
  (forall z, z ∈ x :: l -> next z s' = next z s) -> (forall z, z ∈ l ++ [y] -> prev z s' = prev z s) ->
  seg s' x l y.
Proof.
  revert x. induction l as [|a l IH]; intros x Hs Hn Hp; cbn [seg app] in *.
  - rewrite Hn, Hp by set_solver. done.
  - destruct Hs as (H1 & H2 & H3). rewrite Hn, Hp by set_solver. split; [done|]. split; [done|].
    apply IH; [done| |]; intros z Hz; [apply Hn|apply Hp]; set_solver.
Qed.

Lemma seg_last s x l y : seg s x l y -> last (x :: l) = Some (prev y s).
Proof.
  revert x. induction l as [|a l IH]; intros x Hs; cbn [seg] in Hs.
  - destruct Hs as [_ <-]. done.
  - destruct Hs as (_ & _ & Hs). specialize (IH a Hs). by rewrite last_cons_cons.
Qed.

Lemma seg_head s x l y : seg s x l y -> next x s = default y (head l).
Proof. by destruct l; intros []. Qed.

Lemma last_elem {A} (l : list A) x : last l = Some x -> x ∈ l.
Proof. intros H. apply last_Some in H as [l' ->]. set_solver. Qed.

(** Linking [v] in at the end of a segment. *)
Lemma seg_insert s s' x l y v :
  seg s x l y -> NoDup (x :: l) -> v ∉ x :: l -> y ∉ l ->
  next (prev y s) s' = v -> next v s' = y -> prev v s' = prev y s -> prev y s' = v ->
  (forall z, z <> prev y s -> z <> v -> next z s' = next z s) ->
  (forall z, z <> y -> z <> v -> prev z s' = prev z s) ->
  seg s' x (l ++ [v]) y.
Proof.
  intros Hs Hnd Hv Hy H1 H2 H3 H4 Hn Hp. pose proof (seg_last _ _ _ _ Hs) as Hl.
  revert x Hs Hnd Hv Hl. induction l as [|a l IH]; intros x Hs Hnd Hv Hl; cbn [seg app] in *.
  - injection Hl as Hl. rewrite Hl. done.
  - destruct Hs as (E1 & E2 & E3). rewrite last_cons_cons in Hl.
    apply NoDup_cons in Hnd as [Hx Hnd].
    rewrite Hn; [|intros ->; apply last_elem in Hl; done|set_solver].
    rewrite Hp by set_solver. split; [done|]. split; [done|]. apply IH; try done; set_solver.
Qed.

(** Unlinking [v]. *)
Lemma seg_remove s s' x l1 v l2 y :
  seg s x l1 v -> seg s v l2 y -> NoDup (x :: l1 ++ v :: l2) -> y ∉ l1 ++ v :: l2 ->
  (forall z, z <> prev v s -> next z s' = next z s) -> next (prev v s) s' = next v s ->
  (forall z, z <> next v s -> prev z s' = prev z s) -> prev (next v s) s' = prev v s ->
  seg s' x (l1 ++ l2) y.
Proof.
  intros Hs1 Hs2 Hnd Hy Hn1 Hn2 Hp1 Hp2. pose proof (seg_last _ _ _ _ Hs1) as Hl.
  revert x Hs1 Hnd Hl. induction l1 as [|a l1 IH]; intros x Hs1 Hnd Hl; cbn [seg app] in *.
  - injection Hl as Hl. destruct l2 as [|b l2]; cbn [seg] in *.
    + destruct Hs2 as [E1 E2]. rewrite Hl, Hn2, <- E1 at 1. split; [done|]. by rewrite <- E1, Hp2.
    + destruct Hs2 as (E1 & E2 & E3). subst b. rewrite Hl at 1. rewrite Hn2. split; [done|].
      rewrite Hp2. split; [done|]. apply NoDup_cons in Hnd as [Hx Hnd]. apply NoDup_cons in Hnd as [Hv Hnd].
      apply NoDup_cons in Hnd as [Hb Hnd].
      eapply seg_frame; [exact E3| |].
      * intros z Hz. apply Hn1. intros ->. rewrite <- Hl in Hz. set_solver.
      * intros z Hz. apply Hp1. intros ->. set_solver.
  - destruct Hs1 as (E1 & E2 & E3). rewrite last_cons_cons in Hl.
    apply NoDup_cons in Hnd as [Hx Hnd].
    rewrite Hn1 by (intros ->; apply last_elem in Hl; set_solver).
    assert (a <> next v s) as Ha.
    { rewrite (seg_head _ _ _ _ Hs2). intros Ea. apply NoDup_cons in Hnd as [Ha _].
      destruct l2 as [|b l2]; cbn in Ea; set_solver. }
    rewrite Hp1 by done. split; [done|]. split; [done|]. apply IH; try done. set_solver.
Qed.

(** ** Deltas and deadlines *)

Definition sum (l : list Z) : Z := foldr Z.add 0 l.

(** Partial sums: the deadlines of timers with these deltas. *)
Fixpoint offsets (base : Z) (ds : list Z) : list Z :=
  match ds with
  | [] => []
  | d :: ds => base + d :: offsets (base + d) ds
  end.

Definition deltas (s : vt_state) (l : list Z) : list Z := map (fun i => delta i s) l.

Lemma sum_app l1 l2 : sum (l1 ++ l2) = sum l1 + sum l2.
Proof. unfold sum. induction l1 as [|x l1 IH]; cbn [app foldr]; lia. Qed.

Lemma offsets_app b l1 l2 : offsets b (l1 ++ l2) = offsets b l1 ++ offsets (b + sum l1) l2.
Proof.
  revert b. induction l1 as [|x l1 IH]; intros b; cbn [app offsets sum foldr]; [by rewrite Z.add_0_r|].
  rewrite IH. fold (sum l1). by rewrite Z.add_assoc.
Qed.

Lemma offsets_shift k b l : offsets (k + b) l = map (Z.add k) (offsets b l).
Proof.
  revert b. induction l as [|x l IH]; intros b; cbn [offsets map]; [done|].
  by rewrite <- Z.add_assoc, IH.
Qed.

Lemma sum_nonneg l : Forall (fun d => 0 <= d) l -> 0 <= sum l.
Proof. induction 1; cbn; [lia|]. fold (sum l). lia. Qed.

Lemma deltas_frame s s' l : (forall z, z ∈ l -> delta z s' = delta z s) -> deltas s' l = deltas s l.
Proof.
  intros H. unfold deltas. apply map_ext_in. intros z Hz. apply H. by apply list_elem_of_In.
Qed.

(** The armed timers [l], in order. *)
Record vt_ok (s : vt_state) (l : list Z) : Prop := {
  vt_seg : seg s VTLIST l VTLIST;
  vt_nodup : NoDup (VTLIST :: l);
  vt_hdr : delta VTLIST s = 2 ^ 32 - 1;
  vt_deltas : Forall (fun d => 0 <= d) (deltas s l);
  vt_total : sum (deltas s l) < 2 ^ 32;
  vt_funcs : Forall (fun i => is_Some (vt_func (node s i)) /\ i <> NULL) l;
  vt_last : is_u 32 (lasttime s)
}.

(** When the timers expire, in ticks after [lasttime]. *)
Definition deadlines (s : vt_state) (l : list Z) : list Z := offsets 0 (deltas s l).

(** ** The scan for the place of a new timer *)

Definition at_or_header (l : list Z) : Z := default VTLIST (head l).

Lemma scan_spec vtp s l : forall fuel x d,
  seg s x l VTLIST -> Forall (fun d => 0 <= d) (deltas s l) -> delta VTLIST s = 2 ^ 32 - 1 ->
  is_u 32 d -> vtp ∉ l -> (length l <= fuel)%nat ->
  exists a b d', l = a ++ b /\ vt_scan fuel vtp (at_or_header l) d s = Some (at_or_header b, d') /\
    d = d' + sum (deltas s a) /\ 0 <= d' /\ Forall (fun o => o < d) (offsets 0 (deltas s a)) /\
    match b with [] => True | i :: _ => d' <= delta i s end.
Proof.
  induction l as [|i l IH]; intros fuel x d Hs Hd Hh Hu Hv Hf; unfold is_u in Hu.
  - exists [], [], d. split; [done|]. unfold at_or_header. cbn [head default].
    split; [|cbn; lia || (repeat split; try lia; constructor)].
    destruct fuel; cbn [vt_scan]; rewrite Hh, (proj2 (Z.ltb_ge _ _)) by lia; done.
  - cbn [seg length] in *. destruct fuel as [|fuel]; [lia|]. unfold deltas in Hd. cbn [map] in Hd.
    apply Forall_cons in Hd as [Hd0 Hd]. fold (deltas s l) in Hd. destruct Hs as (E1 & E2 & Hs).
    change (at_or_header (i :: l)) with i. cbn [vt_scan].
    destruct (Z.ltb_spec (delta i s) d) as [Hlt|Hge].
    + rewrite (proj2 (Z.eqb_neq i vtp)) by set_solver. rewrite u32_small by lia.
      rewrite (seg_head _ _ _ _ Hs). fold (at_or_header l).
      destruct (IH fuel i (d - delta i s)) as (a & b & d' & -> & E & Ed & H0 & Ho & Hb);
        [done|done|done|unfold is_u; lia|set_solver|lia|].
      exists (i :: a), b, d'. split; [done|]. split; [done|].
      unfold deltas in *. cbn [map sum foldr offsets] in *. fold (sum (map (fun j => delta j s) a)).
      split; [lia|]. split; [done|]. split; [|done]. constructor; [lia|].
      rewrite Z.add_0_l. replace (delta i s) with (delta i s + 0) by lia. rewrite offsets_shift.
      apply Forall_map. eapply Forall_impl; [exact Ho|]. cbn. intros o Hlo. lia.
    + exists [], (i :: l), d. split; [done|]. split; [done|]. cbn. repeat split; try lia. constructor.
Qed.

(** ** Insertion *)

Ltac node_cases :=
  repeat match goal with x := _ : vt_state |- _ => subst x end;
  unfold next, prev, delta in *; rewrite ?node_upd;
  repeat (case_decide; subst; cbn [vt_next vt_prev vt_delta vt_func vt_par
    set_vt_next set_vt_prev set_vt_delta set_vt_func set_vt_par] in *; try done; try congruence).

(** The links the insertion makes, and the state before deltas change. *)
Lemma insert_links vtp p d s z :
  vtp <> p -> vtp <> prev p s ->
  next z (vt_insert vtp p d s) = (if decide (z = prev p s) then vtp else if decide (z = vtp) then p else next z s) /\
  prev z (vt_insert vtp p d s) = (if decide (z = p) then vtp else if decide (z = vtp) then prev p s else prev z s) /\
  delta z (vt_insert vtp p d s) =
    (if decide (z = VTLIST) then 2 ^ 32 - 1 else if decide (z = p) then u32 (delta p s - d)
     else if decide (z = vtp) then d else delta z s) /\
  vt_func (node (vt_insert vtp p d s) z) = vt_func (node s z) /\
  lasttime (vt_insert vtp p d s) = lasttime s /\ alarm (vt_insert vtp p d s) = alarm s /\
  fired (vt_insert vtp p d s) = fired s.
Proof.
  intros H1 H2. unfold vt_insert.
  set (s1 := upd vtp (set_vt_next p) s).
  assert (next vtp s1 = p) as E1 by (unfold s1; node_cases). rewrite E1.
  assert (prev p s1 = prev p s) as E2 by (unfold s1; node_cases). rewrite E2.
  set (s2 := upd vtp (set_vt_prev (prev p s)) s1).
  assert (prev vtp s2 = prev p s) as E3 by (unfold s2; node_cases). rewrite E3.
  set (s3 := upd (prev p s) (set_vt_next vtp) s2).
  set (s4 := upd vtp (set_vt_delta d) (upd p (set_vt_prev vtp) s3)).
  assert (delta p s4 = delta p s) as E4 by (unfold s4, s3, s2, s1; node_cases). rewrite E4.
  change (u32 (-1)) with (2 ^ 32 - 1). unfold s4, s3, s2, s1.
  split; [|split; [|split; [|split; [|done]]]]; node_cases.
Qed.

Lemma seg_split s a b : seg s VTLIST (a ++ b) VTLIST ->
  seg s VTLIST a (at_or_header b) /\ match b with [] => True | i :: b => seg s i b VTLIST end.
Proof.
  destruct b as [|i b]; [rewrite app_nil_r; done|]. intros H. by apply seg_app in H.
Qed.

Lemma seg_join s a b : seg s VTLIST a (at_or_header b) ->
  match b with [] => True | i :: b => seg s i b VTLIST end -> seg s VTLIST (a ++ b) VTLIST.
Proof.
  destruct b as [|i b]; [rewrite app_nil_r; done|]. intros H1 H2. by apply seg_app.
Qed.

Lemma header_apart a b : NoDup (VTLIST :: a ++ b) -> at_or_header b ∉ a /\ at_or_header b ∈ VTLIST :: b.
Proof.
  intros Hnd. apply NoDup_cons in Hnd as [Hh Hnd]. apply NoDup_app in Hnd as (_ & Hd & _).
  destruct b as [|i b]; [set_solver|]. change (at_or_header (i :: b)) with i.
  split; [|set_solver]. intros Hi. apply (Hd i Hi). set_solver.
Qed.

Lemma insert_seg s a b vtp d :
  seg s VTLIST (a ++ b) VTLIST -> NoDup (VTLIST :: a ++ b) -> vtp ∉ VTLIST :: a ++ b ->
  seg (vt_insert vtp (at_or_header b) d s) VTLIST (a ++ vtp :: b) VTLIST.
Proof.
  intros Hs Hnd Hv. apply seg_split in Hs as [Ha Hb]. set (p := at_or_header b) in *.
  pose proof (seg_last _ _ _ _ Ha) as Hl. pose proof (last_elem _ _ Hl) as Hq.
  destruct (header_apart a b Hnd) as [Hpa Hp]. fold p in Hpa, Hp.
  assert (vtp <> p) as Hvp by set_solver.
  assert (vtp <> prev p s) as Hvq by (intros E; rewrite <- E in Hq; set_solver).
  assert (forall z, z ∈ b -> z <> prev p s) as Hbq.
  { intros z Hz ->. apply NoDup_cons in Hnd as [Hh Hnd]. apply NoDup_app in Hnd as (_ & Hd & _).
    apply elem_of_cons in Hq as [Hq|Hq]; [rewrite Hq in Hz; set_solver|]. by apply (Hd (prev p s)). }
  pose proof (fun z => insert_links vtp p d s z Hvp Hvq) as HL.
  replace (a ++ vtp :: b) with ((a ++ [vtp]) ++ b) by (by rewrite <- app_assoc).
  apply seg_join.
  - fold p. apply (seg_insert s); try done.
    + apply NoDup_cons in Hnd as [Hh Hnd]. apply NoDup_app in Hnd as (Hnd & _ & _).
      apply NoDup_cons. split; [set_solver|done].
    + set_solver.
    + destruct (HL (prev p s)) as (-> & _). by rewrite decide_True.
    + destruct (HL vtp) as (-> & _). by rewrite decide_False, decide_True by auto.
    + destruct (HL vtp) as (_ & -> & _). by rewrite decide_False, decide_True by auto.
    + destruct (HL p) as (_ & -> & _). by rewrite decide_True.
    + intros z H1 H2. destruct (HL z) as (-> & _). by rewrite !decide_False.
    + intros z H1 H2. destruct (HL z) as (_ & -> & _). by rewrite !decide_False.
  - destruct b as [|i b]; [done|]. apply (seg_frame s); [done| |].
    + intros z Hz. destruct (HL z) as (-> & _). rewrite !decide_False; [done|set_solver|by apply Hbq].
    + intros z Hz. destruct (HL z) as (_ & -> & _). rewrite !decide_False; [done|set_solver|].
      change p with i. apply NoDup_cons in Hnd as [Hh Hnd]. apply NoDup_app in Hnd as (_ & _ & Hnd).
      apply NoDup_cons in Hnd as [Hi Hnd]. set_solver.
Qed.

Lemma insert_deltas s a b vtp d :
  NoDup (VTLIST :: a ++ b) -> vtp ∉ VTLIST :: a ++ b -> vtp <> prev (at_or_header b) s ->
  let s' := vt_insert vtp (at_or_header b) d s in
  deltas s' (a ++ vtp :: b) = deltas s a ++ d :: match deltas s b with [] => [] | x :: ds => u32 (x - d) :: ds end.
Proof.
  intros Hnd Hv Hvq s'. set (p := at_or_header b) in *.
  destruct (header_apart a b Hnd) as [Hpa Hp]. fold p in Hpa, Hp.
  assert (vtp <> p) as Hvp by set_solver.
  pose proof (fun z => insert_links vtp p d s z Hvp Hvq) as HL. fold s' in HL.
  apply NoDup_cons in Hnd as [Hh Hnd]. apply NoDup_app in Hnd as (Hna & Hd & Hnb).
  assert (deltas s' a = deltas s a) as Ea.
  { apply deltas_frame. intros z Hz. destruct (HL z) as (_ & _ & -> & _). rewrite !decide_False; [done|..].
    - set_solver.
    - intros ->. done.
    - set_solver. }
  assert (delta vtp s' = d) as Ev.
  { destruct (HL vtp) as (_ & _ & -> & _). rewrite decide_False by (clear -Hv; set_solver).
    rewrite decide_False by done. by rewrite decide_True. }
  unfold deltas in *. rewrite map_app, Ea. cbn [map]. rewrite Ev. do 2 f_equal.
  destruct b as [|i b]; [done|]. cbn [map]. apply NoDup_cons in Hnb as [Hi Hnb]. f_equal.
  - destruct (HL i) as (_ & _ & -> & _). change p with i. rewrite decide_False by set_solver.
    by rewrite decide_True.
  - apply map_ext_in. intros z Hz. apply list_elem_of_In in Hz. destruct (HL z) as (_ & _ & -> & _).
    change p with i. rewrite !decide_False; [done|set_solver..].
Qed.

Lemma insert_ok s a b vtp d :
  vt_ok s (a ++ b) -> vtp ∉ VTLIST :: a ++ b -> vtp <> NULL -> is_Some (vt_func (node s vtp)) ->
  0 <= d -> sum (deltas s a) + d < 2 ^ 32 -> match b with [] => True | i :: _ => d <= delta i s end ->
  let s' := vt_insert vtp (at_or_header b) d s in
  vt_ok s' (a ++ vtp :: b) /\
  deadlines s' (a ++ vtp :: b)
    = deadlines s a ++ (sum (deltas s a) + d) :: offsets (sum (deltas s a)) (deltas s b).
Proof.
  intros [Hs Hnd Hh Hd Ht Hf Hla] Hv Hn Hfn H0 Hsum Hle s'.
  pose proof (proj1 (seg_split _ _ _ Hs)) as Ha.
  assert (vtp <> prev (at_or_header b) s) as Hvq.
  { intros E. apply seg_last, last_elem in Ha. rewrite <- E in Ha. clear -Ha Hv. set_solver. }
  assert (vtp <> at_or_header b) as Hvp.
  { intros E. destruct (header_apart a b Hnd) as [_ Hp]. rewrite <- E in Hp. clear -Hp Hv. set_solver. }
  pose proof (insert_deltas s a b vtp d Hnd Hv Hvq) as Ed. cbv zeta in Ed. fold s' in Ed.
  pose proof (fun z => insert_links vtp (at_or_header b) d s z Hvp Hvq) as HL. fold s' in HL.
  unfold deltas in Hd at 1. rewrite map_app in Hd. apply Forall_app in Hd as [Hda Hdb].
  unfold deltas in Ht at 1. rewrite map_app in Ht. fold (deltas s a) (deltas s b) in *. rewrite sum_app in Ht.
  assert (Forall (fun x => 0 <= x) (deltas s' (a ++ vtp :: b)) /\
    sum (deltas s' (a ++ vtp :: b)) < 2 ^ 32 /\
    deadlines s' (a ++ vtp :: b)
      = deadlines s a ++ (sum (deltas s a) + d) :: offsets (sum (deltas s a)) (deltas s b)) as (G1 & G2 & G3).
  { unfold deadlines. rewrite Ed, sum_app, offsets_app, Z.add_0_l. pose proof (sum_nonneg _ Hda).
    destruct b as [|i b]; cbn [deltas map] in *.
    - split; [apply Forall_app; split; [done|by constructor]|]. cbn. split; [lia|done].
    - apply Forall_cons in Hdb as [Hi Hdb]. pose proof (sum_nonneg _ Hdb) as Hsb. cbn [sum foldr] in *.
      fold (sum (map (fun j => delta j s) b)) in *.
      rewrite u32_small by lia. split; [apply Forall_app; split; [done|]; repeat constructor; done || lia|].
      split; [lia|]. cbn [offsets]. do 3 f_equal; [lia|f_equal; lia]. }
  split; [|exact G3]. split; [by apply insert_seg| | |exact G1|exact G2| |].
  - apply NoDup_cons in Hnd as [Hh' Hnd]. apply NoDup_app in Hnd as (Hna & Hdj & Hnb). apply NoDup_cons.
    split; [clear -Hh' Hv; set_solver|]. apply NoDup_app. split; [done|].
    split; [intros x Hx Hx'; apply elem_of_cons in Hx' as [->|Hx']; [clear -Hv Hx; set_solver|by apply (Hdj x)]|].
    apply NoDup_cons. split; [clear -Hv; set_solver|done].
  - destruct (HL VTLIST) as (_ & _ & -> & _). by rewrite decide_True.
  - apply Forall_app in Hf as [Hfa Hfb]. assert (forall z, vt_func (node s' z) = vt_func (node s z)) as Hfun
      by (intros z; apply HL).
    apply Forall_app. split; [|constructor]; [| |];
      try (eapply Forall_impl; [eassumption|]; intros z; by rewrite Hfun). by rewrite Hfun.
  - destruct (HL VTLIST) as (_ & _ & _ & _ & -> & _). done.
Qed.

(** * The timer list refines a list of deadlines

    The delta list stands for the armed timers in the order of their deadlines.
    Arming inserts a deadline, disarming removes one, a tick calls back exactly
    the timers that are due, and no operation moves the deadline of another
    timer. *)

(** The invariant is about the nodes and [lasttime]. *)
Lemma vt_ok_nodes s s' l : vt_ok s l -> node s' = node s -> is_u 32 (lasttime s') -> vt_ok s' l.
Proof.
  intros [Hs Hnd Hh Hd Ht Hf Hla] En El.
  assert (forall z, delta z s' = delta z s) as Ed by (intros z; unfold delta; by rewrite En).
  assert (deltas s' l = deltas s l) as Eds by (by apply deltas_frame).
  split; rewrite ?Ed, ?Eds, ?En; try done.
  apply (seg_frame s); [done|..]; intros z _; unfold next, prev; by rewrite En.
Qed.

(** ** Arming *)

(** Setting the callback of a timer that is not armed. *)
Lemma prepare_ok s l vtp par f :
  vt_ok s l -> vtp ∉ VTLIST :: l ->
  let s' := upd vtp (set_vt_func f) (upd vtp (set_vt_par par) s) in
  vt_ok s' l /\ (forall z, delta z s' = delta z s) /\ (forall z, next z s' = next z s) /\
  (forall z, prev z s' = prev z s) /\ vt_func (node s' vtp) = f.
Proof.
  intros [Hs Hnd Hh Hd Ht Hf Hla] Hv s'.
  assert (forall z, delta z s' = delta z s) as E1 by (intros z; unfold s'; node_cases).
  assert (forall z, next z s' = next z s) as E2 by (intros z; unfold s'; node_cases).
  assert (forall z, prev z s' = prev z s) as E3 by (intros z; unfold s'; node_cases).
  split; [|split; [done|split; [done|split; [done|unfold s'; node_cases]]]].
  assert (deltas s' l = deltas s l) as Ed by (by apply deltas_frame).
  split; rewrite ?E1, ?Ed; try done.
  - apply (seg_frame s); auto.
  - apply Forall_forall. intros z Hz. rewrite Forall_forall in Hf. destruct (Hf z Hz) as [H1 H2].
    split; [|done]. assert (z <> vtp) as Hne by (clear -Hv Hz; set_solver).
    unfold s'. rewrite !node_upd. by repeat case_decide.
Qed.

(** The effective delay: at least [CH_CFG_ST_TIMEDELTA]. *)
Definition effective (delay : Z) : Z := Z.max delay CH_CFG_ST_TIMEDELTA.

Lemma set_first s vtp delay f par now fuel :
  vt_ok s [] -> vtp ∉ [VTLIST; NULL] -> 0 < delay < 2 ^ 32 -> is_u 32 now ->
  exists s', chVTDoSetI fuel vtp delay (Some f) par now s = Some s' /\ vt_ok s' [vtp] /\
    deadlines s' [vtp] = [effective delay] /\ lasttime s' = now /\
    alarm s' = Some (chTimeAddX now (effective delay)) /\ fired s' = fired s /\ vt_func (node s' vtp) = Some f.
Proof.
  intros Hok Hv Hd Hnow. unfold chVTDoSetI, TIME_IMMEDIATE.
  assert (vtp <> VTLIST /\ vtp <> NULL) as [Hv1 Hv2] by (clear -Hv; set_solver).
  rewrite (proj2 (Z.eqb_neq vtp NULL) Hv2), bool_decide_true by done.
  rewrite (proj2 (Z.eqb_neq delay 0)) by lia. cbn [orb negb].
  destruct (prepare_ok s [] vtp par (Some f) Hok) as (Hok' & _ & En & Ep & Ef); [clear -Hv; set_solver|].
  set (s0 := upd vtp (set_vt_func (Some f)) _) in *.
  assert (next VTLIST s0 = VTLIST) as Eh by apply (vt_seg _ _ Hok'). rewrite Eh, Z.eqb_refl.
  replace (if delay <? CH_CFG_ST_TIMEDELTA then CH_CFG_ST_TIMEDELTA else delay) with (effective delay)
    by (unfold effective; destruct (Z.ltb_spec delay CH_CFG_ST_TIMEDELTA); lia).
  assert (0 < effective delay < 2 ^ 32) as Hde by (unfold effective, CH_CFG_ST_TIMEDELTA; lia).
  match goal with |- context [Some (set_alarm _ ?x)] => set (s1 := x) end.
  pose proof (vt_hdr _ _ Hok') as Hh. assert (fired s0 = fired s) as Efi by done. clearbody s0.
  assert (delta vtp s1 = effective delay /\ delta VTLIST s1 = 2 ^ 32 - 1 /\ next VTLIST s1 = vtp /\
    prev VTLIST s1 = vtp /\ next vtp s1 = VTLIST /\ prev vtp s1 = VTLIST /\ vt_func (node s1 vtp) = Some f)
    as (E1 & E2 & E3 & E4 & E5 & E6 & E7).
  { unfold s1. repeat split; try (unfold set_lasttime; node_cases). }
  eexists. split; [done|]. split; [|split; [|split; [done|split; [done|split; [exact Efi|exact E7]]]]].
  - split; cbn [set_alarm]; try done.
    + apply NoDup_cons. split; [clear -Hv1; set_solver|]. apply NoDup_singleton.
    + unfold deltas. cbn [map]. repeat constructor. change (delta vtp (set_alarm _ s1)) with (delta vtp s1). lia.
    + unfold deltas. cbn [map sum foldr]. change (delta vtp (set_alarm _ s1)) with (delta vtp s1). lia.
    + repeat constructor; [|done]. change (is_Some (vt_func (node s1 vtp))). by rewrite E7.
  - unfold deadlines, deltas. cbn [map offsets]. change (delta vtp (set_alarm _ s1)) with (delta vtp s1). by rewrite E1.
Qed.

Lemma offsets_lower b l : Forall (fun d => 0 <= d) l -> Forall (fun o => b <= o) (offsets b l).
Proof.
  intros H. revert b. induction H as [|d l Hd _ IH]; intros b; constructor; [lia|].
  eapply Forall_impl; [apply IH|]. cbn. lia.
Qed.

Lemma timer_deadlines_app s a b : deadlines s (a ++ b) = deadlines s a ++ offsets (sum (deltas s a)) (deltas s b).
Proof. unfold deadlines, deltas. by rewrite map_app, offsets_app. Qed.

Lemma set_more s l vtp delay f par now fuel :
  vt_ok s l -> l <> [] -> vtp ∉ NULL :: VTLIST :: l -> 0 < delay < 2 ^ 32 -> (length l <= fuel)%nat ->
  let d := chTimeDiffX (lasttime s) now + effective delay in d < 2 ^ 32 ->
  exists s' a b, chVTDoSetI fuel vtp delay (Some f) par now s = Some s' /\ l = a ++ b /\
    vt_ok s' (a ++ vtp :: b) /\
    deadlines s' (a ++ vtp :: b) = deadlines s a ++ d :: offsets (sum (deltas s a)) (deltas s b) /\
    Forall (fun o => o < d) (deadlines s a) /\ Forall (fun o => d <= o) (offsets (sum (deltas s a)) (deltas s b)) /\
    lasttime s' = lasttime s /\ fired s' = fired s /\ vt_func (node s' vtp) = Some f /\
    alarm s' = (if d <? delta (next VTLIST s) s then Some (chTimeAddX (lasttime s) d) else alarm s).
Proof.
  intros Hok Hl Hv Hd Hfuel d Hlt. unfold chVTDoSetI, TIME_IMMEDIATE.
  assert (vtp <> NULL) as Hv2 by (clear -Hv; set_solver).
  assert (vtp ∉ VTLIST :: l) as Hv3 by (clear -Hv; set_solver).
  rewrite (proj2 (Z.eqb_neq vtp NULL) Hv2), bool_decide_true by done.
  rewrite (proj2 (Z.eqb_neq delay 0)) by lia. cbn [orb negb].
  destruct (prepare_ok s l vtp par (Some f) Hok Hv3) as (Hok' & Ed & En & Ep & Ef).
  set (s0 := upd vtp (set_vt_func (Some f)) _) in *.
  assert (lasttime s0 = lasttime s /\ fired s0 = fired s /\ alarm s0 = alarm s) as (El0 & Ef0 & Ea0) by done.
  replace (if delay <? CH_CFG_ST_TIMEDELTA then CH_CFG_ST_TIMEDELTA else delay) with (effective delay)
    by (unfold effective; destruct (Z.ltb_spec delay CH_CFG_ST_TIMEDELTA); lia).
  clearbody s0. pose proof Hok' as [Hs Hnd Hh Hdl Htot Hfs Hla]. rewrite El0.
  destruct l as [|i l]; [done|]. assert (next VTLIST s0 = i) as Ei by apply Hs. rewrite Ei.
  rewrite (proj2 (Z.eqb_neq i VTLIST)) by (clear -Hnd; apply NoDup_cons in Hnd as [Hn _]; set_solver).
  pose proof (wrap_range 32 (now - lasttime s) ltac:(lia)) as Hdiff.
  change (wrap 32 (now - lasttime s)) with (chTimeDiffX (lasttime s) now) in Hdiff. unfold is_u in Hdiff.
  assert (0 < effective delay) as Heff by (unfold effective, CH_CFG_ST_TIMEDELTA; lia).
  rewrite u32_small by (fold d; unfold d; lia). fold d.
  rewrite (proj2 (Z.ltb_ge d _)) by (unfold d; lia).
  rewrite <- (En VTLIST), Ei, !Ed.
  set (s1 := if d <? delta i s then set_alarm (Some (chTimeAddX (lasttime s) d)) s0 else s0).
  replace (if d <? delta i s then (i, d, set_alarm (Some (chTimeAddX (lasttime s) d)) s0) else (i, d, s0))
    with (i, d, s1) by (unfold s1; by destruct (d <? delta i s)).
  assert (vt_ok s1 (i :: l) /\ lasttime s1 = lasttime s /\ fired s1 = fired s /\ node s1 = node s0 /\
    alarm s1 = (if d <? delta i s then Some (chTimeAddX (lasttime s) d) else alarm s)) as (Hok1 & El1 & Ef1 & En1 & Ea1).
  { unfold s1. rewrite <- Ea0, <- El0. destruct (d <? delta i s); [|done].
    split; [by apply (vt_ok_nodes s0)|done]. }
  assert (forall z, deltas s1 z = deltas s z) as Ed1.
  { intros z. apply deltas_frame. intros y _. unfold delta. rewrite En1. apply Ed. }
  clearbody s1. pose proof Hok1 as [Hs1 Hnd1 Hh1 Hd1 Ht1 Hf1 Hla1].
  destruct (scan_spec vtp s1 (i :: l) fuel VTLIST d) as (a & b & d' & Eab & E & Edd & H0 & Ho & Hb);
    [done|done|done|unfold is_u; lia|clear -Hv3; set_solver|done|].
  change (at_or_header (i :: l)) with i in E. rewrite Eab in Hok1, Hs1, Hnd1, Hv3. rewrite E. rewrite Ed1 in Edd, Ho.
  destruct (insert_ok s1 a b vtp d') as [Hok2 Edl];
    [done|done|done|rewrite En1; rewrite Ef; done|done|rewrite Ed1; lia|done|].
  assert (vtp <> at_or_header b) as Hvp.
  { intros Ee. destruct (header_apart a b Hnd1) as [_ Hp]. rewrite <- Ee in Hp. clear -Hp Hv3. set_solver. }
  assert (vtp <> prev (at_or_header b) s1) as Hvq.
  { intros Ee. pose proof (proj1 (seg_split _ _ _ Hs1)) as Ha. apply seg_last, last_elem in Ha.
    rewrite <- Ee in Ha. clear -Ha Hv3. set_solver. }
  destruct (insert_links vtp (at_or_header b) d' s1 vtp Hvp Hvq) as (_ & _ & _ & E4 & E5 & E6 & E7).
  eexists _, a, b. split; [done|]. split; [done|]. split; [exact Hok2|].
  rewrite Edl, E5, E6, E7. unfold deadlines. rewrite !Ed1. replace (sum (deltas s a) + d') with d by lia.
  split; [done|]. split; [done|]. split; [|by rewrite E4, En1].
  unfold deltas in Hd1. destruct b as [|j b]; [constructor|]. unfold deltas at 2. cbn [map offsets]. rewrite Eab, map_app in Hd1.
  apply Forall_app in Hd1 as [_ Hd1]. apply Forall_cons in Hd1 as [Hj Hd1].
  assert (delta j s1 = delta j s) as Ej by (unfold delta; rewrite En1; apply Ed). rewrite Ej in *.
  constructor; [lia|]. eapply Forall_impl; [apply offsets_lower|cbn; lia].
  specialize (Ed1 b). unfold deltas in Ed1. by rewrite <- Ed1.
Qed.

(** ** Disarming *)

(** Taking a timer out of the links. *)
Definition unlink (vtp : Z) (s : vt_state) : vt_state :=
  upd vtp (set_vt_func None)
    (upd (next vtp s) (set_vt_prev (prev vtp s)) (upd (prev vtp s) (set_vt_next (next vtp s)) s)).

Lemma unlink_links vtp s z :
  next z (unlink vtp s) = (if decide (z = prev vtp s) then next vtp s else next z s) /\
  prev z (unlink vtp s) = (if decide (z = next vtp s) then prev vtp s else prev z s) /\
  delta z (unlink vtp s) = delta z s /\
  vt_func (node (unlink vtp s) z) = (if decide (z = vtp) then None else vt_func (node s z)) /\
  vt_par (node (unlink vtp s) z) = vt_par (node s z).
Proof. unfold unlink. repeat split; node_cases. Qed.

(** Giving the delta of the removed timer to its successor. *)
Definition pass_delta (vtp : Z) (b : list Z) (s : vt_state) : vt_state :=
  match b with
  | [] => s
  | i :: _ => upd i (set_vt_delta (u32 (delta i s + delta vtp s))) s
  end.

Lemma unlink_ok s a vtp b :
  vt_ok s (a ++ vtp :: b) ->
  let s' := pass_delta vtp b (unlink vtp s) in
  vt_ok s' (a ++ b) /\ vt_func (node s' vtp) = None /\
  deadlines s' (a ++ b) = deadlines s a ++ offsets (sum (deltas s a) + delta vtp s) (deltas s b).
Proof.
  intros [Hs Hnd Hh Hd Ht Hf Hla] s'. apply seg_app in Hs as [Hs1 Hs2].
  pose proof (unlink_links vtp s) as HL. set (s1 := unlink vtp s) in *.
  assert (forall z, next z s' = next z s1 /\ prev z s' = prev z s1 /\ vt_func (node s' z) = vt_func (node s1 z))
    as HP by (intros z; unfold s', pass_delta; clearbody s1; destruct b; [done|]; repeat split; node_cases).
  assert (forall z, delta z s' = if decide (z ∈ take 1 b) then u32 (delta z s + delta vtp s) else delta z s) as HD.
  { intros z. unfold s', pass_delta. destruct b as [|i b]; [rewrite decide_False by set_solver; apply HL|].
    cbn [take]. unfold delta at 1. rewrite node_upd. cbn [vt_delta set_vt_delta].
    destruct (HL i) as (_ & _ & Ei & _), (HL vtp) as (_ & _ & Ev & _), (HL z) as (_ & _ & Ez & _).
    destruct (decide (z = i)) as [->|Hne]; [rewrite decide_True by set_solver; cbn; by rewrite Ei, Ev|].
    rewrite decide_False by (clear -Hne; set_solver). exact Ez. }
  unfold deltas in Hd, Ht. rewrite map_app in Hd, Ht. cbn [map] in Hd, Ht.
  fold (deltas s a) (deltas s b) in Hd, Ht. rewrite sum_app in Ht. cbn [sum foldr] in Ht. fold (sum (deltas s b)) in Ht.
  apply Forall_app in Hd as [Hda Hdb]. apply Forall_cons in Hdb as [Hdv Hdb].
  pose proof (sum_nonneg _ Hda) as Hsa. pose proof (sum_nonneg _ Hdb) as Hsb.
  assert (NoDup (VTLIST :: a ++ b) /\ vtp ∉ VTLIST :: a ++ b /\ (forall z, z ∈ a -> z ∉ b)) as (Hnd' & Hvn & Hdj).
  { apply NoDup_cons in Hnd as [Hh' Hnd]. apply NoDup_app in Hnd as (Hna & Hdj & Hnb).
    apply NoDup_cons in Hnb as [Hvb Hnb]. split; [|split].
    - apply NoDup_cons. split; [clear -Hh'; set_solver|]. apply NoDup_app. split; [done|]. split; [|done].
      intros x Hx Hxb. apply (Hdj x Hx). clear -Hxb. set_solver.
    - assert (vtp ∉ a) as Hva by (intros Hin; apply (Hdj vtp Hin); clear; set_solver).
      clear -Hva Hvb Hh'. set_solver.
    - intros z Hz Hzb. apply (Hdj z Hz). clear -Hzb. set_solver. }
  assert (deltas s' a = deltas s a) as Ea.
  { apply deltas_frame. intros z Hz. rewrite HD, decide_False; [done|]. intros Hzt. apply (Hdj z Hz).
    destruct b; [clear -Hzt; set_solver|]. cbn [take] in Hzt. clear -Hzt. set_solver. }
  assert (deltas s' b = match deltas s b with [] => [] | x :: ds => u32 (x + delta vtp s) :: ds end) as Eb.
  { destruct b as [|i b]; [done|]. unfold deltas. cbn [map]. rewrite HD, decide_True by (cbn [take]; set_solver).
    f_equal. apply map_ext_in. intros z Hz. apply list_elem_of_In in Hz. rewrite HD, decide_False; [done|].
    cbn [take]. apply NoDup_cons in Hnd' as [_ Hn]. apply NoDup_app in Hn as (_ & _ & Hn).
    apply NoDup_cons in Hn as [Hi _]. clear -Hi Hz. set_solver. }
  assert (Forall (fun x => 0 <= x) (deltas s' (a ++ b)) /\ sum (deltas s' (a ++ b)) < 2 ^ 32 /\
    deadlines s' (a ++ b) = deadlines s a ++ offsets (sum (deltas s a) + delta vtp s) (deltas s b)) as (G1 & G2 & G3).
  { rewrite timer_deadlines_app. unfold deadlines. unfold deltas at 1 2. rewrite map_app. fold (deltas s' a) (deltas s' b).
    rewrite Ea, Eb, sum_app. destruct (deltas s b) as [|x ds]; [cbn; rewrite app_nil_r; split; [done|]; split; [lia|done]|].
    apply Forall_cons in Hdb as [Hx Hds]. cbn [sum foldr] in *. fold (sum ds) in *.
    pose proof (sum_nonneg _ Hds). rewrite u32_small by lia.
    split; [apply Forall_app; split; [done|]; constructor; [lia|done]|]. split; [lia|]. cbn [offsets].
    do 2 f_equal; [lia|]. f_equal. lia. }
  split; [|split; [|exact G3]].
  2: { destruct (HP vtp) as (_ & _ & ->). destruct (HL vtp) as (_ & _ & _ & -> & _). by rewrite decide_True. }
  split; [|exact Hnd'| |exact G1|exact G2| |].
  - apply (seg_remove s s' VTLIST a vtp b VTLIST Hs1 Hs2 Hnd);
      [apply NoDup_cons in Hnd as [Hn _]; exact Hn|..].
    + intros z Hz. destruct (HP z) as (-> & _). destruct (HL z) as (-> & _). by rewrite decide_False.
    + destruct (HP (prev vtp s)) as (-> & _). destruct (HL (prev vtp s)) as (-> & _). by rewrite decide_True.
    + intros z Hz. destruct (HP z) as (_ & -> & _). destruct (HL z) as (_ & -> & _). by rewrite decide_False.
    + destruct (HP (next vtp s)) as (_ & -> & _). destruct (HL (next vtp s)) as (_ & -> & _). by rewrite decide_True.
  - rewrite HD, decide_False; [done|]. intros Hi. apply NoDup_cons in Hnd' as [Hn _].
    destruct b as [|i b]; cbn [take] in Hi; clear -Hi Hn; set_solver.
  - apply Forall_forall. intros z Hz. destruct (HP z) as (_ & _ & ->). destruct (HL z) as (_ & _ & _ & -> & _).
    rewrite decide_False by (clear -Hvn Hz; set_solver). rewrite Forall_forall in Hf. apply Hf.
    clear -Hz. set_solver.
  - unfold s', pass_delta, s1. by destruct b.
Qed.

(** The alarm after disarming. *)
Definition reset_alarm (s : vt_state) (a : list Z) (vtp : Z) (b : list Z) (now : Z) : option Z :=
  match a, b with
  | [], [] => None
  | [], i :: _ =>
      let e := chTimeDiffX (lasttime s) now in
      if delta vtp s + delta i s <=? e then alarm s
      else Some (chTimeAddX (lasttime s) (Z.max (delta vtp s + delta i s) (e + CH_CFG_ST_TIMEDELTA)))
  | _, _ => alarm s
  end.

Lemma reset_spec s a vtp b now :
  vt_ok s (a ++ vtp :: b) ->
  chVTDoResetI vtp now s
  = Some (set_alarm (reset_alarm s a vtp b now) (pass_delta vtp b (unlink vtp s))).
Proof.
  intros [Hs Hnd Hh Hd Ht Hf Hla].
  assert (is_Some (vt_func (node s vtp)) /\ vtp <> NULL) as [Hfv Hv]
    by (rewrite Forall_forall in Hf; apply Hf; set_solver).
  pose proof Hs as Hs'. apply seg_app in Hs' as [Hs1 Hs2].
  assert (next vtp s = at_or_header b) as Enx by (rewrite (seg_head _ _ _ _ Hs2); by destruct b).
  apply NoDup_cons in Hnd as [Hhn Hnd]. apply NoDup_app in Hnd as (Hna & Hdj & Hnb). apply NoDup_cons in Hnb as [Hvb Hnb].
  assert (vtp ∉ a) as Hva by (intros Hin; apply (Hdj vtp Hin); clear; set_solver).
  assert (vtp <> VTLIST) as Hvh by (clear -Hhn; set_solver).
  assert (prev vtp s <> vtp) as Hpv.
  { intros E. apply seg_last, last_elem in Hs1. rewrite E in Hs1. clear -Hs1 Hva Hvh. set_solver. }
  unfold chVTDoResetI. rewrite (proj2 (Z.eqb_neq vtp NULL) Hv), bool_decide_true by done. cbn [orb negb].
  destruct a as [|x a].
  - assert (next VTLIST s = vtp /\ prev vtp s = VTLIST) as [E1 E2] by (by cbn in Hs1). rewrite E1, Z.eqb_refl. cbn [negb].
    set (s1 := upd VTLIST (set_vt_next (next vtp s)) s).
    assert (next VTLIST s1 = next vtp s) as ->
      by (unfold s1, next; rewrite node_upd, decide_True by done; done).
    assert (upd vtp (set_vt_func None) (upd (next vtp s) (set_vt_prev VTLIST) s1) = unlink vtp s) as ->
      by (unfold unlink; by rewrite E2).
    destruct (unlink_links vtp s VTLIST) as (-> & _). rewrite E2, decide_True by done. rewrite Enx.
    destruct b as [|i b]; [done|]. change (at_or_header (i :: b)) with i.
    rewrite (proj2 (Z.eqb_neq VTLIST i)) by (clear -Hhn; set_solver).
    destruct (unlink_links vtp s i) as (_ & _ & Edi & _), (unlink_links vtp s vtp) as (_ & _ & Edv & _).
    unfold deltas in Hd, Ht. cbn [app map sum foldr] in Hd, Ht. fold (sum (map (fun j => delta j s) b)) in Ht.
    apply Forall_cons in Hd as [Hdv Hd]. apply Forall_cons in Hd as [Hdi Hd]. pose proof (sum_nonneg _ Hd) as Hsb.
    cbn [pass_delta reset_alarm]. rewrite Edi, Edv, (Z.add_comm (delta i s)), u32_small by lia.
    set (s2 := upd i _ (unlink vtp s)).
    assert (next VTLIST s2 = i) as En2.
    { unfold s2, next. rewrite node_upd. rewrite decide_False by (clear -Hhn; set_solver).
      change (next VTLIST (unlink vtp s) = i). destruct (unlink_links vtp s VTLIST) as (-> & _).
      by rewrite E2, decide_True, Enx. }
    assert (delta i s2 = delta vtp s + delta i s) as Ed2
      by (unfold s2, delta; rewrite node_upd, decide_True by done; done).
    rewrite En2, Ed2. change (lasttime s2) with (lasttime s).
    pose proof (wrap_range 32 (now - lasttime s) ltac:(lia)) as Hdiff.
    change (wrap 32 (now - lasttime s)) with (chTimeDiffX (lasttime s) now) in Hdiff. unfold is_u in Hdiff.
    set (e := chTimeDiffX (lasttime s) now) in *.
    destruct (Z.leb_spec (delta vtp s + delta i s) e); [done|]. rewrite u32_small by lia.
    unfold CH_CFG_ST_TIMEDELTA, chTimeAddX.
    destruct (Z.ltb_spec (delta vtp s + delta i s - e) 2); do 3 f_equal.
    + rewrite Z.add_comm, u32_add_l. f_equal. lia.
    + rewrite (u32_small (e + _)) by lia. f_equal. lia.
  - assert (next VTLIST s = x) as E1 by apply Hs1. rewrite E1, (proj2 (Z.eqb_neq x vtp)) by (clear -Hva; set_solver).
    cbn [negb]. set (s1 := upd (prev vtp s) (set_vt_next (next vtp s)) s).
    assert (next vtp s1 = next vtp s /\ prev vtp s1 = prev vtp s) as [-> ->]
      by (unfold s1, next, prev in *; rewrite !node_upd, decide_False by auto; done).
    change (upd vtp (set_vt_func None) (upd (next vtp s) (set_vt_prev (prev vtp s)) s1)) with (unlink vtp s).
    destruct (unlink_links vtp s vtp) as (-> & _). rewrite decide_False by auto. rewrite Enx.
    destruct b as [|i b]; cbn [pass_delta reset_alarm].
    + done.
    + change (at_or_header (i :: b)) with i. rewrite (proj2 (Z.eqb_neq VTLIST i)) by (clear -Hhn; set_solver). done.
Qed.
