(* ===== verification/ChVtTick.v ===== *)
(** * The timer tick

    [chVTDoTickI] calls back exactly the timers that are due, in the order of
    their deadlines, and leaves the deadlines of the others where they are. *)

From Stdlib Require Import ZArith Lia Sorted.
From stdpp Require Import base list option numbers functions.
From S2P Require Import Prelude ChTime ChVt ChVtProof.
From stdpp Require Import sets list.
Import OptionNotations.

Local Open Scope Z_scope.

(** The callbacks of the timers [l], with their parameters. *)
Definition calls (s : vt_state) (l : list Z) : list (Z * Z) :=
  omap (fun i => (fun f => (f, vt_par (node s i))) <$> vt_func (node s i)) l.

(** Nodes other than those of [l] may have changed. *)
Definition same_timers (s s' : vt_state) (l : list Z) : Prop :=
  forall z, z ∈ l -> delta z s' = delta z s /\ vt_func (node s' z) = vt_func (node s z) /\
    vt_par (node s' z) = vt_par (node s z).

Lemma same_calls s s' l : same_timers s s' l -> calls s' l = calls s l.
Proof.
  intros H. unfold calls. induction l as [|i l IH]; [done|]. cbn [omap list_omap].
  destruct (H i ltac:(set_solver)) as (_ & -> & ->). rewrite IH; [done|]. intros z Hz. apply H. set_solver.
Qed.

Lemma same_deltas s s' l : same_timers s s' l -> deltas s' l = deltas s l.
Proof. intros H. apply deltas_frame. intros z Hz. by apply H. Qed.

Lemma same_trans s1 s2 s3 l : same_timers s1 s2 l -> same_timers s2 s3 l -> same_timers s1 s3 l.
Proof.
  intros H1 H2 z Hz. destruct (H1 z Hz) as (<- & <- & <-). by apply H2.
Qed.

Lemma same_sub s s' a b : same_timers s s' (a ++ b) -> same_timers s s' b.
Proof. intros H z Hz. apply H. set_solver. Qed.

(** ** One timer expires *)

Lemma expire_links s i n t z :
  i <> VTLIST -> i <> n ->
  let s1 := upd n (set_vt_prev VTLIST) (set_lasttime t s) in
  let s3 := upd i (set_vt_func None) (upd VTLIST (set_vt_next n) s1) in
  next i s1 = next i s /\ vt_func (node (upd VTLIST (set_vt_next n) s1) i) = vt_func (node s i) /\
  next z s3 = (if decide (z = VTLIST) then n else next z s) /\
  prev z s3 = (if decide (z = n) then VTLIST else prev z s) /\
  delta z s3 = delta z s /\ vt_par (node s3 z) = vt_par (node s z) /\
  vt_func (node s3 z) = (if decide (z = i) then None else vt_func (node s z)).
Proof.
  intros H1 H2. cbv zeta. repeat split; unfold next, prev, delta; rewrite !node_upd;
    change (node (set_lasttime t s)) with (node s); repeat case_decide; subst; done.
Qed.

Lemma expire_spec s i b nd :
  vt_ok s (i :: b) -> delta i s <= nd < 2 ^ 32 ->
  exists s', vt_expire nd s = Some (nd - delta i s, s') /\ vt_ok s' b /\ same_timers s s' b /\
    lasttime s' = u32 (lasttime s + delta i s) /\ fired s' = fired s ++ calls s [i] /\
    alarm s' = (if decide (b = []) then None else alarm s).
Proof.
  intros [Hs Hnd Hh Hd Ht Hf Hla] Hle. destruct Hs as (E1 & E2 & Hs).
  apply Forall_cons in Hf as [[[f Ef] Hn] Hf].
  assert (NoDup (VTLIST :: [] ++ i :: b)) as Hnd' by done.
  apply NoDup_cons in Hnd as [Hhn Hnd]. apply NoDup_cons in Hnd as [Hib Hnb].
  unfold deltas in Hd, Ht. cbn [map sum foldr] in Hd, Ht. fold (deltas s b) in Hd, Ht. fold (sum (deltas s b)) in Ht.
  apply Forall_cons in Hd as [Hdi Hd].
  assert (next i s = at_or_header b) as Enx by (rewrite (seg_head _ _ _ _ Hs); by destruct b).
  assert (i <> VTLIST) as Hih by (clear -Hhn; set_solver).
  assert (i <> next i s) as Hin.
  { rewrite Enx. destruct b as [|j b]; [done|]. change (at_or_header (j :: b)) with j. clear -Hib. set_solver. }
  unfold vt_expire. rewrite E1. cbv zeta.
  change (delta i (set_lasttime ?x s)) with (delta i s). rewrite (u32_small (nd - delta i s)) by lia.
  change (next i (set_lasttime ?x s)) with (next i s).
  pose proof (expire_links s i (next i s) (u32 (lasttime s + delta i s))) as HL0. cbv zeta in HL0.
  set (s1 := upd (next i s) _ _) in *.
  assert (next i s1 = next i s) as En1 by (by apply (HL0 VTLIST)). rewrite En1.
  set (s2 := upd VTLIST _ s1) in *. set (s3 := upd i _ s2) in *.
  assert (vt_func (node s2 i) = Some f) as Ef2 by (rewrite <- Ef; by apply (HL0 VTLIST)). rewrite Ef2.
  pose proof (fun z => proj2 (proj2 (HL0 z Hih Hin))) as HL. clear HL0.
  assert (next VTLIST s3 = at_or_header b) as Eh3 by (destruct (HL VTLIST) as (-> & _); by rewrite decide_True).
  rewrite Eh3.
  assert (lasttime s3 = u32 (lasttime s + delta i s) /\ fired s3 = fired s /\ alarm s3 = alarm s) as (El3 & Ef3 & Ea3)
    by done.
  set (s4 := if at_or_header b =? VTLIST then set_alarm None s3 else s3).
  assert (node s4 = node s3 /\ lasttime s4 = lasttime s3 /\ fired s4 = fired s3 /\
    alarm s4 = (if decide (b = []) then None else alarm s)) as (En4 & El4 & Ef4 & Ea4).
  { unfold s4. destruct b as [|j b]; [done|]. change (at_or_header (j :: b)) with j.
    rewrite (proj2 (Z.eqb_neq j VTLIST)) by (clear -Hhn; set_solver). by rewrite decide_False. }
  clearbody s4 s3 s2 s1.
  eexists. split; [done|]. cbn [call lasttime fired alarm]. rewrite El4, El3, Ef4, Ef3, Ea4.
  assert (same_timers s (call f (vt_par (node s4 i)) s4) b) as Hsame.
  { intros z Hz. unfold delta. cbn [call node]. rewrite En4. destruct (HL z) as (_ & _ & Ez & -> & ->).
    rewrite decide_False by (clear -Hib Hz; set_solver). done. }
  split; [|split; [exact Hsame|split; [done|split; [|done]]]].
  2: { unfold calls. cbn [omap list_omap]. rewrite Ef, En4. cbn. destruct (HL i) as (_ & _ & _ & -> & _). done. }
  assert (deltas (call f (vt_par (node s4 i)) s4) b = deltas s b) as Ed by (by apply same_deltas).
  split; rewrite ?Ed; try done.
  - change b with ([] ++ b). apply (seg_remove s _ VTLIST [] i b VTLIST); try done.
    + intros z Hz. unfold next at 1. cbn [call node]. rewrite En4. fold (next z s3).
      destruct (HL z) as (-> & _). by rewrite decide_False by congruence.
    + unfold next at 1. cbn [call node]. rewrite En4, E2. fold (next VTLIST s3).
      destruct (HL VTLIST) as (-> & _). by rewrite decide_True.
    + intros z Hz. unfold prev at 1. cbn [call node]. rewrite En4. fold (prev z s3).
      destruct (HL z) as (_ & -> & _). by rewrite decide_False.
    + unfold prev at 1. cbn [call node]. rewrite En4, E2. fold (prev (next i s) s3).
      destruct (HL (next i s)) as (_ & -> & _). by rewrite decide_True.
  - apply NoDup_cons. split; [clear -Hhn; set_solver|done].
  - unfold delta. cbn [call node]. rewrite En4. fold (delta VTLIST s3). destruct (HL VTLIST) as (_ & _ & -> & _). done.
  - pose proof (sum_nonneg _ Hd). lia.
  - apply Forall_forall. intros z Hz. rewrite Forall_forall in Hf. destruct (Hf z Hz) as [H1 H2]. split; [|done].
    by destruct (Hsame z Hz) as (_ & -> & _).
  - cbn [call lasttime]. rewrite El4, El3. apply wrap_range. lia.
Qed.

(** ** All the timers due at one reading *)

Definition elapsed (s : vt_state) (now : Z) : Z := chTimeDiffX (lasttime s) now.

Lemma elapsed_range s now : 0 <= elapsed s now < 2 ^ 32.
Proof. apply (wrap_range 32). lia. Qed.

(** What expiring the first timers [a] of [a ++ b] amounts to. *)
Record expired (s : vt_state) (a b : list Z) (s' : vt_state) : Prop := {
  ex_ok : vt_ok s' b;
  ex_same : same_timers s s' b;
  ex_time : lasttime s' = u32 (lasttime s + sum (deltas s a));
  ex_fired : fired s' = fired s ++ calls s a;
  ex_alarm : alarm s' = (if decide (a <> [] /\ b = []) then None else alarm s);
  ex_range : 0 <= sum (deltas s a) < 2 ^ 32
}.

Lemma expired_nil s b : vt_ok s b -> expired s [] b s.
Proof.
  intros H. pose proof (vt_last _ _ H) as Hl. unfold is_u in Hl. split; try done.
  - cbn. by rewrite Z.add_0_r, u32_small.
  - cbn. by rewrite app_nil_r.
Qed.

Lemma calls_app s a b : calls s (a ++ b) = calls s a ++ calls s b.
Proof. apply omap_app. Qed.

Lemma deltas_app s a b : deltas s (a ++ b) = deltas s a ++ deltas s b.
Proof. apply map_app. Qed.

Lemma expired_trans s a1 a2 b s1 s2 :
  vt_ok s (a1 ++ a2 ++ b) -> a1 <> [] ->
  expired s a1 (a2 ++ b) s1 -> expired s1 a2 b s2 -> expired s (a1 ++ a2) b s2.
Proof.
  intros Hok Hne [K1 S1 T1 F1 A1 R1] [K2 S2 T2 F2 A2 R2].
  assert (same_timers s s1 a2) as Hs by (intros z Hz; apply S1; set_solver).
  split.
  - done.
  - eapply same_trans; [by apply same_sub in S1|done].
  - rewrite T2, T1, (same_deltas _ _ _ Hs), deltas_app, sum_app, u32_add_l. f_equal. lia.
  - by rewrite F2, F1, (same_calls _ _ _ Hs), calls_app, app_assoc.
  - rewrite A2, A1. clear -Hne. destruct a1; [done|]. destruct a2, b; cbn; repeat case_decide; naive_solver.
  - rewrite deltas_app, sum_app. rewrite (same_deltas _ _ _ Hs) in R2.
    pose proof (vt_total _ _ Hok) as Ht. pose proof (vt_deltas _ _ Hok) as Hd.
    rewrite !deltas_app, !sum_app in Ht. rewrite !deltas_app in Hd. rewrite !Forall_app in Hd.
    destruct Hd as (_ & _ & Hd). apply sum_nonneg in Hd. lia.
Qed.

Lemma expire_first s i b nd :
  vt_ok s (i :: b) -> delta i s <= nd < 2 ^ 32 ->
  exists s', vt_expire nd s = Some (nd - delta i s, s') /\ expired s [i] b s'.
Proof.
  intros Hok Hn. destruct (expire_spec s i b nd Hok Hn) as (s' & E & K & Hs & T & F & A).
  exists s'. split; [done|]. pose proof (vt_deltas _ _ Hok) as Hd. unfold deltas in Hd. cbn [map] in Hd.
  apply Forall_cons in Hd as [Hd _].
  assert (sum (deltas s [i]) = delta i s) as Es by (cbn; lia).
  split; rewrite ?Es; try done.
  - rewrite A. repeat case_decide; naive_solver.
  - lia.
Qed.

Lemma first_delta s l : vt_ok s l ->
  delta (next VTLIST s) s = match deltas s l with [] => 2 ^ 32 - 1 | d :: _ => d end.
Proof.
  intros [Hs Hnd Hh Hd Ht Hf Hla]. rewrite (seg_head _ _ _ _ Hs). by destruct l.
Qed.

(** The [do ... while] loop expires the timers that are due, and no other. *)
Lemma consume_spec : forall l fuel s nd i,
  vt_ok s (i :: l) -> delta i s <= nd < 2 ^ 32 - 1 -> (length l < fuel)%nat ->
  exists a b s', (i :: l) = a ++ b /\ a <> [] /\
    vt_consume fuel nd s = Some (nd - sum (deltas s a), s') /\ expired s a b s' /\
    sum (deltas s a) <= nd /\ Forall (fun d => nd < d) (offsets (sum (deltas s a)) (deltas s b)).
Proof.
  induction l as [|j l IH]; intros fuel s nd i Hok Hn Hf; (destruct fuel as [|fuel]; [cbn in Hf; lia|]);
    destruct (expire_first s i _ nd Hok ltac:(lia)) as (s1 & E & X); cbn [vt_consume]; rewrite E;
    rewrite (first_delta _ _ (ex_ok _ _ _ _ X)).
  - exists [i], [], s1. pose proof (ex_range _ _ _ _ X). unfold deltas in *. cbn [map sum foldr offsets] in *.
    rewrite (proj2 (Z.leb_gt _ _)) by lia. rewrite Z.add_0_r in *.
    do 4 (split; [done|]). split; [lia|constructor].
  - assert (same_timers s s1 (j :: l)) as Hs by apply X.
    assert (delta j s1 = delta j s) as Ej by (apply Hs; set_solver).
    pose proof (same_deltas _ _ _ Hs) as Ed. unfold deltas at 1. cbn [map]. rewrite Ej.
    pose proof (ex_range _ _ _ _ X) as Hr. assert (sum (deltas s [i]) = delta i s) as Es by (cbn; lia). rewrite Es in Hr.
    destruct (Z.leb_spec (delta j s) (nd - delta i s)) as [Hle|Hgt].
    + destruct (IH fuel s1 (nd - delta i s) j) as (a & b & s2 & Eab & Ha & Ec & X2 & Hsum & Hb);
        [apply X|rewrite Ej; lia|cbn in Hf; lia|].
      assert (same_timers s s1 a /\ same_timers s s1 b) as [Hsa Hsb]
        by (rewrite Eab in Hs; split; intros z Hz; apply Hs; clear -Hz; set_solver).
      rewrite (same_deltas _ _ _ Hsa) in *. rewrite (same_deltas _ _ _ Hsb) in Hb.
      assert (sum (deltas s (i :: a)) = delta i s + sum (deltas s a)) as Esum by done.
      exists (i :: a), b, s2. rewrite Esum. split; [by rewrite Eab|]. split; [done|].
      split; [rewrite Ec; do 2 f_equal; lia|]. rewrite Eab in Hok, X.
      split; [by apply (expired_trans s [i] a b s1 s2)|]. split; [lia|].
      rewrite offsets_shift. apply Forall_map. eapply Forall_impl; [exact Hb|]. cbn. lia.
    + exists [i], (j :: l), s1. rewrite Es. split; [done|]. split; [done|]. split; [done|]. split; [done|].
      split; [lia|]. unfold deltas. cbn [map offsets]. constructor; [lia|].
      pose proof (vt_deltas _ _ Hok) as Hd. unfold deltas in Hd. cbn [map] in Hd. rewrite !Forall_cons in Hd.
      eapply Forall_impl; [apply offsets_lower, Hd|]. cbn. lia.
Qed.

(** ** The readings of the time *)

Lemma elapsed_expired s a b s' now : expired s a b s' -> sum (deltas s a) <= elapsed s now ->
  elapsed s' now = elapsed s now - sum (deltas s a).
Proof.
  intros X Hle. unfold elapsed, chTimeDiffX in *. rewrite (ex_time _ _ _ _ X).
  rewrite <- (u32_small (u32 (now - lasttime s) - _)).
  - unfold u32, wrap. rewrite Zminus_mod_idemp_r, Zminus_mod_idemp_l. f_equal. lia.
  - pose proof (wrap_range 32 (now - lasttime s) ltac:(lia)) as H. unfold is_u in H.
    pose proof (ex_range _ _ _ _ X). unfold u32 in *. lia.
Qed.

Lemma sorted_shift (f g : Z -> Z) k l :
  Forall (fun n => g n = f n - k) l -> StronglySorted Z.le (map f l) -> StronglySorted Z.le (map g l).
Proof.
  induction 1 as [|n l Hn Hl IH]; intros Hs; [done|]. cbn [map] in *. apply StronglySorted_inv in Hs as [Hs Hm].
  constructor; [by apply IH|]. rewrite Forall_map in *. rewrite Forall_forall in Hm, Hl. apply Forall_forall.
  intros m Hin. rewrite Hn, (Hl m Hin). specialize (Hm m Hin). cbn in Hm. lia.
Qed.

(** The [while (true)] loop, at readings of the time that do not go back. *)
Lemma loop_spec fuel : forall nows s l,
  vt_ok s l -> (length l < length nows)%nat -> (length l <= fuel)%nat ->
  Forall (fun now => elapsed s now < 2 ^ 32 - 1) nows -> StronglySorted Z.le (map (elapsed s) nows) ->
  exists now a b s', now ∈ nows /\ l = a ++ b /\
    vt_loop fuel nows s = Some (now, elapsed s now - sum (deltas s a), s') /\ expired s a b s' /\
    sum (deltas s a) <= elapsed s now /\
    Forall (fun d => elapsed s now < d) (offsets (sum (deltas s a)) (deltas s b)).
Proof.
  induction nows as [|now nows IH]; intros s l Hok Hlen Hf Hb Hst; [cbn in Hlen; lia|].
  cbn [vt_loop map] in *. rewrite (first_delta _ _ Hok). fold (elapsed s now).
  apply Forall_cons in Hb as [Hb0 Hb]. apply StronglySorted_inv in Hst as [Hst Hmin].
  pose proof (vt_deltas _ _ Hok) as Hd. pose proof (elapsed_range s now) as He.
  destruct l as [|i l].
  { exists now, [], [], s. cbn [deltas map]. rewrite (proj2 (Z.ltb_lt _ _)) by lia. cbn [sum foldr offsets].
    rewrite Z.sub_0_r. split; [set_solver|]. split; [done|]. split; [done|].
    split; [by apply expired_nil|]. split; [lia|constructor]. }
  unfold deltas at 1. cbn [map]. unfold deltas in Hd. cbn [map] in Hd. apply Forall_cons in Hd as [Hdi Hd].
  destruct (Z.ltb_spec (elapsed s now) (delta i s)) as [Hlt|Hge].
  { exists now, [], (i :: l), s. cbn [sum foldr]. rewrite Z.sub_0_r.
    split; [set_solver|]. split; [done|]. split; [done|]. split; [by apply expired_nil|]. split; [cbn; lia|].
    unfold deltas. cbn [map offsets sum foldr]. constructor; [lia|].
    eapply Forall_impl; [apply offsets_lower, Hd|]. cbn. lia. }
  cbn in Hlen, Hf. destruct (consume_spec l fuel s (elapsed s now) i) as (a & b & s1 & Eab & Ha & E & X & Hsum & Hob);
    [done|lia|lia|]. rewrite E.
  assert (Forall (fun n => elapsed s1 n = elapsed s n - sum (deltas s a)) nows) as Hel.
  { apply Forall_forall. intros n Hn. apply (elapsed_expired _ _ b); [done|].
    rewrite Forall_map, Forall_forall in Hmin. specialize (Hmin n Hn). cbn in Hmin. lia. }
  assert (length (i :: l) = (length a + length b)%nat) as Hlab by (by rewrite Eab, length_app).
  assert (0 < length a)%nat as Hla by (destruct a; [done|cbn; lia]). cbn in Hlab.
  destruct (IH s1 b) as (now' & a2 & b2 & s2 & Hin & Eb & Ec & X2 & Hs2 & Ho2); [apply X|lia|lia|..].
  { apply Forall_forall. intros n Hn. rewrite Forall_forall in Hel, Hb. rewrite (Hel n Hn).
    pose proof (Hb n Hn). pose proof (ex_range _ _ _ _ X). lia. }
  { by apply (sorted_shift (elapsed s) _ (sum (deltas s a))). }
  rewrite Eb in *. rewrite Forall_forall in Hel. rewrite (Hel now' Hin) in *.
  assert (same_timers s s1 a2 /\ same_timers s s1 b2) as [Hsa Hsb]
    by (pose proof (ex_same _ _ _ _ X) as HX; split; intros z Hz; apply HX; clear -Hz; set_solver).
  rewrite (same_deltas _ _ _ Hsa) in *. rewrite (same_deltas _ _ _ Hsb) in *.
  exists now', (a ++ a2), b2, s2. rewrite deltas_app, sum_app. split; [clear -Hin; set_solver|].
  split; [by rewrite Eab, app_assoc|]. split; [rewrite Ec; do 3 f_equal; lia|]. rewrite Eab in Hok.
  split; [by apply (expired_trans s a a2 b2 s1 s2)|]. split; [lia|].
  rewrite offsets_shift. apply Forall_map. eapply Forall_impl; [exact Ho2|]. cbn. lia.
Qed.

(** ** The end of the tick *)

Lemma offsets_upper b l : Forall (fun d => 0 <= d) l -> Forall (fun o => o <= b + sum l) (offsets b l).
Proof.
  intros H. revert b. induction H as [|d l Hd Hl IH]; intros b; constructor; cbn [sum foldr]; fold (sum l).
  - apply sum_nonneg in Hl. lia.
  - eapply Forall_impl; [apply IH|]. cbn. lia.
Qed.

(** Moving the time base to a reading before the first deadline. *)
Lemma advance_ok s i b nd t :
  vt_ok s (i :: b) -> 0 <= nd <= delta i s -> is_u 32 t ->
  let s' := upd i (set_vt_delta (delta i s - nd)) (set_lasttime t s) in
  vt_ok s' (i :: b) /\ deadlines s' (i :: b) = map (fun d => d - nd) (deadlines s (i :: b)).
Proof.
  intros [Hs Hnd Hh Hd Ht Hf Hla] Hn Hu s'.
  assert (forall z, next z s' = next z s /\ prev z s' = prev z s /\ vt_func (node s' z) = vt_func (node s z) /\
    (z <> i -> delta z s' = delta z s)) as HZ by (intros z; repeat split; node_cases).
  assert (delta i s' = delta i s - nd) as Ei by (unfold s', delta; rewrite node_upd, decide_True by done; done).
  apply NoDup_cons in Hnd as [Hhn Hnd]. apply NoDup_cons in Hnd as [Hib Hnd].
  assert (deltas s' b = deltas s b) as Eb by (apply deltas_frame; intros z Hz; apply HZ; by intros ->).
  unfold deadlines. unfold deltas in *. cbn [map sum foldr offsets] in *. rewrite Eb, Ei.
  apply Forall_cons in Hd as [Hdi Hd]. split.
  - split; try done.
    + apply (seg_frame s); [done|intros; apply HZ..].
    + apply NoDup_cons. split; [done|]. by apply NoDup_cons.
    + rewrite <- Hh. apply HZ. clear -Hhn. set_solver.
    + unfold deltas. cbn [map]. rewrite Eb, Ei. constructor; [lia|done].
    + unfold deltas. cbn [map sum foldr]. rewrite Eb, Ei. fold (sum (map (fun j => delta j s) b)) in *. lia.
    + eapply Forall_impl; [exact Hf|]. intros z [H1 H2]. split; [|done].
      destruct (HZ z) as (_ & _ & E & _). by rewrite E.
  - replace (0 + (delta i s - nd)) with (- nd + (0 + delta i s)) by lia. rewrite offsets_shift.
    f_equal; [lia|]. apply map_ext. intros z. lia.
Qed.

Lemma tick_end s i b now last :
  vt_ok s (i :: b) -> is_u 32 now -> elapsed s now < delta i s -> chTimeDiffX now last <= CH_CFG_ST_TIMEDELTA ->
  let r := delta i s - elapsed s now in
  let s1 := set_lasttime (u32 (lasttime s + elapsed s now)) s in
  let s2 := upd i (set_vt_delta (u32 (delta i s1 - elapsed s now))) s1 in
  let s' := set_alarm (Some (chTimeAddX now (Z.max CH_CFG_ST_TIMEDELTA r))) s2 in
  let d := chTimeDiffX now (chTimeAddX (lasttime s2) (delta i s2)) in
  (if d <? CH_CFG_ST_TIMEDELTA then CH_CFG_ST_TIMEDELTA else d) = Z.max CH_CFG_ST_TIMEDELTA r /\
  next VTLIST s2 = i /\
  chTimeDiffX (lasttime s2) last <= chTimeDiffX (lasttime s2) (chTimeAddX now (Z.max CH_CFG_ST_TIMEDELTA r)) /\
  vt_ok s' (i :: b) /\ lasttime s' = now /\
  deadlines s' (i :: b) = map (fun d => d - elapsed s now) (deadlines s (i :: b)).
Proof.
  intros Hok Hu Hlt Hlast r s1 s2 s' d. pose proof (elapsed_range s now) as He.
  pose proof (vt_total _ _ Hok) as Ht. pose proof (vt_deltas _ _ Hok) as Hd.
  unfold deltas in Ht, Hd. cbn [map sum foldr] in Ht, Hd. apply Forall_cons in Hd as [Hdi Hd].
  apply sum_nonneg in Hd. fold (sum (map (fun j => delta j s) b)) in Ht.
  assert (u32 (lasttime s + elapsed s now) = now) as El.
  { unfold elapsed, chTimeDiffX. rewrite Z.add_comm, u32_add_l. rewrite u32_small; [lia|].
    unfold is_u in Hu. lia. }
  assert (s2 = upd i (set_vt_delta (delta i s - elapsed s now)) (set_lasttime now s)) as E2.
  { unfold s2, s1. rewrite El. change (delta i (set_lasttime now s)) with (delta i s). by rewrite u32_small by lia. }
  destruct (advance_ok s i b (elapsed s now) now) as [Hok2 Ed2]; [done|lia|done|]. rewrite <- E2 in Hok2, Ed2.
  assert (lasttime s2 = now /\ delta i s2 = r) as [El2 Er].
  { rewrite E2. split; [done|]. unfold delta. rewrite node_upd, decide_True by done. done. }
  assert (forall x, 0 <= x < 2 ^ 32 -> chTimeDiffX now (chTimeAddX now x) = x) as Hrt.
  { intros x Hx. unfold chTimeDiffX, chTimeAddX. unfold is_u in Hu. rewrite <- (u32_small x Hx) at 2.
    unfold u32, wrap. rewrite Zminus_mod_idemp_l. f_equal. lia. }
  unfold d. rewrite El2, Er, !Hrt; [|unfold CH_CFG_ST_TIMEDELTA, r; lia..].
  split; [unfold CH_CFG_ST_TIMEDELTA; destruct (Z.ltb_spec r 2); lia|].
  split; [by destruct (vt_seg _ _ Hok2)|]. split; [unfold CH_CFG_ST_TIMEDELTA in *; lia|].
  assert (lasttime s' = now) as El' by exact El2. split; [|done]. apply (vt_ok_nodes s2); [done|done|by rewrite El'].
Qed.

(** ** Properties *)

(** C11: A tick calls back exactly the timers that are due, in the order of their
    deadlines.  The time is read again after every batch of callbacks; for
    readings that do not go back there is one reading, the last the tick makes,
    such that every timer whose deadline is not after it is called, with its
    parameter, and leaves the list, and every other stays with the same absolute
    deadline.  The list is then relative to that reading and the alarm is
    programmed for the first timer left, but at least [CH_CFG_ST_TIMEDELTA]
    ticks ahead, or stopped when none is left; the tick does not halt when its
    last assertion is reached within [CH_CFG_ST_TIMEDELTA] ticks of the reading. *)
Theorem timers_fire (s : vt_state) (l nows : list Z) (fuel : nat) :
  vt_ok s l -> (length l < length nows)%nat -> (length l <= fuel)%nat -> Forall (is_u 32) nows ->
  Forall (fun now => elapsed s now < 2 ^ 32 - 1) nows -> StronglySorted Z.le (map (elapsed s) nows) ->
  exists now a b, now ∈ nows /\ l = a ++ b /\
    let dl := offsets (sum (deltas s a)) (deltas s b) in
    deadlines s l = deadlines s a ++ dl /\
    Forall (fun d => d <= elapsed s now) (deadlines s a) /\ Forall (fun d => elapsed s now < d) dl /\
    forall last, chTimeDiffX now last <= CH_CFG_ST_TIMEDELTA ->
    exists s', chVTDoTickI fuel nows last s = Some s' /\ vt_ok s' b /\
      fired s' = fired s ++ calls s a /\ deadlines s' b = map (fun d => d - elapsed s now) dl /\
      match dl with
      | [] => alarm s' = if decide (l = []) then alarm s else None
      | d :: _ => lasttime s' = now /\
          alarm s' = Some (chTimeAddX now (Z.max CH_CFG_ST_TIMEDELTA (d - elapsed s now)))
      end.
Proof.
  intros Hok Hlen Hf Hu Hb Hs.
  destruct (loop_spec fuel nows s l Hok Hlen Hf Hb Hs) as (now & a & b & s1 & Hin & -> & E & X & Hsum & Hob).
  exists now, a, b. split; [done|]. split; [done|]. intros dl. split; [apply timer_deadlines_app|].
  pose proof (vt_deltas _ _ Hok) as Hd. rewrite deltas_app, Forall_app in Hd. destruct Hd as [Hda Hdb].
  split; [eapply Forall_impl; [apply (offsets_upper 0), Hda|]; cbn; lia|]. split; [done|]. intros last Hl.
  unfold chVTDoTickI. rewrite E. pose proof (elapsed_expired _ _ _ _ now X Hsum) as He. rewrite <- He.
  pose proof (ex_ok _ _ _ _ X) as Hok1. pose proof (same_deltas _ _ _ (ex_same _ _ _ _ X)) as Ed.
  assert (next VTLIST s1 = at_or_header b) as Enx
    by (rewrite (seg_head _ _ _ _ (vt_seg _ _ Hok1)); by destruct b). rewrite Enx.
  destruct b as [|i b].
  { exists s1. split; [done|]. split; [done|]. split; [apply X|]. split; [done|]. change dl with (@nil Z). cbn match.
    rewrite (ex_alarm _ _ _ _ X), app_nil_r. repeat case_decide; naive_solver. }
  change (at_or_header (i :: b)) with i. cbv zeta.
  rewrite (proj2 (Z.eqb_neq i VTLIST))
    by (pose proof (vt_nodup _ _ Hok1) as Hn; apply NoDup_cons in Hn as [Hn _]; clear -Hn; set_solver).
  change (next VTLIST (set_lasttime ?t s1)) with (next VTLIST s1). rewrite Enx. change (at_or_header (i :: b)) with i.
  assert (delta i s1 = delta i s) as Ei by (apply (ex_same _ _ _ _ X); set_solver).
  unfold dl in *. change (deltas s (i :: b)) with (delta i s :: deltas s b) in *. cbn [offsets] in *.
  apply Forall_cons in Hob as [Hi Hob]. rewrite Forall_forall in Hu.
  destruct (tick_end s1 i b now last) as (T1 & T2 & T3 & T4 & T5 & T6); [done|by apply Hu|lia|done|].
  rewrite T2, T1. change (lasttime (set_alarm ?x ?y)) with (lasttime y).
  rewrite (proj2 (Z.leb_le _ _) T3). eexists. split; [done|]. split; [done|].
  split; [exact (ex_fired _ _ _ _ X)|]. rewrite T6, T5. unfold deadlines. rewrite Ed, He.
  split; [|split; [done|cbn [set_alarm alarm]; do 3 f_equal; lia]].
  cbn [offsets map]. f_equal; [lia|]. rewrite Z.add_0_l, offsets_shift, map_map. apply map_ext. lia.
Qed.

(** Arming a timer inserts its deadline at its place in the list, before the
    timers with the same or a later one, and moves no other deadline.  Delays
    below [CH_CFG_ST_TIMEDELTA] ticks are extended to it; the deadline counts from
    the reading of the time, which becomes the base of the list when it was
    empty; the alarm is reprogrammed exactly when the new timer is the first to
    expire. *)
Theorem timer_armed (s : vt_state) (l : list Z) (vtp delay f par now : Z) (fuel : nat) :
  vt_ok s l -> vtp ∉ NULL :: VTLIST :: l -> 0 < delay < 2 ^ 32 -> is_u 32 now -> (length l <= fuel)%nat ->
  let base := if decide (l = []) then now else lasttime s in
  let d := chTimeDiffX base now + effective delay in d < 2 ^ 32 ->
  exists s' a b, chVTDoSetI fuel vtp delay (Some f) par now s = Some s' /\ l = a ++ b /\
    vt_ok s' (a ++ vtp :: b) /\ chVTIsArmedI vtp s' = true /\ lasttime s' = base /\ fired s' = fired s /\
    deadlines s l = deadlines s a ++ offsets (sum (deltas s a)) (deltas s b) /\
    deadlines s' (a ++ vtp :: b) = deadlines s a ++ d :: offsets (sum (deltas s a)) (deltas s b) /\
    Forall (fun o => o < d) (deadlines s a) /\ Forall (fun o => d <= o) (offsets (sum (deltas s a)) (deltas s b)) /\
    alarm s' = (if forallb (fun o => d <? o) (deadlines s (take 1 l)) then Some (chTimeAddX base d) else alarm s).
Proof.
  intros Hok Hv Hd Hu Hf base d Hlt. unfold chVTIsArmedI. destruct l as [|i l].
  - destruct (set_first s vtp delay f par now fuel) as (s' & E & K & D & T & A & F & G);
      [done|clear -Hv; set_solver|done|done|].
    assert (base = now) as Eb by done.
    assert (d = effective delay) as Ed by (unfold d, chTimeDiffX; rewrite Eb, Z.sub_diag; done).
    exists s', [], []. rewrite G, bool_decide_true, Ed, Eb by done. repeat split; try done; try apply K; constructor.
  - destruct (set_more s (i :: l) vtp delay f par now fuel) as (s' & a & b & E & Eab & K & D & H1 & H2 & T & F & G & A);
      [done|done|done|done|done|exact Hlt|].
    exists s', a, b. rewrite G, bool_decide_true, A, T, F by done. change base with (lasttime s).
    do 6 (split; [done|]). split; [rewrite Eab; apply timer_deadlines_app|]. split; [exact D|]. split; [exact H1|].
    split; [exact H2|]. rewrite (first_delta _ _ Hok). cbn. rewrite andb_true_r. done.
Qed.

(** Disarming takes the timer out of the list and moves no other deadline: its
    delta goes to its successor.  When it was the first, the alarm is moved to
    the next timer, at least [CH_CFG_ST_TIMEDELTA] ticks ahead, and left alone if
    that one is already due; it is stopped when no timer is left. *)
Theorem timer_disarmed (s : vt_state) (a b : list Z) (vtp now : Z) :
  vt_ok s (a ++ vtp :: b) ->
  exists s', chVTResetI vtp now s = Some s' /\ vt_ok s' (a ++ b) /\ chVTIsArmedI vtp s' = false /\
    lasttime s' = lasttime s /\ fired s' = fired s /\
    deadlines s (a ++ vtp :: b)
      = deadlines s a ++ (sum (deltas s a) + delta vtp s) :: offsets (sum (deltas s a) + delta vtp s) (deltas s b) /\
    deadlines s' (a ++ b) = deadlines s a ++ offsets (sum (deltas s a) + delta vtp s) (deltas s b) /\
    alarm s' =
      match a, deadlines s' b with
      | [], [] => None
      | [], d :: _ =>
          if d <=? elapsed s now then alarm s
          else Some (chTimeAddX (lasttime s) (Z.max d (elapsed s now + CH_CFG_ST_TIMEDELTA)))
      | _, _ => alarm s
      end.
Proof.
  intros Hok. pose proof (reset_spec s a vtp b now Hok) as E. pose proof (unlink_ok s a vtp b Hok) as H. cbv zeta in H.
  destruct H as (K & G & D).
  assert (is_Some (vt_func (node s vtp))) as Hf
    by (pose proof (vt_funcs _ _ Hok) as Hf; rewrite Forall_forall in Hf; apply Hf; set_solver).
  unfold chVTResetI, chVTIsArmedI. rewrite bool_decide_true, E by done.
  set (s1 := pass_delta vtp b (unlink vtp s)) in *.
  assert (lasttime s1 = lasttime s /\ fired s1 = fired s) as [T F] by (unfold s1, pass_delta; by destruct b).
  eexists. split; [done|]. split; [apply (vt_ok_nodes s1); [done|done|]; cbn [set_alarm lasttime]; apply K|].
  cbn [set_alarm node lasttime fired alarm]. rewrite G.
  change (deadlines (set_alarm ?x s1)) with (deadlines s1). rewrite bool_decide_false by (by intros []).
  do 3 (split; [done|]). rewrite timer_deadlines_app. split; [done|]. split; [done|].
  unfold reset_alarm. destruct a as [|x a]; [|done]. destruct b as [|i b]; [done|].
  cbn [app] in D. rewrite D. unfold deadlines. unfold deltas. cbn [map offsets sum foldr]. done.
Qed.

(** ** Witnesses *)

Lemma init_ok s : vt_ok (_vt_init s) [].
Proof.
  split; try done. apply NoDup_singleton.
Qed.

Definition idle : vt_state := _vt_init (VtState (fun _ => VTimer 0 0 0 None 0) 0 None []).

(** Timers at 10, 11 and 12, armed one after the other, at the deadlines 5, 9 and
    20 after the time 100. *)
Definition three_timers : vt_state :=
  default idle (
    let? s := chVTDoSetI 10 10 5 (Some 510) 1 100 idle in
    let? s := chVTDoSetI 10 12 19 (Some 512) 3 101 s in
    chVTDoSetI 10 11 7 (Some 511) 2 102 s).

Lemma three_timers_ok : vt_ok three_timers [10; 11; 12].
Proof.
  split; try (vm_compute; done).
  - apply (bool_decide_unpack _). vm_compute. done.
  - vm_compute. repeat constructor; discriminate.
  - vm_compute. repeat constructor; try discriminate; eauto.
Defined.

Lemma timers_fire_witness :
  exists s', chVTDoTickI 3 [109; 109; 110; 110] 111 three_timers = Some s' /\
    fired s' = [(510, 1); (511, 2)].
Proof.
  destruct (timers_fire three_timers [10; 11; 12] [109; 109; 110; 110] 3 three_timers_ok)
    as (now & a & b & Hin & Eab & _ & _ & _ & H).
  - cbn. lia.
  - cbn. lia.
  - by repeat constructor.
  - apply (bool_decide_unpack _). vm_compute. done.
  - cbn [map]. repeat first [apply SSorted_nil | apply SSorted_cons | apply Forall_nil | apply Forall_cons; split];
      vm_compute; done.
  - destruct (H 111) as (s' & E & _).
    + rewrite !elem_of_cons, elem_of_nil in Hin. by destruct Hin as [-> |[-> |[-> |[-> | []]]]]; vm_compute.
    + exists s'. split; [exact E|]. apply (f_equal (fmap fired)) in E. vm_compute in E. injection E as E. exact (eq_sym E).
Defined.

Lemma timer_armed_witness :
  exists s' a b, chVTDoSetI 3 13 8 (Some 513) 4 103 three_timers = Some s' /\ [10; 11; 12] = a ++ b /\
    vt_ok s' (a ++ 13 :: b).
Proof.
  destruct (timer_armed three_timers [10; 11; 12] 13 8 513 4 103 3 three_timers_ok)
    as (s' & a & b & H1 & H2 & H3 & _).
  - apply (bool_decide_unpack _). vm_compute. done.
  - lia.
  - vm_compute. split; [discriminate|done].
  - cbn. lia.
  - vm_compute. done.
  - exists s', a, b. split; [exact H1|]. split; [exact H2|exact H3].
Defined.

Lemma timer_disarmed_witness :
  exists s', chVTResetI 10 103 three_timers = Some s' /\ alarm s' = Some 109 /\ vt_ok s' [11; 12].
Proof.
  destruct (timer_disarmed three_timers [] [11; 12] 10 103 three_timers_ok)
    as (s' & H1 & H2 & _ & _ & _ & _ & H3 & H4).
  exists s'. split; [exact H1|]. split; [|exact H2]. cbn [app] in H3. rewrite H4, H3. vm_compute. done.
Defined.
