(* ===== verification/ChSched.v ===== *)
(** * Scheduler: [os/rt/src/chschd.c], [chschd.h] and thread queues of [chthreads.c]

    Threads and queue headers are nodes at addresses, linked into circular queues;
    the header of the ready list, [ch.rlist], is the node [RLIST], whose priority
    ends every scan.  Kernel functions run under the system lock, so each is a
    function on the state of the kernel up to the point where the context is
    switched: what a thread still has to do when it runs again is its
    continuation, the part of its stack that matters.  [None] is a system halt:
    checks and assertions are enabled in this firmware.  A timed sleep arms a virtual
    timer ([ChVt]) on the stack of the thread; here it is a flag, whose timer calls
    [wakeup] when it fires. *)

From Stdlib Require Import ZArith Lia.
From stdpp Require Import base list option numbers functions.
From S2P Require Import Prelude ChTime.
Import OptionNotations.

Local Open Scope Z_scope.

(** ** Constants *)

Definition MSG_OK : Z := 0.
Definition MSG_TIMEOUT : Z := -1.
Definition MSG_RESET : Z := -2.

Definition NOPRIO : Z := 0.
Definition IDLEPRIO : Z := 1.
Definition NORMALPRIO : Z := 128.
Definition HIGHPRIO : Z := 255.

Inductive tstate_t :=
| CH_STATE_READY | CH_STATE_CURRENT | CH_STATE_WTSTART | CH_STATE_SUSPENDED
| CH_STATE_QUEUED | CH_STATE_WTSEM | CH_STATE_WTMTX | CH_STATE_WTCOND
| CH_STATE_SLEEPING | CH_STATE_WTEXIT | CH_STATE_WTOREVT | CH_STATE_WTANDEVT
| CH_STATE_SNDMSGQ | CH_STATE_SNDMSG | CH_STATE_WTMSG | CH_STATE_FINAL.

#[global] Instance tstate_eq_dec : EqDecision tstate_t.
Proof. solve_decision. Defined.

(** ** State *)

(** [u] is the word shared by [rdymsg] and [wtsemp]. *)
Record thread_t := Thread {
  q_next : Z;
  q_prev : Z;
  prio : Z;
  state : tstate_t;
  u : Z
}.

Definition set_q_next (v : Z) (t : thread_t) : thread_t := Thread v (q_prev t) (prio t) (state t) (u t).
Definition set_q_prev (v : Z) (t : thread_t) : thread_t := Thread (q_next t) v (prio t) (state t) (u t).
Definition set_prio (v : Z) (t : thread_t) : thread_t := Thread (q_next t) (q_prev t) v (state t) (u t).
Definition set_state (v : tstate_t) (t : thread_t) : thread_t := Thread (q_next t) (q_prev t) (prio t) v (u t).
Definition set_u (v : Z) (t : thread_t) : thread_t := Thread (q_next t) (q_prev t) (prio t) (state t) v.

(** What follows a sleep: returning the message, or another round of the loop of a
    mailbox operation. *)
Inductive after :=
| ReturnMsg
| PostAgain (mbp msg timeout : Z)
| PostAheadAgain (mbp msg timeout : Z)
| FetchAgain (mbp timeout : Z).

(** The timer is checked first when the sleep was timed. *)
Record resume := Resume { timed : bool; r_after : after }.

(** Buffers are arrays of messages; pointers into them are indices. *)
Record mailbox_t := Mailbox {
  buffer : list Z;
  rdptr : nat;
  wrptr : nat;
  mb_cnt : nat;
  mb_reset : bool
}.

(** [threads] is the registry, [sem_cnt] the counters of semaphores; [armed] tells
    whose timer is armed. *)
Record kernel := Kernel {
  node : Z -> thread_t;
  threads : list Z;
  currp : Z;
  sem_cnt : Z -> Z;
  mbox : Z -> mailbox_t;
  armed : Z -> bool;
  cont : Z -> option resume;
  tref : Z -> Z                 (* thread references *)
}.

Definition upd (p : Z) (g : thread_t -> thread_t) (k : kernel) : kernel :=
  Kernel (<[p := g (node k p)]> (node k)) (threads k) (currp k) (sem_cnt k) (mbox k) (armed k) (cont k) (tref k).
Definition REG_INSERT (tp : Z) (k : kernel) : kernel :=
  Kernel (node k) (threads k ++ [tp]) (currp k) (sem_cnt k) (mbox k) (armed k) (cont k) (tref k).
Definition set_currp (p : Z) (k : kernel) : kernel :=
  Kernel (node k) (threads k) p (sem_cnt k) (mbox k) (armed k) (cont k) (tref k).
Definition set_cnt (sp n : Z) (k : kernel) : kernel :=
  Kernel (node k) (threads k) (currp k) (<[sp := n]> (sem_cnt k)) (mbox k) (armed k) (cont k) (tref k).
Definition set_mbox (mbp : Z) (m : mailbox_t) (k : kernel) : kernel :=
  Kernel (node k) (threads k) (currp k) (sem_cnt k) (<[mbp := m]> (mbox k)) (armed k) (cont k) (tref k).
Definition set_armed (p : Z) (b : bool) (k : kernel) : kernel :=
  Kernel (node k) (threads k) (currp k) (sem_cnt k) (mbox k) (<[p := b]> (armed k)) (cont k) (tref k).
Definition set_cont (p : Z) (r : option resume) (k : kernel) : kernel :=
  Kernel (node k) (threads k) (currp k) (sem_cnt k) (mbox k) (armed k) (<[p := r]> (cont k)) (tref k).

Definition set_tref (p v : Z) (k : kernel) : kernel :=
  Kernel (node k) (threads k) (currp k) (sem_cnt k) (mbox k) (armed k) (cont k) (<[p := v]> (tref k)).

Definition nxt (p : Z) (k : kernel) : Z := q_next (node k p).
Definition prv (p : Z) (k : kernel) : Z := q_prev (node k p).
Definition prio_of (p : Z) (k : kernel) : Z := prio (node k p).
Definition state_of (p : Z) (k : kernel) : tstate_t := state (node k p).
Definition u_of (p : Z) (k : kernel) : Z := u (node k p).

(** The address of [ch.rlist]. *)
Definition RLIST : Z := 1.

(** ** Queues *)

Definition queue_init (tqp : Z) (k : kernel) : kernel :=
  upd tqp (set_q_prev tqp) (upd tqp (set_q_next tqp) k).

Definition queue_notempty (tqp : Z) (k : kernel) : bool := negb (nxt tqp k =? tqp).

(** Linking [tp] in before [cp]. *)
Definition link_before (tp cp : Z) (k : kernel) : kernel :=
  let k := upd tp (set_q_next cp) k in
  let k := upd tp (set_q_prev (prv cp k)) k in
  let k := upd (prv tp k) (set_q_next tp) k in
  upd cp (set_q_prev tp) k.

Definition queue_insert (tp tqp : Z) (k : kernel) : kernel :=
  let k := upd tp (set_q_next tqp) k in
  let k := upd tp (set_q_prev (prv tqp k)) k in
  let k := upd (prv tp k) (set_q_next tp) k in
  upd tqp (set_q_prev tp) k.

Definition queue_fifo_remove (tqp : Z) (k : kernel) : Z * kernel :=
  let tp := nxt tqp k in
  let k := upd tqp (set_q_next (nxt tp k)) k in
  let k := upd (nxt tqp k) (set_q_prev tqp) k in
  (tp, k).

Definition queue_lifo_remove (tqp : Z) (k : kernel) : Z * kernel :=
  let tp := prv tqp k in
  let k := upd tqp (set_q_prev (prv tp k)) k in
  let k := upd (prv tqp k) (set_q_next tqp) k in
  (tp, k).

Definition queue_dequeue (tp : Z) (k : kernel) : kernel :=
  let k := upd (prv tp k) (set_q_next (nxt tp k)) k in
  upd (nxt tp k) (set_q_prev (prv tp k)) k.

(** ** The ready list *)

Definition _scheduler_init (k : kernel) : kernel := upd RLIST (set_prio NOPRIO) (queue_init RLIST k).

Definition firstprio (k : kernel) : Z := prio_of (nxt RLIST k) k.

(** The [do ... while] loop: the first node from [cp] on whose priority does not pass
    [stays].  One step per thread is enough. *)
Fixpoint ready_scan (fuel : nat) (stays : Z -> bool) (cp : Z) (k : kernel) : option Z :=
  let cp := nxt cp k in
  if stays (prio_of cp k) then
    match fuel with
    | O => None
    | S fuel => ready_scan fuel stays cp k
    end
  else Some cp.

Definition chSchReadyI (tp : Z) (k : kernel) : option kernel :=
  if bool_decide (state_of tp k = CH_STATE_READY) || bool_decide (state_of tp k = CH_STATE_FINAL) then None
  else
    let k := upd tp (set_state CH_STATE_READY) k in
    let? cp := ready_scan (length (threads k)) (fun p => prio_of tp k <=? p) RLIST k in
    Some (link_before tp cp k).

Definition chSchReadyAheadI (tp : Z) (k : kernel) : option kernel :=
  if bool_decide (state_of tp k = CH_STATE_READY) || bool_decide (state_of tp k = CH_STATE_FINAL) then None
  else
    let k := upd tp (set_state CH_STATE_READY) k in
    let? cp := ready_scan (length (threads k)) (fun p => prio_of tp k <? p) RLIST k in
    Some (link_before tp cp k).

(** ** Switching *)

(** The first ready thread becomes current. *)
Definition pick_next (k : kernel) : kernel :=
  let (tp, k) := queue_fifo_remove RLIST k in
  let k := set_currp tp k in
  upd tp (set_state CH_STATE_CURRENT) k.

(** The thread goes on with [r] when it runs again. *)
Definition chSchGoSleepS (newstate : tstate_t) (r : resume) (k : kernel) : kernel :=
  let otp := currp k in
  let k := set_cont otp (Some r) k in
  let k := upd otp (set_state newstate) k in
  pick_next k.

Definition chSchGoSleepTimeoutS (newstate : tstate_t) (timeout : Z) (a : after) (k : kernel) : option kernel :=
  if negb (timeout =? TIME_INFINITE) then
    if timeout =? TIME_IMMEDIATE then None
    else Some (chSchGoSleepS newstate (Resume true a) (set_armed (currp k) true k))
  else Some (chSchGoSleepS newstate (Resume false a) k).

Definition chSchWakeupS (ntp msg : Z) (k : kernel) : option kernel :=
  let otp := currp k in
  if queue_notempty RLIST k && (prio_of (currp k) k <? firstprio k) then None
  else
    let k := upd ntp (set_u msg) k in
    if prio_of ntp k <=? prio_of otp k then chSchReadyI ntp k
    else
      let? k := chSchReadyI otp k in
      let k := set_currp ntp k in
      Some (upd ntp (set_state CH_STATE_CURRENT) k).

Definition chSchDoRescheduleAhead (k : kernel) : option kernel :=
  let otp := currp k in chSchReadyAheadI otp (pick_next k).

Definition chSchDoRescheduleBehind (k : kernel) : option kernel :=
  let otp := currp k in chSchReadyI otp (pick_next k).

(** Without round robin the same as [chSchDoRescheduleAhead]. *)
Definition chSchDoReschedule (k : kernel) : option kernel :=
  let otp := currp k in chSchReadyAheadI otp (pick_next k).

Definition chSchIsRescRequiredI (k : kernel) : bool := prio_of (currp k) k <? firstprio k.

Definition chSchRescheduleS (k : kernel) : option kernel :=
  if chSchIsRescRequiredI k then chSchDoRescheduleAhead k else Some k.

Definition chSchIsPreemptionRequired (k : kernel) : bool := prio_of (currp k) k <? firstprio k.

Definition chSchCanYieldS (k : kernel) : bool := prio_of (currp k) k <=? firstprio k.

Definition chSchDoYieldS (k : kernel) : option kernel :=
  if chSchCanYieldS k then chSchDoRescheduleBehind k else Some k.

Definition chThdYield (k : kernel) : option kernel := chSchDoYieldS k.

(** The end of an interrupt handler that returns to a thread. *)
Definition _port_irq_epilogue (k : kernel) : option kernel :=
  if chSchIsPreemptionRequired k then chSchDoReschedule k else Some k.

(** ** Timed sleep *)

Definition chSemFastSignalI (sp : Z) (k : kernel) : kernel := set_cnt sp (s32 (sem_cnt k sp + 1)) k.

(** The callback of the timer of the sleep; a suspended thread waits through a
    reference, [u.wttrp], which no call modelled here sets. *)
Definition wakeup (tp : Z) (k : kernel) : option kernel :=
  let ready (k : kernel) := chSchReadyI tp (upd tp (set_u MSG_TIMEOUT) k) in
  match state_of tp k with
  | CH_STATE_READY => Some k
  | CH_STATE_SUSPENDED => ready (set_tref (u_of tp k) 0 k)
  | CH_STATE_WTSEM => ready (queue_dequeue tp (chSemFastSignalI (u_of tp k) k))
  | CH_STATE_QUEUED | CH_STATE_WTCOND => ready (queue_dequeue tp k)
  | _ => ready k
  end.

Definition chThdSleepS (ticks : Z) (k : kernel) : option kernel :=
  if ticks =? TIME_IMMEDIATE then None else chSchGoSleepTimeoutS CH_STATE_SLEEPING ticks ReturnMsg k.

(** ** Thread queues *)

Definition chThdQueueObjectInit (tqp : Z) (k : kernel) : kernel := queue_init tqp k.

(** Gives the message at once, or none when the thread sleeps. *)
Definition chThdEnqueueTimeoutS (tqp timeout : Z) (a : after) (k : kernel) : option (option Z * kernel) :=
  if timeout =? TIME_IMMEDIATE then Some (Some MSG_TIMEOUT, k)
  else
    let k := queue_insert (currp k) tqp k in
    let? k := chSchGoSleepTimeoutS CH_STATE_QUEUED timeout a k in
    Some (None, k).

Definition chThdDoDequeueNextI (tqp msg : Z) (k : kernel) : option kernel :=
  if negb (queue_notempty tqp k) then None
  else
    let (tp, k) := queue_fifo_remove tqp k in
    if decide (state_of tp k = CH_STATE_QUEUED) then chSchReadyI tp (upd tp (set_u msg) k)
    else None.

Definition chThdDequeueNextI (tqp msg : Z) (k : kernel) : option kernel :=
  if queue_notempty tqp k then chThdDoDequeueNextI tqp msg k else Some k.

Fixpoint chThdDequeueAllI (fuel : nat) (tqp msg : Z) (k : kernel) : option kernel :=
  if queue_notempty tqp k then
    match fuel with
    | O => None
    | S fuel => let? k := chThdDoDequeueNextI tqp msg k in chThdDequeueAllI fuel tqp msg k
    end
  else Some k.

(** ** Creating a thread *)

(** [tp] is the address of the thread in its working area. *)
Definition _thread_init (tp p : Z) (k : kernel) : kernel :=
  let k := upd tp (set_prio p) k in
  let k := upd tp (set_state CH_STATE_WTSTART) k in
  REG_INSERT tp k.

(** The set-up of the stack of the new thread is left out. *)
Definition chThdCreateStatic (tp p : Z) (k : kernel) : option kernel :=
  if HIGHPRIO <? p then None
  else if bool_decide (tp ∈ threads k) then None
  else chSchWakeupS tp MSG_OK (_thread_init tp p k).

(** From a descriptor. *)
Definition chThdCreateSuspendedI (tp p : Z) (k : kernel) : option kernel :=
  if HIGHPRIO <? p then None else Some (_thread_init tp p k).

Definition chThdCreate (tp p : Z) (k : kernel) : option kernel :=
  if bool_decide (tp ∈ threads k) then None
  else
    let? k := chThdCreateSuspendedI tp p k in
    chSchWakeupS tp MSG_OK k.

(** No mutex raises the priority of a thread here, so [realprio] is [prio]. *)
Definition chThdSetPriority (newprio : Z) (k : kernel) : option (Z * kernel) :=
  if HIGHPRIO <? newprio then None
  else
    let oldprio := prio_of (currp k) k in
    let? k := chSchRescheduleS (upd (currp k) (set_prio newprio) k) in
    Some (oldprio, k).
