(* ===== verification/ChSync.v ===== *)
(** * Semaphores and mailboxes: [os/rt/src/chsem.c], [os/common/oslib/src/chmboxes.c]

    The operations under the system lock.  The result of a call is the message it
    returns and the value it fetches, or none when the thread goes to sleep; a
    sleeping thread gets its result when it runs again ([chSchResume]). *)

From Stdlib Require Import ZArith Lia.
From stdpp Require Import base list option numbers functions.
From S2P Require Import Prelude ChTime ChSched.
Import OptionNotations.

Local Open Scope Z_scope.

Definition outcome : Type := option (Z * Z) * kernel.

Definition returns (msg : Z) (k : kernel) : option outcome := Some (Some (msg, 0), k).
Definition sleeps (k : option kernel) : option outcome := let? k := k in Some (None, k).

(** ** Semaphores *)

(** The assertion every operation begins with. *)
Definition sem_consistent (sp : Z) (k : kernel) : bool :=
  ((0 <=? sem_cnt k sp) && negb (queue_notempty sp k)) || ((sem_cnt k sp <? 0) && queue_notempty sp k).

Definition chSemObjectInit (sp n : Z) (k : kernel) : option kernel :=
  if n <? 0 then None else Some (set_cnt sp n (queue_init sp k)).

(** [++sp->cnt] and [--sp->cnt]. *)
Definition cnt_inc (sp : Z) (k : kernel) : kernel := set_cnt sp (s32 (sem_cnt k sp + 1)) k.
Definition cnt_dec (sp : Z) (k : kernel) : kernel := set_cnt sp (s32 (sem_cnt k sp - 1)) k.

(** One round per waiting thread. *)
Fixpoint reset_loop (n : nat) (sp : Z) (k : kernel) : option kernel :=
  match n with
  | O => Some k
  | S n =>
      let (tp, k) := queue_lifo_remove sp k in
      let? k := chSchReadyI tp k in
      reset_loop n sp (upd tp (set_u MSG_RESET) k)
  end.

Definition chSemResetI (sp n : Z) (k : kernel) : option kernel :=
  if n <? 0 then None
  else if negb (sem_consistent sp k) then None
  else
    let cnt := sem_cnt k sp in
    reset_loop (Z.to_nat (- cnt)) sp (set_cnt sp n k).

Definition chSemReset (sp n : Z) (k : kernel) : option kernel :=
  let? k := chSemResetI sp n k in chSchRescheduleS k.

Definition chSemWaitS (sp : Z) (k : kernel) : option outcome :=
  if negb (sem_consistent sp k) then None
  else
    let k := cnt_dec sp k in
    if sem_cnt k sp <? 0 then
      let k := upd (currp k) (set_u sp) k in
      let k := queue_insert (currp k) sp k in
      sleeps (Some (chSchGoSleepS CH_STATE_WTSEM (Resume false ReturnMsg) k))
    else returns MSG_OK k.

Definition chSemWaitTimeoutS (sp timeout : Z) (k : kernel) : option outcome :=
  if negb (sem_consistent sp k) then None
  else
    let k := cnt_dec sp k in
    if sem_cnt k sp <? 0 then
      if timeout =? TIME_IMMEDIATE then returns MSG_TIMEOUT (cnt_inc sp k)
      else
        let k := upd (currp k) (set_u sp) k in
        let k := queue_insert (currp k) sp k in
        sleeps (chSchGoSleepTimeoutS CH_STATE_WTSEM timeout ReturnMsg k)
    else returns MSG_OK k.

Definition chSemSignal (sp : Z) (k : kernel) : option kernel :=
  if negb (sem_consistent sp k) then None
  else
    let k := cnt_inc sp k in
    if sem_cnt k sp <=? 0 then
      let (tp, k) := queue_fifo_remove sp k in chSchWakeupS tp MSG_OK k
    else Some k.

Definition chSemSignalI (sp : Z) (k : kernel) : option kernel :=
  if negb (sem_consistent sp k) then None
  else
    let k := cnt_inc sp k in
    if sem_cnt k sp <=? 0 then
      let (tp, k) := queue_fifo_remove sp k in chSchReadyI tp (upd tp (set_u MSG_OK) k)
    else Some k.

(** ** Mailboxes

    The two queues follow the other fields of the structure. *)

Definition qw (mbp : Z) : Z := mbp + 24.
Definition qr (mbp : Z) : Z := mbp + 32.

Definition set_mb (b : list Z) (r w n : nat) (m : mailbox_t) : mailbox_t := Mailbox b r w n (mb_reset m).
Definition set_reset (v : bool) (m : mailbox_t) : mailbox_t := Mailbox (buffer m) (rdptr m) (wrptr m) (mb_cnt m) v.

(** [buf] is the buffer that is passed. *)
Definition chMBObjectInit (mbp : Z) (buf : list Z) (k : kernel) : option kernel :=
  if (length buf =? 0)%nat then None
  else
    let k := set_mbox mbp (Mailbox buf 0 0 0 false) k in
    Some (chThdQueueObjectInit (qr mbp) (chThdQueueObjectInit (qw mbp) k)).

Definition chMBGetUsedCountI (m : mailbox_t) : nat := mb_cnt m.
Definition chMBGetSizeI (m : mailbox_t) : nat := length (buffer m).
Definition chMBGetFreeCountI (m : mailbox_t) : nat := chMBGetSizeI m - chMBGetUsedCountI m.

Definition chMBResetI (mbp : Z) (k : kernel) : option kernel :=
  let m := mbox k mbp in
  let k := set_mbox mbp (Mailbox (buffer m) 0 0 0 true) k in
  let? k := chThdDequeueAllI (length (threads k)) (qw mbp) MSG_RESET k in
  chThdDequeueAllI (length (threads k)) (qr mbp) MSG_RESET k.

Definition chMBReset (mbp : Z) (k : kernel) : option kernel :=
  let? k := chMBResetI mbp k in chSchRescheduleS k.

Definition chMBResumeX (mbp : Z) (k : kernel) : kernel := set_mbox mbp (set_reset false (mbox k mbp)) k.

(** Writing at [wrptr], writing before [rdptr] and reading at [rdptr]; [None] outside
    of the buffer. *)
Definition mb_put (msg : Z) (m : mailbox_t) : option mailbox_t :=
  if (length (buffer m) <=? wrptr m)%nat then None
  else
    let b := <[wrptr m := msg]> (buffer m) in
    let w := S (wrptr m) in
    let w := if (length b <=? w)%nat then 0%nat else w in
    Some (set_mb b (rdptr m) w (S (mb_cnt m)) m).

Definition mb_put_ahead (msg : Z) (m : mailbox_t) : option mailbox_t :=
  let r := match rdptr m with O => (length (buffer m) - 1)%nat | S r => r end in
  if (length (buffer m) <=? r)%nat then None
  else Some (set_mb (<[r := msg]> (buffer m)) r (wrptr m) (S (mb_cnt m)) m).

Definition mb_get (m : mailbox_t) : option (Z * mailbox_t) :=
  let? msg := buffer m !! rdptr m in
  let r := S (rdptr m) in
  let r := if (length (buffer m) <=? r)%nat then 0%nat else r in
  Some (msg, set_mb (buffer m) r (wrptr m) (mb_cnt m - 1) m).

(** One round of the loop; the next one, after a sleep that returns [MSG_OK], is the
    continuation. *)
Definition mb_sleep (tqp timeout : Z) (a : after) (k : kernel) : option outcome :=
  let? (rdymsg, k) := chThdEnqueueTimeoutS tqp timeout a k in
  Some ((fun msg => (msg, 0)) <$> rdymsg, k).

Definition chMBPostTimeoutS (mbp msg timeout : Z) (k : kernel) : option outcome :=
  if mb_reset (mbox k mbp) then returns MSG_RESET k
  else if (0 <? chMBGetFreeCountI (mbox k mbp))%nat then
    let? m := mb_put msg (mbox k mbp) in
    let? k := chThdDequeueNextI (qr mbp) MSG_OK (set_mbox mbp m k) in
    let? k := chSchRescheduleS k in
    returns MSG_OK k
  else mb_sleep (qw mbp) timeout (PostAgain mbp msg timeout) k.

Definition chMBPostI (mbp msg : Z) (k : kernel) : option (Z * kernel) :=
  if mb_reset (mbox k mbp) then Some (MSG_RESET, k)
  else if (0 <? chMBGetFreeCountI (mbox k mbp))%nat then
    let? m := mb_put msg (mbox k mbp) in
    let? k := chThdDequeueNextI (qr mbp) MSG_OK (set_mbox mbp m k) in
    Some (MSG_OK, k)
  else Some (MSG_TIMEOUT, k).

Definition chMBPostAheadTimeoutS (mbp msg timeout : Z) (k : kernel) : option outcome :=
  if mb_reset (mbox k mbp) then returns MSG_RESET k
  else if (0 <? chMBGetFreeCountI (mbox k mbp))%nat then
    let? m := mb_put_ahead msg (mbox k mbp) in
    let? k := chThdDequeueNextI (qr mbp) MSG_OK (set_mbox mbp m k) in
    let? k := chSchRescheduleS k in
    returns MSG_OK k
  else mb_sleep (qw mbp) timeout (PostAheadAgain mbp msg timeout) k.

Definition chMBPostAheadI (mbp msg : Z) (k : kernel) : option (Z * kernel) :=
  if mb_reset (mbox k mbp) then Some (MSG_RESET, k)
  else if (0 <? chMBGetFreeCountI (mbox k mbp))%nat then
    let? m := mb_put_ahead msg (mbox k mbp) in
    let? k := chThdDequeueNextI (qr mbp) MSG_OK (set_mbox mbp m k) in
    Some (MSG_OK, k)
  else Some (MSG_TIMEOUT, k).

Definition chMBFetchTimeoutS (mbp timeout : Z) (k : kernel) : option outcome :=
  if mb_reset (mbox k mbp) then returns MSG_RESET k
  else if (0 <? chMBGetUsedCountI (mbox k mbp))%nat then
    let? (msg, m) := mb_get (mbox k mbp) in
    let? k := chThdDequeueNextI (qw mbp) MSG_OK (set_mbox mbp m k) in
    let? k := chSchRescheduleS k in
    Some (Some (MSG_OK, msg), k)
  else mb_sleep (qr mbp) timeout (FetchAgain mbp timeout) k.

Definition chMBFetchI (mbp : Z) (k : kernel) : option (Z * Z * kernel) :=
  if mb_reset (mbox k mbp) then Some (MSG_RESET, 0, k)
  else if (0 <? chMBGetUsedCountI (mbox k mbp))%nat then
    let? (msg, m) := mb_get (mbox k mbp) in
    let? k := chThdDequeueNextI (qw mbp) MSG_OK (set_mbox mbp m k) in
    Some (MSG_OK, msg, k)
  else Some (MSG_TIMEOUT, 0, k).

(** ** Running again after a sleep *)

(** The rest of [chSchGoSleepTimeoutS] and of the function that called it. *)
Definition chSchResume (r : resume) (k : kernel) : option outcome :=
  let tp := currp k in
  let k := set_cont tp None k in
  let k := if timed r && armed k tp then set_armed tp false k else k in
  let rdymsg := u_of tp k in
  match r_after r with
  | ReturnMsg => returns rdymsg k
  | PostAgain mbp msg timeout => if rdymsg =? MSG_OK then chMBPostTimeoutS mbp msg timeout k else returns rdymsg k
  | PostAheadAgain mbp msg timeout => if rdymsg =? MSG_OK then chMBPostAheadTimeoutS mbp msg timeout k else returns rdymsg k
  | FetchAgain mbp timeout => if rdymsg =? MSG_OK then chMBFetchTimeoutS mbp timeout k else returns rdymsg k
  end.
