(* ===== verification/ChKernelInv.v ===== *)
(** * The queues of the kernel as lists

    A queue is a ring of nodes through its header.  This file has what linking
    and unlinking a node does to one ring and to all of them. *)

From Stdlib Require Import ZArith Lia.
From stdpp Require Import base gmap list option numbers functions sorting.
From S2P Require Import Prelude ChTime ChSched.
From stdpp Require Import sets list.
Import OptionNotations.

Local Open Scope Z_scope.

(** ** Updates of nodes *)

Lemma knode_upd p g k q : node (upd p g k) q = if decide (q = p) then g (node k p) else node k q.
Proof.
  unfold upd. cbn [node]. destruct (decide (q = p)) as [->|Hne].
  - by rewrite fn_lookup_insert.
  - by rewrite fn_lookup_insert_ne by auto.
Qed.

Ltac knode :=
  unfold nxt, prv, prio_of, state_of, u_of in *; rewrite ?knode_upd;
  repeat (case_decide; subst; cbn [q_next q_prev prio state u set_q_next set_q_prev set_prio set_state set_u] in *;
          rewrite ?knode_upd; try done; try congruence).

(** ** Segments *)

Fixpoint qseg (k : kernel) (x : Z) (l : list Z) (y : Z) : Prop :=
  match l with
  | [] => nxt x k = y /\ prv y k = x
  | z :: l => nxt x k = z /\ prv z k = x /\ qseg k z l y
  end.

Lemma qseg_app k x l1 z l2 y : qseg k x (l1 ++ z :: l2) y <-> qseg k x l1 z /\ qseg k z l2 y.
Proof. revert x. induction l1 as [|a l1 IH]; intros x; cbn [app qseg]; [tauto|]. rewrite IH. tauto. Qed.

(** A segment depends on the successors of its nodes and the predecessors of those
    after the first. *)
Lemma qseg_frame k k' x l y :
  qseg k x l y -> (forall z, z ∈ x :: l -> nxt z k' = nxt z k) -> (forall z, z ∈ l ++ [y] -> prv z k' = prv z k) -> qseg k' x l y.
Proof.
  revert x. induction l as [|a l IH]; intros x Hs Hn Hp; cbn [qseg app] in *.
  - rewrite Hn, Hp by set_solver. done.
  - destruct Hs as (H1 & H2 & H3). rewrite Hn, Hp by set_solver. split; [done|]. split; [done|].
    apply IH; [done| |]; intros z Hz; [apply Hn|apply Hp]; set_solver.
Qed.

(** The ends of a segment with its last step taken off. *)
Lemma qseg_snoc k x l y : qseg k x l y -> exists l', x :: l = l' ++ [prv y k] /\ nxt (prv y k) k = y.
Proof.
  revert x. induction l as [|a l IH]; intros x Hs; cbn [qseg] in Hs.
  - destruct Hs as [E1 E2]. rewrite E2. exists []. done.
  - destruct Hs as (_ & _ & Hs). destruct (IH a Hs) as (l' & E & Hn). exists (x :: l'). by rewrite E.
Qed.

(** The end of a segment is moved from [t] to [c]. *)
Lemma qseg_retarget k k' x l t c : qseg k x l t -> NoDup (x :: l) -> c ∉ l ->
  (forall z, z ∈ x :: l -> nxt z k' = if decide (z = prv t k) then c else nxt z k) ->
  (forall z, z ∈ l ++ [c] -> prv z k' = if decide (z = c) then prv t k else prv z k) -> qseg k' x l c.
Proof.
  intros Hs Hnd Hc Hn Hp. destruct (qseg_snoc _ _ _ _ Hs) as (l' & El & _).
  revert x l' Hs Hnd El Hn. induction l as [|a l IH]; intros x l' Hs Hnd El Hn; cbn [qseg] in *.
  - assert (prv t k = x) as E by (destruct l' as [|? []]; by injection El). rewrite Hn, Hp, E by (by left). by rewrite !decide_True.
  - destruct l' as [|x' l']; [discriminate El|]. injection El as <- El. destruct Hs as (E1 & E2 & E3).
    apply NoDup_cons in Hnd as [Hx Hnd]. assert (prv t k ∈ a :: l) as Hpt by (rewrite El; apply elem_of_app; right; by left).
    apply not_elem_of_cons in Hc as [Hca Hc]. rewrite Hn, Hp by (by left). rewrite decide_False by (by intros ->). split; [done|].
    rewrite decide_False by done. split; [done|]. apply (IH Hc) with (l' := l'); try done.
    + intros z Hz. apply Hp. by right.
    + intros z Hz. apply Hn. by right.
Qed.

Definition ring (k : kernel) (hd : Z) (l : list Z) : Prop := qseg k hd l hd.

(** What linking and unlinking leave alone. *)
Definition relinked (k k' : kernel) : Prop :=
  (forall p, prio_of p k' = prio_of p k) /\ (forall p, state_of p k' = state_of p k) /\ (forall p, u_of p k' = u_of p k) /\
  threads k' = threads k /\ currp k' = currp k /\ sem_cnt k' = sem_cnt k /\ mbox k' = mbox k /\ armed k' = armed k /\ cont k' = cont k.

(** ** Linking *)

Lemma link_before_links tp cp k : tp <> cp -> tp <> prv cp k ->
  (forall z, nxt z (link_before tp cp k) = if decide (z = prv cp k) then tp else if decide (z = tp) then cp else nxt z k) /\
  (forall z, prv z (link_before tp cp k) = if decide (z = cp) then tp else if decide (z = tp) then prv cp k else prv z k).
Proof.
  intros H1 H2. unfold link_before. split; intros z; knode.
Qed.

Lemma link_before_relinked tp cp k : relinked k (link_before tp cp k).
Proof. unfold link_before, relinked. split; [|split; [|split]]; [intros p; knode..|done]. Qed.

(** Linking [tp] in between two parts of a ring. *)
Lemma ring_link tp k hd l1 l2 cp :
  ring k hd (l1 ++ l2) -> NoDup (hd :: l1 ++ l2) -> tp ∉ hd :: l1 ++ l2 -> cp = default hd (head l2) ->
  ring (link_before tp cp k) hd (l1 ++ tp :: l2).
Proof.
  intros Hr Hnd Htp ->. unfold ring in *. set (cp := default hd (head l2)).
  assert (Hs : qseg k hd l1 cp /\ (forall z, z ∈ tail l2 -> z <> cp) /\ qseg k hd (l1 ++ l2) hd).
  { destruct l2 as [|c l2]; cbn [head default] in cp; subst cp.
    - rewrite app_nil_r in *. split; [done|]. set_solver.
    - apply qseg_app in Hr as [Hr1 Hr2]. split; [done|]. split; [|by apply qseg_app]. intros z Hz ->.
      apply NoDup_cons in Hnd as [_ Hnd]. apply NoDup_app in Hnd as (_ & _ & Hnd). apply NoDup_cons in Hnd as [Hnd _]. done. }
  destruct Hs as (Hs & _ & _). destruct (qseg_snoc _ _ _ _ Hs) as (l' & El & Hn).
  assert (Hcp : cp ∈ hd :: l1 ++ l2) by (subst cp; destruct l2; cbn; set_solver).
  assert (Hpc : prv cp k ∈ hd :: l1) by (rewrite El; set_solver).
  destruct (link_before_links tp cp k) as [Hnx Hpv]; [set_solver|set_solver|].
  apply qseg_app. split.
  - (* the nodes before *)
    apply (qseg_retarget k _ _ _ cp); [done|by apply (NoDup_app (hd :: l1) l2) in Hnd as (? & _)| | |].
    + intros ?. apply Htp. right. apply elem_of_app. by left.
    + intros z Hz. rewrite Hnx. destruct (decide (z = prv cp k)); [done|]. rewrite decide_False; [done|]. intros ->. apply Htp.
      apply elem_of_cons in Hz as [->|?]; [by left|right; apply elem_of_app; by left].
    + intros z Hz. rewrite Hpv. apply elem_of_app in Hz as [Hz|Hz%list_elem_of_singleton].
      * assert (z <> tp) by (intros ->; apply Htp; right; apply elem_of_app; by left).
        rewrite (decide_False (P := z = tp)) by done. rewrite decide_False; [done|]. intros ->. subst cp. destruct l2 as [|c l2]; cbn [head default] in Hz.
        -- rewrite app_nil_r in Hnd. by apply NoDup_cons in Hnd as [? _].
        -- apply NoDup_cons in Hnd as [_ Hnd]. apply NoDup_app in Hnd as (_ & Hd & _). apply (Hd c Hz). by left.
      * subst z. rewrite decide_False by (intros ->; by apply Htp). by rewrite !decide_True.
  - (* the node and those after *)
    apply (NoDup_app (hd :: l1) l2) in Hnd as (Hnd1 & Hd & Hnd2).
    assert (Htn : tp <> prv cp k) by (intros ->; apply Htp, elem_of_cons; apply elem_of_cons in Hpc as [?|?]; [by left|right; apply elem_of_app; by left]).
    destruct l2 as [|c l2]; cbn [head default] in cp; subst cp; cbn [qseg].
    + rewrite Hnx, Hpv. rewrite decide_False by done. rewrite !decide_True by done. done.
    + apply qseg_app in Hr as [_ Hr]. apply NoDup_cons in Hnd2 as [Hc Hnd2].
      rewrite Hnx, Hpv. rewrite decide_False by done. rewrite !decide_True by done. split; [done|]. split; [done|].
      assert (Hhc : hd ∉ c :: l2) by (apply Hd; by left). assert (Htl : tp ∉ c :: l2) by (intros ?; apply Htp; right; apply elem_of_app; by right).
      apply (qseg_frame k); [done| |].
      * intros z Hz. rewrite Hnx. rewrite decide_False by (intros ->; by apply (Hd _ Hpc)).
        rewrite decide_False by (by intros ->). done.
      * intros z Hz. apply elem_of_app in Hz as [Hz|Hz%list_elem_of_singleton]; rewrite Hpv.
        -- rewrite decide_False by (by intros ->). rewrite decide_False by (intros ->; apply Htl; by right). done.
        -- subst z. rewrite decide_False by (intros ->; apply Hhc; by left). rewrite decide_False by (intros ->; apply Htp; by left). done.
Qed.

(** ** Unlinking *)

Definition unlinked (tp : Z) (k k' : kernel) : Prop :=
  relinked k k' /\ (forall z, nxt z k' = if decide (z = prv tp k) then nxt tp k else nxt z k) /\
  (forall z, prv z k' = if decide (z = nxt tp k) then prv tp k else prv z k).

Lemma dequeue_unlinked tp k : nxt tp k <> tp -> prv tp k <> tp -> unlinked tp k (queue_dequeue tp k).
Proof.
  intros H1 H2. unfold queue_dequeue. split; [|split; intros z; knode].
  unfold relinked. split; [|split; [|split]]; [intros p; knode..|done].
Qed.

Lemma ring_unlink tp k k' hd l1 l2 :
  ring k hd (l1 ++ tp :: l2) -> NoDup (hd :: l1 ++ tp :: l2) -> unlinked tp k k' -> ring k' hd (l1 ++ l2).
Proof.
  intros Hr Hnd (_ & Hnx & Hpv). unfold ring in *. apply qseg_app in Hr as [Hr1 Hr2].
  apply (NoDup_app (hd :: l1) (tp :: l2)) in Hnd as (Hnd1 & Hd & Hnd2). apply NoDup_cons in Hnd2 as [Ht Hnd2].
  destruct (qseg_snoc _ _ _ _ Hr1) as (l' & El & Hn).
  assert (Hp : prv tp k ∈ hd :: l1) by (rewrite El; set_solver).
  assert (Hx : nxt tp k ∈ l2 ++ [hd]) by (destruct l2; cbn [qseg] in Hr2; set_solver).
  assert (Hhd : hd ∉ tp :: l2) by (apply Hd; set_solver). assert (Htp : tp ∉ hd :: l1) by (intros ?; apply (Hd tp); set_solver).
  destruct l2 as [|c l2].
  - rewrite app_nil_r. cbn [qseg] in Hr2. destruct Hr2 as [E1 E2]. rewrite E1 in Hnx, Hpv.
    apply (qseg_retarget k _ _ _ tp); [done|done|by apply NoDup_cons in Hnd1 as [? _]|done|done].
  - cbn [qseg] in Hr2. destruct Hr2 as (E1 & E2 & E3). apply qseg_app. apply NoDup_cons in Hnd2 as [Hc Hnd2]. split.
    + rewrite E1 in Hnx, Hpv. apply (qseg_retarget k _ _ _ tp); [done|done| |done|done].
      intros ?. apply (Hd c); [by right|]. right. by left.
    + apply (qseg_frame k); [done| |]; intros z Hz; [rewrite Hnx|rewrite Hpv]; rewrite decide_False; try done.
      * intros ->. apply (Hd _ Hp). by right.
      * rewrite E1. intros ->. apply elem_of_app in Hz as [Hz|Hz%list_elem_of_singleton]; [done|]. subst hd. apply Hhd. right. by left.
Qed.

(** The header and the ends. *)
Lemma ring_first k hd l : ring k hd l -> nxt hd k = default hd (head l).
Proof. unfold ring. destruct l; cbn; tauto. Qed.

Lemma ring_last k hd l t : ring k hd (l ++ [t]) -> prv hd k = t /\ prv t k = default hd (last l) /\ nxt t k = hd.
Proof.
  unfold ring. rewrite (qseg_app k hd l t []). cbn [qseg]. intros (Hs & E1 & E2). split; [done|]. split; [|done].
  destruct (qseg_snoc _ _ _ _ Hs) as (l' & El & _). destruct l as [|x l] using rev_ind; [destruct l'; [by injection El|destruct l'; discriminate El]|].
  rewrite app_comm_cons in El. apply app_inj_tail in El as [_ <-]. by rewrite last_snoc.
Qed.

Lemma ring_middle k hd l1 t l2 : ring k hd (l1 ++ t :: l2) -> nxt t k = default hd (head l2) /\ prv t k = default hd (last l1).
Proof.
  unfold ring. rewrite qseg_app. intros [H1 H2]. split; [destruct l2; cbn in *; tauto|].
  destruct (qseg_snoc _ _ _ _ H1) as (l' & El & _). destruct l1 as [|x l1 _] using rev_ind; [destruct l'; [by injection El|destruct l'; discriminate El]|].
  rewrite app_comm_cons in El. apply app_inj_tail in El as [_ <-]. by rewrite last_snoc.
Qed.

Lemma notempty_ring k hd l : ring k hd l -> hd ∉ l -> queue_notempty hd k = match l with [] => false | _ => true end.
Proof.
  intros Hr Hn. unfold queue_notempty. rewrite (ring_first _ _ _ Hr). destruct l as [|x l]; cbn [head default].
  - by rewrite Z.eqb_refl.
  - rewrite (proj2 (Z.eqb_neq _ _)); [done|]. set_solver.
Qed.

(** Removing the first or the last node. *)
Lemma fifo_remove_ring k hd t l : ring k hd (t :: l) -> t <> hd ->
  exists k', queue_fifo_remove hd k = (t, k') /\ unlinked t k k'.
Proof.
  intros Hr Hne. pose proof (ring_first _ _ _ Hr) as E. cbn [head default] in E.
  destruct (ring_middle k hd [] t l Hr) as [_ Ep]. cbn in Ep. unfold queue_fifo_remove. cbv zeta. rewrite E.
  eexists. split; [done|]. split; [unfold relinked; split; [|split; [|split]]; [intros p; knode..|done]|].
  rewrite Ep. split; intros z; knode.
Qed.

Lemma lifo_remove_ring k hd t l : ring k hd (l ++ [t]) -> t <> hd ->
  exists k', queue_lifo_remove hd k = (t, k') /\ unlinked t k k'.
Proof.
  intros Hr Hne. destruct (ring_last _ _ _ _ Hr) as (E & Ep & En). unfold queue_lifo_remove. cbv zeta. rewrite E.
  eexists. split; [done|]. split; [unfold relinked; split; [|split; [|split]]; [intros p; knode..|done]|].
  rewrite En. split; intros z; knode.
Qed.

(** A node of a ring is not its own neighbour. *)
Lemma ring_neighbours k hd l t : ring k hd l -> NoDup (hd :: l) -> t ∈ l -> nxt t k <> t /\ prv t k <> t.
Proof.
  intros Hr Hnd (l1 & l2 & ->)%list_elem_of_split. destruct (ring_middle _ _ _ _ _ Hr) as [-> ->].
  apply NoDup_cons in Hnd as [Hh Hnd]. apply NoDup_app in Hnd as (_ & Hd & Hnd). apply NoDup_cons in Hnd as [Ht _].
  assert (hd <> t) by (intros ->; apply Hh, elem_of_app; right; by left). split.
  - destruct l2 as [|c l2]; cbn [head default]; [done|]. intros E. cbv [id] in E. subst c. apply Ht. by left.
  - destruct l1 as [|c l1 _] using rev_ind; [done|]. rewrite last_snoc. change (default hd (Some c)) with c. intros E. cbv [id] in E. subst c.
    apply (Hd t); [apply elem_of_app; right; by left|by left].
Qed.

(** * The invariant of the kernel

    Which thread is in which queue, and in what state; with the lemmas the
    operations are composed of: threads leave and enter queues, become ready,
    and the first ready thread becomes current. *)

(** ** Queues *)

Inductive qkind := QReady | QSem | QWait.

(** The queues by their headers. *)
Abbreviation queues := (gmap Z (qkind * list Z)).

Definition rings (k : kernel) (Q : queues) : Prop :=
  (forall hd kd l, Q !! hd = Some (kd, l) -> ring k hd l /\ NoDup (hd :: l)) /\
  (forall h1 k1 l1 h2 k2 l2 x, Q !! h1 = Some (k1, l1) -> Q !! h2 = Some (k2, l2) -> h1 <> h2 -> x ∈ h1 :: l1 -> x ∉ h2 :: l2).

Definition unqueued (Q : queues) (t : Z) : Prop := forall hd kd l, Q !! hd = Some (kd, l) -> t ∉ hd :: l.

Lemma ring_frame k k' hd l : ring k hd l -> (forall z, z ∈ hd :: l -> nxt z k' = nxt z k /\ prv z k' = prv z k) -> ring k' hd l.
Proof.
  intros Hr Hz. unfold ring. apply (qseg_frame k); [done| |]; intros z Hin; apply Hz; [done|].
  apply elem_of_app in Hin as [?|Hin%list_elem_of_singleton]; [by right|]. subst z. by left.
Qed.

Lemma rings_same k k' Q : rings k Q -> (forall z, nxt z k' = nxt z k /\ prv z k' = prv z k) -> rings k' Q.
Proof.
  intros [H1 H2] Hz. split; [|done]. intros hd kd l Hl. destruct (H1 _ _ _ Hl) as [Hr Hn]. split; [|done]. by apply (ring_frame k).
Qed.

(** One ring changes; the others are untouched when the changed links are its own or
    those of a node [tp] outside of them. *)
Lemma rings_replace k k' Q hd kd l l' tp :
  rings k Q -> Q !! hd = Some (kd, l) -> ring k' hd l' -> NoDup (hd :: l') ->
  (forall x, x ∈ l' -> x = tp \/ x ∈ l) -> (forall h2 k2 l2, Q !! h2 = Some (k2, l2) -> h2 <> hd -> tp ∉ h2 :: l2) ->
  (forall z, z ∉ hd :: l -> z <> tp -> nxt z k' = nxt z k /\ prv z k' = prv z k) ->
  rings k' (<[hd := (kd, l')]> Q).
Proof.
  intros [H1 H2] Hl Hr Hnd Hsub Htp Hz. split.
  - intros h2 k2 l2 E. destruct (decide (h2 = hd)) as [->|Hne].
    + rewrite lookup_insert_eq in E. injection E as <- <-. done.
    + rewrite lookup_insert_ne in E by done. destruct (H1 _ _ _ E) as [Hr2 Hn2]. split; [|done].
      apply (ring_frame k); [done|]. intros z Hin. apply Hz; [|intros ->; by apply (Htp _ _ _ E Hne)]. by apply (H2 h2 k2 l2 hd kd l).
  - assert (Hcase : forall h2 k2 l2 x, Q !! h2 = Some (k2, l2) -> h2 <> hd -> x ∈ hd :: l' -> x ∉ h2 :: l2).
    { intros h2 k2 l2 x E Hne Hx. assert (x = tp \/ x ∈ hd :: l) as [->|Hx'].
      - apply elem_of_cons in Hx as [->|Hx]; [right; by left|]. destruct (Hsub _ Hx) as [->|?]; [by left|right; by right].
      - by apply (Htp _ _ _ E).
      - by apply (H2 hd kd l h2 k2 l2). }
    intros h1 k1 l1 h2 k2 l2 x E1 E2 Hne Hx. destruct (decide (h1 = hd)) as [->|Hn1].
    + rewrite lookup_insert_eq in E1. injection E1 as <- <-. rewrite lookup_insert_ne in E2 by done. by apply (Hcase _ k2).
    + rewrite lookup_insert_ne in E1 by done. destruct (decide (h2 = hd)) as [->|Hn2].
      * rewrite lookup_insert_eq in E2. injection E2 as <- <-. intros Hx2. by apply (Hcase h1 k1 l1 x).
      * rewrite lookup_insert_ne in E2 by done. by apply (H2 h1 k1 l1 h2 k2 l2).
Qed.

Lemma rings_link k Q hd kd l1 l2 tp cp :
  rings k Q -> Q !! hd = Some (kd, l1 ++ l2) -> unqueued Q tp -> cp = default hd (head l2) ->
  rings (link_before tp cp k) (<[hd := (kd, l1 ++ tp :: l2)]> Q).
Proof.
  intros Hrs Hl Htp Ecp. destruct (proj1 Hrs _ _ _ Hl) as [Hr Hnd]. pose proof (Htp _ _ _ Hl) as Ht.
  assert (Hcp : cp ∈ hd :: l1 ++ l2).
  { subst cp. destruct l2; cbn [head default]; [by left|]. right. apply elem_of_app. right. by left. }
  assert (Hpc : prv cp k ∈ hd :: l1 ++ l2).
  { subst cp. destruct l2 as [|c l2]; cbn [head default].
    - rewrite app_nil_r in *. destruct l1 as [|x l1 _] using rev_ind; [destruct Hr as [_ ->]; by left|].
      destruct (ring_last _ _ _ _ Hr) as (-> & _). right. apply elem_of_app. right. by left.
    - destruct (ring_middle _ _ _ _ _ Hr) as [_ Ep]. cbv [id]. rewrite Ep. destruct (last l1) as [y|] eqn:Ey; [|by left].
      apply last_Some in Ey as [l' ->]. right. apply elem_of_app. left. apply elem_of_app. right. by left. }
  assert (Hne : tp <> cp) by (by intros ->). assert (Hne' : tp <> prv cp k) by (by intros ->).
  destruct (link_before_links tp cp k Hne Hne') as [Hnx Hpv].
  apply (rings_replace k _ Q hd kd (l1 ++ l2) _ tp); [done|done|by apply ring_link| | | |].
  - rewrite app_comm_cons, <- Permutation_middle. by apply NoDup_cons.
  - intros x Hx. rewrite elem_of_app, elem_of_cons in Hx. rewrite elem_of_app. tauto.
  - intros h2 k2 l2' E _. by apply (Htp _ _ _ E).
  - intros z Hz Hzt. rewrite Hnx, Hpv. rewrite !decide_False; [done|done|by intros ->|done|by intros ->].
Qed.

Lemma rings_unlink k k' Q hd kd l1 l2 tp :
  rings k Q -> Q !! hd = Some (kd, l1 ++ tp :: l2) -> unlinked tp k k' -> rings k' (<[hd := (kd, l1 ++ l2)]> Q).
Proof.
  intros Hrs Hl Hu. destruct (proj1 Hrs _ _ _ Hl) as [Hr Hnd]. pose proof Hu as (_ & Hnx & Hpv).
  destruct (ring_middle _ _ _ _ _ Hr) as [En Ep].
  apply (rings_replace k _ Q hd kd (l1 ++ tp :: l2) _ tp); [done|done|by apply (ring_unlink tp k)| | | |].
  - rewrite app_comm_cons, <- Permutation_middle in Hnd. by apply NoDup_cons in Hnd as [_ Hnd].
  - intros x Hx. right. rewrite elem_of_app in Hx |- *. rewrite elem_of_cons. tauto.
  - intros h2 k2 l2' E Hne. eapply (proj2 Hrs hd); [done|done|done|]. right. apply elem_of_app. right. by left.
  - intros z Hz _. rewrite Hnx, Hpv. rewrite !decide_False; [done|..]; intros ->; apply Hz.
    + rewrite En. destruct l2; cbn [head default]; [by left|]. right. apply elem_of_app. right. right. by left.
    + rewrite Ep. destruct (last l1) as [y|] eqn:Ey; [|by left]. apply last_Some in Ey as [l' ->]. right.
      apply elem_of_app. left. apply elem_of_app. right. by left.
Qed.

(** ** The invariant *)

(** The threads [L] are in transit: nothing is said of their states.  [cur] is the
    running thread, if one is. *)
Definition in_state (k : kernel) (kd : qkind) (hd t : Z) : Prop :=
  match kd with
  | QReady => state_of t k = CH_STATE_READY
  | QSem => state_of t k = CH_STATE_WTSEM /\ u_of t k = hd
  | QWait => state_of t k = CH_STATE_QUEUED
  end.

Definition in_place (cur : option Z) (Q : queues) (k : kernel) (t : Z) : Prop :=
  match state_of t k with
  | CH_STATE_READY | CH_STATE_WTSEM | CH_STATE_QUEUED => exists hd kd l, Q !! hd = Some (kd, l) /\ t ∈ l
  | CH_STATE_CURRENT => cur = Some t
  | CH_STATE_SLEEPING => True
  | _ => False
  end.

Definition by_prio (k : kernel) (a b : Z) : Prop := prio_of b k <= prio_of a k.

Record kinv (cur : option Z) (L : list Z) (Q : queues) (k : kernel) : Prop := {
  ki_rings : rings k Q;
  ki_ready : exists R, Q !! RLIST = Some (QReady, R) /\ StronglySorted (by_prio k) R;
  ki_kinds : forall hd l, Q !! hd = Some (QReady, l) -> hd = RLIST;
  ki_members : forall hd kd l t, Q !! hd = Some (kd, l) -> t ∈ l -> t ∈ threads k;
  ki_headers : forall hd, is_Some (Q !! hd) -> hd ∉ threads k;
  ki_nodup : NoDup (threads k);
  ki_in_state : forall hd kd l t, Q !! hd = Some (kd, l) -> t ∈ l -> t ∉ L -> in_state k kd hd t;
  ki_in_place : forall t, t ∈ threads k -> t ∉ L -> in_place cur Q k t;
  ki_prio : forall t, t ∈ threads k -> IDLEPRIO <= prio_of t k;
  ki_noprio : prio_of RLIST k = NOPRIO;
  ki_cur : forall t, cur = Some t -> currp k = t /\ t ∈ threads k /\ t ∉ L /\ state_of t k = CH_STATE_CURRENT
}.

(** A change that does not concern the links, nor the threads that are settled. *)
Lemma kinv_change cur L Q k k' :
  kinv cur L Q k -> (forall z, nxt z k' = nxt z k /\ prv z k' = prv z k) -> (forall z, prio_of z k' = prio_of z k) ->
  (forall t, t ∈ threads k -> t ∉ L -> state_of t k' = state_of t k /\ u_of t k' = u_of t k) ->
  threads k' = threads k -> (forall t, cur = Some t -> currp k' = currp k) -> kinv cur L Q k'.
Proof.
  intros [H1 (R & H2 & Hs) H3 H4 H5 H6 H7 H8 H9 H10 H11] Hz Hp Hst Ht Hc. split; rewrite ?Ht; try done.
  - by apply (rings_same k).
  - exists R. split; [done|]. clear -Hs Hp. induction Hs as [|x R Hs IH Hf]; constructor; [done|].
    eapply Forall_impl; [exact Hf|]. intros y. unfold by_prio. by rewrite !Hp.
  - intros hd kd l t Hl Hin HL. specialize (H7 _ _ _ _ Hl Hin HL). destruct (Hst t (H4 _ _ _ _ Hl Hin) HL) as [E1 E2].
    unfold in_state. rewrite E1, E2. done.
  - intros t Hin HL. specialize (H8 t Hin HL). destruct (Hst t Hin HL) as [E1 _]. unfold in_place. by rewrite E1.
  - intros t Hin. rewrite Hp. by apply H9.
  - by rewrite Hp.
  - intros t E. destruct (H11 t E) as (F1 & F2 & F3 & F4). rewrite (Hc t E). destruct (Hst t F2 F3) as [-> _]. done.
Qed.

(** Only the links and the queue [hd] change, by the thread [tp] in transit. *)
Lemma kinv_relink cur L Q k k' hd kd l l' tp :
  kinv cur L Q k -> relinked k k' -> Q !! hd = Some (kd, l) -> rings k' (<[hd := (kd, l')]> Q) ->
  tp ∈ L -> tp ∈ threads k -> (forall x, x ∈ l' -> x = tp \/ x ∈ l) -> (forall x, x ∈ l -> x = tp \/ x ∈ l') ->
  (kd = QReady -> StronglySorted (by_prio k) l') -> kinv cur L (<[hd := (kd, l')]> Q) k'.
Proof.
  intros [H1 (R & H2 & Hs) H3 H4 H5 H6 H7 H8 H9 H10 H11] (Ep & Es & Eu & Et & Ec & _) Hl Hrs HtL Htt Hl1 Hl2 Hsort.
  assert (Hlk : forall h2 k2 l2, <[hd := (kd, l')]> Q !! h2 = Some (k2, l2) ->
    exists l0, Q !! h2 = Some (k2, l0) /\ forall x, x ∈ l2 -> x = tp \/ x ∈ l0).
  { intros h2 k2 l2 E. destruct (decide (h2 = hd)) as [->|Hne].
    - rewrite lookup_insert_eq in E. injection E as <- <-. eauto.
    - rewrite lookup_insert_ne in E by done. eauto. }
  assert (Hso : forall l0, StronglySorted (by_prio k) l0 -> StronglySorted (by_prio k') l0).
  { intros l0 Hs0. induction Hs0 as [|x l0 Hs0 IH Hf]; constructor; [done|]. eapply Forall_impl; [exact Hf|].
    intros y. unfold by_prio. by rewrite !Ep. }
  split; rewrite ?Et; try done.
  - destruct (decide (hd = RLIST)) as [->|Hne].
    + rewrite H2 in Hl. injection Hl as <- <-. exists l'. rewrite lookup_insert_eq. auto.
    + exists R. rewrite lookup_insert_ne by done. auto.
  - intros h2 l2 (l0 & E & _)%Hlk. by eapply H3.
  - intros h2 k2 l2 t (l0 & E & Hx)%Hlk Hin. destruct (Hx _ Hin) as [->|?]; [done|]. by eapply H4.
  - intros h2 [[k2 l2] (l0 & E & _)%Hlk]. apply H5. eauto.
  - intros h2 k2 l2 t (l0 & E & Hx)%Hlk Hin HL. destruct (Hx _ Hin) as [->|Hin']; [done|].
    specialize (H7 _ _ _ _ E Hin' HL). unfold in_state in *. by rewrite Es, Eu.
  - intros t Hin HL. specialize (H8 t Hin HL). unfold in_place in *. rewrite Es. destruct (state_of t k); try done.
    all: destruct H8 as (h2 & k2 & l2 & E & Hin'); destruct (decide (h2 = hd)) as [->|Hne];
      [rewrite Hl in E; injection E as <- <-; exists hd, kd, l'; rewrite lookup_insert_eq; split; [done|];
       by destruct (Hl2 _ Hin') as [->|?]
      |exists h2, k2, l2; by rewrite lookup_insert_ne].
  - intros t Hin. rewrite Ep. by apply H9.
  - by rewrite Ep.
  - intros t E. rewrite Ec, Es. by apply H11.
Qed.

(** Into transit and out of it. *)
Lemma kinv_loosen cur L Q k t : kinv cur L Q k -> kinv (if decide (cur = Some t) then None else cur) (t :: L) Q k.
Proof.
  intros [H1 H2 H3 H4 H5 H6 H7 H8 H9 H10 H11]. split; try done.
  - intros hd kd l x Hl Hin HL. apply (H7 _ _ _ _ Hl Hin). by intros ?; apply HL; right.
  - intros x Hin HL. apply not_elem_of_cons in HL as [Hx HL]. specialize (H8 x Hin HL). unfold in_place in *.
    destruct (state_of x k); try done. rewrite decide_False; [done|]. congruence.
  - intros x E. destruct (decide (cur = Some t)) as [->|Hne]; [done|]. destruct (H11 x E) as (F1 & F2 & F3 & F4).
    split; [done|]. split; [done|]. split; [|done]. apply not_elem_of_cons. split; [congruence|done].
Qed.

Lemma kinv_settle cur L Q k t :
  kinv cur (t :: L) Q k -> (forall hd kd l, Q !! hd = Some (kd, l) -> t ∈ l -> in_state k kd hd t) ->
  (t ∈ threads k -> in_place cur Q k t) -> kinv cur L Q k.
Proof.
  intros [H1 H2 H3 H4 H5 H6 H7 H8 H9 H10 H11] Hin Hpl. split; try done.
  - intros hd kd l x Hl Hx HL. destruct (decide (x = t)) as [->|Hne]; [by apply (Hin _ _ l)|].
    apply (H7 _ _ _ _ Hl Hx). by apply not_elem_of_cons.
  - intros x Hx HL. destruct (decide (x = t)) as [->|Hne]; [by apply Hpl|]. apply (H8 x Hx). by apply not_elem_of_cons.
  - intros x E. destruct (H11 x E) as (F1 & F2 & F3 & F4). split; [done|]. split; [done|]. split; [|done].
    by apply not_elem_of_cons in F3 as [_ F3].
Qed.

(** Where a settled thread is not. *)
Lemma kinv_unqueued cur L Q k t : kinv cur L Q k -> t ∈ threads k -> t ∉ L ->
  state_of t k <> CH_STATE_READY -> state_of t k <> CH_STATE_WTSEM -> state_of t k <> CH_STATE_QUEUED -> unqueued Q t.
Proof.
  intros Hk Ht HL H1 H2 H3 hd kd l Hl [->|Hin]%elem_of_cons.
  - apply (ki_headers _ _ _ _ Hk hd); eauto.
  - pose proof (ki_in_state _ _ _ _ Hk _ _ _ _ Hl Hin HL) as Hs. destruct kd; cbn in Hs; try congruence. by destruct Hs.
Qed.

Lemma unqueued_insert Q t hd kd l : unqueued Q t -> t ∉ hd :: l -> unqueued (<[hd := (kd, l)]> Q) t.
Proof.
  intros Hu Ht h2 k2 l2 E. destruct (decide (h2 = hd)) as [->|Hne].
  - rewrite lookup_insert_eq in E. by injection E as <- <-.
  - rewrite lookup_insert_ne in E by done. by eapply Hu.
Qed.
