(* ===== verification/ChKernelOps.v ===== *)
(** * What the operations of the scheduler do to the queues *)

From Stdlib Require Import ZArith Lia.
From stdpp Require Import base gmap list option numbers functions sorting.
From S2P Require Import Prelude ChTime ChSched ChKernelInv ChSync.
From stdpp Require Import sets list.
Import OptionNotations.

Local Open Scope Z_scope.

(** ** The place in the ready list *)

Fixpoint insert_at (stays : Z -> bool) (k : kernel) (t : Z) (R : list Z) : list Z :=
  match R with
  | [] => [t]
  | x :: R => if stays (prio_of x k) then x :: insert_at stays k t R else t :: x :: R
  end.

(** Behind its peers, and ahead of them. *)
Definition behind (k : kernel) (t : Z) : list Z -> list Z := insert_at (fun p => prio_of t k <=? p) k t.
Definition ahead (k : kernel) (t : Z) : list Z -> list Z := insert_at (fun p => prio_of t k <? p) k t.

Lemma insert_at_split stays k t R :
  exists R1 R2, R = R1 ++ R2 /\ insert_at stays k t R = R1 ++ t :: R2 /\ Forall (fun x => stays (prio_of x k) = true) R1 /\
    match R2 with [] => True | x :: _ => stays (prio_of x k) = false end.
Proof.
  induction R as [|x R (R1 & R2 & -> & E & H1 & H2)]; cbn [insert_at]; [by exists [], []|].
  destruct (stays (prio_of x k)) eqn:Ex; [|by exists [], (x :: R1 ++ R2)].
  exists (x :: R1), R2. rewrite E. split; [done|]. split; [done|]. split; [by constructor|done].
Qed.

Lemma scan_ok stays k R : forall fuel cp,
  qseg k cp R RLIST -> stays (prio_of RLIST k) = false -> (length R <= fuel)%nat ->
  exists R1 R2, R = R1 ++ R2 /\ (forall t, insert_at stays k t R = R1 ++ t :: R2) /\
    ready_scan fuel stays cp k = Some (default RLIST (head R2)).
Proof.
  induction R as [|x R IH]; intros fuel cp Hs Hh Hf; cbn [qseg] in Hs.
  - destruct Hs as [E _]. exists [], []. split; [done|]. split; [done|]. destruct fuel; cbn [ready_scan]; rewrite E, Hh; done.
  - destruct Hs as (E & _ & Hs). cbn [length] in Hf. destruct fuel as [|fuel]; [lia|]. cbn [ready_scan insert_at]. rewrite E.
    destruct (stays (prio_of x k)).
    + destruct (IH fuel x Hs Hh ltac:(lia)) as (R1 & R2 & -> & Hi & Er). exists (x :: R1), R2. split; [done|].
      split; [intros t; by rewrite Hi|done].
    + exists [], (x :: R). done.
Qed.

Lemma sorted_app k l1 l2 : StronglySorted (by_prio k) (l1 ++ l2) <->
  StronglySorted (by_prio k) l1 /\ StronglySorted (by_prio k) l2 /\ (forall x y, x ∈ l1 -> y ∈ l2 -> by_prio k x y).
Proof.
  induction l1 as [|x l1 IH]; cbn [app].
  - split; [intros H; split; [constructor|]; split; [done|]; intros x y Hx; by apply elem_of_nil in Hx|by intros (_ & H & _)].
  - split.
    + intros H. apply StronglySorted_inv in H as [H Hf]. apply IH in H as (H1 & H2 & H3). apply Forall_app in Hf as [Hf1 Hf2].
      split; [by constructor|]. split; [done|]. intros a b [->|Ha]%elem_of_cons Hb; [by eapply Forall_forall in Hf2|by apply H3].
    + intros (H1 & H2 & H3). apply StronglySorted_inv in H1 as [H1 Hf]. constructor.
      * apply IH. split; [done|]. split; [done|]. intros a b Ha. apply H3. by right.
      * apply Forall_app. split; [done|]. apply Forall_forall. intros y Hy. apply H3; [by left|done].
Qed.

Lemma insert_at_sorted stays k t R :
  StronglySorted (by_prio k) R -> (forall p, stays p = true -> prio_of t k <= p) -> (forall p, stays p = false -> p <= prio_of t k) ->
  StronglySorted (by_prio k) (insert_at stays k t R).
Proof.
  intros Hs H1 H2. destruct (insert_at_split stays k t R) as (R1 & R2 & -> & -> & F1 & F2).
  apply sorted_app in Hs as (Hs1 & Hs2 & Hs12).
  assert (Ht2 : forall y, y ∈ R2 -> by_prio k t y).
  { intros y Hy. destruct R2 as [|x R2]; [by apply elem_of_nil in Hy|]. apply H2 in F2.
    apply StronglySorted_inv in Hs2 as [_ Hf]. unfold by_prio in *. apply elem_of_cons in Hy as [->|Hy]; [done|].
    rewrite Forall_forall in Hf. specialize (Hf y Hy). lia. }
  apply sorted_app. split; [done|]. split; [constructor; [done|]; by apply Forall_forall|].
  intros x y Hx [->|Hy]%elem_of_cons; [|by apply Hs12]. rewrite Forall_forall in F1. apply H1. by apply F1.
Qed.

Lemma elem_of_insert_at stays k t R x : x ∈ insert_at stays k t R <-> x = t \/ x ∈ R.
Proof.
  destruct (insert_at_split stays k t R) as (R1 & R2 & -> & -> & _). rewrite !elem_of_app, elem_of_cons. tauto.
Qed.

(** ** Becoming ready *)

Definition rest_same (k k' : kernel) : Prop :=
  threads k' = threads k /\ sem_cnt k' = sem_cnt k /\ mbox k' = mbox k /\ armed k' = armed k /\ cont k' = cont k.

(** All that changes beside the links is the state of [t]. *)
Definition moved (t : Z) (st : tstate_t) (k k' : kernel) : Prop :=
  (forall p, prio_of p k' = prio_of p k) /\ (forall p, u_of p k' = u_of p k) /\
  (forall p, state_of p k' = if decide (p = t) then st else state_of p k) /\ rest_same k k'.

Lemma upd_state_moved t st k : moved t st k (upd t (set_state st) k).
Proof. split; [intros p; knode|]. split; [intros p; knode|]. split; [intros p; knode|done]. Qed.

Lemma upd_same_links t g k : (forall x, q_next (g x) = q_next x /\ q_prev (g x) = q_prev x) ->
  forall z, nxt z (upd t g k) = nxt z k /\ prv z (upd t g k) = prv z k.
Proof. intros Hg z. unfold nxt, prv. rewrite knode_upd. case_decide; [subst; apply Hg|done]. Qed.

(** Changing the state or message of a thread in transit. *)
Lemma kinv_upd cur L Q k t g : kinv cur L Q k -> t ∈ L ->
  (forall x, q_next (g x) = q_next x /\ q_prev (g x) = q_prev x /\ prio (g x) = prio x) -> kinv cur L Q (upd t g k).
Proof.
  intros Hk Ht Hg. apply (kinv_change cur L Q k); try done.
  - apply upd_same_links. intros x. by destruct (Hg x) as (? & ? & ?).
  - intros z. unfold prio_of. rewrite knode_upd. case_decide; [subst; apply Hg|done].
  - intros x _ HL. unfold state_of, u_of. rewrite knode_upd. rewrite decide_False; [done|]. by intros ->.
Qed.

Lemma ready_length cur L Q k R : kinv cur L Q k -> Q !! RLIST = Some (QReady, R) -> (length R <= length (threads k))%nat.
Proof.
  intros Hk HR. destruct (proj1 (ki_rings _ _ _ _ Hk) _ _ _ HR) as [_ Hnd]. apply NoDup_cons in Hnd as [_ Hnd].
  apply submseteq_length, NoDup_submseteq; [done|]. intros x Hx. by eapply ki_members.
Qed.

Lemma ready_at_ok cur L Q k R t stays :
  kinv cur (t :: L) Q k -> Q !! RLIST = Some (QReady, R) -> t ∈ threads k -> unqueued Q t ->
  state_of t k = CH_STATE_READY -> (forall p, stays p = true -> prio_of t k <= p) -> (forall p, stays p = false -> p <= prio_of t k) ->
  stays NOPRIO = false ->
  exists cp, ready_scan (length (threads k)) stays RLIST k = Some cp /\
    kinv cur L (<[RLIST := (QReady, insert_at stays k t R)]> Q) (link_before t cp k).
Proof.
  intros Hk HR Ht Hu Hst H1 H2 H3. destruct (proj1 (ki_rings _ _ _ _ Hk) _ _ _ HR) as [Hr Hnd].
  assert (Hnt : t ∉ RLIST :: R) by (by eapply Hu).
  destruct (scan_ok stays k R (length (threads k)) RLIST Hr) as (R1 & R2 & ER & Hi & ->);
    [by rewrite (ki_noprio _ _ _ _ Hk)|by eapply ready_length|].
  eexists. split; [done|]. pose proof (link_before_relinked t (default RLIST (head R2)) k) as Hrel.
  assert (Hk1 : kinv cur (t :: L) (<[RLIST := (QReady, insert_at stays k t R)]> Q) (link_before t (default RLIST (head R2)) k)).
  { apply (kinv_relink cur _ Q k _ RLIST QReady R _ t); try done.
    - rewrite Hi. rewrite ER in HR. apply rings_link; [apply Hk|done|done|done].
    - by left.
    - intros x Hx. by apply elem_of_insert_at in Hx.
    - intros x Hx. right. apply elem_of_insert_at. by right.
    - intros _. destruct (ki_ready _ _ _ _ Hk) as (R' & HR' & Hs). rewrite HR in HR'. injection HR' as <-. by apply insert_at_sorted. }
  destruct Hrel as (_ & Es & _). apply (kinv_settle cur L _ _ t Hk1).
  - intros hd kd l Hl Hin. destruct (decide (hd = RLIST)) as [->|Hne].
    + rewrite lookup_insert_eq in Hl. injection Hl as <- <-. cbn. by rewrite Es.
    + rewrite lookup_insert_ne in Hl by done. destruct (Hu _ _ _ Hl). by right.
  - intros _. unfold in_place. rewrite Es, Hst. exists RLIST, QReady, (insert_at stays k t R). rewrite lookup_insert_eq.
    split; [done|]. apply elem_of_insert_at. by left.
Qed.

Lemma link_moved t cp k st : moved t st k (upd t (set_state st) k) -> moved t st k (link_before t cp (upd t (set_state st) k)).
Proof.
  intros (H1 & H2 & H3 & H4). destruct (link_before_relinked t cp (upd t (set_state st) k)) as (E1 & E2 & E3 & E4).
  split; [intros p; by rewrite E1|]. split; [intros p; by rewrite E3|]. split; [intros p; by rewrite E2|]. by apply H4.
Qed.

Lemma behind_upd t k R : behind (upd t (set_state CH_STATE_READY) k) t R = behind k t R.
Proof.
  unfold behind. assert (Hp : forall p, prio_of p (upd t (set_state CH_STATE_READY) k) = prio_of p k) by (intros p; knode).
  rewrite Hp. induction R as [|x R IH]; cbn [insert_at]; [done|]. by rewrite Hp, IH.
Qed.

Lemma ahead_upd t k R : ahead (upd t (set_state CH_STATE_READY) k) t R = ahead k t R.
Proof.
  unfold ahead. assert (Hp : forall p, prio_of p (upd t (set_state CH_STATE_READY) k) = prio_of p k) by (intros p; knode).
  rewrite Hp. induction R as [|x R IH]; cbn [insert_at]; [done|]. by rewrite Hp, IH.
Qed.

Lemma readyI_ok cur L Q k R t :
  kinv cur (t :: L) Q k -> Q !! RLIST = Some (QReady, R) -> t ∈ threads k -> unqueued Q t ->
  state_of t k <> CH_STATE_READY -> state_of t k <> CH_STATE_FINAL ->
  exists k', chSchReadyI t k = Some k' /\ moved t CH_STATE_READY k k' /\ currp k' = currp k /\
    kinv cur L (<[RLIST := (QReady, behind k t R)]> Q) k'.
Proof.
  intros Hk HR Ht Hu H1 H2. unfold chSchReadyI. rewrite !bool_decide_eq_false_2 by done. cbn [orb]. cbv zeta.
  set (k1 := upd t (set_state CH_STATE_READY) k).
  assert (Hk1 : kinv cur (t :: L) Q k1) by (apply kinv_upd; [done|by left|done]).
  pose proof (ki_prio _ _ _ _ Hk1 t Ht) as Hp. unfold IDLEPRIO in Hp.
  destruct (ready_at_ok cur L Q k1 R t (fun p => prio_of t k1 <=? p)) as (cp & -> & Hk2); try done.
  - unfold k1. knode.
  - intros p Hpp. by apply Z.leb_le.
  - intros p Hpp. apply Z.leb_gt in Hpp. lia.
  - apply Z.leb_gt. unfold NOPRIO. lia.
  - cbn [mbind option_bind]. eexists. split; [done|]. split; [apply link_moved, upd_state_moved|]. split; [done|].
    change (insert_at _ k1 t R) with (behind k1 t R) in Hk2. unfold k1 in Hk2 at 1. by rewrite behind_upd in Hk2.
Qed.

Lemma readyAheadI_ok cur L Q k R t :
  kinv cur (t :: L) Q k -> Q !! RLIST = Some (QReady, R) -> t ∈ threads k -> unqueued Q t ->
  state_of t k <> CH_STATE_READY -> state_of t k <> CH_STATE_FINAL ->
  exists k', chSchReadyAheadI t k = Some k' /\ moved t CH_STATE_READY k k' /\ currp k' = currp k /\
    kinv cur L (<[RLIST := (QReady, ahead k t R)]> Q) k'.
Proof.
  intros Hk HR Ht Hu H1 H2. unfold chSchReadyAheadI. rewrite !bool_decide_eq_false_2 by done. cbn [orb]. cbv zeta.
  set (k1 := upd t (set_state CH_STATE_READY) k).
  assert (Hk1 : kinv cur (t :: L) Q k1) by (apply kinv_upd; [done|by left|done]).
  pose proof (ki_prio _ _ _ _ Hk1 t Ht) as Hp. unfold IDLEPRIO in Hp.
  destruct (ready_at_ok cur L Q k1 R t (fun p => prio_of t k1 <? p)) as (cp & -> & Hk2); try done.
  - unfold k1. knode.
  - intros p Hpp. apply Z.ltb_lt in Hpp. lia.
  - intros p Hpp. by apply Z.ltb_ge in Hpp.
  - apply Z.ltb_ge. unfold NOPRIO. lia.
  - cbn [mbind option_bind]. eexists. split; [done|]. split; [apply link_moved, upd_state_moved|]. split; [done|].
    change (insert_at _ k1 t R) with (ahead k1 t R) in Hk2. unfold k1 in Hk2 at 1. by rewrite ahead_upd in Hk2.
Qed.

(** ** Leaving and entering queues *)

Lemma remove_ok cur L Q k k' hd kd l1 l2 t :
  kinv cur L Q k -> t ∉ L -> Q !! hd = Some (kd, l1 ++ t :: l2) -> unlinked t k k' ->
  kinv cur (t :: L) (<[hd := (kd, l1 ++ l2)]> Q) k' /\ unqueued (<[hd := (kd, l1 ++ l2)]> Q) t /\ t ∈ threads k /\
  in_state k kd hd t /\ cur <> Some t.
Proof.
  intros Hk HL Hl Hu. assert (Hin : t ∈ l1 ++ t :: l2) by (apply elem_of_app; right; by left).
  pose proof (ki_members _ _ _ _ Hk _ _ _ _ Hl Hin) as Ht. pose proof (ki_in_state _ _ _ _ Hk _ _ _ _ Hl Hin HL) as Hs.
  assert (Hc : cur <> Some t).
  { intros ->. destruct (ki_cur _ _ _ _ Hk t eq_refl) as (_ & _ & _ & E). destruct kd; cbn in Hs; try congruence. by destruct Hs; congruence. }
  destruct (proj1 (ki_rings _ _ _ _ Hk) _ _ _ Hl) as [Hr Hnd].
  assert (Hnd' : NoDup (hd :: l1 ++ l2) /\ t ∉ hd :: l1 ++ l2).
  { rewrite app_comm_cons, <- Permutation_middle in Hnd. apply NoDup_cons in Hnd as [? ?]. done. }
  pose proof (kinv_loosen _ _ _ _ t Hk) as Hk1. rewrite decide_False in Hk1 by done. split; [|split; [|done]].
  - apply (kinv_relink cur _ Q k _ hd kd (l1 ++ t :: l2) _ t); try done.
    + apply Hu.
    + by apply (rings_unlink k _ _ _ _ _ _ t); [apply Hk|..].
    + by left.
    + intros x Hx. right. rewrite elem_of_app in Hx |- *. rewrite elem_of_cons. tauto.
    + intros x Hx. rewrite elem_of_app, elem_of_cons in Hx. rewrite elem_of_app. tauto.
    + intros ->. pose proof (ki_kinds _ _ _ _ Hk _ _ Hl) as ->. destruct (ki_ready _ _ _ _ Hk) as (R & HR & HS). rewrite Hl in HR.
      injection HR as <-. apply sorted_app in HS as (S1 & S2 & S3). apply StronglySorted_inv in S2 as [S2 _].
      apply sorted_app. split; [done|]. split; [done|]. intros x y Hx Hy. apply S3; [done|by right].
  - intros h2 k2 l2' E. destruct (decide (h2 = hd)) as [->|Hne].
    + rewrite lookup_insert_eq in E. injection E as <- <-. apply Hnd'.
    + rewrite lookup_insert_ne in E by done. by apply (proj2 (ki_rings _ _ _ _ Hk) hd kd (l1 ++ t :: l2) h2 k2 l2' t); [..|right].
Qed.

Lemma enqueue_ok cur L Q k hd kd l t :
  kinv cur L Q k -> t ∈ L -> t ∈ threads k -> unqueued Q t -> Q !! hd = Some (kd, l) -> kd <> QReady ->
  kinv cur L (<[hd := (kd, l ++ [t])]> Q) (queue_insert t hd k).
Proof.
  intros Hk HL Ht Hu Hl Hkd. apply (kinv_relink cur L Q k _ hd kd l _ t); try done.
  - apply link_before_relinked.
  - apply (rings_link k Q hd kd l [] t hd); [apply Hk|by rewrite app_nil_r|done|done].
  - intros x Hx. rewrite elem_of_app, list_elem_of_singleton in Hx. tauto.
  - intros x Hx. right. rewrite elem_of_app. tauto.
Qed.

Lemma kinv_set_cur L Q k t :
  kinv None (t :: L) Q k -> currp k = t -> t ∈ threads k -> t ∉ L -> state_of t k = CH_STATE_CURRENT -> unqueued Q t -> kinv (Some t) L Q k.
Proof.
  intros [H1 H2 H3 H4 H5 H6 H7 H8 H9 H10 H11] Hc Ht HL Hs Hu. split; try done.
  - intros hd kd l x Hl Hin HLx. destruct (decide (x = t)) as [->|Hne]; [destruct (Hu _ _ _ Hl); by right|].
    apply (H7 _ _ _ _ Hl Hin). by apply not_elem_of_cons.
  - intros x Hin HLx. unfold in_place. destruct (decide (x = t)) as [->|Hne]; [by rewrite Hs|].
    specialize (H8 x Hin). unfold in_place in H8. destruct (state_of x k); try (apply H8; by apply not_elem_of_cons).
    specialize (H8 ltac:(by apply not_elem_of_cons)). done.
  - intros x [= <-]. done.
Qed.

Lemma pick_ok L Q k R t :
  kinv None L Q k -> t ∉ L -> Q !! RLIST = Some (QReady, t :: R) ->
  kinv (Some t) L (<[RLIST := (QReady, R)]> Q) (pick_next k) /\ currp (pick_next k) = t /\ moved t CH_STATE_CURRENT k (pick_next k).
Proof.
  intros Hk HL HR. destruct (proj1 (ki_rings _ _ _ _ Hk) _ _ _ HR) as [Hr Hnd]. apply NoDup_cons in Hnd as [Hh Hnd].
  destruct (fifo_remove_ring k RLIST t R Hr) as (k1 & E & Hu); [intros ->; apply Hh; by left|]. unfold pick_next. rewrite E.
  destruct (remove_ok None L Q k k1 RLIST QReady [] R t Hk HL HR Hu) as (Hk1 & Hq & Ht & _). cbn [app] in Hk1, Hq.
  destruct Hu as ((Ep & Es & Eu & Et & Ec & Ecnt & Em & Ea & Eco) & _).
  assert (Hmv : moved t CH_STATE_CURRENT k (upd t (set_state CH_STATE_CURRENT) (set_currp t k1))).
  { split; [intros p; rewrite <- Ep; knode|]. split; [intros p; rewrite <- Eu; knode|].
    split; [intros p; rewrite <- (Es p); knode|]. done. }
  split; [|by split]. apply kinv_set_cur; [|done|by rewrite <- Et in Ht|done|knode|done].
  apply kinv_upd; [|by left|done]. by apply (kinv_change None _ _ k1).
Qed.

(** ** The running thread and the ready ones *)

Definition highest (Q : queues) (k : kernel) : Prop :=
  forall R, Q !! RLIST = Some (QReady, R) -> Forall (fun x => prio_of x k <= prio_of (currp k) k) R.

(** Between kernel calls: no thread is in transit, and none that is ready has a higher
    priority than the running one. *)
Definition kok (Q : queues) (k : kernel) : Prop := kinv (Some (currp k)) [] Q k /\ highest Q k.

Definition awake (p : Z) (k : kernel) : Prop := state_of p k = CH_STATE_READY \/ state_of p k = CH_STATE_CURRENT.

(** The threads [W] are woken; the others stay awake or in the state they had. *)
Definition effect (W : list Z) (k k' : kernel) : Prop :=
  (forall p, prio_of p k' = prio_of p k) /\ (forall p, u_of p k' = u_of p k) /\ rest_same k k' /\
  (forall p, p ∈ W -> awake p k') /\
  (forall p, p ∉ W -> (awake p k' <-> awake p k) /\ (~ awake p k -> state_of p k' = state_of p k)).

Lemma effect_refl k : effect [] k k.
Proof. split; [done|]. split; [done|]. split; [done|]. split; [|done]. intros p Hp. by apply elem_of_nil in Hp. Qed.

Lemma effect_trans W1 W2 k1 k2 k3 : effect W1 k1 k2 -> effect W2 k2 k3 -> effect (W1 ++ W2) k1 k3.
Proof.
  intros (A1 & A2 & A3 & A4 & A5) (B1 & B2 & B3 & B4 & B5). split; [intros p; by rewrite B1|]. split; [intros p; by rewrite B2|].
  split; [destruct A3 as (? & ? & ? & ? & ?), B3 as (? & ? & ? & ? & ?); unfold rest_same; intuition congruence|]. split.
  - intros p [Hp|Hp]%elem_of_app; [|by apply B4]. destruct (decide (p ∈ W2)); [by apply B4|]. by apply B5, A4.
  - intros p Hp. rewrite elem_of_app in Hp. destruct (A5 p ltac:(tauto)) as [E1 F1], (B5 p ltac:(tauto)) as [E2 F2].
    split; [by rewrite E2|]. intros Hn. rewrite F2 by (by rewrite E1). by apply F1.
Qed.

Lemma moved_effect t st k k' : moved t st k k' -> st = CH_STATE_READY \/ st = CH_STATE_CURRENT -> effect [t] k k'.
Proof.
  intros (H1 & H2 & H3 & H4) Hst. split; [done|]. split; [done|]. split; [done|]. split.
  - intros p Hp%list_elem_of_singleton. subst p. unfold awake. rewrite H3, decide_True by done. done.
  - intros p Hp%not_elem_of_cons. unfold awake. rewrite H3, decide_False by tauto. done.
Qed.

(** Waking a thread that is awake is no effect. *)
Lemma effect_drop W1 t W2 k k' : effect (W1 ++ t :: W2) k k' -> awake t k -> effect (W1 ++ W2) k k'.
Proof.
  intros (H1 & H2 & H3 & H4 & H5) Ht. split; [done|]. split; [done|]. split; [done|]. split.
  - intros p Hp. apply H4. rewrite elem_of_app in Hp |- *. rewrite elem_of_cons. tauto.
  - intros p Hp. destruct (decide (p = t)) as [->|Hne].
    + assert (awake t k') by (apply H4, elem_of_app; right; by left). tauto.
    + apply H5. rewrite elem_of_app in Hp |- *. rewrite elem_of_cons. tauto.
Qed.

Lemma kinv_cur_state Q k c : kinv (Some c) [] Q k -> currp k = c /\ c ∈ threads k /\ state_of c k = CH_STATE_CURRENT /\ unqueued Q c.
Proof.
  intros Hk. destruct (ki_cur _ _ _ _ Hk c eq_refl) as (E & Ht & _ & Hs). split; [done|]. split; [done|]. split; [done|].
  apply (kinv_unqueued _ _ _ _ _ Hk Ht); [apply not_elem_of_nil|congruence..].
Qed.

Lemma highest_intro Q k R t : kinv (Some t) [] Q k -> Q !! RLIST = Some (QReady, R) ->
  (forall x, x ∈ R -> prio_of x k <= prio_of t k) -> highest Q k.
Proof.
  intros Hk HR Hx R' HR'. rewrite HR in HR'. injection HR' as <-. destruct (kinv_cur_state _ _ _ Hk) as (-> & _). by apply Forall_forall.
Qed.

(** The header ends the list. *)
Lemma firstprio_ready cur L Q k R : kinv cur L Q k -> Q !! RLIST = Some (QReady, R) ->
  firstprio k = match R with [] => NOPRIO | x :: _ => prio_of x k end.
Proof.
  intros Hk HR. destruct (proj1 (ki_rings _ _ _ _ Hk) _ _ _ HR) as [Hr _]. unfold firstprio. rewrite (ring_first _ _ _ Hr).
  destruct R; cbn [head default]; [apply Hk|done].
Qed.

Lemma ready_sorted cur L Q k x R : kinv cur L Q k -> Q !! RLIST = Some (QReady, x :: R) -> forall y, y ∈ x :: R -> prio_of y k <= prio_of x k.
Proof.
  intros Hk HR. destruct (ki_ready _ _ _ _ Hk) as (R' & HR' & Hs). rewrite HR in HR'. injection HR' as <-.
  apply StronglySorted_inv in Hs as [_ Hf]. rewrite Forall_forall in Hf. intros y [->|Hy]%elem_of_cons; [lia|]. by apply Hf.
Qed.

Lemma insert_at_prio stays k k' t R : (forall p, prio_of p k' = prio_of p k) -> insert_at stays k' t R = insert_at stays k t R.
Proof. intros Hp. induction R as [|x R IH]; cbn [insert_at]; [done|]. by rewrite Hp, IH. Qed.

Lemma behind_prio k k' t R : (forall p, prio_of p k' = prio_of p k) -> behind k' t R = behind k t R.
Proof. intros Hp. unfold behind. rewrite Hp. by apply insert_at_prio. Qed.

Lemma ahead_prio k k' t R : (forall p, prio_of p k' = prio_of p k) -> ahead k' t R = ahead k t R.
Proof. intros Hp. unfold ahead. rewrite Hp. by apply insert_at_prio. Qed.

(** ** Rescheduling *)

(** The first ready thread becomes current; the one that was is left in transit. *)
Lemma switch_ok Q k c t R : kinv (Some c) [] Q k -> Q !! RLIST = Some (QReady, t :: R) ->
  let k1 := pick_next k in
  kinv (Some t) [c] (<[RLIST := (QReady, R)]> Q) k1 /\ moved t CH_STATE_CURRENT k k1 /\ currp k = c /\ c <> t /\ c ∈ threads k1 /\
  state_of c k1 = CH_STATE_CURRENT /\ unqueued (<[RLIST := (QReady, R)]> Q) c /\ awake t k.
Proof.
  intros Hk HR. destruct (kinv_cur_state _ _ _ Hk) as (Ec & Hc & Hs & Hu).
  assert (Hct : c <> t) by (intros ->; apply (Hu _ _ _ HR); right; by left).
  pose proof (kinv_loosen _ _ _ _ c Hk) as Hk0. rewrite decide_True in Hk0 by done.
  destruct (pick_ok [c] Q k R t Hk0) as (Hk1 & Ec1 & Hm); [by intros ?%list_elem_of_singleton|done|].
  pose proof Hm as (_ & _ & Hst & Ht & _). split; [done|]. split; [done|]. split; [done|]. split; [done|]. split; [by rewrite Ht|].
  split; [by rewrite Hst, decide_False|]. split.
  - apply unqueued_insert; [done|]. intros Hin. apply (Hu _ _ _ HR). apply elem_of_cons in Hin as [->|?]; [by left|]. right. by right.
  - left. apply (ki_in_state _ _ _ _ Hk _ _ _ t HR); [by left|apply not_elem_of_nil].
Qed.

Lemma do_ahead_ok Q k c t R : kinv (Some c) [] Q k -> Q !! RLIST = Some (QReady, t :: R) ->
  exists k', chSchDoRescheduleAhead k = Some k' /\ effect [] k k' /\ currp k' = t /\
    kinv (Some t) [] (<[RLIST := (QReady, ahead k c R)]> Q) k'.
Proof.
  intros Hk HR. destruct (switch_ok Q k c t R Hk HR) as (Hk1 & Hm & Ec & Hct & Hc & Hs & Hu & Haw).
  destruct (readyAheadI_ok (Some t) [] _ (pick_next k) R c Hk1) as (k' & E & Hm' & Ec' & Hk'); [by rewrite lookup_insert_eq|done|done|congruence|congruence|].
  unfold chSchDoRescheduleAhead. rewrite Ec. exists k'. split; [done|]. split.
  - pose proof (effect_trans _ _ _ _ _ (moved_effect _ _ _ _ Hm (or_intror eq_refl)) (moved_effect _ _ _ _ Hm' (or_introl eq_refl))) as He.
    apply (effect_drop [] c []); [|right; by destruct (kinv_cur_state _ _ _ Hk) as (_ & _ & ? & _)]. by apply (effect_drop [] t [c]).
  - rewrite insert_insert_eq in Hk'. rewrite (ahead_prio k) in Hk' by apply Hm. destruct (kinv_cur_state _ _ _ Hk') as (E' & _). done.
Qed.

Lemma do_behind_ok Q k c t R : kinv (Some c) [] Q k -> Q !! RLIST = Some (QReady, t :: R) ->
  exists k', chSchDoRescheduleBehind k = Some k' /\ effect [] k k' /\ currp k' = t /\
    kinv (Some t) [] (<[RLIST := (QReady, behind k c R)]> Q) k'.
Proof.
  intros Hk HR. destruct (switch_ok Q k c t R Hk HR) as (Hk1 & Hm & Ec & Hct & Hc & Hs & Hu & Haw).
  destruct (readyI_ok (Some t) [] _ (pick_next k) R c Hk1) as (k' & E & Hm' & Ec' & Hk'); [by rewrite lookup_insert_eq|done|done|congruence|congruence|].
  unfold chSchDoRescheduleBehind. rewrite Ec. exists k'. split; [done|]. split.
  - pose proof (effect_trans _ _ _ _ _ (moved_effect _ _ _ _ Hm (or_intror eq_refl)) (moved_effect _ _ _ _ Hm' (or_introl eq_refl))) as He.
    apply (effect_drop [] c []); [|right; by destruct (kinv_cur_state _ _ _ Hk) as (_ & _ & ? & _)]. by apply (effect_drop [] t [c]).
  - rewrite insert_insert_eq in Hk'. rewrite (behind_prio k) in Hk' by apply Hm. destruct (kinv_cur_state _ _ _ Hk') as (E' & _). done.
Qed.

Lemma insert_same_ready (Q : queues) R : Q !! RLIST = Some (QReady, R) -> <[RLIST := (QReady, R)]> Q = Q.
Proof. apply insert_id. Qed.

(** Rescheduling restores the order. *)
Lemma reschedule_ok Q k c : kinv (Some c) [] Q k ->
  exists R' k', chSchRescheduleS k = Some k' /\ effect [] k k' /\ kok (<[RLIST := (QReady, R')]> Q) k'.
Proof.
  intros Hk. destruct (kinv_cur_state _ _ _ Hk) as (Ec & Hc & _). destruct (ki_ready _ _ _ _ Hk) as (R & HR & _).
  unfold chSchRescheduleS, chSchIsRescRequiredI. rewrite (firstprio_ready _ _ _ _ _ Hk HR), Ec.
  pose proof (ki_prio _ _ _ _ Hk c Hc) as Hp. unfold IDLEPRIO in Hp. destruct R as [|t R].
  { rewrite (proj2 (Z.ltb_ge _ _)) by (unfold NOPRIO; lia). exists [], k. split; [done|]. split; [apply effect_refl|].
    rewrite insert_same_ready by done. split; [by rewrite Ec|]. apply (highest_intro _ _ [] c); [done..|]. intros x Hx. by apply elem_of_nil in Hx. }
  pose proof (ready_sorted _ _ _ _ _ _ Hk HR) as Hs. destruct (Z.ltb_spec (prio_of c k) (prio_of t k)) as [Hlt|Hge].
  - destruct (do_ahead_ok Q k c t R Hk HR) as (k' & E & He & Ect & Hk'). exists (ahead k c R), k'. split; [done|]. split; [done|].
    split; [by rewrite Ect|]. apply (highest_intro _ _ (ahead k c R) t); [done|by rewrite lookup_insert_eq|].
    intros x Hx. rewrite !(proj1 He). apply elem_of_insert_at in Hx as [->|Hx]; [lia|]. apply Hs. by right.
  - exists (t :: R), k. split; [done|]. split; [apply effect_refl|]. rewrite insert_same_ready by done. split; [by rewrite Ec|].
    apply (highest_intro _ _ (t :: R) c); [done..|]. intros x Hx. specialize (Hs x Hx). lia.
Qed.

(** The end of an interrupt handler. *)
Lemma epilogue_ok Q k c : kinv (Some c) [] Q k ->
  exists R' k', _port_irq_epilogue k = Some k' /\ effect [] k k' /\ kok (<[RLIST := (QReady, R')]> Q) k'.
Proof. exact (reschedule_ok Q k c). Qed.

Lemma yield_ok Q k : kok Q k ->
  exists R' k', chSchDoYieldS k = Some k' /\ effect [] k k' /\ kok (<[RLIST := (QReady, R')]> Q) k'.
Proof.
  intros [Hk Hhigh]. destruct (kinv_cur_state _ _ _ Hk) as (_ & Hc & _). destruct (ki_ready _ _ _ _ Hk) as (R & HR & _).
  unfold chSchDoYieldS, chSchCanYieldS. rewrite (firstprio_ready _ _ _ _ _ Hk HR).
  pose proof (ki_prio _ _ _ _ Hk _ Hc) as Hp. unfold IDLEPRIO in Hp. destruct R as [|t R].
  { rewrite (proj2 (Z.leb_gt _ _)) by (unfold NOPRIO; lia). exists [], k. split; [done|]. split; [apply effect_refl|].
    rewrite insert_same_ready by done. done. }
  pose proof (ready_sorted _ _ _ _ _ _ Hk HR) as Hs. destruct (Z.leb_spec (prio_of (currp k) k) (prio_of t k)) as [Hle|Hgt].
  - destruct (do_behind_ok Q k _ t R Hk HR) as (k' & E & He & Ect & Hk'). exists (behind k (currp k) R), k'. split; [done|]. split; [done|].
    split; [by rewrite Ect|]. apply (highest_intro _ _ (behind k (currp k) R) t); [done|by rewrite lookup_insert_eq|].
    intros x Hx. rewrite !(proj1 He). apply elem_of_insert_at in Hx as [->|Hx]; [lia|]. apply Hs. by right.
  - exists (t :: R), k. split; [done|]. split; [apply effect_refl|]. by rewrite insert_same_ready.
Qed.

(** ** Waking a thread *)

Lemma wakeupS_ok Q k c t m :
  kinv (Some c) [t] Q k -> highest Q k -> t ∈ threads k -> unqueued Q t -> state_of t k <> CH_STATE_READY -> state_of t k <> CH_STATE_FINAL ->
  exists R' k', chSchWakeupS t m k = Some k' /\ effect [t] (upd t (set_u m) k) k' /\ kok (<[RLIST := (QReady, R')]> Q) k'.
Proof.
  intros Hk Hhigh Ht Hu H1 H2. destruct (ki_cur _ _ _ _ Hk c eq_refl) as (Ec & Hc & Hct & Hs). destruct (ki_ready _ _ _ _ Hk) as (R & HR & _).
  assert (Hne : c <> t) by (intros ->; apply Hct; by left). specialize (Hhigh R HR). rewrite Ec, Forall_forall in Hhigh.
  unfold chSchWakeupS. rewrite Ec. destruct (queue_notempty RLIST k && (prio_of c k <? firstprio k)) eqn:Eq.
  { apply andb_true_iff in Eq as [_ Eq%Z.ltb_lt]. rewrite (firstprio_ready _ _ _ _ _ Hk HR) in Eq.
    pose proof (ki_prio _ _ _ _ Hk c Hc). unfold IDLEPRIO, NOPRIO in *. destruct R as [|x R]; [lia|]. specialize (Hhigh x ltac:(by left)). lia. }
  set (k1 := upd t (set_u m) k). assert (Hk1 : kinv (Some c) [t] Q k1) by (apply kinv_upd; [done|by left|done]).
  assert (Hp1 : forall p, prio_of p k1 = prio_of p k) by (intros p; unfold k1; knode).
  assert (Hs1 : forall p, state_of p k1 = state_of p k) by (intros p; unfold k1; knode).
  destruct (Z.leb_spec (prio_of t k1) (prio_of c k1)) as [Hle|Hgt].
  - destruct (readyI_ok (Some c) [] Q k1 R t Hk1 HR Ht Hu) as (k' & E & Hm & Ec' & Hk'); [by rewrite Hs1|by rewrite Hs1|].
    exists (behind k1 t R), k'. split; [done|]. split; [apply (moved_effect _ _ _ _ Hm); by left|].
    destruct (kinv_cur_state _ _ _ Hk') as (Ec2 & _). split; [by rewrite Ec2|].
    apply (highest_intro _ _ (behind k1 t R) c); [done|by rewrite lookup_insert_eq|]. intros x Hx. rewrite !(proj1 Hm).
    apply elem_of_insert_at in Hx as [->|Hx]; [done|]. rewrite !Hp1. by apply Hhigh.
  - assert (Huc : unqueued Q c) by (apply (kinv_unqueued _ _ _ _ _ Hk Hc Hct); congruence).
    assert (Hk2 : kinv None (c :: [t]) Q k1) by (pose proof (kinv_loosen _ _ _ _ c Hk1) as H; by rewrite decide_True in H).
    destruct (readyI_ok None [t] Q k1 R c Hk2 HR Hc Huc) as (k' & -> & Hm & _ & Hk'); [rewrite Hs1; congruence..|].
    cbn [mbind option_bind]. eexists (behind k1 c R), _. split; [done|].
    assert (He : effect [t] k1 (upd t (set_state CH_STATE_CURRENT) (set_currp t k'))).
    { apply (effect_drop [] c [t]); [|right; by rewrite Hs1]. apply (effect_trans [c] [t] k1 k').
      - apply (moved_effect _ _ _ _ Hm). by left.
      - apply (moved_effect t CH_STATE_CURRENT); [|by right]. apply (upd_state_moved t CH_STATE_CURRENT (set_currp t k')). }
    split; [exact He|]. assert (Hkc : kinv (Some t) [] (<[RLIST := (QReady, behind k1 c R)]> Q) (upd t (set_state CH_STATE_CURRENT) (set_currp t k'))).
    { apply kinv_set_cur; [apply kinv_upd; [by apply (kinv_change None _ _ k')|by left|done]|done| |apply not_elem_of_nil|knode|].
      - cbn [threads upd set_currp]. destruct Hm as (_ & _ & _ & -> & _). done.
      - apply unqueued_insert; [done|]. intros [->|[->|Hx]%elem_of_insert_at]%elem_of_cons; [|done|].
        + apply (Hu _ _ _ HR). by left.
        + apply (Hu _ _ _ HR). by right. }
    split; [exact Hkc|]. apply (highest_intro _ _ (behind k1 c R) t); [done|by rewrite lookup_insert_eq|]. intros x Hx. rewrite !(proj1 He).
    apply elem_of_insert_at in Hx as [->|Hx]; [lia|]. rewrite !Hp1 in *. specialize (Hhigh x Hx). lia.
Qed.

(** * What blocking and waking do to the queues

    Sleeping on a queue, releasing a thread from a queue, and with them the
    operations on semaphores, thread queues and timers of sleeps. *)

Lemma kinv_set_u cur L Q k t m : kinv cur L Q k -> state_of t k <> CH_STATE_WTSEM -> kinv cur L Q (upd t (set_u m) k).
Proof.
  intros [H1 (R & H2 & Hs) H3 H4 H5 H6 H7 H8 H9 H10 H11] Hst.
  assert (Es : forall p, state_of p (upd t (set_u m) k) = state_of p k) by (intros p; knode).
  assert (Ep : forall p, prio_of p (upd t (set_u m) k) = prio_of p k) by (intros p; knode).
  split; try done.
  - apply (rings_same k); [done|]. by apply upd_same_links.
  - exists R. split; [done|]. clear -Hs Ep. induction Hs as [|x R Hs IH Hf]; constructor; [done|].
    eapply Forall_impl; [exact Hf|]. intros y. unfold by_prio. by rewrite !Ep.
  - intros hd kd l x Hl Hin HL. specialize (H7 _ _ _ _ Hl Hin HL). destruct kd; cbn in *; rewrite ?Es; try done.
    destruct H7 as [E1 E2]. split; [done|]. rewrite <- E2. unfold u_of. rewrite knode_upd. rewrite decide_False; [done|]. by intros ->.
  - intros x Hin HL. unfold in_place. rewrite Es. by apply H8.
  - intros x Hin. rewrite Ep. by apply H9.
  - by rewrite Ep.
  - intros x E. rewrite Es. by apply H11.
Qed.

(** Fields that the invariant does not look at. *)
Lemma kinv_rest cur L Q k k' : kinv cur L Q k -> node k' = node k -> threads k' = threads k -> currp k' = currp k -> kinv cur L Q k'.
Proof. intros Hk En Et Ec. apply (kinv_change cur L Q k); unfold nxt, prv, prio_of, state_of, u_of; rewrite ?En; try done. Qed.

(** ** Going to sleep *)

Lemma goSleep_ok Q k c st r t R :
  kinv None [c] Q k -> currp k = c -> c ∈ threads k -> st <> CH_STATE_READY ->
  (forall hd kd l, Q !! hd = Some (kd, l) -> c ∈ l -> in_state (upd c (set_state st) k) kd hd c) ->
  in_place None Q (upd c (set_state st) k) c -> Q !! RLIST = Some (QReady, t :: R) ->
  let k' := chSchGoSleepS st r k in
  kok (<[RLIST := (QReady, R)]> Q) k' /\ currp k' = t /\ t <> c /\
  (forall p, prio_of p k' = prio_of p k) /\ (forall p, u_of p k' = u_of p k) /\
  (forall p, state_of p k' = if decide (p = t) then CH_STATE_CURRENT else if decide (p = c) then st else state_of p k) /\
  threads k' = threads k /\ sem_cnt k' = sem_cnt k /\ mbox k' = mbox k /\ armed k' = armed k /\ cont k' = <[c := Some r]> (cont k) /\
  state_of t k = CH_STATE_READY.
Proof.
  intros Hk Ec Hc Hst Hin Hpl HR k'. set (k1 := upd c (set_state st) (set_cont c (Some r) k)).
  assert (Ek : k' = pick_next k1) by (unfold k', chSchGoSleepS; by rewrite Ec).
  assert (Hk1 : kinv None [c] Q k1) by (apply kinv_upd; [by apply (kinv_rest None _ _ k)|by left|done]).
  assert (Hin1 : forall hd kd l, Q !! hd = Some (kd, l) -> c ∈ l -> in_state k1 kd hd c) by exact Hin.
  assert (Hk2 : kinv None [] Q k1) by (apply (kinv_settle None [] Q k1 c Hk1); [exact Hin1|intros _; exact Hpl]).
  assert (Htc : t <> c).
  { intros ->. assert (state_of c k1 = CH_STATE_READY) as E by (apply (Hin1 RLIST QReady (c :: R) HR); by left).
    unfold k1 in E. unfold state_of in E. rewrite knode_upd, decide_True in E by done. done. }
  destruct (pick_ok [] Q k1 R t Hk2) as (Hk3 & Ec3 & (E1 & E2 & E3 & (F1 & F2 & F3 & F4 & F5))); [apply not_elem_of_nil|done|].
  rewrite <- Ek in *.
  assert (Ep : forall p, prio_of p k1 = prio_of p k) by (intros p; unfold k1; knode).
  split; [|split; [done|split; [done|split; [intros p; by rewrite E1, Ep|]]]].
  - split; [by rewrite Ec3|]. apply (highest_intro _ _ R t); [done|by rewrite lookup_insert_eq|]. intros x Hx. rewrite !E1.
    apply (ready_sorted _ _ _ _ _ _ Hk2 HR). by right.
  - split; [intros p; rewrite E2; unfold k1; knode|]. split; [intros p; rewrite E3; destruct (decide (p = t)); [done|]; unfold k1; knode|].
    do 5 (split; [done|]). assert (state_of t k1 = CH_STATE_READY) as <-.
    + apply (ki_in_state _ _ _ _ Hk2 _ _ _ t HR); [by left|apply not_elem_of_nil].
    + unfold k1. knode.
Qed.

(** The running thread waits in the queue [hd]; [k] may differ from a settled state in
    the message of the thread. *)
Lemma block_ok Q k c hd kd l st r t R :
  kinv None [c] Q k -> currp k = c -> c ∈ threads k -> unqueued Q c -> Q !! hd = Some (kd, l) ->
  match kd with QReady => False | QSem => st = CH_STATE_WTSEM /\ u_of c k = hd | QWait => st = CH_STATE_QUEUED end ->
  Q !! RLIST = Some (QReady, t :: R) ->
  let k' := chSchGoSleepS st r (queue_insert c hd k) in
  kok (<[RLIST := (QReady, R)]> (<[hd := (kd, l ++ [c])]> Q)) k' /\ currp k' = t /\ t <> c /\
  (forall p, prio_of p k' = prio_of p k) /\ (forall p, u_of p k' = u_of p k) /\
  (forall p, state_of p k' = if decide (p = t) then CH_STATE_CURRENT else if decide (p = c) then st else state_of p k) /\
  threads k' = threads k /\ sem_cnt k' = sem_cnt k /\ mbox k' = mbox k /\ armed k' = armed k /\ cont k' = <[c := Some r]> (cont k) /\
  state_of t k = CH_STATE_READY.
Proof.
  intros Hk Ec Hc Hu Hl Hkd HR k'. assert (kd <> QReady) as Hnr by (by intros ->).
  assert (Hne : hd <> RLIST) by (intros ->; rewrite HR in Hl; congruence).
  pose proof (enqueue_ok None [c] Q k hd kd l c Hk ltac:(by left) Hc Hu Hl Hnr) as Hk1.
  pose proof (link_before_relinked c hd k) as (Ep & Es & Eu & Et & Ecr & En & Em & Ea & Eco).
  change (link_before c hd k) with (queue_insert c hd k) in *. set (k1 := queue_insert c hd k) in *.
  assert (Hself : st <> CH_STATE_READY) by (destruct kd; [done|by destruct Hkd as [-> _]|by subst st]).
  destruct (goSleep_ok (<[hd := (kd, l ++ [c])]> Q) k1 c st r t R Hk1) as (G1 & G2 & G3 & G4 & G5 & G6 & G7 & G8 & G9 & G10 & G11 & G12).
  - by rewrite Ecr.
  - by rewrite Et.
  - done.
  - intros h2 k2 l2 E Hin. destruct (decide (h2 = hd)) as [->|Hne2].
    + rewrite lookup_insert_eq in E. injection E as <- <-. destruct kd; [done| |].
      * destruct Hkd as [-> Hh]. split; [knode|]. rewrite <- Hh, <- Eu. knode.
      * subst st. cbn. knode.
    + rewrite lookup_insert_ne in E by done. destruct (Hu _ _ _ E). by right.
  - unfold in_place. assert (state_of c (upd c (set_state st) k1) = st) as -> by knode.
    assert (exists h2 k2 l2, <[hd := (kd, l ++ [c])]> Q !! h2 = Some (k2, l2) /\ c ∈ l2) as Hex.
    { exists hd, kd, (l ++ [c]). rewrite lookup_insert_eq. split; [done|]. apply elem_of_app. right. by left. }
    destruct kd; [done| |]; [destruct Hkd as [-> _]|subst st]; done.
  - by rewrite lookup_insert_ne.
  - fold k' in G1, G2, G4, G5, G6, G7, G8, G9, G10, G11. split; [done|]. split; [done|]. split; [done|].
    split; [intros p; by rewrite G4|]. split; [intros p; by rewrite G5|]. split; [intros p; by rewrite G6, Es|].
    rewrite G7, G8, G9, G10, G11, <- (Es t). done.
Qed.

(** Somebody is ready as long as a thread that never sleeps is not the running one. *)
Lemma ready_nonempty Q k idle : kok Q k -> idle ∈ threads k -> awake idle k -> currp k <> idle ->
  exists t R, Q !! RLIST = Some (QReady, t :: R).
Proof.
  intros [Hk _] Hi Ha Hne. destruct (ki_ready _ _ _ _ Hk) as (R & HR & _).
  pose proof (ki_in_place _ _ _ _ Hk idle Hi ltac:(apply not_elem_of_nil)) as Hp. unfold in_place in Hp.
  destruct Ha as [E|E]; rewrite E in Hp; [|congruence]. destruct Hp as (hd & kd & l & Hl & Hin).
  pose proof (ki_in_state _ _ _ _ Hk _ _ _ _ Hl Hin ltac:(apply not_elem_of_nil)) as Hs.
  destruct kd; cbn in Hs; [|by destruct Hs; congruence|congruence]. pose proof (ki_kinds _ _ _ _ Hk _ _ Hl) as ->.
  destruct l as [|t R']; [by apply elem_of_nil in Hin|]. eauto.
Qed.

(** ** Releasing a thread from a queue *)

Lemma release_ok Q k k1 c hd kd l1 l2 t m :
  kinv (Some c) [] Q k -> Q !! hd = Some (kd, l1 ++ t :: l2) -> kd <> QReady -> unlinked t k k1 ->
  exists R' k', chSchReadyI t (upd t (set_u m) k1) = Some k' /\ effect [t] (upd t (set_u m) k) k' /\ currp k' = currp k /\
    kinv (Some c) [] (<[RLIST := (QReady, R')]> (<[hd := (kd, l1 ++ l2)]> Q)) k'.
Proof.
  intros Hk Hl Hkd Hu. destruct (ki_ready _ _ _ _ Hk) as (R & HR & _). assert (Hne : hd <> RLIST) by (intros ->; congruence).
  destruct (remove_ok (Some c) [] Q k k1 hd kd l1 l2 t Hk ltac:(apply not_elem_of_nil) Hl Hu) as (Hk1 & Hq & Ht & Hs & _).
  destruct Hu as ((Ep & Es & Eu & Et & Ecr & Ecnt & Em & Ea & Eco) & _).
  assert (Hk2 : kinv (Some c) [t] (<[hd := (kd, l1 ++ l2)]> Q) (upd t (set_u m) k1)) by (apply kinv_upd; [done|by left|done]).
  assert (Hst : state_of t (upd t (set_u m) k1) = state_of t k) by (rewrite <- Es; knode).
  destruct (readyI_ok (Some c) [] _ (upd t (set_u m) k1) R t Hk2) as (k' & E & Hm & Ec' & Hk').
  - by rewrite lookup_insert_ne.
  - cbn [threads upd]. by rewrite Et.
  - done.
  - rewrite Hst. destruct kd; cbn in Hs; [done|destruct Hs; congruence|congruence].
  - rewrite Hst. destruct kd; cbn in Hs; [done|destruct Hs; congruence|congruence].
  - eexists _, k'. split; [done|]. split; [|split; [by rewrite Ec'|done]].
    destruct Hm as (M1 & M2 & M3 & (N1 & N2 & N3 & N4 & N5)). apply (moved_effect t CH_STATE_READY); [|by left]. split; [|split; [|split]].
    + intros p. rewrite M1. transitivity (prio_of p k1); [knode|]. rewrite Ep. knode.
    + intros p. rewrite M2. unfold u_of in *. rewrite !knode_upd. case_decide; [done|]. apply Eu.
    + intros p. rewrite M3. case_decide; [done|]. transitivity (state_of p k1); [knode|]. rewrite Es. knode.
    + unfold rest_same. cbn [upd threads sem_cnt mbox armed cont] in *. intuition congruence.
Qed.

(** ** Thread queues *)

Lemma notempty_ok cur L Q k hd kd l : kinv cur L Q k -> Q !! hd = Some (kd, l) ->
  queue_notempty hd k = match l with [] => false | _ => true end.
Proof.
  intros Hk Hl. destruct (proj1 (ki_rings _ _ _ _ Hk) _ _ _ Hl) as [Hr Hnd]. apply NoDup_cons in Hnd as [Hh _]. by apply notempty_ring.
Qed.

(** The first thread of a queue is taken out of it. *)
Lemma fifo_ok cur L Q k hd kd t l : kinv cur L Q k -> Q !! hd = Some (kd, t :: l) ->
  exists k1, queue_fifo_remove hd k = (t, k1) /\ unlinked t k k1.
Proof.
  intros Hk Hl. destruct (proj1 (ki_rings _ _ _ _ Hk) _ _ _ Hl) as [Hr Hnd]. apply NoDup_cons in Hnd as [Hh _].
  apply (fifo_remove_ring k hd t l Hr). intros ->. apply Hh. by left.
Qed.

Lemma dequeueNext_ok Q k c tqp l m : kinv (Some c) [] Q k -> Q !! tqp = Some (QWait, l) ->
  match l with
  | [] => chThdDequeueNextI tqp m k = Some k
  | t :: l' => exists R' k', chThdDequeueNextI tqp m k = Some k' /\ effect [t] (upd t (set_u m) k) k' /\ currp k' = currp k /\
      kinv (Some c) [] (<[RLIST := (QReady, R')]> (<[tqp := (QWait, l')]> Q)) k'
  end.
Proof.
  intros Hk Hl. unfold chThdDequeueNextI, chThdDoDequeueNextI. rewrite (notempty_ok _ _ _ _ _ _ _ Hk Hl).
  destruct l as [|t l']; [done|]. cbn [negb]. destruct (fifo_ok _ _ _ _ _ _ _ _ Hk Hl) as (k1 & -> & Hu).
  pose proof (ki_in_state _ _ _ _ Hk _ _ _ t Hl ltac:(by left) ltac:(apply not_elem_of_nil)) as Hs. cbn in Hs.
  destruct (decide (state_of t k1 = CH_STATE_QUEUED)) as [_|Hn]; [|by destruct Hn; destruct Hu as ((_ & -> & _) & _)].
  by apply (release_ok Q k k1 c tqp QWait [] l' t m).
Qed.

(** ** Timers *)

Lemma dequeue_ok cur Q k hd kd l t : kinv cur [] Q k -> Q !! hd = Some (kd, l) -> t ∈ l ->
  exists l1 l2, l = l1 ++ t :: l2 /\ unlinked t k (queue_dequeue t k).
Proof.
  intros Hk Hl Hin. destruct (proj1 (ki_rings _ _ _ _ Hk) _ _ _ Hl) as [Hr Hnd].
  destruct (ring_neighbours _ _ _ _ Hr Hnd Hin) as [H1 H2]. pose proof Hin as (l1 & l2 & ->)%list_elem_of_split.
  exists l1, l2. split; [done|]. by apply dequeue_unlinked.
Qed.

(** The timer of a sleep fires: nothing happens to a thread that is ready already;
    another is taken from the queue it waits in, with its claim on a semaphore. *)
Lemma wakeup_ok Q k c t : kinv (Some c) [] Q k -> t ∈ threads k -> t <> c ->
  exists k', wakeup t k = Some k' /\ currp k' = currp k /\
    ((state_of t k = CH_STATE_READY /\ k' = k) \/
     (state_of t k = CH_STATE_SLEEPING /\ exists R', effect [t] (upd t (set_u MSG_TIMEOUT) k) k' /\ kinv (Some c) [] (<[RLIST := (QReady, R')]> Q) k') \/
     (exists hd kd l1 l2 R', Q !! hd = Some (kd, l1 ++ t :: l2) /\ kd <> QReady /\ in_state k kd hd t /\
        effect [t] (upd t (set_u MSG_TIMEOUT) (match kd with QSem => cnt_inc hd k | _ => k end)) k' /\
        kinv (Some c) [] (<[RLIST := (QReady, R')]> (<[hd := (kd, l1 ++ l2)]> Q)) k')).
Proof.
  intros Hk Ht Hne. pose proof (ki_in_place _ _ _ _ Hk t Ht ltac:(apply not_elem_of_nil)) as Hp. unfold in_place in Hp.
  destruct (ki_ready _ _ _ _ Hk) as (R & HR & _). unfold wakeup.
  destruct (state_of t k) eqn:Es; try done.
  - exists k. split; [done|]. split; [done|]. by left.
  - congruence.
  - (* a thread queue *)
    destruct Hp as (hd & kd & l & Hl & Hin). pose proof (ki_in_state _ _ _ _ Hk _ _ _ _ Hl Hin ltac:(apply not_elem_of_nil)) as Hs.
    destruct (dequeue_ok _ _ _ _ _ _ _ Hk Hl Hin) as (l1 & l2 & -> & Hu).
    assert (kd = QWait) as -> by (destruct kd; cbn in Hs; [congruence|destruct Hs; congruence|done]).
    destruct (release_ok Q k _ c hd QWait l1 l2 t MSG_TIMEOUT Hk Hl ltac:(done) Hu) as (R' & k' & E & He & Ec & Hk').
    exists k'. split; [done|]. split; [done|]. right. right. exists hd, QWait, l1, l2, R'. done.
  - (* a semaphore *)
    destruct Hp as (hd & kd & l & Hl & Hin). pose proof (ki_in_state _ _ _ _ Hk _ _ _ _ Hl Hin ltac:(apply not_elem_of_nil)) as Hs.
    assert (kd = QSem) as -> by (destruct kd; cbn in Hs; [congruence|done|congruence]). pose proof Hs as [_ Hu0]. rewrite Hu0.
    assert (Hki : kinv (Some c) [] Q (cnt_inc hd k)) by (by apply (kinv_rest _ _ _ k)).
    destruct (dequeue_ok _ _ (cnt_inc hd k) _ _ _ _ Hki Hl Hin) as (l1 & l2 & -> & Hu).
    destruct (release_ok Q (cnt_inc hd k) _ c hd QSem l1 l2 t MSG_TIMEOUT Hki Hl ltac:(done) Hu) as (R' & k' & E & He & Ec & Hk').
    exists k'. split; [done|]. split; [done|]. right. right. exists hd, QSem, l1, l2, R'. done.
  - (* a plain sleep *)
    assert (Hq : unqueued Q t) by (apply (kinv_unqueued _ _ _ _ _ Hk Ht); [apply not_elem_of_nil|congruence..]).
    pose proof (kinv_loosen _ _ _ _ t Hk) as Hk1. rewrite decide_False in Hk1 by congruence.
    assert (Hk2 : kinv (Some c) [t] Q (upd t (set_u MSG_TIMEOUT) k)) by (apply kinv_upd; [done|by left|done]).
    assert (state_of t (upd t (set_u MSG_TIMEOUT) k) = CH_STATE_SLEEPING) as Es2 by (rewrite <- Es; knode).
    destruct (readyI_ok (Some c) [] Q _ R t Hk2 HR Ht Hq) as (k' & E & Hm & Ec & Hk'); [congruence|congruence|].
    exists k'. split; [done|]. split; [done|]. right. left. split; [done|]. eexists. split; [apply (moved_effect _ _ _ _ Hm); by left|done].
Qed.
