(* ===== verification/ChMailbox.v ===== *)
(** * The buffer of a mailbox as a queue *)

From Stdlib Require Import ZArith Lia.
From stdpp Require Import base gmap list option numbers functions.
From S2P Require Import Prelude ChTime ChSched ChSync.
From stdpp Require Import sets list.
Import OptionNotations.

Record mb_wf (m : mailbox_t) : Prop := {
  mb_rd : rdptr m < length (buffer m);
  mb_wr : wrptr m < length (buffer m);
  mb_room : mb_cnt m <= length (buffer m);
  mb_where : wrptr m = rdptr m + mb_cnt m \/ wrptr m + length (buffer m) = rdptr m + mb_cnt m
}.

(** The slot [i] places after the slot [r]. *)
Definition slot (m : mailbox_t) (r i : nat) : nat :=
  if r + i <? length (buffer m) then r + i else r + i - length (buffer m).

(** The messages, oldest first. *)
Definition mb_contents (m : mailbox_t) : list Z := map (fun i => buffer m !!! slot m (rdptr m) i) (seq 0 (mb_cnt m)).

Lemma mb_contents_length m : length (mb_contents m) = mb_cnt m.
Proof. unfold mb_contents. by rewrite length_map, length_seq. Qed.

Lemma slot_lt m r i : r < length (buffer m) -> i <= length (buffer m) -> slot m r i < length (buffer m).
Proof. intros. unfold slot. destruct (Nat.ltb_spec (r + i) (length (buffer m))); lia. Qed.

Lemma slot_inj m r i j : r < length (buffer m) -> i < length (buffer m) -> j < length (buffer m) -> slot m r i = slot m r j -> i = j.
Proof.
  intros. unfold slot in *. destruct (Nat.ltb_spec (r + i) (length (buffer m))), (Nat.ltb_spec (r + j) (length (buffer m))); lia.
Qed.

Lemma slot_succ m r i : r < length (buffer m) -> i < length (buffer m) ->
  slot m (if length (buffer m) <=? S r then 0 else S r) i = slot m r (S i).
Proof.
  intros. unfold slot. destruct (Nat.leb_spec (length (buffer m)) (S r)).
  - destruct (Nat.ltb_spec (0 + i) (length (buffer m))), (Nat.ltb_spec (r + S i) (length (buffer m))); lia.
  - destruct (Nat.ltb_spec (S r + i) (length (buffer m))), (Nat.ltb_spec (r + S i) (length (buffer m))); lia.
Qed.

Lemma slot_buffer m m' r i : length (buffer m') = length (buffer m) -> slot m' r i = slot m r i.
Proof. intros E. unfold slot. by rewrite E. Qed.

Lemma wrptr_slot m : mb_wf m -> mb_cnt m < length (buffer m) -> wrptr m = slot m (rdptr m) (mb_cnt m).
Proof.
  intros [H1 H2 H3 H4] Hc. unfold slot. destruct (Nat.ltb_spec (rdptr m + mb_cnt m) (length (buffer m))); lia.
Qed.

Lemma mb_put_ok msg m : mb_wf m -> mb_cnt m < length (buffer m) ->
  exists m', mb_put msg m = Some m' /\ mb_wf m' /\ mb_contents m' = mb_contents m ++ [msg] /\ mb_cnt m' = S (mb_cnt m) /\
    length (buffer m') = length (buffer m) /\ mb_reset m' = mb_reset m.
Proof.
  intros Hwf Hc. pose proof Hwf as [H1 H2 H3 H4]. unfold mb_put. rewrite (proj2 (Nat.leb_gt _ _)) by done.
  cbv zeta. rewrite length_insert. eexists. split; [done|]. cbn [set_mb buffer rdptr wrptr mb_cnt mb_reset].
  split; [|split; [|split; [done|split; [by rewrite length_insert|done]]]].
  - split; cbn [set_mb buffer rdptr wrptr mb_cnt]; rewrite ?length_insert; destruct (Nat.leb_spec (length (buffer m)) (S (wrptr m))); lia.
  - unfold mb_contents. cbn [set_mb buffer rdptr wrptr mb_cnt]. rewrite seq_S, map_app. cbn [map Nat.add].
    set (m' := set_mb _ _ _ _ _). assert (Hs : forall i, slot m' (rdptr m) i = slot m (rdptr m) i).
    { intros i. apply slot_buffer. cbn. by rewrite length_insert. }
    rewrite (wrptr_slot m Hwf Hc). f_equal.
    + apply map_ext_in. intros i Hi%in_seq. rewrite Hs. rewrite list_lookup_total_insert_ne; [done|].
      intros E. apply slot_inj in E; lia.
    + rewrite Hs. rewrite list_lookup_total_insert_eq; [done|]. apply slot_lt; lia.
Qed.

Lemma mb_get_ok m : mb_wf m -> 0 < mb_cnt m ->
  exists v m', mb_get m = Some (v, m') /\ mb_wf m' /\ mb_contents m = v :: mb_contents m' /\ mb_cnt m = S (mb_cnt m') /\
    length (buffer m') = length (buffer m) /\ mb_reset m' = mb_reset m.
Proof.
  intros Hwf Hc. pose proof Hwf as [H1 H2 H3 H4]. unfold mb_get. destruct (lookup_lt_is_Some_2 (buffer m) (rdptr m) H1) as [v Hv].
  rewrite Hv. cbn [mbind option_bind]. cbv zeta. eexists v, _. split; [done|]. cbn [set_mb buffer rdptr wrptr mb_cnt mb_reset].
  split; [|split; [|split; [lia|done]]].
  - split; cbn [set_mb buffer rdptr wrptr mb_cnt]; destruct (Nat.leb_spec (length (buffer m)) (S (rdptr m))); lia.
  - unfold mb_contents. cbn [set_mb buffer rdptr wrptr mb_cnt]. set (m' := set_mb _ _ _ _ _).
    destruct (mb_cnt m) as [|n] eqn:En; [lia|]. rewrite Nat.sub_succ, Nat.sub_0_r. cbn [seq map]. f_equal.
    + unfold slot. rewrite Nat.add_0_r, (proj2 (Nat.ltb_lt _ _)) by done. by apply list_lookup_total_correct.
    + rewrite <- seq_shift, map_map. apply map_ext_in. intros i Hi%in_seq. f_equal. rewrite <- slot_succ by lia.
      symmetry. by apply slot_buffer.
Qed.

(** Posting ahead puts the message in front. *)
Lemma mb_put_ahead_ok msg m : mb_wf m -> mb_cnt m < length (buffer m) ->
  exists m', mb_put_ahead msg m = Some m' /\ mb_wf m' /\ mb_contents m' = msg :: mb_contents m /\ mb_cnt m' = S (mb_cnt m) /\
    length (buffer m') = length (buffer m) /\ mb_reset m' = mb_reset m.
Proof.
  intros Hwf Hc. pose proof Hwf as [H1 H2 H3 H4]. unfold mb_put_ahead. set (r := match rdptr m with O => _ | S _ => _ end).
  assert (Hr : r < length (buffer m)) by (subst r; destruct (rdptr m); lia).
  assert (Hrs : rdptr m = if length (buffer m) <=? S r then 0 else S r).
  { subst r. destruct (rdptr m) as [|n]; [rewrite (proj2 (Nat.leb_le _ _)) by lia; done|]. by rewrite (proj2 (Nat.leb_gt _ _)) by lia. }
  rewrite (proj2 (Nat.leb_gt _ _)) by done. eexists. split; [done|]. cbn [set_mb buffer rdptr wrptr mb_cnt mb_reset].
  split; [|split; [|split; [done|split; [by rewrite length_insert|done]]]].
  - split; cbn [set_mb buffer rdptr wrptr mb_cnt]; rewrite ?length_insert; try lia.
    subst r. destruct (rdptr m); lia.
  - unfold mb_contents. cbn [set_mb buffer rdptr wrptr mb_cnt seq map]. set (m' := set_mb _ _ _ _ _).
    assert (Hs : forall i, slot m' r i = slot m r i) by (intros i; apply slot_buffer; cbn; by rewrite length_insert). f_equal.
    + rewrite Hs. unfold slot. rewrite Nat.add_0_r, (proj2 (Nat.ltb_lt _ _)) by done. by rewrite list_lookup_total_insert_eq.
    + rewrite <- seq_shift, map_map. apply map_ext_in. intros i Hi%in_seq. rewrite Hs, <- slot_succ, <- Hrs by lia.
      rewrite list_lookup_total_insert_ne; [done|]. intros E. rewrite Hrs, slot_succ in E by lia.
      assert (slot m r 0 = slot m r (S i)) as E0 by (rewrite <- E; unfold slot; rewrite Nat.add_0_r, (proj2 (Nat.ltb_lt _ _)) by done; done).
      apply slot_inj in E0; lia.
Qed.
