(* ===== verification/ChKernel.v ===== *)
(** * The kernel as a system

    Threads call the kernel, interrupt handlers wake threads, timers of sleeps fire;
    a thread that runs again after a sleep first finishes the call it slept in.
    Ghost state counts what the semaphores were given and have granted, and lists what
    was posted to the mailboxes and fetched from them. *)

From Stdlib Require Import ZArith Lia.
From stdpp Require Import base gmap list option numbers functions relations.
From S2P Require Import Prelude ChTime ChSched ChSync.
From stdpp Require Import sets list.
Import OptionNotations.

Local Open Scope Z_scope.

(** [supply] is what a semaphore was given: its first count and the signals; [granted]
    counts the waits that returned [MSG_OK]; [waits] is the semaphore a thread waits for. *)
Record world := World {
  kern : kernel;
  sems : list Z;
  boxes : list Z;
  supply : Z -> Z;
  granted : Z -> Z;
  waits : Z -> option Z;
  posted : Z -> list Z;
  fetched : Z -> list Z
}.

Definition set_kern (k : kernel) (w : world) : world :=
  World k (sems w) (boxes w) (supply w) (granted w) (waits w) (posted w) (fetched w).
Definition add_supply (sp n : Z) (w : world) : world :=
  World (kern w) (sems w) (boxes w) (<[sp := supply w sp + n]> (supply w)) (granted w) (waits w) (posted w) (fetched w).
Definition add_grant (sp : Z) (w : world) : world :=
  World (kern w) (sems w) (boxes w) (supply w) (<[sp := granted w sp + 1]> (granted w)) (waits w) (posted w) (fetched w).
Definition set_waits (t : Z) (v : option Z) (w : world) : world :=
  World (kern w) (sems w) (boxes w) (supply w) (granted w) (<[t := v]> (waits w)) (posted w) (fetched w).
Definition add_posted (mbp msg : Z) (w : world) : world :=
  World (kern w) (sems w) (boxes w) (supply w) (granted w) (waits w) (<[mbp := posted w mbp ++ [msg]]> (posted w)) (fetched w).
Definition add_fetched (mbp msg : Z) (w : world) : world :=
  World (kern w) (sems w) (boxes w) (supply w) (granted w) (waits w) (posted w) (<[mbp := fetched w mbp ++ [msg]]> (fetched w)).
Definition new_sem (sp n : Z) (w : world) : world :=
  World (kern w) (sp :: sems w) (boxes w) (<[sp := n]> (supply w)) (<[sp := 0]> (granted w)) (waits w) (posted w) (fetched w).
Definition new_box (mbp : Z) (w : world) : world :=
  World (kern w) (sems w) (mbp :: boxes w) (supply w) (granted w) (waits w) (<[mbp := []]> (posted w)) (<[mbp := []]> (fetched w)).

(** ** Calls *)

Inductive call :=
| Wait (sp timeout : Z)
| Signal (sp : Z)
| SignalS (sp : Z)                (* with the lock held: [sys_sem_signal_S] *)
| Post (mbp msg timeout : Z)
| Fetch (mbp timeout : Z)
| Yield
| Sleep (ticks : Z)
| Create (tp p : Z)
| SetPriority (p : Z)
| NewSem (sp n : Z)
| NewMailbox (mbp : Z) (buf : list Z).

(** What the result of a wait, a post and a fetch means. *)
Definition wait_result (t sp : Z) (r : option (Z * Z)) (w : world) : world :=
  match r with
  | Some (msg, _) => if msg =? MSG_OK then add_grant sp w else w
  | None => set_waits t (Some sp) w
  end.
Definition post_result (mbp msg : Z) (r : option (Z * Z)) (w : world) : world :=
  match r with
  | Some (m, _) => if m =? MSG_OK then add_posted mbp msg w else w
  | None => w
  end.
Definition fetch_result (mbp : Z) (r : option (Z * Z)) (w : world) : world :=
  match r with
  | Some (m, v) => if m =? MSG_OK then add_fetched mbp v w else w
  | None => w
  end.

Definition do_call (c : call) (w : world) : option world :=
  let k := kern w in
  match c with
  | Wait sp timeout =>
      let? (r, k') := chSemWaitTimeoutS sp timeout k in Some (wait_result (currp k) sp r (set_kern k' w))
  | Signal sp => let? k' := chSemSignal sp k in Some (add_supply sp 1 (set_kern k' w))
  | SignalS sp =>
      let? k1 := chSemSignalI sp k in
      let? k' := chSchRescheduleS k1 in
      Some (add_supply sp 1 (set_kern k' w))
  | Post mbp msg timeout =>
      let? (r, k') := chMBPostTimeoutS mbp msg timeout k in Some (post_result mbp msg r (set_kern k' w))
  | Fetch mbp timeout =>
      let? (r, k') := chMBFetchTimeoutS mbp timeout k in Some (fetch_result mbp r (set_kern k' w))
  | Yield => let? k' := chThdYield k in Some (set_kern k' w)
  | Sleep ticks => let? k' := chThdSleepS ticks k in Some (set_kern k' w)
  | Create tp p => let? k' := chThdCreateStatic tp p k in Some (set_kern k' w)
  | SetPriority p => let? (_, k') := chThdSetPriority p k in Some (set_kern k' w)
  | NewSem sp n => let? k' := chSemObjectInit sp n k in Some (new_sem sp n (set_kern k' w))
  | NewMailbox mbp buf => let? k' := chMBObjectInit mbp buf k in Some (new_box mbp (set_kern k' w))
  end.

(** ** Resuming *)

Definition do_resume (w : world) : option world :=
  let k := kern w in
  let t := currp k in
  let? r := cont k t in
  let? (res, k') := chSchResume r k in
  let w' := set_kern k' w in
  Some (match r_after r with
        | ReturnMsg =>
            match waits w t with
            | Some sp => wait_result t sp res (set_waits t None w')
            | None => w'
            end
        | PostAgain mbp msg _ | PostAheadAgain mbp msg _ => post_result mbp msg res w'
        | FetchAgain mbp _ => fetch_result mbp res w'
        end).

(** ** Interrupts *)

Inductive interrupt :=
| ISignal (sp : Z)
| IPost (mbp msg : Z)
| IFetch (mbp : Z)
| ITimer (tp : Z).

(** A timer is disarmed before it calls. *)
Definition do_handler (i : interrupt) (w : world) : option world :=
  let k := kern w in
  match i with
  | ISignal sp => let? k' := chSemSignalI sp k in Some (add_supply sp 1 (set_kern k' w))
  | IPost mbp msg => let? (m, k') := chMBPostI mbp msg k in Some (post_result mbp msg (Some (m, 0)) (set_kern k' w))
  | IFetch mbp => let? (m, v, k') := chMBFetchI mbp k in Some (fetch_result mbp (Some (m, v)) (set_kern k' w))
  | ITimer tp => let? k' := wakeup tp (set_armed tp false k) in Some (set_kern k' w)
  end.

Definition do_interrupt (i : interrupt) (w : world) : option world :=
  let? w := do_handler i w in
  let? k' := _port_irq_epilogue (kern w) in
  Some (set_kern k' w).

(** ** The system *)

Section system.
(** The idle thread, which calls nothing. *)
Context (idle : Z).

Definition is_header (w : world) (a : Z) : Prop :=
  a = RLIST \/ a ∈ sems w \/ exists mbp, mbp ∈ boxes w /\ (a = qw mbp \/ a = qr mbp).

(** Addresses of objects that do not exist yet. *)
Definition unused (w : world) (a : Z) : Prop := ~ is_header w a /\ a ∉ threads (kern w).

Definition legal (c : call) (w : world) : Prop :=
  let k := kern w in
  currp k <> idle /\
  match c with
  | Wait sp _ => sp ∈ sems w
  | Signal sp | SignalS sp => sp ∈ sems w /\ sem_cnt k sp < 2 ^ 31 - 1
  | Post mbp _ _ | Fetch mbp _ => mbp ∈ boxes w
  | Yield => True
  | Sleep ticks => ticks <> TIME_IMMEDIATE
  | Create tp p => IDLEPRIO <= p <= HIGHPRIO /\ unused w tp /\ Z.of_nat (length (threads k)) < 2 ^ 31 - 1
  | SetPriority p => IDLEPRIO <= p <= HIGHPRIO
  | NewSem sp n => unused w sp /\ 0 <= n < 2 ^ 31
  | NewMailbox mbp buf => unused w (qw mbp) /\ unused w (qr mbp) /\ mbp ∉ boxes w /\ buf <> []
  end.

Definition legal_interrupt (i : interrupt) (w : world) : Prop :=
  match i with
  | ISignal sp => sp ∈ sems w /\ sem_cnt (kern w) sp < 2 ^ 31 - 1
  | IPost mbp _ | IFetch mbp => mbp ∈ boxes w
  | ITimer tp => armed (kern w) tp = true
  end.

(** Interrupts are off until the current thread has finished the call it slept in. *)
Inductive world_step : world -> world -> Prop :=
| ws_call c w w' : cont (kern w) (currp (kern w)) = None -> legal c w -> do_call c w = Some w' -> world_step w w'
| ws_resume w w' : cont (kern w) (currp (kern w)) <> None -> do_resume w = Some w' -> world_step w w'
| ws_interrupt i w w' : cont (kern w) (currp (kern w)) = None -> legal_interrupt i w -> do_interrupt i w = Some w' -> world_step w w'.

(** The start: the main thread runs, the idle thread has been created. *)
Definition memory_zero : kernel :=
  Kernel (fun _ => Thread 0 0 0 CH_STATE_READY 0) [] 0 (fun _ => 0) (fun _ => Mailbox [] 0 0 0 false) (fun _ => false) (fun _ => None) (fun _ => 0).

Definition chSysInit (main : Z) (k : kernel) : option kernel :=
  let k := _scheduler_init k in
  let k := set_currp main (_thread_init main NORMALPRIO k) in
  let k := upd main (set_state CH_STATE_CURRENT) k in
  chThdCreate idle IDLEPRIO k.

Definition world_start (k : kernel) : world :=
  World k [] [] (fun _ => 0) (fun _ => 0) (fun _ => None) (fun _ => []) (fun _ => []).

Definition world_reach (w : world) : Prop :=
  exists main k, NoDup [RLIST; main; idle] /\ chSysInit main memory_zero = Some k /\ rtc world_step (world_start k) w.
End system.
