(* ===== verification/ChKernelProof.v ===== *)
(** * Invariants of the system

    [wbase] says which thread waits where and what it will do when it runs again;
    [wacc] relates the counters of semaphores, the buffers of mailboxes and the
    ghost state.  Each kind of step is shown to keep them. *)

From Stdlib Require Import ZArith Lia.
From stdpp Require Import base gmap list option numbers functions relations.
From S2P Require Import Prelude ChTime ChSched ChSync ChKernelInv ChKernelOps ChMailbox ChKernel.
From stdpp Require Import sets list.
Import OptionNotations.

Local Open Scope Z_scope.

(** ** Counting *)

Fixpoint count (f : Z -> bool) (l : list Z) : nat :=
  match l with
  | [] => 0
  | x :: l => (if f x then 1 else 0) + count f l
  end.

Lemma count_ext f g l : (forall x, x ∈ l -> f x = g x) -> count f l = count g l.
Proof.
  induction l as [|x l IH]; intros H; cbn [count]; [done|]. rewrite (H x) by (by left). f_equal. apply IH. intros y Hy. apply H. by right.
Qed.

Lemma count_change f g l t : NoDup l -> t ∈ l -> (forall x, x <> t -> f x = g x) ->
  (count g l + (if f t then 1 else 0) = count f l + (if g t then 1 else 0))%nat.
Proof.
  induction l as [|x l IH]; intros Hnd Ht H; [by apply elem_of_nil in Ht|]. apply NoDup_cons in Hnd as [Hx Hnd]. cbn [count].
  apply elem_of_cons in Ht as [->|Ht].
  - rewrite (count_ext g f l); [lia|]. intros y Hy. symmetry. apply H. by intros ->.
  - assert (x <> t) as Hxt by (by intros ->). rewrite (H x Hxt). specialize (IH Hnd Ht H). lia.
Qed.

Lemma count_app f l1 l2 : count f (l1 ++ l2) = (count f l1 + count f l2)%nat.
Proof. induction l1 as [|x l1 IH]; cbn [app count]; lia. Qed.

(** A thread that has been woken with [MSG_OK] and not run yet. *)
Definition woken_ok (k : kernel) (t : Z) : bool :=
  (bool_decide (state_of t k = CH_STATE_READY) || bool_decide (state_of t k = CH_STATE_CURRENT)) && (u_of t k =? MSG_OK).

Definition is_fetch (mbp : Z) (r : option resume) : bool :=
  match r with Some (Resume _ (FetchAgain m _)) => m =? mbp | _ => false end.
Definition is_post (mbp : Z) (r : option resume) : bool :=
  match r with Some (Resume _ (PostAgain m _ _)) => m =? mbp | _ => false end.

Definition tally (k : kernel) (f : Z -> bool) : nat := count (fun t => woken_ok k t && f t) (threads k).

(** Threads with a permit of [sp] they have not returned with, readers and writers of a
    mailbox that have been woken and not run yet. *)
Definition sem_woken (w : world) (sp : Z) : nat := tally (kern w) (fun t => bool_decide (waits w t = Some sp)).
Definition readers_woken (k : kernel) (mbp : Z) : nat := tally k (fun t => is_fetch mbp (cont k t)).
Definition writers_woken (k : kernel) (mbp : Z) : nat := tally k (fun t => is_post mbp (cont k t)).

(** ** The invariant *)

Section invariant.
Context (idle : Z).

Definition after_ok (w : world) (a : after) : Prop :=
  match a with
  | ReturnMsg => True
  | PostAgain m _ _ | FetchAgain m _ => m ∈ boxes w
  | PostAheadAgain _ _ _ => False
  end.

Record wbase (Q : queues) (w : world) : Prop := {
  wb_k : kinv (Some (currp (kern w))) [] Q (kern w);
  wb_headers : forall a, is_Some (Q !! a) <-> is_header w a;
  wb_sems : forall a, a ∈ sems w <-> exists l, Q !! a = Some (QSem, l);
  wb_boxes : forall m, m ∈ boxes w -> exists lw lr, Q !! qw m = Some (QWait, lw) /\ Q !! qr m = Some (QWait, lr);
  wb_idle : idle ∈ threads (kern w) /\ cont (kern w) idle = None;
  wb_size : Z.of_nat (length (threads (kern w))) < 2 ^ 31;
  wb_asleep : forall t, t ∈ threads (kern w) -> ~ awake t (kern w) -> cont (kern w) t <> None;
  wb_armed : forall t, armed (kern w) t = true -> exists a, cont (kern w) t = Some (Resume true a);
  wb_cont : forall t r, cont (kern w) t = Some r -> t ∈ threads (kern w) /\ after_ok w (r_after r);
  wb_waiting : forall sp l t, Q !! sp = Some (QSem, l) -> t ∈ l -> waits w t = Some sp;
  wb_waits : forall t sp, waits w t = Some sp -> sp ∈ sems w /\ exists b, cont (kern w) t = Some (Resume b ReturnMsg);
  wb_apart : forall m m', m ∈ boxes w -> m' ∈ boxes w -> qw m <> qr m';
  wb_readers : forall m l t, m ∈ boxes w -> Q !! qr m = Some (QWait, l) -> t ∈ l -> exists b o, cont (kern w) t = Some (Resume b (FetchAgain m o));
  wb_writers : forall m l t, m ∈ boxes w -> Q !! qw m = Some (QWait, l) -> t ∈ l -> exists b v o, cont (kern w) t = Some (Resume b (PostAgain m v o))
}.

(** The counter of a semaphore and its queue. *)
Definition sem_ok (c : Z) (l : list Z) : Prop := match l with [] => 0 <= c < 2 ^ 31 | _ => c = - Z.of_nat (length l) end.

Definition free_slots (m : mailbox_t) : nat := length (buffer m) - mb_cnt m.

(** ** Lookups in changed queues *)

Lemma base_ready Q w : wbase Q w -> exists R, Q !! RLIST = Some (QReady, R).
Proof. intros Hb. destruct (ki_ready _ _ _ _ (wb_k _ _ Hb)) as (R & HR & _). eauto. Qed.

Lemma lookup_ready_ne (Q : queues) R R0 a kd l : Q !! RLIST = Some (QReady, R0) -> kd <> QReady ->
  (<[RLIST := (QReady, R)]> Q !! a = Some (kd, l) <-> Q !! a = Some (kd, l)).
Proof.
  intros HR Hkd. destruct (decide (a = RLIST)) as [->|Hne]; [|by rewrite lookup_insert_ne].
  rewrite lookup_insert_eq, HR. split; congruence.
Qed.

Lemma is_Some_insert (Q : queues) hd v a : is_Some (Q !! hd) -> (is_Some (<[hd := v]> Q !! a) <-> is_Some (Q !! a)).
Proof.
  intros Hh. destruct (decide (a = hd)) as [->|Hne]; [rewrite lookup_insert_eq; split; [done|by eexists]|by rewrite lookup_insert_ne].
Qed.

(** ** The ready list is reordered *)

Lemma awake_dec p k : {awake p k} + {~ awake p k}.
Proof. unfold awake. destruct (decide (state_of p k = CH_STATE_READY)), (decide (state_of p k = CH_STATE_CURRENT)); tauto. Qed.

Lemma woken_ok_spec k t : woken_ok k t = if awake_dec t k then u_of t k =? MSG_OK else false.
Proof.
  unfold woken_ok. destruct (awake_dec t k) as [[E|E]|Hn].
  - by rewrite (bool_decide_eq_true_2 (state_of t k = CH_STATE_READY)).
  - by rewrite (bool_decide_eq_true_2 (state_of t k = CH_STATE_CURRENT)), orb_true_r.
  - unfold awake in Hn. rewrite !bool_decide_eq_false_2 by tauto. done.
Qed.

Lemma woken_same k k' t : (awake t k' <-> awake t k) -> u_of t k' = u_of t k -> woken_ok k' t = woken_ok k t.
Proof. intros Ha Hu. rewrite !woken_ok_spec, Hu. destruct (awake_dec t k'), (awake_dec t k); tauto. Qed.

Lemma tally_same k k' f g : threads k' = threads k ->
  (forall t, t ∈ threads k -> woken_ok k' t = woken_ok k t) -> (forall t, t ∈ threads k -> f t = g t) -> tally k' f = tally k g.
Proof. intros Et Hw Hf. unfold tally. rewrite Et. apply count_ext. intros t Ht. by rewrite Hw, Hf. Qed.

(** No thread is woken or put to sleep. *)
Definition quiet (k k' : kernel) : Prop :=
  (forall t, awake t k' <-> awake t k) /\ (forall t, u_of t k' = u_of t k) /\ threads k' = threads k /\ cont k' = cont k.

(** The same queues, but for the order of the ready list. *)
Definition same_queues (Q Q' : queues) : Prop :=
  (forall a, is_Some (Q' !! a) <-> is_Some (Q !! a)) /\ (forall a kd l, kd <> QReady -> Q' !! a = Some (kd, l) <-> Q !! a = Some (kd, l)).

Lemma same_queues_refl Q : same_queues Q Q.
Proof. by split. Qed.

Lemma same_queues_ready (Q : queues) R R' : Q !! RLIST = Some (QReady, R) -> same_queues Q (<[RLIST := (QReady, R')]> Q).
Proof. intros HR. split; [intros a; by apply is_Some_insert|]. intros a kd l Hkd. by apply (lookup_ready_ne Q R' R). Qed.

Lemma effect_quiet k k' : effect [] k k' -> quiet k k'.
Proof.
  intros (_ & Eu & (Et & _ & _ & _ & Eco) & _ & Haw). split; [|done]. intros t. by apply (Haw t (not_elem_of_nil t)).
Qed.

Lemma node_quiet k k' : node k' = node k -> threads k' = threads k -> cont k' = cont k -> quiet k k'.
Proof. intros En Et Ec. unfold quiet, awake, state_of, u_of. by rewrite En. Qed.

Lemma base_quiet Q Q' w w' : wbase Q w -> quiet (kern w) (kern w') -> same_queues Q Q' -> kinv (Some (currp (kern w'))) [] Q' (kern w') ->
  (forall t, armed (kern w') t = true -> armed (kern w) t = true) -> sems w' = sems w -> boxes w' = boxes w -> waits w' = waits w -> wbase Q' w'.
Proof.
  intros [B1 B2 B3 B4 B5 B6 B7 B8 B9 B10 B11 B12 B13 B14] (Haw & _ & Et & Eco) [S1 S2] Hk' Ea Es Eb Ew.
  split; rewrite ?Et, ?Eco, ?Es, ?Eb, ?Ew; try done.
  - intros a. rewrite S1, B2. unfold is_header. by rewrite Es, Eb.
  - intros a. rewrite B3. by split; intros [l Hl]; exists l; apply S2.
  - intros m Hm. destruct (B4 m Hm) as (lw & lr & H1 & H2). exists lw, lr. by rewrite !S2.
  - intros t Ht Hn. apply B7; [done|]. by rewrite <- Haw.
  - intros t Ht. by apply B8, Ea.
  - intros t r Hr. destruct (B9 t r Hr) as [H1 H2]. split; [done|]. unfold after_ok. by rewrite Eb.
  - intros sp l t Hl%S2; [by apply B10|done].
  - intros m l t Hm Hl%S2; [by apply B13|done].
  - intros m l t Hm Hl%S2; [by apply B14|done].
Qed.

Lemma quiet_woken k k' t : quiet k k' -> woken_ok k' t = woken_ok k t.
Proof. intros (Haw & Hu & _). by apply woken_same. Qed.

Lemma quiet_counts k k' : quiet k k' ->
  (forall m, readers_woken k' m = readers_woken k m) /\ (forall m, writers_woken k' m = writers_woken k m) /\ (forall f, tally k' f = tally k f).
Proof.
  intros Hq. pose proof Hq as (_ & _ & Et & Ec). unfold readers_woken, writers_woken. rewrite Ec.
  split; [|split]; intros m; apply tally_same; try done; intros t _; by apply quiet_woken.
Qed.

(** What the counters and mailboxes must satisfy, given the queues and the counts of
    woken threads. *)
Record books (ws rs wr : Z -> nat) (Q : queues) (w : world) : Prop := {
  bk_sem : forall sp l, Q !! sp = Some (QSem, l) -> sem_ok (sem_cnt (kern w) sp) l;
  bk_permits : forall sp, sp ∈ sems w -> Z.max 0 (sem_cnt (kern w) sp) + granted w sp + Z.of_nat (ws sp) = supply w sp;
  bk_box : forall m, m ∈ boxes w -> mb_wf (mbox (kern w) m) /\ mb_reset (mbox (kern w) m) = false /\
             posted w m = fetched w m ++ mb_contents (mbox (kern w) m);
  bk_readers : forall m l, m ∈ boxes w -> Q !! qr m = Some (QWait, l) -> l <> [] -> (mb_cnt (mbox (kern w) m) <= rs m)%nat;
  bk_writers : forall m l, m ∈ boxes w -> Q !! qw m = Some (QWait, l) -> l <> [] -> (free_slots (mbox (kern w) m) <= wr m)%nat
}.

Lemma books_mono ws rs wr ws' rs' wr' Q w : books ws rs wr Q w -> (forall sp, sp ∈ sems w -> ws' sp = ws sp) ->
  (forall m, m ∈ boxes w -> (rs m <= rs' m)%nat) -> (forall m, m ∈ boxes w -> (wr m <= wr' m)%nat) -> books ws' rs' wr' Q w.
Proof.
  intros [A1 A2 A3 A4 A5] H1 H2 H3. split; try done.
  - intros sp Hsp. rewrite H1 by done. by apply A2.
  - intros m l Hm Hl Hne. etrans; [by apply (A4 m l)|by apply H2].
  - intros m l Hm Hl Hne. etrans; [by apply (A5 m l)|by apply H3].
Qed.

Definition wacc (Q : queues) (w : world) : Prop := books (sem_woken w) (readers_woken (kern w)) (writers_woken (kern w)) Q w.

Definition winv (Q : queues) (w : world) : Prop := wbase Q w /\ wacc Q w.

(** Fewer threads wait, the counters are the same. *)
Definition fewer (Q Q' : queues) : Prop :=
  forall a kd l, kd <> QReady -> Q' !! a = Some (kd, l) -> exists l0, Q !! a = Some (kd, l0) /\ (l <> [] -> l0 <> []).

Lemma same_fewer Q Q' : same_queues Q Q' -> fewer Q Q'.
Proof. intros [_ H] a kd l Hkd Hl%H; [|done]. eauto. Qed.

Lemma books_fewer ws rs wr Q Q' w : books ws rs wr Q w -> fewer Q Q' ->
  (forall sp l, Q' !! sp = Some (QSem, l) -> sem_ok (sem_cnt (kern w) sp) l) -> books ws rs wr Q' w.
Proof.
  intros [A1 A2 A3 A4 A5] Hf Hs. split; try done.
  - intros m l Hm Hl Hne. destruct (Hf _ QWait _ ltac:(done) Hl) as (l0 & Hl0 & Hn). apply (A4 m l0); auto.
  - intros m l Hm Hl Hne. destruct (Hf _ QWait _ ltac:(done) Hl) as (l0 & Hl0 & Hn). apply (A5 m l0); auto.
Qed.

(** The kernel changes, but not its counters and mailboxes. *)
Lemma books_kern ws rs wr Q w k' : books ws rs wr Q w -> sem_cnt k' = sem_cnt (kern w) -> mbox k' = mbox (kern w) -> books ws rs wr Q (set_kern k' w).
Proof. intros [A1 A2 A3 A4 A5] En Em. split; cbn [kern sems boxes supply granted posted fetched set_kern]; rewrite ?En, ?Em; done. Qed.

Lemma acc_quiet Q w w0 : books (sem_woken w0) (readers_woken (kern w0)) (writers_woken (kern w0)) Q w ->
  quiet (kern w0) (kern w) -> waits w = waits w0 -> wacc Q w.
Proof.
  intros Hb Hq Ew. destruct (quiet_counts _ _ Hq) as (E1 & E2 & E3). apply (books_mono _ _ _ _ _ _ _ _ Hb).
  - intros sp _. unfold sem_woken. by rewrite E3, Ew.
  - intros m _. by rewrite E1.
  - intros m _. by rewrite E2.
Qed.

Lemma effect_books Q w k' : wacc Q w -> effect [] (kern w) k' -> wacc Q (set_kern k' w).
Proof.
  intros Ha He. pose proof He as (_ & _ & (_ & En & Em & _) & _). apply (acc_quiet Q _ w); [by apply books_kern|by apply effect_quiet|done].
Qed.

(** The ready list is reordered. *)
Lemma shuffle_ok Q w k' R' : winv Q w -> effect [] (kern w) k' -> kinv (Some (currp k')) [] (<[RLIST := (QReady, R')]> Q) k' ->
  winv (<[RLIST := (QReady, R')]> Q) (set_kern k' w).
Proof.
  intros [Hb Ha] He Hk'. destruct (base_ready _ _ Hb) as [R HR]. pose proof (same_queues_ready Q R R' HR) as Hs.
  pose proof He as (_ & _ & (_ & En & _ & Ea & _) & _). split.
  - apply (base_quiet Q _ w); [done|by apply effect_quiet|done|done| |done..]. cbn [kern set_kern]. by rewrite Ea.
  - apply (books_fewer _ _ _ Q); [by apply effect_books|by apply same_fewer|]. intros sp l Hl%Hs; [|done]. cbn [kern set_kern]. rewrite En.
    by apply (bk_sem _ _ _ _ _ Ha).
Qed.

(** ** A thread is woken *)

Definition shrunk (Q Q' : queues) (W : list Z) : Prop :=
  (forall a, is_Some (Q' !! a) <-> is_Some (Q !! a)) /\
  (forall a kd l, kd <> QReady -> Q' !! a = Some (kd, l) -> exists l0, Q !! a = Some (kd, l0) /\ (forall t, t ∈ l -> t ∈ l0) /\ (forall t, t ∈ l0 -> t ∈ l \/ t ∈ W)) /\
  (forall a kd l, kd <> QReady -> Q !! a = Some (kd, l) -> exists l', Q' !! a = Some (kd, l')).

Lemma shrunk_wake (Q : queues) hd kd l1 l2 t R R0 : Q !! RLIST = Some (QReady, R0) -> Q !! hd = Some (kd, l1 ++ t :: l2) -> kd <> QReady ->
  shrunk Q (<[RLIST := (QReady, R)]> (<[hd := (kd, l1 ++ l2)]> Q)) [t].
Proof.
  intros HR Hl Hkd. assert (Hne : hd <> RLIST) by congruence. split; [|split].
  - intros a. rewrite !is_Some_insert by (rewrite ?lookup_insert_ne by done; eauto). done.
  - intros a kd2 l Hk2 E. destruct (decide (a = RLIST)) as [->|Ha]; [rewrite lookup_insert_eq in E; congruence|].
    rewrite lookup_insert_ne in E by done. destruct (decide (a = hd)) as [->|Hah].
    + rewrite lookup_insert_eq in E. injection E as <- <-. exists (l1 ++ t :: l2). split; [done|].
      split; intros x; rewrite !elem_of_app, elem_of_cons; [tauto|]. rewrite list_elem_of_singleton. tauto.
    + rewrite lookup_insert_ne in E by done. exists l. split; [done|]. tauto.
  - intros a kd2 l Hk2 E. destruct (decide (a = RLIST)) as [->|Ha]; [congruence|]. rewrite lookup_insert_ne by done.
    destruct (decide (a = hd)) as [->|Hah]; [rewrite lookup_insert_eq|rewrite lookup_insert_ne by done; eauto].
    rewrite Hl in E. injection E as <- <-. eauto.
Qed.

Lemma base_wake Q Q' w k0 k' m t : wbase Q w -> shrunk Q Q' [t] -> t ∈ threads (kern w) ->
  node k0 = node (kern w) -> threads k0 = threads (kern w) -> armed k0 = armed (kern w) -> cont k0 = cont (kern w) ->
  effect [t] (upd t (set_u m) k0) k' -> kinv (Some (currp k')) [] Q' k' -> wbase Q' (set_kern k' w).
Proof.
  intros Hb (S1 & S2 & S3) Ht En Et0 Ea0 Eco0 (_ & _ & (Et & _ & _ & Ea & Eco) & HW & Haw) Hk'.
  cbn [upd threads armed cont] in Et, Ea, Eco. rewrite Et0 in Et. rewrite Ea0 in Ea. rewrite Eco0 in Eco.
  destruct Hb as [B1 B2 B3 B4 B5 B6 B7 B8 B9 B10 B11 B12 B13 B14].
  split; cbn [kern sems boxes waits set_kern]; rewrite ?Et, ?Ea, ?Eco; try done.
  - intros a. rewrite S1, B2. done.
  - intros a. rewrite B3. split; intros [l Hl]; [by apply (S3 a QSem l)|]. destruct (S2 a QSem l) as (l0 & H0 & _); [done..|]. eauto.
  - intros b Hb. destruct (B4 b Hb) as (lw & lr & H1 & H2). destruct (S3 _ QWait _ ltac:(done) H1) as [lw' ->], (S3 _ QWait _ ltac:(done) H2) as [lr' ->]. eauto.
  - intros x Hx Hn. destruct (decide (x = t)) as [->|Hne]; [destruct Hn; apply HW; by left|]. apply B7; [done|]. intros Hax. apply Hn.
    apply (Haw x); [by intros ?%list_elem_of_singleton|]. unfold awake, state_of in *. rewrite knode_upd, decide_False by done. by rewrite En.
  - intros sp l x Hl Hx. destruct (S2 sp QSem l) as (l0 & H0 & H1 & _); [done..|]. apply (B10 sp l0); [done|]. by apply H1.
  - intros b l x Hb Hl Hx. destruct (S2 (qr b) QWait l) as (l0 & H0 & H1 & _); [done..|]. apply (B13 b l0); [done..|]. by apply H1.
  - intros b l x Hb Hl Hx. destruct (S2 (qw b) QWait l) as (l0 & H0 & H1 & _); [done..|]. apply (B14 b l0); [done..|]. by apply H1.
Qed.

(** The counts after waking [t]. *)
Lemma tally_wake k k0 k' t m f : NoDup (threads k) -> t ∈ threads k -> ~ awake t k -> node k0 = node k -> threads k0 = threads k ->
  effect [t] (upd t (set_u m) k0) k' -> tally k' f = (tally k f + (if (m =? MSG_OK)%Z && f t then 1 else 0))%nat.
Proof.
  intros Hnd Ht Hna En Et0 (_ & Eu & (Et & _) & HW & Haw). cbn [upd threads] in Et. rewrite Et0 in Et. unfold tally. rewrite Et.
  assert (Hu : u_of t k' = m) by (rewrite Eu; unfold u_of; by rewrite knode_upd, decide_True).
  pose proof (count_change (fun x => woken_ok k x && f x) (fun x => woken_ok k' x && f x) (threads k) t Hnd Ht) as Hc. cbn beta in Hc.
  assert (E1 : woken_ok k t = false) by (rewrite woken_ok_spec; by destruct (awake_dec t k)).
  assert (E2 : woken_ok k' t = (m =? MSG_OK)).
  { rewrite woken_ok_spec, Hu. destruct (awake_dec t k') as [|Hn]; [done|]. destruct Hn. apply HW. by left. }
  rewrite E1, E2 in Hc. cbn [andb] in Hc. rewrite <- Hc; [lia|]. intros x Hx. f_equal. symmetry. apply woken_same.
  - rewrite (proj1 (Haw x ltac:(by intros ?%list_elem_of_singleton))). unfold awake, state_of. rewrite knode_upd, decide_False by done. by rewrite En.
  - rewrite Eu. unfold u_of. rewrite knode_upd, decide_False by done. by rewrite En.
Qed.

Lemma shrunk_fewer Q Q' W : shrunk Q Q' W -> fewer Q Q'.
Proof.
  intros (_ & S2 & _) a kd l Hkd Hl. destruct (S2 _ _ _ Hkd Hl) as (l0 & Hl0 & Hin & _). exists l0. split; [done|].
  destruct l as [|x l]; [done|]. intros _ ->. by apply (not_elem_of_nil x), Hin, elem_of_cons; left.
Qed.

Lemma acc_wake Q' w w' t m k0 : NoDup (threads (kern w)) -> t ∈ threads (kern w) -> ~ awake t (kern w) ->
  node k0 = node (kern w) -> threads k0 = threads (kern w) -> cont k0 = cont (kern w) -> effect [t] (upd t (set_u m) k0) (kern w') -> waits w' = waits w ->
  books (fun sp => sem_woken w sp + (if (m =? MSG_OK)%Z && bool_decide (waits w t = Some sp) then 1 else 0))%nat
        (fun b => readers_woken (kern w) b + (if (m =? MSG_OK)%Z && is_fetch b (cont (kern w) t) then 1 else 0))%nat
        (fun b => writers_woken (kern w) b + (if (m =? MSG_OK)%Z && is_post b (cont (kern w) t) then 1 else 0))%nat Q' w' -> wacc Q' w'.
Proof.
  intros Hnd Ht Hna En Et Ec He Ew Hb. pose proof (tally_wake (kern w) k0 (kern w') t m) as Hw. pose proof He as (_ & _ & (_ & _ & _ & _ & Eco) & _).
  cbn [upd cont] in Eco. apply (books_mono _ _ _ _ _ _ _ _ Hb).
  - intros sp _. unfold sem_woken. rewrite Ew. by apply Hw.
  - intros b _. unfold readers_woken. rewrite Eco, Ec. by rewrite (Hw (fun x => is_fetch b (cont (kern w) x)) Hnd).
  - intros b _. unfold writers_woken. rewrite Eco, Ec. by rewrite (Hw (fun x => is_post b (cont (kern w) x)) Hnd).
Qed.
End invariant.

(** * The steps of the system keep the invariants *)

Section steps.
Context (idle : Z).

Abbreviation wbase := (wbase idle).
Abbreviation winv := (winv idle).

(** ** Going to sleep *)

(** What a sleep of [c] with the continuation [r] does to a state, apart from the queues. *)
Definition slept (c : Z) (r : resume) (k k' : kernel) : Prop :=
  (forall p, p <> c -> (awake p k' <-> awake p k)) /\ ~ awake c k' /\ (forall p, p <> c -> u_of p k' = u_of p k) /\
  threads k' = threads k /\ (forall p, armed k' p = true -> armed k p = true \/ p = c /\ timed r = true) /\
  cont k' = <[c := Some r]> (cont k).

(** Where [c] may be put: [Q0] is [Q] with [c] added to the queue that [r] tells. *)
Definition grown (w' : world) (c : Z) (r : resume) (Q Q0 : queues) : Prop :=
  (forall a, is_Some (Q0 !! a) <-> is_Some (Q !! a)) /\
  (forall a kd l, kd <> QReady -> Q !! a = Some (kd, l) -> exists l', Q0 !! a = Some (kd, l')) /\
  (forall a kd l, kd <> QReady -> Q0 !! a = Some (kd, l) -> exists l0, Q !! a = Some (kd, l0) /\
     forall t, t ∈ l -> t ∈ l0 \/ t = c /\
       match kd with
       | QSem => waits w' c = Some a
       | _ => (forall m, m ∈ boxes w' -> a = qr m -> exists b o, r = Resume b (FetchAgain m o)) /\
              (forall m, m ∈ boxes w' -> a = qw m -> exists b v o, r = Resume b (PostAgain m v o))
       end).

Lemma base_block Q Q0 w w' c r : wbase Q w -> c = currp (kern w) -> c <> idle -> cont (kern w) c = None ->
  slept c r (kern w) (kern w') -> kinv (Some (currp (kern w'))) [] Q0 (kern w') -> grown w' c r Q Q0 ->
  sems w' = sems w -> boxes w' = boxes w -> after_ok w (r_after r) ->
  (forall t, t <> c -> waits w' t = waits w t) -> (forall sp, waits w' c = Some sp -> r_after r = ReturnMsg /\ sp ∈ sems w) -> wbase Q0 w'.
Proof.
  intros Hb -> Hci Hc0 (S1 & S2 & S3 & Et & Sa & Eco) Hk' (G1 & G2 & G3) Es Ebx Haf Hwt Hwc.
  destruct (kinv_cur_state _ _ _ (wb_k _ _ _ Hb)) as (_ & Hc & _). set (c := currp (kern w)) in *.
  destruct Hb as [B1 B2 B3 B4 B5 B6 B7 B8 B9 B10 B11 B12 B13 B14].
  assert (Hco : forall t, t <> c -> cont (kern w') t = cont (kern w) t) by (intros t Ht; rewrite Eco; by rewrite fn_lookup_insert_ne by auto).
  assert (Hcc : cont (kern w') c = Some r) by (rewrite Eco; by rewrite fn_lookup_insert).
  split; rewrite ?Et; try done.
  - intros a. rewrite G1, B2. unfold is_header. by rewrite Es, Ebx.
  - intros a. rewrite Es, B3. split; intros [l Hl]; [by apply (G2 a QSem l)|]. destruct (G3 a QSem l) as (l0 & H0 & _); [done..|]. eauto.
  - intros m Hm. rewrite Ebx in Hm. destruct (B4 m Hm) as (lw & lr & H1 & H2).
    destruct (G2 _ QWait _ ltac:(done) H1) as [lw' ->], (G2 _ QWait _ ltac:(done) H2) as [lr' ->]. eauto.
  - split; [apply B5|]. rewrite Hco by congruence. apply B5.
  - intros t Ht Hn. destruct (decide (t = c)) as [->|Hne]; [by rewrite Hcc|]. rewrite Hco by done. apply B7; [done|]. by rewrite <- S1.
  - intros t Ha. destruct (Sa t Ha) as [Ha'|[-> Htm]].
    + destruct (decide (t = c)) as [->|Hne]; [|rewrite Hco by done; by apply B8].
      destruct (B8 c Ha') as [a E]. congruence.
    + exists (r_after r). rewrite Hcc. destruct r; cbn in *; by subst.
  - intros t r' Hr. destruct (decide (t = c)) as [->|Hne].
    + rewrite Hcc in Hr. injection Hr as <-. split; [done|]. unfold after_ok in *. by rewrite Ebx.
    + rewrite Hco in Hr by done. destruct (B9 t r' Hr) as [H1 H2]. split; [done|]. unfold after_ok in *. by rewrite Ebx.
  - intros sp l t Hl Ht. destruct (G3 sp QSem l) as (l0 & H0 & Hm); [done..|]. destruct (Hm t Ht) as [Ht0|[-> E]]; [|done].
    destruct (decide (t = c)) as [->|Hne]; [|rewrite Hwt by done; by apply (B10 sp l0)]. exfalso.
    destruct (kinv_cur_state _ _ _ B1) as (_ & _ & _ & Hu). apply (Hu _ _ _ H0). by right.
  - intros t sp E. destruct (decide (t = c)) as [->|Hne].
    + rewrite Hcc. rewrite <- (proj1 (Hwc sp E)). rewrite Es. split; [apply (Hwc sp E)|]. exists (timed r). by destruct r.
    + rewrite Hwt in E by done. rewrite Hco, Es by done. by apply (B11 t sp).
  - by rewrite Ebx.
  - intros m l t Hm Hl Ht. destruct (G3 (qr m) QWait l) as (l0 & H0 & Hmm); [done..|]. destruct (Hmm t Ht) as [Ht0|[-> [E _]]].
    + rewrite Hco; [rewrite Ebx in Hm; by apply (B13 m l0)|]. intros ->. destruct (kinv_cur_state _ _ _ B1) as (_ & _ & _ & Hu). apply (Hu _ _ _ H0). by right.
    + destruct (E m Hm eq_refl) as (b & o & ->). rewrite Hcc. eauto.
  - intros m l t Hm Hl Ht. destruct (G3 (qw m) QWait l) as (l0 & H0 & Hmm); [done..|]. destruct (Hmm t Ht) as [Ht0|[-> [_ E]]].
    + rewrite Hco; [rewrite Ebx in Hm; by apply (B14 m l0)|]. intros ->. destruct (kinv_cur_state _ _ _ B1) as (_ & _ & _ & Hu). apply (Hu _ _ _ H0). by right.
    + destruct (E m Hm eq_refl) as (b & v & o & ->). rewrite Hcc. eauto.
Qed.

(** Nobody is counted who sleeps, nor the running thread. *)
Lemma tally_block k k' c r f f' : slept c r k k' -> f c = false -> (forall t, t <> c -> f' t = f t) -> tally k' f' = tally k f.
Proof.
  intros (S1 & S2 & S3 & Et & _) Hf Hff. unfold tally. rewrite Et. apply count_ext. intros t _. destruct (decide (t = c)) as [->|Hne].
  - rewrite Hf, andb_false_r. rewrite woken_ok_spec. by destruct (awake_dec c k').
  - rewrite Hff by done. f_equal. apply woken_same; [by apply S1|by apply S3].
Qed.

Lemma counts_block k k' c r m : slept c r k k' -> cont k c = None ->
  readers_woken k' m = readers_woken k m /\ writers_woken k' m = writers_woken k m.
Proof.
  intros Hs Hc. pose proof Hs as (_ & _ & _ & _ & _ & Eco).
  split; apply (tally_block k k' c r); rewrite ?Hc; try done; intros t Ht; rewrite Eco; by rewrite fn_lookup_insert_ne by auto.
Qed.

Lemma acc_block Q Q0 w w' c r : wbase Q w -> c = currp (kern w) -> cont (kern w) c = None -> slept c r (kern w) (kern w') ->
  (forall t, t <> c -> waits w' t = waits w t) ->
  books (sem_woken w) (readers_woken (kern w)) (writers_woken (kern w)) Q0 w' -> wacc Q0 w'.
Proof.
  intros Hb -> Hc Hs Hwt Hbk.
  assert (Hwc : waits w (currp (kern w)) = None).
  { destruct (waits w (currp (kern w))) as [sp|] eqn:E; [|done]. destruct (wb_waits _ _ _ Hb _ _ E) as (_ & b & Eb'). congruence. }
  apply (books_mono _ _ _ _ _ _ _ _ Hbk).
  - intros sp _. apply (tally_block _ _ _ _ _ _ Hs); [by rewrite bool_decide_eq_false_2 by congruence|]. intros t Ht. by rewrite Hwt.
  - intros m _. by rewrite (proj1 (counts_block _ _ _ _ m Hs Hc)).
  - intros m _. by rewrite (proj2 (counts_block _ _ _ _ m Hs Hc)).
Qed.

(** [k1] is [k] with changes to the message and timer of [c], to counters and mailboxes. *)
Definition prepared (c : Z) (r : resume) (k k1 : kernel) : Prop :=
  (forall p, nxt p k1 = nxt p k /\ prv p k1 = prv p k) /\ (forall p, prio_of p k1 = prio_of p k) /\ (forall p, state_of p k1 = state_of p k) /\
  (forall p, p <> c -> u_of p k1 = u_of p k) /\ threads k1 = threads k /\ currp k1 = currp k /\ cont k1 = cont k /\
  (forall p, armed k1 p = true -> armed k p = true \/ p = c /\ timed r = true).

Lemma prepared_loose Q k k1 r : kinv (Some (currp k)) [] Q k -> prepared (currp k) r k k1 -> kinv None [currp k] Q k1.
Proof.
  intros Hk (P1 & P2 & P3 & P4 & P5 & P6 & _). pose proof (kinv_loosen _ _ _ _ (currp k) Hk) as Hl. rewrite decide_True in Hl by done.
  apply (kinv_change None _ Q k); try done. intros t _ Ht. split; [done|]. apply P4. intros ->. apply Ht. by left.
Qed.

Lemma sleeping_slept k k1 c r st t k' : prepared c r k k1 -> st <> CH_STATE_READY -> st <> CH_STATE_CURRENT -> t <> c ->
  state_of t k1 = CH_STATE_READY ->
  (forall p, u_of p k' = u_of p k1) ->
  (forall p, state_of p k' = if decide (p = t) then CH_STATE_CURRENT else if decide (p = c) then st else state_of p k1) ->
  threads k' = threads k1 -> armed k' = armed k1 -> cont k' = <[c := Some r]> (cont k1) -> slept c r k k'.
Proof.
  intros (P1 & P2 & P3 & P4 & P5 & P6 & P7 & P8) Hst1 Hst2 Htc Hts Hu Hs Et Ea Eco. split; [|split; [|split; [|split; [|split]]]].
  - intros p Hp. unfold awake. rewrite Hs. destruct (decide (p = t)) as [->|Hpt]; [rewrite <- P3; tauto|]. by rewrite decide_False, P3.
  - unfold awake. rewrite Hs, decide_False, decide_True by done. tauto.
  - intros p Hp. rewrite Hu. by apply P4.
  - by rewrite Et, P5.
  - intros p Ha. apply P8. by rewrite <- Ea.
  - by rewrite Eco, P7.
Qed.

Lemma sleep_on_ok Q k k1 hd kd l st r : kok Q k -> idle ∈ threads k -> awake idle k -> currp k <> idle ->
  prepared (currp k) r k k1 -> Q !! hd = Some (kd, l) ->
  match kd with QReady => False | QSem => st = CH_STATE_WTSEM /\ u_of (currp k) k1 = hd | QWait => st = CH_STATE_QUEUED end ->
  let k' := chSchGoSleepS st r (queue_insert (currp k) hd k1) in
  exists R, kok (<[RLIST := (QReady, R)]> (<[hd := (kd, l ++ [currp k])]> Q)) k' /\ slept (currp k) r k k' /\
    sem_cnt k' = sem_cnt k1 /\ mbox k' = mbox k1.
Proof.
  intros Hok Hi Ha Hne Hp Hl Hkd k'. destruct (ready_nonempty Q k idle Hok Hi Ha Hne) as (t & R & HR). destruct Hok as [Hk _].
  destruct (kinv_cur_state _ _ _ Hk) as (_ & Hc & _ & Hu). pose proof (prepared_loose _ _ _ _ Hk Hp) as Hk1.
  pose proof Hp as (P1 & P2 & P3 & P4 & P5 & P6 & P7 & P8).
  destruct (block_ok Q k1 (currp k) hd kd l st r t R Hk1) as (G1 & G2 & G3 & G4 & G5 & G6 & G7 & G8 & G9 & G10 & G11 & G12);
    [done|by rewrite P5|done|done|done|done|]. exists R. split; [done|]. split; [|done].
  apply (sleeping_slept k k1 _ r st t); try done; destruct kd; [done|by destruct Hkd as [-> _]|by subst st|done|by destruct Hkd as [-> _]|by subst st].
Qed.

Lemma grown_on (Q : queues) w' c r hd kd l R R0 : Q !! RLIST = Some (QReady, R0) -> Q !! hd = Some (kd, l) -> kd <> QReady ->
  match kd with
  | QSem => waits w' c = Some hd
  | _ => (forall m, m ∈ boxes w' -> hd = qr m -> exists b o, r = Resume b (FetchAgain m o)) /\
         (forall m, m ∈ boxes w' -> hd = qw m -> exists b v o, r = Resume b (PostAgain m v o))
  end -> grown w' c r Q (<[RLIST := (QReady, R)]> (<[hd := (kd, l ++ [c])]> Q)).
Proof.
  intros HR Hl Hkd Hm. assert (Hne : hd <> RLIST) by congruence. split; [|split].
  - intros a. rewrite !is_Some_insert by (rewrite ?lookup_insert_ne by done; eauto). done.
  - intros a kd2 l2 Hk2 E. destruct (decide (a = RLIST)) as [->|Ha]; [congruence|]. rewrite lookup_insert_ne by done.
    destruct (decide (a = hd)) as [->|Hah]; [rewrite lookup_insert_eq|rewrite lookup_insert_ne by done; eauto].
    rewrite Hl in E. injection E as <- <-. eauto.
  - intros a kd2 l2 Hk2 E. destruct (decide (a = RLIST)) as [->|Ha]; [rewrite lookup_insert_eq in E; congruence|].
    rewrite lookup_insert_ne in E by done. destruct (decide (a = hd)) as [->|Hah].
    + rewrite lookup_insert_eq in E. injection E as <- <-. exists l. split; [done|]. intros t Ht.
      rewrite elem_of_app, list_elem_of_singleton in Ht. destruct Ht as [?| ->]; [by left|]. right. done.
    + rewrite lookup_insert_ne in E by done. exists l2. split; [done|]. tauto.
Qed.

(** Facts about the running thread. *)
Lemma base_running Q w : wbase Q w -> currp (kern w) <> idle -> cont (kern w) (currp (kern w)) = None ->
  idle ∈ threads (kern w) /\ awake idle (kern w) /\ waits w (currp (kern w)) = None /\ armed (kern w) (currp (kern w)) = false.
Proof.
  intros Hb Hne Hc. destruct (wb_idle _ _ _ Hb) as [Hi Hic]. split; [done|]. split; [|split].
  - destruct (awake_dec idle (kern w)) as [|Hn]; [done|]. by destruct (wb_asleep _ _ _ Hb idle Hi Hn).
  - destruct (waits w (currp (kern w))) as [sp|] eqn:E; [|done]. destruct (wb_waits _ _ _ Hb _ _ E) as (_ & b & Eb). congruence.
  - destruct (armed (kern w) (currp (kern w))) eqn:E; [|done]. destruct (wb_armed _ _ _ Hb _ E) as [a Ea]. congruence.
Qed.

(** ** Ends of steps *)

Definition good (w : world) : Prop := exists Q, winv Q w /\ highest Q (kern w).

Lemma highest_same Q Q' k k' : highest Q k -> Q' !! RLIST = Q !! RLIST -> (forall p, prio_of p k' = prio_of p k) -> currp k' = currp k -> highest Q' k'.
Proof. intros Hh EQ Hp Ec R HR. rewrite EQ in HR. specialize (Hh R HR). rewrite Ec, Hp. eapply Forall_impl; [exact Hh|]. intros x. cbn. by rewrite Hp. Qed.

Lemma finish_reschedule Q w : winv Q w -> exists k', chSchRescheduleS (kern w) = Some k' /\ good (set_kern k' w).
Proof.
  intros Hw. destruct (reschedule_ok Q (kern w) _ (wb_k _ _ _ (proj1 Hw))) as (R' & k' & E & He & [Hk Hh]).
  exists k'. split; [done|]. eexists. split; [by apply (shuffle_ok _ Q w k' R')|done].
Qed.

Lemma finish_epilogue Q w : winv Q w -> exists k', _port_irq_epilogue (kern w) = Some k' /\ good (set_kern k' w).
Proof. exact (finish_reschedule Q w). Qed.

(** The counters and mailboxes change, and the accounts. *)
Lemma base_same Q w w' : wbase Q w -> node (kern w') = node (kern w) -> threads (kern w') = threads (kern w) -> currp (kern w') = currp (kern w) ->
  armed (kern w') = armed (kern w) -> cont (kern w') = cont (kern w) -> sems w' = sems w -> boxes w' = boxes w -> waits w' = waits w -> wbase Q w'.
Proof.
  intros Hb En Et Ec Ea Eco Es Ebx Ew. apply (base_quiet _ Q Q w); try done; [by apply node_quiet| |by rewrite Ea].
  rewrite Ec. apply (kinv_rest _ _ _ (kern w)); [apply Hb|done..].
Qed.

Lemma good_same Q w w' : wbase Q w -> highest Q (kern w) -> node (kern w') = node (kern w) -> threads (kern w') = threads (kern w) -> currp (kern w') = currp (kern w) ->
  armed (kern w') = armed (kern w) -> cont (kern w') = cont (kern w) -> sems w' = sems w -> boxes w' = boxes w -> waits w' = waits w ->
  books (sem_woken w) (readers_woken (kern w)) (writers_woken (kern w)) Q w' -> good w'.
Proof.
  intros Hb Hh En Et Ec Ea Eco Es Ebx Ew Hbk. exists Q. split; [split; [by apply (base_same Q w)|]|].
  - apply (acc_quiet Q _ w); [done|by apply node_quiet|done].
  - apply (highest_same Q Q (kern w)); [done|done| |done]. intros p. unfold prio_of. by rewrite En.
Qed.

(** ** Sleeping in a queue *)

Definition arm (b : bool) (c : Z) (k : kernel) : kernel := if b then set_armed c true k else k.

Lemma goSleepTimeout_eq st timeout a hd k1 : timeout <> TIME_IMMEDIATE ->
  chSchGoSleepTimeoutS st timeout a (queue_insert (currp k1) hd k1) =
  Some (chSchGoSleepS st (Resume (negb (timeout =? TIME_INFINITE)) a) (queue_insert (currp k1) hd (arm (negb (timeout =? TIME_INFINITE)) (currp k1) k1))).
Proof.
  intros Ht. unfold chSchGoSleepTimeoutS. destruct (negb (timeout =? TIME_INFINITE)); [|done].
  rewrite (proj2 (Z.eqb_neq timeout _) Ht). done.
Qed.

Lemma arm_prepared c b a k k1 v : node k1 = node k \/ node k1 = node (upd c (set_u v) k) -> threads k1 = threads k -> currp k1 = currp k ->
  cont k1 = cont k -> armed k1 = armed k -> prepared c (Resume b a) k (arm b c k1).
Proof.
  intros Hn Et Ec Eco Ea.
  assert (E : node (arm b c k1) = node k1 /\ threads (arm b c k1) = threads k /\ currp (arm b c k1) = currp k /\ cont (arm b c k1) = cont k) by (by destruct b).
  destruct E as (E1 & E2 & E3 & E4). unfold prepared, nxt, prv, prio_of, state_of, u_of. rewrite E1, E2, E3, E4.
  assert (Hp : forall p, node k1 p = node k p \/ p = c /\ node k1 p = set_u v (node k c)).
  { intros p. destruct Hn as [-> | ->]; [by left|]. rewrite knode_upd. case_decide; [by right|by left]. }
  split; [|split; [|split; [|split; [|split; [done|split; [done|split; [done|]]]]]]]; intros p.
  1-3: by destruct (Hp p) as [-> |[-> ->]].
  - intros Hne. by destruct (Hp p) as [-> |[-> _]].
  - destruct b; cbn; rewrite Ea; [|by left]. destruct (decide (p = c)) as [->|Hne]; [by right|]. by rewrite fn_lookup_insert_ne by auto; left.
Qed.

Lemma block_step Q w w' hd kd l st r k1 : wbase Q w -> highest Q (kern w) -> currp (kern w) <> idle -> cont (kern w) (currp (kern w)) = None ->
  prepared (currp (kern w)) r (kern w) k1 -> Q !! hd = Some (kd, l) ->
  match kd with QReady => False | QSem => st = CH_STATE_WTSEM /\ u_of (currp (kern w)) k1 = hd | QWait => st = CH_STATE_QUEUED end ->
  kern w' = chSchGoSleepS st r (queue_insert (currp (kern w)) hd k1) -> sems w' = sems w -> boxes w' = boxes w -> after_ok w (r_after r) ->
  (forall t, t <> currp (kern w) -> waits w' t = waits w t) -> (forall sp, waits w' (currp (kern w)) = Some sp -> r_after r = ReturnMsg /\ sp ∈ sems w) ->
  match kd with
  | QSem => waits w' (currp (kern w)) = Some hd
  | _ => (forall m, m ∈ boxes w' -> hd = qr m -> exists b o, r = Resume b (FetchAgain m o)) /\
         (forall m, m ∈ boxes w' -> hd = qw m -> exists b v o, r = Resume b (PostAgain m v o))
  end ->
  books (sem_woken w) (readers_woken (kern w)) (writers_woken (kern w)) (<[hd := (kd, l ++ [currp (kern w)])]> Q) w' -> good w'.
Proof.
  intros Hb Hh Hci Hc0 Hp Hl Hkd Ek Es Ebx Haf Hwt Hwc Hpl Hbk. destruct (base_running Q w Hb Hci Hc0) as (Hi & Hai & _).
  destruct (sleep_on_ok Q (kern w) k1 hd kd l st r (conj (wb_k _ _ _ Hb) Hh) Hi Hai Hci Hp Hl Hkd) as (R & [Hk Hh'] & Hs & En & Em).
  rewrite <- Ek in *. destruct (base_ready _ _ _ Hb) as [R0 HR]. assert (kd <> QReady) as Hnr by (by intros ->).
  assert (Hne : hd <> RLIST) by congruence. eexists. split; [|exact Hh']. split.
  - apply (base_block Q _ w w' (currp (kern w)) r); try done. by apply (grown_on Q w' _ r hd kd l R R0).
  - apply (acc_block Q _ w w' (currp (kern w)) r); try done.
    apply (books_fewer _ _ _ (<[hd := (kd, l ++ [currp (kern w)])]> Q)); [done|apply same_fewer, (same_queues_ready _ R0); by rewrite lookup_insert_ne|].
    intros sp l' Hl'. apply (bk_sem _ _ _ _ _ Hbk). eapply (lookup_ready_ne _ R R0); [by rewrite lookup_insert_ne|done|exact Hl'].
Qed.

(** ** Waking a thread of a queue *)

Lemma queued_asleep Q k c hd kd l t : kinv (Some c) [] Q k -> Q !! hd = Some (kd, l) -> t ∈ l -> kd <> QReady -> t ∈ threads k /\ ~ awake t k.
Proof.
  intros Hk Hl Ht Hkd. split; [by eapply ki_members|]. pose proof (ki_in_state _ _ _ _ Hk _ _ _ _ Hl Ht ltac:(apply not_elem_of_nil)) as Hs.
  unfold awake. destruct kd; cbn in Hs; [done|destruct Hs as [-> _]|rewrite Hs]; intros [?|?]; done.
Qed.

Lemma wake_step Q w w' k0 hd kd l1 l2 t m R : wbase Q w -> Q !! hd = Some (kd, l1 ++ t :: l2) -> kd <> QReady ->
  node k0 = node (kern w) -> threads k0 = threads (kern w) -> armed k0 = armed (kern w) -> cont k0 = cont (kern w) ->
  effect [t] (upd t (set_u m) k0) (kern w') -> kinv (Some (currp (kern w'))) [] (<[RLIST := (QReady, R)]> (<[hd := (kd, l1 ++ l2)]> Q)) (kern w') ->
  sems w' = sems w -> boxes w' = boxes w -> waits w' = waits w ->
  books (fun sp => sem_woken w sp + (if (m =? MSG_OK)%Z && bool_decide (waits w t = Some sp) then 1 else 0))%nat
        (fun b => readers_woken (kern w) b + (if (m =? MSG_OK)%Z && is_fetch b (cont (kern w) t) then 1 else 0))%nat
        (fun b => writers_woken (kern w) b + (if (m =? MSG_OK)%Z && is_post b (cont (kern w) t) then 1 else 0))%nat (<[hd := (kd, l1 ++ l2)]> Q) w' ->
  winv (<[RLIST := (QReady, R)]> (<[hd := (kd, l1 ++ l2)]> Q)) w'.
Proof.
  intros Hb Hl Hkd En Et Ea Eco He Hk Es Ebx Ew Hbk. destruct (base_ready _ _ _ Hb) as [R0 HR]. assert (Hne : hd <> RLIST) by congruence.
  destruct (queued_asleep _ _ _ _ _ _ t (wb_k _ _ _ Hb) Hl ltac:(apply elem_of_app; right; by left) Hkd) as [Ht Hna].
  assert (HR1 : <[hd := (kd, l1 ++ l2)]> Q !! RLIST = Some (QReady, R0)) by (by rewrite lookup_insert_ne). split.
  - apply (base_same _ (set_kern (kern w') w)); try done.
    by apply (base_wake idle Q _ w k0 (kern w') m t Hb (shrunk_wake Q hd kd l1 l2 t R R0 HR Hl Hkd)).
  - apply (acc_wake _ w w' t m k0); try done; [apply (wb_k _ _ _ Hb)|].
    apply (books_fewer _ _ _ _ _ _ Hbk); [by apply same_fewer, (same_queues_ready _ R0)|].
    intros sp l' Hl'. apply (bk_sem _ _ _ _ _ Hbk). eapply (lookup_ready_ne _ R R0); [done|done|exact Hl'].
Qed.

(** ** Waiting for a semaphore *)

Lemma s32_small z : - 2 ^ 31 <= z < 2 ^ 31 -> s32 z = z.
Proof. intros H. unfold s32. apply swrap_small; [lia|]. cbn in *. lia. Qed.

Lemma sem_consistent_ok cur L Q k sp l : kinv cur L Q k -> Q !! sp = Some (QSem, l) -> sem_ok (sem_cnt k sp) l -> sem_consistent sp k = true.
Proof.
  intros Hk Hl Hs. unfold sem_consistent. rewrite (notempty_ok _ _ _ _ _ _ _ Hk Hl). destruct l as [|t l]; cbn in Hs.
  - rewrite (proj2 (Z.leb_le _ _)) by lia. done.
  - rewrite (proj2 (Z.ltb_lt _ _)) by lia. by rewrite andb_true_r, orb_true_r.
Qed.

Lemma sem_queue_length cur L Q k sp kd l : kinv cur L Q k -> Q !! sp = Some (kd, l) -> (length l <= length (threads k))%nat.
Proof.
  intros Hk Hl. destruct (proj1 (ki_rings _ _ _ _ Hk) _ _ _ Hl) as [_ Hnd]. apply NoDup_cons in Hnd as [_ Hnd].
  apply submseteq_length, NoDup_submseteq; [done|]. intros x Hx. by eapply ki_members.
Qed.

End steps.
