(* ===== verification/ChSyncSteps.v ===== *)
(** * Waiting for a semaphore and signalling it *)

From Stdlib Require Import ZArith Lia.
From stdpp Require Import base gmap list option numbers functions relations.
From S2P Require Import Prelude ChTime ChSched ChSync ChKernelInv ChKernelOps ChMailbox ChKernel ChKernelProof.
From stdpp Require Import sets list.
Import OptionNotations.

Local Open Scope Z_scope.

Section semaphores.
Context (idle : Z).

Abbreviation wbase := (wbase idle).
Abbreviation winv := (winv idle).
Abbreviation good := (good idle).

Lemma cnt_dec_at sp k : sem_cnt (cnt_dec sp k) sp = s32 (sem_cnt k sp - 1).
Proof. cbn. by rewrite fn_lookup_insert. Qed.

Lemma cnt_inc_at sp k : sem_cnt (cnt_inc sp k) sp = s32 (sem_cnt k sp + 1).
Proof. cbn. by rewrite fn_lookup_insert. Qed.

(** The counter of one semaphore changes, with its accounts. *)
Lemma books_sem ws rs wr ws' rs' wr' Q Q' w w' sp l : books ws rs wr Q w -> sp ∈ sems w -> Q' !! sp = Some (QSem, l) ->
  (forall a kd l', a <> sp -> kd <> QReady -> Q' !! a = Some (kd, l') -> Q !! a = Some (kd, l')) ->
  (forall a, a <> sp -> ws' a = ws a) -> (forall a, rs a <= rs' a)%nat -> (forall a, wr a <= wr' a)%nat ->
  sem_ok (sem_cnt (kern w') sp) l -> Z.max 0 (sem_cnt (kern w') sp) + granted w' sp + Z.of_nat (ws' sp) = supply w' sp ->
  (forall a, a <> sp -> sem_cnt (kern w') a = sem_cnt (kern w) a /\ granted w' a = granted w a /\ supply w' a = supply w a) ->
  sems w' = sems w -> boxes w' = boxes w -> mbox (kern w') = mbox (kern w) -> posted w' = posted w -> fetched w' = fetched w ->
  books ws' rs' wr' Q' w'.
Proof.
  intros [A1 A2 A3 A4 A5] Hsp Hl Hq Hws Hrs Hwr Hs Hp Ho Es Eb Em Epo Efe. split; rewrite ?Es, ?Eb, ?Em, ?Epo, ?Efe; try done.
  - intros a l' Hl'. destruct (decide (a = sp)) as [->|Hne]; [congruence|]. destruct (Ho a Hne) as (-> & _). by apply A1, Hq.
  - intros a Ha. destruct (decide (a = sp)) as [->|Hne]; [done|]. destruct (Ho a Hne) as (-> & -> & ->). rewrite Hws by done. by apply A2.
  - intros m l' Hm Hl' Hne. etrans; [|apply Hrs]. apply (A4 m l'); [done| |done]. apply Hq; [congruence|done|done].
  - intros m l' Hm Hl' Hne. etrans; [|apply Hwr]. apply (A5 m l'); [done| |done]. apply Hq; [congruence|done|done].
Qed.

Lemma sem_range c l n : sem_ok c l -> (length l <= n)%nat -> Z.of_nat n < 2 ^ 31 -> - 2 ^ 31 < c < 2 ^ 31.
Proof. intros Hs Hn H. destruct l; cbn [sem_ok length] in *; lia. Qed.

Lemma wait_ok Q w sp timeout : winv Q w -> highest Q (kern w) -> currp (kern w) <> idle -> cont (kern w) (currp (kern w)) = None -> sp ∈ sems w ->
  exists r k', chSemWaitTimeoutS sp timeout (kern w) = Some (r, k') /\ good (wait_result (currp (kern w)) sp r (set_kern k' w)).
Proof.
  intros [Hb Ha] Hh Hci Hc0 Hsp. destruct (proj1 (wb_sems _ _ _ Hb sp) Hsp) as [l Hl]. pose proof (bk_sem _ _ _ _ _ Ha sp l Hl) as Hs.
  pose proof (sem_queue_length _ _ _ _ _ _ _ (wb_k _ _ _ Hb) Hl) as Hlen. pose proof (wb_size _ _ _ Hb) as Hsz.
  pose proof (sem_range _ _ _ Hs Hlen Hsz) as Hr. pose proof (bk_permits _ _ _ _ _ Ha sp Hsp) as Hpm.
  assert (Hdec : sem_cnt (cnt_dec sp (kern w)) sp = sem_cnt (kern w) sp - 1) by (rewrite cnt_dec_at; apply s32_small; lia).
  assert (Hoth : forall a, a <> sp -> sem_cnt (cnt_dec sp (kern w)) a = sem_cnt (kern w) a) by (intros a Hne; cbn; by rewrite fn_lookup_insert_ne by auto).
  unfold chSemWaitTimeoutS. rewrite (sem_consistent_ok _ _ _ _ _ _ (wb_k _ _ _ Hb) Hl Hs). cbn [negb]. cbv zeta. rewrite Hdec.
  destruct (Z.ltb_spec (sem_cnt (kern w) sp - 1) 0) as [Hlt|Hge].
  - destruct (Z.eqb_spec timeout TIME_IMMEDIATE) as [->|Hti].
    + eexists _, _. split; [done|]. change (wait_result _ _ _ ?w') with w'. apply (good_same idle Q w); try done.
      assert (Hinc : sem_cnt (cnt_inc sp (cnt_dec sp (kern w))) sp = sem_cnt (kern w) sp).
      { rewrite cnt_inc_at, Hdec. rewrite s32_small; lia. }
      apply (books_sem _ _ _ _ _ _ Q _ w _ sp l Ha); try done; cbn [kern set_kern]; rewrite ?Hinc; try done.
      intros a Hne. cbn. rewrite !fn_lookup_insert_ne by auto. done.
    + change (currp (cnt_dec sp (kern w))) with (currp (kern w)). set (c := currp (kern w)) in *.
      set (k1 := upd c (set_u sp) (cnt_dec sp (kern w))).
      rewrite (goSleepTimeout_eq _ _ _ _ k1 Hti). set (b := negb (timeout =? TIME_INFINITE)). change (currp k1) with c. cbn [sleeps mbind option_bind].
      eexists _, _. split; [done|]. cbn [wait_result].
      assert (Hp1 : prepared c (Resume b ReturnMsg) (kern w) (arm b c k1)) by (by apply (arm_prepared c b ReturnMsg (kern w) k1 sp); [right|..]).
      assert (Hcnt : l <> [] \/ sem_cnt (kern w) sp = 0) by (destruct l; [right; cbn in Hs; lia|by left]).
      eapply (block_step idle Q w _ sp QSem l CH_STATE_WTSEM _ (arm b c k1)); try done.
      * split; [done|]. transitivity (u_of c k1); [by destruct b|]. unfold k1, u_of. by rewrite knode_upd, decide_True.
      * intros t Hne. cbn. by rewrite fn_lookup_insert_ne by auto.
      * intros sp' E. cbn in E. rewrite fn_lookup_insert in E. injection E as <-. done.
      * cbn. by rewrite fn_lookup_insert.
      * assert (Ecnt : forall a, sem_cnt (chSchGoSleepS CH_STATE_WTSEM (Resume b ReturnMsg) (queue_insert c sp (arm b c k1))) a = sem_cnt (cnt_dec sp (kern w)) a)
          by (by destruct b).
        apply (books_sem _ _ _ _ _ _ Q _ w _ sp (l ++ [c]) Ha); try done; cbn [kern set_kern set_waits]; rewrite ?Ecnt, ?Hdec.
        -- by rewrite lookup_insert_eq.
        -- intros a kd l' Hne _ E. by rewrite lookup_insert_ne in E by auto.
        -- destruct l as [|x l]; cbn [sem_ok app length] in *; [lia|]. rewrite length_app. cbn [length]. lia.
        -- cbn [granted set_waits set_kern supply]. lia.
        -- intros a Hne. by rewrite Ecnt, Hoth.
        -- by destruct b.
  - eexists _, _. split; [done|]. cbn [wait_result]. cbn [Z.eqb MSG_OK]. apply (good_same idle Q w); try done.
    destruct l as [|x l]; cbn [sem_ok] in Hs; [|lia].
    apply (books_sem _ _ _ _ _ _ Q _ w _ sp [] Ha); try done; cbn [kern set_kern add_grant]; rewrite ?Hdec.
    + cbn [sem_ok]. lia.
    + cbn [granted supply set_kern add_grant]. rewrite fn_lookup_insert. lia.
    + intros a Hne. rewrite Hoth by done. cbn. by rewrite fn_lookup_insert_ne by auto.
Qed.

(** ** Signalling *)

Lemma signal_cnt Q w sp l : winv Q w -> Q !! sp = Some (QSem, l) -> sem_cnt (kern w) sp < 2 ^ 31 - 1 ->
  sem_cnt (cnt_inc sp (kern w)) sp = sem_cnt (kern w) sp + 1 /\ sem_ok (sem_cnt (kern w) sp) l /\ sem_consistent sp (kern w) = true /\
  (forall a, a <> sp -> sem_cnt (cnt_inc sp (kern w)) a = sem_cnt (kern w) a).
Proof.
  intros [Hb Ha] Hl Hc. pose proof (bk_sem _ _ _ _ _ Ha sp l Hl) as Hs.
  pose proof (sem_range _ _ _ Hs (sem_queue_length _ _ _ _ _ _ _ (wb_k _ _ _ Hb) Hl) (wb_size _ _ _ Hb)) as Hr.
  split; [rewrite cnt_inc_at; apply s32_small; lia|]. split; [done|]. split; [by apply (sem_consistent_ok _ _ _ _ _ _ (wb_k _ _ _ Hb) Hl)|].
  intros a Hne. cbn. by rewrite fn_lookup_insert_ne by auto.
Qed.

(** Nobody waits: the counter goes up. *)
Lemma signal_idle_books Q w k' sp : winv Q w -> Q !! sp = Some (QSem, []) -> sem_cnt (kern w) sp < 2 ^ 31 - 1 -> sp ∈ sems w ->
  sem_cnt k' = sem_cnt (cnt_inc sp (kern w)) -> mbox k' = mbox (kern w) ->
  books (sem_woken w) (readers_woken (kern w)) (writers_woken (kern w)) Q (add_supply sp 1 (set_kern k' w)).
Proof.
  intros Hw Hl Hc Hsp En Em. destruct (signal_cnt Q w sp [] Hw Hl Hc) as (Hi & Hs & _ & Ho). pose proof Hw as [Hb Ha].
  pose proof (bk_permits _ _ _ _ _ Ha sp Hsp) as Hpm. cbn [sem_ok] in Hs.
  apply (books_sem _ _ _ _ _ _ Q _ w _ sp [] Ha); try done; cbn [kern set_kern add_supply granted supply]; rewrite ?En, ?Hi.
  - cbn [sem_ok]. lia.
  - rewrite fn_lookup_insert. lia.
  - intros a Hne. rewrite Ho by done. by rewrite fn_lookup_insert_ne by auto.
Qed.

(** The first thread that waits gets the permit. *)
Lemma signal_wake_books Q w k' sp t l : winv Q w -> Q !! sp = Some (QSem, t :: l) -> sem_cnt (kern w) sp < 2 ^ 31 - 1 -> sp ∈ sems w ->
  sem_cnt k' = sem_cnt (cnt_inc sp (kern w)) -> mbox k' = mbox (kern w) ->
  books (fun a => sem_woken w a + (if (MSG_OK =? MSG_OK)%Z && bool_decide (waits w t = Some a) then 1 else 0))%nat
        (fun b => readers_woken (kern w) b + (if (MSG_OK =? MSG_OK)%Z && is_fetch b (cont (kern w) t) then 1 else 0))%nat
        (fun b => writers_woken (kern w) b + (if (MSG_OK =? MSG_OK)%Z && is_post b (cont (kern w) t) then 1 else 0))%nat
        (<[sp := (QSem, l)]> Q) (add_supply sp 1 (set_kern k' w)).
Proof.
  intros Hw Hl Hc Hsp En Em. destruct (signal_cnt Q w sp (t :: l) Hw Hl Hc) as (Hi & Hs & _ & Ho). pose proof Hw as [Hb Ha].
  pose proof (bk_permits _ _ _ _ _ Ha sp Hsp) as Hpm. cbn [sem_ok length] in Hs.
  assert (Hwt : waits w t = Some sp) by (apply (wb_waiting _ _ _ Hb sp (t :: l)); [done|by left]).
  apply (books_sem _ _ _ _ _ _ Q _ w _ sp l Ha); try done; cbn [kern set_kern add_supply granted supply]; rewrite ?En, ?Hi.
  - by rewrite lookup_insert_eq.
  - intros a kd l' Hne _ E. by rewrite lookup_insert_ne in E by auto.
  - intros a Hne. rewrite bool_decide_eq_false_2 by congruence. cbn. lia.
  - intros a. lia.
  - intros a. lia.
  - destruct l; cbn [sem_ok length] in *; lia.
  - rewrite fn_lookup_insert, bool_decide_eq_true_2 by done. cbn [Z.eqb MSG_OK andb]. lia.
  - intros a Hne. rewrite Ho by done. by rewrite fn_lookup_insert_ne by auto.
Qed.

Lemma signalI_ok Q w sp : winv Q w -> sp ∈ sems w -> sem_cnt (kern w) sp < 2 ^ 31 - 1 ->
  exists Q' k', chSemSignalI sp (kern w) = Some k' /\ winv Q' (add_supply sp 1 (set_kern k' w)) /\ currp k' = currp (kern w).
Proof.
  intros Hw Hsp Hc. pose proof Hw as [Hb Ha]. destruct (proj1 (wb_sems _ _ _ Hb sp) Hsp) as [l Hl].
  destruct (signal_cnt Q w sp l Hw Hl Hc) as (Hi & Hs & Hcs & Ho). unfold chSemSignalI. rewrite Hcs. cbn [negb]. cbv zeta. rewrite Hi.
  assert (Hk0 : kinv (Some (currp (kern w))) [] Q (cnt_inc sp (kern w))) by (apply (kinv_rest _ _ _ (kern w)); [apply Hb|done..]).
  destruct l as [|t l]; cbn [sem_ok length] in Hs.
  - rewrite (proj2 (Z.leb_gt _ _)) by lia. exists Q, (cnt_inc sp (kern w)). split; [done|]. split; [|done]. split.
    + by apply (base_same idle Q w).
    + apply (acc_quiet Q _ w); [by apply signal_idle_books|by apply node_quiet|done].
  - rewrite (proj2 (Z.leb_le _ _)) by lia. destruct (fifo_ok _ _ _ _ _ _ _ _ Hk0 Hl) as (k1 & -> & Hu).
    destruct (release_ok Q _ k1 _ sp QSem [] l t MSG_OK Hk0 Hl ltac:(done) Hu) as (R' & k' & -> & He & Ec & Hk').
    eexists _, k'. split; [done|]. split; [|done]. pose proof He as (_ & _ & (_ & En & Em & _) & _).
    apply (wake_step idle Q w _ (cnt_inc sp (kern w)) sp QSem [] l t MSG_OK R'); try done.
    + cbn [kern add_supply set_kern]. by rewrite Ec.
    + by apply signal_wake_books.
Qed.

Lemma effect_relinked W t m k0 k1 k' : relinked k0 k1 -> effect W (upd t (set_u m) k1) k' -> effect W (upd t (set_u m) k0) k'.
Proof.
  intros (Ep & Es & Eu & Et & Ecr & Ecnt & Em & Ea & Eco) (H1 & H2 & H3 & H4 & H5).
  assert (Ex : forall p, state_of p (upd t (set_u m) k1) = state_of p (upd t (set_u m) k0)).
  { intros p. transitivity (state_of p k1); [knode|]. rewrite Es. knode. }
  split; [intros p; rewrite H1; transitivity (prio_of p k1); [knode|]; rewrite Ep; knode|].
  split; [intros p; rewrite H2; unfold u_of in *; rewrite !knode_upd; case_decide; [done|apply Eu]|].
  split; [destruct H3 as (? & ? & ? & ? & ?); unfold rest_same; cbn [upd threads sem_cnt mbox armed cont] in *; intuition congruence|].
  split; [done|]. intros p Hp. specialize (H5 p Hp). unfold awake in *. by rewrite Ex in H5.
Qed.

Lemma signal_ok Q w sp : winv Q w -> highest Q (kern w) -> sp ∈ sems w -> sem_cnt (kern w) sp < 2 ^ 31 - 1 ->
  exists k', chSemSignal sp (kern w) = Some k' /\ good (add_supply sp 1 (set_kern k' w)).
Proof.
  intros Hw Hh Hsp Hc. pose proof Hw as [Hb Ha]. destruct (proj1 (wb_sems _ _ _ Hb sp) Hsp) as [l Hl].
  destruct (signal_cnt Q w sp l Hw Hl Hc) as (Hi & Hs & Hcs & Ho). unfold chSemSignal. rewrite Hcs. cbn [negb]. cbv zeta. rewrite Hi.
  assert (Hk0 : kinv (Some (currp (kern w))) [] Q (cnt_inc sp (kern w))) by (apply (kinv_rest _ _ _ (kern w)); [apply Hb|done..]).
  destruct l as [|t l]; cbn [sem_ok length] in Hs.
  - rewrite (proj2 (Z.leb_gt _ _)) by lia. exists (cnt_inc sp (kern w)). split; [done|]. apply (good_same idle Q w); try done.
    by apply signal_idle_books.
  - rewrite (proj2 (Z.leb_le _ _)) by lia. destruct (fifo_ok _ _ _ _ _ _ _ _ Hk0 Hl) as (k1 & -> & Hu).
    destruct (remove_ok _ [] Q _ k1 sp QSem [] l t Hk0 ltac:(apply not_elem_of_nil) Hl Hu) as (Hk1 & Hq & Ht & [Hst _] & _). cbn [app] in Hk1, Hq.
    destruct Hu as [Hrel _]. pose proof Hrel as (Ep & Es & _ & Et & Ecr & _). destruct (base_ready _ _ _ Hb) as [R0 HR].
    assert (Hne : sp <> RLIST) by congruence.
    destruct (wakeupS_ok (<[sp := (QSem, l)]> Q) k1 _ t MSG_OK Hk1) as (R' & k' & -> & He & Hk' & Hh').
    + apply (highest_same Q _ (kern w)); [done|by rewrite lookup_insert_ne| |by rewrite Ecr]. intros p. by rewrite Ep.
    + by rewrite Et.
    + done.
    + rewrite Es, Hst. done.
    + rewrite Es, Hst. done.
    + apply (effect_relinked _ _ _ (cnt_inc sp (kern w))) in He; [|done]. exists k'. split; [done|]. eexists. split; [|exact Hh'].
      pose proof He as (_ & _ & (_ & En & Em & _) & _).
      apply (wake_step idle Q w _ (cnt_inc sp (kern w)) sp QSem [] l t MSG_OK R'); try done. by apply signal_wake_books.
Qed.
End semaphores.

(** * Posting to a mailbox and fetching from it *)

Section mailboxes.
Context (idle : Z).

Abbreviation wbase := (wbase idle).
Abbreviation winv := (winv idle).
Abbreviation good := (good idle).

(** One more at [m]: a wake-up of a reader or writer of [m] that is being used. *)
Definition extra (m : Z) (n : nat) (f : Z -> nat) : Z -> nat := <[m := f m + n]>%nat f.

Lemma extra_at m n f : extra m n f m = (f m + n)%nat.
Proof. unfold extra. by rewrite fn_lookup_insert. Qed.

Lemma extra_ne m n f a : a <> m -> extra m n f a = f a.
Proof. intros Hne. unfold extra. by rewrite fn_lookup_insert_ne by auto. Qed.

(** One mailbox changes, with its accounts. *)
Lemma books_box ws rs wr ws' rs' wr' Q Q' w w' mbp : books ws rs wr Q w -> mbp ∈ boxes w -> fewer Q Q' ->
  (forall a l, Q' !! a = Some (QSem, l) -> Q !! a = Some (QSem, l)) ->
  (forall a, a ∈ sems w -> ws' a = ws a) -> (forall a, a <> mbp -> rs a <= rs' a)%nat -> (forall a, a <> mbp -> wr a <= wr' a)%nat ->
  mb_wf (mbox (kern w') mbp) -> mb_reset (mbox (kern w') mbp) = false -> posted w' mbp = fetched w' mbp ++ mb_contents (mbox (kern w') mbp) ->
  (forall l, Q' !! qr mbp = Some (QWait, l) -> l <> [] -> mb_cnt (mbox (kern w') mbp) <= rs' mbp)%nat ->
  (forall l, Q' !! qw mbp = Some (QWait, l) -> l <> [] -> free_slots (mbox (kern w') mbp) <= wr' mbp)%nat ->
  (forall a, a <> mbp -> mbox (kern w') a = mbox (kern w) a /\ posted w' a = posted w a /\ fetched w' a = fetched w a) ->
  sems w' = sems w -> boxes w' = boxes w -> sem_cnt (kern w') = sem_cnt (kern w) -> supply w' = supply w -> granted w' = granted w ->
  books ws' rs' wr' Q' w'.
Proof.
  intros [A1 A2 A3 A4 A5] Hm Hf Hq Hws Hrs Hwr H1 H2 H3 H4 H5 Ho Es Eb Ecn Esu Egr. split; rewrite ?Es, ?Eb, ?Ecn, ?Esu, ?Egr.
  - intros sp l Hl%Hq. by apply A1.
  - intros sp Hsp. rewrite Hws by done. by apply A2.
  - intros a Ha. destruct (decide (a = mbp)) as [->|Hne]; [done|]. destruct (Ho a Hne) as (-> & -> & ->). by apply A3.
  - intros a l Ha Hl Hl0. destruct (decide (a = mbp)) as [->|Hne]; [by apply (H4 l)|]. destruct (Ho a Hne) as (-> & _).
    destruct (Hf _ QWait _ ltac:(done) Hl) as (l0 & Hl1 & Hn). etrans; [apply (A4 a l0)|]; auto.
  - intros a l Ha Hl Hl0. destruct (decide (a = mbp)) as [->|Hne]; [by apply (H5 l)|]. destruct (Ho a Hne) as (-> & _).
    destruct (Hf _ QWait _ ltac:(done) Hl) as (l0 & Hl1 & Hn). etrans; [apply (A5 a l0)|]; auto.
Qed.

Lemma fewer_tail (Q : queues) hd kd t l : Q !! hd = Some (kd, t :: l) -> fewer Q (<[hd := (kd, l)]> Q).
Proof.
  intros Hl a kd2 l2 Hk E. destruct (decide (a = hd)) as [->|Hne].
  - rewrite lookup_insert_eq in E. injection E as <- <-. eauto.
  - rewrite lookup_insert_ne in E by auto. eauto.
Qed.

(** The mailbox [mbp] changes to [mb], and a thread of the queue [q] is woken if there is
    one.  [w'] has the new accounts. *)
Lemma hand_over rs wr Q w w' mbp mb q l : wbase Q w -> books (sem_woken w) rs wr Q w -> mbp ∈ boxes w -> Q !! q = Some (QWait, l) ->
  mb_wf mb -> mb_reset mb = false -> posted w' mbp = fetched w' mbp ++ mb_contents mb ->
  (forall a, a <> mbp -> rs a <= readers_woken (kern w) a)%nat -> (forall a, a <> mbp -> wr a <= writers_woken (kern w) a)%nat ->
  (forall lr, Q !! qr mbp = Some (QWait, lr) -> lr <> [] -> mb_cnt mb <= readers_woken (kern w) mbp + if decide (q = qr mbp) then 1 else 0)%nat ->
  (forall lw, Q !! qw mbp = Some (QWait, lw) -> lw <> [] -> free_slots mb <= writers_woken (kern w) mbp + if decide (q = qw mbp) then 1 else 0)%nat ->
  (q = qr mbp \/ q = qw mbp) ->
  (forall a, a <> mbp -> posted w' a = posted w a /\ fetched w' a = fetched w a) ->
  sems w' = sems w -> boxes w' = boxes w -> waits w' = waits w -> supply w' = supply w -> granted w' = granted w ->
  exists Q' k', chThdDequeueNextI q MSG_OK (set_mbox mbp mb (kern w)) = Some k' /\ winv Q' (set_kern k' w') /\ currp k' = currp (kern w).
Proof.
  intros Hb Ha Hm Hl Hwf Hrst Hpo Hrs Hwr Hrd Hwrt Hq Ho Es Ebx Ew Esu Egr. set (k0 := set_mbox mbp mb (kern w)).
  assert (Hk0 : kinv (Some (currp (kern w))) [] Q k0) by (apply (kinv_rest _ _ _ (kern w)); [apply Hb|done..]).
  assert (Hat : mbox k0 mbp = mb) by (cbn; by rewrite fn_lookup_insert).
  assert (Hne : forall a, a <> mbp -> mbox k0 a = mbox (kern w) a) by (intros a Hn; cbn; by rewrite fn_lookup_insert_ne by auto).
  pose proof (dequeueNext_ok Q k0 _ q l MSG_OK Hk0 Hl) as Hd. destruct l as [|t l].
  - exists Q, k0. split; [done|]. split; [|done]. split; [by apply (base_same idle Q w)|].
    apply (acc_quiet Q _ w); [|by apply node_quiet|done].
    apply (books_box _ _ _ _ _ _ Q Q w _ mbp Ha Hm); cbn [set_kern kern posted fetched sems boxes supply granted]; rewrite ?Hat; try done.
    + by intros a kd l Hkd Hl0; eauto.
    + intros lr Hlr Hlr0. etrans; [by apply (Hrd lr)|]. rewrite decide_False; [lia|]. intros ->. congruence.
    + intros lw Hlw Hlw0. etrans; [by apply (Hwrt lw)|]. rewrite decide_False; [lia|]. intros ->. congruence.
    + intros a Han. rewrite Hne by done. split; [done|]. by apply Ho.
  - destruct Hd as (R' & k' & E & He & Ec & Hk'). eexists _, k'. split; [done|]. split; [|done].
    pose proof He as (_ & _ & (_ & En & Em & _) & _). cbn [upd sem_cnt mbox] in En, Em.
    assert (Hrt : q = qr mbp -> is_fetch mbp (cont (kern w) t) = true).
    { intros ->. destruct (wb_readers _ _ _ Hb mbp (t :: l) t Hm Hl ltac:(by left)) as (b & o & ->). cbn. apply Z.eqb_refl. }
    assert (Hwt : q = qw mbp -> is_post mbp (cont (kern w) t) = true).
    { intros ->. destruct (wb_writers _ _ _ Hb mbp (t :: l) t Hm Hl ltac:(by left)) as (b & v & o & ->). cbn. apply Z.eqb_refl. }
    assert (Hws : forall a, a ∈ sems w -> waits w t <> Some a).
    { intros a _ E'. destruct (wb_waits _ _ _ Hb _ _ E') as (_ & b & E2). destruct Hq as [-> | ->].
      - destruct (wb_readers _ _ _ Hb mbp (t :: l) t Hm Hl ltac:(by left)) as (? & ? & ?). congruence.
      - destruct (wb_writers _ _ _ Hb mbp (t :: l) t Hm Hl ltac:(by left)) as (? & ? & ? & ?). congruence. }
    apply (wake_step idle Q w _ k0 q QWait [] l t MSG_OK R'); try done; [cbn [set_kern kern]; by rewrite Ec|].
    apply (books_box _ _ _ _ _ _ Q _ w _ mbp Ha Hm); cbn [set_kern kern posted fetched sems boxes supply granted app]; rewrite ?Em, ?Hat; try done.
    + by apply (fewer_tail _ _ _ t).
    + intros a la E1. destruct (decide (a = q)) as [->|Haq]; [rewrite lookup_insert_eq in E1; congruence|]. by rewrite lookup_insert_ne in E1 by auto.
    + intros a Has. rewrite bool_decide_eq_false_2 by (by apply Hws). rewrite andb_false_r. lia.
    + intros a Hn. etrans; [by apply Hrs|]. lia.
    + intros a Hn. etrans; [by apply Hwr|]. lia.
    + intros lr Hlr Hlr0. destruct (fewer_tail _ _ _ _ _ Hl _ QWait _ ltac:(done) Hlr) as (l0 & Hl0 & Hn). etrans; [apply (Hrd l0); auto|].
      destruct (decide (q = qr mbp)) as [Eq|]; [rewrite (Hrt Eq); cbn; lia|lia].
    + intros lw Hlw Hlw0. destruct (fewer_tail _ _ _ _ _ Hl _ QWait _ ltac:(done) Hlw) as (l0 & Hl0 & Hn). etrans; [apply (Hwrt l0); auto|].
      destruct (decide (q = qw mbp)) as [Eq|]; [rewrite (Hwt Eq); cbn; lia|lia].
    + intros a Han. rewrite Hne by done. split; [done|]. by apply Ho.
Qed.

(** ** Waiting for a message or for room *)

Lemma mb_sleep_ok Q w q l a timeout : winv Q w -> highest Q (kern w) -> currp (kern w) <> idle -> cont (kern w) (currp (kern w)) = None ->
  Q !! q = Some (QWait, l) -> after_ok w a ->
  (forall m, m ∈ boxes w -> q = qr m -> mb_cnt (mbox (kern w) m) = 0%nat /\ exists o, a = FetchAgain m o) ->
  (forall m, m ∈ boxes w -> q = qw m -> free_slots (mbox (kern w) m) = 0%nat /\ exists v o, a = PostAgain m v o) ->
  exists r k', mb_sleep q timeout a (kern w) = Some (r, k') /\ good (set_kern k' w) /\ (r = Some (MSG_TIMEOUT, 0) \/ r = None).
Proof.
  intros [Hb Ha] Hh Hci Hc0 Hl Haf Hr Hw. unfold mb_sleep, chThdEnqueueTimeoutS. destruct (Z.eqb_spec timeout TIME_IMMEDIATE) as [->|Hti].
  - eexists _, _. split; [done|]. split; [|by left]. apply (good_same idle Q w); try done. by apply books_kern.
  - cbv zeta. rewrite (goSleepTimeout_eq _ _ _ _ (kern w) Hti). set (b := negb (timeout =? TIME_INFINITE)). cbn [mbind option_bind].
    eexists _, _. split; [done|]. split; [|by right]. set (c := currp (kern w)) in *.
    assert (Hp : prepared c (Resume b a) (kern w) (arm b c (kern w))) by (by apply (arm_prepared c b a (kern w) (kern w) 0); [left|..]).
    destruct (base_running idle Q w Hb Hci Hc0) as (_ & _ & Hwc & _).
    eapply (block_step idle Q w _ q QWait l CH_STATE_QUEUED _ (arm b c (kern w))); try done.
    + intros sp. change (waits (set_kern ?k w)) with (waits w). congruence.
    + split; intros m Hm Eq; [destruct (Hr m Hm Eq) as [_ [o ->]]|destruct (Hw m Hm Eq) as [_ (v & o & ->)]]; eauto.
    + assert (En : sem_cnt (chSchGoSleepS CH_STATE_QUEUED (Resume b a) (queue_insert c q (arm b c (kern w)))) = sem_cnt (kern w) /\
                 mbox (chSchGoSleepS CH_STATE_QUEUED (Resume b a) (queue_insert c q (arm b c (kern w)))) = mbox (kern w)) by (by destruct b).
      apply books_kern; [|apply En..]. destruct Ha as [A1 A2 A3 A4 A5]. split; try done.
      * intros sp l' E. destruct (decide (sp = q)) as [->|Hne]; [rewrite lookup_insert_eq in E; congruence|]. rewrite lookup_insert_ne in E by auto. by apply A1.
      * intros m l' Hm E Hn. destruct (decide (q = qr m)) as [Eq|Hne]; [destruct (Hr m Hm Eq) as [-> _]; lia|].
        rewrite lookup_insert_ne in E by done. by apply (A4 m l').
      * intros m l' Hm E Hn. destruct (decide (q = qw m)) as [Eq|Hne]; [destruct (Hw m Hm Eq) as [-> _]; lia|].
        rewrite lookup_insert_ne in E by done. by apply (A5 m l').
Qed.

(** A wake-up that is not needed. *)
Lemma no_reader_needed n Q w mbp : books (sem_woken w) (extra mbp n (readers_woken (kern w))) (writers_woken (kern w)) Q w ->
  mb_cnt (mbox (kern w) mbp) = 0%nat \/ n = 0%nat -> wacc Q w.
Proof.
  intros [A1 A2 A3 A4 A5] H0. split; try done. intros m l Hm Hl Hne. specialize (A4 m l Hm Hl Hne). destruct (decide (m = mbp)) as [->|Hn].
  - rewrite extra_at in A4. lia.
  - by rewrite extra_ne in A4.
Qed.

Lemma no_writer_needed n Q w mbp : books (sem_woken w) (readers_woken (kern w)) (extra mbp n (writers_woken (kern w))) Q w ->
  free_slots (mbox (kern w) mbp) = 0%nat \/ n = 0%nat -> wacc Q w.
Proof.
  intros [A1 A2 A3 A4 A5] H0. split; try done. intros m l Hm Hl Hne. specialize (A5 m l Hm Hl Hne). destruct (decide (m = mbp)) as [->|Hn].
  - rewrite extra_at in A5. lia.
  - by rewrite extra_ne in A5.
Qed.

(** ** Posting and fetching *)

Lemma put_ok n Q w mbp msg : wbase Q w -> books (sem_woken w) (readers_woken (kern w)) (extra mbp n (writers_woken (kern w))) Q w -> (n <= 1)%nat ->
  mbp ∈ boxes w -> (0 < free_slots (mbox (kern w) mbp))%nat ->
  exists mb Q' k', mb_put msg (mbox (kern w) mbp) = Some mb /\ chThdDequeueNextI (qr mbp) MSG_OK (set_mbox mbp mb (kern w)) = Some k' /\
    winv Q' (add_posted mbp msg (set_kern k' w)) /\ currp k' = currp (kern w).
Proof.
  intros Hb Ha Hn Hm Hfree. destruct (bk_box _ _ _ _ _ Ha mbp Hm) as (Hwf & Hrst & Hpo).
  destruct (mb_put_ok msg _ Hwf) as (mb & E & Hwf' & Hco & Hcnt & Hlen & Hrst'); [unfold free_slots in Hfree; lia|].
  destruct (wb_boxes _ _ _ Hb mbp Hm) as (lw & lr & Hlw & Hlr). unfold free_slots in Hfree.
  destruct (hand_over _ _ Q w (add_posted mbp msg w) mbp mb (qr mbp) lr Hb Ha Hm Hlr Hwf') as (Q' & k' & E' & Hw' & Ec);
    cbn [add_posted posted fetched]; try done.
  - congruence.
  - rewrite fn_lookup_insert, Hco, Hpo. by rewrite app_assoc.
  - intros a Hne. by rewrite extra_ne.
  - intros l Hl Hl0. pose proof (bk_readers _ _ _ _ _ Ha mbp l Hm Hl Hl0). rewrite decide_True by done. lia.
  - intros l Hl Hl0. pose proof (bk_writers _ _ _ _ _ Ha mbp l Hm Hl Hl0) as Hw. rewrite extra_at in Hw. unfold free_slots in *. lia.
  - by left.
  - intros a Hne. by rewrite fn_lookup_insert_ne by auto.
  - eauto 10.
Qed.

Lemma get_ok n Q w mbp : wbase Q w -> books (sem_woken w) (extra mbp n (readers_woken (kern w))) (writers_woken (kern w)) Q w -> (n <= 1)%nat ->
  mbp ∈ boxes w -> (0 < mb_cnt (mbox (kern w) mbp))%nat ->
  exists v mb Q' k', mb_get (mbox (kern w) mbp) = Some (v, mb) /\ chThdDequeueNextI (qw mbp) MSG_OK (set_mbox mbp mb (kern w)) = Some k' /\
    winv Q' (add_fetched mbp v (set_kern k' w)) /\ currp k' = currp (kern w).
Proof.
  intros Hb Ha Hn Hm Hcnt0. destruct (bk_box _ _ _ _ _ Ha mbp Hm) as (Hwf & Hrst & Hpo).
  destruct (mb_get_ok _ Hwf Hcnt0) as (v & mb & E & Hwf' & Hco & Hcnt & Hlen & Hrst').
  destruct (wb_boxes _ _ _ Hb mbp Hm) as (lw & lr & Hlw & Hlr).
  destruct (hand_over _ _ Q w (add_fetched mbp v w) mbp mb (qw mbp) lw Hb Ha Hm Hlw Hwf') as (Q' & k' & E' & Hw' & Ec);
    cbn [add_fetched posted fetched]; try done.
  - congruence.
  - rewrite fn_lookup_insert, Hpo, Hco. by rewrite <- app_assoc.
  - intros a Hne. by rewrite extra_ne.
  - intros l Hl Hl0. pose proof (bk_readers _ _ _ _ _ Ha mbp l Hm Hl Hl0) as Hr. rewrite extra_at in Hr. lia.
  - intros l Hl Hl0. pose proof (bk_writers _ _ _ _ _ Ha mbp l Hm Hl Hl0). rewrite decide_True by done. unfold free_slots in *. lia.
  - by right.
  - intros a Hne. by rewrite fn_lookup_insert_ne by auto.
  - eauto 10.
Qed.

Lemma post_ok n Q w mbp msg timeout : wbase Q w -> books (sem_woken w) (readers_woken (kern w)) (extra mbp n (writers_woken (kern w))) Q w ->
  highest Q (kern w) -> (n <= 1)%nat -> mbp ∈ boxes w -> currp (kern w) <> idle -> cont (kern w) (currp (kern w)) = None ->
  exists r k', chMBPostTimeoutS mbp msg timeout (kern w) = Some (r, k') /\ good (post_result mbp msg r (set_kern k' w)).
Proof.
  intros Hb Ha Hh Hn Hm Hci Hc0. destruct (bk_box _ _ _ _ _ Ha mbp Hm) as (Hwf & Hrst & Hpo).
  unfold chMBPostTimeoutS. rewrite Hrst. change (chMBGetFreeCountI ?m) with (free_slots m).
  destruct (Nat.ltb_spec 0 (free_slots (mbox (kern w) mbp))) as [Hlt|Hge].
  - destruct (put_ok n Q w mbp msg Hb Ha Hn Hm Hlt) as (mb & Q' & k' & -> & E & Hw' & Ec). cbn [mbind option_bind]. rewrite E. cbn [mbind option_bind].
    destruct (finish_reschedule idle Q' _ Hw') as (k'' & E2 & Hg). cbn [kern add_posted set_kern] in E2. rewrite E2. cbn [mbind option_bind].
    eexists _, _. split; [done|]. exact Hg.
  - assert (Hz : free_slots (mbox (kern w) mbp) = 0%nat) by lia. pose proof (no_writer_needed n Q w mbp Ha (or_introl Hz)) as Ha'.
    destruct (wb_boxes _ _ _ Hb mbp Hm) as (lw & lr & Hlw & Hlr).
    destruct (mb_sleep_ok Q w (qw mbp) lw (PostAgain mbp msg timeout) timeout (conj Hb Ha') Hh Hci Hc0 Hlw Hm) as (r & k' & -> & Hg & Hr).
    + intros m Hm' Eq. by destruct (wb_apart _ _ _ Hb mbp m Hm Hm').
    + intros m Hm' Eq. assert (m = mbp) as -> by (unfold qw in Eq; lia). eauto.
    + eexists _, _. split; [done|]. by destruct Hr as [-> | ->].
Qed.

Lemma fetch_ok n Q w mbp timeout : wbase Q w -> books (sem_woken w) (extra mbp n (readers_woken (kern w))) (writers_woken (kern w)) Q w ->
  highest Q (kern w) -> (n <= 1)%nat -> mbp ∈ boxes w -> currp (kern w) <> idle -> cont (kern w) (currp (kern w)) = None ->
  exists r k', chMBFetchTimeoutS mbp timeout (kern w) = Some (r, k') /\ good (fetch_result mbp r (set_kern k' w)).
Proof.
  intros Hb Ha Hh Hn Hm Hci Hc0. destruct (bk_box _ _ _ _ _ Ha mbp Hm) as (Hwf & Hrst & Hpo).
  unfold chMBFetchTimeoutS. rewrite Hrst. unfold chMBGetUsedCountI.
  destruct (Nat.ltb_spec 0 (mb_cnt (mbox (kern w) mbp))) as [Hlt|Hge].
  - destruct (get_ok n Q w mbp Hb Ha Hn Hm Hlt) as (v & mb & Q' & k' & -> & E & Hw' & Ec). cbn [mbind option_bind]. rewrite E. cbn [mbind option_bind].
    destruct (finish_reschedule idle Q' _ Hw') as (k'' & E2 & Hg). cbn [kern add_fetched set_kern] in E2. rewrite E2. cbn [mbind option_bind].
    eexists _, _. split; [done|]. exact Hg.
  - assert (Hz : mb_cnt (mbox (kern w) mbp) = 0%nat) by lia. pose proof (no_reader_needed n Q w mbp Ha (or_introl Hz)) as Ha'.
    destruct (wb_boxes _ _ _ Hb mbp Hm) as (lw & lr & Hlw & Hlr).
    destruct (mb_sleep_ok Q w (qr mbp) lr (FetchAgain mbp timeout) timeout (conj Hb Ha') Hh Hci Hc0 Hlr Hm) as (r & k' & -> & Hg & Hr).
    + intros m Hm' Eq. assert (m = mbp) as -> by (unfold qr in Eq; lia). eauto.
    + intros m Hm' Eq. by destruct (wb_apart _ _ _ Hb m mbp Hm' Hm).
    + eexists _, _. split; [done|]. by destruct Hr as [-> | ->].
Qed.

Lemma extra_zero m f a : extra m 0 f a = f a.
Proof. destruct (decide (a = m)) as [->|Hne]; [rewrite extra_at; lia|by rewrite extra_ne]. Qed.

Lemma acc_extra_writers Q w mbp : wacc Q w -> books (sem_woken w) (readers_woken (kern w)) (extra mbp 0 (writers_woken (kern w))) Q w.
Proof. intros Ha. apply (books_mono _ _ _ _ _ _ _ _ Ha); [done|done|]. intros a _. by rewrite extra_zero. Qed.

Lemma acc_extra_readers Q w mbp : wacc Q w -> books (sem_woken w) (extra mbp 0 (readers_woken (kern w))) (writers_woken (kern w)) Q w.
Proof. intros Ha. apply (books_mono _ _ _ _ _ _ _ _ Ha); [done| |done]. intros a _. by rewrite extra_zero. Qed.

Lemma postI_ok Q w mbp msg : winv Q w -> mbp ∈ boxes w ->
  exists Q' m k', chMBPostI mbp msg (kern w) = Some (m, k') /\ winv Q' (post_result mbp msg (Some (m, 0)) (set_kern k' w)) /\ currp k' = currp (kern w).
Proof.
  intros [Hb Ha] Hm. destruct (bk_box _ _ _ _ _ Ha mbp Hm) as (Hwf & Hrst & Hpo). unfold chMBPostI. rewrite Hrst. change (chMBGetFreeCountI ?m) with (free_slots m).
  destruct (Nat.ltb_spec 0 (free_slots (mbox (kern w) mbp))) as [Hlt|Hge].
  - destruct (put_ok 0 Q w mbp msg Hb (acc_extra_writers Q w mbp Ha) ltac:(lia) Hm Hlt) as (mb & Q' & k' & -> & E & Hw' & Ec).
    cbn [mbind option_bind]. rewrite E. cbn [mbind option_bind]. exists Q', MSG_OK, k'. done.
  - exists Q, MSG_TIMEOUT, (kern w). split; [done|]. split; [|done]. by destruct w.
Qed.

Lemma fetchI_ok Q w mbp : winv Q w -> mbp ∈ boxes w ->
  exists Q' m v k', chMBFetchI mbp (kern w) = Some (m, v, k') /\ winv Q' (fetch_result mbp (Some (m, v)) (set_kern k' w)) /\ currp k' = currp (kern w).
Proof.
  intros [Hb Ha] Hm. destruct (bk_box _ _ _ _ _ Ha mbp Hm) as (Hwf & Hrst & Hpo). unfold chMBFetchI. rewrite Hrst. unfold chMBGetUsedCountI.
  destruct (Nat.ltb_spec 0 (mb_cnt (mbox (kern w) mbp))) as [Hlt|Hge].
  - destruct (get_ok 0 Q w mbp Hb (acc_extra_readers Q w mbp Ha) ltac:(lia) Hm Hlt) as (v & mb & Q' & k' & -> & E & Hw' & Ec).
    cbn [mbind option_bind]. rewrite E. cbn [mbind option_bind]. exists Q', MSG_OK, v, k'. done.
  - exists Q, MSG_TIMEOUT, 0, (kern w). split; [done|]. split; [|done]. by destruct w.
Qed.
End mailboxes.
