(* ===== verification/ChThreadSteps.v ===== *)
(** * Threads: sleeping, creation, priorities, and the creation of objects *)

From Stdlib Require Import ZArith Lia.
From stdpp Require Import base gmap list option numbers functions relations sorting.
From S2P Require Import Prelude ChTime ChSched ChSync ChKernelInv ChKernelOps ChMailbox ChKernel ChKernelProof ChSyncSteps.
From stdpp Require Import sets list.
Import OptionNotations.

Local Open Scope Z_scope.

(** ** The kernel's invariant under creation *)

Lemma sorted_prio k k' R : StronglySorted (by_prio k) R -> (forall x, x ∈ R -> prio_of x k' = prio_of x k) -> StronglySorted (by_prio k') R.
Proof.
  intros Hs Hp. induction Hs as [|x R Hs IH Hf]; constructor.
  - apply IH. intros y Hy. apply Hp. by right.
  - rewrite Forall_forall in Hf |- *. intros y Hy. specialize (Hf y Hy). unfold by_prio in *. rewrite (Hp x), (Hp y); [done|by right|by left].
Qed.

Lemma kinv_new_thread c Q k tp p : kinv (Some c) [] Q k -> tp ∉ threads k -> Q !! tp = None -> IDLEPRIO <= p ->
  kinv (Some c) [tp] Q (_thread_init tp p k) /\ unqueued Q tp.
Proof.
  intros [H1 (R & H2 & Hs) H3 H4 H5 H6 H7 H8 H9 H10 H11] Htp HQ Hp. set (k1 := _thread_init tp p k).
  assert (En : forall x, x <> tp -> node k1 x = node k x) by (intros x Hx; unfold k1; cbn; by rewrite !fn_lookup_insert_ne by auto).
  assert (Hst : forall x, x <> tp -> state_of x k1 = state_of x k /\ u_of x k1 = u_of x k /\ prio_of x k1 = prio_of x k)
    by (intros x Hx; unfold state_of, u_of, prio_of; by rewrite En).
  assert (Et : threads k1 = threads k ++ [tp]) by done.
  assert (Hm : forall hd kd l t, Q !! hd = Some (kd, l) -> t ∈ l -> t <> tp) by (intros hd kd l t Hl Ht ->; by apply Htp, (H4 _ _ _ _ Hl)).
  split; [split; rewrite ?Et|].
  - apply (rings_same k); [done|]. intros z. unfold nxt, prv, k1. cbn. destruct (decide (z = tp)) as [->|Hz]; [|by rewrite !fn_lookup_insert_ne by auto].
    rewrite !fn_lookup_insert. done.
  - exists R. split; [done|]. apply (sorted_prio k); [done|]. intros x Hx. apply Hst. by eapply Hm.
  - done.
  - intros hd kd l t Hl Ht. apply elem_of_app. left. by eapply H4.
  - intros hd Hhd. rewrite elem_of_app, list_elem_of_singleton. intros [Hin| ->]; [by apply (H5 hd)|]. rewrite HQ in Hhd. by destruct Hhd.
  - apply NoDup_app. split; [done|]. split; [|apply NoDup_singleton]. intros x Hx ->%list_elem_of_singleton. done.
  - intros hd kd l t Hl Ht _. specialize (H7 _ _ _ _ Hl Ht ltac:(apply not_elem_of_nil)). destruct (Hst t) as (E1 & E2 & _); [by eapply Hm|].
    unfold in_state. by rewrite E1, E2.
  - intros t Ht Hn. rewrite list_elem_of_singleton in Hn. apply elem_of_app in Ht as [Ht|Ht%list_elem_of_singleton]; [|done].
    unfold in_place. rewrite (proj1 (Hst t Hn)). by apply H8; [|apply not_elem_of_nil].
  - intros t Ht. destruct (decide (t = tp)) as [->|Hn].
    + unfold k1, prio_of. cbn. rewrite !fn_lookup_insert. done.
    + destruct (Hst t Hn) as (_ & _ & ->). apply H9. apply elem_of_app in Ht as [Ht|Ht%list_elem_of_singleton]; done.
  - destruct (Hst RLIST) as (_ & _ & ->); [|done]. congruence.
  - intros t E. destruct (H11 t E) as (F1 & F2 & _ & F4). assert (t <> tp) as Hn by congruence. split; [done|]. split; [apply elem_of_app; by left|].
    split; [by rewrite list_elem_of_singleton|]. by rewrite (proj1 (Hst t Hn)).
  - intros hd kd l Hl [->|Ht]%elem_of_cons; [congruence|]. by apply (Hm _ _ _ _ Hl Ht).
Qed.

Lemma kinv_set_prio Q k c p : kinv (Some c) [] Q k -> IDLEPRIO <= p -> kinv (Some c) [] Q (upd c (set_prio p) k).
Proof.
  intros Hk Hp. destruct (kinv_cur_state _ _ _ Hk) as (Ec & Hc & Hst & Hu). destruct Hk as [H1 (R & H2 & Hs) H3 H4 H5 H6 H7 H8 H9 H10 H11].
  assert (Es : forall x, state_of x (upd c (set_prio p) k) = state_of x k) by (intros x; knode).
  assert (Eu : forall x, u_of x (upd c (set_prio p) k) = u_of x k) by (intros x; knode).
  assert (Ep : forall x, x <> c -> prio_of x (upd c (set_prio p) k) = prio_of x k) by (intros x Hx; unfold prio_of; by rewrite knode_upd, decide_False).
  split; try done.
  - apply (rings_same k); [done|]. by apply upd_same_links.
  - exists R. split; [done|]. apply (sorted_prio k); [done|]. intros x Hx. apply Ep. intros ->. apply (Hu _ _ _ H2). by right.
  - intros hd kd l t Hl Ht HL. specialize (H7 _ _ _ _ Hl Ht HL). unfold in_state. by rewrite Es, Eu.
  - intros t Ht HL. unfold in_place. rewrite Es. by apply H8.
  - intros t Ht. destruct (decide (t = c)) as [->|Hn]; [|rewrite Ep by done; by apply H9]. unfold prio_of. by rewrite knode_upd, decide_True.
  - rewrite Ep; [done|]. intros <-. apply (Hu _ _ _ H2). by left.
  - intros t E. rewrite Es. by apply H11.
Qed.

Lemma init_nodes hd k : (forall x, x <> hd -> node (queue_init hd k) x = node k x) /\
  (forall x, state_of x (queue_init hd k) = state_of x k) /\ (forall x, u_of x (queue_init hd k) = u_of x k) /\
  (forall x, prio_of x (queue_init hd k) = prio_of x k) /\ nxt hd (queue_init hd k) = hd /\ prv hd (queue_init hd k) = hd.
Proof.
  unfold queue_init. split; [intros x Hx; by rewrite !knode_upd, !decide_False|]. split; [intros x; knode|]. split; [intros x; knode|].
  split; [intros x; knode|]. unfold nxt, prv. rewrite !knode_upd, !decide_True by done. done.
Qed.

Lemma kinv_new_queue c Q k hd kd : kinv (Some c) [] Q k -> hd ∉ threads k -> Q !! hd = None -> kd <> QReady ->
  kinv (Some c) [] (<[hd := (kd, [])]> Q) (queue_init hd k).
Proof.
  intros [H1 (R & H2 & Hs) H3 H4 H5 H6 H7 H8 H9 H10 H11] Hh HQ Hkd. destruct (init_nodes hd k) as (En & Es & Eu & Ep & Enx & Epv).
  assert (Hnr : RLIST <> hd) by congruence.
  assert (Hout : forall h2 k2 l2, Q !! h2 = Some (k2, l2) -> hd ∉ h2 :: l2).
  { intros h2 k2 l2 Hl [->|Hx]%elem_of_cons; [congruence|]. by apply Hh, (H4 _ _ _ _ Hl). }
  assert (Hlk : forall h2 k2 l2, <[hd := (kd, [])]> Q !! h2 = Some (k2, l2) -> h2 = hd /\ k2 = kd /\ l2 = [] \/ h2 <> hd /\ Q !! h2 = Some (k2, l2)).
  { intros h2 k2 l2 E. destruct (decide (h2 = hd)) as [->|Hne]; [rewrite lookup_insert_eq in E; injection E as <- <-; by left|].
    rewrite lookup_insert_ne in E by done. by right. }
  split; try done.
  - destruct H1 as [R1 R2]. split.
    + intros h2 k2 l2 [(-> & -> & ->)|[Hne Hl]]%Hlk.
      * split; [done|]. apply NoDup_singleton.
      * destruct (R1 _ _ _ Hl) as [Hr Hn]. split; [|done]. apply (ring_frame k); [done|]. intros z Hz. unfold nxt, prv. rewrite En; [done|].
        intros ->. by apply (Hout _ _ _ Hl).
    + intros h1 k1 l1 h2 k2 l2 x [(-> & -> & ->)|[Hn1 Hl1]]%Hlk [(-> & -> & ->)|[Hn2 Hl2]]%Hlk Hne Hx; try done.
      * apply list_elem_of_singleton in Hx as ->. by apply (Hout _ _ _ Hl2).
      * intros ->%list_elem_of_singleton. by apply (Hout _ _ _ Hl1).
      * by apply (R2 h1 k1 l1 h2 k2 l2 x).
  - exists R. rewrite lookup_insert_ne by done. split; [done|]. by apply (sorted_prio k).
  - intros h2 l2 [(-> & <- & ->)|[_ Hl]]%Hlk; [done|]. by apply (H3 _ l2).
  - intros h2 k2 l2 t [(-> & -> & ->)|[_ Hl]]%Hlk Ht; [by apply elem_of_nil in Ht|]. by apply (H4 _ _ _ _ Hl).
  - intros h2 [[k2 l2] [(-> & _)|[_ Hl]]%Hlk]; [done|]. apply H5. eauto.
  - intros h2 k2 l2 t [(-> & -> & ->)|[_ Hl]]%Hlk Ht HL; [by apply elem_of_nil in Ht|]. unfold in_state. rewrite Es, Eu. by apply (H7 _ _ _ _ Hl Ht HL).
  - intros t Ht HL. specialize (H8 t Ht HL). unfold in_place in *. rewrite Es. destruct (state_of t k); try done.
    all: destruct H8 as (h2 & k2 & l2 & Hl & Hin); exists h2, k2, l2; rewrite lookup_insert_ne by congruence; done.
  - intros t Ht. rewrite Ep. by apply H9.
  - by rewrite Ep.
  - intros t E. rewrite Es. by apply H11.
Qed.

(** ** Steps of the system *)

Section threads.
Context (idle : Z).

Abbreviation wbase := (wbase idle).
Abbreviation winv := (winv idle).
Abbreviation good := (good idle).

Lemma yield_step Q w : winv Q w -> highest Q (kern w) -> exists k', chThdYield (kern w) = Some k' /\ good (set_kern k' w).
Proof.
  intros Hw Hh. destruct (yield_ok Q (kern w)) as (R' & k' & E & He & [Hk Hh']); [split; [apply Hw|done]|].
  exists k'. split; [done|]. eexists. split; [by apply (shuffle_ok idle Q w k' R')|done].
Qed.

Lemma same_grown w' c r Q Q0 : same_queues Q Q0 -> grown w' c r Q Q0.
Proof.
  intros [S1 S2]. split; [done|]. split.
  - intros a kd l Hkd Hl. exists l. by apply S2.
  - intros a kd l Hkd Hl%S2; [|done]. exists l. split; [done|]. tauto.
Qed.

Lemma sleep_step Q w ticks : winv Q w -> highest Q (kern w) -> currp (kern w) <> idle -> cont (kern w) (currp (kern w)) = None -> ticks <> TIME_IMMEDIATE ->
  exists k', chThdSleepS ticks (kern w) = Some k' /\ good (set_kern k' w).
Proof.
  intros [Hb Ha] Hh Hci Hc0 Hti. unfold chThdSleepS, chSchGoSleepTimeoutS. rewrite (proj2 (Z.eqb_neq ticks _) Hti).
  set (c := currp (kern w)) in *. set (b := negb (ticks =? TIME_INFINITE)). set (r := Resume b ReturnMsg).
  exists (chSchGoSleepS CH_STATE_SLEEPING r (arm b c (kern w))). split; [by unfold b; destruct (negb _)|].
  assert (Hp : prepared c r (kern w) (arm b c (kern w))) by (by apply (arm_prepared c b ReturnMsg (kern w) (kern w) 0); [left|..]).
  pose proof (wb_k _ _ _ Hb) as Hk. destruct (base_running idle Q w Hb Hci Hc0) as (Hi & Hai & Hwc & _).
  destruct (ready_nonempty Q (kern w) idle (conj Hk Hh) Hi Hai Hci) as (t & R & HR). destruct (kinv_cur_state _ _ _ Hk) as (_ & Hc & _ & Hu).
  pose proof Hp as (_ & _ & _ & _ & P5 & P6 & _).
  destruct (goSleep_ok Q (arm b c (kern w)) c CH_STATE_SLEEPING r t R) as ([G1 G1'] & G2 & G3 & G4 & G5 & G6 & G7 & G8 & G9 & G10 & G11 & G12); try done.
  - by apply prepared_loose with (r := r).
  - by rewrite P5.
  - intros hd kd l Hl Hin. destruct (Hu _ _ _ Hl). by right.
  - unfold in_place. unfold state_of. rewrite knode_upd, decide_True by done. done.
  - assert (Hs : slept c r (kern w) (chSchGoSleepS CH_STATE_SLEEPING r (arm b c (kern w)))) by (by apply (sleeping_slept _ (arm b c (kern w)) _ r CH_STATE_SLEEPING t)).
    eexists. split; [|exact G1']. pose proof (same_queues_ready Q _ R HR) as Hsq. split.
    + apply (base_block idle Q _ w (set_kern _ w) c r Hb); try done; [by apply same_grown|].
      intros sp. change (waits (set_kern ?k w)) with (waits w). fold c in Hwc. congruence.
    + apply (acc_block idle Q _ w (set_kern _ w) c r Hb); try done.
      apply (books_fewer _ _ _ Q); [apply books_kern; [done|rewrite G8|rewrite G9]; by destruct b|by apply same_fewer|].
      intros sp l Hl%Hsq; [|done]. change (kern (set_kern ?k w)) with k. rewrite G8. destruct b; by apply (bk_sem _ _ _ _ _ Ha).
Qed.

Lemma set_priority_step Q w p : winv Q w -> IDLEPRIO <= p <= HIGHPRIO ->
  exists o k', chThdSetPriority p (kern w) = Some (o, k') /\ good (set_kern k' w).
Proof.
  intros [Hb Ha] Hp. unfold chThdSetPriority. rewrite (proj2 (Z.ltb_ge _ _)) by lia. cbv zeta.
  set (k1 := upd (currp (kern w)) (set_prio p) (kern w)).
  assert (Es : forall t, state_of t k1 = state_of t (kern w)) by (intros t; unfold k1; knode).
  assert (Eu : forall t, u_of t k1 = u_of t (kern w)) by (intros t; unfold k1; knode).
  assert (Hq : quiet (kern w) k1) by (split; [intros t; unfold awake; by rewrite Es|done]).
  assert (Hw1 : winv Q (set_kern k1 w)).
  { split.
    - apply (base_quiet idle Q Q w); try done. apply kinv_set_prio; [apply Hb|lia].
    - apply (acc_quiet Q _ w); [by apply books_kern|done|done]. }
  destruct (finish_reschedule idle Q _ Hw1) as (k' & E & Hg). cbn [kern set_kern] in E. rewrite E. cbn [mbind option_bind]. eexists _, k'. done.
Qed.

(** ** Creating a thread *)

Lemma tally_new k k' tp f f' : threads k' = threads k ++ [tp] -> tp ∉ threads k -> (forall t, t <> tp -> woken_ok k' t = woken_ok k t) ->
  f' tp = false -> (forall t, t <> tp -> f' t = f t) -> tally k' f' = tally k f.
Proof.
  intros Et Htp Hw Hf Hff. unfold tally. rewrite Et, count_app. cbn [count]. rewrite Hf, andb_false_r. rewrite !Nat.add_0_r.
  apply count_ext. intros t Ht. assert (t <> tp) as Hne by (by intros ->). by rewrite Hw, Hff.
Qed.

Lemma header_lookup Q w a : wbase Q w -> unused w a -> Q !! a = None.
Proof.
  intros Hb [Hh _]. destruct (Q !! a) as [x|] eqn:E; [|done]. destruct Hh. apply (wb_headers _ _ _ Hb). eauto.
Qed.

Lemma create_step Q w tp p : winv Q w -> highest Q (kern w) -> IDLEPRIO <= p <= HIGHPRIO -> unused w tp ->
  Z.of_nat (length (threads (kern w))) < 2 ^ 31 - 1 -> exists k', chThdCreateStatic tp p (kern w) = Some k' /\ good (set_kern k' w).
Proof.
  intros [Hb Ha] Hh Hp Hf Hlen. pose proof (header_lookup Q w tp Hb Hf) as HQ. pose proof Hf as [_ Htp]. unfold chThdCreateStatic.
  rewrite (proj2 (Z.ltb_ge _ _)), bool_decide_eq_false_2 by (done || lia). set (k1 := _thread_init tp p (kern w)).
  destruct (kinv_new_thread _ Q (kern w) tp p (wb_k _ _ _ Hb) Htp HQ ltac:(lia)) as [Hk1 Hu]. fold k1 in Hk1.
  destruct (base_ready _ _ _ Hb) as [R0 HR]. destruct (kinv_cur_state _ _ _ (wb_k _ _ _ Hb)) as (_ & Hc & _).
  assert (En : forall x, x <> tp -> node k1 x = node (kern w) x) by (intros x Hx; unfold k1; cbn; by rewrite !fn_lookup_insert_ne by auto).
  assert (Est : state_of tp k1 = CH_STATE_WTSTART) by (unfold k1, state_of; cbn; by rewrite fn_lookup_insert).
  destruct (wakeupS_ok Q k1 _ tp MSG_OK Hk1) as (R' & k' & -> & He & Hk' & Hh'); [| |done|congruence|congruence|].
  { intros R HR1. specialize (Hh R HR1). rewrite Forall_forall in Hh |- *. intros x Hx. specialize (Hh x Hx). assert (Ec1 : currp k1 = currp (kern w)) by done. rewrite Ec1.
    assert (Hct : currp (kern w) <> tp) by congruence. unfold prio_of in *. rewrite (En _ Hct), En; [done|]. intros ->. by apply Htp, (ki_members _ _ _ _ (wb_k _ _ _ Hb) _ _ _ _ HR1). }
  { apply elem_of_app. right. by left. }
  exists k'. split; [done|]. eexists. split; [|exact Hh']. pose proof He as (_ & Eu & (Et & Ecn & Em & Ea & Eco) & HW & Haw).
  cbn [upd threads sem_cnt mbox armed cont k1 _thread_init REG_INSERT] in Et, Ecn, Em, Ea, Eco.
  assert (Haw' : forall x, x <> tp -> awake x k' <-> awake x (kern w)).
  { intros x Hx. rewrite (proj1 (Haw x ltac:(by rewrite list_elem_of_singleton))). unfold awake, state_of. by rewrite !knode_upd, !decide_False, En. }
  assert (Hwk : forall x, x <> tp -> woken_ok k' x = woken_ok (kern w) x).
  { intros x Hx. apply woken_same; [by apply Haw'|]. rewrite Eu. unfold u_of. by rewrite knode_upd, decide_False, En. }
  assert (Hct : cont (kern w) tp = None).
  { destruct (cont (kern w) tp) as [r|] eqn:E; [|done]. by destruct Htp, (wb_cont _ _ _ Hb tp r E). }
  assert (Hwt : waits w tp = None).
  { destruct (waits w tp) as [sp|] eqn:E; [|done]. destruct (wb_waits _ _ _ Hb _ _ E) as (_ & b & E2). congruence. }
  pose proof (same_queues_ready Q R0 R' HR) as Hsq. split.
  - destruct Hsq as [S1 S2]. destruct Hb as [B1 B2 B3 B4 B5 B6 B7 B8 B9 B10 B11 B12 B13 B14].
    split; cbn [kern sems boxes waits set_kern]; rewrite ?Et, ?Ea, ?Eco; try done.
    + intros a. by rewrite S1, B2.
    + intros a. rewrite B3. by split; intros [l Hl]; exists l; apply S2.
    + intros m Hm. destruct (B4 m Hm) as (lw & lr & H1 & H2). exists lw, lr. by rewrite !S2.
    + split; [apply elem_of_app; left; apply B5|apply B5].
    + rewrite length_app. cbn [length]. lia.
    + intros t Ht Hn. destruct (decide (t = tp)) as [->|Hne]; [destruct Hn; apply HW; by left|].
      apply elem_of_app in Ht as [Ht|Ht%list_elem_of_singleton]; [|done]. apply B7; [done|]. by rewrite <- Haw'.
    + intros t r Hr. destruct (B9 t r Hr) as [H1 H2]. split; [apply elem_of_app; by left|done].
    + intros sp l t Hl%S2; [by apply B10|done].
    + intros m l t Hm Hl%S2; [by apply B13|done].
    + intros m l t Hm Hl%S2; [by apply B14|done].
  - assert (Hbk : books (sem_woken w) (readers_woken (kern w)) (writers_woken (kern w)) (<[RLIST := (QReady, R')]> Q) (set_kern k' w)).
    { apply (books_fewer _ _ _ Q); [by apply books_kern|by apply same_fewer|]. intros sp l Hl%Hsq; [|done]. cbn [kern set_kern]. rewrite Ecn. by apply (bk_sem _ _ _ _ _ Ha). }
    apply (books_mono _ _ _ _ _ _ _ _ Hbk).
    + intros sp _. apply (tally_new _ _ tp); try done. by rewrite bool_decide_eq_false_2 by (cbn; congruence).
    + intros m _. change (kern (set_kern k' w)) with k'. unfold readers_woken. rewrite Eco. by rewrite (tally_new (kern w) k' tp _ _ Et Htp Hwk (f_equal (is_fetch m) Hct) (fun t _ => eq_refl)).
    + intros m _. change (kern (set_kern k' w)) with k'. unfold writers_woken. rewrite Eco. by rewrite (tally_new (kern w) k' tp _ _ Et Htp Hwk (f_equal (is_post m) Hct) (fun t _ => eq_refl)).
Qed.
End threads.

(** * New semaphores and mailboxes, running again after a sleep, timers of sleeps *)

Section objects.
Context (idle : Z).

Abbreviation wbase := (wbase idle).
Abbreviation winv := (winv idle).
Abbreviation good := (good idle).

(** ** New objects *)

(** An empty queue more. *)
Lemma init_quiet hd k : quiet k (queue_init hd k).
Proof. destruct (init_nodes hd k) as (_ & Es & Eu & _). split; [intros t; unfold awake; by rewrite Es|]. split; [done|]. done. Qed.

Lemma init_highest Q k hd kd : highest Q k -> hd <> RLIST -> highest (<[hd := (kd, [])]> Q) (queue_init hd k).
Proof. intros Hh Hne. apply (highest_same Q _ k); [done|by rewrite lookup_insert_ne|apply init_nodes|done]. Qed.

Lemma lookup_new (Q : queues) hd kd0 a kd l : Q !! hd = None -> <[hd := (kd0, [])]> Q !! a = Some (kd, l) ->
  a = hd /\ kd = kd0 /\ l = [] \/ a <> hd /\ Q !! a = Some (kd, l).
Proof.
  intros HQ E. destruct (decide (a = hd)) as [->|Hne]; [rewrite lookup_insert_eq in E; injection E as <- <-; by left|].
  rewrite lookup_insert_ne in E by done. by right.
Qed.

Lemma new_sem_step Q w sp n : winv Q w -> highest Q (kern w) -> unused w sp -> 0 <= n < 2 ^ 31 ->
  exists k', chSemObjectInit sp n (kern w) = Some k' /\ good (new_sem sp n (set_kern k' w)).
Proof.
  intros [Hb Ha] Hh Hf Hn. pose proof (header_lookup idle Q w sp Hb Hf) as HQ. pose proof Hf as [Hnh Hnt].
  destruct (base_ready _ _ _ Hb) as [R0 HR]. unfold chSemObjectInit. rewrite (proj2 (Z.ltb_ge _ _)) by lia. eexists. split; [done|].
  set (k' := set_cnt sp n (queue_init sp (kern w))). exists (<[sp := (QSem, [])]> Q).
  pose proof (init_quiet sp (kern w)) as (Haw & Hu & _ & _).
  assert (Hq : quiet (kern w) k') by done.
  assert (Hsp : sp ∉ sems w) by (intros Hin; apply Hnh; right; by left).
  assert (Hmb : forall m, m ∈ boxes w -> qw m <> sp /\ qr m <> sp) by (intros m Hm; split; intros E; apply Hnh; right; right; exists m; rewrite E; tauto).
  assert (Hk' : kinv (Some (currp (kern w))) [] (<[sp := (QSem, [])]> Q) k').
  { apply (kinv_rest _ _ _ (queue_init sp (kern w))); [|done..]. by apply kinv_new_queue; [apply Hb|..]. }
  split; [split|].
  - destruct Hb as [B1 B2 B3 B4 B5 B6 B7 B8 B9 B10 B11 B12 B13 B14].
    split; cbn [kern sems boxes waits set_kern new_sem]; try done.
    + intros a. destruct (decide (a = sp)) as [->|Hne].
      * rewrite lookup_insert_eq. split; [|done]. intros _. right. left. by left.
      * rewrite lookup_insert_ne by done. rewrite B2. unfold is_header. cbn [sems boxes new_sem set_kern]. rewrite elem_of_cons. tauto.
    + intros a. rewrite elem_of_cons. destruct (decide (a = sp)) as [->|Hne].
      * rewrite lookup_insert_eq. split; [eauto|by left].
      * rewrite lookup_insert_ne by done. rewrite B3. tauto.
    + intros m Hm. destruct (B4 m Hm) as (lw & lr & H1 & H2), (Hmb m Hm) as [N1 N2]. exists lw, lr. by rewrite !lookup_insert_ne.
    + intros t Ht Hna. apply B7; [done|]. intros Hat. apply Hna. by apply Haw.
    + intros a l t [(_ & _ & ->)|[_ Hl]]%lookup_new Ht; [by apply elem_of_nil in Ht|by apply (B10 a l)|done].
    + intros t a E. destruct (B11 t a E) as [H1 H2]. split; [by right|done].
    + intros m l t Hm [(_ & _ & ->)|[_ Hl]]%lookup_new Ht; [by apply elem_of_nil in Ht|by apply (B13 m l)|done].
    + intros m l t Hm [(_ & _ & ->)|[_ Hl]]%lookup_new Ht; [by apply elem_of_nil in Ht|by apply (B14 m l)|done].
  - apply (acc_quiet _ _ w); [|done|done]. destruct Ha as [A1 A2 A3 A4 A5].
    assert (Hc : forall a, a <> sp -> sem_cnt k' a = sem_cnt (kern w) a) by (intros a Hne; unfold k'; cbn; by rewrite fn_lookup_insert_ne by auto).
    assert (Hcs : sem_cnt k' sp = n) by (unfold k'; cbn; by rewrite fn_lookup_insert).
    split; cbn [kern sems boxes supply granted posted fetched set_kern new_sem]; try done.
    + intros a l [(-> & _ & ->)|[Hne Hl]]%lookup_new; [rewrite Hcs; cbn; lia|rewrite Hc by done; by apply A1|done].
    + intros a Hin. destruct (decide (a = sp)) as [->|Hne].
      * rewrite Hcs, !fn_lookup_insert. assert (sem_woken w sp = 0%nat) as ->; [|lia].
        unfold sem_woken, tally. rewrite (count_ext _ (fun _ => false)); [clear; induction (threads (kern w)); cbn; lia|].
        intros t _. rewrite bool_decide_eq_false_2, andb_false_r; [done|]. intros E. by destruct Hsp, (wb_waits _ _ _ Hb t sp E).
      * rewrite Hc, !fn_lookup_insert_ne by auto. apply A2. apply elem_of_cons in Hin as [->|?]; done.
    + intros m l Hm [(E & _)|[_ Hl]]%lookup_new Hne; [by destruct (Hmb m Hm)|by apply (A4 m l)|done].
    + intros m l Hm [(E & _)|[_ Hl]]%lookup_new Hne; [by destruct (Hmb m Hm)|by apply (A5 m l)|done].
  - apply (highest_same (<[sp := (QSem, [])]> Q) _ (queue_init sp (kern w))); try done. apply init_highest; [done|congruence].
Qed.

Lemma new_box_step Q w mbp buf : winv Q w -> highest Q (kern w) -> unused w (qw mbp) -> unused w (qr mbp) -> mbp ∉ boxes w -> buf <> [] ->
  exists k', chMBObjectInit mbp buf (kern w) = Some k' /\ good (new_box mbp (set_kern k' w)).
Proof.
  intros [Hb Ha] Hh Hfw Hfr Hnew Hbuf. pose proof (header_lookup idle Q w _ Hb Hfw) as HQw. pose proof (header_lookup idle Q w _ Hb Hfr) as HQr.
  assert (Hlen : (0 < length buf)%nat) by (destruct buf; [done|cbn; lia]).
  destruct (base_ready _ _ _ Hb) as [R0 HR]. unfold chMBObjectInit. destruct (Nat.eqb_spec (length buf) 0) as [|_]; [lia|]. eexists. split; [done|].
  set (k1 := set_mbox mbp (Mailbox buf 0 0 0 false) (kern w)). set (k' := chThdQueueObjectInit _ _).
  set (Q1 := <[qw mbp := (QWait, [])]> Q). set (Q2 := <[qr mbp := (QWait, [])]> Q1). exists Q2.
  assert (Hwr : qw mbp <> qr mbp) by (unfold qw, qr; lia).
  assert (HQ1 : Q1 !! qr mbp = None) by (unfold Q1; by rewrite lookup_insert_ne).
  destruct (init_quiet (qw mbp) k1) as (Haw1 & Hu1 & _), (init_quiet (qr mbp) (queue_init (qw mbp) k1)) as (Haw2 & Hu2 & _).
  assert (Haw : forall t, awake t k' <-> awake t (kern w)) by (intros t; exact (iff_trans (Haw2 t) (Haw1 t))).
  assert (Hq : quiet (kern w) k') by (split; [done|split; [|done]]; intros t; exact (eq_trans (Hu2 t) (Hu1 t))).
  assert (Hmb : forall m, m ∈ boxes w -> qw m <> qw mbp /\ qw m <> qr mbp /\ qr m <> qw mbp /\ qr m <> qr mbp).
  { intros m Hm. destruct Hfw as [Hw _], Hfr as [Hr _]. repeat split; intros E.
    - apply Hw. right. right. exists m. split; [done|]. by left.
    - apply Hr. right. right. exists m. split; [done|]. by left.
    - apply Hw. right. right. exists m. split; [done|]. by right.
    - apply Hr. right. right. exists m. split; [done|]. by right. }
  assert (Hlk : forall a kd l, Q2 !! a = Some (kd, l) -> (a = qw mbp \/ a = qr mbp) /\ kd = QWait /\ l = [] \/ a <> qw mbp /\ a <> qr mbp /\ Q !! a = Some (kd, l)).
  { intros a kd l [(-> & -> & ->)|[Hne [(-> & -> & ->)|[Hne' Hl]]%lookup_new]]%lookup_new; [tauto|tauto|tauto|done|done]. }
  assert (Hlo : forall a, a <> qw mbp -> a <> qr mbp -> Q2 !! a = Q !! a) by (intros a H1 H2; unfold Q2, Q1; by rewrite !lookup_insert_ne by auto).
  assert (HL : Q2 !! qw mbp = Some (QWait, []) /\ Q2 !! qr mbp = Some (QWait, [])).
  { unfold Q2, Q1. rewrite lookup_insert_eq, lookup_insert_ne, lookup_insert_eq by auto. done. }
  assert (Hk' : kinv (Some (currp (kern w))) [] Q2 k').
  { apply kinv_new_queue; [|apply Hfr|done|done]. apply kinv_new_queue; [|apply Hfw|done|done]. apply (kinv_rest _ _ _ (kern w)); [apply Hb|done..]. }
  assert (Hcases : forall m, m ∈ mbp :: boxes w -> m = mbp \/ m <> mbp /\ m ∈ boxes w).
  { intros m [->|Hm]%elem_of_cons; [by left|]. right. split; [by intros ->|done]. }
  split; [split|].
  - destruct Hb as [B1 B2 B3 B4 B5 B6 B7 B8 B9 B10 B11 B12 B13 B14].
    split; cbn [kern sems boxes waits set_kern new_box]; try done.
    + intros a. destruct (decide (a = qw mbp)) as [->|Hn1]; [|destruct (decide (a = qr mbp)) as [->|Hn2]].
      * rewrite (proj1 HL). split; [|done]. intros _. right. right. exists mbp. split; [by left|by left].
      * rewrite (proj2 HL). split; [|done]. intros _. right. right. exists mbp. split; [by left|by right].
      * rewrite Hlo, B2 by done. unfold is_header. cbn [sems boxes new_box set_kern]. split; (intros [?|[?|(m & Hm & E)]]; [by left|right; by left|right; right; exists m]).
        -- split; [by right|done].
        -- destruct (Hcases m Hm) as [-> |[_ ?]]; [tauto|done].
    + intros a. rewrite B3. split; intros [l Hl].
      * exists l. rewrite Hlo; [done|congruence|congruence].
      * destruct (Hlk _ _ _ Hl) as [(_ & ? & _)|(_ & _ & ?)]; [done|eauto].
    + intros m [->|[Hne Hm]]%Hcases; [exists [], []; done|]. destruct (Hmb m Hm) as (N1 & N2 & N3 & N4), (B4 m Hm) as (lw & lr & H1 & H2). exists lw, lr. by rewrite !Hlo.
    + intros t Ht Hna. apply B7; [done|]. by rewrite <- Haw.
    + intros t r Hr. destruct (B9 t r Hr) as [H1 H2]. split; [done|]. unfold after_ok in *. cbn [boxes new_box]. destruct (r_after r); try done; by right.
    + intros a l t [(_ & ? & _)|(_ & _ & Hl)]%Hlk; [done|]. by apply B10.
    + intros m m' [->|[_ Hm]]%Hcases [->|[_ Hm']]%Hcases; [done|..].
      * destruct (Hmb m' Hm') as (_ & _ & ? & _). auto.
      * by destruct (Hmb m Hm) as (_ & ? & _).
      * by apply B12.
    + intros m l t Hm [(_ & _ & ->)|(N1 & N2 & Hl)]%Hlk Ht; [by apply elem_of_nil in Ht|]. destruct (Hcases m Hm) as [-> |[_ Hm']]; [done|]. by apply (B13 m l).
    + intros m l t Hm [(_ & _ & ->)|(N1 & N2 & Hl)]%Hlk Ht; [by apply elem_of_nil in Ht|]. destruct (Hcases m Hm) as [-> |[_ Hm']]; [done|]. by apply (B14 m l).
  - apply (acc_quiet _ _ w); [|done|done]. destruct Ha as [A1 A2 A3 A4 A5].
    assert (Hc : forall m, m <> mbp -> mbox k' m = mbox (kern w) m) by (intros m Hne; unfold k'; cbn; by rewrite fn_lookup_insert_ne by auto).
    assert (Hcs : mbox k' mbp = Mailbox buf 0 0 0 false) by (unfold k'; cbn; by rewrite fn_lookup_insert).
    split; cbn [kern sems boxes supply granted posted fetched set_kern new_box]; try done.
    + intros a l [(_ & ? & _)|(_ & _ & Hl)]%Hlk; [done|]. by apply A1.
    + intros m [->|[Hne Hm]]%Hcases.
      * rewrite Hcs, !fn_lookup_insert. split; [|done]. split; cbn; lia.
      * rewrite Hc, !fn_lookup_insert_ne by auto. by apply A3.
    + intros m l Hm [(_ & _ & ->)|(N1 & N2 & Hl)]%Hlk Hl0; [done|]. destruct (Hcases m Hm) as [-> |[Hne Hm']]; [done|]. rewrite Hc by done. by apply (A4 m l).
    + intros m l Hm [(_ & _ & ->)|(N1 & N2 & Hl)]%Hlk Hl0; [done|]. destruct (Hcases m Hm) as [-> |[Hne Hm']]; [done|]. rewrite Hc by done. by apply (A5 m l).
  - apply init_highest; [apply init_highest; [|congruence]|congruence]. by apply (highest_same Q Q (kern w)).
Qed.

(** ** Running again *)

(** The thread [c] has come back from its sleep. *)
Definition resumed (c : Z) (k k1 : kernel) : Prop :=
  node k1 = node k /\ threads k1 = threads k /\ currp k1 = currp k /\ sem_cnt k1 = sem_cnt k /\ mbox k1 = mbox k /\
  cont k1 = <[c := None]> (cont k) /\ (forall p, armed k1 p = true -> armed k p = true /\ p <> c).

Lemma resumed_base Q w w1 : wbase Q w -> resumed (currp (kern w)) (kern w) (kern w1) -> sems w1 = sems w -> boxes w1 = boxes w ->
  (forall t, t <> currp (kern w) -> waits w1 t = waits w t) -> waits w1 (currp (kern w)) = None -> wbase Q w1.
Proof.
  intros Hb (En & Et & Ec & Ecn & Em & Eco & Ha) Es Ebx Hwt Hwc. destruct (kinv_cur_state _ _ _ (wb_k _ _ _ Hb)) as (_ & Hc & Hst & Hu).
  set (c := currp (kern w)) in *. destruct Hb as [B1 B2 B3 B4 B5 B6 B7 B8 B9 B10 B11 B12 B13 B14].
  assert (Hco : forall t, t <> c -> cont (kern w1) t = cont (kern w) t) by (intros t Ht; rewrite Eco; by rewrite fn_lookup_insert_ne by auto).
  assert (Hcc : cont (kern w1) c = None) by (rewrite Eco; by rewrite fn_lookup_insert).
  assert (Hq : forall hd kd l t, Q !! hd = Some (kd, l) -> t ∈ l -> t <> c) by (intros hd kd l t Hl Ht ->; apply (Hu _ _ _ Hl); by right).
  split; rewrite ?Et, ?Ec; try done.
  - apply (kinv_rest _ _ _ (kern w)); done.
  - intros a. rewrite B2. unfold is_header. by rewrite Es, Ebx.
  - intros a. by rewrite Es, B3.
  - intros m. rewrite Ebx. apply B4.
  - split; [apply B5|]. destruct (decide (idle = c)) as [->|Hne]; [done|]. rewrite Hco by done. apply B5.
  - intros t Ht Hna. destruct (decide (t = c)) as [->|Hne]; [|rewrite Hco by done; apply B7; [done|]; intros Hat; apply Hna; unfold awake, state_of in *; by rewrite En].
    destruct Hna. right. unfold state_of in *. by rewrite En.
  - intros t Hat. destruct (Ha t Hat) as [Ha1 Hne]. rewrite Hco by done. by apply B8.
  - intros t r Hr. destruct (decide (t = c)) as [->|Hne]; [congruence|]. rewrite Hco in Hr by done. unfold after_ok. rewrite Ebx. by apply (B9 t r).
  - intros sp l t Hl Ht. rewrite Hwt by (by eapply Hq). by apply (B10 sp l).
  - intros t sp E. destruct (decide (t = c)) as [->|Hne]; [congruence|]. rewrite Hwt in E by done. rewrite Hco, Es by done. by apply B11.
  - by rewrite Ebx.
  - intros m l t Hm Hl Ht. rewrite Ebx in Hm. rewrite Hco by (by eapply Hq). by apply (B13 m l).
  - intros m l t Hm Hl Ht. rewrite Ebx in Hm. rewrite Hco by (by eapply Hq). by apply (B14 m l).
Qed.

Lemma tally_resumed Q w k1 f f' : wbase Q w -> resumed (currp (kern w)) (kern w) k1 -> f' (currp (kern w)) = false ->
  (forall t, t <> currp (kern w) -> f' t = f t) ->
  (tally k1 f' + (if (u_of (currp (kern w)) (kern w) =? MSG_OK)%Z && f (currp (kern w)) then 1 else 0) = tally (kern w) f)%nat.
Proof.
  intros Hb (En & Et & _) Hf Hff. destruct (kinv_cur_state _ _ _ (wb_k _ _ _ Hb)) as (_ & Hc & Hst & _). set (c := currp (kern w)) in *.
  assert (Hw : forall t, woken_ok k1 t = woken_ok (kern w) t) by (intros t; unfold woken_ok, state_of, u_of; by rewrite En).
  assert (Hwc : woken_ok (kern w) c = (u_of c (kern w) =? MSG_OK)).
  { rewrite woken_ok_spec. destruct (awake_dec c (kern w)) as [_|Hn]; [done|]. destruct Hn. by right. }
  unfold tally. rewrite Et. pose proof (count_change (fun t => woken_ok (kern w) t && f t) (fun t => woken_ok k1 t && f' t) (threads (kern w)) c) as Hcc.
  cbn beta in Hcc. rewrite Hf, andb_false_r, Hwc in Hcc. rewrite Hcc; [lia|apply (wb_k _ _ _ Hb)|done|]. intros x Hx. by rewrite Hw, Hff.
Qed.

Lemma resumed_counts Q w k1 r : wbase Q w -> resumed (currp (kern w)) (kern w) k1 -> cont (kern w) (currp (kern w)) = Some r ->
  (forall m, readers_woken k1 m + (if (u_of (currp (kern w)) (kern w) =? MSG_OK)%Z && is_fetch m (Some r) then 1 else 0) = readers_woken (kern w) m)%nat /\
  (forall m, writers_woken k1 m + (if (u_of (currp (kern w)) (kern w) =? MSG_OK)%Z && is_post m (Some r) then 1 else 0) = writers_woken (kern w) m)%nat.
Proof.
  intros Hb Hr Hc. pose proof Hr as (_ & _ & _ & _ & _ & Eco & _). rewrite <- Hc. split; intros m; unfold readers_woken, writers_woken; rewrite Eco.
  - apply (tally_resumed Q w k1 (fun t => is_fetch m (cont (kern w) t)) _ Hb Hr); [by rewrite fn_lookup_insert|]. intros t Ht. by rewrite fn_lookup_insert_ne by auto.
  - apply (tally_resumed Q w k1 (fun t => is_post m (cont (kern w) t)) _ Hb Hr); [by rewrite fn_lookup_insert|]. intros t Ht. by rewrite fn_lookup_insert_ne by auto.
Qed.

Lemma resumed_intro Q w r : wbase Q w -> cont (kern w) (currp (kern w)) = Some r ->
  let k0 := set_cont (currp (kern w)) None (kern w) in
  resumed (currp (kern w)) (kern w) (if timed r && armed k0 (currp (kern w)) then set_armed (currp (kern w)) false k0 else k0).
Proof.
  intros Hb Hc k0. set (c := currp (kern w)) in *. destruct (timed r && armed k0 c) eqn:E.
  - do 6 (split; [done|]). intros p Hp. cbn in Hp. destruct (decide (p = c)) as [->|Hne]; [by rewrite fn_lookup_insert in Hp|].
    rewrite fn_lookup_insert_ne in Hp by auto. done.
  - do 6 (split; [done|]). intros p Hp. cbn in Hp. split; [done|]. intros ->. destruct (wb_armed _ _ _ Hb c Hp) as [a Ea].
    rewrite Hc in Ea. injection Ea as ->. cbn in E. change (armed k0 c) with (armed (kern w) c) in E. congruence.
Qed.

Lemma resume_step Q w r : winv Q w -> highest Q (kern w) -> cont (kern w) (currp (kern w)) = Some r ->
  exists w', do_resume w = Some w' /\ good w'.
Proof.
  intros [Hb Ha] Hh Hc. unfold do_resume, chSchResume. rewrite Hc. cbn [mbind option_bind]. cbv zeta.
  pose proof (resumed_intro Q w r Hb Hc) as Hr. cbv zeta in Hr. set (k1 := if _ && _ then set_armed _ _ _ else _) in *. set (c := currp (kern w)) in *.
  destruct (resumed_counts Q w k1 r Hb Hr Hc) as [Hrd Hwr]. fold c in Hrd, Hwr. destruct (wb_cont _ _ _ Hb c r Hc) as [_ Haf].
  assert (Hci : c <> idle) by (intros E; pose proof (proj2 (wb_idle _ _ _ Hb)); congruence).
  pose proof Hr as (En & Et & Ec & Ecn & Em & Eco & _). assert (Hc1 : cont k1 c = None) by (rewrite Eco; by rewrite fn_lookup_insert).
  assert (Eu : u_of c k1 = u_of c (kern w)) by (unfold u_of; by rewrite En). rewrite Eu. set (u0 := u_of c (kern w)) in *.
  assert (Hh1 : highest Q k1) by (apply (highest_same Q Q (kern w)); [done|done|intros p; unfold prio_of; by rewrite En|done]).
  assert (Hnw : r_after r <> ReturnMsg -> waits w c = None).
  { intros Hn. destruct (waits w c) as [sp|] eqn:E; [|done]. destruct (wb_waits _ _ _ Hb c sp E) as (_ & b & E2). rewrite Hc in E2. injection E2 as ->. done. }
  assert (Hb1 : waits w c = None -> wbase Q (set_kern k1 w)) by (intros Hw; by apply (resumed_base Q w)).
  assert (Hsw : waits w c = None -> forall sp, sem_woken (set_kern k1 w) sp = sem_woken w sp).
  { intros Hw sp. pose proof (tally_resumed Q w k1 (fun t => bool_decide (waits w t = Some sp)) (fun t => bool_decide (waits w t = Some sp)) Hb Hr) as H. cbn beta in H.
    fold c in H. rewrite bool_decide_eq_false_2, andb_false_r in H by congruence. unfold sem_woken at 1. cbn [kern set_kern waits].
    unfold sem_woken. rewrite <- H; [lia|done|done]. }
  pose proof (books_kern _ _ _ Q w k1 Ha Ecn Em) as Hbk.
  destruct (r_after r) as [|mbp msg timeout|mbp msg timeout|mbp timeout] eqn:Er; destruct r as [tm a]; cbn [r_after] in Er; subst a; [|..|done|].
  - cbn [returns]. eexists. split; [done|]. destruct (waits w c) as [sp|] eqn:Ew.
    + set (w1 := set_waits c None (set_kern k1 w)).
      assert (Hbase : wbase Q w1).
      { apply (resumed_base Q w); try done; [|cbn; by rewrite fn_lookup_insert]. intros t Ht. cbn. by rewrite fn_lookup_insert_ne by auto. }
      assert (Hsp : forall a, (sem_woken w1 a + (if (u0 =? MSG_OK)%Z && bool_decide (Some sp = Some a) then 1 else 0) = sem_woken w a)%nat).
      { intros a. pose proof (tally_resumed Q w k1 (fun t => bool_decide (waits w t = Some a)) (fun t => bool_decide (waits w1 t = Some a)) Hb Hr) as H. cbn beta in H.
        fold c u0 in H. rewrite Ew in H. apply H.
        - cbn. by rewrite fn_lookup_insert.
        - intros t Ht. cbn. by rewrite fn_lookup_insert_ne by auto. }
      destruct (wb_waits _ _ _ Hb c sp Ew) as [Hin _]. destruct (proj1 (wb_sems _ _ _ Hb sp) Hin) as [l Hl].
      pose proof (bk_permits _ _ _ _ _ Ha sp Hin) as Hpm. cbn [is_fetch is_post] in Hrd, Hwr. rewrite andb_false_r in Hrd, Hwr.
      cbn [wait_result]. destruct (u0 =? MSG_OK)%Z; cbn [andb] in Hsp.
      * apply (good_same idle Q w1); try done.
        apply (books_sem _ _ _ _ _ _ Q Q _ (add_grant sp w1) sp l Hbk Hin Hl); try done.
        -- intros a Hne. specialize (Hsp a). rewrite bool_decide_eq_false_2 in Hsp by congruence. lia.
        -- intros m. specialize (Hrd m). cbn [kern set_kern set_waits w1] in *. lia.
        -- intros m. specialize (Hwr m). cbn [kern set_kern set_waits w1] in *. lia.
        -- by apply (bk_sem _ _ _ _ _ Hbk).
        -- specialize (Hsp sp). rewrite bool_decide_eq_true_2 in Hsp by done. cbn [kern granted supply add_grant set_kern set_waits w1].
           rewrite fn_lookup_insert, Ecn. lia.
        -- intros a Hne. cbn. by rewrite fn_lookup_insert_ne by auto.
      * exists Q. split; [|done]. split; [done|]. apply (books_mono (sem_woken w) (readers_woken (kern w)) (writers_woken (kern w))).
        -- by destruct Hbk as [A1 A2 A3 A4 A5]; split.
        -- intros a _. specialize (Hsp a). lia.
        -- intros m _. specialize (Hrd m). cbn [kern set_kern set_waits w1] in *. lia.
        -- intros m _. specialize (Hwr m). cbn [kern set_kern set_waits w1] in *. lia.
    + exists Q. split; [|done]. split; [by apply Hb1|]. cbn [is_fetch is_post] in Hrd, Hwr. rewrite andb_false_r in Hrd, Hwr. apply (books_mono _ _ _ _ _ _ _ _ Hbk).
      * intros a _. by apply Hsw.
      * intros m _. specialize (Hrd m). cbn [kern set_kern] in *. lia.
      * intros m _. specialize (Hwr m). cbn [kern set_kern] in *. lia.
  - specialize (Hnw ltac:(done)). specialize (Hb1 Hnw). cbn [is_fetch is_post] in Hrd, Hwr. rewrite andb_false_r in Hrd.
    assert (Hbk1 : books (sem_woken (set_kern k1 w)) (readers_woken k1) (extra mbp (if (u0 =? MSG_OK)%Z then 1 else 0) (writers_woken k1)) Q (set_kern k1 w)).
    { apply (books_mono _ _ _ _ _ _ _ _ Hbk).
      - intros a _. by apply Hsw.
      - intros m _. specialize (Hrd m). lia.
      - intros m _. specialize (Hwr m). destruct (decide (m = mbp)) as [->|Hne].
        + rewrite extra_at. rewrite Z.eqb_refl, andb_true_r in Hwr. lia.
        + rewrite extra_ne by done. rewrite (proj2 (Z.eqb_neq mbp m)), andb_false_r in Hwr by auto. lia. }
    destruct (u0 =? MSG_OK) eqn:Eok.
    + destruct (post_ok idle 1 Q (set_kern k1 w) mbp msg timeout Hb1 Hbk1 Hh1) as (res & k' & E & Hg); cbn [kern set_kern]; rewrite ?Ec; [lia|done|done|done|].
      cbn [kern set_kern] in E. rewrite E. cbn [mbind option_bind]. eexists. split; [done|]. exact Hg.
    + cbn [returns mbind option_bind]. eexists. split; [done|]. cbn [post_result]. rewrite Eok. exists Q. split; [|done]. split; [done|].
      apply (no_writer_needed 0 Q (set_kern k1 w) mbp Hbk1). by right.
  - specialize (Hnw ltac:(done)). specialize (Hb1 Hnw). cbn [is_fetch is_post] in Hrd, Hwr. rewrite andb_false_r in Hwr.
    assert (Hbk1 : books (sem_woken (set_kern k1 w)) (extra mbp (if (u0 =? MSG_OK)%Z then 1 else 0) (readers_woken k1)) (writers_woken k1) Q (set_kern k1 w)).
    { apply (books_mono _ _ _ _ _ _ _ _ Hbk).
      - intros a _. by apply Hsw.
      - intros m _. specialize (Hrd m). destruct (decide (m = mbp)) as [->|Hne].
        + rewrite extra_at. rewrite Z.eqb_refl, andb_true_r in Hrd. lia.
        + rewrite extra_ne by done. rewrite (proj2 (Z.eqb_neq mbp m)), andb_false_r in Hrd by auto. lia.
      - intros m _. specialize (Hwr m). lia. }
    destruct (u0 =? MSG_OK) eqn:Eok.
    + destruct (fetch_ok idle 1 Q (set_kern k1 w) mbp timeout Hb1 Hbk1 Hh1) as (res & k' & E & Hg); cbn [kern set_kern]; rewrite ?Ec; [lia|done|done|done|].
      cbn [kern set_kern] in E. rewrite E. cbn [mbind option_bind]. eexists. split; [done|]. exact Hg.
    + cbn [returns mbind option_bind]. eexists. split; [done|]. cbn [fetch_result]. rewrite Eok. exists Q. split; [|done]. split; [done|].
      apply (no_reader_needed 0 Q (set_kern k1 w) mbp Hbk1). by right.
Qed.

(** ** Timers *)

Lemma same_shrunk Q Q' W : same_queues Q Q' -> shrunk Q Q' W.
Proof.
  intros [S1 S2]. split; [done|]. split.
  - intros a kd l Hkd Hl%S2; [|done]. exists l. tauto.
  - intros a kd l Hkd Hl. exists l. by apply S2.
Qed.

(** Nobody gets a permit by a timeout. *)
Lemma late_books Q w w' t : books (sem_woken w) (readers_woken (kern w)) (writers_woken (kern w)) Q w' ->
  books (fun sp => sem_woken w sp + (if (MSG_TIMEOUT =? MSG_OK)%Z && bool_decide (waits w t = Some sp) then 1 else 0))%nat
        (fun b => readers_woken (kern w) b + (if (MSG_TIMEOUT =? MSG_OK)%Z && is_fetch b (cont (kern w) t) then 1 else 0))%nat
        (fun b => writers_woken (kern w) b + (if (MSG_TIMEOUT =? MSG_OK)%Z && is_post b (cont (kern w) t) then 1 else 0))%nat Q w'.
Proof. intros Hbk. apply (books_mono _ _ _ _ _ _ _ _ Hbk); intros a _; cbn; lia. Qed.

Lemma timer_ok Q w tp : winv Q w -> cont (kern w) (currp (kern w)) = None -> armed (kern w) tp = true ->
  exists Q' k', wakeup tp (set_armed tp false (kern w)) = Some k' /\ winv Q' (set_kern k' w) /\ currp k' = currp (kern w).
Proof.
  intros [Hb Ha] Hc Harm. destruct (wb_armed _ _ _ Hb tp Harm) as [a Ea]. destruct (wb_cont _ _ _ Hb tp _ Ea) as [Ht _].
  assert (Hne : tp <> currp (kern w)) by congruence. set (k0 := set_armed tp false (kern w)). set (w0 := set_kern k0 w).
  assert (Hw0 : winv Q w0).
  { split.
    - apply (base_quiet idle Q Q w); try done.
      + apply (kinv_rest _ _ _ (kern w)); [apply Hb|done..].
      + intros t. cbn. destruct (decide (t = tp)) as [->|Hn]; [by rewrite fn_lookup_insert|]. by rewrite fn_lookup_insert_ne by auto.
    - apply (acc_quiet Q _ w); [by apply books_kern|by apply node_quiet|done]. }
  destruct Hw0 as [Hb0 Ha0]. destruct (wakeup_ok Q k0 _ tp (wb_k _ _ _ Hb0) Ht Hne) as (k' & E & Ec & Hcases). rewrite E.
  destruct Hcases as [[_ ->]|[(Hs & R' & He & Hk')|(hd & kd & l1 & l2 & R' & Hl & Hkd & Hin & He & Hk')]].
  - exists Q, k0. done.
  - eexists _, k'. split; [done|]. split; [|done]. destruct (base_ready _ _ _ Hb) as [R0 HR]. pose proof (same_queues_ready Q R0 R' HR) as Hsq.
    pose proof He as (_ & _ & (_ & En & Em & _) & _). cbn [kern set_kern w0] in Hk'. change (currp k0) with (currp (kern w)) in Ec. split.
    + apply (base_wake idle Q _ w0 k0 k' MSG_TIMEOUT tp Hb0); try done; [by apply same_shrunk|by rewrite Ec].
    + apply (acc_wake _ w0 (set_kern k' w) tp MSG_TIMEOUT k0); try done; [apply (wb_k _ _ _ Hb)|unfold awake; cbn [kern set_kern w0]; rewrite Hs; by intros [?|?]|].
      apply late_books. apply (books_fewer _ _ _ Q); [by apply (books_kern _ _ _ _ w0)|by apply same_fewer|].
      intros sp l Hl%Hsq; [|done]. cbn [kern set_kern]. rewrite En. by apply (bk_sem _ _ _ _ _ Ha0).
  - eexists _, k'. split; [done|]. split; [|done]. pose proof He as (_ & _ & (_ & En & Em & _) & _). cbn [kern set_kern w0] in Hk'.
    change (currp k0) with (currp (kern w)) in Ec.
    apply (wake_step idle Q w0 (set_kern k' w) (match kd with QSem => cnt_inc hd k0 | _ => k0 end) hd kd l1 l2 tp MSG_TIMEOUT R'); try done; try (by destruct kd).
    { cbn [kern set_kern]. by rewrite Ec. }
    apply late_books. destruct kd; [done| |].
    + assert (Hsp : hd ∈ sems w) by (apply (wb_sems _ _ _ Hb); eauto). pose proof (bk_permits _ _ _ _ _ Ha0 hd Hsp) as Hpm.
      pose proof (bk_sem _ _ _ _ _ Ha0 hd _ Hl) as Hs. pose proof (sem_queue_length _ _ _ _ _ _ _ (wb_k _ _ _ Hb) Hl) as Hlen.
      pose proof (sem_range _ _ _ Hs Hlen (wb_size _ _ _ Hb)) as Hr. pose proof (wb_size _ _ _ Hb) as Hsz.
      assert (Hs' : sem_cnt (kern w0) hd = - Z.of_nat (length (l1 ++ l2)) - 1).
      { rewrite length_app. destruct l1; cbn [app sem_ok length] in Hs; [|rewrite length_app in Hs; cbn [length] in *]; cbn [length]; lia. }
      assert (Ecn : sem_cnt k' hd = - Z.of_nat (length (l1 ++ l2))).
      { rewrite En. change (sem_cnt (upd tp (set_u MSG_TIMEOUT) ?k)) with (sem_cnt k). rewrite cnt_inc_at. rewrite s32_small; cbn [kern set_kern w0] in *; lia. }
      apply (books_sem _ _ _ _ _ _ Q _ w0 _ hd (l1 ++ l2) Ha0 Hsp); try done; cbn [kern set_kern granted supply w0]; rewrite ?Ecn.
      * by rewrite lookup_insert_eq.
      * intros x kd l' Hx _ E'. by rewrite lookup_insert_ne in E' by auto.
      * destruct (l1 ++ l2); cbn [sem_ok length] in *; lia.
      * cbn [granted supply w0 set_kern kern] in *. lia.
      * intros x Hx. rewrite En. cbn. by rewrite fn_lookup_insert_ne by auto.
    + apply (books_fewer _ _ _ Q); [by apply (books_kern _ _ _ _ w0)| |].
      * intros x kd l' Hx E'. destruct (decide (x = hd)) as [->|Hn]; [|rewrite lookup_insert_ne in E' by auto; eauto].
        rewrite lookup_insert_eq in E'. injection E' as <- <-. eexists. split; [exact Hl|]. by destruct l1.
      * intros sp l' E'. destruct (decide (sp = hd)) as [->|Hn]; [rewrite lookup_insert_eq in E'; congruence|]. rewrite lookup_insert_ne in E' by auto.
        cbn [kern set_kern]. rewrite En. by apply (bk_sem _ _ _ _ _ Ha0).
Qed.
End objects.
