(* ===== verification/ChKernelTheorems.v ===== *)
(** * Every state of the system that is reached is good, and every legal step goes through *)

From Stdlib Require Import ZArith Lia.
From stdpp Require Import base gmap list option numbers functions relations sorting.
From S2P Require Import Prelude ChTime ChSched ChSync ChKernelInv ChKernelOps ChMailbox ChKernel ChKernelProof.
From S2P Require Import ChSyncSteps ChThreadSteps.
From stdpp Require Import sets list.
Import OptionNotations.

Local Open Scope Z_scope.

Section reachable.
Context (idle : Z).

(** ** The start *)

Lemma main_kinv main : main <> RLIST ->
  let k := upd main (set_state CH_STATE_CURRENT) (set_currp main (_thread_init main NORMALPRIO (_scheduler_init memory_zero))) in
  kinv (Some main) [] {[RLIST := (QReady, [])]} k.
Proof.
  intros Hne k.
  assert (Hr : node k RLIST = Thread RLIST RLIST NOPRIO CH_STATE_READY 0).
  { unfold k, _thread_init, _scheduler_init, queue_init, REG_INSERT, set_currp. repeat (rewrite knode_upd || cbn [node]). by rewrite !decide_False, !decide_True by done. }
  assert (Hm : state_of main k = CH_STATE_CURRENT /\ prio_of main k = NORMALPRIO).
  { unfold k, state_of, prio_of, _thread_init, REG_INSERT, set_currp. repeat (rewrite knode_upd || cbn [node]). by rewrite !decide_True by done. }
  assert (Hl : forall hd kd l, ({[RLIST := (QReady, [])]} : queues) !! hd = Some (kd, l) -> hd = RLIST /\ kd = QReady /\ l = []).
  { intros hd kd l E. apply lookup_singleton_Some in E as [<- E]. injection E as <- <-. done. }
  assert (Et : threads k = [main]) by done. destruct Hm as [Hs Hp].
  split; rewrite ?Et.
  - split.
    + intros hd kd l (-> & -> & ->)%Hl. split; [|apply NoDup_singleton]. unfold ring. cbn [qseg]. unfold nxt, prv. by rewrite Hr.
    + intros h1 k1 l1 h2 k2 l2 x (-> & _)%Hl (-> & _)%Hl. done.
  - exists []. split; [by rewrite lookup_singleton_eq|constructor].
  - by intros hd l (-> & _)%Hl.
  - intros hd kd l t (_ & _ & ->)%Hl Ht. by apply elem_of_nil in Ht.
  - intros hd [[kd l] (-> & _)%Hl]. rewrite list_elem_of_singleton. auto.
  - apply NoDup_singleton.
  - intros hd kd l t (_ & _ & ->)%Hl Ht. by apply elem_of_nil in Ht.
  - intros t ->%list_elem_of_singleton _. unfold in_place. by rewrite Hs.
  - intros t ->%list_elem_of_singleton. rewrite Hp. unfold NORMALPRIO, IDLEPRIO. lia.
  - unfold prio_of. by rewrite Hr.
  - intros t [= <-]. split; [done|]. split; [by left|]. split; [apply not_elem_of_nil|done].
Qed.

Lemma start_ok main : NoDup [RLIST; main; idle] -> exists k, chSysInit idle main memory_zero = Some k /\ good idle (world_start k).
Proof.
  intros Hnd. apply NoDup_cons in Hnd as [N1 Hnd]. apply NoDup_cons in Hnd as [N2 _].
  apply not_elem_of_cons in N1 as [N1 N3]. rewrite list_elem_of_singleton in N2, N3.
  pose proof (main_kinv main ltac:(auto)) as Hk. cbv zeta in Hk. unfold chSysInit, chThdCreate, chThdCreateSuspendedI.
  set (k0 := upd main _ _) in *. assert (Et : threads k0 = [main]) by done.
  rewrite bool_decide_eq_false_2 by (rewrite Et, list_elem_of_singleton; auto). cbn [mbind option_bind HIGHPRIO IDLEPRIO Z.ltb Z.compare Pos.compare Pos.compare_cont].
  destruct (kinv_new_thread main _ k0 idle IDLEPRIO Hk) as [Hk1 Hu]; [rewrite Et, list_elem_of_singleton; auto|by rewrite lookup_singleton_ne|done|].
  set (k1 := _thread_init idle IDLEPRIO k0) in *.
  assert (Est : state_of idle k1 = CH_STATE_WTSTART) by (unfold k1, state_of; cbn; by rewrite fn_lookup_insert).
  destruct (wakeupS_ok _ k1 main idle MSG_OK Hk1) as (R' & k' & E & He & Hk' & Hh'); [| |done|congruence|congruence|].
  { intros R HR. rewrite lookup_singleton_eq in HR. injection HR as <-. constructor. }
  { apply elem_of_app. right. by left. }
  exists k'. split; [done|]. eexists. split; [|exact Hh']. rewrite insert_singleton_eq in *.
  pose proof He as (_ & Eu & (Et' & Ecn & Em & Ea & Eco) & HW & Haw).
  assert (Hall : forall t, t ∈ threads k' -> awake t k').
  { intros t Ht. rewrite Et' in Ht. apply elem_of_cons in Ht as [->|Ht%list_elem_of_singleton].
    - apply Haw; [rewrite list_elem_of_singleton; auto|]. right. change (state_of main (upd idle (set_u MSG_OK) k1) = CH_STATE_CURRENT). unfold state_of.
      rewrite knode_upd, decide_False by auto. destruct (kinv_cur_state _ _ _ Hk) as (_ & _ & <- & _). unfold k1, _thread_init, REG_INSERT, state_of. cbn [node].
      by rewrite !knode_upd, !decide_False by auto.
    - subst t. apply HW. by left. }
  assert (Hl : forall a kd l, ({[RLIST := (QReady, R')]} : queues) !! a = Some (kd, l) -> a = RLIST /\ kd = QReady).
  { intros a kd l E'. apply lookup_singleton_Some in E' as [<- E']. by injection E' as <- _. }
  cbn [upd threads sem_cnt mbox armed cont] in *. split.
  - split; cbn [kern sems boxes waits world_start]; try done.
    + intros a. unfold is_header. cbn [sems boxes world_start]. split.
      * intros [[kd l] (-> & _)%Hl]. by left.
      * intros [->|[Hx|(m & Hx & _)]]; [by rewrite lookup_singleton_eq|by apply elem_of_nil in Hx|by apply elem_of_nil in Hx].
    + intros a. split; [intros Hx; by apply elem_of_nil in Hx|]. by intros [l (_ & ?)%Hl].
    + intros m Hx. by apply elem_of_nil in Hx.
    + rewrite Et', Eco. split; [|done]. apply elem_of_app. right. by left.
    + by rewrite Et'.
    + intros t Ht Hn. by destruct (Hn (Hall t Ht)).
    + intros t. by rewrite Ea.
    + intros t r. by rewrite Eco.
    + by intros sp l t (_ & ?)%Hl.
    + intros m m' Hx. by apply elem_of_nil in Hx.
    + intros m l t Hx. by apply elem_of_nil in Hx.
    + intros m l t Hx. by apply elem_of_nil in Hx.
  - split; cbn [kern sems boxes world_start].
    + by intros sp l (_ & ?)%Hl.
    + intros sp Hx. by apply elem_of_nil in Hx.
    + intros m Hx. by apply elem_of_nil in Hx.
    + intros m l Hx. by apply elem_of_nil in Hx.
    + intros m l Hx. by apply elem_of_nil in Hx.
Qed.

(** ** Steps *)

Lemma call_ok w c : good idle w -> cont (kern w) (currp (kern w)) = None -> legal idle c w -> exists w', do_call c w = Some w' /\ good idle w'.
Proof.
  intros (Q & Hw & Hh) Hc [Hci Hl]. unfold do_call. destruct c as [sp timeout|sp|sp|mbp msg timeout|mbp timeout| |ticks|tp p|p|sp n|mbp buf]; cbn in Hl.
  - destruct (wait_ok idle Q w sp timeout Hw Hh Hci Hc Hl) as (r & k' & -> & Hg). cbn [mbind option_bind]. eauto.
  - destruct (signal_ok idle Q w sp Hw Hh (proj1 Hl) (proj2 Hl)) as (k' & -> & Hg). cbn [mbind option_bind]. eauto.
  - destruct (signalI_ok idle Q w sp Hw (proj1 Hl) (proj2 Hl)) as (Q' & k1 & -> & Hw' & _). cbn [mbind option_bind].
    destruct (finish_reschedule idle Q' _ Hw') as (k' & E & Hg). cbn [kern add_supply set_kern] in E. rewrite E. cbn [mbind option_bind]. eauto.
  - destruct (post_ok idle 0 Q w mbp msg timeout (proj1 Hw) (acc_extra_writers Q w mbp (proj2 Hw)) Hh ltac:(lia) Hl Hci Hc) as (r & k' & -> & Hg). cbn [mbind option_bind]. eauto.
  - destruct (fetch_ok idle 0 Q w mbp timeout (proj1 Hw) (acc_extra_readers Q w mbp (proj2 Hw)) Hh ltac:(lia) Hl Hci Hc) as (r & k' & -> & Hg). cbn [mbind option_bind]. eauto.
  - destruct (yield_step idle Q w Hw Hh) as (k' & -> & Hg). cbn [mbind option_bind]. eauto.
  - destruct (sleep_step idle Q w ticks Hw Hh Hci Hc Hl) as (k' & -> & Hg). cbn [mbind option_bind]. eauto.
  - destruct Hl as (H1 & H2 & H3). destruct (create_step idle Q w tp p Hw Hh H1 H2 H3) as (k' & -> & Hg). cbn [mbind option_bind]. eauto.
  - destruct (set_priority_step idle Q w p Hw Hl) as (o & k' & -> & Hg). cbn [mbind option_bind]. eauto.
  - destruct (new_sem_step idle Q w sp n Hw Hh (proj1 Hl) (proj2 Hl)) as (k' & -> & Hg). cbn [mbind option_bind]. eauto.
  - destruct Hl as (H1 & H2 & H3 & H4). destruct (new_box_step idle Q w mbp buf Hw Hh H1 H2 H3 H4) as (k' & -> & Hg). cbn [mbind option_bind]. eauto.
Qed.

Lemma handler_ok Q w i : winv idle Q w -> cont (kern w) (currp (kern w)) = None -> legal_interrupt i w ->
  exists Q' w', do_handler i w = Some w' /\ winv idle Q' w'.
Proof.
  intros Hw Hc Hl. unfold do_handler. destruct i as [sp|mbp msg|mbp|tp]; cbn in Hl.
  - destruct (signalI_ok idle Q w sp Hw (proj1 Hl) (proj2 Hl)) as (Q' & k1 & -> & Hw' & _). cbn [mbind option_bind]. eauto.
  - destruct (postI_ok idle Q w mbp msg Hw Hl) as (Q' & m & k1 & -> & Hw' & _). cbn [mbind option_bind]. eauto.
  - destruct (fetchI_ok idle Q w mbp Hw Hl) as (Q' & m & v & k1 & -> & Hw' & _). cbn [mbind option_bind]. eauto.
  - destruct (timer_ok idle Q w tp Hw Hc Hl) as (Q' & k1 & -> & Hw' & _). cbn [mbind option_bind]. eauto.
Qed.

Lemma interrupt_ok w i : good idle w -> cont (kern w) (currp (kern w)) = None -> legal_interrupt i w ->
  exists w', do_interrupt i w = Some w' /\ good idle w'.
Proof.
  intros (Q & Hw & Hh) Hc Hl. unfold do_interrupt. destruct (handler_ok Q w i Hw Hc Hl) as (Q' & w1 & -> & Hw1). cbn [mbind option_bind].
  destruct (finish_epilogue idle Q' w1 Hw1) as (k' & -> & Hg). cbn [mbind option_bind]. eauto.
Qed.

Lemma resume_ok w : good idle w -> cont (kern w) (currp (kern w)) <> None -> exists w', do_resume w = Some w' /\ good idle w'.
Proof. intros (Q & Hw & Hh) Hc. destruct (cont (kern w) (currp (kern w))) as [r|] eqn:E; [|done]. by apply (resume_step idle Q w r). Qed.

Lemma step_good w w' : good idle w -> world_step idle w w' -> good idle w'.
Proof.
  intros Hg Hs. revert Hg. destruct Hs as [c w1 w2 Hc Hl E|w1 w2 Hc E|i w1 w2 Hc Hl E]; intros Hg.
  - destruct (call_ok w1 c Hg Hc Hl) as (w3 & E3 & Hg3). congruence.
  - destruct (resume_ok w1 Hg Hc) as (w3 & E3 & Hg3). congruence.
  - destruct (interrupt_ok w1 i Hg Hc Hl) as (w3 & E3 & Hg3). congruence.
Qed.

Lemma reach_good w : world_reach idle w -> good idle w.
Proof.
  intros (main & k & Hnd & E & Hs). destruct (start_ok main Hnd) as (k' & E' & Hg). rewrite E in E'. injection E' as <-.
  revert Hg. induction Hs as [|w1 w2 w3 H12 _ IH]; [done|]. intros Hg. apply IH. by apply (step_good w1).
Qed.
End reachable.

(** * What the kernel promises to its threads *)

(** ** Which threads a queue holds *)

Lemma count_list (f : Z -> bool) (ts l : list Z) : NoDup ts -> NoDup l -> (forall x, x ∈ l <-> x ∈ ts /\ f x = true) -> count f ts = length l.
Proof.
  intros Hts Hl Hx. assert (E : count f ts = length (filter (fun x => f x = true) ts)).
  { clear. induction ts as [|x ts IH]; [done|]. cbn [count]. rewrite filter_cons. destruct (f x); cbn [length decide]; [rewrite decide_True by done|rewrite decide_False by done]; cbn [length]; lia. }
  rewrite E. apply Permutation_length, NoDup_Permutation; [by apply NoDup_filter|done|]. intros x. rewrite list_elem_of_filter, Hx. tauto.
Qed.

Section queues.
Context (idle : Z).

Lemma in_ready Q w R : wbase idle Q w -> Q !! RLIST = Some (QReady, R) -> forall t, t ∈ R <-> t ∈ threads (kern w) /\ state_of t (kern w) = CH_STATE_READY.
Proof.
  intros Hb HR t. pose proof (wb_k _ _ _ Hb) as Hk. split.
  - intros Ht. split; [by apply (ki_members _ _ _ _ Hk _ _ _ _ HR)|]. apply (ki_in_state _ _ _ _ Hk _ _ _ _ HR Ht). apply not_elem_of_nil.
  - intros [Ht Hs]. pose proof (ki_in_place _ _ _ _ Hk t Ht ltac:(apply not_elem_of_nil)) as Hp. unfold in_place in Hp. rewrite Hs in Hp.
    destruct Hp as (hd & kd & l & Hl & Hin). pose proof (ki_in_state _ _ _ _ Hk _ _ _ _ Hl Hin ltac:(apply not_elem_of_nil)) as Hi.
    destruct kd; cbn in Hi; [|by destruct Hi; congruence|congruence]. pose proof (ki_kinds _ _ _ _ Hk _ _ Hl) as ->. congruence.
Qed.

Lemma in_sem Q w sp l : wbase idle Q w -> Q !! sp = Some (QSem, l) ->
  forall t, t ∈ l <-> t ∈ threads (kern w) /\ state_of t (kern w) = CH_STATE_WTSEM /\ u_of t (kern w) = sp.
Proof.
  intros Hb Hl t. pose proof (wb_k _ _ _ Hb) as Hk. split.
  - intros Ht. split; [by apply (ki_members _ _ _ _ Hk _ _ _ _ Hl)|]. apply (ki_in_state _ _ _ _ Hk _ _ _ _ Hl Ht). apply not_elem_of_nil.
  - intros (Ht & Hs & Hu). pose proof (ki_in_place _ _ _ _ Hk t Ht ltac:(apply not_elem_of_nil)) as Hp. unfold in_place in Hp. rewrite Hs in Hp.
    destruct Hp as (hd & kd & l' & Hl' & Hin). pose proof (ki_in_state _ _ _ _ Hk _ _ _ _ Hl' Hin ltac:(apply not_elem_of_nil)) as Hi.
    destruct kd; cbn in Hi; [congruence| |congruence]. destruct Hi as [_ Hi]. assert (hd = sp) as -> by congruence. congruence.
Qed.

(** A thread that waits in a queue of a mailbox. *)
Lemma in_box Q w t : wbase idle Q w -> t ∈ threads (kern w) -> state_of t (kern w) = CH_STATE_QUEUED ->
  exists m l, m ∈ boxes w /\ t ∈ l /\
    (Q !! qr m = Some (QWait, l) /\ (exists b o, cont (kern w) t = Some (Resume b (FetchAgain m o))) \/
     Q !! qw m = Some (QWait, l) /\ (exists b v o, cont (kern w) t = Some (Resume b (PostAgain m v o)))).
Proof.
  intros Hb Ht Hs. pose proof (wb_k _ _ _ Hb) as Hk. pose proof (ki_in_place _ _ _ _ Hk t Ht ltac:(apply not_elem_of_nil)) as Hp.
  unfold in_place in Hp. rewrite Hs in Hp. destruct Hp as (hd & kd & l & Hl & Hin).
  pose proof (ki_in_state _ _ _ _ Hk _ _ _ _ Hl Hin ltac:(apply not_elem_of_nil)) as Hi. destruct kd; cbn in Hi; [congruence|by destruct Hi; congruence|].
  destruct (proj1 (wb_headers _ _ _ Hb hd) ltac:(eauto)) as [->|[Hsp|(m & Hm & [->| ->])]].
  - destruct (base_ready _ _ _ Hb). congruence.
  - destruct (proj1 (wb_sems _ _ _ Hb hd) Hsp). congruence.
  - exists m, l. split; [done|]. split; [done|]. right. split; [done|]. by apply (wb_writers _ _ _ Hb m l).
  - exists m, l. split; [done|]. split; [done|]. left. split; [done|]. by apply (wb_readers _ _ _ Hb m l).
Qed.

Definition waiting (sp : Z) (k : kernel) : nat :=
  count (fun t => bool_decide (state_of t k = CH_STATE_WTSEM) && (u_of t k =? sp)) (threads k).

(** ** The theorems *)

(** C12: the running thread has the highest priority of all the threads that can run:
    it alone is in the state CURRENT, the ready list is the ring of exactly the READY
    threads, in the order of their priorities, and none of them is above the running
    one. *)
Theorem scheduler_runs_highest w : world_reach idle w ->
  let k := kern w in
  currp k ∈ threads k /\ (forall t, t ∈ threads k -> state_of t k = CH_STATE_CURRENT <-> t = currp k) /\
  exists R, ring k RLIST R /\ NoDup R /\ StronglySorted (by_prio k) R /\
    (forall t, t ∈ R <-> t ∈ threads k /\ state_of t k = CH_STATE_READY) /\ (forall t, t ∈ R -> prio_of t k <= prio_of (currp k) k).
Proof.
  intros (Q & [Hb Ha] & Hh)%reach_good k. pose proof (wb_k _ _ _ Hb) as Hk. destruct (kinv_cur_state _ _ _ Hk) as (_ & Hc & Hst & _).
  split; [done|]. split.
  - intros t Ht. split; [|by intros ->]. intros Hs. pose proof (ki_in_place _ _ _ _ Hk t Ht ltac:(apply not_elem_of_nil)) as Hp. unfold in_place in Hp.
    fold k in Hp. rewrite Hs in Hp. by injection Hp.
  - destruct (ki_ready _ _ _ _ Hk) as (R & HR & Hsort). destruct (proj1 (ki_rings _ _ _ _ Hk) _ _ _ HR) as [Hring Hnd]. apply NoDup_cons in Hnd as [_ Hnd].
    exists R. split; [done|]. split; [done|]. split; [done|]. split; [by apply (in_ready Q w R)|]. specialize (Hh R HR). by rewrite Forall_forall in Hh.
Qed.

(** C13: the kernel never halts the system: from every state that is reached, every
    legal call of the running thread, the end of a sleep and every legal interrupt go
    through, with all the checks and assertions of the kernel enabled. *)
Theorem kernel_never_halts w : world_reach idle w ->
  (forall c, cont (kern w) (currp (kern w)) = None -> legal idle c w -> is_Some (do_call c w)) /\
  (cont (kern w) (currp (kern w)) <> None -> is_Some (do_resume w)) /\
  (forall i, cont (kern w) (currp (kern w)) = None -> legal_interrupt i w -> is_Some (do_interrupt i w)).
Proof.
  intros Hg%reach_good. split; [|split].
  - intros c Hc Hl. destruct (call_ok idle w c Hg Hc Hl) as (w' & -> & _). done.
  - intros Hc. destruct (resume_ok idle w Hg Hc) as (w' & -> & _). done.
  - intros i Hc Hl. destruct (interrupt_ok idle w i Hg Hc Hl) as (w' & -> & _). done.
Qed.

(** C14: permits are neither lost nor made up: what a semaphore was given is its
    counter, the waits it has granted and the threads it has woken that have not run
    yet; and threads wait only when there is no permit, as many as the counter says. *)
Theorem semaphore_accounts w sp : world_reach idle w -> sp ∈ sems w ->
  Z.max 0 (sem_cnt (kern w) sp) + granted w sp + Z.of_nat (sem_woken w sp) = supply w sp /\
  Z.of_nat (waiting sp (kern w)) = Z.max 0 (- sem_cnt (kern w) sp).
Proof.
  intros (Q & [Hb Ha] & _)%reach_good Hsp. split; [by apply (bk_permits _ _ _ _ _ Ha)|].
  destruct (proj1 (wb_sems _ _ _ Hb sp) Hsp) as [l Hl]. pose proof (wb_k _ _ _ Hb) as Hk.
  destruct (proj1 (ki_rings _ _ _ _ Hk) _ _ _ Hl) as [_ Hnd]. apply NoDup_cons in Hnd as [_ Hnd]. unfold waiting.
  rewrite (count_list _ _ l (ki_nodup _ _ _ _ Hk) Hnd).
  - pose proof (bk_sem _ _ _ _ _ Ha sp l Hl) as Hs. destruct l; cbn [sem_ok length] in *; lia.
  - intros x. rewrite (in_sem Q w sp l Hb Hl x), andb_true_iff, bool_decide_eq_true, Z.eqb_eq. done.
Qed.

(** C15: a mailbox is a bounded queue: what was fetched, followed by what is in the
    buffer from the reading to the writing position, is what was posted, in order; and
    the buffer never holds more than its size. *)
Theorem mailbox_is_queue w m : world_reach idle w -> m ∈ boxes w ->
  posted w m = fetched w m ++ mb_contents (mbox (kern w) m) /\ (length (mb_contents (mbox (kern w) m)) <= length (buffer (mbox (kern w) m)))%nat.
Proof.
  intros (Q & [Hb Ha] & _)%reach_good Hm. destruct (bk_box _ _ _ _ _ Ha m Hm) as (Hwf & _ & Hp). split; [done|].
  rewrite mb_contents_length. apply Hwf.
Qed.

(** C16: no wake-up is lost: while a thread sleeps until a message comes, every
    message in the mailbox is matched by another reader that has been woken and has not
    run yet; while a thread sleeps until there is room, every free slot is matched by a
    writer that has been woken. *)
Theorem mailbox_no_lost_wakeup w t : world_reach idle w -> state_of t (kern w) = CH_STATE_QUEUED ->
  match cont (kern w) t with
  | Some (Resume _ (FetchAgain m _)) => (mb_cnt (mbox (kern w) m) <= readers_woken (kern w) m)%nat
  | Some (Resume _ (PostAgain m _ _)) => (free_slots (mbox (kern w) m) <= writers_woken (kern w) m)%nat
  | _ => t ∉ threads (kern w)
  end.
Proof.
  intros (Q & [Hb Ha] & _)%reach_good Hs. destruct (decide (t ∈ threads (kern w))) as [Ht|Ht].
  - destruct (in_box Q w t Hb Ht Hs) as (m & l & Hm & Hin & [[Hl (b & o & ->)]|[Hl (b & v & o & ->)]]).
    + apply (bk_readers _ _ _ _ _ Ha m l Hm Hl). intros ->. by apply elem_of_nil in Hin.
    + apply (bk_writers _ _ _ _ _ Ha m l Hm Hl). intros ->. by apply elem_of_nil in Hin.
  - destruct (cont (kern w) t) as [r|] eqn:E; [|done]. by destruct Ht, (wb_cont _ _ _ Hb t r E).
Qed.

(** a wait that times out gives its place back: when the timer of a thread that
    waits for a semaphore fires, the thread is ready with [MSG_TIMEOUT], the counter is
    one more, and no other thread is woken. *)
Theorem timeout_gives_place_back w t sp : world_reach idle w -> cont (kern w) (currp (kern w)) = None ->
  armed (kern w) t = true -> state_of t (kern w) = CH_STATE_WTSEM -> u_of t (kern w) = sp ->
  exists k', wakeup t (set_armed t false (kern w)) = Some k' /\ (state_of t k' = CH_STATE_READY /\ u_of t k' = MSG_TIMEOUT) /\
    sem_cnt k' sp = sem_cnt (kern w) sp + 1 /\ waiting sp k' = (waiting sp (kern w) - 1)%nat /\
    (forall x, x <> t -> awake x k' <-> awake x (kern w)).
Proof.
  intros (Q & [Hb Ha] & _)%reach_good Hc Harm Hs Hu. destruct (wb_armed _ _ _ Hb t Harm) as [a Ea]. destruct (wb_cont _ _ _ Hb t _ Ea) as [Ht _].
  assert (Hne : t <> currp (kern w)) by congruence. set (k0 := set_armed t false (kern w)).
  assert (Hk0 : kinv (Some (currp (kern w))) [] Q k0) by (apply (kinv_rest _ _ _ (kern w)); [apply Hb|done..]).
  destruct (wakeup_ok Q k0 _ t Hk0 Ht Hne) as (k' & -> & _ & Hcases). change (state_of t k0) with (state_of t (kern w)) in Hcases. rewrite Hs in Hcases.
  destruct Hcases as [[? _]|[[? _]|(hd & kd & l1 & l2 & R' & Hl & Hkd & Hin & He & Hk')]]; [done|done|].
  destruct kd; [done| |unfold in_state, state_of in *; cbn in *; congruence].
  assert (hd = sp) as -> by (destruct Hin as [_ Hin]; unfold u_of in *; cbn in *; congruence).
  destruct He as (_ & Eu & (Et & En & _) & HW & Haw). cbn [upd threads sem_cnt] in Et, En.
  assert (Hoth : forall x, x <> t -> (awake x k' <-> awake x (kern w)) /\ (~ awake x (kern w) -> state_of x k' = state_of x (kern w)) /\ u_of x k' = u_of x (kern w)).
  { intros x Hx. destruct (Haw x ltac:(by rewrite list_elem_of_singleton)) as [H1 H2]. rewrite Eu. unfold awake, state_of, u_of in *. rewrite knode_upd, decide_False in * by done. done. }
  assert (Hut : u_of t k' = MSG_TIMEOUT) by (rewrite Eu; unfold u_of; by rewrite knode_upd, decide_True).
  exists k'. split; [done|]. split; [split; [|done]|split; [|split]].
  - destruct (HW t ltac:(by left)) as [?|Hcur]; [done|]. pose proof (ki_in_place _ _ _ _ Hk' t ltac:(by rewrite Et) ltac:(apply not_elem_of_nil)) as Hp.
    unfold in_place in Hp. rewrite Hcur in Hp. by injection Hp.
  - rewrite En, cnt_inc_at. pose proof (bk_sem _ _ _ _ _ Ha sp _ Hl) as Hsm. change (sem_cnt k0) with (sem_cnt (kern w)).
    pose proof (sem_range _ _ _ Hsm (sem_queue_length _ _ _ _ _ _ _ (wb_k _ _ _ Hb) Hl) (wb_size _ _ _ Hb)). apply s32_small.
    destruct l1; cbn [app sem_ok] in Hsm; lia.
  - unfold waiting. rewrite Et. change (threads (cnt_inc sp k0)) with (threads (kern w)).
    pose proof (count_change (fun x => bool_decide (state_of x (kern w) = CH_STATE_WTSEM) && (u_of x (kern w) =? sp))
      (fun x => bool_decide (state_of x k' = CH_STATE_WTSEM) && (u_of x k' =? sp)) _ t (ki_nodup _ _ _ _ (wb_k _ _ _ Hb)) Ht) as Hcc. cbn beta in Hcc.
    rewrite Hs, Hu, Z.eqb_refl, bool_decide_eq_true_2 in Hcc by done.
    rewrite (bool_decide_eq_false_2 (state_of t k' = CH_STATE_WTSEM)) in Hcc by (destruct (HW t ltac:(by left)); congruence). cbn [andb] in Hcc.
    rewrite <- (Nat.add_sub (count _ _) 1), Hcc; [lia|]. intros x Hx. destruct (Hoth x Hx) as (H1 & H2 & ->). f_equal.
    destruct (awake_dec x (kern w)) as [Hx1|Hx1]; [|by rewrite H2]. pose proof (proj2 H1 Hx1) as Hx2. unfold awake in Hx1, Hx2.
    rewrite !bool_decide_eq_false_2; [done|destruct Hx2; congruence|destruct Hx1; congruence].
  - intros x Hx. apply (Hoth x Hx).
Qed.
End queues.

(** ** A run

    The main thread 5 creates a semaphore, a mailbox and the thread 7 above it, which
    waits for the semaphore with a timeout, or for a message; 3 is the idle thread. *)

Definition after_call (c : call) (w : world) : world := default w (do_call c w).

Definition run_start : world := world_start (default memory_zero (chSysInit 3 5 memory_zero)).
Definition run_sem : world := after_call (NewSem 100 0) run_start.
Definition run_box : world := after_call (NewMailbox 200 [0; 0]) run_sem.
Definition run_thread : world := after_call (Create 7 200) run_box.
Definition run_waits : world := after_call (Wait 100 50) run_thread.
Definition run_posted : world := after_call (Post 200 42 0) run_waits.
Definition run_fetches : world := after_call (Fetch 200 50) run_thread.

Lemma is_Some_default {A} (o : option A) (a : A) : is_Some o -> o = Some (default a o).
Proof. intros [x ->]. done. Qed.

Lemma reach_call c w : world_reach 3 w -> cont (kern w) (currp (kern w)) = None -> legal 3 c w -> is_Some (do_call c w) -> world_reach 3 (after_call c w).
Proof.
  intros (main & k & Hnd & E & Hs) Hc Hl Hd. exists main, k. split; [done|]. split; [done|]. eapply rtc_r; [exact Hs|]. eapply ws_call; [done|exact Hl|].
  by apply is_Some_default.
Qed.

Ltac runs := vm_compute; eexists; reflexivity.
Ltac not_in := let H := fresh in intros H; vm_compute in H; repeat (apply elem_of_cons in H as [H|H]; [discriminate H|]); by apply elem_of_nil in H.
Ltac not_idle := let H := fresh in intros H; vm_compute in H; discriminate H.
Ltac new_address :=
  let H := fresh in let E := fresh in
  split; [intros [H|[H|(? & H & E)]]; [discriminate H|revert H; not_in|]|not_in];
  vm_compute in H; first [by apply elem_of_nil in H|apply list_elem_of_singleton in H; subst; destruct E as [E|E]; vm_compute in E; discriminate E].

Lemma run_start_reach : world_reach 3 run_start.
Proof.
  exists 5, (default memory_zero (chSysInit 3 5 memory_zero)). split; [by apply (bool_decide_unpack _); vm_compute|]. split; [|constructor].
  apply is_Some_default. runs.
Qed.

Lemma run_sem_reach : world_reach 3 run_sem.
Proof. apply reach_call; [exact run_start_reach|by vm_compute| |runs]. split; [not_idle|]. split; [new_address|lia]. Qed.

Lemma run_box_reach : world_reach 3 run_box.
Proof. apply reach_call; [exact run_sem_reach|by vm_compute| |runs]. split; [not_idle|]. split; [|split; [|split; [not_in|done]]].
  - split; [|not_in]. intros [H|[H|(? & H & E)]]; [discriminate H|revert H; not_in|revert H; not_in].
  - split; [|not_in]. intros [H|[H|(? & H & E)]]; [discriminate H|revert H; not_in|revert H; not_in].
Qed.

Lemma run_thread_reach : world_reach 3 run_thread.
Proof. apply reach_call; [exact run_box_reach|by vm_compute| |runs]. split; [not_idle|]. split; [done|]. split; [new_address|done]. Qed.

Lemma run_waits_reach : world_reach 3 run_waits.
Proof. apply reach_call; [exact run_thread_reach|by vm_compute| |runs]. split; [not_idle|]. apply (bool_decide_unpack _). by vm_compute. Qed.

Lemma run_posted_reach : world_reach 3 run_posted.
Proof. apply reach_call; [exact run_waits_reach|by vm_compute| |runs]. split; [not_idle|]. apply (bool_decide_unpack _). by vm_compute. Qed.

Lemma run_fetches_reach : world_reach 3 run_fetches.
Proof. apply reach_call; [exact run_thread_reach|by vm_compute| |runs]. split; [not_idle|]. apply (bool_decide_unpack _). by vm_compute. Qed.

(** ** Witnesses *)

Lemma scheduler_runs_highest_witness :
  currp (kern run_thread) = 7 /\ exists R, ring (kern run_thread) RLIST R /\ 5 ∈ R /\ prio_of 5 (kern run_thread) <= prio_of 7 (kern run_thread).
Proof.
  split; [reflexivity|]. destruct (scheduler_runs_highest 3 run_thread run_thread_reach) as (_ & _ & R & H1 & _ & _ & H2 & H3).
  assert (H5 : 5 ∈ R) by (apply H2; split; [apply (bool_decide_unpack _); by vm_compute|reflexivity]).
  exists R. split; [exact H1|]. split; [exact H5|]. exact (H3 5 H5).
Defined.

Lemma kernel_never_halts_witness : is_Some (do_interrupt (ITimer 7) run_waits).
Proof. apply (kernel_never_halts 3 run_waits run_waits_reach); reflexivity. Defined.

Lemma semaphore_accounts_witness :
  sem_cnt (kern run_waits) 100 = -1 /\ supply run_waits 100 = 0 /\ Z.of_nat (waiting 100 (kern run_waits)) = 1.
Proof.
  destruct (semaphore_accounts 3 run_waits 100 run_waits_reach) as [H1 H2]; [apply (bool_decide_unpack _); by vm_compute|].
  split; [reflexivity|]. split; [reflexivity|]. rewrite H2. reflexivity.
Defined.

Lemma mailbox_is_queue_witness : posted run_posted 200 = [42] /\ posted run_posted 200 = fetched run_posted 200 ++ mb_contents (mbox (kern run_posted) 200).
Proof.
  split; [reflexivity|]. apply (mailbox_is_queue 3 run_posted 200 run_posted_reach). apply (bool_decide_unpack _). by vm_compute.
Defined.

Lemma mailbox_no_lost_wakeup_witness :
  state_of 7 (kern run_fetches) = CH_STATE_QUEUED /\ (mb_cnt (mbox (kern run_fetches) 200) <= readers_woken (kern run_fetches) 200)%nat.
Proof. split; [reflexivity|]. exact (mailbox_no_lost_wakeup 3 run_fetches 7 run_fetches_reach eq_refl). Defined.

Lemma timeout_gives_place_back_witness :
  exists k', wakeup 7 (set_armed 7 false (kern run_waits)) = Some k' /\ sem_cnt k' 100 = 0.
Proof.
  destruct (timeout_gives_place_back 3 run_waits 7 100 run_waits_reach) as (k' & E & _ & H & _); [reflexivity..|].
  exists k'. split; [exact E|]. rewrite H. reflexivity.
Defined.
