(* ===== verification/LwipMem.v ===== *)
(** * The lwIP heap: [core/mem.c]

    The heap behind [mem_malloc] is an array cut into blocks, each with a header
    [struct mem] that holds the indices of the next and the previous header.
    Headers live at addresses; a header that has been merged into its neighbour
    stays in memory as garbage, as in the code.  The configuration is the default
    one: [MEM_SIZE] is 1600, so [mem_size_t] is 16 bits wide, and a header takes
    8 bytes.  Locking and statistics are left out; [None] is a failed assertion
    or an access to a header that was never written. *)

From Stdlib Require Import ZArith Lia.
From stdpp Require Import base gmap list numbers.
From S2P Require Import Prelude.
Import OptionNotations.

Local Open Scope Z_scope.

(** ** State *)

Definition MEM_ALIGNMENT : Z := 4.

(** The macro computes in 32 bits. *)
Definition LWIP_MEM_ALIGN_SIZE (size : Z) : Z := Z.land (u32 (size + MEM_ALIGNMENT - 1)) (2 ^ 32 - MEM_ALIGNMENT).
Definition LWIP_MEM_ALIGN (addr : Z) : Z := Z.land (u32 (addr + MEM_ALIGNMENT - 1)) (2 ^ 32 - MEM_ALIGNMENT).

Record mem := Mem {
  next : Z;
  prev : Z;
  used : Z
}.

Definition MEM_SIZE : Z := 1600.
Definition MIN_SIZE : Z := 12.
Definition MIN_SIZE_ALIGNED : Z := LWIP_MEM_ALIGN_SIZE MIN_SIZE.
(** [sizeof(struct mem)] is 6. *)
Definition SIZEOF_STRUCT_MEM : Z := LWIP_MEM_ALIGN_SIZE 6.
Definition MEM_SIZE_ALIGNED : Z := LWIP_MEM_ALIGN_SIZE MEM_SIZE.

Record mem_state := MemState {
  ram : Z;
  ram_end : Z;
  lfree : Z;
  hdr : gmap Z mem
}.

Definition set_next (v : Z) (m : mem) : mem := Mem (u16 v) (prev m) (used m).
Definition set_prev (v : Z) (m : mem) : mem := Mem (next m) (u16 v) (used m).
Definition set_used (v : Z) (m : mem) : mem := Mem (next m) (prev m) v.

Definition put (p : Z) (m : mem) (s : mem_state) : mem_state :=
  MemState (ram s) (ram_end s) (lfree s) (<[p := m]> (hdr s)).
Definition alter_mem (p : Z) (g : mem -> mem) (s : mem_state) : option mem_state :=
  let? m := hdr s !! p in Some (put p (g m) s).
Definition set_lfree (p : Z) (s : mem_state) : mem_state := MemState (ram s) (ram_end s) p (hdr s).

(** ** Operations *)

Definition plug_holes (mem : Z) (s : mem_state) : option mem_state :=
  if negb (ram s <=? mem) || negb (mem <? ram_end s) then None
  else
    let? m := hdr s !! mem in
    if negb (used m =? 0) || negb (next m <=? MEM_SIZE_ALIGNED) then None
    else
      let nmem := ram s + next m in
      let? s :=
        (if negb (mem =? nmem) then
           let? n := hdr s !! nmem in
           if (used n =? 0) && negb (nmem =? ram_end s) then
             let s := if lfree s =? nmem then set_lfree mem s else s in
             let? s := alter_mem mem (set_next (next n)) s in
             alter_mem (ram s + next n) (set_prev (mem - ram s)) s
           else Some s
         else Some s) in
      let? m := hdr s !! mem in
      let pmem := ram s + prev m in
      if negb (pmem =? mem) then
        let? p := hdr s !! pmem in
        if used p =? 0 then
          let s := if lfree s =? mem then set_lfree pmem s else s in
          let? s := alter_mem pmem (set_next (next m)) s in
          alter_mem (ram s + next m) (set_prev (pmem - ram s)) s
        else Some s
      else Some s.

(** [ram_heap] is the address of the array. *)
Definition mem_init (ram_heap : Z) : mem_state :=
  let ram := LWIP_MEM_ALIGN ram_heap in
  let ram_end := ram + MEM_SIZE_ALIGNED in
  MemState ram ram_end ram
    (<[ram_end := Mem MEM_SIZE_ALIGNED MEM_SIZE_ALIGNED 1]> (<[ram := Mem MEM_SIZE_ALIGNED 0 0]> ∅)).

Definition mem_free (rmem : Z) (s : mem_state) : option mem_state :=
  if rmem =? 0 then Some s
  else if negb (Z.land rmem (MEM_ALIGNMENT - 1) =? 0) then None
  else if negb ((ram s <=? rmem) && (rmem <? ram_end s)) then None
  else
    let mem := rmem - SIZEOF_STRUCT_MEM in
    let? m := hdr s !! mem in
    if used m =? 0 then None
    else
      let? s := alter_mem mem (set_used 0) s in
      let s := if mem <? lfree s then set_lfree mem s else s in
      plug_holes mem s.

Definition mem_trim (rmem newsize : Z) (s : mem_state) : option (Z * mem_state) :=
  let newsize := u16 (LWIP_MEM_ALIGN_SIZE newsize) in
  let newsize := if newsize <? MIN_SIZE_ALIGNED then MIN_SIZE_ALIGNED else newsize in
  if MEM_SIZE_ALIGNED <? newsize then Some (0, s)
  else if negb ((ram s <=? rmem) && (rmem <? ram_end s)) then None
  else
    let mem := rmem - SIZEOF_STRUCT_MEM in
    let? m := hdr s !! mem in
    let ptr := u16 (mem - ram s) in
    let size := u16 (next m - ptr - SIZEOF_STRUCT_MEM) in
    if negb (newsize <=? size) then None
    else if newsize =? size then Some (rmem, s)
    else
      let mem2 := ram s + next m in
      let? m2 := hdr s !! mem2 in
      let ptr2 := u16 (ptr + SIZEOF_STRUCT_MEM + newsize) in
      if used m2 =? 0 then
        let s := if lfree s =? mem2 then set_lfree (ram s + ptr2) s else s in
        let s := put (ram s + ptr2) (Mem (next m2) ptr 0) s in
        let? s := alter_mem mem (set_next ptr2) s in
        if negb (next m2 =? MEM_SIZE_ALIGNED) then
          let? s := alter_mem (ram s + next m2) (set_prev ptr2) s in Some (rmem, s)
        else Some (rmem, s)
      else if newsize + SIZEOF_STRUCT_MEM + MIN_SIZE_ALIGNED <=? size then
        let s := if ram s + ptr2 <? lfree s then set_lfree (ram s + ptr2) s else s in
        let s := put (ram s + ptr2) (Mem (next m) ptr 0) s in
        let? s := alter_mem mem (set_next ptr2) s in
        if negb (next m =? MEM_SIZE_ALIGNED) then
          let? s := alter_mem (ram s + next m) (set_prev ptr2) s in Some (rmem, s)
        else Some (rmem, s)
      else Some (rmem, s).

(** Headers do not repeat along the list, so a walk along it ends. *)
Definition walk_fuel (s : mem_state) : nat := S (size (hdr s)).

(** The loop that advances [lfree]. *)
Fixpoint next_free (fuel : nat) (cur : Z) (s : mem_state) : option Z :=
  let? m := hdr s !! cur in
  if negb (used m =? 0) && negb (cur =? ram_end s) then
    match fuel with
    | O => None
    | S fuel => next_free fuel (ram s + next m) s
    end
  else Some cur.

(** Marking the free block at [ptr] used, after splitting it if it is large. *)
Definition split_block (ptr size : Z) (m : mem) (s : mem_state) : option mem_state :=
  let mem := ram s + ptr in
  if size + SIZEOF_STRUCT_MEM + MIN_SIZE_ALIGNED <=? u32 (next m - (ptr + SIZEOF_STRUCT_MEM)) then
    let ptr2 := u16 (ptr + SIZEOF_STRUCT_MEM + size) in
    let s := put (ram s + ptr2) (Mem (next m) ptr 0) s in
    let? s := alter_mem mem (set_next ptr2) s in
    let? s := alter_mem mem (set_used 1) s in
    if negb (next m =? MEM_SIZE_ALIGNED) then alter_mem (ram s + next m) (set_prev ptr2) s
    else Some s
  else alter_mem mem (set_used 1) s.

(** Taking [size] bytes of the free block at [ptr]. *)
Definition take_block (ptr size : Z) (m : mem) (s : mem_state) : option (Z * mem_state) :=
  let mem := ram s + ptr in
  let? s := split_block ptr size m s in
  let? s :=
    (if mem =? lfree s then
       let? cur := next_free (walk_fuel s) (lfree s) s in Some (set_lfree cur s)
     else Some s) in
  if negb (mem + SIZEOF_STRUCT_MEM + size <=? ram_end s)
     || negb ((mem + SIZEOF_STRUCT_MEM) mod MEM_ALIGNMENT =? 0)
     || negb (Z.land mem (MEM_ALIGNMENT - 1) =? 0) then None
  else Some (mem + SIZEOF_STRUCT_MEM, s).

(** The search of [mem_malloc] for a free block that is large enough. *)
Fixpoint malloc_loop (fuel : nat) (ptr size : Z) (s : mem_state) : option (Z * mem_state) :=
  if ptr <? MEM_SIZE_ALIGNED - size then
    match fuel with
    | O => None
    | S fuel =>
        let? m := hdr s !! (ram s + ptr) in
        if (used m =? 0) && (size <=? u32 (next m - (ptr + SIZEOF_STRUCT_MEM)))
        then take_block ptr size m s
        else malloc_loop fuel (next m) size s
    end
  else Some (0, s).

Definition mem_malloc (size : Z) (s : mem_state) : option (Z * mem_state) :=
  if size =? 0 then Some (0, s)
  else
    let size := u16 (LWIP_MEM_ALIGN_SIZE size) in
    let size := if size <? MIN_SIZE_ALIGNED then MIN_SIZE_ALIGNED else size in
    if MEM_SIZE_ALIGNED <? size then Some (0, s)
    else malloc_loop (walk_fuel s) (u16 (lfree s - ram s)) size s.

(** [memset] of [n] bytes at the result is the second component. *)
Definition mem_calloc (count size : Z) (s : mem_state) : option (Z * option Z * mem_state) :=
  let? (p, s) := mem_malloc (u16 (count * size)) s in
  Some (p, if p =? 0 then None else Some (u32 (count * size)), s).
