(* ===== verification/LwipMemInv.v ===== *)
(** * The block list of the lwIP heap

    The headers in memory stand for a list of blocks that tile the heap.  This
    file has the invariant and the effect of splitting and joining blocks. *)

From Stdlib Require Import ZArith Lia.
From stdpp Require Import base gmap list numbers.
From S2P Require Import Prelude LwipMem.
From stdpp Require Import sets list.
Import OptionNotations.

Local Open Scope Z_scope.

(** ** Blocks *)

(** A block from its header at index [b_at] up to [b_next]. *)
Record block := Blk { b_at : Z; b_next : Z; b_used : bool }.

Definition flag (u : bool) : Z := if u then 1 else 0.
Definition data_size (b : block) : Z := b_next b - b_at b - SIZEOF_STRUCT_MEM.

(** The blocks of [l] lie one behind the other from [ptr] on; [pv] is the header
    before. *)
Fixpoint tiles (s : mem_state) (pv ptr : Z) (l : list block) : Prop :=
  match l with
  | [] => True
  | b :: l =>
      b_at b = ptr /\ hdr s !! (ram s + ptr) = Some (Mem (b_next b) pv (flag (b_used b))) /\
      ptr + SIZEOF_STRUCT_MEM + MIN_SIZE_ALIGNED <= b_next b /\ ptr mod 4 = 0 /\ tiles s ptr (b_next b) l
  end.

Fixpoint end_of (ptr : Z) (l : list block) : Z :=
  match l with
  | [] => ptr
  | b :: l => end_of (b_next b) l
  end.

Fixpoint last_of (pv : Z) (l : list block) : Z :=
  match l with
  | [] => pv
  | b :: l => last_of (b_at b) l
  end.

(** The first free block, or the end. *)
Fixpoint first_free (ptr : Z) (l : list block) : Z :=
  match l with
  | [] => ptr
  | b :: l => if b_used b then first_free (b_next b) l else b_at b
  end.

(** No two free blocks are neighbours. *)
Fixpoint coalesced (l : list block) : Prop :=
  match l with
  | b :: (c :: _) as l => (b_used b || b_used c = true) /\ coalesced l
  | _ => True
  end.

(** The blocks tile the heap. *)
Record tiled (s : mem_state) (l : list block) : Prop := {
  t_ram : 0 < ram s /\ ram s mod 4 = 0 /\ ram s + MEM_SIZE_ALIGNED < 2 ^ 32;
  t_end : ram_end s = ram s + MEM_SIZE_ALIGNED;
  t_tiles : tiles s 0 0 l;
  t_full : end_of 0 l = MEM_SIZE_ALIGNED;
  t_last : exists pv, hdr s !! ram_end s = Some (Mem MEM_SIZE_ALIGNED pv 1);
  t_free : lfree s = ram s + first_free 0 l
}.

Definition heap_ok (s : mem_state) (l : list block) : Prop := tiled s l /\ coalesced l.

Ltac consts :=
  change MEM_SIZE_ALIGNED with 1600 in *; change SIZEOF_STRUCT_MEM with 8 in *;
  change MIN_SIZE_ALIGNED with 12 in *; change MEM_ALIGNMENT with 4 in *.

(** ** Walking along the blocks *)

Lemma tiles_app s pv ptr l1 l2 :
  tiles s pv ptr (l1 ++ l2) <-> tiles s pv ptr l1 /\ tiles s (last_of pv l1) (end_of ptr l1) l2.
Proof.
  revert pv ptr. induction l1 as [|b l1 IH]; intros pv ptr; cbn [app tiles end_of last_of]; [tauto|].
  rewrite IH. split; [intros (-> & H)|intros [(-> & H) H2]]; tauto.
Qed.

Lemma end_of_app ptr l1 l2 : end_of ptr (l1 ++ l2) = end_of (end_of ptr l1) l2.
Proof. revert ptr. induction l1 as [|b l1 IH]; intros ptr; cbn [app end_of]; auto. Qed.

Lemma tiles_end s pv ptr l : tiles s pv ptr l -> ptr <= end_of ptr l /\ (l <> [] -> ptr + 20 <= end_of ptr l).
Proof.
  revert pv ptr. induction l as [|b l IH]; intros pv ptr H; cbn [tiles end_of] in *; [split; [lia|done]|].
  destruct H as (_ & _ & H1 & _ & H). destruct (IH _ _ H) as [H2 _]. consts. split; lia.
Qed.

Lemma tiles_bounds s pv ptr l b : tiles s pv ptr l -> b ∈ l ->
  ptr <= b_at b /\ b_at b + 20 <= b_next b /\ b_next b <= end_of ptr l /\ b_at b mod 4 = 0.
Proof.
  revert pv ptr. induction l as [|c l IH]; intros pv ptr H Hin; [set_solver|]. cbn [tiles end_of] in *.
  destruct H as (H0 & _ & H1 & H2 & H). destruct (tiles_end _ _ _ _ H) as [H3 _]. consts.
  apply elem_of_cons in Hin as [->|Hin]; [subst ptr; lia|]. destruct (IH _ _ H Hin) as (A & B & C & D). lia.
Qed.

Lemma tiles_at s pv ptr l1 b l2 : tiles s pv ptr (l1 ++ b :: l2) ->
  b_at b = end_of ptr l1 /\ hdr s !! (ram s + b_at b) = Some (Mem (b_next b) (last_of pv l1) (flag (b_used b))).
Proof. intros H. apply tiles_app in H as [_ (H1 & H2 & _)]. by rewrite H1. Qed.

(** A tiling depends on the headers of its blocks. *)
Lemma tiles_frame s s' pv ptr l :
  tiles s pv ptr l -> ram s' = ram s -> (forall b, b ∈ l -> hdr s' !! (ram s + b_at b) = hdr s !! (ram s + b_at b)) ->
  tiles s' pv ptr l.
Proof.
  revert pv ptr. induction l as [|b l IH]; intros pv ptr H Hr Hh; [done|]. cbn [tiles] in *.
  destruct H as (H1 & H2 & H3 & H4 & H). split; [done|]. rewrite Hr, <- H1, Hh, H1 by set_solver.
  repeat split; try done. apply IH; [done|done|]. intros c Hc. apply Hh. set_solver.
Qed.

(** Changing the back pointer of the first block. *)
Lemma tiles_prev s s' pv pv' ptr l :
  tiles s pv ptr l -> ram s' = ram s ->
  (l <> [] -> hdr s' !! (ram s + ptr) = (fun m => Mem (next m) pv' (used m)) <$> hdr s !! (ram s + ptr)) ->
  (forall k, ptr < k -> hdr s' !! (ram s + k) = hdr s !! (ram s + k)) ->
  tiles s' pv' ptr l.
Proof.
  intros H Hr H0 Hh. destruct l as [|b l]; [done|]. cbn [tiles] in *. destruct H as (H1 & H2 & H3 & H4 & H).
  split; [done|]. rewrite Hr, H0, H2 by done. repeat split; try done. apply (tiles_frame s); [done|done|].
  intros c Hc. apply Hh. destruct (tiles_bounds _ _ _ _ _ H Hc). consts. lia.
Qed.

Lemma first_free_app ptr l1 l2 :
  first_free ptr (l1 ++ l2) = if forallb b_used l1 then first_free (end_of ptr l1) l2 else first_free ptr l1.
Proof.
  revert ptr. induction l1 as [|b l1 IH]; intros ptr; [done|]. cbn [app first_free forallb end_of].
  destruct (b_used b); [apply IH|done].
Qed.

Lemma first_free_range s pv ptr l : tiles s pv ptr l -> ptr <= first_free ptr l <= end_of ptr l.
Proof.
  revert pv ptr. induction l as [|b l IH]; intros pv ptr H; cbn [tiles first_free end_of] in *; [lia|].
  destruct H as (H1 & _ & H2 & _ & H). destruct (tiles_end _ _ _ _ H) as [H3 _]. specialize (IH _ _ H). consts.
  destruct (b_used b); lia.
Qed.

(** Some block of a list that is not all used comes before its end. *)
Lemma first_free_lt s pv ptr l : tiles s pv ptr l -> forallb b_used l = false -> first_free ptr l < end_of ptr l.
Proof.
  revert pv ptr. induction l as [|b l IH]; intros pv ptr H Hf; cbn [tiles first_free end_of forallb] in *; [done|].
  destruct H as (H1 & _ & H2 & _ & H). destruct (tiles_end _ _ _ _ H) as [H3 _]. consts.
  destruct (b_used b); [by eapply IH|lia].
Qed.

(** Blocks start at different addresses, so there are at most as many as headers. *)
Lemma tiles_length s pv ptr l : tiles s pv ptr l -> (length l <= size (hdr s))%nat.
Proof.
  intros H. assert (NoDup (map b_at l) /\ forall x, x ∈ map b_at l -> is_Some (hdr s !! (ram s + x))) as [Hnd Hin].
  { revert pv ptr H. induction l as [|b l IH]; intros pv ptr H; cbn [map]; [split; [constructor|set_solver]|].
    pose proof H as (H1 & H2 & H3 & _ & H'). destruct (IH _ _ H') as [Hnd Hin]. split.
    - apply NoDup_cons. split; [|done]. intros Hx. apply list_elem_of_fmap in Hx as (c & E & Hc).
      destruct (tiles_bounds _ _ _ _ _ H' Hc). consts. lia.
    - intros x Hx. apply elem_of_cons in Hx as [->|Hx]; [rewrite H1, H2; by eexists|by apply Hin]. }
  rewrite <- (length_map b_at l), <- (size_dom (D := gset Z)).
  rewrite <- (length_map (Z.add (ram s)) (map b_at l)), <- (size_list_to_set (C := gset Z)).
  - apply subseteq_size. intros x Hx. apply elem_of_list_to_set, list_elem_of_fmap in Hx as (y & -> & Hy).
    apply elem_of_dom. by apply Hin.
  - apply NoDup_fmap_2; [|done]. intros x y E. lia.
Qed.

(** ** Splitting and joining *)

(** The header behind a block: that of the next block, or of the end. *)
Lemma tiled_next s l1 b l2 : tiled s (l1 ++ b :: l2) ->
  exists m, hdr s !! (ram s + b_next b) = Some m /\
    match l2 with [] => b_next b = MEM_SIZE_ALIGNED /\ next m = MEM_SIZE_ALIGNED /\ used m = 1
             | c :: _ => b_at c = b_next b /\ next m = b_next c /\ used m = flag (b_used c) end.
Proof.
  intros [_ He Ht Hf (pv & Hl) _]. apply tiles_app in Ht as [_ (_ & _ & _ & _ & H)].
  rewrite end_of_app in Hf. cbn [end_of] in Hf. destruct l2 as [|c l2]; cbn [tiles end_of] in *.
  - rewrite <- Hf in Hl, He. rewrite He in Hl. rewrite Hf in *. eauto.
  - destruct H as (-> & H & _). eauto.
Qed.

(** Replacing the blocks [mid] by others that fill the same space, with the back
    pointer of the header behind them adjusted. *)
Lemma replace_ok s s' l1 mid mid' l2 :
  let p := end_of 0 l1 in let e := end_of p mid in
  tiled s (l1 ++ mid ++ l2) -> ram s' = ram s -> ram_end s' = ram_end s ->
  tiles s' (last_of 0 l1) p mid' -> end_of p mid' = e ->
  (forall k, k < p \/ e < k -> hdr s' !! (ram s + k) = hdr s !! (ram s + k)) ->
  (exists pv, hdr s' !! (ram s + e) = (fun m => Mem (next m) pv (used m)) <$> hdr s !! (ram s + e) /\
              (l2 <> [] -> pv = last_of (last_of 0 l1) mid')) ->
  lfree s' = ram s + first_free 0 (l1 ++ mid' ++ l2) ->
  tiled s' (l1 ++ mid' ++ l2).
Proof.
  intros p e [Hram He Ht Hf (pve & Hl) _] Hr Hre Hm Hem Hk (pv & Hpv & Hpv2) Hlf.
  apply tiles_app in Ht as [Ht1 Ht2]. apply tiles_app in Ht2 as [Htm Ht2]. fold p in Htm, Ht2. fold e in Ht2.
  rewrite !end_of_app in Hf. fold p in Hf. fold e in Hf.
  destruct (tiles_end _ _ _ _ Ht2) as [Hle2 Hlt2].
  split; rewrite ?Hr, ?Hre; try done.
  - apply tiles_app. split.
    + apply (tiles_frame s); [done|done|]. intros b Hb. apply Hk. left.
      destruct (tiles_bounds _ _ _ _ _ Ht1 Hb) as (_ & H1 & H2 & _). fold p in H2. lia.
    + apply tiles_app. fold p. split; [done|]. rewrite Hem. destruct l2 as [|c l2]; [done|].
      apply (tiles_prev s s' (last_of (last_of 0 l1) mid)); [done|done| |].
      * intros _. by rewrite Hpv, Hpv2 by done.
      * intros k Hke. apply Hk. by right.
  - rewrite !end_of_app. fold p. by rewrite Hem.
  - destruct (decide (e = MEM_SIZE_ALIGNED)) as [Ee|Ee].
    + exists pv. rewrite He, <- Ee, Hpv. rewrite He, <- Ee in Hl. by rewrite Hl, Ee.
    + exists pve. rewrite He in Hl |- *. rewrite Hk; [done|]. right. lia.
Qed.

(** Joining a free block with its successor. *)
Lemma join_ok s l1 b c l2 : tiled s (l1 ++ b :: c :: l2) -> b_used b = false ->
  exists s', (let? s := alter_mem (ram s + b_at b) (set_next (b_next c)) s in
              alter_mem (ram s + b_next c) (set_prev (b_at b)) s) = Some s' /\
    tiled s' (l1 ++ Blk (b_at b) (b_next c) false :: l2) /\ lfree s' = lfree s /\ ram s' = ram s.
Proof.
  intros Ht Hu. pose proof (t_tiles _ _ Ht) as Hti. destruct (tiles_at _ _ _ _ _ _ Hti) as [Eat Hb].
  assert (tiled s ((l1 ++ [b]) ++ c :: l2)) as Ht' by (by rewrite <- app_assoc).
  destruct (tiled_next _ _ _ _ Ht') as (m & Hm & _). pose proof (t_full _ _ Ht) as Hf.
  pose proof Hti as Hti'. apply tiles_app in Hti' as [Ht1 Ht2]. cbn [tiles] in Ht2.
  destruct Ht2 as (_ & _ & B1 & B2 & Ec & _ & C1 & C2 & Ht2). destruct (tiles_end _ _ _ _ Ht1) as [Hp0 _].
  destruct (tiles_end _ _ _ _ Ht2) as [He2 _]. rewrite end_of_app in Hf. cbn [end_of] in Hf. rewrite Hf in He2. consts.
  unfold alter_mem at 1. rewrite Hb. unfold alter_mem. cbn [put ram hdr].
  rewrite lookup_insert_ne, Hm by lia. rewrite Hu in *.
  unfold put, set_next, set_prev. cbn [ram ram_end lfree hdr next prev used flag]. rewrite !u16_small by lia.
  eexists. split; [done|]. split; [|done].
  apply (replace_ok s _ l1 [b; c] [Blk (b_at b) (b_next c) false] l2); cbn [ram ram_end lfree hdr end_of last_of b_at b_next];
    try done.
  - cbn [tiles b_at b_next b_used ram hdr]. rewrite <- Eat. split; [done|].
    rewrite lookup_insert_ne, lookup_insert_eq by lia. consts. repeat split; try done; rewrite ?Eat; lia.
  - intros k Hk. rewrite !lookup_insert_ne; [done|lia..].
  - exists (b_at b). rewrite lookup_insert_eq, Hm. done.
  - rewrite (t_free _ _ Ht), !first_free_app. cbn [app first_free b_at b_used]. rewrite Hu. done.
Qed.

(** The list of blocks decides where [lfree] has to be. *)
Definition relocate (l : list block) (s : mem_state) : mem_state := set_lfree (ram s + first_free 0 l) s.

(** Changing whether a block is used. *)
Lemma mark_ok s l1 b l2 u : tiled s (l1 ++ b :: l2) ->
  let b' := Blk (b_at b) (b_next b) u in
  exists s', alter_mem (ram s + b_at b) (set_used (flag u)) s = Some s' /\ lfree s' = lfree s /\ ram s' = ram s /\
    tiled (relocate (l1 ++ b' :: l2) s') (l1 ++ b' :: l2).
Proof.
  intros Ht b'. subst b'. pose proof (t_tiles _ _ Ht) as Hti. destruct (tiles_at _ _ _ _ _ _ Hti) as [Eat Hb].
  destruct (tiled_next _ _ _ _ Ht) as (m & Hm & _).
  apply tiles_app in Hti as [Ht1 (_ & _ & B1 & B2 & Ht2)]. consts.
  unfold alter_mem. rewrite Hb. unfold put, set_used. cbn [next prev used].
  eexists. split; [done|]. split; [done|]. split; [done|]. unfold relocate, set_lfree. cbn [ram ram_end hdr].
  apply (replace_ok s _ l1 [b] [Blk (b_at b) (b_next b) u] l2); cbn [ram ram_end lfree hdr end_of last_of b_at b_next]; try done.
  - cbn [tiles b_at b_next b_used ram hdr]. rewrite <- Eat, lookup_insert_eq. consts. repeat split; try done; rewrite ?Eat; lia.
  - intros k Hk. rewrite lookup_insert_ne; [done|lia].
  - exists (prev m). rewrite lookup_insert_ne, Hm by lia. cbn. destruct m. split; [done|]. intros Hl2.
    destruct l2 as [|c l2]; [done|]. destruct Ht2 as (_ & Hc & _). cbn in Hc. rewrite Hm in Hc. cbn. rewrite Eat. by injection Hc.
Qed.

(** Adjusting the back pointer of the header at [nx], unless that is the end. *)
Lemma adjust_prev s0 s pv l2 nx p2 :
  tiles s pv nx l2 -> end_of nx l2 = MEM_SIZE_ALIGNED -> (exists pv, hdr s !! (ram s + MEM_SIZE_ALIGNED) = Some (Mem MEM_SIZE_ALIGNED pv 1)) ->
  ram s0 = ram s -> hdr s0 !! (ram s + nx) = hdr s !! (ram s + nx) -> 0 <= p2 < 65536 ->
  exists s', (if negb (nx =? MEM_SIZE_ALIGNED) then alter_mem (ram s0 + nx) (set_prev p2) s0 else Some s0) = Some s' /\
    lfree s' = lfree s0 /\ ram s' = ram s0 /\ ram_end s' = ram_end s0 /\
    (forall k, k <> nx -> hdr s' !! (ram s + k) = hdr s0 !! (ram s + k)) /\
    exists pv, hdr s' !! (ram s + nx) = (fun m => Mem (next m) pv (used m)) <$> hdr s !! (ram s + nx) /\
      (l2 <> [] -> pv = p2).
Proof.
  intros Ht2 Hf (pe & Hl) Er E0 Hp2. destruct (tiles_end _ _ _ _ Ht2) as [_ Hx].
  destruct (Z.eqb_spec nx MEM_SIZE_ALIGNED) as [E|E]; cbn [negb].
  - exists s0. do 5 (split; [done|]). exists pe. rewrite E0, E, Hl. split; [done|]. intros Hl2. specialize (Hx Hl2). lia.
  - destruct l2 as [|c l2]; [cbn in Hf; lia|]. pose proof Ht2 as (_ & Hc & _).
    unfold alter_mem. rewrite Er, E0, Hc. eexists. split; [done|].
    cbn [put lfree ram ram_end hdr]. do 3 (split; [done|]). split.
    + intros k Hk. by rewrite lookup_insert_ne by lia.
    + exists p2. rewrite lookup_insert_eq. unfold set_prev. by rewrite u16_small by lia.
Qed.

(** Cutting the space of the blocks [mid] into a used and a free block. *)
Lemma split_ok s l1 b mid l2 p2 :
  let nx := end_of (b_next b) mid in
  tiled s (l1 ++ (b :: mid) ++ l2) -> b_at b + 20 <= p2 -> p2 + 20 <= nx -> p2 mod 4 = 0 ->
  let l' := l1 ++ Blk (b_at b) p2 true :: Blk p2 nx false :: l2 in
  let s0 := MemState (ram s) (ram_end s) (lfree s)
    (<[ram s + b_at b := Mem p2 (last_of 0 l1) 1]> (<[ram s + p2 := Mem nx (b_at b) 0]> (hdr s))) in
  exists s', (if negb (nx =? MEM_SIZE_ALIGNED) then alter_mem (ram s0 + nx) (set_prev p2) s0 else Some s0) = Some s' /\
    lfree s' = lfree s /\ ram s' = ram s /\ ram_end s' = ram_end s /\ tiled (relocate l' s') l'.
Proof.
  intros nx Ht H1 H2 H3 l' s0. pose proof (t_tiles _ _ Ht) as Hti. cbn [app] in Hti.
  destruct (tiles_at _ _ _ _ _ _ Hti) as [Eat _]. pose proof (t_full _ _ Ht) as Hf.
  pose proof Hti as Hti'. apply tiles_app in Hti' as [_ (_ & _ & _ & B2 & Ht2)]. apply tiles_app in Ht2 as [_ Ht2].
  rewrite !end_of_app in Hf. cbn [end_of] in Hf. fold nx in Hf, Ht2.
  destruct (tiles_end _ _ _ _ Ht2) as [He2 _]. rewrite Hf in He2.
  destruct (tiles_end _ _ _ _ (proj1 (proj1 (tiles_app _ _ _ _ _) Hti))) as [Hp0 _]. rewrite <- Eat in Hp0.
  pose proof (t_last _ _ Ht) as Hl. rewrite (t_end _ _ Ht) in Hl.
  destruct (adjust_prev s0 s _ l2 nx p2 Ht2 Hf Hl eq_refl) as (s' & E & El & Er & Ere & Hk & Hnx);
    [cbn; rewrite !lookup_insert_ne; [done|lia..]|consts; lia|]. change (ram s0) with (ram s) in *.
  exists s'. do 4 (split; [done|]). unfold relocate, set_lfree. rewrite Er, Ere.
  change (ram_end s0) with (ram_end s).
  apply (replace_ok s _ l1 (b :: mid) [Blk (b_at b) p2 true; Blk p2 nx false] l2);
    cbn [ram ram_end lfree hdr end_of last_of b_at b_next]; try done.
  - cbn [tiles b_at b_next b_used ram hdr]. consts. rewrite <- Eat. rewrite !Hk by lia. cbn [s0 hdr].
    rewrite lookup_insert_eq, lookup_insert_ne, lookup_insert_eq by lia. repeat split; try done; try lia. by rewrite Eat.
  - intros k Hk'. fold nx in Hk'. rewrite Hk by lia. cbn [s0 hdr]. rewrite !lookup_insert_ne; [done|lia..].
Qed.
