(* ===== verification/LwipMemProof.v ===== *)
(** * The lwIP heap refines first fit on a list of blocks

    The abstract heap is the list of its blocks.  [mem_malloc] takes the first
    free block that is large enough, [mem_free] marks a block free and joins free
    neighbours, [mem_trim] gives back the end of a block. *)

From Stdlib Require Import ZArith Lia.
From stdpp Require Import base gmap list numbers.
From S2P Require Import Prelude LwipMem LwipMemInv.
From stdpp Require Import sets list.
Import OptionNotations LwipMemInv.

Local Open Scope Z_scope.

(** ** The abstract heap *)

(** The size that is looked for when [n] bytes are asked for. *)
Definition request (n : Z) : Z := Z.max MIN_SIZE_ALIGNED ((n + 3) / 4 * 4).

(** A used block of [size] bytes at the start of [b], and the rest if there is
    room for a block. *)
Definition cut (size : Z) (b : block) : list block :=
  if size + SIZEOF_STRUCT_MEM + MIN_SIZE_ALIGNED <=? data_size b
  then let p := b_at b + SIZEOF_STRUCT_MEM + size in [Blk (b_at b) p true; Blk p (b_next b) false]
  else [Blk (b_at b) (b_next b) true].

Fixpoint fit (size : Z) (l : list block) : option (Z * list block) :=
  match l with
  | [] => None
  | b :: l =>
      if negb (b_used b) && (size <=? data_size b) then Some (b_at b, cut size b ++ l)
      else prod_map id (cons b) <$> fit size l
  end.

(** Joining all free neighbours. *)
Fixpoint coalesce (l : list block) : list block :=
  match l with
  | [] => []
  | b :: l =>
      match coalesce l with
      | c :: l' => if b_used b || b_used c then b :: c :: l' else Blk (b_at b) (b_next c) false :: l'
      | [] => [b]
      end
  end.

Definition unuse (p : Z) (b : block) : block := if b_at b =? p then Blk (b_at b) (b_next b) false else b.
Definition release (p : Z) (l : list block) : list block := coalesce (map (unuse p) l).

(** The block at [p] shrinks to [size] bytes if the rest can be a block, or can be
    joined with the free block behind it. *)
Fixpoint trim (p size : Z) (l : list block) : list block :=
  match l with
  | [] => []
  | b :: l =>
      if b_at b =? p then
        if size =? data_size b then b :: l
        else match l with
             | Blk _ nx false :: l' =>
                 let p2 := p + SIZEOF_STRUCT_MEM + size in Blk p p2 true :: Blk p2 nx false :: l'
             | _ => cut size b ++ l
             end
      else b :: trim p size l
  end.

(** ** Sizes *)

Lemma align_size n : 0 <= n < 2 ^ 32 - 3 -> LWIP_MEM_ALIGN_SIZE n = (n + 3) / 4 * 4.
Proof.
  intros H. unfold LWIP_MEM_ALIGN_SIZE. consts. rewrite u32_small by lia. replace (n + 4 - 1) with (n + 3) by lia.
  change (2 ^ 32 - 4) with (Z.shiftl (Z.ones 30) 2).
  apply Z.bits_inj'. intros i Hi. rewrite Z.land_spec, Z.shiftl_spec by lia.
  change 4 with (2 ^ 2). rewrite <- Z.shiftr_div_pow2, <- Z.shiftl_mul_pow2, Z.shiftl_spec by lia.
  destruct (decide (i < 2)) as [Hi2|Hi2].
  - rewrite !(Z.testbit_neg_r _ (i - 2)) by lia. by rewrite andb_false_r.
  - rewrite Z.shiftr_spec, Z.testbit_ones_nonneg by lia. replace (i - 2 + 2) with i by lia.
    destruct (Z.ltb_spec (i - 2) 30); [by rewrite andb_true_r|]. rewrite andb_false_r. symmetry.
    apply (Z.bits_above_log2 _ i); [lia|]. destruct (Z.eq_dec (n + 3) 0); [lia|].
    apply Z.log2_lt_pow2; [lia|]. apply Z.lt_le_trans with (2 ^ 32); [lia|]. apply Z.pow_le_mono_r; lia.
Qed.

Lemma request_spec n : 0 <= n < 65533 ->
  u16 (LWIP_MEM_ALIGN_SIZE n) = (n + 3) / 4 * 4 /\
  (if (n + 3) / 4 * 4 <? MIN_SIZE_ALIGNED then MIN_SIZE_ALIGNED else (n + 3) / 4 * 4) = request n /\
  12 <= request n /\ n <= request n /\ request n mod 4 = 0.
Proof.
  intros H. rewrite align_size by lia. pose proof (Z.div_mod (n + 3) 4 ltac:(lia)). pose proof (Z.mod_pos_bound (n + 3) 4 ltac:(lia)).
  rewrite u16_small by lia. unfold request. consts. split; [done|]. split.
  - destruct (Z.ltb_spec ((n + 3) / 4 * 4) 12); lia.
  - split; [lia|]. split; [lia|]. destruct (Z.max_spec 12 ((n + 3) / 4 * 4)) as [[_ ->]|[_ ->]]; [apply Z.mod_mul; lia|done].
Qed.

(** ** [fit] in terms of the place it finds *)

Lemma fit_inv size l p l' : fit size l = Some (p, l') ->
  exists l1 b l2, l = l1 ++ b :: l2 /\ b_used b = false /\ size <= data_size b /\ p = b_at b /\ l' = l1 ++ cut size b ++ l2.
Proof.
  revert p l'. induction l as [|b l IH]; intros p l' H; [done|]. cbn [fit] in H.
  destruct (negb (b_used b) && (size <=? data_size b)) eqn:E.
  - injection H as <- <-. apply andb_true_iff in E as [E1 E2]. exists [], b, l. repeat split; [by destruct (b_used b)|lia].
  - destruct (fit size l) as [[q k]|]; [|done]. injection H as <- <-.
    destruct (IH q k eq_refl) as (l1 & c & l2 & -> & A & B & -> & ->). by exists (b :: l1), c, l2.
Qed.

Lemma fit_none size l : fit size l = None -> forall b, b ∈ l -> b_used b = false -> data_size b < size.
Proof.
  induction l as [|b l IH]; intros H c Hc Hu; [set_solver|]. cbn [fit] in H.
  destruct (negb (b_used b) && (size <=? data_size b)) eqn:E; [done|].
  destruct (fit size l) eqn:E2; [done|]. apply elem_of_cons in Hc as [->|Hc]; [rewrite Hu in E; cbn in E; lia|by apply IH].
Qed.

(** ** Free blocks that are neighbours *)

Lemma coalesced_cons b l : coalesced (b :: l) -> coalesced l.
Proof. destruct l; [done|]. by intros [_ H]. Qed.

Lemma coalesced_app l1 l2 : coalesced (l1 ++ l2) -> coalesced l1 /\ coalesced l2.
Proof.
  induction l1 as [|b l1 IH]; [done|]. cbn [app]. intros H. destruct (IH (coalesced_cons _ _ H)) as [A B].
  split; [|done]. destruct l1 as [|c l1]; [done|]. split; [apply H|done].
Qed.

Definition starts_used (l : list block) : Prop := match l with [] => True | b :: _ => b_used b = true end.

(** What is put between two coalesced lists. *)
Lemma coalesced_join l1 l2 :
  coalesced l1 -> coalesced l2 -> (starts_used l2 \/ starts_used (rev l1)) -> coalesced (l1 ++ l2).
Proof.
  induction l1 as [|b l1 IH]; intros H1 H2 Hs; [done|]. cbn [app]. destruct l1 as [|c l1].
  - destruct l2 as [|c l2]; [done|]. split; [|done]. cbn in Hs. apply orb_true_iff. tauto.
  - destruct H1 as [H0 H1]. split; [done|]. apply IH; [done|done|]. destruct Hs as [Hs|Hs]; [by left|right].
    cbn [rev] in Hs |- *. rewrite <- app_assoc in Hs. destruct (rev l1); done.
Qed.

Lemma coalesced_mid l1 b l2 : coalesced (l1 ++ b :: l2) -> b_used b = false -> starts_used l2 /\ starts_used (rev l1).
Proof.
  intros H Hu. split.
  - apply coalesced_app in H as [_ H]. destruct l2; [done|]. destruct H as [H _]. by rewrite Hu in H.
  - destruct l1 as [|a l1 _] using rev_ind; [done|]. rewrite <- app_assoc in H. apply coalesced_app in H as [_ [H _]].
    rewrite rev_app_distr. cbn. rewrite Hu in H. by rewrite orb_false_r in H.
Qed.

Lemma coalesce_id l : coalesced l -> coalesce l = l.
Proof.
  induction l as [|b l IH]; intros H; [done|]. cbn [coalesce]. rewrite IH by (eapply coalesced_cons, H).
  destruct l as [|c l]; [done|]. destruct H as [H _]. by rewrite H.
Qed.

Lemma coalesce_ok l : coalesced (coalesce l) /\ (starts_used l -> starts_used (coalesce l)).
Proof.
  induction l as [|b l [IH _]]; [done|]. cbn [coalesce starts_used]. destruct (coalesce l) as [|c l']; [done|].
  destruct (b_used b || b_used c) eqn:E; [done|]. apply orb_false_iff in E as [E1 E2]. split; [|by rewrite E1].
  destruct l' as [|d l']; [done|]. destruct IH as [IH1 IH2]. split; [|done]. cbn. by rewrite E2 in IH1.
Qed.

Lemma coalesce_app l1 l2 : coalesce (l1 ++ l2) = coalesce (l1 ++ coalesce l2).
Proof.
  induction l1 as [|b l1 IH]; cbn [app].
  - symmetry. apply coalesce_id, coalesce_ok.
  - cbn [coalesce]. by rewrite IH.
Qed.

Lemma cut_coalesced size l1 b l2 :
  coalesced (l1 ++ b :: l2) -> b_used b = false -> coalesced (l1 ++ cut size b ++ l2).
Proof.
  intros H Hu. destruct (coalesced_mid _ _ _ H Hu) as [S2 S1]. apply coalesced_app in H as [H1 H2]. apply coalesced_cons in H2.
  apply coalesced_join; [done| |by right]. unfold cut. destruct (_ <=? _).
  - apply (coalesced_join [_; _]); [done|done|by left].
  - apply (coalesced_join [_]); [done|done|by left].
Qed.

(** ** [mem_malloc] *)

(** The loop that advances [lfree] finds the first free block. *)
Lemma next_free_spec s pv ptr l fuel :
  tiles s pv ptr l -> end_of ptr l = MEM_SIZE_ALIGNED -> ram_end s = ram s + MEM_SIZE_ALIGNED ->
  is_Some (hdr s !! ram_end s) -> (length l <= fuel)%nat ->
  next_free fuel (ram s + ptr) s = Some (ram s + first_free ptr l).
Proof.
  revert pv ptr l. induction fuel as [|fuel IH]; intros pv ptr l Ht He Hr [m Hm] Hf.
  1,2: destruct l as [|b l]; cbn [first_free end_of length] in *; [|try lia].
  1,2: rewrite He, <- Hr; cbn [next_free]; rewrite Hm, Z.eqb_refl, andb_false_r; done.
  destruct Ht as (Eb & Hb & H1 & _ & Ht). cbn [next_free]. rewrite Hb. cbn [next used].
  destruct (b_used b); cbn [flag negb andb Z.eqb]; [|by rewrite Eb].
  destruct (tiles_end _ _ _ _ Ht) as [H2 _]. consts.
  destruct (Z.eqb_spec (ram s + ptr) (ram_end s)); [lia|]. cbn [negb]. apply (IH ptr); [done|done|done|by eexists|lia].
Qed.

Lemma set_lfree_id s : set_lfree (lfree s) s = s.
Proof. by destruct s. Qed.

Lemma next_free_lfree fuel cur p s : next_free fuel cur (set_lfree p s) = next_free fuel cur s.
Proof.
  revert cur. induction fuel as [|fuel IH]; intros cur; cbn [next_free set_lfree ram ram_end hdr]; [done|].
  destruct (hdr s !! cur); [|done]. destruct (_ && _); [apply IH|done].
Qed.

(** Where [lfree] points relative to a free block. *)
Lemma lfree_at s l1 b l2 : tiled s (l1 ++ b :: l2) -> b_used b = false ->
  if forallb b_used l1 then lfree s = ram s + b_at b
  else lfree s = ram s + first_free 0 l1 /\ first_free 0 l1 < b_at b.
Proof.
  intros Ht Hu. rewrite (t_free _ _ Ht), first_free_app. cbn [first_free]. rewrite Hu.
  pose proof (t_tiles _ _ Ht) as Hti. destruct (tiles_at _ _ _ _ _ _ Hti) as [-> _]. apply tiles_app in Hti as [H1 _].
  destruct (forallb b_used l1) eqn:E; [done|]. split; [done|]. by eapply first_free_lt.
Qed.

(** After the block at [lfree] has been taken, [lfree] is moved on. *)
Lemma lfree_advance_ok s s1 l1 b l2 mid :
  let l' := l1 ++ mid ++ l2 in
  tiled s (l1 ++ b :: l2) -> b_used b = false -> lfree s1 = lfree s -> ram s1 = ram s -> tiled (relocate l' s1) l' ->
  (if ram s + b_at b =? lfree s1 then let? cur := next_free (walk_fuel s1) (lfree s1) s1 in Some (set_lfree cur s1)
   else Some s1) = Some (relocate l' s1).
Proof.
  intros l' Ht Hu El Er Ht'. pose proof (lfree_at _ _ _ _ Ht Hu) as Hlf. unfold l' in *.
  destruct (tiles_at _ _ _ _ _ _ (t_tiles _ _ Ht)) as [Eat _].
  unfold relocate. rewrite first_free_app. destruct (forallb b_used l1) eqn:E.
  - rewrite El, Hlf, Z.eqb_refl. rewrite <- Er. pose proof (t_tiles _ _ Ht') as Hti. apply tiles_app in Hti as [_ Hti].
    pose proof (t_full _ _ Ht') as Hfu. rewrite end_of_app in Hfu. destruct (t_last _ _ Ht') as [pv Hl].
    rewrite <- (next_free_lfree _ _ (ram s1 + first_free 0 (l1 ++ mid ++ l2))), Eat.
    change (ram s1 + end_of 0 l1) with (ram (relocate (l1 ++ mid ++ l2) s1) + end_of 0 l1).
    erewrite (next_free_spec _ _ _ (mid ++ l2)); [done|exact Hti|exact Hfu|apply Ht'|by eexists|].
    pose proof (tiles_length _ _ _ _ Hti) as Hlen. cbn [relocate set_lfree hdr] in Hlen. unfold walk_fuel. lia.
  - destruct Hlf as [Hlf Hlt]. rewrite El, Hlf. destruct (Z.eqb_spec (ram s + b_at b) (ram s + first_free 0 l1)); [lia|].
    rewrite Er, <- Hlf, <- El. by rewrite set_lfree_id.
Qed.

Lemma split_block_ok s l1 b l2 size :
  tiled s (l1 ++ b :: l2) -> b_used b = false -> 12 <= size -> size mod 4 = 0 -> size <= data_size b ->
  exists s1, split_block (b_at b) size (Mem (b_next b) (last_of 0 l1) 0) s = Some s1 /\
    lfree s1 = lfree s /\ ram s1 = ram s /\ tiled (relocate (l1 ++ cut size b ++ l2) s1) (l1 ++ cut size b ++ l2).
Proof.
  intros Ht Hu H12 H4 Hd. pose proof (t_tiles _ _ Ht) as Hti. destruct (tiles_at _ _ _ _ _ _ Hti) as [Eat Hb].
  assert (b ∈ l1 ++ b :: l2) as Hin by set_solver.
  destruct (tiles_bounds _ _ _ _ _ Hti Hin) as (B0 & B1 & B2 & B3). rewrite (t_full _ _ Ht) in B2. rewrite Hu in Hb.
  unfold data_size in Hd. unfold split_block, cut, data_size. cbn [next]. consts. rewrite (u32_small (b_next b - _)) by lia.
  replace (b_next b - b_at b - 8) with (b_next b - (b_at b + 8)) by lia.
  destruct (Z.leb_spec (size + 8 + 12) (b_next b - (b_at b + 8))) as [Hs|Hs].
  - rewrite u16_small by lia.
    destruct (split_ok s l1 b [] l2 (b_at b + 8 + size)) as (s1 & E1 & El & Er & _ & Ht1); cbn [end_of app]; try done; [lia..| |].
    { replace (b_at b + 8 + size) with (b_at b + size + 2 * 4) by lia. rewrite Z.mod_add, Zplus_mod, B3, H4 by lia. done. }
    exists s1. cbn [end_of] in E1. split; [|done]. rewrite <- E1. consts. unfold alter_mem at 1. cbn [put ram hdr].
    rewrite lookup_insert_ne, Hb by lia. unfold alter_mem at 1. unfold put. cbn [ram ram_end lfree hdr].
    rewrite lookup_insert_eq. cbn [ram ram_end lfree hdr]. unfold set_next, set_used. cbn [next prev used].
    by rewrite insert_insert_eq, u16_small by lia.
  - destruct (mark_ok s l1 b l2 true Ht) as (s1 & E1 & El & Er & Ht1). by exists s1.
Qed.

Lemma take_block_ok s l1 b l2 size :
  tiled s (l1 ++ b :: l2) -> b_used b = false -> 12 <= size -> size mod 4 = 0 -> size <= data_size b ->
  exists s', take_block (b_at b) size (Mem (b_next b) (last_of 0 l1) 0) s = Some (ram s + b_at b + 8, s') /\
    ram s' = ram s /\ tiled s' (l1 ++ cut size b ++ l2).
Proof.
  intros Ht Hu H12 H4 Hd. destruct (split_block_ok s l1 b l2 size) as (s1 & E1 & El & Er & Ht1); [done..|].
  assert (b ∈ l1 ++ b :: l2) as Hin by set_solver.
  destruct (tiles_bounds _ _ _ _ _ (t_tiles _ _ Ht) Hin) as (B0 & B1 & B2 & B3). rewrite (t_full _ _ Ht) in B2.
  pose proof (t_ram _ _ Ht) as (R1 & R2 & R3). unfold data_size in Hd. consts.
  unfold take_block. rewrite E1. cbv zeta. rewrite (lfree_advance_ok s s1 l1 b l2 (cut size b)) by done.
  eexists. split; [|split; [|exact Ht1]]; [|done].
  pose proof (t_end _ _ Ht1) as Re1. cbn [relocate set_lfree ram_end ram] in Re1 |- *. rewrite Re1, Er. consts.
  assert ((ram s + b_at b) mod 4 = 0) as M by (rewrite Zplus_mod, R2, B3; done).
  change (4 - 1) with (Z.ones 2). rewrite Z.land_ones by lia. change (2 ^ 2) with 4. rewrite M.
  replace (ram s + b_at b + 8) with (ram s + b_at b + 2 * 4) by lia. rewrite Z.mod_add, M by lia.
  destruct (Z.leb_spec (ram s + b_at b + 2 * 4 + size) (ram s + 1600)); [done|lia].
Qed.

(** The result of [fit] as a pointer and a new block list. *)
Definition malloc_result (s : mem_state) (r : option (Z * list block)) (o : option (Z * mem_state)) (l1 : list block) : Prop :=
  match r with
  | Some (p, l') => exists s', o = Some (ram s + p + SIZEOF_STRUCT_MEM, s') /\ ram s' = ram s /\ tiled s' (l1 ++ l')
  | None => o = Some (0, s)
  end.

Lemma malloc_loop_spec s size l2 : 12 <= size -> size mod 4 = 0 -> forall l1 fuel,
  tiled s (l1 ++ l2) -> (length l2 <= fuel)%nat ->
  malloc_result s (fit size l2) (malloc_loop fuel (end_of 0 l1) size s) l1.
Proof.
  intros H12 H4. induction l2 as [|b l2 IH]; intros l1 fuel Ht Hf.
  - pose proof (t_full _ _ Ht) as Hfu. rewrite app_nil_r in Hfu. rewrite Hfu. consts.
    destruct fuel; cbn; consts; destruct (Z.ltb_spec 1600 (1600 - size)); (lia || done).
  - destruct (tiles_at _ _ _ _ _ _ (t_tiles _ _ Ht)) as [Eat Hb]. rewrite <- Eat.
    assert (b ∈ l1 ++ b :: l2) as Hin by set_solver.
    destruct (tiles_bounds _ _ _ _ _ (t_tiles _ _ Ht) Hin) as (B0 & B1 & B2 & B3). rewrite (t_full _ _ Ht) in B2.
    assert (tiled s ((l1 ++ [b]) ++ l2)) as Ht' by (by rewrite <- app_assoc).
    destruct fuel as [|fuel]; [cbn in Hf; lia|]. specialize (IH (l1 ++ [b]) fuel Ht' ltac:(cbn in Hf; lia)).
    cbn [malloc_loop fit]. consts. rewrite Hb. cbn [next used]. rewrite u32_small by lia. unfold data_size. consts.
    replace (b_next b - b_at b - 8) with (b_next b - (b_at b + 8)) by lia.
    destruct (Z.ltb_spec (b_at b) (1600 - size)) as [Hlt|Hge].
    + destruct (b_used b) eqn:Hu; cbn [flag negb andb Z.eqb]; [|destruct (Z.leb_spec size (b_next b - (b_at b + 8))) as [Hs|Hs]].
      1,3: rewrite end_of_app in IH; cbn [end_of] in IH; destruct (fit size l2) as [[p l']|]; cbn in IH |- *; [|done].
      1,2: destruct IH as (s' & E & Er & H); exists s'; rewrite <- app_assoc in H; done.
      apply take_block_ok; try done. unfold data_size. consts. lia.
    + replace (size <=? b_next b - (b_at b + 8)) with false by lia. rewrite andb_false_r.
      assert (fit size l2 = None) as ->; [|done]. destruct (fit size l2) as [[p l']|] eqn:E; [|done]. exfalso.
      destruct (fit_inv _ _ _ _ E) as (k1 & c & k2 & -> & _ & Hd & _). unfold data_size in Hd. consts.
      pose proof (t_tiles _ _ Ht) as Hti. apply tiles_app in Hti as [_ (_ & _ & _ & _ & Hti)].
      assert (c ∈ k1 ++ c :: k2) as Hc by set_solver. destruct (tiles_bounds _ _ _ _ _ Hti Hc) as (C0 & C1 & C2 & C3).
      pose proof (t_full _ _ Ht) as Hfu. rewrite end_of_app in Hfu. cbn [end_of] in Hfu. consts. lia.
Qed.

Lemma fit_app_used size l1 l2 : forallb b_used l1 = true -> fit size (l1 ++ l2) = prod_map id (app l1) <$> fit size l2.
Proof.
  induction l1 as [|b l1 IH]; cbn [app forallb fit]; intros H; [by destruct (fit size l2) as [[]|]|].
  apply andb_true_iff in H as [-> H]. rewrite IH by done. by destruct (fit size l2) as [[]|].
Qed.

Lemma first_free_split ptr l : exists l1 l2, l = l1 ++ l2 /\ forallb b_used l1 = true /\ forall s pv, tiles s pv ptr l -> first_free ptr l = end_of ptr l1.
Proof.
  revert ptr. induction l as [|b l IH]; intros ptr; [by exists [], []|]. cbn [first_free]. destruct (b_used b) eqn:E.
  - destruct (IH (b_next b)) as (l1 & l2 & -> & H1 & H2). exists (b :: l1), l2. cbn. rewrite E. repeat split; [done|].
    intros s pv (_ & _ & _ & _ & H). by eapply H2.
  - exists [], (b :: l). repeat split. intros s pv (H & _). done.
Qed.

Lemma fit_coalesced size l p l' : fit size l = Some (p, l') -> coalesced l -> coalesced l'.
Proof. intros H Hc. destruct (fit_inv _ _ _ _ H) as (l1 & b & l2 & -> & Hu & _ & _ & ->). by apply cut_coalesced. Qed.

Lemma malloc_spec s l n : heap_ok s l -> 0 < n < 65533 ->
  match fit (request n) l with
  | Some (p, l') => exists s', mem_malloc n s = Some (ram s + p + SIZEOF_STRUCT_MEM, s') /\ ram s' = ram s /\ heap_ok s' l'
  | None => mem_malloc n s = Some (0, s)
  end.
Proof.
  intros [Ht Hc] Hn. destruct (request_spec n) as (E1 & E2 & E3 & E4 & E5); [lia|].
  unfold mem_malloc. destruct (Z.eqb_spec n 0); [lia|]. cbv zeta. rewrite E1, E2.
  destruct (first_free_split 0 l) as (l1 & l2 & -> & Hu & Hff). specialize (Hff s 0 (t_tiles _ _ Ht)).
  pose proof (first_free_range _ _ _ _ (t_tiles _ _ Ht)) as Hr. rewrite (t_full _ _ Ht) in Hr.
  destruct (Z.ltb_spec MEM_SIZE_ALIGNED (request n)) as [Hbig|Hbig].
  - assert (fit (request n) (l1 ++ l2) = None) as ->; [|done]. destruct (fit _ _) as [[p l']|] eqn:E; [|done]. exfalso.
    destruct (fit_inv _ _ _ _ E) as (k1 & c & k2 & Ek & _ & Hd & _). unfold data_size in Hd.
    assert (c ∈ l1 ++ l2) as Hin by (rewrite Ek; set_solver).
    destruct (tiles_bounds _ _ _ _ _ (t_tiles _ _ Ht) Hin) as (C0 & _ & C2 & _). rewrite (t_full _ _ Ht) in C2. consts. lia.
  - rewrite (t_free _ _ Ht). replace (ram s + first_free 0 (l1 ++ l2) - ram s) with (first_free 0 (l1 ++ l2)) by lia.
    rewrite Hff in *. consts. rewrite u16_small by lia. pose proof (fit_coalesced (request n) (l1 ++ l2)) as Hfc.
    rewrite fit_app_used in * by done.
    assert (length l2 <= walk_fuel s)%nat as Hlen.
    { pose proof (tiles_length _ _ _ _ (t_tiles _ _ Ht)) as H. rewrite length_app in H. unfold walk_fuel. lia. }
    pose proof (malloc_loop_spec s (request n) l2 E3 E5 l1 _ Ht Hlen) as H. unfold malloc_result in H.
    destruct (fit (request n) l2) as [[p l']|]; cbn; [|done]. destruct H as (s' & E & Er & H). exists s'.
    split; [done|]. split; [done|]. split; [done|]. by eapply Hfc.
Qed.

(** * Giving memory back to the lwIP heap

    [mem_free] and [mem_trim] on the block list. *)

(** ** [mem_free] *)

Lemma alter_ram {A} p g s (F : Z -> mem_state -> option A) :
  (let? s' := alter_mem p g s in F (ram s') s') = (let? s' := alter_mem p g s in F (ram s) s').
Proof. unfold alter_mem. by destruct (hdr s !! p). Qed.

(** Joining with the block behind. *)
Definition forward (b : block) (l2 : list block) : block * list block :=
  match l2 with
  | c :: l' => if b_used c then (b, l2) else (Blk (b_at b) (b_next c) false, l')
  | [] => (b, [])
  end.

Lemma forward_coalesce b l2 : b_used b = false -> coalesced l2 -> coalesce (b :: l2) = (forward b l2).1 :: (forward b l2).2.
Proof.
  intros Hu Hc. cbn [coalesce]. rewrite coalesce_id by done. destruct l2 as [|c l2]; [done|]. cbn. rewrite Hu. cbn.
  by destruct (b_used c).
Qed.

Lemma lfree_before s l1 b l2 : tiled s (l1 ++ b :: l2) -> b_used b = false -> lfree s <= ram s + b_at b.
Proof. intros Ht Hu. pose proof (lfree_at _ _ _ _ Ht Hu) as H. destruct (forallb b_used l1); lia. Qed.

Lemma plug_forward s l1 b l2 : tiled s (l1 ++ b :: l2) -> b_used b = false ->
  exists s', ram s' = ram s /\ tiled s' (l1 ++ (forward b l2).1 :: (forward b l2).2) /\
    plug_holes (ram s + b_at b) s =
      (let mem := ram s' + b_at b in
       let? m := hdr s' !! mem in
       let pmem := ram s' + prev m in
       if negb (pmem =? mem) then
         let? p := hdr s' !! pmem in
         if used p =? 0 then
           let s := if lfree s' =? mem then set_lfree pmem s' else s' in
           let? s := alter_mem pmem (set_next (next m)) s in
           alter_mem (ram s + next m) (set_prev (pmem - ram s)) s
         else Some s'
       else Some s').
Proof.
  intros Ht Hu. pose proof (t_tiles _ _ Ht) as Hti. destruct (tiles_at _ _ _ _ _ _ Hti) as [_ Hb].
  destruct (tiled_next _ _ _ _ Ht) as (m & Hm & Hl2). assert (b ∈ l1 ++ b :: l2) as Hin by set_solver.
  destruct (tiles_bounds _ _ _ _ _ Hti Hin) as (B0 & B1 & B2 & _). rewrite (t_full _ _ Ht) in B2.
  pose proof (lfree_before _ _ _ _ Ht Hu) as Hlf. pose proof (t_end _ _ Ht) as He.
  unfold plug_holes. rewrite Hb, Hu. cbn [used next flag]. consts. rewrite Z.eqb_refl, He.
  replace (ram s <=? ram s + b_at b) with true by lia. replace (ram s + b_at b <? ram s + 1600) with true by lia.
  replace (b_next b <=? 1600) with true by lia. cbn [negb orb]. rewrite Hm.
  replace (ram s + b_at b =? ram s + b_next b) with false by lia. cbn [negb].
  replace (lfree s =? ram s + b_next b) with false by lia.
  destruct l2 as [|c l2]; [destruct Hl2 as (_ & _ & ->); exists s; done|]. destruct Hl2 as (Ec & En & ->). cbn [forward].
  destruct (b_used c) eqn:Hc; [by exists s|]. cbn [flag Z.eqb andb].
  assert (c ∈ l1 ++ b :: c :: l2) as Hinc by set_solver.
  destruct (tiles_bounds _ _ _ _ _ Hti Hinc) as (_ & C1 & C2 & _). rewrite (t_full _ _ Ht) in C2. consts.
  replace (ram s + b_next b =? ram s + 1600) with false by lia. cbn [negb].
  destruct (join_ok s l1 b c l2 Ht Hu) as (s' & E & Ht' & El & Er). exists s'. split; [done|]. split; [done|].
  rewrite En, Er, (alter_ram _ _ _ (fun r s' => alter_mem (r + b_next c) (set_prev (ram s + b_at b - r)) s')).
  rewrite (alter_ram _ _ _ (fun r s' => alter_mem (r + b_next c) (set_prev (b_at b)) s')) in E.
  replace (ram s + b_at b - ram s) with (b_at b) by lia. rewrite E, Er. done.
Qed.

(** What joining with the block in front makes of the list. *)
Lemma coalesce_back l1 a b l2 : coalesced (l1 ++ [a]) -> coalesced (b :: l2) -> b_used b = false ->
  coalesce ((l1 ++ [a]) ++ b :: l2) =
  if b_used a then (l1 ++ [a]) ++ b :: l2 else l1 ++ Blk (b_at a) (b_next b) false :: l2.
Proof.
  intros H1 H2 Hu. destruct (b_used a) eqn:Ha.
  - apply coalesce_id, coalesced_join; [done|done|]. right. by rewrite rev_app_distr.
  - destruct (coalesced_mid _ _ _ H1 Ha) as [_ S1]. destruct (coalesced_mid [] _ _ H2 Hu) as [S2 _].
    apply coalesced_app in H1 as [H1 _].
    rewrite <- app_assoc, coalesce_app. cbn [app]. replace (coalesce (a :: b :: l2)) with (Blk (b_at a) (b_next b) false :: l2).
    + apply coalesce_id, coalesced_join; [done| |by right]. apply (coalesced_join [_]); [done|by eapply coalesced_cons|by left].
    + change (coalesce (a :: b :: l2)) with (match coalesce (b :: l2) with
        c :: l' => if b_used a || b_used c then a :: c :: l' else Blk (b_at a) (b_next c) false :: l' | [] => [a] end).
      by rewrite coalesce_id, Ha, Hu by done.
Qed.

Lemma plug_ok s l1 b l2 : tiled s (l1 ++ b :: l2) -> b_used b = false -> coalesced l1 -> coalesced l2 ->
  exists s', plug_holes (ram s + b_at b) s = Some s' /\ ram s' = ram s /\ tiled s' (coalesce (l1 ++ b :: l2)).
Proof.
  intros Ht Hu Hc1 Hc2. destruct (plug_forward s l1 b l2 Ht Hu) as (s1 & Er & Ht1 & ->).
  rewrite coalesce_app, forward_coalesce by done. pose proof (proj1 (coalesce_ok (b :: l2))) as Hc.
  rewrite forward_coalesce in Hc by done.
  assert (b_at (forward b l2).1 = b_at b /\ b_used (forward b l2).1 = false) as [Eb Hu'].
  { destruct l2 as [|c l2]; [done|]. cbn. by destruct (b_used c). }
  destruct (forward b l2) as [b2 k]. cbn [fst snd] in *. rewrite <- Eb. clear b Eb Hu Ht Hc2.
  pose proof (t_tiles _ _ Ht1) as Hti. destruct (tiles_at _ _ _ _ _ _ Hti) as [Eat Hb]. cbv zeta. rewrite Hb. cbn [prev next].
  destruct l1 as [|a l1 _] using rev_ind.
  { cbn [end_of last_of app] in *. rewrite Eat, Z.eqb_refl. exists s1. cbn [negb]. by rewrite coalesce_id. }
  assert (last_of 0 (l1 ++ [a]) = b_at a) as El by (clear; generalize 0; induction l1; intros z; cbn; auto).
  rewrite El in *. rewrite <- app_assoc in Ht1, Hti. cbn [app] in Ht1, Hti. destruct (tiles_at _ _ _ _ _ _ Hti) as [_ Ha].
  assert (b_next a = b_at b2) as Eab.
  { rewrite Eat, end_of_app. done. }
  assert (a ∈ l1 ++ a :: b2 :: k) as Hin by set_solver. destruct (tiles_bounds _ _ _ _ _ Hti Hin) as (_ & A1 & _ & _).
  replace (ram s1 + b_at a =? ram s1 + b_at b2) with false by lia. cbn [negb]. rewrite Ha. cbn [used].
  rewrite coalesce_back by done. destruct (b_used a) eqn:Hua; cbn [flag Z.eqb].
  - exists s1. rewrite <- app_assoc. done.
  - pose proof (lfree_before _ _ _ _ Ht1 Hua) as Hlf. replace (lfree s1 =? ram s1 + b_at b2) with false by lia.
    destruct (join_ok s1 l1 a b2 k Ht1 Hua) as (s' & E & Ht' & _ & Er'). exists s'.
    rewrite (alter_ram _ _ _ (fun r s' => alter_mem (r + b_next b2) (set_prev (ram s1 + b_at a - r)) s')).
    rewrite (alter_ram _ _ _ (fun r s' => alter_mem (r + b_next b2) (set_prev (b_at a)) s')) in E.
    replace (ram s1 + b_at a - ram s1) with (b_at a) by lia. split; [exact E|]. by rewrite Er'.
Qed.

Lemma map_unuse p l : (forall b, b ∈ l -> b_at b <> p) -> map (unuse p) l = l.
Proof.
  intros H. induction l as [|b l IH]; [done|]. cbn [map]. rewrite IH by (intros c Hc; apply H; set_solver).
  unfold unuse. destruct (Z.eqb_spec (b_at b) p); [exfalso; eapply H; [|done]; set_solver|done].
Qed.

(** The blocks in front of a block and behind it are elsewhere. *)
Lemma tiled_others s l1 b l2 : tiled s (l1 ++ b :: l2) ->
  (forall c, c ∈ l1 -> b_next c <= b_at b /\ b_at c <> b_at b) /\ (forall c, c ∈ l2 -> b_next b <= b_at c /\ b_at c <> b_at b).
Proof.
  intros Ht. pose proof (t_tiles _ _ Ht) as Hti. destruct (tiles_at _ _ _ _ _ _ Hti) as [Eat _].
  apply tiles_app in Hti as [H1 (_ & _ & B1 & _ & H2)]. consts. split; intros c Hc.
  - destruct (tiles_bounds _ _ _ _ _ H1 Hc). lia.
  - destruct (tiles_bounds _ _ _ _ _ H2 Hc). lia.
Qed.

Lemma release_split s l1 b l2 : tiled s (l1 ++ b :: l2) ->
  release (b_at b) (l1 ++ b :: l2) = coalesce (l1 ++ Blk (b_at b) (b_next b) false :: l2).
Proof.
  intros Ht. destruct (tiled_others _ _ _ _ Ht) as [O1 O2]. unfold release. rewrite map_app. cbn [map].
  rewrite !map_unuse by (intros c Hc; (by apply O1) || (by apply O2)). unfold unuse. by rewrite Z.eqb_refl.
Qed.

(** Where [lfree] points relative to a used block. *)
Lemma lfree_used s l1 b l2 : tiled s (l1 ++ b :: l2) -> b_used b = true ->
  if forallb b_used l1 then ram s + b_next b <= lfree s
  else lfree s = ram s + first_free 0 l1 /\ first_free 0 l1 < b_at b.
Proof.
  intros Ht Hu. rewrite (t_free _ _ Ht), first_free_app. cbn [first_free]. rewrite Hu.
  pose proof (t_tiles _ _ Ht) as Hti. destruct (tiles_at _ _ _ _ _ _ Hti) as [-> _].
  apply tiles_app in Hti as [H1 (_ & _ & _ & _ & H2)].
  destruct (forallb b_used l1) eqn:E; [pose proof (first_free_range _ _ _ _ H2); lia|]. split; [done|]. by eapply first_free_lt.
Qed.

Lemma data_aligned s l1 b l2 : tiled s (l1 ++ b :: l2) ->
  Z.land (ram s + b_at b + SIZEOF_STRUCT_MEM) (MEM_ALIGNMENT - 1) = 0 /\
  (ram s <=? ram s + b_at b + SIZEOF_STRUCT_MEM) && (ram s + b_at b + SIZEOF_STRUCT_MEM <? ram_end s) = true /\
  0 < ram s + b_at b + SIZEOF_STRUCT_MEM.
Proof.
  intros Ht. assert (b ∈ l1 ++ b :: l2) as Hin by set_solver.
  destruct (tiles_bounds _ _ _ _ _ (t_tiles _ _ Ht) Hin) as (B0 & B1 & B2 & B3). rewrite (t_full _ _ Ht) in B2.
  pose proof (t_ram _ _ Ht) as (R1 & R2 & R3). pose proof (t_end _ _ Ht) as Re. consts. split; [|split; lia].
  change (4 - 1) with (Z.ones 2). rewrite Z.land_ones by lia. change (2 ^ 2) with 4.
  replace (ram s + b_at b + 8) with (ram s + b_at b + 2 * 4) by lia. by rewrite Z.mod_add, Zplus_mod, R2, B3 by lia.
Qed.

Lemma free_spec s l b : heap_ok s l -> b ∈ l -> b_used b = true ->
  exists s', mem_free (ram s + b_at b + SIZEOF_STRUCT_MEM) s = Some s' /\ ram s' = ram s /\ heap_ok s' (release (b_at b) l).
Proof.
  intros [Ht Hc] Hin Hu. apply list_elem_of_split in Hin as (l1 & l2 & ->). rewrite (release_split _ _ _ _ Ht).
  destruct (data_aligned _ _ _ _ Ht) as (D1 & D2 & D3). unfold mem_free. rewrite D1, D2. cbn [negb Z.eqb].
  destruct (Z.eqb_spec (ram s + b_at b + SIZEOF_STRUCT_MEM) 0); [lia|].
  replace (ram s + b_at b + SIZEOF_STRUCT_MEM - SIZEOF_STRUCT_MEM) with (ram s + b_at b) by lia.
  destruct (tiles_at _ _ _ _ _ _ (t_tiles _ _ Ht)) as [Eat Hb]. rewrite Hb, Hu. cbn [used flag Z.eqb].
  destruct (mark_ok s l1 b l2 false Ht) as (s1 & E1 & El & Er & Ht1). cbn [flag] in E1. rewrite E1.
  pose proof (lfree_used _ _ _ _ Ht Hu) as Hlf. set (b' := Blk (b_at b) (b_next b) false) in *.
  assert ((if ram s + b_at b <? lfree s1 then set_lfree (ram s + b_at b) s1 else s1) = relocate (l1 ++ b' :: l2) s1) as Ers.
  { unfold relocate. rewrite first_free_app, El, Er. cbn [first_free b' b_used b_at].
    assert (b ∈ l1 ++ b :: l2) as Hin by set_solver. destruct (tiles_bounds _ _ _ _ _ (t_tiles _ _ Ht) Hin) as (_ & B1 & _ & _).
    destruct (forallb b_used l1).
    - by destruct (Z.ltb_spec (ram s + b_at b) (lfree s)); [|lia].
    - destruct Hlf as [Hlf Hlt]. destruct (Z.ltb_spec (ram s + b_at b) (lfree s)); [lia|]. rewrite <- Hlf, <- El. by rewrite set_lfree_id. }
  rewrite Ers. apply coalesced_app in Hc as [Hc1 Hc2]. apply coalesced_cons in Hc2.
  destruct (plug_ok _ l1 b' l2 Ht1 eq_refl Hc1 Hc2) as (s' & E' & Er' & Ht').
  cbn [relocate set_lfree ram b' b_at] in E', Er'. rewrite Er in E', Er'. exists s'.
  split; [exact E'|]. split; [done|]. split; [done|]. apply coalesce_ok.
Qed.

(** ** [mem_trim] *)

Lemma if_set_lfree (c : bool) q s : (if c then set_lfree q s else s) = set_lfree (if c then q else lfree s) s.
Proof. destruct c; [done|]. by rewrite set_lfree_id. Qed.

Lemma alter_set_lfree p g q s : alter_mem p g (set_lfree q s) = set_lfree q <$> alter_mem p g s.
Proof. unfold alter_mem. cbn [set_lfree hdr]. by destruct (hdr s !! p). Qed.

(** The used block [b], with the free block behind it if there is one in [mid], is
    cut at [p2]. *)
Lemma shrink_ok s l1 b mid l2 p2 q (rmem : Z) :
  let nx := end_of (b_next b) mid in
  let l' := l1 ++ Blk (b_at b) p2 true :: Blk p2 nx false :: l2 in
  tiled s (l1 ++ (b :: mid) ++ l2) -> b_used b = true -> b_at b + 20 <= p2 -> p2 + 20 <= nx -> p2 mod 4 = 0 ->
  q = ram s + first_free 0 l' ->
  exists s', (let s := put (ram s + p2) (Mem nx (b_at b) 0) (set_lfree q s) in
     let? s := alter_mem (ram s + b_at b) (set_next p2) s in
     if negb (nx =? MEM_SIZE_ALIGNED) then let? s := alter_mem (ram s + nx) (set_prev p2) s in Some (rmem, s)
     else Some (rmem, s)) = Some (rmem, s') /\ ram s' = ram s /\ tiled s' l'.
Proof.
  intros nx l' Ht Hu H1 H2 H3 ->. destruct (split_ok s l1 b mid l2 p2 Ht H1 H2 H3) as (s' & E & El & Er & Ere & Ht').
  pose proof (t_tiles _ _ Ht) as Hti. cbn [app] in Hti. destruct (tiles_at _ _ _ _ _ _ Hti) as [_ Hb]. rewrite Hu in Hb.
  assert (0 <= p2 < 65536) as Hp2.
  { assert (b ∈ l1 ++ b :: mid ++ l2) as Hin by set_solver. destruct (tiles_bounds _ _ _ _ _ Hti Hin) as (B0 & _).
    pose proof (t_full _ _ Ht) as Hf. rewrite !end_of_app in Hf. cbn [end_of] in Hf. fold nx in Hf.
    apply tiles_app in Hti as [_ (_ & _ & _ & _ & Hti)]. apply tiles_app in Hti as [_ Hti].
    destruct (tiles_end _ _ _ _ Hti) as [H _]. fold nx in H. consts. lia. }
  exists (relocate l' s'). split; [|by split]. cbv zeta. unfold alter_mem at 1. unfold put at 1 2. cbn [set_lfree ram ram_end lfree hdr].
  rewrite lookup_insert_ne, Hb by lia. unfold put, set_next. cbn [next prev used ram ram_end lfree hdr flag].
  rewrite (u16_small p2) by done. unfold relocate. rewrite Er. fold l'.
  fold nx in E. destruct (negb (nx =? MEM_SIZE_ALIGNED)).
  - set (q := ram s + first_free 0 l'). cbn [set_lfree ram ram_end lfree hdr].
    match goal with |- context [alter_mem _ _ (MemState _ _ q ?h)] =>
      change (MemState (ram s) (ram_end s) q h) with (set_lfree q (MemState (ram s) (ram_end s) (lfree s) h)) end.
    rewrite alter_set_lfree. cbn [ram] in E |- *. by rewrite E.
  - injection E as <-. done.
Qed.

Lemma trim_split s l1 b l2 size : tiled s (l1 ++ b :: l2) ->
  trim (b_at b) size (l1 ++ b :: l2) = l1 ++ trim (b_at b) size (b :: l2).
Proof.
  intros Ht. destruct (tiled_others _ _ _ _ Ht) as [O1 _]. clear Ht. induction l1 as [|c l1 IH]; [done|]. cbn [app].
  cbn [trim]. destruct (Z.eqb_spec (b_at c) (b_at b)) as [E|_]; [exfalso; by apply (O1 c); [set_solver|]|].
  rewrite IH; [done|]. intros d Hd. apply O1. set_solver.
Qed.

(** The two ways in which [trim] cuts a block. *)
Lemma trim_cons size b l2 : trim (b_at b) size (b :: l2) =
  if size =? data_size b then b :: l2
  else match l2 with
       | Blk _ nx false :: l' =>
           let p2 := b_at b + SIZEOF_STRUCT_MEM + size in Blk (b_at b) p2 true :: Blk p2 nx false :: l'
       | _ => cut size b ++ l2
       end.
Proof. cbn [trim]. by rewrite Z.eqb_refl. Qed.

Lemma coalesced_used l1 u r : b_used u = true -> coalesced (l1 ++ u :: r) <-> coalesced l1 /\ coalesced r.
Proof.
  intros Hu. split.
  - intros H. apply coalesced_app in H as [H1 H2]. split; [done|]. by eapply coalesced_cons.
  - intros [H1 H2]. apply coalesced_join; [done| |by left]. destruct r; [done|]. split; [by rewrite Hu|done].
Qed.

Lemma trim_coalesced s l1 b l2 size : tiled s (l1 ++ b :: l2) -> coalesced (l1 ++ b :: l2) -> b_used b = true ->
  coalesced (trim (b_at b) size (l1 ++ b :: l2)).
Proof.
  intros Ht Hc Hu. rewrite (trim_split _ _ _ _ _ Ht), trim_cons. destruct (size =? data_size b); [done|].
  apply coalesced_used in Hc as [H1 H2]; [|done].
  assert (starts_used l2 -> coalesced (l1 ++ cut size b ++ l2)) as Hcut.
  { intros Hs. unfold cut. destruct (_ <=? _); apply coalesced_used; try done. split; [done|].
    apply (coalesced_join [_]); [done|done|by left]. }
  destruct l2 as [|[a nx [|]] l2]; [by apply Hcut..|]. apply coalesced_used; done.
Qed.

Lemma trim_spec s l b n : heap_ok s l -> b ∈ l -> b_used b = true -> 0 <= n < 65533 -> request n <= data_size b ->
  let p := ram s + b_at b + SIZEOF_STRUCT_MEM in
  exists s', mem_trim p n s = Some (p, s') /\ ram s' = ram s /\ heap_ok s' (trim (b_at b) (request n) l).
Proof.
  intros [Ht Hc] Hin Hu Hn Hd p. apply list_elem_of_split in Hin as (l1 & l2 & ->).
  assert (exists s', mem_trim p n s = Some (p, s') /\ ram s' = ram s /\ tiled s' (trim (b_at b) (request n) (l1 ++ b :: l2)))
    as (s' & E & Er & H); [|by exists s'; repeat (split; [done|]); eapply trim_coalesced].
  rewrite (trim_split _ _ _ _ _ Ht), trim_cons.
  destruct (request_spec n) as (E1 & E2 & E3 & E4 & E5); [lia|]. destruct (data_aligned _ _ _ _ Ht) as (_ & D2 & _).
  destruct (tiles_at _ _ _ _ _ _ (t_tiles _ _ Ht)) as [Eat Hb]. assert (b ∈ l1 ++ b :: l2) as Hin by set_solver.
  destruct (tiles_bounds _ _ _ _ _ (t_tiles _ _ Ht) Hin) as (B0 & B1 & B2 & B3). rewrite (t_full _ _ Ht) in B2.
  destruct (tiled_next _ _ _ _ Ht) as (m & Hm & Hl2). pose proof (lfree_used _ _ _ _ Ht Hu) as Hlf.
  unfold mem_trim. cbv zeta. rewrite E1, E2. subst p. rewrite D2.
  replace (ram s + b_at b + SIZEOF_STRUCT_MEM - SIZEOF_STRUCT_MEM) with (ram s + b_at b) by lia. rewrite Hb. cbn [next prev used].
  unfold data_size in *. consts. replace (ram s + b_at b - ram s) with (b_at b) by lia.
  rewrite (u16_small (b_at b)), (u16_small (b_next b - _ - _)) by lia. cbn [negb].
  replace (1600 <? request n) with false by lia. replace (request n <=? b_next b - b_at b - 8) with true by lia. cbn [negb].
  destruct (Z.eqb_spec (request n) (b_next b - b_at b - 8)) as [Eq|Eq]; [by exists s|].
  rewrite Hm, u16_small by lia.
  assert ((b_at b + 8 + request n) mod 4 = 0) as M.
  { replace (b_at b + 8 + request n) with (b_at b + request n + 2 * 4) by lia. by rewrite Z.mod_add, Zplus_mod, B3, E5 by lia. }
  rewrite !if_set_lfree.
  assert (forall nx k, first_free 0 (l1 ++ Blk (b_at b) (b_at b + 8 + request n) true :: Blk (b_at b + 8 + request n) nx false :: k)
    = if forallb b_used l1 then b_at b + 8 + request n else first_free 0 l1) as Hff by (intros; by rewrite first_free_app).
  destruct (Z.eqb_spec (used m) 0) as [Hm0|Hm0].
  - destruct l2 as [|[ca cn [|]] l2]; cbn [b_at b_next b_used flag] in Hl2; [lia..|]. destruct Hl2 as (-> & -> & _).
    assert (Blk (b_next b) cn false ∈ l1 ++ b :: Blk (b_next b) cn false :: l2) as Hic by set_solver.
    destruct (tiles_bounds _ _ _ _ _ (t_tiles _ _ Ht) Hic) as (_ & C1 & _). cbn [b_at b_next] in C1.
    eapply (shrink_ok s l1 b [Blk (b_next b) cn false] l2 (b_at b + 8 + request n)); [done|done|lia|cbn; lia|done|].
    cbn [end_of b_next]. rewrite Hff. rewrite (t_free _ _ Ht), first_free_app in Hlf |- *. cbn [first_free] in Hlf |- *.
    rewrite Hu in *. cbn [first_free b_used b_at] in *.
    destruct (forallb b_used l1); [by rewrite Z.eqb_refl|]. destruct (Z.eqb_spec (ram s + first_free 0 l1) (ram s + b_next b)); [lia|done].
  - assert (match l2 with
           | Blk _ nx false :: l' => Blk (b_at b) (b_at b + 8 + request n) true :: Blk (b_at b + 8 + request n) nx false :: l'
           | _ => cut (request n) b ++ l2 end = cut (request n) b ++ l2) as ->.
    { destruct l2 as [|[ca cn [|]] l2]; [done|done|]. cbn in Hl2. lia. }
    unfold cut, data_size. consts. destruct (Z.leb_spec (request n + 8 + 12) (b_next b - b_at b - 8)) as [Hs|Hs].
    + eapply (shrink_ok s l1 b [] l2 (b_at b + 8 + request n)); [done|done|lia|cbn; lia|done|].
      cbn [end_of]. rewrite Hff. destruct (Z.ltb_spec (ram s + (b_at b + 8 + request n)) (lfree s)), (forallb b_used l1); lia.
    + exists s. split; [done|]. split; [done|]. destruct b. cbn in Hu |- *. by subst.
Qed.
