(* ===== verification/LwipMemTheorems.v ===== *)
(** * What the lwIP heap promises its clients

    A client allocates, frees and shrinks.  The live allocations are a map from
    the pointers the heap has handed out to the sizes that were asked for. *)

From Stdlib Require Import ZArith Lia.
From stdpp Require Import base gmap list numbers.
From S2P Require Import Prelude LwipMem LwipMemInv LwipMemProof.
From stdpp Require Import sets list.
Import OptionNotations LwipMemInv.

Local Open Scope Z_scope.

(** ** Used blocks *)

Lemma coalesce_used l b : b_used b = true -> b ∈ coalesce l <-> b ∈ l.
Proof.
  intros Hu. induction l as [|c l IH]; [done|]. cbn [coalesce]. rewrite elem_of_cons.
  destruct (coalesce l) as [|d l']; [set_solver|]. destruct (b_used c || b_used d) eqn:E; [set_solver|].
  apply orb_false_iff in E as [Ec Ed]. rewrite elem_of_cons in *.
  assert (b <> c /\ b <> d /\ b <> Blk (b_at c) (b_next d) false) as (N1 & N2 & N3).
  { repeat split; intros ->; [congruence..|done]. }
  tauto.
Qed.

Lemma release_used s l p b : tiled s l -> b_used b = true -> b ∈ release p l <-> b ∈ l /\ b_at b <> p.
Proof.
  intros Ht Hu. unfold release. rewrite coalesce_used, list_elem_of_fmap by done. unfold unuse. split.
  - intros (c & -> & Hc). destruct (Z.eqb_spec (b_at c) p); done.
  - intros [Hb Hp]. exists b. by destruct (Z.eqb_spec (b_at b) p).
Qed.

Lemma cut_used size b c : size <= data_size b -> c ∈ cut size b -> b_used c = true -> b_at c = b_at b /\ size <= data_size c.
Proof.
  unfold cut, data_size. intros Hd Hc Hu. destruct (_ <=? _).
  - apply elem_of_cons in Hc as [->|Hc]; [cbn; consts; lia|]. apply list_elem_of_singleton in Hc as ->. done.
  - apply list_elem_of_singleton in Hc as ->. done.
Qed.

Lemma cut_head size b : size <= data_size b -> exists c, c ∈ cut size b /\ b_used c = true /\ b_at c = b_at b /\ size <= data_size c.
Proof.
  intros Hd. unfold cut. destruct (_ <=? _); (eexists; split; [by left|]); unfold data_size in *; cbn; consts; repeat split; lia.
Qed.

(** Cutting a block leaves the others and a used block in its place. *)
Lemma cut_places size l1 b l2 : size <= data_size b -> let k := l1 ++ cut size b ++ l2 in
  (forall c, c ∈ l1 ++ b :: l2 -> c <> b -> c ∈ k) /\
  (exists c, c ∈ k /\ b_used c = true /\ b_at c = b_at b /\ size <= data_size c) /\
  (forall c, c ∈ k -> b_used c = true -> b_at c = b_at b \/ c ∈ l1 ++ b :: l2).
Proof.
  intros Hd k. split; [|split].
  - set_solver.
  - destruct (cut_head _ _ Hd) as (c & Hc & ?). exists c. set_solver.
  - intros c Hc Huc. apply elem_of_app in Hc as [Hc|Hc]; [set_solver|]. apply elem_of_app in Hc as [Hc|Hc]; [|set_solver].
    left. by eapply cut_used.
Qed.

(** The used blocks after an allocation: those before, and the new one. *)
Lemma fit_used size l p l' : fit size l = Some (p, l') ->
  (forall b, b ∈ l -> b_used b = true -> b ∈ l') /\
  (exists b, b ∈ l' /\ b_used b = true /\ b_at b = p /\ size <= data_size b) /\
  (forall b, b ∈ l' -> b_used b = true -> b_at b = p \/ b ∈ l).
Proof.
  intros H. destruct (fit_inv _ _ _ _ H) as (l1 & b & l2 & -> & Hu & Hd & -> & ->).
  destruct (cut_places size l1 b l2 Hd) as (A & B & C). split; [|done]. intros c Hc Huc. apply A; congruence.
Qed.

(** The used blocks after a block has been shrunk. *)
Lemma trim_used s l b size : tiled s l -> b ∈ l -> b_used b = true -> size <= data_size b ->
  (forall c, c ∈ l -> b_used c = true -> b_at c <> b_at b -> c ∈ trim (b_at b) size l) /\
  (exists c, c ∈ trim (b_at b) size l /\ b_used c = true /\ b_at c = b_at b /\ size <= data_size c) /\
  (forall c, c ∈ trim (b_at b) size l -> b_used c = true -> b_at c = b_at b \/ c ∈ l).
Proof.
  intros Ht Hin Hu Hd. apply list_elem_of_split in Hin as (l1 & l2 & ->). rewrite (trim_split _ _ _ _ _ Ht), trim_cons.
  destruct (Z.eqb_spec size (data_size b)) as [->|Hne].
  { split; [tauto|]. split; [|tauto]. exists b. split; [set_solver|done]. }
  destruct (cut_places size l1 b l2 Hd) as (A & B & C).
  destruct l2 as [|[a nx [|]] l2]; [split; [|done]; intros c Hc _ Hne'; apply A; congruence..|]. clear A B C. split; [|split].
  - intros c Hc Huc Hne'. assert (c <> b /\ c <> Blk a nx false) by (split; intros ->; done). set_solver.
  - eexists. split; [apply elem_of_app; right; by left|]. unfold data_size. cbn. consts. repeat split; lia.
  - intros c Hc Huc. apply elem_of_app in Hc as [Hc|Hc]; [set_solver|]. apply elem_of_cons in Hc as [->|Hc]; [by left|].
    apply elem_of_cons in Hc as [->|Hc]; [done|]. right. set_solver.
Qed.

(** ** Clients *)

Record client := Client { heap : mem_state; live : gmap Z Z }.

Inductive heap_op := Malloc (n : Z) | Free (p : Z) | Trim (p n : Z).

(** What a client may ask for. *)
Definition legal (c : client) (o : heap_op) : Prop :=
  match o with
  | Malloc n => 0 < n < 65533
  | Free p => is_Some (live c !! p)
  | Trim p n => exists k, live c !! p = Some k /\ 0 < n <= k
  end.

Definition heap_exec (o : heap_op) (c : client) : option client :=
  match o with
  | Malloc n => let? (p, s) := mem_malloc n (heap c) in
      Some (Client s (if p =? 0 then live c else <[p := n]> (live c)))
  | Free p => let? s := mem_free p (heap c) in Some (Client s (delete p (live c)))
  | Trim p n => let? (q, s) := mem_trim p n (heap c) in
      Some (Client s (if q =? 0 then live c else <[p := n]> (live c)))
  end.

Inductive heap_reach (base : Z) : client -> Prop :=
| hr_init : heap_reach base (Client (mem_init base) ∅)
| hr_step c c' o : heap_reach base c -> legal c o -> heap_exec o c = Some c' -> heap_reach base c'.

(** The used blocks are the live allocations. *)
Definition owns (s : mem_state) (live : gmap Z Z) (l : list block) : Prop :=
  (forall p n, live !! p = Some n -> 0 < n < 65533 /\ exists b, b ∈ l /\ b_used b = true /\
     p = ram s + b_at b + SIZEOF_STRUCT_MEM /\ request n <= data_size b) /\
  (forall b, b ∈ l -> b_used b = true -> is_Some (live !! (ram s + b_at b + SIZEOF_STRUCT_MEM))).

Definition client_ok (c : client) : Prop := exists l, heap_ok (heap c) l /\ owns (heap c) (live c) l.

(** ** The invariant *)

(** A place for the heap in the address space. *)
Definition base_ok (base : Z) : Prop := 0 < base /\ base + 3 + MEM_SIZE_ALIGNED < 2 ^ 32.

Lemma init_heap_ok base : base_ok base -> heap_ok (mem_init base) [Blk 0 MEM_SIZE_ALIGNED false].
Proof.
  intros [H1 H2]. assert (LWIP_MEM_ALIGN base = (base + 3) / 4 * 4) as E by (consts; apply align_size; lia).
  pose proof (Z.div_mod (base + 3) 4 ltac:(lia)). pose proof (Z.mod_pos_bound (base + 3) 4 ltac:(lia)).
  split; [|done]. unfold mem_init. rewrite E.
  assert (base <= (base + 3) / 4 * 4 <= base + 3 /\ ((base + 3) / 4 * 4) mod 4 = 0) as [Hr1 Hr2] by (split; [lia|apply Z.mod_mul; lia]).
  generalize dependent ((base + 3) / 4 * 4). intros r _ Hr1 Hr2. consts. split; cbn [ram ram_end lfree hdr end_of b_next]; consts.
  - split; [lia|]. split; [done|lia].
  - done.
  - cbn [tiles b_at b_next b_used ram hdr]. split; [done|]. rewrite Z.add_0_r, lookup_insert_ne, lookup_insert_eq by lia. consts.
    repeat split; lia.
  - done.
  - eexists. by rewrite lookup_insert_eq.
  - cbn. lia.
Qed.

(** Two blocks that start at the same place are the same. *)
Lemma tiled_inj s l b c : tiled s l -> b ∈ l -> c ∈ l -> b_at b = b_at c -> b = c.
Proof.
  intros Ht Hb Hc E. apply list_elem_of_split in Hb as (l1 & l2 & ->). destruct (tiled_others _ _ _ _ Ht) as [O1 O2].
  apply elem_of_app in Hc as [Hc|Hc]; [destruct (O1 _ Hc); congruence|].
  apply elem_of_cons in Hc as [->|Hc]; [done|]. destruct (O2 _ Hc). congruence.
Qed.

(** Changing the allocation at one place. *)
Lemma owns_insert s s' live l l' p n :
  owns s live l -> ram s' = ram s -> 0 < n < 65533 ->
  (forall b, b ∈ l -> b_used b = true -> b_at b <> p -> b ∈ l') ->
  (exists b, b ∈ l' /\ b_used b = true /\ b_at b = p /\ request n <= data_size b) ->
  (forall b, b ∈ l' -> b_used b = true -> b_at b = p \/ b ∈ l) ->
  owns s' (<[ram s + p + SIZEOF_STRUCT_MEM := n]> live) l'.
Proof.
  intros [O1 O2] Er Hn H1 (b & Hb) H2. unfold owns. rewrite Er. split.
  - intros q k Hq. destruct (decide (q = ram s + p + SIZEOF_STRUCT_MEM)) as [->|Hne].
    + rewrite lookup_insert_eq in Hq. injection Hq as <-. split; [done|]. exists b. destruct Hb as (? & ? & -> & ?). done.
    + rewrite lookup_insert_ne in Hq by done. destruct (O1 _ _ Hq) as (Hk & c & Hc & Hu & -> & Hd). split; [done|]. exists c.
      split; [|done]. apply H1; [done|done|]. intros E. by rewrite E in Hne.
  - intros c Hc Hu. destruct (decide (b_at c = p)) as [->|Hne]; [rewrite lookup_insert_eq; by eexists|].
    rewrite lookup_insert_ne by lia. destruct (H2 _ Hc Hu) as [?|Hcl]; [done|by apply O2].
Qed.

(** The block that is found is not allocated yet. *)
Lemma fit_fresh s live l size p l' : heap_ok s l -> owns s live l -> fit size l = Some (p, l') ->
  ram s + p + SIZEOF_STRUCT_MEM <> 0 -> live !! (ram s + p + SIZEOF_STRUCT_MEM) = None.
Proof.
  intros Hok [O1 _] E _. destruct (live !! _) as [k|] eqn:El; [exfalso|done]. destruct (O1 _ _ El) as (_ & b & Hb & Hu & Ep & _).
  destruct (fit_inv _ _ _ _ E) as (l1 & c & l2 & -> & Huc & _ & -> & _).
  assert (b = c) as -> by (eapply (tiled_inj s); [apply Hok|done|set_solver|lia]). congruence.
Qed.

Lemma client_malloc c n : client_ok c -> 0 < n < 65533 ->
  exists p s, mem_malloc n (heap c) = Some (p, s) /\ ram s = ram (heap c) /\ (p <> 0 -> live c !! p = None) /\
    client_ok (Client s (if p =? 0 then live c else <[p := n]> (live c))).
Proof.
  intros (l & Hok & Ho) Hn. pose proof (malloc_spec _ _ _ Hok Hn) as H. destruct (fit (request n) l) as [[p l']|] eqn:E.
  - destruct H as (s' & -> & Er & Hok'). eexists _, s'. split; [done|]. split; [done|]. split; [by eapply fit_fresh|].
    destruct (fit_used _ _ _ _ E) as (U1 & U2 & U3). exists l'. split; [done|]. cbn [heap live].
    destruct (fit_inv _ _ _ _ E) as (l1 & b & l2 & El & _ & _ & -> & _). rewrite El in Hok.
    destruct (data_aligned _ _ _ _ (proj1 Hok)) as (_ & _ & D). destruct (Z.eqb_spec (ram (heap c) + b_at b + SIZEOF_STRUCT_MEM) 0); [lia|].
    by eapply owns_insert; eauto.
  - eexists _, _. split; [done|]. split; [done|]. split; [done|]. by exists l.
Qed.

Lemma client_free c p : client_ok c -> is_Some (live c !! p) ->
  exists s, mem_free p (heap c) = Some s /\ ram s = ram (heap c) /\ client_ok (Client s (delete p (live c))).
Proof.
  intros (l & Hok & O1 & O2) [n Hp]. destruct (O1 _ _ Hp) as (Hn & b & Hb & Hu & -> & Hd).
  destruct (free_spec _ _ _ Hok Hb Hu) as (s' & E & Er & Hok'). exists s'. split; [done|]. split; [done|].
  exists (release (b_at b) l). split; [done|]. unfold owns. cbn [heap live]. rewrite Er. split.
  - intros q k Hq. apply lookup_delete_Some in Hq as [Hne Hq]. destruct (O1 _ _ Hq) as (Hk & c' & Hc & Hu' & -> & Hd').
    split; [done|]. exists c'. split; [|done]. apply (release_used _ _ _ _ (proj1 Hok)); [done|]. split; [done|]. intros E'. by rewrite E' in Hne.
  - intros c' Hc Hu'. apply (release_used _ _ _ _ (proj1 Hok)) in Hc as [Hc Hne]; [|done]. rewrite lookup_delete_ne by lia. by apply O2.
Qed.

Lemma request_mono a b : a <= b -> request a <= request b.
Proof. intros H. unfold request. pose proof (Z.div_le_mono (a + 3) (b + 3) 4 ltac:(lia) ltac:(lia)). lia. Qed.

Lemma client_trim c p k n : client_ok c -> live c !! p = Some k -> 0 < n <= k ->
  exists s, mem_trim p n (heap c) = Some (p, s) /\ p <> 0 /\ ram s = ram (heap c) /\ client_ok (Client s (<[p := n]> (live c))).
Proof.
  intros (l & Hok & Ho) Hp Hn. destruct (proj1 Ho _ _ Hp) as (Hk & b & Hb & Hu & -> & Hd).
  pose proof (request_mono n k ltac:(lia)). destruct (trim_spec _ _ _ n Hok Hb Hu) as (s' & E & Er & Hok'); [lia..|].
  exists s'. split; [done|]. split.
  { pose proof Hb as Hin. apply list_elem_of_split in Hin as (l1 & l2 & ->). destruct (data_aligned _ _ _ _ (proj1 Hok)). lia. }
  split; [done|]. destruct (trim_used _ l b (request n) (proj1 Hok) Hb Hu) as (U1 & U2 & U3); [lia|].
  exists (trim (b_at b) (request n) l). split; [done|]. cbn [heap live]. eapply owns_insert; eauto. lia.
Qed.

Lemma exec_ok c o : client_ok c -> legal c o -> exists c', heap_exec o c = Some c' /\ client_ok c'.
Proof.
  intros Hok Hl. destruct o as [n|p|p n]; cbn [heap_exec legal] in *.
  - destruct (client_malloc c n Hok Hl) as (p & s & -> & _ & _ & H). eauto.
  - destruct (client_free c p Hok Hl) as (s & -> & _ & H). eauto.
  - destruct Hl as (k & Hp & Hn). destruct (client_trim c p k n Hok Hp Hn) as (s & -> & Hne & _ & H).
    destruct (Z.eqb_spec p 0); [done|]. eauto.
Qed.

Lemma reach_ok base c : base_ok base -> heap_reach base c -> client_ok c.
Proof.
  intros Hb H. induction H as [|c c' o H IH Hl E].
  - eexists. split; [by apply init_heap_ok|]. split; [done|]. intros b Hb'. apply list_elem_of_singleton in Hb' as ->. done.
  - destruct (exec_ok c o IH Hl) as (c2 & E2 & H2). congruence.
Qed.

(** ** The properties *)

Lemma owns_region c l p n : heap_ok (heap c) l -> owns (heap c) (live c) l -> live c !! p = Some n ->
  exists b, b ∈ l /\ p = ram (heap c) + b_at b + SIZEOF_STRUCT_MEM /\ p + n <= ram (heap c) + b_next b /\
    0 <= b_at b /\ b_next b <= MEM_SIZE_ALIGNED /\ b_at b mod 4 = 0.
Proof.
  intros [Ht _] [O1 _] Hp. destruct (O1 _ _ Hp) as (Hn & b & Hb & Hu & -> & Hd). exists b.
  destruct (request_spec n) as (_ & _ & _ & R & _); [lia|]. unfold data_size in Hd.
  destruct (tiles_bounds _ _ _ _ _ (t_tiles _ _ Ht) Hb) as (B0 & B1 & B2 & B3). rewrite (t_full _ _ Ht) in B2.
  do 2 (split; [done|]). split; [lia|]. done.
Qed.

(** Different allocations do not overlap. *)
Lemma owns_disjoint c l p n q k : heap_ok (heap c) l -> owns (heap c) (live c) l ->
  live c !! p = Some n -> live c !! q = Some k -> p <> q -> p + n <= q \/ q + k <= p.
Proof.
  intros Hok Ho Hp Hq Hne. destruct (owns_region _ _ _ _ Hok Ho Hp) as (b & Hb & Ep & Hpn & _).
  destruct (owns_region _ _ _ _ Hok Ho Hq) as (d & Hd & Eq & Hqk & _).
  apply list_elem_of_split in Hb as (l1 & l2 & ->). destruct (tiled_others _ _ _ _ (proj1 Hok)) as [O1 O2].
  consts. apply elem_of_app in Hd as [Hd|Hd]; [destruct (O1 _ Hd); lia|]. apply elem_of_cons in Hd as [->|Hd]; [lia|].
  destruct (O2 _ Hd). lia.
Qed.

(** C5: A heap from which clients allocate, free and shrink, in any order, never
    fails an assertion as long as they free and shrink only what is allocated.
    Every live allocation is aligned, lies inside the heap, has at least the size
    that was asked for, and overlaps no other. *)
Theorem heap_clients_safe (base : Z) (c : client) : base_ok base -> heap_reach base c ->
  (forall o, legal c o -> exists c', heap_exec o c = Some c') /\
  (forall p n, live c !! p = Some n ->
     p mod MEM_ALIGNMENT = 0 /\ ram (heap c) <= p /\ p + n <= ram_end (heap c) /\
     forall q k, live c !! q = Some k -> q <> p -> p + n <= q \/ q + k <= p).
Proof.
  intros Hb Hr. pose proof (reach_ok base c Hb Hr) as Hok. split.
  - intros o Ho. destruct (exec_ok c o Hok Ho) as (c' & E & _). by exists c'.
  - intros p n Hp. destruct Hok as (l & Hok & Ho). destruct (owns_region _ _ _ _ Hok Ho Hp) as (b & Hbl & Ep & Hpn & B0 & B2 & B3).
    rewrite (t_end _ _ (proj1 Hok)). destruct (t_ram _ _ (proj1 Hok)) as (_ & R & _). consts. split.
    + subst p. replace (ram (heap c) + b_at b + 8) with (ram (heap c) + b_at b + 2 * 4) by lia.
      by rewrite Z.mod_add, Zplus_mod, R, B3 by lia.
    + split; [lia|]. split; [lia|]. intros q k Hq Hne. eapply owns_disjoint; eauto.
Qed.

(** A client that has allocated twice and given back the first allocation. *)
Definition sample_client : option client :=
  let? c := heap_exec (Malloc 100) (Client (mem_init 536870913) ∅) in
  let? c := heap_exec (Malloc 30) c in
  heap_exec (Free 536870924) c.

Definition sample : client := default (Client (mem_init 536870913) ∅) sample_client.

Lemma sample_reach : heap_reach 536870913 sample.
Proof.
  eapply (hr_step _ _ _ (Free 536870924)); [eapply (hr_step _ _ _ (Malloc 30));
    [eapply (hr_step _ _ _ (Malloc 100)); [apply hr_init| |]| |]|..]; try (vm_compute; reflexivity); [split; reflexivity..|].
  vm_compute. by eexists.
Qed.

Lemma heap_clients_safe_witness :
  live sample !! 536871032 = Some 30 /\ 536871032 + 30 <= ram_end (heap sample).
Proof.
  split; [vm_compute; reflexivity|].
  apply (heap_clients_safe 536870913 sample); [split; vm_compute; reflexivity|exact sample_reach|vm_compute; reflexivity].
Defined.

(** C22: [mem_malloc] is first fit for requests of 1 to 65532 bytes.  On a heap that stands for a list of blocks it
    takes the first free block with room for the request, rounded up to the
    alignment and to [MIN_SIZE], and cuts off what is left over when that can be
    a block; it returns NULL, and changes nothing, exactly when no free block is
    large enough, although it starts its search at [lfree] and stops it before the
    end of the list. *)
Theorem mem_malloc_first_fit (s : mem_state) (l : list block) (n : Z) : heap_ok s l -> 0 < n < 65533 ->
  match fit (request n) l with
  | Some (p, l') => exists s', mem_malloc n s = Some (ram s + p + SIZEOF_STRUCT_MEM, s') /\ ram s' = ram s /\ heap_ok s' l'
  | None => mem_malloc n s = Some (0, s) /\ forall b, b ∈ l -> b_used b = false -> data_size b < request n
  end.
Proof.
  intros Hok Hn. pose proof (malloc_spec s l n Hok Hn) as H. destruct (fit (request n) l) as [[p l']|] eqn:E; [done|].
  split; [done|]. by apply fit_none.
Qed.

Lemma mem_malloc_first_fit_witness : exists s',
  mem_malloc 100 (mem_init 536870913) = Some (536870924, s') /\
  heap_ok s' [Blk 0 108 true; Blk 108 1600 false].
Proof.
  destruct (mem_malloc_first_fit (mem_init 536870913) [Blk 0 1600 false] 100) as (s' & E & _ & H).
  - apply (init_heap_ok 536870913). split; reflexivity.
  - split; reflexivity.
  - exists s'. split; [exact E|exact H].
Defined.

Lemma all_free_single s l : heap_ok s l -> (forall b, b ∈ l -> b_used b = false) -> l = [Blk 0 MEM_SIZE_ALIGNED false].
Proof.
  intros [Ht Hc] Hu. pose proof (t_full _ _ Ht) as Hf. pose proof (t_tiles _ _ Ht) as Hti.
  destruct l as [|[a nx u] [|c l]]; [done| |].
  - cbn in Hf. destruct Hti as (Ea & _). cbn in Ea. specialize (Hu (Blk a nx u) ltac:(set_solver)). cbn in Hu. by subst.
  - destruct Hc as [Hc _]. rewrite (Hu (Blk a nx u)), (Hu c) in Hc by set_solver. done.
Qed.

(** Nothing leaks.  When a client has given back all it had allocated, in
    whatever order, the heap is one free block again, and every request that can
    be met at all is met, at the start of the heap. *)
Theorem heap_no_leak (base : Z) (c : client) (n : Z) : base_ok base -> heap_reach base c -> live c = ∅ ->
  0 < n <= MEM_SIZE_ALIGNED - SIZEOF_STRUCT_MEM ->
  heap_ok (heap c) [Blk 0 MEM_SIZE_ALIGNED false] /\
  exists s, mem_malloc n (heap c) = Some (ram (heap c) + SIZEOF_STRUCT_MEM, s).
Proof.
  intros Hb Hr Hl Hn. destruct (reach_ok base c Hb Hr) as (l & Hok & _ & O2).
  assert (l = [Blk 0 MEM_SIZE_ALIGNED false]) as ->.
  { apply (all_free_single _ _ Hok). intros b Hbl. destruct (b_used b) eqn:E; [|done]. destruct (O2 _ Hbl E) as [x Hx].
    by rewrite Hl in Hx. }
  split; [done|]. consts. pose proof (malloc_spec _ _ n Hok ltac:(lia)) as H. pose proof (request_mono n 1592 ltac:(lia)) as Hm.
  change (request 1592) with 1592 in Hm. cbn [fit] in H. unfold data_size in H. cbn [b_used b_next b_at] in H. consts.
  replace (request n <=? 1600 - 0 - 8) with true in H by lia. destruct H as (s & E & _). rewrite Z.add_0_r in E. by exists s.
Qed.

Definition sample_empty : client := default sample (heap_exec (Free 536871032) sample).

Lemma heap_no_leak_witness : exists s, mem_malloc 1592 (heap sample_empty) = Some (ram (heap sample_empty) + SIZEOF_STRUCT_MEM, s).
Proof.
  apply (heap_no_leak 536870913 sample_empty 1592); [split; vm_compute; reflexivity| |vm_compute; reflexivity|split; [reflexivity|discriminate]].
  apply (hr_step _ sample _ (Free 536871032)); [exact sample_reach|exists 30; vm_compute; reflexivity|vm_compute; reflexivity].
Defined.

Lemma release_cut s l1 b l2 size : tiled s (l1 ++ cut size b ++ l2) -> coalesced (l1 ++ b :: l2) -> b_used b = false ->
  release (b_at b) (l1 ++ cut size b ++ l2) = l1 ++ b :: l2.
Proof.
  intros Ht Hc Hu. destruct (coalesced_mid _ _ _ Hc Hu) as [S2 _]. rewrite <- (coalesce_id (l1 ++ b :: l2)) by done.
  assert (Blk (b_at b) (b_next b) false = b) as Eb by (destruct b; cbn in *; by subst).
  unfold cut in *. destruct (_ <=? _); cbn [app] in *.
  - set (p := b_at b + SIZEOF_STRUCT_MEM + size) in *.
    rewrite (release_split _ _ _ _ Ht : release (b_at b) _ = _). cbn [b_at b_next].
    rewrite coalesce_app, forward_coalesce, (coalesce_app l1 (b :: l2)); [|done|].
    + cbn [forward b_used fst snd b_at b_next]. rewrite Eb. rewrite (coalesce_id (b :: l2)); [done|]. by apply coalesced_app in Hc as [_ Hc].
    + apply coalesced_app in Hc as [_ Hc]. apply (coalesced_join [_]); [done|by eapply coalesced_cons|by left].
  - rewrite (release_split _ _ _ _ Ht : release (b_at b) _ = _). cbn [b_at b_next]. by rewrite Eb.
Qed.

(** Freeing what has just been allocated restores the heap: the blocks are
    the ones before the allocation. *)
Theorem mem_malloc_free_roundtrip (s s1 : mem_state) (l : list block) (n p : Z) :
  heap_ok s l -> 0 < n < 65533 -> mem_malloc n s = Some (p, s1) -> p <> 0 ->
  exists s2, mem_free p s1 = Some s2 /\ heap_ok s2 l.
Proof.
  intros Hok Hn E Hp. pose proof (malloc_spec s l n Hok Hn) as H. destruct (fit (request n) l) as [[q l']|] eqn:Ef; [|congruence].
  destruct H as (s' & E' & Er & Hok'). rewrite E in E'. injection E' as -> ->.
  destruct (fit_inv _ _ _ _ Ef) as (l1 & b & l2 & -> & Hu & Hd & -> & ->). destruct (cut_places (request n) l1 b l2 Hd) as (_ & (c & Hc & Huc & Ec & _) & _).
  destruct (free_spec _ _ c Hok' Hc Huc) as (s2 & E2 & _ & Hok2). rewrite Ec, Er in E2. exists s2. split; [done|].
  rewrite Ec, (release_cut s') in Hok2; [done|apply Hok'|apply Hok|done].
Qed.

Lemma mem_malloc_free_roundtrip_witness : exists s1 s2,
  mem_malloc 200 (mem_init 4096) = Some (4104, s1) /\ mem_free 4104 s1 = Some s2 /\ heap_ok s2 [Blk 0 1600 false].
Proof.
  destruct (mem_malloc 200 (mem_init 4096)) as [[p s1]|] eqn:E; [|vm_compute in E; discriminate].
  assert (p = 4104) as -> by (vm_compute in E; by injection E as <-).
  exists s1. destruct (mem_malloc_free_roundtrip (mem_init 4096) s1 [Blk 0 1600 false] 200 4104) as (s2 & E2 & H2).
  - apply (init_heap_ok 4096). split; reflexivity.
  - split; reflexivity.
  - exact E.
  - discriminate.
  - exists s2. split; [reflexivity|]. split; [exact E2|exact H2].
Defined.

(** The requests that the heap rounds up beyond 16 bits are granted as if
    they were for [MIN_SIZE] bytes: the size is rounded before it is compared with
    the size of the heap, and wraps to 0. *)
Theorem mem_malloc_size_wraps (s : mem_state) (n : Z) : 65533 <= n <= 65535 -> mem_malloc n s = mem_malloc MIN_SIZE s.
Proof. intros H. assert (n = 65533 \/ n = 65534 \/ n = 65535) as [ -> | [ -> | -> ] ] by lia; reflexivity. Qed.

Lemma mem_malloc_size_wraps_witness : exists s', mem_malloc 65533 (mem_init 4096) = Some (4104, s') /\
  heap_ok s' [Blk 0 20 true; Blk 20 1600 false].
Proof.
  rewrite (mem_malloc_size_wraps (mem_init 4096) 65533) by (split; discriminate).
  destruct (malloc_spec (mem_init 4096) [Blk 0 1600 false] 12) as (s' & E & _ & H).
  - apply (init_heap_ok 4096). split; reflexivity.
  - split; reflexivity.
  - exists s'. split; [exact E|exact H].
Defined.

(** A product of count and size beyond 16 bits is truncated for the
    allocation but not for the clearing of the memory: when [mem_calloc] succeeds
    it clears more than the whole heap. *)
Theorem mem_calloc_overruns (s s' : mem_state) (count size p len : Z) :
  0 <= count < 65536 -> 0 <= size < 65536 -> 65536 <= count * size ->
  mem_calloc count size s = Some (p, Some len, s') -> len = count * size /\ MEM_SIZE_ALIGNED < len.
Proof.
  intros H1 H2 H3 E. unfold mem_calloc in E. destruct (mem_malloc _ s) as [[q t]|]; [|done].
  rewrite u32_small in E by nia. injection E as -> E ->. destruct (p =? 0); [done|]. injection E as <-. consts. lia.
Qed.

Lemma mem_calloc_overruns_witness :
  (exists s', mem_calloc 256 257 (mem_init 4096) = Some (4104, Some 65792, s')) /\ MEM_SIZE_ALIGNED < 65792.
Proof.
  destruct (mem_calloc 256 257 (mem_init 4096)) as [[[p [len|]] s']|] eqn:E; [|vm_compute in E; discriminate..].
  assert (p = 4104 /\ len = 65792) as [-> ->] by (vm_compute in E; by injection E as <- <- _).
  split; [by exists s'|].
  apply (mem_calloc_overruns (mem_init 4096) s' 256 257 4104 65792); [split; [discriminate|reflexivity]..|discriminate|exact E].
Defined.
