(* ===== verification/Memp.v ===== *)
(** * The lwIP pools: [core/memp.c]

    A pool is an array of elements of one size; the free elements form a linked
    list through their first word.  The pools are the ones [memp_std.h] declares,
    a parameter here: a list of descriptors, indexed by [memp_t].  Statistics and
    the overflow checks are configured out.  [nexts] has the elements whose first
    word is a link; handing out an element gives that word to its owner. *)

From Stdlib Require Import ZArith Lia.
From stdpp Require Import base gmap list numbers.
From S2P Require Import Prelude LwipMem.
From stdpp Require Import sets list.
Import OptionNotations.

Local Open Scope Z_scope.

(** ** State *)

Definition MEMP_SIZE : Z := 0.
Definition MEMP_ALIGN_SIZE (x : Z) : Z := LWIP_MEM_ALIGN_SIZE x.

Record memp_desc := MempDesc {
  elem_size : Z;
  num : Z;
  base : Z
}.

Definition LWIP_MEMPOOL_DECLARE (num size memory : Z) : memp_desc := MempDesc (LWIP_MEM_ALIGN_SIZE size) num memory.

(** [tab] is the first free element of each pool, 0 is the null pointer. *)
Record memp_state := MempState {
  tab : gmap Z Z;
  nexts : gmap Z Z
}.

Definition get_tab (i : Z) (s : memp_state) : Z := default 0 (tab s !! i).
Definition set_tab (i v : Z) (s : memp_state) : memp_state := MempState (<[i := v]> (tab s)) (nexts s).
Definition set_link (memp v : Z) (s : memp_state) : memp_state := MempState (tab s) (<[memp := v]> (nexts s)).
Definition hand_out (memp : Z) (s : memp_state) : memp_state := MempState (tab s) (delete memp (nexts s)).

(** ** Operations *)

(** The loop of [memp_init_pool]. *)
Fixpoint init_elements (n : nat) (memp i : Z) (desc : memp_desc) (s : memp_state) : memp_state :=
  match n with
  | O => s
  | S n =>
      let s := set_link memp (get_tab i s) s in
      let s := set_tab i memp s in
      init_elements n (memp + MEMP_SIZE + elem_size desc) i desc s
  end.

Definition memp_init_pool (i : Z) (desc : memp_desc) (s : memp_state) : memp_state :=
  let s := set_tab i 0 s in
  init_elements (Z.to_nat (num desc)) (LWIP_MEM_ALIGN (base desc)) i desc s.

Fixpoint init_pools (i : Z) (pools : list memp_desc) (s : memp_state) : memp_state :=
  match pools with
  | [] => s
  | desc :: pools => init_pools (i + 1) pools (memp_init_pool i desc s)
  end.

Definition memp_init (memp_pools : list memp_desc) (s : memp_state) : memp_state := init_pools 0 memp_pools s.

Definition do_memp_malloc_pool (i : Z) (s : memp_state) : option (Z * memp_state) :=
  let memp := get_tab i s in
  if negb (memp =? 0) then
    let? next := nexts s !! memp in
    let s := set_tab i next s in
    if negb (memp mod MEM_ALIGNMENT =? 0) then None
    else Some (memp + MEMP_SIZE, hand_out memp s)
  else Some (0, s).

Definition memp_malloc_pool (desc : option Z) (s : memp_state) : option (Z * memp_state) :=
  match desc with
  | None => None
  | Some i => do_memp_malloc_pool i s
  end.

Definition memp_malloc (memp_pools : list memp_desc) (type : Z) (s : memp_state) : option (Z * memp_state) :=
  if negb (type <? Z.of_nat (length memp_pools)) then None
  else do_memp_malloc_pool type s.

Definition do_memp_free_pool (i mem : Z) (s : memp_state) : option memp_state :=
  if negb (mem mod MEM_ALIGNMENT =? 0) then None
  else
    let memp := mem - MEMP_SIZE in
    let s := set_link memp (get_tab i s) s in
    Some (set_tab i memp s).

Definition memp_free_pool (desc : option Z) (mem : Z) (s : memp_state) : option memp_state :=
  match desc with
  | None => None
  | Some i => if mem =? 0 then Some s else do_memp_free_pool i mem s
  end.

Definition memp_free (memp_pools : list memp_desc) (type mem : Z) (s : memp_state) : option memp_state :=
  if negb (type <? Z.of_nat (length memp_pools)) then None
  else if mem =? 0 then Some s
  else do_memp_free_pool type mem s.

(** ** Pools as sets of elements *)

(** The [n] elements from [a] on. *)
Fixpoint places (n : nat) (a size : Z) : list Z :=
  match n with
  | O => []
  | S n => a :: places n (a + size) size
  end.

Definition pool_elements (d : memp_desc) : list Z := places (Z.to_nat (num d)) (LWIP_MEM_ALIGN (base d)) (elem_size d).

(** The free list at [p]. *)
Fixpoint free_list (s : memp_state) (p : Z) (l : list Z) : Prop :=
  match l with
  | [] => p = 0
  | a :: l => p = a /\ a <> 0 /\ exists nx, nexts s !! a = Some nx /\ free_list s nx l
  end.

(** The arrays of the pools are in place. *)
Definition desc_ok (d : memp_desc) : Prop :=
  0 < base d /\ 0 <= num d /\ 4 <= elem_size d /\ elem_size d mod 4 = 0 /\ base d + 3 + num d * elem_size d < 2 ^ 32.

(** The end of the array, which has room for aligning its start. *)
Definition pool_end (d : memp_desc) : Z := base d + 3 + num d * elem_size d.

Definition pools_ok (pools : list memp_desc) : Prop :=
  (forall i d, pools !! i = Some d -> desc_ok d) /\
  (forall i j d e, pools !! i = Some d -> pools !! j = Some e -> i <> j -> pool_end d <= base e \/ pool_end e <= base d).

(** Every element of a pool is either on its free list or in the set of those
    that have been handed out. *)
Definition pool_ok (s : memp_state) (out : gset Z) (i : Z) (d : memp_desc) : Prop :=
  exists l, free_list s (get_tab i s) l /\ NoDup l /\ (forall a, a ∈ l <-> a ∈ pool_elements d /\ a ∉ out).

Definition memp_ok (pools : list memp_desc) (s : memp_state) (out : gset Z) : Prop :=
  forall i d, pools !! i = Some d -> pool_ok s out (Z.of_nat i) d.
