(* ===== verification/MempTheorems.v ===== *)
(** * The pools as sets of elements *)

From Stdlib Require Import ZArith Lia.
From stdpp Require Import base gmap list numbers.
From S2P Require Import Prelude LwipMem LwipMemProof Memp.
From stdpp Require Import sets list.
Import OptionNotations.

Local Open Scope Z_scope.

(** ** Elements *)

Lemma places_spec n a size x : x ∈ places n a size <-> exists k, 0 <= k < Z.of_nat n /\ x = a + k * size.
Proof.
  revert a. induction n as [|n IH]; intros a; cbn [places].
  - split; [set_solver|]. intros (k & Hk & _). lia.
  - rewrite elem_of_cons, IH. split.
    + intros [->|(k & Hk & ->)]; [exists 0; lia|]. exists (k + 1). lia.
    + intros (k & Hk & ->). destruct (decide (k = 0)) as [->|Hne]; [left; lia|]. right. exists (k - 1). lia.
Qed.

Lemma places_nodup n a size : 0 < size -> NoDup (places n a size).
Proof.
  intros Hs. revert a. induction n as [|n IH]; intros a; cbn [places]; [constructor|].
  apply NoDup_cons. split; [|apply IH]. rewrite places_spec. intros (k & Hk & E). nia.
Qed.

Lemma align_base d : desc_ok d -> let b := LWIP_MEM_ALIGN (base d) in
  base d <= b <= base d + 3 /\ b mod 4 = 0.
Proof.
  intros (H1 & H2 & H3 & _ & H4) b. assert (b = (base d + 3) / 4 * 4) as -> by (apply align_size; nia).
  pose proof (Z.div_mod (base d + 3) 4 ltac:(lia)). pose proof (Z.mod_pos_bound (base d + 3) 4 ltac:(lia)).
  split; [lia|]. apply Z.mod_mul. lia.
Qed.

(** Elements are aligned, inside the array, and apart from each other. *)
Lemma elements_spec d x : desc_ok d -> x ∈ pool_elements d ->
  x mod 4 = 0 /\ base d <= x /\ x + elem_size d <= pool_end d.
Proof.
  unfold pool_end.
  intros Hd Hx. destruct (align_base d Hd) as [B1 B2]. destruct Hd as (H1 & H2 & H3 & H4 & _).
  apply places_spec in Hx as (k & Hk & ->). split; [|nia].
  rewrite Z.add_mod, Z.mul_mod, H4, B2, Z.mul_0_r by lia. done.
Qed.

Lemma elements_apart d x y : desc_ok d -> x ∈ pool_elements d -> y ∈ pool_elements d -> x <> y ->
  x + elem_size d <= y \/ y + elem_size d <= x.
Proof.
  intros (_ & _ & H & _) Hx Hy Hne. apply places_spec in Hx as (k & Hk & ->). apply places_spec in Hy as (j & Hj & ->).
  assert (k <> j) by congruence. destruct (decide (k < j)); nia.
Qed.

Lemma pools_disjoint pools i j d e : pools_ok pools -> pools !! i = Some d -> pools !! j = Some e -> i <> j ->
  pool_elements d ## pool_elements e.
Proof.
  intros [Ho Hp] Hd He Hne x Hx Hy. pose proof (Ho _ _ Hd) as Hdo. pose proof (Ho _ _ He) as Heo.
  destruct (elements_spec _ _ Hdo Hx) as (_ & A1 & A2). destruct (elements_spec _ _ Heo Hy) as (_ & B1 & B2).
  destruct Hdo as (_ & _ & S1 & _), Heo as (_ & _ & S2 & _). destruct (Hp _ _ _ _ Hd He Hne); lia.
Qed.

(** ** Free lists *)

Lemma free_list_frame s s' p l : free_list s p l -> (forall a, a ∈ l -> nexts s' !! a = nexts s !! a) -> free_list s' p l.
Proof.
  revert p. induction l as [|a l IH]; intros p H Hf; [done|]. destruct H as (-> & Ha & nx & Hn & H).
  split; [done|]. split; [done|]. exists nx. rewrite Hf by set_solver. split; [done|]. apply IH; [done|]. intros b Hb. apply Hf. set_solver.
Qed.

(** The loop of [memp_init_pool] puts the elements on the list, the last in front. *)
Lemma init_elements_spec n a i d l s :
  free_list s (get_tab i s) l -> 0 < a -> 0 < elem_size d -> (forall x, x ∈ places n a (elem_size d) -> x ∉ l) ->
  let s' := init_elements n a i d s in
  free_list s' (get_tab i s') (reverse (places n a (elem_size d)) ++ l) /\
  (forall j, j <> i -> get_tab j s' = get_tab j s) /\
  (forall x, x ∉ places n a (elem_size d) -> nexts s' !! x = nexts s !! x).
Proof.
  intros Hl Ha Hs. revert a l s Hl Ha. induction n as [|n IH]; intros a l s Hl Ha Hd; cbn [init_elements places app]; [done|].
  replace (a + MEMP_SIZE + elem_size d) with (a + elem_size d) by (unfold MEMP_SIZE; lia).
  set (s1 := set_tab i a (set_link a (get_tab i s) s)).
  assert (get_tab i s1 = a) as E1 by (unfold get_tab, s1; cbn; by rewrite lookup_insert_eq).
  assert (free_list s1 (get_tab i s1) (a :: l)) as Hl1.
  { rewrite E1. split; [done|]. split; [lia|]. eexists. split; [cbn; by rewrite lookup_insert_eq|].
    apply (free_list_frame s); [done|]. intros x Hx. cbn. rewrite lookup_insert_ne; [done|]. intros <-. apply (Hd a); [by left|done]. }
  pose proof (places_nodup (S n) a (elem_size d) Hs) as Hnd. cbn [places] in Hnd. apply NoDup_cons in Hnd as [Hna _].
  destruct (IH (a + elem_size d) (a :: l) s1) as (A & B & C); [done|lia| |].
  { intros x Hx Hin. apply elem_of_cons in Hin as [->|Hin]; [done|]. apply (Hd x); [by right|done]. }
  split; [by rewrite reverse_cons, <- app_assoc|]. split.
  - intros j Hj. rewrite B by done. unfold get_tab, s1. cbn. by rewrite lookup_insert_ne.
  - intros x Hx. rewrite C by set_solver. cbn. rewrite lookup_insert_ne; [done|]. set_solver.
Qed.

Lemma init_pool_spec i d s : desc_ok d -> let s' := memp_init_pool i d s in
  pool_ok s' ∅ i d /\ (forall j, j <> i -> get_tab j s' = get_tab j s) /\
  (forall x, x ∉ pool_elements d -> nexts s' !! x = nexts s !! x).
Proof.
  intros Hd s'. destruct (align_base d Hd) as [B1 _]. pose proof Hd as (H1 & _ & H3 & _).
  set (s0 := set_tab i 0 s).
  assert (get_tab i s0 = 0) as E0 by (unfold get_tab, s0; cbn; by rewrite lookup_insert_eq).
  destruct (init_elements_spec (Z.to_nat (num d)) (LWIP_MEM_ALIGN (base d)) i d [] s0) as (A & B & C);
    [by rewrite E0|lia|lia|set_solver|]. split; [|split].
  - eexists. split; [exact A|]. rewrite app_nil_r. split.
    + rewrite reverse_Permutation. apply places_nodup. lia.
    + intros a. rewrite elem_of_reverse. unfold pool_elements. set_solver.
  - intros j Hj. unfold s'. rewrite B by done. unfold get_tab, s0. cbn. by rewrite lookup_insert_ne.
  - exact C.
Qed.

(** ** The operations *)

Section pools.
Context (pools : list memp_desc) (Hpools : pools_ok pools).

Lemma pool_ok_frame s s' out out' i d :
  pool_ok s out i d -> get_tab i s' = get_tab i s ->
  (forall a, a ∈ pool_elements d -> nexts s' !! a = nexts s !! a /\ (a ∈ out' <-> a ∈ out)) -> pool_ok s' out' i d.
Proof.
  intros (l & Hl & Hnd & Hin) Et Hf. exists l. rewrite Et. split; [|split; [done|]].
  - apply (free_list_frame s); [done|]. intros a Ha. apply Hf. by apply Hin.
  - intros a. rewrite Hin. split; intros [H1 H2]; (split; [done|]); by rewrite (proj2 (Hf a H1)) in *.
Qed.

Lemma init_pools_spec k l s : pools = k ++ l ->
  (forall i d, k !! i = Some d -> pool_ok s ∅ (Z.of_nat i) d) ->
  forall i d, pools !! i = Some d -> pool_ok (init_pools (Z.of_nat (length k)) l s) ∅ (Z.of_nat i) d.
Proof.
  revert k s. induction l as [|d l IH]; intros k s E Hk i e He; cbn [init_pools].
  - rewrite app_nil_r in E. subst k. by apply Hk.
  - replace (Z.of_nat (length k) + 1) with (Z.of_nat (length (k ++ [d]))) by (rewrite length_app; cbn; lia).
    assert (pools !! length k = Some d) as Hd by (rewrite E; by apply list_lookup_middle).
    apply IH with (i := i) (d := e); [by rewrite <- app_assoc|clear i e He|done]. intros i e He.
    destruct (init_pool_spec (Z.of_nat (length k)) d s (proj1 Hpools _ _ Hd)) as (A & B & C).
    apply lookup_app_Some in He as [He|[Hi He]].
    + pose proof (lookup_lt_Some _ _ _ He). apply (pool_ok_frame s _ ∅ ∅); [by apply Hk|apply B; lia|]. intros a Ha. split; [|done].
      apply C. intros Ha'. eapply (pools_disjoint pools i (length k)); [exact Hpools| |exact Hd| |exact Ha|exact Ha'].
      * rewrite E. by apply lookup_app_l_Some.
      * lia.
    + apply list_lookup_singleton_Some in He as [Ei ->]. replace (Z.of_nat i) with (Z.of_nat (length k)) by lia. exact A.
Qed.

Lemma memp_init_spec s : memp_ok pools (memp_init pools s) ∅.
Proof. intros i d Hd. apply (init_pools_spec [] pools); [done|intros j e He; by destruct j|done]. Qed.

(** Changing one pool leaves the others alone. *)
Lemma memp_ok_update s s' out out' i d :
  memp_ok pools s out -> pools !! i = Some d -> pool_ok s' out' (Z.of_nat i) d ->
  (forall j, j <> Z.of_nat i -> get_tab j s' = get_tab j s) ->
  (forall a, a ∉ pool_elements d -> nexts s' !! a = nexts s !! a /\ (a ∈ out' <-> a ∈ out)) ->
  memp_ok pools s' out'.
Proof.
  intros Hok Hd Hp Ht Hn j e He. destruct (decide (j = i)) as [->|Hne]; [by simplify_eq|].
  apply (pool_ok_frame s _ out); [by apply Hok|apply Ht; lia|]. intros a Ha. apply Hn. intros Ha'.
  by eapply (pools_disjoint pools j i).
Qed.

Lemma memp_malloc_spec s out i d : memp_ok pools s out -> pools !! i = Some d ->
  exists p s', memp_malloc pools (Z.of_nat i) s = Some (p, s') /\
    ((p = 0 /\ s' = s /\ forall a, a ∈ pool_elements d -> a ∈ out) \/
     (p <> 0 /\ p ∈ pool_elements d /\ p ∉ out /\ memp_ok pools s' ({[p]} ∪ out))).
Proof.
  intros Hok Hd. pose proof (lookup_lt_Some _ _ _ Hd). unfold memp_malloc.
  replace (Z.of_nat i <? Z.of_nat (length pools)) with true by lia. cbn [negb].
  destruct (Hok _ _ Hd) as (l & Hl & Hnd & Hin). unfold do_memp_malloc_pool. destruct l as [|a l]; cbn [free_list] in Hl.
  - rewrite Hl. cbn. eexists _, _. split; [done|]. left. split; [done|]. split; [done|]. intros a Ha.
    destruct (decide (a ∈ out)) as [|Hn]; [done|]. exfalso. assert (a ∈ []) as Hx by (by apply Hin). set_solver.
  - destruct Hl as (-> & Ha & nx & Hnx & Hl). rewrite (proj2 (Z.eqb_neq a 0) Ha). cbn [negb]. rewrite Hnx.
    destruct (proj1 (Hin a) ltac:(by left)) as [Hae Hao]. apply NoDup_cons in Hnd as [Hna Hnd].
    destruct (elements_spec d a (proj1 Hpools _ _ Hd) Hae) as [M _]. unfold MEM_ALIGNMENT. rewrite M. cbn [Z.eqb negb].
    replace (a + MEMP_SIZE) with a by (unfold MEMP_SIZE; lia). eexists _, _. split; [done|]. right.
    split; [done|]. split; [done|]. split; [done|]. eapply memp_ok_update; [exact Hok|exact Hd| | |].
    + exists l. unfold get_tab. cbn. rewrite lookup_insert_eq. cbn. split; [|split; [done|]].
      * apply (free_list_frame s); [done|]. intros b Hb. cbn. apply lookup_delete_ne. intros <-. done.
      * intros b. specialize (Hin b). clear -Hin Hna. set_solver.
    + intros j Hj. unfold get_tab. cbn. by rewrite lookup_insert_ne.
    + intros b Hb. cbn. rewrite lookup_delete_ne by (intros <-; done). split; [done|]. clear -Hae Hb. set_solver.
Qed.

Lemma memp_free_spec s out i d p : memp_ok pools s out -> pools !! i = Some d -> p ∈ pool_elements d -> p ∈ out ->
  exists s', memp_free pools (Z.of_nat i) p s = Some s' /\ memp_ok pools s' (out ∖ {[p]}).
Proof.
  intros Hok Hd Hp Ho. pose proof (lookup_lt_Some _ _ _ Hd). unfold memp_free.
  replace (Z.of_nat i <? Z.of_nat (length pools)) with true by lia. cbn [negb].
  pose proof (proj1 Hpools _ _ Hd) as Hdok. destruct (elements_spec d p Hdok Hp) as (M & Hb & _). destruct Hdok as (H0 & _).
  destruct (Z.eqb_spec p 0); [lia|]. unfold do_memp_free_pool, MEM_ALIGNMENT. rewrite M. cbn [Z.eqb negb].
  replace (p - MEMP_SIZE) with p by (unfold MEMP_SIZE; lia). eexists. split; [done|].
  destruct (Hok _ _ Hd) as (l & Hl & Hnd & Hin).
  assert (p ∉ l) as Hpl by (intros Hx; by apply Hin in Hx as [_ Hx]).
  eapply memp_ok_update; [exact Hok|exact Hd| | |].
  - exists (p :: l). split; [|split].
    + split; [unfold get_tab; cbn; by rewrite lookup_insert_eq|]. split; [done|].
      eexists. split; [cbn; by rewrite lookup_insert_eq|]. apply (free_list_frame s); [done|].
      intros a Ha. cbn. rewrite lookup_insert_ne; [done|]. intros <-. done.
    + by apply NoDup_cons.
    + intros a. rewrite elem_of_cons, Hin, elem_of_difference, elem_of_singleton. destruct (decide (a = p)) as [->|]; tauto.
  - intros j Hj. unfold get_tab. cbn. by rewrite lookup_insert_ne.
  - intros a Ha. cbn. rewrite lookup_insert_ne by (intros <-; done). split; [done|]. clear -Hp Ha. set_solver.
Qed.
End pools.

(** * What the pools promise, and what preemption does to them

    The pool operations are correct when they run undisturbed.  In this build
    [SYS_LIGHTWEIGHT_PROT] is 0 ([static_lwipopts.h]), so [SYS_ARCH_PROTECT]
    expands to nothing and a thread can be preempted between any two memory
    accesses of an operation; the second half of this file is about that. *)

(** ** Undisturbed operation *)

Inductive memp_op := PoolMalloc (i : nat) | PoolFree (i : nat) (p : Z).

Section clients.
Context (pools : list memp_desc).

(** The state of the pools and the elements that are handed out. *)
Definition memp_exec (o : memp_op) (c : memp_state * gset Z) : option (memp_state * gset Z) :=
  let '(s, out) := c in
  match o with
  | PoolMalloc i => let? (p, s) := memp_malloc pools (Z.of_nat i) s in Some (s, if p =? 0 then out else {[p]} ∪ out)
  | PoolFree i p => let? s := memp_free pools (Z.of_nat i) p s in Some (s, out ∖ {[p]})
  end.

(** Only elements that are handed out are given back, and to their own pool. *)
Definition memp_legal (o : memp_op) (out : gset Z) : Prop :=
  match o with
  | PoolMalloc i => (i < length pools)%nat
  | PoolFree i p => p ∈ out /\ exists d, pools !! i = Some d /\ p ∈ pool_elements d
  end.

Inductive memp_reach (s0 : memp_state) : memp_state * gset Z -> Prop :=
| mr_init : memp_reach s0 (memp_init pools s0, ∅)
| mr_step c c' o : memp_reach s0 c -> memp_legal o c.2 -> memp_exec o c = Some c' -> memp_reach s0 c'.

Lemma memp_exec_ok o s out : pools_ok pools -> memp_ok pools s out -> memp_legal o out ->
  exists c', memp_exec o (s, out) = Some c' /\ memp_ok pools c'.1 c'.2.
Proof.
  intros Hp Hok Hl. destruct o as [i|i p]; cbn [memp_exec memp_legal] in *.
  - destruct (lookup_lt_is_Some_2 _ _ Hl) as [d Hd]. destruct (memp_malloc_spec pools Hp s out i d Hok Hd) as (p & s' & -> & H).
    eexists. split; [done|]. destruct H as [(-> & -> & _)|(Hp0 & _ & _ & H)]; [done|]. by rewrite (proj2 (Z.eqb_neq p 0) Hp0).
  - destruct Hl as (Ho & d & Hd & Hin). destruct (memp_free_spec pools Hp s out i d p Hok Hd Hin Ho) as (s' & -> & H). eauto.
Qed.

Lemma memp_reach_ok s0 c : pools_ok pools -> memp_reach s0 c -> memp_ok pools c.1 c.2.
Proof.
  intros Hp H. induction H as [|[s out] c' o H IH Hl E]; [by apply memp_init_spec|].
  destruct (memp_exec_ok o s out Hp IH Hl) as (c2 & E2 & H2). rewrite E in E2. by injection E2 as <-.
Qed.

(** C29: The pools keep their elements.  After any sequence of allocations and
    releases, each pool hands out an aligned element of its own that nobody has,
    and is exhausted only when all its elements are handed out; no operation
    fails an assertion and elements that are handed out do not overlap. *)
Theorem memp_pools_safe (s0 s : memp_state) (out : gset Z) : pools_ok pools -> memp_reach s0 (s, out) ->
  (forall o, memp_legal o out -> is_Some (memp_exec o (s, out))) /\
  (forall i d, pools !! i = Some d -> exists p s', memp_malloc pools (Z.of_nat i) s = Some (p, s') /\
     if p =? 0 then forall a, a ∈ pool_elements d -> a ∈ out
     else p ∈ pool_elements d /\ p ∉ out /\ p mod MEM_ALIGNMENT = 0 /\
          forall a, a ∈ pool_elements d -> a <> p -> a + elem_size d <= p \/ p + elem_size d <= a).
Proof.
  intros Hp Hr. pose proof (memp_reach_ok _ _ Hp Hr) as Hok. cbn [fst snd] in Hok. split.
  - intros o Hl. destruct (memp_exec_ok o s out Hp Hok Hl) as (c' & -> & _). by eexists.
  - intros i d Hd. destruct (memp_malloc_spec pools Hp s out i d Hok Hd) as (p & s' & E & H). exists p, s'. split; [done|].
    destruct H as [(-> & _ & H)|(Hp0 & Hin & Hno & _)]; [done|]. rewrite (proj2 (Z.eqb_neq p 0) Hp0).
    pose proof (proj1 Hp _ _ Hd) as Hdok. destruct (elements_spec d p Hdok Hin) as [M _].
    split; [done|]. split; [done|]. split; [done|]. intros a Ha Hne. by apply elements_apart.
Qed.
End clients.

(** A pool of three elements of 16 bytes and one of two of 608. *)
Definition two_pools : list memp_desc := [LWIP_MEMPOOL_DECLARE 3 16 4001; LWIP_MEMPOOL_DECLARE 2 608 5000].

Lemma two_pools_ok : pools_ok two_pools.
Proof.
  split.
  - intros [|[|i]] d H; [injection H as <-..|done]; vm_compute; repeat split; discriminate.
  - intros [|[|i]] [|[|j]] d e Hd He Hne; try done; injection Hd as <-; injection He as <-; vm_compute; [left|right]; discriminate.
Qed.

Definition after_malloc : memp_state * gset Z :=
  default (memp_init two_pools (MempState ∅ ∅), ∅) (memp_exec two_pools (PoolMalloc 1) (memp_init two_pools (MempState ∅ ∅), ∅)).

Lemma memp_pools_safe_witness : exists p s',
  memp_malloc two_pools 1 after_malloc.1 = Some (p, s') /\ p <> 0 /\ p ∈ pool_elements (LWIP_MEMPOOL_DECLARE 2 608 5000).
Proof.
  destruct (memp_pools_safe two_pools (MempState ∅ ∅) after_malloc.1 after_malloc.2 two_pools_ok) as [_ H].
  - apply (mr_step _ _ (memp_init two_pools (MempState ∅ ∅), ∅) _ (PoolMalloc 1)); [constructor|cbn; lia|vm_compute; reflexivity].
  - destruct (H 1%nat _ eq_refl) as (p & s' & E & Hp). exists p, s'. split; [exact E|].
    destruct (Z.eqb_spec p 0) as [->|Hne]; [vm_compute in E; discriminate|]. split; [exact Hne|]. apply Hp.
Defined.

(** ** Preemption *)

(** Where a thread is inside [do_memp_malloc_pool] or [do_memp_free_pool]: the
    values it has read so far are in its registers. *)
Inductive memp_pc :=
| MallocStart
| MallocHead (memp : Z)
| MallocNext (memp next : Z)
| FreeStart (mem : Z)
| FreeHead (mem head : Z)
| FreeLinked (mem : Z)
| MempDone (result : Z).

(** One memory access of [do_memp_malloc_pool] on pool [i]. *)
Definition malloc_micro (i : Z) (pc : memp_pc) (s : memp_state) : option (memp_pc * memp_state) :=
  match pc with
  | MallocStart => let memp := get_tab i s in Some (if memp =? 0 then MempDone 0 else MallocHead memp, s)
  | MallocHead memp => let? next := nexts s !! memp in Some (MallocNext memp next, s)
  | MallocNext memp next =>
      let s := set_tab i next s in
      if negb (memp mod MEM_ALIGNMENT =? 0) then None
      else Some (MempDone (memp + MEMP_SIZE), hand_out memp s)
  | _ => Some (pc, s)
  end.

(** One memory access of [do_memp_free_pool]. *)
Definition free_micro (i : Z) (pc : memp_pc) (s : memp_state) : option (memp_pc * memp_state) :=
  match pc with
  | FreeStart mem =>
      if negb (mem mod MEM_ALIGNMENT =? 0) then None else Some (FreeHead mem (get_tab i s), s)
  | FreeHead mem head => Some (FreeLinked mem, set_link (mem - MEMP_SIZE) head s)
  | FreeLinked mem => Some (MempDone 0, set_tab i (mem - MEMP_SIZE) s)
  | _ => Some (pc, s)
  end.

Definition memp_micro (i : Z) (pc : memp_pc) (s : memp_state) : option (memp_pc * memp_state) :=
  match pc with
  | MallocStart | MallocHead _ | MallocNext _ _ => malloc_micro i pc s
  | FreeStart _ | FreeHead _ _ | FreeLinked _ => free_micro i pc s
  | MempDone _ => Some (pc, s)
  end.

Fixpoint memp_run (n : nat) (i : Z) (pc : memp_pc) (s : memp_state) : option (memp_pc * memp_state) :=
  match n with
  | O => Some (pc, s)
  | S n => let? (pc, s) := memp_micro i pc s in memp_run n i pc s
  end.

(** Run to the end, the accesses are the operations. *)
Lemma memp_run_malloc i s :
  memp_run 3 i MallocStart s = (let? (p, s) := do_memp_malloc_pool i s in Some (MempDone p, s)).
Proof.
  cbn [memp_run memp_micro malloc_micro free_micro]. unfold do_memp_malloc_pool. destruct (get_tab i s =? 0); cbn [negb memp_micro malloc_micro free_micro]; [done|].
  destruct (nexts s !! get_tab i s); [|done]. cbn [memp_micro malloc_micro free_micro]. unfold MEM_ALIGNMENT. by destruct (negb (get_tab i s mod 4 =? 0)).
Qed.

Lemma memp_run_free i mem s :
  memp_run 3 i (FreeStart mem) s = (let? s := do_memp_free_pool i mem s in Some (MempDone 0, s)).
Proof. cbn [memp_run memp_micro malloc_micro free_micro]. unfold do_memp_free_pool. by destruct (negb (mem mod MEM_ALIGNMENT =? 0)). Qed.

(** Thread 1 allocates and thread 2 releases [b], which preempts thread 1 after
    [k] accesses. *)
Definition preempted (k : nat) (i b : Z) (s : memp_state) : option (memp_pc * memp_state) :=
  let? (pc, s) := memp_run k i MallocStart s in
  let? (_, s) := memp_run 3 i (FreeStart b) s in
  memp_run (3 - k) i pc s.

(** A release that preempts an allocation from the same pool is lost.  When
    the allocating thread has read the head of the free list, or also its
    successor, and a thread of higher priority then gives the element [b] back,
    the first thread overwrites the new head with the old second element: the
    allocation succeeds, and [b] is neither handed out nor on the free list, so
    it can never be allocated again.  If the allocation has finished first, [b] is
    on the list. *)
Theorem memp_preemption_leaks (i a b : Z) (l : list Z) (k : nat) (s : memp_state) :
  free_list s (get_tab i s) (a :: l) -> NoDup (a :: l) -> b ∉ a :: l -> a mod MEM_ALIGNMENT = 0 -> b mod MEM_ALIGNMENT = 0 ->
  b <> 0 -> (1 <= k <= 3)%nat ->
  exists s', preempted k i b s = Some (MempDone a, s') /\
    free_list s' (get_tab i s') (if decide (k = 3%nat) then b :: l else l).
Proof.
  intros (Ea & Ha & n & Hn & Hl) Hnd Hb Ma Mb Hb0 Hk. apply NoDup_cons in Hnd as [Hna Hnd].
  assert (a <> b /\ b ∉ l) as [Hab Hbl] by set_solver.
  assert (forall t, nexts t = delete a (<[b := a]> (nexts s)) \/ nexts t = <[b := n]> (delete a (nexts s)) -> free_list t n l) as Hfr.
  { intros t Ht. apply (free_list_frame s); [done|]. intros x Hx. assert (x <> a /\ x <> b) as [Hxa Hxb] by (split; intros ->; done).
    destruct Ht as [ -> | -> ]; rewrite ?lookup_delete_ne, ?lookup_insert_ne, ?lookup_delete_ne by done; done. }
  assert (k = 1%nat \/ k = 2%nat \/ k = 3%nat) as [ -> | [ -> | -> ] ] by lia; unfold preempted; cbn [Nat.sub memp_run memp_micro malloc_micro free_micro].
  all: rewrite ?Ea, ?(proj2 (Z.eqb_neq a 0) Ha); cbn [memp_micro malloc_micro free_micro]; rewrite ?Hn, ?Mb; cbn [Z.eqb negb memp_run memp_micro malloc_micro free_micro].
  all: replace (b - MEMP_SIZE) with b by (unfold MEMP_SIZE; lia).
  1: cbn [nexts set_tab set_link]; rewrite lookup_insert_ne, Hn by done; cbn [memp_micro malloc_micro free_micro].
  all: rewrite Ma; cbn [Z.eqb negb memp_micro malloc_micro free_micro]; replace (a + MEMP_SIZE) with a by (unfold MEMP_SIZE; lia); eexists; split; [done|].
  - unfold get_tab. cbn. rewrite lookup_insert_eq. apply Hfr. by left.
  - unfold get_tab. cbn. rewrite lookup_insert_eq. apply Hfr. left. by rewrite <- Ea.
  - split; [unfold get_tab; cbn; by rewrite lookup_insert_eq|]. split; [done|]. exists n.
    split; [unfold get_tab; cbn; by rewrite !lookup_insert_eq|]. apply Hfr. right. unfold get_tab. cbn. by rewrite lookup_insert_eq.
Qed.

(** The pool of three elements with one handed out: a release between the two
    reads of the next allocation. *)
Definition busy : memp_state :=
  (default (0, MempState ∅ ∅) (memp_malloc two_pools 0 (memp_init two_pools (MempState ∅ ∅)))).2.

Lemma memp_preemption_leaks_witness : exists s',
  preempted 2 0 4036 busy = Some (MempDone 4020, s') /\ free_list s' (get_tab 0 s') [4004].
Proof.
  apply (memp_preemption_leaks 0 4020 4036 [4004] 2 busy).
  - vm_compute. split; [reflexivity|]. split; [discriminate|]. exists 4004. split; [reflexivity|]. split; [reflexivity|].
    split; [discriminate|]. exists 0. split; reflexivity.
  - apply (bool_decide_unpack _). vm_compute. exact I.
  - apply (bool_decide_unpack _). vm_compute. exact I.
  - reflexivity.
  - reflexivity.
  - discriminate.
  - split; [apply le_S, le_n|apply le_S, le_n].
Defined.
