(* ===== verification/Pbuf.v ===== *)
(** * Packet buffers: lwIP's [core/pbuf.c]

    A packet is a chain of [struct pbuf]s whose payloads are pieces of memory.
    The heap maps addresses to [struct pbuf]s; payloads are addresses of the
    byte memory.  Assertions are enabled in this firmware and [LWIP_ERROR]
    halts like [LWIP_ASSERT] ([lwip/debug.h], [lwip_bindings/arch/cc.h]): [None]
    is a halt or an access through a dangling or null pointer.

    Loops walk a chain with [chain_fuel] steps, one more than there are pbufs,
    so only a cyclic chain runs out of them.  The functions that allocate or give
    memory back to an allocator are in [PbufAlloc]. *)

From Stdlib Require Import ZArith Lia.
From stdpp Require Import base gmap list numbers.
From S2P Require Import Prelude.
Import OptionNotations.

Local Open Scope Z_scope.

(** ** State *)

Inductive pbuf_type := PBUF_RAM | PBUF_ROM | PBUF_REF | PBUF_POOL.

#[global] Instance pbuf_type_eq_dec : EqDecision pbuf_type.
Proof. solve_decision. Defined.

Definition PBUF_FLAG_IS_CUSTOM : Z := 2.

Record pbuf := Pbuf {
  next : Z;                     (* 0 is the null pointer *)
  payload : Z;
  tot_len : Z;
  len : Z;
  type : pbuf_type;
  flags : Z;
  ref : Z
}.

Definition set_next (v : Z) (b : pbuf) : pbuf :=
  Pbuf v (payload b) (tot_len b) (len b) (type b) (flags b) (ref b).
Definition set_payload (v : Z) (b : pbuf) : pbuf :=
  Pbuf (next b) v (tot_len b) (len b) (type b) (flags b) (ref b).
Definition set_tot_len (v : Z) (b : pbuf) : pbuf :=
  Pbuf (next b) (payload b) (u16 v) (len b) (type b) (flags b) (ref b).
Definition set_len (v : Z) (b : pbuf) : pbuf :=
  Pbuf (next b) (payload b) (tot_len b) (u16 v) (type b) (flags b) (ref b).
Definition set_ref (v : Z) (b : pbuf) : pbuf :=
  Pbuf (next b) (payload b) (tot_len b) (len b) (type b) (flags b) (u16 v).

(** Where a pbuf is given back to. *)
Inductive dealloc := MEMP_PBUF_POOL | MEMP_PBUF | MEM_HEAP | CUSTOM.

(** [freed] are the pbufs that have been given back, oldest first. *)
Record heap := Heap {
  pbufs : gmap Z pbuf;
  ram : gmap Z Z;
  freed : list (Z * dealloc)
}.

Definition set_ram (m : gmap Z Z) (h : heap) : heap := Heap (pbufs h) m (freed h).
Definition alter_pbuf (p : Z) (g : pbuf -> pbuf) (h : heap) : option heap :=
  let? b := pbufs h !! p in Some (Heap (<[p := g b]> (pbufs h)) (ram h) (freed h)).
Definition release (p : Z) (d : dealloc) (h : heap) : heap :=
  Heap (delete p (pbufs h)) (ram h) (freed h ++ [(p, d)]).

Definition chain_fuel (h : heap) : nat := S (size (pbufs h)).

Definition MEMCPY (dst src n : Z) (h : heap) : option heap :=
  let? l := load (ram h) src (Z.to_nat n) in
  let? m := store (ram h) dst l in
  Some (set_ram m h).

Definition ERR_OK : Z := 0.
Definition ERR_MEM : Z := -1.

(** ** Headers *)

(** [sizeof(struct pbuf)] is 16 on this target, a multiple of the alignment. *)
Definition SIZEOF_STRUCT_PBUF : Z := 16.

Definition pbuf_header_impl (p increment : Z) (force : bool) (h : heap) : option (Z * heap) :=
  if p =? 0 then None
  else if increment =? 0 then Some (0, h)
  else
    let? b := pbufs h !! p in
    let magnitude := u16 (if increment <? 0 then - increment else increment) in
    if (increment <? 0) && negb (magnitude <=? len b) then None
    else
      let adjust :=
        let? h := alter_pbuf p (set_payload (payload b - increment)) h in
        let? h := alter_pbuf p (set_len (len b + increment)) h in
        let? h := alter_pbuf p (set_tot_len (tot_len b + increment)) h in
        Some (0, h) in
      match type b with
      | PBUF_RAM | PBUF_POOL =>
          if payload b - increment <? p + SIZEOF_STRUCT_PBUF then Some (1, h) else adjust
      | PBUF_REF | PBUF_ROM =>
          if (increment <? 0) && (magnitude <=? len b) then adjust
          else if (0 <? increment) && force then adjust
          else Some (1, h)
      end.

Definition pbuf_header (p increment : Z) (h : heap) : option (Z * heap) := pbuf_header_impl p increment false h.
Definition pbuf_header_force (p increment : Z) (h : heap) : option (Z * heap) := pbuf_header_impl p increment true h.

(** ** References and chains *)

Definition dealloc_of (b : pbuf) : dealloc :=
  if negb (Z.land (flags b) PBUF_FLAG_IS_CUSTOM =? 0) then CUSTOM
  else match type b with
       | PBUF_POOL => MEMP_PBUF_POOL
       | PBUF_ROM | PBUF_REF => MEMP_PBUF
       | PBUF_RAM => MEM_HEAP
       end.

(** The count of deallocated pbufs is an [u8_t]. *)
Fixpoint pbuf_free_loop (fuel : nat) (p count : Z) (h : heap) : option (Z * heap) :=
  if p =? 0 then Some (count, h)
  else
    match fuel with
    | O => None
    | S fuel =>
        let? b := pbufs h !! p in
        if negb (0 <? ref b) then None
        else
          let? h := alter_pbuf p (set_ref (ref b - 1)) h in
          if u16 (ref b - 1) =? 0
          then pbuf_free_loop fuel (next b) (u8 (count + 1)) (release p (dealloc_of b) h)
          else Some (count, h)
    end.

Definition pbuf_free (p : Z) (h : heap) : option (Z * heap) :=
  if p =? 0 then None else pbuf_free_loop (chain_fuel h) p 0 h.

Fixpoint pbuf_clen_loop (fuel : nat) (p n : Z) (h : heap) : option Z :=
  if p =? 0 then Some n
  else
    match fuel with
    | O => None
    | S fuel => let? b := pbufs h !! p in pbuf_clen_loop fuel (next b) (u16 (n + 1)) h
    end.

Definition pbuf_clen (p : Z) (h : heap) : option Z := pbuf_clen_loop (chain_fuel h) p 0 h.

Definition pbuf_ref (p : Z) (h : heap) : option heap :=
  if p =? 0 then Some h
  else
    let? b := pbufs h !! p in
    let? h := alter_pbuf p (set_ref (ref b + 1)) h in
    if 0 <? u16 (ref b + 1) then Some h else None.

Fixpoint pbuf_cat_loop (fuel : nat) (p t : Z) (h : heap) : option heap :=
  match fuel with
  | O => None
  | S fuel =>
      let? b := pbufs h !! p in
      let? bt := pbufs h !! t in
      if negb (next b =? 0) then
        let? h := alter_pbuf p (set_tot_len (tot_len b + tot_len bt)) h in
        pbuf_cat_loop fuel (next b) t h
      else if negb (tot_len b =? len b) then None
      else
        let? h := alter_pbuf p (set_tot_len (tot_len b + tot_len bt)) h in
        alter_pbuf p (set_next t) h
  end.

Definition pbuf_cat (h' t : Z) (h : heap) : option heap :=
  if (h' =? 0) || (t =? 0) then None else pbuf_cat_loop (chain_fuel h) h' t h.

Definition pbuf_chain (h' t : Z) (h : heap) : option heap :=
  let? h := pbuf_cat h' t h in pbuf_ref t h.

Definition pbuf_dechain (p : Z) (h : heap) : option (Z * heap) :=
  let? b := pbufs h !! p in
  let q := next b in
  if negb (q =? 0) then
    let? bq := pbufs h !! q in
    if negb (tot_len bq =? tot_len b - len b) then None
    else
      let? h := alter_pbuf q (set_tot_len (tot_len b - len b)) h in
      let? h := alter_pbuf p (set_next 0) h in
      let? h := alter_pbuf p (set_tot_len (len b)) h in
      let? (tail_gone, h) := pbuf_free q h in
      Some (if 0 <? tail_gone then 0 else q, h)
  else if negb (tot_len b =? len b) then None
  else Some (0, h).

(** ** Copying *)

(** Does the packet end at [p] although the chain goes on? *)
Definition is_queue (p : Z) (h : heap) : option bool :=
  if p =? 0 then Some false
  else let? b := pbufs h !! p in Some ((len b =? tot_len b) && negb (next b =? 0)).

(** The [do ... while] loop of [pbuf_copy], at offsets into the current pbufs. *)
Fixpoint pbuf_copy_loop (fuel : nat) (p_to p_from offset_to offset_from : Z) (h : heap) : option heap :=
  match fuel with
  | O => None
  | S fuel =>
      let? bt := pbufs h !! p_to in
      let? bf := pbufs h !! p_from in
      let n := u16 (if len bf - offset_from <=? len bt - offset_to then len bf - offset_from else len bt - offset_to) in
      let? h := MEMCPY (payload bt + offset_to) (payload bf + offset_from) n h in
      let offset_to := u16 (offset_to + n) in
      let offset_from := u16 (offset_from + n) in
      if negb (offset_to <=? len bt) || negb (offset_from <=? len bf) then None
      else
        let '(p_from, offset_from) := if len bf <=? offset_from then (next bf, 0) else (p_from, offset_from) in
        let? (p_to, offset_to) :=
          (if offset_to =? len bt
           then if (next bt =? 0) && negb (p_from =? 0) then None else Some (next bt, 0)
           else Some (p_to, offset_to)) in
        let? queue_from := is_queue p_from h in
        let? queue_to := is_queue p_to h in
        if queue_from || queue_to then None
        else if p_from =? 0 then Some h
        else pbuf_copy_loop fuel p_to p_from offset_to offset_from h
  end.

Definition pbuf_copy (p_to p_from : Z) (h : heap) : option (Z * heap) :=
  if (p_to =? 0) || (p_from =? 0) then None
  else
    let? bt := pbufs h !! p_to in
    let? bf := pbufs h !! p_from in
    if negb (tot_len bf <=? tot_len bt) then None
    else let? h := pbuf_copy_loop (2 * chain_fuel h) p_to p_from 0 0 h in Some (ERR_OK, h).

(** The loop of [pbuf_copy_partial]; [left] and [copied_total] are equal throughout. *)
Fixpoint pbuf_copy_partial_loop (fuel : nat) (p dataptr n offset left copied_total : Z) (h : heap)
    : option (Z * heap) :=
  if (n =? 0) || (p =? 0) then Some (copied_total, h)
  else
    match fuel with
    | O => None
    | S fuel =>
        let? b := pbufs h !! p in
        if negb (offset =? 0) && (len b <=? offset)
        then pbuf_copy_partial_loop fuel (next b) dataptr n (u16 (offset - len b)) left copied_total h
        else
          let buf_copy_len := u16 (len b - offset) in
          let buf_copy_len := if n <? buf_copy_len then n else buf_copy_len in
          let? h := MEMCPY (dataptr + left) (payload b + offset) buf_copy_len h in
          pbuf_copy_partial_loop fuel (next b) dataptr (u16 (n - buf_copy_len)) 0
            (u16 (left + buf_copy_len)) (u16 (copied_total + buf_copy_len)) h
    end.

Definition pbuf_copy_partial (buf dataptr n offset : Z) (h : heap) : option (Z * heap) :=
  if (buf =? 0) || (dataptr =? 0) then None
  else pbuf_copy_partial_loop (chain_fuel h) buf dataptr n offset 0 0 h.

(** ** Access by offset *)

Fixpoint pbuf_skip_loop (fuel : nat) (q offset_left : Z) (h : heap) : option (Z * Z) :=
  if q =? 0 then Some (q, offset_left)
  else
    match fuel with
    | O => None
    | S fuel =>
        let? b := pbufs h !! q in
        if len b <=? offset_left then pbuf_skip_loop fuel (next b) (u16 (offset_left - len b)) h
        else Some (q, offset_left)
    end.

Definition pbuf_skip_const (p in_offset : Z) (h : heap) : option (Z * Z) :=
  pbuf_skip_loop (chain_fuel h) p in_offset h.
Definition pbuf_skip (p in_offset : Z) (h : heap) : option (Z * Z) := pbuf_skip_const p in_offset h.

Fixpoint pbuf_take_loop (fuel : nat) (p dataptr total_copy_len copied_total : Z) (h : heap)
    : option (Z * Z * heap) :=
  if total_copy_len =? 0 then Some (total_copy_len, copied_total, h)
  else
    match fuel with
    | O => None
    | S fuel =>
        if p =? 0 then None
        else
          let? b := pbufs h !! p in
          let buf_copy_len := if len b <? total_copy_len then len b else total_copy_len in
          let? h := MEMCPY (payload b) (dataptr + copied_total) buf_copy_len h in
          pbuf_take_loop fuel (next b) dataptr (u16 (total_copy_len - buf_copy_len))
            (u16 (copied_total + buf_copy_len)) h
    end.

Definition pbuf_take (buf dataptr n : Z) (h : heap) : option (Z * heap) :=
  if (buf =? 0) || (dataptr =? 0) then None
  else
    let? b := pbufs h !! buf in
    if negb (n <=? tot_len b) then None
    else
      let? (rest, copied_total, h) := pbuf_take_loop (chain_fuel h) buf dataptr n 0 h in
      if (rest =? 0) && (copied_total =? n) then Some (ERR_OK, h) else None.

Definition pbuf_take_at (buf dataptr n offset : Z) (h : heap) : option (Z * heap) :=
  let? (q, target_offset) := pbuf_skip buf offset h in
  if q =? 0 then Some (ERR_MEM, h)
  else
    let? b := pbufs h !! q in
    if target_offset + n <=? tot_len b then
      let first_copy_len := u16 (Z.min (len b - target_offset) n) in
      let? h := MEMCPY (payload b + target_offset) dataptr first_copy_len h in
      let remaining_len := u16 (n - first_copy_len) in
      if 0 <? remaining_len then pbuf_take (next b) (dataptr + first_copy_len) remaining_len h
      else Some (ERR_OK, h)
    else Some (ERR_MEM, h).

Definition pbuf_try_get_at (p offset : Z) (h : heap) : option Z :=
  let? (q, q_idx) := pbuf_skip_const p offset h in
  if q =? 0 then Some (-1)
  else
    let? b := pbufs h !! q in
    if q_idx <? len b then ram h !! (payload b + q_idx) else Some (-1).

Definition pbuf_get_at (p offset : Z) (h : heap) : option Z :=
  let? r := pbuf_try_get_at p offset h in Some (if 0 <=? r then u8 r else 0).

Definition pbuf_put_at (p offset data : Z) (h : heap) : option heap :=
  let? (q, q_idx) := pbuf_skip p offset h in
  if q =? 0 then Some h
  else
    let? b := pbufs h !! q in
    if q_idx <? len b
    then let? m := store (ram h) (payload b + q_idx) [data] in Some (set_ram m h)
    else Some h.

(** ** Searching *)

(** The loop [for (i = 0; i < n; i++)] of [pbuf_memcmp], with [k] rounds left. *)
Fixpoint pbuf_memcmp_loop (k : nat) (q start s2 i : Z) (h : heap) : option Z :=
  match k with
  | O => Some 0
  | S k =>
      let? a := pbuf_get_at q (u16 (start + i)) h in
      let? b := ram h !! (s2 + i) in
      if negb (a =? b) then Some (u16 (i + 1)) else pbuf_memcmp_loop k q start s2 (u16 (i + 1)) h
  end.

Definition pbuf_memcmp (p offset s2 n : Z) (h : heap) : option Z :=
  let? b := pbufs h !! p in
  if tot_len b <? offset + n then Some 0xffff
  else
    let? (q, start) := pbuf_skip_loop (chain_fuel h) p offset h in
    pbuf_memcmp_loop (Z.to_nat n) q start s2 0 h.

(** The loop [for (i = start_offset; i <= max; i++)] of [pbuf_memfind]. *)
Fixpoint pbuf_memfind_loop (fuel : nat) (p mem mem_len i max : Z) (h : heap) : option Z :=
  if i <=? max then
    match fuel with
    | O => None
    | S fuel =>
        let? plus := pbuf_memcmp p i mem mem_len h in
        if plus =? 0 then Some i else pbuf_memfind_loop fuel p mem mem_len (u16 (i + 1)) max h
    end
  else Some 0xffff.

(** At most 65536 offsets are tried. *)
Definition pbuf_memfind (p mem mem_len start_offset : Z) (h : heap) : option Z :=
  let? b := pbufs h !! p in
  let max := u16 (tot_len b - mem_len) in
  if mem_len + start_offset <=? tot_len b
  then pbuf_memfind_loop (Z.to_nat 65536) p mem mem_len start_offset max h
  else Some 0xffff.

(** [strlen], stopped at 65535 bytes: the caller does not distinguish longer strings. *)
Fixpoint strlen (fuel : nat) (s : Z) (m : gmap Z Z) : option Z :=
  match fuel with
  | O => Some 0
  | S fuel =>
      let? c := m !! s in
      if c =? 0 then Some 0 else let? n := strlen fuel (s + 1) m in Some (n + 1)
  end.

Definition pbuf_strstr (p substr : Z) (h : heap) : option Z :=
  if substr =? 0 then Some 0xffff
  else
    let? c := ram h !! substr in
    if c =? 0 then Some 0xffff
    else
      let? b := pbufs h !! p in
      if tot_len b =? 0xffff then Some 0xffff
      else
        let? substr_len := strlen (Z.to_nat 65535) substr (ram h) in
        if 65535 <=? substr_len then Some 0xffff
        else pbuf_memfind p substr (u16 substr_len) 0 h.
