(* ===== verification/PbufChain.v ===== *)
(** * Packets as byte strings

    A chain of pbufs stands for the concatenation of its payloads.  This file
    has the chain, its contents and the memory it occupies. *)

From Stdlib Require Import ZArith Lia.
From stdpp Require Import base gmap list numbers.
From S2P Require Import Prelude Pbuf.
From stdpp Require Import sets list.
Import OptionNotations.

Local Open Scope Z_scope.

(** ** Chains *)

Abbreviation links := (list (Z * pbuf)).

(** The pbufs of the chain at [p], with their addresses. *)
Fixpoint chain (h : heap) (p : Z) (l : links) : Prop :=
  match l with
  | [] => p = 0
  | (a, b) :: l => p = a /\ a <> 0 /\ pbufs h !! a = Some b /\ chain h (next b) l
  end.

Definition head_addr (l : links) : Z :=
  match l with
  | [] => 0
  | (a, _) :: _ => a
  end.

Lemma chain_det h p l l' : chain h p l -> chain h p l' -> l = l'.
Proof.
  revert p l'. induction l as [|[a b] l IH]; intros p [|[a' b'] l'] H H'; cbn [chain] in *; naive_solver.
Qed.

Lemma chain_app h p l1 l2 : chain h p (l1 ++ l2) -> chain h (head_addr l2) l2.
Proof.
  revert p. induction l1 as [|[a b] l1 IH]; intros p H; cbn [app chain] in H.
  - destruct l2 as [|[a b] l2]; cbn in *; naive_solver.
  - destruct H as (_ & _ & _ & H). by eapply IH.
Qed.

Lemma links_head h p l : chain h p l -> p = head_addr l.
Proof. destruct l as [|[a b] l]; cbn; naive_solver. Qed.

Lemma links_lookup h p l a b : chain h p l -> (a, b) ∈ l -> a <> 0 /\ pbufs h !! a = Some b.
Proof.
  revert p. induction l as [|[a' b'] l IH]; intros p H Hin; [set_solver|].
  destruct H as (_ & Ha & Hb & H). apply elem_of_cons in Hin as [[= -> ->]|Hin]; [done|]. by eapply IH.
Qed.

(** A chain has no cycle. *)
Lemma chain_nodup h p l : chain h p l -> NoDup (l.*1).
Proof.
  revert p. induction l as [|[a b] l IH]; intros p H; [constructor|]. pose proof H as (_ & _ & _ & H'). cbn [fmap list_fmap fst].
  apply NoDup_cons. split; [|by eapply IH]. intros Hin. apply list_elem_of_fmap in Hin as ([a' b'] & Ea & Hin).
  cbn in Ea. subst a'. apply list_elem_of_split in Hin as (l1 & l2 & ->).
  pose proof (chain_app h p ((a, b) :: l1) ((a, b') :: l2) H) as H2. cbn [head_addr] in H2.
  assert (p = a) as -> by apply H. pose proof (chain_det _ _ _ _ H H2) as E. apply (f_equal length) in E.
  cbn in E. rewrite length_app in E. cbn in E. lia.
Qed.

Lemma chain_fuel_enough h p l : chain h p l -> (length l < chain_fuel h)%nat.
Proof.
  intros H. unfold chain_fuel. apply Nat.lt_succ_r.
  rewrite <- (length_fmap fst l), <- (size_list_to_set (C := gset Z)), <- (size_dom (D := gset Z)) by (by eapply chain_nodup).
  apply subseteq_size. intros a Ha. apply elem_of_list_to_set, list_elem_of_fmap in Ha as ([a' b] & -> & Hin).
  apply elem_of_dom. exists b. by eapply links_lookup.
Qed.

(** A chain depends on its own pbufs. *)
Lemma chain_frame h h' p l :
  chain h p l -> (forall a b, (a, b) ∈ l -> pbufs h' !! a = pbufs h !! a) -> chain h' p l.
Proof.
  revert p. induction l as [|[a b] l IH]; intros p H Hf; [done|]. destruct H as (-> & Ha & Hb & H).
  cbn [chain]. rewrite (Hf a b) by set_solver. split; [done|]. split; [done|]. split; [done|].
  apply IH; [done|]. intros a' b' Hin. apply (Hf a' b'). set_solver.
Qed.

(** ** Lengths and contents *)

Fixpoint chain_len (l : links) : Z :=
  match l with
  | [] => 0
  | (_, b) :: l => len b + chain_len l
  end.

(** The documented invariant of [tot_len], for a packet that is not a queue. *)
Fixpoint wf (l : links) : Prop :=
  match l with
  | [] => True
  | (_, b) :: l => 0 <= len b /\ tot_len b = len b + chain_len l /\ tot_len b < 65536 /\ wf l
  end.

Fixpoint contents (m : gmap Z Z) (l : links) : option (list Z) :=
  match l with
  | [] => Some []
  | (_, b) :: l =>
      let? x := load m (payload b) (Z.to_nat (len b)) in
      let? y := contents m l in
      Some (x ++ y)
  end.

(** The chain at [p] is a well-formed packet with the bytes [d]. *)
Record packet (h : heap) (p : Z) (l : links) (d : list Z) : Prop := {
  pk_chain : chain h p l;
  pk_wf : wf l;
  pk_data : contents (ram h) l = Some d
}.

Lemma chain_len_app l1 l2 : chain_len (l1 ++ l2) = chain_len l1 + chain_len l2.
Proof. induction l1 as [|[a b] l1 IH]; cbn [app chain_len]; lia. Qed.

Lemma wf_app l1 l2 : wf (l1 ++ l2) -> wf l2.
Proof. induction l1 as [|[a b] l1 IH]; cbn [app wf]; naive_solver. Qed.

Lemma wf_total l : wf l -> 0 <= chain_len l.
Proof. induction l as [|[a b] l IH]; cbn [chain_len wf]; [lia|]. intros (H & _ & _ & Hl). specialize (IH Hl). lia. Qed.

Lemma wf_total_l l1 l2 : wf (l1 ++ l2) -> 0 <= chain_len l1.
Proof.
  induction l1 as [|[a b] l1 IH]; cbn [app chain_len wf]; [lia|]. intros (H & _ & _ & Hl). specialize (IH Hl). lia.
Qed.

Lemma contents_app m l1 l2 d : contents m (l1 ++ l2) = Some d <->
  exists d1 d2, d = d1 ++ d2 /\ contents m l1 = Some d1 /\ contents m l2 = Some d2.
Proof.
  revert d. induction l1 as [|[a b] l1 IH]; intros d; cbn [app contents].
  - split; [intros H; by exists [], d|]. intros (d1 & d2 & -> & [= <-] & H). done.
  - destruct (load m (payload b) (Z.to_nat (len b))) as [x|]; [|naive_solver].
    split.
    + destruct (contents m (l1 ++ l2)) as [y|] eqn:E; [|done]. intros [= <-].
      destruct (proj1 (IH y) eq_refl) as (d1 & d2 & -> & -> & ->). exists (x ++ d1), d2.
      by rewrite app_assoc.
    + intros (d1 & d2 & -> & H1 & H2). destruct (contents m l1) as [y|] eqn:E; [|done]. injection H1 as <-.
      rewrite (proj2 (IH (y ++ d2))) by eauto. by rewrite app_assoc.
Qed.

Lemma contents_length m l d : wf l -> contents m l = Some d -> Z.of_nat (length d) = chain_len l.
Proof.
  revert d. induction l as [|[a b] l IH]; intros d Hw H; cbn [wf contents chain_len] in *; [by simplify_eq|].
  destruct (load _ _ _) as [x|] eqn:E; [|done]. destruct (contents m l) as [y|] eqn:E'; [|done]. injection H as <-.
  apply load_Some in E as [E _]. destruct Hw as (H0 & _ & _ & Hw). specialize (IH y Hw eq_refl).
  rewrite length_app. lia.
Qed.

(** The head pbuf of a packet. *)
Lemma packet_head h p a b l d : packet h p ((a, b) :: l) d ->
  p = a /\ (a =? 0) = false /\ pbufs h !! a = Some b /\ tot_len b = Z.of_nat (length d) /\ tot_len b < 65536.
Proof.
  intros [(-> & Ha & Hb & _) Hw Hd]. pose proof (contents_length _ _ _ Hw Hd) as El. cbn [chain_len] in El.
  destruct Hw as (_ & H2 & H3 & _). rewrite (proj2 (Z.eqb_neq a 0) Ha). repeat split; try done; lia.
Qed.

(** ** The memory of a chain *)

Definition region (l : links) (i : Z) : Prop :=
  exists a b, (a, b) ∈ l /\ payload b <= i < payload b + len b.

(** The [n] bytes at [a] are not payload of the chain. *)
Definition outside (l : links) (a n : Z) : Prop := forall i, a <= i < a + n -> ~ region l i.

Lemma region_cons a b l i : region ((a, b) :: l) i <-> payload b <= i < payload b + len b \/ region l i.
Proof.
  unfold region. split.
  - intros (a' & b' & Hin & Hi). apply elem_of_cons in Hin as [[= -> ->]|Hin]; [by left|]. right. eauto.
  - intros [Hi|(a' & b' & Hin & Hi)]; [exists a, b|exists a', b']; (split; [set_solver|done]).
Qed.

Lemma outside_cons a b l x n :
  outside ((a, b) :: l) x n -> outside l x n /\ forall i, x <= i < x + n -> ~ payload b <= i < payload b + len b.
Proof. intros H. split; intros i Hi Hr; apply (H i Hi), region_cons; auto. Qed.

Lemma outside_sub l x n y k : outside l x n -> x <= y -> y + k <= x + n -> outside l y k.
Proof. intros H H1 H2 i Hi. apply H. lia. Qed.

Lemma contents_ext m m' l : wf l -> (forall i, region l i -> m' !! i = m !! i) -> contents m' l = contents m l.
Proof.
  induction l as [|[a b] l IH]; intros Hw H; [done|]. destruct Hw as (H0 & _ & _ & Hw). cbn [contents].
  rewrite (load_ext m m'), IH; [done|done| |].
  - intros i Hi. apply H, region_cons. auto.
  - intros i Hi. apply H, region_cons. left. lia.
Qed.

Lemma contents_write m l a x : wf l -> outside l a (Z.of_nat (length x)) -> contents (write m a x) l = contents m l.
Proof.
  intros Hw Ho. apply contents_ext; [done|]. intros i Hi. apply lookup_write_outside.
  destruct (decide (a <= i < a + Z.of_nat (length x))) as [Hin|]; [|lia]. by destruct (Ho i Hin).
Qed.

(** A load of part of a loaded range. *)
Lemma load_sub m a n l k j : load m a n = Some l -> (k + j <= n)%nat ->
  load m (a + Z.of_nat k) j = Some (take j (drop k l)).
Proof.
  intros H Hle. apply load_Some in H as [El H]. apply load_Some. split; [rewrite length_take, length_drop; lia|].
  intros i b Hi. apply lookup_take_Some in Hi as [Hi _]. rewrite lookup_drop in Hi. specialize (H _ _ Hi).
  rewrite <- H. f_equal. lia.
Qed.
