(* ===== verification/PbufReadWrite.v ===== *)
(** * Reading packets

    [pbuf_get_at], [pbuf_copy_partial], [pbuf_memcmp], [pbuf_memfind] and
    [pbuf_strstr] compute what their counterparts on the byte string of the
    packet do, however the string is cut into pbufs. *)

From Stdlib Require Import ZArith Lia.
From stdpp Require Import base gmap list numbers.
From S2P Require Import Prelude Pbuf PbufChain.
From stdpp Require Import sets list.
Import OptionNotations.

Local Open Scope Z_scope.

(** ** Offsets *)

Lemma skip_spec h : forall l fuel q off,
  chain h q l -> wf l -> 0 <= off < 65536 -> (length l <= fuel)%nat ->
  exists l1 l2 off', l = l1 ++ l2 /\ pbuf_skip_loop fuel q off h = Some (head_addr l2, off') /\
    off = chain_len l1 + off' /\ 0 <= off' /\ match l2 with [] => True | (_, b) :: _ => off' < len b end.
Proof.
  induction l as [|[a b] l IH]; intros fuel q off Hc Hw Ho Hf; cbn [chain wf length] in *.
  - subst q. exists [], [], off. repeat split; try done; try lia. by destruct fuel.
  - destruct Hc as (-> & Ha & Hb & Hc), Hw as (H1 & H2 & H3 & Hw). destruct fuel as [|fuel]; [lia|].
    cbn [pbuf_skip_loop]. rewrite (proj2 (Z.eqb_neq a 0) Ha), Hb.
    destruct (Z.leb_spec (len b) off) as [Hle|Hgt].
    + rewrite u16_small by lia.
      destruct (IH fuel (next b) (off - len b)) as (l1 & l2 & o & -> & E & Eo & H0 & Hm); [done|done|lia|lia|].
      exists ((a, b) :: l1), l2, o. cbn [chain_len app]. repeat split; try done; lia.
    + exists [], ((a, b) :: l), off. cbn [chain_len]. repeat split; try done; lia.
Qed.

(** The byte at an offset: in the pbuf the skip ends at. *)
Lemma skip_byte h p l d l1 l2 off off' :
  packet h p l d -> l = l1 ++ l2 -> off = chain_len l1 + off' -> 0 <= off' ->
  match l2 with
  | [] => d !! Z.to_nat off = None
  | (_, b) :: _ => off' < len b -> d !! Z.to_nat off = ram h !! (payload b + off') /\ is_Some (d !! Z.to_nat off)
  end.
Proof.
  intros [Hc Hw Hd] -> -> Ho. apply contents_app in Hd as (d1 & d2 & -> & Hd1 & Hd2).
  pose proof (wf_total_l _ _ Hw) as Ht.
  assert (Z.of_nat (length d1) = chain_len l1) as El.
  { assert (Z.of_nat (length (d1 ++ d2)) = chain_len (l1 ++ l2)) as E by (eapply contents_length; [done|]; apply contents_app; eauto).
    pose proof (contents_length _ _ _ (wf_app _ _ Hw) Hd2). rewrite length_app, chain_len_app in E. lia. }
  destruct l2 as [|[a b] l2].
  - injection Hd2 as <-. rewrite app_nil_r. apply lookup_ge_None. lia.
  - intros Hlt. cbn [contents] in Hd2. destruct (load _ _ _) as [x|] eqn:E; [|done].
    destruct (contents (ram h) l2) as [y|]; [|done]. injection Hd2 as <-.
    apply load_Some in E as [Elx E]. apply wf_app in Hw as (Hb & _).
    rewrite lookup_app_r by lia. rewrite lookup_app_l by lia.
    destruct (lookup_lt_is_Some_2 x (Z.to_nat (chain_len l1 + off') - length d1)) as [c Hx]; [lia|].
    rewrite Hx. split; [|done]. rewrite <- (E _ _ Hx). f_equal. lia.
Qed.

Lemma try_get_spec h p l d off :
  packet h p l d -> 0 <= off < 65536 ->
  pbuf_try_get_at p off h = Some (default (-1) (d !! Z.to_nat off)).
Proof.
  intros Hp Ho. pose proof Hp as [Hc Hw Hd]. unfold pbuf_try_get_at, pbuf_skip_const.
  pose proof (chain_fuel_enough _ _ _ Hc).
  destruct (skip_spec h l (chain_fuel h) p off) as (l1 & l2 & o & El & -> & Eo & H0 & Hm); [done|done|done|lia|].
  pose proof (skip_byte _ _ _ _ _ _ _ _ Hp El Eo H0) as Hb. subst l. apply chain_app in Hc.
  destruct l2 as [|[a b] l2]; cbn [head_addr] in *; [by rewrite Hb|].
  destruct Hc as (_ & Ha & -> & _). rewrite (proj2 (Z.eqb_neq a 0) Ha), (proj2 (Z.ltb_lt _ _) Hm).
  destruct (Hb Hm) as [<- [c ->]]. done.
Qed.

Lemma get_spec h p l d off :
  packet h p l d -> bytes d -> 0 <= off < 65536 ->
  pbuf_get_at p off h = Some (default 0 (d !! Z.to_nat off)).
Proof.
  intros Hp Hb Ho. unfold pbuf_get_at. rewrite (try_get_spec _ _ _ _ _ Hp Ho).
  destruct (d !! Z.to_nat off) as [c|] eqn:E; [|done].
  change (default (-1) (Some c)) with c. change (default 0 (Some c)) with c.
  assert (is_byte c) as Hc by (eapply Forall_lookup_1; eauto). unfold is_byte in Hc.
  rewrite (proj2 (Z.leb_le 0 c)) by lia. by rewrite u8_small.
Qed.

(** A suffix of the chain is the packet of the rest of the bytes. *)
Lemma packet_suffix h p l1 l2 d : packet h p (l1 ++ l2) d ->
  packet h (head_addr l2) l2 (drop (Z.to_nat (chain_len l1)) d) /\ 0 <= chain_len l1 <= Z.of_nat (length d).
Proof.
  intros [Hc Hw Hd]. pose proof (contents_length _ _ _ Hw Hd) as El. rewrite chain_len_app in El.
  apply contents_app in Hd as (d1 & d2 & -> & Hd1 & Hd2). pose proof (wf_total_l _ _ Hw) as Ht.
  pose proof (contents_length _ _ _ (wf_app _ _ Hw) Hd2) as E2. rewrite length_app in El.
  rewrite length_app. split; [|lia].
  split; [by eapply chain_app|by eapply wf_app|]. rewrite drop_app_length'; [done|]. lia.
Qed.

Lemma clen_loop_spec h : forall l fuel p n,
  chain h p l -> (length l <= fuel)%nat -> pbuf_clen_loop fuel p n h = Some (match l with [] => n | _ => u16 (n + Z.of_nat (length l)) end).
Proof.
  induction l as [|[a b] l IH]; intros fuel p n Hc Hf; cbn [chain length] in *.
  - subst p. by destruct fuel.
  - destruct Hc as (-> & Ha & Hb & Hc). destruct fuel as [|fuel]; [lia|]. cbn [pbuf_clen_loop].
    rewrite (proj2 (Z.eqb_neq a 0) Ha), Hb. rewrite (IH fuel) by (try done; lia). f_equal.
    destruct l; [f_equal; cbn; lia|]. unfold u16. rewrite wrap_add_l. f_equal. cbn [length]. lia.
Qed.

(** ** Comparing *)

(** Zero for equal strings, else one more than the position of the first difference. *)
Fixpoint first_diff (i : Z) (x y : list Z) : Z :=
  match x, y with
  | a :: x, b :: y => if a =? b then first_diff (i + 1) x y else i + 1
  | _, _ => 0
  end.

Lemma first_diff_eq x y i : 0 <= i -> length x = length y -> first_diff i x y = 0 <-> x = y.
Proof.
  revert y i. induction x as [|a x IH]; intros [|b y] i Hi Hl; try done. cbn [first_diff].
  destruct (Z.eqb_spec a b) as [->|Hne].
  - rewrite IH by (cbn in Hl; lia). split; [by intros ->|by intros [= ->]].
  - split; [lia|naive_solver].
Qed.

Lemma memcmp_loop_spec h q l d s2 : forall y start i,
  packet h q l d -> bytes d -> 0 <= start -> 0 <= i -> start + i + Z.of_nat (length y) <= Z.of_nat (length d) ->
  Z.of_nat (length d) < 65536 -> load (ram h) (s2 + i) (length y) = Some y ->
  pbuf_memcmp_loop (length y) q start s2 i h
  = Some (first_diff i (take (length y) (drop (Z.to_nat (start + i)) d)) y).
Proof.
  induction y as [|c y IH]; intros start i Hp Hb Hs Hi Hle Hlt Hy; [done|]. cbn [length pbuf_memcmp_loop] in *.
  rewrite u16_small by lia. rewrite (get_spec _ _ _ _ _ Hp Hb) by lia.
  destruct (lookup_lt_is_Some_2 d (Z.to_nat (start + i))) as [a Ha]; [lia|]. rewrite Ha. change (default 0 (Some a)) with a.
  apply load_Some in Hy as [_ Hy]. pose proof (Hy 0%nat c eq_refl) as Hc. rewrite Z.add_0_r in Hc. rewrite Hc.
  rewrite (drop_S _ _ _ Ha). cbn [take first_diff]. destruct (Z.eqb_spec a c) as [->|Hne]; cbn [negb].
  - rewrite u16_small by lia. rewrite IH; try done; try lia.
    + do 3 f_equal. f_equal. lia.
    + apply load_Some. split; [done|]. intros k b Hk. specialize (Hy (S k) b Hk). rewrite <- Hy. f_equal. lia.
  - by rewrite u16_small by lia.
Qed.

Lemma memcmp_spec h p l d off s2 y :
  packet h p l d -> l <> [] -> bytes d -> 0 <= off < 65536 -> load (ram h) s2 (length y) = Some y ->
  pbuf_memcmp p off s2 (Z.of_nat (length y)) h
  = Some (if Z.of_nat (length d) <? off + Z.of_nat (length y) then 0xffff
          else first_diff 0 (take (length y) (drop (Z.to_nat off) d)) y).
Proof.
  intros Hp Hl Hb Ho Hy. destruct l as [|[a b] l]; [done|].
  destruct (packet_head _ _ _ _ _ _ Hp) as (-> & _ & Hb' & Et & Hlt). unfold pbuf_memcmp. rewrite Hb', Et.
  destruct (Z.ltb_spec (Z.of_nat (length d)) (off + Z.of_nat (length y))) as [|Hle]; [done|].
  pose proof Hp as [Hc Hw _]. pose proof (chain_fuel_enough _ _ _ Hc).
  destruct (skip_spec h _ (chain_fuel h) _ off Hc Hw) as (l1 & l2 & o & El & -> & -> & H0 & Hm); [lia|lia|].
  rewrite El in Hp. apply packet_suffix in Hp as [Hp Ht]. rewrite Nat2Z.id.
  rewrite (memcmp_loop_spec _ _ _ _ _ y o 0 Hp).
  - rewrite drop_drop. do 4 f_equal. lia.
  - by apply Forall_drop.
  - done.
  - done.
  - rewrite length_drop. lia.
  - rewrite length_drop. lia.
  - by rewrite Z.add_0_r.
Qed.

(** ** Searching *)

(** [r] is the first occurrence of [y] in [d] from [start] on, or 0xffff. *)
Definition found_at (d y : list Z) (start r : Z) : Prop :=
  let occurs i := i + Z.of_nat (length y) <= Z.of_nat (length d) /\ take (length y) (drop (Z.to_nat i) d) = y in
  (r = 0xffff /\ forall i, start <= i -> ~ occurs i) \/
  (start <= r /\ occurs r /\ forall i, start <= i < r -> ~ occurs i).

Lemma memfind_loop_spec h p l d s2 y : forall fuel i,
  packet h p l d -> l <> [] -> bytes d -> load (ram h) s2 (length y) = Some y ->
  0 <= i <= 65535 -> (Z.to_nat (Z.of_nat (length d) - Z.of_nat (length y) - i + 1) <= fuel)%nat ->
  (length y <= length d)%nat ->
  exists r, pbuf_memfind_loop fuel p s2 (Z.of_nat (length y)) i (Z.of_nat (length d) - Z.of_nat (length y)) h = Some r /\
    found_at d y i r.
Proof.
  induction fuel as [|fuel IH]; intros i Hp Hl Hb Hy Hi Hf Hlen; cbn [pbuf_memfind_loop];
    destruct (Z.leb_spec i (Z.of_nat (length d) - Z.of_nat (length y))) as [Hle|Hgt].
  - lia.
  - exists 0xffff. split; [done|]. left. split; [done|]. intros j Hj [Hb1 _]. lia.
  - rewrite (memcmp_spec _ _ _ _ _ _ _ Hp Hl Hb) by (done || lia). rewrite (proj2 (Z.ltb_ge _ _)) by lia.
    assert (length (take (length y) (drop (Z.to_nat i) d)) = length y) as El
      by (rewrite length_take, length_drop; lia).
    pose proof (first_diff_eq _ _ 0 ltac:(lia) El) as Hd.
    match goal with |- context [?x =? 0] => destruct (Z.eqb_spec x 0) as [E|E] end.
    + exists i. split; [done|]. right. split; [lia|]. split; [split; [lia|by apply Hd]|]. intros j Hj. lia.
    + assert (Z.of_nat (length d) < 65536) as Hd16.
      { destruct l as [|[a b] l]; [done|]. destruct (packet_head _ _ _ _ _ _ Hp) as (_ & _ & _ & Et & Hlt). lia. }
      assert (0 < length y)%nat as Hy0 by (destruct y; [destruct E; by apply Hd|cbn; lia]).
      rewrite u16_small by lia. destruct (IH (i + 1)) as (r & Er & Hr); try done; try lia.
      exists r. split; [done|]. destruct Hr as [[-> Hn]|(H1 & H2 & H3)].
      * left. split; [done|]. intros j Hj [Hj1 Hj2]. destruct (decide (j = i)) as [->|]; [by apply E, Hd|].
        apply (Hn j); [lia|done].
      * right. split; [lia|]. split; [done|]. intros j Hj [Hj1 Hj2].
        destruct (decide (j = i)) as [->|]; [by apply E, Hd|]. apply (H3 j); [lia|done].
  - exists 0xffff. split; [done|]. left. split; [done|]. intros j Hj [Hb1 _]. lia.
Qed.

Lemma memfind_spec h p l d s2 y start :
  packet h p l d -> l <> [] -> bytes d -> load (ram h) s2 (length y) = Some y -> 0 <= start < 65536 ->
  exists r, pbuf_memfind p s2 (Z.of_nat (length y)) start h = Some r /\ found_at d y start r.
Proof.
  intros Hp Hl Hb Hy Hs. unfold pbuf_memfind. destruct l as [|[a b] l]; [done|].
  destruct (packet_head _ _ _ _ _ _ Hp) as (-> & _ & Hb' & Et & Hlt). rewrite Hb', Et.
  destruct (Z.leb_spec (Z.of_nat (length y) + start) (Z.of_nat (length d))) as [Hle|Hgt].
  - rewrite u16_small by lia. eapply memfind_loop_spec; [done|done|done|done|lia|lia|lia].
  - exists 0xffff. split; [done|]. left. split; [done|]. intros j Hj [Hb1 _]. lia.
Qed.

Lemma strlen_spec m : forall y s fuel,
  load m s (length y) = Some y -> m !! (s + Z.of_nat (length y)) = Some 0 -> Forall (fun c => c <> 0) y ->
  (length y < fuel)%nat -> strlen fuel s m = Some (Z.of_nat (length y)).
Proof.
  induction y as [|c y IH]; intros s fuel Hy H0 Hn Hf; (destruct fuel as [|fuel]; [cbn in Hf; lia|]); cbn [strlen].
  - rewrite Z.add_0_r in H0. by rewrite H0.
  - apply load_Some in Hy as [_ Hy]. pose proof (Hy 0%nat c eq_refl) as Hc. rewrite Z.add_0_r in Hc. rewrite Hc.
    apply Forall_cons in Hn as [Hc0 Hn]. rewrite (proj2 (Z.eqb_neq c 0) Hc0). cbn [length] in *. rewrite IH.
    + f_equal. lia.
    + apply load_Some. split; [done|]. intros k b Hk. specialize (Hy (S k) b Hk). rewrite <- Hy. f_equal. lia.
    + rewrite <- H0. f_equal. lia.
    + done.
    + lia.
Qed.

(** ** Copying out *)

Lemma MEMCPY_spec dst src n x h :
  0 <= n -> load (ram h) src (Z.to_nat n) = Some x -> allocated (ram h) dst n ->
  MEMCPY dst src n h = Some (set_ram (write (ram h) dst x) h).
Proof.
  intros Hn Hx Ha. unfold MEMCPY. rewrite Hx. apply load_Some in Hx as [El _].
  rewrite store_allocated; [done|]. by replace (Z.of_nat (length x)) with n by lia.
Qed.

Lemma copy_partial_stop fuel p dst n off left d h :
  n = 0 \/ p = 0 /\ d = [] -> 0 <= n ->
  pbuf_copy_partial_loop fuel p dst n off left left h
  = Some (left + Z.of_nat (length (take (Z.to_nat n) (drop (Z.to_nat off) d))),
          set_ram (write (ram h) (dst + left) (take (Z.to_nat n) (drop (Z.to_nat off) d))) h).
Proof.
  intros Hs Hn. assert (take (Z.to_nat n) (drop (Z.to_nat off) d) = []) as ->.
  { destruct Hs as [->|[-> ->]]; [done|]. by rewrite drop_nil, take_nil. }
  assert ((n =? 0) || (p =? 0) = true) as E
    by (destruct Hs as [->|[-> ->]]; [done|]; by rewrite orb_true_r).
  rewrite Z.add_0_r. change (write (ram h) (dst + left) []) with (ram h).
  replace (set_ram (ram h) h) with h by (by destruct h). destruct fuel; cbn [pbuf_copy_partial_loop]; by rewrite E.
Qed.

Lemma copy_partial_loop_spec dst : forall l d fuel p n off left h,
  packet h p l d -> 0 <= n -> 0 <= off < 65536 -> 0 <= left -> left + n < 65536 ->
  allocated (ram h) (dst + left) n -> outside l (dst + left) n -> (length l <= fuel)%nat ->
  let x := take (Z.to_nat n) (drop (Z.to_nat off) d) in
  pbuf_copy_partial_loop fuel p dst n off left left h
  = Some (left + Z.of_nat (length x), set_ram (write (ram h) (dst + left) x) h).
Proof.
  induction l as [|[a b] l IH]; intros d fuel p n off left h [Hc Hw Hd] Hn Ho Hl Hln Ha Hout Hf x.
  - apply copy_partial_stop; [|done]. right. cbn in Hc, Hd. by simplify_eq.
  - destruct (decide (n = 0)) as [->|Hn0]; [by apply copy_partial_stop; auto|].
    destruct Hc as (-> & Hab & Hb & Hc), Hw as (H1 & H2 & H3 & Hw). destruct fuel as [|fuel]; [cbn in Hf; lia|].
    cbn [length] in Hf. cbn [contents] in Hd. destruct (load _ _ _) as [y|] eqn:Ey; [|done].
    destruct (contents (ram h) l) as [d'|] eqn:Ed; [|done]. injection Hd as <-.
    pose proof (load_Some (ram h) (payload b) (Z.to_nat (len b)) y) as [Hly _]. specialize (Hly Ey) as [Hly _].
    pose proof (wf_total _ Hw) as Hcl.
    destruct (outside_cons _ _ _ _ _ Hout) as [Hout' _].
    cbn [pbuf_copy_partial_loop]. rewrite (proj2 (Z.eqb_neq n 0)), (proj2 (Z.eqb_neq a 0)), Hb by done. cbn [orb].
    destruct (negb (off =? 0) && (len b <=? off)) eqn:Eskip.
    + apply andb_true_iff in Eskip as [_ Hlt]. apply Z.leb_le in Hlt. rewrite u16_small by lia.
      rewrite (IH d'); [|split; done|lia..|done|done|lia]. unfold x.
      rewrite drop_app_ge by lia. replace (Z.to_nat (off - len b)) with (Z.to_nat off - length y)%nat by lia. done.
    + assert (off <= len b) as Hoff.
      { apply andb_false_iff in Eskip as [E|E]; [apply negb_false_iff, Z.eqb_eq in E; lia|apply Z.leb_gt in E; lia]. }
      rewrite u16_small by lia. set (k := if n <? len b - off then n else len b - off).
      assert (k = Z.min n (len b - off)) as Ek by (unfold k; destruct (Z.ltb_spec n (len b - off)); lia). clearbody k.
      pose proof (load_sub _ _ _ _ (Z.to_nat off) (Z.to_nat k) Ey ltac:(lia)) as Ez. rewrite Z2Nat.id in Ez by lia.
      set (z := take (Z.to_nat k) (drop (Z.to_nat off) y)) in *.
      assert (Z.of_nat (length z) = k) as Elz by (unfold z; rewrite length_take, length_drop; lia).
      rewrite (MEMCPY_spec _ _ _ z); [|lia|done|eapply allocated_sub; [exact Ha|lia..]].
      assert (x = z ++ take (Z.to_nat (n - k)) d') as Ex.
      { unfold x, z. rewrite drop_app_le by lia. destruct (decide (n <= len b - off)).
        - replace k with n by lia. rewrite Z.sub_diag, take_app_le by (rewrite length_drop; lia). by rewrite app_nil_r.
        - rewrite take_app_ge by (rewrite length_drop; lia). rewrite length_drop.
          rewrite (take_ge (drop _ y)) by (rewrite length_drop; lia). do 2 f_equal. lia. }
      rewrite !u16_small by lia. rewrite (IH d'); cbn [ram set_ram]; try done; try lia.
      * rewrite Ex, write_app, length_app, drop_0. unfold set_ram. cbn [pbufs freed ram].
        do 2 f_equal; [lia|]. f_equal. f_equal. lia.
      * split; [by apply (chain_frame h)|done|]. cbn [ram set_ram]. rewrite contents_write; [done|done|]. eapply outside_sub; [exact Hout'|lia..].
      * apply allocated_write. eapply allocated_sub; [exact Ha|lia..].
      * eapply outside_sub; [exact Hout'|lia..].
Qed.

(** * Writing packets

    [pbuf_take], [pbuf_take_at], [pbuf_put_at] and [pbuf_copy] overwrite part of
    the byte string of a packet and nothing else, as long as the payloads of its
    pbufs do not overlap. *)

(** The payloads do not overlap. *)
Fixpoint apart (l : links) : Prop :=
  match l with
  | [] => True
  | (_, b) :: l => outside l (payload b) (len b) /\ apart l
  end.

Lemma apart_app l1 l2 : apart (l1 ++ l2) -> apart l2.
Proof. induction l1 as [|[a b] l1 IH]; cbn [app apart]; naive_solver. Qed.

(** [d] with [x] written at [k]. *)
Definition splice (d : list Z) (k : Z) (x : list Z) : list Z :=
  take (Z.to_nat k) d ++ x ++ drop (Z.to_nat k + length x) d.

Lemma load_allocated m a n x : load m a n = Some x -> allocated m a (Z.of_nat n).
Proof.
  intros H i Hi. apply load_Some in H as [El H].
  destruct (lookup_lt_is_Some_2 x (Z.to_nat (i - a))) as [b Hb]; [lia|]. exists b.
  rewrite <- (H _ _ Hb). f_equal. lia.
Qed.

(** Writing inside the first payload. *)
Lemma contents_write_head m a b l d k x :
  wf ((a, b) :: l) -> apart ((a, b) :: l) -> contents m ((a, b) :: l) = Some d ->
  0 <= k -> k + Z.of_nat (length x) <= len b ->
  contents (write m (payload b + k) x) ((a, b) :: l) = Some (splice d k x) /\
  contents (write m (payload b + k) x) l = contents m l.
Proof.
  intros (Hb & _ & _ & Hw) [Ho Ha] Hd Hk Hx. cbn [contents] in Hd |- *.
  destruct (load m (payload b) (Z.to_nat (len b))) as [y|] eqn:Ey; [|done].
  destruct (contents m l) as [d'|] eqn:Ed; [|done]. injection Hd as <-.
  assert (contents (write m (payload b + k) x) l = Some d') as Ed'.
  { rewrite contents_write; [done|done|]. eapply outside_sub; [exact Ho|lia..]. }
  rewrite Ed'. split; [|done]. pose proof (proj1 (load_Some _ _ _ _) Ey) as [Ely Hy].
  assert (load (write m (payload b + k) x) (payload b) (Z.to_nat (len b)) = Some (splice y k x)) as ->.
  { apply load_Some. unfold splice. split; [rewrite !length_app, length_take, length_drop; lia|].
    intros j c Hj. rewrite lookup_write. case_decide as Hin.
    - rewrite lookup_app_r in Hj by (rewrite length_take; lia). rewrite length_take in Hj.
      rewrite lookup_app_l in Hj by lia. rewrite <- Hj. f_equal. lia.
    - apply Hy. apply lookup_app_Some in Hj as [Hj|[Hj1 Hj]]; [by apply lookup_take_Some in Hj as [Hj _]|].
      rewrite length_take in Hj, Hj1. apply lookup_app_Some in Hj as [Hj|[Hj2 Hj]].
      + apply lookup_lt_Some in Hj. lia.
      + rewrite lookup_drop in Hj. rewrite <- Hj. f_equal. lia. }
  f_equal. unfold splice. rewrite take_app_le, drop_app_le by lia. by rewrite <- !app_assoc.
Qed.

(** ** Filling a packet *)

Lemma splice_step (d x y1 d1 : list Z) (k : nat) :
  k = Nat.min (length x) (length y1) -> y1 ++ d1 = splice d 0 (take k x) ->
  y1 ++ splice d1 0 (drop k x) = splice d 0 x.
Proof.
  unfold splice. intros Hk E. rewrite !take_0 in *. cbn [app Z.to_nat Nat.add] in *.
  rewrite length_take in E. rewrite length_drop. destruct (decide (length x <= length y1)%nat).
  - rewrite (drop_ge x) by lia. cbn [app]. rewrite take_ge in E by lia.
    replace (length x - k)%nat with 0%nat by lia. rewrite drop_0, E. do 2 f_equal. lia.
  - apply app_inj_1 in E as [-> ->]; [|rewrite length_take; lia].
    rewrite drop_drop, app_assoc, take_drop. do 2 f_equal. lia.
Qed.

Lemma take_loop_spec src : forall l d fuel p n cop h x,
  packet h p l d -> apart l -> 0 <= n <= chain_len l -> 0 <= cop -> cop + n < 65536 ->
  load (ram h) (src + cop) (Z.to_nat n) = Some x -> outside l (src + cop) n -> (length l <= fuel)%nat ->
  exists m, pbuf_take_loop fuel p src n cop h = Some (0, cop + n, set_ram m h) /\
    contents m l = Some (splice d 0 x) /\ forall i, ~ region l i -> m !! i = ram h !! i.
Proof.
  induction l as [|[a b] l IH]; intros d fuel p n cop h x [Hc Hw Hd] Ha Hn Hcop Hcn Hx Ho Hf;
    pose proof (proj1 (load_Some _ _ _ _) Hx) as [Elx _].
  1: assert (n = 0) as -> by (cbn in Hn; lia). 2: destruct (decide (n = 0)) as [->|Hn0].
  1,2: exists (ram h); destruct x; [|done]; replace (set_ram (ram h) h) with h by (by destruct h);
    rewrite Z.add_0_r; split; [by destruct fuel|split; [exact Hd|done]].
  destruct Hc as (-> & Hab & Hb & Hc). pose proof Hw as (H1 & H2 & H3 & Hw'). pose proof (wf_total _ Hw'). destruct fuel as [|fuel]; [cbn in Hf; lia|].
  cbn [pbuf_take_loop length] in *. rewrite (proj2 (Z.eqb_neq n 0)), (proj2 (Z.eqb_neq a 0)), Hb by done.
  set (k := if len b <? n then len b else n).
  assert (k = Z.min n (len b)) as Ek by (unfold k; destruct (Z.ltb_spec (len b) n); lia). clearbody k.
  pose proof (load_sub _ _ _ _ 0 (Z.to_nat k) Hx ltac:(lia)) as Hz. rewrite Z.add_0_r, drop_0 in Hz.
  set (z := take (Z.to_nat k) x) in *. assert (Z.of_nat (length z) = k) as Elz by (unfold z; rewrite length_take; lia).
  assert (allocated (ram h) (payload b) k) as Hal.
  { cbn [contents] in Hd. destruct (load (ram h) (payload b) _) as [y|] eqn:Ey; [|done].
    apply load_allocated in Ey. eapply allocated_sub; [exact Ey|lia..]. }
  rewrite (MEMCPY_spec _ _ _ z); [|lia|done|done]. rewrite !u16_small by lia.
  destruct (contents_write_head (ram h) a b l d 0 z) as [Ehd Etl]; [done|done|done|lia|lia|].
  rewrite Z.add_0_r in Ehd, Etl. cbn [chain_len] in Hn. destruct (outside_cons _ _ _ _ _ Ho) as [Ho' Hob].
  destruct Ha as [Hao Ha]. set (m1 := write (ram h) (payload b) z) in *.
  assert (forall i, ~ payload b <= i < payload b + len b -> m1 !! i = ram h !! i) as Hm1
    by (intros i Hi; unfold m1; apply lookup_write_outside; lia).
  cbn [contents] in Ehd. destruct (load m1 (payload b) _) as [y1|] eqn:Ey1; [|done].
  destruct (contents m1 l) as [d1|] eqn:Ed1; [|done]. injection Ehd as Ehd.
  pose proof (load_sub _ _ _ _ (Z.to_nat k) (Z.to_nat (n - k)) Hx ltac:(lia)) as Hx2. rewrite Z2Nat.id in Hx2 by lia.
  rewrite (take_ge (drop _ x)) in Hx2 by (rewrite length_drop; lia).
  destruct (IH d1 fuel (next b) (n - k) (cop + k) (set_ram m1 h) (drop (Z.to_nat k) x)) as (m & E & Em & Hm);
    cbn [ram set_ram].
  - split; [by apply (chain_frame h)|done|done].
  - done.
  - lia.
  - lia.
  - lia.
  - rewrite (load_ext (ram h)); [rewrite Z.add_assoc; exact Hx2|]. intros i Hi. apply Hm1, Hob. lia.
  - eapply outside_sub; [exact Ho'|lia..].
  - lia.
  - exists m. split; [rewrite E; unfold set_ram; cbn [pbufs freed]; do 3 f_equal; lia|]. split.
    + cbn [contents]. rewrite (load_ext m1), Ey1, Em.
      * f_equal. apply (splice_step d x y1 d1 (Z.to_nat k)); [|exact Ehd].
        apply load_Some in Ey1 as [-> _]. lia.
      * intros i Hi. apply Hm, Hao. lia.
    + intros i Hi. rewrite region_cons in Hi. rewrite Hm by tauto. apply Hm1. tauto.
Qed.

(** [m'] is [m] with writes to the payload of [l] only, which now holds [d]. *)
Definition rewritten (m : gmap Z Z) (l : links) (m' : gmap Z Z) (d : list Z) : Prop :=
  contents m' l = Some d /\ forall i, ~ region l i -> m' !! i = m !! i.

Lemma pbuf_take_spec h p l d src x :
  packet h p l d -> l <> [] -> apart l -> src <> 0 -> load (ram h) src (length x) = Some x ->
  outside l src (Z.of_nat (length x)) -> (length x <= length d)%nat ->
  exists m, pbuf_take p src (Z.of_nat (length x)) h = Some (ERR_OK, set_ram m h) /\ rewritten (ram h) l m (splice d 0 x).
Proof.
  intros Hp Hl Ha Hs Hx Ho Hle. destruct l as [|[a b] l]; [done|].
  destruct (packet_head _ _ _ _ _ _ Hp) as (-> & Ea & Hb & Et & Hlt). unfold pbuf_take.
  rewrite Ea, (proj2 (Z.eqb_neq src 0) Hs), Hb, Et. cbn [orb]. rewrite (proj2 (Z.leb_le _ _)) by lia. cbn [negb].
  pose proof (chain_fuel_enough _ _ _ (pk_chain _ _ _ _ Hp)).
  pose proof (contents_length _ _ _ (pk_wf _ _ _ _ Hp) (pk_data _ _ _ _ Hp)).
  destruct (take_loop_spec src _ d (chain_fuel h) a (Z.of_nat (length x)) 0 h x Hp Ha) as (m & E & Hm);
    [lia|lia|lia|by rewrite Z.add_0_r, Nat2Z.id|by rewrite Z.add_0_r|lia|].
  rewrite E. cbn [Z.eqb]. rewrite Z.eqb_refl. exists m. split; [done|exact Hm].
Qed.

Lemma apart_disjoint l1 l2 i : apart (l1 ++ l2) -> region l1 i -> ~ region l2 i.
Proof.
  induction l1 as [|[a b] l1 IH]; cbn [app apart]; intros H Hr.
  - destruct Hr as (a & b & Hin & _). set_solver.
  - destruct H as [Ho Ha]. apply region_cons in Hr as [Hi|Hr]; [|by apply IH].
    intros (a' & b' & Hin & Hi'). apply (Ho i Hi). exists a', b'. split; [set_solver|done].
Qed.

Lemma region_app l1 l2 i : region (l1 ++ l2) i <-> region l1 i \/ region l2 i.
Proof. unfold region. setoid_rewrite elem_of_app. naive_solver. Qed.

(** Writes to the pbufs of a suffix. *)
Lemma rewritten_suffix m l1 l2 d m' k x :
  wf (l1 ++ l2) -> apart (l1 ++ l2) -> contents m (l1 ++ l2) = Some d -> 0 <= k ->
  rewritten m l2 m' (splice (drop (Z.to_nat (chain_len l1)) d) k x) ->
  rewritten m (l1 ++ l2) m' (splice d (chain_len l1 + k) x).
Proof.
  intros Hw Ha Hd Hk [H1 H2]. pose proof (wf_total_l _ _ Hw) as Hl.
  pose proof (contents_length _ _ _ Hw Hd) as El. apply contents_app in Hd as (d1 & d2 & -> & Hd1 & Hd2).
  pose proof (contents_length _ _ _ (wf_app _ _ Hw) Hd2) as El2. rewrite length_app, chain_len_app in El.
  rewrite drop_app_length' in H1 by lia. split; [|intros i Hi; rewrite region_app in Hi; apply H2; tauto].
  apply contents_app. exists d1, (splice d2 k x). split; [|split; [|done]].
  - unfold splice. replace (Z.to_nat (chain_len l1 + k)) with (length d1 + Z.to_nat k)%nat by lia.
    rewrite take_app_add, <- Nat.add_assoc, drop_app_add. by rewrite <- app_assoc.
  - rewrite <- Hd1. clear -Hw Ha H2. induction l1 as [|[a b] l1 IH]; [done|].
    cbn [app wf apart contents] in *. destruct Hw as (H0 & _ & _ & Hw), Ha as [Ho Ha].
    rewrite (load_ext m m'), IH; [done|done|done|]. intros i Hi. apply H2. intros Hr.
    apply (Ho i); [lia|]. apply region_app. auto.
Qed.

Lemma splice_splice d k z w : 0 <= k -> k + Z.of_nat (length z) + Z.of_nat (length w) <= Z.of_nat (length d) ->
  splice (splice d k z) (k + Z.of_nat (length z)) w = splice d k (z ++ w).
Proof.
  intros Hk Hl. unfold splice. replace (Z.to_nat (k + Z.of_nat (length z))) with (Z.to_nat k + length z)%nat by lia.
  assert (length (take (Z.to_nat k) d) = Z.to_nat k) as Et by (rewrite length_take; lia).
  rewrite (app_assoc (take _ d) z), take_app_length' by (rewrite length_app; lia).
  rewrite drop_app_ge by (rewrite length_app; lia). rewrite length_app, Et, drop_drop, <- !app_assoc, length_app.
  do 4 f_equal. lia.
Qed.

Lemma rewritten_trans m l m1 d1 m2 d2 : rewritten m l m1 d1 -> rewritten m1 l m2 d2 -> rewritten m l m2 d2.
Proof. intros [_ H1] [H2 H3]. split; [done|]. intros i Hi. rewrite H3, H1; done. Qed.

(** Writing from an offset of the first pbuf on. *)
Lemma take_at_head h a b l d src x o :
  packet h a ((a, b) :: l) d -> apart ((a, b) :: l) -> 0 < src -> load (ram h) src (length x) = Some x ->
  outside ((a, b) :: l) src (Z.of_nat (length x)) -> 0 <= o < len b ->
  o + Z.of_nat (length x) <= Z.of_nat (length d) ->
  let k := u16 (Z.min (len b - o) (Z.of_nat (length x))) in
  let rest := u16 (Z.of_nat (length x) - k) in
  exists m, (let? h := MEMCPY (payload b + o) src k h in
             if 0 <? rest then pbuf_take (next b) (src + k) rest h else Some (ERR_OK, h))
            = Some (ERR_OK, set_ram m h) /\ rewritten (ram h) ((a, b) :: l) m (splice d o x).
Proof.
  intros Hp Ha Hs Hx Hout Ho Hle k rest. destruct (packet_head _ _ _ _ _ _ Hp) as (_ & _ & _ & Et & Hlt).
  pose proof Hp as [Hc Hw Hd]. pose proof Hw as (Hb0 & Etl & _ & Hw2). pose proof (wf_total _ Hw2).
  assert (k = Z.min (len b - o) (Z.of_nat (length x))) as Ek by (unfold k; rewrite u16_small; lia). clearbody k.
  assert (rest = Z.of_nat (length x) - k) as Er by (unfold rest; rewrite u16_small; lia). clearbody rest.
  pose proof (load_sub _ _ _ _ 0 (Z.to_nat k) Hx ltac:(lia)) as Hz. rewrite Z.add_0_r, drop_0 in Hz.
  set (z := take (Z.to_nat k) x) in *. assert (Z.of_nat (length z) = k) as Elz by (unfold z; rewrite length_take; lia).
  assert (allocated (ram h) (payload b + o) k) as Hal.
  { cbn [contents] in Hd. destruct (load (ram h) (payload b) _) as [y|] eqn:Ey; [|done].
    apply load_allocated in Ey. eapply allocated_sub; [exact Ey|lia..]. }
  rewrite (MEMCPY_spec _ _ _ z); [|lia|done|done].
  destruct (contents_write_head (ram h) a b l d o z) as [Ehd Etl']; [done|done|done|lia|lia|].
  set (m1 := write (ram h) (payload b + o) z) in *.
  assert (rewritten (ram h) ((a, b) :: l) m1 (splice d o z)) as Hm1.
  { split; [done|]. intros i Hi. rewrite region_cons in Hi. apply lookup_write_outside. lia. }
  destruct (Z.ltb_spec 0 rest) as [Hr|Hr].
  2: { exists m1. split; [done|]. unfold z in Hm1. rewrite take_ge in Hm1 by lia. done. }
  assert (exists d', contents (ram h) l = Some d' /\ drop (Z.to_nat (len b)) (splice d o z) = d') as (d' & Ed' & Edr).
  { cbn [contents] in Hd, Ehd. destruct (load (ram h) _ _) as [y|] eqn:Ey; [|done].
    destruct (load m1 _ _) as [y1|] eqn:Ey1; [|done]. rewrite Etl' in Ehd.
    destruct (contents (ram h) l) as [d'|]; [|done]. exists d'. split; [done|].
    injection Ehd as <-. apply load_Some in Ey1 as [Ey1 _]. by rewrite drop_app_length' by lia. }
  pose proof (contents_length _ _ _ Hw2 Ed') as Eld'. destruct (outside_cons _ _ _ _ _ Hout) as [Hout2 Hob].
  assert (o + Z.of_nat (length z) = chain_len [(a, b)] + 0) as Eoz by (cbn [chain_len]; lia).
  assert (Z.of_nat (length (drop (Z.to_nat k) x)) = rest) as Elr by (rewrite length_drop; lia).
  pose proof (load_sub _ _ _ _ (Z.to_nat k) (Z.to_nat rest) Hx ltac:(lia)) as Hx2. rewrite Z2Nat.id in Hx2 by lia.
  rewrite (take_ge (drop _ x)) in Hx2 by lia.
  destruct (pbuf_take_spec (set_ram m1 h) (next b) l d' (src + k) (drop (Z.to_nat k) x)) as (m & E & Hm).
  - split; [apply (chain_frame h); [apply Hc|done]|done|]. cbn [ram set_ram]. by rewrite Etl'.
  - intros ->. cbn in Etl. lia.
  - apply Ha.
  - lia.
  - replace (length (drop _ x)) with (Z.to_nat rest) by lia. cbn [ram set_ram]. rewrite (load_ext (ram h)); [done|].
    intros i Hi. apply Hm1. rewrite region_cons. intros [Hi'|Hi']; [apply (Hob i)|apply (Hout2 i)]; (done || lia).
  - rewrite Elr. eapply outside_sub; [exact Hout2|lia..].
  - lia.
  - rewrite Elr in E. exists m. split; [exact E|]. eapply rewritten_trans; [exact Hm1|].
    replace (splice d o x) with (splice (splice d o z) (chain_len [(a, b)] + 0) (drop (Z.to_nat k) x)).
    + apply (rewritten_suffix m1 [(a, b)] l); [done|done|done|lia|]. cbn [chain_len]. rewrite Z.add_0_r, Edr. exact Hm.
    + rewrite <- Eoz, splice_splice by lia. unfold z. by rewrite take_drop.
Qed.

Lemma take_at_spec h p l d src x off :
  packet h p l d -> apart l -> 0 < src -> load (ram h) src (length x) = Some x ->
  outside l src (Z.of_nat (length x)) -> 0 <= off < 65536 -> (length x < 65536)%nat ->
  if (off <? Z.of_nat (length d)) && (off + Z.of_nat (length x) <=? Z.of_nat (length d))
  then exists m, pbuf_take_at p src (Z.of_nat (length x)) off h = Some (ERR_OK, set_ram m h) /\
    rewritten (ram h) l m (splice d off x)
  else pbuf_take_at p src (Z.of_nat (length x)) off h = Some (ERR_MEM, h).
Proof.
  intros Hp Ha Hs Hx Ho Hoff Hx16. unfold pbuf_take_at, pbuf_skip, pbuf_skip_const. pose proof Hp as [Hc Hw Hd].
  pose proof (chain_fuel_enough _ _ _ Hc).
  destruct (skip_spec h l (chain_fuel h) p off Hc Hw Hoff) as (l1 & l2 & o & -> & -> & -> & H0 & Hm); [lia|].
  pose proof (packet_suffix _ _ _ _ _ Hp) as [Hp2 Hl1]. set (d2 := drop (Z.to_nat (chain_len l1)) d) in *.
  assert (Z.of_nat (length d) = chain_len l1 + Z.of_nat (length d2)) as Eld by (unfold d2; rewrite length_drop; lia).
  destruct l2 as [|[a b] l2]; cbn [head_addr] in *.
  { destruct Hp2 as [_ _ [= E2]]. rewrite <- E2 in Eld. cbn in Eld.
    rewrite (proj2 (Z.ltb_ge _ _)) by lia. done. }
  destruct (packet_head _ _ _ _ _ _ Hp2) as (_ & Ea & Hb & Et & Hlt). rewrite Ea, Hb, Et.
  pose proof (pk_wf _ _ _ _ Hp2) as (Hb0 & Etl & _ & Hw2). pose proof (wf_total _ Hw2).
  rewrite (proj2 (Z.ltb_lt (chain_len l1 + o) _)) by lia. cbn [andb].
  replace (chain_len l1 + o + Z.of_nat (length x) <=? Z.of_nat (length d))
    with (o + Z.of_nat (length x) <=? Z.of_nat (length d2)) by (case_cmp; lia).
  destruct (Z.leb_spec (o + Z.of_nat (length x)) (Z.of_nat (length d2))) as [Hle|Hgt]; [|done].
  destruct (take_at_head h a b l2 d2 src x o Hp2) as (m & E & Hr); try done; try lia.
  - by eapply apart_app.
  - intros i Hi Hr. apply (Ho i Hi), region_app. auto.
  - exists m. split; [exact E|]. apply rewritten_suffix; [done..|lia|done].
Qed.

Lemma put_at_spec h p l d off c :
  packet h p l d -> apart l -> 0 <= off < 65536 ->
  if off <? Z.of_nat (length d)
  then exists m, pbuf_put_at p off c h = Some (set_ram m h) /\ rewritten (ram h) l m (splice d off [c])
  else pbuf_put_at p off c h = Some h.
Proof.
  intros Hp Ha Hoff. unfold pbuf_put_at, pbuf_skip, pbuf_skip_const. pose proof Hp as [Hc Hw Hd].
  pose proof (chain_fuel_enough _ _ _ Hc).
  destruct (skip_spec h l (chain_fuel h) p off Hc Hw Hoff) as (l1 & l2 & o & -> & -> & -> & H0 & Hm); [lia|].
  pose proof (packet_suffix _ _ _ _ _ Hp) as [Hp2 Hl1]. set (d2 := drop (Z.to_nat (chain_len l1)) d) in *.
  assert (Z.of_nat (length d) = chain_len l1 + Z.of_nat (length d2)) as Eld by (unfold d2; rewrite length_drop; lia).
  destruct l2 as [|[a b] l2]; cbn [head_addr] in *.
  { destruct Hp2 as [_ _ [= E2]]. rewrite <- E2 in Eld. cbn in Eld. rewrite (proj2 (Z.ltb_ge _ _)) by lia. done. }
  destruct (packet_head _ _ _ _ _ _ Hp2) as (_ & Ea & Hb & Et & Hlt). rewrite Ea, Hb, (proj2 (Z.ltb_lt o _) Hm).
  pose proof Hp2 as [_ Hw2 Hd2]. pose proof Hw2 as (Hb0 & Etl & _ & Hw3). pose proof (wf_total _ Hw3).
  rewrite (proj2 (Z.ltb_lt (chain_len l1 + o) _)) by lia. apply apart_app in Ha as Ha2.
  destruct (contents_write_head (ram h) a b l2 d2 o [c]) as [Ehd _]; [done|done|done|lia|cbn; lia|].
  rewrite store_allocated.
  - eexists. split; [done|]. apply rewritten_suffix; [done..|]. split; [exact Ehd|].
    intros i Hi. rewrite region_cons in Hi. apply lookup_write_outside. cbn [length]. lia.
  - cbn [contents] in Hd2. destruct (load (ram h) (payload b) _) as [y|] eqn:Ey; [|done].
    apply load_allocated in Ey. eapply allocated_sub; [exact Ey|cbn [length]; lia..].
Qed.
