(* ===== verification/PbufCopy.v ===== *)
(** * Copying packet to packet

    [pbuf_copy] moves the bytes of one chain to the front of another, whatever
    the sizes of the pbufs on either side. *)

From Stdlib Require Import ZArith Lia.
From stdpp Require Import base gmap list numbers.
From S2P Require Import Prelude Pbuf PbufChain PbufReadWrite.
From stdpp Require Import sets list.
Import OptionNotations.

Local Open Scope Z_scope.

(** No empty pbufs: the code takes one at the end of a chain for a packet queue. *)
Definition nonempty (l : links) : Prop := Forall (fun ab => 0 < len (snd ab)) l.

(** An offset into the first pbuf. *)
Definition at_pos (l : links) (o : Z) : Prop :=
  match l with
  | [] => False
  | (_, b) :: _ => 0 <= o < len b
  end.

Lemma is_queue_false h p l : chain h p l -> wf l -> nonempty l -> is_queue p h = Some false.
Proof.
  intros Hc Hw Hn. unfold is_queue. destruct l as [|[a b] l]; [by rewrite Hc|].
  destruct Hc as (-> & Ha & Hb & Hc), Hw as (H0 & Ht & _ & Hw). rewrite (proj2 (Z.eqb_neq a 0) Ha), Hb. f_equal.
  destruct l as [|[a2 b2] l]; [rewrite Hc; apply andb_false_r|]. apply Forall_cons in Hn as [_ Hn].
  apply Forall_cons in Hn as [Hn _]. cbn [snd] in Hn. destruct Hw as (_ & _ & _ & Hw). apply wf_total in Hw.
  cbn [chain_len] in Ht. by rewrite (proj2 (Z.eqb_neq (len b) _)) by lia.
Qed.

Lemma chain_len_zero l : wf l -> nonempty l -> chain_len l = 0 -> l = [].
Proof.
  intros Hw Hn E. destruct l as [|[a b] l]; [done|]. apply Forall_cons in Hn as [Hn _].
  destruct Hw as (_ & _ & _ & Hw). apply wf_total in Hw. cbn in E, Hn. lia.
Qed.

Lemma head_zero h p l : chain h p l -> head_addr l = 0 -> l = [].
Proof. destruct l as [|[a b] l]; cbn; naive_solver. Qed.

(** Where a position goes when [n] more bytes of the first pbuf are done. *)
Definition advance (l : links) (o n : Z) : links * Z :=
  match l with
  | [] => (l, o)
  | (_, b) :: l' => if o + n =? len b then (l', 0) else (l, o + n)
  end.

Lemma advance_spec h p l d o n :
  packet h p l d -> at_pos l o -> nonempty l -> match l with [] => True | (_, b) :: _ => 0 <= n <= len b - o end ->
  let '(l', o') := advance l o n in
  exists pre, l = pre ++ l' /\ chain_len pre + o' = o + n /\ (l' = [] \/ at_pos l' o') /\ 0 <= o' /\ nonempty l' /\
    packet h (head_addr l') l' (drop (Z.to_nat (chain_len pre)) d) /\
    (length l' <= length l)%nat.
Proof.
  intros Hp Ho Hn Hk. destruct l as [|[a b] l]; [done|]. cbn [at_pos advance] in *.
  destruct (Z.eqb_spec (o + n) (len b)) as [E|E].
  - exists [(a, b)]. apply Forall_cons in Hn as [_ Hn]. cbn [chain_len app length].
    split; [done|]. split; [lia|]. split.
    { destruct l as [|[a2 b2] l]; [by left|]. right. apply Forall_cons in Hn as [Hn _]. cbn [snd] in Hn. cbn. lia. }
    split; [lia|]. split; [done|]. split; [apply (packet_suffix h p [(a, b)] l d Hp)|lia].
  - exists []. cbn [app chain_len Z.to_nat]. rewrite drop_0. split; [done|]. split; [lia|]. split; [right; cbn; lia|].
    split; [lia|]. split; [done|]. split; [|done]. destruct Hp as [Hc Hw Hd]. destruct Hc as (-> & Hc). by split.
Qed.

(** One round of the loop: bytes written, and both positions moved on. *)
Lemma copy_step h pt lt dt ot pf lf df fo n :
  packet h pt lt dt -> packet h pf lf df -> apart lt -> (forall i, region lf i -> ~ region lt i) ->
  at_pos lt ot -> at_pos lf fo ->
  match lt, lf with (_, bt) :: _, (_, bf) :: _ => n = Z.min (len bf - fo) (len bt - ot) | _, _ => True end ->
  match lt, lf with
  | (_, bt) :: _, (_, bf) :: _ =>
      exists m, MEMCPY (payload bt + ot) (payload bf + fo) n h = Some (set_ram m h) /\
        rewritten (ram h) lt m (splice dt ot (take (Z.to_nat n) (drop (Z.to_nat fo) df))) /\
        packet (set_ram m h) pt lt (splice dt ot (take (Z.to_nat n) (drop (Z.to_nat fo) df))) /\
        packet (set_ram m h) pf lf df
  | _, _ => False
  end.
Proof.
  intros Ht Hf Ha Hdj Hot Hof En. destruct lt as [|[at_ bt] lt]; [done|]. destruct lf as [|[af bf] lf]; [done|].
  cbn [at_pos] in *. pose proof Ht as [Hct Hwt Hdt]. pose proof Hf as [Hcf Hwf Hdf].
  pose proof Hdf as Hdf'. cbn [contents] in Hdf'. destruct (load (ram h) (payload bf) _) as [y|] eqn:Ey; [|done].
  destruct (contents (ram h) lf) as [df2|]; [|done]. injection Hdf' as <-.
  pose proof (proj1 (load_Some _ _ _ _) Ey) as [Ely _].
  pose proof (load_sub _ _ _ _ (Z.to_nat fo) (Z.to_nat n) Ey ltac:(lia)) as Ez. rewrite Z2Nat.id in Ez by lia.
  rewrite drop_app_le, take_app_le by (rewrite ?length_drop; lia).
  set (z := take (Z.to_nat n) (drop (Z.to_nat fo) y)) in *.
  assert (Z.of_nat (length z) = n) as Elz by (unfold z; rewrite length_take, length_drop; lia).
  assert (allocated (ram h) (payload bt + ot) n) as Hal.
  { pose proof Hdt as Hdt'. cbn [contents] in Hdt'. destruct (load (ram h) (payload bt) _) as [y'|] eqn:Ey'; [|done].
    apply load_allocated in Ey'. eapply allocated_sub; [exact Ey'|lia..]. }
  rewrite (MEMCPY_spec _ _ _ z); [|lia|done|done].
  destruct (contents_write_head (ram h) at_ bt lt dt ot z) as [Ehd _]; [done|done|done|lia|lia|].
  set (m := write (ram h) (payload bt + ot) z) in *.
  assert (rewritten (ram h) ((at_, bt) :: lt) m (splice dt ot z)) as Hm.
  { split; [done|]. intros i Hi. rewrite region_cons in Hi. apply lookup_write_outside. lia. }
  exists m. split; [done|]. split; [done|]. split.
  - split; [by apply (chain_frame h)|done|done].
  - split; [by apply (chain_frame h)|done|]. cbn [ram set_ram]. rewrite (contents_ext (ram h)); [done|done|].
    intros i Hi. apply Hm, Hdj. done.
Qed.

(** The control part of a round, once the bytes are moved. *)
Lemma copy_round h fuel pt lt dt ot pf lf df fo :
  packet h pt lt dt -> packet h pf lf df -> apart lt -> (forall i, region lf i -> ~ region lt i) ->
  nonempty lt -> nonempty lf -> at_pos lt ot -> at_pos lf fo ->
  Z.of_nat (length df) - fo <= Z.of_nat (length dt) - ot ->
  exists n m, 0 < n /\ let h1 := set_ram m h in let x := take (Z.to_nat n) (drop (Z.to_nat fo) df) in
    rewritten (ram h) lt m (splice dt ot x) /\ packet h1 pt lt (splice dt ot x) /\ packet h1 pf lf df /\
    Z.of_nat (length x) = n /\
    let '(lt', ot') := advance lt ot n in let '(lf', fo') := advance lf fo n in
    match lt, lf with (_, bt) :: _, (_, bf) :: _ => n <= len bf - fo /\ n <= len bt - ot | _, _ => False end /\
    (length lt' + length lf' < length lt + length lf)%nat /\
    pbuf_copy_loop (S fuel) pt pf ot fo h
    = (if head_addr lf' =? 0 then Some h1 else pbuf_copy_loop fuel (head_addr lt') (head_addr lf') ot' fo' h1).
Proof.
  intros Ht Hf Ha Hdj Hnt Hnf Hot Hfo Hle.
  destruct lt as [|[a bt] lt]; [done|]. destruct lf as [|[af bf] lf]; [done|].
  destruct (packet_head _ _ _ _ _ _ Ht) as (-> & Eat & Hbt & Ett & Ht16).
  destruct (packet_head _ _ _ _ _ _ Hf) as (-> & Eaf & Hbf & Etf & Hf16).
  set (n := Z.min (len bf - fo) (len bt - ot)).
  destruct (copy_step h a ((a, bt) :: lt) dt ot af ((af, bf) :: lf) df fo n) as (m & E & Hm & Ht1 & Hf1); try done.
  exists n, m. cbn [at_pos] in Hot, Hfo. split; [lia|]. intros h1 x.
  assert (Z.of_nat (length x) = n) as Elx.
  { unfold x. pose proof (pk_wf _ _ _ _ Hf) as (_ & H2 & _ & Hw). apply wf_total in Hw. rewrite length_take, length_drop. lia. }
  do 4 (split; [done|]).
  pose proof (pk_wf _ _ _ _ Ht) as (_ & Etl & _ & Hwt). pose proof (pk_wf _ _ _ _ Hf) as (_ & Efl & _ & Hwf).
  pose proof (wf_total _ Hwt). pose proof (wf_total _ Hwf).
  pose proof (advance_spec h1 a _ _ ot n Ht1 Hot Hnt ltac:(cbn; lia)) as At.
  pose proof (advance_spec h1 af _ _ fo n Hf1 Hfo Hnf ltac:(cbn; lia)) as Af.
  destruct (advance ((a, bt) :: lt) ot n) as [lt' ot'] eqn:Eadt.
  destruct (advance ((af, bf) :: lf) fo n) as [lf' fo'] eqn:Eadf.
  split; [lia|]. destruct At as (pret & _ & _ & _ & _ & Hnt' & Hpt' & _), Af as (pref & _ & _ & _ & _ & Hnf' & Hpf' & _).
  pose proof (is_queue_false _ _ _ (pk_chain _ _ _ _ Hpt') (pk_wf _ _ _ _ Hpt') Hnt') as Hqt.
  pose proof (is_queue_false _ _ _ (pk_chain _ _ _ _ Hpf') (pk_wf _ _ _ _ Hpf') Hnf') as Hqf.
  cbn [pbuf_copy_loop]. rewrite Hbt, Hbf.
  replace (if len bf - fo <=? len bt - ot then len bf - fo else len bt - ot) with n
    by (unfold n; destruct (Z.leb_spec (len bf - fo) (len bt - ot)); lia).
  rewrite (u16_small n) by lia. rewrite E. fold h1. rewrite !u16_small by lia.
  rewrite (proj2 (Z.leb_le (ot + n) _)), (proj2 (Z.leb_le (fo + n) _)) by lia. cbn [negb orb].
  cbn [advance] in Eadt, Eadf.
  pose proof (links_head _ _ _ (proj2 (proj2 (proj2 (pk_chain _ _ _ _ Ht))))) as Enbt.
  pose proof (links_head _ _ _ (proj2 (proj2 (proj2 (pk_chain _ _ _ _ Hf))))) as Enbf.
  assert (chain_len lf = 0 -> lf = []) as Hlf0 by (apply Forall_cons in Hnf as [_ Hnf]; by apply chain_len_zero).
  assert ((head_addr lt =? 0) = true -> chain_len lt = 0) as Hlt0.
  { intros E0. apply Z.eqb_eq in E0. by rewrite (head_zero _ _ _ (proj2 (proj2 (proj2 (pk_chain _ _ _ _ Ht)))) E0). }
  destruct (Z.eqb_spec (fo + n) (len bf)) as [Ef|Ef]; injection Eadf as <- <-;
    (destruct (Z.eqb_spec (ot + n) (len bt)) as [Et|Et]; injection Eadt as <- <-); cbn [head_addr length] in *.
  4: lia.
  1,2: rewrite (proj2 (Z.leb_le (len bf) _)) by lia. 3: rewrite (proj2 (Z.leb_gt (len bf) _)) by lia.
  all: split; [lia|]; rewrite ?Enbt, ?Enbf.
  - destruct (head_addr lt =? 0) eqn:E0; [rewrite (Hlf0 ltac:(specialize (Hlt0 eq_refl); lia)) in *|];
      cbn [head_addr] in *; cbn [andb negb Z.eqb].
    all: by rewrite Hqf, Hqt.
  - by rewrite Hqf, Hqt.
  - destruct (head_addr lt =? 0) eqn:E0; [specialize (Hlt0 eq_refl); lia|]. cbn [andb]. by rewrite Hqf, Hqt.
Qed.

Lemma at_pos_pos l o : at_pos l o -> 0 <= o.
Proof. destruct l as [|[? ?] ?]; cbn; lia. Qed.

Lemma at_pos_len h p l d o : packet h p l d -> at_pos l o -> o < Z.of_nat (length d).
Proof.
  destruct l as [|[a b] l]; [done|]. intros Hp Ho. destruct (packet_head _ _ _ _ _ _ Hp) as (_ & _ & _ & E & _).
  pose proof (pk_wf _ _ _ _ Hp) as (_ & E2 & _ & Hw). apply wf_total in Hw. cbn in Ho. lia.
Qed.

Lemma packet_nil h p d : packet h p [] d -> d = [].
Proof. intros [_ _ [= <-]]. done. Qed.

Lemma length_splice d k x : 0 <= k -> k + Z.of_nat (length x) <= Z.of_nat (length d) -> length (splice d k x) = length d.
Proof. intros. unfold splice. rewrite !length_app, length_take, length_drop. lia. Qed.

Lemma copy_loop_spec : forall fuel h pt lt dt ot pf lf df fo,
  packet h pt lt dt -> packet h pf lf df -> apart lt -> (forall i, region lf i -> ~ region lt i) ->
  nonempty lt -> nonempty lf -> at_pos lt ot -> at_pos lf fo ->
  Z.of_nat (length df) - fo <= Z.of_nat (length dt) - ot -> (length lt + length lf <= fuel)%nat ->
  exists m, pbuf_copy_loop fuel pt pf ot fo h = Some (set_ram m h) /\
    rewritten (ram h) lt m (splice dt ot (drop (Z.to_nat fo) df)).
Proof.
  induction fuel as [|fuel IH]; intros h pt lt dt ot pf lf df fo Ht Hf Ha Hdj Hnt Hnf Hot Hfo Hle Hfu.
  { destruct lt; [done|]. cbn in Hfu. lia. }
  destruct (copy_round h fuel pt lt dt ot pf lf df fo) as (n & m & Hn & Hm & Ht1 & Hf1 & Elx & H); try done.
  set (h1 := set_ram m h) in *. set (x := take (Z.to_nat n) (drop (Z.to_nat fo) df)) in *.
  pose proof (fun H => advance_spec h1 pt lt _ ot n Ht1 Hot Hnt H) as At.
  pose proof (fun H => advance_spec h1 pf lf _ fo n Hf1 Hfo Hnf H) as Af.
  destruct (advance lt ot n) as [lt' ot'], (advance lf fo n) as [lf' fo'].
  destruct H as (Hrange & Hdec & ->).
  destruct At as (pret & Elt & Eot & Hpost & Hot' & Hnt' & Hpt' & _);
    [destruct lt as [|[? ?] ?]; [done|]; destruct lf as [|[? ?] ?]; [done|]; lia|].
  destruct Af as (pref & Elf & Efo & Hposf & Hfo' & Hnf' & Hpf' & _);
    [destruct lf as [|[? ?] ?]; [done|]; destruct lt as [|[? ?] ?]; [done|]; lia|].
   rewrite Elf in Hf1. pose proof (packet_suffix _ _ _ _ _ Hf1) as [_ Hlpf].
  rewrite Elt in Ht1. pose proof (packet_suffix _ _ _ _ _ Ht1) as [_ Hlpt].
  pose proof (at_pos_len _ _ _ _ _ Ht Hot). pose proof (at_pos_len _ _ _ _ _ Hf Hfo).
  assert (n <= Z.of_nat (length df) - fo) as Hnf2 by (rewrite <- Elx; unfold x; rewrite length_take, length_drop; lia).
  pose proof (at_pos_pos _ _ Hot). pose proof (at_pos_pos _ _ Hfo).
  rewrite length_splice in Hlpt by lia.
  destruct (Z.eqb_spec (head_addr lf') 0) as [E0|E0].
  - apply (head_zero _ _ _ (pk_chain _ _ _ _ Hpf')) in E0. subst lf'.
    pose proof (packet_nil _ _ _ Hpf') as Ed. apply (f_equal length) in Ed. rewrite length_drop in Ed. cbn in Ed.
    assert (x = drop (Z.to_nat fo) df) as Ex.
    { unfold x. apply take_ge. rewrite length_drop. lia. }
    exists m. split; [done|]. by rewrite <- Ex.
  - assert (lf' <> []) as Hlf' by (by intros ->). destruct Hposf as [|Hposf]; [done|].
    pose proof (at_pos_len _ _ _ _ _ Hpf' Hposf) as Hfl. rewrite length_drop in Hfl.
    assert (lt' <> []) as Hlt'.
    { intros ->. apply packet_nil in Hpt'. apply (f_equal length) in Hpt'. rewrite length_drop, length_splice in Hpt' by lia.
      cbn in Hpt'. lia. }
    destruct Hpost as [|Hpost]; [done|]. subst lt lf.
    destruct (IH h1 (head_addr lt') lt' _ ot' (head_addr lf') lf' _ fo' Hpt' Hpf') as (m2 & E2 & Hm2); try done.
    + by eapply apart_app.
    + intros i Hi Hi'. apply (Hdj i); apply region_app; auto.
    + rewrite !length_drop, length_splice by lia. lia.
    + lia.
    + exists m2. rewrite E2. split; [done|]. eapply rewritten_trans; [exact Hm|].
      apply rewritten_suffix in Hm2; [|apply Ht1|done|apply Ht1|done].
      rewrite Eot, drop_drop, <- Elx, splice_splice in Hm2 by (rewrite ?length_drop; lia).
      replace (Z.to_nat (chain_len pref) + Z.to_nat fo')%nat with (Z.to_nat fo + Z.to_nat n)%nat in Hm2 by lia.
      unfold x in Hm2. by rewrite <- drop_drop, take_drop in Hm2.
Qed.

Lemma copy_spec (h : heap) (pt pf : Z) (lt lf : links) (dt df : list Z) :
  packet h pt lt dt -> packet h pf lf df -> lt <> [] -> lf <> [] -> lt.*1 ## lf.*1 -> apart lt ->
  (forall i, region lf i -> ~ region lt i) -> nonempty lt -> nonempty lf -> (length df <= length dt)%nat ->
  exists m, pbuf_copy pt pf h = Some (ERR_OK, set_ram m h) /\ rewritten (ram h) lt m (splice dt 0 df).
Proof.
  intros Ht Hf Hlt Hlf Hdj Ha Hr Hnt Hnf Hle. unfold pbuf_copy.
  pose proof (chain_fuel_enough _ _ _ (pk_chain _ _ _ _ Ht)). pose proof (chain_fuel_enough _ _ _ (pk_chain _ _ _ _ Hf)).
  destruct lt as [|[a bt] lt]; [done|]. destruct lf as [|[af bf] lf]; [done|].
  destruct (packet_head _ _ _ _ _ _ Ht) as (-> & -> & Hbt & Ett & _).
  destruct (packet_head _ _ _ _ _ _ Hf) as (-> & -> & Hbf & Etf & _). cbn [orb].
  rewrite Hbt, Hbf, (proj2 (Z.leb_le _ _)) by lia. cbn [negb].
  destruct (copy_loop_spec (2 * chain_fuel h) h a ((a, bt) :: lt) dt 0 af ((af, bf) :: lf) df 0) as (m & E & Hm);
    try done; try lia.
  - apply Forall_cons in Hnt as [Hn _]. cbn in Hn |- *. lia.
  - apply Forall_cons in Hnf as [Hn _]. cbn in Hn |- *. lia.
  - rewrite E. by exists m.
Qed.

(** * Joining, referencing and releasing packets

    [pbuf_cat] and [pbuf_chain] concatenate the byte strings, [pbuf_dechain]
    takes a chained tail off again, [pbuf_free] gives back exactly the pbufs
    nothing else refers to, and [pbuf_header] hides and reveals bytes at the
    front. *)

(** ** Concatenation *)

(** The pbufs of [l] after [t], a packet of [n] bytes, has been appended. *)
Fixpoint joined (l : links) (t n : Z) : links :=
  match l with
  | [] => []
  | (a, b) :: l =>
      (a, let b := set_tot_len (tot_len b + n) b in match l with [] => set_next t b | _ => b end) :: joined l t n
  end.

Lemma joined_addrs l t n : (joined l t n).*1 = l.*1.
Proof. induction l as [|[a b] l IH]; [done|]. cbn [joined fmap list_fmap fst]. by rewrite IH. Qed.

Lemma joined_contents m l t n : contents m (joined l t n) = contents m l.
Proof.
  induction l as [|[a b] l IH]; [done|]. cbn [joined contents]. rewrite IH. by destruct l.
Qed.

Lemma joined_wf l l2 t : wf l -> wf l2 -> chain_len l + chain_len l2 < 65536 ->
  wf (joined l t (chain_len l2) ++ l2) /\ chain_len (joined l t (chain_len l2)) = chain_len l.
Proof.
  intros Hw H2 Hlt. pose proof (wf_total _ H2). induction l as [|[a b] l IH]; [done|]. cbn [joined app wf chain_len] in *.
  destruct Hw as (H0 & H1 & H3 & Hw). pose proof (wf_total _ Hw). destruct IH as [IH1 IH2]; [done|lia|].
  rewrite chain_len_app, IH2. destruct l; cbn [len tot_len set_next set_tot_len]; rewrite u16_small by lia;
    (split; [|cbn; lia]); repeat split; try done; lia.
Qed.

Lemma joined_chain h' l l2 t n p h :
  chain h p l -> l <> [] -> (forall a b, (a, b) ∈ joined l t n -> pbufs h' !! a = Some b) -> chain h' t l2 ->
  chain h' p (joined l t n ++ l2).
Proof.
  revert p. induction l as [|[a b] l IH]; intros p Hc Hl Hj H2; [done|]. destruct Hc as (-> & Ha & _ & Hc).
  cbn [joined app chain] in *. split; [done|]. split; [done|]. split; [apply Hj; set_solver|].
  destruct l as [|ab l]; [exact H2|]. apply IH; [exact Hc|done| |done]. intros x y Hin. apply Hj. set_solver.
Qed.

Lemma cat_loop_spec t bt : forall l fuel p h,
  chain h p l -> wf l -> l <> [] -> pbufs h !! t = Some bt -> t ∉ l.*1 -> (length l <= fuel)%nat ->
  pbuf_cat_loop fuel p t h
  = Some (Heap (list_to_map (joined l t (tot_len bt)) ∪ pbufs h) (ram h) (freed h)).
Proof.
  induction l as [|[a b] l IH]; intros fuel p h Hc Hw Hl Ht Hn Hf; [done|]. pose proof (chain_nodup _ _ _ Hc) as Hnd.
  destruct Hc as (-> & Ha & Hb & Hc), Hw as (H0 & H1 & H2 & Hw). destruct fuel as [|fuel]; [cbn in Hf; lia|].
  cbn [pbuf_cat_loop length] in *. rewrite Hb, Ht. cbn [fmap list_fmap fst] in Hn, Hnd. apply NoDup_cons in Hnd as [Hna Hnd].
  destruct l as [|[a2 b2] l].
  - cbn in Hc. rewrite Hc. cbn [Z.eqb negb]. cbn [chain_len] in H1. rewrite (proj2 (Z.eqb_eq _ _)) by lia. cbn [negb].
    unfold alter_pbuf. rewrite Hb. cbn [pbufs]. rewrite lookup_insert_eq. cbn [pbufs ram freed joined list_to_map foldr].
    f_equal. f_equal. rewrite insert_insert_eq. rewrite <- insert_union_l, (left_id_L ∅ _). done.
  - assert ((next b =? 0) = false) as -> by (destruct Hc as (-> & Ha2 & _); by apply Z.eqb_neq). cbn [negb].
    unfold alter_pbuf at 1. rewrite Hb. rewrite IH.
    + cbn [pbufs ram freed]. set (n := tot_len bt). set (l' := (a2, b2) :: l) in *.
      change (joined ((a, b) :: l') t n) with ((a, set_tot_len (tot_len b + n) b) :: joined l' t n).
      cbn [list_to_map foldr fst snd]. f_equal. f_equal. rewrite <- insert_union_l, insert_union_r; [done|].
      apply not_elem_of_list_to_map_1. by rewrite joined_addrs.
    + apply (chain_frame h); [exact Hc|]. intros x y Hin. cbn [pbufs]. rewrite lookup_insert_ne; [done|].
      intros <-. apply Hna. apply list_elem_of_fmap. by exists (a, y).
    + done.
    + done.
    + cbn [pbufs]. rewrite lookup_insert_ne; [done|]. set_solver.
    + set_solver.
    + lia.
Qed.

(** The heap after appending the packet [l2] at [t] to the chain [l1]. *)
Definition cat_heap (l1 l2 : links) (t : Z) (h : heap) : heap :=
  Heap (list_to_map (joined l1 t (chain_len l2)) ∪ pbufs h) (ram h) (freed h).

Lemma cat_heap_other l1 l2 t h a : a ∉ l1.*1 -> pbufs (cat_heap l1 l2 t h) !! a = pbufs h !! a.
Proof.
  intros Ha. unfold cat_heap. cbn [pbufs]. rewrite lookup_union_r; [done|].
  apply not_elem_of_list_to_map_1. by rewrite joined_addrs.
Qed.

Lemma cat_spec h p l1 d1 t l2 d2 :
  packet h p l1 d1 -> packet h t l2 d2 -> l1 <> [] -> l2 <> [] -> l1.*1 ## l2.*1 ->
  (length d1 + length d2 < Z.to_nat 65536)%nat ->
  pbuf_cat p t h = Some (cat_heap l1 l2 t h) /\
  packet (cat_heap l1 l2 t h) p (joined l1 t (chain_len l2) ++ l2) (d1 ++ d2).
Proof.
  intros Hp1 Hp2 Hl1 Hl2 Hdj Hlen. pose proof Hp1 as [Hc1 Hw1 Hd1]. pose proof Hp2 as [Hc2 Hw2 Hd2].
  pose proof (contents_length _ _ _ Hw1 Hd1). pose proof (contents_length _ _ _ Hw2 Hd2) as El2.
  destruct l2 as [|[t' bt] l2]; [done|]. destruct (packet_head _ _ _ _ _ _ Hp2) as (-> & Et & Hbt & Ett & _).
  set (l2' := (t', bt) :: l2) in *.
  assert ((p =? 0) = false) as Ep.
  { destruct l1 as [|[a b] l1]; [done|]. by destruct (packet_head _ _ _ _ _ _ Hp1) as (-> & -> & _). }
  assert (t' ∉ l1.*1) as Hnt by (unfold l2' in Hdj; clear -Hdj; set_solver).
  split.
  - unfold pbuf_cat. rewrite Ep, Et. cbn [orb].
    rewrite (cat_loop_spec t' bt l1); try done; [|by apply Nat.lt_le_incl, (chain_fuel_enough _ p)].
    unfold cat_heap. by rewrite Ett, El2.
  - split.
    + eapply joined_chain; [exact Hc1|done| |].
      * intros a b Hin. unfold cat_heap. cbn [pbufs]. apply lookup_union_Some_l, elem_of_list_to_map_1; [|done].
        rewrite joined_addrs. by eapply chain_nodup.
      * apply (chain_frame h); [exact Hc2|]. intros a b Hin. apply cat_heap_other.
        intros Ha. apply (Hdj a Ha). apply list_elem_of_fmap. by exists (a, b).
    + apply joined_wf; [done|done|lia].
    + apply contents_app. exists d1, d2. by rewrite joined_contents.
Qed.

(** ** Reference counts *)

Definition has_ref (k : Z) (ab : Z * pbuf) : Prop := ref (snd ab) = k.

(** What releasing the chain [l1 ++ l2] leaves: the pbufs of [l1] are gone and
    the first of [l2] has lost a reference. *)
Definition released (h : heap) (l1 l2 : links) (h' : heap) : Prop :=
  ram h' = ram h /\ freed h' = freed h ++ map (fun ab => (fst ab, dealloc_of (snd ab))) l1 /\
  forall a, pbufs h' !! a =
    if decide (a ∈ l1.*1) then None
    else match l2 with
         | (a', b) :: _ => if decide (a = a') then Some (set_ref (ref b - 1) b) else pbufs h !! a
         | [] => pbufs h !! a
         end.

Lemma free_loop_spec : forall l fuel p count h,
  chain h p l -> Forall (fun ab => 1 <= ref (snd ab) < 65536) l -> (length l <= fuel)%nat ->
  exists l1 l2 h', l = l1 ++ l2 /\ Forall (has_ref 1) l1 /\ match l2 with [] => True | ab :: _ => ~ has_ref 1 ab end /\
    pbuf_free_loop fuel p count h = Some (match l1 with [] => count | _ => u8 (count + Z.of_nat (length l1)) end, h') /\
    released h l1 l2 h'.
Proof.
  induction l as [|[a b] l IH]; intros fuel p count h Hc Hr Hf.
  - cbn in Hc. subst p. exists [], [], h. split; [done|]. split; [constructor|]. split; [done|].
    split; [by destruct fuel|]. split; [done|]. split; [by rewrite app_nil_r|]. intros a. by rewrite decide_False by set_solver.
  - pose proof (chain_nodup _ _ _ Hc) as Hnd. destruct Hc as (-> & Ha & Hb & Hc). destruct fuel as [|fuel]; [cbn in Hf; lia|].
    apply Forall_cons in Hr as [Hrb Hr]. cbn [snd] in Hrb. cbn [pbuf_free_loop length] in *.
    rewrite (proj2 (Z.eqb_neq a 0) Ha), Hb, (proj2 (Z.ltb_lt 0 _)) by lia. cbn [negb].
    unfold alter_pbuf. rewrite Hb. rewrite u16_small by lia.
    destruct (Z.eqb_spec (ref b - 1) 0) as [E|E].
    + set (h1 := release a (dealloc_of b) _).
      cbn [fmap list_fmap fst] in Hnd. apply NoDup_cons in Hnd as [Hna Hnd].
      assert (pbufs h1 = delete a (pbufs h)) as Eh1 by (unfold h1, release; cbn [pbufs]; by rewrite delete_insert_eq).
      destruct (IH fuel (next b) (u8 (count + 1)) h1) as (l1 & l2 & h' & -> & H1 & H2 & E' & Hm & Hfr & Hlk); [|done|lia|].
      { apply (chain_frame h); [exact Hc|]. intros x y Hin. rewrite Eh1. apply lookup_delete_ne.
        intros <-. apply Hna, list_elem_of_fmap. by exists (a, y). }
      exists ((a, b) :: l1), l2, h'. split; [done|].
      split; [constructor; [unfold has_ref; cbn; lia|done]|]. split; [done|]. split; [|split; [|split]].
      * rewrite E'. f_equal. f_equal. destruct l1; [f_equal; cbn; lia|]. unfold u8. rewrite wrap_add_l. f_equal. cbn [length]. lia.
      * rewrite Hm. done.
      * rewrite Hfr. cbn [map fst snd]. unfold h1. cbn [release freed]. by rewrite <- app_assoc.
      * intros x. rewrite Hlk, Eh1. rewrite fmap_app in Hna. change (((a, b) :: l1).*1) with (a :: l1.*1).
        destruct (decide (x = a)) as [->|Hx].
        -- rewrite (decide_True (P := a ∈ a :: _)) by set_solver. rewrite decide_False by set_solver.
           rewrite lookup_delete_eq. destruct l2 as [|[a2 b2] l2]; [done|]. rewrite decide_False; [done|].
           cbn [fmap list_fmap fst] in Hna. set_solver.
        -- rewrite (decide_ext (x ∈ l1.*1) (x ∈ a :: l1.*1)) by set_solver. rewrite lookup_delete_ne by done. done.
    + exists [], ((a, b) :: l). eexists. split; [done|]. split; [constructor|]. split; [unfold has_ref; cbn; lia|].
      split; [done|]. split; [done|]. split; [by rewrite app_nil_r|]. intros x. rewrite decide_False by set_solver.
      cbn [pbufs]. destruct (decide (x = a)) as [->|Hx]; [by rewrite lookup_insert_eq|by rewrite lookup_insert_ne].
Qed.

(** The packet [(a, b)] with the packet at [t] chained to it. *)
Lemma chain_one h a b d t bt l2 d2 :
  packet h a [(a, b)] d -> packet h t ((t, bt) :: l2) d2 -> a ∉ ((t, bt) :: l2).*1 ->
  (length d + length d2 < Z.to_nat 65536)%nat -> 1 <= ref bt < 65535 ->
  let n := chain_len ((t, bt) :: l2) in
  pbuf_chain a t h
  = Some (Heap (<[t := set_ref (ref bt + 1) bt]> (<[a := set_next t (set_tot_len (tot_len b + n) b)]> (pbufs h)))
            (ram h) (freed h)).
Proof.
  intros Hp Ht Hna Hlen Hr n. unfold pbuf_chain.
  destruct (cat_spec _ _ _ _ _ _ _ Hp Ht) as [-> _]; [done|done| |done|].
  { intros x Hx Hx2. cbn in Hx. apply list_elem_of_singleton in Hx as ->. done. }
  unfold pbuf_ref. destruct (packet_head _ _ _ _ _ _ Ht) as (_ & -> & Hbt & _).
  assert (t ∉ [(a, b)].*1) as Hta by (clear -Hna; cbn; set_solver).
  rewrite cat_heap_other, Hbt by done. unfold alter_pbuf. rewrite cat_heap_other, Hbt by done.
  rewrite u16_small by lia. rewrite (proj2 (Z.ltb_lt 0 _)) by lia. unfold cat_heap. cbn [pbufs ram freed].
  f_equal. f_equal. f_equal. fold n. cbn [joined list_to_map foldr fst snd].
  by rewrite <- insert_union_l, (left_id_L ∅ _).
Qed.

Lemma chained_packet h a b d t bt l2 d2 :
  packet h a [(a, b)] d -> packet h t ((t, bt) :: l2) d2 -> a ∉ ((t, bt) :: l2).*1 ->
  (length d + length d2 < Z.to_nat 65536)%nat ->
  let b' := set_next t (set_tot_len (tot_len b + tot_len bt) b) in
  let bt' := set_ref (ref bt + 1) bt in
  packet (Heap (<[t := bt']> (<[a := b']> (pbufs h))) (ram h) (freed h)) a ((a, b') :: (t, bt') :: l2) (d ++ d2).
Proof.
  intros Hp Ht Hna Hlen b' bt'. pose proof (chain_nodup _ _ _ (pk_chain _ _ _ _ Ht)) as Hnd.
  destruct Hp as [(_ & Ha & Hb & Hnb) (H0 & H1 & H2 & _) Hd], Ht as [(_ & Ht0 & Hbt & Hc) Hwt Hd2].
  pose proof (contents_length _ _ _ Hwt Hd2) as El2. destruct Hwt as (Ht1 & Ht2 & Ht3 & Hwt). pose proof (wf_total _ Hwt).
  cbn [chain_len fmap list_fmap fst] in *. apply NoDup_cons in Hnd as [Htn Hnd].
  assert (a <> t /\ a ∉ l2.*1) as [Hat Hal2] by (clear -Hna; set_solver).
  assert (Z.of_nat (length d) = len b) as Eld.
  { cbn [contents] in Hd. destruct (load _ _ _) as [x|] eqn:E; [|done]. injection Hd as <-.
    apply load_Some in E as [E _]. rewrite app_nil_r. lia. }
  split.
  - cbn [chain pbufs]. rewrite lookup_insert_ne, !lookup_insert_eq by done. do 6 (split; [done|]).
    apply (chain_frame h); [exact Hc|]. intros x y Hin. cbn [pbufs].
    assert (x ∈ l2.*1) as Hx by (apply list_elem_of_fmap; by exists (x, y)).
    rewrite !lookup_insert_ne; [done|clear -Hx Hal2; set_solver|clear -Hx Htn; set_solver].
  - cbn [wf chain_len b' bt' set_next set_tot_len set_ref len tot_len]. rewrite u16_small by lia. repeat split; try done; lia.
  - cbn [contents] in Hd, Hd2. cbn [contents ram b' bt' set_next set_tot_len set_ref len payload].
    destruct (load (ram h) (payload b) _) as [x|]; [|done]. injection Hd as <-.
    destruct (load (ram h) (payload bt) _) as [y|]; [|done]. destruct (contents (ram h) l2) as [z|]; [|done].
    injection Hd2 as <-. by rewrite app_nil_r.
Qed.

Lemma dechain_one h a b t bt :
  a <> t -> t <> 0 -> next b = 0 -> tot_len b = len b -> 0 <= len b -> is_u 16 (tot_len bt) ->
  pbufs h !! a = Some b -> pbufs h !! t = Some bt -> len b + tot_len bt < 65536 -> 1 <= ref bt < 65535 ->
  let m := <[t := set_ref (ref bt + 1) bt]> (<[a := set_next t (set_tot_len (tot_len b + tot_len bt) b)]> (pbufs h)) in
  pbuf_dechain a (Heap m (ram h) (freed h)) = Some (t, h).
Proof.
  intros Hat Ht Hnb Htl Hl Hu Hb Hbt Hlt Hr m. unfold is_u in Hu. unfold pbuf_dechain, alter_pbuf, pbuf_free. cbn [pbufs].
  assert (m !! a = Some (set_next t (set_tot_len (tot_len b + tot_len bt) b))) as Ema
    by (unfold m; rewrite lookup_insert_ne by done; by rewrite lookup_insert_eq).
  assert (m !! t = Some (set_ref (ref bt + 1) bt)) as Emt by (unfold m; by rewrite lookup_insert_eq).
  rewrite Ema. cbn [next set_next]. rewrite (proj2 (Z.eqb_neq t 0) Ht). cbn [negb]. rewrite Emt.
  cbn [tot_len len set_next set_tot_len set_ref]. rewrite (u16_small (tot_len b + tot_len bt)) by lia.
  rewrite (proj2 (Z.eqb_eq (tot_len bt) _)) by lia. cbn [negb pbufs].
  rewrite lookup_insert_ne, Ema by done. cbn [pbufs]. rewrite lookup_insert_eq. cbn [pbufs ram freed].
  rewrite insert_insert_eq. set (m' := <[a := _]> (<[t := _]> m)).
  assert (m' !! t = Some (set_ref (ref bt + 1) bt)) as Emt'.
  { unfold m'. rewrite lookup_insert_ne, lookup_insert_eq by done. f_equal. unfold set_tot_len, set_ref. cbn.
    f_equal. rewrite u16_small; lia. }
  unfold chain_fuel. cbn [pbuf_free_loop pbufs]. rewrite (proj2 (Z.eqb_neq t 0) Ht), Emt'. cbn [ref set_ref].
  rewrite (u16_small (ref bt + 1)) by lia. rewrite (proj2 (Z.ltb_lt 0 _)) by lia. cbn [negb].
  unfold alter_pbuf. cbn [pbufs]. rewrite Emt'. replace (ref bt + 1 - 1) with (ref bt) by lia.
  rewrite (u16_small (ref bt)) by lia. rewrite (proj2 (Z.eqb_neq (ref bt) 0)) by lia. cbn [Z.ltb Z.compare].
  f_equal. f_equal. destruct h as [hp hr hf]. cbn [pbufs ram freed] in *. f_equal.
  unfold m'. rewrite (insert_insert_ne _ t a), insert_insert_eq by done. unfold m.
  assert (set_tot_len (len b) (set_next 0 (set_next t (set_tot_len (tot_len b + tot_len bt) b))) = b) as ->.
  { destruct b. unfold set_tot_len, set_next. cbn in *. f_equal; [done|rewrite u16_small; lia]. }
  assert (set_ref (ref bt) (set_ref (ref bt + 1) bt) = bt) as ->
    by (destruct bt; unfold set_ref; cbn in *; f_equal; rewrite u16_small; lia).
  apply map_eq. intros i. destruct (decide (i = a)) as [->|]; [by rewrite lookup_insert_eq|].
  rewrite lookup_insert_ne by done. destruct (decide (i = t)) as [->|]; [by rewrite lookup_insert_eq|].
  by rewrite !lookup_insert_ne by done.
Qed.

(** ** Headers *)

(** Moving the payload pointer of the first pbuf by [k] bytes. *)
Definition moved (k : Z) (b : pbuf) : pbuf :=
  Pbuf (next b) (payload b + k) (tot_len b - k) (len b - k) (type b) (flags b) (ref b).

Definition moved_heap (p k : Z) (b : pbuf) (h : heap) : heap :=
  Heap (<[p := moved k b]> (pbufs h)) (ram h) (freed h).

Lemma header_adjust p b k h :
  pbufs h !! p = Some b -> 0 <= len b - k < 65536 -> 0 <= tot_len b - k < 65536 ->
  (let? h := alter_pbuf p (set_payload (payload b + k)) h in
   let? h := alter_pbuf p (set_len (len b - k)) h in
   let? h := alter_pbuf p (set_tot_len (tot_len b - k)) h in Some (0, h)) = Some (0, moved_heap p k b h).
Proof.
  intros Hb H1 H2. unfold alter_pbuf. rewrite Hb. cbn [pbufs]. rewrite lookup_insert_eq. cbn [pbufs].
  rewrite lookup_insert_eq. cbn [pbufs ram freed]. rewrite !insert_insert_eq. unfold moved_heap. do 4 f_equal.
  unfold set_tot_len, set_len, set_payload, moved. cbn. by rewrite !u16_small.
Qed.

(** Hiding the first [k] bytes, which must be in the first pbuf. *)
Lemma header_hide h p b l d k :
  packet h p ((p, b) :: l) d -> 0 < k <= 32768 -> k <= len b ->
  (type b = PBUF_RAM \/ type b = PBUF_POOL -> p + SIZEOF_STRUCT_PBUF <= payload b) ->
  pbuf_header p (- k) h = Some (0, moved_heap p k b h) /\
  packet (moved_heap p k b h) p ((p, moved k b) :: l) (drop (Z.to_nat k) d).
Proof.
  intros Hp Hk Hle Hpl. destruct (packet_head _ _ _ _ _ _ Hp) as (_ & Ep & Hb & Et & Hlt).
  pose proof Hp as [Hc Hw Hd]. pose proof (chain_nodup _ _ _ Hc) as Hnd. destruct Hc as (_ & Hp0 & _ & Hc).
  pose proof Hw as (H0 & Etl & _ & Hw'). pose proof (wf_total _ Hw'). split.
  - unfold pbuf_header, pbuf_header_impl. rewrite Ep, Hb, (proj2 (Z.eqb_neq (- k) 0)) by lia.
    rewrite (proj2 (Z.ltb_lt (- k) 0)), Z.opp_involutive, u16_small by lia.
    rewrite (proj2 (Z.leb_le _ _) Hle). cbn [andb negb]. rewrite Z.sub_opp_r, !Z.add_opp_r.
    rewrite (header_adjust p b k h Hb) by lia.
    destruct (type b); [|done|done|]; rewrite (proj2 (Z.ltb_ge _ _)); try done; specialize (Hpl ltac:(auto)); lia.
  - split.
    + cbn [chain moved_heap pbufs]. rewrite lookup_insert_eq. do 3 (split; [done|]). apply (chain_frame h); [exact Hc|].
      intros x y Hin. unfold moved_heap. cbn [pbufs]. rewrite lookup_insert_ne; [done|]. intros <-. cbn [fmap list_fmap fst] in Hnd.
      apply NoDup_cons in Hnd as [Hnd _]. apply Hnd, list_elem_of_fmap. by exists (p, y).
    + cbn [wf moved len tot_len]. repeat split; try done; lia.
    + cbn [contents moved_heap ram moved payload len] in *. destruct (load (ram h) _ _) as [y|] eqn:Ey; [|done].
      destruct (contents (ram h) l) as [d'|]; [|done]. injection Hd as <-.
      pose proof (proj1 (load_Some _ _ _ _) Ey) as [Ely _].
      pose proof (load_sub _ _ _ _ (Z.to_nat k) (Z.to_nat (len b - k)) Ey ltac:(lia)) as E. rewrite Z2Nat.id in E by lia.
      rewrite E, take_ge by (rewrite length_drop; lia). by rewrite drop_app_le by lia.
Qed.

(** Revealing them again. *)
Lemma header_reveal h p b k :
  pbufs h !! p = Some b -> p <> 0 -> 0 < k <= 32767 -> k <= len b <= tot_len b -> tot_len b < 65536 ->
  type b = PBUF_RAM \/ type b = PBUF_POOL -> p + SIZEOF_STRUCT_PBUF <= payload b ->
  pbuf_header p k (moved_heap p k b h) = Some (0, h).
Proof.
  intros Hb Hp Hk Hl Ht Hty Hpl. unfold pbuf_header, pbuf_header_impl. cbn [moved_heap pbufs].
  rewrite (proj2 (Z.eqb_neq p 0) Hp), (proj2 (Z.eqb_neq k 0)), lookup_insert_eq by lia.
  rewrite (proj2 (Z.ltb_ge k 0)) by lia. cbn [andb moved type payload len tot_len].
  rewrite (proj2 (Z.ltb_ge (payload b + k - k) _)) by lia.
  assert (pbufs (moved_heap p k b h) !! p = Some (moved k b)) as Em by apply lookup_insert_eq.
  pose proof (header_adjust p (moved k b) (- k) _ Em ltac:(cbn; lia) ltac:(cbn; lia)) as E.
  cbn [moved payload len tot_len] in E. rewrite Z.add_opp_r, !Z.sub_opp_r in E.
  assert (moved_heap p (- k) (moved k b) (moved_heap p k b h) = h) as Eh.
  { destruct h as [hp hr hf], b. unfold moved_heap, moved. cbn in *. f_equal. rewrite insert_insert_eq.
    apply insert_id. rewrite Hb. do 2 f_equal; lia. }
  fold (moved k b) in E. rewrite Eh in E. by destruct Hty as [-> | ->].
Qed.
