(* ===== verification/PbufTheorems.v ===== *)
(** * Properties of the packet buffers *)

From Stdlib Require Import ZArith Lia.
From stdpp Require Import base gmap list numbers.
From S2P Require Import Prelude Pbuf PbufChain PbufReadWrite PbufCopy.
From stdpp Require Import sets list.
Import OptionNotations.

Local Open Scope Z_scope.

(** Reading a packet does not depend on how it is cut into pbufs.  Copying [n]
    bytes from an offset writes exactly the bytes of the packet from that offset
    on, as many as there are up to [n], to the destination and returns their
    number; a byte at an offset is that byte of the packet, and zero after its
    end; the chain length is counted modulo 65536. *)
Theorem pbuf_reads (h : heap) (p : Z) (l : links) (d : list Z) (dst n off : Z) :
  packet h p l d -> l <> [] -> bytes d -> is_u 16 n -> is_u 16 off -> dst <> 0 ->
  allocated (ram h) dst n -> outside l dst n ->
  let x := take (Z.to_nat n) (drop (Z.to_nat off) d) in
  pbuf_copy_partial p dst n off h = Some (Z.of_nat (length x), set_ram (write (ram h) dst x) h) /\
  pbuf_get_at p off h = Some (default 0 (d !! Z.to_nat off)) /\
  pbuf_clen p h = Some (u16 (Z.of_nat (length l))).
Proof.
  intros Hp Hl Hb Hn Ho Hd Ha Hout x. unfold is_u in *. pose proof (chain_fuel_enough _ _ _ (pk_chain _ _ _ _ Hp)).
  split; [|split; [by eapply get_spec; eauto|]].
  - unfold pbuf_copy_partial.
    assert ((p =? 0) = false) as -> by (destruct l as [|[a b] l]; [done|]; by destruct (packet_head _ _ _ _ _ _ Hp) as (-> & -> & _)).
    rewrite (proj2 (Z.eqb_neq dst 0) Hd). cbn [orb].
    rewrite (copy_partial_loop_spec dst l d); rewrite ?Z.add_0_r; try done; lia.
  - unfold pbuf_clen. rewrite (clen_loop_spec h l) by (apply Hp || lia). by destruct l.
Qed.

(** Searching a packet is searching its bytes: the comparison returns zero
    exactly for equal strings and otherwise one more than the position of the
    first difference, or 0xffff when the packet is too short, and both searches
    return the first occurrence of the string, or 0xffff when there is none. *)
Theorem pbuf_search (h : heap) (p : Z) (l : links) (d : list Z) (s2 : Z) (y : list Z) (start : Z) :
  packet h p l d -> l <> [] -> bytes d -> load (ram h) s2 (length y) = Some y -> is_u 16 start ->
  pbuf_memcmp p start s2 (Z.of_nat (length y)) h
    = Some (if Z.of_nat (length d) <? start + Z.of_nat (length y) then 0xffff
            else first_diff 0 (take (length y) (drop (Z.to_nat start) d)) y) /\
  (exists r, pbuf_memfind p s2 (Z.of_nat (length y)) start h = Some r /\ found_at d y start r) /\
  (s2 <> 0 -> ram h !! (s2 + Z.of_nat (length y)) = Some 0 -> Forall (fun c => c <> 0) y ->
   (length y < Z.to_nat 65535)%nat -> y <> [] -> Z.of_nat (length d) <> 0xffff ->
   exists r, pbuf_strstr p s2 h = Some r /\ found_at d y 0 r).
Proof.
  intros Hp Hl Hb Hy Hs. unfold is_u in Hs.
  split; [by eapply memcmp_spec|]. split; [by eapply memfind_spec|]. intros H0 Hz Hn Hlen Hne Hd. unfold pbuf_strstr.
  rewrite (proj2 (Z.eqb_neq s2 0) H0). destruct y as [|c y]; [done|].
  pose proof (proj1 (load_Some _ _ _ _) Hy) as [_ Hy0]. specialize (Hy0 0%nat c eq_refl). rewrite Z.add_0_r in Hy0. rewrite Hy0.
  rewrite (proj2 (Z.eqb_neq c 0)) by (by apply Forall_cons in Hn as [Hc _]).
  destruct l as [|[a b] l]; [done|]. destruct (packet_head _ _ _ _ _ _ Hp) as (-> & _ & Hb' & Et & _). rewrite Hb', Et.
  rewrite (proj2 (Z.eqb_neq _ _) Hd), (strlen_spec (ram h) (c :: y)) by (done || lia).
  rewrite (proj2 (Z.leb_gt _ _)), u16_small by lia. by eapply memfind_spec.
Qed.

(** Writing at an offset overwrites exactly those bytes of the packet and
    changes memory nowhere else; a write that does not fit is refused with
    [ERR_MEM] (a byte beyond the end is dropped) and changes nothing. *)
Theorem pbuf_writes (h : heap) (p : Z) (l : links) (d : list Z) (src : Z) (x : list Z) (off c : Z) :
  packet h p l d -> apart l -> 0 < src -> load (ram h) src (length x) = Some x ->
  outside l src (Z.of_nat (length x)) -> is_u 16 off -> (length x < Z.to_nat 65536)%nat ->
  (if (off <? Z.of_nat (length d)) && (off + Z.of_nat (length x) <=? Z.of_nat (length d))
   then exists m, pbuf_take_at p src (Z.of_nat (length x)) off h = Some (ERR_OK, set_ram m h) /\
     rewritten (ram h) l m (splice d off x)
   else pbuf_take_at p src (Z.of_nat (length x)) off h = Some (ERR_MEM, h)) /\
  (if off <? Z.of_nat (length d)
   then exists m, pbuf_put_at p off c h = Some (set_ram m h) /\ rewritten (ram h) l m (splice d off [c])
   else pbuf_put_at p off c h = Some h).
Proof.
  intros Hp Ha Hs Hx Ho Hoff Hlen. split; [apply take_at_spec|apply put_at_spec]; done || lia.
Qed.

(** Copying a packet to another one that is at least as long puts its bytes at
    the front of the other, leaves the rest of it and all other memory alone and
    does not halt, whatever the sizes of the pbufs on either side, as long as no
    pbuf is empty. *)
Theorem pbuf_copies (h : heap) (pt pf : Z) (lt lf : links) (dt df : list Z) :
  packet h pt lt dt -> packet h pf lf df -> lt <> [] -> lf <> [] -> lt.*1 ## lf.*1 -> apart lt ->
  (forall i, region lf i -> ~ region lt i) -> nonempty lt -> nonempty lf -> (length df <= length dt)%nat ->
  exists m, pbuf_copy pt pf h = Some (ERR_OK, set_ram m h) /\ rewritten (ram h) lt m (splice dt 0 df).
Proof.
  apply copy_spec.
Qed.

(** Chaining a packet to a pbuf concatenates their bytes and adds a reference
    to the tail, and dechaining gives the tail back and restores the heap as it
    was before. *)
Theorem pbuf_chain_dechain (h : heap) (a t : Z) (b bt : pbuf) (l2 : links) (d d2 : list Z) :
  packet h a [(a, b)] d -> packet h t ((t, bt) :: l2) d2 -> a ∉ ((t, bt) :: l2).*1 ->
  (length d + length d2 < Z.to_nat 65536)%nat -> 1 <= ref bt < 65535 ->
  exists h1 l1, pbuf_chain a t h = Some h1 /\ l1.*1 = a :: t :: l2.*1 /\ packet h1 a l1 (d ++ d2) /\
    pbuf_dechain a h1 = Some (t, h).
Proof.
  intros Hp Ht Hna Hlen Hr. destruct (packet_head _ _ _ _ _ _ Ht) as (_ & Et0 & Hbt & Ett & Ht16).
  destruct (packet_head _ _ _ _ _ _ Hp) as (_ & Ea0 & Hb & Eta & _).
  pose proof Ht as [_ Hwt Hdt]. pose proof (contents_length _ _ _ Hwt Hdt) as Elt.
  pose proof Hp as [(_ & _ & _ & Hnb) (Hlb & Etb & _) _]. cbn [chain_len] in Etb.
  exists (Heap (<[t := set_ref (ref bt + 1) bt]>
    (<[a := set_next t (set_tot_len (tot_len b + chain_len ((t, bt) :: l2)) b)]> (pbufs h))) (ram h) (freed h)).
  eexists. split; [by eapply chain_one|]. rewrite <- Elt, <- Ett. split; [|split].
  3: { apply dechain_one; try done; try lia; [clear -Hna; set_solver|unfold is_u; lia]. }
  2: { apply (chained_packet h a b d t bt l2 d2); done. }
  done.
Qed.

(** Releasing a chain gives back exactly the leading pbufs that nothing else
    refers to, each to the pool or heap of its type, takes one reference from the
    first that is still in use, and returns their number modulo 256; no other
    pbuf and no payload changes. *)
Theorem pbuf_free_exact (h : heap) (p : Z) (l : links) :
  chain h p l -> l <> [] -> Forall (fun ab => 1 <= ref (snd ab) < 65536) l ->
  exists l1 l2 h', l = l1 ++ l2 /\ Forall (has_ref 1) l1 /\ match l2 with [] => True | ab :: _ => ~ has_ref 1 ab end /\
    pbuf_free p h = Some (u8 (Z.of_nat (length l1)), h') /\ released h l1 l2 h'.
Proof.
  intros Hc Hl Hr. pose proof (chain_fuel_enough _ _ _ Hc).
  destruct (free_loop_spec l (chain_fuel h) p 0 h Hc Hr) as (l1 & l2 & h' & E & H1 & H2 & Ef & Hrel); [lia|].
  exists l1, l2, h'. split; [done|]. split; [done|]. split; [done|]. split; [|done]. unfold pbuf_free.
  destruct l as [|[a b] l]; [done|]. destruct Hc as (-> & Ha & _). rewrite (proj2 (Z.eqb_neq a 0) Ha), Ef. by destruct l1.
Qed.

(** Hiding bytes at the front and revealing them again is the identity. *)
Theorem pbuf_header_roundtrip (h : heap) (p : Z) (b : pbuf) (l : links) (d : list Z) (k : Z) :
  packet h p ((p, b) :: l) d -> 0 < k <= 32767 -> k <= len b -> type b = PBUF_RAM \/ type b = PBUF_POOL ->
  p + SIZEOF_STRUCT_PBUF <= payload b ->
  exists h1 l1, pbuf_header p (- k) h = Some (0, h1) /\ packet h1 p l1 (drop (Z.to_nat k) d) /\
    pbuf_header p k h1 = Some (0, h).
Proof.
  intros Hp Hk Hl Hty Hpl. destruct (packet_head _ _ _ _ _ _ Hp) as (_ & Ep & Hb & Et & Ht).
  pose proof (pk_wf _ _ _ _ Hp) as (_ & E2 & _ & Hw). apply wf_total in Hw.
  destruct (header_hide h p b l d k Hp) as [E Hp1]; [lia|done|done|].
  eexists _, _. split; [exact E|]. split; [exact Hp1|]. apply header_reveal; done || lia.
Qed.

(** ** Witnesses *)

(** A packet of five bytes in two pbufs at 100 and 200, one of six at 300 and
    400, and a buffer at 500. *)
Definition sample : heap :=
  Heap (list_to_map
          [(100, Pbuf 200 116 5 3 PBUF_RAM 0 1); (200, Pbuf 0 216 2 2 PBUF_POOL 0 2);
           (300, Pbuf 400 316 6 4 PBUF_POOL 0 1); (400, Pbuf 0 416 2 2 PBUF_POOL 0 1); (600, Pbuf 0 616 1 1 PBUF_RAM 0 1)])
    (write (write (write (write (write (write ∅ 116 [1; 2; 3]) 216 [4; 5]) 316 [11; 12; 13; 14]) 416 [15; 16])
       500 [3; 4; 0; 9; 9; 9]) 616 [7]) [].

Definition five : links := [(100, Pbuf 200 116 5 3 PBUF_RAM 0 1); (200, Pbuf 0 216 2 2 PBUF_POOL 0 2)].
Definition six : links := [(300, Pbuf 400 316 6 4 PBUF_POOL 0 1); (400, Pbuf 0 416 2 2 PBUF_POOL 0 1)].

Lemma five_packet : packet sample 100 five [1; 2; 3; 4; 5].
Proof. split; [repeat split; by vm_compute|cbn; lia|by vm_compute]. Defined.

Lemma six_packet : packet sample 300 six [11; 12; 13; 14; 15; 16].
Proof. split; [repeat split; by vm_compute|cbn; lia|by vm_compute]. Defined.

Lemma outside_five a n : 218 <= a \/ a + n <= 116 -> outside five a n.
Proof. intros Ha i Hi. unfold five. rewrite !region_cons. cbn. intros [|[|(? & ? & Hin & _)]]; [lia|lia|set_solver]. Qed.

Lemma five_apart : apart five.
Proof. split; [|split; [|done]]; intros i Hi; rewrite ?region_cons; cbn in *; [intros [|(? & ? & Hin & _)]; [lia|set_solver]|intros (? & ? & Hin & _); set_solver]. Qed.

Lemma pbuf_reads_witness :
  pbuf_copy_partial 100 500 3 1 sample = Some (3, set_ram (write (ram sample) 500 [2; 3; 4]) sample).
Proof.
  apply (pbuf_reads sample 100 five [1; 2; 3; 4; 5] 500 3 1 five_packet);
    [done|repeat constructor; done|done|done|done| |apply outside_five; lia].
  apply (allocatedb_spec (ram sample) 500 3). by vm_compute.
Defined.

Lemma pbuf_search_witness :
  exists r, pbuf_strstr 100 500 sample = Some r /\ found_at [1; 2; 3; 4; 5] [3; 4] 0 r.
Proof.
  apply (pbuf_search sample 100 five [1; 2; 3; 4; 5] 500 [3; 4] 0 five_packet);
    [done|repeat constructor; done|by vm_compute|done|done|by vm_compute|repeat constructor; done|cbn; lia|done|done].
Defined.

Lemma pbuf_writes_witness :
  exists m, pbuf_take_at 100 500 3 2 sample = Some (ERR_OK, set_ram m sample) /\
    rewritten (ram sample) five m [1; 2; 3; 4; 0].
Proof.
  apply (pbuf_writes sample 100 five [1; 2; 3; 4; 5] 500 [3; 4; 0] 2 7 five_packet five_apart);
    [lia|by vm_compute|apply outside_five; lia|done|cbn; lia].
Defined.

Lemma pbuf_copies_witness :
  exists m, pbuf_copy 300 100 sample = Some (ERR_OK, set_ram m sample) /\
    rewritten (ram sample) six m [1; 2; 3; 4; 5; 16].
Proof.
  apply (pbuf_copies sample 300 100 six five [11; 12; 13; 14; 15; 16] [1; 2; 3; 4; 5] six_packet five_packet); try done.
  - vm_compute. set_solver.
  - split; [|split; [|done]]; intros i Hi; rewrite ?region_cons; cbn in *;
      [intros [|(? & ? & Hin & _)]; [lia|set_solver]|intros (? & ? & Hin & _); set_solver].
  - intros i Hi. unfold five in Hi. rewrite !region_cons in Hi. unfold six. rewrite !region_cons. cbn in *.
    destruct Hi as [Hi|[Hi|(? & ? & Hin & _)]]; [..|set_solver]; (intros [|[|(? & ? & Hin & _)]]; [lia|lia|set_solver]).
  - by repeat constructor.
  - by repeat constructor.
  - cbn. lia.
Defined.

Lemma pbuf_chain_dechain_witness :
  exists h1, pbuf_chain 600 300 sample = Some h1 /\ pbuf_dechain 600 h1 = Some (300, sample).
Proof.
  destruct (pbuf_chain_dechain sample 600 300 (Pbuf 0 616 1 1 PBUF_RAM 0 1) (Pbuf 400 316 6 4 PBUF_POOL 0 1)
    [(400, Pbuf 0 416 2 2 PBUF_POOL 0 1)] [7] [11; 12; 13; 14; 15; 16]) as (h1 & l1 & H1 & _ & _ & H2).
  - split; [repeat split; by vm_compute|cbn; lia|by vm_compute].
  - exact six_packet.
  - cbn. set_solver.
  - cbn. lia.
  - cbn. lia.
  - exists h1. split; [exact H1|exact H2].
Defined.

Lemma pbuf_free_exact_witness :
  exists l1 l2 h', five = l1 ++ l2 /\ pbuf_free 100 sample = Some (u8 (Z.of_nat (length l1)), h') /\ released sample l1 l2 h'.
Proof.
  destruct (pbuf_free_exact sample 100 five (pk_chain _ _ _ _ five_packet)) as (l1 & l2 & h' & E & _ & _ & Ef & Hr).
  - done.
  - repeat constructor; cbn; lia.
  - exists l1, l2, h'. split; [exact E|]. split; [exact Ef|exact Hr].
Defined.
