(* ===== verification/PbufAlloc.v ===== *)
(** * Allocating packet buffers

    [pbuf_alloc], [pbuf_realloc], [pbuf_coalesce] and the receive routine of the
    Ethernet interface, on top of an allocator.  The allocator is an interface:
    the operations of [mem.c] and [memp.c] that [pbuf.c] calls, and what it relies
    on.  A state is the heap of pbufs, the allocator, and the request for freeing
    out-of-sequence segments that is queued when the pool is empty. *)

From Stdlib Require Import ZArith Lia.
From stdpp Require Import base gmap list numbers.
From S2P Require Import Prelude LwipMem Pbuf PbufChain.
From stdpp Require Import sets list.
Import OptionNotations.

Local Open Scope Z_scope.

(** ** The allocator *)

(** Of the pools only [MEMP_PBUF] and [MEMP_PBUF_POOL] are used here. *)
Class allocator (A : Type) := {
  memp_malloc : dealloc -> A -> option (Z * A);
  memp_free : dealloc -> Z -> A -> option A;
  mem_malloc : Z -> A -> option (Z * A);
  mem_free : Z -> A -> option A;
  mem_trim : Z -> Z -> A -> option (Z * A)
}.

Definition PBUF_POOL_BUFSIZE : Z := LWIP_MEM_ALIGN_SIZE (536 + 40 + 0 + 14).
Definition PBUF_POOL_BUFSIZE_ALIGNED : Z := LWIP_MEM_ALIGN_SIZE PBUF_POOL_BUFSIZE.

#[global] Instance dealloc_eq_dec : EqDecision dealloc.
Proof. solve_decision. Defined.

(** The size of an element of a pool. *)
Definition element_size (d : dealloc) : Z :=
  match d with
  | MEMP_PBUF_POOL => SIZEOF_STRUCT_PBUF + PBUF_POOL_BUFSIZE_ALIGNED
  | _ => SIZEOF_STRUCT_PBUF
  end.

Definition is_pool (d : dealloc) : Prop := d = MEMP_PBUF_POOL \/ d = MEMP_PBUF.

(** What has been handed out: where it comes from and its size. *)
Abbreviation grants := (gmap Z (dealloc * Z)).

(** [arena] are the addresses of the memory the allocator manages. *)
Class allocator_laws (A : Type) `{allocator A} := {
  arena : Z -> Prop;
  al_ok : A -> grants -> Prop;
  al_region a R p d n : al_ok a R -> R !! p = Some (d, n) ->
    0 < p /\ p mod 4 = 0 /\ 0 < n < 65536 /\ p + n < 2 ^ 32 /\ forall i, p <= i < p + n -> arena i;
  al_disjoint a R p q d e n k : al_ok a R -> R !! p = Some (d, n) -> R !! q = Some (e, k) -> p <> q -> p + n <= q \/ q + k <= p;
  al_memp_malloc a R d : al_ok a R -> is_pool d -> exists p a', memp_malloc d a = Some (p, a') /\
    ((p = 0 /\ al_ok a' R) \/ (p <> 0 /\ R !! p = None /\ al_ok a' (<[p := (d, element_size d)]> R)));
  al_memp_free a R d p n : al_ok a R -> is_pool d -> R !! p = Some (d, n) ->
    exists a', memp_free d p a = Some a' /\ al_ok a' (delete p R);
  al_mem_malloc a R n : al_ok a R -> 0 < n < 65533 -> exists p a', mem_malloc n a = Some (p, a') /\
    ((p = 0 /\ al_ok a' R) \/ (p <> 0 /\ R !! p = None /\ al_ok a' (<[p := (MEM_HEAP, n)]> R)));
  al_mem_free a R p n : al_ok a R -> R !! p = Some (MEM_HEAP, n) -> exists a', mem_free p a = Some a' /\ al_ok a' (delete p R);
  al_mem_trim a R p n k : al_ok a R -> R !! p = Some (MEM_HEAP, n) -> 0 < k <= n ->
    exists a', mem_trim p k a = Some (p, a') /\ al_ok a' (<[p := (MEM_HEAP, k)]> R)
}.

(** ** State *)

(** [ooseq_pending] is the flag of [pbuf_pool_is_empty] and [ooseq_calls] the
    number of calls of [pbuf_free_ooseq] that have been queued. *)
Record net (A : Type) := Net { bufs : heap; alloc : A; ooseq_pending : Z; ooseq_calls : nat }.
Arguments Net {A}.
Arguments bufs {A}.
Arguments alloc {A}.
Arguments ooseq_pending {A}.
Arguments ooseq_calls {A}.

Definition set_flags (v : Z) (b : pbuf) : pbuf :=
  Pbuf (next b) (payload b) (tot_len b) (len b) (type b) v (ref b).
Definition put_pbuf (p : Z) (b : pbuf) (h : heap) : heap := Heap (<[p := b]> (pbufs h)) (ram h) (freed h).

Section model.
Context {A : Type} `{allocator A}.

Definition with_bufs (h : heap) (w : net A) : net A := Net h (alloc w) (ooseq_pending w) (ooseq_calls w).
Definition with_alloc (a : A) (w : net A) : net A := Net (bufs w) a (ooseq_pending w) (ooseq_calls w).
Definition on_pbuf (p : Z) (g : pbuf -> pbuf) (w : net A) : option (net A) :=
  let? h := alter_pbuf p g (bufs w) in Some (with_bufs h w).

(** ** Releasing *)

(** The memory of released pbufs goes back to where it came from; a custom pbuf
    has its own function for that. *)
Definition dealloc_one (x : Z * dealloc) (a : A) : option A :=
  match snd x with
  | MEMP_PBUF_POOL => memp_free MEMP_PBUF_POOL (fst x) a
  | MEMP_PBUF => memp_free MEMP_PBUF (fst x) a
  | MEM_HEAP => mem_free (fst x) a
  | CUSTOM => Some a
  end.

Fixpoint dealloc_all (l : list (Z * dealloc)) (a : A) : option A :=
  match l with
  | [] => Some a
  | x :: l => let? a := dealloc_one x a in dealloc_all l a
  end.

(** [pbuf_free] with the allocator. *)
Definition net_free (p : Z) (w : net A) : option (Z * net A) :=
  let? (n, h) := pbuf_free p (bufs w) in
  let? a := dealloc_all (drop (length (freed (bufs w))) (freed h)) (alloc w) in
  Some (n, with_alloc a (with_bufs h w)).

(** ** The empty pool *)

(** [posted] is whether the message box of the network thread had room. *)
Definition pbuf_pool_is_empty (posted : bool) (w : net A) : net A :=
  let queued := ooseq_pending w in
  let w := Net (bufs w) (alloc w) 1 (ooseq_calls w) in
  if queued =? 0 then
    if posted then Net (bufs w) (alloc w) (ooseq_pending w) (S (ooseq_calls w))
    else Net (bufs w) (alloc w) 0 (ooseq_calls w)
  else w.

(** The out-of-sequence segments of the first connection that has some are given
    up.  [ooseq] are the queues of the active connections, 0 for none;
    [tcp_segs_free] is TCP's. *)
Fixpoint free_first (tcp_segs_free : Z -> net A -> option (net A)) (ooseq : list Z) (w : net A) : option (list Z * net A) :=
  match ooseq with
  | [] => Some ([], w)
  | seg :: rest =>
      if negb (seg =? 0) then let? w := tcp_segs_free seg w in Some (0 :: rest, w)
      else let? (rest, w) := free_first tcp_segs_free rest w in Some (seg :: rest, w)
  end.

Definition pbuf_free_ooseq (tcp_segs_free : Z -> net A -> option (net A)) (ooseq : list Z) (w : net A)
    : option (list Z * net A) :=
  free_first tcp_segs_free ooseq (Net (bufs w) (alloc w) 0 (ooseq_calls w)).

(** ** Allocation *)

Inductive pbuf_layer := PBUF_TRANSPORT | PBUF_IP | PBUF_LINK | PBUF_RAW_TX | PBUF_RAW.

Definition PBUF_LINK_ENCAPSULATION_HLEN : Z := 0.
Definition PBUF_LINK_HLEN : Z := 14.
Definition PBUF_IP_HLEN : Z := 20.
Definition PBUF_TRANSPORT_HLEN : Z := 20.

Definition layer_offset (layer : pbuf_layer) : Z :=
  match layer with
  | PBUF_TRANSPORT => PBUF_LINK_ENCAPSULATION_HLEN + PBUF_LINK_HLEN + PBUF_IP_HLEN + PBUF_TRANSPORT_HLEN
  | PBUF_IP => PBUF_LINK_ENCAPSULATION_HLEN + PBUF_LINK_HLEN + PBUF_IP_HLEN
  | PBUF_LINK => PBUF_LINK_ENCAPSULATION_HLEN + PBUF_LINK_HLEN
  | PBUF_RAW_TX => PBUF_LINK_ENCAPSULATION_HLEN
  | PBUF_RAW => 0
  end.

(** The loop that allocates the tail of the chain at [p]; [r] is its last pbuf.
    Every round takes at least one byte off [rem_len]. *)
Fixpoint pool_tail (fuel : nat) (posted : bool) (p r rem_len : Z) (w : net A) : option (bool * net A) :=
  if 0 <? rem_len then
    match fuel with
    | O => None
    | S fuel =>
        let? (q, a) := memp_malloc MEMP_PBUF_POOL (alloc w) in
        let w := with_alloc a w in
        if q =? 0 then
          let w := pbuf_pool_is_empty posted w in
          let? (_, w) := net_free p w in
          Some (false, w)
        else
          let? w := on_pbuf r (set_next q) w in
          if negb (rem_len <? 0xffff) then None
          else
            let qlen := u16 (Z.min (u16 rem_len) PBUF_POOL_BUFSIZE_ALIGNED) in
            let payload' := q + SIZEOF_STRUCT_PBUF in
            if negb (payload' mod MEM_ALIGNMENT =? 0) then None
            else
              let w := with_bufs (put_pbuf q (Pbuf 0 payload' (u16 rem_len) qlen PBUF_POOL 0 1) (bufs w)) w in
              let? b := pbufs (bufs w) !! p in
              if negb (payload b + len b <=? p + SIZEOF_STRUCT_PBUF + PBUF_POOL_BUFSIZE_ALIGNED) then None
              else pool_tail fuel posted p q (rem_len - qlen) w
    end
  else Some (true, w).

(** [stale] is the value of the field [flags] in the memory of the new pbuf: it is
    initialised only after the chain is complete. *)
Definition pbuf_alloc (stale : Z) (posted : bool) (layer : pbuf_layer) (length : Z) (type : pbuf_type) (w : net A)
    : option (Z * net A) :=
  let offset := layer_offset layer in
  let finish p w :=
    let? w := on_pbuf p (set_ref 1) w in
    let? w := on_pbuf p (set_flags 0) w in
    Some (p, w) in
  match type with
  | PBUF_POOL =>
      let? (p, a) := memp_malloc MEMP_PBUF_POOL (alloc w) in
      let w := with_alloc a w in
      if p =? 0 then Some (0, pbuf_pool_is_empty posted w)
      else
        let payload' := LWIP_MEM_ALIGN (p + (SIZEOF_STRUCT_PBUF + offset)) in
        if negb (payload' mod MEM_ALIGNMENT =? 0) then None
        else
          let len' := u16 (Z.min length (PBUF_POOL_BUFSIZE_ALIGNED - LWIP_MEM_ALIGN_SIZE offset)) in
          if negb (payload' + len' <=? p + SIZEOF_STRUCT_PBUF + PBUF_POOL_BUFSIZE_ALIGNED)
             || negb (0 <? PBUF_POOL_BUFSIZE_ALIGNED - LWIP_MEM_ALIGN_SIZE offset) then None
          else
            let w := with_bufs (put_pbuf p (Pbuf 0 payload' length len' PBUF_POOL stale 1) (bufs w)) w in
            let? (done, w) := pool_tail (Z.to_nat length) posted p p (length - len') w in
            if done then finish p w else Some (0, w)
  | PBUF_RAM =>
      let alloc_len := u16 (LWIP_MEM_ALIGN_SIZE (SIZEOF_STRUCT_PBUF + offset) + LWIP_MEM_ALIGN_SIZE length) in
      if alloc_len <? LWIP_MEM_ALIGN_SIZE length then Some (0, w)
      else
        let? (p, a) := mem_malloc alloc_len (alloc w) in
        let w := with_alloc a w in
        if p =? 0 then Some (0, w)
        else
          let payload' := LWIP_MEM_ALIGN (p + SIZEOF_STRUCT_PBUF + offset) in
          let w := with_bufs (put_pbuf p (Pbuf 0 payload' length length PBUF_RAM stale 0) (bufs w)) w in
          if negb (payload' mod MEM_ALIGNMENT =? 0) then None else finish p w
  | PBUF_ROM | PBUF_REF =>
      let? (p, a) := memp_malloc MEMP_PBUF (alloc w) in
      let w := with_alloc a w in
      if p =? 0 then Some (0, w)
      else
        let w := with_bufs (put_pbuf p (Pbuf 0 0 length length type stale 0) (bufs w)) w in
        finish p w
  end.

(** The memory of the pbuf and of its payload belongs to the caller. *)
Definition pbuf_alloced_custom (l : pbuf_layer) (length : Z) (type : pbuf_type) (p payload_mem payload_mem_len : Z) (h : heap)
    : Z * heap :=
  let offset := layer_offset l in
  if payload_mem_len <? LWIP_MEM_ALIGN_SIZE offset + length then (0, h)
  else
    let payload' := if negb (payload_mem =? 0) then payload_mem + LWIP_MEM_ALIGN_SIZE offset else 0 in
    (p, put_pbuf p (Pbuf 0 payload' length length type PBUF_FLAG_IS_CUSTOM 1) h).

(** ** Shrinking *)

(** The pbufs that stay whole.  [grow] is negative. *)
Fixpoint realloc_keep (fuel : nat) (q rem_len grow : Z) (h : heap) : option (Z * Z * heap) :=
  let? b := pbufs h !! q in
  if len b <? rem_len then
    match fuel with
    | O => None
    | S fuel =>
        let rem_len := u16 (rem_len - len b) in
        if negb (grow <? 0xffff) then None
        else
          let? h := alter_pbuf q (set_tot_len (tot_len b + u16 grow)) h in
          if next b =? 0 then None else realloc_keep fuel (next b) rem_len grow h
    end
  else Some (q, rem_len, h).

Definition pbuf_realloc (p new_len : Z) (w : net A) : option (net A) :=
  if p =? 0 then None
  else
    let? b := pbufs (bufs w) !! p in
    if tot_len b <=? new_len then Some w
    else
      let grow := new_len - tot_len b in
      let? (q, rem_len, h) := realloc_keep (chain_fuel (bufs w)) p new_len grow (bufs w) in
      let w := with_bufs h w in
      let? b := pbufs (bufs w) !! q in
      let? (q, w) :=
        (if bool_decide (type b = PBUF_RAM) && negb (rem_len =? len b) && (Z.land (flags b) PBUF_FLAG_IS_CUSTOM =? 0) then
           let? (q, a) := mem_trim q (u16 (u16 (payload b - q) + rem_len)) (alloc w) in
           if q =? 0 then None else Some (q, with_alloc a w)
         else Some (q, w)) in
      let? w := on_pbuf q (set_len rem_len) w in
      let? w := on_pbuf q (set_tot_len rem_len) w in
      let? b := pbufs (bufs w) !! q in
      let? w :=
        (if negb (next b =? 0) then let? (_, w) := net_free (next b) w in Some w else Some w) in
      on_pbuf q (set_next 0) w.

Definition pbuf_coalesce (stale p : Z) (layer : pbuf_layer) (w : net A) : option (Z * net A) :=
  let? b := pbufs (bufs w) !! p in
  if next b =? 0 then Some (p, w)
  else
    let? (q, w) := pbuf_alloc stale true layer (tot_len b) PBUF_RAM w in
    if q =? 0 then Some (p, w)
    else
      let? (err, h) := pbuf_copy q p (bufs w) in
      if negb (err =? ERR_OK) then None
      else
        let? (_, w) := net_free p (with_bufs h w) in
        Some (q, w).

(** ** Receiving a frame *)

(** Copying the frame into the chain; the receive descriptor yields its bytes in
    order. *)
Fixpoint read_frame (fuel : nat) (q : Z) (frame : list Z) (h : heap) : option heap :=
  if q =? 0 then Some h
  else
    match fuel with
    | O => None
    | S fuel =>
        let? b := pbufs h !! q in
        let n := Z.to_nat (len b) in
        let? m := store (ram h) (payload b) (take n frame) in
        read_frame fuel (next b) (drop n frame) (set_ram m h)
    end.

(** [frame] is the frame in the receive descriptor, if there is one.  The result
    is whether there was one, and the packet. *)
Definition low_level_input (stale : Z) (posted : bool) (frame : option (list Z)) (w : net A) : option (bool * Z * net A) :=
  match frame with
  | None => Some (false, 0, w)
  | Some frame =>
      let len := u16 (Z.of_nat (length frame)) in
      let? (p, w) := pbuf_alloc stale posted PBUF_RAW len PBUF_POOL w in
      if negb (p =? 0) then
        let? h := read_frame (chain_fuel (bufs w)) p frame (bufs w) in
        let? b := pbufs h !! p in
        let? _ := ram h !! payload b in
        Some (true, p, with_bufs h w)
      else Some (true, 0, w)
  end.
End model.
