(* ===== verification/PbufAllocProof.v ===== *)
(** * Packet buffers and the allocator

    The pbufs of the heap own the memory they were given: the invariant, and
    [pbuf_free] as the operation that gives it back. *)

From Stdlib Require Import ZArith Lia.
From stdpp Require Import base gmap list numbers.
From S2P Require Import Prelude LwipMem Pbuf PbufChain PbufCopy PbufAlloc LwipMemProof.
From stdpp Require Import sets list.
Import OptionNotations.
Import OptionNotations PbufCopy PbufChain.

Local Open Scope Z_scope.

(** ** Grants *)

Fixpoint revoke (l : list Z) (R : grants) : grants :=
  match l with
  | [] => R
  | a :: l => revoke l (delete a R)
  end.

Lemma lookup_revoke l R a : revoke l R !! a = if decide (a ∈ l) then None else R !! a.
Proof.
  revert R. induction l as [|x l IH]; intros R; cbn [revoke]; [by rewrite decide_False by set_solver|]. rewrite IH.
  destruct (decide (a ∈ l)), (decide (a ∈ x :: l)) as [Hin|Hn]; try done; try set_solver.
  - apply elem_of_cons in Hin as [->|?]; [by rewrite lookup_delete_eq|done].
  - apply lookup_delete_ne. set_solver.
Qed.

Section inv.
Context {A : Type} `{allocator_laws A}.

(** A pbuf with its payload is inside the memory it was given. *)
Definition buf_ok (R : grants) (p : Z) (b : pbuf) : Prop :=
  (dealloc_of b = CUSTOM /\ ~ arena p) \/
  (dealloc_of b <> CUSTOM /\ exists n, R !! p = Some (dealloc_of b, n) /\
     (dealloc_of b <> MEMP_PBUF -> p + SIZEOF_STRUCT_PBUF <= payload b /\ payload b + len b <= p + n)).

Record net_ok (w : net A) (R : grants) : Prop := {
  no_al : al_ok (alloc w) R;
  no_ram : forall i, arena i -> is_Some (ram (bufs w) !! i);
  no_bufs : forall p b, pbufs (bufs w) !! p = Some b -> buf_ok R p b
}.

Lemma buf_ok_frame R R' p b b' :
  buf_ok R p b -> (dealloc_of b <> CUSTOM -> R' !! p = R !! p) -> dealloc_of b' = dealloc_of b -> payload b' = payload b -> len b' = len b ->
  buf_ok R' p b'.
Proof.
  unfold buf_ok. intros Hb Hr -> -> ->. destruct Hb as [Hb|(Hc & n & Hn & Hin)]; [by left|right].
  split; [done|]. exists n. by rewrite Hr.
Qed.

(** Memory that has just been handed out is not a pbuf. *)
Lemma net_fresh w R p d n a : net_ok w R -> al_ok a (<[p := (d, n)]> R) -> R !! p = None -> pbufs (bufs w) !! p = None.
Proof.
  intros Hok Ha Hp. destruct (pbufs (bufs w) !! p) as [b|] eqn:E; [exfalso|done].
  destruct (no_bufs _ _ Hok _ _ E) as [[_ Hna]|(_ & k & Hk & _)]; [|congruence].
  destruct (al_region a _ p d n Ha) as (_ & _ & Hn & _ & Har); [by rewrite lookup_insert_eq|]. apply Hna, Har. lia.
Qed.

Lemma custom_no_grant w R p b : net_ok w R -> pbufs (bufs w) !! p = Some b -> dealloc_of b = CUSTOM -> R !! p = None.
Proof.
  intros Hok Hb Hc. destruct (R !! p) as [[d n]|] eqn:E; [exfalso|done].
  destruct (no_bufs _ _ Hok _ _ Hb) as [[_ Hna]|[Hnc _]]; [|done].
  destruct (al_region _ _ _ _ _ (no_al _ _ Hok) E) as (_ & _ & Hn & _ & Har). apply Hna, Har. lia.
Qed.

(** ** Releasing *)

Lemma dealloc_all_spec l R a :
  al_ok a R -> NoDup (l.*1) ->
  (forall p d, (p, d) ∈ l -> if decide (d = CUSTOM) then R !! p = None else exists n, R !! p = Some (d, n)) ->
  exists a', dealloc_all l a = Some a' /\ al_ok a' (revoke (l.*1) R).
Proof.
  revert R a. induction l as [|[p d] l IH]; intros R a Ha Hnd Hg; cbn [dealloc_all revoke fmap list_fmap fst]; [eauto|].
  apply NoDup_cons in Hnd as [Hnp Hnd].
  assert (exists a1, dealloc_one (p, d) a = Some a1 /\ al_ok a1 (delete p R)) as (a1 & -> & Ha1).
  { pose proof (Hg p d ltac:(by left)) as Hp. unfold dealloc_one. cbn [fst snd]. destruct d; cbn in Hp.
    - destruct Hp as [n Hp]. eapply al_memp_free; [done|by left|done].
    - destruct Hp as [n Hp]. eapply al_memp_free; [done|by right|done].
    - destruct Hp as [n Hp]. by eapply al_mem_free.
    - exists a. split; [done|]. by rewrite delete_id. }
  apply IH; [done|done|]. intros q e Hq. specialize (Hg q e ltac:(by right)).
  rewrite lookup_delete_ne; [done|]. intros <-. apply Hnp, list_elem_of_fmap. by exists (p, e).
Qed.

Lemma net_free_spec w R p l : net_ok w R -> chain (bufs w) p l -> l <> [] -> Forall (fun ab => 1 <= ref (snd ab) < 65536) l ->
  exists l1 l2 n w', l = l1 ++ l2 /\ Forall (has_ref 1) l1 /\ match l2 with [] => True | ab :: _ => ~ has_ref 1 ab end /\
    net_free p w = Some (n, w') /\ released (bufs w) l1 l2 (bufs w') /\ net_ok w' (revoke (l1.*1) R).
Proof.
  intros Hok Hc Hl Hr. destruct (free_loop_spec l (chain_fuel (bufs w)) p 0 (bufs w) Hc Hr) as (l1 & l2 & h' & -> & H1 & H2 & E & Hrel).
  { apply Nat.lt_le_incl. by eapply chain_fuel_enough. }
  assert ((p =? 0) = false) as Ep.
  { destruct (l1 ++ l2) as [|[a b] k]; [done|]. destruct Hc as (-> & Ha & _). by apply Z.eqb_neq. }
  pose proof (chain_nodup _ _ _ Hc) as Hnd. rewrite fmap_app in Hnd. apply NoDup_app in Hnd as (Hnd1 & Hnd12 & _).
  pose proof Hrel as (Hram & Hfr & Hlk).
  assert (forall a b, (a, b) ∈ l1 ++ l2 -> pbufs (bufs w) !! a = Some b) as Hin by (intros a b Hab; by eapply links_lookup).
  destruct (dealloc_all_spec (map (fun ab => (fst ab, dealloc_of (snd ab))) l1) R (alloc w) (no_al _ _ Hok)) as (a' & Ea & Ha').
  { change (fmap fst (map (fun ab => (fst ab, dealloc_of (snd ab))) l1)) with (map fst (map (fun ab => (fst ab, dealloc_of (snd ab))) l1)).
    by rewrite map_map. }
  { intros q d Hq. apply list_elem_of_fmap in Hq as ([a b] & [= -> ->] & Hab). specialize (Hin a b ltac:(set_solver)).
    destruct (decide (dealloc_of b = CUSTOM)) as [Hcu|Hcu]; [by eapply custom_no_grant|].
    destruct (no_bufs _ _ Hok _ _ Hin) as [[? _]|(_ & n & Hn & _)]; [done|eauto]. }
  assert ((map (fun ab => (fst ab, dealloc_of (snd ab))) l1).*1 = l1.*1) as El.
  { change (map fst (map (fun ab => (fst ab, dealloc_of (snd ab))) l1) = map fst l1). by rewrite map_map. }
  rewrite El in Ha'.
  eexists l1, l2, _, _. split; [done|]. split; [done|]. split; [done|]. split; [|split].
  - unfold net_free, pbuf_free. rewrite Ep, E, Hfr, drop_app_length. by rewrite Ea.
  - done.
  - split; [done|cbn; rewrite Hram; apply Hok|]. cbn [bufs with_alloc with_bufs]. intros q b Hq. rewrite Hlk in Hq.
    destruct (decide (q ∈ l1.*1)) as [|Hn]; [done|].
    assert (exists b0, pbufs (bufs w) !! q = Some b0 /\ dealloc_of b = dealloc_of b0 /\ payload b = payload b0 /\ len b = len b0)
      as (b0 & Hb0 & Ed & Epl & Eln).
    { destruct l2 as [|[a2 b2] l2]; [by exists b|]. destruct (decide (q = a2)) as [->|]; [|by exists b].
      injection Hq as <-. exists b2. split; [apply Hin; set_solver|done]. }
    apply (buf_ok_frame R _ q b0); try done; [by apply (no_bufs _ _ Hok)|]. intros _. rewrite lookup_revoke. by rewrite decide_False.
Qed.
End inv.

(** * Correctness of [pbuf_alloc] *)

(** ** Chains under construction *)

(** A chain that still lacks [rem] bytes. *)
Fixpoint wf_rem (l : links) (rem : Z) : Prop :=
  match l with
  | [] => True
  | (_, b) :: l => 0 <= len b /\ tot_len b = len b + chain_len l + rem /\ tot_len b < 65536 /\ wf_rem l rem
  end.

Lemma wf_rem_0 l : wf_rem l 0 -> wf l.
Proof. induction l as [|[a b] l IH]; [done|]. intros (H1 & H2 & H3 & H4). repeat split; [done|lia|done|auto]. Qed.

Lemma wf_rem_snoc l q b rem : wf_rem l rem -> 0 <= len b <= rem -> tot_len b = rem -> rem < 65536 -> wf_rem (l ++ [(q, b)]) (rem - len b).
Proof.
  intros H Hb Ht Hr. induction l as [|[a c] l IH]; cbn [app wf_rem].
  - cbn [chain_len]. repeat split; lia.
  - destruct H as (H1 & H2 & H3 & H4). rewrite chain_len_app. cbn [chain_len]. repeat split; [done|lia|done|auto].
Qed.

Lemma wf_rem_link l r br q rem : wf_rem (l ++ [(r, br)]) rem -> wf_rem (l ++ [(r, set_next q br)]) rem.
Proof.
  induction l as [|[a c] l IH]; cbn [app wf_rem]; [done|]. rewrite !chain_len_app. intros (H1 & H2 & H3 & H4).
  repeat split; try done. by apply IH.
Qed.

(** Linking a new pbuf to the end of a chain. *)
Lemma chain_extend h h' p l r br q bq :
  chain h p (l ++ [(r, br)]) -> (forall a b, (a, b) ∈ l -> pbufs h' !! a = pbufs h !! a) ->
  pbufs h' !! r = Some (set_next q br) -> q <> 0 -> pbufs h' !! q = Some bq -> next bq = 0 ->
  chain h' p (l ++ [(r, set_next q br); (q, bq)]).
Proof.
  revert p. induction l as [|[a b] l IH]; intros p Hc Hl Hr Hq Hbq Hn; cbn [app chain] in *.
  - destruct Hc as (-> & Hr0 & _). done.
  - destruct Hc as (-> & Ha & Hb & Hc). rewrite (Hl a b) by set_solver. repeat (split; [done|]).
    apply IH; try done. intros x y Hxy. apply (Hl x y). set_solver.
Qed.

Lemma element_pool : element_size MEMP_PBUF_POOL = 608.
Proof. done. Qed.

(** ** Offsets *)

Lemma offset_facts layer : let o := layer_offset layer in let ao := LWIP_MEM_ALIGN_SIZE o in
  0 <= o <= ao /\ ao <= 56 /\ ao < o + 4 /\ ao mod 4 = 0 /\ LWIP_MEM_ALIGN_SIZE (SIZEOF_STRUCT_PBUF + o) = 16 + ao.
Proof. destruct layer; vm_compute; repeat split; discriminate. Qed.

Lemma align_ptr x y : 0 <= x -> x mod 4 = 0 -> 0 <= y < 2 ^ 31 -> x + y + 3 < 2 ^ 32 -> LWIP_MEM_ALIGN (x + y) = x + LWIP_MEM_ALIGN_SIZE y.
Proof.
  intros Hx Hm Hy Hs. change (LWIP_MEM_ALIGN (x + y)) with (LWIP_MEM_ALIGN_SIZE (x + y)). rewrite !align_size by lia.
  pose proof (Z.div_mod x 4 ltac:(lia)) as E. rewrite Hm in E. replace (x + y + 3) with (y + 3 + x / 4 * 4) by lia.
  rewrite Z.div_add by lia. lia.
Qed.

Lemma payload_place p layer : 0 < p -> p mod 4 = 0 -> p + 16 + LWIP_MEM_ALIGN_SIZE (layer_offset layer) < 2 ^ 32 ->
  LWIP_MEM_ALIGN (p + (SIZEOF_STRUCT_PBUF + layer_offset layer)) = p + 16 + LWIP_MEM_ALIGN_SIZE (layer_offset layer) /\
  (p + 16 + LWIP_MEM_ALIGN_SIZE (layer_offset layer)) mod MEM_ALIGNMENT = 0.
Proof.
  intros Hp Hm Hs. destruct (offset_facts layer) as (F1 & F2 & F3 & F4 & F5).
  pose proof (Z.div_mod p 4 ltac:(lia)) as E1. pose proof (Z.div_mod (LWIP_MEM_ALIGN_SIZE (layer_offset layer)) 4 ltac:(lia)) as E2.
  rewrite align_ptr; [|lia|done|unfold SIZEOF_STRUCT_PBUF; lia|unfold SIZEOF_STRUCT_PBUF; lia]. rewrite F5. split; [lia|].
  unfold MEM_ALIGNMENT. replace (p + 16 + _) with (p + LWIP_MEM_ALIGN_SIZE (layer_offset layer) + 4 * 4) by lia.
  by rewrite Z.mod_add, Z.add_mod, Hm, F4 by lia.
Qed.

Section alloc.
Context {A : Type} `{allocator_laws A}.

(** The chain [l] at [p] has been taken from the pool, with [rem] bytes missing;
    [pay], [ln] and [tot] are the payload and the lengths of its head. *)
Record partial (w0 w : net A) (R0 R : grants) (p : Z) (l : links) (rem pay ln tot : Z) : Prop := {
  pa_net : net_ok w R;
  pa_rev : revoke (l.*1) R = R0;
  pa_chain : chain (bufs w) p l;
  pa_new : forall a, a ∈ l.*1 -> pbufs (bufs w0) !! a = None /\ R0 !! a = None;
  pa_old : forall a, a ∉ l.*1 -> pbufs (bufs w) !! a = pbufs (bufs w0) !! a;
  pa_ram : ram (bufs w) = ram (bufs w0);
  pa_wf : wf_rem l rem;
  pa_buf : Forall (fun ab => dealloc_of (snd ab) = MEMP_PBUF_POOL /\ type (snd ab) = PBUF_POOL /\ ref (snd ab) = 1) l;
  pa_tail : Forall (fun ab => flags (snd ab) = 0 /\ 0 < len (snd ab)) (tail l);
  pa_head : exists b k, l = (p, b) :: k /\ payload b = pay /\ len b = ln /\ tot_len b = tot
}.

(** A new pbuf is linked to the end. *)
Lemma extend_ok w0 w R0 R p l r br rem pay ln tot q a :
  partial w0 w R0 R p (l ++ [(r, br)]) rem pay ln tot -> 0 < rem < 65536 ->
  al_ok a (<[q := (MEMP_PBUF_POOL, element_size MEMP_PBUF_POOL)]> R) -> R !! q = None -> q <> 0 ->
  let bq := Pbuf 0 (q + SIZEOF_STRUCT_PBUF) rem (Z.min rem PBUF_POOL_BUFSIZE_ALIGNED) PBUF_POOL 0 1 in
  exists h1, alter_pbuf r (set_next q) (bufs w) = Some h1 /\
    partial w0 (with_bufs (put_pbuf q bq h1) (with_alloc a w)) R0 (<[q := (MEMP_PBUF_POOL, element_size MEMP_PBUF_POOL)]> R)
      p (l ++ [(r, set_next q br); (q, bq)]) (rem - Z.min rem PBUF_POOL_BUFSIZE_ALIGNED) pay ln tot.
Proof.
  intros [Hnet Hrev Hch Hnew Hold Hram Hwf Hbuf Htail Hhead] Hrem Ha Hq Hq0 bq.
  pose proof (net_fresh _ _ _ _ _ _ Hnet Ha Hq) as Hfr.
  assert (pbufs (bufs w) !! r = Some br) as Hr by (eapply (links_lookup _ _ _ _ _ Hch); set_solver).
  assert (q ∉ (l ++ [(r, br)]).*1) as Hql.
  { intros Hin. apply list_elem_of_fmap in Hin as ([x y] & -> & Hxy). destruct (links_lookup _ _ _ _ _ Hch Hxy). cbn in *. congruence. }
  assert (r <> q) as Hrq by (intros ->; congruence).
  pose proof (chain_nodup _ _ _ Hch) as Hnd. rewrite fmap_app in Hnd, Hql. cbn [fmap list_fmap fst] in Hnd, Hql.
  apply NoDup_app in Hnd as (Hndl & Hndr & _). assert (r ∉ l.*1) as Hrl by (intros Hx; by apply (Hndr r Hx); left).
  unfold alter_pbuf. rewrite Hr. eexists. split; [done|]. set (R' := <[q := _]> R).
  assert ((l ++ [(r, set_next q br); (q, bq)]).*1 = (l ++ [(r, br)]).*1 ++ [q]) as El by (rewrite !fmap_app, <- app_assoc; done).
  split; cbn [bufs alloc with_bufs with_alloc put_pbuf pbufs ram]; try done.
  - split; [done|cbn; apply Hnet|]. cbn [bufs with_bufs with_alloc put_pbuf pbufs]. intros x b Hx.
    destruct (decide (x = q)) as [->|Hxq].
    + rewrite lookup_insert_eq in Hx. injection Hx as <-. right. split; [done|]. exists (element_size MEMP_PBUF_POOL).
      unfold R'. rewrite lookup_insert_eq. split; [done|]. intros _. rewrite element_pool. cbn [payload len bq]. unfold SIZEOF_STRUCT_PBUF.
      change PBUF_POOL_BUFSIZE_ALIGNED with 592. lia.
    + rewrite lookup_insert_ne in Hx by done. destruct (decide (x = r)) as [->|Hxr].
      * rewrite lookup_insert_eq in Hx. injection Hx as <-. apply (buf_ok_frame R _ r br); try done; [by apply Hnet|].
        intros _. unfold R'. by rewrite lookup_insert_ne by done.
      * rewrite lookup_insert_ne in Hx by done. apply (buf_ok_frame R _ x b); try done; [by apply Hnet|].
        intros _. unfold R'. by rewrite lookup_insert_ne by done.
  - rewrite El, <- Hrev. apply map_eq. intros x. rewrite !lookup_revoke, fmap_app. cbn [fmap list_fmap fst]. unfold R'.
    destruct (decide (x = q)) as [->|Hxq].
    + rewrite decide_True by set_solver. rewrite decide_False by done. by rewrite Hq.
    + rewrite lookup_insert_ne by done. apply decide_ext. set_solver.
  - apply (chain_extend (bufs w)); try done; cbn [put_pbuf pbufs].
    + intros x y Hxy. assert (x ∈ l.*1) by (apply list_elem_of_fmap; by exists (x, y)).
      rewrite !lookup_insert_ne; [done| |]; intros ->; [done|set_solver].
    + by rewrite lookup_insert_ne, lookup_insert_eq by done.
    + by rewrite lookup_insert_eq.
  - intros x Hx. rewrite El in Hx. apply elem_of_app in Hx as [Hx|Hx]; [by apply Hnew|]. apply list_elem_of_singleton in Hx as ->.
    rewrite <- (Hold q) by (rewrite fmap_app; exact Hql). split; [done|]. rewrite <- Hrev, lookup_revoke, fmap_app. by rewrite decide_False.
  - intros x Hx. rewrite El in Hx. rewrite fmap_app in Hx. cbn in Hx. rewrite !lookup_insert_ne by set_solver. apply Hold. rewrite fmap_app. set_solver.
  - rewrite (app_assoc l [(r, set_next q br)] [(q, bq)] : l ++ [(r, set_next q br); (q, bq)] = _).
    apply (wf_rem_snoc _ q bq rem); [by apply (wf_rem_link _ _ br)| |done|lia]. cbn. change PBUF_POOL_BUFSIZE_ALIGNED with 592. lia.
  - apply Forall_app in Hbuf as [Hb1 Hb2]. apply Forall_app. split; [done|]. apply Forall_cons in Hb2 as [Hb2 _].
    apply Forall_cons. split; [exact Hb2|]. by apply Forall_singleton.
  - assert (0 < len bq) as Hlq by (cbn; change PBUF_POOL_BUFSIZE_ALIGNED with 592; lia).
    destruct l as [|[x y] l]; cbn [app tail] in *; [by apply Forall_singleton|].
    apply Forall_app in Htail as [Ht1 Ht2]. apply Forall_app. split; [done|]. apply Forall_cons in Ht2 as [Ht2 _].
    apply Forall_cons. split; [exact Ht2|]. by apply Forall_singleton.
  - destruct Hhead as (b & k & E & Hp & Hb & Ht). destruct l as [|[x y] l]; cbn [app] in *; simplify_eq; eauto 8.
Qed.
(** Giving up: the chain goes back to the pool and everything is as before. *)
Lemma abandon_ok w0 w R0 R p l rem pay ln tot posted a :
  partial w0 w R0 R p l rem pay ln tot -> al_ok a R ->
  exists n w', net_free p (pbuf_pool_is_empty posted (with_alloc a w)) = Some (n, w') /\ net_ok w' R0 /\
    pbufs (bufs w') = pbufs (bufs w0) /\ ram (bufs w') = ram (bufs w0).
Proof.
  intros [Hnet Hrev Hch Hnew Hold Hram Hwf Hbuf Htail (b & k & El & _)] Ha.
  set (w1 := pbuf_pool_is_empty posted (with_alloc a w)).
  assert (bufs w1 = bufs w /\ alloc w1 = a) as [Eb Ea].
  { unfold w1, pbuf_pool_is_empty. by destruct (_ =? 0), posted. }
  assert (net_ok w1 R) as Hok1 by (split; rewrite ?Eb, ?Ea; [done|apply Hnet..]).
  rewrite <- Eb in Hch. destruct (net_free_spec w1 R p l Hok1 Hch) as (l1 & l2 & n & w' & E & H1 & H2 & Ef & Hrel & Hok').
  - by rewrite El.
  - eapply Forall_impl; [exact Hbuf|]. cbn. lia.
  - assert (l2 = []) as ->.
    { destruct l2 as [|ab l2]; [done|]. destruct H2. rewrite E in Hbuf. apply Forall_app in Hbuf as [_ Hb]. apply Forall_cons in Hb as [Hb _]. apply Hb. }
    rewrite app_nil_r in E. subst l1. rewrite Hrev in Hok'. exists n, w'. split; [done|]. split; [done|].
    destruct Hrel as (Hr & _ & Hlk). rewrite Hr, Eb. split; [|done]. apply map_eq. intros x. rewrite Hlk, Eb.
    destruct (decide (x ∈ l.*1)) as [Hx|Hx]; [|by apply Hold]. by destruct (Hnew x Hx) as [-> _].
Qed.

Lemma pool_tail_spec fuel posted : forall w0 w R0 R p l r br rem pay ln tot,
  partial w0 w R0 R p (l ++ [(r, br)]) rem pay ln tot -> pay + ln <= p + 608 -> 0 <= rem < 65535 -> (Z.to_nat rem <= fuel)%nat ->
  exists ok w', pool_tail fuel posted p r rem w = Some (ok, w') /\
    if ok then exists R' l', partial w0 w' R0 R' p l' 0 pay ln tot
    else net_ok w' R0 /\ pbufs (bufs w') = pbufs (bufs w0) /\ ram (bufs w') = ram (bufs w0).
Proof.
  induction fuel as [|fuel IH]; intros w0 w R0 R p l r br rem pay ln tot Hp Hpay Hrem Hf; cbn [pool_tail].
  1,2: destruct (Z.ltb_spec 0 rem) as [Hr|Hr]; [try lia|assert (rem = 0) as -> by lia; exists true; eauto].
  destruct (al_memp_malloc (alloc w) R MEMP_PBUF_POOL (no_al _ _ (pa_net _ _ _ _ _ _ _ _ _ _ Hp))) as (q & a & -> & Hq); [by left|].
  destruct Hq as [[-> Ha]|(Hq0 & Hqn & Ha)].
  { cbn [Z.eqb]. destruct (abandon_ok _ _ _ _ _ _ _ _ _ _ posted a Hp Ha) as (n & w' & -> & H'). exists false. eauto. }
  rewrite (proj2 (Z.eqb_neq q 0) Hq0). destruct (extend_ok _ _ _ _ _ _ _ _ _ _ _ _ q a Hp) as (h1 & E1 & Hp1); [lia|done..|].
  unfold on_pbuf. cbn [bufs with_alloc]. rewrite E1. rewrite (proj2 (Z.ltb_lt rem 0xffff)) by lia. cbn [negb].
  change PBUF_POOL_BUFSIZE_ALIGNED with 592 in *. rewrite (u16_small rem), (u16_small (Z.min rem 592)) by lia.
  destruct (al_region a _ q _ _ Ha ltac:(by rewrite lookup_insert_eq)) as (_ & M & _).
  assert ((q + SIZEOF_STRUCT_PBUF) mod MEM_ALIGNMENT = 0) as ->.
  { unfold SIZEOF_STRUCT_PBUF, MEM_ALIGNMENT. change 16 with (4 * 4). by rewrite Z.mod_add by lia. }
  cbn [Z.eqb negb]. destruct (pa_head _ _ _ _ _ _ _ _ _ _ Hp1) as (b & k & El & Ep & Eln & _).
  assert (pbufs (put_pbuf q (Pbuf 0 (q + SIZEOF_STRUCT_PBUF) rem (Z.min rem 592) PBUF_POOL 0 1) h1) !! p = Some b) as Hb.
  { eapply (links_lookup _ _ _ p b (pa_chain _ _ _ _ _ _ _ _ _ _ Hp1)). rewrite El. by left. }
  cbn [bufs with_bufs with_alloc alloc] in *. rewrite Hb, Ep, Eln. change SIZEOF_STRUCT_PBUF with 16 in *.
  rewrite (proj2 (Z.leb_le (pay + ln) (p + 16 + 592))) by lia. cbn [negb].
  rewrite (app_assoc l [_] [_] : l ++ [_; _] = _) in Hp1. eapply IH; [exact Hp1|done|lia|lia].
Qed.

(** ** The result of an allocation *)

Record new_packet (w0 w : net A) (R0 R : grants) (ty : pbuf_type) (length offset p : Z) (l : links) : Prop := {
  np_net : net_ok w R;
  np_rev : revoke (l.*1) R = R0;
  np_chain : chain (bufs w) p l;
  np_new : forall a, a ∈ l.*1 -> pbufs (bufs w0) !! a = None /\ R0 !! a = None;
  np_old : forall a, a ∉ l.*1 -> pbufs (bufs w) !! a = pbufs (bufs w0) !! a;
  np_ram : ram (bufs w) = ram (bufs w0);
  np_wf : wf l;
  np_len : chain_len l = length;
  np_buf : Forall (fun ab => type (snd ab) = ty /\ flags (snd ab) = 0 /\ ref (snd ab) = 1) l;
  np_nonempty : 0 < length -> nonempty l;
  np_room : exists b k, l = (p, b) :: k /\ (ty <> PBUF_POOL -> k = []) /\ (ty = PBUF_RAM \/ ty = PBUF_POOL -> p + SIZEOF_STRUCT_PBUF + offset <= payload b)
}.

Lemma on_put p b g h (w : net A) : on_pbuf p g (with_bufs (put_pbuf p b h) w) = Some (with_bufs (put_pbuf p (g b) h) w).
Proof.
  unfold on_pbuf, alter_pbuf. cbn [bufs with_bufs put_pbuf pbufs]. rewrite lookup_insert_eq. unfold put_pbuf. cbn [pbufs ram freed].
  by rewrite insert_insert_eq.
Qed.

(** A pbuf in memory that has just been handed out. *)
Lemma put_fresh w0 R0 a p d n b :
  net_ok w0 R0 -> al_ok a (<[p := (d, n)]> R0) -> R0 !! p = None -> buf_ok (<[p := (d, n)]> R0) p b ->
  net_ok (with_bufs (put_pbuf p b (bufs w0)) (with_alloc a w0)) (<[p := (d, n)]> R0).
Proof.
  intros Hok Ha Hp Hb. split; [done|cbn; apply Hok|]. cbn [bufs with_bufs with_alloc put_pbuf pbufs]. intros x c Hx.
  destruct (decide (x = p)) as [->|Hne]; [rewrite lookup_insert_eq in Hx; by injection Hx as <-|].
  rewrite lookup_insert_ne in Hx by done. apply (buf_ok_frame R0 _ x c); try done; [by apply Hok|].
  intros _. by rewrite lookup_insert_ne by done.
Qed.

(** A single new pbuf. *)
Lemma single_ok w0 R0 a p d n b length offset :
  net_ok w0 R0 -> al_ok a (<[p := (d, n)]> R0) -> R0 !! p = None -> p <> 0 -> dealloc_of b = d -> d <> CUSTOM ->
  next b = 0 -> tot_len b = length -> len b = length -> 0 <= length < 65536 -> flags b = 0 -> ref b = 1 ->
  (d <> MEMP_PBUF -> p + SIZEOF_STRUCT_PBUF + offset <= payload b /\ 0 <= offset /\ payload b + len b <= p + n) ->
  new_packet w0 (with_bufs (put_pbuf p b (bufs w0)) (with_alloc a w0)) R0 (<[p := (d, n)]> R0) (type b) length offset p [(p, b)].
Proof.
  intros Hok Ha Hp Hp0 Hd Hdc Hn Ht Hl Hlen Hfl Hr Hroom. pose proof (net_fresh _ _ _ _ _ _ Hok Ha Hp) as Hfr.
  split; cbn [bufs with_bufs with_alloc put_pbuf pbufs ram fmap list_fmap fst chain revoke].
  - apply put_fresh; try done. right. rewrite Hd. split; [done|]. exists n. rewrite lookup_insert_eq.
    split; [done|]. intros Hnp. destruct (Hroom Hnp) as (H1 & H2 & H3). split; lia.
  - rewrite delete_insert_eq. by apply delete_id.
  - by rewrite lookup_insert_eq.
  - intros x Hx. apply list_elem_of_singleton in Hx as ->. done.
  - intros x Hx. rewrite lookup_insert_ne; [done|]. set_solver.
  - done.
  - cbn [wf chain_len]. repeat split; lia.
  - cbn. lia.
  - by apply Forall_singleton.
  - intros Hlt. apply Forall_singleton. cbn. lia.
  - exists b, []. split; [done|]. split; [done|]. intros Hty. apply Hroom. rewrite <- Hd. unfold dealloc_of. rewrite Hfl. cbn.
    by destruct Hty as [ -> | -> ].
Qed.

(** The chain is complete. *)
Lemma finish_ok w0 w R0 R p l pay ln tot offset :
  partial w0 w R0 R p l 0 pay ln tot -> p + SIZEOF_STRUCT_PBUF + offset <= pay -> (0 < tot -> 0 < ln) ->
  exists w' l', (let? w := on_pbuf p (set_ref 1) w in let? w := on_pbuf p (set_flags 0) w in Some (p, w)) = Some (p, w') /\
    new_packet w0 w' R0 R PBUF_POOL tot offset p l'.
Proof.
  intros [Hnet Hrev Hch Hnew Hold Hram Hwf Hbuf Htail (b & k & -> & Hpay & Hln & Htot)] Hroom Hpos.
  assert (pbufs (bufs w) !! p = Some b) as Hb by apply Hch. set (b' := set_flags 0 (set_ref 1 b)).
  apply Forall_cons in Hbuf as [(Hd & Hty & Hr) Hbuf]. cbn [snd tail] in *.
  exists (with_bufs (put_pbuf p b' (bufs w)) w), ((p, b') :: k). split.
  { unfold on_pbuf, alter_pbuf. rewrite Hb. cbn [bufs with_bufs pbufs]. rewrite lookup_insert_eq. cbn [ram freed]. by rewrite insert_insert_eq. }
  pose proof (chain_nodup _ _ _ Hch) as Hnd. cbn [fmap list_fmap fst] in Hnd, Hnew, Hold. apply NoDup_cons in Hnd as [Hnp _].
  split; cbn [bufs with_bufs put_pbuf pbufs ram fmap list_fmap fst]; try done.
  - split; [apply Hnet|cbn; apply Hnet|]. cbn [bufs with_bufs put_pbuf pbufs]. intros x c Hx. destruct (decide (x = p)) as [->|Hne].
    + rewrite lookup_insert_eq in Hx. injection Hx as <-. apply (buf_ok_frame R _ p b); try done; [by apply Hnet|].
      rewrite Hd. unfold dealloc_of, b'. cbn. by rewrite Hty.
    + rewrite lookup_insert_ne in Hx by done. by apply Hnet.
  - cbn [chain] in Hch |- *. destruct Hch as (_ & Hp0 & _ & Hch). cbn [put_pbuf pbufs]. rewrite lookup_insert_eq. repeat (split; [done|]).
    apply (chain_frame (bufs w)); [exact Hch|]. intros x y Hxy. cbn [put_pbuf pbufs]. rewrite lookup_insert_ne; [done|].
    intros <-. apply Hnp, list_elem_of_fmap. by exists (p, y).
  - intros x Hx. rewrite lookup_insert_ne by set_solver. by apply Hold.
  - apply wf_rem_0 in Hwf. exact Hwf.
  - apply wf_rem_0 in Hwf. cbn [chain_len b' len set_flags set_ref]. destruct Hwf as (_ & Hw & _). lia.
  - apply Forall_cons. split; [done|]. rewrite Forall_forall in Hbuf, Htail |- *. intros ab Hab. destruct (Hbuf ab Hab), (Htail ab Hab). tauto.
  - intros Hlt. apply Forall_cons. split; [cbn; lia|]. eapply Forall_impl; [exact Htail|]. cbn. tauto.
  - exists b', k. split; [done|]. split; [done|]. intros _. cbn. lia.
Qed.

(** What [pbuf_alloc] may do: a new packet, or nothing. *)
Definition alloc_outcome (w0 : net A) (R0 : grants) (ty : pbuf_type) (length offset : Z) (r : option (Z * net A)) : Prop :=
  exists p w, r = Some (p, w) /\
    if p =? 0 then net_ok w R0 /\ pbufs (bufs w) = pbufs (bufs w0) /\ ram (bufs w) = ram (bufs w0)
    else exists R l, new_packet w0 w R0 R ty length offset p l.

Lemma outcome_null w0 w R0 ty length offset : net_ok w R0 -> bufs w = bufs w0 -> alloc_outcome w0 R0 ty length offset (Some (0, w)).
Proof. intros H1 H2. exists 0, w. split; [done|]. cbn. by rewrite H2. Qed.

Lemma with_alloc_ok w R a : net_ok w R -> al_ok a R -> net_ok (with_alloc a w) R.
Proof. intros Hok Ha. split; [done|apply Hok|apply Hok]. Qed.

Lemma pool_empty_ok posted w R : net_ok w R -> net_ok (pbuf_pool_is_empty posted w) R /\ bufs (pbuf_pool_is_empty posted w) = bufs w.
Proof. intros [H1 H2 H3]. unfold pbuf_pool_is_empty. destruct (_ =? 0), posted; (split; [by split|done]). Qed.

(** The head of a chain from the pool. *)
Lemma head_ok w0 R0 a p stale layer length :
  let ao := LWIP_MEM_ALIGN_SIZE (layer_offset layer) in let ln := Z.min length (592 - ao) in
  let b := Pbuf 0 (p + 16 + ao) length ln PBUF_POOL stale 1 in
  net_ok w0 R0 -> al_ok a (<[p := (MEMP_PBUF_POOL, element_size MEMP_PBUF_POOL)]> R0) -> R0 !! p = None -> p <> 0 ->
  0 <= length < 65536 -> Z.land stale PBUF_FLAG_IS_CUSTOM = 0 ->
  partial w0 (with_bufs (put_pbuf p b (bufs w0)) (with_alloc a w0)) R0 (<[p := (MEMP_PBUF_POOL, element_size MEMP_PBUF_POOL)]> R0)
    p [(p, b)] (length - ln) (p + 16 + ao) ln length.
Proof.
  intros ao ln b Hok Ha Hp Hp0 Hlen Hst. destruct (offset_facts layer) as (F1 & F2 & _). fold ao in F1, F2.
  pose proof (net_fresh _ _ _ _ _ _ Hok Ha Hp) as Hfr.
  assert (dealloc_of b = MEMP_PBUF_POOL) as Hd by (unfold dealloc_of, b; cbn; by rewrite Hst).
  split; cbn [bufs with_bufs with_alloc put_pbuf pbufs ram fmap list_fmap fst chain revoke tail].
  - apply put_fresh; try done. right. rewrite Hd. split; [done|]. eexists. rewrite lookup_insert_eq.
    split; [done|]. intros _. rewrite element_pool. unfold SIZEOF_STRUCT_PBUF. cbn [payload len b]. lia.
  - rewrite delete_insert_eq. by apply delete_id.
  - by rewrite lookup_insert_eq.
  - intros x Hx. apply list_elem_of_singleton in Hx as ->. done.
  - intros x Hx. rewrite lookup_insert_ne; [done|]. set_solver.
  - done.
  - cbn [wf_rem chain_len len tot_len b]. repeat split; lia.
  - by apply Forall_singleton.
  - constructor.
  - by exists b, [].
Qed.

Lemma alloc_pool_spec w0 R0 stale posted layer length :
  net_ok w0 R0 -> 0 <= length < 65536 -> Z.land stale PBUF_FLAG_IS_CUSTOM = 0 ->
  alloc_outcome w0 R0 PBUF_POOL length (layer_offset layer) (pbuf_alloc stale posted layer length PBUF_POOL w0).
Proof.
  intros Hok Hlen Hst. unfold pbuf_alloc.
  destruct (al_memp_malloc (alloc w0) R0 MEMP_PBUF_POOL (no_al _ _ Hok)) as (p & a & -> & Hp); [by left|].
  destruct Hp as [[-> Ha]|(Hp0 & Hpn & Ha)].
  { cbn [Z.eqb]. destruct (pool_empty_ok posted _ _ (with_alloc_ok _ _ _ Hok Ha)) as [H1 H2]. by apply outcome_null. }
  rewrite (proj2 (Z.eqb_neq p 0) Hp0). cbn [bufs with_alloc].
  destruct (al_region a _ p _ _ Ha ltac:(by rewrite lookup_insert_eq)) as (P1 & P2 & _ & P3 & _). rewrite element_pool in P3.
  destruct (offset_facts layer) as (F1 & F2 & F3 & F4 & _). destruct (payload_place p layer P1 P2) as [E1 E2]; [lia|]. rewrite E1, E2.
  change PBUF_POOL_BUFSIZE_ALIGNED with 592. set (ao := LWIP_MEM_ALIGN_SIZE (layer_offset layer)) in *. set (ln := Z.min length (592 - ao)).
  rewrite (u16_small ln) by lia. unfold SIZEOF_STRUCT_PBUF at 1. rewrite (proj2 (Z.leb_le (p + 16 + ao + ln) (p + 16 + 592))) by lia.
  rewrite (proj2 (Z.ltb_lt 0 (592 - ao))) by lia. cbn [Z.eqb negb orb].
  pose proof (head_ok w0 R0 a p stale layer length Hok Ha Hpn Hp0 Hlen Hst) as Hhead. fold ao in Hhead. fold ln in Hhead.
  destruct (pool_tail_spec (Z.to_nat length) posted _ _ _ _ _ [] _ _ _ _ _ _ Hhead) as (ok & w' & Et & Hok'); [lia..|].
  cbn [bufs with_alloc] in Et |- *. rewrite Et. destruct ok.
  - destruct Hok' as (R' & l' & Hpart).
    destruct (finish_ok _ _ _ _ _ _ _ _ _ (layer_offset layer) Hpart) as (w2 & l2 & E & Hnew); [unfold SIZEOF_STRUCT_PBUF; lia|lia|].
    rewrite E. exists p, w2. rewrite (proj2 (Z.eqb_neq p 0) Hp0). eauto.
  - by exists 0, w'.
Qed.

Lemma alloc_ram_spec w0 R0 stale posted layer length :
  net_ok w0 R0 -> 0 <= length < 65536 ->
  alloc_outcome w0 R0 PBUF_RAM length (layer_offset layer) (pbuf_alloc stale posted layer length PBUF_RAM w0).
Proof.
  intros Hok Hlen. unfold pbuf_alloc. destruct (offset_facts layer) as (F1 & F2 & F3 & F4 & F5). rewrite F5.
  set (ao := LWIP_MEM_ALIGN_SIZE (layer_offset layer)) in *. set (al := LWIP_MEM_ALIGN_SIZE length).
  assert (length <= al <= length + 3 /\ al mod 4 = 0) as [L1 L2].
  { unfold al. rewrite align_size by lia. pose proof (Z.div_mod (length + 3) 4 ltac:(lia)). pose proof (Z.mod_pos_bound (length + 3) 4 ltac:(lia)).
    split; [lia|]. apply Z.mod_mul. lia. }
  destruct (Z.ltb_spec (u16 (16 + ao + al)) al) as [Hov|Hov]; [by apply outcome_null|].
  assert (16 + ao + al < 65536) as Hs.
  { destruct (decide (16 + ao + al < 65536)) as [|Hn]; [done|]. exfalso. unfold u16, wrap in Hov.
    replace (16 + ao + al) with (16 + ao + al - 65536 + 1 * 2 ^ 16) in Hov by lia. rewrite Z.mod_add, Z.mod_small in Hov by lia. lia. }
  assert ((16 + ao + al) mod 4 = 0) as M.
  { replace (16 + ao + al) with (ao + al + 4 * 4) by lia. by rewrite Z.mod_add, Z.add_mod, F4, L2 by lia. }
  pose proof (Z.div_mod (16 + ao + al) 4 ltac:(lia)) as Dm. rewrite u16_small by lia.
  destruct (al_mem_malloc (alloc w0) R0 (16 + ao + al) (no_al _ _ Hok)) as (p & a & -> & Hp); [lia|].
  destruct Hp as [[-> Ha]|(Hp0 & Hpn & Ha)]; [apply outcome_null; [by apply with_alloc_ok|done]|].
  rewrite (proj2 (Z.eqb_neq p 0) Hp0).
  destruct (al_region a _ p _ _ Ha ltac:(by rewrite lookup_insert_eq)) as (P1 & P2 & _ & P3 & _).
  destruct (payload_place p layer P1 P2) as [E1 E2]; [fold ao; lia|]. fold ao in E1, E2.
  replace (p + SIZEOF_STRUCT_PBUF + layer_offset layer) with (p + (SIZEOF_STRUCT_PBUF + layer_offset layer)) by lia.
  rewrite E1, E2. cbn [Z.eqb negb]. rewrite !on_put. eexists p, _. split; [done|]. rewrite (proj2 (Z.eqb_neq p 0) Hp0).
  eexists _, _. apply (single_ok w0 R0 a p MEM_HEAP (16 + ao + al)); try done.
  intros _. unfold SIZEOF_STRUCT_PBUF. cbn. lia.
Qed.

Lemma alloc_ref_spec w0 R0 stale posted layer length ty :
  net_ok w0 R0 -> 0 <= length < 65536 -> ty = PBUF_ROM \/ ty = PBUF_REF ->
  alloc_outcome w0 R0 ty length (layer_offset layer) (pbuf_alloc stale posted layer length ty w0).
Proof.
  intros Hok Hlen Hty. destruct (al_memp_malloc (alloc w0) R0 MEMP_PBUF (no_al _ _ Hok)) as (p & a & E & Hp); [by right|].
  unfold pbuf_alloc. destruct Hty as [ -> | -> ]; rewrite E; (destruct Hp as [[-> Ha]|(Hp0 & Hpn & Ha)];
    [apply outcome_null; [by apply with_alloc_ok|done]|]); rewrite (proj2 (Z.eqb_neq p 0) Hp0), !on_put;
    (eexists p, _; split; [done|]); rewrite (proj2 (Z.eqb_neq p 0) Hp0); eexists _, _;
    by apply (single_ok w0 R0 a p MEMP_PBUF (element_size MEMP_PBUF)).
Qed.

Lemma alloc_spec w0 R0 stale posted layer length ty :
  net_ok w0 R0 -> 0 <= length < 65536 -> Z.land stale PBUF_FLAG_IS_CUSTOM = 0 ->
  alloc_outcome w0 R0 ty length (layer_offset layer) (pbuf_alloc stale posted layer length ty w0).
Proof.
  intros Hok Hlen Hst. destruct ty; [by apply alloc_ram_spec|apply alloc_ref_spec; auto|apply alloc_ref_spec; auto|by apply alloc_pool_spec].
Qed.
End alloc.
