(* ===== verification/LwipAlloc.v ===== *)
(** * The allocator of lwIP

    The heap of [mem.c] and the pools of [memp.c] together provide what [pbuf.c]
    relies on: an instance of the interface, from the theorems on both. *)

From Stdlib Require Import ZArith Lia.
From stdpp Require Import base gmap list numbers.
From S2P Require Import Prelude Pbuf PbufAlloc LwipMem LwipMemInv LwipMemProof LwipMemTheorems Memp MempTheorems.
From stdpp Require Import sets list.
Import OptionNotations PbufAlloc.

Local Open Scope Z_scope.

Record lwip_state := Lwip { l_heap : mem_state; l_pools : memp_state }.

Section instance.
(** The array of the heap, the pools, and which of them are for pbufs. *)
Context (ram_heap : Z) (memp_pools : list memp_desc) (i_pbuf i_pool : nat) (d_pbuf d_pool : memp_desc).

Record layout_ok : Prop := {
  lo_heap : base_ok ram_heap;
  lo_pools : pools_ok memp_pools;
  lo_pbuf : memp_pools !! i_pbuf = Some d_pbuf;
  lo_pool : memp_pools !! i_pool = Some d_pool;
  lo_ne : i_pbuf <> i_pool;
  lo_pbuf_size : elem_size d_pbuf = element_size MEMP_PBUF;
  lo_pool_size : elem_size d_pool = element_size MEMP_PBUF_POOL;
  lo_apart : forall d, d = d_pbuf \/ d = d_pool -> ram_heap + 3 + MEM_SIZE_ALIGNED <= base d \/ pool_end d <= ram_heap
}.

Definition pool_index (d : dealloc) : Z := Z.of_nat (match d with MEMP_PBUF_POOL => i_pool | _ => i_pbuf end).

#[local] Instance lwip_allocator : allocator lwip_state := {
  memp_malloc d a := let? (p, s) := Memp.memp_malloc memp_pools (pool_index d) (l_pools a) in Some (p, Lwip (l_heap a) s);
  memp_free d p a := let? s := Memp.memp_free memp_pools (pool_index d) p (l_pools a) in Some (Lwip (l_heap a) s);
  mem_malloc n a := let? (p, s) := LwipMem.mem_malloc n (l_heap a) in Some (p, Lwip s (l_pools a));
  mem_free p a := let? s := LwipMem.mem_free p (l_heap a) in Some (Lwip s (l_pools a));
  mem_trim p n a := let? (q, s) := LwipMem.mem_trim p n (l_heap a) in Some (q, Lwip s (l_pools a))
}.

Definition in_heap (i : Z) : Prop := ram_heap <= i < ram_heap + 3 + MEM_SIZE_ALIGNED.
Definition in_pool (d : memp_desc) (i : Z) : Prop := base d <= i < pool_end d.
Definition lwip_arena (i : Z) : Prop := in_heap i \/ in_pool d_pbuf i \/ in_pool d_pool i.

Definition pool_of (d : dealloc) : memp_desc := match d with MEMP_PBUF_POOL => d_pool | _ => d_pbuf end.

(** The grants are the live blocks of the heap and the elements that are handed
    out of the two pools. *)
Record lwip_ok (a : lwip_state) (R : grants) : Prop := {
  lk_heap : exists live, client_ok (Client (l_heap a) live) /\ forall p n, R !! p = Some (MEM_HEAP, n) <-> live !! p = Some n;
  lk_ram : LwipMem.ram (l_heap a) = LWIP_MEM_ALIGN ram_heap;
  lk_pools : exists out, memp_ok memp_pools (l_pools a) out /\ forall d p n, is_pool d ->
    R !! p = Some (d, n) <-> n = element_size d /\ p ∈ out /\ p ∈ pool_elements (pool_of d);
  lk_custom : forall p n, R !! p <> Some (CUSTOM, n)
}.

Context (Hlay : layout_ok).

Lemma pool_facts d : is_pool d -> memp_pools !! Z.to_nat (pool_index d) = Some (pool_of d) /\
  pool_index d = Z.of_nat (Z.to_nat (pool_index d)) /\ desc_ok (pool_of d) /\ elem_size (pool_of d) = element_size d /\
  (pool_of d = d_pbuf \/ pool_of d = d_pool).
Proof.
  intros Hd. unfold pool_index. rewrite !Nat2Z.id. destruct Hd as [ -> | -> ]; cbn.
  - split; [apply Hlay|]. split; [done|]. split; [apply (proj1 (lo_pools Hlay) i_pool), Hlay|]. split; [apply Hlay|by right].
  - split; [apply Hlay|]. split; [done|]. split; [apply (proj1 (lo_pools Hlay) i_pbuf), Hlay|]. split; [apply Hlay|by left].
Qed.

Lemma element_place d p : is_pool d -> p ∈ pool_elements (pool_of d) ->
  0 < p /\ p mod 4 = 0 /\ base (pool_of d) <= p /\ p + element_size d <= pool_end (pool_of d) /\ pool_end (pool_of d) < 2 ^ 32.
Proof.
  intros Hd Hp. destruct (pool_facts d Hd) as (_ & _ & Hok & Es & _). destruct (elements_spec _ _ Hok Hp) as (E1 & E2 & E3).
  rewrite Es in E3. destruct Hok as (H0 & _ & _ & _ & H1). unfold pool_end in *. repeat split; try done; lia.
Qed.

Lemma block_place a live p n : client_ok (Client (l_heap a) live) -> LwipMem.ram (l_heap a) = LWIP_MEM_ALIGN ram_heap -> live !! p = Some n ->
  p mod 4 = 0 /\ 0 < n < 65533 /\ ram_heap <= p /\ p + n <= ram_heap + 3 + MEM_SIZE_ALIGNED.
Proof.
  intros (l & Hok & Ho) Er Hp. cbn [heap LwipMemTheorems.live] in *.
  destruct (owns_region (Client (l_heap a) live) l p n Hok Ho Hp) as (b & _ & Ep & Hpn & B0 & B1 & B2).
  destruct (proj1 Ho _ _ Hp) as [Hn _]. destruct (lo_heap Hlay) as [H1 H2]. cbn [heap] in *.
  assert (ram_heap <= LWIP_MEM_ALIGN ram_heap <= ram_heap + 3) as Hal.
  { consts. assert (LWIP_MEM_ALIGN ram_heap = (ram_heap + 3) / 4 * 4) as -> by (apply align_size; lia).
    pose proof (Z.div_mod (ram_heap + 3) 4 ltac:(lia)). pose proof (Z.mod_pos_bound (ram_heap + 3) 4 ltac:(lia)). lia. }
  rewrite Er in *. destruct (t_ram _ _ (proj1 Hok)) as (_ & R4 & _). rewrite Er in R4. consts. split; [|lia].
  rewrite Ep. replace (LWIP_MEM_ALIGN ram_heap + b_at b + 8) with (LWIP_MEM_ALIGN ram_heap + b_at b + 2 * 4) by lia.
  by rewrite Z.mod_add, Z.add_mod, R4, B2 by lia.
Qed.

Lemma grant_kind (d : dealloc) : d = MEM_HEAP \/ is_pool d \/ d = CUSTOM.
Proof. unfold is_pool. destruct d; tauto. Qed.

Lemma lwip_region a R p d n : lwip_ok a R -> R !! p = Some (d, n) ->
  0 < p /\ p mod 4 = 0 /\ 0 < n < 65536 /\ p + n < 2 ^ 32 /\ forall i, p <= i < p + n -> lwip_arena i.
Proof.
  intros [(live & Hc & Hl) Er (out & Ho & Hpo) Hcu] Hp. destruct (lo_heap Hlay) as [H1 H2]. consts.
  destruct (grant_kind d) as [ -> | [Hd| -> ] ]; [| |by destruct (Hcu p n)].
  - apply Hl in Hp. destruct (block_place _ _ _ _ Hc Er Hp) as (B1 & B2 & B3 & B4). consts. split; [lia|]. split; [done|]. split; [lia|]. split; [lia|].
    intros i Hi. left. unfold in_heap. consts. lia.
  - apply Hpo in Hp as (-> & _ & Hin); [|done]. destruct (element_place d p Hd Hin) as (E1 & E2 & E3 & E4 & E5).
    assert (0 < element_size d < 65536) by (by destruct Hd as [ -> | -> ]). split; [lia|]. split; [done|]. split; [lia|]. split; [lia|]. intros i Hi. right.
    destruct (pool_facts d Hd) as (_ & _ & _ & _ & [E|E]); rewrite E in E3, E4; [left|right]; unfold in_pool; lia.
Qed.
(** Heap blocks and elements of different pools are apart. *)
Lemma lwip_disjoint a R p q d e n k : lwip_ok a R -> R !! p = Some (d, n) -> R !! q = Some (e, k) -> p <> q -> p + n <= q \/ q + k <= p.
Proof.
  intros [(live & Hc & Hl) Er (out & Ho & Hpo) Hcu] Hp Hq Hne.
  assert (forall x y b j i, live !! x = Some i -> y ∈ pool_elements (pool_of b) -> is_pool b -> j = element_size b ->
    x + i <= y \/ y + j <= x) as Hmix.
  { intros x y b j i Hx Hy Hb ->. destruct (block_place _ _ _ _ Hc Er Hx) as (_ & _ & B3 & B4).
    destruct (element_place b y Hb Hy) as (_ & _ & E3 & E4 & _). destruct (pool_facts b Hb) as (_ & _ & _ & _ & Hwh).
    destruct (lo_apart Hlay (pool_of b) Hwh); lia. }
  destruct (grant_kind d) as [ -> | [Hd| -> ] ]; [| |by destruct (Hcu p n)];
    (destruct (grant_kind e) as [ -> | [He| -> ] ]; [| |by destruct (Hcu q k)]).
  - apply Hl in Hp, Hq. destruct Hc as (l & Hok & Hown). by apply (owns_disjoint (Client (l_heap a) live) l).
  - apply Hl in Hp. apply Hpo in Hq as (-> & _ & Hq); [|done]. by eapply Hmix.
  - apply Hl in Hq. apply Hpo in Hp as (-> & _ & Hp); [|done]. destruct (Hmix _ _ _ _ _ Hq Hp Hd eq_refl); auto.
  - apply Hpo in Hp as (-> & _ & Hp); [|done]. apply Hpo in Hq as (-> & _ & Hq); [|done].
    destruct (pool_facts d Hd) as (Hd1 & _ & Hdo & Es & _). destruct (pool_facts e He) as (He1 & _ & Heo & Ee & _).
    destruct (decide (Z.to_nat (pool_index d) = Z.to_nat (pool_index e))) as [Ei|Ei].
    + rewrite Ei, He1 in Hd1. injection Hd1 as E. rewrite <- E in *. rewrite <- Es, <- Ee. by apply elements_apart.
    + destruct (element_place d p Hd Hp) as (_ & _ & A3 & A4 & _). destruct (element_place e q He Hq) as (_ & _ & B3 & B4 & _).
      destruct (proj2 (lo_pools Hlay) _ _ _ _ Hd1 He1 Ei); lia.
Qed.

(** Changing the state of the heap. *)
Lemma heap_update a R R' s live' : lwip_ok a R -> client_ok (Client s live') -> LwipMem.ram s = LwipMem.ram (l_heap a) ->
  (forall p n, R' !! p = Some (MEM_HEAP, n) <-> live' !! p = Some n) ->
  (forall d p n, d <> MEM_HEAP -> R' !! p = Some (d, n) <-> R !! p = Some (d, n)) -> lwip_ok (Lwip s (l_pools a)) R'.
Proof.
  intros [_ Er (out & Ho & Hpo) Hcu] Hc Es Hl Hother. split; cbn [l_heap l_pools].
  - by exists live'.
  - congruence.
  - exists out. split; [done|]. intros d p n Hd. rewrite Hother by (by destruct Hd as [ -> | -> ]). by apply Hpo.
  - intros p n E. apply Hother in E; [|done]. by apply (Hcu p n).
Qed.

(** An address that is not granted is not live. *)
Lemma lwip_not_live a (R : grants) (live : gmap Z Z) p : lwip_ok a R -> (forall q n, R !! q = Some (MEM_HEAP, n) <-> live !! q = Some n) ->
  live !! p = None -> in_heap p -> R !! p = None.
Proof.
  intros Hok Hl Hp Hin. destruct (R !! p) as [[d n]|] eqn:E; [exfalso|done].
  destruct (grant_kind d) as [ -> | [Hd| -> ] ].
  - apply Hl in E. congruence.
  - destruct Hok as [_ _ (out & _ & Hpo) _]. apply Hpo in E as (-> & _ & Hpe); [|done].
    destruct (element_place d p Hd Hpe) as (_ & _ & A3 & A4 & _). destruct (pool_facts d Hd) as (_ & _ & _ & _ & Hwh).
    assert (0 < element_size d) by (by destruct Hd as [ -> | -> ]). unfold in_heap in Hin. destruct (lo_apart Hlay _ Hwh); lia.
  - by destruct (lk_custom _ _ Hok p n).
Qed.

Lemma insert_iff (R : grants) (live : gmap Z Z) p n : (forall q k, R !! q = Some (MEM_HEAP, k) <-> live !! q = Some k) ->
  (forall q k, <[p := (MEM_HEAP, n)]> R !! q = Some (MEM_HEAP, k) <-> <[p := n]> live !! q = Some k).
Proof.
  intros Hl q k. destruct (decide (q = p)) as [->|Hne]; [rewrite !lookup_insert_eq|rewrite !lookup_insert_ne by done; apply Hl].
  split; by intros [= ->].
Qed.

Lemma insert_other (R : grants) p n d q k : (R !! p = None \/ exists m, R !! p = Some (MEM_HEAP, m)) -> d <> MEM_HEAP ->
  <[p := (MEM_HEAP, n)]> R !! q = Some (d, k) <-> R !! q = Some (d, k).
Proof.
  intros Hp Hd. destruct (decide (q = p)) as [->|Hne]; [rewrite lookup_insert_eq|by rewrite lookup_insert_ne by done].
  split; [intros [= E]; congruence|]. intros E. destruct Hp as [Hp|[m Hp]]; congruence.
Qed.

Lemma lwip_mem_malloc a R n : lwip_ok a R -> 0 < n < 65533 -> exists p a', mem_malloc n a = Some (p, a') /\
  ((p = 0 /\ lwip_ok a' R) \/ (p <> 0 /\ R !! p = None /\ lwip_ok a' (<[p := (MEM_HEAP, n)]> R))).
Proof.
  intros Hok Hn. pose proof Hok as [(live & Hc & Hl) Er _ _].
  destruct (client_malloc _ n Hc Hn) as (p & s & E & Es & Hnl & Hc'). cbn [heap LwipMemTheorems.live] in *.
  exists p, (Lwip s (l_pools a)). cbn [mem_malloc lwip_allocator]. rewrite E. split; [done|].
  destruct (Z.eqb_spec p 0) as [->|Hp0]; [left; split; [done|]; by apply (heap_update a R R s live)|].
  right. specialize (Hnl Hp0).
  assert (R !! p = None) as Hfr.
  { eapply lwip_not_live; try done.
    destruct (block_place (Lwip s (l_pools a)) (<[p := n]> live) p n Hc') as (_ & ? & ? & ?); [cbn; congruence|by rewrite lookup_insert_eq|].
    unfold in_heap. lia. }
  split; [done|]. split; [done|]. apply (heap_update a R _ s (<[p := n]> live)); try done; [by apply insert_iff|].
  intros d q k Hd. apply insert_other; auto.
Qed.

Lemma delete_iff (R : grants) (live : gmap Z Z) p : (forall q k, R !! q = Some (MEM_HEAP, k) <-> live !! q = Some k) ->
  (forall q k, delete p R !! q = Some (MEM_HEAP, k) <-> delete p live !! q = Some k).
Proof. intros Hl q k. rewrite !lookup_delete_Some. by rewrite Hl. Qed.

Lemma lwip_mem_free a R p n : lwip_ok a R -> R !! p = Some (MEM_HEAP, n) ->
  exists a', mem_free p a = Some a' /\ lwip_ok a' (delete p R).
Proof.
  intros Hok Hp. pose proof Hok as [(live & Hc & Hl) Er _ _].
  destruct (client_free _ p Hc) as (s & E & Es & Hc'); [exists n; by apply Hl|]. cbn [heap LwipMemTheorems.live] in *.
  exists (Lwip s (l_pools a)). cbn [mem_free lwip_allocator]. rewrite E. split; [done|].
  apply (heap_update a R _ s (delete p live)); try done; [by apply delete_iff|].
  intros d q k Hd. rewrite lookup_delete_Some. split; [tauto|]. intros Hq. split; [|done]. intros ->. congruence.
Qed.

Lemma lwip_mem_trim a R p n k : lwip_ok a R -> R !! p = Some (MEM_HEAP, n) -> 0 < k <= n ->
  exists a', mem_trim p k a = Some (p, a') /\ lwip_ok a' (<[p := (MEM_HEAP, k)]> R).
Proof.
  intros Hok Hp Hk. pose proof Hok as [(live & Hc & Hl) Er _ _].
  destruct (client_trim _ p n k Hc) as (s & E & _ & Es & Hc'); [by apply Hl|done|]. cbn [heap LwipMemTheorems.live] in *.
  exists (Lwip s (l_pools a)). cbn [mem_trim lwip_allocator]. rewrite E. split; [done|].
  apply (heap_update a R _ s (<[p := k]> live)); try done; [by apply insert_iff|].
  intros d q j Hd. apply insert_other; eauto.
Qed.

(** Elements of the two pools are different. *)
Lemma pool_inj d e p : is_pool d -> is_pool e -> p ∈ pool_elements (pool_of d) -> p ∈ pool_elements (pool_of e) -> d = e.
Proof.
  intros Hd He Hp Hq. destruct (decide (d = e)) as [|Hne]; [done|exfalso].
  destruct (pool_facts d Hd) as (Hd1 & _). destruct (pool_facts e He) as (He1 & _).
  eapply (pools_disjoint memp_pools _ _ _ _ (lo_pools Hlay) Hd1 He1); [|done|done].
  pose proof (lo_ne Hlay). unfold pool_index. destruct Hd as [ -> | -> ], He as [ -> | -> ]; try done; rewrite !Nat2Z.id; auto.
Qed.

Lemma pool_update a R R' s out' : lwip_ok a R -> memp_ok memp_pools s out' ->
  (forall d p n, is_pool d -> R' !! p = Some (d, n) <-> n = element_size d /\ p ∈ out' /\ p ∈ pool_elements (pool_of d)) ->
  (forall d p n, ~ is_pool d -> R' !! p = Some (d, n) <-> R !! p = Some (d, n)) -> lwip_ok (Lwip (l_heap a) s) R'.
Proof.
  intros [(live & Hc & Hl) Er _ Hcu] Ho Hpo Hother. split; cbn [l_heap l_pools].
  - exists live. split; [done|]. intros p n. rewrite Hother; [apply Hl|]. by intros [|].
  - done.
  - by exists out'.
  - intros p n E. apply Hother in E; [by apply (Hcu p n)|]. by intros [|].
Qed.

Lemma lwip_memp_malloc a R d : lwip_ok a R -> is_pool d -> exists p a', memp_malloc d a = Some (p, a') /\
  ((p = 0 /\ lwip_ok a' R) \/ (p <> 0 /\ R !! p = None /\ lwip_ok a' (<[p := (d, element_size d)]> R))).
Proof.
  intros Hok Hd. pose proof Hok as [(live & Hc & Hl) Er (out & Ho & Hpo) Hcu]. destruct (pool_facts d Hd) as (Hi & Ei & _ & _ & Hwh).
  destruct (memp_malloc_spec memp_pools (lo_pools Hlay) (l_pools a) out _ _ Ho Hi) as (p & s & E & Hp). rewrite <- Ei in E.
  exists p, (Lwip (l_heap a) s). cbn [memp_malloc lwip_allocator]. rewrite E. split; [done|].
  destruct Hp as [(-> & -> & _)|(Hp0 & Hpe & Hpn & Ho')]; [left; split; [done|]; by apply (pool_update a R R _ out)|right].
  assert (R !! p = None) as Hfr.
  { destruct (R !! p) as [[e n]|] eqn:Ep; [exfalso|done]. destruct (grant_kind e) as [ -> | [He| -> ] ]; [| |by destruct (Hcu p n)].
    - apply Hl in Ep. destruct (block_place _ _ _ _ Hc Er Ep) as (_ & B2 & B3 & B4).
      destruct (element_place d p Hd Hpe) as (_ & _ & E3 & E4 & _). assert (0 < element_size d) by (by destruct Hd as [ -> | -> ]).
      destruct (lo_apart Hlay _ Hwh); lia.
    - by apply Hpo in Ep as (_ & ? & _). }
  split; [done|]. split; [done|]. apply (pool_update a R _ s ({[p]} ∪ out)); [done|done| |].
  - intros e q n He. destruct (decide (q = p)) as [->|Hne].
    + rewrite lookup_insert_eq. split; [intros [= <- <-]; set_solver|]. intros (-> & _ & Hq). by rewrite (pool_inj d e p).
    + rewrite lookup_insert_ne by done. rewrite Hpo by done. clear -Hne. set_solver.
  - intros e q n He. destruct (decide (q = p)) as [->|Hne]; [|by rewrite lookup_insert_ne by done].
    rewrite lookup_insert_eq, Hfr. split; [intros [= -> _]; done|done].
Qed.

Lemma lwip_memp_free a R d p n : lwip_ok a R -> is_pool d -> R !! p = Some (d, n) ->
  exists a', memp_free d p a = Some a' /\ lwip_ok a' (delete p R).
Proof.
  intros Hok Hd Hp. pose proof Hok as [(live & Hc & Hl) Er (out & Ho & Hpo) Hcu]. destruct (pool_facts d Hd) as (Hi & Ei & _).
  pose proof Hp as Hp'. apply Hpo in Hp' as (-> & Hpout & Hpe); [|done].
  destruct (memp_free_spec memp_pools (lo_pools Hlay) (l_pools a) out _ _ p Ho Hi Hpe Hpout) as (s & E & Ho'). rewrite <- Ei in E.
  exists (Lwip (l_heap a) s). cbn [memp_free lwip_allocator]. rewrite E. split; [done|].
  apply (pool_update a R _ s (out ∖ {[p]})); [done|done| |].
  - intros e q n He. rewrite lookup_delete_Some, Hpo by done. clear. set_solver.
  - intros e q n He. rewrite lookup_delete_Some. split; [tauto|]. intros Hq. split; [|done]. intros ->. congruence.
Qed.

#[local] Instance lwip_allocator_laws : allocator_laws lwip_state := {
  arena := lwip_arena;
  al_ok := lwip_ok;
  al_region := lwip_region;
  al_disjoint := lwip_disjoint;
  al_memp_malloc := lwip_memp_malloc;
  al_memp_free := lwip_memp_free;
  al_mem_malloc := lwip_mem_malloc;
  al_mem_free := lwip_mem_free;
  al_mem_trim := lwip_mem_trim
}.

(** Nothing is handed out after the start. *)
Lemma lwip_init_ok s0 : lwip_ok (Lwip (mem_init ram_heap) (memp_init memp_pools s0)) ∅.
Proof.
  split; cbn [l_heap l_pools].
  - exists ∅. split; [|done]. eexists. split; [by apply init_heap_ok, Hlay|]. split; [done|].
    intros b Hb. by apply list_elem_of_singleton in Hb as ->.
  - done.
  - exists ∅. split; [apply memp_init_spec, Hlay|]. intros d p n Hd. rewrite lookup_empty. set_solver.
  - done.
Qed.
End instance.
