(* ===== verification/PbufNet.v ===== *)
(** * Packets in allocated memory

    What the operations that allocate do to packets as byte strings, for any
    allocator that keeps the laws. *)

From Stdlib Require Import ZArith Lia.
From stdpp Require Import base gmap list numbers.
From S2P Require Import Prelude LwipMem Pbuf PbufChain PbufReadWrite PbufCopy PbufAlloc PbufAllocProof.
From stdpp Require Import sets list.
Import OptionNotations PbufCopy PbufChain.

Local Open Scope Z_scope.

Section net.
Context {A : Type} `{allocator_laws A}.

(** ** Payloads *)

(** The pbuf has its payload in memory of the allocator. *)
Definition owned (ab : Z * pbuf) : Prop := dealloc_of (snd ab) = MEM_HEAP \/ dealloc_of (snd ab) = MEMP_PBUF_POOL.

Lemma owned_place w R a b : net_ok w R -> pbufs (bufs w) !! a = Some b -> owned (a, b) ->
  exists d n, R !! a = Some (d, n) /\ a + SIZEOF_STRUCT_PBUF <= payload b /\ payload b + len b <= a + n.
Proof.
  intros Hok Hb Ho. unfold owned in Ho. cbn [snd] in Ho.
  destruct (no_bufs _ _ Hok _ _ Hb) as [[Hc _]|(_ & n & Hn & Hin)]; [destruct Ho; congruence|].
  exists (dealloc_of b), n. split; [done|]. apply Hin. destruct Ho; congruence.
Qed.

Lemma load_total m a n : (forall i, a <= i < a + Z.of_nat n -> is_Some (m !! i)) -> exists x, load m a n = Some x.
Proof.
  intros Hi. destruct (load m a n) as [x|] eqn:E; [eauto|]. exfalso. unfold load in E.
  assert (forall i, i ∈ seqZ a (Z.of_nat n) -> is_Some (m !! i)) as Hs by (intros i Hin; apply elem_of_seqZ in Hin; apply Hi; lia).
  clear Hi. induction (seqZ a (Z.of_nat n)) as [|i l IH]; [done|]. cbn [mapM] in E.
  destruct (Hs i ltac:(by left)) as [c Hc]. rewrite Hc in E. cbn in E. destruct (mapM _ l); [done|]. apply IH; [done|]. intros j Hj. apply Hs. by right.
Qed.

(** Two pbufs have their payloads in different places. *)
Lemma owned_apart w R a b c d i : net_ok w R -> pbufs (bufs w) !! a = Some b -> pbufs (bufs w) !! c = Some d ->
  owned (a, b) -> owned (c, d) -> a <> c -> payload b <= i < payload b + len b -> ~ payload d <= i < payload d + len d.
Proof.
  intros Hok Hb Hd Ob Od Hne Hi Hi'. destruct (owned_place _ _ _ _ Hok Hb Ob) as (e & n & He & A1 & A2).
  destruct (owned_place _ _ _ _ Hok Hd Od) as (f & k & Hf & B1 & B2). unfold SIZEOF_STRUCT_PBUF in *.
  destruct (al_disjoint _ _ _ _ _ _ _ _ (no_al _ _ Hok) He Hf Hne); lia.
Qed.

(** A chain of such pbufs is a packet. *)
Lemma owned_packet w R p l : net_ok w R -> chain (bufs w) p l -> wf l -> Forall owned l ->
  apart l /\ exists d, packet (bufs w) p l d /\ Z.of_nat (length d) = chain_len l.
Proof.
  intros Hok Hc Hw Ho. pose proof (chain_nodup _ _ _ Hc) as Hnd.
  assert (forall a b, (a, b) ∈ l -> pbufs (bufs w) !! a = Some b) as Hin by (intros a b Hab; by eapply links_lookup).
  assert (apart l /\ exists d, contents (ram (bufs w)) l = Some d) as [Ha [d Hd]].
  { clear Hc. induction l as [|[a b] l IH]; [by split; [|exists []]|]. cbn [fmap list_fmap fst] in Hnd. apply NoDup_cons in Hnd as [Hna Hnd].
    apply Forall_cons in Ho as [Hob Ho]. destruct Hw as (Hl & _ & _ & Hw).
    destruct IH as [IHa [d IHd]]; [done|done|done|intros x y Hxy; apply Hin; by right|].
    pose proof (Hin a b ltac:(by left)) as Hb. split.
    - split; [|done]. intros i Hi (x & y & Hxy & Hy). assert (x ∈ l.*1) by (apply list_elem_of_fmap; by exists (x, y)).
      rewrite Forall_forall in Ho. eapply (owned_apart w R a b x y i); try done; [apply Hin; by right|by apply Ho|by intros ->].
    - cbn [contents]. destruct (owned_place _ _ _ _ Hok Hb Hob) as (e & n & He & A1 & A2). unfold SIZEOF_STRUCT_PBUF in *.
      destruct (al_region _ _ _ _ _ (no_al _ _ Hok) He) as (_ & _ & _ & _ & Har).
      destruct (load_total (ram (bufs w)) (payload b) (Z.to_nat (len b))) as [x ->].
      + intros i Hi. apply (no_ram _ _ Hok), Har. lia.
      + rewrite IHd. eauto. }
  split; [done|]. exists d. split; [by split|]. by eapply contents_length.
Qed.

(** A new packet has bytes. *)
Lemma new_packet_data w0 w R0 R ty length offset p l : new_packet w0 w R0 R ty length offset p l -> ty = PBUF_RAM \/ ty = PBUF_POOL ->
  apart l /\ exists d, packet (bufs w) p l d /\ Z.of_nat (List.length d) = length.
Proof.
  intros [Hnet _ Hc _ _ _ Hw Hl Hb _ _] Hty. rewrite <- Hl. apply (owned_packet w R); try done.
  eapply Forall_impl; [exact Hb|]. intros [a b] (Ht & Hf & _). unfold owned, dealloc_of. cbn [snd] in *. rewrite Hf, Ht. cbn.
  destruct Hty as [ -> | -> ]; auto.
Qed.

(** A custom pbuf over a buffer of the caller. *)
Lemma alloced_custom_spec layer length ty p mem mem_len h : 0 <= length < 65536 -> p <> 0 -> mem <> 0 -> allocated (ram h) mem mem_len ->
  let '(q, h') := pbuf_alloced_custom layer length ty p mem mem_len h in
  if mem_len <? LWIP_MEM_ALIGN_SIZE (layer_offset layer) + length then q = 0 /\ h' = h
  else q = p /\ exists b d, packet h' p [(p, b)] d /\ Z.of_nat (List.length d) = length /\ dealloc_of b = CUSTOM /\
    mem + layer_offset layer <= payload b /\ payload b + length <= mem + mem_len.
Proof.
  intros Hl Hp Hm Ha. unfold pbuf_alloced_custom. destruct (Z.ltb_spec mem_len (LWIP_MEM_ALIGN_SIZE (layer_offset layer) + length)); [done|].
  split; [done|]. destruct (offset_facts layer) as (F1 & F2 & _). rewrite (proj2 (Z.eqb_neq mem 0) Hm). cbn [negb].
  set (ao := LWIP_MEM_ALIGN_SIZE (layer_offset layer)) in *. set (b := Pbuf 0 (mem + ao) length length ty PBUF_FLAG_IS_CUSTOM 1).
  destruct (load_total (ram h) (mem + ao) (Z.to_nat length)) as [d Hd].
  { intros i Hi. apply Ha. lia. }
  pose proof (proj1 (load_Some _ _ _ _) Hd) as [El _]. exists b, d. split; [|split; [lia|split; [done|cbn; lia]]]. split.
  - cbn [chain put_pbuf pbufs]. by rewrite lookup_insert_eq.
  - cbn [wf chain_len len tot_len b]. repeat split; lia.
  - cbn [contents put_pbuf ram payload len b]. rewrite Hd. by rewrite app_nil_r.
Qed.

(** ** Receiving a frame *)

Lemma read_frame_spec l : forall fuel p h d x,
  packet h p l d -> apart l -> length x = length d -> (length l <= fuel)%nat ->
  exists m, read_frame fuel p x h = Some (set_ram m h) /\ rewritten (ram h) l m x.
Proof.
  induction l as [|[a b] l IH]; intros fuel p h d x [Hc Hw Hd] Ha Hx Hf.
  - injection Hd as <-. destruct x; [|done]. cbn in Hc. subst p. exists (ram h). split; [by destruct fuel, h|]. by split.
  - pose proof (contents_length _ _ _ Hw Hd) as El. destruct Hc as (-> & Ha0 & Hb & Hc). destruct fuel as [|fuel]; [cbn in Hf; lia|].
    cbn [read_frame]. rewrite (proj2 (Z.eqb_neq a 0) Ha0), Hb. pose proof Hw as (H1 & _ & _ & Hw'). pose proof (wf_total _ Hw') as Ht.
    set (n := Z.to_nat (len b)). cbn [chain_len] in El. set (y := take n x).
    assert (Z.of_nat (length y) = len b) as Ey by (unfold y; rewrite length_take; lia).
    assert (allocated (ram h) (payload b) (len b)) as Hal.
    { cbn [contents] in Hd. destruct (load (ram h) (payload b) _) as [z|] eqn:Ez; [|done].
      apply load_allocated in Ez. rewrite Z2Nat.id in Ez by done. done. }
    rewrite store_allocated by (by rewrite Ey).
    destruct (contents_write_head (ram h) a b l d 0 y) as [_ Etl]; [done|done|done|lia|lia|]. rewrite Z.add_0_r in Etl.
    set (m1 := write (ram h) (payload b) y) in *. destruct Ha as [Hao Ha].
    assert (exists d1, contents m1 l = Some d1 /\ (length d1 = length d - n)%nat) as (d1 & Ed1 & Ln).
    { rewrite Etl. cbn [contents] in Hd. destruct (load (ram h) _ _) as [z|] eqn:Ez; [|done]. apply load_Some in Ez as [Ez _].
      destruct (contents (ram h) l) as [d1|]; [|done]. injection Hd as <-. exists d1. rewrite length_app. split; [done|]. unfold n. lia. }
    destruct (IH fuel (next b) (set_ram m1 h) d1 (drop n x)) as (m & E & Em & Hm).
    + split; [by apply (chain_frame h)|done|done].
    + done.
    + rewrite length_drop. lia.
    + cbn in Hf. lia.
    + exists m. split; [exact E|]. cbn [ram set_ram] in *. split.
      * cbn [contents]. rewrite (load_ext m1 m) by (intros i Hi; apply Hm; intros Hr; apply (Hao i); [unfold n in *; lia|done]).
        replace (Z.to_nat (len b)) with (length y) by lia. unfold m1. rewrite load_write, Em. unfold y. by rewrite take_drop.
      * intros i Hi. rewrite region_cons in Hi. rewrite Hm by tauto. unfold m1. apply lookup_write_outside. lia.
Qed.

Lemma set_ram_net_ok w R m : net_ok w R -> (forall i, is_Some (ram (bufs w) !! i) -> is_Some (m !! i)) ->
  net_ok (with_bufs (set_ram m (bufs w)) w) R.
Proof. intros [N1 N2 N3] Hm. split; [done| |done]. intros i Hi. apply Hm. by apply N2. Qed.

Lemma rewritten_dom m l m' d i : rewritten m l m' d -> wf l -> is_Some (m !! i) -> is_Some (m' !! i).
Proof.
  intros [Hc Ho] Hw Hm. assert (region l i -> is_Some (m' !! i)) as Hreg.
  { clear Ho Hm. revert d Hc. induction l as [|[a b] l IH]; intros d Hc Hr; [destruct Hr as (x & y & Hin & _); set_solver|].
    destruct Hw as (H1 & _ & _ & Hw). cbn [contents] in Hc. destruct (load m' (payload b) _) as [x|] eqn:E; [|done].
    destruct (contents m' l) as [y|]; [|done]. apply region_cons in Hr as [Hi|Hr]; [|by eapply IH].
    apply load_allocated in E. apply E. lia. }
  destruct (decide (Exists (fun ab => payload (snd ab) <= i < payload (snd ab) + len (snd ab)) l)) as [Hex|Hn].
  - apply Exists_exists in Hex as ([a b] & Hin & Hi). apply Hreg. by exists a, b.
  - rewrite Ho; [done|]. intros (a & b & Hin & Hi). apply Hn, Exists_exists. by exists (a, b).
Qed.

Lemma input_spec w R stale posted frame :
  net_ok w R -> (0 < length frame < Z.to_nat 65536)%nat -> Z.land stale PBUF_FLAG_IS_CUSTOM = 0 ->
  exists p w', low_level_input stale posted (Some frame) w = Some (true, p, w') /\
    if p =? 0 then net_ok w' R /\ pbufs (bufs w') = pbufs (bufs w) /\ ram (bufs w') = ram (bufs w)
    else exists R' l, packet (bufs w') p l frame /\ Forall (fun ab => owned ab /\ ref (snd ab) = 1) l /\
      net_ok w' R' /\ revoke (l.*1) R' = R /\ (forall a, a ∈ l.*1 -> is_Some (R' !! a)) /\
      (forall a, a ∈ l.*1 -> pbufs (bufs w) !! a = None /\ R !! a = None) /\
      (forall a, a ∉ l.*1 -> pbufs (bufs w') !! a = pbufs (bufs w) !! a) /\
      (forall i, ~ region l i -> ram (bufs w') !! i = ram (bufs w) !! i).
Proof.
  intros Hok Hlen Hst. unfold low_level_input. rewrite u16_small by lia.
  destruct (alloc_spec w R stale posted PBUF_RAW (Z.of_nat (length frame)) PBUF_POOL Hok) as (p & w1 & -> & Hout); [lia|done|].
  destruct (Z.eqb_spec p 0) as [->|Hp0]; [exists 0, w1; done|]. cbn [negb].
  destruct Hout as (R1 & l & Hnew). destruct (new_packet_data _ _ _ _ _ _ _ _ _ Hnew) as [Ha (d & Hd & Ld)]; [by right|].
  destruct Hnew as [Hnet Hrev Hc Hn Hold Hram Hw Hl Hb Hne (b & k & El & _)].
  pose proof (chain_fuel_enough _ _ _ Hc) as Hfu.
  destruct (read_frame_spec l (chain_fuel (bufs w1)) p (bufs w1) d frame Hd Ha) as (m & E & Hrw); [lia|lia|].
  rewrite E. assert (pbufs (bufs w1) !! p = Some b) as Hpb by (eapply (links_lookup _ _ _ p b Hc); rewrite El; by left).
  cbn [set_ram pbufs ram]. rewrite Hpb.
  assert (is_Some (m !! payload b)) as [c Hcm].
  { specialize (Hne ltac:(lia)). rewrite El in Hne. apply Forall_cons in Hne as [Hlb _]. cbn in Hlb.
    eapply (rewritten_dom _ _ _ _ _ Hrw Hw). destruct Hd as [_ _ Hd]. rewrite El in Hd. cbn [contents] in Hd.
    destruct (load (ram (bufs w1)) (payload b) _) as [x|] eqn:Ex; [|done]. apply load_allocated in Ex. apply Ex. lia. }
  rewrite Hcm. eexists p, _. split; [done|]. rewrite (proj2 (Z.eqb_neq p 0) Hp0). exists R1, l.
  assert (Forall (fun ab => owned ab /\ ref (snd ab) = 1) l) as Hown.
  { eapply Forall_impl; [exact Hb|]. intros [x y] (Ht & Hf & Hr). split; [|done]. unfold owned, dealloc_of. cbn [snd] in *. rewrite Hf, Ht. by right. }
  split; [split; [by apply (chain_frame (bufs w1))|done|apply Hrw]|]. split; [done|]. split; [|split; [done|split; [|split; [done|split; [done|]]]]].
  2: { intros x Hx. apply list_elem_of_fmap in Hx as ([x' y] & -> & Hxy). rewrite Forall_forall in Hown.
       destruct (owned_place w1 R1 x' y Hnet) as (e & n & He & _); [by eapply links_lookup|by apply Hown|]. by exists (e, n). }
  - apply set_ram_net_ok; [done|]. intros i Hi. by eapply rewritten_dom.
  - intros i Hi. cbn. rewrite (proj2 Hrw) by done. by rewrite Hram.
Qed.

(** ** Coalescing *)

(** A packet stays the same when other pbufs and other memory change. *)
Lemma packet_frame h h' p l d : packet h p l d -> (forall a b, (a, b) ∈ l -> pbufs h' !! a = pbufs h !! a) ->
  (forall i, region l i -> ram h' !! i = ram h !! i) -> packet h' p l d.
Proof.
  intros [Hc Hw Hd] Hb Hr. split; [by apply (chain_frame h)|done|]. rewrite <- Hd. by apply contents_ext.
Qed.

Lemma splice_all (d x : list Z) : length x = length d -> splice d 0 x = x.
Proof. intros E. unfold splice. rewrite take_0, drop_ge by (cbn; lia). by rewrite app_nil_r. Qed.

(** The packets there were are still there beside a new one. *)
Lemma old_packet w0 w R0 R ty length offset q l1 p l d :
  new_packet w0 w R0 R ty length offset q l1 -> packet (bufs w0) p l d -> packet (bufs w) p l d /\ l1.*1 ## l.*1.
Proof.
  intros Hnew Hp. assert (l1.*1 ## l.*1) as Hdj.
  { intros x Hx Hy. apply list_elem_of_fmap in Hy as ([y b] & -> & Hyb). destruct (links_lookup _ _ _ _ _ (pk_chain _ _ _ _ Hp) Hyb) as [_ Hb].
    destruct (np_new _ _ _ _ _ _ _ _ _ Hnew _ Hx) as [Hn _]. cbn in Hn. congruence. }
  split; [|done]. apply (packet_frame (bufs w0)); [done| |].
  - intros x y Hxy. apply (np_old _ _ _ _ _ _ _ _ _ Hnew). intros Hx. apply (Hdj x Hx), list_elem_of_fmap. by exists (x, y).
  - intros i _. by rewrite (np_ram _ _ _ _ _ _ _ _ _ Hnew).
Qed.

(** Two packets of different pbufs have their bytes in different places. *)
Lemma regions_apart w R p l q k : net_ok w R -> chain (bufs w) p l -> chain (bufs w) q k -> Forall owned l -> Forall owned k ->
  k.*1 ## l.*1 -> forall i, region l i -> ~ region k i.
Proof.
  intros Hok Hl Hk Ol Ok Hdj i (a & b & Hab & Hi) (c & e & Hce & Hj). rewrite Forall_forall in Ol, Ok.
  eapply (owned_apart w R a b c e i Hok); try done; [apply (links_lookup _ _ _ _ _ Hl Hab)|apply (links_lookup _ _ _ _ _ Hk Hce)|by apply Ol|by apply Ok|].
  intros ->. apply (Hdj c); apply list_elem_of_fmap; [by exists (c, e)|by exists (c, b)].
Qed.

Lemma coalesce_spec w R stale p layer l d :
  net_ok w R -> packet (bufs w) p l d -> l <> [] -> Forall owned l -> nonempty l -> Forall (fun ab => 1 <= ref (snd ab) < 65536) l ->
  Z.land stale PBUF_FLAG_IS_CUSTOM = 0 ->
  exists q w' R', pbuf_coalesce stale p layer w = Some (q, w') /\ net_ok w' R' /\
    ((q = p /\ packet (bufs w') p l d) \/
     exists b, packet (bufs w') q [(q, b)] d /\ pbufs (bufs w) !! q = None /\
       q + SIZEOF_STRUCT_PBUF + layer_offset layer <= payload b /\
       (Forall (has_ref 1) l -> forall a, a ∈ l.*1 -> pbufs (bufs w') !! a = None)).
Proof.
  intros Hok Hp Hl Ho Hne Hrefs Hst. destruct l as [|[a b] l]; [done|]. destruct (packet_head _ _ _ _ _ _ Hp) as (-> & _ & Hb & Et & Hlt).
  unfold pbuf_coalesce. rewrite Hb. destruct (Z.eqb_spec (next b) 0) as [Hn0|Hn0]; [exists a, w, R; auto|].
  set (l0 := (a, b) :: l) in *. rewrite Et.
  destruct (alloc_spec w R stale true layer (Z.of_nat (length d)) PBUF_RAM Hok) as (q & w1 & -> & Hout); [lia|done|].
  destruct (Z.eqb_spec q 0) as [->|Hq0].
  { destruct Hout as (H1 & H2 & H3). exists a, w1, R. split; [done|]. split; [done|]. left. split; [done|].
    apply (packet_frame (bufs w)); [done|intros x y _; by rewrite H2|intros i _; by rewrite H3]. }
  destruct Hout as (R1 & l1 & Hnew). destruct (new_packet_data _ _ _ _ _ _ _ _ _ Hnew) as [Hap (dt & Hdt & Ldt)]; [by left|].
  destruct (old_packet _ _ _ _ _ _ _ _ _ _ _ _ Hnew Hp) as [Hp1 Hdj].
  pose proof Hnew as [Hnet _ Hc Hfresh _ _ Hw _ Hbuf Hnem (b1 & k & El & Hk & Hroom)]. rewrite Hk in El by done. subst l1.
  assert (Forall owned [(q, b1)]) as Ho1.
  { apply Forall_singleton. apply Forall_singleton in Hbuf as (Hty & Hfl & _). unfold owned, dealloc_of. cbn [snd] in *. rewrite Hfl, Hty. by left. }
  assert (0 < Z.of_nat (length d)) as Hpos.
  { apply Forall_cons in Hne as [Hlb _]. cbn in Hlb. destruct (pk_wf _ _ _ _ Hp) as (_ & Htb & _ & Hwt). apply wf_total in Hwt. lia. }
  destruct (copy_spec (bufs w1) q a [(q, b1)] l0 dt d) as (m & -> & Hrw); try done; [|by apply Hnem|lia|].
  { by eapply (regions_apart w1 R1 a l0 q [(q, b1)]); try done; apply Hp1. }
  cbn [negb Z.eqb ERR_OK]. rewrite splice_all in Hrw by lia. set (w2 := with_bufs (set_ram m (bufs w1)) w1).
  assert (net_ok w2 R1) as Hok2 by (apply set_ram_net_ok; [done|]; intros i Hi; by eapply rewritten_dom).
  assert (chain (bufs w2) a l0) as Hc2 by (apply (chain_frame (bufs w1)); [apply Hp1|done]).
  destruct (net_free_spec w2 R1 a l0 Hok2 Hc2) as (f1 & f2 & n & w' & Ef & F1 & F2 & E & (Hr1 & _ & Hr2) & Hok'); [done|done|].
  rewrite E. exists q, w', (revoke (f1.*1) R1). split; [done|]. split; [done|]. right. exists b1.
  assert (q ∉ l0.*1) as Hql by (intros Hx; apply (Hdj q); [by left|done]). rewrite Ef, fmap_app in Hql.
  split; [|split; [by apply Hfresh; left|split; [by apply Hroom; left|]]].
  - split; [|done|rewrite Hr1; apply Hrw]. cbn [chain]. split; [done|]. split; [done|]. split; [|apply Hc].
    rewrite Hr2, decide_False by set_solver. assert (pbufs (bufs w2) !! q = Some b1) as Hq1 by apply Hc.
    destruct f2 as [|[x y] f2]; [done|]. rewrite decide_False; [done|]. intros ->. set_solver.
  - intros Hall x Hx. assert (f2 = []) as ->.
    { destruct f2 as [|ab f2]; [done|]. destruct F2. rewrite Ef in Hall. apply Forall_app in Hall as [_ Hall]. by apply Forall_cons in Hall as [Hx' _]. }
    rewrite app_nil_r in Ef. rewrite Hr2, <- Ef. by rewrite decide_True.
Qed.
End net.

(** * Shrinking a packet

    [pbuf_realloc] keeps the first bytes of a packet and gives back the pbufs
    behind them and the end of the last one that stays. *)

(** ** The pbufs that stay whole *)

(** Their total lengths lose what is cut off. *)
Definition shrunk (grow : Z) (l : links) : links := map (fun ab => (fst ab, set_tot_len (tot_len (snd ab) + grow) (snd ab))) l.

Lemma shrunk_addrs g l : (shrunk g l).*1 = l.*1.
Proof. unfold shrunk. change (map fst (map (fun ab => (fst ab, set_tot_len (tot_len (snd ab) + g) (snd ab))) l) = map fst l). by rewrite map_map. Qed.

Lemma shrunk_contents m g l : contents m (shrunk g l) = contents m l.
Proof. induction l as [|[a b] l IH]; [done|]. cbn [shrunk map contents fst snd payload len set_tot_len]. fold (shrunk g l). by rewrite IH. Qed.

Lemma shrunk_len g l : chain_len (shrunk g l) = chain_len l.
Proof. induction l as [|[a b] l IH]; [done|]. cbn [shrunk map chain_len fst snd len set_tot_len]. fold (shrunk g l). by rewrite IH. Qed.

(** [h'] is [h] with the total lengths of [k] shrunk. *)
Definition kept (h : heap) (g : Z) (k : links) (h' : heap) : Prop :=
  ram h' = ram h /\ freed h' = freed h /\
  (forall a b, (a, b) ∈ shrunk g k -> pbufs h' !! a = Some b) /\ (forall a, a ∉ k.*1 -> pbufs h' !! a = pbufs h !! a).

Lemma keep_spec g l : g < 0 -> forall fuel p rem h,
  chain h p l -> wf l -> 0 <= rem -> rem = chain_len l + g -> (length l <= fuel)%nat ->
  exists k q b t h', l = k ++ (q, b) :: t /\ realloc_keep fuel p rem g h = Some (q, rem - chain_len k, h') /\
    0 <= rem - chain_len k <= len b /\ kept h g k h'.
Proof.
  intros Hg. induction l as [|[a b] l IH]; intros fuel p rem h Hc Hw Hr Er Hf; [cbn in Er; lia|].
  pose proof (chain_nodup _ _ _ Hc) as Hnd. cbn [fmap list_fmap fst] in Hnd. apply NoDup_cons in Hnd as [Hna _].
  destruct Hc as (-> & Ha & Hb & Hc), Hw as (H1 & H2 & H3 & Hw). pose proof (wf_total _ Hw) as Ht. cbn [chain_len] in Er.
  assert (realloc_keep fuel a rem g h = if len b <? rem then match fuel with O => None | S fuel =>
      let? h := alter_pbuf a (set_tot_len (tot_len b + u16 g)) h in
      if next b =? 0 then None else realloc_keep fuel (next b) (u16 (rem - len b)) g h end else Some (a, rem, h)) as E.
  { destruct fuel; cbn [realloc_keep]; rewrite Hb; [done|]. by rewrite (proj2 (Z.ltb_lt g 0xffff)) by lia. }
  rewrite E. clear E. destruct (Z.ltb_spec (len b) rem) as [Hlt|Hge].
  - destruct fuel as [|fuel]; [cbn in Hf; lia|]. unfold alter_pbuf. rewrite Hb.
    destruct l as [|[a2 b2] l]; [cbn in Er; lia|].
    assert ((next b =? 0) = false) as -> by (destruct Hc as (-> & ? & _); by apply Z.eqb_neq). rewrite u16_small by lia.
    assert (set_tot_len (tot_len b + u16 g) b = set_tot_len (tot_len b + g) b) as ->.
    { unfold set_tot_len. f_equal. unfold u16, wrap. by rewrite Z.add_mod_idemp_r by lia. }
    set (h1 := Heap _ _ _). destruct (IH fuel (next b) (rem - len b) h1) as (k & q & c & t & h' & El & E & Hq & Hk); [|done|lia|lia|cbn in Hf |- *; lia|].
    { apply (chain_frame h); [exact Hc|]. intros x y Hxy. cbn [h1 pbufs]. rewrite lookup_insert_ne; [done|].
      intros <-. apply Hna, list_elem_of_fmap. by exists (a, y). }
    exists ((a, b) :: k), q, c, t, h'. rewrite El. split; [done|]. cbn [chain_len]. split; [rewrite E; do 3 f_equal; lia|]. split; [lia|].
    destruct Hk as (K1 & K2 & K3 & K4). split; [done|]. split; [done|].
    assert (a ∉ k.*1) as Hak. { rewrite El, fmap_app in Hna. set_solver. }
    split.
    + intros x y Hxy. cbn [shrunk map fst snd] in Hxy. apply elem_of_cons in Hxy as [[= -> ->]|Hxy]; [|by apply K3].
      rewrite K4 by done. cbn [h1 pbufs]. by rewrite lookup_insert_eq.
    + intros x Hx. cbn [fmap list_fmap fst] in Hx. rewrite K4 by set_solver. cbn [h1 pbufs]. apply lookup_insert_ne. set_solver.
  - exists [], a, b, l, h. cbn [chain_len]. rewrite Z.sub_0_r. split; [done|]. split; [done|]. split; [lia|]. repeat split; try done. intros x y Hxy. set_solver.
Qed.

Lemma shrunk_wf g k q b t rem : wf (k ++ (q, b) :: t) -> g < 0 -> 0 <= rem -> rem + chain_len k = chain_len (k ++ (q, b) :: t) + g ->
  forall b', len b' = rem -> tot_len b' = rem -> wf (shrunk g k ++ [(q, b')]).
Proof.
  intros Hw Hg Hr E b' Hl Ht. rewrite chain_len_app in E. cbn [chain_len] in E. pose proof (wf_app _ _ Hw) as (W1 & W2 & W3 & W4).
  pose proof (wf_total _ W4). assert (rem < 65536) as Hlt by lia. revert Hw E. induction k as [|[a c] k IH]; intros Hw E; cbn [shrunk map app wf fst snd] in *.
  - cbn [chain_len] in *. repeat split; lia.
  - destruct Hw as (C1 & C2 & C3 & Hw). fold (shrunk g k). rewrite chain_len_app in C2. cbn [chain_len] in *.
    rewrite chain_len_app, shrunk_len. cbn [chain_len len tot_len set_tot_len].
    pose proof (wf_total_l _ _ Hw). rewrite u16_small by lia. repeat split; [done|lia|lia|]. apply IH; [done|lia].
Qed.

(** ** The last pbuf *)

Section realloc.
Context {A : Type} `{allocator_laws A}.

(** Giving back the end of the memory of the last pbuf. *)
Lemma last_ok w1 R q b rem : al_ok (alloc w1) R -> buf_ok R q b -> 0 <= rem <= len b -> q <> 0 ->
  exists a1 R1,
    (if bool_decide (type b = PBUF_RAM) && negb (rem =? len b) && (Z.land (flags b) PBUF_FLAG_IS_CUSTOM =? 0) then
       let? (q', a) := mem_trim q (u16 (u16 (payload b - q) + rem)) (alloc w1) in
       if q' =? 0 then None else Some (q', with_alloc a w1)
     else Some (q, w1)) = Some (q, with_alloc a1 w1) /\
    al_ok a1 R1 /\ (forall x, x <> q -> R1 !! x = R !! x) /\
    forall b', dealloc_of b' = dealloc_of b -> payload b' = payload b -> len b' = rem -> buf_ok R1 q b'.
Proof.
  intros Ha Hb Hr Hq. destruct (bool_decide _ && _ && _) eqn:E.
  - apply andb_true_iff in E as [E E3]. apply andb_true_iff in E as [E1 E2]. apply bool_decide_eq_true in E1.
    assert (dealloc_of b = MEM_HEAP) as Hd by (unfold dealloc_of; by rewrite E3, E1).
    destruct Hb as [[Hc _]|(_ & n & Hn & Hin)]; [congruence|]. rewrite Hd in Hn, Hin. destruct (Hin ltac:(done)) as [P1 P2].
    destruct (al_region _ _ _ _ _ Ha Hn) as (_ & _ & Hnb & _). unfold SIZEOF_STRUCT_PBUF in *.
    rewrite (u16_small (payload b - q)), (u16_small (payload b - q + rem)) by lia.
    destruct (al_mem_trim _ _ q n (payload b - q + rem) Ha Hn) as (a1 & -> & Ha1); [lia|].
    rewrite (proj2 (Z.eqb_neq q 0) Hq). eexists a1, _. split; [done|]. split; [exact Ha1|]. split.
    + intros x Hx. by apply lookup_insert_ne.
    + intros b' Hd' Hp' Hl'. right. rewrite Hd', Hd. split; [done|]. eexists. rewrite lookup_insert_eq. split; [done|].
      intros _. unfold SIZEOF_STRUCT_PBUF. lia.
  - exists (alloc w1), R. split; [by destruct w1|]. split; [done|]. split; [done|]. intros b' Hd' Hp' Hl'. unfold buf_ok. rewrite Hd', Hp', Hl'.
    destruct Hb as [Hb|(Hc & n & Hn & Hin)]; [by left|right]. split; [done|]. exists n. split; [done|]. intros Hm. destruct (Hin Hm). lia.
Qed.

(** The heap after the kept pbufs have been adjusted. *)
Lemma kept_bufs w R g k h' : net_ok w R -> kept (bufs w) g k h' -> (forall a b, (a, b) ∈ k -> pbufs (bufs w) !! a = Some b) ->
  forall a b, pbufs h' !! a = Some b -> buf_ok R a b.
Proof.
  intros Hok (_ & _ & K3 & K4) Hk a b Hb. destruct (decide (a ∈ k.*1)) as [Hin|Hn].
  - apply list_elem_of_fmap in Hin as ([x c] & -> & Hxc). cbn [fst] in *.
    rewrite (K3 x (set_tot_len (tot_len c + g) c)) in Hb by (apply list_elem_of_fmap; by exists (x, c)). injection Hb as <-.
    apply (buf_ok_frame R R x c); try done. apply Hok. by apply Hk.
  - rewrite K4 in Hb by done. by apply Hok.
Qed.

(** The chain of the kept pbufs and the last one. *)
Lemma shrunk_chain h h' g p k q b t b' :
  chain h p (k ++ (q, b) :: t) -> (forall x y, (x, y) ∈ shrunk g k -> pbufs h' !! x = Some y) ->
  pbufs h' !! q = Some b' -> next b' = 0 -> chain h' p (shrunk g k ++ [(q, b')]).
Proof.
  revert p. induction k as [|[a c] k IH]; intros p Hc Hk Hq Hn; cbn [app chain shrunk map fst snd] in *.
  - destruct Hc as (-> & Hq0 & _). done.
  - destruct Hc as (-> & Ha & _ & Hc). split; [done|]. split; [done|]. split; [apply Hk; by left|].
    apply IH; [exact Hc| |done|done]. intros x y Hxy. apply Hk. by right.
Qed.

Lemma contents_cut m k q b t d rem b' : wf (k ++ (q, b) :: t) -> contents m (k ++ (q, b) :: t) = Some d -> 0 <= rem <= len b ->
  payload b' = payload b -> len b' = rem -> contents m (k ++ [(q, b')]) = Some (take (Z.to_nat (chain_len k + rem)) d).
Proof.
  intros Hw Hd Hr Hp Hl. pose proof (wf_total_l _ _ Hw) as Hk. apply contents_app in Hd as (d1 & d2 & -> & Hd1 & Hd2).
  assert (Z.of_nat (length d1) = chain_len k) as L1.
  { clear -Hw Hd1. revert d1 Hd1. induction k as [|[a c] k IH]; intros d1 Hd1; cbn [app wf contents chain_len] in *; [by injection Hd1 as <-|].
    destruct Hw as (H1 & _ & _ & Hw). destruct (load _ _ _) as [x|] eqn:E; [|done]. destruct (contents m k) as [y|]; [|done]. injection Hd1 as <-.
    apply load_Some in E as [E _]. rewrite length_app. specialize (IH Hw y eq_refl). lia. }
  apply contents_app. cbn [contents] in Hd2. destruct (load m (payload b) _) as [x|] eqn:E; [|done].
  destruct (contents m t) as [y|]; [|done]. injection Hd2 as <-. exists d1, (take (Z.to_nat rem) x). split; [|split; [done|]].
  - replace (Z.to_nat (chain_len k + rem)) with (length d1 + Z.to_nat rem)%nat by lia. rewrite take_app_add, take_app_le; [done|].
    apply load_Some in E as [-> _]. lia.
  - cbn [contents]. rewrite Hp, Hl. pose proof (load_sub m (payload b) _ x 0 (Z.to_nat rem) E ltac:(lia)) as Hs.
    rewrite Z.add_0_r, drop_0 in Hs. rewrite Hs. by rewrite app_nil_r.
Qed.

(** Releasing what is behind. *)
Lemma free_rest w R r t : net_ok w R -> chain (bufs w) r t -> Forall (fun ab => 1 <= ref (snd ab) < 65536) t ->
  exists w' R', (if negb (r =? 0) then let? (_, w) := net_free r w in Some w else Some w) = Some w' /\ net_ok w' R' /\
    ram (bufs w') = ram (bufs w) /\ (forall a, a ∉ t.*1 -> pbufs (bufs w') !! a = pbufs (bufs w) !! a) /\
    (Forall (has_ref 1) t -> forall a, a ∈ t.*1 -> pbufs (bufs w') !! a = None).
Proof.
  intros Hok Hc Hr. destruct (Z.eqb_spec r 0) as [->|Hr0]; cbn [negb].
  - exists w, R. destruct t as [|[a b] t]; [|by destruct Hc as (<- & ? & _)]. repeat (split; [done|]). intros _ a Ha. set_solver.
  - destruct (net_free_spec w R r t Hok Hc) as (l1 & l2 & n & w' & -> & H1 & H2 & -> & (F1 & F2 & F3) & Hok'); [by destruct t|done|].
    exists w', (revoke (l1.*1) R). rewrite fmap_app. split; [done|]. split; [done|]. split; [done|]. split.
    + intros a Ha. rewrite F3, decide_False by set_solver. destruct l2 as [|[x y] l2]; [done|]. rewrite decide_False; [done|].
      intros ->. cbn in Ha. set_solver.
    + intros Hall a Ha. assert (l2 = []) as ->.
      { destruct l2 as [|ab l2]; [done|]. destruct H2. apply Forall_app in Hall as [_ Hall]. by apply Forall_cons in Hall as [Hx _]. }
      rewrite app_nil_r in Ha. by rewrite F3, decide_True.
Qed.

(** From the last pbuf that stays on. *)
Lemma cut_tail w1 R k q b t p h g rem :
  chain h p (k ++ (q, b) :: t) -> kept h g k (bufs w1) -> al_ok (alloc w1) R -> (forall i, arena i -> is_Some (ram (bufs w1) !! i)) ->
  (forall a c, pbufs (bufs w1) !! a = Some c -> buf_ok R a c) -> Forall (fun ab => 1 <= ref (snd ab) < 65536) t -> 0 <= rem <= len b -> rem < 65536 ->
  exists w' R' b', (let? (q, w) :=
      (if bool_decide (type b = PBUF_RAM) && negb (rem =? len b) && (Z.land (flags b) PBUF_FLAG_IS_CUSTOM =? 0) then
         let? (q', a) := mem_trim q (u16 (u16 (payload b - q) + rem)) (alloc w1) in
         if q' =? 0 then None else Some (q', with_alloc a w1)
       else Some (q, w1)) in
    let? w := on_pbuf q (set_len rem) w in
    let? w := on_pbuf q (set_tot_len rem) w in
    let? b := pbufs (bufs w) !! q in
    let? w := (if negb (next b =? 0) then let? (_, w) := net_free (next b) w in Some w else Some w) in
    on_pbuf q (set_next 0) w) = Some w' /\ net_ok w' R' /\ ram (bufs w') = ram (bufs w1) /\
    chain (bufs w') p (shrunk g k ++ [(q, b')]) /\ payload b' = payload b /\ len b' = rem /\ tot_len b' = rem /\
    (Forall (has_ref 1) t -> forall a, a ∈ t.*1 -> pbufs (bufs w') !! a = None).
Proof.
  intros Hc (K1 & K2 & K3 & K4) Ha Hram Hbufs Hrefs Hr Hr16. pose proof (chain_nodup _ _ _ Hc) as Hnd. rewrite fmap_app in Hnd.
  cbn [fmap list_fmap fst] in Hnd. apply NoDup_app in Hnd as (_ & Hkd & Hnd). apply NoDup_cons in Hnd as [Hqt _].
  assert (q ∉ k.*1) as Hqk by (intros Hx; apply (Hkd q Hx); by left).
  pose proof (chain_app _ _ _ _ Hc) as (_ & Hq0 & Hqb & Hct). assert (pbufs (bufs w1) !! q = Some b) as Hq1 by (by rewrite K4).
  destruct (last_ok w1 R q b rem Ha (Hbufs _ _ Hq1) Hr Hq0) as (a1 & R1 & -> & Ha1 & HR1 & Hb1).
  unfold on_pbuf at 1 2. unfold alter_pbuf. cbn [bufs with_alloc]. rewrite Hq1. cbn [bufs with_bufs pbufs]. rewrite lookup_insert_eq.
  cbn [bufs with_bufs pbufs ram freed]. rewrite lookup_insert_eq, insert_insert_eq. set (b2 := set_tot_len rem (set_len rem b)).
  set (w2 := with_bufs _ _). cbn [next set_tot_len set_len b2].
  assert (net_ok w2 R1) as Hok2.
  { split; [done|exact Hram|]. cbn [w2 bufs with_bufs pbufs]. intros x c Hx. destruct (decide (x = q)) as [->|Hne].
    - rewrite lookup_insert_eq in Hx. injection Hx as <-. apply Hb1; try done. cbn. apply u16_small. lia.
    - rewrite lookup_insert_ne in Hx by done. apply (buf_ok_frame R R1 x c); try done; [by apply Hbufs|]. intros _. by apply HR1. }
  assert (chain (bufs w2) (next b) t) as Hct2.
  { apply (chain_frame h); [exact Hct|]. intros x y Hxy. assert (x ∈ t.*1) by (apply list_elem_of_fmap; by exists (x, y)).
    cbn [w2 bufs with_bufs pbufs]. rewrite lookup_insert_ne by (intros ->; done). apply K4. intros Hx. apply (Hkd x Hx). by right. }
  destruct (free_rest w2 R1 (next b) t Hok2 Hct2 Hrefs) as (w3 & R3 & -> & Hok3 & Hram3 & Hold3 & Hfree3).
  assert (pbufs (bufs w3) !! q = Some b2) as Hq3 by (rewrite Hold3 by done; cbn [w2 bufs with_bufs pbufs]; by rewrite lookup_insert_eq).
  unfold on_pbuf, alter_pbuf. rewrite Hq3. eexists _, R3, (set_next 0 b2). split; [done|].
  split; [|split; [exact Hram3|split; [|split; [done|split; [apply u16_small; lia|split; [apply u16_small; lia|]]]]]].
  - split; [apply Hok3|cbn; apply Hok3|]. cbn [bufs with_bufs pbufs]. intros x c Hx. destruct (decide (x = q)) as [->|Hne].
    + rewrite lookup_insert_eq in Hx. injection Hx as <-. apply (buf_ok_frame R3 R3 q b2); try done. by apply Hok3.
    + rewrite lookup_insert_ne in Hx by done. by apply Hok3.
  - eapply (shrunk_chain h); [exact Hc| |cbn; by rewrite lookup_insert_eq|done]. cbn [bufs with_bufs pbufs]. intros x y Hxy.
    assert (x ∈ k.*1) as Hxk by (rewrite <- (shrunk_addrs g); apply list_elem_of_fmap; by exists (x, y)).
    rewrite lookup_insert_ne by (intros ->; done). rewrite Hold3 by (intros Hx; apply (Hkd x Hxk); by right).
    cbn [w2 bufs with_bufs pbufs]. rewrite lookup_insert_ne by (intros ->; done). by apply K3.
  - intros Hall x Hx. cbn. rewrite lookup_insert_ne by (intros ->; done). by apply Hfree3.
Qed.

Lemma realloc_spec w R p l d new_len :
  net_ok w R -> packet (bufs w) p l d -> l <> [] -> Forall (fun ab => 1 <= ref (snd ab) < 65536) l -> 0 <= new_len < Z.of_nat (length d) ->
  exists w' R' k q b t l', pbuf_realloc p new_len w = Some w' /\ net_ok w' R' /\ ram (bufs w') = ram (bufs w) /\
    l = k ++ (q, b) :: t /\ l'.*1 = k.*1 ++ [q] /\ packet (bufs w') p l' (take (Z.to_nat new_len) d) /\
    (Forall (has_ref 1) t -> forall a, a ∈ t.*1 -> pbufs (bufs w') !! a = None).
Proof.
  intros Hok Hp Hl Hrefs Hn. pose proof Hp as [Hc Hw Hd]. pose proof (contents_length _ _ _ Hw Hd) as El.
  assert (exists b0, p <> 0 /\ pbufs (bufs w) !! p = Some b0 /\ tot_len b0 = chain_len l /\ chain_len l < 65536) as (b0 & Hp0 & Hb0 & Et & Hlt).
  { destruct l as [|[a b0] l]; [done|]. destruct (packet_head _ _ _ _ _ _ Hp) as (-> & Ea & Hb & Et & Hlt). exists b0.
    apply Z.eqb_neq in Ea. repeat split; try done; lia. }
  set (g := new_len - chain_len l). assert (g < 0) as Hg by lia. pose proof (chain_fuel_enough _ _ _ Hc) as Hfu.
  destruct (keep_spec g l Hg (chain_fuel (bufs w)) p new_len (bufs w) Hc Hw) as (k & q & b & t & h1 & -> & E & Hrem & Hk); [lia|lia|lia|].
  assert (forall a c, (a, c) ∈ k -> pbufs (bufs w) !! a = Some c) as Hkin.
  { intros a c Hac. apply (links_lookup _ _ _ a c Hc). apply elem_of_app. by left. }
  apply Forall_app in Hrefs as [_ Hrefs]. apply Forall_cons in Hrefs as [_ Hrefs].
  pose proof (wf_total_l _ _ Hw) as Hkl. set (rem := new_len - chain_len k) in *.
  destruct (cut_tail (with_bufs h1 w) R k q b t p (bufs w) g rem Hc Hk) as (w' & R' & b' & E' & Hok' & Hram & Hch & P1 & P2 & P3 & Hfr); try done.
  - apply Hok.
  - intros i Hi. cbn. destruct Hk as (-> & _). by apply Hok.
  - by eapply kept_bufs.
  - lia.
  - exists w', R', k, q, b, t, (shrunk g k ++ [(q, b')]). split.
    + unfold pbuf_realloc. rewrite (proj2 (Z.eqb_neq p 0) Hp0), Hb0, Et. rewrite (proj2 (Z.leb_gt _ _)) by lia.
      fold g. rewrite E. cbn [bufs with_bufs]. assert (pbufs h1 !! q = Some b) as ->; [|exact E'].
      destruct Hk as (_ & _ & _ & K4). pose proof (chain_nodup _ _ _ Hc) as Hnd. rewrite fmap_app in Hnd. apply NoDup_app in Hnd as (_ & Hkd & _).
      rewrite K4; [by destruct (chain_app _ _ _ _ Hc) as (_ & _ & ? & _)|]. intros Hx. apply (Hkd q Hx). by left.
    + split; [done|]. split; [rewrite Hram; apply Hk|]. split; [done|]. split; [by rewrite fmap_app, shrunk_addrs|]. split; [|done]. split; [done| |].
      * eapply (shrunk_wf g k q b t rem); try done; unfold rem, g in *; lia.
      * replace (Z.to_nat new_len) with (Z.to_nat (chain_len k + rem)) by (unfold rem; lia).
        rewrite Hram. cbn [bufs with_bufs]. destruct Hk as (-> & _). apply contents_app.
        pose proof (contents_cut _ _ _ _ _ _ rem b' Hw Hd Hrem P1 P2) as Hcut. apply contents_app in Hcut as (d1 & d2 & -> & C1 & C2).
        exists d1, d2. by rewrite shrunk_contents.
Qed.
End realloc.
