(* ===== verification/PbufSystem.v ===== *)
(** * Receiving and releasing packets

    The network interface puts frames into new packets and the stack releases
    them, in any order and any number: the packets that are alive keep their
    bytes, no operation fails, and nothing leaks. *)

From Stdlib Require Import ZArith Lia.
From stdpp Require Import base gmap list numbers.
From S2P Require Import Prelude LwipMem Pbuf PbufChain PbufReadWrite PbufCopy PbufAlloc PbufAllocProof PbufNet.
From stdpp Require Import sets list.
Import OptionNotations PbufCopy PbufChain.

Local Open Scope Z_scope.

Section rx.
Context {A : Type} `{allocator_laws A}.

(** The packets that are alive, with the frames they were received from. *)
Record rx := Rx { rx_net : net A; rx_live : list (Z * list Z) }.

Inductive rx_op :=
| Receive (stale : Z) (posted : bool) (frame : list Z)
| Release (k : nat).

Definition rx_legal (s : rx) (o : rx_op) : Prop :=
  match o with
  | Receive stale _ frame => (0 < length frame < Z.to_nat 65536)%nat /\ Z.land stale PBUF_FLAG_IS_CUSTOM = 0
  | Release k => (k < length (rx_live s))%nat
  end.

Definition rx_exec (o : rx_op) (s : rx) : option rx :=
  match o with
  | Receive stale posted frame =>
      let? (_, p, w) := low_level_input stale posted (Some frame) (rx_net s) in
      Some (Rx w (if p =? 0 then rx_live s else (p, frame) :: rx_live s))
  | Release k =>
      let? (p, _) := rx_live s !! k in
      let? (_, w) := net_free p (rx_net s) in
      Some (Rx w (delete k (rx_live s)))
  end.

Inductive rx_reach (w0 : net A) : rx -> Prop :=
| rx_start : rx_reach w0 (Rx w0 [])
| rx_step s s' o : rx_reach w0 s -> rx_legal s o -> rx_exec o s = Some s' -> rx_reach w0 s'.

(** ** The invariant *)

Definition live_packet (h : heap) (pf : Z * list Z) (l : links) : Prop :=
  packet h (fst pf) l (snd pf) /\ l <> [] /\ Forall (fun ab => owned ab /\ ref (snd ab) = 1) l.

(** [ls] are the chains of the packets; they make up all pbufs, and these have all
    the memory that is handed out. *)
Record rx_ok (s : rx) (R : grants) (ls : list links) : Prop := {
  rk_net : net_ok (rx_net s) R;
  rk_live : Forall2 (live_packet (bufs (rx_net s))) (rx_live s) ls;
  rk_nodup : NoDup ((concat ls).*1);
  rk_bufs : forall a, is_Some (pbufs (bufs (rx_net s)) !! a) <-> a ∈ (concat ls).*1;
  rk_grants : forall a, is_Some (R !! a) <-> a ∈ (concat ls).*1
}.

Lemma live_frame h h' pf l : live_packet h pf l -> (forall a, a ∈ l.*1 -> pbufs h' !! a = pbufs h !! a) ->
  (forall i, region l i -> ram h' !! i = ram h !! i) -> live_packet h' pf l.
Proof.
  intros [Hp Hl] Hb Hr. split; [|done]. apply (packet_frame h); [done| |done]. intros a b Hab. apply Hb, list_elem_of_fmap. by exists (a, b).
Qed.

Lemma elem_of_concat_addrs (l : links) ls a : l ∈ ls -> a ∈ l.*1 -> a ∈ (concat ls).*1.
Proof.
  intros Hl Ha. apply list_elem_of_fmap in Ha as ([x y] & -> & Hxy). apply list_elem_of_fmap. exists (x, y). split; [done|].
  apply list_elem_of_In, in_concat. exists l. by rewrite <- !list_elem_of_In.
Qed.

Lemma live_all h h' live ls : Forall2 (live_packet h) live ls -> (forall a, a ∈ (concat ls).*1 -> pbufs h' !! a = pbufs h !! a) ->
  ram h' = ram h -> Forall2 (live_packet h') live ls.
Proof.
  intros Hl Hb Hr. induction Hl as [|pf l live ls H1 _ IH]; constructor.
  - apply (live_frame h); [done| |by rewrite Hr]. intros a Ha. apply Hb. cbn [concat]. rewrite fmap_app. set_solver.
  - apply IH. intros a Ha. apply Hb. cbn [concat]. rewrite fmap_app. set_solver.
Qed.

Lemma rx_receive s R ls stale posted frame : rx_ok s R ls -> rx_legal s (Receive stale posted frame) ->
  exists s' R' ls', rx_exec (Receive stale posted frame) s = Some s' /\ rx_ok s' R' ls'.
Proof.
  intros [Hnet Hlive Hnd Hbufs Hgr] [Hlen Hst]. cbn [rx_exec].
  destruct (input_spec (rx_net s) R stale posted frame Hnet Hlen Hst) as (p & w' & -> & Hout).
  destruct (Z.eqb_spec p 0) as [->|Hp0].
  - destruct Hout as (Hnet' & Eb & Er). eexists _, R, ls. split; [done|]. split; cbn [rx_net rx_live]; try done; [|by rewrite Eb].
    apply (live_all (bufs (rx_net s))); [done|by rewrite Eb|done].
  - destruct Hout as (R' & l & Hp & Hown & Hnet' & Hrev & Hgr' & Hnew & Hold & Hram).
    assert (forall a, a ∈ l.*1 -> a ∉ (concat ls).*1) as Hdj.
    { intros a Ha Hc. apply Hbufs in Hc as [b Hb]. destruct (Hnew a Ha). congruence. }
    eexists _, R', (l :: ls). split; [done|]. split; cbn [rx_net rx_live concat]; rewrite ?fmap_app; try done.
    + constructor; [split; [done|split; [|done]]|].
      { intros ->. destruct Hp as [_ _ Hd]. injection Hd as <-. cbn in Hlen. lia. }
      clear -Hlive Hold Hram Hdj Hnet' Hp Hown. induction Hlive as [|pf k live ls' Hl _ IH]; constructor.
      * assert (forall a, a ∈ k.*1 -> a ∉ l.*1) as Hkl by (intros a Ha Hl'; apply (Hdj a Hl'), (elem_of_concat_addrs k); [by left|done]).
        assert (chain (bufs w') (fst pf) k) as Hck.
        { apply (chain_frame (bufs (rx_net s))); [apply Hl|]. intros a b Hab. apply Hold, Hkl, list_elem_of_fmap. by exists (a, b). }
        apply (live_frame (bufs (rx_net s))); [done|intros a Ha; by apply Hold, Hkl|]. intros i Hi. apply Hram.
        eapply (regions_apart w' R' (fst pf) k p l Hnet' Hck); [apply Hp| | |by intros a Ha Hb; apply (Hkl a)|done].
        -- eapply Forall_impl; [apply Hl|]. by intros ab [? _].
        -- eapply Forall_impl; [exact Hown|]. by intros ab [? _].
      * apply IH. intros a Ha Hc. apply (Hdj a Ha). cbn [concat]. rewrite fmap_app. set_solver.
    + apply NoDup_app. split; [by eapply chain_nodup, Hp|]. split; [exact Hdj|done].
    + intros a. rewrite elem_of_app, <- Hbufs. destruct (decide (a ∈ l.*1)) as [Ha|Ha].
      * split; [auto|]. intros _. apply list_elem_of_fmap in Ha as ([x y] & -> & Hxy).
        destruct (links_lookup _ _ _ _ _ (pk_chain _ _ _ _ Hp) Hxy) as [_ Hy]. by exists y.
      * rewrite Hold by done. tauto.
    + intros a. rewrite elem_of_app, <- Hgr. destruct (decide (a ∈ l.*1)) as [Ha|Ha]; [split; [auto|intros _; by apply Hgr']|].
      rewrite <- Hrev, lookup_revoke, decide_False by done. tauto.
Qed.

(** Releasing a packet that nothing else refers to. *)
Lemma free_packet w R p l d : net_ok w R -> packet (bufs w) p l d -> l <> [] -> Forall (fun ab => ref (snd ab) = 1) l ->
  exists n w', net_free p w = Some (n, w') /\ net_ok w' (revoke (l.*1) R) /\ ram (bufs w') = ram (bufs w) /\
    forall a, pbufs (bufs w') !! a = if decide (a ∈ l.*1) then None else pbufs (bufs w) !! a.
Proof.
  intros Hok Hp Hl Hr. destruct (net_free_spec w R p l Hok (pk_chain _ _ _ _ Hp) Hl) as (l1 & l2 & n & w' & -> & H1 & H2 & E & (F1 & F2 & F3) & Hok').
  { eapply Forall_impl; [exact Hr|]. cbn. lia. }
  assert (l2 = []) as ->.
  { destruct l2 as [|ab l2]; [done|]. destruct H2. apply Forall_app in Hr as [_ Hr]. by apply Forall_cons in Hr as [Hx _]. }
  rewrite app_nil_r. eauto 6.
Qed.

Lemma rx_release s R ls k : rx_ok s R ls -> rx_legal s (Release k) ->
  exists s' R' ls', rx_exec (Release k) s = Some s' /\ rx_ok s' R' ls'.
Proof.
  intros [Hnet Hlive Hnd Hbufs Hgr] Hk. cbn [rx_exec rx_legal] in *. destruct (lookup_lt_is_Some_2 _ _ Hk) as [[p d] Hpd]. rewrite Hpd.
  destruct (Forall2_lookup_l _ _ _ _ _ Hlive Hpd) as (l & Hls & Hp & Hl & Hown). cbn [fst snd] in Hp.
  destruct (free_packet (rx_net s) R p l d Hnet Hp Hl) as (n & w' & -> & Hnet' & Er & Hb).
  { eapply Forall_impl; [exact Hown|]. by intros ab [_ ?]. }
  pose proof (delete_Permutation ls k l Hls) as Hperm.
  assert ((concat ls).*1 ≡ₚ l.*1 ++ (concat (delete k ls)).*1) as Hpa.
  { rewrite <- fmap_app. apply fmap_Permutation. rewrite Hperm at 1. done. }
  rewrite Hpa in Hnd. apply NoDup_app in Hnd as (Hn1 & Hn2 & Hn3).
  eexists _, (revoke (l.*1) R), (delete k ls). split; [done|]. split; cbn [rx_net rx_live]; try done.
  - apply (live_all (bufs (rx_net s))); [by apply Forall2_delete| |done]. intros a Ha. rewrite Hb, decide_False; [done|].
    intros Hx. by apply (Hn2 a).
  - intros a. rewrite Hb. specialize (Hbufs a). rewrite Hpa, elem_of_app in Hbufs. destruct (decide (a ∈ l.*1)) as [Ha|Ha]; [|tauto].
    split; [by intros []|]. intros Hc. by destruct (Hn2 a).
  - intros a. rewrite lookup_revoke. specialize (Hgr a). rewrite Hpa, elem_of_app in Hgr. destruct (decide (a ∈ l.*1)) as [Ha|Ha]; [|tauto].
    split; [by intros []|]. intros Hc. by destruct (Hn2 a).
Qed.

Lemma rx_exec_ok s R ls o : rx_ok s R ls -> rx_legal s o -> exists s' R' ls', rx_exec o s = Some s' /\ rx_ok s' R' ls'.
Proof. destruct o; [apply rx_receive|apply rx_release]. Qed.

(** The start: no pbufs, and nothing handed out. *)
Definition fresh_net (w : net A) : Prop := net_ok w ∅ /\ pbufs (bufs w) = ∅.

Lemma rx_reach_ok w0 s : fresh_net w0 -> rx_reach w0 s -> exists R ls, rx_ok s R ls.
Proof.
  intros [Hn Hb] Hr. induction Hr as [|s s' o Hr (R & ls & Hok) Hl E].
  - exists ∅, []. split; [done|constructor|constructor| |]; cbn [rx_net concat]; rewrite ?Hb; intros a; rewrite lookup_empty; (split; [by intros []|set_solver]).
  - destruct (rx_exec_ok s R ls o Hok Hl) as (s2 & R2 & ls2 & E2 & Hok2). rewrite E in E2. injection E2 as <-. eauto.
Qed.
End rx.
