(* ===== verification/PbufNetTheorems.v ===== *)
(** * Properties of packets in allocated memory

    The theorems hold for any allocator that keeps the laws; the last one is for
    lwIP's own heap and pools. *)

From Stdlib Require Import ZArith Lia.
From stdpp Require Import base gmap list numbers.
From S2P Require Import Prelude LwipMem LwipMemInv LwipMemProof LwipMemTheorems Memp MempTheorems.
From S2P Require Import Pbuf PbufChain PbufReadWrite PbufCopy PbufAlloc PbufAllocProof LwipAlloc PbufNet PbufSystem.
From stdpp Require Import sets list.
Import OptionNotations PbufCopy PbufChain PbufAlloc.

Local Open Scope Z_scope.

(** C27: Allocating a packet gives a fresh chain with exactly the length that was
    asked for, every pbuf with one reference and its payload inside memory that
    only it has, and room for the headers of the layer in front; no other pbuf and
    no byte of memory changes.  Otherwise it returns NULL, also when the pool runs
    out half way, and everything that was taken has been given back.  The flags of
    the first pbuf are read before they are written in that case, so this needs
    memory in which they do not say "custom" by accident. *)
Theorem pbuf_alloc_correct {A : Type} `{allocator_laws A} (w : net A) (R : grants) (stale : Z) (posted : bool)
    (layer : pbuf_layer) (length : Z) (ty : pbuf_type) :
  net_ok w R -> 0 <= length < 65536 -> Z.land stale PBUF_FLAG_IS_CUSTOM = 0 ->
  exists p w', pbuf_alloc stale posted layer length ty w = Some (p, w') /\
    if p =? 0 then net_ok w' R /\ pbufs (bufs w') = pbufs (bufs w) /\ ram (bufs w') = ram (bufs w)
    else exists R' l, new_packet w w' R R' ty length (layer_offset layer) p l /\
      (ty = PBUF_RAM \/ ty = PBUF_POOL -> apart l /\ exists d, packet (bufs w') p l d /\ Z.of_nat (List.length d) = length).
Proof.
  intros Hok Hlen Hst. destruct (alloc_spec w R stale posted layer length ty Hok Hlen Hst) as (p & w' & E & Hout).
  exists p, w'. split; [done|]. destruct (p =? 0); [done|]. destruct Hout as (R' & l & Hn). exists R', l. split; [done|].
  intros Hty. by eapply new_packet_data.
Qed.

(** Shrinking a packet keeps its first bytes: the chain is cut, the pbufs
    behind are released (and gone when nothing else refers to them), the memory
    of the last pbuf is trimmed if it came from the heap, and the lengths in the
    chain are adjusted.  A length that is not smaller changes nothing. *)
Theorem pbuf_realloc_shrinks {A : Type} `{allocator_laws A} (w : net A) (R : grants) (p : Z) (l : links) (d : list Z) (new_len : Z) :
  net_ok w R -> packet (bufs w) p l d -> l <> [] -> Forall (fun ab => 1 <= ref (snd ab) < 65536) l -> 0 <= new_len ->
  if new_len <? Z.of_nat (length d) then
    exists w' R' k q b t l', pbuf_realloc p new_len w = Some w' /\ net_ok w' R' /\ ram (bufs w') = ram (bufs w) /\
      l = k ++ (q, b) :: t /\ l'.*1 = k.*1 ++ [q] /\ packet (bufs w') p l' (take (Z.to_nat new_len) d) /\
      (Forall (has_ref 1) t -> forall a, a ∈ t.*1 -> pbufs (bufs w') !! a = None)
  else pbuf_realloc p new_len w = Some w.
Proof.
  intros Hok Hp Hl Hr Hn. destruct (Z.ltb_spec new_len (Z.of_nat (length d))) as [Hlt|Hge]; [by apply (realloc_spec w R p l d new_len)|].
  destruct l as [|[a b] l]; [done|]. destruct (packet_head _ _ _ _ _ _ Hp) as (-> & Ea & Hb & Et & _).
  unfold pbuf_realloc. by rewrite Ea, Hb, (proj2 (Z.leb_le _ _)) by lia.
Qed.

(** Coalescing a packet gives one with the same bytes: a single new pbuf with
    room for the headers in front, and the old chain is released, or the old
    packet itself when it was a single pbuf already or there was no memory. *)
Theorem pbuf_coalesce_same_bytes {A : Type} `{allocator_laws A} (w : net A) (R : grants) (stale p : Z) (layer : pbuf_layer) (l : links) (d : list Z) :
  net_ok w R -> packet (bufs w) p l d -> l <> [] -> Forall owned l -> nonempty l -> Forall (fun ab => 1 <= ref (snd ab) < 65536) l ->
  Z.land stale PBUF_FLAG_IS_CUSTOM = 0 ->
  exists q w' R', pbuf_coalesce stale p layer w = Some (q, w') /\ net_ok w' R' /\
    ((q = p /\ packet (bufs w') p l d) \/
     exists b, packet (bufs w') q [(q, b)] d /\ pbufs (bufs w) !! q = None /\
       q + SIZEOF_STRUCT_PBUF + layer_offset layer <= payload b /\
       (Forall (has_ref 1) l -> forall a, a ∈ l.*1 -> pbufs (bufs w') !! a = None)).
Proof. apply coalesce_spec. Qed.

(** C4: Frames are received intact.  After any sequence of frames that arrive and
    packets that are released, each packet that is alive holds exactly the bytes
    of its frame, whatever was received or released since; no operation fails an
    assertion or touches memory that is not its own (a frame for which the pool
    has no room is dropped); and when no packet is alive, no memory is handed out
    any more. *)
Theorem received_frames_intact {A : Type} `{allocator_laws A} (w0 : net A) (s : rx) : fresh_net w0 -> rx_reach w0 s ->
  (forall o, rx_legal s o -> is_Some (rx_exec o s)) /\
  (forall p frame, (p, frame) ∈ rx_live s -> exists l, packet (bufs (rx_net s)) p l frame) /\
  (rx_live s = [] -> fresh_net (rx_net s)).
Proof.
  intros Hf Hr. destruct (rx_reach_ok w0 s Hf Hr) as (R & ls & Hok). split; [|split].
  - intros o Hl. destruct (rx_exec_ok s R ls o Hok Hl) as (s' & _ & _ & -> & _). by eexists.
  - intros p frame Hin. apply list_elem_of_lookup in Hin as [k Hk].
    destruct (Forall2_lookup_l _ _ _ _ _ (rk_live _ _ _ Hok) Hk) as (l & _ & Hp & _). by exists l.
  - intros El. pose proof (rk_live _ _ _ Hok) as Hl. rewrite El in Hl. apply Forall2_nil_inv_l in Hl as ->. split.
    + assert (R = ∅) as <-; [|apply Hok]. apply map_eq. intros a. rewrite lookup_empty. apply eq_None_not_Some. rewrite (rk_grants _ _ _ Hok). set_solver.
    + apply map_eq. intros a. rewrite lookup_empty. apply eq_None_not_Some. rewrite (rk_bufs _ _ _ Hok). set_solver.
Qed.

(** ** On lwIP's heap and pools *)

Section lwip.
Context (ram_heap : Z) (memp_pools : list memp_desc) (i_pbuf i_pool : nat) (d_pbuf d_pool : memp_desc).
Context (Hlay : layout_ok ram_heap memp_pools i_pbuf i_pool d_pbuf d_pool).

#[local] Instance the_allocator : allocator lwip_state := lwip_allocator memp_pools i_pbuf i_pool.
#[local] Instance the_laws : allocator_laws lwip_state := lwip_allocator_laws ram_heap memp_pools i_pbuf i_pool d_pbuf d_pool Hlay.

(** The state after [mem_init] and [memp_init]. *)
Definition lwip_start (m : gmap Z Z) (ms : memp_state) : net lwip_state :=
  Net (Heap ∅ m []) (Lwip (mem_init ram_heap) (memp_init memp_pools ms)) 0 0.

Lemma lwip_start_fresh m ms : (forall i, lwip_arena ram_heap d_pbuf d_pool i -> is_Some (m !! i)) -> fresh_net (lwip_start m ms).
Proof. intros Hm. split; [|done]. split; [by apply (lwip_init_ok _ _ _ _ _ _ Hlay)|exact Hm|done]. Qed.

(** No grants: the heap is one free block and the pools are full. *)
Lemma lwip_all_free a : lwip_ok ram_heap memp_pools d_pbuf d_pool a ∅ ->
  heap_ok (l_heap a) [Blk 0 MEM_SIZE_ALIGNED false] /\
  pool_ok (l_pools a) ∅ (Z.of_nat i_pbuf) d_pbuf /\ pool_ok (l_pools a) ∅ (Z.of_nat i_pool) d_pool.
Proof.
  intros [(live & (l & Hok & O1 & O2) & Hl) _ (out & Ho & Hpo) _]. cbn [LwipMemTheorems.heap LwipMemTheorems.live] in *. split; [|split].
  - assert (l = [Blk 0 MEM_SIZE_ALIGNED false]) as <-; [|done]. apply (all_free_single _ _ Hok). intros b Hb.
    destruct (b_used b) eqn:E; [|done]. destruct (O2 _ Hb E) as [n Hn]. apply Hl in Hn. done.
  - eapply pool_ok_frame; [by apply Ho, Hlay|done|]. intros x Hx. split; [done|]. split; [set_solver|]. intros Hxo.
    assert ((∅ : grants) !! x = Some (MEMP_PBUF, element_size MEMP_PBUF)) as Hc by (apply Hpo; [by right|done]). done.
  - eapply pool_ok_frame; [by apply Ho, Hlay|done|]. intros x Hx. split; [done|]. split; [set_solver|]. intros Hxo.
    assert ((∅ : grants) !! x = Some (MEMP_PBUF_POOL, element_size MEMP_PBUF_POOL)) as Hc by (apply Hpo; [by left|done]). done.
Qed.

(** C21: The network interface on lwIP's own allocators: started on an initialised
    heap and initialised pools, after frames have been received and all their
    packets released in any order, the heap is the one free block it was at the
    start and all elements of the pbuf pools are free again. *)
Theorem lwip_packets_no_leak (m : gmap Z Z) (ms : memp_state) (s : rx) :
  (forall i, lwip_arena ram_heap d_pbuf d_pool i -> is_Some (m !! i)) -> rx_reach (lwip_start m ms) s -> rx_live s = [] ->
  let a := alloc (rx_net s) in
  heap_ok (l_heap a) [Blk 0 MEM_SIZE_ALIGNED false] /\
  pool_ok (l_pools a) ∅ (Z.of_nat i_pbuf) d_pbuf /\ pool_ok (l_pools a) ∅ (Z.of_nat i_pool) d_pool.
Proof.
  intros Hm Hr El a. destruct (rx_reach_ok _ s (lwip_start_fresh m ms Hm) Hr) as (R & ls & Hok). apply lwip_all_free.
  pose proof (rk_live _ _ _ Hok) as Hl. rewrite El in Hl. apply Forall2_nil_inv_l in Hl as ->.
  assert (R = ∅) as <-; [|apply Hok]. apply map_eq. intros x. rewrite lookup_empty. apply eq_None_not_Some. rewrite (rk_grants _ _ _ Hok). set_solver.
Qed.
End lwip.

(** ** Witnesses *)

(** A heap at 4096 and two small pools. *)
Definition sample_pools : list memp_desc := [LWIP_MEMPOOL_DECLARE 2 16 8192; LWIP_MEMPOOL_DECLARE 3 608 8300].

Lemma sample_layout : layout_ok 4096 sample_pools 0 1 (LWIP_MEMPOOL_DECLARE 2 16 8192) (LWIP_MEMPOOL_DECLARE 3 608 8300).
Proof.
  split; try reflexivity.
  - split; reflexivity.
  - split.
    + intros [|[|i]] d Hd; [injection Hd as <-..|done]; vm_compute; repeat split; discriminate.
    + intros [|[|i]] [|[|j]] d e Hd He Hne; try done; injection Hd as <-; injection He as <-; vm_compute; [left|right]; discriminate.
  - discriminate.
  - intros d [ -> | -> ]; left; vm_compute; discriminate.
Qed.

#[local] Instance sample_allocator : allocator lwip_state := the_allocator sample_pools 0 1.
#[local] Instance sample_allocator_laws : allocator_laws lwip_state := the_laws _ _ _ _ _ _ sample_layout.

Definition sample_ram : gmap Z Z := write ∅ 4096 (replicate (Z.to_nat 6100) 0).

Lemma sample_ram_arena i : lwip_arena 4096 (LWIP_MEMPOOL_DECLARE 2 16 8192) (LWIP_MEMPOOL_DECLARE 3 608 8300) i -> is_Some (sample_ram !! i).
Proof.
  intros Hi. assert (4096 <= i < 4096 + 6100) as Hr.
  { unfold lwip_arena, in_heap, in_pool in Hi.
    change (4096 <= i < 5699 \/ 8192 <= i < 8227 \/ 8300 <= i < 10127) in Hi. lia. }
  unfold sample_ram. rewrite lookup_write, length_replicate, Z2Nat.id, decide_True by lia. apply lookup_lt_is_Some_2. rewrite length_replicate. lia.
Qed.

Definition sample_net : net lwip_state := lwip_start 4096 sample_pools sample_ram (MempState ∅ ∅).

Lemma sample_fresh : fresh_net sample_net.
Proof. apply (lwip_start_fresh _ _ _ _ _ _ sample_layout), sample_ram_arena. Qed.

(** A packet of 700 bytes takes two elements of the pool; 2000 bytes do not fit. *)
Lemma pbuf_alloc_correct_witness :
  (exists w', pbuf_alloc 0 true PBUF_IP 700 PBUF_POOL sample_net = Some (9516, w') /\
     exists l d, packet (bufs w') 9516 l d /\ Z.of_nat (length d) = 700) /\
  (exists w', pbuf_alloc 0 true PBUF_IP 2000 PBUF_POOL sample_net = Some (0, w') /\ net_ok w' ∅).
Proof.
  split.
  - assert (fst <$> pbuf_alloc 0 true PBUF_IP 700 PBUF_POOL sample_net = Some 9516) as Hp by (vm_compute; reflexivity).
    destruct (pbuf_alloc_correct sample_net ∅ 0 true PBUF_IP 700 PBUF_POOL (proj1 sample_fresh)) as (p & w' & E & Hout);
      [split; [discriminate|reflexivity]|reflexivity|].
    rewrite E in Hp. injection Hp as ->. exists w'. split; [exact E|]. cbn [Z.eqb] in Hout.
    destruct Hout as (R' & l & _ & Hd). destruct (Hd (or_intror eq_refl)) as (_ & d & Hp' & Hl). exists l, d. split; [exact Hp'|exact Hl].
  - assert (fst <$> pbuf_alloc 0 true PBUF_IP 2000 PBUF_POOL sample_net = Some 0) as Hp by (vm_compute; reflexivity).
    destruct (pbuf_alloc_correct sample_net ∅ 0 true PBUF_IP 2000 PBUF_POOL (proj1 sample_fresh)) as (p & w' & E & Hout);
      [split; [discriminate|reflexivity]|reflexivity|].
    rewrite E in Hp. injection Hp as ->. exists w'. split; [exact E|]. apply Hout.
Defined.

Lemma sample_packet : exists w R l d, pbuf_alloc 0 true PBUF_IP 700 PBUF_POOL sample_net = Some (9516, w) /\
  new_packet sample_net w ∅ R PBUF_POOL 700 34 9516 l /\ packet (bufs w) 9516 l d /\ Z.of_nat (length d) = 700.
Proof.
  assert (fst <$> pbuf_alloc 0 true PBUF_IP 700 PBUF_POOL sample_net = Some 9516) as Hp by (vm_compute; reflexivity).
  destruct (alloc_spec sample_net ∅ 0 true PBUF_IP 700 PBUF_POOL (proj1 sample_fresh)) as (p & w & E & Hout); [lia|done|].
  rewrite E in Hp. injection Hp as ->. cbn [Z.eqb] in Hout. destruct Hout as (R & l & Hn).
  destruct (new_packet_data _ _ _ _ _ _ _ _ _ Hn (or_intror eq_refl)) as (_ & d & Hd & Hl). by exists w, R, l, d.
Qed.

Lemma pbuf_realloc_shrinks_witness : exists w w', pbuf_alloc 0 true PBUF_IP 700 PBUF_POOL sample_net = Some (9516, w) /\
  pbuf_realloc 9516 100 w = Some w' /\ exists l d, packet (bufs w') 9516 l d /\ Z.of_nat (length d) = 100.
Proof.
  destruct sample_packet as (w & R & l & d & E & Hn & Hp & Hl).
  pose proof (pbuf_realloc_shrinks w R 9516 l d 100 (np_net _ _ _ _ _ _ _ _ _ Hn) Hp) as H. rewrite Hl in H. change (100 <? 700) with true in H.
  destruct H as (w' & R' & k & q & b & t & l' & E' & _ & _ & _ & _ & Hp' & _).
  - destruct (np_room _ _ _ _ _ _ _ _ _ Hn) as (b & k & -> & _). discriminate.
  - eapply Forall_impl; [exact (np_buf _ _ _ _ _ _ _ _ _ Hn)|]. intros ab (_ & _ & ->). split; [discriminate|reflexivity].
  - discriminate.
  - exists w, w'. split; [exact E|]. split; [exact E'|]. exists l', (take (Z.to_nat 100) d). split; [exact Hp'|]. rewrite length_take. lia.
Defined.

Lemma pbuf_coalesce_same_bytes_witness : exists w q w', pbuf_alloc 0 true PBUF_IP 700 PBUF_POOL sample_net = Some (9516, w) /\
  pbuf_coalesce 0 9516 PBUF_IP w = Some (q, w') /\ exists l d, packet (bufs w') q l d /\ Z.of_nat (length d) = 700.
Proof.
  destruct sample_packet as (w & R & l & d & E & Hn & Hp & Hl).
  destruct (pbuf_coalesce_same_bytes w R 0 9516 PBUF_IP l d (np_net _ _ _ _ _ _ _ _ _ Hn) Hp) as (q & w' & R' & E' & _ & Hq).
  - destruct (np_room _ _ _ _ _ _ _ _ _ Hn) as (b & k & -> & _). discriminate.
  - eapply Forall_impl; [exact (np_buf _ _ _ _ _ _ _ _ _ Hn)|]. intros ab (Ht & Hf & _). unfold owned, dealloc_of. rewrite Hf, Ht. by right.
  - apply (np_nonempty _ _ _ _ _ _ _ _ _ Hn). reflexivity.
  - eapply Forall_impl; [exact (np_buf _ _ _ _ _ _ _ _ _ Hn)|]. intros ab (_ & _ & ->). split; [discriminate|reflexivity].
  - reflexivity.
  - exists w, q, w'. split; [exact E|]. split; [exact E'|]. destruct Hq as [(-> & Hq)|(b & Hq & _)]; eexists _, d; (split; [exact Hq|exact Hl]).
Defined.

(** One frame is received and its packet released. *)
Lemma received_frames_intact_witness : exists s, rx_exec (Receive 0 true [1; 2; 3]) (Rx sample_net []) = Some s /\
  rx_live s = [(9516, [1; 2; 3])] /\ exists l, packet (bufs (rx_net s)) 9516 l [1; 2; 3].
Proof.
  assert (rx_legal (Rx sample_net []) (Receive 0 true [1; 2; 3])) as Hl by (split; [cbn; lia|reflexivity]).
  destruct (received_frames_intact sample_net (Rx sample_net []) sample_fresh (rx_start _)) as (Hp & _).
  destruct (Hp _ Hl) as [s E]. exists s. split; [exact E|].
  assert (rx_live <$> rx_exec (Receive 0 true [1; 2; 3]) (Rx sample_net []) = Some [(9516, [1; 2; 3])]) as Hs by (vm_compute; reflexivity).
  rewrite E in Hs. injection Hs as Hs. split; [exact Hs|].
  destruct (received_frames_intact sample_net s sample_fresh (rx_step _ _ _ _ (rx_start _) Hl E)) as (_ & Hi & _).
  apply Hi. rewrite Hs. by left.
Defined.

Lemma lwip_packets_no_leak_witness : exists s,
  (let? s := rx_exec (Receive 0 true [1; 2; 3]) (Rx sample_net []) in rx_exec (Release 0) s) = Some s /\
  heap_ok (l_heap (alloc (rx_net s))) [Blk 0 MEM_SIZE_ALIGNED false].
Proof.
  assert (rx_legal (Rx sample_net []) (Receive 0 true [1; 2; 3])) as Hl by (split; [cbn; lia|reflexivity]).
  assert (rx_live <$> rx_exec (Receive 0 true [1; 2; 3]) (Rx sample_net []) = Some [(9516, [1; 2; 3])]) as H1 by (vm_compute; reflexivity).
  assert (rx_live <$> (let? s := rx_exec (Receive 0 true [1; 2; 3]) (Rx sample_net []) in rx_exec (Release 0) s) = Some []) as H2 by (vm_compute; reflexivity).
  destruct (rx_exec (Receive 0 true [1; 2; 3]) (Rx sample_net [])) as [s1|] eqn:E1; [|discriminate H1]. injection H1 as H1.
  destruct (rx_exec (Release 0) s1) as [s2|] eqn:E2; [|discriminate H2]. injection H2 as H2. exists s2. split; [reflexivity|].
  apply (lwip_packets_no_leak _ _ _ _ _ _ sample_layout sample_ram (MempState ∅ ∅) s2 sample_ram_arena); [|exact H2].
  eapply rx_step; [eapply rx_step; [apply rx_start|exact Hl|exact E1]| |exact E2]. cbn. rewrite H1. cbn. lia.
Defined.
