(* ===== verification/EthMac.v ===== *)
(** * The Ethernet driver: [MACv1/hal_mac_lld.c], [hal_mac.c]

    Frames are exchanged with the DMA engine of the MAC through two rings of
    descriptors.  A descriptor belongs to the DMA engine while its OWN bit is set,
    else to the driver; the driver marks a transmit descriptor it has handed to
    a thread with the LOCKED bit.  Pointers to descriptors and buffers are their
    indices; [None] is an access outside the tables or a failed assertion.  The
    writes that restart a suspended DMA engine and the register set-up of the MAC
    are left out: the engine is part of the environment. *)

From Stdlib Require Import ZArith Lia.
From stdpp Require Import base gmap list numbers.
From S2P Require Import Prelude Pbuf.
Import OptionNotations.

Local Open Scope Z_scope.

(** ** Constants *)

Definition STM32_MAC_TRANSMIT_BUFFERS : nat := 2.
Definition STM32_MAC_RECEIVE_BUFFERS : nat := 4.
Definition STM32_MAC_BUFFERS_SIZE : Z := 1522.
Definition STM32_MAC_IP_CHECKSUM_OFFLOAD : Z := 0.

(** In 32-bit words. *)
Definition MAC_BUFFER_SIZE : Z := (Z.lor (STM32_MAC_BUFFERS_SIZE - 1) 3 + 1) / 4.

Definition STM32_RDES0_OWN : Z := 0x80000000.
Definition STM32_RDES0_AFM : Z := 0x40000000.
Definition STM32_RDES0_FL_MASK : Z := 0x3FFF0000.
Definition STM32_RDES0_ES : Z := 0x00008000.
Definition STM32_RDES0_FS : Z := 0x00000200.
Definition STM32_RDES0_LS : Z := 0x00000100.
Definition STM32_RDES1_RCH : Z := 0x00004000.

Definition STM32_TDES0_OWN : Z := 0x80000000.
Definition STM32_TDES0_IC : Z := 0x40000000.
Definition STM32_TDES0_LS : Z := 0x20000000.
Definition STM32_TDES0_FS : Z := 0x10000000.
Definition STM32_TDES0_LOCKED : Z := 0x01000000.
Definition STM32_TDES0_CIC (n : Z) : Z := Z.shiftl n 22.
Definition STM32_TDES0_TCH : Z := 0x00100000.

(** ** State *)

Record rx_descriptor := Rdes { rdes0 : Z; rdes1 : Z; rdes2 : nat; rdes3 : nat }.
Record tx_descriptor := Tdes { tdes0 : Z; tdes1 : Z; tdes2 : nat; tdes3 : nat }.

Definition set_rdes0 (v : Z) (d : rx_descriptor) : rx_descriptor := Rdes v (rdes1 d) (rdes2 d) (rdes3 d).
Definition set_tdes0 (v : Z) (d : tx_descriptor) : tx_descriptor := Tdes v (tdes1 d) (tdes2 d) (tdes3 d).
Definition set_tdes1 (v : Z) (d : tx_descriptor) : tx_descriptor := Tdes (tdes0 d) v (tdes2 d) (tdes3 d).

(** The driver object, the descriptors and the buffers. *)
Record mac := Mac {
  link_up : bool;
  rxptr : nat;
  txptr : nat;
  eth_rd : list rx_descriptor;
  eth_td : list tx_descriptor;
  eth_rb : list (list Z);
  eth_tb : list (list Z)
}.

Definition set_link_up (b : bool) (s : mac) : mac := Mac b (rxptr s) (txptr s) (eth_rd s) (eth_td s) (eth_rb s) (eth_tb s).
Definition set_rxptr (p : nat) (s : mac) : mac := Mac (link_up s) p (txptr s) (eth_rd s) (eth_td s) (eth_rb s) (eth_tb s).
Definition set_txptr (p : nat) (s : mac) : mac := Mac (link_up s) (rxptr s) p (eth_rd s) (eth_td s) (eth_rb s) (eth_tb s).
Definition set_eth_rd (l : list rx_descriptor) (s : mac) : mac :=
  Mac (link_up s) (rxptr s) (txptr s) l (eth_td s) (eth_rb s) (eth_tb s).
Definition set_eth_td (l : list tx_descriptor) (s : mac) : mac :=
  Mac (link_up s) (rxptr s) (txptr s) (eth_rd s) l (eth_rb s) (eth_tb s).
Definition set_eth_rb (l : list (list Z)) (s : mac) : mac :=
  Mac (link_up s) (rxptr s) (txptr s) (eth_rd s) (eth_td s) l (eth_tb s).
Definition set_eth_tb (l : list (list Z)) (s : mac) : mac :=
  Mac (link_up s) (rxptr s) (txptr s) (eth_rd s) (eth_td s) (eth_rb s) l.

Record MACTransmitDescriptor := Td { td_offset : Z; td_size : Z; td_physdesc : nat }.
Record MACReceiveDescriptor := Rd { rd_offset : Z; rd_size : Z; rd_physdesc : nat }.

(** ** Initialisation of the tables *)

Definition mac_lld_init (s : mac) : mac :=
  Mac false (rxptr s) (txptr s)
    (imap (fun i d => Rdes (rdes0 d) (Z.lor STM32_RDES1_RCH STM32_MAC_BUFFERS_SIZE) i
                        ((i + 1) mod STM32_MAC_RECEIVE_BUFFERS)) (eth_rd s))
    (imap (fun i d => Tdes (tdes0 d) 0 i ((i + 1) mod STM32_MAC_TRANSMIT_BUFFERS)) (eth_td s))
    (eth_rb s) (eth_tb s).

Definition mac_lld_start (s : mac) : mac :=
  Mac (link_up s) 0 0 (set_rdes0 STM32_RDES0_OWN <$> eth_rd s) (set_tdes0 STM32_TDES0_TCH <$> eth_td s)
    (eth_rb s) (eth_tb s).

(** ** Transmission *)

Definition is_set (v mask : Z) : bool := negb (Z.land v mask =? 0).

Definition mac_lld_get_transmit_descriptor (s : mac) : option (option MACTransmitDescriptor * mac) :=
  if negb (link_up s) then Some (None, s)
  else
    let tdes := txptr s in
    let? d := eth_td s !! tdes in
    if is_set (tdes0 d) (Z.lor STM32_TDES0_OWN STM32_TDES0_LOCKED) then Some (None, s)
    else
      let s := set_eth_td (<[tdes := set_tdes0 (Z.lor (tdes0 d) STM32_TDES0_LOCKED) d]> (eth_td s)) s in
      let s := set_txptr (tdes3 d) s in
      Some (Some (Td 0 STM32_MAC_BUFFERS_SIZE tdes), s).

Definition mac_lld_release_transmit_descriptor (tdp : MACTransmitDescriptor) (s : mac) : option mac :=
  let? d := eth_td s !! td_physdesc tdp in
  if is_set (tdes0 d) STM32_TDES0_OWN then None
  else
    let d := set_tdes1 (td_offset tdp) d in
    let d := set_tdes0 (Z.lor (Z.lor (Z.lor (Z.lor (Z.lor (STM32_TDES0_CIC STM32_MAC_IP_CHECKSUM_OFFLOAD) STM32_TDES0_IC)
                                                   STM32_TDES0_LS) STM32_TDES0_FS) STM32_TDES0_TCH) STM32_TDES0_OWN) d in
    Some (set_eth_td (<[td_physdesc tdp := d]> (eth_td s)) s).

(** [buf] is the data; gives what was written and the descriptor with its new offset. *)
Definition mac_lld_write_transmit_descriptor (tdp : MACTransmitDescriptor) (buf : list Z) (s : mac)
    : option (Z * MACTransmitDescriptor * mac) :=
  let? d := eth_td s !! td_physdesc tdp in
  if is_set (tdes0 d) STM32_TDES0_OWN then None
  else
    let size := Z.of_nat (length buf) in
    let size := if u32 (td_size tdp - td_offset tdp) <? size then u32 (td_size tdp - td_offset tdp) else size in
    if 0 <? size then
      let? b := eth_tb s !! tdes2 d in
      if Z.of_nat (length b) <? td_offset tdp + size then None
      else
        let b := list_inserts (Z.to_nat (td_offset tdp)) (take (Z.to_nat size) buf) b in
        Some (size, Td (u32 (td_offset tdp + size)) (td_size tdp) (td_physdesc tdp),
              set_eth_tb (<[tdes2 d := b]> (eth_tb s)) s)
    else Some (size, tdp, s).

(** ** Reception *)

Definition frame_valid (rdes0 : Z) : bool :=
  negb (is_set rdes0 (Z.lor STM32_RDES0_AFM STM32_RDES0_ES)) && is_set rdes0 STM32_RDES0_FS && is_set rdes0 STM32_RDES0_LS.

(** A round discards one frame, so there are at most as many as descriptors. *)
Fixpoint get_receive_loop (fuel : nat) (rdes : nat) (s : mac) : option (option MACReceiveDescriptor * mac) :=
  let? d := eth_rd s !! rdes in
  if negb (is_set (rdes0 d) STM32_RDES0_OWN) then
    match fuel with
    | O => None
    | S fuel =>
        if frame_valid (rdes0 d) then
          let size := u32 (Z.shiftr (Z.land (rdes0 d) STM32_RDES0_FL_MASK) 16 - 4) in
          Some (Some (Rd 0 size rdes), set_rxptr (rdes3 d) s)
        else
          get_receive_loop fuel (rdes3 d) (set_eth_rd (<[rdes := set_rdes0 STM32_RDES0_OWN d]> (eth_rd s)) s)
    end
  else Some (None, set_rxptr rdes s).

Definition mac_lld_get_receive_descriptor (s : mac) : option (option MACReceiveDescriptor * mac) :=
  get_receive_loop (length (eth_rd s)) (rxptr s) s.

Definition mac_lld_release_receive_descriptor (rdp : MACReceiveDescriptor) (s : mac) : option mac :=
  let? d := eth_rd s !! rd_physdesc rdp in
  if is_set (rdes0 d) STM32_RDES0_OWN then None
  else Some (set_eth_rd (<[rd_physdesc rdp := set_rdes0 STM32_RDES0_OWN d]> (eth_rd s)) s).

(** The bytes that are read, at most [size] of them. *)
Definition mac_lld_read_receive_descriptor (rdp : MACReceiveDescriptor) (size : Z) (s : mac)
    : option (list Z * MACReceiveDescriptor) :=
  let? d := eth_rd s !! rd_physdesc rdp in
  if is_set (rdes0 d) STM32_RDES0_OWN then None
  else
    let size := if u32 (rd_size rdp - rd_offset rdp) <? size then u32 (rd_size rdp - rd_offset rdp) else size in
    if 0 <? size then
      let? b := eth_rb s !! rdes2 d in
      if Z.of_nat (length b) <? rd_offset rdp + size then None
      else Some (take (Z.to_nat size) (drop (Z.to_nat (rd_offset rdp)) b),
                 Rd (u32 (rd_offset rdp + size)) (rd_size rdp) (rd_physdesc rdp))
    else Some ([], rdp).

(** ** Waiting *)

(** [waits] are the ends of the waits, in order: [None] is a time-out, [Some] a
    wake-up with what the environment has made of the state. *)
Fixpoint macWaitTransmitDescriptor (waits : list (option mac)) (s : mac) : option (option MACTransmitDescriptor * mac) :=
  let? (r, s) := mac_lld_get_transmit_descriptor s in
  match r with
  | Some td => Some (Some td, s)
  | None =>
      match waits with
      | [] => None
      | None :: _ => Some (None, s)
      | Some s :: waits => macWaitTransmitDescriptor waits s
      end
  end.

(** With [TIME_IMMEDIATE] the wait times out at once. *)
Definition macWaitReceiveDescriptor_immediate (s : mac) : option (option MACReceiveDescriptor * mac) :=
  mac_lld_get_receive_descriptor s.

(** ** Sending a packet: [low_level_output] of [lwipthread.c] *)

Definition ERR_TIMEOUT : Z := -3.

Fixpoint write_chain (fuel : nat) (q : Z) (td : MACTransmitDescriptor) (h : heap) (s : mac)
    : option (MACTransmitDescriptor * mac) :=
  if q =? 0 then Some (td, s)
  else
    match fuel with
    | O => None
    | S fuel =>
        let? b := pbufs h !! q in
        let? buf := load (ram h) (payload b) (Z.to_nat (len b)) in
        let? (_, td, s) := mac_lld_write_transmit_descriptor td buf s in
        write_chain fuel (next b) td h s
    end.

Definition low_level_output (waits : list (option mac)) (p : Z) (h : heap) (s : mac) : option (Z * mac) :=
  let? (r, s) := macWaitTransmitDescriptor waits s in
  match r with
  | None => Some (ERR_TIMEOUT, s)
  | Some td =>
      let? (td, s) := write_chain (chain_fuel h) p td h s in
      let? s := mac_lld_release_transmit_descriptor td s in
      let? b := pbufs h !! p in
      let? _ := ram h !! payload b in
      Some (ERR_OK, s)
  end.
