(* ===== verification/EthMacProof.v ===== *)
(** * The rings of descriptors

    The transmit ring holds a queue of frames for the DMA engine, the receive ring
    a queue of frames for the driver: invariants of both rings, and what the
    operations of the driver and the steps of the engine do to the queues. *)

From Stdlib Require Import ZArith Lia.
From stdpp Require Import base gmap list numbers.
From S2P Require Import Prelude Pbuf EthMac.
From stdpp Require Import sets list.
Import OptionNotations.

Local Open Scope Z_scope.

(** ** Bits *)

Lemma is_set_bit v n : 0 <= n -> is_set v (2 ^ n) = Z.testbit v n.
Proof.
  intros Hn. unfold is_set. destruct (Z.eqb_spec (Z.land v (2 ^ n)) 0) as [E|E]; cbn [negb].
  - apply (f_equal (fun z => Z.testbit z n)) in E.
    rewrite Z.land_spec, Z.pow2_bits_true, andb_true_r, Z.bits_0 in E by done. done.
  - destruct (Z.testbit v n) eqn:Eb; [done|]. destruct E. apply Z.bits_inj'. intros i Hi.
    rewrite Z.land_spec, Z.bits_0. destruct (decide (i = n)) as [-> |Hne]; [by rewrite Eb|].
    by rewrite Z.pow2_bits_false, andb_false_r by lia.
Qed.

Lemma is_set_lor_r v a b : is_set v (Z.lor a b) = is_set v a || is_set v b.
Proof.
  unfold is_set. rewrite Z.land_lor_distr_r.
  destruct (Z.eqb_spec (Z.land v a) 0) as [E1|E1], (Z.eqb_spec (Z.land v b) 0) as [E2|E2]; cbn [negb orb].
  - by rewrite E1, E2.
  - by rewrite E1, Z.lor_0_l, (proj2 (Z.eqb_neq _ _)).
  - rewrite (proj2 (Z.eqb_neq _ _)); [done|]. intros [? _]%Z.lor_eq_0_iff. done.
  - rewrite (proj2 (Z.eqb_neq _ _)); [done|]. intros [? _]%Z.lor_eq_0_iff. done.
Qed.

Lemma lock_bits v :
  is_set (Z.lor v STM32_TDES0_LOCKED) STM32_TDES0_LOCKED = true /\
  is_set (Z.lor v STM32_TDES0_LOCKED) STM32_TDES0_OWN = is_set v STM32_TDES0_OWN.
Proof.
  change STM32_TDES0_LOCKED with (2 ^ 24). change STM32_TDES0_OWN with (2 ^ 31). rewrite !is_set_bit, !Z.lor_spec by lia.
  rewrite Z.pow2_bits_true, Z.pow2_bits_false, orb_true_r, orb_false_r by lia. done.
Qed.

(** ** Positions in a ring *)

Ltac index_cases :=
  repeat match goal with
         | |- context [Nat.ltb ?a ?b] => destruct (Nat.ltb_spec a b)
         | |- context [Nat.eqb ?a ?b] => destruct (Nat.eqb_spec a b)
         end; lia.

Section ring.
Context (N : nat).

(** The descriptor [k] places after [d]. *)
Definition at_ (d k : nat) : nat := if (d + k <? N)%nat then (d + k)%nat else (d + k - N)%nat.

Lemma at_lt d k : (d < N -> k <= N -> at_ d k < N)%nat.
Proof. unfold at_. index_cases. Qed.

Lemma at_0 d : (d < N -> at_ d 0 = d)%nat.
Proof. unfold at_. index_cases. Qed.

Lemma at_0' k : (k < N -> at_ 0 k = k)%nat.
Proof. unfold at_. index_cases. Qed.

Lemma at_N d : (d < N -> at_ d N = d)%nat.
Proof. unfold at_. index_cases. Qed.

Lemma at_inj d j k : (d < N -> j < N -> k < N -> at_ d j = at_ d k -> j = k)%nat.
Proof. unfold at_. index_cases. Qed.

Lemma next_eq i : (i < N -> (i + 1) mod N = if S i =? N then 0 else S i)%nat.
Proof.
  intros Hi. destruct (Nat.eqb_spec (S i) N) as [E|E].
  - replace (i + 1)%nat with N by lia. by apply Nat.Div0.mod_same.
  - rewrite Nat.mod_small; lia.
Qed.

Lemma next_at d k : (d < N -> k < N -> (at_ d k + 1) mod N = at_ d (S k))%nat.
Proof.
  intros Hd Hk. rewrite next_eq by (apply at_lt; lia). unfold at_. index_cases.
Qed.

Lemma at_next d k : (d < N -> k < N -> at_ ((d + 1) mod N) k = at_ d (S k))%nat.
Proof.
  intros Hd Hk. rewrite next_eq by lia. unfold at_. index_cases.
Qed.
End ring.

(** ** The transmit ring *)

Abbreviation NT := STM32_MAC_TRANSMIT_BUFFERS.
Abbreviation NR := STM32_MAC_RECEIVE_BUFFERS.
Abbreviation tat := (at_ STM32_MAC_TRANSMIT_BUFFERS).
Abbreviation rat := (at_ STM32_MAC_RECEIVE_BUFFERS).

Definition BUFFER_BYTES : nat := Z.to_nat (4 * MAC_BUFFER_SIZE).

Inductive tx_state := Queued (f : list Z) | Writing (w : list Z) | Idle.

(** The descriptor [i] and its buffer are in the given state. *)
Definition tx_slot (s : mac) (i : nat) (st : tx_state) : Prop :=
  exists t b, eth_td s !! i = Some t /\ eth_tb s !! i = Some b /\ length b = BUFFER_BYTES /\
    tdes2 t = i /\ tdes3 t = ((i + 1) mod NT)%nat /\
    match st with
    | Queued f => is_set (tdes0 t) STM32_TDES0_OWN = true /\ is_set (tdes0 t) STM32_TDES0_LOCKED = false /\
                  take (Z.to_nat (tdes1 t)) b = f
    | Writing w => is_set (tdes0 t) STM32_TDES0_OWN = false /\ is_set (tdes0 t) STM32_TDES0_LOCKED = true /\
                   take (length w) b = w
    | Idle => is_set (tdes0 t) STM32_TDES0_OWN = false /\ is_set (tdes0 t) STM32_TDES0_LOCKED = false
    end.

(** [q] are the descriptors in use, from the engine's on: each holds a frame for the
    engine, or what a thread that has it has written so far. *)
Definition tx_at (q : list tx_state) (k : nat) : tx_state := default Idle (q !! k).

Definition tx_fits (st : tx_state) : Prop :=
  match st with
  | Queued _ => True
  | Writing w => Z.of_nat (length w) <= STM32_MAC_BUFFERS_SIZE
  | Idle => False
  end.

Record tx_ok (s : mac) (d : nat) (q : list tx_state) : Prop := {
  tx_dma : (d < NT)%nat;
  tx_room : (length q <= NT)%nat;
  tx_ptr : txptr s = tat d (length q);
  tx_slots : forall k, (k < NT)%nat -> tx_slot s (tat d k) (tx_at q k);
  tx_used : Forall tx_fits q
}.

(** The descriptor of a thread, [k] places after the engine's. *)
Definition tx_desc (d k : nat) (w : list Z) : MACTransmitDescriptor :=
  Td (Z.of_nat (length w)) STM32_MAC_BUFFERS_SIZE (tat d k).

Lemma tx_at_some q k st : q !! k = Some st -> tx_at q k = st.
Proof. intros H. unfold tx_at. by rewrite H. Qed.

Lemma tx_at_idle q k : (length q <= k)%nat -> tx_at q k = Idle.
Proof. intros H. unfold tx_at. by rewrite (lookup_ge_None_2 q) by lia. Qed.

(** Changing one descriptor or buffer leaves the others. *)
Lemma tx_slot_frame s s' i j st :
  i <> j -> (forall k, k <> j -> eth_td s' !! k = eth_td s !! k) -> (forall k, k <> j -> eth_tb s' !! k = eth_tb s !! k) ->
  tx_slot s i st -> tx_slot s' i st.
Proof. intros Hne H1 H2 (t & b & Ht & Hb & H). exists t, b. by rewrite H1, H2 by done. Qed.

Lemma tx_lookup s d q k : tx_ok s d q -> (k < NT)%nat ->
  exists t b, eth_td s !! tat d k = Some t /\ eth_tb s !! tat d k = Some b /\ length b = BUFFER_BYTES /\
    tdes2 t = tat d k /\ tdes3 t = tat d (S k) /\
    match tx_at q k with
    | Queued f => is_set (tdes0 t) STM32_TDES0_OWN = true /\ is_set (tdes0 t) STM32_TDES0_LOCKED = false /\
                  take (Z.to_nat (tdes1 t)) b = f
    | Writing w => is_set (tdes0 t) STM32_TDES0_OWN = false /\ is_set (tdes0 t) STM32_TDES0_LOCKED = true /\
                   take (length w) b = w
    | Idle => is_set (tdes0 t) STM32_TDES0_OWN = false /\ is_set (tdes0 t) STM32_TDES0_LOCKED = false
    end.
Proof.
  intros Hok Hk. destruct (tx_slots _ _ _ Hok k Hk) as (t & b & H1 & H2 & H3 & H4 & H5 & H6).
  exists t, b. rewrite H5, next_at by (done || apply Hok). done.
Qed.

(** A change at one position. *)
Lemma tx_ok_update s s' d q q' j :
  tx_ok s d q -> (j < NT)%nat ->
  (forall k, k <> tat d j -> eth_td s' !! k = eth_td s !! k) -> (forall k, k <> tat d j -> eth_tb s' !! k = eth_tb s !! k) ->
  tx_slot s' (tat d j) (tx_at q' j) -> (forall k, k <> j -> tx_at q' k = tx_at q k) ->
  (length q' <= NT)%nat -> txptr s' = tat d (length q') -> Forall tx_fits q' -> tx_ok s' d q'.
Proof.
  intros [Hd _ _ Hsl _] Hj Htd Htb Hnew Hat Hroom Hptr Hw. split; try done. intros k Hk.
  destruct (decide (k = j)) as [-> |Hne]; [done|]. rewrite Hat by done.
  apply (tx_slot_frame s _ _ (tat d j)); [intros E; apply at_inj in E; done|done|done|by apply Hsl].
Qed.

(** The same for a descriptor in use. *)
Lemma tx_ok_insert s s' d q j st st' :
  tx_ok s d q -> q !! j = Some st' -> tx_fits st ->
  (forall k, k <> tat d j -> eth_td s' !! k = eth_td s !! k) -> (forall k, k <> tat d j -> eth_tb s' !! k = eth_tb s !! k) ->
  tx_slot s' (tat d j) st -> txptr s' = txptr s -> tx_ok s' d (<[j := st]> q).
Proof.
  intros Hok Hj Hst Htd Htb Hnew Hptr. pose proof (lookup_lt_Some _ _ _ Hj) as Hlt. pose proof Hok as [_ Hroom Hp _ Hu].
  apply (tx_ok_update s _ d q _ j Hok); try done; [lia|by rewrite (tx_at_some _ _ st) by (by apply list_lookup_insert_eq)| | | |].
  - intros k Hk. unfold tx_at. by rewrite list_lookup_insert_ne.
  - by rewrite length_insert.
  - by rewrite length_insert, Hptr.
  - by apply Forall_insert.
Qed.

(** The rest of the driver. *)
Definition same_rx (s s' : mac) : Prop :=
  rxptr s' = rxptr s /\ eth_rd s' = eth_rd s /\ eth_rb s' = eth_rb s.

Lemma get_transmit_ok s d q :
  tx_ok s d q ->
  if link_up s && (length q <? NT)%nat then
    exists s', mac_lld_get_transmit_descriptor s = Some (Some (tx_desc d (length q) []), s') /\
      tx_ok s' d (q ++ [Writing []]) /\ same_rx s s'
  else mac_lld_get_transmit_descriptor s = Some (None, s).
Proof.
  intros Hok. pose proof Hok as [Hd Hroom Hptr Hsl Hu].
  unfold mac_lld_get_transmit_descriptor. destruct (link_up s) eqn:Elink; cbn [negb andb]; [|done].
  destruct (Nat.ltb_spec (length q) NT) as [Hlt|Hge].
  - destruct (tx_lookup s d q (length q) Hok Hlt) as (t & b & Ht & Hb & Hlen & E2 & E3 & Hst).
    rewrite tx_at_idle in Hst by lia. destruct Hst as [Ho Hlk].
    rewrite Hptr, Ht. cbn [mbind option_bind]. rewrite is_set_lor_r, Ho, Hlk. cbn [orb].
    eexists. split; [done|]. split; [|done]. destruct (lock_bits (tdes0 t)) as [Hl1 Hl2].
    apply (tx_ok_update s _ d q _ (length q) Hok Hlt).
    + intros k Hk. cbn [set_txptr set_eth_td eth_td]. by rewrite list_lookup_insert_ne.
    + done.
    + rewrite (tx_at_some _ _ (Writing [])) by (by apply list_lookup_middle). eexists _, b. cbn [set_txptr set_eth_td eth_td eth_tb].
      rewrite list_lookup_insert_eq by (by eapply lookup_lt_Some). split; [done|]. split; [done|]. split; [done|].
      cbn [set_tdes0 tdes0 tdes2 tdes3]. split; [done|]. split; [by rewrite E3, next_at|]. by rewrite Hl1, Hl2.
    + intros k Hne. unfold tx_at. destruct (Nat.lt_ge_cases k (length q)); [by rewrite lookup_app_l|].
      by rewrite !lookup_ge_None_2 by (rewrite ?length_app; cbn; lia).
    + rewrite length_app. cbn. lia.
    + cbn [set_txptr txptr]. by rewrite E3, length_app, Nat.add_1_r.
    + apply Forall_app. split; [done|]. by constructor.
  - destruct (tx_lookup s d q 0 Hok ltac:(unfold NT; lia)) as (t & b & Ht & Hb & Hlen & E2 & E3 & Hst).
    assert (length q = NT) as Eq by lia. rewrite Hptr, Eq, at_N, <- (at_0 NT d Hd), Ht by done. cbn [mbind option_bind].
    destruct q as [|st q]; [unfold NT in *; cbn in Hge; lia|]. apply Forall_cons in Hu as [Hst' _]. cbn in Hst.
    rewrite is_set_lor_r. destruct st as [f|w|]; [by rewrite (proj1 Hst)|destruct Hst as (_ & -> & _); by rewrite orb_true_r|done].
Qed.

Lemma take_list_inserts {A} (l b : list A) i :
  (i + length l <= length b)%nat -> take (i + length l) (list_inserts i l b) = take i b ++ l.
Proof.
  intros H. apply list_eq. intros k. destruct (decide (k < i + length l)%nat) as [Hk|Hk].
  - rewrite lookup_take_lt by done. destruct (decide (k < i)%nat) as [Hi|Hi].
    + rewrite list_lookup_inserts_lt by done. rewrite lookup_app_l by (rewrite length_take; lia). by rewrite lookup_take_lt.
    + rewrite list_lookup_inserts by lia. rewrite lookup_app_r by (rewrite length_take; lia).
      rewrite length_take. f_equal. lia.
  - rewrite lookup_take_ge by lia. rewrite lookup_ge_None_2; [done|]. rewrite length_app, length_take. lia.
Qed.

(** The descriptor of a thread in the ring. *)
Lemma tx_writing s d q k w : tx_ok s d q -> q !! k = Some (Writing w) ->
  (k < NT)%nat /\ Z.of_nat (length w) <= STM32_MAC_BUFFERS_SIZE /\
  exists t b, eth_td s !! tat d k = Some t /\ eth_tb s !! tat d k = Some b /\ length b = BUFFER_BYTES /\
    tdes2 t = tat d k /\ tdes3 t = tat d (S k) /\ is_set (tdes0 t) STM32_TDES0_OWN = false /\
    is_set (tdes0 t) STM32_TDES0_LOCKED = true /\ take (length w) b = w.
Proof.
  intros Hok Hk. pose proof Hok as [_ Hroom _ _ Hu]. pose proof (lookup_lt_Some _ _ _ Hk) as Hlt.
  assert (HkN : (k < NT)%nat) by lia. split; [done|]. split; [by apply (Forall_lookup_1 _ _ _ _ Hu Hk)|].
  destruct (tx_lookup s d q k Hok HkN) as (t & b & Ht & Hb & Hlen & E2 & E3 & Hst). rewrite (tx_at_some _ _ _ Hk) in Hst.
  destruct Hst as (Ho & Hlk & Hwb). by exists t, b.
Qed.

Lemma write_transmit_ok s d q k w buf :
  tx_ok s d q -> q !! k = Some (Writing w) ->
  let w' := take (Z.to_nat STM32_MAC_BUFFERS_SIZE) (w ++ buf) in
  exists n s', mac_lld_write_transmit_descriptor (tx_desc d k w) buf s = Some (n, tx_desc d k w', s') /\
    tx_ok s' d (<[k := Writing w']> q) /\ same_rx s s'.
Proof.
  intros Hok Hk w'. destruct (tx_writing s d q k w Hok Hk) as (HkN & Hw & t & b & Ht & Hb & Hlen & E2 & E3 & Ho & Hlk & Hwb).
  unfold mac_lld_write_transmit_descriptor, tx_desc. cbn [td_physdesc td_offset td_size]. rewrite Ht. cbn [mbind option_bind]. rewrite Ho.
  set (size := if _ <? Z.of_nat (length buf) then _ else _).
  assert (Hsize : size = Z.min (STM32_MAC_BUFFERS_SIZE - Z.of_nat (length w)) (Z.of_nat (length buf))).
  { subst size. unfold STM32_MAC_BUFFERS_SIZE in *. rewrite u32_small by lia.
    destruct (Z.ltb_spec (1522 - Z.of_nat (length w)) (Z.of_nat (length buf))); lia. }
  assert (Ew : w' = w ++ take (Z.to_nat size) buf).
  { unfold w'. rewrite take_app_ge by lia. f_equal. rewrite Hsize. unfold STM32_MAC_BUFFERS_SIZE in *.
    destruct (Z.le_gt_cases (1522 - Z.of_nat (length w)) (Z.of_nat (length buf))).
    - f_equal. lia.
    - rewrite !take_ge by lia. done. }
  assert (Hbl : Z.of_nat BUFFER_BYTES = 1524) by (vm_compute; reflexivity). unfold STM32_MAC_BUFFERS_SIZE in *.
  destruct (Z.ltb_spec 0 size) as [Hpos|Hz].
  - rewrite E2, Hb. cbn [mbind option_bind]. rewrite (proj2 (Z.ltb_ge _ _)) by lia.
    assert (Hw' : length w' = (length w + Z.to_nat size)%nat) by (rewrite Ew, length_app, length_take; lia).
    eexists _, _. split; [rewrite Hw', u32_small by lia; f_equal; f_equal; f_equal; f_equal; lia|]. split; [|done].
    apply (tx_ok_insert s _ d q k _ _ Hok Hk).
    + cbn [tx_fits]. unfold STM32_MAC_BUFFERS_SIZE. lia.
    + done.
    + intros j Hj. cbn [set_eth_tb eth_tb]. by rewrite list_lookup_insert_ne.
    + eexists t, _. cbn [set_eth_tb eth_td eth_tb]. split; [done|].
      rewrite list_lookup_insert_eq by (by eapply lookup_lt_Some). split; [done|].
      rewrite length_inserts. split; [done|]. split; [done|]. split; [rewrite E3, next_at by (done || apply Hok); done|]. split; [done|]. split; [done|].
      rewrite Nat2Z.id, Ew, length_app, take_list_inserts by (rewrite length_take; lia). by rewrite Hwb.
    + done.
  - assert (E0 : take (Z.to_nat size) buf = []) by (replace (Z.to_nat size) with 0%nat by lia; done).
    rewrite E0, app_nil_r in Ew. rewrite Ew. eexists _, _. split; [done|]. by rewrite list_insert_id.
Qed.

Lemma release_transmit_ok s d q k w :
  tx_ok s d q -> q !! k = Some (Writing w) ->
  exists s', mac_lld_release_transmit_descriptor (tx_desc d k w) s = Some s' /\
    tx_ok s' d (<[k := Queued w]> q) /\ same_rx s s'.
Proof.
  intros Hok Hk. destruct (tx_writing s d q k w Hok Hk) as (HkN & Hw & t & b & Ht & Hb & Hlen & E2 & E3 & Ho & Hlk & Hwb).
  unfold mac_lld_release_transmit_descriptor, tx_desc. cbn [td_physdesc td_offset]. rewrite Ht. cbn [mbind option_bind]. rewrite Ho.
  eexists. split; [done|]. split; [|done]. apply (tx_ok_insert s _ d q k _ _ Hok Hk); try done.
  - intros j Hj. cbn [set_eth_td eth_td]. by rewrite list_lookup_insert_ne.
  - eexists _, b. cbn [set_eth_td eth_td eth_tb]. rewrite list_lookup_insert_eq by (by eapply lookup_lt_Some).
    split; [done|]. split; [done|]. split; [done|]. cbn [set_tdes0 set_tdes1 tdes0 tdes1 tdes2 tdes3].
    split; [done|]. split; [rewrite E3, next_at by (done || apply Hok); done|]. by rewrite Nat2Z.id.
Qed.

(** ** The DMA engine

    What the hardware does, at its own pace: it sends the frame of the current
    transmit descriptor when it owns it, closes the descriptor and goes on to the
    next; it fills the buffer of the current receive descriptor when it owns it,
    with a frame and its checksum or with something it reports as invalid. *)

Inductive dma_transmit (s : mac) (d : nat) : list Z -> mac -> nat -> Prop :=
| dma_transmit_frame t b st :
    eth_td s !! d = Some t -> is_set (tdes0 t) STM32_TDES0_OWN = true -> eth_tb s !! tdes2 t = Some b ->
    is_set st STM32_TDES0_OWN = false -> is_set st STM32_TDES0_LOCKED = is_set (tdes0 t) STM32_TDES0_LOCKED ->
    dma_transmit s d (take (Z.to_nat (tdes1 t)) b) (set_eth_td (<[d := set_tdes0 st t]> (eth_td s)) s) (tdes3 t).

Definition frame_length (rdes0 : Z) : Z := Z.shiftr (Z.land rdes0 STM32_RDES0_FL_MASK) 16.

Inductive dma_receive (s : mac) (d : nat) : option (list Z) -> mac -> nat -> Prop :=
| dma_receive_frame r b st f crc :
    eth_rd s !! d = Some r -> is_set (rdes0 r) STM32_RDES0_OWN = true -> eth_rb s !! rdes2 r = Some b ->
    length crc = 4%nat -> Z.of_nat (length f) + 4 <= Z.land (rdes1 r) 0x1fff ->
    is_set st STM32_RDES0_OWN = false -> frame_valid st = true -> frame_length st = Z.of_nat (length f) + 4 ->
    dma_receive s d (Some f)
      (set_eth_rb (<[rdes2 r := list_inserts 0 (f ++ crc) b]> (eth_rb s))
         (set_eth_rd (<[d := set_rdes0 st r]> (eth_rd s)) s)) (rdes3 r)
| dma_receive_invalid r b b' st :
    eth_rd s !! d = Some r -> is_set (rdes0 r) STM32_RDES0_OWN = true -> eth_rb s !! rdes2 r = Some b ->
    length b' = length b -> is_set st STM32_RDES0_OWN = false -> frame_valid st = false ->
    dma_receive s d None
      (set_eth_rb (<[rdes2 r := b']> (eth_rb s)) (set_eth_rd (<[d := set_rdes0 st r]> (eth_rd s)) s)) (rdes3 r).

Lemma dma_transmit_ok s d q f s' d' :
  tx_ok s d q -> dma_transmit s d f s' d' ->
  exists q', q = Queued f :: q' /\ d' = tat d 1 /\ tx_ok s' d' q' /\ same_rx s s'.
Proof.
  intros Hok H. destruct H as [t b st Ht Ho Hb Hst Hsl]. pose proof Hok as [Hd Hroom Hptr Hslots Hu].
  destruct (tx_lookup s d q 0 Hok ltac:(unfold NT; lia)) as (t' & b' & Ht' & Hb' & Hlen & E2 & E3 & Hst').
  rewrite at_0 in Ht', Hb', E2 by done. rewrite Ht in Ht'. injection Ht' as <-. rewrite E2 in Hb. rewrite Hb in Hb'. injection Hb' as <-.
  destruct q as [|[f|w|] q]; cbn in Hst'; try (destruct Hst' as [Hst' _]; congruence).
  destruct Hst' as (_ & Hlk & Hf). subst f. exists q. split; [done|]. split; [done|]. split; [|done].
  assert (Hat : forall k, (k < NT)%nat -> tat (tat d 1) k = tat d (S k)).
  { intros k Hk. rewrite <- (next_at NT d 0), at_0 by (done || unfold NT; lia). by apply at_next. }
  rewrite E3. cbn [length] in *. apply Forall_cons in Hu as [_ Hu]. split; [apply at_lt; [done|unfold NT; lia]|lia| | |done].
  - cbn [set_eth_td txptr]. rewrite Hat, Hptr by lia. done.
  - intros k Hk. rewrite Hat by done. destruct (decide (S k = NT)) as [Ek|Ek].
    + rewrite tx_at_idle by lia. rewrite Ek, at_N by done. eexists _, b. cbn [set_eth_td eth_td eth_tb].
      rewrite list_lookup_insert_eq by (by eapply lookup_lt_Some). split; [done|]. split; [done|]. split; [done|].
      cbn [set_tdes0 tdes0 tdes2 tdes3]. split; [done|]. split; [rewrite E3, <- (next_at NT d 0), at_0 by (done || unfold NT; lia); done|].
      by rewrite Hst, Hsl, Hlk.
    + change (tx_at q k) with (tx_at (Queued (take (Z.to_nat (tdes1 t)) b) :: q) (S k)).
      apply (tx_slot_frame s _ _ d).
      * intros E. rewrite <- (at_0 NT d) in E at 2 by done. apply at_inj in E; [lia|done|lia|unfold NT; lia].
      * intros j Hj. cbn [set_eth_td eth_td]. by rewrite list_lookup_insert_ne.
      * done.
      * apply Hslots. lia.
Qed.

(** ** The receive ring *)

Inductive rx_state := Arrived (x : option (list Z)) | Reading (f : list Z) | Armed.

(** A frame in a buffer, or the rest of one that is not valid. *)
Definition rx_content (r : rx_descriptor) (b : list Z) (x : option (list Z)) : Prop :=
  is_set (rdes0 r) STM32_RDES0_OWN = false /\
  match x with
  | Some f => frame_valid (rdes0 r) = true /\ frame_length (rdes0 r) = Z.of_nat (length f) + 4 /\
              take (length f) b = f /\ Z.of_nat (length f) + 4 <= STM32_MAC_BUFFERS_SIZE
  | None => frame_valid (rdes0 r) = false
  end.

Definition rx_slot (s : mac) (i : nat) (st : rx_state) : Prop :=
  exists r b, eth_rd s !! i = Some r /\ eth_rb s !! i = Some b /\ length b = BUFFER_BYTES /\
    rdes1 r = Z.lor STM32_RDES1_RCH STM32_MAC_BUFFERS_SIZE /\ rdes2 r = i /\ rdes3 r = ((i + 1) mod NR)%nat /\
    match st with
    | Arrived x => rx_content r b x
    | Reading f => rx_content r b (Some f)
    | Armed => is_set (rdes0 r) STM32_RDES0_OWN = true
    end.

(** [c] is what has arrived since the driver last looked, [held] the frame of the
    descriptor a thread has, which is the one before the driver's pointer. *)
Definition rx_at (c : list (option (list Z))) (held : option (list Z)) (k : nat) : rx_state :=
  match c !! k with
  | Some x => Arrived x
  | None => match held with
            | Some f => if (S k =? NR)%nat then Reading f else Armed
            | None => Armed
            end
  end.

Definition used (held : option (list Z)) : nat := match held with Some _ => 1 | None => 0 end.

(** The driver's pointer is [p], the engine's is [d]. *)
Record rx_ok_at (s : mac) (p d : nat) (c : list (option (list Z))) (held : option (list Z)) : Prop := {
  rx_ptr : (p < NR)%nat;
  rx_room : (length c + used held <= NR)%nat;
  rx_dma : d = rat p (length c);
  rx_slots : forall k, (k < NR)%nat -> rx_slot s (rat p k) (rx_at c held k)
}.

Definition rx_ok (s : mac) : nat -> list (option (list Z)) -> option (list Z) -> Prop := rx_ok_at s (rxptr s).

(** The rest of the driver. *)
Definition same_tx (s s' : mac) : Prop :=
  txptr s' = txptr s /\ eth_td s' = eth_td s /\ eth_tb s' = eth_tb s.

Lemma rx_slot_frame s s' i j st :
  i <> j -> (forall k, k <> j -> eth_rd s' !! k = eth_rd s !! k) -> (forall k, k <> j -> eth_rb s' !! k = eth_rb s !! k) ->
  rx_slot s i st -> rx_slot s' i st.
Proof. intros Hne H1 H2 (t & b & Ht & Hb & H). exists t, b. by rewrite H1, H2 by done. Qed.

Lemma rat_shift p k : (p < NR)%nat -> (k < NR)%nat -> rat (rat p 1) k = rat p (S k).
Proof. intros Hp Hk. rewrite <- (next_at NR p 0), at_0 by (done || unfold NR; lia). by apply at_next. Qed.

Lemma rat_last p : (p < NR)%nat -> rat (rat p 1) (NR - 1) = p.
Proof. intros Hp. rewrite rat_shift by (done || unfold NR; lia). by apply at_N. Qed.

(** The driver moves on by one descriptor, which becomes [st] in the new view. *)
Lemma rx_advance s s' p d x c held :
  rx_ok_at s p d (x :: c) None ->
  (forall k, k <> p -> eth_rd s' !! k = eth_rd s !! k) -> eth_rb s' = eth_rb s ->
  rx_slot s' p (match held with Some f => Reading f | None => Armed end) ->
  rx_ok_at s' (rat p 1) d c held.
Proof.
  intros [Hp Hroom Hd Hsl] Hrd Hrb Hnew. cbn [length used] in *.
  split; [apply at_lt; [done|unfold NR; lia]|destruct held; cbn [used]; lia|by rewrite rat_shift by lia|].
  intros k Hk. rewrite rat_shift by done. destruct (decide (S k = NR)) as [Ek|Ek].
  - assert (rx_at c held k = match held with Some f => Reading f | None => Armed end) as ->.
    { unfold rx_at. rewrite (lookup_ge_None_2 c) by lia. destruct held; [|done]. by rewrite (proj2 (Nat.eqb_eq _ _)). }
    by rewrite Ek, at_N.
  - assert (rx_at c held k = rx_at (x :: c) None (S k)) as ->.
    { unfold rx_at. cbn [lookup list_lookup]. destruct (c !! k); [done|]. destruct held; [|done].
      by rewrite (proj2 (Nat.eqb_neq _ _)). }
    apply (rx_slot_frame s _ _ p); [|done|by rewrite Hrb|apply Hsl; lia].
    intros E. rewrite <- (at_0 NR p) in E at 2 by done. apply at_inj in E; [lia|done|lia|unfold NR; lia].
Qed.

Lemma rx_ring_lookup s p d c held k : rx_ok_at s p d c held -> (k < NR)%nat ->
  exists r b, eth_rd s !! rat p k = Some r /\ eth_rb s !! rat p k = Some b /\ length b = BUFFER_BYTES /\
    rdes1 r = Z.lor STM32_RDES1_RCH STM32_MAC_BUFFERS_SIZE /\ rdes2 r = rat p k /\ rdes3 r = rat p (S k) /\
    match rx_at c held k with
    | Arrived x => rx_content r b x
    | Reading f => rx_content r b (Some f)
    | Armed => is_set (rdes0 r) STM32_RDES0_OWN = true
    end.
Proof.
  intros Hok Hk. destruct (rx_slots _ _ _ _ _ Hok k Hk) as (r & b & H1 & H2 & H3 & H4 & H5 & H6 & H7).
  exists r, b. rewrite H6, next_at by (done || apply Hok). done.
Qed.

(** The first valid frame, and what follows it. *)
Fixpoint first_valid (c : list (option (list Z))) : option (list Z * list (option (list Z))) :=
  match c with
  | [] => None
  | Some f :: c => Some (f, c)
  | None :: c => first_valid c
  end.

(** The descriptor of a thread that has read [o] bytes of the frame. *)
Definition rx_desc (s : mac) (f : list Z) (o : Z) : MACReceiveDescriptor :=
  Rd o (Z.of_nat (length f)) (rat (rxptr s) (NR - 1)).

Lemma get_receive_loop_ok c : forall fuel p d s,
  rx_ok_at s p d c None -> (length c <= fuel)%nat ->
  exists s', get_receive_loop fuel p s =
      Some (match first_valid c with Some (f, _) => Some (rx_desc s' f 0) | None => None end, s') /\
    rx_ok s' d (match first_valid c with Some (_, c') => c' | None => [] end)
      (match first_valid c with Some (f, _) => Some f | None => None end) /\ same_tx s s'.
Proof.
  induction c as [|x c IH]; intros fuel p d s Hok Hf; pose proof Hok as [Hp Hroom Hd Hsl];
    destruct (rx_ring_lookup s p d _ None 0 Hok ltac:(unfold NR; lia)) as (r & b & Hr & Hb & Hlen & E1 & E2 & E3 & Hst);
    rewrite at_0 in Hr, Hb, E2 by done.
  - cbn in Hst. exists (set_rxptr p s). destruct fuel; cbn [get_receive_loop first_valid]; rewrite Hr; cbn [mbind option_bind];
      rewrite Hst; done.
  - cbn [length] in Hf. destruct fuel as [|fuel]; [lia|]. cbn in Hst. destruct Hst as [Ho Hst].
    cbn [get_receive_loop]. rewrite Hr. cbn [mbind option_bind]. rewrite Ho. cbn [negb]. destruct x as [f|]; cbn [first_valid].
    + destruct Hst as (Hv & Hfl & Htk & Hmax). rewrite Hv. exists (set_rxptr (rdes3 r) s). split.
      * unfold rx_desc. cbn [set_rxptr rxptr]. rewrite E3, rat_last by done.
        fold (frame_length (rdes0 r)). rewrite Hfl, u32_small by (unfold STM32_MAC_BUFFERS_SIZE in Hmax; lia).
        do 4 f_equal. lia.
      * split; [|done]. unfold rx_ok. cbn [set_rxptr rxptr]. rewrite E3.
        apply (rx_advance s _ p d (Some f)); [done|done|done|]. exists r, b. cbn [set_rxptr eth_rd eth_rb].
        split; [done|]. split; [done|]. split; [done|]. split; [done|]. split; [done|].
        split; [rewrite E3, <- (next_at NR p 0), at_0 by (done || unfold NR; lia); done|]. done.
    + rewrite Hst. set (s1 := set_eth_rd _ s).
      assert (Hok1 : rx_ok_at s1 (rat p 1) d c None).
      { apply (rx_advance s _ p d None); [done| |done|].
        - intros k Hk. unfold s1. cbn [set_eth_rd eth_rd]. by rewrite list_lookup_insert_ne.
        - eexists _, b. unfold s1. cbn [set_eth_rd eth_rd eth_rb]. rewrite list_lookup_insert_eq by (by eapply lookup_lt_Some).
          split; [done|]. split; [done|]. split; [done|]. cbn [set_rdes0 rdes0 rdes1 rdes2 rdes3]. split; [done|]. split; [done|].
          split; [rewrite E3, <- (next_at NR p 0), at_0 by (done || unfold NR; lia); done|]. done. }
      rewrite E3. destruct (IH fuel (rat p 1) d s1 Hok1 ltac:(lia)) as (s' & E & Hok' & Hs'). exists s'. done.
Qed.

Lemma rx_held s d c f : rx_ok s d c (Some f) ->
  (length c < NR)%nat /\
  exists r b, eth_rd s !! rat (rxptr s) (NR - 1) = Some r /\ eth_rb s !! rat (rxptr s) (NR - 1) = Some b /\ length b = BUFFER_BYTES /\
    rdes1 r = Z.lor STM32_RDES1_RCH STM32_MAC_BUFFERS_SIZE /\
    rdes2 r = rat (rxptr s) (NR - 1) /\ rdes3 r = rat (rxptr s) NR /\ rx_content r b (Some f).
Proof.
  intros Hok. pose proof Hok as [Hp Hroom Hd Hsl]. cbn [used] in Hroom. split; [lia|].
  destruct (rx_ring_lookup s _ d c (Some f) (NR - 1) Hok ltac:(unfold NR; lia)) as (r & b & Hr & Hb & Hlen & E1 & E2 & E3 & Hst).
  exists r, b. unfold rx_at in Hst. rewrite (lookup_ge_None_2 c) in Hst by lia. done.
Qed.

Lemma read_receive_ok s d c f o n :
  rx_ok s d c (Some f) -> 0 <= o <= Z.of_nat (length f) -> 0 <= n ->
  let x := take (Z.to_nat n) (drop (Z.to_nat o) f) in
  mac_lld_read_receive_descriptor (rx_desc s f o) n s = Some (x, rx_desc s f (o + Z.of_nat (length x))).
Proof.
  intros Hok Ho Hn x. destruct (rx_held s d c f Hok) as (_ & r & b & Hr & Hb & Hlen & E1 & E2 & _ & Hown & _ & Hfl & Htk & Hmax).
  unfold mac_lld_read_receive_descriptor, rx_desc. cbn [rd_physdesc rd_size rd_offset]. rewrite Hr. cbn [mbind option_bind].
  rewrite Hown. unfold STM32_MAC_BUFFERS_SIZE in Hmax. rewrite u32_small by lia.
  set (size := if _ <? n then _ else _).
  assert (Hsz : size = Z.min (Z.of_nat (length f) - o) n) by (subst size; destruct (Z.ltb_spec (Z.of_nat (length f) - o) n); lia).
  assert (Hx : Z.of_nat (length x) = size) by (unfold x; rewrite length_take, length_drop; lia).
  assert (Hbl : Z.of_nat BUFFER_BYTES = 1524) by (vm_compute; reflexivity).
  destruct (Z.ltb_spec 0 size) as [Hpos|Hz].
  - rewrite E2, Hb. cbn [mbind option_bind]. rewrite (proj2 (Z.ltb_ge _ _)) by lia. rewrite u32_small, <- Hx by lia. f_equal. f_equal.
    assert (Ef : drop (Z.to_nat o) f = take (length f - Z.to_nat o) (drop (Z.to_nat o) b))
      by (rewrite <- skipn_firstn_comm; by rewrite Htk).
    rewrite Nat2Z.id. unfold x at 2. rewrite Ef, take_take. f_equal. lia.
  - destruct x; [|cbn in Hx; lia]. by rewrite Z.add_0_r.
Qed.

Lemma release_receive_ok s d c f o :
  rx_ok s d c (Some f) ->
  exists s', mac_lld_release_receive_descriptor (rx_desc s f o) s = Some s' /\ rx_ok s' d c None /\ same_tx s s'.
Proof.
  intros Hok. destruct (rx_held s d c f Hok) as (Hlt & r & b & Hr & Hb & Hlen & E1 & E2 & E3 & Hown & _).
  pose proof Hok as [Hp Hroom Hd Hsl]. cbn [used] in *.
  unfold mac_lld_release_receive_descriptor, rx_desc. cbn [rd_physdesc]. rewrite Hr. cbn [mbind option_bind]. rewrite Hown.
  eexists. split; [done|]. split; [|done]. split; cbn [set_eth_rd rxptr used]; [done|lia|done|].
  intros k Hk. destruct (decide (S k = NR)) as [Ek|Ek].
  - assert (rx_at c None k = Armed) as -> by (unfold rx_at; by rewrite (lookup_ge_None_2 c) by lia).
    assert (k = NR - 1)%nat as -> by lia. eexists _, b. cbn [set_eth_rd eth_rd eth_rb].
    rewrite list_lookup_insert_eq by (by eapply lookup_lt_Some). split; [done|]. split; [done|]. split; [done|].
    cbn [set_rdes0 rdes0 rdes1 rdes2 rdes3]. split; [done|]. split; [done|].
    split; [by rewrite E3, next_at by (done || unfold NR; lia)|done].
  - assert (rx_at c None k = rx_at c (Some f) k) as -> by (unfold rx_at; by rewrite (proj2 (Nat.eqb_neq _ _))).
    apply (rx_slot_frame s _ _ (rat (rxptr s) (NR - 1))); [|intros j Hj; cbn; by rewrite list_lookup_insert_ne|done|by apply Hsl].
    intros E. apply at_inj in E; [lia|done|done|unfold NR; lia].
Qed.

(** The engine only finds a descriptor of its own when there is room. *)
Lemma rx_dma_owned s d c held r :
  rx_ok s d c held -> eth_rd s !! d = Some r -> is_set (rdes0 r) STM32_RDES0_OWN = true ->
  (length c + used held < NR)%nat.
Proof.
  intros Hok Hr Ho. pose proof Hok as [Hp Hroom Hd Hsl].
  destruct (decide (length c + used held = NR)%nat) as [E|]; [|lia]. exfalso. destruct held as [f|]; cbn [used] in *.
  - destruct (rx_held s d c f Hok) as (_ & r' & b & Hr' & _ & _ & _ & _ & _ & Ho' & _).
    assert (length c = NR - 1)%nat as Ec by lia. rewrite Ec in Hd. rewrite Hd in Hr. congruence.
  - destruct (rx_ring_lookup s _ d c None 0 Hok ltac:(unfold NR; lia)) as (r' & b & Hr' & _ & _ & _ & _ & _ & Hst).
    rewrite Nat.add_0_r in E. rewrite E, at_N in Hd by done. rewrite at_0 in Hr' by done.
    unfold rx_at in Hst. destruct (c !! 0%nat) as [x|] eqn:E0; [|apply lookup_ge_None in E0; unfold NR in *; lia].
    destruct Hst as [Ho' _]. subst d. congruence.
Qed.

(** Something arrives in the descriptor [d]. *)
Lemma rx_arrive s s' d c held x :
  rx_ok s d c held -> (length c + used held < NR)%nat -> rxptr s' = rxptr s ->
  (forall k, k <> d -> eth_rd s' !! k = eth_rd s !! k) -> (forall k, k <> d -> eth_rb s' !! k = eth_rb s !! k) ->
  rx_slot s' d (Arrived x) -> rx_ok s' (rat (rxptr s) (S (length c))) (c ++ [x]) held.
Proof.
  intros [Hp Hroom Hd Hsl] Hlt Hptr Hrd Hrb Hnew.
  split; rewrite ?Hptr, ?length_app; cbn [length]; [done|lia|f_equal; lia|]. intros k Hk.
  destruct (decide (k = length c)) as [-> |Hne].
  - unfold rx_at. rewrite list_lookup_middle by done. by rewrite <- Hd.
  - assert (rx_at (c ++ [x]) held k = rx_at c held k) as ->.
    { unfold rx_at. destruct (Nat.lt_ge_cases k (length c)).
      - rewrite lookup_app_l by done. destruct (lookup_lt_is_Some_2 c k) as [y ->]; done.
      - rewrite !lookup_ge_None_2 by (rewrite ?length_app; cbn; lia). done. }
    apply (rx_slot_frame s _ _ d); [|done|done|by apply Hsl]. rewrite Hd. intros E. apply at_inj in E; [done|done|done|lia].
Qed.

Lemma dma_receive_ok s d c held x s' d' :
  rx_ok s d c held -> dma_receive s d x s' d' ->
  rx_ok s' d' (c ++ [x]) held /\ same_tx s s' /\ rxptr s' = rxptr s.
Proof.
  intros Hok H. pose proof Hok as [Hp Hroom Hd Hsl]. destruct H as [r b st f crc Hr Ho Hb Hcrc Hlen Hst Hv Hfl|r b b' st Hr Ho Hb Hlen Hst Hv];
    pose proof (rx_dma_owned s d c held r Hok Hr Ho) as Hlt;
    destruct (rx_ring_lookup s _ d c held (length c) Hok ltac:(lia)) as (r0 & b0 & Hr0 & Hb0 & Hlen0 & E1 & E2 & E3 & _);
    rewrite <- Hd in Hr0, Hb0, E2; rewrite Hr in Hr0; injection Hr0 as <-; rewrite E2, Hb0 in Hb; injection Hb as <-;
    rewrite E3, E2; (split; [|done]);
    (apply (rx_arrive s _ d); [done|done|done|intros k Hk; cbn; by rewrite list_lookup_insert_ne|intros k Hk; cbn; by rewrite list_lookup_insert_ne|]);
    eexists _, _; cbn [set_eth_rb set_eth_rd eth_rd eth_rb];
    rewrite !list_lookup_insert_eq by (by eapply lookup_lt_Some);
    (split; [done|]); (split; [done|]); cbn [set_rdes0 rdes0 rdes1 rdes2 rdes3].
  - rewrite length_inserts. split; [done|]. split; [done|]. split; [done|].
    split; [rewrite E3, Hd, next_at by (done || lia); done|]. split; [done|]. split; [done|]. split; [done|].
    rewrite E1 in Hlen. change (Z.land (Z.lor STM32_RDES1_RCH STM32_MAC_BUFFERS_SIZE) 0x1fff) with STM32_MAC_BUFFERS_SIZE in Hlen.
    split; [|done]. assert (Hbl : Z.of_nat BUFFER_BYTES = 1524) by (vm_compute; reflexivity). unfold STM32_MAC_BUFFERS_SIZE in Hlen.
    pose proof (take_list_inserts (f ++ crc) b0 0) as Ht. rewrite length_app in Ht. specialize (Ht ltac:(lia)). change (take 0 b0 ++ f ++ crc) with (f ++ crc) in Ht.
    transitivity (take (length f) (take (0 + (length f + length crc)) (list_inserts 0 (f ++ crc) b0))).
    + rewrite take_take. f_equal. lia.
    + rewrite Ht. apply take_app_length.
  - split; [by rewrite Hlen|]. split; [done|]. split; [done|].
    split; [rewrite E3, Hd, next_at by (done || lia); done|]. done.
Qed.

(** ** The rings do not depend on each other *)

Lemma tx_ok_same s s' d q : same_tx s s' -> tx_ok s d q -> tx_ok s' d q.
Proof.
  intros (Hp & Htd & Htb) [Hd Hroom Hptr Hsl Hw]. split; try done; [by rewrite Hp|].
  intros k Hk. destruct (Hsl k Hk) as (t & b & H). exists t, b. by rewrite Htd, Htb.
Qed.

Lemma rx_ok_same s s' d c held : same_rx s s' -> rx_ok s d c held -> rx_ok s' d c held.
Proof.
  intros (Hp & Hrd & Hrb) [Hpt Hroom Hd Hsl]. split; rewrite ?Hp; try done.
  intros k Hk. destruct (Hsl k Hk) as (r & b & H). exists r, b. by rewrite Hrd, Hrb.
Qed.

(** ** After the initialisation *)

Definition tables_ok (s : mac) : Prop :=
  length (eth_rd s) = NR /\ length (eth_td s) = NT /\ length (eth_rb s) = NR /\ length (eth_tb s) = NT /\
  Forall (fun b => length b = BUFFER_BYTES) (eth_rb s) /\ Forall (fun b => length b = BUFFER_BYTES) (eth_tb s).

Lemma tables_init_ok s : tables_ok s ->
  let s' := mac_lld_start (mac_lld_init s) in tx_ok s' 0 [] /\ rx_ok s' 0 [] None.
Proof.
  intros (H1 & H2 & H3 & H4 & H5 & H6). split; (split; [unfold NT, NR; cbn; lia|unfold NT, NR; cbn; lia|done|..]); try done; intros k Hk; rewrite at_0' by done.
  - destruct (lookup_lt_is_Some_2 (eth_td s) k) as [t Ht]; [lia|]. destruct (lookup_lt_is_Some_2 (eth_tb s) k) as [b Hb]; [lia|].
    eexists _, b. cbn [mac_lld_start mac_lld_init eth_td eth_tb]. rewrite list_lookup_fmap, list_lookup_imap, Ht.
    split; [done|]. split; [done|]. split; [by eapply Forall_lookup_1 in H6|]. done.
  - destruct (lookup_lt_is_Some_2 (eth_rd s) k) as [t Ht]; [lia|]. destruct (lookup_lt_is_Some_2 (eth_rb s) k) as [b Hb]; [lia|].
    eexists _, b. cbn [mac_lld_start mac_lld_init eth_rd eth_rb]. rewrite list_lookup_fmap, list_lookup_imap, Ht.
    split; [done|]. split; [done|]. split; [by eapply Forall_lookup_1 in H5|]. done.
Qed.
