(* ===== verification/EthMacTheorems.v ===== *)
(** * Frames through the Ethernet driver

    The driver and the DMA engine as one system: threads get, fill and release
    descriptors, the engine works on its own descriptors in between.  Frames are
    sent and received in order, none is lost, duplicated or mixed up. *)

From Stdlib Require Import ZArith Lia.
From stdpp Require Import base gmap list numbers relations.
From S2P Require Import Prelude Pbuf PbufChain EthMac EthMacProof.
From stdpp Require Import sets list.
Import OptionNotations.

Local Open Scope Z_scope.

(** ** The system *)

(** [tx_own] are the descriptors of the threads that send, with the number of the frame that
    is written to each, and [rx_own] is that of the receiving thread.  [sends] are the frames of
    the threads in the order in which they got their descriptors: the bytes passed
    to the driver so far and whether the descriptor is released.  [wire] are the
    frames the engine has sent, [arrived] the valid frames it has received, and [reads] what
    the receiving thread has read from each. *)
Record eth := Eth {
  drv : mac;
  dtx : nat;
  drx : nat;
  tx_own : gmap nat (MACTransmitDescriptor * nat);
  rx_own : option MACReceiveDescriptor;
  sends : list (list Z * bool);
  wire : list (list Z);
  arrived : list (list Z);
  reads : list (list Z)
}.

(** What fits into one buffer. *)
Definition frame_of (w : list Z) : list Z := take (Z.to_nat STM32_MAC_BUFFERS_SIZE) w.

Definition append_last (x : list Z) (l : list (list Z)) : list (list Z) :=
  match rev l with
  | [] => []
  | y :: l => rev l ++ [y ++ x]
  end.

(** Any number of threads send, each with at most one descriptor; a step is one call of the
    driver by a thread [t], or a step of the engine. *)
Inductive eth_step : eth -> eth -> Prop :=
| es_link b s dt dr to ro se wi ar re :
    eth_step (Eth s dt dr to ro se wi ar re) (Eth (set_link_up b s) dt dr to ro se wi ar re)
| es_get_transmit t td s dt dr to ro se wi ar re s' :
    to !! t = None -> mac_lld_get_transmit_descriptor s = Some (Some td, s') ->
    eth_step (Eth s dt dr to ro se wi ar re) (Eth s' dt dr (<[t := (td, length se)]> to) ro (se ++ [([], false)]) wi ar re)
| es_get_refused t s dt dr to ro se wi ar re s' :
    to !! t = None -> mac_lld_get_transmit_descriptor s = Some (None, s') ->
    eth_step (Eth s dt dr to ro se wi ar re) (Eth s' dt dr to ro se wi ar re)
| es_write t td i buf n s dt dr to ro se wi ar re td' s' :
    to !! t = Some (td, i) -> mac_lld_write_transmit_descriptor td buf s = Some (n, td', s') ->
    eth_step (Eth s dt dr to ro se wi ar re) (Eth s' dt dr (<[t := (td', i)]> to) ro (alter (fun x => (x.1 ++ buf, x.2)) i se) wi ar re)
| es_release_transmit t td i s dt dr to ro se wi ar re s' :
    to !! t = Some (td, i) -> mac_lld_release_transmit_descriptor td s = Some s' ->
    eth_step (Eth s dt dr to ro se wi ar re) (Eth s' dt dr (delete t to) ro (alter (fun x => (x.1, true)) i se) wi ar re)
| es_get_receive s dt dr to se wi ar re ro s' :
    mac_lld_get_receive_descriptor s = Some (ro, s') ->
    eth_step (Eth s dt dr to None se wi ar re)
             (Eth s' dt dr to ro se wi ar (match ro with Some _ => re ++ [[]] | None => re end))
| es_read n s dt dr to rd se wi ar re x rd' :
    0 <= n -> mac_lld_read_receive_descriptor rd n s = Some (x, rd') ->
    eth_step (Eth s dt dr to (Some rd) se wi ar re) (Eth s dt dr to (Some rd') se wi ar (append_last x re))
| es_release_receive s dt dr to rd se wi ar re s' :
    mac_lld_release_receive_descriptor rd s = Some s' ->
    eth_step (Eth s dt dr to (Some rd) se wi ar re) (Eth s' dt dr to None se wi ar re)
| es_dma_transmit s dt dr to ro se wi ar re f s' dt' :
    dma_transmit s dt f s' dt' ->
    eth_step (Eth s dt dr to ro se wi ar re) (Eth s' dt' dr to ro se (wi ++ [f]) ar re)
| es_dma_receive s dt dr to ro se wi ar re x s' dr' :
    dma_receive s dr x s' dr' ->
    eth_step (Eth s dt dr to ro se wi ar re) (Eth s' dt dr' to ro se wi (ar ++ option_list x) re).

(** From the start of the driver on tables of the right size. *)
Definition eth_reach (e : eth) : Prop :=
  exists s, tables_ok s /\ rtc eth_step (Eth (mac_lld_start (mac_lld_init s)) 0 0 ∅ None [] [] [] []) e.

(** ** The invariant *)

(** What the receiving thread has got: the frames, the last of which it may still have. *)
Definition reading (s : mac) (ro : option MACReceiveDescriptor) (held : option (list Z)) (taken re : list (list Z)) : Prop :=
  match held with
  | Some f => exists o taken' re', ro = Some (rx_desc s f o) /\ 0 <= o <= Z.of_nat (length f) /\
                taken = taken' ++ [f] /\ re = re' ++ [take (Z.to_nat o) f] /\ Forall2 prefix re' taken'
  | None => ro = None /\ Forall2 prefix re taken
  end.

(** What a frame that is not on the wire yet is in the ring. *)
Definition slot_of (x : list Z * bool) : tx_state := if x.2 then Queued (frame_of x.1) else Writing (frame_of x.1).

(** The first [length wi] frames are on the wire, the others, [q], in the ring; each thread has
    the descriptor of a frame of its own. *)
Record sending (s : mac) (dt : nat) (to : gmap nat (MACTransmitDescriptor * nat)) (se : list (list Z * bool)) (wi : list (list Z)) (q : list (list Z * bool)) : Prop := {
  sd_ring : tx_ok s dt (map slot_of q);
  sd_sends : exists past, se = past ++ q /\ wi = map (fun x => frame_of x.1) past /\ Forall (fun x => x.2 = true) past;
  sd_own : forall t td i, to !! t = Some (td, i) -> exists k w, i = (length wi + k)%nat /\ q !! k = Some (w, false) /\ td = tx_desc dt k (frame_of w);
  sd_one : forall t t' td td' i, to !! t = Some (td, i) -> to !! t' = Some (td', i) -> t = t'
}.

Definition eth_ok (e : eth) : Prop :=
  exists q c hr taken,
    sending (drv e) (dtx e) (tx_own e) (sends e) (wire e) q /\ rx_ok (drv e) (drx e) c hr /\
    arrived e = taken ++ omap id c /\ reading (drv e) (rx_own e) hr taken (reads e).

Lemma frame_of_app w buf : frame_of (w ++ buf) = take (Z.to_nat STM32_MAC_BUFFERS_SIZE) (frame_of w ++ buf).
Proof.
  unfold frame_of. set (n := Z.to_nat _). destruct (Nat.le_gt_cases n (length w)) as [H|H].
  - rewrite !take_app_le by (rewrite ?length_take; lia). by rewrite take_take, Nat.min_id.
  - by rewrite (take_ge w) by lia.
Qed.

Lemma tx_desc_shift d k w : (d < NT)%nat -> (S k < NT)%nat -> tx_desc (tat d 1) k w = tx_desc d (S k) w.
Proof.
  intros Hd Hk. unfold tx_desc. f_equal. rewrite <- (next_at NT d 0), at_0 by (done || unfold NT; lia). apply at_next; [done|lia].
Qed.

Lemma same_tx_refl s : same_tx s s. Proof. done. Qed.

Lemma append_last_snoc x y l : append_last x (l ++ [y]) = l ++ [y ++ x].
Proof. unfold append_last. rewrite rev_app_distr. cbn [rev app]. by rewrite rev_involutive. Qed.

Lemma take_length_take {A} n (l : list A) : take n l = take (length (take n l)) l.
Proof. rewrite length_take. destruct (Nat.le_gt_cases n (length l)); [f_equal; lia|rewrite !take_ge by lia; done]. Qed.

Lemma omap_length_le {A B} (f : A -> option B) l : (length (omap f l) <= length l)%nat.
Proof. induction l as [|x l IH]; cbn; [done|]. destruct (f x); cbn; lia. Qed.

Lemma first_valid_omap c :
  omap id c = match first_valid c with Some (f, c') => f :: omap id c' | None => [] end.
Proof. induction c as [|[f|] c IH]; cbn; [done|done|exact IH]. Qed.

Lemma rx_desc_same s s' f o : rxptr s' = rxptr s -> rx_desc s' f o = rx_desc s f o.
Proof. intros E. unfold rx_desc. by rewrite E. Qed.

Lemma reading_same s s' ro held taken re : rxptr s' = rxptr s -> reading s ro held taken re -> reading s' ro held taken re.
Proof.
  intros E. destruct held as [f|]; [|done]. intros (o & t & r & H1 & H2). exists o, t, r. by rewrite (rx_desc_same s s').
Qed.

Lemma sending_same s s' dt to se wi q : same_tx s s' -> sending s dt to se wi q -> sending s' dt to se wi q.
Proof. intros Hs [H1 H2 H3 H4]. split; try done. by apply (tx_ok_same s). Qed.

Lemma sending_count s dt to se wi q : sending s dt to se wi q -> length se = (length wi + length q)%nat /\ (length q <= NT)%nat.
Proof. intros [[_ Hq _ _ _] (past & -> & -> & _) _ _]. rewrite length_map in Hq. by rewrite length_app, length_map. Qed.

(** The steps of the threads. *)
Lemma sending_get s dt to se wi q t td s' :
  sending s dt to se wi q -> to !! t = None -> mac_lld_get_transmit_descriptor s = Some (Some td, s') ->
  sending s' dt (<[t := (td, length se)]> to) (se ++ [([], false)]) wi (q ++ [([], false)]) /\ same_rx s s'.
Proof.
  intros Hsd Hn E. destruct (sending_count _ _ _ _ _ _ Hsd) as [Hc _]. destruct Hsd as [Hr (past & Hse & Hwi & Hp) Hown Hone].
  pose proof (get_transmit_ok s dt _ Hr) as H. destruct (link_up s && _); [|congruence].
  destruct H as (s1 & E1 & H1 & H2). rewrite E in E1. injection E1 as -> ->. split; [|done]. rewrite length_map. split.
  - by rewrite map_app.
  - exists past. split; [by rewrite Hse, app_assoc|done].
  - intros t' td' i [[-> [= <- <-]]|[Hne Ht']]%lookup_insert_Some.
    + exists (length q), []. split; [done|]. split; [by apply list_lookup_middle|done].
    + destruct (Hown _ _ _ Ht') as (k & w & -> & Hk & ->). exists k, w. split; [done|]. split; [|done]. by apply lookup_app_l_Some.
  - assert (Hlt : forall t' td' i, to !! t' = Some (td', i) -> (i < length se)%nat).
    { intros t' td' i Ht'. destruct (Hown _ _ _ Ht') as (k & w & -> & Hk & _). apply lookup_lt_Some in Hk. lia. }
    intros t1 t2 td1 td2 i E1 E2. apply lookup_insert_Some in E1, E2. destruct E1 as [[-> E1]|[_ E1]], E2 as [[-> E2]|[_ E2]]; [done| | |by eapply Hone].
    + injection E1 as _ <-. apply Hlt in E2. lia.
    + injection E2 as _ <-. apply Hlt in E1. lia.
Qed.

(** The frame of a thread changes from [x] to [x'], and the thread keeps its descriptor or not. *)
Lemma sending_change s dt to se wi q t td i k w x' s' own' :
  sending s dt to se wi q -> to !! t = Some (td, i) -> i = (length wi + k)%nat -> q !! k = Some (w, false) ->
  tx_ok s' dt (<[k := slot_of x']> (map slot_of q)) -> (forall td', own' = Some td' -> x'.2 = false /\ td' = tx_desc dt k (frame_of x'.1)) ->
  sending s' dt (partial_alter (fun _ => (fun td' => (td', i)) <$> own') t to) (<[i := x']> se) wi (<[k := x']> q).
Proof.
  intros [Hr (past & Hse & Hwi & Hp) Hown Hone] Ht Hi Hk Hok Ho. assert (Hlp : length wi = length past) by (by rewrite Hwi, length_map). split.
  - change (map slot_of (<[k := x']> q)) with (slot_of <$> <[k := x']> q). by rewrite list_fmap_insert.
  - exists past. split; [|done]. rewrite Hse, Hi, Hlp. by rewrite insert_app_r.
  - intros t' td' i' Ht'. destruct (decide (t' = t)) as [->|Hne].
    + rewrite lookup_partial_alter_eq in Ht'. destruct own' as [td1|]; [|done]. injection Ht' as <- <-. destruct (Ho td1 eq_refl) as [E ->].
      exists k, x'.1. split; [done|]. split; [|done]. rewrite list_lookup_insert_eq by (by eapply lookup_lt_Some). destruct x'. cbn in E. by subst.
    + rewrite lookup_partial_alter_ne in Ht' by done. destruct (Hown _ _ _ Ht') as (k' & w' & Hi' & Hk' & ->). exists k', w'. split; [done|]. split; [|done].
      rewrite list_lookup_insert_ne; [done|]. intros ->. destruct Hne. subst i i'. by eapply Hone.
  - assert (Hsub : forall t' td' i', partial_alter (fun _ => (fun td' => (td', i)) <$> own') t to !! t' = Some (td', i') -> exists td0, to !! t' = Some (td0, i')).
    { intros t' td' i' Ht'. destruct (decide (t' = t)) as [->|Hne]; [|rewrite lookup_partial_alter_ne in Ht' by done; eauto].
      rewrite lookup_partial_alter_eq in Ht'. destruct own'; [|done]. injection Ht' as _ <-. eauto. }
    intros t1 t2 td1 td2 i' H1 H2. destruct (Hsub _ _ _ H1) as [? H1'], (Hsub _ _ _ H2) as [? H2']. by eapply Hone.
Qed.

Lemma alter_some {A} (f : A -> A) (l : list A) i x : l !! i = Some x -> alter f i l = <[i := f x]> l.
Proof.
  revert i. induction l as [|y l IH]; intros i H; [done|]. destruct i as [|i]; [by injection H as ->|]. change (y :: alter f i l = y :: <[i := f x]> l). f_equal. by apply IH.
Qed.

Lemma sending_lookup s dt to se wi q k x : sending s dt to se wi q -> q !! k = Some x -> se !! (length wi + k)%nat = Some x.
Proof. intros [_ (past & -> & -> & _) _ _] Hk. rewrite length_map, lookup_app_r by lia. by replace (length past + k - length past)%nat with k by lia. Qed.

Lemma sending_write s dt to se wi q t td i buf n td' s' :
  sending s dt to se wi q -> to !! t = Some (td, i) -> mac_lld_write_transmit_descriptor td buf s = Some (n, td', s') ->
  (exists q', sending s' dt (<[t := (td', i)]> to) (alter (fun x => (x.1 ++ buf, x.2)) i se) wi q') /\ same_rx s s'.
Proof.
  intros Hsd Ht E. destruct (sd_own _ _ _ _ _ _ Hsd _ _ _ Ht) as (k & w & Hi & Hk & ->). pose proof Hk as Hm. apply (f_equal (fmap slot_of)) in Hm. rewrite <- list_lookup_fmap in Hm.
  destruct (write_transmit_ok s dt _ k (frame_of w) buf (sd_ring _ _ _ _ _ _ Hsd) Hm) as (n' & s1 & E1 & H1 & H2). rewrite E in E1. injection E1 as -> -> ->.
  rewrite <- frame_of_app in *. split; [|done]. exists (<[k := (w ++ buf, false)]> q).
  assert (Es : se !! i = Some (w, false)) by (rewrite Hi; by eapply sending_lookup). rewrite (alter_some _ se i (w, false) Es).
  apply (sending_change s dt to se wi q t _ i k w (w ++ buf, false) s1 (Some _) Hsd Ht Hi Hk H1). intros ? [= <-]. done.
Qed.

Lemma sending_release s dt to se wi q t td i s' :
  sending s dt to se wi q -> to !! t = Some (td, i) -> mac_lld_release_transmit_descriptor td s = Some s' ->
  (exists q', sending s' dt (delete t to) (alter (fun x => (x.1, true)) i se) wi q') /\ same_rx s s'.
Proof.
  intros Hsd Ht E. destruct (sd_own _ _ _ _ _ _ Hsd _ _ _ Ht) as (k & w & Hi & Hk & ->). pose proof Hk as Hm. apply (f_equal (fmap slot_of)) in Hm. rewrite <- list_lookup_fmap in Hm.
  destruct (release_transmit_ok s dt _ k (frame_of w) (sd_ring _ _ _ _ _ _ Hsd) Hm) as (s1 & E1 & H1 & H2). rewrite E in E1. injection E1 as ->.
  split; [|done]. exists (<[k := (w, true)]> q). assert (Es : se !! i = Some (w, false)) by (rewrite Hi; by eapply sending_lookup). rewrite (alter_some _ se i (w, false) Es).
  by apply (sending_change s dt to se wi q t _ i k w (w, true) s1 None Hsd Ht Hi Hk H1).
Qed.

(** The engine sends the oldest frame. *)
Lemma sending_dma s dt to se wi q f s' dt' :
  sending s dt to se wi q -> dma_transmit s dt f s' dt' -> (exists q', sending s' dt' to se (wi ++ [f]) q') /\ same_rx s s'.
Proof.
  intros [Hr (past & Hse & Hwi & Hp) Hown Hone] H. destruct (dma_transmit_ok s dt _ f s' dt' Hr H) as (q1 & E & -> & Hr' & Hs). split; [|done].
  destruct q as [|[w [|]] q]; try done. injection E as <- <-. exists q. pose proof Hr as [Hd Hroom _ _ _]. rewrite length_map in Hroom. split; [done| | |done].
  - exists (past ++ [(w, true)]). split; [by rewrite Hse, <- app_assoc|]. split; [by rewrite map_app, Hwi|]. apply Forall_app. split; [done|]. by constructor.
  - intros t td i Ht. destruct (Hown _ _ _ Ht) as ([|k] & v & -> & Hk & ->); [done|]. exists k, v. rewrite length_app. cbn [length]. split; [lia|]. split; [done|].
    symmetry. apply tx_desc_shift; [done|]. apply lookup_lt_Some in Hk. cbn in *. lia.
Qed.

Lemma tx_step_ok s s' dt' dr to ro se wi ar re q c hr taken :
  sending s' dt' to se wi q -> rx_ok s dr c hr -> same_rx s s' -> reading s ro hr taken re -> ar = taken ++ omap id c ->
  eth_ok (Eth s' dt' dr to ro se wi ar re).
Proof.
  intros Ht Hr Hs Hre Har. exists q, c, hr, taken. cbn [drv dtx drx wire sends arrived tx_own rx_own reads].
  split; [done|]. split; [by apply (rx_ok_same s)|]. split; [done|]. apply (reading_same s); [apply Hs|done].
Qed.

(** Steps of the receiving side. *)
Lemma rx_step_ok s dt dr to se wi ar re q c hr taken s' ro :
  sending s dt to se wi q -> rx_ok s' dr c hr -> same_tx s s' -> reading s' ro hr taken re -> ar = taken ++ omap id c ->
  eth_ok (Eth s' dt dr to ro se wi ar re).
Proof.
  intros Ht Hr Hs Hre Har. exists q, c, hr, taken. cbn [drv dtx drx wire sends arrived tx_own rx_own reads].
  split; [by apply (sending_same s)|]. done.
Qed.

(** Receiving a frame: the first valid one that waits. *)
Lemma rx_length s d c held : rx_ok s d c held -> (NR <= length (eth_rd s))%nat.
Proof.
  intros Hok. pose proof Hok as [Hp _ _ _].
  assert (exists k, (k < NR)%nat /\ rat (rxptr s) k = NR - 1)%nat as (k & Hk & Ek).
  { destruct (decide (rxptr s = NR - 1)%nat) as [E|E].
    - exists 0%nat. rewrite at_0 by done. unfold NR in *. lia.
    - exists (NR - 1 - rxptr s)%nat. unfold at_. destruct (Nat.ltb_spec (rxptr s + (NR - 1 - rxptr s)) NR); unfold NR in *; lia. }
  destruct (rx_ring_lookup s _ d c held k Hok Hk) as (r & b & Hr & _). rewrite Ek in Hr. apply lookup_lt_Some in Hr.
  unfold NR in *. lia.
Qed.

Lemma get_receive_ok s d c :
  rx_ok s d c None ->
  exists s', mac_lld_get_receive_descriptor s =
      Some (match first_valid c with Some (f, _) => Some (rx_desc s' f 0) | None => None end, s') /\
    rx_ok s' d (match first_valid c with Some (_, c') => c' | None => [] end)
      (match first_valid c with Some (f, _) => Some f | None => None end) /\ same_tx s s'.
Proof.
  intros Hok. apply get_receive_loop_ok; [done|]. pose proof Hok as [_ Hroom _ _]. pose proof (rx_length s d c None Hok).
  cbn [used] in Hroom. lia.
Qed.

Lemma eth_step_ok e e' : eth_step e e' -> eth_ok e -> eth_ok e'.
Proof.
  intros Hstep (q & c & hr & taken & Ht & Hr & Har & Hre).
  destruct Hstep; cbn [drv dtx drx wire sends arrived tx_own rx_own reads] in *.
  - apply (rx_step_ok s _ _ _ _ _ _ _ q c hr taken); try done; [by apply (rx_ok_same s)].
  - destruct (sending_get s dt to se wi q t td s' Ht H H0) as [Ht' Hs]. by eapply (tx_step_ok s).
  - pose proof (get_transmit_ok s dt _ (sd_ring _ _ _ _ _ _ Ht)) as Hg. rewrite H0 in Hg. destruct (link_up s && _); [by destruct Hg as (? & ? & _)|].
    injection Hg as ->. by eapply (tx_step_ok s).
  - destruct (sending_write s dt to se wi q t td i buf n td' s' Ht H H0) as [[q' Ht'] Hs]. by eapply (tx_step_ok s).
  - destruct (sending_release s dt to se wi q t td i s' Ht H H0) as [[q' Ht'] Hs]. by eapply (tx_step_ok s).
  - destruct hr as [f0|]; [destruct Hre as (? & ? & ? & ? & _); done|]. destruct Hre as [_ Hre].
    destruct (get_receive_ok s dr c Hr) as (s1 & E & Hr' & Hs). rewrite H in E. injection E as -> ->.
    rewrite first_valid_omap in Har. destruct (first_valid c) as [[f c']|].
    + apply (rx_step_ok s _ _ _ _ _ _ _ q c' (Some f) (taken ++ [f])); try done; [|by rewrite <- app_assoc].
      exists 0, taken, re. split; [done|]. split; [lia|]. done.
    + by apply (rx_step_ok s _ _ _ _ _ _ _ q [] None taken).
  - destruct hr as [f|]; [|by destruct Hre]. destruct Hre as (o & taken' & re' & [= ->] & Ho & -> & -> & Hpre).
    rewrite (read_receive_ok s _ c f o n Hr Ho H) in H0. injection H0 as <- <-.
    rewrite append_last_snoc. set (x := take (Z.to_nat n) (drop (Z.to_nat o) f)).
    assert (Hx : Z.of_nat (length x) <= Z.of_nat (length f) - o) by (unfold x; rewrite length_take, length_drop; lia).
    apply (rx_step_ok s _ _ _ _ _ _ _ q c (Some f) (taken' ++ [f])); try done.
    exists (o + Z.of_nat (length x)), taken', re'. split; [done|]. split; [lia|]. split; [done|]. split; [|done].
    f_equal. f_equal. rewrite Z2Nat.inj_add, Nat2Z.id by lia.
    rewrite <- take_take_drop. f_equal. unfold x. apply take_length_take.
  - destruct hr as [f|]; [|by destruct Hre]. destruct Hre as (o & taken' & re' & [= ->] & Ho & -> & -> & Hpre).
    destruct (release_receive_ok s _ c f o Hr) as (s1 & E & Hr' & Hs). rewrite H in E. injection E as ->.
    apply (rx_step_ok s _ _ _ _ _ _ _ q c None (taken' ++ [f])); try done. split; [done|].
    apply Forall2_app; [done|]. constructor; [|done]. apply prefix_take.
  - destruct (sending_dma s dt to se wi q f s' dt' Ht H) as [[q' Ht'] Hs]. by eapply (tx_step_ok s).
  - destruct (dma_receive_ok s dr c hr x s' dr' Hr H) as (Hr' & Hs & Hp).
    apply (rx_step_ok s _ _ _ _ _ _ _ q (c ++ [x]) hr taken); try done.
    + by apply (reading_same s).
    + rewrite omap_app, app_assoc, Har. by destruct x.
Qed.

Lemma eth_reach_ok e : eth_reach e -> eth_ok e.
Proof.
  intros (s & Hs & Hsteps). destruct (tables_init_ok s Hs) as [Ht Hr].
  assert (H0 : eth_ok (Eth (mac_lld_start (mac_lld_init s)) 0 0 ∅ None [] [] [] [])).
  { exists [], [], None, []. split; [|done]. split; [done|by exists []|done|done]. }
  induction Hsteps as [|e1 e2 e3 H12 _ IH]; [done|]. apply IH. by apply (eth_step_ok e1).
Qed.

Lemma eth_reach_steps e e' : eth_reach e -> rtc eth_step e e' -> eth_reach e'.
Proof. intros (s & Hs & H) H'. exists s. split; [done|]. by etransitivity. Qed.

(** ** Frames *)

(** C19: Frames keep their order and their bytes in both directions, whatever the
    interleaving of any number of sending threads, the receiving thread and the DMA engine, one
    call of the driver at a time.  The frames on the wire are those of the threads in the
    order in which they got their descriptors, each released and what its thread wrote, up
    to the size of a buffer; at most two (the size of the ring) are still to be
    sent, and no two threads have the same descriptor.  The receiving thread gets the
    valid frames that have arrived, each once and in order, and reads the first bytes
    of each; at most four wait. *)
Theorem eth_frames_in_order e :
  eth_reach e ->
  (exists pending, sends e = take (length (wire e)) (sends e) ++ pending /\ (length pending <= STM32_MAC_TRANSMIT_BUFFERS)%nat) /\
  wire e = map (fun x => frame_of x.1) (take (length (wire e)) (sends e)) /\
  Forall (fun x => x.2 = true) (take (length (wire e)) (sends e)) /\
  (forall t t' td td' i i', tx_own e !! t = Some (td, i) -> tx_own e !! t' = Some (td', i') -> t <> t' -> td_physdesc td <> td_physdesc td') /\
  (exists taken waiting, arrived e = taken ++ waiting /\ (length waiting <= STM32_MAC_RECEIVE_BUFFERS)%nat /\
     Forall2 prefix (reads e) taken).
Proof.
  intros (q & c & hr & taken & Hsd & [_ Hroom' _ _] & Har & Hre)%eth_reach_ok. destruct (sending_count _ _ _ _ _ _ Hsd) as [Hc Hq].
  pose proof Hsd as [[Hd _ _ _ _] (past & Hse & Hwi & Hp) Hown Hone]. assert (Hlp : length (wire e) = length past) by (by rewrite Hwi, length_map).
  rewrite Hlp, Hse, take_app_length. split; [by exists q|]. split; [done|]. split; [done|]. split.
  - intros t t' td td' i i' Ht Ht' Hne. destruct (Hown _ _ _ Ht) as (k & w & -> & Hk & ->), (Hown _ _ _ Ht') as (k' & w' & -> & Hk' & ->).
    apply lookup_lt_Some in Hk, Hk'. cbn [tx_desc td_physdesc]. intros E. apply at_inj in E; [subst k'; by destruct (Hone _ _ _ _ _ Ht Ht')|done|lia|lia].
  - exists taken, (omap id c). split; [done|]. split; [pose proof (omap_length_le id c); lia|].
    destruct hr as [f|]; [|by destruct Hre]. destruct Hre as (o & t & r & _ & _ & -> & -> & H).
    apply Forall2_app; [done|]. constructor; [|done]. apply prefix_take.
Qed.

(** The driver never fails: in every reachable state each operation a thread may
    call returns, its assertions hold and its accesses stay inside the tables and the
    buffers.  A transmit descriptor is refused exactly when the link is down or two frames
    are still to be sent, a receive descriptor exactly when no valid frame waits. *)
Theorem eth_driver_total e :
  eth_reach e ->
  (exists to s', mac_lld_get_transmit_descriptor (drv e) = Some (to, s') /\
     (to = None <-> link_up (drv e) = false \/ length (sends e) = (length (wire e) + STM32_MAC_TRANSMIT_BUFFERS)%nat)) /\
  (forall t td i buf, tx_own e !! t = Some (td, i) -> exists n td' s', mac_lld_write_transmit_descriptor td buf (drv e) = Some (n, td', s')) /\
  (forall t td i, tx_own e !! t = Some (td, i) -> exists s', mac_lld_release_transmit_descriptor td (drv e) = Some s') /\
  (rx_own e = None -> exists ro s', mac_lld_get_receive_descriptor (drv e) = Some (ro, s') /\
     (ro = None <-> length (reads e) = length (arrived e))) /\
  (forall rd n, rx_own e = Some rd -> 0 <= n -> exists x rd', mac_lld_read_receive_descriptor rd n (drv e) = Some (x, rd')) /\
  (forall rd, rx_own e = Some rd -> exists s', mac_lld_release_receive_descriptor rd (drv e) = Some s').
Proof.
  intros (q & c & hr & taken & Hsd & Hr & Har & Hre)%eth_reach_ok. pose proof (sd_ring _ _ _ _ _ _ Hsd) as Ht. split; [|split; [|split; [|split; [|split]]]].
  - destruct (sending_count _ _ _ _ _ _ Hsd) as [Hc Hq]. pose proof (get_transmit_ok _ _ _ Ht) as H. rewrite length_map in H.
    destruct (link_up (drv e)); cbn [andb] in H; [|exists None, (drv e); split; [done|]; naive_solver].
    destruct (Nat.ltb_spec (length q) NT) as [Hlt|Hge].
    + destruct H as (s' & E' & _). eexists _, s'. split; [done|]. split; [done|]. intros [? | ?]; [done|lia].
    + exists None, (drv e). split; [done|]. split; [|done]. intros _. right. lia.
  - intros t td i buf E. destruct (sd_own _ _ _ _ _ _ Hsd _ _ _ E) as (k & w & _ & Hk & ->). apply (f_equal (fmap slot_of)) in Hk. rewrite <- list_lookup_fmap in Hk.
    destruct (write_transmit_ok _ _ _ _ _ buf Ht Hk) as (n & s' & E' & _). eauto.
  - intros t td i E. destruct (sd_own _ _ _ _ _ _ Hsd _ _ _ E) as (k & w & _ & Hk & ->). apply (f_equal (fmap slot_of)) in Hk. rewrite <- list_lookup_fmap in Hk.
    destruct (release_transmit_ok _ _ _ _ _ Ht Hk) as (s' & E' & _). eauto.
  - intros E. destruct hr as [f|]; [destruct Hre as (? & ? & ? & ? & _); congruence|]. destruct Hre as [_ Hre].
    apply Forall2_length in Hre. rewrite Har, length_app, Hre.
    destruct (get_receive_ok _ _ _ Hr) as (s' & E' & _). eexists _, s'. split; [done|]. rewrite first_valid_omap.
    destruct (first_valid c) as [[f c']|]; cbn [length]; (split; [done || intros _; lia|]); [intros; lia|done].
  - intros rd n E Hn. destruct hr as [f|]; [|destruct Hre; congruence]. destruct Hre as (o & t & r & Hro & Ho & _).
    rewrite Hro in E. injection E as <-. rewrite (read_receive_ok _ _ _ _ _ _ Hr Ho Hn). eauto.
  - intros rd E. destruct hr as [f|]; [|destruct Hre; congruence]. destruct Hre as (o & t & r & Hro & Ho & _).
    rewrite Hro in E. injection E as <-. destruct (release_receive_ok _ _ _ _ o Hr) as (s' & E & _). eauto.
Qed.

(** ** Sending a packet *)

Section output.
Context (t : nat).

(** What happens while thread [t] waits for a descriptor: anything the other threads and the engine do. *)
Definition background (e e' : eth) : Prop := eth_step e e' /\ tx_own e' !! t = None.

(** The ends of the waits are those of runs of the system. *)
Inductive waits_ok : eth -> list (option mac) -> Prop :=
| waits_timeout e ws : waits_ok e (None :: ws)
| waits_wake e e' ws : rtc background e e' -> waits_ok e' ws -> waits_ok e (Some (drv e') :: ws).

Lemma background_keeps e e' : rtc background e e' -> tx_own e !! t = None -> rtc eth_step e e' /\ tx_own e' !! t = None.
Proof.
  induction 1 as [|e1 e2 e3 [H12 Hn] _ IH]; intros H0; [done|]. destruct (IH Hn) as (H23 & H3). split; [by eapply rtc_l|done].
Qed.

(** What [t] has of a frame, [l] being the frames before it. *)
Definition has_descriptor (e e0 : eth) (td : MACTransmitDescriptor) (w : list Z) : Prop :=
  tx_own e = <[t := (td, length (sends e0))]> (tx_own e0) /\ sends e = sends e0 ++ [(w, false)].

Lemma get_transmit_step e : eth_reach e -> tx_own e !! t = None ->
  exists to e', mac_lld_get_transmit_descriptor (drv e) = Some (to, drv e') /\ eth_step e e' /\
    match to with
    | Some td => has_descriptor e' e td []
    | None => background e e' /\ tx_own e' = tx_own e /\ sends e' = sends e
    end /\
    (link_up (drv e) = true -> (length (sends e) < length (wire e) + STM32_MAC_TRANSMIT_BUFFERS)%nat -> to <> None).
Proof.
  intros Hr Hn. destruct (eth_driver_total e Hr) as [(to & s' & E & Hto) _].
  destruct e as [s dt dr ow ro se wi ar re]. cbn [drv tx_own sends wire] in *. destruct to as [td|].
  - exists (Some td), (Eth s' dt dr (<[t := (td, length se)]> ow) ro (se ++ [([], false)]) wi ar re). split; [done|]. split; [by apply es_get_transmit|]. done.
  - exists None, (Eth s' dt dr ow ro se wi ar re). split; [done|]. assert (eth_step (Eth s dt dr ow ro se wi ar re) (Eth s' dt dr ow ro se wi ar re)) by (by apply (es_get_refused t)).
    split; [done|]. split; [done|]. intros Hl Hlt _. destruct (proj1 Hto eq_refl); [congruence|lia].
Qed.

Lemma wait_transmit_steps e ws : waits_ok e ws -> eth_reach e -> tx_own e !! t = None ->
  exists to e0 e', macWaitTransmitDescriptor ws (drv e) = Some (to, drv e') /\ rtc background e e0 /\ rtc eth_step e0 e' /\
    match to with
    | Some td => has_descriptor e' e0 td []
    | None => tx_own e' = tx_own e0 /\ sends e' = sends e0
    end /\
    (link_up (drv e) = true -> (length (sends e) < length (wire e) + STM32_MAC_TRANSMIT_BUFFERS)%nat -> to <> None /\ e0 = e).
Proof.
  induction 1 as [e ws|e e1 ws He1 _ IH]; intros Hr Hn;
    destruct (get_transmit_step e Hr Hn) as (to & e2 & E & H2 & Ht & Hok);
    cbn [macWaitTransmitDescriptor]; rewrite E; cbn [mbind option_bind].
  - exists to, e, e2. split; [by destruct to|]. split; [done|]. split; [by apply rtc_once|]. split; [destruct to; [done|by destruct Ht as [_ ?]]|]. intros Hl Hlt. split; [by apply Hok|done].
  - destruct to as [td|].
    + exists (Some td), e, e2. split; [done|]. split; [done|]. split; [by apply rtc_once|]. done.
    + destruct (background_keeps e e1 He1 Hn) as (H1 & Hn1).
      destruct (IH ltac:(by eapply eth_reach_steps) Hn1) as (to & e0 & e3 & E3 & H0 & H3 & Ht3 & _).
      exists to, e0, e3. split; [done|]. split; [by etransitivity|]. split; [done|]. split; [done|]. intros Hl Hlt. by destruct (Hok Hl Hlt).
Qed.

Lemma alter_snoc {A} (f : A -> A) (l : list A) x : alter f (length l) (l ++ [x]) = l ++ [f x].
Proof. induction l as [|y l IH]; [done|]. cbn. f_equal. apply IH. Qed.

Lemma write_step e e0 td w buf : eth_reach e -> has_descriptor e e0 td w ->
  exists n td' e', mac_lld_write_transmit_descriptor td buf (drv e) = Some (n, td', drv e') /\ eth_step e e' /\ has_descriptor e' e0 td' (w ++ buf).
Proof.
  intros Hr [Ho Hs]. destruct (eth_driver_total e Hr) as (_ & Hw & _). assert (Ht : tx_own e !! t = Some (td, length (sends e0))) by (rewrite Ho; apply lookup_insert_eq).
  destruct (Hw _ _ _ buf Ht) as (n & td' & s' & E). destruct e as [s dt dr ow ro se wi ar re]. cbn [drv tx_own sends] in *.
  exists n, td', (Eth s' dt dr (<[t := (td', length (sends e0))]> ow) ro (alter (fun x => (x.1 ++ buf, x.2)) (length (sends e0)) se) wi ar re).
  split; [done|]. split; [by eapply es_write|]. split; cbn [tx_own sends]; [by rewrite Ho, insert_insert_eq|]. by rewrite Hs, alter_snoc.
Qed.

Lemma write_chain_steps h l : forall fuel p d e e0 td w,
  chain h p l -> contents (ram h) l = Some d -> (length l < fuel)%nat -> eth_reach e -> has_descriptor e e0 td w ->
  exists td' e', write_chain fuel p td h (drv e) = Some (td', drv e') /\ rtc eth_step e e' /\ has_descriptor e' e0 td' (w ++ d).
Proof.
  induction l as [|[a b] l IH]; intros fuel p d e e0 td w Hc Hd Hf Hr Ho; destruct fuel as [|fuel]; cbn [length] in Hf; try lia.
  - cbn in Hc, Hd. subst p. injection Hd as <-. exists td, e. split; [done|]. split; [done|]. by rewrite app_nil_r.
  - destruct Hc as (-> & Ha & Hb & Hc). cbn [contents] in Hd. cbn [write_chain].
    rewrite (proj2 (Z.eqb_neq a 0)) by done. rewrite Hb. cbn [mbind option_bind] in *.
    destruct (load (ram h) (payload b) (Z.to_nat (len b))) as [x|]; [|done]. cbn [mbind option_bind] in *.
    destruct (contents (ram h) l) as [y|] eqn:Ey; [|done]. injection Hd as <-.
    destruct (write_step e e0 td w x Hr Ho) as (n & td1 & e1 & -> & H1 & Ho1). cbn [mbind option_bind].
    destruct (IH fuel (next b) y e1 e0 td1 (w ++ x) Hc eq_refl ltac:(lia) ltac:(eapply eth_reach_steps; [done|by apply rtc_once]) Ho1)
      as (td2 & e2 & E2 & H2 & Ho2).
    exists td2, e2. split; [done|]. split; [by eapply rtc_l|]. by rewrite app_assoc.
Qed.

Lemma release_step e e0 td w : eth_reach e -> tx_own e0 !! t = None -> has_descriptor e e0 td w ->
  exists e', mac_lld_release_transmit_descriptor td (drv e) = Some (drv e') /\ eth_step e e' /\
    tx_own e' = tx_own e0 /\ sends e' = sends e0 ++ [(w, true)].
Proof.
  intros Hr Hn [Ho Hs]. destruct (eth_driver_total e Hr) as (_ & _ & Hw & _). assert (Ht : tx_own e !! t = Some (td, length (sends e0))) by (rewrite Ho; apply lookup_insert_eq).
  destruct (Hw _ _ _ Ht) as (s' & E). destruct e as [s dt dr ow ro se wi ar re]. cbn [drv tx_own sends] in *.
  exists (Eth s' dt dr (delete t ow) ro (alter (fun x => (x.1, true)) (length (sends e0)) se) wi ar re).
  split; [done|]. split; [by eapply es_release_transmit|]. cbn [tx_own sends]. split; [rewrite Ho, delete_insert_id by done; done|]. by rewrite Hs, alter_snoc.
Qed.

(** C26: The transmit routine of the network interface sends the packet or times out.
    Thread [t] calls it; while it waits for a descriptor the other threads and the engine go on,
    up to a state [e0].  The routine returns; it adds one frame to those of [e0], released and
    with the bytes of the whole chain of pbufs, the first of them not empty (of which the driver
    keeps the size of a buffer, 1522), or times out and adds none; no other frame is touched.  It neither waits nor
    times out when the link is up and there is room in the ring. *)
Theorem low_level_output_sends e ws h p a b l d :
  eth_reach e -> tx_own e !! t = None -> waits_ok e ws -> packet h p ((a, b) :: l) d -> 0 < len b ->
  exists r e0 e', low_level_output ws p h (drv e) = Some (r, drv e') /\ rtc background e e0 /\ rtc eth_step e0 e' /\ tx_own e' = tx_own e0 /\
    (r = ERR_OK /\ sends e' = sends e0 ++ [(d, true)] \/ r = ERR_TIMEOUT /\ sends e' = sends e0) /\
    (link_up (drv e) = true -> (length (sends e) < length (wire e) + STM32_MAC_TRANSMIT_BUFFERS)%nat -> r = ERR_OK /\ e0 = e).
Proof.
  intros Hr Hn Hws [Hc Hwf Hd] Hlen. unfold low_level_output.
  destruct (wait_transmit_steps e ws Hws Hr Hn) as ([td|] & e0 & e1 & -> & H0 & H1 & Ho1 & Hok); cbn [mbind option_bind].
  2:{ exists ERR_TIMEOUT, e0, e1. destruct Ho1 as [Ho1 Hs1]. do 4 (split; [done|]). split; [by right|]. intros Hl Hlt. by destruct (Hok Hl Hlt). }
  destruct (background_keeps e e0 H0 Hn) as [H0' Hn0]. pose proof (eth_reach_steps _ _ (eth_reach_steps _ _ Hr H0') H1) as Hr1.
  destruct (write_chain_steps h _ (chain_fuel h) p d e1 e0 td [] Hc Hd ltac:(by eapply chain_fuel_enough) Hr1 Ho1)
    as (td2 & e2 & -> & H2 & Ho2). cbn [mbind option_bind].
  destruct (release_step e2 e0 td2 _ (eth_reach_steps _ _ Hr1 H2) Hn0 Ho2) as (e3 & -> & H3 & Ho3 & Hs3). cbn [mbind option_bind].
  destruct Hc as (-> & _ & -> & _). cbn [mbind option_bind contents] in *.
  destruct (load (ram h) (payload b) (Z.to_nat (len b))) as [x|] eqn:Ex; [|done].
  destruct (ram h !! payload b) as [v|] eqn:Ev.
  2:{ pose proof (load_len _ _ _ _ Ex). destruct (Z.to_nat (len b)) as [|n] eqn:En; [lia|].
      destruct x as [|v x]; [done|]. apply load_cons in Ex as [Ex _]. congruence. }
  cbn [mbind option_bind]. exists ERR_OK, e0, e3. split; [done|]. split; [done|]. split; [etransitivity; [done|]; etransitivity; [done|]; by apply rtc_once|].
  split; [done|]. split; [by left|]. intros Hl Hlt. split; [done|]. by apply Hok.
Qed.
End output.

(** ** Examples *)

Definition eth_tables : mac :=
  Mac false 0 0 (replicate NR (Rdes 0 0 0 0)) (replicate NT (Tdes 0 0 0 0))
    (replicate NR (replicate BUFFER_BYTES 0)) (replicate NT (replicate BUFFER_BYTES 0)).

Definition eth_up : mac := set_link_up true (mac_lld_start (mac_lld_init eth_tables)).

Lemma eth_tables_ok : tables_ok eth_tables.
Proof. do 4 (split; [reflexivity|]). split; apply Forall_replicate, length_replicate. Qed.

(** A frame has arrived, and the thread has read two bytes of it. *)
Definition arrival : Z := Z.lor (Z.lor STM32_RDES0_FS STM32_RDES0_LS) (Z.shiftl 7 16).

Definition eth_arrived : mac :=
  set_eth_rb (<[0%nat := list_inserts 0 [7; 8; 9; 1; 1; 1; 1] (replicate BUFFER_BYTES 0)]> (eth_rb eth_up))
    (set_eth_rd (<[0%nat := Rdes arrival (Z.lor STM32_RDES1_RCH STM32_MAC_BUFFERS_SIZE) 0 1]> (eth_rd eth_up)) eth_up).

Definition eth_reading : eth :=
  Eth (set_rxptr 1 eth_arrived) 0 1 ∅ (Some (Rd 2 3 0)) [] [] [[7; 8; 9]] [[7; 8]].

Lemma eth_arrival_steps :
  rtc eth_step (Eth (mac_lld_start (mac_lld_init eth_tables)) 0 0 ∅ None [] [] [] [])
    (Eth eth_arrived 0 1 ∅ None [] [] [[7; 8; 9]] []).
Proof.
  eapply rtc_l; [apply (es_link true)|]. fold eth_up. apply rtc_once, es_dma_receive with (x := Some [7; 8; 9]).
  apply (dma_receive_frame eth_up 0 (Rdes STM32_RDES0_OWN (Z.lor STM32_RDES1_RCH STM32_MAC_BUFFERS_SIZE) 0 1)
           (replicate BUFFER_BYTES 0) arrival [7; 8; 9] [1; 1; 1; 1]); vm_compute; done.
Qed.

Lemma eth_reading_reach : eth_reach eth_reading.
Proof.
  exists eth_tables. split; [apply eth_tables_ok|]. etransitivity; [apply eth_arrival_steps|].
  eapply rtc_l; [apply es_get_receive with (ro := Some (Rd 0 3 0)) (s' := set_rxptr 1 eth_arrived); reflexivity|].
  apply rtc_once, (es_read 2) with (x := [7; 8]); [lia|vm_compute; reflexivity].
Qed.

(** A packet of two pbufs. *)
Definition two_pbufs : heap :=
  Heap {[10 := Pbuf 20 100 3 2 PBUF_RAM 0 1; 20 := Pbuf 0 200 1 1 PBUF_RAM 0 1]} {[100 := 5; 101 := 6; 200 := 7]} [].

Lemma two_pbufs_packet : packet two_pbufs 10 [(10, Pbuf 20 100 3 2 PBUF_RAM 0 1); (20, Pbuf 0 200 1 1 PBUF_RAM 0 1)] [5; 6; 7].
Proof. split; [vm_compute; done| |reflexivity]. cbn. lia. Qed.

(** Two threads have the two descriptors, and the second one has released its own first. *)
Definition eth_first : mac := match mac_lld_get_transmit_descriptor (drv eth_reading) with Some (_, s) => s | None => eth_up end.
Definition eth_second : mac := match mac_lld_get_transmit_descriptor eth_first with Some (_, s) => s | None => eth_up end.
Definition eth_filled : mac := match mac_lld_write_transmit_descriptor (Td 0 1522 1) [5; 6] eth_second with Some (_, s) => s | None => eth_up end.
Definition eth_queued : mac := match mac_lld_release_transmit_descriptor (Td 2 1522 1) eth_filled with Some s => s | None => eth_up end.

Definition eth_two : eth :=
  Eth eth_queued 0 1 (delete 1%nat (<[1%nat := (Td 2 1522 1, 1%nat)]> (<[1%nat := (Td 0 1522 1, 1%nat)]> (<[0%nat := (Td 0 1522 0, 0%nat)]> ∅))))
    (Some (Rd 2 3 0)) [([], false); ([5; 6], true)] [] [[7; 8; 9]] [[7; 8]].

Lemma eth_two_reach : eth_reach eth_two.
Proof.
  apply (eth_reach_steps eth_reading); [apply eth_reading_reach|].
  eapply rtc_l; [apply (es_get_transmit 0 (Td 0 1522 0)) with (s' := eth_first); [reflexivity|vm_compute; reflexivity]|].
  eapply rtc_l; [apply (es_get_transmit 1 (Td 0 1522 1)) with (s' := eth_second); [reflexivity|vm_compute; reflexivity]|].
  eapply rtc_l; [apply (es_write 1 (Td 0 1522 1) 1 [5; 6] 2) with (td' := Td 2 1522 1) (s' := eth_filled); [reflexivity|vm_compute; reflexivity]|].
  apply rtc_once, (es_release_transmit 1 (Td 2 1522 1) 1) with (s' := eth_queued); [reflexivity|vm_compute; reflexivity].
Qed.

Lemma eth_frames_in_order_witness : eth_reach eth_two /\
  (exists pending, sends eth_two = [] ++ pending /\ (length pending <= STM32_MAC_TRANSMIT_BUFFERS)%nat) /\
  exists taken waiting, [[7; 8; 9]] = taken ++ waiting /\ (length waiting <= STM32_MAC_RECEIVE_BUFFERS)%nat /\ Forall2 prefix [[7; 8]] taken.
Proof. split; [apply eth_two_reach|]. destruct (eth_frames_in_order eth_two eth_two_reach) as (H1 & _ & _ & _ & H2). split; [exact H1|exact H2]. Defined.

Lemma eth_driver_total_witness : eth_reach eth_reading /\
  (exists to s', mac_lld_get_transmit_descriptor (drv eth_reading) = Some (to, s') /\ to <> None) /\
  (exists x rd', mac_lld_read_receive_descriptor (Rd 2 3 0) 5 (drv eth_reading) = Some (x, rd')).
Proof.
  destruct (eth_driver_total eth_reading eth_reading_reach) as (H1 & _ & _ & _ & H5 & _). split; [apply eth_reading_reach|]. split.
  - destruct H1 as (to & s' & E & Hto). exists to, s'. split; [exact E|]. intros Hn. apply Hto in Hn as [Hn|Hn]; discriminate Hn.
  - apply H5; [reflexivity|lia].
Defined.

Lemma low_level_output_sends_witness : exists e', low_level_output [None] 10 two_pbufs (drv eth_reading) = Some (ERR_OK, drv e') /\
  eth_reach eth_reading /\ sends e' = [([5; 6; 7], true)].
Proof.
  destruct (low_level_output_sends 0 eth_reading [None] two_pbufs 10 10 _ _ _ eth_reading_reach eq_refl (waits_timeout _ _ _) two_pbufs_packet)
    as (r & e0 & e' & E & _ & _ & _ & Hs & Hok); [cbn; lia|]. destruct (Hok eq_refl ltac:(cbv; lia)) as [-> ->]. exists e'.
  split; [exact E|]. split; [apply eth_reading_reach|]. destruct Hs as [[_ Hs]|[Hr _]]; [exact Hs|discriminate Hr].
Defined.
