(* ===== verification/EthInput.v ===== *)
(** * Receiving a frame into pbufs: [low_level_input] over the driver

    The receive routine of the network interface with the calls to the driver it
    makes: a descriptor is taken from the ring, its frame read into a chain of pbufs
    piece by piece and the descriptor given back.  It is shown to refine
    [low_level_input] of [PbufAlloc], which takes the frame as one string. *)

From Stdlib Require Import ZArith Lia.
From stdpp Require Import base gmap list numbers relations.
From S2P Require Import Prelude LwipMem Pbuf PbufChain PbufAlloc PbufAllocProof PbufNet PbufNetTheorems EthMac EthMacProof EthMacTheorems.
From stdpp Require Import sets list.
Import OptionNotations.

Local Open Scope Z_scope.

(** ** The routine *)

Section input.
Context {A : Type} `{allocator_laws A}.

Fixpoint read_chain (fuel : nat) (q : Z) (rd : MACReceiveDescriptor) (h : heap) (s : mac)
    : option (MACReceiveDescriptor * heap) :=
  if q =? 0 then Some (rd, h)
  else
    match fuel with
    | O => None
    | S fuel =>
        let? b := pbufs h !! q in
        let? (x, rd) := mac_lld_read_receive_descriptor rd (len b) s in
        let? m := store (ram h) (payload b) x in
        read_chain fuel (next b) rd (set_ram m h) s
    end.

Definition low_level_input_mac (stale : Z) (posted : bool) (w : net A) (s : mac) : option (bool * Z * net A * mac) :=
  let? (r, s) := macWaitReceiveDescriptor_immediate s in
  match r with
  | None => Some (false, 0, w, s)
  | Some rd =>
      let len := u16 (rd_size rd) in
      let? (p, w) := pbuf_alloc stale posted PBUF_RAW len PBUF_POOL w in
      if negb (p =? 0) then
        let? (rd, h) := read_chain (chain_fuel (bufs w)) p rd (bufs w) s in
        let? s := mac_lld_release_receive_descriptor rd s in
        let? b := pbufs h !! p in
        let? _ := ram h !! payload b in
        Some (true, p, with_bufs h w, s)
      else
        let? s := mac_lld_release_receive_descriptor rd s in
        Some (true, 0, w, s)
  end.

(** ** The steps of the driver *)

(** The thread has a descriptor with the frame [f], of which it has read [o] bytes. *)
Definition has_frame (e : eth) (f : list Z) (o : Z) (re : list (list Z)) : Prop :=
  (exists c, rx_ok (drv e) (drx e) c (Some f)) /\ rx_own e = Some (rx_desc (drv e) f o) /\
  0 <= o <= Z.of_nat (length f) /\ reads e = re ++ [take (Z.to_nat o) f].

Lemma get_receive_step e : eth_reach e -> rx_own e = None ->
  exists ro e', mac_lld_get_receive_descriptor (drv e) = Some (ro, drv e') /\ eth_step e e' /\
    match arrived e !! length (reads e) with
    | Some f => ro = Some (rx_desc (drv e') f 0) /\ has_frame e' f 0 (reads e)
    | None => ro = None /\ rx_own e' = None /\ reads e' = reads e
    end.
Proof.
  intros (q & c & hr & taken & _ & Hr & Har & Hre)%eth_reach_ok E.
  destruct hr as [f|]; [destruct Hre as (? & ? & ? & ? & _); congruence|]. destruct Hre as [_ Hre].
  rewrite (Forall2_length _ _ _ Hre), Har, lookup_app_r, Nat.sub_diag, first_valid_omap by lia.
  destruct (get_receive_ok _ _ _ Hr) as (s' & Eg & Hr' & _). destruct e as [s dt dr to ro se wi ar re].
  cbn [drv drx rx_own reads] in *. subst ro. destruct (first_valid c) as [[f c']|].
  - eexists _, (Eth s' dt dr to (Some _) se wi ar (re ++ [[]])). split; [exact Eg|]. split; [by apply (es_get_receive s _ _ _ _ _ _ _ (Some _))|].
    split; [done|]. split; [by exists c'|]. split; [done|]. split; [lia|done].
  - exists None, (Eth s' dt dr to None se wi ar re). split; [done|]. split; [by apply (es_get_receive s _ _ _ _ _ _ _ None)|]. done.
Qed.

Lemma read_step e f o re n : has_frame e f o re -> 0 <= n ->
  let x := take (Z.to_nat n) (drop (Z.to_nat o) f) in let o' := o + Z.of_nat (length x) in
  exists e', mac_lld_read_receive_descriptor (rx_desc (drv e) f o) n (drv e) = Some (x, rx_desc (drv e) f o') /\
    eth_step e e' /\ drv e' = drv e /\ has_frame e' f o' re.
Proof.
  intros ([c Hr] & Hro & Ho & Hre) Hn x o'. pose proof (read_receive_ok _ _ _ _ _ _ Hr Ho Hn) as E. fold x o' in E.
  assert (Hx : Z.of_nat (length x) <= Z.of_nat (length f) - o) by (unfold x; rewrite length_take, length_drop; lia).
  destruct e as [s dt dr to ro se wi ar rs]. cbn [drv drx rx_own reads] in *. subst ro rs.
  eexists (Eth s dt dr to (Some (rx_desc s f o')) se wi ar (append_last x (re ++ [take (Z.to_nat o) f]))).
  split; [done|]. split; [by apply es_read with (n := n)|]. split; [done|]. split; [by exists c|]. split; [done|].
  split; [lia|]. cbn [reads]. rewrite append_last_snoc. f_equal. f_equal.
  unfold o'. rewrite Z2Nat.inj_add, Nat2Z.id, <- take_take_drop by lia. f_equal. unfold x. apply take_length_take.
Qed.

Lemma release_receive_step e f o re : has_frame e f o re ->
  exists e', mac_lld_release_receive_descriptor (rx_desc (drv e) f o) (drv e) = Some (drv e') /\ eth_step e e' /\
    rx_own e' = None /\ reads e' = reads e.
Proof.
  intros ([c Hr] & Hro & Ho & Hre). destruct (release_receive_ok _ _ _ _ o Hr) as (s' & E & _).
  destruct e as [s dt dr to ro se wi ar rs]. cbn [drv drx rx_own reads] in *. subst ro.
  eexists (Eth s' dt dr to None se wi ar rs). split; [done|]. split; [by eapply es_release_receive|]. done.
Qed.

(** Reading piece by piece is reading the rest of the frame. *)
Lemma read_chain_steps l : forall fuel p h h' e f o re,
  has_frame e f o re -> chain h p l -> wf l -> read_frame fuel p (drop (Z.to_nat o) f) h = Some h' ->
  chain_len l <= Z.of_nat (length f) - o ->
  exists e', read_chain fuel p (rx_desc (drv e) f o) h (drv e) = Some (rx_desc (drv e) f (o + chain_len l), h') /\
    rtc eth_step e e' /\ drv e' = drv e /\ has_frame e' f (o + chain_len l) re.
Proof.
  induction l as [|[a b] l IH]; intros fuel p h h' e f o re He Hc Hw Hrf Hlen; cbn [chain_len] in *.
  - cbn in Hc. subst p. exists e. rewrite Z.add_0_r. split; [|done]. by destruct fuel; cbn in *; injection Hrf as ->.
  - destruct Hc as (-> & Ha & Hb & Hc). destruct Hw as (Hl0 & _ & _ & Hw). pose proof (wf_total _ Hw) as Htot.
    destruct fuel as [|fuel]; cbn [read_frame read_chain] in *; rewrite (proj2 (Z.eqb_neq a 0) Ha) in *; [done|].
    rewrite Hb in *. cbn [mbind option_bind] in *.
    destruct (read_step e f o re (len b) He Hl0) as (e1 & -> & H1 & Hd1 & He1). cbn [mbind option_bind].
    set (x := take _ _) in *. destruct He as (_ & _ & Ho & _).
    assert (Z.of_nat (length x) = len b) as Ex by (unfold x; rewrite length_take, length_drop; lia). rewrite Ex in *.
    destruct (store (ram h) (payload b) x) as [m|] eqn:Em; [|done]. cbn [mbind option_bind] in *.
    rewrite drop_drop, <- Z2Nat.inj_add in Hrf by lia.
    destruct (IH fuel (next b) (set_ram m h) h' e1 f (o + len b) re) as (e2 & E2 & H2 & Hd2 & He2); [done|by apply (chain_frame h)|done|done|lia|].
    rewrite Hd1, <- Z.add_assoc in *. exists e2. split; [done|]. split; [by eapply rtc_l|]. done.
Qed.

(** ** The routine and its reference *)

Lemma waiting_frame_short e f : eth_reach e -> rx_own e = None -> arrived e !! length (reads e) = Some f -> (length f < Z.to_nat 65536)%nat.
Proof.
  intros Hr Hn Ef. destruct (get_receive_step e Hr Hn) as (ro & e1 & _ & _ & Hf). rewrite Ef in Hf.
  destruct Hf as (_ & [c Hrx] & _). destruct (rx_held _ _ _ _ Hrx) as (_ & r & b & _ & _ & _ & _ & _ & _ & _ & _ & _ & _ & Hmax).
  unfold STM32_MAC_BUFFERS_SIZE in Hmax. lia.
Qed.

Lemma input_mac_refines e w R stale posted : eth_reach e -> rx_own e = None -> net_ok w R ->
  (forall f, arrived e !! length (reads e) = Some f -> (0 < length f)%nat) -> Z.land stale PBUF_FLAG_IS_CUSTOM = 0 ->
  exists got p w' e', low_level_input stale posted (arrived e !! length (reads e)) w = Some (got, p, w') /\
    low_level_input_mac stale posted w (drv e) = Some (got, p, w', drv e') /\ rtc eth_step e e' /\ rx_own e' = None /\
    reads e' = reads e ++ match arrived e !! length (reads e) with Some f => [if p =? 0 then [] else f] | None => [] end.
Proof.
  intros Hr Hn Hok Hpos Hst. pose proof (waiting_frame_short e) as Hshort. unfold low_level_input_mac, macWaitReceiveDescriptor_immediate.
  destruct (get_receive_step e Hr Hn) as (ro & e1 & -> & H1 & Hf). cbn [mbind option_bind].
  destruct (arrived e !! length (reads e)) as [f|].
  2:{ destruct Hf as (-> & Ho & Hre). exists false, 0, w, e1. do 2 (split; [done|]). split; [by apply rtc_once|]. split; [done|]. by rewrite app_nil_r. }
  destruct Hf as [-> Hf]. specialize (Hpos f eq_refl). pose proof Hf as ([c Hrx] & _ & _ & Hre).
  assert (Hlen : (0 < length f < Z.to_nat 65536)%nat) by (split; [done|by apply Hshort]). clear Hshort.
  destruct (input_spec w R stale posted f Hok Hlen Hst) as (p & w' & Ein & Hout). exists true, p, w'.
  rewrite Ein. unfold low_level_input in Ein. change (rd_size (rx_desc (drv e1) f 0)) with (Z.of_nat (length f)).
  rewrite u16_small in Ein |- * by lia.
  destruct (alloc_spec w R stale posted PBUF_RAW (Z.of_nat (length f)) PBUF_POOL Hok) as (p1 & w1 & Ea & Hal); [lia|done|].
  rewrite Ea in Ein |- *. cbn [mbind option_bind] in Ein |- *. destruct (Z.eqb_spec p1 0) as [->|Hp0]; cbn [negb] in Ein |- *.
  - injection Ein as <- <-. destruct (release_receive_step e1 f 0 (reads e) Hf) as (e2 & -> & H2 & Ho2 & Hr2). cbn [mbind option_bind].
    exists e2. do 2 (split; [done|]). split; [by eapply rtc_l, rtc_once|]. split; [done|]. by rewrite Hr2, Hre.
  - destruct Hal as (R1 & l & Hnew). destruct Hnew as [_ _ Hc _ _ _ Hw Hl _ _ _].
    destruct (read_frame (chain_fuel (bufs w1)) p1 f (bufs w1)) as [h|] eqn:Erf; [|done]. cbn [mbind option_bind] in Ein.
    destruct (read_chain_steps l _ p1 (bufs w1) h e1 f 0 (reads e) Hf Hc Hw Erf) as (e2 & -> & H2 & Hd2 & Hf2); [lia|].
    rewrite Z.add_0_l, Hl in *. cbn [mbind option_bind]. rewrite <- Hd2.
    destruct (release_receive_step e2 f _ (reads e) Hf2) as (e3 & -> & H3 & Ho3 & Hr3). cbn [mbind option_bind].
    destruct (pbufs h !! p1) as [b1|]; [|done]. cbn [mbind option_bind] in *. destruct (ram h !! payload b1) as [v|]; [|done].
    cbn [mbind option_bind] in *. injection Ein as <- <-. exists e3. do 2 (split; [done|]).
    split; [eapply rtc_l; [done|]; etransitivity; [done|]; by apply rtc_once|]. split; [done|]. destruct Hf2 as (_ & _ & _ & Hre2).
    rewrite Hr3, Hre2, Nat2Z.id, firstn_all, (proj2 (Z.eqb_neq p1 0) Hp0). done.
Qed.

(** C20: The receive routine of the network interface delivers the oldest valid frame
    that waits in the ring (not empty, and with the flags of fresh memory not saying
    "custom"), and nothing else.  It returns false without an effect on the
    packets exactly when no frame waits.  Else it returns true with a packet of
    new pbufs that holds the bytes of the frame, without the checksum, or drops
    the frame and leaves the packets as they were when the pool is empty; in
    both cases the descriptor is given back to the DMA engine.  Reading the frame from
    the driver piece by piece gives the same as the routine over whole frames. *)
Theorem low_level_input_delivers e w R stale posted :
  eth_reach e -> rx_own e = None -> net_ok w R ->
  (forall f, arrived e !! length (reads e) = Some f -> (0 < length f)%nat) -> Z.land stale PBUF_FLAG_IS_CUSTOM = 0 ->
  exists got p w' e', low_level_input_mac stale posted w (drv e) = Some (got, p, w', drv e') /\
    low_level_input stale posted (arrived e !! length (reads e)) w = Some (got, p, w') /\
    rtc eth_step e e' /\ rx_own e' = None /\
    match arrived e !! length (reads e) with
    | None => got = false /\ p = 0 /\ w' = w /\ reads e' = reads e
    | Some f => got = true /\
        if p =? 0 then reads e' = reads e ++ [[]] /\ net_ok w' R /\ pbufs (bufs w') = pbufs (bufs w) /\ ram (bufs w') = ram (bufs w)
        else reads e' = reads e ++ [f] /\ exists R' l, net_ok w' R' /\ packet (bufs w') p l f /\ revoke (l.*1) R' = R /\
          (forall a, a ∈ l.*1 -> pbufs (bufs w) !! a = None) /\
          (forall a, a ∉ l.*1 -> pbufs (bufs w') !! a = pbufs (bufs w) !! a) /\
          (forall i, ~ region l i -> ram (bufs w') !! i = ram (bufs w) !! i)
    end.
Proof.
  intros Hr Hn Hok Hpos Hst. destruct (input_mac_refines e w R stale posted Hr Hn Hok Hpos Hst) as (got & p & w' & e' & Er & Em & He & Ho & Hre).
  exists got, p, w', e'. do 4 (split; [done|]). destruct (arrived e !! length (reads e)) as [f|] eqn:Ef.
  - assert (Hlen : (0 < length f < Z.to_nat 65536)%nat) by (split; [by apply Hpos|by eapply waiting_frame_short]).
    destruct (input_spec w R stale posted f Hok Hlen Hst) as (p1 & w1 & E1 & Hout). rewrite Er in E1. injection E1 as -> -> ->.
    split; [done|]. destruct (p1 =? 0); [done|]. split; [done|]. destruct Hout as (R' & l & Hp & _ & Hnet & Hrev & _ & Hnew & Hold & Hram).
    exists R', l. do 3 (split; [done|]). split; [|done]. intros a Ha. by apply Hnew.
  - cbn in Er. injection Er as <- <- <-. by rewrite app_nil_r in Hre.
Qed.
End input.

(** A frame is read into a packet. *)
Definition eth_waiting : eth := Eth eth_arrived 0 1 ∅ None [] [] [[7; 8; 9]] [].

Lemma eth_waiting_reach : eth_reach eth_waiting.
Proof. exists eth_tables. split; [apply eth_tables_ok|]. apply eth_arrival_steps. Qed.

#[local] Existing Instances sample_allocator sample_allocator_laws.

Lemma low_level_input_delivers_witness : exists p w' e',
  low_level_input_mac 0 true sample_net (drv eth_waiting) = Some (true, p, w', drv e') /\ reads e' = [[7; 8; 9]] /\
  exists l, packet (bufs w') p l [7; 8; 9].
Proof.
  destruct (low_level_input_delivers eth_waiting sample_net ∅ 0 true eth_waiting_reach eq_refl (proj1 sample_fresh))
    as (got & p & w' & e' & Em & Er & _ & _ & Hout); [intros f Hf; injection Hf as <-; cbn; lia|reflexivity|].
  assert (snd ∘ fst <$> low_level_input 0 true (Some [7; 8; 9]) sample_net = Some 9516) as Hp by (vm_compute; reflexivity).
  cbn [eth_waiting arrived reads length lookup list_lookup] in *. rewrite Er in Hp. cbn in Hp. injection Hp as ->.
  destruct Hout as (-> & Hre & R' & l & _ & Hpk & _). exists 9516, w', e'. split; [exact Em|]. split; [exact Hre|]. by exists l.
Defined.
