(* ===== verification/Motor.v ===== *)
(** * Motor control: [src/src/motor_control.c] and the motor part of [main.c]

    [MotorControlCb] runs in the PWM interrupt: it checks that a conversion has
    finished, runs the current controller and sets the PWM compare registers.
    The registers and lines it touches are the [hw] record; calls into the HAL
    that configure the timer are recorded in order. *)

From Stdlib Require Import ZArith Lia SpecFloat.
From stdpp Require Import base list option numbers.
From S2P Require Import Prelude Float32 Biquad FreqResponse.

Local Open Scope Z_scope.

Record pwm_config := PwmConfig {
  cfg_frequency : Z;
  cfg_period : Z;
  cfg_callback : Z;
  cfg_modes : list Z
}.

Record motor_control_t := Motor {
  enabled : bool;
  i_target : spec_float;
  error_count : Z;
  i_a : spec_float;
  ia_compensator : biquad_t;
  pwm_freq : Z;
  clock_freq : Z;
  max_duty_count : Z;
  config : pwm_config
}.

Inductive hal_call :=
| ThdCreateStatic (prio : Z)
| PwmStart (c : pwm_config)
| PwmEnableChannel (channel width : Z)
| PwmEnablePeriodicNotification.

Record hw := Hw {
  adc_sr : Z;
  ccr : list Z;                 (* CCR[0..3] of the timer *)
  fault_clear_line : bool;
  hal_calls : list hal_call     (* newest first *)
}.

Definition set_adc_sr (v : Z) (h : hw) : hw := Hw v (ccr h) (fault_clear_line h) (hal_calls h).
Definition set_ccr (i : nat) (v : Z) (h : hw) : hw :=
  Hw (adc_sr h) (<[i := v]> (ccr h)) (fault_clear_line h) (hal_calls h).
Definition set_fault_clear (b : bool) (h : hw) : hw := Hw (adc_sr h) (ccr h) b (hal_calls h).
Definition hal (c : hal_call) (h : hw) : hw :=
  Hw (adc_sr h) (ccr h) (fault_clear_line h) (c :: hal_calls h).

Definition set_error_count (v : Z) (m : motor_control_t) : motor_control_t :=
  Motor (enabled m) (i_target m) v (i_a m) (ia_compensator m) (pwm_freq m) (clock_freq m)
        (max_duty_count m) (config m).
Definition set_compensator (b : biquad_t) (m : motor_control_t) : motor_control_t :=
  Motor (enabled m) (i_target m) (error_count m) (i_a m) b (pwm_freq m) (clock_freq m)
        (max_duty_count m) (config m).
Definition set_i_a (v : spec_float) (m : motor_control_t) : motor_control_t :=
  Motor (enabled m) (i_target m) (error_count m) v (ia_compensator m) (pwm_freq m) (clock_freq m)
        (max_duty_count m) (config m).
Definition set_enabled (b : bool) (m : motor_control_t) : motor_control_t :=
  Motor b (i_target m) (error_count m) (i_a m) (ia_compensator m) (pwm_freq m) (clock_freq m)
        (max_duty_count m) (config m).
Definition set_i_target (v : spec_float) (m : motor_control_t) : motor_control_t :=
  Motor (enabled m) v (error_count m) (i_a m) (ia_compensator m) (pwm_freq m) (clock_freq m)
        (max_duty_count m) (config m).
Definition set_config (n : Z) (c : pwm_config) (m : motor_control_t) : motor_control_t :=
  Motor (enabled m) (i_target m) (error_count m) (i_a m) (ia_compensator m) (pwm_freq m)
        (clock_freq m) n c.

Definition max_duty : spec_float := f32_lit 95 100.
Definition adc_sample_duty : spec_float := f32_lit 97 100.
Definition ADC_SR_JEOC : Z := 4.
Definition PWM_OUTPUT_ACTIVE_HIGH : Z := 1.
Definition LOWPRIO : Z := 2.

(** The loop-gain measurement of [motor_control.c]; [emit] is installed by its
    thread. *)
Definition ia_freq : freq_response_t :=
  Fr (f32_of_Z 35000) (f32_of_Z 400) (f32_of_Z 400) (f32_of_Z 20) (f32_lit 2 10) 20 false
     f_zero f_zero f_zero f_zero 0 f_zero f_zero f_zero f_zero.

(** [None]: a conversion of a [float] to an integer type out of range. *)
Definition MotorControlInit (m : motor_control_t) (cb : Z) (h : hw)
    : option (motor_control_t * hw) :=
  let m := set_compensator
    (BiquadInit (ia_compensator m) (f32_lit 16385044 100000) (f32_lit 49155133 1000000)
       (f32_lit (-11469531) 100000) (f32_lit (-14) 10) (f32_lit 4 10)) m in
  let h := hal (ThdCreateStatic LOWPRIO) h in
  let period := clock_freq m / pwm_freq m in
  let cfg := PwmConfig (clock_freq m) period cb
    [PWM_OUTPUT_ACTIVE_HIGH; PWM_OUTPUT_ACTIVE_HIGH; PWM_OUTPUT_ACTIVE_HIGH;
     PWM_OUTPUT_ACTIVE_HIGH] in
  match f_to_s32 (f32_mul (f32_of_Z period) max_duty) with
  | Some n =>
      let m := set_config n cfg m in
      let h := hal (PwmStart cfg) h in
      let h := hal (PwmEnableChannel 3 (f_to_u32 (f32_mul (f32_of_Z period) adc_sample_duty))) h in
      Some (m, hal PwmEnablePeriodicNotification h)
  | None => None
  end.

Section Control.
Variables (sinf cosf : spec_float -> spec_float).

Definition MotorControlCb (m : motor_control_t) (ia_freq : freq_response_t) (ia ib : spec_float)
    (h : hw) : motor_control_t * freq_response_t * hw :=
  let m := if negb (truthy (Z.land (adc_sr h) ADC_SR_JEOC))
           then set_error_count (u32 (error_count m + 1)) m else m in
  let h := set_adc_sr 0 h in
  if enabled m then
    let '(ia_error, ia_freq) := FreqResponse_Update sinf cosf ia_freq (f32_sub (i_target m) ia) in
    let '(va, comp) := BiquadUpdateLim (ia_compensator m) ia_error
      (f32_of_Z (- max_duty_count m)) (f32_of_Z (max_duty_count m)) in
    let m := set_compensator comp m in
    let h := set_fault_clear true (set_ccr 0 (f_to_u32 va) h) in
    (set_i_a ia m, ia_freq, h)
  else
    let h := set_fault_clear false h in
    let h := set_ccr 2 0 (set_ccr 1 0 (set_ccr 0 0 h)) in
    let m := set_compensator (BiquadReset (ia_compensator m)) m in
    (set_i_a ia m, ia_freq, h).

(** [main.c]: the raw injected conversions as signed 16-bit values, scaled to
    amperes. *)
Definition i_scale : spec_float :=
  f32_div (f32_div (f32_div (f32_of_Z 3) (f32_of_Z 4095)) (f32_of_Z 20)) (f32_lit 1 1000).

Definition m1_pwm_cb (m1 : motor_control_t) (ia_freq : freq_response_t) (jdr1 jdr2 : Z) (h : hw)
    : motor_control_t * freq_response_t * hw :=
  MotorControlCb m1 ia_freq (f32_mul (f32_of_Z (s16 jdr1)) i_scale)
    (f32_mul (f32_of_Z (s16 jdr2)) i_scale) h.
End Control.

(** ** The configuration of [main.c]

    The timer clock follows from [mcuconf.h]: HSI 16 MHz / PLLM 16 * PLLN 336 /
    PLLP 2, APB2 prescaler 2, timers at twice the bus clock. *)

Definition STM32_TIMCLK2 : Z := 16000000 / 16 * 336 / 2 / 2 * 2.

Definition zero_biquad : biquad_t :=
  Biquad f_zero f_zero f_zero f_zero f_zero f_zero f_zero f_zero f_zero.
Definition m1_static : motor_control_t :=
  Motor false f_zero 0 f_zero zero_biquad 35000 STM32_TIMCLK2 0 (PwmConfig 0 0 0 [0; 0; 0; 0]).

(** ADC1 registers written by [configure_motor_adcs], in order; [cr2] is what the
    last statement reads back from [CR2]. *)
Inductive adc_reg := SMPR2 | JSQR | CR1 | CR2 | JOFR1 | JOFR2.

Definition configure_motor_adcs (cr2 : Z) : list (adc_reg * Z) :=
  [(SMPR2, Z.lor (Z.shiftl 2 9) (Z.shiftl 2 12));
   (JSQR, Z.lor (Z.lor (Z.shiftl 1 20) (Z.shiftl 3 10)) (Z.shiftl 4 15));
   (CR1, 0x100); (CR2, Z.lor 1 0x200000); (JOFR2, 0x7FF); (JOFR1, 0x7FF);
   (CR2, Z.lor cr2 0x400000)].

(** ** Bounds *)

(** The integer is a [float] exactly, with a normalised mantissa. *)
Definition exact_f32 (n : Z) : bool :=
  match f32_of_Z n with
  | S754_finite false m e => (2 ^ 23 <=? Zpos m) && (f_val m e =? n)
  | _ => false
  end.

Lemma f32_of_Z_mantissa n : mantissa_ok 24 (f32_of_Z n).
Proof. by apply normalize_mantissa. Qed.

Lemma BiquadUpdateLim_mantissa b x lo hi :
  mantissa_ok 24 lo -> mantissa_ok 24 hi -> mantissa_ok 24 (fst (BiquadUpdateLim b x lo hi)).
Proof.
  intros Hlo Hhi. unfold BiquadUpdateLim, MIN, MAX. cbn [fst].
  destruct (flt _ hi); [|done]. destruct (fgt _ lo); [|done].
  repeat first [apply SFsub_mantissa | apply SFadd_mantissa | apply SFmul_mantissa]; done.
Qed.

Lemma limited_count b x n :
  exact_f32 n = true -> 0 <= n ->
  fle (f32_of_Z (- n)) (f32_of_Z n) = true ->
  0 <= f_to_u32 (fst (BiquadUpdateLim b x (f32_of_Z (- n)) (f32_of_Z n))) <= n.
Proof.
  intros Hex Hn Hle. unfold exact_f32 in Hex.
  pose proof (BiquadUpdateLim_mantissa b x _ _ (f32_of_Z_mantissa (- n)) (f32_of_Z_mantissa n)) as Hm.
  assert (fle (fst (BiquadUpdateLim b x (f32_of_Z (- n)) (f32_of_Z n))) (f32_of_Z n) = true) as Hv
    by by apply clamp_limits.
  set (va := fst _) in *. destruct (f32_of_Z n) as [| | |[] m e]; try done.
  apply andb_prop in Hex as [Hm23 Hval]. apply Z.leb_le in Hm23. apply Z.eqb_eq in Hval.
  destruct va as [|[]| |[] mv ev] eqn:Ev; try done; try (cbn; lia).
  assert (0 <= f_val mv ev) by (unfold f_val; destruct ev; try lia; apply Z.div_pos; lia).
  assert (f_val mv ev <= f_val m e) by (by apply (f_trunc_le 24 (S754_finite false mv ev))).
  cbn [f_to_u32]. lia.
Qed.

(** ** Properties *)

(** [MotorControlInit] with the firmware's clock and PWM frequency always
    succeeds: a period of 4800 ticks, a duty limit of 4560 ticks (95 percent)
    and the conversion trigger at 4656 ticks, set up before the periodic
    interrupt is enabled; the compensator starts with zero history. *)
Theorem motor_init_config (cb : Z) (h : hw) :
  exists m, MotorControlInit m1_static cb h =
    Some (m, Hw (adc_sr h) (ccr h) (fault_clear_line h)
      ([PwmEnablePeriodicNotification; PwmEnableChannel 3 4656; PwmStart (config m);
        ThdCreateStatic LOWPRIO] ++ hal_calls h)) /\
    cfg_period (config m) = 4800 /\ max_duty_count m = 4560 /\ cfg_callback (config m) = cb /\
    ia_compensator m = BiquadReset (ia_compensator m) /\ enabled m = false.
Proof.
  unfold MotorControlInit.
  match goal with |- context [f_to_s32 ?x] =>
    replace (f_to_s32 x) with (Some 4560) by (by vm_compute) end.
  match goal with |- context [f_to_u32 ?x] =>
    replace (f_to_u32 x) with 4656 by (by vm_compute) end.
  match goal with |- context [Some (set_config ?n ?c ?x, _)] => exists (set_config n c x) end.
  split; [done|]. by vm_compute.
Qed.

(** While the motor is disabled the interrupt drives all three phases to zero
    duty, switches the bridge off and clears the controller history, whatever
    the measured currents, the registers and the controller state; it counts a
    missing conversion and acknowledges the converter. *)
Theorem motor_disabled_safe (sinf cosf : spec_float -> spec_float) (m : motor_control_t)
    (fr : freq_response_t) (ia ib : spec_float) (h : hw) (c0 c1 c2 c3 : Z) :
  enabled m = false -> ccr h = [c0; c1; c2; c3] ->
  exists m', MotorControlCb sinf cosf m fr ia ib h
      = (m', fr, Hw 0 [0; 0; 0; c3] false (hal_calls h)) /\
    ia_compensator m' = BiquadReset (ia_compensator m) /\ i_a m' = ia /\ enabled m' = false /\
    error_count m' = (if Z.testbit (adc_sr h) 2 then error_count m else u32 (error_count m + 1)).
Proof.
  intros Hen Hc. unfold MotorControlCb.
  assert (truthy (Z.land (adc_sr h) ADC_SR_JEOC) = Z.testbit (adc_sr h) 2) as ->.
  { unfold truthy, ADC_SR_JEOC. change 4 with (2 ^ 2).
    destruct (Z.testbit (adc_sr h) 2) eqn:E.
    - destruct (Z.eqb_spec (Z.land (adc_sr h) (2 ^ 2)) 0) as [H|]; [|done].
      assert (Z.testbit (Z.land (adc_sr h) (2 ^ 2)) 2 = false) as H' by (rewrite H; apply Z.testbit_0_l).
      rewrite Z.land_spec, E, Z.pow2_bits_true in H' by lia. done.
    - destruct (Z.eqb_spec (Z.land (adc_sr h) (2 ^ 2)) 0) as [|H]; [done|]. destruct H.
      apply Z.bits_inj'. intros i Hi. rewrite Z.land_spec, Z.testbit_0_l, Z.pow2_bits_eqb by lia.
      destruct (Z.eqb_spec 2 i) as [<-|]; [by rewrite E|apply andb_false_r]. }
  destruct h as [sr cc fc calls]; simpl in Hc; subst cc. cbn [adc_sr].
  destruct (Z.testbit sr 2); cbn [negb]; cbn [enabled set_error_count]; rewrite Hen;
    eexists; (split; [reflexivity|]); done.
Qed.

Lemma motor_disabled_safe_witness :
  exists m', MotorControlCb (fun x => x) (fun x => x) m1_static ia_freq (f32_of_Z 7) f_zero
      (Hw 0 [4000; 1; 2; 3] true [])
    = (m', ia_freq, Hw 0 [0; 0; 0; 3] false []) /\ error_count m' = 1.
Proof.
  destruct (motor_disabled_safe (fun x => x) (fun x => x) m1_static ia_freq (f32_of_Z 7) f_zero
      (Hw 0 [4000; 1; 2; 3] true []) 4000 1 2 3) as (m' & H & _ & _ & _ & He); [done|done|].
  exists m'. by split.
Defined.

(** C39: With the motor enabled the interrupt stores a PWM compare value between
    zero and [max_duty_count], for every controller state, target and measured
    current, NaN included (a limit that is a positive number of 24 bits, as the
    configured 4560 is), leaves the other compare values and switches the bridge
    on. *)
Theorem motor_duty_bounded (sinf cosf : spec_float -> spec_float) (m : motor_control_t)
    (fr : freq_response_t) (ia ib : spec_float) (h : hw) :
  enabled m = true -> exact_f32 (max_duty_count m) = true -> 0 <= max_duty_count m ->
  fle (f32_of_Z (- max_duty_count m)) (f32_of_Z (max_duty_count m)) = true ->
  ccr h <> [] ->
  exists m' fr' h' c, MotorControlCb sinf cosf m fr ia ib h = (m', fr', h') /\
    ccr h' !! 0%nat = Some c /\ 0 <= c <= max_duty_count m /\ fault_clear_line h' = true /\
    tail (ccr h') = tail (ccr h).
Proof.
  intros Hen Hex Hn Hle Hccr. unfold MotorControlCb.
  set (m1 := if negb _ then _ else m).
  assert (enabled m1 = true /\ max_duty_count m1 = max_duty_count m) as [-> E]
    by (subst m1; by destruct (negb _)).
  destruct (FreqResponse_Update sinf cosf fr _) as [err fr1]. rewrite E.
  pose proof (limited_count (ia_compensator m1) err (max_duty_count m) Hex Hn Hle) as Hc.
  destruct (BiquadUpdateLim (ia_compensator m1) err _ _) as [va comp]. cbn [fst] in Hc.
  eexists _, _, _, (f_to_u32 va). split; [reflexivity|]. cbn. by destruct (ccr h).
Qed.

Definition m1_running : motor_control_t :=
  match MotorControlInit m1_static 0 (Hw 0 [0; 0; 0; 0] false []) with
  | Some (m, _) => set_i_target (f32_of_Z 5) (set_enabled true m)
  | None => m1_static
  end.

Definition m1_step (ia : spec_float) : motor_control_t * freq_response_t * hw :=
  MotorControlCb (fun x => x) (fun x => x) m1_running ia_freq ia f_zero
    (Hw 4 [0; 0; 0; 4656] false []).

Lemma motor_duty_bounded_witness :
  exists m' fr' h' c, m1_step (f32_of_Z 1) = (m', fr', h') /\
    ccr h' !! 0%nat = Some c /\ 0 < c <= 4560.
Proof.
  destruct (motor_duty_bounded (fun x => x) (fun x => x) m1_running ia_freq (f32_of_Z 1) f_zero
    (Hw 4 [0; 0; 0; 4656] false [])) as (m' & fr' & h' & c & E & H1 & H2 & _);
    [by vm_compute|by vm_compute|by vm_compute|by vm_compute|done|].
  assert (max_duty_count m1_running = 4560) as Em by (by vm_compute). rewrite Em in H2.
  exists m', fr', h', c. split; [exact E|]. split; [exact H1|].
  enough (c <> 0) by lia. intros ->.
  assert (ccr (snd (m1_step (f32_of_Z 1))) !! 0%nat = Some 0) as H3 by (unfold m1_step; by rewrite E).
  by vm_compute in H3.
Defined.

(** A negative controller output is stored in the unsigned compare register, a
    conversion C leaves undefined for any output of minus one or below; as the
    processor converts, all of these outputs give a compare value of zero.
    It happens in normal operation, for instance in the first interrupt after
    enabling when the measured current exceeds the target by one ampere. *)
Theorem motor_negative_output_zero (sinf cosf : spec_float -> spec_float)
    (m : motor_control_t) (fr : freq_response_t) (ia ib : spec_float) (h : hw) :
  enabled m = true -> ccr h <> [] ->
  (exists z, f_trunc (fst (BiquadUpdateLim (ia_compensator m)
      (fst (FreqResponse_Update sinf cosf fr (f32_sub (i_target m) ia)))
      (f32_of_Z (- max_duty_count m)) (f32_of_Z (max_duty_count m)))) = Some z /\ z < 0) ->
  ccr (snd (MotorControlCb sinf cosf m fr ia ib h)) !! 0%nat = Some 0.
Proof.
  intros Hen Hccr (z & Hz & Hneg). unfold MotorControlCb. set (m1 := if negb _ then _ else m).
  assert (enabled m1 = true /\ max_duty_count m1 = max_duty_count m /\
          ia_compensator m1 = ia_compensator m /\ i_target m1 = i_target m) as (-> & -> & -> & ->)
    by (subst m1; by destruct (negb _)).
  destruct (FreqResponse_Update sinf cosf fr _) as [err fr1]. cbn [fst] in Hz.
  destruct (BiquadUpdateLim (ia_compensator m) err _ _) as [va comp]. cbn [fst] in Hz.
  assert (f_to_u32 va = 0) as E.
  { destruct va as [| | |[] mv ev]; try done. cbn in Hz. injection Hz as <-. exfalso.
    enough (0 <= f_val mv ev) by lia. unfold f_val. destruct ev; try lia. apply Z.div_pos; lia. }
  cbn. rewrite E. by destruct (ccr h).
Qed.

Lemma motor_negative_output_zero_witness :
  ccr (snd (m1_step (f32_of_Z 6))) !! 0%nat = Some 0.
Proof.
  apply motor_negative_output_zero; [by vm_compute|done|].
  eexists. split; [vm_compute; reflexivity|lia].
Defined.
