(* ===== verification/Command.v ===== *)
(** * Commands and telemetry: the MessagePack handlers of [src/src/main.c]

    [handle_incoming_command] reads a map of string keys from a received
    message and updates the motor; [dispatch_telemetry] packs the measured
    current.  [strncmp] is the C library's, over byte memory. *)

From Stdlib Require Import ZArith Lia SpecFloat.
From stdpp Require Import base gmap list option numbers.
From S2P Require Import Prelude Float32 Cwpack CwpackSpec CwpackProof CwUnpack CwDecode CwRoundtrip.
From S2P Require Import CwSafety Motor ChTime.
Import StmtNotations.

Local Open Scope Z_scope.
Local Open Scope stmt_scope.

Definition INPUB_NONE : Z := 0.
Definition INPUB_CMD_M1 : Z := 1.
Definition INPUB_CMD_M2 : Z := 2.

(** The literals "enable", "i_target" and "i_a". *)
Definition str_enable : list Z := [101; 110; 97; 98; 108; 101].
Definition str_i_target : list Z := [105; 95; 116; 97; 114; 103; 101; 116].
Definition str_i_a : list Z := [105; 95; 97].

(** [strncmp(a, s, n)] with [s] a literal given with its terminator; [None] is a
    read outside the allocated memory. *)
Fixpoint strncmp (m : gmap Z Z) (a : Z) (s : list Z) (n : Z) : option Z :=
  match s with
  | [] => None
  | d :: s =>
      if n =? 0 then Some 0
      else match m !! a with
           | Some c =>
               if c =? d then
                 if c =? 0 then Some 0 else strncmp m (a + 1) s (n - 1)
               else Some (c - d)
           | None => None
           end
  end.

(** One iteration reads a key and a value; the length handed to [strncmp] is
    that of the item last read.  The boolean tells that the handler returned. *)
Definition command_entry (mc : motor_control_t) (s : unpack_state)
    : option (motor_control_t * unpack_state * bool) :=
  match exec (cw_unpack_next None) s with
  | None => None
  | Some s =>
      if negb (type (item (uctx s)) =? CWP_ITEM_STR) then Some (mc, s, true)
      else
        let key := blob_start (item (uctx s)) in
        match exec (cw_unpack_next None) s with
        | None => None
        | Some s =>
            let it := item (uctx s) in
            match strncmp (umem s) key (str_enable ++ [0]) (blob_length it) with
            | None => None
            | Some r1 =>
                let mc := if (r1 =? 0) && (type it =? CWP_ITEM_BOOLEAN)
                          then set_enabled (as_boolean it) mc else mc in
                match strncmp (umem s) key (str_i_target ++ [0]) (blob_length it) with
                | None => None
                | Some r2 =>
                    let mc := if (r2 =? 0) && (type it =? CWP_ITEM_FLOAT)
                              then set_i_target (f32_of_bits (as_real it)) mc else mc in
                    Some (mc, s, false)
                end
            end
        end
  end.

Fixpoint command_loop (n : nat) (mc : motor_control_t) (s : unpack_state)
    : option (motor_control_t * unpack_state) :=
  match n with
  | O => Some (mc, s)
  | S n =>
      match command_entry mc s with
      | Some (mc, s, true) => Some (mc, s)
      | Some (mc, s, false) => command_loop n mc s
      | None => None
      end
  end.

Definition handle_incoming_command (inpub_type : Z) (m1 : motor_control_t) (s : unpack_state)
    : option (motor_control_t * unpack_state) :=
  if negb (inpub_type =? INPUB_CMD_M1) then Some (m1, s)
  else
    match exec (cw_unpack_next None) s with
    | None => None
    | Some s =>
        if negb (type (item (uctx s)) =? CWP_ITEM_MAP) then Some (m1, s)
        else
          let num_items := s32 (as_size (item (uctx s))) in
          command_loop (Z.to_nat num_items) m1 s
    end.

Definition dispatch_telemetry (m1 : motor_control_t) (pc : pack_state) : option (Z * pack_state) :=
  match exec (cw_pack_map_size None 1) pc with
  | None => None
  | Some pc =>
      match exec (cw_pack_str None str_i_a 3) pc with
      | None => None
      | Some pc =>
          match exec (cw_pack_float None (f32_to_bits (i_a m1))) pc with
          | None => None
          | Some pc => Some (TIME_MS2I 20, pc)
          end
      end
  end.

(** ** String comparison *)

(** The comparison succeeds on a key that is a prefix of the name, or that
    continues the name after a terminator. *)
Definition key_matches (k name : list Z) : bool :=
  bool_decide (k `prefix_of` name) || bool_decide ((name ++ [0]) `prefix_of` k).

Lemma prefix_cons_eqb (x y : Z) (k l : list Z) :
  bool_decide (x :: k `prefix_of` y :: l) = (x =? y) && bool_decide (k `prefix_of` l).
Proof.
  destruct (Z.eqb_spec x y) as [->|Hne]; cbn [andb].
  - apply bool_decide_ext. split; [apply prefix_cons_inv_2|apply prefix_cons].
  - apply bool_decide_eq_false. by intros ?%prefix_cons_inv_1.
Qed.

Lemma strncmp_key m name : forall a k,
  Forall (fun c => c <> 0) name -> load m a (length k) = Some k ->
  exists r, strncmp m a (name ++ [0]) (Z.of_nat (length k)) = Some r /\
    (r =? 0) = key_matches k name.
Proof.
  unfold key_matches. induction name as [|d name IH]; intros a k Hn Hk;
    cbn [app strncmp]; (destruct k as [|c k]; [eexists; split; [reflexivity|]|]).
  - done.
  - apply load_Some in Hk as [_ Hk]. specialize (Hk 0%nat c eq_refl). rewrite Z.add_0_r in Hk.
    rewrite (proj2 (Z.eqb_neq _ 0)) by (cbn [length]; lia). rewrite Hk.
    rewrite (prefix_cons_eqb 0 c), (bool_decide_true ([] `prefix_of` k)) by apply prefix_nil.
    rewrite bool_decide_false by (intros []; done). rewrite (Z.eqb_sym 0 c).
    destruct (Z.eqb_spec c 0) as [->|Hc]; eexists; (split; [reflexivity|]); [done|].
    rewrite Z.sub_0_r. by apply Z.eqb_neq.
  - by rewrite bool_decide_true by apply prefix_nil.
  - pose proof Hk as Hl. apply load_Some in Hl as [_ Hl]. specialize (Hl 0%nat c eq_refl).
    rewrite Z.add_0_r in Hl. rewrite (proj2 (Z.eqb_neq _ 0)) by (cbn [length]; lia). rewrite Hl.
    rewrite !prefix_cons_eqb, (Z.eqb_sym d c). inversion Hn as [|? ? Hd Hn']; subst.
    destruct (Z.eqb_spec c d) as [->|Hc].
    + rewrite (proj2 (Z.eqb_neq d 0)) by done. cbn [length].
      replace (Z.of_nat (S (length k)) - 1) with (Z.of_nat (length k)) by lia.
      apply IH; [done|]. apply (load_app m a 1 (length k) [d] k) in Hk; [|done..]. by destruct Hk.
    + eexists. split; [reflexivity|]. apply Z.eqb_neq. lia.
Qed.

(** On allocated memory the comparison is defined for every length. *)
Lemma strncmp_defined m name : forall a n,
  allocated m a (Z.of_nat (length name) + 1) -> is_Some (strncmp m a (name ++ [0]) n).
Proof.
  induction name as [|d name IH]; intros a n Hal; cbn [app strncmp length] in *;
    (destruct (n =? 0); [done|]);
    (destruct (Hal a) as [c ->]; [lia|]).
  - destruct (c =? 0); [done|]. done.
  - destruct (c =? d); [|done]. destruct (c =? 0); [done|]. apply IH.
    eapply allocated_sub; [exact Hal|lia|lia].
Qed.

(** ** What a well-formed command does *)

Definition apply_entry (mc : motor_control_t) (e : list Z * pack_cmd) : motor_control_t :=
  match snd e with
  | PBool b => if key_matches (fst e) str_enable then set_enabled b mc else mc
  | PFloat f => if key_matches (fst e) str_i_target then set_i_target (f32_of_bits f) mc else mc
  | _ => mc
  end.

Definition entry_cmds (e : list Z * pack_cmd) : list pack_cmd := [PStr (fst e); snd e].

Definition entry_ok (e : list Z * pack_cmd) : Prop :=
  cmd_ok (PStr (fst e)) /\ cmd_ok (snd e) /\ arity (snd e) = 0.

Lemma high32_set_byte0 b w : 0 <= b < 256 -> high32 (set_byte0 b w) = high32 w.
Proof. intros. unfold high32, set_byte0. Z.div_mod_to_equations; lia. Qed.

Lemma high32_set_low32 v w : is_u 32 v -> high32 (set_low32 v w) = high32 w.
Proof. intros [??]. unfold set_low32. unfold high32 at 1. Z.div_mod_to_equations; lia. Qed.

(** The stale length: after a boolean or a [float] the length of the key is
    still in the union. *)
Lemma stale_length w a v :
  cmd_ok v -> match v with PBool _ | PFloat _ => True | _ => False end ->
  blob_length (item_of false w a v) = high32 w.
Proof.
  intros Hok Hv. destruct v; try done; unfold blob_length, item_of; cbn [as_word].
  - apply high32_set_byte0. destruct b; lia.
  - by apply high32_set_low32.
Qed.

Lemma names_nonzero : Forall (fun c => c <> 0) str_enable /\ Forall (fun c => c <> 0) str_i_target.
Proof. split; repeat constructor; done. Qed.

Lemma entry_value m w a k v key mc :
  cmd_ok v -> 0 <= a -> high32 w = Z.of_nat (length k) ->
  load m key (length k) = Some k -> allocated m key 9 ->
  exists r1 r2,
    strncmp m key (str_enable ++ [0]) (blob_length (item_of false w a v)) = Some r1 /\
    strncmp m key (str_i_target ++ [0]) (blob_length (item_of false w a v)) = Some r2 /\
    (let it := item_of false w a v in
     let mc := if (r1 =? 0) && (type it =? CWP_ITEM_BOOLEAN)
               then set_enabled (as_boolean it) mc else mc in
     if (r2 =? 0) && (type it =? CWP_ITEM_FLOAT)
     then set_i_target (f32_of_bits (as_real it)) mc else mc) = apply_entry mc (k, v).
Proof.
  intros Hok Ha Hw Hk Hal. destruct names_nonzero as [Hn1 Hn2].
  destruct (strncmp_defined m str_enable key (blob_length (item_of false w a v))) as [r1 E1];
    [eapply allocated_sub; [exact Hal|lia|unfold str_enable, str_i_target; cbn [length]; lia]|].
  destruct (strncmp_defined m str_i_target key (blob_length (item_of false w a v))) as [r2 E2];
    [eapply allocated_sub; [exact Hal|lia|unfold str_enable, str_i_target; cbn [length]; lia]|].
  exists r1, r2. split; [done|]. split; [done|].
  destruct (strncmp_key m str_enable key k Hn1 Hk) as (r1' & F1 & G1).
  destruct (strncmp_key m str_i_target key k Hn2 Hk) as (r2' & F2 & G2).
  unfold apply_entry. cbn [fst snd].
  destruct v as [|b| |i|f| | | | | |t v]; cbn [item_of type]; cbv zeta;
    try (by rewrite !andb_false_r).
  - rewrite (stale_length w a (PBool b)), Hw in E1 by done. rewrite F1 in E1. injection E1 as <-.
    rewrite G1, andb_false_r, andb_true_r. destruct (key_matches k str_enable); [|done].
    f_equal. unfold as_boolean, set_byte0. cbn [as_word].
    replace ((w - w mod 256 + (if b then 1 else 0)) mod 256) with (if b then 1 else 0); [by destruct b|].
    destruct b; Z.div_mod_to_equations; lia.
  - destruct (0 <=? i); by rewrite !andb_false_r.
  - rewrite (stale_length w a (PFloat f)), Hw in E2 by done. rewrite F2 in E2. injection E2 as <-.
    rewrite G2, andb_false_r, andb_true_r. destruct (key_matches k str_i_target); [|done].
    unfold as_real. cbn [as_word]. by rewrite low32_set.
  - destruct Hok as (Ht & _). rewrite !(proj2 (Z.eqb_neq t _)), !andb_false_r; [done|..];
      unfold CWP_ITEM_BOOLEAN, CWP_ITEM_FLOAT; lia.
Qed.

Lemma entry_effect mc s e rest :
  ureturn_code (uctx s) = 0 -> entry_ok e ->
  input s (enc1 (PStr (fst e)) ++ enc1 (snd e) ++ rest) ->
  allocated (umem s) (ucurrent (uctx s)) (Z.of_nat (length (enc1 (PStr (fst e)))) + 9) ->
  exists s', command_entry mc s = Some (apply_entry mc e, s', false) /\
    umem s' = umem s /\ ureturn_code (uctx s') = 0 /\ uend (uctx s') = uend (uctx s) /\
    ucurrent (uctx s') = ucurrent (uctx s) + Z.of_nat (length (enc1 (PStr (fst e)) ++ enc1 (snd e))).
Proof.
  destruct e as [k v]. intros Hrc (Hk & Hv & _) Hin Hal. cbn [fst snd] in *.
  unfold command_entry.
  rewrite (decode_cmd s Hrc false (PStr k) _ _ Hk (enc1_Some _) Hin).
  set (s1 := decoded _ _ s).
  pose proof (input_app s (enc1 (PStr k)) _ Hin) as Hin1.
  assert (input s1 (enc1 v ++ rest)) as Hin1' by by destruct Hin1.
  rewrite (decode_cmd s1 Hrc false v _ _ Hv (enc1_Some _) Hin1').
  set (s2 := decoded _ _ s1).
  change (type (item (uctx s1)) =? CWP_ITEM_STR) with true. cbn [negb].
  pose proof (input_prefix s _ _ Hin) as [Hl H0 He Ht].
  assert (reads (umem s) (item (uctx s1)) (PStr k)) as (_ & Hlen & Hkey).
  { apply item_of_reads; [done|done|lia|done]. }
  destruct (entry_value (umem s) (as_word (item (uctx s1))) (ucurrent (uctx s1)) k v
              (blob_start (item (uctx s1))) mc) as (r1 & r2 & E1 & E2 & E3); [done| |exact Hlen|exact Hkey| |].
  - subst s1. rewrite decoded_current. lia.
  - intros i Hi. apply Hal. subst s1. unfold blob_start in Hi. cbn [item uctx decoded set_item] in Hi.
    assert (is_u 32 (payload_addr false (ucurrent (uctx s)) (PStr k))) as Hu.
    { unfold payload_addr. rewrite enc1_Some. pose proof (payload_le (PStr k)). unfold is_u.
      cbn [payload] in *. lia. }
    destruct (blob_split (payload (PStr k)) _ Hu) as [Elow _].
    unfold decoded, set_item, set_uctx, item_of, advance in Hi. simpl in Hi. simpl in Elow.
    rewrite Elow in Hi. unfold payload_addr in Hi. rewrite enc1_Some in Hi.
    pose proof (payload_le (PStr k)). cbn [payload] in *. lia.
  - change (umem s2) with (umem s). change (item (uctx s2)) with
      (item_of false (as_word (item (uctx s1))) (ucurrent (uctx s1)) v).
    rewrite E1, E2. exists s2. split; [by rewrite <- E3|]. repeat split; try done.
    subst s2 s1. rewrite !decoded_current, length_app. lia.
Qed.

Lemma command_loop_effect es : forall mc s rest,
  ureturn_code (uctx s) = 0 -> Forall entry_ok es ->
  input s (enc_all (concat (map entry_cmds es)) ++ rest) ->
  allocated (umem s) (ucurrent (uctx s))
    (Z.of_nat (length (enc_all (concat (map entry_cmds es)))) + 9) ->
  exists s', command_loop (length es) mc s = Some (fold_left apply_entry es mc, s') /\
    umem s' = umem s /\ ureturn_code (uctx s') = 0 /\
    ucurrent (uctx s') =
      ucurrent (uctx s) + Z.of_nat (length (enc_all (concat (map entry_cmds es)))).
Proof.
  induction es as [|e es IH]; intros mc s rest Hrc Hok Hin Hal.
  { exists s. repeat split; try done. symmetry. apply Z.add_0_r. }
  apply Forall_cons_1 in Hok as [He Hok]. unfold enc_all in *.
  cbn [map concat entry_cmds app] in *. rewrite <- !app_assoc in Hin.
  rewrite !length_app in Hal.
  destruct (entry_effect mc s e _ Hrc He Hin) as (s1 & E1 & Hm1 & Hrc1 & He1 & Hc1).
  { eapply allocated_sub; [exact Hal|lia|]. lia. }
  rewrite app_assoc in Hin. pose proof (input_app s _ _ Hin) as Hin1.
  cbn [length command_loop]. rewrite E1.
  destruct (IH (apply_entry mc e) s1 rest) as (s' & E & Hm & Hrc' & Hc); [done|done| | |].
  - destruct Hin1 as [Hl H0 Hend Ht]. cbn in Hl, H0, Hend, Ht.
    split; rewrite ?Hm1, ?Hc1, ?He1; done.
  - rewrite Hm1, Hc1. eapply allocated_sub; [exact Hal|lia|]. rewrite length_app. lia.
  - exists s'. split; [exact E|]. split; [congruence|]. split; [done|].
    rewrite Hc, Hc1, !length_app. lia.
Qed.

Lemma command_effect (m1 : motor_control_t) (s : unpack_state)
    (es : list (list Z * pack_cmd)) (rest : list Z) :
  ureturn_code (uctx s) = 0 -> Forall entry_ok es -> Z.of_nat (length es) < 2 ^ 31 ->
  let msg := enc_all (PMap (Z.of_nat (length es)) :: concat (map entry_cmds es)) in
  input s (msg ++ rest) ->
  allocated (umem s) (ucurrent (uctx s)) (Z.of_nat (length msg) + 9) ->
  exists s', handle_incoming_command INPUB_CMD_M1 m1 s = Some (fold_left apply_entry es m1, s') /\
    umem s' = umem s /\ ureturn_code (uctx s') = CWP_RC_OK /\
    ucurrent (uctx s') = ucurrent (uctx s) + Z.of_nat (length msg).
Proof.
  intros Hrc Hok Hlen msg Hin Hal. unfold handle_incoming_command.
  change (INPUB_CMD_M1 =? INPUB_CMD_M1) with true. cbn [negb].
  set (n := Z.of_nat (length es)) in *. assert (cmd_ok (PMap n)) as Hn by (cbn; unfold is_u; lia).
  assert (msg = enc1 (PMap n) ++ enc_all (concat (map entry_cmds es))) as Emsg by done.
  rewrite Emsg in *. rewrite <- app_assoc in Hin. rewrite length_app in Hal.
  rewrite (decode_cmd s Hrc false (PMap n) _ _ Hn (enc1_Some _) Hin).
  set (s1 := decoded _ _ s). pose proof (input_app s _ _ Hin) as Hin1.
  change (type (item (uctx s1)) =? CWP_ITEM_MAP) with true. cbn [negb].
  assert (s32 (as_size (item (uctx s1))) = n) as ->.
  { subst s1. rewrite decoded_item. unfold as_size, item_of. cbn [as_word].
    rewrite low32_set by done. apply swrap_small; lia. }
  subst n. rewrite Nat2Z.id.
  destruct (command_loop_effect es m1 s1 rest) as (s' & E & Hm & Hrc' & Hc); [done|done| | |].
  - by destruct Hin1.
  - subst s1. rewrite decoded_current. eapply allocated_sub; [exact Hal|lia|lia].
  - exists s'. split; [exact E|]. split; [exact Hm|]. split; [done|].
    rewrite Hc. subst s1. rewrite decoded_current, length_app. lia.
Qed.

(** ** Properties *)


Definition received (l : list Z) : unpack_state :=
  snd (cw_unpack_context_init (Item 0 0) 0x20000000 (Z.of_nat (length l))
         (write (write ∅ 0x20000000 (repeat 0 64)) 0x20000000 l)).

Definition sample_entries : list (list Z * pack_cmd) :=
  [(str_enable, PBool true); (str_i_target, PFloat 0x40490fdb); (str_i_a, PNil)].


(** The key is compared over the length of the value item, which for a
    boolean is the stale length of the key: a message with the empty key, or any
    other prefix of "enable", switches the motor on or off. *)
Theorem command_prefix_key_enables (m1 : motor_control_t) (s : unpack_state) (k : list Z) (b : bool)
    (rest : list Z) :
  k `prefix_of` str_enable ->
  ureturn_code (uctx s) = 0 ->
  input s (enc_all [PMap 1; PStr k; PBool b] ++ rest) ->
  allocated (umem s) (ucurrent (uctx s)) (Z.of_nat (length (enc_all [PMap 1; PStr k; PBool b])) + 9) ->
  exists s', handle_incoming_command INPUB_CMD_M1 m1 s = Some (set_enabled b m1, s').
Proof.
  intros Hk Hrc Hin Hal.
  assert (entry_ok (k, PBool b)) as Hok.
  { pose proof (prefix_length _ _ Hk) as Hlen. repeat split; [|lia|].
    - destruct Hk as [r Hr]. assert (bytes (k ++ r)) as Hb.
      { rewrite <- Hr. repeat constructor; unfold is_byte; lia. }
      by apply Forall_app in Hb as [? _].
    - cbn [fst length str_enable] in *. lia. }
  destruct (command_effect m1 s [(k, PBool b)] rest) as (s' & H & _);
    [done|by constructor|done|exact Hin|exact Hal|].
  exists s'. rewrite H. unfold apply_entry, key_matches. cbn [fold_left fst snd].
  by rewrite (bool_decide_true (k `prefix_of` str_enable)) by done.
Qed.

Lemma command_prefix_key_enables_witness :
  exists s', handle_incoming_command INPUB_CMD_M1 m1_static (received [0x81; 0xa0; 0xc3])
    = Some (set_enabled true m1_static, s').
Proof.
  apply (command_prefix_key_enables m1_static (received [0x81; 0xa0; 0xc3]) [] true []).
  - apply prefix_nil.
  - done.
  - split; by vm_compute.
  - apply allocatedb_spec. by vm_compute.
Defined.

Lemma dispatch_telemetry_packs m1 pc :
  dispatch_telemetry m1 pc =
    match pack_all [PMap 1; PStr str_i_a; PFloat (f32_to_bits (i_a m1))] pc with
    | Some pc => Some (TIME_MS2I 20, pc)
    | None => None
    end.
Proof.
  unfold dispatch_telemetry, pack_all. cbn [pack]. change (Z.of_nat (length str_i_a)) with 3.
  destruct (exec (cw_pack_map_size None 1) pc); [|done].
  destruct (exec (cw_pack_str None str_i_a 3) _); [|done].
  by destruct (exec (cw_pack_float None _) _).
Qed.

(** Telemetry packed into the publish buffer takes ten bytes, decodes to the
    map from "i_a" to the measured current bit for bit, and asks for the next
    message 200 ticks (20 ms) later. *)
Theorem telemetry_roundtrip (m1 : motor_control_t) (a n : Z) (m : gmap Z Z) :
  is_u 32 (f32_to_bits (i_a m1)) -> 0 <= a -> 10 <= n -> a + n + 9 < 2 ^ 32 -> allocated m a n ->
  exists pc its su,
    dispatch_telemetry m1 (snd (cw_pack_context_init a n m)) = Some (200, pc) /\
    return_code (ctx pc) = CWP_RC_OK /\ current (ctx pc) - start (ctx pc) = 10 /\
    unpack_all 3 (snd (cw_unpack_context_init (Item 0 0) a 10 (pmem pc))) = Some (its, su) /\
    Forall2 (reads (pmem pc)) its [PMap 1; PStr str_i_a; PFloat (f32_to_bits (i_a m1))].
Proof.
  intros Hf Ha Hn Htop Hal. set (cs := [PMap 1; PStr str_i_a; PFloat (f32_to_bits (i_a m1))]).
  assert (Forall cmd_ok cs) as Hok.
  { unfold cs. repeat apply List.Forall_cons; try done. split; [|done].
    repeat constructor; unfold is_byte; lia. }
  assert (length (enc_all cs) = 10%nat) as Elen.
  { unfold cs, enc_all. cbn [map concat]. rewrite !length_app. reflexivity. }
  assert (pack_wf (snd (cw_pack_context_init a n m))) as Hwf.
  { unfold cw_pack_context_init. split; simpl; rewrite ?u32_small by lia; try lia.
    eapply allocated_sub; [done|lia..]. }
  assert (length cs = 3%nat) as E3 by done.
  rewrite dispatch_telemetry_packs. fold cs. clearbody cs.
  rewrite (pack_all_write cs _ Hwf) by
    (done || (unfold cw_pack_context_init; simpl; rewrite u32_small by lia; lia)).
  set (s0 := snd (cw_unpack_context_init (Item 0 0) a 10 (write m a (enc_all cs)))).
  assert (input s0 (enc_all cs ++ [])) as Hin.
  { rewrite app_nil_r. split; simpl; [apply load_write|lia|..]; rewrite u32_small by lia; lia. }
  destruct (unpack_all_reads cs s0 [] Hok eq_refl Hin) as (its & su & E & Hr & _).
  eexists _, its, su. split; [done|]. cbn [ctx set_current return_code current start pmem].
  rewrite Elen. split; [done|]. split; [simpl; lia|]. rewrite <- E3. split; [exact E|exact Hr].
Qed.

Lemma telemetry_roundtrip_witness :
  exists pc, dispatch_telemetry m1_static
     (snd (cw_pack_context_init 0x20000000 16 (write ∅ 0x20000000 (repeat 0 16)))) = Some (200, pc).
Proof.
  destruct (telemetry_roundtrip m1_static 0x20000000 16 (write ∅ 0x20000000 (repeat 0 16)))
    as (pc & its & su & H & _); [by vm_compute|lia|lia|lia|apply allocatedb_spec; by vm_compute|].
  by exists pc.
Defined.

(** ** Arbitrary input *)

(** Whatever the message, the handler does not write memory and changes only the
    two settings of the motor. *)
Lemma command_entry_keeps mc s mc' s' r :
  command_entry mc s = Some (mc', s', r) -> umem s' = umem s /\ i_a mc' = i_a mc.
Proof.
  unfold command_entry. destruct (exec _ s) as [s1|] eqn:E1; [|done].
  apply (exec_keeps _ _ _ unpack_next_keeps) in E1.
  destruct (negb _); [by intros [= <- <- <-]|]. destruct (exec _ s1) as [s2|] eqn:E2; [|done].
  apply (exec_keeps _ _ _ unpack_next_keeps) in E2.
  destruct (strncmp _ _ _ _) as [r1|]; [|done]. destruct (strncmp _ _ _ _) as [r2|]; [|done].
  intros H. injection H as <- <- <-. split; [congruence|]. by destruct (_ && _), (_ && _).
Qed.

Lemma command_keeps k mc s mc' s' :
  handle_incoming_command k mc s = Some (mc', s') -> umem s' = umem s /\ i_a mc' = i_a mc.
Proof.
  unfold handle_incoming_command. destruct (negb _); [by intros [= <- <-]|].
  destruct (exec _ s) as [s1|] eqn:E1; [|done]. apply (exec_keeps _ _ _ unpack_next_keeps) in E1.
  rewrite <- E1. destruct (negb _); [by intros [= <- <-]|].
  generalize (Z.to_nat (s32 (as_size (item (uctx s1))))). intros n. clear E1. revert mc s1.
  induction n as [|n IH]; intros mc s1; cbn [command_loop]; [by intros [= <- <-]|].
  destruct (command_entry mc s1) as [[[mc2 s2] []]|] eqn:E; [| |done];
    apply command_entry_keeps in E as [<- <-]; [by intros [= <- <-]|apply IH].
Qed.

(** A string header whose length takes the 32-bit address past its end. *)
Lemma wrapping_string s len :
  ureturn_code (uctx s) = 0 -> input s (0xdb :: be_bytes 4 len) -> is_u 32 len ->
  u32 (ucurrent (uctx s) + 5 + len) <= uend (uctx s) ->
  exists s', exec (cw_unpack_next None) s = Some s' /\ type (item (uctx s')) = CWP_ITEM_STR /\
    ucurrent (uctx s') = u32 (ucurrent (uctx s) + 5 + len) /\ uend (uctx s') = uend (uctx s) /\
    umem s' = umem s /\ ureturn_code (uctx s') = 0.
Proof.
  intros Hrc Hin Hl Ha. unfold cw_unpack_next, exec.
  rewrite (check_pass s Hrc), (fetch_byte _ _ _ _ _ Hin). repeat lit_if.
  pose proof (input_skip s 1 [0xdb] (be_bytes 4 len) eq_refl Hin) as Hin1.
  rewrite <- (app_nil_r (be_bytes 4 len)) in Hin1.
  erewrite sbind_Go by (apply (getDDItem4_Go _ _ _ _ _ len Hin1)).
  rewrite !u32_small by (rewrite ?u32_small; done).
  set (s1 := got _ _ _ _).
  assert (blob_length (item (uctx s1)) = len) as Hb by apply high32_set_high32.
  assert (ucurrent (uctx s1) = ucurrent (uctx s) + 5) as Hc by (unfold s1, got, advance; cbn; lia).
  assert (uend (uctx s1) = uend (uctx s) /\ umem s1 = umem s /\ ureturn_code (uctx s1) = 0 /\
    type (item (uctx s1)) = CWP_ITEM_STR) as (He & Hm & Hr & Ht) by done.
  clearbody s1. unfold cw_unpack_assert_blob, space, cw_unpack_assert_space, sbind, sget.
  rewrite Hb, Hc, He, (proj2 (Z.ltb_ge _ _)) by done. by eexists.
Qed.

(** Six bytes from the network let the decoder read at any address below the
    end of the message: the length of a 32-bit string key is added to the
    address without a check for wrap-around, so the next item is read at the
    address [a] the sender chooses; if nothing can be read there, the handler
    faults. *)
Theorem command_reads_anywhere (m1 : motor_control_t) (s : unpack_state) (a : Z) :
  ureturn_code (uctx s) = 0 -> 0 <= a -> a + 1 <= uend (uctx s) -> umem s !! a = None ->
  input s (0x81 :: 0xdb :: be_bytes 4 (u32 (a - (ucurrent (uctx s) + 6)))) ->
  handle_incoming_command INPUB_CMD_M1 m1 s = None.
Proof.
  intros Hrc Ha He Hm Hin. set (len := u32 (a - (ucurrent (uctx s) + 6))) in *.
  assert (is_u 32 len) as Hlen by (apply wrap_range; lia). pose proof (in_top _ _ Hin) as Htop.
  assert (cmd_ok (PMap 1)) as Hok by done.
  unfold handle_incoming_command. change (negb (INPUB_CMD_M1 =? INPUB_CMD_M1)) with false. cbv iota.
  rewrite (decode_cmd s Hrc false (PMap 1) [0x81] (0xdb :: be_bytes 4 len) Hok eq_refl Hin).
  set (s1 := decoded _ _ s). pose proof (input_app s [0x81] _ Hin) as Hin1.
  change (negb (type (item (uctx s1)) =? CWP_ITEM_MAP)) with false. cbv iota zeta.
  assert (Z.to_nat (s32 (as_size (item (uctx s1)))) = 1%nat) as ->.
  { subst s1. rewrite decoded_item. unfold as_size, item_of. cbn [as_word]. by rewrite low32_set by done. }
  assert (ucurrent (uctx s1) = ucurrent (uctx s) + 1) as Hc1 by done.
  assert (u32 (ucurrent (uctx s1) + 5 + len) = a) as Ea.
  { rewrite Hc1. unfold len. replace (_ + 1 + 5 + _) with (u32 (a - (ucurrent (uctx s) + 6)) + (ucurrent (uctx s) + 6)) by lia.
    rewrite u32_add_l. replace (_ - _ + _) with a by lia. apply u32_small. lia. }
  assert (input s1 (0xdb :: be_bytes 4 len)) as Hin2 by (by destruct Hin1).
  cbn [command_loop]. unfold command_entry.
  destruct (wrapping_string s1 len) as (s2 & -> & Ht & Hc2 & He2 & Hm2 & Hr2); [done|done|done|rewrite Ea; cbn; lia|].
  rewrite Ht. change (negb (CWP_ITEM_STR =? CWP_ITEM_STR)) with false. cbv iota.
  assert (exec (cw_unpack_next None) s2 = None) as ->; [|done].
  unfold cw_unpack_next, exec. rewrite (check_pass s2 Hr2). unfold sbind.
  rewrite assert_space_Go by (rewrite ?Hc2, ?Ea, ?He2; cbn; lia).
  unfold get_byte, sbind, sget. cbn [umem advance set_uctx]. rewrite Hc2, Ea, Hm2.
  change (umem s1) with (umem s). by rewrite Hm.
Qed.

Lemma command_reads_anywhere_witness :
  handle_incoming_command INPUB_CMD_M1 m1_static (received (0x81 :: 0xdb :: be_bytes 4 (u32 (0 - 0x20000006)))) = None.
Proof.
  apply (command_reads_anywhere m1_static (received (0x81 :: 0xdb :: be_bytes 4 (u32 (0 - 0x20000006)))) 0).
  - reflexivity.
  - lia.
  - vm_compute. discriminate.
  - vm_compute. reflexivity.
  - split; [by vm_compute|vm_compute; discriminate|vm_compute; discriminate|by vm_compute].
Defined.
