(* ===== verification/Timeouts.v ===== *)
(** * The timeouts of lwIP: [core/timeouts.c]

    A list of timeouts, each with the time that passes between the one before it
    and itself; the first counts from [timeouts_last_time].  The elements are only
    reached through the list, so it is a list here; of their pool the number of
    free elements matters.  The time is a millisecond counter of 32 bits that is
    read with every operation; handlers are numbers, and calling one is a
    parameter. *)

From Stdlib Require Import ZArith Lia.
From stdpp Require Import base list numbers.
From S2P Require Import Prelude.
From stdpp Require Import sets list.
Import OptionNotations.

Local Open Scope Z_scope.

(** ** State *)

Record sys_timeo := Timeo {
  time : Z;
  h : Z;                        (* 0 is the null pointer *)
  arg : Z
}.

Definition MEMP_NUM_SYS_TIMEOUT : nat := 10.

Record timers := Timers {
  next_timeout : list sys_timeo;
  timeouts_last_time : Z;
  tcpip_tcp_timer_active : bool;
  pool_free : nat
}.

Definition set_list (l : list sys_timeo) (s : timers) : timers :=
  Timers l (timeouts_last_time s) (tcpip_tcp_timer_active s) (pool_free s).
Definition set_last (v : Z) (s : timers) : timers :=
  Timers (next_timeout s) (u32 v) (tcpip_tcp_timer_active s) (pool_free s).
Definition set_tcp_active (v : bool) (s : timers) : timers :=
  Timers (next_timeout s) (timeouts_last_time s) v (pool_free s).
Definition set_free (n : nat) (s : timers) : timers :=
  Timers (next_timeout s) (timeouts_last_time s) (tcpip_tcp_timer_active s) n.
Definition set_time (v : Z) (t : sys_timeo) : sys_timeo := Timeo (u32 v) (h t) (arg t).

(** ** Setting a timeout *)

(** The loop from the first timeout on; [timeout] is the new one, [first] the time
    of the first. *)
Fixpoint insert_after (msecs first : Z) (timeout : sys_timeo) (l : list sys_timeo) : list sys_timeo :=
  match l with
  | [] => []
  | t :: l =>
      let timeout := set_time (time timeout - time t) timeout in
      match l with
      | [] =>
          if msecs <? time timeout then [t; set_time (msecs + first) timeout]
          else [t; timeout]
      | n :: l' =>
          if time timeout <? time n then t :: timeout :: set_time (time n - time timeout) n :: l'
          else t :: insert_after msecs first timeout l
      end
  end.

Definition sys_timeout (msecs handler a now : Z) (s : timers) : option timers :=
  match pool_free s with
  | O => None
  | S n =>
      let s := set_free n s in
      let '(diff, s) :=
        match next_timeout s with
        | [] => (0, set_last now s)
        | _ => (u32 (now - timeouts_last_time s), s)
        end in
      let timeout := Timeo (u32 (msecs + diff)) handler a in
      match next_timeout s with
      | [] => Some (set_list [timeout] s)
      | first :: rest =>
          if msecs <? time first then
            Some (set_list (timeout :: set_time (time first - msecs) first :: rest) s)
          else Some (set_list (insert_after msecs (time first) timeout (next_timeout s)) s)
      end
  end.

(** ** Removing a timeout *)

Fixpoint remove_first (handler a : Z) (l : list sys_timeo) : option (list sys_timeo) :=
  match l with
  | [] => None
  | t :: l =>
      if (h t =? handler) && (arg t =? a) then
        Some (match l with
              | [] => []
              | n :: l' => set_time (time n + time t) n :: l'
              end)
      else let? l := remove_first handler a l in Some (t :: l)
  end.

Definition sys_untimeout (handler a : Z) (s : timers) : timers :=
  match remove_first handler a (next_timeout s) with
  | Some l => set_free (S (pool_free s)) (set_list l s)
  | None => s
  end.

(** ** Calling the handlers *)

Section handlers.
(** What a handler with its argument does to the timeouts. *)
Context (call : Z -> Z -> timers -> option timers).

(** The [do ... while] loop; it ends when the first timeout is not due.  It gives
    the handlers called, with their arguments, as well.  [PBUF_CHECK_FREE_OOSEQ]
    does not concern the timeouts ([PbufAlloc.pbuf_free_ooseq] is its body). *)
Fixpoint check_loop (fuel : nat) (diff : Z) (s : timers) : option (list (Z * Z) * timers) :=
  match next_timeout s with
  | [] => Some ([], s)
  | tmptimeout :: rest =>
      if time tmptimeout <=? diff then
        match fuel with
        | O => None
        | S fuel =>
            let s := set_last (timeouts_last_time s + time tmptimeout) s in
            let diff := u32 (diff - time tmptimeout) in
            let s := set_free (S (pool_free s)) (set_list rest s) in
            if h tmptimeout =? 0 then check_loop fuel diff s
            else
              let? s := call (h tmptimeout) (arg tmptimeout) s in
              let? (called, s) := check_loop fuel diff s in
              Some ((h tmptimeout, arg tmptimeout) :: called, s)
        end
      else Some ([], s)
  end.

Definition sys_check_timeouts (fuel : nat) (now : Z) (s : timers) : option (list (Z * Z) * timers) :=
  match next_timeout s with
  | [] => Some ([], s)
  | _ => check_loop fuel (u32 (now - timeouts_last_time s)) s
  end.

Definition sys_restart_timeouts (now : Z) (s : timers) : timers := set_last now s.

Definition sys_timeouts_sleeptime (now : Z) (s : timers) : Z :=
  match next_timeout s with
  | [] => 0xffffffff
  | t :: _ =>
      let diff := u32 (now - timeouts_last_time s) in
      if time t <? diff then 0 else u32 (time t - diff)
  end.

(** One round of waiting for a message: the time when the sleep time is computed,
    the message that arrives before it is over, if any, and the time when the
    timeouts are checked. *)
Record wait := Wait { w_sleep : Z; w_msg : option Z; w_check : Z }.

(** The rounds until a message is there, with the handlers called before it; [None]
    also when the rounds are used up. *)
Fixpoint sys_timeouts_mbox_fetch (fuel : nat) (rounds : list wait) (s : timers) : option (Z * list (Z * Z) * timers) :=
  match rounds with
  | [] => None
  | r :: rounds =>
      match next_timeout s with
      | [] => let? m := w_msg r in Some (m, [], s)
      | _ =>
          let sleeptime := sys_timeouts_sleeptime (w_sleep r) s in
          match (if sleeptime =? 0 then None else w_msg r) with
          | Some m => Some (m, [], s)
          | None =>
              let? (called, s) := sys_check_timeouts fuel (w_check r) s in
              let? (m, called', s) := sys_timeouts_mbox_fetch fuel rounds s in
              Some (m, called ++ called', s)
          end
      end
  end.
End handlers.

(** ** The timers of the stack *)

Definition TCP_TMR_INTERVAL : Z := 250.

(** In this configuration: [ip_reass_tmr] and [etharp_tmr]; [tcp_tmr] at index 0
    is started on demand. *)
Definition lwip_cyclic_timers : list (Z * Z) := [(TCP_TMR_INTERVAL, 1); (1000, 2); (1000, 3)].

(** The handlers of this file, and one for each cyclic timer. *)
Definition H_TCPIP_TCP_TIMER : Z := 100.
Definition H_CYCLIC_TIMER : Z := 101.

Section stack.
(** What the called functions do, and whether there are connections after that. *)
Context (tmr : Z -> timers -> option timers) (has_pcbs : bool).

Definition tcpip_tcp_timer (now : Z) (s : timers) : option timers :=
  let? s := tmr 1 s in
  if has_pcbs then sys_timeout TCP_TMR_INTERVAL H_TCPIP_TCP_TIMER 0 now s
  else Some (set_tcp_active false s).

Definition tcp_timer_needed (now : Z) (s : timers) : option timers :=
  if negb (tcpip_tcp_timer_active s) && has_pcbs then
    sys_timeout TCP_TMR_INTERVAL H_TCPIP_TCP_TIMER 0 now (set_tcp_active true s)
  else Some s.

(** The argument is the index of the timer. *)
Definition cyclic_timer (a now : Z) (s : timers) : option timers :=
  let? (interval_ms, handler) := lwip_cyclic_timers !! Z.to_nat a in
  let? s := tmr handler s in
  sys_timeout interval_ms H_CYCLIC_TIMER a now s.
End stack.

(** [nows] are the times read by the calls, [now] the one read at the end. *)
Fixpoint start_timers (i : Z) (l : list (Z * Z)) (nows : list Z) (s : timers) : option timers :=
  match l, nows with
  | (interval_ms, _) :: l, now :: nows =>
      let? s := sys_timeout interval_ms H_CYCLIC_TIMER i now s in start_timers (i + 1) l nows s
  | [], [] => Some s
  | _, _ => None
  end.

Definition sys_timeouts_init (nows : list Z) (now : Z) (s : timers) : option timers :=
  let? s := start_timers 1 (tail lwip_cyclic_timers) nows s in
  Some (set_last now s).
