(* ===== verification/TimeoutsTheorems.v ===== *)
(** * The deadlines of lwIP's timeouts

    Deadlines are counted from [timeouts_last_time]: the sums of the times of the
    list.  What [sys_timeout], [sys_untimeout] and [sys_check_timeouts] do to
    them, and the well-formedness every operation keeps. *)

From Stdlib Require Import ZArith Lia.
From stdpp Require Import base list numbers relations sorting.
From S2P Require Import Prelude Timeouts.
From stdpp Require Import sets list.
Import OptionNotations.

Local Open Scope Z_scope.

(** ** Well-formedness *)

Definition timeo_ok (t : sys_timeo) : Prop := is_u 32 (time t).

Record timers_ok (s : timers) : Prop := {
  ok_times : Forall timeo_ok (next_timeout s);
  ok_last : is_u 32 (timeouts_last_time s);
  ok_pool : (length (next_timeout s) + pool_free s = MEMP_NUM_SYS_TIMEOUT)%nat
}.

Lemma u32_ok z : is_u 32 (u32 z).
Proof. apply wrap_range. lia. Qed.

Lemma set_time_ok v t : timeo_ok (set_time v t).
Proof. apply u32_ok. Qed.

#[local] Hint Resolve u32_ok set_time_ok : core.
#[local] Hint Constructors Forall : core.

Lemma insert_after_ok msecs first t l :
  Forall timeo_ok l -> Forall timeo_ok (insert_after msecs first t l).
Proof.
  intros H. revert t. induction H as [|x l Hx Hl IH]; intros t; cbn [insert_after]; [done|].
  destruct l as [|n l]; [case_match; auto|].
  apply Forall_cons in Hl as [Hn Hl].
  case_match; auto.
Qed.

Lemma insert_after_length msecs first t l :
  l <> [] -> length (insert_after msecs first t l) = S (length l).
Proof.
  revert t. induction l as [|x l IH]; intros t Hne; [done|]. cbn [insert_after].
  destruct l as [|n l]; [by case_match|]. case_match; [done|].
  cbn [length]. f_equal. by apply IH.
Qed.

Lemma sys_timeout_ok msecs f a now s s' :
  timers_ok s -> sys_timeout msecs f a now s = Some s' -> timers_ok s'.
Proof.
  intros [Ht Hl Hp] E. unfold sys_timeout in E.
  destruct (pool_free s) as [|n] eqn:En; [done|]. unfold set_free, set_list, set_last in E.
  cbn [next_timeout timeouts_last_time tcpip_tcp_timer_active pool_free] in E.
  destruct (next_timeout s) as [|t l] eqn:El; cbn [next_timeout timeouts_last_time] in E.
  - injection E as <-. split; cbn [next_timeout timeouts_last_time pool_free length] in *; [|auto|lia].
    constructor; [apply u32_ok|done].
  - apply Forall_cons in Ht as [Ht Hts].
    destruct (msecs <? time t); apply (inj Some) in E as <-;
      (split; cbn [next_timeout timeouts_last_time pool_free]; [|done|]).
    + constructor; [apply u32_ok|]. constructor; auto.
    + cbn [length] in *. lia.
    + apply insert_after_ok; auto.
    + rewrite insert_after_length by done. lia.
Qed.

Lemma remove_first_ok f a l l' :
  Forall timeo_ok l -> remove_first f a l = Some l' -> Forall timeo_ok l' /\ length l = S (length l').
Proof.
  intros H. revert l'. induction H as [|x l Hx Hl IH]; intros l' E; cbn [remove_first] in E; [done|].
  case_match.
  - injection E as <-. destruct l as [|n l]; [done|]. apply Forall_cons in Hl as [_ Hl].
    split; [constructor; auto|done].
  - destruct (remove_first f a l) as [l1|]; [|done]. cbn in E. injection E as <-.
    destruct (IH l1 eq_refl) as [H1 H2]. split; [by constructor|]. cbn [length]. lia.
Qed.

Lemma sys_untimeout_ok f a s : timers_ok s -> timers_ok (sys_untimeout f a s).
Proof.
  intros [Ht Hl Hp]. unfold sys_untimeout. destruct (remove_first _ _ _) as [l|] eqn:E; [|by split].
  destruct (remove_first_ok _ _ _ _ Ht E) as [H1 H2].
  split; cbn [set_free set_list next_timeout timeouts_last_time pool_free]; [done..|lia].
Qed.

(** Taking the first timeout out of the list. *)
Lemma expire_ok t rest d s :
  next_timeout s = t :: rest -> timers_ok s ->
  timers_ok (set_free (S (pool_free s)) (set_list rest (set_last d s))).
Proof.
  intros E [Ht Hl Hp]. rewrite E in *. apply Forall_cons in Ht as [_ Ht].
  split; cbn [set_free set_list set_last next_timeout timeouts_last_time pool_free length] in *; [done|auto|lia].
Qed.

Section handlers.
Context (call : Z -> Z -> timers -> option timers).
Hypothesis call_ok : forall f a s s', timers_ok s -> call f a s = Some s' -> timers_ok s'.

Lemma check_loop_ok fuel diff s r :
  timers_ok s -> check_loop call fuel diff s = Some r -> timers_ok r.2.
Proof.
  revert diff s r. induction fuel as [|fuel IH]; intros diff s r Hok E; cbn [check_loop] in E;
    (destruct (next_timeout s) as [|t rest] eqn:El; [by injection E as <-|]);
    (case_match; [|by injection E as <-]); [done|].
  pose proof (expire_ok t rest (timeouts_last_time s + time t) s El Hok) as H'.
  case_match; [by eapply IH|]. cbn [set_free set_list set_last pool_free] in E, H'.
  destruct (call _ _ _) as [s1|] eqn:E1; [|done]. cbn in E.
  destruct (check_loop _ _ _ s1) as [[c s2]|] eqn:E2; [|done]. cbn in E. injection E as <-.
  eapply (IH _ _ _ (call_ok _ _ _ _ H' E1) E2).
Qed.

Lemma sys_check_timeouts_ok fuel now s r :
  timers_ok s -> sys_check_timeouts call fuel now s = Some r -> timers_ok r.2.
Proof.
  intros Hok. unfold sys_check_timeouts. destruct (next_timeout s); [by intros [= <-]|].
  by apply check_loop_ok.
Qed.

Lemma sys_timeouts_mbox_fetch_ok fuel rounds s r :
  timers_ok s -> sys_timeouts_mbox_fetch call fuel rounds s = Some r -> timers_ok r.2.
Proof.
  revert s r. induction rounds as [|w rounds IH]; intros s r Hok E; cbn [sys_timeouts_mbox_fetch] in E; [done|].
  destruct (next_timeout s) as [|t rest].
  { destruct (w_msg w); [|done]. by injection E as <-. }
  destruct (if _ =? _ then _ else _) as [m|]; [by injection E as <-|].
  destruct (sys_check_timeouts _ _ _ _) as [[c s1]|] eqn:E1; [|done]. cbn in E.
  destruct (sys_timeouts_mbox_fetch _ _ _ _) as [[[m c'] s2]|] eqn:E2; [|done]. cbn in E. injection E as <-.
  apply (IH s1 _ (sys_check_timeouts_ok _ _ _ _ Hok E1) E2).
Qed.
End handlers.

Lemma start_timers_ok i l nows s s' :
  timers_ok s -> start_timers i l nows s = Some s' -> timers_ok s'.
Proof.
  revert i nows s. induction l as [|[m f] l IH]; intros i nows s Hok E; destruct nows as [|n nows]; try done.
  - by injection E as <-.
  - cbn [start_timers] in E. destruct (sys_timeout _ _ _ _ _) as [s1|] eqn:E1; [|done]. cbn in E.
    eapply IH; [|done]. by eapply sys_timeout_ok.
Qed.

Lemma set_last_ok v s : timers_ok s -> timers_ok (set_last v s).
Proof. intros [Ht Hl Hp]. split; cbn [set_last next_timeout timeouts_last_time pool_free]; auto. Qed.

Lemma set_tcp_active_ok v s : timers_ok s -> timers_ok (set_tcp_active v s).
Proof. by intros [Ht Hl Hp]. Qed.

(** ** Deadlines *)

(** When each timeout is due, with its handler and argument. *)
Fixpoint deadlines (acc : Z) (l : list sys_timeo) : list (Z * (Z * Z)) :=
  match l with
  | [] => []
  | t :: l => (acc + time t, (h t, arg t)) :: deadlines (acc + time t) l
  end.

Lemma deadlines_cons acc t l :
  deadlines acc (t :: l) = (acc + time t, (h t, arg t)) :: deadlines (acc + time t) l.
Proof. done. Qed.

Fixpoint span (l : list sys_timeo) : Z :=
  match l with
  | [] => 0
  | t :: l => time t + span l
  end.

(** A new deadline goes behind the ones that are not later. *)
Fixpoint place (x : Z * (Z * Z)) (l : list (Z * (Z * Z))) : list (Z * (Z * Z)) :=
  match l with
  | [] => [x]
  | y :: l => if x.1 <? y.1 then x :: y :: l else y :: place x l
  end.

Definition delay (e : Z) (l : list (Z * (Z * Z))) : list (Z * (Z * Z)) :=
  (fun x => (x.1 + e, x.2)) <$> l.

Lemma deadlines_delay e acc l : deadlines (acc + e) l = delay e (deadlines acc l).
Proof.
  revert acc. induction l as [|t l IH]; intros acc; cbn [deadlines]; [done|].
  replace (acc + e + time t) with (acc + time t + e) by lia. rewrite IH. done.
Qed.

Lemma delay_0 l : delay 0 l = l.
Proof.
  unfold delay. induction l as [|[d x] l IH]; [done|]. cbn [list_fmap fmap fst snd] in *. by rewrite IH, Z.add_0_r.
Qed.

Lemma span_nonneg l : Forall timeo_ok l -> 0 <= span l.
Proof.
  induction 1 as [|t l Ht Hl IH]; cbn [span]; [lia|]. unfold timeo_ok, is_u in Ht. lia.
Qed.

Lemma timeouts_range acc l x :
  Forall timeo_ok l -> x ∈ deadlines acc l -> acc <= x.1 <= acc + span l.
Proof.
  intros H. revert acc. induction H as [|t l Ht Hl IH]; intros acc; cbn [deadlines span]; [set_solver|].
  pose proof (span_nonneg l Hl). unfold timeo_ok, is_u in Ht.
  rewrite elem_of_cons. intros [ -> | Hx ]; cbn [fst]; [lia|]. specialize (IH _ Hx). lia.
Qed.

(** Timeouts are in the order of their deadlines. *)
Lemma deadlines_sorted acc l : Forall timeo_ok l -> StronglySorted Z.le (deadlines acc l).*1.
Proof.
  intros H. revert acc. induction H as [|t l Ht Hl IH]; intros acc; [constructor|].
  cbn [deadlines]. rewrite fmap_cons. constructor; [apply IH|].
  rewrite Forall_fmap, Forall_forall. intros x Hx. apply timeouts_range in Hx; [|done]. cbn. lia.
Qed.

(** ** Setting a timeout *)

Lemma ltb_sub a b c : (a + b <? c) = (b <? c - a).
Proof. destruct (Z.ltb_spec (a + b) c), (Z.ltb_spec b (c - a)); lia || done. Qed.

Lemma insert_after_cons msecs first timeout t n l :
  insert_after msecs first timeout (t :: n :: l) =
  let timeout := set_time (time timeout - time t) timeout in
  if time timeout <? time n then t :: timeout :: set_time (time n - time timeout) n :: l
  else t :: insert_after msecs first timeout (n :: l).
Proof. done. Qed.

Lemma insert_after_deadlines msecs first timeout acc t l :
  Forall timeo_ok (t :: l) -> 0 <= msecs -> 0 <= first -> msecs + first < 2 ^ 32 ->
  time t <= time timeout < 2 ^ 32 ->
  deadlines acc (insert_after msecs first timeout (t :: l)) =
  if span (t :: l) + msecs <? time timeout then
    deadlines acc (t :: l) ++ [(acc + span (t :: l) + (msecs + first), (h timeout, arg timeout))]
  else place (acc + time timeout, (h timeout, arg timeout)) (deadlines acc (t :: l)).
Proof.
  intros Hok Hm Hf Hmf. revert acc t timeout Hok. induction l as [|n l IH]; intros acc t timeout Hok HT;
    apply Forall_cons in Hok as [Ht Hl]; unfold timeo_ok, is_u in Ht.
  - cbn [insert_after set_time time]. rewrite (u32_small (time timeout - time t)) by lia.
    cbn [span deadlines place fst app]. rewrite (proj2 (Z.ltb_ge (acc + time timeout) _)) by lia.
    rewrite Z.add_0_r, ltb_sub.
    destruct (_ <? _); cbn [deadlines set_time time h arg];
      [rewrite u32_small by lia|rewrite u32_small by lia]; repeat (f_equal; try lia).
  - pose proof Hl as Hl'. apply Forall_cons in Hl' as [Hn Hl']. pose proof (span_nonneg _ Hl').
    unfold timeo_ok, is_u in Hn. rewrite insert_after_cons. cbn [set_time time].
    rewrite (u32_small (time timeout - time t)) by lia.
    destruct (Z.ltb_spec (time timeout - time t) (time n)) as [Hlt|Hge].
    + rewrite (proj2 (Z.ltb_ge _ (time timeout))) by (cbn [span]; lia).
      cbn [deadlines place fst]. rewrite (proj2 (Z.ltb_ge (acc + time timeout) _)) by lia.
      rewrite (proj2 (Z.ltb_lt (acc + time timeout) _)) by lia.
      cbn [set_time time h arg]. rewrite !u32_small by lia.
      repeat (f_equal; try lia).
    + rewrite !(deadlines_cons acc t).
      rewrite IH by (done || (cbn [set_time time]; rewrite u32_small by lia; lia)).
      cbn [set_time time h arg]. rewrite u32_small by lia.
      change (span (t :: n :: l)) with (time t + span (n :: l)).
      replace (time t + span (n :: l) + msecs) with (time t + (span (n :: l) + msecs)) by lia. rewrite (ltb_sub (time t)).
      destruct (_ <? _); [by rewrite (Z.add_assoc acc)|].
      cbn [place fst]. rewrite (proj2 (Z.ltb_ge (acc + time timeout) _)) by lia.
      by replace (acc + time t + (time timeout - time t)) with (acc + time timeout) by lia.
Qed.

(** The deadlines after a timeout was set in a list that is not empty, [e]
    milliseconds after [timeouts_last_time]. *)
Definition deadlines_after (msecs e : Z) (x : Z * Z) (l : list sys_timeo) : list (Z * (Z * Z)) :=
  match l with
  | [] => [(msecs, x)]
  | first :: _ =>
      if msecs <? time first then (e + msecs, x) :: delay e (deadlines 0 l)
      else if span l <? e then deadlines 0 l ++ [(span l + (msecs + time first), x)]
      else place (e + msecs, x) (deadlines 0 l)
  end.

Lemma deadlines_push acc m e first rest x y :
  0 <= m < 2 ^ 32 -> 0 <= e -> m + e < 2 ^ 32 -> m < time first < 2 ^ 32 ->
  deadlines acc (Timeo (u32 (m + e)) x y :: set_time (time first - m) first :: rest) =
  (acc + (e + m), (x, y)) :: delay e (deadlines acc (first :: rest)).
Proof.
  intros Hm He Hme Hf. rewrite <- deadlines_delay. cbn [deadlines set_time time h arg].
  rewrite !u32_small by lia. rewrite (Z.add_comm m e).
  by replace (acc + (e + m) + (time first - m)) with (acc + e + time first) by lia.
Qed.

Lemma sys_timeout_spec msecs f a now s n :
  timers_ok s -> pool_free s = S n -> 0 <= msecs < 2 ^ 32 ->
  span (next_timeout s) + u32 (now - timeouts_last_time s) + msecs < 2 ^ 32 ->
  exists s', sys_timeout msecs f a now s = Some s' /\
    pool_free s' = n /\ tcpip_tcp_timer_active s' = tcpip_tcp_timer_active s /\
    timeouts_last_time s' = (if next_timeout s then u32 now else timeouts_last_time s) /\
    deadlines 0 (next_timeout s') =
      deadlines_after msecs (u32 (now - timeouts_last_time s)) (f, a) (next_timeout s).
Proof.
  intros [Ht Hl Hp] Hn Hm Hsp. pose proof (u32_ok (now - timeouts_last_time s)) as He.
  set (e := u32 (now - timeouts_last_time s)) in *. unfold is_u in He.
  unfold sys_timeout. rewrite Hn. change (timeouts_last_time (set_free n s)) with (timeouts_last_time s). fold e.
  change (next_timeout (set_free n s)) with (next_timeout s).
  destruct (next_timeout s) as [|first rest] eqn:El; cbn [set_last set_free next_timeout]; rewrite El.
  { eexists. split; [done|]. split; [done|]. split; [done|]. split; [done|].
    cbn [set_list next_timeout deadlines time h arg deadlines_after].
    by rewrite Z.add_0_r, u32_small by lia. }
  pose proof Ht as Ht'. apply Forall_cons in Ht' as [Hf Hr]. unfold timeo_ok, is_u in Hf.
  pose proof (span_nonneg rest Hr). cbn [span] in Hsp. unfold deadlines_after.
  destruct (Z.ltb_spec msecs (time first)) as [Hlt|Hge];
    (eexists; split; [done|]; split; [done|]; split; [done|]; split; [done|]);
    cbn [set_list next_timeout].
  - by rewrite deadlines_push by lia.
  - rewrite insert_after_deadlines; cbn [time h arg]; rewrite ?u32_small by lia; try done; try lia.
    rewrite (Z.add_comm (span (first :: rest)) msecs), ltb_sub.
    replace (msecs + e - msecs) with e by lia. rewrite (Z.add_comm msecs e). by rewrite !Z.add_0_l.
Qed.

(** ** Removing a timeout *)

Fixpoint drop_first (x : Z * Z) (l : list (Z * (Z * Z))) : list (Z * (Z * Z)) :=
  match l with
  | [] => []
  | y :: l => if decide (y.2 = x) then l else y :: drop_first x l
  end.

Lemma remove_first_deadlines f a acc l :
  Forall timeo_ok l -> span l < 2 ^ 32 ->
  match remove_first f a l with
  | Some l' => deadlines acc l' = drop_first (f, a) (deadlines acc l) /\ (f, a) ∈ (deadlines acc l).*2
  | None => (f, a) ∉ (deadlines acc l).*2
  end.
Proof.
  intros H. revert acc. induction H as [|t l Ht Hl IH]; intros acc Hsp; [set_solver|].
  cbn [remove_first deadlines drop_first fmap list_fmap snd span] in *.
  pose proof (span_nonneg l Hl). unfold timeo_ok, is_u in Ht.
  destruct ((h t =? f) && (arg t =? a)) eqn:E.
  - apply andb_true_iff in E as [ <-%Z.eqb_eq <-%Z.eqb_eq ]. rewrite decide_True by done.
    split; [|set_solver]. destruct l as [|n l]; [done|]. apply Forall_cons in Hl as [Hn Hl].
    pose proof (span_nonneg l Hl). cbn [span] in Hsp. unfold timeo_ok, is_u in Hn.
    cbn [deadlines set_time time h arg]. rewrite u32_small by lia.
    by replace (acc + (time n + time t)) with (acc + time t + time n) by lia.
  - assert (Hne : (h t, arg t) <> (f, a)).
    { intros [= <- <-]. by rewrite !Z.eqb_refl in E. }
    rewrite decide_False by done. specialize (IH (acc + time t) ltac:(lia)).
    destruct (remove_first f a l) as [l'|]; cbn [option_bind mbind deadlines]; [|set_solver].
    destruct IH as [ -> Hin ]. split; [done|set_solver].
Qed.

(** ** Calling the handlers *)

Definition due (d : Z) (l : list (Z * (Z * Z))) : list (Z * (Z * Z)) := filter (fun x => x.1 <= d) l.
Definition later (d : Z) (l : list (Z * (Z * Z))) : list (Z * (Z * Z)) := filter (fun x => ~ x.1 <= d) l.

Lemma due_none d acc l : Forall timeo_ok l -> d < acc -> due d (deadlines acc l) = [] /\ later d (deadlines acc l) = deadlines acc l.
Proof.
  intros Hl Hd. assert (H : forall x, x ∈ deadlines acc l -> d < x.1).
  { intros x Hx%timeouts_range; [lia|done]. }
  unfold due, later. induction (deadlines acc l) as [|x l' IH]; [done|].
  pose proof (H x ltac:(set_solver)). destruct IH as [E1 E2]; [set_solver|].
  rewrite !filter_cons. rewrite decide_False by lia. rewrite decide_True by lia. by rewrite E1, E2.
Qed.

(** Handlers that leave the timeouts alone. *)
Lemma check_loop_spec call fuel diff acc s :
  (forall f a s, call f a s = Some s) -> Forall timeo_ok (next_timeout s) ->
  0 <= diff < 2 ^ 32 -> (length (next_timeout s) <= fuel)%nat ->
  exists s' p, check_loop call fuel diff s =
      Some (filter (fun c => c.1 <> 0) (due (acc + diff) (deadlines acc (next_timeout s))).*2, s') /\
    0 <= p <= diff /\ u32 (timeouts_last_time s') = u32 (timeouts_last_time s + p) /\
    deadlines (acc + p) (next_timeout s') = later (acc + diff) (deadlines acc (next_timeout s)) /\
    tcpip_tcp_timer_active s' = tcpip_tcp_timer_active s.
Proof.
  intros Hcall. revert fuel diff acc. remember (next_timeout s) as l eqn:El. symmetry in El.
  revert s El. induction l as [|t l IH]; intros s El fuel diff acc Hok Hd Hf.
  { exists s, 0. destruct fuel; cbn [check_loop]; rewrite El, !Z.add_0_r; repeat split; done || lia. }
  apply Forall_cons in Hok as [Ht Hl]. pose proof Ht as [Ht0 _].
  destruct (Z.leb_spec (time t) diff) as [Hle|Hgt].
  - destruct fuel as [|fuel]; cbn [length] in Hf; [lia|]. cbn [check_loop]. rewrite El.
    rewrite (proj2 (Z.leb_le _ _)) by done. rewrite u32_small by lia.
    set (s1 := set_free _ _).
    destruct (IH s1 eq_refl fuel (diff - time t) (acc + time t) Hl ltac:(lia) ltac:(lia))
      as (s' & p & E & Hp & Hlast & Hdl & Hact).
    replace (acc + time t + (diff - time t)) with (acc + diff) in * by lia.
    exists s', (time t + p). cbn [deadlines]. unfold due, later in *. rewrite !filter_cons. cbn [fst].
    rewrite decide_True by lia. rewrite decide_False by lia. rewrite fmap_cons, filter_cons. cbn [snd fst].
    rewrite <- Hdl, (Z.add_assoc acc (time t) p).
    split; [|split; [lia|split; [|done]]].
    + destruct (Z.eqb_spec (h t) 0) as [Hz|Hz]; [rewrite decide_False by lia; exact E|].
      rewrite decide_True by done. rewrite Hcall. cbn [mbind option_bind]. by rewrite E.
    + rewrite Hlast. cbn [s1 set_free set_list set_last timeouts_last_time].
      rewrite u32_add_l. f_equal. lia.
  - exists s, 0. rewrite Z.add_0_r.
    assert (E : check_loop call fuel diff s = Some ([], s)).
    { destruct fuel; cbn [check_loop]; rewrite El; by rewrite (proj2 (Z.leb_gt _ _)). }
    destruct (due_none (acc + diff) (acc + time t) l Hl ltac:(lia)) as [E1 E2].
    cbn [deadlines]. unfold due, later in *. rewrite !filter_cons. cbn [fst].
    rewrite decide_False by lia. rewrite decide_True by lia.
    rewrite E, E1, E2, El, !Z.add_0_r. repeat split; done || lia.
Qed.

(** ** Bounds of the deadlines after setting a timeout *)

Lemma elem_of_place x y l : x ∈ place y l <-> x = y \/ x ∈ l.
Proof.
  induction l as [|z l IH]; cbn [place]; [set_solver|].
  case_match; rewrite !elem_of_cons, ?IH; tauto.
Qed.

Lemma deadlines_length acc l : length (deadlines acc l) = length l.
Proof. revert acc. induction l as [|t l IH]; intros acc; [done|]. cbn [deadlines length]. by rewrite IH. Qed.

Lemma span_bound B acc l :
  0 < B -> (forall x, x ∈ deadlines acc l -> x.1 < acc + B) -> span l < B.
Proof.
  revert acc B. induction l as [|t l IH]; intros acc B HB H; cbn [span]; [done|].
  assert (time t < B). { specialize (H (acc + time t, (h t, arg t)) ltac:(set_solver)). cbn [fst] in H. lia. }
  specialize (IH (acc + time t) (B - time t) ltac:(lia)).
  enough (span l < B - time t) by lia. apply IH. intros x Hx.
  specialize (H x ltac:(rewrite deadlines_cons; set_solver)). lia.
Qed.

Lemma deadlines_after_range msecs e x l y :
  Forall timeo_ok l -> 0 <= msecs -> 0 <= e -> y ∈ deadlines_after msecs e x l -> y.1 <= span l + e + msecs.
Proof.
  intros Hl Hm He. unfold deadlines_after. pose proof (span_nonneg l Hl).
  assert (Hin : y ∈ deadlines 0 l -> y.1 <= span l) by (intros Hy%timeouts_range; [lia|done]).
  destruct l as [|first rest]; [rewrite list_elem_of_singleton; intros ->; cbn [fst span]; lia|].
  pose proof Hl as [_ Hr]%Forall_cons. pose proof (span_nonneg rest Hr). cbn [span] in *.
  destruct (Z.ltb_spec msecs (time first)); [|destruct (Z.ltb_spec (time first + span rest) e)].
  - rewrite elem_of_cons. intros [ -> | Hy ]; [cbn [fst]; lia|].
    unfold delay in Hy. apply list_elem_of_fmap in Hy as (z & -> & Hz%timeouts_range); [|done].
    cbn [fst span] in *. lia.
  - rewrite elem_of_app, list_elem_of_singleton. intros [Hy| -> ]; [specialize (Hin Hy); lia|]. cbn [fst]. lia.
  - rewrite elem_of_place. intros [ -> | Hy ]; [cbn [fst]; lia|specialize (Hin Hy); lia].
Qed.

(** The new timeout is there, and taking it out leaves the others. *)
Lemma drop_first_app x l l' : x ∉ l.*2 -> drop_first x (l ++ l') = l ++ drop_first x l'.
Proof.
  induction l as [|y l IH]; intros H; [done|]. cbn [app drop_first]. rewrite fmap_cons in H.
  rewrite decide_False by set_solver. f_equal. apply IH. set_solver.
Qed.

Lemma drop_first_place d x l : x ∉ l.*2 -> drop_first x (place (d, x) l) = l.
Proof.
  induction l as [|y l IH]; intros H; cbn [place drop_first]; [by rewrite decide_True|].
  rewrite fmap_cons in H. case_match; cbn [drop_first].
  - by rewrite decide_True.
  - rewrite decide_False by set_solver. f_equal. apply IH. set_solver.
Qed.

Lemma drop_after msecs e x first rest :
  x ∉ (deadlines 0 (first :: rest)).*2 ->
  drop_first x (deadlines_after msecs e x (first :: rest)) =
  delay (if msecs <? time first then e else 0) (deadlines 0 (first :: rest)).
Proof.
  intros Hx. unfold deadlines_after. destruct (msecs <? time first).
  { cbn [drop_first]. by rewrite decide_True. }
  rewrite delay_0. destruct (span (first :: rest) <? e); [|by apply drop_first_place].
  rewrite drop_first_app by done. cbn [drop_first]. rewrite decide_True by done. by rewrite app_nil_r.
Qed.

Lemma elem_of_after msecs e x l : x ∈ (deadlines_after msecs e x l).*2.
Proof.
  unfold deadlines_after. destruct l as [|first rest]; [set_solver|].
  destruct (msecs <? time first); [rewrite fmap_cons; set_solver|].
  destruct (_ <? _); [rewrite fmap_app; set_solver|].
  apply (list_elem_of_fmap_2 snd _ (e + msecs, x)), elem_of_place. by left.
Qed.

(** The sleep time is what is left until the first deadline. *)
Lemma sleeptime_spec now s s' p :
  let e := u32 (now - timeouts_last_time s) in
  timers_ok s' -> 0 <= p <= e -> timeouts_last_time s' = u32 (timeouts_last_time s + p) ->
  (forall x, x ∈ deadlines p (next_timeout s') -> e < x.1) ->
  sys_timeouts_sleeptime now s' =
  (if deadlines p (next_timeout s') is x :: _ then x.1 - e else 0xffffffff).
Proof.
  intros e Hok Hp Hl Hlater. unfold sys_timeouts_sleeptime.
  assert (Hd : u32 (now - timeouts_last_time s') = e - p).
  { rewrite Hl. assert (He : 0 <= e < 2 ^ 32) by apply u32_ok. rewrite <- (u32_small (e - p)) by lia.
    subst e. unfold u32, wrap. by rewrite Zminus_mod_idemp_r, Zminus_mod_idemp_l, Z.sub_add_distr. }
  rewrite Hd. destruct Hok as [Ht _ _]. destruct (next_timeout s') as [|t l]; [done|].
  apply Forall_cons in Ht as [Ht _]. unfold timeo_ok, is_u in Ht. cbn [deadlines] in *.
  specialize (Hlater (p + time t, (h t, arg t)) ltac:(set_solver)). cbn [fst] in *.
  rewrite (proj2 (Z.ltb_ge _ _)) by lia. rewrite u32_small by lia. lia.
Qed.

(** ** Checking with handlers that set timeouts *)

(** [l'] has what is in [l], in this order and not earlier, and more. *)
Inductive kept : list (Z * (Z * Z)) -> list (Z * (Z * Z)) -> Prop :=
| kept_nil l : kept [] l
| kept_cons x y l l' : x.2 = y.2 -> x.1 <= y.1 -> kept l l' -> kept (x :: l) (y :: l')
| kept_skip y l l' : kept l l' -> kept l (y :: l').

#[local] Hint Constructors kept : core.

Lemma kept_refl l : kept l l.
Proof. induction l; auto with lia. Qed.

Lemma kept_trans l1 l2 l3 : kept l1 l2 -> kept l2 l3 -> kept l1 l3.
Proof.
  intros H12 H23. revert l1 H12. induction H23 as [l|x y l l' E Hle H IH|y l l' H IH]; intros l1 H12.
  - inversion H12; subst; auto.
  - inversion H12 as [|x' ? k ? E' Hle' Hk|? ? ? Hk]; subst; [done| |by constructor; apply IH].
    constructor; [congruence|lia|by apply IH].
  - constructor. by apply IH.
Qed.

Lemma kept_delay e l : 0 <= e -> kept l (delay e l).
Proof.
  intros He. unfold delay. induction l as [|x l IH]; [constructor|].
  rewrite fmap_cons. constructor; [done|cbn [fst]; lia|done].
Qed.

Lemma kept_delays e l l' : kept l l' -> kept (delay e l) (delay e l').
Proof.
  unfold delay. induction 1 as [|x y l l' E Hle H IH|y l l' H IH]; rewrite ?fmap_cons; auto.
  constructor; [done|cbn [fst]; lia|done].
Qed.

Lemma due_app d l l' : due d (l ++ l') = due d l ++ due d l'.
Proof. apply filter_app. Qed.

Lemma due_delay d k l : due d (delay k l) = delay k (due (d - k) l).
Proof.
  unfold due, delay. induction l as [|x l IH]; [done|]. rewrite fmap_cons, !filter_cons, IH. cbn [fst].
  destruct (decide (x.1 <= d - k)); [rewrite decide_True by lia; done|by rewrite decide_False by lia].
Qed.

Lemma later_delay d k l : later d (delay k l) = delay k (later (d - k) l).
Proof.
  unfold later, delay. induction l as [|x l IH]; [done|]. rewrite fmap_cons, !filter_cons, IH. cbn [fst].
  destruct (decide (~ x.1 <= d - k)); [rewrite decide_True by lia; done|by rewrite decide_False by lia].
Qed.

Lemma delay_handlers k l : (delay k l).*2 = l.*2.
Proof. unfold delay. rewrite <- list_fmap_compose. done. Qed.

Lemma due_all_later d l : (forall x, x ∈ l -> d < x.1) -> due d l = [] /\ later d l = l.
Proof.
  unfold due, later. induction l as [|x l IH]; intros H; [done|].
  pose proof (H x ltac:(set_solver)). destruct IH as [E1 E2]; [set_solver|].
  rewrite !filter_cons, decide_False, decide_True by lia. by rewrite E1, E2.
Qed.

Lemma place_due d x l : d < x.1 -> due d (place x l) = due d l /\ kept (later d l) (later d (place x l)).
Proof.
  intros Hx. unfold due, later. induction l as [|y l [IH1 IH2]]; cbn [place].
  - rewrite !filter_cons, decide_False, decide_True by lia. auto.
  - case_match.
    + rewrite (filter_cons _ x), decide_False by lia. split; [done|].
      rewrite (filter_cons _ x), decide_True by lia. apply kept_skip, kept_refl.
    + rewrite !filter_cons, IH1. split; [done|]. case_match; auto with lia.
Qed.

(** A timeout of more than [d] milliseconds changes nothing about the ones due at
    [d]. *)
Lemma after_due msecs e x l d :
  Forall timeo_ok l -> 0 <= d -> d < msecs -> d <= e -> l <> [] ->
  due d (deadlines_after msecs e x l) = due d (deadlines 0 l) /\
  kept (later d (deadlines 0 l)) (later d (deadlines_after msecs e x l)).
Proof.
  intros Hl Hd Hm He Hne. destruct l as [|first rest]; [done|]. unfold deadlines_after.
  pose proof (span_nonneg _ Hl). pose proof Hl as [Hf _]%Forall_cons. unfold timeo_ok, is_u in Hf.
  destruct (Z.ltb_spec msecs (time first)) as [Hlt|Hge]; [|destruct (_ <? _)].
  - assert (Hall : forall y, y ∈ deadlines 0 (first :: rest) -> d < y.1).
    { intros y. apply Forall_cons in Hl as [_ Hr]. rewrite deadlines_cons, elem_of_cons.
      intros [ -> | Hy%timeouts_range ]; [cbn [fst]; lia|lia|done]. }
    destruct (due_all_later d _ Hall) as [E1 E2]. rewrite E1, E2.
    destruct (due_all_later d ((e + msecs, x) :: delay e (deadlines 0 (first :: rest)))) as [E3 E4].
    { intros y. rewrite elem_of_cons. intros [ -> | Hy ]; [cbn [fst]; lia|].
      unfold delay in Hy. apply list_elem_of_fmap in Hy as (z & -> & Hz%Hall). cbn [fst]. lia. }
    rewrite E3, E4. split; [done|]. apply kept_skip, kept_delay. lia.
  - rewrite due_app. unfold due at 2. rewrite filter_cons, decide_False by (cbn [fst]; lia).
    rewrite filter_nil, app_nil_r. split; [done|]. unfold later. rewrite filter_app.
    induction (filter _ (deadlines 0 _)); [constructor|]. cbn [app]. auto with lia.
  - apply place_due. cbn [fst]. lia.
Qed.

(** What a handler does that a check at [now] calls [e] milliseconds late: it sets
    no timeout, or one of more than [e] and at most [M] milliseconds, reading the
    clock at most [L] milliseconds after [now]; it removes none. *)
Definition rearms (call : Z -> Z -> timers -> option timers) (now e L M f a : Z) : Prop :=
  forall s, timers_ok s ->
    (exists b, call f a s = Some (set_tcp_active b s)) \/
    (exists b msecs f' a' now', e < msecs <= M /\ u32 (now' - now) <= L /\
       call f a s = sys_timeout msecs f' a' now' (set_tcp_active b s)).

Lemma u32_sub_add x y z : u32 (x - z) + u32 (y - x) < 2 ^ 32 -> u32 (y - z) = u32 (x - z) + u32 (y - x).
Proof.
  intros H. pose proof (u32_ok (x - z)) as H1. pose proof (u32_ok (y - x)) as H2. unfold is_u in *.
  rewrite <- (u32_small (u32 (x - z) + u32 (y - x))) by lia.
  unfold u32, wrap. rewrite <- Zplus_mod. f_equal. lia.
Qed.

Lemma due_cons d t l :
  due d (deadlines 0 (t :: l)) =
  if decide (time t <= d) then (time t, (h t, arg t)) :: delay (time t) (due (d - time t) (deadlines 0 l))
  else due d (delay (time t) (deadlines 0 l)).
Proof.
  rewrite deadlines_cons, (deadlines_delay (time t)). unfold due at 1. rewrite filter_cons. cbn [fst].
  rewrite Z.add_0_l. case_decide; [|done]. f_equal. apply due_delay.
Qed.

Lemma later_cons d t l :
  time t <= d -> later d (deadlines 0 (t :: l)) = delay (time t) (later (d - time t) (deadlines 0 l)).
Proof.
  intros H. rewrite deadlines_cons, (deadlines_delay (time t)). unfold later at 1. rewrite filter_cons. cbn [fst].
  rewrite Z.add_0_l, decide_False by lia. apply later_delay.
Qed.

Lemma check_loop_later call fuel diff t rest s :
  next_timeout s = t :: rest -> diff < time t -> check_loop call fuel diff s = Some ([], s).
Proof. intros El H. destruct fuel; cbn [check_loop]; rewrite El; by rewrite (proj2 (Z.leb_gt _ _)). Qed.

(** The due handlers [dl] are called, and after each the others are due as before. *)
Definition checked (call : Z -> Z -> timers -> option timers) (fuel : nat) (diff B : Z) (s : timers) : Prop :=
  exists s' p,
    check_loop call fuel diff s =
      Some (filter (fun c => c.1 <> 0) (due diff (deadlines 0 (next_timeout s))).*2, s') /\
    timers_ok s' /\ 0 <= p <= B /\ timeouts_last_time s' = u32 (timeouts_last_time s + p) /\
    (forall y, y ∈ deadlines p (next_timeout s') -> diff < y.1) /\
    kept (later diff (deadlines 0 (next_timeout s))) (deadlines p (next_timeout s')).

Lemma checked_none call fuel diff B s :
  timers_ok s -> 0 <= diff -> 0 <= B -> due diff (deadlines 0 (next_timeout s)) = [] -> checked call fuel diff B s.
Proof.
  intros Hok Hd HB E. assert (Hall : forall y, y ∈ deadlines 0 (next_timeout s) -> diff < y.1).
  { intros y Hy. destruct (Z.leb_spec y.1 diff) as [Hle|]; [|done]. exfalso.
    assert (Hin : y ∈ due diff (deadlines 0 (next_timeout s))) by (by apply list_elem_of_filter).
    rewrite E in Hin. set_solver. }
  exists s, 0. rewrite E. split.
  { destruct (next_timeout s) as [|t rest] eqn:El; [destruct fuel; cbn [check_loop]; by rewrite El|].
    apply (check_loop_later _ _ _ t rest); [done|]. specialize (Hall (0 + time t, (h t, arg t))).
    cbn [fst] in Hall. apply Hall. rewrite deadlines_cons. set_solver. }
  split; [done|]. split; [lia|]. split; [rewrite Z.add_0_r, u32_small; [done|apply Hok]|].
  split; [done|]. destruct (due_all_later diff _ Hall) as [_ ->]. apply kept_refl.
Qed.

(** The round for the first timeout [t], when the rest of the loop is as it should
    be from the state [s1] after its handler on. *)
Lemma checked_step call fuel diff B t rest s s1 :
  timers_ok s -> next_timeout s = t :: rest -> time t <= diff < 2 ^ 32 ->
  let s0 := set_free (S (pool_free s)) (set_list rest (set_last (timeouts_last_time s + time t) s)) in
  (if h t =? 0 then Some s0 else call (h t) (arg t) s0) = Some s1 ->
  timeouts_last_time s1 = timeouts_last_time s0 ->
  due (diff - time t) (deadlines 0 (next_timeout s1)) = due (diff - time t) (deadlines 0 rest) ->
  kept (later (diff - time t) (deadlines 0 rest)) (later (diff - time t) (deadlines 0 (next_timeout s1))) ->
  checked call fuel (diff - time t) (B - time t) s1 -> checked call (S fuel) diff B s.
Proof.
  intros [Ht _ _] El Hd s0 Hcall Hlast Hdue Hlater (s' & p & E & Hok' & Hp & Hl' & Hall & Hk).
  rewrite El in Ht. apply Forall_cons in Ht as [Ht Hr]. unfold timeo_ok, is_u in Ht.
  exists s', (time t + p). rewrite El, due_cons, decide_True by lia.
  rewrite fmap_cons, delay_handlers, filter_cons, <- Hdue. cbn [snd fst].
  split.
  { cbn [check_loop]. rewrite El, (proj2 (Z.leb_le _ _)), (u32_small (diff - time t)) by lia. fold s0.
    destruct (Z.eqb_spec (h t) 0) as [Hz|Hz].
    - injection Hcall as <-. rewrite decide_False by lia. exact E.
    - rewrite decide_True by done. change (pool_free (set_last _ s)) with (pool_free s). fold s0.
      rewrite Hcall. cbn [mbind option_bind]. by rewrite E. }
  split; [done|]. split; [lia|]. split.
  { rewrite Hl', Hlast. cbn [s0 set_free set_list set_last timeouts_last_time]. rewrite u32_add_l. f_equal. lia. }
  rewrite (Z.add_comm (time t) p), deadlines_delay, later_cons by lia. split.
  - intros y Hy. unfold delay in Hy. apply list_elem_of_fmap in Hy as (z & -> & Hz%Hall). cbn [fst]. lia.
  - apply kept_delays. by eapply kept_trans.
Qed.

Lemma rearm_spans msecs e l x d :
  Forall timeo_ok l -> 0 <= msecs -> 0 <= e -> forall l', Forall timeo_ok l' ->
  deadlines 0 l' = deadlines_after msecs e x l -> span l + e + msecs <= d -> span l' <= d.
Proof.
  intros Hl Hm He l' Hl' E Hd. pose proof (span_nonneg _ Hl). enough (span l' < d + 1) by lia.
  apply (span_bound _ 0); [lia|]. intros y Hy. rewrite E in Hy.
  apply deadlines_after_range in Hy; [lia|done..].
Qed.

Lemma now_expired now last diff d :
  0 <= d <= diff -> diff < 2 ^ 32 -> u32 (now - last) = diff -> u32 (now - u32 (last + d)) = diff - d.
Proof.
  intros Hd Hdiff Hnow. rewrite <- (u32_small (diff - d)), <- Hnow by lia.
  unfold u32, wrap. rewrite Zminus_mod_idemp_r, Zminus_mod_idemp_l. f_equal. lia.
Qed.

(** The first handler's part of the induction below: the state after it. *)
Lemma rearms_step call now L M diff t rest s :
  0 <= L -> 0 <= M -> timers_ok s -> next_timeout s = t :: rest -> time t <= diff < 2 ^ 32 ->
  rearms call now (diff - time t) L M (h t) (arg t) -> u32 (now - timeouts_last_time s) = diff ->
  span (t :: rest) + (diff + L + M) < 2 ^ 32 ->
  let s0 := set_free (S (pool_free s)) (set_list rest (set_last (timeouts_last_time s + time t) s)) in
  exists s1, (if h t =? 0 then Some s0 else call (h t) (arg t) s0) = Some s1 /\ timers_ok s1 /\
    (timeouts_last_time s1 = timeouts_last_time s0 /\
     due (diff - time t) (deadlines 0 (next_timeout s1)) = due (diff - time t) (deadlines 0 rest) /\
     kept (later (diff - time t) (deadlines 0 rest)) (later (diff - time t) (deadlines 0 (next_timeout s1))) /\
     span (next_timeout s1) <= span rest + (diff + L + M)
     \/ rest = [] /\ exists t1 now1, next_timeout s1 = [t1] /\ diff - time t < time t1 /\
         u32 (now1 - now) <= L /\ timeouts_last_time s1 = u32 now1).
Proof.
  intros HL HM Hok El Hd Hx Hnow Hsp s0. assert (Hok0 : timers_ok s0) by (by apply (expire_ok t)).
  pose proof Hok as [Ht _ _]. rewrite El in Ht. apply Forall_cons in Ht as [Ht Hr].
  unfold timeo_ok, is_u in Ht. pose proof (span_nonneg _ Hr). cbn [span] in Hsp.
  assert (Hnow0 : u32 (now - timeouts_last_time s0) = diff - time t).
  { apply now_expired; [lia..|done]. }
  assert (Hsame : forall b, timeouts_last_time (set_tcp_active b s0) = timeouts_last_time s0 /\
     due (diff - time t) (deadlines 0 (next_timeout (set_tcp_active b s0))) = due (diff - time t) (deadlines 0 rest) /\
     kept (later (diff - time t) (deadlines 0 rest)) (later (diff - time t) (deadlines 0 (next_timeout (set_tcp_active b s0)))) /\
     span (next_timeout (set_tcp_active b s0)) <= span rest).
  { intros b. split; [done|]. split; [done|]. split; [apply kept_refl|]. cbn. lia. }
  destruct (h t =? 0).
  { exists s0. split; [done|]. split; [done|]. left. destruct (Hsame (tcpip_tcp_timer_active s0)) as (? & ? & ? & ?).
    repeat split; try done. cbn in *. lia. }
  destruct (Hx s0 Hok0) as [[b E]|(b & msecs & f' & a' & now' & Hm & Hnow' & E)]; rewrite E.
  { exists (set_tcp_active b s0). split; [done|]. split; [by apply set_tcp_active_ok|]. left.
    destruct (Hsame b) as (? & ? & ? & ?). repeat split; try done. lia. }
  pose proof (set_tcp_active_ok b _ Hok0) as Hokb. pose proof (u32_ok (now' - now)) as Hu. unfold is_u in Hu.
  assert (Hnowb : u32 (now' - timeouts_last_time (set_tcp_active b s0)) = diff - time t + u32 (now' - now)).
  { cbn [set_tcp_active timeouts_last_time]. rewrite <- Hnow0. apply u32_sub_add. lia. }
  destruct (sys_timeout_spec msecs f' a' now' (set_tcp_active b s0) (pool_free s) Hokb eq_refl ltac:(lia))
    as (s1 & E1 & _ & _ & Hl1 & Hd1).
  { rewrite Hnowb. cbn. lia. }
  rewrite Hnowb in Hd1. pose proof (sys_timeout_ok _ _ _ _ _ _ Hokb E1) as Hok1.
  exists s1. split; [done|]. split; [done|]. change (next_timeout (set_tcp_active b s0)) with rest in *.
  destruct rest as [|r rest]; [right|left].
  - split; [done|]. pose proof (f_equal length Hd1) as Hlen. pose proof Hok1 as [Ht1 _ _].
    destruct (next_timeout s1) as [|t1 [|]]; try discriminate Hlen. cbn in Hd1. injection Hd1 as Hd1 _ _.
    exists t1, now'. repeat split; done || lia.
  - split; [done|]. rewrite Hd1.
    destruct (after_due msecs (diff - time t + u32 (now' - now)) (f', a') (r :: rest) (diff - time t) Hr) as [H1 H2];
      [lia..|done|]. split; [done|]. split; [done|].
    eapply (rearm_spans msecs _ (r :: rest)); [done| | |apply Hok1|exact Hd1|]; lia.
Qed.

Lemma check_loop_rearms call now L M n fuel diff s :
  0 <= L -> 0 <= M -> timers_ok s -> 0 <= diff < 2 ^ 32 ->
  n = length (due diff (deadlines 0 (next_timeout s))) ->
  Forall (fun x => rearms call now (diff - x.1) L M x.2.1 x.2.2) (due diff (deadlines 0 (next_timeout s))) ->
  u32 (now - timeouts_last_time s) = diff ->
  (n <= fuel)%nat -> span (next_timeout s) + Z.of_nat n * (diff + L + M) < 2 ^ 32 ->
  checked call fuel diff (diff + L) s.
Proof.
  intros HL HM. revert fuel diff s. induction n as [|n IH]; intros fuel diff s Hok Hd Hn Hre Hnow Hfuel Hsp.
  { apply checked_none; [done|lia|lia|by apply nil_length_inv]. }
  destruct fuel as [|fuel]; [lia|]. destruct (next_timeout s) as [|t rest] eqn:El; [done|].
  pose proof Hok as [Ht _ _]. rewrite El in Ht. apply Forall_cons in Ht as [Ht Hr].
  unfold timeo_ok, is_u in Ht. pose proof (span_nonneg _ Hr).
  rewrite due_cons in Hn, Hre. destruct (decide (time t <= diff)) as [Hle|Hgt].
  2: { exfalso. rewrite <- deadlines_delay in Hn.
       destruct (due_none diff (0 + time t) rest Hr ltac:(lia)) as [E _]. by rewrite E in Hn. }
  apply Forall_cons in Hre as [Hx Hre]. cbn [snd fst] in Hx.
  unfold delay in Hre. rewrite Forall_fmap in Hre. cbn [length] in Hn. unfold delay in Hn. rewrite length_fmap in Hn. apply (inj S) in Hn.
  destruct (rearms_step call now L M diff t rest s) as (s1 & E1 & Hok1 & Hcase);
    [try done; nia..|]. set (s0 := set_free _ _) in *.
  destruct Hcase as [(Hl1 & Hdue & Hlat & Hsp1)|( -> & t1 & now1 & El1 & Ht1 & Hnow1 & Hl1)].
  - cbn [span] in Hsp. rewrite Nat2Z.inj_succ in Hsp.
    assert (0 <= Z.of_nat n * time t) by nia.
    eapply (checked_step call fuel diff (diff + L) t rest s s1); [done|done|lia|exact E1|done..|].
    replace (diff + L - time t) with (diff - time t + L) by lia. apply IH; [done|lia| | | |lia|nia].
    + by rewrite Hdue.
    + rewrite Hdue. apply (Forall_impl _ _ _ Hre). intros x. cbn [compose fst snd].
      by replace (diff - (x.1 + time t)) with (diff - time t - x.1) by lia.
    + rewrite Hl1. apply now_expired; [lia..|done].
  - pose proof (u32_ok (now1 - now)) as Hu. unfold is_u in Hu.
    exists s1, (diff + u32 (now1 - now)). rewrite El, El1, due_cons, decide_True by lia.
    rewrite later_cons, fmap_cons, delay_handlers, filter_cons by lia. cbn [snd fst].
    split; [|split; [done|split; [lia|split; [|split]]]].
    + cbn [check_loop]. rewrite El, (proj2 (Z.leb_le _ _)), (u32_small (diff - time t)) by lia.
      change (pool_free (set_last _ s)) with (pool_free s). fold s0.
      assert (E2 : check_loop call fuel (diff - time t) s1 = Some ([], s1)) by (apply (check_loop_later _ _ _ t1 []); [done|lia]).
      destruct (Z.eqb_spec (h t) 0) as [Hz|Hz].
      * injection E1 as <-. rewrite E2, decide_False by lia. done.
      * rewrite decide_True by done. rewrite E1. cbn [mbind option_bind]. by rewrite E2.
    + rewrite Hl1, <- Hnow, (Z.add_comm (timeouts_last_time s)), <- Z.add_assoc, u32_add_l.
      rewrite (Z.add_comm (u32 _)), Z.add_assoc, Z.add_comm, u32_add_l. f_equal. lia.
    + cbn [deadlines]. intros y Hy%list_elem_of_singleton. subst y. cbn [fst]. lia.
    + constructor.
Qed.

(** * What the timeouts of lwIP promise

    Well-formedness in every reachable state, what setting, removing and checking
    do to the deadlines, and the two ways in which deadlines are missed: a timeout
    set in front of the list moves all others, and one set by a handler in an
    empty list may be called at once. *)

(** ** Reachable states *)

(** What handlers and the other parts of the stack do with timeouts. *)
Inductive timers_set : timers -> timers -> Prop :=
| ts_timeout msecs f a now s s' : sys_timeout msecs f a now s = Some s' -> timers_set s s'
| ts_untimeout f a s : timers_set s (sys_untimeout f a s)
| ts_needed pcbs now s s' : tcp_timer_needed pcbs now s = Some s' -> timers_set s s'
| ts_cyclic tmr a now s s' :
    (forall i s s', tmr i s = Some s' -> s' = s) -> cyclic_timer tmr a now s = Some s' -> timers_set s s'
| ts_tcp tmr pcbs now s s' :
    (forall i s s', tmr i s = Some s' -> s' = s) -> tcpip_tcp_timer tmr pcbs now s = Some s' -> timers_set s s'.

Inductive timers_step : timers -> timers -> Prop :=
| st_set s s' : timers_set s s' -> timers_step s s'
| st_fetch call fuel rounds s m called s' :
    (forall f a s s', call f a s = Some s' -> rtc timers_set s s') ->
    sys_timeouts_mbox_fetch call fuel rounds s = Some (m, called, s') -> timers_step s s'
| st_restart now s : timers_step s (sys_restart_timeouts now s).

Definition no_timers : timers := Timers [] 0 false MEMP_NUM_SYS_TIMEOUT.

Definition timers_reach (s : timers) : Prop :=
  exists nows now s0, sys_timeouts_init nows now no_timers = Some s0 /\ rtc timers_step s0 s.

Lemma timers_set_ok s s' : timers_set s s' -> timers_ok s -> timers_ok s'.
Proof.
  intros H Hok. destruct H as [? ? ? ? s s' E| |pcbs now s s' E|tmr a now s s' Ht E|tmr pcbs now s s' Ht E].
  - by eapply sys_timeout_ok.
  - by apply sys_untimeout_ok.
  - unfold tcp_timer_needed in E. case_match; [|by injection E as <-].
    eapply sys_timeout_ok; [|done]. by apply set_tcp_active_ok.
  - unfold cyclic_timer in E. destruct (_ !! _) as [[i f]|]; [|done]. cbn in E.
    destruct (tmr f s) as [s1|] eqn:E1; [|done]. apply Ht in E1 as ->. by eapply sys_timeout_ok.
  - unfold tcpip_tcp_timer in E. destruct (tmr 1 s) as [s1|] eqn:E1; [|done]. apply Ht in E1 as ->. cbn in E.
    destruct pcbs; [by eapply sys_timeout_ok|]. injection E as <-. by apply set_tcp_active_ok.
Qed.

Lemma rtc_preserves {A} (R : A -> A -> Prop) (P : A -> Prop) x y :
  (forall x y, R x y -> P x -> P y) -> rtc R x y -> P x -> P y.
Proof. intros HR H. induction H; eauto. Qed.

Lemma timers_step_ok s s' : timers_step s s' -> timers_ok s -> timers_ok s'.
Proof.
  intros [? ? H|call fuel rounds s0 m called s1 Hc E|now s0] Hok.
  - by eapply timers_set_ok.
  - apply (sys_timeouts_mbox_fetch_ok call) in E; [done| |done].
    intros f a x y Hx E'%Hc. by apply (rtc_preserves _ _ _ _ timers_set_ok E').
  - by apply set_last_ok.
Qed.

Lemma timers_reach_ok s : timers_reach s -> timers_ok s.
Proof.
  intros (nows & now & s0 & E & H). apply (rtc_preserves _ _ _ _ timers_step_ok H).
  unfold sys_timeouts_init in E. destruct (start_timers _ _ _ _) as [s1|] eqn:E1; [|done].
  injection E as <-. apply set_last_ok. eapply start_timers_ok; [|done].
  split; [constructor|by vm_compute|done].
Qed.

(** The list of timeouts is well formed in every state that operation leads
    to: its times and [timeouts_last_time] are 32-bit values, its deadlines are in
    order, and the elements of the list and the free ones of the pool are
    [MEMP_NUM_SYS_TIMEOUT] together, whatever handlers do with timeouts; setting a
    timeout fails exactly when all of them are in use. *)
Theorem timers_well_formed s :
  timers_reach s ->
  Forall (fun t => is_u 32 (time t)) (next_timeout s) /\ is_u 32 (timeouts_last_time s) /\
  StronglySorted Z.le (deadlines 0 (next_timeout s)).*1 /\
  (length (next_timeout s) + pool_free s = MEMP_NUM_SYS_TIMEOUT)%nat /\
  (forall msecs f a now,
     sys_timeout msecs f a now s = None <-> length (next_timeout s) = MEMP_NUM_SYS_TIMEOUT).
Proof.
  intros [Ht Hl Hp]%timers_reach_ok. split; [done|]. split; [done|]. split; [by apply deadlines_sorted|].
  split; [done|]. intros msecs f a now. unfold sys_timeout. destruct (pool_free s) as [|n]; [split; [lia|done]|].
  split; [|lia]. intros E. exfalso. destruct (next_timeout (set_free n s)); case_match; try done; by case_match.
Qed.

Lemma timers_well_formed_witness :
  let s := Timers [Timeo 120 7 1; Timeo 900 101 1; Timeo 0 101 2] 5 false 7 in
  timers_reach s /\ StronglySorted Z.le (deadlines 0 (next_timeout s)).*1.
Proof.
  intros s. assert (H : timers_reach s).
  { exists [5; 5], 5. eexists. split; [vm_compute; reflexivity|].
    eapply rtc_l; [apply st_set, (ts_timeout 100 7 1 25); vm_compute; reflexivity|]. apply rtc_refl. }
  split; [exact H|]. apply (timers_well_formed _ H).
Defined.

(** ** Setting a timeout *)

(** [sys_timeout] in a list that is not empty, [e] milliseconds after
    [timeouts_last_time] (no sum reaching 2^32).  When the first time is not more
    than [msecs] and not all timeouts are overdue, the new deadline is [msecs]
    from now, in its place behind the ones that are not later, and no other moves.
    When the first time is more than [msecs], the new deadline is [msecs] from now
    and in front, and every other deadline moves [e] milliseconds later.  When all
    are overdue, it is appended [msecs] and the first time after the last of them. *)
Theorem sys_timeout_deadlines msecs f a now s first rest n :
  timers_ok s -> next_timeout s = first :: rest -> pool_free s = S n -> 0 <= msecs < 2 ^ 32 ->
  let e := u32 (now - timeouts_last_time s) in
  span (next_timeout s) + e + msecs < 2 ^ 32 ->
  exists s', sys_timeout msecs f a now s = Some s' /\ pool_free s' = n /\
    timeouts_last_time s' = timeouts_last_time s /\
    deadlines 0 (next_timeout s') =
      if msecs <? time first then (e + msecs, (f, a)) :: delay e (deadlines 0 (next_timeout s))
      else if span (next_timeout s) <? e then
        deadlines 0 (next_timeout s) ++ [(span (next_timeout s) + (msecs + time first), (f, a))]
      else place (e + msecs, (f, a)) (deadlines 0 (next_timeout s)).
Proof.
  intros Hok El Hn Hm e Hsp. destruct (sys_timeout_spec msecs f a now s n Hok Hn Hm Hsp) as (s' & E & Hp & _ & Hl & Hd).
  exists s'. rewrite El in Hl. split; [done|]. split; [done|]. split; [done|]. rewrite Hd, El. done.
Qed.

Lemma sys_timeout_deadlines_witness :
  let s := Timers [Timeo 1000 2 0; Timeo 500 3 0] 4000 false 8 in
  exists s', sys_timeout 100 9 7 4600 s = Some s' /\
    deadlines 0 (next_timeout s) = [(1000, (2, 0)); (1500, (3, 0))] /\
    deadlines 0 (next_timeout s') = [(700, (9, 7)); (1600, (2, 0)); (2100, (3, 0))].
Proof.
  intros s. destruct (sys_timeout_deadlines 100 9 7 4600 s (Timeo 1000 2 0) [Timeo 500 3 0] 7) as (s' & E & _ & _ & Hd);
    [split; [repeat constructor; by vm_compute|by vm_compute|done]|done|done|lia|by vm_compute|].
  exists s'. split; [done|]. split; [done|]. rewrite Hd. vm_compute. reflexivity.
Defined.

(** Removing what was just set.  [sys_untimeout] takes the first timeout
    with this handler and argument out, gives its element back and moves no
    other deadline; so a timeout that is set and removed leaves the deadlines
    as they were, except for the delay of a timeout that was set in front. *)
Theorem sys_untimeout_undoes msecs f a now s first rest n :
  timers_ok s -> next_timeout s = first :: rest -> pool_free s = S n -> 0 <= msecs < 2 ^ 32 ->
  (f, a) ∉ (deadlines 0 (next_timeout s)).*2 ->
  let e := u32 (now - timeouts_last_time s) in
  span (next_timeout s) + e + msecs < 2 ^ 32 ->
  exists s', sys_timeout msecs f a now s = Some s' /\
    pool_free (sys_untimeout f a s') = pool_free s /\
    deadlines 0 (next_timeout (sys_untimeout f a s')) =
      delay (if msecs <? time first then e else 0) (deadlines 0 (next_timeout s)).
Proof.
  intros Hok El Hn Hm Hni e Hsp.
  destruct (sys_timeout_spec msecs f a now s n Hok Hn Hm Hsp) as (s' & E & Hp & _ & Hl & Hd). fold e in Hd.
  exists s'. split; [done|]. pose proof (sys_timeout_ok _ _ _ _ _ _ Hok E) as [Ht' _ _].
  assert (He : 0 <= e) by apply u32_ok.
  assert (Hs' : span (next_timeout s') < 2 ^ 32).
  { apply (span_bound _ 0); [done|]. intros x Hx. rewrite Hd in Hx.
    apply deadlines_after_range in Hx; [lia|apply Hok|lia..]. }
  pose proof (remove_first_deadlines f a 0 _ Ht' Hs') as Hr. unfold sys_untimeout.
  rewrite Hd in Hr. rewrite El in Hr, Hni |- *.
  destruct (remove_first f a (next_timeout s')) as [l'|].
  - destruct Hr as [Hr _]. cbn [set_free set_list pool_free next_timeout]. split; [lia|]. rewrite Hr.
    by apply drop_after.
  - exfalso. apply Hr. apply elem_of_after.
Qed.

Lemma sys_untimeout_undoes_witness :
  let s := Timers [Timeo 1000 2 0; Timeo 500 3 0] 4000 false 8 in
  exists s', sys_timeout 1200 9 7 4600 s = Some s' /\ length (next_timeout s') = 3%nat /\
    deadlines 0 (next_timeout (sys_untimeout 9 7 s')) = [(1000, (2, 0)); (1500, (3, 0))].
Proof.
  intros s. destruct (sys_untimeout_undoes 1200 9 7 4600 s (Timeo 1000 2 0) [Timeo 500 3 0] 7) as (s' & E & _ & Hd);
    [split; [repeat constructor; by vm_compute|by vm_compute|done]|done|done|lia|by vm_compute; set_solver|by vm_compute|].
  exists s'. split; [done|]. split; [vm_compute in E; by injection E as <-|]. rewrite Hd. vm_compute. reflexivity.
Defined.

(** ** Checking the timeouts *)

(** Calling a handler of the stack through its pointer; [clock] is the time it
    reads. *)
Definition stack_call (tmr : Z -> timers -> option timers) (has_pcbs : bool) (clock : Z -> Z -> Z)
    (f a : Z) (s : timers) : option timers :=
  if f =? H_CYCLIC_TIMER then cyclic_timer tmr a (clock f a) s
  else if f =? H_TCPIP_TCP_TIMER then tcpip_tcp_timer tmr has_pcbs (clock f a) s
  else Some s.

(** The timers of the stack, when the functions they call leave the timeouts
    alone and they are less late than their interval. *)
Lemma stack_handlers_rearm tmr has_pcbs clock now e L f a :
  (forall i s, tmr i s = Some s) -> u32 (clock f a - now) <= L ->
  (f = H_TCPIP_TCP_TIMER /\ e < TCP_TMR_INTERVAL \/ f = H_CYCLIC_TIMER /\ (a = 1 \/ a = 2) /\ e < 1000) ->
  rearms (stack_call tmr has_pcbs clock) now e L 1000 f a.
Proof.
  intros Ht Hc Hf s Hok. assert (Hs : s = set_tcp_active (tcpip_tcp_timer_active s) s) by (by destruct s).
  destruct Hf as [[ -> He]|( -> & Ha & He)]; unfold stack_call, TCP_TMR_INTERVAL in *;
    change (H_TCPIP_TCP_TIMER =? H_CYCLIC_TIMER) with false; rewrite ?Z.eqb_refl; cbv iota.
  - unfold tcpip_tcp_timer. rewrite Ht. cbn [mbind option_bind].
    destruct has_pcbs; [right|left; by exists false].
    exists (tcpip_tcp_timer_active s), 250, H_TCPIP_TCP_TIMER, 0, (clock H_TCPIP_TCP_TIMER a).
    rewrite <- Hs. repeat split; done || lia.
  - right. exists (tcpip_tcp_timer_active s), 1000, H_CYCLIC_TIMER, a, (clock H_CYCLIC_TIMER a).
    rewrite <- Hs. split; [lia|]. split; [done|].
    assert (El : exists i, lwip_cyclic_timers !! Z.to_nat a = Some (1000, i)) by (destruct Ha as [ -> | -> ]; eauto).
    destruct El as [i El]. unfold cyclic_timer. rewrite El. cbn [mbind option_bind]. by rewrite Ht.
Qed.

(** C32: A check with handlers that remove no timeout and set at most one each, of
    more milliseconds than they are called late; the timers of the stack, which start
    themselves again, are such handlers while they are less late than their interval
    ([stack_handlers_rearm]).  [sys_check_timeouts] then calls, in the order
    of their deadlines, the handlers of the timeouts that were due and no others
    (the null ones apart), and ends within as many rounds as there are timeouts.
    After it the list is well formed and none of its deadlines is due at [now];
    every timeout that was not due is still there, in the old order and not earlier
    ([sys_timeout_deadlines] has the case that moves one later).  The handlers read
    the clock at most [L] milliseconds after the check, and the sums of times stay
    below 2^32.  What happens with a shorter timeout is
    [timeout_set_by_handler_called_at_once]. *)
Theorem sys_check_timeouts_calls_due call fuel now L M s :
  timers_ok s -> 0 <= L -> 0 <= M -> (length (next_timeout s) <= fuel)%nat ->
  let e := u32 (now - timeouts_last_time s) in
  Forall (fun x => rearms call now (e - x.1) L M x.2.1 x.2.2) (due e (deadlines 0 (next_timeout s))) ->
  span (next_timeout s) + Z.of_nat MEMP_NUM_SYS_TIMEOUT * (e + L + M) < 2 ^ 32 ->
  exists s' p, sys_check_timeouts call fuel now s =
      Some (filter (fun c => c.1 <> 0) (due e (deadlines 0 (next_timeout s))).*2, s') /\
    timers_ok s' /\ 0 <= p <= e + L /\ timeouts_last_time s' = u32 (timeouts_last_time s + p) /\
    (forall y, y ∈ deadlines p (next_timeout s') -> e < y.1) /\
    kept (later e (deadlines 0 (next_timeout s))) (deadlines p (next_timeout s')).
Proof.
  intros Hok HL HM Hfuel e Hre Hsp. assert (He : 0 <= e < 2 ^ 32) by apply u32_ok.
  assert (Hn : (length (due e (deadlines 0 (next_timeout s))) <= length (next_timeout s))%nat).
  { rewrite <- (deadlines_length 0). apply length_filter. }
  pose proof (ok_pool _ Hok) as Hp.
  destruct (check_loop_rearms call now L M _ fuel e s HL HM Hok ltac:(lia) eq_refl Hre eq_refl)
    as (s' & p & E & H); [lia|nia|].
  exists s', p. split; [|exact H]. rewrite <- E. unfold sys_check_timeouts.
  destruct (next_timeout s) eqn:El; [|done]. destruct fuel; cbn [check_loop]; by rewrite El.
Qed.

(** A check 20 milliseconds late for the first timer of the stack: the TCP timer and
    both cyclic ones are due and start themselves again; the timeout of another
    part stays. *)
Lemma sys_check_timeouts_calls_due_witness :
  let s := Timers [Timeo 240 100 0; Timeo 10 101 1; Timeo 0 101 2; Timeo 4000 7 0] 1000 true 6 in
  exists s', sys_check_timeouts (stack_call (fun _ s => Some s) true (fun _ a => 1260 + a)) 4 1260 s =
      Some ([(100, 0); (101, 1); (101, 2)], s') /\
    deadlines (timeouts_last_time s') (next_timeout s') =
      [(1510, (100, 0)); (2261, (101, 1)); (2262, (101, 2)); (5250, (7, 0))].
Proof.
  intros s.
  destruct (sys_check_timeouts_calls_due (stack_call (fun _ s => Some s) true (fun _ a => 1260 + a)) 4 1260 5 1000 s)
    as (s' & p & E & _); [split; [repeat constructor; by vm_compute|by vm_compute|done]|done|done|done| |by vm_compute|].
  { change (due _ _) with [(240, (100, 0)); (250, (101, 1)); (250, (101, 2))].
    rewrite !Forall_cons. repeat split; try apply stack_handlers_rearm; try done; vm_compute; auto. }
  exists s'. split; [rewrite E; vm_compute; reflexivity|]. vm_compute in E. by injection E as <-.
Defined.

(** With handlers that leave the timeouts alone (which those of the stack do not),
    the other deadlines stay where they were and the sleep time after the check is
    the time until the first of them. *)
Theorem sys_check_timeouts_fires call fuel now s :
  (forall f a s, call f a s = Some s) -> timers_ok s -> (length (next_timeout s) <= fuel)%nat ->
  let e := u32 (now - timeouts_last_time s) in
  exists s' p, sys_check_timeouts call fuel now s =
      Some (filter (fun c => c.1 <> 0) (due e (deadlines 0 (next_timeout s))).*2, s') /\
    0 <= p <= e /\ timeouts_last_time s' = u32 (timeouts_last_time s + p) /\
    deadlines p (next_timeout s') = later e (deadlines 0 (next_timeout s)) /\
    sys_timeouts_sleeptime now s' =
      (if later e (deadlines 0 (next_timeout s)) is x :: _ then x.1 - e else 0xffffffff).
Proof.
  intros Hcall Hok Hf e. pose proof Hok as [Ht Hl Hp].
  assert (He : 0 <= e < 2 ^ 32) by apply u32_ok.
  destruct (check_loop_spec call fuel e 0 s Hcall Ht He Hf) as (s' & p & E & Hpe & Hlast & Hd & _).
  rewrite !Z.add_0_l in *. exists s', p.
  assert (Hchk : sys_check_timeouts call fuel now s = check_loop call fuel e s).
  { unfold sys_check_timeouts. destruct (next_timeout s) eqn:El; [|done].
    destruct fuel; cbn [check_loop]; by rewrite El. }
  assert (Hok' : timers_ok s').
  { rewrite <- Hchk in E. apply (sys_check_timeouts_ok call) in E; [done| |done]. intros f a x y Hx. rewrite Hcall. by intros [= <-]. }
  assert (Hlast' : timeouts_last_time s' = u32 (timeouts_last_time s + p)).
  { rewrite <- Hlast. symmetry. apply u32_small, Hok'. }
  rewrite Hchk. split; [done|]. split; [lia|]. split; [done|]. split; [done|].
  rewrite <- Hd. apply (sleeptime_spec now s); [done..|]. intros x Hx. rewrite Hd in Hx.
  unfold later in Hx. apply list_elem_of_filter in Hx as [Hx _]. fold e. lia.
Qed.

Lemma sys_check_timeouts_fires_witness :
  let s := Timers [Timeo 1000 2 0; Timeo 500 0 0; Timeo 0 3 4; Timeo 100 5 0] 0xfffffff0 false 6 in
  exists s', sys_check_timeouts (fun _ _ s => Some s) 4 1500 s = Some ([(2, 0); (3, 4)], s') /\
    length (next_timeout s') = 1%nat.
Proof.
  intros s. destruct (sys_check_timeouts_fires (fun _ _ s => Some s) 4 1500 s) as (s' & p & E & _ & _ & Hd & _);
    [done|split; [repeat constructor; by vm_compute|by vm_compute|done]|done|].
  exists s'. split; [rewrite E; vm_compute; reflexivity|].
  vm_compute in E. by injection E as <-.
Defined.

(** When a check finds the only timeout due, its handler may set another,
    [msecs] from now.  The list is empty then, so [sys_timeout] starts counting
    from now, but the check goes on with the lateness of the first: if that is
    at least [msecs], the new handler is called in the same check although no time
    has passed since it was set, and [timeouts_last_time] ends [msecs] after now. *)
Theorem timeout_set_by_handler_called_at_once call fuel msecs f a now s t :
  timers_ok s -> next_timeout s = [t] -> h t <> 0 -> f <> 0 -> 0 <= msecs < 2 ^ 32 ->
  (forall s', call (h t) (arg t) s' = sys_timeout msecs f a now s') ->
  (forall s', call f a s' = Some s') ->
  time t + msecs <= u32 (now - timeouts_last_time s) ->
  exists s', sys_check_timeouts call (S (S fuel)) now s = Some ([(h t, arg t); (f, a)], s') /\
    next_timeout s' = [] /\ timeouts_last_time s' = u32 (now + msecs).
Proof.
  intros [Ht Hl Hp] El Ht0 Hf0 Hm Hc1 Hc2 He. rewrite El in Ht. apply Forall_cons in Ht as [Ht _].
  unfold timeo_ok, is_u in Ht. pose proof (u32_ok (now - timeouts_last_time s)) as Hu. unfold is_u in Hu.
  unfold sys_check_timeouts. rewrite El. set (e := u32 _) in *.
  cbn [check_loop]. rewrite El, (proj2 (Z.leb_le _ _)) by lia. rewrite (proj2 (Z.eqb_neq _ _)) by done.
  rewrite Hc1. unfold sys_timeout at 1.
  cbn [set_free set_list set_last pool_free next_timeout timeouts_last_time mbind option_bind
       check_loop time h arg].
  rewrite Z.add_0_r, (u32_small msecs), (u32_small (e - time t)) by lia.
  rewrite (proj2 (Z.leb_le _ _)) by lia. rewrite (proj2 (Z.eqb_neq f 0)) by done.
  rewrite Hc2. destruct fuel; cbn; eexists; (split; [done|]; split; [done|]); apply u32_add_l.
Qed.

Lemma timeout_set_by_handler_called_at_once_witness :
  let s := Timers [Timeo 1000 2 0] 0 false 9 in
  exists s', sys_check_timeouts (fun f a s => if f =? 2 then sys_timeout 1500 3 4 5000 s else Some s) 2 5000 s
             = Some ([(2, 0); (3, 4)], s') /\ timeouts_last_time s' = 6500.
Proof.
  intros s.
  destruct (timeout_set_by_handler_called_at_once
              (fun f a s => if f =? 2 then sys_timeout 1500 3 4 5000 s else Some s) 0 1500 3 4 5000 s (Timeo 1000 2 0))
    as (s' & E & _ & Hl); [split; [repeat constructor; by vm_compute|by vm_compute|done]|done|done|done|lia|done|done|by vm_compute|].
  exists s'. split; [exact E|exact Hl].
Defined.
