(* ===== verification/SysArch.v ===== *)
(** * The binding of lwIP to the kernel: [os/various/lwip_bindings/arch/sys_arch.c]

    Semaphores and mailboxes of lwIP are those of the kernel, allocated from its heap,
    which is a parameter here: [p] is what [chHeapAlloc] returns.  A call that may
    sleep is the call of the kernel with the timeout converted; what it returns
    when the thread runs again is computed by [arch_return].  The system time is
    what [chVTGetSystemTimeX] reads. *)

From Stdlib Require Import ZArith Lia.
From stdpp Require Import base gmap list option numbers functions.
From S2P Require Import Prelude ChTime ChSched ChSync ChKernelInv ChKernelOps ChMailbox ChKernel ChKernelProof ChKernelTheorems Timeouts TimeoutsTheorems.
From stdpp Require Import sets list.
Import OptionNotations.

Local Open Scope Z_scope.

(** ** Time *)

(** The branch for a frequency that is a multiple of 1000. *)
Definition sys_now (systime : Z) : Z := u32 (u32 (u32 systime - 1) / (CH_CFG_ST_FREQUENCY / 1000) + 1).

Definition SYS_ARCH_TIMEOUT : Z := 0xffffffff.
Definition SYS_MBOX_EMPTY : Z := SYS_ARCH_TIMEOUT.
Definition SYS_NULL : Z := 0.
Definition ERR_OK : Z := 0.
Definition ERR_MEM : Z := -1.

Definition arch_timeout (timeout : Z) : Z := if 0 <? timeout then TIME_MS2I timeout else TIME_INFINITE.

Definition arch_return (msg start systime : Z) : Z :=
  if negb (msg =? MSG_OK) then SYS_ARCH_TIMEOUT else TIME_I2MS (chTimeDiffX start systime).

(** ** Semaphores *)

Definition sys_sem_new (p count : Z) (k : kernel) : option (Z * Z * kernel) :=
  if p =? 0 then Some (ERR_MEM, p, k)
  else let? k := chSemObjectInit p count k in Some (ERR_OK, p, k).

Definition sys_sem_signal (sem : Z) (k : kernel) : option kernel := chSemSignal sem k.

Definition sys_sem_signal_S (sem : Z) (k : kernel) : option kernel :=
  let? k := chSemSignalI sem k in chSchRescheduleS k.

Definition sys_arch_sem_wait (sem timeout : Z) (k : kernel) : option outcome :=
  chSemWaitTimeoutS sem (arch_timeout timeout) k.

Definition sys_sem_valid (sem : Z) : bool := negb (sem =? SYS_NULL).

(** ** Mailboxes *)

(** The buffer follows the structure. *)
Definition sys_mbox_new (p : Z) (buf : list Z) (k : kernel) : option (Z * Z * kernel) :=
  if p =? 0 then Some (ERR_MEM, p, k)
  else let? k := chMBObjectInit p buf k in Some (ERR_OK, p, k).

(** Up to the release of the memory. *)
Definition sys_mbox_free (mbox0 : Z) (k : kernel) : option (Z * kernel) :=
  if (chMBGetUsedCountI (mbox k mbox0) =? 0)%nat then Some (SYS_NULL, k)
  else let? k := chMBReset mbox0 k in Some (SYS_NULL, k).

Definition sys_mbox_post (mbox msg : Z) (k : kernel) : option outcome := chMBPostTimeoutS mbox msg TIME_INFINITE k.

(** [TIME_IMMEDIATE]: the call does not sleep. *)
Definition sys_mbox_trypost (mbox msg : Z) (k : kernel) : option (Z * kernel) :=
  let? (r, k) := chMBPostTimeoutS mbox msg TIME_IMMEDIATE k in
  let? (m, _) := r in
  Some (if m =? MSG_TIMEOUT then ERR_MEM else ERR_OK, k).

Definition sys_arch_mbox_fetch (mbox timeout : Z) (k : kernel) : option outcome := chMBFetchTimeoutS mbox (arch_timeout timeout) k.

Definition sys_arch_mbox_tryfetch (mbox : Z) (k : kernel) : option (Z * Z * kernel) :=
  let? (r, k) := chMBFetchTimeoutS mbox TIME_IMMEDIATE k in
  let? (m, v) := r in
  Some (if m =? MSG_TIMEOUT then SYS_MBOX_EMPTY else 0, v, k).

Definition sys_mbox_valid (mbox : Z) : bool := negb (mbox =? SYS_NULL).

(** ** Time of lwIP *)

Lemma sys_now_small t : 1 <= t < 2 ^ 32 -> sys_now t = (t - 1) / 10 + 1.
Proof.
  intros Ht. unfold sys_now, CH_CFG_ST_FREQUENCY. rewrite (u32_small t) by lia. rewrite (u32_small (t - 1)) by lia.
  change (10000 / 1000) with 10. apply u32_small. Z.div_mod_to_equations. lia.
Qed.

(** Between two wrap-arounds of the tick counter the milliseconds of lwIP are a tenth
    of the ticks. *)
Theorem sys_now_counts t ms : 1 <= t -> 0 <= ms -> t + 10 * ms < 2 ^ 32 -> u32 (sys_now (t + 10 * ms) - sys_now t) = ms.
Proof.
  intros Ht Hms Hlt. rewrite !sys_now_small by lia. replace (t + 10 * ms - 1) with (t - 1 + ms * 10) by lia. rewrite Z.div_add by lia.
  replace (_ - _) with ms by lia. apply u32_small. lia.
Qed.

Lemma sys_now_counts_witness : u32 (sys_now (12345 + 10 * 250) - sys_now 12345) = 250.
Proof. apply sys_now_counts; lia. Defined.

Lemma due_all d acc l : Forall timeo_ok l -> acc + span l <= d -> due d (deadlines acc l) = deadlines acc l.
Proof.
  intros Hl Hd. unfold due. assert (H : forall x, x ∈ deadlines acc l -> x.1 <= d) by (intros x Hx%timeouts_range; [lia|done]).
  induction (deadlines acc l) as [|x l' IH]; [done|]. rewrite filter_cons, decide_True by (apply H; by left). f_equal. apply IH.
  intros y Hy. apply H. by right.
Qed.

(** When the tick counter wraps around, after five days, [sys_now] goes back from
    429496730 to 1 within a tick.  The timeouts of lwIP take the difference for 44 days:
    the next check calls every timeout that is set, although none may be due. *)
Theorem tick_wrap_fires_all_timeouts call fuel s :
  (forall f a s, call f a s = Some s) -> timers_ok s -> timeouts_last_time s = sys_now (2 ^ 32 - 1) ->
  span (next_timeout s) < 3865470567 -> (length (next_timeout s) <= fuel)%nat ->
  chTimeDiffX (2 ^ 32 - 1) 1 = 2 /\
  exists s', sys_check_timeouts call fuel (sys_now 1) s = Some (filter (fun c => c.1 <> 0) (deadlines 0 (next_timeout s)).*2, s').
Proof.
  intros Hcall [Ht Hl Hp] El Hsp Hf. split; [done|]. assert (Ed : u32 (sys_now 1 - timeouts_last_time s) = 3865470567) by (rewrite El; reflexivity).
  destruct (check_loop_spec call fuel 3865470567 0 s Hcall Ht ltac:(lia) Hf) as (s' & p & E & _). rewrite Z.add_0_l, due_all in E by (done || lia).
  exists s'. rewrite <- E. unfold sys_check_timeouts. rewrite Ed. destruct (next_timeout s) eqn:En; [|done]. destruct fuel; cbn [check_loop]; by rewrite En.
Qed.

Lemma tick_wrap_fires_all_timeouts_witness :
  let s := Timers [Timeo 250 100 0; Timeo 750 101 1; Timeo 0 101 2] 429496730 true 7 in
  exists s', sys_check_timeouts (fun _ _ s => Some s) 3 (sys_now 1) s = Some ([(100, 0); (101, 1); (101, 2)], s').
Proof.
  intros s. destruct (tick_wrap_fires_all_timeouts (fun _ _ s => Some s) 3 s) as (_ & s' & E);
    [done|split; [repeat constructor; by vm_compute|by vm_compute|done]|done|cbn; lia|done|].
  exists s'. exact E.
Defined.

(** ** Posting without waiting *)

Section trypost.
Context (idle : Z).

(** [sys_mbox_trypost] never sleeps: when there is room it appends the message, wakes a
    thread that waits for one and returns [ERR_OK]; when the mailbox is full it changes
    nothing and returns [ERR_MEM]. *)
Theorem sys_mbox_trypost_result w m msg : world_reach idle w -> m ∈ boxes w ->
  let mb := mbox (kern w) m in
  if (mb_cnt mb <? length (buffer mb))%nat then
    exists k', sys_mbox_trypost m msg (kern w) = Some (ERR_OK, k') /\ mb_contents (mbox k' m) = mb_contents mb ++ [msg] /\
      (forall a, a <> m -> mbox k' a = mbox (kern w) a) /\ sem_cnt k' = sem_cnt (kern w) /\ cont k' = cont (kern w)
  else sys_mbox_trypost m msg (kern w) = Some (ERR_MEM, kern w).
Proof.
  intros (Q & [Hb Ha] & _)%reach_good Hm mb. destruct (bk_box _ _ _ _ _ Ha m Hm) as (Hwf & Hrst & _). fold mb in Hwf, Hrst.
  unfold sys_mbox_trypost, chMBPostTimeoutS, chMBGetFreeCountI, chMBGetSizeI, chMBGetUsedCountI. fold mb. rewrite Hrst.
  destruct (Nat.ltb_spec (mb_cnt mb) (length (buffer mb))) as [Hlt|Hge].
  - rewrite (proj2 (Nat.ltb_lt _ _)) by lia. destruct (mb_put_ok msg mb Hwf Hlt) as (mb' & -> & _ & Hco & _). cbn [mbind option_bind].
    destruct (wb_boxes _ _ _ Hb m Hm) as (lw & lr & _ & Hlr). set (k0 := set_mbox m mb' (kern w)).
    assert (Hk0 : kinv (Some (currp (kern w))) [] Q k0) by (apply (kinv_rest _ _ _ (kern w)); [apply Hb|done..]).
    assert (exists k1 Q1, chThdDequeueNextI (qr m) MSG_OK k0 = Some k1 /\ kinv (Some (currp (kern w))) [] Q1 k1 /\ mbox k1 = mbox k0 /\ sem_cnt k1 = sem_cnt k0 /\ cont k1 = cont k0)
      as (k1 & Q1 & -> & Hk1 & Em1 & En1 & Ec1).
    { pose proof (dequeueNext_ok Q k0 _ (qr m) lr MSG_OK Hk0 Hlr) as Hd. destruct lr as [|t l]; [by exists k0, Q|].
      destruct Hd as (R' & k1 & E & (_ & _ & (_ & E1 & E2 & _ & E3) & _) & _ & Hk1). by exists k1, (<[RLIST := (QReady, R')]> (<[qr m := (QWait, l)]> Q)). }
    cbn [mbind option_bind]. destruct (reschedule_ok Q1 k1 _ Hk1) as (R' & k' & -> & (_ & _ & (_ & E1 & E2 & _ & E3) & _) & _). cbn [mbind option_bind returns].
    exists k'. split; [done|]. rewrite E2, Em1, E1, En1, E3, Ec1. cbn [k0 set_mbox mbox sem_cnt cont]. rewrite fn_lookup_insert. split; [done|]. split; [|done].
    intros a Hne. by rewrite fn_lookup_insert_ne by auto.
  - rewrite (proj2 (Nat.ltb_ge _ _)) by lia. unfold mb_sleep, chThdEnqueueTimeoutS. done.
Qed.
End trypost.

Lemma sys_mbox_trypost_result_witness :
  exists k', sys_mbox_trypost 200 42 (kern run_box) = Some (ERR_OK, k') /\ mb_contents (mbox k' 200) = [42].
Proof.
  destruct (sys_mbox_trypost_result 3 run_box 200 42 run_box_reach) as (k' & E & H & _); [apply (bool_decide_unpack _); by vm_compute|].
  exists k'. split; [exact E|]. rewrite H. reflexivity.
Defined.
