(* ===== verification/LwipDef.v ===== *)
(** * Common functions of lwIP: [core/def.c]

    Byte order conversion, and the string functions lwIP brings along: strings are
    read from byte memory through pointers, [char] is unsigned on this target. *)

From Stdlib Require Import ZArith Lia.
From stdpp Require Import base gmap list numbers.
From S2P Require Import Prelude.
Import OptionNotations.

Local Open Scope Z_scope.

(** ** Byte order; the target is little-endian *)

Definition PP_HTONS (x : Z) : Z := Z.lor (Z.shiftl (Z.land x 0xff) 8) (Z.shiftr (Z.land x 0xff00) 8).

Definition PP_HTONL (x : Z) : Z :=
  Z.lor (Z.lor (Z.lor (Z.shiftl (Z.land x 0x000000ff) 24) (Z.shiftl (Z.land x 0x0000ff00) 8))
               (Z.shiftr (Z.land x 0x00ff0000) 8))
        (Z.shiftr (Z.land x 0xff000000) 24).

Definition lwip_htons (n : Z) : Z := u16 (PP_HTONS n).
Definition lwip_htonl (n : Z) : Z := u32 (PP_HTONL n).

(** ** Strings *)

(** [strlen] and [strncmp] of the C library; [strncmp] up to the sign. *)
Fixpoint c_strlen (fuel : nat) (m : gmap Z Z) (s : Z) : option Z :=
  match fuel with
  | O => None
  | S fuel =>
      let? c := m !! s in
      if c =? 0 then Some 0 else let? n := c_strlen fuel m (s + 1) in Some (n + 1)
  end.

Fixpoint c_strncmp (n : nat) (m : gmap Z Z) (s1 s2 : Z) : option Z :=
  match n with
  | O => Some 0
  | S n =>
      let? c1 := m !! s1 in
      let? c2 := m !! s2 in
      if negb (c1 =? c2) then Some (c1 - c2)
      else if c1 =? 0 then Some 0 else c_strncmp n m (s1 + 1) (s2 + 1)
  end.

(** A terminated string is shorter than the memory it is in. *)
Definition str_fuel (m : gmap Z Z) : nat := S (size m).

Fixpoint strnstr_loop (fuel : nat) (m : gmap Z Z) (buffer token tokenlen n p : Z) : option Z :=
  match fuel with
  | O => None
  | S fuel =>
      let? c := m !! p in
      if negb (c =? 0) && (p + tokenlen <=? buffer + n) then
        let? t := m !! token in
        if c =? t then
          let? d := c_strncmp (Z.to_nat tokenlen) m p token in
          if d =? 0 then Some p else strnstr_loop fuel m buffer token tokenlen n (p + 1)
        else strnstr_loop fuel m buffer token tokenlen n (p + 1)
      else Some 0
  end.

Definition lwip_strnstr (buffer token n : Z) (m : gmap Z Z) : option Z :=
  let? tokenlen := c_strlen (str_fuel m) m token in
  if tokenlen =? 0 then Some buffer
  else strnstr_loop (str_fuel m) m buffer token tokenlen n buffer.

(** Whether the comparison goes on behind the two characters. *)
Definition same_letter (c1 c2 : Z) : bool :=
  if negb (c1 =? c2) then
    let c1_upc := Z.lor c1 0x20 in
    if (97 <=? c1_upc) && (c1_upc <=? 122) then
      let c2_upc := Z.lor c2 0x20 in
      negb (negb (c1_upc =? c2_upc))
    else false
  else true.

Fixpoint stricmp_loop (fuel : nat) (m : gmap Z Z) (str1 str2 : Z) : option Z :=
  match fuel with
  | O => None
  | S fuel =>
      let? c1 := m !! str1 in
      let? c2 := m !! str2 in
      if negb (same_letter c1 c2) then Some 1
      else if negb (c1 =? 0) then stricmp_loop fuel m (str1 + 1) (str2 + 1)
      else Some 0
  end.

Definition lwip_stricmp (str1 str2 : Z) (m : gmap Z Z) : option Z := stricmp_loop (str_fuel m) m str1 str2.

(** [len] is a [size_t]: the decrement of 0 wraps, but ends the loop first. *)
Fixpoint strnicmp_loop (fuel : nat) (m : gmap Z Z) (str1 str2 len : Z) : option Z :=
  match fuel with
  | O => None
  | S fuel =>
      let? c1 := m !! str1 in
      let? c2 := m !! str2 in
      if negb (same_letter c1 c2) then Some 1
      else if negb (len =? 0) && negb (c1 =? 0) then strnicmp_loop fuel m (str1 + 1) (str2 + 1) (u32 (len - 1))
      else Some 0
  end.

Definition lwip_strnicmp (str1 str2 len : Z) (m : gmap Z Z) : option Z :=
  strnicmp_loop (str_fuel m) m str1 str2 len.

(** ** Numbers *)

(** The table of digits: index 35 is the digit 0, to both sides of it the other
    decimal digits, then the letters. *)
Definition digit_table (i : Z) : Z :=
  let d := Z.abs (i - 35) in if d <? 10 then 48 + d else 87 + d.

Fixpoint itoa_digits (fuel : nat) (ptr number : Z) (m : gmap Z Z) : option (Z * Z * gmap Z Z) :=
  match fuel with
  | O => None
  | S fuel =>
      let tmp_value := number in
      let number := Z.quot number 10 in
      let? m := store m ptr [digit_table (35 + (tmp_value - number * 10))] in
      if negb (number =? 0) then itoa_digits fuel (ptr + 1) number m
      else Some (tmp_value, ptr + 1, m)
  end.

Fixpoint itoa_reverse (fuel : nat) (ptr1 ptr : Z) (m : gmap Z Z) : option (gmap Z Z) :=
  if ptr1 <? ptr then
    match fuel with
    | O => None
    | S fuel =>
        let? tmp_char := m !! ptr in
        let? c := m !! ptr1 in
        let? m := store m ptr [c] in
        let? m := store m ptr1 [tmp_char] in
        itoa_reverse fuel (ptr1 + 1) (ptr - 1) m
    end
  else Some m.

(** An [int] has at most ten digits. *)
Definition lwip_itoa (result number : Z) (m : gmap Z Z) : option (gmap Z Z) :=
  let? (tmp_value, ptr, m) := itoa_digits 10 result number m in
  let? (ptr, m) :=
    (if tmp_value <? 0 then let? m := store m ptr [45] in Some (ptr + 1, m) else Some (ptr, m)) in
  let? m := store m ptr [0] in
  itoa_reverse 10 result (ptr - 1) m.

(** ** Values of the byte order conversions *)

Lemma lor_shiftl a b k : 0 <= k -> 0 <= b < 2 ^ k -> Z.lor (Z.shiftl a k) b = a * 2 ^ k + b.
Proof.
  intros Hk Hb. assert (Hl : Z.land (Z.shiftl a k) b = 0).
  { apply Z.bits_inj'. intros n Hn. rewrite Z.land_spec, Z.bits_0. destruct (Z.ltb_spec n k).
    - by rewrite Z.shiftl_spec_low.
    - rewrite <- (Z.mod_small b (2 ^ k)) by lia.
      by rewrite Z.mod_pow2_bits_high, andb_false_r by lia. }
  rewrite <- Z.lxor_lor, <- Z.add_nocarry_lxor by done. by rewrite Z.shiftl_mul_pow2.
Qed.

Lemma land_byte x : Z.land x 0xff = x mod 256.
Proof. change 0xff with (Z.ones 8). by rewrite Z.land_ones. Qed.

(** One byte of a word, cut out in place. *)
Lemma shiftr_byte x k : 0 <= k -> Z.shiftr (Z.land x (Z.shiftl 0xff k)) k = x / 2 ^ k mod 256.
Proof.
  intros Hk. rewrite Z.shiftr_land, Z.shiftr_shiftl_l, Z.sub_diag, Z.shiftl_0_r, Z.shiftr_div_pow2 by lia.
  apply land_byte.
Qed.

Lemma htons_value x : 0 <= x < 65536 -> PP_HTONS x = 256 * (x mod 256) + x / 256.
Proof.
  intros Hx. unfold PP_HTONS. change 0xff00 with (Z.shiftl 0xff 8).
  pose proof (Z.div_lt_upper_bound x 256 256 ltac:(lia) ltac:(lia)). pose proof (Z.div_pos x 256 ltac:(lia) ltac:(lia)).
  rewrite shiftr_byte, land_byte by lia. change (2 ^ 8) with 256. rewrite (Z.mod_small (x / 256)) by lia.
  rewrite lor_shiftl by lia. lia.
Qed.

Lemma lwip_htons_value x : 0 <= x < 65536 -> lwip_htons x = 256 * (x mod 256) + x / 256.
Proof.
  intros Hx. unfold lwip_htons. rewrite htons_value by done. apply u16_small.
  pose proof (Z.div_lt_upper_bound x 256 256 ltac:(lia) ltac:(lia)). pose proof (Z.div_pos x 256 ltac:(lia) ltac:(lia)).
  pose proof (Z.mod_pos_bound x 256 ltac:(lia)). lia.
Qed.

(** A byte of a word in its place. *)
Lemma land_byte_at x k : 0 <= k -> Z.land x (Z.shiftl 0xff k) = Z.shiftl (x / 2 ^ k mod 256) k.
Proof.
  intros Hk. rewrite <- land_byte, <- Z.shiftr_div_pow2 by lia. apply Z.bits_inj'. intros n Hn.
  rewrite Z.land_spec. destruct (Z.ltb_spec n k).
  - by rewrite !Z.shiftl_spec_low, andb_false_r by lia.
  - rewrite !Z.shiftl_spec, Z.land_spec, Z.shiftr_spec by lia. by rewrite Z.sub_add.
Qed.

Lemma htonl_value x : 0 <= x ->
  PP_HTONL x = x mod 256 * 2 ^ 24 + x / 2 ^ 8 mod 256 * 2 ^ 16 + x / 2 ^ 16 mod 256 * 2 ^ 8 + x / 2 ^ 24 mod 256.
Proof.
  intros Hx. unfold PP_HTONL. change 0x0000ff00 with (Z.shiftl 0xff 8). change 0x00ff0000 with (Z.shiftl 0xff 16).
  change 0xff000000 with (Z.shiftl 0xff 24). rewrite land_byte, !land_byte_at by lia.
  assert (Hb : forall y, 0 <= y mod 256 < 256) by (intros; apply Z.mod_pos_bound; lia).
  pose proof (Hb x). pose proof (Hb (x / 2 ^ 8)). pose proof (Hb (x / 2 ^ 16)). pose proof (Hb (x / 2 ^ 24)).
  rewrite (Z.shiftr_shiftl_l _ 16 8), (Z.shiftr_shiftl_l _ 24 24), (Z.shiftl_shiftl _ 8 8), Z.shiftl_0_r by lia.
  change (16 - 8) with 8. change (8 + 8) with 16.
  rewrite (lor_shiftl _ (Z.shiftl _ 16) 24) by (rewrite ?Z.shiftl_mul_pow2; lia). rewrite Z.shiftl_mul_pow2 by lia.
  replace (x mod 256 * 2 ^ 24 + x / 2 ^ 8 mod 256 * 2 ^ 16)
    with (Z.shiftl (x mod 256 * 256 + x / 2 ^ 8 mod 256) 16) by (rewrite Z.shiftl_mul_pow2 by lia; lia).
  rewrite (lor_shiftl _ (Z.shiftl _ 8) 16) by (rewrite ?Z.shiftl_mul_pow2; lia). rewrite (Z.shiftl_mul_pow2 (x / 2 ^ 16 mod 256)) by lia.
  rewrite Z.shiftl_mul_pow2 by lia.
  replace ((x mod 256 * 256 + x / 2 ^ 8 mod 256) * 2 ^ 16 + x / 2 ^ 16 mod 256 * 2 ^ 8)
    with (Z.shiftl (x mod 256 * 65536 + x / 2 ^ 8 mod 256 * 256 + x / 2 ^ 16 mod 256) 8) by (rewrite Z.shiftl_mul_pow2 by lia; lia).
  rewrite lor_shiftl by lia. by rewrite Z.shiftl_mul_pow2 by lia.
Qed.

(** From the bytes in network order. *)
Lemma lwip_htonl_be a b c d : is_byte a -> is_byte b -> is_byte c -> is_byte d ->
  lwip_htonl (of_be [a; b; c; d]) = of_le [a; b; c; d].
Proof.
  intros Ha Hb Hc Hd. unfold is_byte in *. unfold lwip_htonl, of_be. cbn [rev app of_le].
  set (x := d + _). assert (Ex : x = d + 256 * (c + 256 * (b + 256 * a))) by (unfold x; lia).
  rewrite htonl_value by lia.
  assert (x mod 256 = d) as -> by (symmetry; apply (Z.mod_unique_pos _ _ (c + 256 * (b + 256 * a))); lia).
  assert (x / 2 ^ 8 = c + 256 * (b + 256 * a)) as -> by (symmetry; apply (Z.div_unique_pos _ _ _ d); lia).
  assert (x / 2 ^ 16 = b + 256 * a) as -> by (symmetry; apply (Z.div_unique_pos _ _ _ (d + 256 * c)); lia).
  assert (x / 2 ^ 24 = a) as -> by (symmetry; apply (Z.div_unique_pos _ _ _ (d + 256 * (c + 256 * b))); lia).
  assert ((c + 256 * (b + 256 * a)) mod 256 = c) as -> by (symmetry; apply (Z.mod_unique_pos _ _ (b + 256 * a)); lia).
  assert ((b + 256 * a) mod 256 = b) as -> by (symmetry; apply (Z.mod_unique_pos _ _ a); lia).
  rewrite Z.mod_small by lia. rewrite u32_small; lia.
Qed.
