(* ===== verification/LwipDefTheorems.v ===== *)
(** * What lwIP's string functions compute

    Comparison without regard to case, search, and decimal conversion, over
    terminated strings in memory. *)

From Stdlib Require Import ZArith Lia.
From stdpp Require Import base gmap list numbers.
From S2P Require Import Prelude LwipDef.
From stdpp Require Import sets list.
Import OptionNotations.

Local Open Scope Z_scope.

(** A terminated string. *)
Record cstring (m : gmap Z Z) (p : Z) (s : list Z) : Prop := {
  cs_load : load m p (S (length s)) = Some (s ++ [0]);
  cs_bytes : Forall (fun c => 0 < c < 256) s
}.

Lemma cstring_nil m p : cstring m p [] -> m !! p = Some 0.
Proof. intros [H _]. by apply load_cons in H as [H _]. Qed.

Lemma cstring_cons m p c s : cstring m p (c :: s) -> m !! p = Some c /\ 0 < c < 256 /\ cstring m (p + 1) s.
Proof.
  intros [H Hb]. apply Forall_cons in Hb as [Hc Hb]. cbn [app length] in H. apply load_cons in H as [H1 H2]. done.
Qed.

Lemma cstring_fuel m p s : cstring m p s -> (length s < str_fuel m)%nat.
Proof. intros [H _]. apply load_size in H. unfold str_fuel. lia. Qed.

(** ** Comparison *)

Definition lower (c : Z) : Z := if (65 <=? c) && (c <=? 90) then c + 32 else c.

Definition same_letter_fine (c1 : Z) : bool :=
  forallb (fun c2 => Bool.eqb (same_letter c1 c2) (lower c1 =? lower c2)) (seqZ 0 256).

Lemma all_same_letter : forallb same_letter_fine (seqZ 0 256) = true.
Proof. vm_compute. reflexivity. Qed.

Lemma same_letter_spec c1 c2 : is_byte c1 -> is_byte c2 -> same_letter c1 c2 = (lower c1 =? lower c2).
Proof.
  intros H1 H2. pose proof all_same_letter as H. rewrite forallb_forall in H. unfold is_byte in *.
  specialize (H c1 ltac:(apply list_elem_of_In, elem_of_seqZ; lia)). unfold same_letter_fine in H. rewrite forallb_forall in H.
  specialize (H c2 ltac:(apply list_elem_of_In, elem_of_seqZ; lia)). by apply Bool.eqb_prop in H.
Qed.

(** The number of characters that are compared at most: all of them, or the given
    one and one more. *)
Lemma strnicmp_loop_spec m s1 : forall s2 p1 p2 fuel n,
  cstring m p1 s1 -> cstring m p2 s2 -> (length s1 < fuel)%nat -> is_u 32 n ->
  strnicmp_loop fuel m p1 p2 n =
  Some (if decide (lower <$> take (S (Z.to_nat n)) (s1 ++ [0]) = lower <$> take (S (Z.to_nat n)) (s2 ++ [0])) then 0 else 1).
Proof.
  induction s1 as [|c1 s1 IH]; intros s2 p1 p2 fuel n H1 H2 Hf Hn; (destruct fuel as [|fuel]; [cbn in Hf; lia|]);
    cbn [strnicmp_loop]; unfold is_u in Hn.
  - rewrite (cstring_nil _ _ H1). cbn [mbind option_bind app]. destruct s2 as [|c2 s2].
    + rewrite (cstring_nil _ _ H2). cbn [mbind option_bind app]. cbn -[take]. rewrite andb_false_r. by rewrite decide_True.
    + destruct (cstring_cons _ _ _ _ H2) as (-> & Hc & _). cbn [mbind option_bind app take].
      rewrite same_letter_spec by (unfold is_byte; lia). rewrite (proj2 (Z.eqb_neq _ _)).
      * cbn [negb]. rewrite decide_False; [done|]. rewrite !fmap_cons. intros [= E _]. revert E. unfold lower. repeat case_match; lia.
      * unfold lower. repeat case_match; lia.
  - destruct (cstring_cons _ _ _ _ H1) as (-> & Hc1 & H1'). cbn [mbind option_bind app take length] in *.
    destruct s2 as [|c2 s2].
    + rewrite (cstring_nil _ _ H2). cbn [mbind option_bind app take]. rewrite same_letter_spec by (unfold is_byte; lia).
      rewrite (proj2 (Z.eqb_neq _ _)).
      * cbn [negb]. rewrite decide_False; [done|]. rewrite !fmap_cons. intros [= E _]. revert E. unfold lower. repeat case_match; lia.
      * unfold lower. repeat case_match; lia.
    + destruct (cstring_cons _ _ _ _ H2) as (-> & Hc2 & H2'). cbn [mbind option_bind app take].
      rewrite same_letter_spec by (unfold is_byte; lia). rewrite !fmap_cons.
      destruct (Z.eqb_spec (lower c1) (lower c2)) as [E|E]; cbn [negb]; [|rewrite decide_False by (by intros [= ? _]); done].
      rewrite (proj2 (Z.eqb_neq c1 0)) by lia. destruct (Z.eqb_spec n 0) as [-> |Hn0]; cbn [negb andb].
      * rewrite decide_True; [done|]. cbn. by rewrite E.
      * rewrite (IH s2) by (try done; try lia; unfold is_u; rewrite u32_small; lia). rewrite u32_small by lia.
        replace (Z.to_nat n) with (S (Z.to_nat (n - 1))) by lia. f_equal. apply decide_ext. rewrite E.
        split; [by intros ->|by intros [= ?]].
Qed.

(** [lwip_strnicmp] compares one character more than its argument says: the
    result is 0 exactly when the first [len + 1] characters agree up to case. *)
Theorem lwip_strnicmp_one_more m p1 p2 s1 s2 n :
  cstring m p1 s1 -> cstring m p2 s2 -> is_u 32 n ->
  lwip_strnicmp p1 p2 n m =
  Some (if decide (lower <$> take (S (Z.to_nat n)) (s1 ++ [0]) = lower <$> take (S (Z.to_nat n)) (s2 ++ [0])) then 0 else 1).
Proof. intros H1 H2 Hn. by apply strnicmp_loop_spec; [..|eapply cstring_fuel|]. Qed.

Lemma lwip_strnicmp_one_more_witness :
  let m := write (write ∅ 10 [97; 98; 0]) 20 [65; 99; 0] in
  lower <$> take 1 [97; 98] = lower <$> take 1 [65; 99] /\ lwip_strnicmp 10 20 1 m = Some 1.
Proof.
  intros m. split; [reflexivity|].
  rewrite (lwip_strnicmp_one_more m 10 20 [97; 98] [65; 99]); [by vm_compute| | |by vm_compute];
    (split; [vm_compute; reflexivity|repeat (apply Forall_cons; split; [by vm_compute|]); done]).
Defined.

Lemma lower_zero c : 0 < c < 256 -> lower c <> lower 0.
Proof. intros Hc. unfold lower. repeat case_match; lia. Qed.

Lemma stricmp_loop_spec m s1 : forall s2 p1 p2 fuel,
  cstring m p1 s1 -> cstring m p2 s2 -> (length s1 < fuel)%nat ->
  stricmp_loop fuel m p1 p2 = Some (if decide (lower <$> s1 = lower <$> s2) then 0 else 1).
Proof.
  induction s1 as [|c1 s1 IH]; intros s2 p1 p2 fuel H1 H2 Hf; (destruct fuel as [|fuel]; [cbn in Hf; lia|]);
    cbn [stricmp_loop].
  - rewrite (cstring_nil _ _ H1). cbn [mbind option_bind]. destruct s2 as [|c2 s2].
    + rewrite (cstring_nil _ _ H2). by rewrite decide_True.
    + destruct (cstring_cons _ _ _ _ H2) as (-> & Hc & _). cbn [mbind option_bind].
      rewrite same_letter_spec by (unfold is_byte; lia).
      rewrite (proj2 (Z.eqb_neq _ _)) by (by apply not_eq_sym, lower_zero). cbn [negb]. by rewrite decide_False.
  - destruct (cstring_cons _ _ _ _ H1) as (-> & Hc1 & H1'). cbn [mbind option_bind length] in *. destruct s2 as [|c2 s2].
    + rewrite (cstring_nil _ _ H2). cbn [mbind option_bind]. rewrite same_letter_spec by (unfold is_byte; lia).
      rewrite (proj2 (Z.eqb_neq _ _)) by (by apply lower_zero). cbn [negb]. by rewrite decide_False.
    + destruct (cstring_cons _ _ _ _ H2) as (-> & Hc2 & H2'). cbn [mbind option_bind].
      rewrite same_letter_spec by (unfold is_byte; lia). rewrite !fmap_cons.
      destruct (Z.eqb_spec (lower c1) (lower c2)) as [E|E]; cbn [negb]; [|rewrite decide_False by (by intros [= ? _]); done].
      rewrite (proj2 (Z.eqb_neq c1 0)) by lia. cbn [negb]. rewrite (IH s2) by (done || lia). f_equal.
      apply decide_ext. rewrite E. split; [by intros ->|by intros [= ?]].
Qed.

(** [lwip_stricmp] is equality of strings up to case. *)
Lemma lwip_stricmp_spec m p1 p2 s1 s2 :
  cstring m p1 s1 -> cstring m p2 s2 ->
  lwip_stricmp p1 p2 m = Some (if decide (lower <$> s1 = lower <$> s2) then 0 else 1).
Proof. intros H1 H2. by apply stricmp_loop_spec; [..|eapply cstring_fuel]. Qed.

(** ** Decimal conversion *)

Definition value (ds : list Z) : Z := foldl (fun v c => v * 10 + (c - 48)) 0 ds.

Lemma value_snoc ds c : value (ds ++ [c]) = value ds * 10 + (c - 48).
Proof. unfold value. by rewrite foldl_app. Qed.

(** The digits of a number, the lowest first. *)
Fixpoint rdigits (fuel : nat) (n : Z) : list Z :=
  match fuel with
  | O => []
  | S fuel => 48 + Z.abs (Z.rem n 10) :: if Z.quot n 10 =? 0 then [] else rdigits fuel (Z.quot n 10)
  end.

Lemma quot_abs n : Z.abs n = Z.abs (Z.quot n 10) * 10 + Z.abs (Z.rem n 10).
Proof.
  rewrite <- (Z.quot_abs n 10), <- (Z.rem_abs n 10) by lia.
  pose proof (Z.quot_rem (Z.abs n) (Z.abs 10) ltac:(lia)). lia.
Qed.

Lemma rem_digit n : 0 <= Z.abs (Z.rem n 10) < 10.
Proof. rewrite <- (Z.rem_abs n 10) by lia. apply Z.rem_bound_pos; lia. Qed.

Lemma rdigits_value fuel n : Z.abs n < 10 ^ Z.of_nat fuel -> value (rev (rdigits fuel n)) = Z.abs n.
Proof.
  revert n. induction fuel as [|fuel IH]; intros n Hn; [cbn in *; lia|]. cbn [rdigits rev]. rewrite value_snoc.
  pose proof (quot_abs n). pose proof (rem_digit n). rewrite Nat2Z.inj_succ, Z.pow_succ_r in Hn by lia.
  destruct (Z.eqb_spec (Z.quot n 10) 0) as [E|E]; [rewrite E in *; cbn; lia|]. rewrite IH; lia.
Qed.

Lemma rdigits_length fuel n : (length (rdigits fuel n) <= fuel)%nat.
Proof. revert n. induction fuel as [|fuel IH]; intros n; cbn [rdigits length]; [done|]. destruct (_ =? _); cbn; [lia|]. specialize (IH (Z.quot n 10)). lia. Qed.

Lemma itoa_digits_spec fuel ptr n m :
  Z.abs n < 10 ^ Z.of_nat fuel -> (0 < fuel)%nat -> allocated m ptr (Z.of_nat fuel) ->
  exists t, itoa_digits fuel ptr n m =
      Some (t, ptr + Z.of_nat (length (rdigits fuel n)), write m ptr (rdigits fuel n)) /\ (t < 0 <-> n < 0).
Proof.
  revert ptr n m. induction fuel as [|fuel IH]; intros ptr n m Hn Hf Hal; [lia|]. cbn [itoa_digits rdigits].
  rewrite store_allocated by (eapply allocated_sub; [done|cbn; lia..]). cbn [mbind option_bind].
  assert (Ed : digit_table (35 + (n - Z.quot n 10 * 10)) = 48 + Z.abs (Z.rem n 10)).
  { unfold digit_table. pose proof (Z.quot_rem n 10 ltac:(lia)). pose proof (rem_digit n).
    replace (35 + (n - Z.quot n 10 * 10) - 35) with (Z.rem n 10) by lia. by rewrite (proj2 (Z.ltb_lt _ 10)) by lia. }
  rewrite Ed. pose proof (quot_abs n). pose proof (rem_digit n).
  destruct (Z.eqb_spec (Z.quot n 10) 0) as [E|E]; cbn [negb].
  - exists n. split; [done|done].
  - rewrite Nat2Z.inj_succ, Z.pow_succ_r in Hn by lia.
    destruct fuel as [|fuel]; [cbn in Hn; lia|].
    destruct (IH (ptr + 1) (Z.quot n 10) (write m ptr [48 + Z.abs (Z.rem n 10)])) as (t & Et & Ht);
      [lia|lia|apply allocated_write; eapply allocated_sub; [done|lia..]|].
    exists t. rewrite Et. cbn [length write]. split; [f_equal; f_equal; f_equal; lia|]. rewrite Ht.
    pose proof (Z.quot_opp_l n 10 ltac:(lia)). destruct (Z.lt_ge_cases n 0).
    + pose proof (Z.quot_pos (- n) 10 ltac:(lia) ltac:(lia)). lia.
    + pose proof (Z.quot_pos n 10 ltac:(lia) ltac:(lia)). lia.
Qed.

Lemma itoa_reverse_spec fuel : forall ptr1 ptr l m,
  load m ptr1 (length l) = Some l -> ptr = ptr1 + Z.of_nat (length l) - 1 -> (length l <= 2 * fuel + 1)%nat ->
  exists m', itoa_reverse fuel ptr1 ptr m = Some m' /\ load m' ptr1 (length l) = Some (rev l) /\
    forall i, i < ptr1 \/ ptr1 + Z.of_nat (length l) <= i -> m' !! i = m !! i.
Proof.
  induction fuel as [|fuel IH]; intros ptr1 ptr l m Hl -> Hlen.
  - destruct l as [|x [|]]; cbn [length] in *; [..|lia]; cbn [itoa_reverse];
      (rewrite (proj2 (Z.ltb_ge _ _)) by lia); by exists m.
  - destruct l as [|x l]; [cbn; rewrite (proj2 (Z.ltb_ge _ _)) by lia; by exists m|].
    destruct l as [|z l] using rev_ind; [cbn; rewrite (proj2 (Z.ltb_ge _ _)) by lia; by exists m|]. clear IHl.
    cbn [length] in *. rewrite length_app in *. cbn [length] in *. set (n := length l) in *.
    cbn [itoa_reverse]. rewrite (proj2 (Z.ltb_lt _ _)) by lia.
    assert (Hall : allocated m ptr1 (Z.of_nat (S (n + 1)))).
    { intros i Hi. apply load_Some in Hl as [Hn Hl]. cbn [length] in Hn.
      destruct (lookup_lt_is_Some_2 (x :: l ++ [z]) (Z.to_nat (i - ptr1))) as [b Hb]; [cbn [length]; lia|].
      exists b. rewrite <- (Hl _ _ Hb). f_equal. lia. }
    pose proof Hl as Hl0. apply load_cons in Hl0 as [Hx Hl0]. apply (load_app m _ n 1 l [z] eq_refl eq_refl) in Hl0 as [Hm Hz].
    apply load_cons in Hz as [Hz _].
    replace (ptr1 + Z.of_nat (S (n + 1)) - 1) with (ptr1 + 1 + Z.of_nat n) by lia. rewrite Hz. cbn [mbind option_bind].
    rewrite Hx. cbn [mbind option_bind].
    rewrite store_allocated by (eapply allocated_sub; [done|cbn [length]; lia..]). cbn [mbind option_bind].
    rewrite store_allocated by (apply allocated_write; eapply allocated_sub; [done|cbn [length]; lia..]). cbn [mbind option_bind write].
    set (m1 := <[ptr1:=z]> (<[ptr1 + 1 + Z.of_nat n:=x]> m)).
    destruct (IH (ptr1 + 1) (ptr1 + 1 + Z.of_nat n - 1) l m1) as (m' & E & Hr & Hf); [|done|lia|].
    { rewrite (load_ext m) by (intros i Hi; unfold m1; rewrite !lookup_insert_ne by lia; done). done. }
    exists m'. split; [done|]. split.
    + cbn [rev]. rewrite rev_app_distr. cbn [rev app]. cbn [length]. apply load_cons. split.
      * rewrite Hf by lia. apply lookup_insert_eq.
      * apply load_app; [by rewrite length_rev|done|]. split; [done|]. apply load_cons. split; [|done].
        rewrite Hf by lia. unfold m1. rewrite lookup_insert_ne by lia. apply lookup_insert_eq.
    + intros i Hi. rewrite Hf by lia. unfold m1. rewrite !lookup_insert_ne by lia. done.
Qed.

(** [lwip_itoa] writes the decimal representation of every 32-bit [int], the
    smallest one included, and its terminator: at most 12 bytes, and nothing else;
    the size of the buffer is not looked at. *)
Theorem lwip_itoa_decimal result n m :
  - 2 ^ 31 <= n < 2 ^ 31 -> allocated m result 12 ->
  exists m' ds, lwip_itoa result n m = Some m' /\ value ds = Z.abs n /\
    let t := (if n <? 0 then [45] else []) ++ ds in
    load m' result (length (t ++ [0])) = Some (t ++ [0]) /\ Z.of_nat (length (t ++ [0])) <= 12 /\
    forall i, i < result \/ result + 12 <= i -> m' !! i = m !! i.
Proof.
  intros Hn Hal. unfold lwip_itoa. set (l := rdigits 10 n).
  destruct (itoa_digits_spec 10 result n m) as (t & -> & Ht); [cbn; lia|lia|eapply allocated_sub; [done|lia..]|].
  fold l. cbn [mbind option_bind]. pose proof (rdigits_length 10 n) as Hlen. fold l in Hlen.
  set (sg := if n <? 0 then [45] else []).
  assert (Hsg : (length sg <= 1)%nat) by (unfold sg; case_match; cbn; lia).
  assert (E : (if t <? 0 then let? m := store (write m result l) (result + Z.of_nat (length l)) [45] in
                 Some (result + Z.of_nat (length l) + 1, m) else Some (result + Z.of_nat (length l), write m result l))
              = Some (result + Z.of_nat (length (l ++ sg)), write m result (l ++ sg))).
  { unfold sg. destruct (Z.ltb_spec t 0), (Z.ltb_spec n 0); try lia.
    - rewrite store_allocated by (apply allocated_write; eapply allocated_sub; [done|cbn [length]; lia..]).
      cbn [mbind option_bind]. rewrite write_app, length_app. f_equal. f_equal. cbn [length]. lia.
    - by rewrite app_nil_r. }
  rewrite E. cbn [mbind option_bind]. set (w := l ++ sg) in *.
  assert (Hw : (length w <= 11)%nat) by (unfold w; rewrite length_app; lia).
  rewrite store_allocated by (apply allocated_write; eapply allocated_sub; [done|cbn [length]; lia..]). cbn [mbind option_bind].
  rewrite <- write_app. set (m1 := write m result (w ++ [0])).
  assert (Hm1 : load m1 result (length w + 1) = Some (w ++ [0])).
  { pose proof (load_write m result (w ++ [0])) as H. by rewrite length_app in H. }
  apply load_app in Hm1 as [Hm1 Hz]; [|done|done].
  destruct (itoa_reverse_spec 10 result (result + Z.of_nat (length w) - 1) w m1 Hm1 eq_refl ltac:(lia)) as (m' & -> & Hr & Hf).
  exists m', (rev l). split; [done|]. split; [apply rdigits_value; cbn; lia|]. fold sg. set (t' := sg ++ rev l).
  assert (Et : t' = rev w) by (unfold t', w, sg; rewrite rev_app_distr; by destruct (n <? 0)).
  rewrite Et, !length_app, !length_rev. cbn [length]. split; [|split; [lia|]].
  - apply load_app; [by rewrite length_rev|done|]. split; [done|]. apply load_cons in Hz as [Hz _].
    apply load_cons. split; [|done]. rewrite Hf by lia. done.
  - intros i Hi. rewrite Hf by lia. apply lookup_write_outside. rewrite length_app. cbn [length]. lia.
Qed.

Lemma lwip_itoa_decimal_witness :
  let m := write ∅ 100 (repeat 7 14) in
  exists m' ds, lwip_itoa 100 (-2147483648) m = Some m' /\ value ds = 2147483648 /\
    m' !! 112 = Some 7 /\ load m' 100 12 = Some [45; 50; 49; 52; 55; 52; 56; 51; 54; 52; 56; 0].
Proof.
  intros m. destruct (lwip_itoa_decimal 100 (-2147483648) m) as (m' & ds & E & Hv & _ & _ & Hf);
    [lia|apply allocatedb_spec; vm_compute; reflexivity|].
  exists m', ds. split; [exact E|]. split; [exact Hv|]. split; [rewrite Hf by lia; vm_compute; reflexivity|].
  assert (E' : (let? m' := lwip_itoa 100 (-2147483648) m in load m' 100 12) =
               Some [45; 50; 49; 52; 55; 52; 56; 51; 54; 52; 56; 0]) by (vm_compute; reflexivity).
  rewrite E in E'. exact E'.
Defined.

(** ** Search *)

Lemma c_strlen_spec m s : forall p fuel, cstring m p s -> (length s < fuel)%nat ->
  c_strlen fuel m p = Some (Z.of_nat (length s)).
Proof.
  induction s as [|c s IH]; intros p fuel H Hf; (destruct fuel as [|fuel]; [cbn in Hf; lia|]); cbn [c_strlen].
  - by rewrite (cstring_nil _ _ H).
  - destruct (cstring_cons _ _ _ _ H) as (-> & Hc & H'). cbn [mbind option_bind length] in *.
    rewrite (proj2 (Z.eqb_neq c 0)), (IH (p + 1)) by (done || lia). cbn [mbind option_bind]. f_equal. lia.
Qed.

(** Comparing a string with a token that does not end within the count. *)
Lemma c_strncmp_spec m t : forall s p q, cstring m p s -> cstring m q t ->
  exists d, c_strncmp (length t) m p q = Some d /\ (d = 0 <-> t `prefix_of` s).
Proof.
  induction t as [|b t IH]; intros s p q Hs Ht; cbn [length c_strncmp].
  - exists 0. split; [done|]. split; [intros _; apply prefix_nil|done].
  - destruct (cstring_cons _ _ _ _ Ht) as (-> & Hb & Ht'). destruct s as [|c s].
    + rewrite (cstring_nil _ _ Hs). cbn [mbind option_bind]. rewrite (proj2 (Z.eqb_neq 0 b)) by lia. cbn [negb].
      eexists. split; [done|]. split; [lia|]. by intros ?%prefix_nil_not.
    + destruct (cstring_cons _ _ _ _ Hs) as (-> & Hc & Hs'). cbn [mbind option_bind].
      destruct (Z.eqb_spec c b) as [-> |Hne]; cbn [negb].
      * rewrite (proj2 (Z.eqb_neq b 0)) by lia. destruct (IH s (p + 1) (q + 1) Hs' Ht') as (d & E & Hd).
        exists d. split; [done|]. rewrite Hd. split; [by apply prefix_cons|by apply prefix_cons_inv_2].
      * eexists. split; [done|]. split; [lia|]. intros ?%prefix_cons_inv_1. congruence.
Qed.

(** Where the token first occurs within [n] characters. *)
Fixpoint find (t s : list Z) (n : Z) : option Z :=
  match s with
  | [] => None
  | c :: s' =>
      if Z.of_nat (length t) <=? n then
        if decide (t `prefix_of` s) then Some 0 else Z.succ <$> find t s' (n - 1)
      else None
  end.

Lemma strnstr_loop_spec m q b t buffer n : forall s p fuel,
  cstring m p s -> cstring m q (b :: t) -> (length s < fuel)%nat ->
  strnstr_loop fuel m buffer q (Z.of_nat (length (b :: t))) n p =
  Some (match find (b :: t) s (buffer + n - p) with Some i => p + i | None => 0 end).
Proof.
  intros s. induction s as [|c s IH]; intros p fuel Hs Ht Hf; (destruct fuel as [|fuel]; [cbn in Hf; lia|]).
  - cbn [strnstr_loop]. by rewrite (cstring_nil _ _ Hs).
  - destruct (cstring_cons _ _ _ _ Hs) as (Hc & Hc0 & Hs'). destruct (cstring_cons _ _ _ _ Ht) as (Hb & _ & _).
    assert (Hrec : strnstr_loop fuel m buffer q (Z.of_nat (length (b :: t))) n (p + 1) =
              Some (match Z.succ <$> find (b :: t) s (buffer + n - p - 1) with Some i => p + i | None => 0 end)).
    { rewrite IH by (done || (cbn in Hf; lia)). replace (buffer + n - (p + 1)) with (buffer + n - p - 1) by lia.
      destruct (find _ _ _); cbn; [f_equal; lia|done]. }
    cbn [strnstr_loop find]. rewrite Hc. cbn [mbind option_bind]. rewrite (proj2 (Z.eqb_neq c 0)) by lia. cbn [negb andb].
    replace (p + Z.of_nat (length (b :: t)) <=? buffer + n) with (Z.of_nat (length (b :: t)) <=? buffer + n - p)
      by (destruct (Z.leb_spec (Z.of_nat (length (b :: t))) (buffer + n - p)), (Z.leb_spec (p + Z.of_nat (length (b :: t))) (buffer + n)); lia || done).
    destruct (_ <=? _); [|done]. rewrite Hb. cbn [mbind option_bind].
    destruct (Z.eqb_spec c b) as [-> |Hne].
    + rewrite Nat2Z.id. destruct (c_strncmp_spec m (b :: t) (b :: s) p q Hs Ht) as (d & -> & Hd). cbn [mbind option_bind].
      destruct (Z.eqb_spec d 0) as [Hz|Hz]; [rewrite decide_True by tauto; f_equal; lia|by rewrite decide_False by tauto].
    + rewrite decide_False; [done|]. intros ?%prefix_cons_inv_1. congruence.
Qed.

(** [lwip_strnstr] gives the first occurrence that ends within [n] characters. *)
Lemma lwip_strnstr_spec m p q s t n :
  cstring m p s -> cstring m q t ->
  lwip_strnstr p q n m =
  Some (if decide (t = []) then p else match find t s n with Some i => p + i | None => 0 end).
Proof.
  intros Hs Ht. unfold lwip_strnstr. rewrite (c_strlen_spec m t) by (done || by eapply cstring_fuel).
  cbn [mbind option_bind]. destruct t as [|b t]; [by rewrite decide_True|]. rewrite decide_False by done.
  rewrite (proj2 (Z.eqb_neq _ 0)) by (cbn [length]; lia).
  rewrite (strnstr_loop_spec m q b t p n s) by (done || by eapply cstring_fuel). by replace (p + n - p) with n by lia.
Qed.
