(* ===== verification/InetChksum.v ===== *)
(** * The Internet checksum: lwIP's [core/inet_chksum.c]

    The sum over a piece of memory in the three versions the file has (the second
    is the one compiled), and the checksums of IP, UDP and TCP over chains of
    pbufs, with and without a pseudo header.  The target is little-endian. *)

From Stdlib Require Import ZArith Lia.
From stdpp Require Import base gmap list numbers.
From S2P Require Import Prelude LwipDef Pbuf.
Import OptionNotations.

Local Open Scope Z_scope.

Definition SWAP_BYTES_IN_WORD (w : Z) : Z :=
  Z.lor (Z.shiftl (Z.land w 0xff) 8) (Z.shiftr (Z.land w 0xff00) 8).

Definition FOLD_U32T (u : Z) : Z := u32 (Z.shiftr u 16 + Z.land u 0xffff).

Definition read16 (m : gmap Z Z) (p : Z) : option Z := let? l := load m p 2 in Some (of_le l).
Definition read32 (m : gmap Z Z) (p : Z) : option Z := let? l := load m p 4 in Some (of_le l).

(** ** Version 2: two bytes at a time, buffers at any address *)

(** [while (len > 1)]; the rounds of the loop are less than [len]. *)
Fixpoint add_words (fuel : nat) (m : gmap Z Z) (ps len sum : Z) : option (Z * Z * Z) :=
  if 1 <? len then
    match fuel with
    | O => None
    | S fuel =>
        let? w := read16 m ps in
        add_words fuel m (ps + 2) (len - 2) (u32 (sum + w))
    end
  else Some (ps, len, sum).

(** The first byte of a buffer at an odd address, as the high byte of [t]; where the
    words start and how many bytes are left. *)
Definition get_aligned (odd : bool) (pb len : Z) (m : gmap Z Z) : option (Z * Z * Z) :=
  if odd && (0 <? len) then
    let? b := m !! pb in Some (Z.shiftl b 8, pb + 1, len - 1)
  else Some (0, pb, len).

(** The left-over byte goes to the low byte of [t]. *)
Definition add_end_bytes (odd : bool) (t ps len sum : Z) (m : gmap Z Z) : option Z :=
  let? t := (if 0 <? len then let? b := m !! ps in Some (Z.lor (Z.land t 0xff00) b) else Some t) in
  let sum := u32 (sum + t) in
  let sum := FOLD_U32T (FOLD_U32T sum) in
  let sum := if odd then SWAP_BYTES_IN_WORD sum else sum in
  Some (u16 sum).

Definition lwip_standard_chksum (dataptr len : Z) (m : gmap Z Z) : option Z :=
  let odd := negb (Z.land dataptr 1 =? 0) in
  let? (t, pb, len) := get_aligned odd dataptr len m in
  let? (ps, len, sum) := add_words (Z.to_nat len) m pb len 0 in
  add_end_bytes odd t ps len sum m.

(** ** Version 1: byte by byte, in network order *)

Fixpoint add_octets (fuel : nat) (m : gmap Z Z) (octetptr len acc : Z) : option (Z * Z * Z) :=
  if 1 <? len then
    match fuel with
    | O => None
    | S fuel =>
        let? b0 := m !! octetptr in
        let? b1 := m !! (octetptr + 1) in
        add_octets fuel m (octetptr + 2) (len - 2) (u32 (acc + Z.lor (u16 (Z.shiftl b0 8)) b1))
    end
  else Some (octetptr, len, acc).

Definition lwip_standard_chksum_1 (dataptr len : Z) (m : gmap Z Z) : option Z :=
  let? (octetptr, len, acc) := add_octets (Z.to_nat len) m dataptr len 0 in
  let? acc := (if 0 <? len then let? b := m !! octetptr in Some (u32 (acc + u16 (Z.shiftl b 8))) else Some acc) in
  let acc := FOLD_U32T acc in
  let acc := if negb (Z.land acc 0xffff0000 =? 0) then FOLD_U32T acc else acc in
  Some (lwip_htons (u16 acc)).

(** ** Version 3: eight bytes at a time *)

Fixpoint add_longs (fuel : nat) (m : gmap Z Z) (pl len sum : Z) : option (Z * Z * Z) :=
  if 7 <? len then
    match fuel with
    | O => None
    | S fuel =>
        let? x := read32 m pl in
        let tmp := u32 (sum + x) in
        let tmp := if tmp <? sum then u32 (tmp + 1) else tmp in
        let? y := read32 m (pl + 4) in
        let sum := u32 (tmp + y) in
        let sum := if sum <? tmp then u32 (sum + 1) else sum in
        add_longs fuel m (pl + 8) (len - 8) sum
    end
  else Some (pl, len, sum).

(** A first word when the buffer is not aligned to four bytes. *)
Definition get_aligned_long (ps len : Z) (m : gmap Z Z) : option (Z * Z * Z) :=
  if negb (Z.land ps 3 =? 0) && (1 <? len) then
    let? w := read16 m ps in Some (ps + 2, len - 2, w)
  else Some (ps, len, 0).

Definition lwip_standard_chksum_3 (dataptr len : Z) (m : gmap Z Z) : option Z :=
  let odd := negb (Z.land dataptr 1 =? 0) in
  let? (t, pb, len) := get_aligned odd dataptr len m in
  let? (ps, len, sum) := get_aligned_long pb len m in
  let? (pl, len, sum) := add_longs (Z.to_nat len) m ps len sum in
  let sum := FOLD_U32T sum in
  let? (ps, len, sum) := add_words (Z.to_nat len) m pl len sum in
  add_end_bytes odd t ps len sum m.

(** ** Chains of pbufs *)

(** [(u16_t)~acc] *)
Definition not16 (acc : Z) : Z := Z.lxor (Z.land acc 0xffff) 0xffff.

Definition inet_chksum (dataptr len : Z) (m : gmap Z Z) : option Z :=
  let? s := lwip_standard_chksum dataptr len m in Some (not16 s).

(** The loop over a chain: the sum and whether it is swapped. *)
Fixpoint chksum_loop (fuel : nat) (q acc : Z) (swapped : bool) (h : heap) : option (Z * bool) :=
  if q =? 0 then Some (acc, swapped)
  else
    match fuel with
    | O => None
    | S fuel =>
        let? b := pbufs h !! q in
        let? s := lwip_standard_chksum (payload b) (len b) (ram h) in
        let acc := FOLD_U32T (u32 (acc + s)) in
        if negb (Z.rem (len b) 2 =? 0) then
          chksum_loop fuel (next b) (SWAP_BYTES_IN_WORD acc) (negb swapped) h
        else chksum_loop fuel (next b) acc swapped h
    end.

Definition inet_chksum_pbuf (p : Z) (h : heap) : option Z :=
  let? (acc, swapped) := chksum_loop (chain_fuel h) p 0 false h in
  let acc := if swapped then SWAP_BYTES_IN_WORD acc else acc in
  Some (not16 acc).

(** What follows the loop in both functions with a pseudo header. *)
Definition pseudo_end (proto proto_len acc : Z) : Z :=
  let acc := u32 (acc + lwip_htons (u16 proto)) in
  let acc := u32 (acc + lwip_htons proto_len) in
  let acc := FOLD_U32T (FOLD_U32T acc) in
  not16 acc.

Definition inet_cksum_pseudo_base (p proto proto_len acc : Z) (h : heap) : option Z :=
  let? (acc, swapped) := chksum_loop (chain_fuel h) p acc false h in
  let acc := if swapped then SWAP_BYTES_IN_WORD acc else acc in
  Some (pseudo_end proto proto_len acc).

(** The sum of the addresses. *)
Definition addr_acc (src dest : Z) : Z :=
  let addr := src in
  let acc := Z.land addr 0xffff in
  let acc := u32 (acc + Z.land (Z.shiftr addr 16) 0xffff) in
  let addr := dest in
  let acc := u32 (acc + Z.land addr 0xffff) in
  let acc := u32 (acc + Z.land (Z.shiftr addr 16) 0xffff) in
  FOLD_U32T (FOLD_U32T acc).

Definition inet_chksum_pseudo (p proto proto_len src dest : Z) (h : heap) : option Z :=
  inet_cksum_pseudo_base p proto proto_len (addr_acc src dest) h.

Definition ip_chksum_pseudo (p proto proto_len src dest : Z) (h : heap) : option Z :=
  inet_chksum_pseudo p proto proto_len src dest h.

(** The loop over the first [chksum_len] bytes of a chain. *)
Fixpoint partial_loop (fuel : nat) (q chksum_len acc : Z) (swapped : bool) (h : heap) : option (Z * bool) :=
  if negb (q =? 0) && (0 <? chksum_len) then
    match fuel with
    | O => None
    | S fuel =>
        let? b := pbufs h !! q in
        let chklen := if chksum_len <? len b then chksum_len else len b in
        let? s := lwip_standard_chksum (payload b) chklen (ram h) in
        let acc := u32 (acc + s) in
        let chksum_len := u16 (chksum_len - chklen) in
        if negb (chksum_len <? 0x7fff) then None
        else
          let acc := FOLD_U32T acc in
          if negb (Z.rem (len b) 2 =? 0) then
            partial_loop fuel (next b) chksum_len (SWAP_BYTES_IN_WORD acc) (negb swapped) h
          else partial_loop fuel (next b) chksum_len acc swapped h
    end
  else Some (acc, swapped).

Definition inet_cksum_pseudo_partial_base (p proto proto_len chksum_len acc : Z) (h : heap) : option Z :=
  let? (acc, swapped) := partial_loop (chain_fuel h) p chksum_len acc false h in
  let acc := if swapped then SWAP_BYTES_IN_WORD acc else acc in
  Some (pseudo_end proto proto_len acc).

Definition inet_chksum_pseudo_partial (p proto proto_len chksum_len src dest : Z) (h : heap) : option Z :=
  inet_cksum_pseudo_partial_base p proto proto_len chksum_len (addr_acc src dest) h.

Definition ip_chksum_pseudo_partial (p proto proto_len chksum_len src dest : Z) (h : heap) : option Z :=
  inet_chksum_pseudo_partial p proto proto_len chksum_len src dest h.

(** [lwip_chksum_copy], version 1. *)
Definition lwip_chksum_copy (dst src n : Z) (h : heap) : option (Z * heap) :=
  let? h := MEMCPY dst src n h in
  let? s := lwip_standard_chksum dst n (ram h) in
  Some (s, h).
