(* ===== verification/InetChksumSpec.v ===== *)
(** * One's complement sums

    The reference for the Internet checksum (RFC 1071): the sum of the 16-bit words
    of the data with end-around carry.  Sums that only differ by carries are
    related by an equivalence, for which addition and byte swapping are
    compatible; what the code computes is the representative below 2^16. *)

From Stdlib Require Import ZArith Lia Setoid Morphisms.
From stdpp Require Import base gmap list numbers.
From S2P Require Import Prelude LwipDef Pbuf InetChksum.
From stdpp Require Import sets list.
Import OptionNotations.

Local Open Scope Z_scope.

(** ** The reference *)

(** The words of the data, an odd last byte filled up with zero; [oc] adds the
    carries. *)
Fixpoint word_sum (d : list Z) : Z :=
  match d with
  | [] => 0
  | [b] => b
  | b0 :: b1 :: d => b0 + 256 * b1 + word_sum d
  end.

Definition oc (s : Z) : Z := if s =? 0 then 0 else (s - 1) mod 65535 + 1.

(** ** Sums up to carries *)

Definition oc_eq (a b : Z) : Prop := 0 <= a /\ 0 <= b /\ (a = 0 <-> b = 0) /\ (65535 | a - b).

Declare Scope oc_scope.
Infix "≈" := oc_eq (at level 70) : oc_scope.
Local Open Scope oc_scope.

#[export] Instance oc_eq_sym : Symmetric oc_eq.
Proof. intros a b (H1 & H2 & H3 & k & H4). split; [done|]. split; [done|]. split; [tauto|]. exists (- k). lia. Qed.

#[export] Instance oc_eq_trans : Transitive oc_eq.
Proof.
  intros a b c (H1 & H2 & H3 & k & H4) (H1' & H2' & H3' & k' & H4').
  split; [done|]. split; [done|]. split; [tauto|]. exists (k + k'). lia.
Qed.

Lemma oc_eq_refl a : 0 <= a -> a ≈ a.
Proof. intros H. split; [done|]. split; [done|]. split; [done|]. exists 0. lia. Qed.

Lemma oc_eq_add a a' b b' : a ≈ a' -> b ≈ b' -> a + b ≈ a' + b'.
Proof.
  intros (H1 & H2 & H3 & k & H4) (H1' & H2' & H3' & k' & H4').
  split; [lia|]. split; [lia|]. split; [lia|]. exists (k + k'). lia.
Qed.

Lemma oc_eq_add_r c a b : 0 <= c -> a ≈ b -> c + a ≈ c + b.
Proof. intros Hc H. apply oc_eq_add; [by apply oc_eq_refl|done]. Qed.

Lemma oc_eq_256 a b : a ≈ b -> 256 * a ≈ 256 * b.
Proof.
  intros (H1 & H2 & H3 & k & H4). split; [lia|]. split; [lia|]. split; [lia|]. exists (256 * k). lia.
Qed.

#[export] Instance oc_eq_add_proper : Proper (oc_eq ==> oc_eq ==> oc_eq) Z.add.
Proof. intros a a' Ha b b' Hb. by apply oc_eq_add. Qed.

#[export] Instance oc_eq_256_proper : Proper (oc_eq ==> oc_eq) (Z.mul 256).
Proof. intros a b. apply oc_eq_256. Qed.

(** Two bytes on is the same place in a word. *)
Lemma oc_eq_wrap a : 0 <= a -> 256 * (256 * a) ≈ a.
Proof. intros H. split; [lia|]. split; [lia|]. split; [lia|]. exists a. lia. Qed.

(** Below 2^16 there is one representative. *)
Lemma oc_eq_unique a b : a ≈ b -> a <= 65535 -> b <= 65535 -> a = b.
Proof. intros (H1 & H2 & H3 & k & H4) Ha Hb. assert (-1 <= k <= 1) by lia. assert (k = 0 \/ k = 1 \/ k = -1) by lia. lia. Qed.

Lemma oc_range s : 0 <= s -> 0 <= oc s <= 65535.
Proof.
  intros Hs. unfold oc. destruct (Z.eqb_spec s 0); [lia|].
  pose proof (Z.mod_pos_bound (s - 1) 65535 ltac:(lia)). lia.
Qed.

Lemma oc_eq_oc s : 0 <= s -> oc s ≈ s.
Proof.
  intros Hs. pose proof (oc_range s Hs). split; [lia|]. split; [done|]. unfold oc in *.
  destruct (Z.eqb_spec s 0); [split; [done|]; exists 0; lia|].
  pose proof (Z.mod_pos_bound (s - 1) 65535 ltac:(lia)). split; [lia|].
  pose proof (Z.div_mod (s - 1) 65535 ltac:(lia)). exists (- ((s - 1) / 65535)). lia.
Qed.

(** What is equivalent to the sum and below 2^16 is the checksum. *)
Lemma oc_unique a s : a ≈ s -> a <= 65535 -> a = oc s.
Proof.
  intros H Ha. assert (0 <= s) by apply H. pose proof (oc_range s). apply oc_eq_unique; [|lia..].
  rewrite H. symmetry. by apply oc_eq_oc.
Qed.

Lemma oc_proper a b : a ≈ b -> oc a = oc b.
Proof.
  intros H. assert (0 <= a /\ 0 <= b) as [Ha Hb] by (split; apply H). apply oc_unique; [|by apply oc_range].
  rewrite <- H. by apply oc_eq_oc.
Qed.

(** ** The steps of the code *)

Lemma fold_value u : 0 <= u < 2 ^ 32 -> FOLD_U32T u = u / 65536 + u mod 65536.
Proof.
  intros Hu. unfold FOLD_U32T. rewrite Z.shiftr_div_pow2 by lia. change 0xffff with (Z.ones 16).
  rewrite Z.land_ones by lia. change (2 ^ 16) with 65536. apply u32_small.
  pose proof (Z.mod_pos_bound u 65536 ltac:(lia)). pose proof (Z.div_lt_upper_bound u 65536 65536 ltac:(lia) ltac:(lia)).
  pose proof (Z.div_pos u 65536 ltac:(lia) ltac:(lia)). lia.
Qed.

Lemma fold_eq u : 0 <= u < 2 ^ 32 -> FOLD_U32T u ≈ u.
Proof.
  intros Hu. rewrite fold_value by done. pose proof (Z.div_mod u 65536 ltac:(lia)) as E.
  pose proof (Z.mod_pos_bound u 65536 ltac:(lia)). pose proof (Z.div_pos u 65536 ltac:(lia) ltac:(lia)).
  split; [lia|]. split; [lia|]. split; [lia|]. exists (- (u / 65536)). lia.
Qed.

Lemma fold_range u b : 0 <= u < b * 65536 -> b <= 65536 -> 0 <= FOLD_U32T u <= b - 1 + 65535.
Proof.
  intros Hu Hb. rewrite fold_value by lia. pose proof (Z.mod_pos_bound u 65536 ltac:(lia)).
  pose proof (Z.div_lt_upper_bound u 65536 b ltac:(lia) ltac:(lia)). pose proof (Z.div_pos u 65536 ltac:(lia) ltac:(lia)). lia.
Qed.

(** One fold is enough for the sum of two 16-bit values. *)
Lemma fold_once u : 0 <= u <= 0x1fffe -> 0 <= FOLD_U32T u <= 65535.
Proof.
  intros Hu. rewrite fold_value by lia. pose proof (Z.mod_pos_bound u 65536 ltac:(lia)).
  pose proof (Z.div_mod u 65536 ltac:(lia)).
  assert (u / 65536 = 0 \/ u / 65536 = 1) as [E|E]; [|lia..].
  pose proof (Z.div_lt_upper_bound u 65536 2 ltac:(lia) ltac:(lia)). pose proof (Z.div_pos u 65536 ltac:(lia) ltac:(lia)). lia.
Qed.

Lemma fold_twice u : 0 <= u < 2 ^ 32 -> FOLD_U32T (FOLD_U32T u) ≈ u /\ 0 <= FOLD_U32T (FOLD_U32T u) <= 65535.
Proof.
  intros Hu. pose proof (fold_range u 65536 ltac:(lia) ltac:(lia)) as Hf. split; [|apply fold_once; lia].
  transitivity (FOLD_U32T u); apply fold_eq; lia.
Qed.

Lemma swap_value w : 0 <= w <= 65535 -> SWAP_BYTES_IN_WORD w = 256 * (w mod 256) + w / 256.
Proof. intros Hw. apply htons_value. lia. Qed.

(** Swapping the bytes is moving them by one place. *)
Lemma swap_eq w : 0 <= w <= 65535 -> SWAP_BYTES_IN_WORD w ≈ 256 * w /\ 0 <= SWAP_BYTES_IN_WORD w <= 65535.
Proof.
  intros Hw. rewrite swap_value by done. pose proof (Z.div_mod w 256 ltac:(lia)) as E.
  pose proof (Z.mod_pos_bound w 256 ltac:(lia)). pose proof (Z.div_pos w 256 ltac:(lia) ltac:(lia)).
  pose proof (Z.div_lt_upper_bound w 256 256 ltac:(lia) ltac:(lia)).
  split; [|lia]. split; [lia|]. split; [lia|]. split; [lia|]. exists (- (w / 256)). lia.
Qed.

(** ** Sums of bytes *)

Lemma of_le_app x y : of_le (x ++ y) = of_le x + 256 ^ Z.of_nat (length x) * of_le y.
Proof.
  induction x as [|b x IH]; cbn [app of_le length]; [lia|]. rewrite IH, Nat2Z.inj_succ, Z.pow_succ_r by lia. lia.
Qed.

Lemma of_le_nonneg d : bytes d -> 0 <= of_le d.
Proof. intros H. by apply of_le_range. Qed.

(** A list two elements at a time. *)
Lemma list_pairs {A} (P : list A -> Prop) :
  P [] -> (forall a, P [a]) -> (forall a b l, P l -> P (a :: b :: l)) -> forall l, P l.
Proof.
  intros H0 H1 H2 l. enough (P l /\ forall a, P (a :: l)) by tauto.
  induction l as [|b l [IH IH']]; [auto|]. split; auto.
Qed.

Lemma of_le_word_sum d : bytes d -> of_le d ≈ word_sum d.
Proof.
  induction d as [|a|a b d IH] using list_pairs; intros H; cbn [of_le word_sum].
  - by apply oc_eq_refl.
  - apply Forall_cons in H as [Ha _]. unfold is_byte in Ha. rewrite Z.mul_0_r, Z.add_0_r. apply oc_eq_refl. lia.
  - apply Forall_cons in H as [Ha H]. apply Forall_cons in H as [Hb H]. unfold is_byte in *.
    rewrite Z.mul_add_distr_l, Z.add_assoc. apply oc_eq_add; [apply oc_eq_refl; lia|].
    rewrite <- (IH H). by apply oc_eq_wrap, of_le_nonneg.
Qed.

Lemma word_sum_range d : bytes d -> 0 <= 2 * word_sum d <= 65535 * (Z.of_nat (length d) + 1).
Proof.
  induction d as [|a|a b d IH] using list_pairs; intros H; cbn [word_sum length]; [lia|..].
  - apply Forall_cons in H as [Ha _]. unfold is_byte in Ha. lia.
  - apply Forall_cons in H as [Ha H]. apply Forall_cons in H as [Hb H]. specialize (IH H). unfold is_byte in *. lia.
Qed.

(** ** Reading memory *)

Lemma read16_load m a n b0 b1 d : load m a (S (S n)) = Some (b0 :: b1 :: d) ->
  read16 m a = Some (b0 + 256 * b1) /\ load m (a + 2) n = Some d.
Proof.
  intros H. apply load_cons in H as [H0 H]. apply load_cons in H as [H1 H]. unfold read16.
  rewrite (proj2 (load_cons m a 1 b0 [b1])).
  - split; [cbn [of_le mbind option_bind]; f_equal; lia|]. by replace (a + 2) with (a + 1 + 1) by lia.
  - split; [done|]. apply load_cons. split; [done|]. done.
Qed.

(** The loop over 16-bit words leaves at most one byte. *)
Lemma add_words_spec m fuel ps n sum d :
  load m ps n = Some d -> bytes d -> (n <= fuel)%nat -> 0 <= sum -> 2 * sum + 65535 * (Z.of_nat n + 1) < 2 ^ 33 ->
  exists x y, d = x ++ y /\ Nat.Even (length x) /\ (length y <= 1)%nat /\
    add_words fuel m ps (Z.of_nat n) sum =
      Some (ps + Z.of_nat (length x), Z.of_nat (length y), sum + word_sum x).
Proof.
  revert fuel ps n sum. induction d as [|b|b0 b1 d IH] using list_pairs; intros fuel ps n sum Hl Hb Hf H0 Hs;
    pose proof (load_len _ _ _ _ Hl) as En; cbn [length] in En; subst n.
  - exists [], []. split; [done|]. split; [by exists 0%nat|]. split; [cbn; lia|].
    destruct fuel; cbn [add_words word_sum length]; by rewrite !Z.add_0_r.
  - exists [], [b]. split; [done|]. split; [by exists 0%nat|]. split; [cbn; lia|].
    destruct fuel; cbn [add_words word_sum length]; by rewrite !Z.add_0_r.
  - apply Forall_cons in Hb as [Hb0 Hb]. apply Forall_cons in Hb as [Hb1 Hb]. unfold is_byte in *.
    destruct fuel as [|fuel]; [lia|]. destruct (read16_load _ _ _ _ _ _ Hl) as [Er Hl'].
    cbn [add_words]. rewrite (proj2 (Z.ltb_lt 1 _)), Er by lia. cbn [mbind option_bind].
    rewrite u32_small by lia. replace (Z.of_nat (S (S (length d))) - 2) with (Z.of_nat (length d)) by lia.
    destruct (IH fuel (ps + 2) (length d) (sum + (b0 + 256 * b1)) Hl' Hb) as (x & y & -> & [k Hk] & Hy & E); [lia..|].
    exists (b0 :: b1 :: x), y. split; [done|]. split; [exists (S k); cbn [length]; lia|]. split; [done|].
    rewrite E. cbn [word_sum length]. f_equal. f_equal; [|lia]. f_equal. lia.
Qed.
