(* ===== verification/InetChksumProof.v ===== *)
(** * The sum over a buffer

    Each version of [lwip_standard_chksum] computes the one's complement sum of the
    words of its buffer, at any address and for up to 0x20000 bytes. *)

From Stdlib Require Import ZArith Lia.
From stdpp Require Import base gmap list numbers.
From S2P Require Import Prelude LwipDef Pbuf PbufChain InetChksum InetChksumSpec.
From stdpp Require Import sets list.
Import OptionNotations.

Local Open Scope Z_scope.
Local Open Scope oc_scope.

(** ** Even lengths *)

Lemma oc_eq_pow k a : 0 <= a -> 256 ^ Z.of_nat (k + k) * a ≈ a.
Proof.
  intros Ha. induction k as [|k IH]; [rewrite Z.mul_1_l; by apply oc_eq_refl|].
  replace (Z.of_nat (S k + S k)) with (2 + Z.of_nat (k + k)) by lia. rewrite Z.pow_add_r by lia.
  replace (256 ^ 2 * 256 ^ Z.of_nat (k + k) * a) with (256 * (256 * (256 ^ Z.of_nat (k + k) * a))) by lia.
  rewrite oc_eq_wrap by apply IH. done.
Qed.

Lemma of_le_app_even x y : bytes x -> bytes y -> Nat.Even (length x) -> of_le (x ++ y) ≈ word_sum x + of_le y.
Proof.
  intros Hx Hy [k Hk]. rewrite of_le_app, Hk. replace (2 * k)%nat with (k + k)%nat by lia.
  apply oc_eq_add; [by apply of_le_word_sum|]. by apply oc_eq_pow, of_le_nonneg.
Qed.

Lemma word_sum_even d : bytes d -> Nat.Even (length d) -> 0 <= 2 * word_sum d <= 65535 * Z.of_nat (length d).
Proof.
  induction d as [|a|a b d IH] using list_pairs; intros H [k Hk]; cbn [word_sum length] in *; [lia|lia|].
  apply Forall_cons in H as [Ha H]. apply Forall_cons in H as [Hb H]. unfold is_byte in *.
  specialize (IH H). assert (Nat.Even (length d)) as Hd by (exists (k - 1)%nat; lia). specialize (IH Hd). lia.
Qed.

(** ** The ends of the buffer *)

Lemma get_aligned_spec m odd p n d :
  load m p n = Some d -> bytes d ->
  exists t0 pb d', get_aligned odd p (Z.of_nat n) m = Some (256 * t0, pb, Z.of_nat (length d')) /\
    load m pb (length d') = Some d' /\ bytes d' /\ is_byte t0 /\
    (if odd then of_le d ≈ 256 * (256 * t0 + of_le d') else t0 = 0 /\ d' = d) /\
    (length d' + (if (t0 =? 0)%Z then 0 else 1) <= n)%nat.
Proof.
  intros Hl Hb. pose proof (load_len _ _ _ _ Hl) as En. unfold get_aligned.
  destruct odd; cbn [andb].
  2:{ exists 0, p, d. rewrite En. repeat split; try done. cbn. lia. }
  destruct d as [|b d]; cbn [length] in En; subst n.
  { exists 0, p, []. split; [done|]. split; [done|]. split; [done|]. split; [done|]. split; [by apply oc_eq_refl|done]. }
  apply load_cons in Hl as [Hb0 Hl]. apply Forall_cons in Hb as [Hbb Hb]. unfold is_byte in Hbb.
  rewrite (proj2 (Z.ltb_lt 0 _)), Hb0 by lia. cbn [mbind option_bind].
  exists b, (p + 1), d. rewrite Z.shiftl_mul_pow2 by lia.
  split; [f_equal; f_equal; [f_equal|]; lia|]. split; [done|]. split; [done|]. split; [done|].
  split; [|case_match; lia]. cbn [of_le]. rewrite Z.mul_add_distr_l.
  apply oc_eq_add; [symmetry; apply oc_eq_wrap; lia|]. apply oc_eq_refl. pose proof (of_le_nonneg d Hb). lia.
Qed.

Lemma of_le_small y : bytes y -> (length y <= 1)%nat -> 0 <= of_le y <= 255 * Z.of_nat (length y).
Proof.
  intros Hb Hy. destruct y as [|b [|]]; cbn [length of_le] in *; [lia| |lia].
  apply Forall_cons in Hb as [Hb _]. unfold is_byte in Hb. lia.
Qed.

Lemma add_end_bytes_spec m odd t0 ps y sum :
  load m ps (length y) = Some y -> bytes y -> (length y <= 1)%nat -> is_byte t0 -> 0 <= sum ->
  sum + (256 * t0 + of_le y) < 2 ^ 32 ->
  let s := sum + (256 * t0 + of_le y) in
  exists r, add_end_bytes odd (256 * t0) ps (Z.of_nat (length y)) sum m = Some r /\
    0 <= r <= 65535 /\ r ≈ (if odd then 256 * s else s).
Proof.
  intros Hl Hb Hy Ht Hs Hlt s. unfold is_byte in Ht. pose proof (of_le_nonneg y Hb). unfold add_end_bytes.
  assert (Et : (if 0 <? Z.of_nat (length y) then let? b := m !! ps in Some (Z.lor (Z.land (256 * t0) 0xff00) b)
                else Some (256 * t0)) = Some (256 * t0 + of_le y)).
  { destruct y as [|b [|]]; cbn [length] in *; [|  |lia].
    - rewrite (proj2 (Z.ltb_ge 0 _)) by lia. cbn [of_le]. f_equal. lia.
    - rewrite (proj2 (Z.ltb_lt 0 _)) by lia. apply load_cons in Hl as [-> _]. cbn [mbind option_bind of_le].
      apply Forall_cons in Hb as [Hb _]. unfold is_byte in Hb. f_equal.
      change 0xff00 with (Z.shiftl (Z.ones 8) 8). rewrite (Z.mul_comm 256). change 256 with (2 ^ 8).
      rewrite <- Z.shiftl_mul_pow2, <- Z.shiftl_land, Z.land_ones, Z.mod_small, lor_shiftl by lia.
      rewrite Z.shiftl_mul_pow2; lia. }
  rewrite Et. cbn [mbind option_bind]. fold s. rewrite (u32_small s) by (unfold s; lia).
  destruct (fold_twice s ltac:(unfold s; lia)) as [Hf Hfr].
  eexists. split; [done|]. destruct odd.
  - destruct (swap_eq _ Hfr) as [Hw Hwr]. rewrite u16_small by lia. split; [done|]. rewrite Hw. by apply oc_eq_256.
  - rewrite u16_small by lia. done.
Qed.

(** ** Version 2 *)

Lemma chksum_spec m p n d :
  load m p n = Some d -> bytes d -> Z.of_nat n <= 0x20000 ->
  exists r, lwip_standard_chksum p (Z.of_nat n) m = Some r /\ 0 <= r <= 65535 /\ r ≈ of_le d.
Proof.
  intros Hl Hb Hn. unfold lwip_standard_chksum. set (odd := negb (Z.land p 1 =? 0)).
  destruct (get_aligned_spec m odd p n d Hl Hb) as (t0 & pb & d' & -> & Hl' & Hb' & Ht & Hd & Hlen).
  cbn [mbind option_bind]. rewrite Nat2Z.id.
  destruct (add_words_spec m (length d') pb (length d') 0 d' Hl' Hb' ltac:(lia) ltac:(lia)) as (x & y & -> & He & Hy & ->).
  { case_match; lia. }
  cbn [mbind option_bind]. rewrite Z.add_0_l.
  apply Forall_app in Hb' as [Hbx Hby]. rewrite length_app in *.
  apply (load_app m pb _ _ x y eq_refl eq_refl) in Hl' as [_ Hly].
  pose proof (word_sum_even x Hbx He) as Hw. pose proof (of_le_app_even x y Hbx Hby He) as Hxy.
  unfold is_byte in Ht.
  pose proof (of_le_small y Hby Hy) as Hyb.
  destruct (add_end_bytes_spec m odd t0 _ y (word_sum x) Hly Hby Hy Ht) as (r & E & Hr & Hq); [lia|case_match; lia|].
  exists r. split; [done|]. split; [done|]. rewrite Hq. destruct odd.
  - rewrite Hd. apply oc_eq_256. rewrite Z.add_assoc, (Z.add_comm (word_sum x)), <- Z.add_assoc.
    apply oc_eq_add_r; [lia|done].
  - destruct Hd as [-> <-]. rewrite Hxy. apply oc_eq_refl. lia.
Qed.

(** ** Version 3 *)

Lemma carry_add s x : 0 <= s < 2 ^ 32 -> 0 <= x < 2 ^ 32 ->
  let r := if u32 (s + x) <? s then u32 (u32 (s + x) + 1) else u32 (s + x) in
  0 <= r < 2 ^ 32 /\ r ≈ s + x.
Proof.
  intros Hs Hx r. subst r. unfold u32, wrap. destruct (Z.lt_ge_cases (s + x) (2 ^ 32)) as [Hlt|Hge].
  - rewrite (Z.mod_small (s + x)) by lia. rewrite (proj2 (Z.ltb_ge _ _)) by lia.
    split; [lia|]. apply oc_eq_refl. lia.
  - assert (E : (s + x) mod 2 ^ 32 = s + x - 2 ^ 32).
    { symmetry. apply (Z.mod_unique_pos _ _ 1); lia. }
    rewrite E, (proj2 (Z.ltb_lt _ _)) by lia. rewrite Z.mod_small by lia.
    split; [lia|]. split; [lia|]. split; [lia|]. split; [lia|]. exists (-65537). lia.
Qed.

Lemma load_split m a n d k : load m a n = Some d -> (k <= n)%nat ->
  load m a k = Some (take k d) /\ load m (a + Z.of_nat k) (n - k) = Some (drop k d).
Proof.
  intros Hl Hk. pose proof (load_len _ _ _ _ Hl) as En. apply load_app; [rewrite length_take; lia|rewrite length_drop; lia|].
  rewrite take_drop. by replace (k + (n - k))%nat with n by lia.
Qed.

(** Eight bytes are read as two words. *)
Lemma read_longs m pl n d :
  load m pl n = Some d -> bytes d -> (8 <= n)%nat ->
  exists x y, take 8 d = x ++ y /\ length x = 4%nat /\ length y = 4%nat /\ bytes x /\ bytes y /\
    read32 m pl = Some (of_le x) /\ read32 m (pl + 4) = Some (of_le y) /\
    load m (pl + 8) (n - 8) = Some (drop 8 d).
Proof.
  intros Hl Hb Hn. pose proof (load_len _ _ _ _ Hl) as En. destruct (load_split m pl n d 8 Hl Hn) as [H8 Hr].
  destruct (load_split m pl 8 (take 8 d) 4 H8 ltac:(lia)) as [H4 H4']. change (8 - 4)%nat with 4%nat in H4'.
  exists (take 4 (take 8 d)), (drop 4 (take 8 d)). unfold read32.
  change (Z.of_nat 4) with 4 in H4'. change (Z.of_nat 8) with 8 in Hr. rewrite H4, H4'.
  split; [by rewrite take_drop|]. split; [by eapply load_len|]. split; [by eapply load_len|].
  split; [by repeat apply Forall_take|]. split; [by apply Forall_drop, Forall_take|]. done.
Qed.

Lemma of_le_range4 x : bytes x -> length x = 4%nat -> 0 <= of_le x < 2 ^ 32.
Proof. intros Hb Hx. pose proof (of_le_range x Hb) as H. by rewrite Hx in H. Qed.

Lemma of_le_longs x y z : length x = 4%nat -> length y = 4%nat -> bytes x -> bytes y -> bytes z ->
  of_le (x ++ y ++ z) ≈ of_le x + of_le y + of_le z.
Proof.
  intros Hx Hy Hbx Hby Hbz. rewrite !of_le_app, Hx, Hy, <- Z.add_assoc.
  pose proof (of_le_nonneg _ Hbx). pose proof (of_le_nonneg _ Hby). pose proof (of_le_nonneg _ Hbz).
  apply oc_eq_add_r; [done|]. change 4%nat with (2 + 2)%nat. rewrite oc_eq_pow by lia.
  apply oc_eq_add_r; [done|]. by apply oc_eq_pow.
Qed.

Lemma add_longs_spec m fuel pl n sum d :
  load m pl n = Some d -> bytes d -> (n <= fuel)%nat -> 0 <= sum < 2 ^ 32 ->
  exists x y s, d = x ++ y /\ Nat.Even (length x) /\ (length y <= 7)%nat /\
    add_longs fuel m pl (Z.of_nat n) sum = Some (pl + Z.of_nat (length x), Z.of_nat (length y), s) /\
    0 <= s < 2 ^ 32 /\ s ≈ sum + of_le x.
Proof.
  revert pl n sum d. induction fuel as [|fuel IH]; intros pl n sum d Hl Hb Hf Hs;
    pose proof (load_len _ _ _ _ Hl) as En; cbn [add_longs];
    (destruct (Z.ltb_spec 7 (Z.of_nat n)) as [Hlt|Hge];
      [|exists [], d, sum; rewrite !Z.add_0_r, En; split; [done|]; split; [by exists 0%nat|]; split; [lia|];
        split; [done|]; split; [done|]; apply oc_eq_refl; lia]); [lia|].
  destruct (read_longs m pl n d Hl Hb ltac:(lia)) as (x & y & E8 & Hx & Hy & Hbx & Hby & -> & E4 & Hr).
  cbn [mbind option_bind]. rewrite E4. cbn [mbind option_bind].
  destruct (carry_add sum (of_le x) Hs (of_le_range4 _ Hbx Hx)) as [Hs1 Hq1]. set (s1 := if _ <? sum then _ else _) in *.
  destruct (carry_add s1 (of_le y) Hs1 (of_le_range4 _ Hby Hy)) as [Hs2 Hq2]. set (s2 := if _ <? s1 then _ else _) in *.
  replace (Z.of_nat n - 8) with (Z.of_nat (n - 8)) by lia.
  pose proof (Forall_drop _ 8 _ Hb) as Hb'.
  destruct (IH (pl + 8) (n - 8)%nat s2 (drop 8 d) Hr Hb' ltac:(lia) Hs2)
    as (x' & y' & s & Ed & [k Hk] & Hy' & E & Hsr & Hq).
  rewrite Ed in Hb'. apply Forall_app in Hb' as [Hbx' _].
  exists (x ++ y ++ x'), y', s. split; [by rewrite <- (take_drop 8 d), E8, Ed, !app_assoc|].
  rewrite !length_app, Hx, Hy. split; [exists (4 + k)%nat; lia|]. split; [done|].
  split; [rewrite E; f_equal; f_equal; f_equal; lia|]. split; [done|].
  rewrite Hq. transitivity (sum + (of_le x + of_le y + of_le x'));
    [|apply oc_eq_add_r; [lia|symmetry; by apply of_le_longs]].
  pose proof (of_le_nonneg _ Hbx'). rewrite (Z.add_assoc sum). apply oc_eq_add; [|by apply oc_eq_refl]. rewrite Hq2, Z.add_assoc.
  apply oc_eq_add; [done|]. by apply oc_eq_refl, of_le_nonneg.
Qed.

Lemma get_aligned_long_spec m pb d :
  load m pb (length d) = Some d -> bytes d ->
  exists x y ps, d = x ++ y /\ Nat.Even (length x) /\ load m ps (length y) = Some y /\ bytes x /\ bytes y /\
    get_aligned_long pb (Z.of_nat (length d)) m = Some (ps, Z.of_nat (length y), word_sum x) /\
    0 <= word_sum x <= 65535.
Proof.
  intros Hl Hb. unfold get_aligned_long. destruct (negb _ && _) eqn:E.
  - apply andb_true_iff in E as [_ E%Z.ltb_lt]. destruct d as [|b0 [|b1 d]]; cbn [length] in *; [lia..|].
    destruct (read16_load _ _ _ _ _ _ Hl) as [-> Hl']. apply Forall_cons in Hb as [H0 Hb]. apply Forall_cons in Hb as [H1 Hb].
    exists [b0; b1], d, (pb + 2). cbn [mbind option_bind word_sum]. unfold is_byte in *. rewrite Z.add_0_r.
    split; [done|]. split; [by exists 1%nat|]. split; [done|]. split; [by repeat (apply Forall_cons; split)|]. split; [done|].
    split; [|lia]. f_equal. f_equal. f_equal. lia.
  - exists [], d, pb. split; [done|]. split; [by exists 0%nat|]. repeat split; done || lia.
Qed.

(** The three stretches of the buffer that version 3 adds in different ways. *)
Lemma of_le_stretches x x1 x2 y : bytes x -> bytes x1 -> bytes x2 -> bytes y ->
  Nat.Even (length x) -> Nat.Even (length x1) -> Nat.Even (length x2) ->
  of_le (x ++ x1 ++ x2 ++ y) ≈ word_sum x + of_le x1 + (word_sum x2 + of_le y).
Proof.
  intros Hx Hx1 Hx2 Hy He He1 He2. pose proof (word_sum_even x Hx He).
  assert (Hb2 : bytes (x2 ++ y)) by by apply Forall_app.
  rewrite of_le_app_even by (try done; by apply Forall_app). rewrite <- Z.add_assoc. apply oc_eq_add_r; [lia|].
  rewrite of_le_app_even by done. apply oc_eq_add; [symmetry; by apply of_le_word_sum|]. by apply of_le_app_even.
Qed.

Lemma chksum_3_spec m p n d :
  load m p n = Some d -> bytes d ->
  exists r, lwip_standard_chksum_3 p (Z.of_nat n) m = Some r /\ 0 <= r <= 65535 /\ r ≈ of_le d.
Proof.
  intros Hl Hb. unfold lwip_standard_chksum_3. set (odd := negb (Z.land p 1 =? 0)).
  destruct (get_aligned_spec m odd p n d Hl Hb) as (t0 & pb & d' & -> & Hl' & Hb' & Ht & Hd & _).
  cbn [mbind option_bind].
  destruct (get_aligned_long_spec m pb d' Hl' Hb') as (x & y & ps & -> & He & Hly & Hbx & Hby & -> & Hw).
  cbn [mbind option_bind]. rewrite Nat2Z.id.
  destruct (add_longs_spec m (length y) ps (length y) (word_sum x) y Hly Hby ltac:(lia) ltac:(lia))
    as (x1 & y1 & s & -> & He1 & Hy1 & -> & Hs & Hq1).
  cbn [mbind option_bind]. rewrite Nat2Z.id. rewrite length_app in Hly.
  apply (load_app m ps _ _ x1 y1 eq_refl eq_refl) in Hly as [_ Hly1]. apply Forall_app in Hby as [Hbx1 Hby1].
  pose proof (fold_range s 65536 ltac:(lia) ltac:(lia)) as Hfs.
  destruct (add_words_spec m (length y1) _ (length y1) (FOLD_U32T s) y1 Hly1 Hby1 ltac:(lia) ltac:(lia) ltac:(lia))
    as (x2 & y2 & -> & He2 & Hy2 & ->).
  cbn [mbind option_bind]. apply Forall_app in Hby1 as [Hbx2 Hby2]. rewrite length_app in *.
  apply (load_app m _ _ _ x2 y2 eq_refl eq_refl) in Hly1 as [_ Hly2].
  pose proof (word_sum_even x2 Hbx2 He2) as Hw2. pose proof (of_le_small y2 Hby2 Hy2). unfold is_byte in Ht.
  destruct (add_end_bytes_spec m odd t0 _ y2 (FOLD_U32T s + word_sum x2) Hly2 Hby2 Hy2 Ht) as (r & E & Hr & Hq); [lia|lia|].
  exists r. split; [done|]. split; [done|]. rewrite Hq.
  assert (Hall : FOLD_U32T s + word_sum x2 + (256 * t0 + of_le y2) ≈ 256 * t0 + of_le (x ++ x1 ++ x2 ++ y2)).
  { replace (FOLD_U32T s + word_sum x2 + (256 * t0 + of_le y2))
      with (256 * t0 + (FOLD_U32T s + (word_sum x2 + of_le y2))) by lia.
    apply oc_eq_add_r; [lia|]. rewrite of_le_stretches by done.
    apply oc_eq_add; [rewrite (fold_eq s) by done; done|]. apply oc_eq_refl. lia. }
  destruct odd; [rewrite Hd; by apply oc_eq_256|]. destruct Hd as [-> <-]. exact Hall.
Qed.

(** ** Version 1 *)

Lemma add_octets_spec m fuel ps n acc d :
  load m ps n = Some d -> bytes d -> (n <= fuel)%nat -> 0 <= acc -> 2 * acc + 65535 * (Z.of_nat n + 1) < 2 ^ 33 ->
  exists x y s, d = x ++ y /\ Nat.Even (length x) /\ (length y <= 1)%nat /\
    add_octets fuel m ps (Z.of_nat n) acc = Some (ps + Z.of_nat (length x), Z.of_nat (length y), acc + s) /\
    s ≈ 256 * word_sum x /\ 0 <= 2 * s <= 65535 * Z.of_nat (length x).
Proof.
  revert fuel ps n acc. induction d as [|b|b0 b1 d IH] using list_pairs; intros fuel ps n acc Hl Hb Hf H0 Hs;
    pose proof (load_len _ _ _ _ Hl) as En; cbn [length] in En; subst n.
  - exists [], [], 0. split; [done|]. split; [by exists 0%nat|]. split; [cbn; lia|].
    split; [destruct fuel; cbn [add_octets length]; by rewrite !Z.add_0_r|]. split; [by apply oc_eq_refl|done].
  - exists [], [b], 0. split; [done|]. split; [by exists 0%nat|]. split; [cbn; lia|].
    split; [destruct fuel; cbn [add_octets length]; by rewrite !Z.add_0_r|]. split; [by apply oc_eq_refl|done].
  - apply Forall_cons in Hb as [Hb0 Hb]. apply Forall_cons in Hb as [Hb1 Hb]. unfold is_byte in *.
    destruct fuel as [|fuel]; [lia|]. apply load_cons in Hl as [E0 Hl]. apply load_cons in Hl as [E1 Hl].
    cbn [add_octets]. rewrite (proj2 (Z.ltb_lt 1 _)), E0, E1 by lia. cbn [mbind option_bind].
    assert (Ew : Z.lor (u16 (Z.shiftl b0 8)) b1 = 256 * b0 + b1).
    { rewrite u16_small by (rewrite Z.shiftl_mul_pow2; lia). rewrite lor_shiftl by lia. lia. }
    rewrite Ew, u32_small by lia. replace (Z.of_nat (S (S (length d))) - 2) with (Z.of_nat (length d)) by lia.
    replace (ps + 2) with (ps + 1 + 1) by lia.
    destruct (IH fuel (ps + 1 + 1) (length d) (acc + (256 * b0 + b1)) Hl Hb) as (x & y & s & -> & [k Hk] & Hy & E & Hq & Hr); [lia..|].
    exists (b0 :: b1 :: x), y, (256 * b0 + b1 + s). split; [done|]. split; [exists (S k); cbn [length]; lia|]. split; [done|].
    rewrite E. cbn [word_sum length]. split; [f_equal; f_equal; [f_equal|]; lia|]. split; [|lia].
    replace (256 * (b0 + 256 * b1 + word_sum x)) with (256 * b0 + 256 * (256 * b1) + 256 * word_sum x) by lia.
    apply oc_eq_add; [|done]. apply oc_eq_add_r; [lia|]. symmetry. apply oc_eq_wrap. lia.
Qed.

(** The second fold is only done when there is a carry, which makes no difference. *)
Lemma fold_if u : 0 <= u < 2 ^ 32 ->
  let v := FOLD_U32T u in let w := if negb (Z.land v 0xffff0000 =? 0) then FOLD_U32T v else v in
  w ≈ u /\ 0 <= w <= 65535.
Proof.
  intros Hu v w. pose proof (fold_range u 65536 ltac:(lia) ltac:(lia)) as Hv. pose proof (fold_eq u Hu) as Hq.
  subst w. destruct (Z.eqb_spec (Z.land v 0xffff0000) 0) as [E|E]; cbn [negb]; [|by apply fold_twice].
  split; [done|]. fold v in Hv, Hq. split; [lia|].
  destruct (Z.le_gt_cases v 65535) as [|Hgt]; [done|]. exfalso.
  assert (Ht : Z.testbit (Z.land v 0xffff0000) 16 = true); [|by rewrite E in Ht].
  rewrite Z.land_spec. apply andb_true_iff. split; [|done].
  rewrite Z.testbit_true by lia. change (2 ^ 16) with 65536.
  assert (v / 65536 = 1) as ->; [|done]. symmetry. apply (Z.div_unique_pos v 65536 1 (v - 65536)); lia.
Qed.

Lemma chksum_1_spec m p n d :
  load m p n = Some d -> bytes d -> Z.of_nat n <= 0x20000 ->
  exists r, lwip_standard_chksum_1 p (Z.of_nat n) m = Some r /\ 0 <= r <= 65535 /\ r ≈ of_le d.
Proof.
  intros Hl Hb Hn. unfold lwip_standard_chksum_1. rewrite Nat2Z.id.
  destruct (add_octets_spec m n p n 0 d Hl Hb ltac:(lia) ltac:(lia) ltac:(lia)) as (x & y & s & -> & He & Hy & -> & Hq & Hr).
  cbn [mbind option_bind]. rewrite Z.add_0_l. pose proof (load_len _ _ _ _ Hl) as En. rewrite length_app in En. subst n.
  apply (load_app m p _ _ x y eq_refl eq_refl) in Hl as [_ Hly]. apply Forall_app in Hb as [Hbx Hby].
  pose proof (of_le_small y Hby Hy) as Hys.
  assert (Et : (if 0 <? Z.of_nat (length y) then let? b := m !! (p + Z.of_nat (length x)) in Some (u32 (s + u16 (Z.shiftl b 8)))
                else Some s) = Some (s + 256 * of_le y)).
  { destruct y as [|b [|]]; cbn [length of_le] in *; [f_equal; cbn; lia| |lia].
    apply load_cons in Hly as [-> _]. cbn [mbind option_bind]. rewrite (proj2 (Z.ltb_lt 0 _)) by lia.
    rewrite u16_small by (rewrite Z.shiftl_mul_pow2; lia). rewrite Z.shiftl_mul_pow2, u32_small by lia. f_equal. lia. }
  rewrite Et. cbn [mbind option_bind]. set (u := s + 256 * of_le y) in *.
  destruct (fold_if u ltac:(unfold u; lia)) as [Hw Hwr]. set (w := if negb _ then FOLD_U32T (FOLD_U32T u) else _) in *.
  rewrite (u16_small w) by lia. destruct (swap_eq w Hwr) as [Hs Hsr]. change (SWAP_BYTES_IN_WORD w) with (PP_HTONS w) in *.
  eexists. split; [done|]. unfold lwip_htons. rewrite u16_small by lia. split; [done|]. rewrite Hs, Hw.
  rewrite of_le_app_even by done. pose proof (word_sum_even x Hbx He).
  transitivity (256 * (256 * (word_sum x + of_le y))); [|apply oc_eq_wrap; lia].
  apply oc_eq_256. unfold u. rewrite Z.mul_add_distr_l. apply oc_eq_add; [done|]. apply oc_eq_refl. lia.
Qed.

(** * Checksums of packets

    The checksum of a chain of pbufs is the one of its bytes, whatever their
    distribution over pbufs and the alignment of the payloads. *)

(** ** Swapped sums *)

(** What a sum stands for. *)
Definition unswap (swapped : bool) (v : Z) : Z := if swapped then 256 * v else v.

Lemma unswap_eq sw a b : a ≈ b -> unswap sw a ≈ unswap sw b.
Proof. destruct sw; [apply oc_eq_256|done]. Qed.

Lemma unswap_swap sw a : 0 <= a <= 65535 -> unswap (negb sw) (SWAP_BYTES_IN_WORD a) ≈ unswap sw a.
Proof.
  intros Ha. destruct (swap_eq a Ha) as [Hq _]. destruct sw; cbn [unswap negb]; [done|].
  rewrite Hq. apply oc_eq_wrap. lia.
Qed.

(** The end of the functions over a chain. *)
Lemma unswap_end (sw : bool) a : 0 <= a <= 65535 ->
  let v := if sw then SWAP_BYTES_IN_WORD a else a in v ≈ unswap sw a /\ 0 <= v <= 65535.
Proof. intros Ha. destruct sw; cbn; [by apply swap_eq|]. split; [apply oc_eq_refl; lia|done]. Qed.

Definition odd_len (x : list Z) : bool := negb (Z.rem (Z.of_nat (length x)) 2 =? 0).

Lemma odd_len_parity x : odd_len x = false /\ Nat.Even (length x) \/ odd_len x = true /\ exists k, length x = S (k + k).
Proof.
  unfold odd_len. rewrite Z.rem_mod_nonneg by lia. destruct (Nat.Even_or_Odd (length x)) as [[k Hk]|[k Hk]]; [left|right].
  - assert (Z.of_nat (length x) mod 2 = 0) as -> by (apply Z.mod_divide; [lia|]; exists (Z.of_nat k); lia).
    split; [done|by exists k].
  - assert (Z.of_nat (length x) mod 2 = 1) as -> by (symmetry; apply (Z.mod_unique_pos _ _ (Z.of_nat k)); lia).
    split; [done|]. exists k. lia.
Qed.

Lemma of_le_app_parity x y : bytes x -> bytes y ->
  of_le (x ++ y) ≈ of_le x + unswap (odd_len x) (of_le y).
Proof.
  intros Hx Hy. rewrite of_le_app. apply oc_eq_add_r; [by apply of_le_nonneg|]. pose proof (of_le_nonneg y Hy).
  destruct (odd_len_parity x) as [[-> [k Hk]]|[-> [k Hk]]]; rewrite Hk; cbn [unswap].
  - replace (2 * k)%nat with (k + k)%nat by lia. by apply oc_eq_pow.
  - rewrite Nat2Z.inj_succ, Z.pow_succ_r, <- Z.mul_assoc by lia. by apply oc_eq_256, oc_eq_pow.
Qed.

(** Adding the bytes of one pbuf, then those behind it. *)
Lemma unswap_step sw acc x y a1 :
  0 <= acc -> bytes x -> bytes y -> 0 <= a1 <= 65535 -> a1 ≈ acc + of_le x ->
  unswap (if odd_len x then negb sw else sw) ((if odd_len x then SWAP_BYTES_IN_WORD a1 else a1) + of_le y)
  ≈ unswap sw (acc + of_le (x ++ y)).
Proof.
  intros H0 Hx Hy Ha Hq. pose proof (of_le_nonneg y Hy) as Hy0.
  assert (Hxy : acc + of_le (x ++ y) ≈ a1 + unswap (odd_len x) (of_le y)).
  { transitivity (acc + (of_le x + unswap (odd_len x) (of_le y))); [apply oc_eq_add_r; [done|by apply of_le_app_parity]|].
    rewrite Z.add_assoc. apply oc_eq_add; [by symmetry|]. apply unswap_eq. by apply oc_eq_refl. }
  destruct (odd_len x); cbn [unswap] in *; [|apply unswap_eq; by symmetry].
  destruct (swap_eq a1 Ha) as [Hs _]. pose proof (oc_eq_refl _ Hy0) as Hyy. destruct sw; cbn [negb unswap].
  - transitivity (256 * (a1 + 256 * of_le y)); [|by apply oc_eq_256; symmetry].
    rewrite Z.mul_add_distr_l. apply oc_eq_add; [done|]. symmetry. by apply oc_eq_wrap.
  - transitivity (a1 + 256 * of_le y); [|by symmetry]. rewrite Z.mul_add_distr_l.
    apply oc_eq_add; [|by apply oc_eq_256]. transitivity (256 * (256 * a1)); [by apply oc_eq_256|]. apply oc_eq_wrap. lia.
Qed.

(** ** The loops *)

Lemma wf_len_range a b l : wf ((a, b) :: l) -> 0 <= len b < 65536.
Proof. intros (H0 & Ht & Hlt & Hw). pose proof (wf_total l Hw). lia. Qed.

(** One pbuf. *)
Lemma chksum_acc h acc p n x :
  load (ram h) p n = Some x -> bytes x -> Z.of_nat n < 65536 -> 0 <= acc <= 65535 ->
  exists s, lwip_standard_chksum p (Z.of_nat n) (ram h) = Some s /\
    0 <= FOLD_U32T (u32 (acc + s)) <= 65535 /\ FOLD_U32T (u32 (acc + s)) ≈ acc + of_le x.
Proof.
  intros Hl Hb Hn Ha. destruct (chksum_spec _ _ _ _ Hl Hb ltac:(lia)) as (s & E & Hs & Hq). exists s. split; [done|].
  rewrite u32_small by lia. split; [apply fold_once; lia|]. rewrite fold_eq by lia. apply oc_eq_add_r; [lia|done].
Qed.

Lemma chksum_loop_spec h l : forall fuel q acc sw d,
  chain h q l -> wf l -> contents (ram h) l = Some d -> bytes d -> (length l <= fuel)%nat -> 0 <= acc <= 65535 ->
  exists acc' sw', chksum_loop fuel q acc sw h = Some (acc', sw') /\ 0 <= acc' <= 65535 /\
    unswap sw' acc' ≈ unswap sw (acc + of_le d).
Proof.
  induction l as [|[a b] l IH]; intros fuel q acc sw d Hc Hw Hd Hb Hf Ha; cbn [chain contents length] in *.
  - subst q. injection Hd as <-. exists acc, sw. split; [by destruct fuel|]. split; [done|]. cbn [of_le].
    rewrite Z.add_0_r. apply unswap_eq, oc_eq_refl. lia.
  - destruct Hc as (-> & Hne & Hlk & Hc). destruct fuel as [|fuel]; [lia|]. pose proof (wf_len_range _ _ _ Hw) as Hlen.
    destruct Hw as (_ & _ & _ & Hw).
    destruct (load _ _ _) as [x|] eqn:El; [|done]. destruct (contents (ram h) l) as [y|] eqn:Ey; [|done].
    injection Hd as <-. apply Forall_app in Hb as [Hbx Hby]. pose proof (load_len _ _ _ _ El) as En.
    destruct (chksum_acc h acc _ _ x El Hbx ltac:(lia) Ha) as (s & Es & Hr & Hq). rewrite Z2Nat.id in Es by lia.
    cbn [chksum_loop]. rewrite (proj2 (Z.eqb_neq a 0) Hne), Hlk. cbn [mbind option_bind]. rewrite Es. cbn [mbind option_bind].
    set (a1 := FOLD_U32T (u32 (acc + s))) in *.
    pose proof (unswap_step sw acc x y a1 ltac:(lia) Hbx Hby Hr Hq) as Hstep.
    replace (negb (Z.rem (len b) 2 =? 0)) with (odd_len x) by (unfold odd_len; rewrite En, Z2Nat.id by lia; done).
    destruct (odd_len x).
    + destruct (IH fuel (next b) (SWAP_BYTES_IN_WORD a1) (negb sw) y Hc Hw eq_refl Hby ltac:(lia)) as (acc' & sw' & E & Hr' & Hq');
        [by apply swap_eq|]. exists acc', sw'. split; [done|]. split; [done|]. by rewrite Hq'.
    + destruct (IH fuel (next b) a1 sw y Hc Hw eq_refl Hby ltac:(lia) Hr) as (acc' & sw' & E & Hr' & Hq').
      exists acc', sw'. split; [done|]. split; [done|]. by rewrite Hq'.
Qed.

Lemma partial_loop_0 fuel q acc sw h : partial_loop fuel q 0 acc sw h = Some (acc, sw).
Proof. destruct fuel; cbn [partial_loop]; by rewrite andb_false_r. Qed.

(** The first [c] bytes; the parity of a pbuf that is cut does not matter. *)
Lemma partial_loop_spec h l : forall fuel q c acc sw d,
  chain h q l -> wf l -> contents (ram h) l = Some d -> bytes d -> (length l <= fuel)%nat -> 0 <= acc <= 65535 ->
  0 <= c < 0x7fff ->
  exists acc' sw', partial_loop fuel q c acc sw h = Some (acc', sw') /\ 0 <= acc' <= 65535 /\
    unswap sw' acc' ≈ unswap sw (acc + of_le (take (Z.to_nat c) d)).
Proof.
  induction l as [|[a b] l IH]; intros fuel q c acc sw d Hc Hw Hd Hb Hf Ha Hcl; cbn [chain contents length] in *.
  - subst q. injection Hd as <-. exists acc, sw. split; [by destruct fuel|]. split; [done|]. rewrite take_nil. cbn [of_le].
    rewrite Z.add_0_r. apply unswap_eq, oc_eq_refl. lia.
  - destruct Hc as (-> & Hne & Hlk & Hc). destruct fuel as [|fuel]; [lia|]. pose proof (wf_len_range _ _ _ Hw) as Hlen.
    destruct Hw as (_ & _ & _ & Hw).
    destruct (load _ _ _) as [x|] eqn:El; [|done]. destruct (contents (ram h) l) as [y|] eqn:Ey; [|done].
    injection Hd as <-. apply Forall_app in Hb as [Hbx Hby]. pose proof (load_len _ _ _ _ El) as En.
    cbn [partial_loop]. rewrite (proj2 (Z.eqb_neq a 0) Hne). cbn [negb andb].
    destruct (Z.ltb_spec 0 c) as [Hc0|Hc0].
    2:{ exists acc, sw. split; [done|]. split; [done|]. replace (Z.to_nat c) with 0%nat by lia. cbn [take of_le].
        rewrite Z.add_0_r. apply unswap_eq, oc_eq_refl. lia. }
    rewrite Hlk. cbn [mbind option_bind]. destruct (Z.ltb_spec c (len b)) as [Hcut|Hcut].
    + destruct (load_split _ _ _ _ (Z.to_nat c) El ltac:(lia)) as [El' _].
      rewrite take_app_le by lia. pose proof (Forall_take _ (Z.to_nat c) _ Hbx) as Hbx'.
      destruct (chksum_acc h acc _ _ _ El' Hbx' ltac:(lia) Ha) as (s & Es & Hr & Hq). rewrite Z2Nat.id in Es by lia.
      rewrite Es. cbn [mbind option_bind]. rewrite Z.sub_diag. change (u16 0) with 0.
      change (negb (0 <? 0x7fff)) with false. cbv iota.
      rewrite !partial_loop_0. set (a1 := FOLD_U32T (u32 (acc + s))) in *.
      destruct (negb _); [exists (SWAP_BYTES_IN_WORD a1), (negb sw)|exists a1, sw]; (split; [done|]).
      * split; [by apply swap_eq|]. rewrite unswap_swap by done. by apply unswap_eq.
      * split; [done|]. by apply unswap_eq.
    + destruct (chksum_acc h acc _ _ x El Hbx ltac:(lia) Ha) as (s & Es & Hr & Hq). rewrite Z2Nat.id in Es by lia.
      rewrite Es. cbn [mbind option_bind]. rewrite (u16_small (c - len b)) by lia.
      rewrite (proj2 (Z.ltb_lt _ 0x7fff)) by lia. cbn [negb].
      set (a1 := FOLD_U32T (u32 (acc + s))) in *. rewrite take_app_ge by lia.
      replace (Z.to_nat c - length x)%nat with (Z.to_nat (c - len b)) by lia.
      pose proof (Forall_take _ (Z.to_nat (c - len b)) _ Hby) as Hby'.
      pose proof (unswap_step sw acc x (take (Z.to_nat (c - len b)) y) a1 ltac:(lia) Hbx Hby' Hr Hq) as Hstep.
      replace (negb (Z.rem (len b) 2 =? 0)) with (odd_len x) by (unfold odd_len; rewrite En, Z2Nat.id by lia; done).
      destruct (odd_len x).
      * destruct (IH fuel (next b) (c - len b) (SWAP_BYTES_IN_WORD a1) (negb sw) y Hc Hw eq_refl Hby ltac:(lia))
          as (acc' & sw' & E & Hr' & Hq'); [by apply swap_eq|lia|].
        exists acc', sw'. split; [done|]. split; [done|]. by rewrite Hq'.
      * destruct (IH fuel (next b) (c - len b) a1 sw y Hc Hw eq_refl Hby ltac:(lia) Hr) as (acc' & sw' & E & Hr' & Hq'); [lia|].
        exists acc', sw'. split; [done|]. split; [done|]. by rewrite Hq'.
Qed.
