(* ===== verification/InetChksumTheorems.v ===== *)
(** * What the checksum functions compute and detect

    The functions agree with the reference of RFC 1071 over the bytes of the
    packet, the versions of the inner loop with one another, and a packet with the
    computed checksum is accepted while one with a corrupted byte is not. *)

From Stdlib Require Import ZArith Lia.
From stdpp Require Import base gmap list numbers.
From S2P Require Import Prelude LwipDef Pbuf PbufChain InetChksum InetChksumSpec InetChksumProof.
From stdpp Require Import sets list.
Import OptionNotations.

Local Open Scope Z_scope.
Local Open Scope oc_scope.

(** ** The inner loops *)

(** C28: All three versions of the sum over a buffer compute the one's complement
    sum of RFC 1071 of its bytes, at any address, odd ones included, and for any
    length up to 0x20000: no 32-bit sum overflows.  That bound is the one the
    code gives for version 2, which the firmware uses; the comment on version 1
    gives 64k, half of what its accumulator can take. *)
Theorem chksum_versions_agree m p n d :
  load m p n = Some d -> bytes d -> Z.of_nat n <= 0x20000 ->
  lwip_standard_chksum p (Z.of_nat n) m = Some (oc (word_sum d)) /\
  lwip_standard_chksum_1 p (Z.of_nat n) m = Some (oc (word_sum d)) /\
  lwip_standard_chksum_3 p (Z.of_nat n) m = Some (oc (word_sum d)).
Proof.
  intros Hl Hb Hn. destruct (chksum_spec m p n d Hl Hb Hn) as (r & -> & Hr & Hq).
  destruct (chksum_1_spec m p n d Hl Hb Hn) as (r1 & -> & Hr1 & Hq1).
  destruct (chksum_3_spec m p n d Hl Hb) as (r3 & -> & Hr3 & Hq3).
  pose proof (of_le_word_sum d Hb) as Hw. split; [|split]; f_equal; apply oc_unique; try lia.
  - by rewrite Hq.
  - by rewrite Hq1.
  - by rewrite Hq3.
Qed.

Lemma chksum_versions_agree_witness :
  let d := [0x45; 0; 0; 0x1c; 0xff; 0xff; 0xfe; 0x01; 0x80; 0x11; 0x7f] in
  let m := write ∅ 1001 d in
  oc (word_sum d) = 0x3042 /\ lwip_standard_chksum 1001 11 m = Some 0x3042 /\
  lwip_standard_chksum_1 1001 11 m = Some 0x3042 /\ lwip_standard_chksum_3 1001 11 m = Some 0x3042.
Proof.
  intros d m. assert (E : oc (word_sum d) = 0x3042) by (vm_compute; reflexivity). split; [exact E|].
  rewrite <- E. apply (chksum_versions_agree m 1001 11 d);
    [vm_compute; reflexivity|repeat (apply Forall_cons; split; [by vm_compute|]); done|lia].
Defined.

(** ** Packets *)

Lemma not16_value v : 0 <= v <= 65535 -> not16 v = 65535 - v.
Proof.
  intros Hv. unfold not16. change 0xffff with (Z.ones 16) at 1 2. rewrite Z.land_ones, Z.mod_small by lia.
  assert (E : v + Z.lxor v (Z.ones 16) = Z.ones 16).
  { rewrite Z.add_nocarry_lxor.
    - by rewrite <- Z.lxor_assoc, Z.lxor_nilpotent, Z.lxor_0_l.
    - apply Z.bits_inj'. intros i Hi. rewrite Z.land_spec, Z.lxor_spec, Z.bits_0.
      destruct (Z.ltb_spec i 16).
      + rewrite Z.ones_spec_low by lia. by destruct (Z.testbit v i).
      + rewrite <- (Z.mod_small v (2 ^ 16)) by lia. by rewrite Z.mod_pow2_bits_high by lia. }
  change (Z.ones 16) with 65535 in *. lia.
Qed.

(** The complement of a sum that is equivalent to that of the bytes. *)
Lemma not16_oc v s : v ≈ s -> 0 <= v <= 65535 -> not16 v = 65535 - oc s.
Proof. intros Hq Hv. rewrite not16_value by done. f_equal. apply oc_unique; [done|lia]. Qed.

(** The checksum of a packet is the complement of the one's complement sum of
    its bytes, however they are distributed over pbufs of odd and even lengths and
    wherever the payloads are in memory. *)
Theorem inet_chksum_pbuf_reference h p l d :
  packet h p l d -> bytes d -> inet_chksum_pbuf p h = Some (65535 - oc (word_sum d)).
Proof.
  intros [Hc Hw Hd] Hb. unfold inet_chksum_pbuf. pose proof (chain_fuel_enough _ _ _ Hc).
  destruct (chksum_loop_spec h l (chain_fuel h) p 0 false d Hc Hw Hd Hb ltac:(lia) ltac:(lia)) as (acc & sw & -> & Hr & Hq).
  cbn [mbind option_bind]. destruct (unswap_end sw acc Hr) as [Hv Hvr]. f_equal. apply not16_oc; [|done].
  rewrite Hv, Hq. by apply of_le_word_sum.
Qed.

(** ** The pseudo header *)

(** RFC 793: the addresses, as they are in memory, zero, the protocol and the length. *)
Definition pseudo_header (src dest proto proto_len : Z) : list Z :=
  le_bytes 4 src ++ le_bytes 4 dest ++ [0; proto] ++ be_bytes 2 proto_len.

Lemma bytes_pseudo src dest proto proto_len : is_byte proto -> bytes (pseudo_header src dest proto proto_len).
Proof.
  intros Hp. unfold pseudo_header. rewrite !Forall_app. split; [apply bytes_le_bytes|]. split; [apply bytes_le_bytes|].
  split; [|apply bytes_be_bytes]. apply Forall_cons; split; [by vm_compute|]. by apply Forall_cons.
Qed.

Lemma halves z : is_u 32 z -> word_sum (le_bytes 4 z) = Z.land z 0xffff + Z.land (Z.shiftr z 16) 0xffff.
Proof.
  intros Hz. unfold is_u in Hz. change 0xffff with (Z.ones 16). rewrite !Z.land_ones, Z.shiftr_div_pow2 by lia.
  cbn [le_bytes word_sum]. rewrite !Z.div_div by lia. change (2 ^ 16) with 65536. change (256 * 256) with 65536.
  pose proof (Z.div_lt_upper_bound z 65536 65536 ltac:(lia) ltac:(lia)). pose proof (Z.div_pos z 65536 ltac:(lia) ltac:(lia)).
  pose proof (Z.rem_mul_r z 256 256 ltac:(lia) ltac:(lia)) as E1. change (256 * 256) with 65536 in E1.
  pose proof (Z.rem_mul_r (z / 65536) 256 256 ltac:(lia) ltac:(lia)) as E2. change (256 * 256) with 65536 in E2.
  rewrite Z.div_div in E2 by lia. change (65536 * 256) with 16777216 in *. lia.
Qed.

Lemma word_sum_app x y : Nat.Even (length x) -> word_sum (x ++ y) = word_sum x + word_sum y.
Proof.
  induction x as [|a|a b x IH] using list_pairs; intros [k Hk]; cbn [app word_sum length] in *; [done|lia|].
  rewrite IH; [lia|]. exists (k - 1)%nat. lia.
Qed.

Lemma pseudo_sum src dest proto proto_len :
  is_u 32 src -> is_u 32 dest -> is_byte proto -> is_u 16 proto_len ->
  word_sum (pseudo_header src dest proto proto_len) =
  Z.land src 0xffff + Z.land (Z.shiftr src 16) 0xffff + (Z.land dest 0xffff + Z.land (Z.shiftr dest 16) 0xffff) +
  (lwip_htons (u16 proto) + lwip_htons proto_len).
Proof.
  intros Hs Hd Hp Hl. unfold pseudo_header, is_byte, is_u in *.
  rewrite word_sum_app by (rewrite length_le_bytes; by exists 2%nat).
  rewrite word_sum_app by (rewrite length_le_bytes; by exists 2%nat).
  rewrite !halves by done. rewrite (u16_small proto), !lwip_htons_value by lia.
  rewrite (Z.mod_small proto), (Z.div_small proto) by lia.
  pose proof (Z.div_lt_upper_bound proto_len 256 256 ltac:(lia) ltac:(lia)).
  pose proof (Z.div_pos proto_len 256 ltac:(lia) ltac:(lia)).
  unfold be_bytes. cbn [le_bytes rev app word_sum]. rewrite (Z.mod_small (proto_len / 256)) by lia. lia.
Qed.

Lemma land_ffff z : 0 <= Z.land z 0xffff <= 65535.
Proof.
  change (Z.land z 0xffff) with (Z.land z (Z.ones 16)). rewrite Z.land_ones by lia. change (2 ^ 16) with 65536.
  pose proof (Z.mod_pos_bound z 65536 ltac:(lia)). lia.
Qed.

Lemma addr_acc_spec src dest : 0 <= addr_acc src dest <= 65535 /\
  addr_acc src dest ≈ Z.land src 0xffff + Z.land (Z.shiftr src 16) 0xffff + (Z.land dest 0xffff + Z.land (Z.shiftr dest 16) 0xffff).
Proof.
  unfold addr_acc. pose proof (land_ffff src). pose proof (land_ffff dest).
  pose proof (land_ffff (Z.shiftr src 16)). pose proof (land_ffff (Z.shiftr dest 16)).
  rewrite (u32_small (Z.land src 0xffff + _)) by lia. rewrite (u32_small (_ + Z.land dest 0xffff)) by lia.
  rewrite u32_small, <- (Z.add_assoc (_ + _) (Z.land dest 0xffff)) by lia.
  split; apply fold_twice; lia.
Qed.

Lemma lwip_htons_range x : 0 <= lwip_htons x <= 65535.
Proof. unfold lwip_htons. pose proof (wrap_range 16 (PP_HTONS x)) as H. unfold is_u in H. unfold u16. lia. Qed.

(** The result from the sum of the addresses and the data. *)
Lemma pseudo_end_spec src dest proto proto_len d v :
  is_u 32 src -> is_u 32 dest -> is_byte proto -> is_u 16 proto_len -> bytes d ->
  0 <= v <= 65535 -> v ≈ addr_acc src dest + of_le d ->
  pseudo_end proto proto_len v = 65535 - oc (word_sum (pseudo_header src dest proto proto_len ++ d)).
Proof.
  intros Hs Hd Hp Hl Hb Hv Hq. unfold pseudo_end. pose proof (lwip_htons_range (u16 proto)). pose proof (lwip_htons_range proto_len).
  rewrite (u32_small (v + _)) by lia. rewrite u32_small by lia.
  destruct (fold_twice (v + lwip_htons (u16 proto) + lwip_htons proto_len) ltac:(lia)) as [Hf Hfr].
  apply not16_oc; [|done]. rewrite Hf.
  rewrite word_sum_app by (unfold pseudo_header; rewrite !length_app, !length_le_bytes, length_be_bytes; by exists 6%nat).
  rewrite pseudo_sum by done. destruct (addr_acc_spec src dest) as [Har Ha].
  set (A := Z.land src _ + _ + _) in *. set (H' := lwip_htons (u16 proto)) in *. set (H'' := lwip_htons proto_len) in *.
  replace (v + H' + H'') with (H' + H'' + v) by lia. replace (A + (H' + H'') + word_sum d) with (H' + H'' + (A + word_sum d)) by lia.
  apply oc_eq_add_r; [lia|]. rewrite Hq. apply oc_eq_add; [done|]. by apply of_le_word_sum.
Qed.

Lemma pseudo_spec h p l d src dest proto proto_len :
  packet h p l d -> bytes d -> is_u 32 src -> is_u 32 dest -> is_byte proto -> is_u 16 proto_len ->
  inet_chksum_pseudo p proto proto_len src dest h =
  Some (65535 - oc (word_sum (pseudo_header src dest proto proto_len ++ d))).
Proof.
  intros [Hc Hw Hd] Hb Hs Hde Hp Hl. unfold inet_chksum_pseudo, inet_cksum_pseudo_base.
  pose proof (chain_fuel_enough _ _ _ Hc). destruct (addr_acc_spec src dest) as [Har _].
  destruct (chksum_loop_spec h l (chain_fuel h) p _ false d Hc Hw Hd Hb ltac:(lia) Har) as (acc & sw & -> & Hr & Hq).
  cbn [mbind option_bind]. destruct (unswap_end sw acc Hr) as [Hv Hvr]. f_equal.
  cbn [unswap] in Hq. apply pseudo_end_spec; [assumption..|]. rewrite Hv. exact Hq.
Qed.

Lemma length_pseudo src dest proto proto_len : length (pseudo_header src dest proto proto_len) = 12%nat.
Proof. unfold pseudo_header. by rewrite !length_app, !length_le_bytes, length_be_bytes. Qed.

(** ** Acceptance *)

(** A checksum of zero means that the sum is a multiple of 65535, but not zero. *)
Lemma accepted s : 0 <= s -> 65535 - oc s = 0 <-> s <> 0 /\ (65535 | s).
Proof.
  intros Hs. pose proof (oc_range s Hs). destruct (oc_eq_oc s Hs) as (_ & _ & Hz & k & Hk). split.
  - intros E. split; [lia|]. exists (1 - k). lia.
  - intros [Hn [j Hj]]. assert (oc s = (k + j) * 65535) by lia. lia.
Qed.

(** Putting the checksum of the rest into a field of zeros. *)
Lemma filled_in x y c : Nat.Even (length x) -> bytes (x ++ [0; 0] ++ y) ->
  c = 65535 - oc (word_sum (x ++ [0; 0] ++ y)) -> 65535 - oc (word_sum (x ++ le_bytes 2 c ++ y)) = 0.
Proof.
  intros He Hb ->. set (s := word_sum (x ++ [0; 0] ++ y)).
  assert (Hs : 0 <= s) by (pose proof (word_sum_range _ Hb); unfold s; lia).
  pose proof (oc_range s Hs) as Hr. pose proof (oc_eq_oc s Hs) as Hq.
  assert (E : word_sum (x ++ le_bytes 2 (65535 - oc s) ++ y) = s + (65535 - oc s)).
  { unfold s at 2. rewrite !(word_sum_app x) by done. cbn [le_bytes app word_sum].
    set (c := 65535 - oc s) in *. rewrite (Z.mod_small (c / 256)).
    - pose proof (Z.div_mod c 256 ltac:(lia)). lia.
    - pose proof (Z.div_lt_upper_bound c 256 256 ltac:(lia) ltac:(lia)). pose proof (Z.div_pos c 256 ltac:(lia) ltac:(lia)). lia. }
  rewrite E. apply accepted; [lia|]. destruct Hq as (_ & _ & Hz & k & Hk). split; [lia|]. exists (1 - k). lia.
Qed.

(** A changed byte changes the sum by less than 65535. *)
Lemma word_sum_change x a b y :
  exists w, (w = 1 \/ w = 256) /\ word_sum (x ++ b :: y) = word_sum (x ++ a :: y) + w * (b - a).
Proof.
  induction x as [|c|c d x [w [Hw IH]]] using list_pairs.
  - exists 1. split; [by left|]. cbn [app]. destruct y; cbn [word_sum]; lia.
  - exists 256. split; [by right|]. cbn [app word_sum]. lia.
  - exists w. split; [done|]. cbn [app word_sum]. lia.
Qed.

Lemma corrupted x a b y : is_byte a -> is_byte b -> a <> b -> bytes (x ++ a :: y) -> bytes (x ++ b :: y) ->
  65535 - oc (word_sum (x ++ a :: y)) = 0 -> 65535 - oc (word_sum (x ++ b :: y)) <> 0.
Proof.
  intros Ha Hb Hab H1 H2 E1 E2. pose proof (word_sum_range _ H1). pose proof (word_sum_range _ H2).
  apply accepted in E1 as [_ [k Hk]]; [|lia]. apply accepted in E2 as [_ [j Hj]]; [|lia].
  destruct (word_sum_change x a b y) as (w & Hw & E). unfold is_byte in *.
  assert (w * (b - a) = (j - k) * 65535) by lia. destruct Hw as [-> | ->]; lia.
Qed.

(** C9: Sending and receiving.  A sender computes the checksum over a packet whose
    checksum field, at an even offset, is zero, and puts it there.  The receiver's
    checksum over those bytes, in pbufs of its own, is zero: the packet is
    accepted.  If one byte of them was changed on the way it is not zero. *)
Theorem checksum_accepts_and_detects h p l x y src dest proto proto_len :
  packet h p l (x ++ [0; 0] ++ y) -> bytes x -> bytes y -> Nat.Even (length x) ->
  is_u 32 src -> is_u 32 dest -> is_byte proto -> is_u 16 proto_len ->
  exists c, ip_chksum_pseudo p proto proto_len src dest h = Some c /\ is_u 16 c /\
    let sent := x ++ le_bytes 2 c ++ y in
    (forall h' p' l', packet h' p' l' sent -> ip_chksum_pseudo p' proto proto_len src dest h' = Some 0) /\
    (forall h' p' l' u a b v, sent = u ++ a :: v -> is_byte b -> b <> a -> packet h' p' l' (u ++ b :: v) ->
       exists r, ip_chksum_pseudo p' proto proto_len src dest h' = Some r /\ r <> 0).
Proof.
  intros Hpk Hx Hy He Hs Hd Hp Hl. set (ph := pseudo_header src dest proto proto_len).
  assert (Hph : bytes ph) by by apply bytes_pseudo.
  assert (Hph' : Nat.Even (length (ph ++ x))).
  { destruct He as [k Hk]. exists (6 + k)%nat. rewrite length_app. unfold ph. rewrite length_pseudo. lia. }
  assert (H00 : bytes (x ++ [0; 0] ++ y)).
  { rewrite !Forall_app. split; [done|]. split; [|done]. repeat (apply Forall_cons; split; [by vm_compute|]). done. }
  set (c := 65535 - oc (word_sum (ph ++ x ++ [0; 0] ++ y))).
  exists c. split; [by apply (pseudo_spec h p l)|].
  assert (Hw : bytes (ph ++ x ++ [0; 0] ++ y)) by by apply Forall_app.
  split; [pose proof (word_sum_range _ Hw); pose proof (oc_range (word_sum (ph ++ x ++ [0; 0] ++ y)) ltac:(lia)); unfold is_u, c; lia|].
  intros sent. assert (Hsent : bytes sent) by (unfold sent; rewrite !Forall_app; split; [done|]; split; [apply bytes_le_bytes|done]).
  assert (E : 65535 - oc (word_sum (ph ++ sent)) = 0).
  { unfold sent. rewrite app_assoc. apply filled_in; [done| |]; by rewrite <- app_assoc. }
  split.
  - intros h' p' l' Hpk'. unfold ip_chksum_pseudo. rewrite (pseudo_spec h' p' l' sent) by done. fold ph. by rewrite E.
  - intros h' p' l' u a b v Es Hb Hba Hpk'. rewrite Es in Hsent, E.
    pose proof Hsent as [Hu [Ha Hv]%Forall_cons]%Forall_app.
    assert (Huv : bytes (u ++ b :: v)) by (apply Forall_app; split; [done|]; by apply Forall_cons).
    eexists. split; [by apply (pseudo_spec h' p' l')|]. fold ph. rewrite app_assoc in E |- *.
    apply (corrupted (ph ++ u) a); try done; rewrite <- app_assoc; by apply Forall_app.
Qed.

(** A packet of two pbufs, the first with an odd number of bytes at an odd address. *)
Definition two_pbufs (d1 d2 : list Z) : heap :=
  Heap {[ 16 := Pbuf 64 101 (Z.of_nat (length d1 + length d2)) (Z.of_nat (length d1)) PBUF_RAM 0 1;
          64 := Pbuf 0 200 (Z.of_nat (length d2)) (Z.of_nat (length d2)) PBUF_RAM 0 1 ]}
       (write (write ∅ 101 d1) 200 d2) [].

Lemma inet_chksum_pbuf_reference_witness :
  let h := two_pbufs [0x45; 0x00; 0x12] [0x34; 0xff; 0xfe; 0x01] in
  exists l, packet h 16 l [0x45; 0x00; 0x12; 0x34; 0xff; 0xfe; 0x01] /\ inet_chksum_pbuf 16 h = Some 0xcca7.
Proof.
  intros h. eexists [(16, Pbuf 64 101 7 3 PBUF_RAM 0 1); (64, Pbuf 0 200 4 4 PBUF_RAM 0 1)].
  assert (H : packet h 16 [(16, Pbuf 64 101 7 3 PBUF_RAM 0 1); (64, Pbuf 0 200 4 4 PBUF_RAM 0 1)]
                [0x45; 0x00; 0x12; 0x34; 0xff; 0xfe; 0x01]).
  { split; [repeat split; done|repeat split; cbn; lia|vm_compute; reflexivity]. }
  split; [exact H|]. rewrite (inet_chksum_pbuf_reference h 16 _ _ H); [vm_compute; reflexivity|].
  repeat (apply Forall_cons; split; [by vm_compute|]); done.
Defined.

Lemma checksum_accepts_and_detects_witness :
  exists h p c h' p', ip_chksum_pseudo p 17 5 0x0101a8c0 0x0201a8c0 h = Some c /\
    ip_chksum_pseudo p' 17 5 0x0101a8c0 0x0201a8c0 h' = Some 0 /\ c = 0x7338.
Proof.
  set (h := two_pbufs [0x11; 0x22; 0] [0; 0x33]).
  assert (Hl : packet h 16 [(16, Pbuf 64 101 5 3 PBUF_RAM 0 1); (64, Pbuf 0 200 2 2 PBUF_RAM 0 1)] [0x11; 0x22; 0; 0; 0x33]).
  { split; [repeat split; done|repeat split; cbn; lia|vm_compute; reflexivity]. }
  destruct (checksum_accepts_and_detects h 16 _ [0x11; 0x22] [0x33] 0x0101a8c0 0x0201a8c0 17 5 Hl) as (c & E & _ & Hok & _);
    [repeat (apply Forall_cons; split; [by vm_compute|]); done|repeat (apply Forall_cons; split; [by vm_compute|]); done|
     by exists 1%nat|by vm_compute..|].
  assert (Ec : c = 0x7338) by (vm_compute in E; by injection E as <-). subst c.
  exists h, 16, 0x7338, (two_pbufs [0x11; 0x22; 0x38] [0x73; 0x33]), 16. split; [exact E|]. split; [|done].
  apply (Hok _ 16 [(16, Pbuf 64 101 5 3 PBUF_RAM 0 1); (64, Pbuf 0 200 2 2 PBUF_RAM 0 1)]).
  split; [repeat split; done|repeat split; cbn; lia|vm_compute; reflexivity].
Defined.

(** ** Parts of packets *)

(** The checksum of a part: over the pseudo header and the first [chksum_len]
    bytes, when these are less than 0x7fff.  When 0x7fff or more are left behind
    the first pbuf an assertion halts the system. *)
Theorem inet_chksum_pseudo_partial_reference h p a b l d src dest proto proto_len chksum_len :
  packet h p ((a, b) :: l) d -> bytes d -> is_u 32 src -> is_u 32 dest -> is_byte proto -> is_u 16 proto_len ->
  (0 <= chksum_len < 0x7fff ->
   ip_chksum_pseudo_partial p proto proto_len chksum_len src dest h =
   Some (65535 - oc (word_sum (pseudo_header src dest proto proto_len ++ take (Z.to_nat chksum_len) d)))) /\
  (chksum_len < 65536 -> len b + 0x7fff <= chksum_len ->
   ip_chksum_pseudo_partial p proto proto_len chksum_len src dest h = None).
Proof.
  intros [Hc Hw Hd] Hb Hs Hde Hp Hl. unfold ip_chksum_pseudo_partial, inet_chksum_pseudo_partial, inet_cksum_pseudo_partial_base.
  pose proof (chain_fuel_enough _ _ _ Hc) as Hf. destruct (addr_acc_spec src dest) as [Har _]. split.
  - intros Hn.
    destruct (partial_loop_spec h _ (chain_fuel h) p chksum_len _ false d Hc Hw Hd Hb ltac:(lia) Har Hn) as (acc & sw & -> & Hr & Hq).
    cbn [mbind option_bind]. destruct (unswap_end sw acc Hr) as [Hv Hvr]. f_equal.
    cbn [unswap] in Hq. apply pseudo_end_spec; [assumption..|by apply Forall_take|assumption|]. rewrite Hv. exact Hq.
  - intros Hlt Hge. destruct (chain_fuel h) as [|fuel]; [cbn in Hf; lia|]. pose proof (wf_len_range _ _ _ Hw).
    destruct Hc as (-> & Hne & Hlk & _). cbn [contents] in Hd. destruct (load _ _ _) as [x|] eqn:El; [|done].
    assert (Hbx : bytes x). { destruct (contents (ram h) l); [|done]. injection Hd as <-. by apply Forall_app in Hb as [Hb _]. }
    destruct (chksum_acc h (addr_acc src dest) _ _ x El Hbx ltac:(lia) Har) as (s & Es & _). rewrite Z2Nat.id in Es by lia.
    cbn [partial_loop]. rewrite (proj2 (Z.eqb_neq a 0) Hne), (proj2 (Z.ltb_lt 0 chksum_len)), Hlk by lia. cbn [negb andb mbind option_bind].
    rewrite (proj2 (Z.ltb_ge chksum_len _)) by lia. rewrite Es. cbn [mbind option_bind].
    rewrite u16_small by lia. by rewrite (proj2 (Z.ltb_ge _ 0x7fff)) by lia.
Qed.
