(* ===== verification/Ip4Addr.v ===== *)
(** * IPv4 addresses: lwIP's [core/ipv4/ip4_addr.c]

    Addresses are 32-bit values in network order on a little-endian machine: the
    first part of the dotted form is the lowest byte.  Strings are read from and
    written to byte memory; the outer [option] of a result is an access outside of
    it, the inner one the failure the function reports. *)

From Stdlib Require Import ZArith Lia.
From stdpp Require Import base gmap list numbers.
From S2P Require Import Prelude LwipDef.
Import OptionNotations.

Local Open Scope Z_scope.

Definition IPADDR_ANY : Z := 0.
Definition IPADDR_BROADCAST : Z := 0xffffffff.
Definition IPADDR_NONE : Z := 0xffffffff.
Definition IP4ADDR_STRLEN_MAX : Z := 16.

(** ** Broadcast addresses and masks *)

Definition NETIF_FLAG_BROADCAST : Z := 2.

(** The fields of a network interface used here. *)
Record netif := Netif { ip_addr : Z; netmask : Z; netif_flags : Z }.

Definition ip4_addr_netcmp (addr1 addr2 mask : Z) : bool := Z.land addr1 mask =? Z.land addr2 mask.

(** [~a] of a 32-bit value *)
Definition not32 (a : Z) : Z := u32 (Z.lnot a).

Definition ip4_addr_isbroadcast_u32 (addr : Z) (n : netif) : bool :=
  if (not32 addr =? IPADDR_ANY) || (addr =? IPADDR_ANY) then true
  else if Z.land (netif_flags n) NETIF_FLAG_BROADCAST =? 0 then false
  else if addr =? ip_addr n then false
  else if ip4_addr_netcmp addr (ip_addr n) (netmask n) &&
          (Z.land addr (not32 (netmask n)) =? Z.land IPADDR_BROADCAST (not32 (netmask n))) then true
  else false.

(** The two loops over the bits from the highest on; the mask is 0 after 32 shifts. *)
Fixpoint first_zero (fuel : nat) (nm_hostorder mask : Z) : option Z :=
  if negb (mask =? 0) then
    match fuel with
    | O => None
    | S fuel => if Z.land nm_hostorder mask =? 0 then Some mask else first_zero fuel nm_hostorder (Z.shiftr mask 1)
    end
  else Some mask.

Fixpoint no_one (fuel : nat) (nm_hostorder mask : Z) : option bool :=
  if negb (mask =? 0) then
    match fuel with
    | O => None
    | S fuel => if negb (Z.land nm_hostorder mask =? 0) then Some false else no_one fuel nm_hostorder (Z.shiftr mask 1)
    end
  else Some true.

Definition ip4_addr_netmask_valid (mask : Z) : option bool :=
  let nm_hostorder := lwip_htonl mask in
  let? mask := first_zero 32 nm_hostorder (Z.shiftl 1 31) in
  no_one 32 nm_hostorder mask.

(** ** From text *)

Definition in_range (c lo up : Z) : bool := (lo <=? c) && (c <=? up).
Definition isdigit (c : Z) : bool := in_range c 48 57.
Definition isxdigit (c : Z) : bool := isdigit c || in_range c 97 102 || in_range c 65 70.
Definition islower (c : Z) : bool := in_range c 97 122.
Definition isspace (c : Z) : bool :=
  (c =? 32) || (c =? 12) || (c =? 10) || (c =? 13) || (c =? 9) || (c =? 11).

(** The digits of a number; gives its value, where it ends and the character there. *)
Fixpoint aton_digits (fuel : nat) (m : gmap Z Z) (base val cp c : Z) : option (Z * Z * Z) :=
  match fuel with
  | O => None
  | S fuel =>
      if isdigit c then
        let? c' := m !! (cp + 1) in
        aton_digits fuel m base (u32 (u32 (val * base) + u32 (c - 48))) (cp + 1) c'
      else if (base =? 16) && isxdigit c then
        let? c' := m !! (cp + 1) in
        aton_digits fuel m base (Z.lor (u32 (Z.shiftl val 4)) (u32 (c + 10 - (if islower c then 97 else 65)))) (cp + 1) c'
      else Some (val, cp, c)
  end.

(** A number with its base from the prefix; [c] is its first character. *)
Definition aton_number (m : gmap Z Z) (cp c : Z) : option (Z * Z * Z) :=
  let? (base, cp, c) :=
    (if c =? 48 then
       let? c := m !! (cp + 1) in
       if (c =? 120) || (c =? 88) then let? c := m !! (cp + 2) in Some (16, cp + 2, c)
       else Some (8, cp + 1, c)
     else Some (10, cp, c)) in
  aton_digits (str_fuel m) m base 0 cp c.

(** The numbers up to the last one; [parts] holds at most three before it. *)
Fixpoint aton_parts (fuel : nat) (m : gmap Z Z) (cp c : Z) (parts : list Z) : option (option (list Z * Z * Z)) :=
  if negb (isdigit c) then Some None
  else
    match fuel with
    | O => None
    | S fuel =>
        let? (val, cp, c) := aton_number m cp c in
        if c =? 46 then
          if (3 <=? length parts)%nat then Some None
          else let? c := m !! (cp + 1) in aton_parts fuel m (cp + 1) c (parts ++ [val])
        else Some (Some (parts, val, c))
    end.

(** The [switch] over the number of parts. *)
Definition concoct (parts : list Z) (val : Z) : option Z :=
  match parts with
  | [] => Some val
  | [p0] =>
      if 0xffffff <? val then None else if 0xff <? p0 then None
      else Some (Z.lor val (u32 (Z.shiftl p0 24)))
  | [p0; p1] =>
      if 0xffff <? val then None else if (0xff <? p0) || (0xff <? p1) then None
      else Some (Z.lor val (Z.lor (u32 (Z.shiftl p0 24)) (u32 (Z.shiftl p1 16))))
  | [p0; p1; p2] =>
      if 0xff <? val then None else if (0xff <? p0) || (0xff <? p1) || (0xff <? p2) then None
      else Some (Z.lor val (Z.lor (Z.lor (u32 (Z.shiftl p0 24)) (u32 (Z.shiftl p1 16))) (u32 (Z.shiftl p2 8))))
  | _ => None
  end.

Definition ip4addr_aton (cp : Z) (m : gmap Z Z) : option (option Z) :=
  let? c := m !! cp in
  let? r := aton_parts 4 m cp c [] in
  Some
    (let? (parts, val, c) := r in
     if negb (c =? 0) && negb (isspace c) then None
     else let? val := concoct parts val in Some (lwip_htonl val)).

Definition ipaddr_addr (cp : Z) (m : gmap Z Z) : option Z :=
  let? r := ip4addr_aton cp m in
  Some (match r with Some val => val | None => IPADDR_NONE end).

(** ** To text *)

(** The digits of a byte, the lowest first: at most three. *)
Fixpoint inv_digits (fuel : nat) (ap : Z) : list Z :=
  match fuel with
  | O => []
  | S fuel =>
      let rem := ap mod 10 in
      let ap := ap / 10 in
      48 + rem :: if negb (ap =? 0) then inv_digits fuel ap else []
  end.

(** One character at [rp]; [false] when the function returns a null pointer. *)
Definition put_char (c buflen : Z) (s : Z * Z * gmap Z Z) : option (bool * (Z * Z * gmap Z Z)) :=
  let '(rp, len, m) := s in
  if buflen <=? len then Some (false, (rp, len + 1, m))
  else let? m := store m rp [c] in Some (true, (rp + 1, len + 1, m)).

(** [while (i--)], over the digits that are left. *)
Fixpoint put_chars (l : list Z) (buflen : Z) (s : Z * Z * gmap Z Z) : option (bool * (Z * Z * gmap Z Z)) :=
  match l with
  | [] => Some (true, s)
  | c :: l =>
      let? (ok, s) := put_char c buflen s in
      if negb ok then Some (false, s) else put_chars l buflen s
  end.

Fixpoint ntoa_loop (ap : list Z) (buflen : Z) (s : Z * Z * gmap Z Z) : option (bool * (Z * Z * gmap Z Z)) :=
  match ap with
  | [] => Some (true, s)
  | b :: ap =>
      let? (ok, s) := put_chars (rev (inv_digits 3 b)) buflen s in
      if negb ok then Some (false, s)
      else
        let? (ok, s) := put_char 46 buflen s in
        if negb ok then Some (false, s) else ntoa_loop ap buflen s
  end.

(** Whether [buf] is returned, not a null pointer, and the memory. *)
Definition ip4addr_ntoa_r (addr buf buflen : Z) (m : gmap Z Z) : option (bool * gmap Z Z) :=
  let? (ok, (rp, _, m)) := ntoa_loop (le_bytes 4 addr) buflen (buf, 0, m) in
  if negb ok then Some (false, m)
  else let? m := store m (rp - 1) [0] in Some (true, m).

(** [str] is the static buffer. *)
Definition ip4addr_ntoa (addr str : Z) (m : gmap Z Z) : option (bool * gmap Z Z) :=
  ip4addr_ntoa_r addr str IP4ADDR_STRLEN_MAX m.
