(* ===== verification/Ip4AddrTheorems.v ===== *)
(** * Addresses as text

    What the printer writes and the parser reads, character by character; masks. *)

From Stdlib Require Import ZArith Lia.
From stdpp Require Import base gmap list numbers.
From S2P Require Import Prelude LwipDef LwipDefTheorems Ip4Addr.
From stdpp Require Import sets list.
Import OptionNotations.

Local Open Scope Z_scope.

(** ** Decimal numbers *)

Definition dec (b : Z) : list Z := rev (inv_digits 3 b).

(** The parts of the dotted form, each followed by a dot. *)
Definition dotted (l : list Z) : list Z := concat (map (fun b => dec b ++ [46]) l).

(** The dotted form itself. *)
Definition text (addr : Z) : list Z := removelast (dotted (le_bytes 4 addr)).

(** All that is needed about the digits of a byte, checked for every byte. *)
Definition dec_fine (b : Z) : bool :=
  forallb isdigit (dec b) && (value (dec b) =? b) && (length (dec b) <=? 3)%nat &&
  match dec b with
  | [] => false
  | c :: ds => negb (c =? 48) || bool_decide (ds = [])
  end.

Lemma all_dec_fine : forallb dec_fine (seqZ 0 256) = true.
Proof. vm_compute. reflexivity. Qed.

Lemma dec_spec b : is_byte b ->
  Forall (fun c => isdigit c = true) (dec b) /\ value (dec b) = b /\ (length (dec b) <= 3)%nat /\
  exists c ds, dec b = c :: ds /\ (c = 48 -> ds = []).
Proof.
  intros Hb. pose proof all_dec_fine as H. rewrite forallb_forall in H.
  specialize (H b ltac:(apply list_elem_of_In, elem_of_seqZ; unfold is_byte in Hb; lia)).
  unfold dec_fine in H. rewrite !andb_true_iff in H. destruct H as (((H1 & H2) & H3) & H4).
  split; [by apply Forall_forall; intros c Hc; apply list_elem_of_In in Hc; apply (proj1 (forallb_forall _ _) H1)|].
  split; [by apply Z.eqb_eq|]. split; [by apply Nat.leb_le|].
  destruct (dec b) as [|c ds]; [done|]. exists c, ds. split; [done|]. intros ->. cbn in H4.
  by apply bool_decide_eq_true in H4.
Qed.

(** ** Printing *)

Lemma put_chars_spec l buflen buf len m :
  allocated m buf buflen -> 0 <= len ->
  exists s, put_chars l buflen (buf + len, len, m) = Some (bool_decide (l = [] \/ len + Z.of_nat (length l) <= buflen), s) /\
    (l = [] \/ len + Z.of_nat (length l) <= buflen ->
      s = (buf + len + Z.of_nat (length l), len + Z.of_nat (length l), write m (buf + len) l)) /\
    (forall i, i < buf + len \/ buf + buflen <= i -> s.2 !! i = m !! i).
Proof.
  revert len m. induction l as [|c l IH]; intros len m Hal H0; cbn [put_chars].
  - eexists. split; [by rewrite bool_decide_true by auto|]. split; [|done]. intros _. by rewrite !Z.add_0_r.
  - cbn [put_char]. destruct (Z.leb_spec buflen len) as [Hle|Hgt].
    + cbn [mbind option_bind negb]. eexists. split; [rewrite bool_decide_false; [done|cbn [length]; intros [?|?]; [done|lia]]|].
      split; [cbn [length]; intros [?|?]; [done|lia]|done].
    + rewrite store_allocated by (eapply allocated_sub; [done|cbn; lia..]). cbn [mbind option_bind negb].
      destruct (IH (len + 1) (write m (buf + len) [c])) as (s & E & Hs & Hf); [by apply allocated_write|lia|].
      replace (buf + len + 1) with (buf + (len + 1)) by lia. cbn [write] in E |- *. rewrite E.
      exists s. cbn [length]. split; [|split].
      * f_equal. f_equal. apply bool_decide_ext. destruct l; cbn [length]; intuition (try done; try lia).
      * intros Hd. rewrite Hs by (destruct l; [by left|right; destruct Hd; [done|lia]]). cbn [write]. f_equal; [f_equal; lia|f_equal; lia].
      * intros i Hi. rewrite Hf by lia. apply lookup_insert_ne. lia.
Qed.

Lemma put_chars_app l1 l2 buflen s :
  put_chars (l1 ++ l2) buflen s =
  let? (ok, s) := put_chars l1 buflen s in if negb ok then Some (false, s) else put_chars l2 buflen s.
Proof.
  revert s. induction l1 as [|c l1 IH]; intros s; cbn [app put_chars]; [done|].
  destruct (put_char c buflen s) as [[[] s1]|]; cbn [mbind option_bind negb]; [apply IH|done|done].
Qed.

(** The loop over the four bytes prints one string. *)
Lemma ntoa_loop_put ap buflen s : ntoa_loop ap buflen s = put_chars (dotted ap) buflen s.
Proof.
  revert s. induction ap as [|b ap IH]; intros s; [done|]. cbn [ntoa_loop]. unfold dotted. cbn [map concat].
  fold (dotted ap). rewrite <- app_assoc, !put_chars_app. fold (dec b).
  destruct (put_chars (dec b) buflen s) as [[[] s1]|]; cbn [mbind option_bind negb]; [|done|done].
  cbn [app put_chars]. destruct (put_char 46 buflen s1) as [[[] s2]|]; cbn [mbind option_bind negb]; [apply IH|done|done].
Qed.

Lemma dotted_app l1 l2 : dotted (l1 ++ l2) = dotted l1 ++ dotted l2.
Proof. unfold dotted. by rewrite map_app, concat_app. Qed.

Lemma dotted_text addr : dotted (le_bytes 4 addr) = text addr ++ [46].
Proof.
  unfold text. destruct (exists_last (l := le_bytes 4 addr)) as (l & b & ->); [done|].
  rewrite dotted_app. unfold dotted at 2 4. cbn [map concat]. rewrite app_nil_r, app_assoc. by rewrite removelast_last.
Qed.

Lemma write_last m a l x y : write (write m a (l ++ [x])) (a + Z.of_nat (length l)) [y] = write m a (l ++ [y]).
Proof. rewrite !write_app. cbn [write]. by rewrite insert_insert_eq. Qed.

Lemma ntoa_spec addr buf buflen m :
  allocated m buf buflen ->
  exists m', ip4addr_ntoa_r addr buf buflen m =
      Some (bool_decide (Z.of_nat (length (text addr)) + 1 <= buflen), m') /\
    (Z.of_nat (length (text addr)) + 1 <= buflen -> m' = write m buf (text addr ++ [0])) /\
    (forall i, i < buf \/ buf + buflen <= i -> m' !! i = m !! i).
Proof.
  intros Hal. unfold ip4addr_ntoa_r. rewrite ntoa_loop_put, dotted_text.
  destruct (put_chars_spec (text addr ++ [46]) buflen buf 0 m Hal ltac:(lia)) as ([[rp len] m1] & E & Hs & Hf).
  rewrite Z.add_0_r in E, Hf, Hs. rewrite E. cbn [mbind option_bind snd] in *. rewrite !Z.add_0_l, length_app in *.
  set (n := length (text addr)) in *. cbn [length] in *. replace (Z.of_nat (n + 1)) with (Z.of_nat n + 1) in * by lia.
  destruct (decide (Z.of_nat n + 1 <= buflen)) as [Hfit|Hfit].
  - rewrite bool_decide_true by auto. cbn [negb]. specialize (Hs (or_intror Hfit)). injection Hs as -> -> ->.
    replace (buf + (Z.of_nat n + 1) - 1) with (buf + Z.of_nat n) by lia.
    rewrite store_allocated by (apply allocated_write, (allocated_sub _ _ _ _ _ Hal); cbn [length]; lia).
    cbn [mbind option_bind]. eexists. split; [by rewrite bool_decide_true by done|].
    split; [intros _; apply write_last|]. intros i Hi. rewrite write_last. apply lookup_write_outside.
    rewrite length_app. cbn [length]. fold n. lia.
  - rewrite bool_decide_false; [|intros [Hnil|?]; [by destruct (text addr)|done]]. cbn [negb]. exists m1.
    split; [by rewrite bool_decide_false by done|]. split; [done|]. exact Hf.
Qed.

(** ** Parsing *)

Lemma isdigit_spec c : isdigit c = true <-> 48 <= c <= 57.
Proof. unfold isdigit, in_range. rewrite andb_true_iff, !Z.leb_le. done. Qed.

(** The digits of a decimal number, up to a character that is none. *)
Lemma aton_digits_spec m ds : forall fuel v cp e,
  load m cp (S (length ds)) = Some (ds ++ [e]) -> Forall (fun c => isdigit c = true) ds -> isdigit e = false ->
  (length ds < fuel)%nat ->
  aton_digits fuel m 10 (u32 v) cp (hd e ds) =
  Some (u32 (foldl (fun v c => v * 10 + (c - 48)) v ds), cp + Z.of_nat (length ds), e).
Proof.
  induction ds as [|c ds IH]; intros fuel v cp e Hl Hds He Hf; (destruct fuel as [|fuel]; [cbn in Hf; lia|]);
    cbn [aton_digits hd foldl length].
  - rewrite He. cbn. by rewrite Z.add_0_r.
  - apply Forall_cons in Hds as [Hc Hds]. rewrite Hc. cbn [app length] in *. apply load_cons in Hl as [_ Hl].
    assert (E : m !! (cp + 1) = Some (hd e ds)) by (destruct ds; apply load_cons in Hl as [Hl _]; done).
    rewrite E. cbn [mbind option_bind].
    assert (Ev : u32 (u32 (u32 v * 10) + u32 (c - 48)) = u32 (v * 10 + (c - 48))).
    { unfold u32, wrap. by rewrite <- Zplus_mod, Zplus_mod, Zmult_mod_idemp_l, <- Zplus_mod. }
    rewrite Ev, IH by (done || lia). f_equal. f_equal. f_equal. lia.
Qed.

(** A number that does not start with 0 is decimal, and its value is kept modulo 2^32. *)
Lemma aton_number_dec m cp c ds e :
  load m cp (S (length (c :: ds))) = Some (c :: ds ++ [e]) -> Forall (fun c => isdigit c = true) (c :: ds) ->
  isdigit e = false -> c <> 48 ->
  aton_number m cp c = Some (u32 (value (c :: ds)), cp + Z.of_nat (length (c :: ds)), e).
Proof.
  intros Hl Hds He Hc. unfold aton_number. rewrite (proj2 (Z.eqb_neq c 48) Hc). cbn [mbind option_bind].
  pose proof (load_size _ _ _ _ Hl) as Hsz.
  apply (aton_digits_spec m (c :: ds) (str_fuel m) 0 cp e); try done. unfold str_fuel. lia.
Qed.

(** A byte as it is printed, in front of a dot or the end. *)
Lemma aton_number_byte m cp b e :
  is_byte b -> load m cp (S (length (dec b))) = Some (dec b ++ [e]) -> e = 46 \/ e = 0 ->
  exists c, m !! cp = Some c /\ isdigit c = true /\
    aton_number m cp c = Some (b, cp + Z.of_nat (length (dec b)), e).
Proof.
  intros Hb Hl He. destruct (dec_spec b Hb) as (Hds & Hv & Hlen & c & ds & Ed & H0). rewrite Ed in *.
  exists c. pose proof (proj1 (load_cons _ _ _ _ _) Hl) as [Hc Hl']. split; [done|].
  split; [by apply Forall_cons in Hds as [Hds _]|].
  assert (Hed : isdigit e = false) by (by destruct He as [-> | ->]).
  destruct (decide (c = 48)) as [-> |Hc0].
  - rewrite (H0 eq_refl) in *. cbn in Hv. subst b. cbn [app length] in Hl'. apply load_cons in Hl' as [He' _].
    unfold aton_number. cbn [Z.eqb Pos.eqb]. rewrite He'. cbn [mbind option_bind].
    rewrite (proj2 (Z.eqb_neq e 120)), (proj2 (Z.eqb_neq e 88)) by lia. cbn [orb]. cbn [mbind option_bind aton_digits str_fuel].
    rewrite Hed. done.
  - rewrite (aton_number_dec m cp c ds e) by done. rewrite Hv, u32_small by (unfold is_byte in Hb; lia). done.
Qed.

(** One round of the loop over the parts. *)
Lemma aton_parts_step m fuel cp b l parts :
  is_byte b -> (length parts < 3)%nat -> load m cp (length (dec b ++ 46 :: l)) = Some (dec b ++ 46 :: l) -> l <> [] ->
  exists c c' cp', m !! cp = Some c /\ m !! cp' = Some c' /\ load m cp' (length l) = Some l /\
    aton_parts (S fuel) m cp c parts = aton_parts fuel m cp' c' (parts ++ [b]).
Proof.
  intros Hb Hp Hl Hne. replace (dec b ++ 46 :: l) with ((dec b ++ [46]) ++ l) in Hl by by rewrite <- app_assoc.
  rewrite (length_app (dec b ++ [46])) in Hl. apply (load_app m cp _ _ _ _ eq_refl eq_refl) in Hl as [Hl Hl'].
  rewrite length_app in Hl, Hl'. cbn [length] in Hl, Hl'. rewrite Nat.add_1_r in Hl, Hl'.
  destruct (aton_number_byte m cp b 46 Hb Hl (or_introl eq_refl)) as (c & Hc & Hd & E).
  replace (cp + Z.of_nat (S (length (dec b)))) with (cp + Z.of_nat (length (dec b)) + 1) in Hl' by lia.
  destruct l as [|c' l]; [done|]. pose proof (proj1 (load_cons _ _ _ _ _) Hl') as [Hc' _].
  exists c, c', (cp + Z.of_nat (length (dec b)) + 1). split; [done|]. split; [done|]. split; [done|].
  cbn [aton_parts]. rewrite Hd, E. cbn [negb mbind option_bind Z.eqb Pos.eqb]. rewrite (proj2 (Nat.leb_gt 3 _)) by lia.
  by rewrite Hc'.
Qed.

Lemma concoct_four b0 b1 b2 b3 : is_byte b0 -> is_byte b1 -> is_byte b2 -> is_byte b3 ->
  concoct [b0; b1; b2] b3 = Some (of_be [b0; b1; b2; b3]).
Proof.
  intros H0 H1 H2 H3. unfold is_byte in *. cbn [concoct]. rewrite !(proj2 (Z.ltb_ge 0xff _)) by lia. cbn [orb]. f_equal.
  rewrite !u32_small by (rewrite ?Z.shiftl_mul_pow2 by lia; lia). unfold of_be. cbn [rev app of_le].
  rewrite (Z.lor_comm b3). rewrite (lor_shiftl b0 _ 24) by (rewrite ?Z.shiftl_mul_pow2 by lia; lia).
  rewrite Z.shiftl_mul_pow2 by lia.
  replace (b0 * 2 ^ 24 + b1 * 2 ^ 16) with (Z.shiftl (b0 * 256 + b1) 16) by (rewrite ?Z.shiftl_mul_pow2 by lia; lia).
  rewrite (lor_shiftl _ _ 16) by (rewrite ?Z.shiftl_mul_pow2 by lia; lia). rewrite Z.shiftl_mul_pow2 by lia.
  replace ((b0 * 256 + b1) * 2 ^ 16 + b2 * 2 ^ 8) with (Z.shiftl (b0 * 65536 + b1 * 256 + b2) 8) by (rewrite ?Z.shiftl_mul_pow2 by lia; lia).
  rewrite lor_shiftl by lia. lia.
Qed.

(** ** Masks *)

(** The mask when the lowest [k] bits are left. *)
Definition mask_at (k : nat) : Z := match k with O => 0 | S k => 2 ^ Z.of_nat k end.

Lemma mask_at_shift k : Z.shiftr (mask_at (S k)) 1 = mask_at k.
Proof.
  cbn [mask_at]. rewrite Z.shiftr_div_pow2 by lia. destruct k as [|k]; [done|]. cbn [mask_at].
  rewrite Nat2Z.inj_succ, Z.pow_succ_r by lia. rewrite Z.mul_comm. by apply Z.div_mul.
Qed.

Lemma mask_at_nonzero k : (mask_at (S k) =? 0) = false.
Proof. apply Z.eqb_neq. cbn [mask_at]. lia. Qed.

(** Testing one bit splits the lowest [S k] bits. *)
Lemma land_mask_at n k :
  (Z.land n (mask_at (S k)) =? 0) = negb (Z.testbit n (Z.of_nat k)) /\
  n mod 2 ^ Z.of_nat (S k) = n mod 2 ^ Z.of_nat k + (if Z.testbit n (Z.of_nat k) then 2 ^ Z.of_nat k else 0).
Proof.
  cbn [mask_at]. split.
  - destruct (Z.eqb_spec (Z.land n (2 ^ Z.of_nat k)) 0) as [E|E].
    + apply (f_equal (fun z => Z.testbit z (Z.of_nat k))) in E.
      rewrite Z.land_spec, Z.pow2_bits_true, andb_true_r, Z.bits_0 in E by lia. by rewrite E.
    + destruct (Z.testbit n (Z.of_nat k)) eqn:Eb; [done|]. destruct E. apply Z.bits_inj'. intros i Hi.
      rewrite Z.land_spec, Z.bits_0. destruct (decide (i = Z.of_nat k)) as [-> |Hne]; [by rewrite Eb|].
      by rewrite Z.pow2_bits_false, andb_false_r by lia.
  - rewrite Nat2Z.inj_succ, Z.pow_succ_r, (Z.mul_comm 2) by lia. rewrite Z.rem_mul_r by lia.
    rewrite <- Z.testbit_spec' by lia.
    destruct (Z.testbit n (Z.of_nat k)); cbn [Z.b2z]; lia.
Qed.

Lemma no_one_spec n k : forall fuel, (k <= fuel)%nat -> no_one fuel n (mask_at k) = Some (n mod 2 ^ Z.of_nat k =? 0).
Proof.
  induction k as [|k IH]; intros fuel Hf.
  - destruct fuel; cbn [no_one mask_at]; cbn [Z.eqb negb]; f_equal; by rewrite Z.mod_1_r.
  - destruct fuel as [|fuel]; [lia|]. cbn [no_one]. rewrite mask_at_nonzero, mask_at_shift, IH by lia. cbn [negb].
    destruct (land_mask_at n k) as [-> ->]. rewrite negb_involutive.
    pose proof (Z.mod_pos_bound n (2 ^ Z.of_nat k) ltac:(lia)).
    destruct (Z.testbit n (Z.of_nat k)); [|by rewrite Z.add_0_r]. f_equal. symmetry. apply Z.eqb_neq. lia.
Qed.

(** The first loop stops behind the ones. *)
Lemma first_zero_spec n k : forall fuel, (k <= fuel)%nat ->
  exists j, (j <= k)%nat /\ first_zero fuel n (mask_at k) = Some (mask_at j) /\
    n mod 2 ^ Z.of_nat k = 2 ^ Z.of_nat k - 2 ^ Z.of_nat j + n mod 2 ^ Z.of_nat j /\
    2 * (n mod 2 ^ Z.of_nat j) < 2 ^ Z.of_nat j.
Proof.
  induction k as [|k IH]; intros fuel Hf.
  - exists 0%nat. rewrite Z.mod_1_r. destruct fuel; cbn; repeat split; lia || done.
  - destruct fuel as [|fuel]; [lia|]. cbn [first_zero]. rewrite mask_at_nonzero, mask_at_shift. cbn [negb].
    destruct (land_mask_at n k) as [-> Em]. pose proof (Z.mod_pos_bound n (2 ^ Z.of_nat k) ltac:(lia)).
    assert (Ep : 2 ^ Z.of_nat (S k) = 2 * 2 ^ Z.of_nat k) by (rewrite Nat2Z.inj_succ, Z.pow_succ_r; lia).
    destruct (Z.testbit n (Z.of_nat k)); cbn [negb].
    + destruct (IH fuel ltac:(lia)) as (j & Hj & E & E1 & E2). exists j. split; [lia|]. split; [done|]. split; [lia|done].
    + exists (S k). split; [lia|]. split; [done|]. lia.
Qed.

(** No power of two lies strictly between two consecutive ones. *)
Lemma pow2_gap i j r : 0 <= i -> 0 <= j -> 0 <= 2 * r < 2 ^ j -> 2 ^ j - r = 2 ^ i -> r = 0.
Proof.
  intros Hi Hj Hr E. destruct (Z.lt_ge_cases i j) as [Hlt|Hge].
  - assert (2 * 2 ^ i <= 2 ^ j); [|lia]. rewrite <- Z.pow_succ_r by lia. apply Z.pow_le_mono_r; lia.
  - pose proof (Z.pow_le_mono_r 2 j i ltac:(lia) ltac:(lia)). lia.
Qed.

(** * What the address functions promise *)

(** A terminated decimal number. *)
Lemma aton_one m cp c ds :
  load m cp (S (length (c :: ds))) = Some (c :: ds ++ [0]) -> Forall (fun c => isdigit c = true) (c :: ds) -> c <> 48 ->
  ip4addr_aton cp m = Some (Some (lwip_htonl (u32 (value (c :: ds))))).
Proof.
  intros Hl Hds Hc. unfold ip4addr_aton. pose proof (proj1 (load_cons _ _ _ _ _) Hl) as [-> _].
  cbn [mbind option_bind aton_parts]. pose proof (proj1 (Forall_cons _ _ _) Hds) as [-> _].
  by rewrite (aton_number_dec m cp c ds 0).
Qed.

(** The text of an address. *)
Lemma aton_text m cp b0 b1 b2 b3 :
  is_byte b0 -> is_byte b1 -> is_byte b2 -> is_byte b3 ->
  let t := dec b0 ++ 46 :: dec b1 ++ 46 :: dec b2 ++ 46 :: dec b3 ++ [0] in
  load m cp (length t) = Some t -> ip4addr_aton cp m = Some (Some (of_le [b0; b1; b2; b3])).
Proof.
  intros H0 H1 H2 H3 t Hl. unfold t in Hl.
  destruct (aton_parts_step m 3 cp b0 _ [] H0 ltac:(cbn; lia) Hl) as (c0 & c1 & p1 & Hc0 & Hc1 & Hl1 & E0); [by destruct (dec b1)|].
  destruct (aton_parts_step m 2 p1 b1 _ [b0] H1 ltac:(cbn; lia) Hl1) as (c1' & c2 & p2 & Hc1' & Hc2 & Hl2 & E1); [by destruct (dec b2)|].
  destruct (aton_parts_step m 1 p2 b2 _ [b0; b1] H2 ltac:(cbn; lia) Hl2) as (c2' & c3 & p3 & Hc2' & Hc3 & Hl3 & E2); [by destruct (dec b3)|].
  simplify_eq. rewrite length_app in Hl3. cbn [length] in Hl3. rewrite Nat.add_1_r in Hl3.
  destruct (aton_number_byte m p3 b3 0 H3 Hl3 (or_intror eq_refl)) as (c & Hc & Hd & E3). simplify_eq.
  unfold ip4addr_aton. rewrite Hc0. cbn [mbind option_bind]. rewrite E0. cbn [app]. rewrite E1. cbn [app]. rewrite E2.
  cbn [app aton_parts]. rewrite Hd, E3. cbn [negb mbind option_bind]. cbn [Z.eqb negb andb].
  rewrite concoct_four by done. cbn [mbind option_bind]. by rewrite lwip_htonl_be.
Qed.

Lemma text_bytes b0 b1 b2 b3 : is_byte b0 -> is_byte b1 -> is_byte b2 -> is_byte b3 ->
  text (of_le [b0; b1; b2; b3]) ++ [0] = dec b0 ++ 46 :: dec b1 ++ 46 :: dec b2 ++ 46 :: dec b3 ++ [0].
Proof.
  intros H0 H1 H2 H3. unfold text. change 4%nat with (length [b0; b1; b2; b3]). rewrite le_bytes_of_le by (by repeat (apply Forall_cons; split)).
  unfold dotted. cbn [map concat]. rewrite app_nil_r, !app_assoc, removelast_last, <- !app_assoc. done.
Qed.

(** Printing an address and parsing the text gives the address back, for every
    address; 16 bytes ([IP4ADDR_STRLEN_MAX]) are always enough for the text. *)
Theorem ip4addr_text_roundtrip addr buf buflen m :
  is_u 32 addr -> allocated m buf buflen -> IP4ADDR_STRLEN_MAX <= buflen ->
  exists m', ip4addr_ntoa_r addr buf buflen m = Some (true, m') /\
    ip4addr_aton buf m' = Some (Some addr) /\ ipaddr_addr buf m' = Some addr.
Proof.
  intros Ha Hal Hlen. destruct (ntoa_spec addr buf buflen m Hal) as (m' & E & Hm & _).
  pose proof (bytes_le_bytes 4 addr) as Hb. pose proof (of_le_le_bytes 4 addr) as Eo.
  rewrite Z.mod_small in Eo by done. cbn [le_bytes] in Hb, Eo. rewrite !Forall_cons in Hb.
  destruct Hb as (H0 & H1 & H2 & H3 & _). rewrite <- Eo in E, Hm |- *. pose proof (text_bytes _ _ _ _ H0 H1 H2 H3) as Et.
  set (b0 := addr mod 256) in *. set (b1 := addr / 256 mod 256) in *.
  set (b2 := addr / 256 / 256 mod 256) in *. set (b3 := addr / 256 / 256 / 256 mod 256) in *.
  assert (Hfit : Z.of_nat (length (text (of_le [b0; b1; b2; b3]))) + 1 <= buflen).
  { apply (f_equal length) in Et. rewrite !length_app in Et. cbn [length] in Et. rewrite !length_app in Et. cbn [length] in Et.
    rewrite !length_app in Et. cbn [length] in Et. rewrite !length_app in Et. cbn [length] in Et.
    destruct (dec_spec b0 H0) as (_ & _ & L0 & _), (dec_spec b1 H1) as (_ & _ & L1 & _),
      (dec_spec b2 H2) as (_ & _ & L2 & _), (dec_spec b3 H3) as (_ & _ & L3 & _).
    unfold IP4ADDR_STRLEN_MAX in Hlen. lia. }
  rewrite bool_decide_true in E by done. specialize (Hm Hfit). subst m'. eexists. split; [done|].
  assert (Ea : ip4addr_aton buf (write m buf (text (of_le [b0; b1; b2; b3]) ++ [0])) = Some (Some (of_le [b0; b1; b2; b3]))).
  { apply aton_text; try done. rewrite <- Et. apply load_write. }
  split; [done|]. unfold ipaddr_addr. by rewrite Ea.
Qed.

Lemma ip4addr_text_roundtrip_witness :
  let m := write ∅ 500 (repeat 0 16) in
  exists m', ip4addr_ntoa_r 0xff01a8c0 500 16 m = Some (true, m') /\ ip4addr_aton 500 m' = Some (Some 0xff01a8c0) /\
    load m' 500 14 = Some [49; 57; 50; 46; 49; 54; 56; 46; 49; 46; 50; 53; 53; 0].
Proof.
  intros m. destruct (ip4addr_text_roundtrip 0xff01a8c0 500 16 m) as (m' & E & Ha & _);
    [by vm_compute|apply allocatedb_spec; vm_compute; reflexivity|done|].
  exists m'. split; [done|]. split; [done|].
  assert (E' : (let? (_, m') := ip4addr_ntoa_r 0xff01a8c0 500 16 m in load m' 500 14) =
               Some [49; 57; 50; 46; 49; 54; 56; 46; 49; 46; 50; 53; 53; 0]) by (vm_compute; reflexivity).
  rewrite E in E'. exact E'.
Defined.

(** [ip4addr_ntoa_r] never writes outside of its buffer, whatever its length,
    and returns a null pointer exactly when the text with its terminator does not
    fit; otherwise the buffer starts with the text and the terminator. *)
Theorem ip4addr_ntoa_bounds addr buf buflen m :
  allocated m buf buflen ->
  exists m', ip4addr_ntoa_r addr buf buflen m =
      Some (bool_decide (Z.of_nat (length (text addr)) + 1 <= buflen), m') /\
    (forall i, i < buf \/ buf + buflen <= i -> m' !! i = m !! i) /\
    (Z.of_nat (length (text addr)) + 1 <= buflen ->
     load m' buf (S (length (text addr))) = Some (text addr ++ [0])).
Proof.
  intros Hal. destruct (ntoa_spec addr buf buflen m Hal) as (m' & E & Hm & Hf). exists m'. split; [done|]. split; [done|].
  intros Hfit. rewrite (Hm Hfit). replace (S (length (text addr))) with (length (text addr ++ [0])) by (rewrite length_app; cbn; lia).
  apply load_write.
Qed.

Lemma ip4addr_ntoa_bounds_witness :
  let m := write ∅ 500 (repeat 0xee 9) in
  exists m', ip4addr_ntoa_r 0x0100007f 500 8 m = Some (false, m') /\ m' !! 508 = Some 0xee.
Proof.
  intros m. destruct (ip4addr_ntoa_bounds 0x0100007f 500 8 m) as (m' & E & Hf & _);
    [apply allocatedb_spec; vm_compute; reflexivity|].
  exists m'. split; [rewrite E; vm_compute; reflexivity|]. rewrite Hf by lia. vm_compute. reflexivity.
Defined.

(** The parser accepts decimal numbers of any size and keeps their value modulo
    2^32: no overflow of a part is reported. *)
Theorem ip4addr_aton_wraps m cp c ds :
  load m cp (S (length (c :: ds))) = Some (c :: ds ++ [0]) -> Forall (fun c => isdigit c = true) (c :: ds) -> c <> 48 ->
  ip4addr_aton cp m = Some (Some (lwip_htonl (value (c :: ds) mod 2 ^ 32))).
Proof. apply aton_one. Qed.

Lemma ip4addr_aton_wraps_witness :
  let s := [52; 50; 57; 52; 57; 54; 55; 50; 57; 55] in
  value s = 4294967297 /\ ip4addr_aton 40 (write ∅ 40 (s ++ [0])) = Some (Some 0x01000000).
Proof.
  intros s. split; [vm_compute; reflexivity|].
  rewrite (ip4addr_aton_wraps (write ∅ 40 (s ++ [0])) 40 52 [50; 57; 52; 57; 54; 55; 50; 57; 55]);
    [vm_compute; reflexivity|vm_compute; reflexivity|repeat (apply Forall_cons; split; [by vm_compute|]); done|done].
Defined.

(** A mask is valid exactly when, in host order, it is a run of ones from the
    highest bit on and zeros after it; the loops over its bits end. *)
Theorem ip4_addr_netmask_valid_spec mask :
  exists v, ip4_addr_netmask_valid mask = Some v /\
    (v = true <-> exists k, 0 <= k <= 32 /\ lwip_htonl mask = 2 ^ 32 - 2 ^ k).
Proof.
  unfold ip4_addr_netmask_valid. set (n := lwip_htonl mask).
  assert (Hn : 0 <= n < 2 ^ 32) by (apply wrap_range; lia).
  change (Z.shiftl 1 31) with (mask_at 32). destruct (first_zero_spec n 32 32 ltac:(lia)) as (j & Hj & -> & E & Hr).
  cbn [mbind option_bind]. rewrite no_one_spec by lia. eexists. split; [done|].
  change (2 ^ Z.of_nat 32) with (2 ^ 32) in E. rewrite Z.mod_small in E by lia.
  pose proof (Z.mod_pos_bound n (2 ^ Z.of_nat j) ltac:(lia)). rewrite Z.eqb_eq. split.
  - intros E0. exists (Z.of_nat j). lia.
  - intros (k & Hk & Ek). apply (pow2_gap k (Z.of_nat j)); lia.
Qed.
