(* ===== verification/Etharp.v ===== *)
(** * ARP: lwIP's [core/ipv4/etharp.c] and [netif/ethernet.c]

    The table of addresses and the packets that wait for one, in the configuration
    of the firmware: one packet per entry ([ARP_QUEUEING] is 0), no static entries.
    IP addresses are 32-bit values in network order as in [Ip4Addr]; hardware
    addresses are lists of six bytes, and frames are lists of bytes.  A packet is its
    chain of pbufs, each its bytes and whether it is a [PBUF_ROM], with the room before
    the first payload.  [held] counts the references to packets the module has taken and
    not given back.  What the driver and the allocator will answer are streams
    of results; when they are used up everything succeeds.  [None] is a failed
    assertion or a read beyond a packet. *)

From Stdlib Require Import ZArith Lia.
From stdpp Require Import base gmap list numbers.
From S2P Require Import Prelude LwipDef Ip4Addr.
Import OptionNotations.

Local Open Scope Z_scope.

(** ** Constants *)

Definition ARP_TABLE_SIZE : nat := 10.
Definition ARP_MAXAGE : Z := 300.
Definition ARP_AGE_REREQUEST_USED_UNICAST : Z := ARP_MAXAGE - 30.
Definition ARP_AGE_REREQUEST_USED_BROADCAST : Z := ARP_MAXAGE - 15.
Definition ARP_MAXPENDING : Z := 5.

Definition ERR_OK : Z := 0.
Definition ERR_MEM : Z := -1.
Definition ERR_BUF : Z := -2.
Definition ERR_RTE : Z := -4.
Definition ERR_ARG : Z := -16.

Definition ETHTYPE_IP : Z := 0x0800.
Definition ETHTYPE_ARP : Z := 0x0806.
Definition HWTYPE_ETHERNET : Z := 1.
Definition ARP_REQUEST : Z := 1.
Definition ARP_REPLY : Z := 2.
Definition ETH_HWADDR_LEN : Z := 6.
Definition SIZEOF_ETH_HDR : Z := 14.
Definition SIZEOF_ETHARP_HDR : nat := 28.
Definition NETIF_FLAG_ETHARP : Z := 8.
Definition PBUF_FLAG_LLBCAST : Z := 8.
Definition PBUF_FLAG_LLMCAST : Z := 16.

Definition ETHARP_FLAG_TRY_HARD : Z := 1.
Definition ETHARP_FLAG_FIND_ONLY : Z := 2.

Definition ethbroadcast : list Z := replicate 6 0xff.
Definition ethzero : list Z := replicate 6 0.

(** ** Addresses *)

Definition ip4_addr_isany_val (a : Z) : bool := a =? IPADDR_ANY.
Definition ip4_addr_ismulticast (a : Z) : bool := Z.land a (PP_HTONL 0xf0000000) =? PP_HTONL 0xe0000000.
Definition ip4_addr_islinklocal (a : Z) : bool := Z.land a (PP_HTONL 0xffff0000) =? PP_HTONL 0xa9fe0000.

(** ** State *)

Inductive etharp_state :=
| ETHARP_STATE_EMPTY
| ETHARP_STATE_PENDING
| ETHARP_STATE_STABLE
| ETHARP_STATE_STABLE_REREQUESTING_1
| ETHARP_STATE_STABLE_REREQUESTING_2.

#[global] Instance etharp_state_eq_dec : EqDecision etharp_state.
Proof. solve_decision. Defined.

(** [state >= ETHARP_STATE_STABLE] *)
Definition stable (s : etharp_state) : bool :=
  match s with
  | ETHARP_STATE_EMPTY | ETHARP_STATE_PENDING => false
  | _ => true
  end.

Record packet := Packet { segments : list (bool * list Z); room : Z }.

Definition packet_bytes (p : packet) : list Z := concat (segments p).*2.

Record etharp_entry := Entry {
  q : option packet;
  ipaddr : Z;
  e_netif : Z;
  ethaddr : list Z;
  ctime : Z;
  state : etharp_state
}.

Definition set_q (v : option packet) (e : etharp_entry) : etharp_entry := Entry v (ipaddr e) (e_netif e) (ethaddr e) (ctime e) (state e).
Definition set_ipaddr (v : Z) (e : etharp_entry) : etharp_entry := Entry (q e) v (e_netif e) (ethaddr e) (ctime e) (state e).
Definition set_netif (v : Z) (e : etharp_entry) : etharp_entry := Entry (q e) (ipaddr e) v (ethaddr e) (ctime e) (state e).
Definition set_ethaddr (v : list Z) (e : etharp_entry) : etharp_entry := Entry (q e) (ipaddr e) (e_netif e) v (ctime e) (state e).
Definition set_ctime (v : Z) (e : etharp_entry) : etharp_entry := Entry (q e) (ipaddr e) (e_netif e) (ethaddr e) (u16 v) (state e).
Definition set_state (v : etharp_state) (e : etharp_entry) : etharp_entry := Entry (q e) (ipaddr e) (e_netif e) (ethaddr e) (ctime e) v.

Record arp := Arp {
  arp_table : list etharp_entry;
  etharp_cached_entry : nat;
  held : Z;
  sent : list (list Z);
  link : list Z;
  memory : list bool
}.

Definition empty_entry : etharp_entry := Entry None 0 0 ethzero 0 ETHARP_STATE_EMPTY.
Definition arp_init (lk : list Z) (mem : list bool) : arp := Arp (replicate ARP_TABLE_SIZE empty_entry) 0 0 [] lk mem.

Definition set_table (t : list etharp_entry) (s : arp) : arp := Arp t (etharp_cached_entry s) (held s) (sent s) (link s) (memory s).
Definition on_entry (i : nat) (f : etharp_entry -> etharp_entry) (s : arp) : arp := set_table (alter f i (arp_table s)) s.
Definition ETHARP_SET_HINT (i : nat) (s : arp) : arp := Arp (arp_table s) i (held s) (sent s) (link s) (memory s).
Definition add_held (n : Z) (s : arp) : arp := Arp (arp_table s) (etharp_cached_entry s) (held s + n) (sent s) (link s) (memory s).

(** The references taken by [pbuf_alloc] and [pbuf_ref], and given back by [pbuf_free]. *)
Definition ref_free (s : arp) : arp := add_held (-1) s.
Definition ref_alloc (s : arp) : bool * arp :=
  match memory s with
  | [] => (true, add_held 1 s)
  | true :: m => (true, Arp (arp_table s) (etharp_cached_entry s) (held s + 1) (sent s) (link s) m)
  | false :: m => (false, Arp (arp_table s) (etharp_cached_entry s) (held s) (sent s) (link s) m)
  end.

(** [netif->linkoutput] *)
Definition linkoutput (frame : list Z) (s : arp) : Z * arp :=
  match link s with
  | [] => (ERR_OK, Arp (arp_table s) (etharp_cached_entry s) (held s) (sent s ++ [frame]) [] (memory s))
  | r :: l => (r, Arp (arp_table s) (etharp_cached_entry s) (held s) (if r =? ERR_OK then sent s ++ [frame] else sent s) l (memory s))
  end.

(** ** Frames *)

(** Headers cannot be put before a [PBUF_ROM], nor where there is no room. *)
Definition header_fits (p : packet) : bool :=
  match segments p with
  | (rom, _) :: _ => negb rom && (SIZEOF_ETH_HDR <=? room p)
  | [] => false
  end.

Definition eth_hdr (dst src : list Z) (eth_type : Z) : list Z := dst ++ src ++ le_bytes 2 (lwip_htons eth_type).

Definition ethernet_output (p : packet) (src dst : list Z) (eth_type : Z) (s : arp) : Z * arp :=
  if header_fits p then linkoutput (eth_hdr dst src eth_type ++ packet_bytes p) s
  else (ERR_BUF, s).

(** The bytes of [struct etharp_hdr]. *)
Definition etharp_hdr (opcode : Z) (shwaddr : list Z) (sipaddr : Z) (dhwaddr : list Z) (dipaddr : Z) : list Z :=
  le_bytes 2 (PP_HTONS HWTYPE_ETHERNET) ++ le_bytes 2 (PP_HTONS ETHTYPE_IP) ++ [ETH_HWADDR_LEN; 4] ++
  le_bytes 2 (lwip_htons opcode) ++ shwaddr ++ le_bytes 4 sipaddr ++ dhwaddr ++ le_bytes 4 dipaddr.

Definition etharp_raw (ethsrc ethdst hwsrc : list Z) (ipsrc : Z) (hwdst : list Z) (ipdst opcode : Z) (s : arp) : Z * arp :=
  let (ok, s) := ref_alloc s in
  if negb ok then (ERR_MEM, s)
  else
    let p := Packet [(false, etharp_hdr opcode hwsrc ipsrc hwdst ipdst)] SIZEOF_ETH_HDR in
    let (_, s) := ethernet_output p ethsrc ethdst ETHTYPE_ARP s in
    (ERR_OK, ref_free s).

(** ** The table *)

Definition etharp_free_entry (i : nat) (s : arp) : arp :=
  let s := match arp_table s !! i with
           | Some e => match q e with Some _ => on_entry i (set_q None) (ref_free s) | None => s end
           | None => s
           end in
  on_entry i (set_state ETHARP_STATE_EMPTY) s.

(** The candidates: an empty entry, and the oldest of each kind with its age. *)
Record candidates := Candidates {
  first_empty : option nat;
  old_stable : option nat;
  age_stable : Z;
  old_pending : option nat;
  age_pending : Z;
  old_queue : option nat;
  age_queue : Z
}.

Definition no_candidates : candidates := Candidates None None 0 None 0 None 0.

Definition note_candidate (i : nat) (e : etharp_entry) (c : candidates) : candidates :=
  match state e with
  | ETHARP_STATE_EMPTY =>
      match first_empty c with
      | None => Candidates (Some i) (old_stable c) (age_stable c) (old_pending c) (age_pending c) (old_queue c) (age_queue c)
      | Some _ => c
      end
  | ETHARP_STATE_PENDING =>
      match q e with
      | Some _ =>
          if age_queue c <=? ctime e then Candidates (first_empty c) (old_stable c) (age_stable c) (old_pending c) (age_pending c) (Some i) (ctime e)
          else c
      | None =>
          if age_pending c <=? ctime e then Candidates (first_empty c) (old_stable c) (age_stable c) (Some i) (ctime e) (old_queue c) (age_queue c)
          else c
      end
  | _ =>
      if age_stable c <=? ctime e then Candidates (first_empty c) (Some i) (ctime e) (old_pending c) (age_pending c) (old_queue c) (age_queue c)
      else c
  end.

(** A match, or the candidates. *)
Fixpoint find_loop (ip : Z) (i : nat) (l : list etharp_entry) (c : candidates) : nat + candidates :=
  match l with
  | [] => inr c
  | e :: l =>
      if negb (bool_decide (state e = ETHARP_STATE_EMPTY)) && (ip =? ipaddr e) then inl i
      else find_loop ip (S i) l (note_candidate i e c)
  end.

Definition first_some (l : list (option nat)) : option nat :=
  fold_right (fun o r => match o with Some i => Some i | None => r end) None l.

(** The entry found or created; [ERR_MEM] is an inner [None]. *)
Definition etharp_find_entry (ip flags : Z) (s : arp) : option (option nat * arp) :=
  match find_loop ip 0 (arp_table s) no_candidates with
  | inl i => Some (Some i, s)
  | inr c =>
      if negb (Z.land flags ETHARP_FLAG_FIND_ONLY =? 0) ||
         (bool_decide (first_empty c = None) && (Z.land flags ETHARP_FLAG_TRY_HARD =? 0)) then Some (None, s)
      else
        let create i s :=
          let? e := arp_table s !! i in
          if bool_decide (state e = ETHARP_STATE_EMPTY) then Some (Some i, on_entry i (set_ctime 0) (on_entry i (set_ipaddr ip) s))
          else None in
        match first_empty c with
        | Some i => create i s
        | None =>
            match old_stable c with
            | Some i =>
                let? e := arp_table s !! i in
                match q e with
                | Some _ => None
                | None => create i (etharp_free_entry i s)
                end
            | None =>
                match first_some [old_pending c; old_queue c] with
                | Some i => create i (etharp_free_entry i s)
                | None => Some (None, s)
                end
            end
        end
  end.

Section interface.
(** The network interfaces. *)
Record arp_netif := ArpNetif { ip4 : netif; gw : Z; hwaddr : list Z }.

Context (netifs : Z -> arp_netif).

Definition netif_ip4_addr (n : Z) : Z := ip_addr (ip4 (netifs n)).
Definition non_unicast (n ip : Z) : bool :=
  ip4_addr_isbroadcast_u32 ip (ip4 (netifs n)) || ip4_addr_ismulticast ip || ip4_addr_isany_val ip.

(** ** Requests *)

Definition etharp_request_dst (n ip : Z) (hw_dst_addr : list Z) (s : arp) : Z * arp :=
  etharp_raw (hwaddr (netifs n)) hw_dst_addr (hwaddr (netifs n)) (netif_ip4_addr n) ethzero ip ARP_REQUEST s.

Definition etharp_request (n ip : Z) (s : arp) : Z * arp := etharp_request_dst n ip ethbroadcast s.

(** ** The timer *)

Definition tmr_entry (i : nat) (s : arp) : option arp :=
  let? e := arp_table s !! i in
  match state e with
  | ETHARP_STATE_EMPTY => Some s
  | st =>
      let s := on_entry i (set_ctime (ctime e + 1)) s in
      let age := u16 (ctime e + 1) in
      if (ARP_MAXAGE <=? age) || (bool_decide (st = ETHARP_STATE_PENDING) && (ARP_MAXPENDING <=? age)) then Some (etharp_free_entry i s)
      else
        Some (match st with
              | ETHARP_STATE_STABLE_REREQUESTING_1 => on_entry i (set_state ETHARP_STATE_STABLE_REREQUESTING_2) s
              | ETHARP_STATE_STABLE_REREQUESTING_2 => on_entry i (set_state ETHARP_STATE_STABLE) s
              | ETHARP_STATE_PENDING => snd (etharp_request (e_netif e) (ipaddr e) s)
              | _ => s
              end)
  end.

Fixpoint tmr_loop (ids : list nat) (s : arp) : option arp :=
  match ids with
  | [] => Some s
  | i :: ids => let? s := tmr_entry i s in tmr_loop ids s
  end.

Definition etharp_tmr (s : arp) : option arp := tmr_loop (seq 0 ARP_TABLE_SIZE) s.

(** ** Updating *)

Definition etharp_update_arp_entry (n ip : Z) (eth : list Z) (flags : Z) (s : arp) : option (Z * arp) :=
  if ip4_addr_isany_val ip || ip4_addr_isbroadcast_u32 ip (ip4 (netifs n)) || ip4_addr_ismulticast ip then Some (ERR_ARG, s)
  else
    let? (r, s) := etharp_find_entry ip flags s in
    match r with
    | None => Some (ERR_MEM, s)
    | Some i =>
        let s := on_entry i (set_state ETHARP_STATE_STABLE) s in
        let s := on_entry i (set_netif n) s in
        let s := on_entry i (set_ethaddr eth) s in
        let s := on_entry i (set_ctime 0) s in
        let? e := arp_table s !! i in
        match q e with
        | None => Some (ERR_OK, s)
        | Some p =>
            let s := on_entry i (set_q None) s in
            let (_, s) := ethernet_output p (hwaddr (netifs n)) eth ETHTYPE_IP s in
            Some (ERR_OK, ref_free s)
        end
    end.

Definition cleanup_entry (n : Z) (i : nat) (s : arp) : arp :=
  match arp_table s !! i with
  | Some e => if negb (bool_decide (state e = ETHARP_STATE_EMPTY)) && (e_netif e =? n) then etharp_free_entry i s else s
  | None => s
  end.

Definition etharp_cleanup_netif (n : Z) (s : arp) : arp := foldl (fun s i => cleanup_entry n i s) s (seq 0 ARP_TABLE_SIZE).

Definition etharp_find_addr (ip : Z) (s : arp) : option (option (nat * list Z)) :=
  let? (r, _) := etharp_find_entry ip ETHARP_FLAG_FIND_ONLY s in
  match r with
  | None => Some None
  | Some i => let? e := arp_table s !! i in Some (if stable (state e) then Some (i, ethaddr e) else None)
  end.

Definition etharp_get_entry (i : nat) (s : arp) : option (Z * Z * list Z) :=
  match arp_table s !! i with
  | Some e => if stable (state e) then Some (ipaddr e, e_netif e, ethaddr e) else None
  | None => None
  end.

(** ** Sending *)

Definition etharp_output_to_arp_index (n : Z) (p : packet) (i : nat) (s : arp) : option (Z * arp) :=
  let? e := arp_table s !! i in
  if negb (stable (state e)) then None
  else
    let s :=
      if bool_decide (state e = ETHARP_STATE_STABLE) then
        if ARP_AGE_REREQUEST_USED_BROADCAST <=? ctime e then
          let (r, s) := etharp_request n (ipaddr e) s in
          if r =? ERR_OK then on_entry i (set_state ETHARP_STATE_STABLE_REREQUESTING_1) s else s
        else if ARP_AGE_REREQUEST_USED_UNICAST <=? ctime e then
          let (r, s) := etharp_request_dst n (ipaddr e) (ethaddr e) s in
          if r =? ERR_OK then on_entry i (set_state ETHARP_STATE_STABLE_REREQUESTING_1) s else s
        else s
      else s in
    Some (ethernet_output p (hwaddr (netifs n)) (ethaddr e) ETHTYPE_IP s).

(** [p->len == p->tot_len] at a pbuf that is not the last one of its chain. *)
Definition starts_queue (l : list (bool * list Z)) : bool :=
  match l with
  | (_, x) :: (_ :: _) => (length x =? length (concat l.*2))%nat
  | _ => false
  end.

(** The loop over the packet: the chain from the first pbuf on that is not a [PBUF_ROM].
    [None] is the assertion on packet queues. *)
Fixpoint from_ram (l : list (bool * list Z)) : option (list (bool * list Z)) :=
  match l with
  | [] => Some []
  | (rom, _) :: l' =>
      if starts_queue l then None
      else if negb rom then Some l
      else from_ram l'
  end.

Fixpoint has_queue (l : list (bool * list Z)) : bool :=
  match l with
  | [] => false
  | _ :: l' => starts_queue l || has_queue l'
  end.

(** Taking the packet over.  The copy is allocated with the length of the chain from the first
    pbuf on that is not a [PBUF_ROM]; [pbuf_copy] halts when that is less than the whole
    packet, and on packet queues. *)
Definition take_packet (p : packet) (s : arp) : option (option packet * arp) :=
  let? l := from_ram (segments p) in
  match l with
  | [] => Some (Some p, add_held 1 s)
  | _ =>
      let (ok, s) := ref_alloc s in
      if negb ok then Some (None, s)
      else if (length (concat l.*2) <? length (packet_bytes p))%nat then None
      else if has_queue (segments p) then None
      else Some (Some (Packet [(false, packet_bytes p)] SIZEOF_ETH_HDR), s)
  end.

Definition etharp_query (n ip : Z) (p : option packet) (s : arp) : option (Z * arp) :=
  if non_unicast n ip then Some (ERR_ARG, s)
  else
    let? (r, s) := etharp_find_entry ip ETHARP_FLAG_TRY_HARD s in
    match r with
    | None => Some (ERR_MEM, s)
    | Some i =>
        let? e := arp_table s !! i in
        let is_new_entry := bool_decide (state e = ETHARP_STATE_EMPTY) in
        let s := if is_new_entry then on_entry i (set_netif n) (on_entry i (set_state ETHARP_STATE_PENDING) s) else s in
        let (result, s) :=
          if is_new_entry || bool_decide (p = None) then etharp_request n ip s else (ERR_MEM, s) in
        match p with
        | None => Some (result, s)
        | Some p =>
            let? e := arp_table s !! i in
            if stable (state e) then
              let s := ETHARP_SET_HINT i s in
              Some (ethernet_output p (hwaddr (netifs n)) (ethaddr e) ETHTYPE_IP s)
            else if bool_decide (state e = ETHARP_STATE_PENDING) then
              let? (t, s) := take_packet p s in
              match t with
              | None => Some (ERR_MEM, s)
              | Some t =>
                  let s := match q e with Some _ => ref_free s | None => s end in
                  Some (ERR_OK, on_entry i (set_q (Some t)) s)
              end
            else Some (result, s)
        end
    end.

Fixpoint find_stable (ip : Z) (i : nat) (l : list etharp_entry) : option nat :=
  match l with
  | [] => None
  | e :: l => if stable (state e) && (ip =? ipaddr e) then Some i else find_stable ip (S i) l
  end.

(** The bytes of an address, first part first. *)
Definition ip4_addr_byte (k ip : Z) : Z := Z.land (Z.shiftr ip (8 * (k - 1))) 0xff.

Definition etharp_output (n : Z) (p : packet) (ip : Z) (s : arp) : option (Z * arp) :=
  let nif := netifs n in
  if ip4_addr_isbroadcast_u32 ip (ip4 nif) then Some (ethernet_output p (hwaddr nif) ethbroadcast ETHTYPE_IP s)
  else if ip4_addr_ismulticast ip then
    let mcastaddr := [0x01; 0x00; 0x5e; Z.land (ip4_addr_byte 2 ip) 0x7f; ip4_addr_byte 3 ip; ip4_addr_byte 4 ip] in
    Some (ethernet_output p (hwaddr nif) mcastaddr ETHTYPE_IP s)
  else
    let outside := negb (ip4_addr_netcmp ip (ip_addr (ip4 nif)) (netmask (ip4 nif))) && negb (ip4_addr_islinklocal ip) in
    if outside && ip4_addr_isany_val (gw nif) then Some (ERR_RTE, s)
    else
      let dst_addr := if outside then gw nif else ip in
      let? e := arp_table s !! etharp_cached_entry s in
      if stable (state e) && (dst_addr =? ipaddr e) then etharp_output_to_arp_index n p (etharp_cached_entry s) s
      else
        match find_stable dst_addr 0 (arp_table s) with
        | Some i => etharp_output_to_arp_index n p i (ETHARP_SET_HINT i s)
        | None => etharp_query n dst_addr (Some p) s
        end.

(** ** Receiving *)

Definition field (off len : nat) (b : list Z) : list Z := take len (drop off b).

(** The ARP packet is freed by its owner. *)
Definition etharp_input (n : Z) (b : list Z) (s : arp) : option arp :=
  if (length b <? SIZEOF_ETHARP_HDR)%nat then None
  else if negb (of_le (field 0 2 b) =? PP_HTONS HWTYPE_ETHERNET) || negb (of_le (field 4 1 b) =? ETH_HWADDR_LEN) ||
     negb (of_le (field 5 1 b) =? 4) || negb (of_le (field 2 2 b) =? PP_HTONS ETHTYPE_IP) then Some s
  else
    let sipaddr := of_le (field 14 4 b) in
    let dipaddr := of_le (field 24 4 b) in
    let shwaddr := field 8 6 b in
    let for_us := if ip4_addr_isany_val (netif_ip4_addr n) then false else dipaddr =? netif_ip4_addr n in
    let? (_, s) := etharp_update_arp_entry n sipaddr shwaddr (if for_us then ETHARP_FLAG_TRY_HARD else ETHARP_FLAG_FIND_ONLY) s in
    if (of_le (field 6 2 b) =? PP_HTONS ARP_REQUEST) && for_us then
      Some (snd (etharp_raw (hwaddr (netifs n)) shwaddr (hwaddr (netifs n)) (netif_ip4_addr n) shwaddr sipaddr ARP_REPLY s))
    else Some s.

(** The flags a frame's destination gives to its pbuf. *)
Definition link_layer_flags (dest : list Z) : Z :=
  match dest with
  | d0 :: d1 :: d2 :: _ =>
      if Z.land d0 1 =? 0 then 0
      else if d0 =? 0x01 then if (d1 =? 0x00) && (d2 =? 0x5e) then PBUF_FLAG_LLMCAST else 0
      else if bool_decide (dest = ethbroadcast) then PBUF_FLAG_LLBCAST
      else 0
  | _ => 0
  end.

(** What becomes of a frame: a packet for IP with the flags of its pbuf, or none.
    The frame is in one pbuf. *)
Definition ethernet_input (n : Z) (frame : list Z) (s : arp) : option (option (Z * list Z) * arp) :=
  if Z.of_nat (length frame) <=? SIZEOF_ETH_HDR then Some (None, s)
  else
    let type := of_le (field 12 2 frame) in
    let payload := drop 14 frame in
    if Z.land (netif_flags (ip4 (netifs n))) NETIF_FLAG_ETHARP =? 0 then Some (None, s)
    else if type =? PP_HTONS ETHTYPE_IP then Some (Some (link_layer_flags (field 0 6 frame), payload), s)
    else if type =? PP_HTONS ETHTYPE_ARP then let? s := etharp_input n payload s in Some (None, s)
    else Some (None, s).
End interface.
