(* ===== verification/EtharpProof.v ===== *)
(** * The invariant of the ARP table *)

From Stdlib Require Import ZArith Lia.
From stdpp Require Import base gmap list numbers relations.
From S2P Require Import Prelude LwipDef Ip4Addr Etharp.
From stdpp Require Import sets list.
Import OptionNotations.

Local Open Scope Z_scope.

(** ** Changing an entry *)

Definition weight (e : etharp_entry) : Z := match q e with Some _ => 1 | None => 0 end.
Fixpoint queued (l : list etharp_entry) : Z := match l with [] => 0 | e :: l => weight e + queued l end.

Lemma alter_at (f : etharp_entry -> etharp_entry) (i : nat) (l : list etharp_entry) e : l !! i = Some e -> alter f i l = <[i := f e]> l.
Proof.
  intros H. apply list_eq. intros j. destruct (decide (j = i)) as [->|Hne].
  - rewrite list_lookup_alter_eq, H, list_lookup_insert_eq by (by eapply lookup_lt_Some). done.
  - by rewrite list_lookup_alter_ne, list_lookup_insert_ne by auto.
Qed.

Lemma queued_insert (i : nat) l e e' : l !! i = Some e -> queued (<[i := e']> l) = queued l - weight e + weight e'.
Proof.
  revert i. induction l as [|x l IH]; intros [|i] H; try done.
  - injection H as ->. cbn [insert list_insert queued]. lia.
  - change (<[S i := e']> (x :: l)) with (x :: <[i := e']> l). cbn [queued]. rewrite (IH i H). lia.
Qed.

Lemma queued_zero l : Forall (fun e => q e = None) l -> queued l = 0.
Proof. induction 1 as [|e l He Hl IH]; cbn [queued]; [done|]. unfold weight. rewrite He. lia. Qed.

(** ** The invariant *)

Definition used (e : etharp_entry) : Prop := state e <> ETHARP_STATE_EMPTY.

Record entry_ok (e : etharp_entry) : Prop := {
  eo_queue : q e <> None -> state e = ETHARP_STATE_PENDING;
  eo_time : used e -> 0 <= ctime e < ARP_MAXAGE;
  eo_pending : state e = ETHARP_STATE_PENDING -> ctime e < ARP_MAXPENDING;
  eo_addr : stable (state e) = true -> length (ethaddr e) = 6%nat
}.

Definition unique (l : list etharp_entry) : Prop :=
  forall i j ei ej, l !! i = Some ei -> l !! j = Some ej -> used ei -> used ej -> ipaddr ei = ipaddr ej -> i = j.

Record arp_ok (s : arp) : Prop := {
  ao_size : length (arp_table s) = ARP_TABLE_SIZE;
  ao_hint : (etharp_cached_entry s < ARP_TABLE_SIZE)%nat;
  ao_entries : Forall entry_ok (arp_table s);
  ao_unique : unique (arp_table s);
  ao_held : held s = queued (arp_table s)
}.

(** What the invariant speaks about is the same. *)
Definition same_arp (s s' : arp) : Prop :=
  arp_table s' = arp_table s /\ etharp_cached_entry s' = etharp_cached_entry s /\ held s' = held s.

Lemma same_ok s s' : arp_ok s -> same_arp s s' -> arp_ok s'.
Proof. intros [H1 H2 H3 H4 H5] (E1 & E2 & E3). split; rewrite ?E1, ?E2, ?E3; done. Qed.

Lemma output_same p src dst t s : same_arp s (snd (ethernet_output p src dst t s)).
Proof. unfold ethernet_output, linkoutput. destruct (header_fits p); [|done]. by destruct (link s). Qed.

Lemma raw_same a b c d e f g s : same_arp s (snd (etharp_raw a b c d e f g s)).
Proof.
  unfold etharp_raw, ref_alloc. destruct (memory s) as [|[] m].
  - destruct (ethernet_output _ _ _ _ _) as [r s'] eqn:E. cbn [negb snd]. pose proof (output_same (Packet [(false, etharp_hdr g c d e f)] SIZEOF_ETH_HDR) a b ETHTYPE_ARP (add_held 1 s)) as H.
    rewrite E in H. destruct H as (H1 & H2 & H3). cbn in *. unfold same_arp. cbn. rewrite H1, H2, H3. split; [done|]. split; [done|]. lia.
  - set (s1 := Arp _ _ _ _ _ _). destruct (ethernet_output _ _ _ _ s1) as [r s'] eqn:E. cbn [negb snd]. pose proof (output_same (Packet [(false, etharp_hdr g c d e f)] SIZEOF_ETH_HDR) a b ETHTYPE_ARP s1) as H.
    rewrite E in H. destruct H as (H1 & H2 & H3). cbn in *. unfold same_arp. cbn. rewrite H1, H2, H3. split; [done|]. split; [done|]. lia.
  - done.
Qed.

(** Storing an entry: its address is not that of another one. *)
Lemma arp_put_ok s s' i e e' : arp_ok s -> arp_table s !! i = Some e -> entry_ok e' ->
  (used e' -> used e /\ ipaddr e' = ipaddr e \/ forall j ej, j <> i -> arp_table s !! j = Some ej -> used ej -> ipaddr ej <> ipaddr e') ->
  arp_table s' = <[i := e']> (arp_table s) -> (etharp_cached_entry s' < ARP_TABLE_SIZE)%nat -> held s' = held s - weight e + weight e' -> arp_ok s'.
Proof.
  intros [H1 H2 H3 H4 H5] Hi He' Hu Et Ec Eh. split; rewrite ?Et; try done.
  - by rewrite length_insert.
  - by apply Forall_insert.
  - assert (Hlt : (i < length (arp_table s))%nat) by (by eapply lookup_lt_Some).
    assert (Hcase : forall j ej, j <> i -> arp_table s !! j = Some ej -> used e' -> used ej -> ipaddr ej <> ipaddr e').
    { intros j ej Hne Hj Hu' Huj Eip. destruct (Hu Hu') as [[Hue Eipe]|Hn]; [|by apply (Hn j ej)].
      apply Hne. apply (H4 j i ej e); try done. congruence. }
    intros a b ea eb Ha Hb Hua Hub Eip. destruct (decide (a = i)) as [->|Hai], (decide (b = i)) as [->|Hbi]; [done|..].
    + rewrite list_lookup_insert_eq in Ha by done. injection Ha as <-. rewrite list_lookup_insert_ne in Hb by auto. by destruct (Hcase b eb Hbi Hb Hua Hub).
    + rewrite list_lookup_insert_eq in Hb by done. injection Hb as <-. rewrite list_lookup_insert_ne in Ha by auto. by destruct (Hcase a ea Hai Ha Hub Hua).
    + rewrite list_lookup_insert_ne in Ha by auto. rewrite list_lookup_insert_ne in Hb by auto. by apply (H4 a b ea eb).
  - by rewrite (queued_insert i _ e), Eh, H5.
Qed.

Lemma entry_at s i : arp_ok s -> (i < ARP_TABLE_SIZE)%nat -> exists e, arp_table s !! i = Some e /\ entry_ok e.
Proof.
  intros Hs Hi. destruct (lookup_lt_is_Some_2 (arp_table s) i) as [e He]; [by rewrite (ao_size _ Hs)|]. exists e. split; [done|].
  by apply (Forall_lookup_1 _ _ _ _ (ao_entries _ Hs) He).
Qed.

(** The other parts of the state are untouched. *)
Definition same_rest (s s' : arp) : Prop :=
  etharp_cached_entry s' = etharp_cached_entry s /\ sent s' = sent s /\ link s' = link s /\ memory s' = memory s.

(** An entry is emptied. *)
Definition emptied (e : etharp_entry) : etharp_entry := set_state ETHARP_STATE_EMPTY (set_q None e).

Lemma free_entry_eq s i e : arp_table s !! i = Some e ->
  let s' := etharp_free_entry i s in
  arp_table s' = <[i := emptied e]> (arp_table s) /\ held s' = held s - weight e /\ same_rest s s'.
Proof.
  intros Hi s'. assert (Hlt : (i < length (arp_table s))%nat) by (by eapply lookup_lt_Some).
  unfold s', etharp_free_entry, emptied. rewrite Hi. unfold weight. destruct (q e) as [p|] eqn:Eq.
  - cbn [on_entry set_table arp_table ref_free add_held held]. rewrite (alter_at _ i _ e Hi).
    rewrite (alter_at _ i _ (set_q None e)) by (by rewrite list_lookup_insert_eq). rewrite list_insert_insert_eq. split; [done|]. split; [lia|done].
  - cbn [on_entry set_table arp_table held]. rewrite (alter_at _ i _ e Hi). split; [|split; [lia|done]]. destruct e; cbn in *. by subst.
Qed.

Lemma emptied_ok e : entry_ok (emptied e) /\ ~ used (emptied e) /\ weight (emptied e) = 0.
Proof. split; [|split; [by intros []|done]]. split; cbn; try done. Qed.

Lemma free_entry_ok s i e : arp_ok s -> arp_table s !! i = Some e ->
  let s' := etharp_free_entry i s in
  arp_ok s' /\ arp_table s' = <[i := emptied e]> (arp_table s) /\ same_rest s s'.
Proof.
  intros Hs Hi s'. destruct (free_entry_eq s i e Hi) as (Et & Eh & Er). destruct (emptied_ok e) as (H1 & H2 & H3). split; [|done].
  apply (arp_put_ok s s' i e (emptied e)); try done; [unfold s'; rewrite (proj1 Er); apply Hs|unfold s'; lia].
Qed.

(** ** Looking for an entry *)

Definition matches (ip : Z) (e : etharp_entry) : Prop := used e /\ ipaddr e = ip.

(** What the candidates are: [l] has been searched. *)
Record cand_ok (l : list etharp_entry) (c : candidates) : Prop := {
  co_empty : forall i, first_empty c = Some i -> exists e, l !! i = Some e /\ state e = ETHARP_STATE_EMPTY;
  co_no_empty : first_empty c = None -> Forall used l;
  co_stable : forall i, old_stable c = Some i -> exists e, l !! i = Some e /\ stable (state e) = true;
  co_old : forall i, old_pending c = Some i \/ old_queue c = Some i -> exists e, l !! i = Some e /\ used e;
  co_some : old_stable c = None -> old_pending c = None -> old_queue c = None -> Forall (fun e => ~ used e) l;
  co_ages : (old_stable c = None -> age_stable c = 0) /\ (old_pending c = None -> age_pending c = 0) /\ (old_queue c = None -> age_queue c = 0)
}.

(** Only one of the candidates changes. *)
Lemma cand_keep l e c : cand_ok l c -> (used e -> old_stable c <> None \/ old_pending c <> None \/ old_queue c <> None) ->
  (~ used e -> first_empty c <> None) -> cand_ok (l ++ [e]) c.
Proof.
  intros [C1 C2 C3 C4 C5 C6] Hu He.
  assert (Hold : forall (i : nat) (P : etharp_entry -> Prop), (exists x, l !! i = Some x /\ P x) -> exists x, (l ++ [e]) !! i = Some x /\ P x).
  { intros i P (x & Hx & Hp). exists x. split; [|done]. by apply lookup_app_l_Some. }
  split; auto.
  - intros Hn. apply Forall_app. split; [by apply C2|]. constructor; [|done]. intros E. exact (He (fun u => u E) Hn).
  - intros H1 H2 H3. apply Forall_app. split; [by apply C5|]. constructor; [|done]. intros Hx. destruct (Hu Hx) as [?|[?|?]]; done.
Qed.

Lemma note_stable i e c : stable (state e) = true -> note_candidate i e c =
  if age_stable c <=? ctime e then Candidates (first_empty c) (Some i) (ctime e) (old_pending c) (age_pending c) (old_queue c) (age_queue c) else c.
Proof. unfold note_candidate. by destruct (state e). Qed.

Lemma note_ok l e c : cand_ok l c -> entry_ok e -> cand_ok (l ++ [e]) (note_candidate (length l) e c).
Proof.
  intros Hc He. pose proof Hc as [C1 C2 C3 C4 C5 (C6 & C7 & C8)].
  assert (Hold : forall (i : nat) (P : etharp_entry -> Prop), (exists x, l !! i = Some x /\ P x) -> exists x, (l ++ [e]) !! i = Some x /\ P x).
  { intros i P (x & Hx & Hp). exists x. split; [|done]. by apply lookup_app_l_Some. }
  assert (Hnew : (l ++ [e]) !! length l = Some e) by (by rewrite lookup_app_r, Nat.sub_diag by lia).
  pose proof (eo_time e He) as Ht. destruct (stable (state e)) eqn:Est.
  { assert (Hu : used e) by (intros E; by rewrite E in Est). specialize (Ht Hu). rewrite note_stable by done.
    destruct (Z.leb_spec (age_stable c) (ctime e)) as [Hle|Hgt].
    - split; cbn; auto; try done.
      + intros Hn. apply Forall_app. split; [by apply C2|]. by constructor.
      + intros i [= <-]. eauto.
    - apply cand_keep; [done| |done]. intros _. left. intros Hn. rewrite (C6 Hn) in Hgt. lia. }
  unfold note_candidate. destruct (state e) eqn:Es; try done.
  - destruct (first_empty c) as [k|] eqn:Ee; [apply cand_keep; [done|by intros []|by rewrite Ee]|].
    split; cbn; auto; try done.
    + intros i [= <-]. eauto.
    + intros H1 H2 H3. apply Forall_app. split; [by apply C5|]. constructor; [|done]. by intros [].
  - assert (Hu : used e) by (unfold used; congruence). specialize (Ht Hu). destruct (q e) as [p|].
    + destruct (Z.leb_spec (age_queue c) (ctime e)) as [Hle|Hgt].
      * split; cbn; auto; try done.
        -- intros Hn. apply Forall_app. split; [by apply C2|]. by constructor.
        -- intros i [H|[= <-]]; [apply Hold, C4; by left|]. eauto.
      * apply cand_keep; [done| |done]. intros _. right. right. intros Hn. rewrite (C8 Hn) in Hgt. lia.
    + destruct (Z.leb_spec (age_pending c) (ctime e)) as [Hle|Hgt].
      * split; cbn; auto; try done.
        -- intros Hn. apply Forall_app. split; [by apply C2|]. by constructor.
        -- intros i [[= <-]|H]; [|apply Hold, C4; by right]. eauto.
      * apply cand_keep; [done| |done]. intros _. right. left. intros Hn. rewrite (C7 Hn) in Hgt. lia.
Qed.

Lemma find_loop_ok ip l2 : forall l1 c, cand_ok l1 c -> Forall entry_ok l2 -> Forall (fun e => ~ matches ip e) l1 ->
  match find_loop ip (length l1) l2 c with
  | inl i => exists e, (l1 ++ l2) !! i = Some e /\ matches ip e
  | inr c' => cand_ok (l1 ++ l2) c' /\ Forall (fun e => ~ matches ip e) (l1 ++ l2)
  end.
Proof.
  induction l2 as [|e l2 IH]; intros l1 c Hc Hok Hno; cbn [find_loop]; [by rewrite app_nil_r|].
  apply Forall_cons in Hok as [He Hok]. destruct (negb (bool_decide (state e = ETHARP_STATE_EMPTY)) && (ip =? ipaddr e)) eqn:Em.
  - apply andb_true_iff in Em as [E1 E2%Z.eqb_eq]. apply negb_true_iff, bool_decide_eq_false in E1. exists e. split; [|done].
    by rewrite lookup_app_r, Nat.sub_diag by lia.
  - specialize (IH (l1 ++ [e]) (note_candidate (length l1) e c) (note_ok l1 e c Hc He) Hok). rewrite length_app, Nat.add_1_r, <- app_assoc in IH. apply IH.
    apply Forall_app. split; [done|]. constructor; [|done]. intros [Hu Hip]. apply andb_false_iff in Em as [E|E].
    + apply negb_false_iff, bool_decide_eq_true in E. done.
    + apply Z.eqb_neq in E. congruence.
Qed.

Lemma find_ok ip s : arp_ok s ->
  match find_loop ip 0 (arp_table s) no_candidates with
  | inl i => exists e, arp_table s !! i = Some e /\ matches ip e
  | inr c => cand_ok (arp_table s) c /\ Forall (fun e => ~ matches ip e) (arp_table s)
  end.
Proof.
  intros Hs. apply (find_loop_ok ip (arp_table s) []); [|apply Hs|done]. split; try done. intros i [H|H]; done.
Qed.

(** A fresh entry for [ip]. *)
Definition fresh_entry (ip : Z) (i : nat) (s s' : arp) : Prop :=
  exists e, arp_table s' !! i = Some e /\ ipaddr e = ip /\ state e = ETHARP_STATE_EMPTY /\ q e = None /\ ctime e = 0 /\
    (forall j, j <> i -> arp_table s' !! j = arp_table s !! j) /\ Forall (fun e => ~ matches ip e) (arp_table s).

Definition create (ip : Z) (i : nat) (s : arp) : option (option nat * arp) :=
  let? e := arp_table s !! i in
  if bool_decide (state e = ETHARP_STATE_EMPTY) then Some (Some i, on_entry i (set_ctime 0) (on_entry i (set_ipaddr ip) s))
  else None.

Lemma create_ok ip i s s1 e : arp_ok s1 -> arp_table s1 !! i = Some e -> state e = ETHARP_STATE_EMPTY -> q e = None ->
  (forall j, j <> i -> arp_table s1 !! j = arp_table s !! j) -> Forall (fun e => ~ matches ip e) (arp_table s) ->
  exists s', create ip i s1 = Some (Some i, s') /\ arp_ok s' /\ same_rest s1 s' /\ fresh_entry ip i s s'.
Proof.
  intros Hs Hi Es Eq Ho Hno. unfold create. rewrite Hi. cbn [mbind option_bind]. rewrite bool_decide_eq_true_2 by done.
  assert (Hlt : (i < length (arp_table s1))%nat) by (by eapply lookup_lt_Some). eexists. split; [done|].
  set (s' := on_entry _ _ _). set (e' := set_ctime 0 (set_ipaddr ip e)).
  assert (Et : arp_table s' = <[i := e']> (arp_table s1)).
  { unfold s', on_entry. cbn [set_table arp_table]. rewrite (alter_at _ i (arp_table s1) e Hi). rewrite (alter_at _ i _ (set_ipaddr ip e)) by (by rewrite list_lookup_insert_eq).
    by rewrite list_insert_insert_eq. }
  split; [|split; [done|]].
  - apply (arp_put_ok s1 s' i e e'); try done.
    + by split; cbn; rewrite ?Es, ?Eq.
    + apply Hs.
    + unfold weight. cbn. rewrite Eq. lia.
  - exists e'. split; [by rewrite Et, list_lookup_insert_eq|]. do 4 (split; [done|]). split; [|done]. intros j Hj. rewrite Et, list_lookup_insert_ne by auto. by apply Ho.
Qed.

(** A recycled entry. *)
Lemma recycle_ok ip i s e : arp_ok s -> arp_table s !! i = Some e -> Forall (fun e => ~ matches ip e) (arp_table s) ->
  exists s', create ip i (etharp_free_entry i s) = Some (Some i, s') /\ arp_ok s' /\ same_rest s s' /\ fresh_entry ip i s s'.
Proof.
  intros Hs Hi Hno. destruct (free_entry_ok s i e Hs Hi) as (H1 & Et & E1 & E2 & E3 & E4).
  assert (Hlt : (i < length (arp_table s))%nat) by (by eapply lookup_lt_Some).
  destruct (create_ok ip i s (etharp_free_entry i s) (emptied e)) as (s' & E & H2 & (R1 & R2 & R3 & R4) & Hf); try done.
  - by rewrite Et, list_lookup_insert_eq.
  - intros j Hj. by rewrite Et, list_lookup_insert_ne by auto.
  - exists s'. split; [done|]. split; [done|]. split; [|done]. unfold same_rest. by rewrite R1, R2, R3, R4.
Qed.

(** An entry is always found or made when it may be made. *)
Lemma find_entry_ok ip (hard : bool) s : arp_ok s ->
  exists r s', etharp_find_entry ip (if hard then ETHARP_FLAG_TRY_HARD else ETHARP_FLAG_FIND_ONLY) s = Some (r, s') /\ arp_ok s' /\ same_rest s s' /\
    match r with
    | None => s' = s /\ hard = false /\ Forall (fun e => ~ matches ip e) (arp_table s)
    | Some i => s' = s /\ (exists e, arp_table s !! i = Some e /\ matches ip e) \/ hard = true /\ fresh_entry ip i s s'
    end.
Proof.
  intros Hs. unfold etharp_find_entry. pose proof (find_ok ip s Hs) as Hf. destruct (find_loop ip 0 (arp_table s) no_candidates) as [i|c].
  - exists (Some i), s. split; [done|]. split; [done|]. split; [done|]. left. done.
  - destruct Hf as [Hc Hno]. destruct hard.
    + change (Z.land ETHARP_FLAG_TRY_HARD ETHARP_FLAG_FIND_ONLY =? 0) with true. change (Z.land ETHARP_FLAG_TRY_HARD ETHARP_FLAG_TRY_HARD =? 0) with false.
      rewrite andb_false_r. cbn [negb orb]. fold (create ip).
      assert (Hdone : forall i s1, (exists s', create ip i s1 = Some (Some i, s') /\ arp_ok s' /\ same_rest s s' /\ fresh_entry ip i s s') ->
        exists r s', create ip i s1 = Some (r, s') /\ arp_ok s' /\ same_rest s s' /\
          match r with None => s' = s /\ true = false /\ Forall (fun e => ~ matches ip e) (arp_table s)
          | Some i => s' = s /\ (exists e, arp_table s !! i = Some e /\ matches ip e) \/ true = true /\ fresh_entry ip i s s' end).
      { intros i s1 (s' & E & H1 & H2 & H3). exists (Some i), s'. split; [done|]. split; [done|]. split; [done|]. by right. }
      destruct (first_empty c) as [i|] eqn:Ee.
      * destruct (co_empty _ _ Hc i Ee) as (e & Hi & Es). pose proof (Forall_lookup_1 _ _ _ _ (ao_entries _ Hs) Hi) as He. apply Hdone.
        apply (create_ok ip i s s e); try done. destruct (q e) eqn:Eq; [|done]. assert (state e = ETHARP_STATE_PENDING) by (apply He; by rewrite Eq). congruence.
      * destruct (old_stable c) as [i|] eqn:Eos.
        -- destruct (co_stable _ _ Hc i Eos) as (e & Hi & Es). pose proof (Forall_lookup_1 _ _ _ _ (ao_entries _ Hs) Hi) as He. rewrite Hi. cbn [mbind option_bind].
           destruct (q e) eqn:Eq; [assert (state e = ETHARP_STATE_PENDING) as E by (apply He; by rewrite Eq); by rewrite E in Es|]. apply Hdone. by apply (recycle_ok ip i s e).
        -- destruct (first_some [old_pending c; old_queue c]) as [i|] eqn:Ef.
           ++ assert (Hi : old_pending c = Some i \/ old_queue c = Some i) by (cbn in Ef; destruct (old_pending c), (old_queue c); naive_solver).
              destruct (co_old _ _ Hc i Hi) as (e & He & _). apply Hdone. by apply (recycle_ok ip i s e).
           ++ exfalso. assert (Hn : Forall (fun e => ~ used e) (arp_table s)) by (apply (co_some _ _ Hc Eos); cbn in Ef; by destruct (old_pending c), (old_queue c)).
              pose proof (co_no_empty _ _ Hc Ee) as Hu. pose proof (ao_size _ Hs) as Hlen. destruct (arp_table s) as [|e l]; [done|].
              apply Forall_cons in Hn as [Hn _]. apply Forall_cons in Hu as [Hu _]. done.
    + change (Z.land ETHARP_FLAG_FIND_ONLY ETHARP_FLAG_FIND_ONLY =? 0) with false. cbn [negb orb]. exists None, s. done.
Qed.

(** ** Operations *)

Section operations.
Context (netifs : Z -> arp_netif).

Lemma request_dst_same n ip hw s : same_arp s (snd (etharp_request_dst netifs n ip hw s)).
Proof. apply raw_same. Qed.

Lemma request_same n ip s : same_arp s (snd (etharp_request netifs n ip s)).
Proof. apply raw_same. Qed.

(** The entry is updated, and the packet that waits in it is sent. *)
Definition resolved (n ip : Z) (eth : list Z) (i : nat) (s1 s' : arp) : Prop :=
  exists e1, arp_table s1 !! i = Some e1 /\ ipaddr e1 = ip /\
    arp_table s' = <[i := Entry None ip n eth 0 ETHARP_STATE_STABLE]> (arp_table s1) /\
    memory s' = memory s1 /\ (link s1 = [] -> link s' = []) /\
    sent s' = match q e1 with Some p => sent (snd (ethernet_output p (hwaddr (netifs n)) eth ETHTYPE_IP s1)) | None => sent s1 end.

Lemma output_sent p src dst t s s0 : sent s = sent s0 -> link s = link s0 -> sent (snd (ethernet_output p src dst t s)) = sent (snd (ethernet_output p src dst t s0)).
Proof. intros E1 E2. unfold ethernet_output, linkoutput. rewrite E2. destruct (header_fits p); [|done]. destruct (link s0); cbn; by rewrite E1. Qed.

Lemma output_rest p src dst t s : let s' := snd (ethernet_output p src dst t s) in memory s' = memory s /\ (link s = [] -> link s' = []).
Proof. unfold ethernet_output, linkoutput. destruct (header_fits p); [|done]. by destruct (link s). Qed.

Lemma update_ok n ip eth (hard : bool) s : arp_ok s -> length eth = 6%nat ->
  exists r s', etharp_update_arp_entry netifs n ip eth (if hard then ETHARP_FLAG_TRY_HARD else ETHARP_FLAG_FIND_ONLY) s = Some (r, s') /\ arp_ok s' /\
    (s' = s /\ (non_unicast netifs n ip = true \/ hard = false /\ Forall (fun e => ~ matches ip e) (arp_table s)) \/
     non_unicast netifs n ip = false /\ r = ERR_OK /\ exists i s1, same_rest s s1 /\ resolved n ip eth i s1 s' /\
       (s1 = s /\ (exists e, arp_table s !! i = Some e /\ matches ip e) \/ fresh_entry ip i s s1)).
Proof.
  intros Hs Heth. unfold etharp_update_arp_entry.
  assert (Enu : ip4_addr_isany_val ip || ip4_addr_isbroadcast_u32 ip (ip4 (netifs n)) || ip4_addr_ismulticast ip = non_unicast netifs n ip).
  { unfold non_unicast. by destruct (ip4_addr_isany_val ip), (ip4_addr_isbroadcast_u32 ip (ip4 (netifs n))), (ip4_addr_ismulticast ip). }
  rewrite Enu. destruct (non_unicast netifs n ip) eqn:En; [exists ERR_ARG, s; split; [done|]; split; [done|]; left; auto|].
  destruct (find_entry_ok ip hard s Hs) as (r & s1 & -> & Hs1 & Hrest & Hr). cbn [mbind option_bind]. destruct r as [i|].
  2: { destruct Hr as (-> & Hh & Hno). exists ERR_MEM, s. split; [done|]. split; [done|]. left. auto. }
  assert (Hent : exists e, arp_table s1 !! i = Some e /\ ipaddr e = ip /\ (used e \/ forall j ej, j <> i -> arp_table s1 !! j = Some ej -> used ej -> ipaddr ej <> ip)).
  { destruct Hr as [[-> (e & Hi & Hm)]|[_ (e & Hi & Hip & _ & _ & _ & Ho & Hno)]]; [destruct Hm; eauto 10|]. exists e. split; [done|]. split; [done|]. right.
    intros j ej Hj Hej Hu E. rewrite Ho in Hej by done. rewrite Forall_lookup in Hno. by apply (Hno j ej Hej). }
  destruct Hent as (e & Hi & Hip & Hu). assert (Hlt : (i < length (arp_table s1))%nat) by (by eapply lookup_lt_Some).
  set (e' := Entry (q e) ip n eth 0 ETHARP_STATE_STABLE).
  set (s2 := on_entry i (set_ctime 0) _).
  assert (Et2 : arp_table s2 = <[i := e']> (arp_table s1)).
  { unfold s2, on_entry. cbn [set_table arp_table]. rewrite (alter_at _ i (arp_table s1) e Hi).
    do 3 (rewrite (alter_at _ i (<[i := _]> _) _ ltac:(by apply list_lookup_insert_eq)); rewrite list_insert_insert_eq). by subst ip. }
  rewrite Et2, list_lookup_insert_eq by done. cbn [mbind option_bind q e']. cbv zeta.
  assert (Hok : forall s', arp_table s' = <[i := Entry None ip n eth 0 ETHARP_STATE_STABLE]> (arp_table s1) -> etharp_cached_entry s' = etharp_cached_entry s1 -> held s' = held s1 - weight e -> arp_ok s').
  { intros s' Et Ec Eh. apply (arp_put_ok s1 s' i e (Entry None ip n eth 0 ETHARP_STATE_STABLE)); try done.
    - intros _. destruct Hu as [Hu|Hu]; [by left|by right].
    - rewrite Ec. apply Hs1.
    - rewrite Eh. unfold weight. cbn. lia. }
  destruct (q e) as [p|] eqn:Eq.
  - set (s3 := on_entry i (set_q None) s2). destruct (ethernet_output p (hwaddr (netifs n)) eth ETHTYPE_IP s3) as [x s4] eqn:Eo.
    pose proof (output_same p (hwaddr (netifs n)) eth ETHTYPE_IP s3) as Hsame. rewrite Eo in Hsame. destruct Hsame as (S1 & S2 & S3). cbn [snd] in *.
    assert (Et3 : arp_table s3 = <[i := Entry None ip n eth 0 ETHARP_STATE_STABLE]> (arp_table s1)).
    { unfold s3, on_entry. cbn [set_table arp_table]. rewrite Et2. rewrite (alter_at _ i _ e' ltac:(by apply list_lookup_insert_eq)), list_insert_insert_eq. done. }
    exists ERR_OK, (ref_free s4). split; [done|]. split.
    + apply Hok; cbn; [by rewrite S1|by rewrite S2|]. rewrite S3. unfold weight. rewrite Eq. done.
    + right. split; [done|]. split; [done|]. exists i, s1. split; [done|]. split; [|by destruct Hr as [?|[_ ?]]; [left|right]].
      exists e. split; [done|]. split; [done|]. split; [cbn; by rewrite S1|]. rewrite Eq. cbn [ref_free add_held sent].
      destruct (output_rest p (hwaddr (netifs n)) eth ETHTYPE_IP s3) as [R1 R2]. rewrite Eo in R1, R2. split; [exact R1|]. split; [exact R2|].
      rewrite <- (output_sent p (hwaddr (netifs n)) eth ETHTYPE_IP s3 s1) by done. by rewrite Eo.
  - exists ERR_OK, s2. split; [done|]. split.
    + apply Hok; [|done|]; [by rewrite Et2|]. cbn. unfold weight. rewrite Eq. lia.
    + right. split; [done|]. split; [done|]. exists i, s1. split; [done|]. split; [|by destruct Hr as [?|[_ ?]]; [left|right]].
      exists e. split; [done|]. split; [done|]. rewrite Eq. split; [|done]. by rewrite Et2.
Qed.

(** ** The timer *)

Lemma tmr_entry_ok s i : arp_ok s -> (i < ARP_TABLE_SIZE)%nat ->
  exists s' e e', tmr_entry netifs i s = Some s' /\ arp_ok s' /\ arp_table s !! i = Some e /\ arp_table s' = <[i := e']> (arp_table s) /\
    (used e' -> used e /\ ctime e' = ctime e + 1 /\ ipaddr e' = ipaddr e /\ ethaddr e' = ethaddr e).
Proof.
  intros Hs Hi. destruct (entry_at s i Hs Hi) as (e & He & Hok). unfold tmr_entry. rewrite He. cbn [mbind option_bind].
  assert (Hlt : (i < length (arp_table s))%nat) by (by eapply lookup_lt_Some).
  destruct (decide (state e = ETHARP_STATE_EMPTY)) as [Es|Hu].
  { rewrite Es. exists s, e, e. split; [done|]. split; [done|]. split; [done|]. split; [by rewrite list_insert_id|]. by intros []. }
  pose proof (eo_time e Hok Hu) as Ht. unfold ARP_MAXAGE in Ht. set (s1 := on_entry i (set_ctime (ctime e + 1)) s).
  assert (Eage : u16 (ctime e + 1) = ctime e + 1) by (apply u16_small; lia).
  set (e1 := Entry (q e) (ipaddr e) (e_netif e) (ethaddr e) (ctime e + 1) (state e)).
  assert (Et1 : arp_table s1 = <[i := e1]> (arp_table s)) by (unfold s1, on_entry; cbn [set_table arp_table]; rewrite (alter_at _ i _ e He); unfold set_ctime; by rewrite Eage).
  assert (Hgo : exists s', (if (ARP_MAXAGE <=? u16 (ctime e + 1)) || (bool_decide (state e = ETHARP_STATE_PENDING) && (ARP_MAXPENDING <=? u16 (ctime e + 1))) then Some (etharp_free_entry i s1)
    else Some (match state e with
              | ETHARP_STATE_STABLE_REREQUESTING_1 => on_entry i (set_state ETHARP_STATE_STABLE_REREQUESTING_2) s1
              | ETHARP_STATE_STABLE_REREQUESTING_2 => on_entry i (set_state ETHARP_STATE_STABLE) s1
              | ETHARP_STATE_PENDING => snd (etharp_request netifs (e_netif e) (ipaddr e) s1)
              | _ => s1
              end)) = Some s' /\ arp_ok s' /\ exists e', arp_table s' = <[i := e']> (arp_table s) /\
                (used e' -> used e /\ ctime e' = ctime e + 1 /\ ipaddr e' = ipaddr e /\ ethaddr e' = ethaddr e)).
  2: { destruct Hgo as (s' & E & H1 & e' & H2 & H3). exists s', e, e'. destruct (state e); done. }
  rewrite Eage. destruct ((ARP_MAXAGE <=? ctime e + 1) || (bool_decide (state e = ETHARP_STATE_PENDING) && (ARP_MAXPENDING <=? ctime e + 1))) eqn:Eold.
  { destruct (free_entry_eq s1 i e1) as (F1 & F2 & F3 & _); [by rewrite Et1, list_lookup_insert_eq|]. rewrite Et1, list_insert_insert_eq in F1.
    destruct (emptied_ok e1) as (H1 & H2 & H3). eexists. split; [done|]. split; [|by exists (emptied e1)].
    apply (arp_put_ok s _ i e (emptied e1)); try done; [rewrite F3; apply Hs|]. rewrite F2, H3. change (weight e1) with (weight e). cbn. lia. }
  apply orb_false_iff in Eold as [E1%Z.leb_gt E2]. unfold ARP_MAXAGE in E1.
  assert (Hput : forall st s', arp_table s' = <[i := set_state st e1]> (arp_table s) -> etharp_cached_entry s' = etharp_cached_entry s -> held s' = held s ->
    (q e <> None -> st = ETHARP_STATE_PENDING) -> (st = ETHARP_STATE_PENDING -> ctime e + 1 < ARP_MAXPENDING) -> (stable st = true -> stable (state e) = true) ->
    arp_ok s' /\ exists e', arp_table s' = <[i := e']> (arp_table s) /\ (used e' -> used e /\ ctime e' = ctime e + 1 /\ ipaddr e' = ipaddr e /\ ethaddr e' = ethaddr e)).
  { intros st s' Et Ec Eh Hq Hp Hst. split; [|by exists (set_state st e1)]. apply (arp_put_ok s s' i e (set_state st e1)); try done.
    - split; cbn; try done; [unfold ARP_MAXAGE; lia|]. intros Hx. by apply Hok, Hst.
    - intros _. by left.
    - rewrite Ec. apply Hs.
    - rewrite Eh. change (weight (set_state st e1)) with (weight e). lia. }
  assert (Halter : forall st, arp_table (on_entry i (set_state st) s1) = <[i := set_state st e1]> (arp_table s)).
  { intros st. unfold on_entry. cbn [set_table arp_table]. rewrite Et1, (alter_at _ i _ e1 ltac:(by apply list_lookup_insert_eq)), list_insert_insert_eq. done. }
  pose proof (eo_queue e Hok) as Hqe. eexists. split; [done|]. destruct (state e) eqn:Es; [done|..].
  - destruct (request_same (e_netif e) (ipaddr e) s1) as (S1 & S2 & S3). apply (Hput ETHARP_STATE_PENDING); [by rewrite S1, Et1|done|done|done| |done].
    intros _. rewrite bool_decide_eq_true_2 in E2 by done. apply Z.leb_gt in E2. done.
  - apply (Hput ETHARP_STATE_STABLE); done.
  - apply (Hput ETHARP_STATE_STABLE_REREQUESTING_2); try done. intros Hx. specialize (Hqe Hx). done.
  - apply (Hput ETHARP_STATE_STABLE); try done. intros Hx. specialize (Hqe Hx). done.
Qed.

(** A timer run: what stays in use is one period older. *)
Definition older (o o' : option etharp_entry) : Prop :=
  forall e', o' = Some e' -> used e' -> exists e, o = Some e /\ used e /\ ctime e' = ctime e + 1 /\ ipaddr e' = ipaddr e /\ ethaddr e' = ethaddr e.

Lemma tmr_loop_ok ids : forall s, NoDup ids -> Forall (fun i => i < ARP_TABLE_SIZE)%nat ids -> arp_ok s ->
  exists s', tmr_loop netifs ids s = Some s' /\ arp_ok s' /\
    (forall i, i ∈ ids -> older (arp_table s !! i) (arp_table s' !! i)) /\ (forall i, i ∉ ids -> arp_table s' !! i = arp_table s !! i).
Proof.
  induction ids as [|i ids IH]; intros s Hnd Hlt Hs; cbn [tmr_loop]; [exists s; set_solver|].
  apply NoDup_cons in Hnd as [Hni Hnd]. apply Forall_cons in Hlt as [Hi Hlt].
  destruct (tmr_entry_ok s i Hs Hi) as (s1 & e & e' & -> & Hs1 & He & Et & Hold). cbn [mbind option_bind].
  destruct (IH s1 Hnd Hlt Hs1) as (s' & -> & Hs' & Hin & Hout). exists s'. split; [done|]. split; [done|].
  assert (Hlen : (i < length (arp_table s))%nat) by (by eapply lookup_lt_Some). split.
  - intros j [->|Hj]%elem_of_cons.
    + rewrite (Hout i Hni), Et, list_lookup_insert_eq by done. intros x [= <-] Hu. eauto.
    + specialize (Hin j Hj). rewrite Et, list_lookup_insert_ne in Hin by (intros ->; done). done.
  - intros j Hj. rewrite not_elem_of_cons in Hj. destruct Hj as [Hj1 Hj2]. by rewrite (Hout j Hj2), Et, list_lookup_insert_ne by auto.
Qed.

Lemma tmr_ok s : arp_ok s -> exists s', etharp_tmr netifs s = Some s' /\ arp_ok s' /\ forall i, older (arp_table s !! i) (arp_table s' !! i).
Proof.
  intros Hs. destruct (tmr_loop_ok (seq 0 ARP_TABLE_SIZE) s) as (s' & E & Hs' & Hin & _); [apply NoDup_ListNoDup, List.seq_NoDup|by repeat constructor|done|].
  exists s'. split; [done|]. split; [done|]. intros i e' He' Hu. apply (Hin i); try done. apply elem_of_seq. split; [lia|].
  apply lookup_lt_Some in He'. by rewrite (ao_size _ Hs') in He'.
Qed.

(** ** Removing an interface *)

Lemma cleanup_entry_ok n s i : arp_ok s -> (i < ARP_TABLE_SIZE)%nat ->
  exists e e', arp_ok (cleanup_entry n i s) /\ arp_table s !! i = Some e /\ arp_table (cleanup_entry n i s) = <[i := e']> (arp_table s) /\
    (used e' -> e' = e /\ e_netif e <> n).
Proof.
  intros Hs Hi. destruct (entry_at s i Hs Hi) as (e & He & _). unfold cleanup_entry. rewrite He.
  destruct (negb (bool_decide (state e = ETHARP_STATE_EMPTY)) && (e_netif e =? n)) eqn:Ec.
  - destruct (free_entry_ok s i e Hs He) as (H1 & H2 & _). exists e, (emptied e). do 3 (split; [done|]). by intros [].
  - exists e, e. split; [done|]. split; [done|]. split; [by rewrite list_insert_id|]. intros Hu. split; [done|]. intros En.
    rewrite En, Z.eqb_refl, andb_true_r in Ec. apply negb_false_iff, bool_decide_eq_true in Ec. done.
Qed.

Lemma cleanup_loop_ok n ids : forall s, NoDup ids -> Forall (fun i => i < ARP_TABLE_SIZE)%nat ids -> arp_ok s ->
  let s' := foldl (fun s i => cleanup_entry n i s) s ids in
  arp_ok s' /\ (forall i e', i ∈ ids -> arp_table s' !! i = Some e' -> used e' -> arp_table s !! i = Some e' /\ e_netif e' <> n) /\
  (forall i, i ∉ ids -> arp_table s' !! i = arp_table s !! i).
Proof.
  induction ids as [|i ids IH]; intros s Hnd Hlt Hs; cbn [foldl]; [set_solver|].
  apply NoDup_cons in Hnd as [Hni Hnd]. apply Forall_cons in Hlt as [Hi Hlt].
  destruct (cleanup_entry_ok n s i Hs Hi) as (e & e' & Hs1 & He & Et & Hold). destruct (IH _ Hnd Hlt Hs1) as (H1 & H2 & H3).
  assert (Hlen : (i < length (arp_table s))%nat) by (by eapply lookup_lt_Some). split; [done|]. split.
  - intros j x [->|Hj]%elem_of_cons Hx Hu.
    + rewrite (H3 i Hni), Et, list_lookup_insert_eq in Hx by done. injection Hx as <-. destruct (Hold Hu) as [-> ?]. done.
    + destruct (H2 j x Hj Hx Hu) as [Hx' Hn]. rewrite Et, list_lookup_insert_ne in Hx' by (intros ->; done). done.
  - intros j Hj. rewrite not_elem_of_cons in Hj. destruct Hj as [Hj1 Hj2]. by rewrite (H3 j Hj2), Et, list_lookup_insert_ne by auto.
Qed.

Lemma cleanup_ok n s : arp_ok s -> arp_ok (etharp_cleanup_netif n s) /\
  forall i e', arp_table (etharp_cleanup_netif n s) !! i = Some e' -> used e' -> arp_table s !! i = Some e' /\ e_netif e' <> n.
Proof.
  intros Hs. destruct (cleanup_loop_ok n (seq 0 ARP_TABLE_SIZE) s) as (H1 & H2 & _); [apply NoDup_ListNoDup, List.seq_NoDup|by repeat constructor|done|].
  split; [done|]. intros i e' He' Hu. apply (H2 i); try done. apply elem_of_seq. split; [lia|]. apply lookup_lt_Some in He'.
  pose proof (ao_size _ H1) as Hlen. unfold etharp_cleanup_netif in He'. lia.
Qed.

(** ** Queries *)

(** A packet that can be taken over: it has no empty pbufs at its end, and its first pbuf with
    bytes in it is not a [PBUF_ROM] unless all are. *)
Definition takeable (p : packet) : bool :=
  negb (has_queue (segments p)) &&
  match from_ram (segments p) with
  | Some ((_ :: _) as l) => (length (packet_bytes p) <=? length (concat l.*2))%nat
  | _ => true
  end.

Lemma from_ram_some l : has_queue l = false -> exists l', from_ram l = Some l'.
Proof.
  induction l as [|[rom x] l IH]; intros H; cbn [from_ram has_queue] in *; [eauto|]. apply orb_false_iff in H as [-> H]. destruct rom; cbn [negb]; eauto.
Qed.

Lemma take_packet_ok p s t s' : take_packet p s = Some (t, s') ->
  arp_table s' = arp_table s /\ etharp_cached_entry s' = etharp_cached_entry s /\ sent s' = sent s /\ link s' = link s /\
  held s' = held s + match t with Some _ => 1 | None => 0 end.
Proof.
  unfold take_packet, ref_alloc. intros H. destruct (from_ram (segments p)) as [[|x l]|]; cbn [mbind option_bind] in H; [injection H as <- <-; done| |done].
  destruct (memory s) as [|[] m]; cbn [negb] in H; [| |injection H as <- <-; cbn; repeat split; lia];
    destruct (length _ <? length _)%nat; try done; destruct (has_queue _); try done; injection H as <- <-; cbn; repeat split; lia.
Qed.

Lemma take_packet_some p s : takeable p = true -> exists t s', take_packet p s = Some (t, s').
Proof.
  unfold takeable, take_packet. intros [Hq%negb_true_iff H]%andb_true_iff. destruct (from_ram_some _ Hq) as [l El]. rewrite El in *. cbn [mbind option_bind]. destruct l as [|y l]; [eauto|].
  destruct (ref_alloc s) as [[] s1]; cbn [negb]; [|eauto]. apply Nat.leb_le in H. rewrite (proj2 (Nat.ltb_ge _ _) H), Hq. eauto.
Qed.

(** A fresh entry becomes pending. *)
Lemma pend_ok n ip i s s1 : arp_ok s1 -> fresh_entry ip i s s1 ->
  let s2 := on_entry i (set_netif n) (on_entry i (set_state ETHARP_STATE_PENDING) s1) in
  arp_ok s2 /\ same_rest s1 s2 /\ exists eth, arp_table s2 = <[i := Entry None ip n eth 0 ETHARP_STATE_PENDING]> (arp_table s1).
Proof.
  intros Hs (e & Hi & Hip & Es & Eq & Ec & Ho & Hno) s2. assert (Hlt : (i < length (arp_table s1))%nat) by (by eapply lookup_lt_Some).
  assert (Et : arp_table s2 = <[i := Entry None ip n (ethaddr e) 0 ETHARP_STATE_PENDING]> (arp_table s1)).
  { unfold s2, on_entry. cbn [set_table arp_table]. rewrite (alter_at _ i _ e Hi), (alter_at _ i _ _ ltac:(by apply list_lookup_insert_eq)), list_insert_insert_eq.
    destruct e; cbn in *. by subst. }
  split; [|split; [done|by exists (ethaddr e)]]. apply (arp_put_ok s1 s2 i e (Entry None ip n (ethaddr e) 0 ETHARP_STATE_PENDING)); try done.
  - intros _. right. intros j ej Hj Hej Hu E. rewrite Ho in Hej by done. rewrite Forall_lookup in Hno. by apply (Hno j ej Hej).
  - apply Hs.
  - unfold weight. rewrite Eq. cbn. lia.
Qed.

(** A packet waits in a pending entry. *)
Lemma queue_ok s s' i e t : arp_ok s -> arp_table s !! i = Some e -> state e = ETHARP_STATE_PENDING ->
  arp_table s' = arp_table s -> etharp_cached_entry s' = etharp_cached_entry s -> held s' = held s + 1 ->
  arp_ok (on_entry i (set_q (Some t)) (match q e with Some _ => ref_free s' | None => s' end)).
Proof.
  intros Hs Hi Es Et Ec Eh. pose proof (Forall_lookup_1 _ _ _ _ (ao_entries _ Hs) Hi) as He. set (s1 := match q e with Some _ => _ | None => _ end).
  assert (E1 : arp_table s1 = arp_table s) by (unfold s1; by destruct (q e)).
  apply (arp_put_ok s _ i e (set_q (Some t) e)); try done.
  - split; cbn; try apply He. done.
  - intros _. left. split; [|done]. unfold used. by rewrite Es.
  - unfold on_entry. cbn [set_table arp_table]. rewrite E1. by apply alter_at.
  - cbn. replace (etharp_cached_entry s1) with (etharp_cached_entry s) by (unfold s1; by destruct (q e)). apply Hs.
  - unfold weight. cbn. unfold s1. destruct (q e); cbn; lia.
Qed.

Lemma hint_ok i s : arp_ok s -> (i < ARP_TABLE_SIZE)%nat -> arp_ok (ETHARP_SET_HINT i s).
Proof. intros [H1 H2 H3 H4 H5] Hi. by split. Qed.

Lemma output_keeps p src dst t s : arp_ok s -> arp_ok (snd (ethernet_output p src dst t s)).
Proof. intros Hs. by eapply same_ok, output_same. Qed.

Lemma query_ok n ip p s : arp_ok s -> (forall x, p = Some x -> takeable x = true) -> exists r s', etharp_query netifs n ip p s = Some (r, s') /\ arp_ok s'.
Proof.
  intros Hs Hp. unfold etharp_query. destruct (non_unicast netifs n ip); [eauto|].
  destruct (find_entry_ok ip true s Hs) as (r & s1 & -> & Hs1 & _ & Hr). cbn [mbind option_bind]. destruct r as [i|]; [|eauto].
  assert (Hent : exists e, arp_table s1 !! i = Some e) by (destruct Hr as [[-> (e & Hi & _)]|[_ (e & Hi & _)]]; eauto). destruct Hent as (e & Hi). rewrite Hi. cbn [mbind option_bind].
  set (new := bool_decide (state e = ETHARP_STATE_EMPTY)).
  set (s2 := if new then _ else s1). assert (H2 : arp_ok s2 /\ exists e2, arp_table s2 !! i = Some e2 /\ used e2).
  { unfold s2, new. case_bool_decide as Es.
    - destruct Hr as [[-> (e0 & Hi0 & Hm)]|[_ Hf]]; [destruct Hm as [Hu _]; rewrite Hi0 in Hi; injection Hi as <-; done|].
      destruct (pend_ok n ip i s s1 Hs1 Hf) as (K1 & _ & eth & K2). split; [done|]. rewrite K2. exists (Entry None ip n eth 0 ETHARP_STATE_PENDING).
      split; [|done]. apply list_lookup_insert_eq. by eapply lookup_lt_Some.
    - split; [done|]. eauto. }
  destruct H2 as (Hs2 & e2 & Hi2 & Hu2). set (req := new || bool_decide (p = None)).
  destruct (if req then etharp_request netifs n ip s2 else (ERR_MEM, s2)) as [result s3] eqn:Er.
  assert (Hsame : same_arp s2 s3).
  { pose proof (request_same n ip s2) as Hq. destruct req; [by rewrite Er in Hq|]. by injection Er as <- <-. }
  pose proof (same_ok _ _ Hs2 Hsame) as Hs3. destruct Hsame as (S1 & S2 & S3). destruct p as [p|]; [|eauto].
  rewrite S1, Hi2. cbn [mbind option_bind]. destruct (stable (state e2)) eqn:Est.
  - destruct (ethernet_output _ _ _ _ _) as [x s4] eqn:Eo. exists x, s4. split; [done|].
    pose proof (output_keeps p (hwaddr (netifs n)) (ethaddr e2) ETHTYPE_IP (ETHARP_SET_HINT i s3)) as Hk. rewrite Eo in Hk. apply Hk, hint_ok; [done|].
    apply lookup_lt_Some in Hi2. by rewrite (ao_size _ Hs2) in Hi2.
  - assert (Ep : state e2 = ETHARP_STATE_PENDING) by (unfold used in Hu2; by destruct (state e2)). rewrite bool_decide_eq_true_2 by done.
    destruct (take_packet_some p s3 (Hp p eq_refl)) as (t & s4 & Etp). rewrite Etp. cbn [mbind option_bind]. destruct (take_packet_ok p s3 t s4 Etp) as (T1 & T2 & _ & _ & T3). destruct t as [t|].
    + eexists ERR_OK, _. split; [done|]. apply (queue_ok s3 s4 i e2 t); try done. by rewrite S1.
    + eexists ERR_MEM, s4. split; [done|]. apply (same_ok s3 s4 Hs3). split; [done|]. split; [done|]. lia.
Qed.

(** ** Output *)

Lemma output_to_index_ok n p i e s : arp_ok s -> arp_table s !! i = Some e -> stable (state e) = true ->
  exists r s', etharp_output_to_arp_index netifs n p i s = Some (r, s') /\ arp_ok s'.
Proof.
  intros Hs Hi Est. unfold etharp_output_to_arp_index. rewrite Hi. cbn [mbind option_bind]. rewrite Est. cbn [negb].
  assert (Hre : forall hw, arp_ok (let (r, s1) := etharp_request_dst netifs n (ipaddr e) hw s in
    if r =? ERR_OK then on_entry i (set_state ETHARP_STATE_STABLE_REREQUESTING_1) s1 else s1)).
  { intros hw. pose proof (request_dst_same n (ipaddr e) hw s) as Hsame. destruct (etharp_request_dst netifs n (ipaddr e) hw s) as [r s1]. cbn [snd] in Hsame.
    pose proof (same_ok _ _ Hs Hsame) as Hs1. destruct Hsame as (S1 & S2 & S3). destruct (r =? ERR_OK); [|done].
    pose proof (Forall_lookup_1 _ _ _ _ (ao_entries _ Hs) Hi) as He. set (e' := set_state ETHARP_STATE_STABLE_REREQUESTING_1 e).
    assert (Hu : used e) by (unfold used; intros E; by rewrite E in Est).
    apply (arp_put_ok s1 _ i e e'); try done; [by rewrite S1| | |by apply alter_at; rewrite S1|cbn; rewrite S2; apply Hs|].
    - split; cbn; try done; [|intros _; by apply He|intros _; by apply He]. intros Hq. pose proof (eo_queue _ He Hq) as E. by rewrite E in Est.
    - intros _. by left.
    - change (weight e') with (weight e). cbn. lia. }
  set (s1 := if bool_decide _ then _ else s).
  assert (Hs1 : arp_ok s1).
  { unfold s1. case_bool_decide; [|done]. destruct (ARP_AGE_REREQUEST_USED_BROADCAST <=? ctime e); [apply (Hre ethbroadcast)|].
    destruct (ARP_AGE_REREQUEST_USED_UNICAST <=? ctime e); [apply (Hre (ethaddr e))|done]. }
  pose proof (output_keeps p (hwaddr (netifs n)) (ethaddr e) ETHTYPE_IP s1 Hs1) as Hk. destruct (ethernet_output _ _ _ _ s1) as [r s'] eqn:Eo. eauto.
Qed.

Lemma find_stable_ok ip l : forall k i, find_stable ip k l = Some i -> exists e j, i = (k + j)%nat /\ l !! j = Some e /\ stable (state e) = true /\ ipaddr e = ip.
Proof.
  induction l as [|e l IH]; intros k i H; cbn [find_stable] in H; [done|].
  destruct (stable (state e) && (ip =? ipaddr e)) eqn:Em.
  - injection H as <-. apply andb_true_iff in Em as [E1 E2%Z.eqb_eq]. exists e, O. split; [lia|done].
  - destruct (IH (S k) i H) as (x & j & -> & Hj & Hx). exists x, (S j). split; [lia|done].
Qed.

Lemma output_ok n p ip s : arp_ok s -> takeable p = true -> exists r s', etharp_output netifs n p ip s = Some (r, s') /\ arp_ok s'.
Proof.
  intros Hs Hp. unfold etharp_output.
  assert (Hout : forall dst, exists r s', Some (ethernet_output p (hwaddr (netifs n)) dst ETHTYPE_IP s) = Some (r, s') /\ arp_ok s').
  { intros dst. pose proof (output_keeps p (hwaddr (netifs n)) dst ETHTYPE_IP s Hs) as Hk. destruct (ethernet_output _ _ _ _ s) as [r s']. eauto. }
  destruct (ip4_addr_isbroadcast_u32 ip (ip4 (netifs n))); [apply Hout|]. destruct (ip4_addr_ismulticast ip); [apply Hout|].
  set (outside := negb _ && negb _). destruct (outside && _); [eauto|]. set (dst := if outside then _ else _).
  destruct (entry_at s (etharp_cached_entry s) Hs (ao_hint _ Hs)) as (e & He & _). rewrite He. cbn [mbind option_bind].
  destruct (stable (state e) && (dst =? ipaddr e)) eqn:Ec.
  - apply andb_true_iff in Ec as [Ec _]. by apply (output_to_index_ok n p _ e).
  - destruct (find_stable dst 0 (arp_table s)) as [i|] eqn:Ef; [|apply query_ok; [done|intros ? [= <-]; done]].
    destruct (find_stable_ok dst (arp_table s) 0 i Ef) as (x & j & -> & Hj & Hx & _). apply (output_to_index_ok n p _ x); try done. apply hint_ok; [done|].
    apply lookup_lt_Some in Hj. rewrite (ao_size _ Hs) in Hj. done.
Qed.

(** ** Input *)

Lemma field_length off len b : (off + len <= length b)%nat -> length (field off len b) = len.
Proof. intros H. unfold field. rewrite length_take, length_drop. lia. Qed.

Lemma input_ok n b s : arp_ok s -> (SIZEOF_ETHARP_HDR <= length b)%nat -> exists s', etharp_input netifs n b s = Some s' /\ arp_ok s'.
Proof.
  intros Hs Hb. unfold etharp_input. destruct (Nat.ltb_spec (length b) SIZEOF_ETHARP_HDR) as [Hlt|_]; [lia|].
  destruct (_ || _ || _ || _); [eauto|]. set (for_us := if ip4_addr_isany_val _ then false else _).
  destruct (update_ok n (of_le (field 14 4 b)) (field 8 6 b) for_us s Hs) as (r & s1 & -> & Hs1 & _); [apply field_length; unfold SIZEOF_ETHARP_HDR in Hb; lia|].
  cbn [mbind option_bind]. destruct (_ && for_us); [|eauto]. eexists. split; [done|]. by eapply same_ok, raw_same.
Qed.

Lemma ethernet_input_ok n frame s : arp_ok s -> (14 + SIZEOF_ETHARP_HDR <= length frame)%nat ->
  exists r s', ethernet_input netifs n frame s = Some (r, s') /\ arp_ok s'.
Proof.
  intros Hs Hf. unfold ethernet_input. destruct (_ <=? _); [eauto|]. destruct (_ =? 0); [eauto|]. destruct (_ =? _); [eauto|]. destruct (_ =? _); [|eauto].
  destruct (input_ok n (drop 14 frame) s Hs) as (s' & -> & Hs'); [rewrite length_drop; lia|]. cbn [mbind option_bind]. eauto.
Qed.

(** ** Resolution *)

Lemma raw_sends es ed hs ip hd ip' op s : memory s = [] -> link s = [] ->
  let s' := snd (etharp_raw es ed hs ip hd ip' op s) in
  fst (etharp_raw es ed hs ip hd ip' op s) = ERR_OK /\ memory s' = [] /\ link s' = [] /\
  sent s' = sent s ++ [eth_hdr ed es ETHTYPE_ARP ++ etharp_hdr op hs ip hd ip'].
Proof.
  intros Em El. unfold etharp_raw, ref_alloc, ethernet_output, linkoutput, packet_bytes. rewrite Em. cbn. rewrite El. cbn. by rewrite app_nil_r.
Qed.

Lemma find_addr_at ip s i e : arp_ok s -> arp_table s !! i = Some e -> matches ip e -> stable (state e) = true ->
  etharp_find_addr ip s = Some (Some (i, ethaddr e)).
Proof.
  intros Hs Hi Hm Est. unfold etharp_find_addr. destruct (find_entry_ok ip false s Hs) as (r & s1 & E & _ & _ & Hr). rewrite E. cbn [mbind option_bind].
  destruct r as [j|]; [|destruct Hr as (_ & _ & Hno); rewrite Forall_lookup in Hno; by destruct (Hno i e Hi)].
  destruct Hr as [[_ (ej & Hj & Hmj)]|[? _]]; [|done].
  assert (j = i) as -> by (apply (ao_unique _ Hs j i ej e); try done; [apply Hmj|apply Hm|destruct Hm, Hmj; congruence]).
  rewrite Hi. cbn [mbind option_bind]. by rewrite Est.
Qed.

(** The fields of an ARP packet are read back. *)
Lemma hdr_fields op sh sip dh dip : length sh = 6%nat -> length dh = 6%nat ->
  let b := etharp_hdr op sh sip dh dip in
  length b = 28%nat /\ field 0 2 b = le_bytes 2 (PP_HTONS HWTYPE_ETHERNET) /\ field 2 2 b = le_bytes 2 (PP_HTONS ETHTYPE_IP) /\ field 4 1 b = [6] /\ field 5 1 b = [4] /\
  field 6 2 b = le_bytes 2 (lwip_htons op) /\ field 8 6 b = sh /\ field 14 4 b = le_bytes 4 sip /\ field 24 4 b = le_bytes 4 dip.
Proof.
  intros H1 H2. do 6 (destruct sh as [|? sh]; [done|]). destruct sh; [|done]. do 6 (destruct dh as [|? dh]; [done|]). destruct dh; [|done].
  repeat split.
Qed.

Lemma u32_bytes ip : 0 <= ip < 2 ^ 32 -> of_le (le_bytes 4 ip) = ip.
Proof. intros H. rewrite of_le_le_bytes. by apply Z.mod_small. Qed.

Lemma input_hdr n op sh sip dh dip s : op = ARP_REQUEST \/ op = ARP_REPLY -> length sh = 6%nat -> length dh = 6%nat -> 0 <= sip < 2 ^ 32 -> 0 <= dip < 2 ^ 32 ->
  etharp_input netifs n (etharp_hdr op sh sip dh dip) s =
  (let for_us := if ip4_addr_isany_val (netif_ip4_addr netifs n) then false else dip =? netif_ip4_addr netifs n in
   let? (_, s) := etharp_update_arp_entry netifs n sip sh (if for_us then ETHARP_FLAG_TRY_HARD else ETHARP_FLAG_FIND_ONLY) s in
   if (op =? ARP_REQUEST) && for_us then
     Some (snd (etharp_raw (hwaddr (netifs n)) sh (hwaddr (netifs n)) (netif_ip4_addr netifs n) sh sip ARP_REPLY s))
   else Some s).
Proof.
  intros Hop H1 H2 Hs Hd. destruct (hdr_fields op sh sip dh dip H1 H2) as (F0 & F1 & F2 & F3 & F4 & F5 & F6 & F7 & F8). unfold etharp_input.
  rewrite F0, F1, F2, F3, F4, F5, F6, F7, F8, (u32_bytes sip Hs), (u32_bytes dip Hd). by destruct Hop as [->| ->].
Qed.

Definition arp_frame (op : Z) (es ed sh : list Z) (sip : Z) (dh : list Z) (dip : Z) : list Z := eth_hdr ed es ETHTYPE_ARP ++ etharp_hdr op sh sip dh dip.

Lemma ethernet_input_arp n op es ed sh sip dh dip s : length es = 6%nat -> length ed = 6%nat -> length sh = 6%nat -> length dh = 6%nat ->
  Z.land (netif_flags (ip4 (netifs n))) NETIF_FLAG_ETHARP <> 0 ->
  ethernet_input netifs n (arp_frame op es ed sh sip dh dip) s = let? s := etharp_input netifs n (etharp_hdr op sh sip dh dip) s in Some (None, s).
Proof.
  intros H1 H2 H3 H4 Hf. unfold ethernet_input.
  assert (El : length (arp_frame op es ed sh sip dh dip) = 42%nat) by (unfold arp_frame, eth_hdr; rewrite !length_app, H1, H2, (proj1 (hdr_fields op sh sip dh dip H3 H4)); done).
  assert (Ed : drop 14 (arp_frame op es ed sh sip dh dip) = etharp_hdr op sh sip dh dip).
  { unfold arp_frame. rewrite drop_app_length'; [done|]. unfold eth_hdr. by rewrite !length_app, H1, H2. }
  assert (Et : field 12 2 (arp_frame op es ed sh sip dh dip) = le_bytes 2 (lwip_htons ETHTYPE_ARP)).
  { unfold arp_frame, eth_hdr, field. rewrite <- !app_assoc, app_assoc. rewrite drop_app_length' by (by rewrite length_app, H1, H2). by rewrite take_app_length'. }
  rewrite El, Ed, Et. apply Z.eqb_neq in Hf. rewrite Hf. done.
Qed.

(** A packet for an address the table does not know: a request goes out and the packet waits. *)
Lemma query_new n ip p x l s : arp_ok s -> memory s = [] -> link s = [] -> non_unicast netifs n ip = false -> Forall (fun e => ~ matches ip e) (arp_table s) ->
  segments p = (false, x) :: l -> takeable p = true ->
  exists s' i eth, etharp_query netifs n ip (Some p) s = Some (ERR_OK, s') /\ arp_ok s' /\ memory s' = [] /\ link s' = [] /\
    sent s' = sent s ++ [arp_frame ARP_REQUEST (hwaddr (netifs n)) ethbroadcast (hwaddr (netifs n)) (netif_ip4_addr netifs n) ethzero ip] /\
    arp_table s' !! i = Some (Entry (Some (Packet [(false, packet_bytes p)] SIZEOF_ETH_HDR)) ip n eth 0 ETHARP_STATE_PENDING).
Proof.
  intros Hs Em El Hn Hno Hp Htk. destruct (query_ok n ip (Some p) s Hs ltac:(by intros ? [= <-])) as (r0 & s0 & E0 & Hs0). pose proof E0 as E. unfold etharp_query in E. rewrite Hn in E.
  destruct (find_entry_ok ip true s Hs) as (r & s1 & Ef & Hs1 & (R1 & R2 & R3 & R4) & Hr). rewrite Ef in E. cbn [mbind option_bind] in E.
  destruct r as [i|]; [|by destruct Hr as (_ & ? & _)].
  destruct Hr as [[_ (e & Hi & Hm)]|[_ Hf]]; [rewrite Forall_lookup in Hno; by destruct (Hno i e Hi)|].
  destruct (pend_ok n ip i s s1 Hs1 Hf) as (Hs2 & (Q1 & Q2 & Q3 & Q4) & eth & Et). destruct Hf as (e & Hi & Hip & Es & Eq & _).
  rewrite Hi in E. cbn [mbind option_bind] in E. rewrite bool_decide_eq_true_2 in E by done. cbn [orb] in E.
  set (s2 := on_entry i (set_netif n) (on_entry i (set_state ETHARP_STATE_PENDING) s1)) in *.
  destruct (raw_sends (hwaddr (netifs n)) ethbroadcast (hwaddr (netifs n)) (netif_ip4_addr netifs n) ethzero ip ARP_REQUEST s2) as (W1 & W2 & W3 & W4); [congruence|congruence|].
  pose proof (request_same n ip s2) as (S1 & S2 & S3). unfold etharp_request, etharp_request_dst in *.
  destruct (etharp_raw _ _ _ _ _ _ _ s2) as [res s3]. cbn [fst snd] in *. subst res. rewrite S1, Et, list_lookup_insert_eq in E by (by eapply lookup_lt_Some).
  unfold takeable in Htk. apply andb_true_iff in Htk as [Hq%negb_true_iff _]. pose proof Hq as Hq1. rewrite Hp in Hq1. cbn [has_queue] in Hq1. apply orb_false_iff in Hq1 as [Hq1 _].
  cbn in E. unfold take_packet in E. rewrite Hp in E. cbn [from_ram] in E. rewrite Hq1 in E. cbn [negb mbind option_bind] in E. unfold ref_alloc in E. rewrite W2 in E. cbn [negb] in E.
  unfold packet_bytes in E at 1. rewrite Hp, Nat.ltb_irrefl in E. rewrite Hp in Hq. rewrite Hq in E. injection E as <- <-. eexists _, i, eth. split; [exact E0|]. split; [done|].
  cbn [on_entry set_table memory link sent add_held arp_table]. split; [done|]. split; [done|]. split; [by rewrite W4, Q2, R2|].
  rewrite S1, Et. by rewrite list_lookup_alter_eq, list_lookup_insert_eq by (by eapply lookup_lt_Some).
Qed.

(** An answer for a known address. *)
Lemma update_known n ip eth s i e : arp_ok s -> length eth = 6%nat -> non_unicast netifs n ip = false -> arp_table s !! i = Some e -> matches ip e ->
  exists s', etharp_update_arp_entry netifs n ip eth ETHARP_FLAG_TRY_HARD s = Some (ERR_OK, s') /\ arp_ok s' /\ resolved n ip eth i s s'.
Proof.
  intros Hs Heth Hn Hi Hm. destruct (update_ok n ip eth true s Hs Heth) as (r & s' & E & Hs' & [[_ [H|[H _]]]|(_ & -> & j & s1 & _ & Hr & Hj)]); [congruence|done|].
  exists s'. split; [done|]. split; [done|]. destruct Hj as [[-> (ej & Hj & Hmj)]|(_ & _ & _ & _ & _ & _ & _ & Hno)].
  - assert (j = i) as -> by (apply (ao_unique _ Hs j i ej e); try done; [apply Hmj|apply Hm|destruct Hm, Hmj; congruence]). done.
  - rewrite Forall_lookup in Hno. by destruct (Hno i e Hi).
Qed.

Lemma resolved_find n ip eth i s1 s s' : arp_ok s' -> resolved n ip eth i s1 s -> arp_table s' = arp_table s -> etharp_find_addr ip s' = Some (Some (i, eth)).
Proof.
  intros Hs (e1 & Hi & _ & Et & _) E. apply (find_addr_at ip s' i (Entry None ip n eth 0 ETHARP_STATE_STABLE) Hs); [|by split|done].
  rewrite E, Et, list_lookup_insert_eq; [done|by eapply lookup_lt_Some].
Qed.

(** A request for our address is answered, and its sender known. *)
Lemma request_answered n hw ip s : arp_ok s -> memory s = [] -> link s = [] -> length hw = 6%nat -> length (hwaddr (netifs n)) = 6%nat ->
  non_unicast netifs n ip = false -> 0 <= ip < 2 ^ 32 -> 0 <= netif_ip4_addr netifs n < 2 ^ 32 -> ip4_addr_isany_val (netif_ip4_addr netifs n) = false ->
  Z.land (netif_flags (ip4 (netifs n))) NETIF_FLAG_ETHARP <> 0 ->
  exists s' before i, ethernet_input netifs n (arp_frame ARP_REQUEST hw ethbroadcast hw ip ethzero (netif_ip4_addr netifs n)) s = Some (None, s') /\ arp_ok s' /\
    sent s' = before ++ [arp_frame ARP_REPLY (hwaddr (netifs n)) hw (hwaddr (netifs n)) (netif_ip4_addr netifs n) hw ip] /\
    etharp_find_addr ip s' = Some (Some (i, hw)).
Proof.
  intros Hs Em El Hhw Hhn Hn Hip Hme Hany Hf. rewrite ethernet_input_arp by done. rewrite input_hdr by (try done; by left). rewrite Hany, Z.eqb_refl. cbv beta iota zeta.
  destruct (update_ok n ip hw true s Hs Hhw) as (r & s1 & E & Hs1 & [[_ [H|[H _]]]|(_ & -> & i & s0 & (R1 & R2 & R3 & R4) & Hr & _)]); [congruence|done|].
  rewrite E. cbn [mbind option_bind]. change ((ARP_REQUEST =? ARP_REQUEST) && true) with true. cbn [mbind option_bind].
  pose proof Hr as (e1 & _ & _ & _ & M & L & _).
  destruct (raw_sends (hwaddr (netifs n)) hw (hwaddr (netifs n)) (netif_ip4_addr netifs n) hw ip ARP_REPLY s1) as (_ & _ & _ & W); [congruence|apply L; congruence|].
  eexists _, (sent s1), i. split; [done|]. pose proof (raw_same (hwaddr (netifs n)) hw (hwaddr (netifs n)) (netif_ip4_addr netifs n) hw ip ARP_REPLY s1) as Hsame.
  pose proof (same_ok _ _ Hs1 Hsame) as Hs2. split; [done|]. split; [done|].
  apply (resolved_find n ip hw i s0 s1); [done|done|apply Hsame].
Qed.
End operations.

(** ** The module as a whole *)

Section system.
Context (netifs : Z -> arp_netif).

Inductive arp_op :=
| OpOutput (n : Z) (p : packet) (ip : Z)
| OpQuery (n ip : Z) (p : option packet)
| OpRequest (n ip : Z)
| OpInput (n : Z) (frame : list Z)
| OpTmr
| OpCleanup (n : Z).

Definition run_op (o : arp_op) (s : arp) : option arp :=
  match o with
  | OpOutput n p ip => let? (_, s) := etharp_output netifs n p ip s in Some s
  | OpQuery n ip p => let? (_, s) := etharp_query netifs n ip p s in Some s
  | OpRequest n ip => Some (snd (etharp_request netifs n ip s))
  | OpInput n frame => let? (_, s) := ethernet_input netifs n frame s in Some s
  | OpTmr => etharp_tmr netifs s
  | OpCleanup n => Some (etharp_cleanup_netif n s)
  end.

Fixpoint run_ops (os : list arp_op) (s : arp) : option arp :=
  match os with
  | [] => Some s
  | o :: os => let? s := run_op o s in run_ops os s
  end.

(** A received frame has room for the Ethernet header and an ARP packet (the shortest frame
    of an Ethernet has 60 bytes), and a packet that is sent can be taken over. *)
Definition op_ok (o : arp_op) : Prop :=
  match o with
  | OpInput _ frame => (14 + SIZEOF_ETHARP_HDR <= length frame)%nat
  | OpOutput _ p _ | OpQuery _ _ (Some p) => takeable p = true
  | _ => True
  end.

Lemma arp_init_ok lk mem : arp_ok (arp_init lk mem).
Proof.
  split; [done|cbn; unfold ARP_TABLE_SIZE; lia| | |done].
  - apply Forall_replicate. by split.
  - intros i j ei ej Hi _ Hu. apply lookup_replicate in Hi as [-> _]. by destruct Hu.
Qed.

Lemma run_op_ok o s : arp_ok s -> op_ok o -> exists s', run_op o s = Some s' /\ arp_ok s'.
Proof.
  intros Hs Ho. destruct o as [n p ip|n ip p|n ip|n frame| |n]; cbn [run_op].
  - destruct (output_ok netifs n p ip s Hs Ho) as (r & s' & -> & Hs'). cbn. eauto.
  - destruct (query_ok netifs n ip p s Hs) as (r & s' & -> & Hs'); [by intros x ->|]. cbn. eauto.
  - eexists. split; [done|]. by eapply same_ok, request_same.
  - destruct (ethernet_input_ok netifs n frame s Hs Ho) as (r & s' & -> & Hs'). cbn. eauto.
  - destruct (tmr_ok netifs s Hs) as (s' & -> & Hs' & _). eauto.
  - eexists. split; [done|]. by apply cleanup_ok.
Qed.

Lemma run_ops_ok os : forall s, arp_ok s -> Forall op_ok os -> exists s', run_ops os s = Some s' /\ arp_ok s'.
Proof.
  induction os as [|o os IH]; intros s Hs Ho; cbn [run_ops]; [eauto|]. apply Forall_cons in Ho as [H1 H2].
  destruct (run_op_ok o s Hs H1) as (s1 & -> & Hs1). cbn [mbind option_bind]. by apply IH.
Qed.

(** What is in use after [k] runs of the timer has been there before, and has aged. *)
Lemma tmr_ages k : forall s, arp_ok s -> exists s', run_ops (replicate k OpTmr) s = Some s' /\ arp_ok s' /\
  forall i e', arp_table s' !! i = Some e' -> used e' -> exists e, arp_table s !! i = Some e /\ used e /\ ctime e' = ctime e + Z.of_nat k /\ ipaddr e' = ipaddr e.
Proof.
  induction k as [|k IH]; intros s Hs; cbn [replicate run_ops run_op].
  - exists s. split; [done|]. split; [done|]. intros i e' He Hu. exists e'. split; [done|]. split; [done|]. split; [lia|done].
  - destruct (tmr_ok netifs s Hs) as (s1 & -> & Hs1 & Hold). cbn [mbind option_bind]. destruct (IH s1 Hs1) as (s' & -> & Hs' & Hk). exists s'. split; [done|]. split; [done|].
    intros i e' He Hu. destruct (Hk i e' He Hu) as (e1 & H1 & U1 & T1 & P1). destruct (Hold i e1 H1 U1) as (e & H2 & U2 & T2 & P2 & _).
    exists e. split; [done|]. split; [done|]. split; [lia|congruence].
Qed.

Lemma output_queries n p ip s : arp_ok s -> non_unicast netifs n ip = false -> Forall (fun e => ~ matches ip e) (arp_table s) ->
  ip4_addr_netcmp ip (ip_addr (ip4 (netifs n))) (netmask (ip4 (netifs n))) = true -> etharp_output netifs n p ip s = etharp_query netifs n ip (Some p) s.
Proof.
  intros Hs Hn Hno Hl. unfold etharp_output. unfold non_unicast in Hn. apply orb_false_iff in Hn as [[H1 H2]%orb_false_iff _]. rewrite H1, H2, Hl. cbn [negb andb].
  rewrite Forall_lookup in Hno. assert (Hnot : forall i e, arp_table s !! i = Some e -> stable (state e) = true -> ipaddr e = ip -> False).
  { intros i e Hi Hst Hip. apply (Hno i e Hi). split; [|done]. intros E. by rewrite E in Hst. }
  destruct (entry_at s (etharp_cached_entry s) Hs (ao_hint _ Hs)) as (e & He & _). rewrite He. cbn [mbind option_bind].
  destruct (stable (state e) && (ip =? ipaddr e)) eqn:Ec; [apply andb_true_iff in Ec as [Ec1 Ec2%Z.eqb_eq]; by destruct (Hnot _ e He Ec1)|].
  destruct (find_stable ip 0 (arp_table s)) as [i|] eqn:Ef; [|done].
  destruct (find_stable_ok ip (arp_table s) 0 i Ef) as (x & j & _ & Hj & Hx & Hip). by destruct (Hnot j x Hj Hx).
Qed.
End system.

(** ** Theorems *)

(** C18: For packets that can be taken over (no empty pbufs at the end, and no [PBUF_ROM] with data
    before a pbuf of another kind) and frames that have room for an ARP packet: whatever
    is sent, queried and received, whichever interfaces are removed, however often the
    timer runs and whatever the driver and the allocator answer, no assertion of the module
    fails, and its table is well formed: no address is twice in it, packets wait only in
    pending entries, no entry is older than allowed, and the packets that are held are those
    that wait in the table, so that none leaks. *)
Theorem arp_table_invariant netifs lk mem os : Forall op_ok os -> exists s, run_ops netifs os (arp_init lk mem) = Some s /\ arp_ok s.
Proof. apply run_ops_ok, arp_init_ok. Qed.

(** C31: Once nothing happens but the timer, at most 300 runs (the five minutes of [ARP_MAXAGE])
    after any history of packets and frames that do not halt the module every entry is gone and
    every packet that waited has been released. *)
Theorem arp_ages_out netifs lk mem os : Forall op_ok os ->
  exists s s', run_ops netifs os (arp_init lk mem) = Some s /\ run_ops netifs (replicate (Z.to_nat ARP_MAXAGE) OpTmr) s = Some s' /\
    Forall (fun e => state e = ETHARP_STATE_EMPTY) (arp_table s') /\ held s' = 0.
Proof.
  intros Ho. destruct (run_ops_ok netifs os (arp_init lk mem) (arp_init_ok lk mem) Ho) as (s & E & Hs). destruct (tmr_ages netifs (Z.to_nat ARP_MAXAGE) s Hs) as (s' & E' & Hs' & Hage).
  exists s, s'. split; [done|]. split; [done|].
  assert (Hempty : Forall (fun e => state e = ETHARP_STATE_EMPTY) (arp_table s')).
  { apply Forall_lookup. intros i e' He. destruct (decide (state e' = ETHARP_STATE_EMPTY)) as [|Hu]; [done|exfalso].
    destruct (Hage i e' He Hu) as (e & Hi & Hue & Ht & _). pose proof (eo_time _ (Forall_lookup_1 _ _ _ _ (ao_entries _ Hs') He) Hu) as H1.
    pose proof (eo_time _ (Forall_lookup_1 _ _ _ _ (ao_entries _ Hs) Hi) Hue) as H2. unfold ARP_MAXAGE in *. lia. }
  split; [done|]. rewrite (ao_held _ Hs'). apply queued_zero. apply Forall_lookup. intros i e He. rewrite Forall_lookup in Hempty. specialize (Hempty i e He).
  pose proof (eo_queue _ (Forall_lookup_1 _ _ _ _ (ao_entries _ Hs') He)) as Hq. destruct (q e); [|done]. rewrite Hempty in Hq. discriminate Hq. done.
Qed.

(** C17: Address resolution between two hosts of a network.  Host A sends a packet to an
    address it does not know (its first pbuf not a [PBUF_ROM], driver and allocator succeeding):
    a request is broadcast and the packet waits.  Host B
    takes the request in, learns A's hardware address and answers to it; A takes the answer
    in, sends exactly the packet that waited to B's hardware address, and knows that
    address. *)
Theorem arp_resolves netA nA netB nB p x l sA sB :
  let ipA := netif_ip4_addr netA nA in let ipB := netif_ip4_addr netB nB in
  let hwA := hwaddr (netA nA) in let hwB := hwaddr (netB nB) in
  arp_ok sA -> memory sA = [] -> link sA = [] -> arp_ok sB -> memory sB = [] -> link sB = [] ->
  length hwA = 6%nat -> length hwB = 6%nat -> 0 <= ipA < 2 ^ 32 -> 0 <= ipB < 2 ^ 32 ->
  non_unicast netA nA ipB = false -> non_unicast netB nB ipA = false ->
  ip4_addr_netcmp ipB ipA (netmask (ip4 (netA nA))) = true ->
  Z.land (netif_flags (ip4 (netA nA))) NETIF_FLAG_ETHARP <> 0 -> Z.land (netif_flags (ip4 (netB nB))) NETIF_FLAG_ETHARP <> 0 ->
  Forall (fun e => ~ matches ipB e) (arp_table sA) -> segments p = (false, x) :: l -> takeable p = true ->
  exists sA1 sB1 sA2 request reply before i j,
    etharp_output netA nA p ipB sA = Some (ERR_OK, sA1) /\ sent sA1 = sent sA ++ [request] /\
    ethernet_input netB nB request sB = Some (None, sB1) /\ sent sB1 = before ++ [reply] /\ etharp_find_addr ipA sB1 = Some (Some (j, hwA)) /\
    ethernet_input netA nA reply sA1 = Some (None, sA2) /\ sent sA2 = sent sA1 ++ [eth_hdr hwB hwA ETHTYPE_IP ++ packet_bytes p] /\
    etharp_find_addr ipB sA2 = Some (Some (i, hwB)).
Proof.
  intros ipA ipB hwA hwB HsA EmA ElA HsB EmB ElB HlA HlB HrA HrB HnA HnB Hnet HfA HfB Hno Hp Htk.
  assert (HanyA : ip4_addr_isany_val ipA = false) by (unfold non_unicast in HnB; by apply orb_false_iff in HnB as [_ ?]).
  assert (HanyB : ip4_addr_isany_val ipB = false) by (unfold non_unicast in HnA; by apply orb_false_iff in HnA as [_ ?]).
  destruct (query_new netA nA ipB p x l sA HsA EmA ElA HnA Hno Hp Htk) as (sA1 & i & eth & E1 & HsA1 & M1 & L1 & W1 & Hi).
  destruct (request_answered netB nB hwA ipA sB) as (sB1 & before & j & E2 & HsB1 & W2 & F2); try done.
  destruct (update_known netA nA ipB hwB sA1 i _ HsA1 HlB HnA Hi) as (sA2 & E3 & HsA2 & Hr); [by split|].
  eexists sA1, sB1, sA2, _, _, before, i, j. split; [by rewrite output_queries by done|]. split; [exact W1|]. split; [exact E2|]. split; [exact W2|]. split; [exact F2|].
  split; [|split; [|by apply (resolved_find netA nA ipB hwB i sA1 sA2)]].
  - rewrite ethernet_input_arp by done. rewrite input_hdr by (try done; by right). fold ipA. rewrite HanyA, Z.eqb_refl. cbv beta iota zeta. fold ipB hwB. by rewrite E3.
  - destruct Hr as (e1 & H1 & _ & _ & _ & _ & Hsent). rewrite Hi in H1. injection H1 as <-. rewrite Hsent. cbn [q].
    unfold ethernet_output, linkoutput. rewrite L1. cbn [header_fits segments room negb andb]. change (SIZEOF_ETH_HDR <=? SIZEOF_ETH_HDR) with true. cbn [snd sent].
    unfold packet_bytes at 1. cbn. by rewrite app_nil_r.
Qed.

(** A packet for an address that is still being resolved replaces the one that waits, and
    no request is sent for it: only the timer repeats requests. *)
Theorem etharp_query_pending_silent netifs n ip p s i e : arp_ok s -> non_unicast netifs n ip = false ->
  arp_table s !! i = Some e -> matches ip e -> state e = ETHARP_STATE_PENDING -> takeable p = true ->
  exists t r s', etharp_query netifs n ip (Some p) s = Some (r, s') /\ sent s' = sent s /\ (fst <$> take_packet p s) = Some t /\
    forall t', t = Some t' -> arp_table s' !! i = Some (set_q (Some t') e).
Proof.
  intros Hs Hn Hi Hm Es Htk. unfold etharp_query. rewrite Hn. destruct (find_entry_ok ip true s Hs) as (r & s1 & -> & _ & _ & Hr). cbn [mbind option_bind].
  destruct r as [j|]; [|by destruct Hr as (_ & ? & _)].
  destruct Hr as [[-> (ej & Hj & Hmj)]|[_ (_ & _ & _ & _ & _ & _ & _ & Hno)]]; [|rewrite Forall_lookup in Hno; by destruct (Hno i e Hi)].
  assert (j = i) as -> by (apply (ao_unique _ Hs j i ej e); try done; [apply Hmj|apply Hm|destruct Hm, Hmj; congruence]).
  rewrite Hi. cbn [mbind option_bind]. rewrite Es. rewrite !(bool_decide_eq_false_2 (_ = _)) by done. cbn [orb]. rewrite Hi. cbn [mbind option_bind]. rewrite Es. cbn [stable]. rewrite bool_decide_eq_true_2 by done.
  destruct (take_packet_some p s Htk) as (t & s2 & Et). rewrite Et. destruct (take_packet_ok p s t s2 Et) as (T1 & _ & T2 & _). exists t. destruct t as [t|]; cbn.
  - eexists ERR_OK, _. split; [done|]. cbn. split; [by destruct (q e)|]. split; [done|]. intros t0 [= <-].
    rewrite list_lookup_alter_eq. destruct (q e); cbn; by rewrite T1, Hi.
  - exists ERR_MEM, s2. split; [done|]. split; [done|]. split; [done|]. by intros.
Qed.

(** A packet that starts with a [PBUF_ROM] and goes on with pbufs of another kind halts the
    system when it has to wait and there is memory for it: the copy is allocated with the
    length that is left at the first pbuf to be copied, and [pbuf_copy] asserts that
    the packet fits. *)
Theorem etharp_query_halts_mixed netifs n ip p a b l s : arp_ok s -> non_unicast netifs n ip = false ->
  Forall (fun e => ~ matches ip e) (arp_table s) -> segments p = (true, a) :: (false, b) :: l -> a <> [] -> memory s = [] -> link s = [] ->
  etharp_query netifs n ip (Some p) s = None.
Proof.
  intros Hs Hn Hno Hp Ha Hm Hlk. unfold etharp_query. rewrite Hn. destruct (find_entry_ok ip true s Hs) as (r & s1 & Ef & Hs1 & (R1 & R2 & R3 & R4) & Hr). rewrite Ef. cbn [mbind option_bind].
  destruct r as [i|]; [|by destruct Hr as (_ & ? & _)].
  destruct Hr as [[_ (e & Hi & Hme)]|[_ Hf]]; [rewrite Forall_lookup in Hno; by destruct (Hno i e Hi)|].
  destruct (pend_ok n ip i s s1 Hs1 Hf) as (_ & (Q1 & Q2 & Q3 & Q4) & eth & Et). destruct Hf as (e & Hi & _ & Es & _).
  rewrite Hi. cbn [mbind option_bind]. rewrite bool_decide_eq_true_2 by done. cbn [orb].
  set (s2 := on_entry i (set_netif n) _) in *. pose proof (request_same netifs n ip s2) as (S1 & _ & _).
  destruct (raw_sends (hwaddr (netifs n)) ethbroadcast (hwaddr (netifs n)) (netif_ip4_addr netifs n) ethzero ip ARP_REQUEST s2) as (_ & W2 & _); [congruence|congruence|].
  unfold etharp_request, etharp_request_dst in *. destruct (etharp_raw _ _ _ _ _ _ _ s2) as [res s3]. cbn [snd] in S1, W2.
  rewrite S1, Et, list_lookup_insert_eq by (by eapply lookup_lt_Some). cbn. unfold take_packet. rewrite Hp. cbn [from_ram negb].
  destruct (starts_queue ((true, a) :: (false, b) :: l)); [done|]. destruct (starts_queue ((false, b) :: l)); [done|]. cbn [mbind option_bind]. unfold ref_alloc. rewrite W2. cbn [negb].
  unfold packet_bytes at 1. rewrite Hp. destruct (Nat.ltb_spec (length (concat ((false, b) :: l).*2)) (length (concat ((true, a) :: (false, b) :: l).*2))) as [_|Hge]; [done|].
  cbn in Hge. rewrite !length_app in Hge. destruct a; [done|]. cbn in Hge. lia.
Qed.

(** Without that, a frame of type ARP makes [etharp_input] read past the packet: its length
    is not checked. *)
Theorem etharp_input_reads_short netifs n frame s : (14 < length frame < 14 + SIZEOF_ETHARP_HDR)%nat ->
  Z.land (netif_flags (ip4 (netifs n))) NETIF_FLAG_ETHARP <> 0 -> of_le (field 12 2 frame) = PP_HTONS ETHTYPE_ARP ->
  ethernet_input netifs n frame s = None.
Proof.
  intros Hl Hf Ht. unfold ethernet_input. rewrite Ht. apply Z.eqb_neq in Hf. rewrite Hf. destruct (Z.leb_spec (Z.of_nat (length frame)) SIZEOF_ETH_HDR) as [H|_]; [unfold SIZEOF_ETH_HDR in H; lia|].
  change (PP_HTONS ETHTYPE_ARP =? PP_HTONS ETHTYPE_IP) with false. rewrite Z.eqb_refl. unfold etharp_input. rewrite length_drop.
  destruct (Nat.ltb_spec (length frame - 14) SIZEOF_ETHARP_HDR) as [_|H]; [done|lia].
Qed.

(** ** Witnesses *)

(** Two hosts, 192.168.1.1 and 192.168.1.2, with a mask of 24 bits. *)
Definition host (k : Z) (_ : Z) : arp_netif :=
  ArpNetif (Netif (PP_HTONL (0xc0a80100 + k)) (PP_HTONL 0xffffff00) 0x0f) 0 [2; 0; 0; 0; 0; k].
Definition ip_of (k : Z) : Z := netif_ip4_addr (host k) 0.
Definition hello : packet := Packet [(false, [1; 2; 3]); (false, [4])] 14.
Definition mixed : packet := Packet [(true, [1]); (false, [2])] 14.

(** A history: a packet waits, an interface is removed, a frame comes in. *)
Definition history : list arp_op := [OpQuery 0 (ip_of 2) None; OpOutput 0 hello (ip_of 3); OpCleanup 1; OpTmr; OpInput 0 (replicate 60 0)].

Lemma arp_table_invariant_witness : exists s, run_ops (host 1) history (arp_init [] []) = Some s /\ arp_ok s.
Proof. apply arp_table_invariant. repeat constructor. Defined.

Lemma arp_ages_out_witness : exists s s', run_ops (host 1) history (arp_init [] []) = Some s /\ run_ops (host 1) (replicate (Z.to_nat ARP_MAXAGE) OpTmr) s = Some s' /\
  Forall (fun e => state e = ETHARP_STATE_EMPTY) (arp_table s') /\ held s' = 0.
Proof. apply arp_ages_out. repeat constructor. Defined.

Lemma arp_resolves_witness : exists sA1 sB1 sA2 request reply before i j,
  etharp_output (host 1) 0 hello (ip_of 2) (arp_init [] []) = Some (ERR_OK, sA1) /\ sent sA1 = [] ++ [request] /\
  ethernet_input (host 2) 0 request (arp_init [] []) = Some (None, sB1) /\ sent sB1 = before ++ [reply] /\ etharp_find_addr (ip_of 1) sB1 = Some (Some (j, [2; 0; 0; 0; 0; 1])) /\
  ethernet_input (host 1) 0 reply sA1 = Some (None, sA2) /\ sent sA2 = sent sA1 ++ [eth_hdr [2; 0; 0; 0; 0; 2] [2; 0; 0; 0; 0; 1] ETHTYPE_IP ++ [1; 2; 3; 4]] /\
  etharp_find_addr (ip_of 2) sA2 = Some (Some (i, [2; 0; 0; 0; 0; 2])).
Proof.
  apply (arp_resolves (host 1) 0 (host 2) 0 hello [1; 2; 3] [(false, [4])] (arp_init [] []) (arp_init [] [])); try apply arp_init_ok; try done; try (by vm_compute).
  by repeat (constructor; [intros [Hu _]; by destruct Hu|]).
Defined.

(** The state after a first packet to the second host. *)
Definition waiting : arp := default (arp_init [] []) (run_ops (host 1) [OpOutput 0 hello (ip_of 2)] (arp_init [] [])).
Definition waiting_entry : etharp_entry := default empty_entry (head (arp_table waiting)).

Lemma waiting_ok : arp_ok waiting.
Proof. destruct (run_ops_ok (host 1) [OpOutput 0 hello (ip_of 2)] (arp_init [] []) (arp_init_ok [] []) ltac:(by repeat constructor)) as (s & E & Hs). unfold waiting. by rewrite E. Qed.

Lemma etharp_query_pending_silent_witness : exists t r s', etharp_query (host 1) 0 (ip_of 2) (Some hello) waiting = Some (r, s') /\ sent s' = sent waiting /\ (fst <$> take_packet hello waiting) = Some t /\
  forall t', t = Some t' -> arp_table s' !! 0%nat = Some (set_q (Some t') waiting_entry).
Proof. apply etharp_query_pending_silent; [apply waiting_ok|by vm_compute..]. Defined.

Lemma etharp_input_reads_short_witness : ethernet_input (host 1) 0 (replicate 12 0 ++ [0x08; 0x06; 0]) (arp_init [] []) = None.
Proof. apply etharp_input_reads_short; [split; vm_compute; lia|done|by vm_compute]. Defined.

Lemma etharp_query_halts_mixed_witness : etharp_query (host 1) 0 (ip_of 2) (Some mixed) (arp_init [] []) = None.
Proof.
  apply (etharp_query_halts_mixed (host 1) 0 (ip_of 2) mixed [1] [2] []); [apply arp_init_ok|by vm_compute| |done..].
  by repeat (constructor; [intros [Hu _]; by destruct Hu|]).
Defined.
