(* ===== verification/Ip4.v ===== *)
(** * IP: lwIP's [core/ipv4/ip4.c] and [core/ipv4/ip4_frag.c]

    Routing, sending and receiving of IP packets, fragmentation and reassembly, in the
    configuration of the firmware: no forwarding, no IGMP, no loopback
    interface, options allowed on input and never sent.  Packets to be sent are
    those of [Etharp]; a received packet is its chain of pbufs, a list of byte
    strings, with a number that stands for its first pbuf: [live] is the set of those
    that are not freed, and to free one that is not in it is the failed assertion
    of [pbuf_free].  [None] is a failed assertion, a null pointer that is read
    through, or a loop that does not end. *)

From Stdlib Require Import ZArith Lia.
From stdpp Require Import base gmap list numbers.
From S2P Require Import Prelude LwipDef Ip4Addr InetChksum Etharp.
From stdpp Require Import sets list.
Import OptionNotations.

Local Open Scope Z_scope.

(** ** Constants *)

Definition IP_HLEN : nat := 20.
Definition IP_MF : Z := 0x2000.
Definition IP_OFFMASK : Z := 0x1fff.
Definition IP_PROTO_ICMP : Z := 1.
Definition IP_PROTO_TCP : Z := 6.
Definition IP_PROTO_UDP : Z := 17.
Definition NETIF_FLAG_UP : Z := 1.
Definition NETIF_FLAG_LINK_UP : Z := 4.
Definition MEMP_NUM_REASSDATA : nat := 5.
Definition IP_REASS_MAXAGE : Z := 3.
Definition IP_REASS_MAX_PBUFS : Z := 10.
Definition IP_REASS_FLAG_LASTFRAG : Z := 1.

(** ** The header *)

Definition IPH_V (h : list Z) : Z := Z.shiftr (of_le (field 0 1 h)) 4.
Definition IPH_HL (h : list Z) : Z := Z.land (of_le (field 0 1 h)) 0x0f.
Definition IPH_LEN (h : list Z) : Z := of_le (field 2 2 h).
Definition IPH_ID (h : list Z) : Z := of_le (field 4 2 h).
Definition IPH_OFFSET (h : list Z) : Z := of_le (field 6 2 h).
Definition IPH_PROTO (h : list Z) : Z := of_le (field 9 1 h).
Definition IPH_CHKSUM (h : list Z) : Z := of_le (field 10 2 h).
Definition iph_src (h : list Z) : Z := of_le (field 12 4 h).
Definition iph_dest (h : list Z) : Z := of_le (field 16 4 h).

(** A field is overwritten. *)
Definition set_field (off : nat) (v h : list Z) : list Z := take off h ++ v ++ drop (off + length v) h.
Definition IPH_LEN_SET (v : Z) (h : list Z) : list Z := set_field 2 (le_bytes 2 v) h.
Definition IPH_OFFSET_SET (v : Z) (h : list Z) : list Z := set_field 6 (le_bytes 2 v) h.
Definition IPH_CHKSUM_SET (v : Z) (h : list Z) : list Z := set_field 10 (le_bytes 2 v) h.

(** The bytes of [struct ip_hdr]. *)
Definition ip_hdr (vhl tos len id offset ttl proto chksum src dest : Z) : list Z :=
  le_bytes 1 vhl ++ le_bytes 1 tos ++ le_bytes 2 len ++ le_bytes 2 id ++ le_bytes 2 offset ++
  le_bytes 1 ttl ++ le_bytes 1 proto ++ le_bytes 2 chksum ++ le_bytes 4 src ++ le_bytes 4 dest.

(** [inet_chksum] of bytes in memory. *)
Definition chksum_of (b : list Z) : option Z := inet_chksum 0 (Z.of_nat (length b)) (write ∅ 0 b).

(** ** Reassembly *)

(** A queued fragment: the helper structure and the chain, whose first 20 bytes it replaces. *)
Record frag := Frag { f_id : nat; f_start : Z; f_end : Z; f_segs : list (list Z) }.

#[global] Instance frag_eq_dec : EqDecision frag.
Proof. solve_decision. Defined.

Record ip_reassdata := ReassData {
  rd_p : list frag;
  rd_iphdr : list Z;
  rd_datagram_len : Z;
  rd_flags : Z;
  rd_timer : Z
}.

Record reass := Reass {
  reassdatagrams : list ip_reassdata;
  ip_reass_pbufcount : Z;
  live : gset nat;
  time_exceeded : list (list Z)
}.

Definition set_datagrams (l : list ip_reassdata) (s : reass) : reass := Reass l (ip_reass_pbufcount s) (live s) (time_exceeded s).
Definition set_count (n : Z) (s : reass) : reass := Reass (reassdatagrams s) (u16 n) (live s) (time_exceeded s).
Definition icmp_time_exceeded (b : list Z) (s : reass) : reass := Reass (reassdatagrams s) (ip_reass_pbufcount s) (live s) (time_exceeded s ++ [b]).

Definition free_chain (id : nat) (s : reass) : option reass :=
  if decide (id ∈ live s) then Some (Reass (reassdatagrams s) (ip_reass_pbufcount s) (live s ∖ {[id]}) (time_exceeded s))
  else None.

(** [pbuf_clen] *)
Definition chain_clen (segs : list (list Z)) : Z := u16 (Z.of_nat (length segs)).

Definition IP_ADDRESSES_AND_ID_MATCH (a b : list Z) : bool :=
  (iph_src a =? iph_src b) && (iph_dest a =? iph_dest b) && (IPH_ID a =? IPH_ID b).

Definition ip_reass_dequeue_datagram (i : nat) (s : reass) : reass := set_datagrams (delete i (reassdatagrams s)) s.

(** The chains of a datagram are freed one by one; the number of pbufs. *)
Fixpoint free_frags (l : list frag) (pbufs_freed : Z) (s : reass) : option (Z * reass) :=
  match l with
  | [] => Some (pbufs_freed, s)
  | f :: l =>
      let clen := chain_clen (f_segs f) in
      if pbufs_freed + clen <=? 0xffff then let? s := free_chain (f_id f) s in free_frags l (pbufs_freed + clen) s
      else None
  end.

Definition ip_reass_free_complete_datagram (i : nat) (s : reass) : option (Z * reass) :=
  let? ipr := reassdatagrams s !! i in
  let? f := head (rd_p ipr) in
  let s := if f_start f =? 0 then icmp_time_exceeded (rd_iphdr ipr ++ drop IP_HLEN (concat (f_segs f))) s else s in
  let? (pbufs_freed, s) := free_frags (rd_p ipr) 0 s in
  let s := ip_reass_dequeue_datagram i s in
  if pbufs_freed <=? ip_reass_pbufcount s then Some (pbufs_freed, set_count (ip_reass_pbufcount s - pbufs_freed) s) else None.

Fixpoint reass_tmr_loop (fuel i : nat) (s : reass) : option reass :=
  match reassdatagrams s !! i with
  | None => Some s
  | Some r =>
      match fuel with
      | O => None
      | S fuel =>
          if 0 <? rd_timer r then
            reass_tmr_loop fuel (S i) (set_datagrams (<[i := ReassData (rd_p r) (rd_iphdr r) (rd_datagram_len r) (rd_flags r) (rd_timer r - 1)]> (reassdatagrams s)) s)
          else let? (_, s) := ip_reass_free_complete_datagram i s in reass_tmr_loop fuel i s
      end
  end.

Definition ip_reass_tmr (s : reass) : option reass := reass_tmr_loop (length (reassdatagrams s)) 0 s.

(** The oldest of the datagrams that are not that of [fraghdr], and how many there are. *)
Fixpoint oldest_loop (fraghdr : list Z) (i : nat) (l : list ip_reassdata) (oldest : option (nat * Z)) (other_datagrams : Z) : option (nat * Z) * Z :=
  match l with
  | [] => (oldest, other_datagrams)
  | r :: l =>
      if IP_ADDRESSES_AND_ID_MATCH (rd_iphdr r) fraghdr then oldest_loop fraghdr (S i) l oldest other_datagrams
      else
        let oldest := match oldest with
                      | None => Some (i, rd_timer r)
                      | Some (_, t) => if rd_timer r <=? t then Some (i, rd_timer r) else oldest
                      end in
        oldest_loop fraghdr (S i) l oldest (other_datagrams + 1)
  end.

Fixpoint remove_loop (fuel : nat) (fraghdr : list Z) (pbufs_needed pbufs_freed : Z) (s : reass) : option (Z * reass) :=
  let (oldest, other_datagrams) := oldest_loop fraghdr 0 (reassdatagrams s) None 0 in
  let? (pbufs_freed, s) :=
    match oldest with
    | Some (i, _) => let? (c, s) := ip_reass_free_complete_datagram i s in Some (pbufs_freed + c, s)
    | None => Some (pbufs_freed, s)
    end in
  if (pbufs_freed <? pbufs_needed) && (1 <? other_datagrams) then
    match fuel with
    | O => None
    | S fuel => remove_loop fuel fraghdr pbufs_needed pbufs_freed s
    end
  else Some (pbufs_freed, s).

Definition ip_reass_remove_oldest_datagram (fraghdr : list Z) (pbufs_needed : Z) (s : reass) : option (Z * reass) :=
  remove_loop (length (reassdatagrams s)) fraghdr pbufs_needed 0 s.

(** The new datagram is the first of the list; [false] when there is no memory for it. *)
Definition ip_reass_enqueue_new_datagram (fraghdr : list Z) (clen : Z) (s : reass) : option (bool * reass) :=
  let full s := bool_decide (MEMP_NUM_REASSDATA <= length (reassdatagrams s))%nat in
  let? (failed, s) :=
    if full s then
      let? (freed, s) := ip_reass_remove_oldest_datagram fraghdr clen s in
      Some (if clen <=? freed then full s else true, s)
    else Some (false, s) in
  if failed then Some (false, s)
  else Some (true, set_datagrams (ReassData [] (take IP_HLEN fraghdr) 0 0 IP_REASS_MAXAGE :: reassdatagrams s) s).

(** The loop that finds the place of a fragment: the fragments before and after it, and
    whether there were no holes up to it; [ChainDropped] when it overlaps another
    one, [ChainFailed] for the assertion after the loop. *)
Inductive chain_result :=
| ChainDropped
| ChainFailed
| Chained (before after : list frag) (valid : bool).

Definition no_hole (prev : option frag) (f : frag) : bool := match prev with Some p => f_end p =? f_start f | None => true end.

Fixpoint chain_loop (n : frag) (prev : option frag) (before l : list frag) (valid : bool) : chain_result :=
  match l with
  | [] =>
      match prev with
      | Some p => if f_end p <=? f_start n then Chained before [] (valid && no_hole prev n) else ChainFailed
      | None => Chained before [] valid
      end
  | t :: l' =>
      if f_start n <? f_start t then
        match prev with
        | Some p => if (f_start n <? f_end p) || (f_start t <? f_end n) then ChainDropped else Chained before l (valid && no_hole prev n)
        | None => if f_start t <? f_end n then ChainDropped else Chained before l valid
        end
      else if f_start n =? f_start t then ChainDropped
      else if f_start n <? f_end t then ChainDropped
      else chain_loop n (Some t) (before ++ [t]) l' (valid && no_hole prev t)
  end.

(** No holes after a fragment. *)
Fixpoint no_holes_after (p : frag) (l : list frag) : bool :=
  match l with
  | [] => true
  | f :: l => (f_end p =? f_start f) && no_holes_after f l
  end.

Inductive reass_validate :=
| IP_REASS_VALIDATE_PBUF_DROPPED
| IP_REASS_VALIDATE_PBUF_QUEUED
| IP_REASS_VALIDATE_TELEGRAM_FINISHED.

(** The fragment is put into datagram [i]. *)
Definition ip_reass_chain_frag_into_datagram_and_validate (i id : nat) (segs : list (list Z)) (is_last : bool) (s : reass) : option (reass_validate * reass) :=
  let fraghdr := concat segs in
  let len := u16 (lwip_htons (IPH_LEN fraghdr) - IPH_HL fraghdr * 4) in
  let offset := u16 (Z.land (lwip_htons (IPH_OFFSET fraghdr)) IP_OFFMASK * 8) in
  let n := Frag id offset (u16 (offset + len)) segs in
  let? ipr := reassdatagrams s !! i in
  match chain_loop n None [] (rd_p ipr) true with
  | ChainFailed => None
  | ChainDropped =>
      let? s := free_chain id (set_count (ip_reass_pbufcount s - chain_clen segs) s) in
      Some (IP_REASS_VALIDATE_PBUF_DROPPED, s)
  | Chained before after valid =>
      let p := before ++ n :: after in
      let s := set_datagrams (<[i := ReassData p (rd_iphdr ipr) (rd_datagram_len ipr) (rd_flags ipr) (rd_timer ipr)]> (reassdatagrams s)) s in
      if is_last || negb (Z.land (rd_flags ipr) IP_REASS_FLAG_LASTFRAG =? 0) then
        let? first := head p in
        if valid && (f_start first =? 0) && no_holes_after n after then
          if bool_decide (length p = 1%nat) then None
          else Some (IP_REASS_VALIDATE_TELEGRAM_FINISHED, s)
        else Some (IP_REASS_VALIDATE_PBUF_QUEUED, s)
      else Some (IP_REASS_VALIDATE_PBUF_QUEUED, s)
  end.

Fixpoint find_datagram (fraghdr : list Z) (i : nat) (l : list ip_reassdata) : option nat :=
  match l with
  | [] => None
  | r :: l => if IP_ADDRESSES_AND_ID_MATCH (rd_iphdr r) fraghdr then Some i else find_datagram fraghdr (S i) l
  end.

(** The chain without the header of its first pbuf. *)
Definition hide_header (segs : list (list Z)) : list (list Z) :=
  match segs with
  | x :: l => drop IP_HLEN x :: l
  | [] => []
  end.

Definition show_header (h : list Z) (segs : list (list Z)) : list (list Z) :=
  match segs with
  | x :: l => (h ++ drop IP_HLEN x) :: l
  | [] => [h]
  end.

(** A complete datagram: the chain and the pbufs it is made of. *)
Record datagram := Datagram { d_ids : list nat; d_segs : list (list Z) }.

Definition reass_finish (i : nat) (s : reass) : option (datagram * reass) :=
  let? ipr := reassdatagrams s !! i in
  let? f := head (rd_p ipr) in
  let h := IPH_CHKSUM_SET 0 (IPH_OFFSET_SET 0 (IPH_LEN_SET (lwip_htons (u16 (rd_datagram_len ipr + Z.of_nat IP_HLEN))) (rd_iphdr ipr))) in
  let? c := chksum_of h in
  let h := IPH_CHKSUM_SET c h in
  let segs := show_header h (f_segs f) ++ concat (map (fun f => hide_header (f_segs f)) (tail (rd_p ipr))) in
  let s := ip_reass_dequeue_datagram i s in
  Some (Datagram (map f_id (rd_p ipr)) segs, set_count (ip_reass_pbufcount s - chain_clen segs) s).

Definition ip4_reass (id : nat) (segs : list (list Z)) (s : reass) : option (option datagram * reass) :=
  let fraghdr := concat segs in
  let nullreturn s := let? s := free_chain id s in Some (None, s) in
  if negb (IPH_HL fraghdr * 4 =? Z.of_nat IP_HLEN) then nullreturn s
  else
    let offset := u16 (Z.land (lwip_htons (IPH_OFFSET fraghdr)) IP_OFFMASK * 8) in
    let len := u16 (lwip_htons (IPH_LEN fraghdr) - IPH_HL fraghdr * 4) in
    let clen := chain_clen segs in
    let? (overflow, s) :=
      if IP_REASS_MAX_PBUFS <? ip_reass_pbufcount s + clen then
        let? (freed, s) := ip_reass_remove_oldest_datagram fraghdr clen s in
        Some ((freed =? 0) || (IP_REASS_MAX_PBUFS <? ip_reass_pbufcount s + clen), s)
      else Some (false, s) in
    if overflow then nullreturn s
    else
      let? (found, s) :=
        match find_datagram fraghdr 0 (reassdatagrams s) with
        | None => let? (ok, s) := ip_reass_enqueue_new_datagram fraghdr clen s in Some (if ok then Some 0%nat else None, s)
        | Some i =>
            let? ipr := reassdatagrams s !! i in
            if (Z.land (lwip_htons (IPH_OFFSET fraghdr)) IP_OFFMASK =? 0) && negb (Z.land (lwip_htons (IPH_OFFSET (rd_iphdr ipr))) IP_OFFMASK =? 0) then
              Some (Some i, set_datagrams (<[i := ReassData (rd_p ipr) (take IP_HLEN fraghdr) (rd_datagram_len ipr) (rd_flags ipr) (rd_timer ipr)]> (reassdatagrams s)) s)
            else Some (Some i, s)
        end in
      match found with
      | None => nullreturn s
      | Some i =>
          let is_last := Z.land (IPH_OFFSET fraghdr) (PP_HTONS IP_MF) =? 0 in
          let datagram_len := u16 (offset + len) in
          if is_last && ((datagram_len <? offset) || (0xffff - Z.of_nat IP_HLEN <? datagram_len)) then nullreturn s
          else
            let? (valid, s) := ip_reass_chain_frag_into_datagram_and_validate i id segs is_last s in
            match valid with
            | IP_REASS_VALIDATE_PBUF_DROPPED => nullreturn s
            | _ =>
                let s := set_count (ip_reass_pbufcount s + clen) s in
                let? ipr := reassdatagrams s !! i in
                let s :=
                  if is_last then
                    set_datagrams (<[i := ReassData (rd_p ipr) (rd_iphdr ipr) datagram_len (Z.lor (rd_flags ipr) IP_REASS_FLAG_LASTFRAG) (rd_timer ipr)]> (reassdatagrams s)) s
                  else s in
                match valid with
                | IP_REASS_VALIDATE_TELEGRAM_FINISHED => let? (d, s) := reass_finish i s in Some (Some d, s)
                | _ => Some (None, s)
                end
            end
      end.

(** ** Interfaces and routes *)

Section ip.
Context (netifs : Z -> arp_netif) (mtu : Z -> Z) (netif_list : list Z) (netif_default : option Z).

Definition netif_is_up (n : Z) : bool := negb (Z.land (netif_flags (ip4 (netifs n))) NETIF_FLAG_UP =? 0).
Definition netif_is_link_up (n : Z) : bool := negb (Z.land (netif_flags (ip4 (netifs n))) NETIF_FLAG_LINK_UP =? 0).
Definition ip4_addr_isloopback (a : Z) : bool := Z.land a (PP_HTONL 0xff000000) =? PP_HTONL 0x7f000000.

Definition usable (n : Z) : bool := netif_is_up n && netif_is_link_up n && negb (ip4_addr_isany_val (netif_ip4_addr netifs n)).

Fixpoint route_loop (dest : Z) (l : list Z) : option Z :=
  match l with
  | [] => None
  | n :: l =>
      if usable n &&
         (ip4_addr_netcmp dest (netif_ip4_addr netifs n) (netmask (ip4 (netifs n))) ||
          ((Z.land (netif_flags (ip4 (netifs n))) NETIF_FLAG_BROADCAST =? 0) && (dest =? gw (netifs n)))) then Some n
      else route_loop dest l
  end.

Definition ip4_route (dest : Z) : option Z :=
  match route_loop dest netif_list with
  | Some n => Some n
  | None =>
      match netif_default with
      | Some n => if usable n then Some n else None
      | None => None
      end
  end.

(** ** Sending *)

(** What is kept for sending: [frag_memory] is what the allocations of [ip4_frag] will give,
    [frag_held] how many of its pbufs are not freed. *)
Record ipout := IpOut { ip_id : Z; frag_memory : list bool; frag_held : Z; arp_of : arp }.

Definition set_arp (a : arp) (s : ipout) : ipout := IpOut (ip_id s) (frag_memory s) (frag_held s) a.
Definition frag_free (k : Z) (s : ipout) : ipout := IpOut (ip_id s) (frag_memory s) (frag_held s - k) (arp_of s).
Definition frag_alloc (s : ipout) : bool * ipout :=
  match frag_memory s with
  | [] => (true, IpOut (ip_id s) [] (frag_held s + 1) (arp_of s))
  | b :: m => (b, IpOut (ip_id s) m (if b then frag_held s + 1 else frag_held s) (arp_of s))
  end.

Definition output (n : Z) (p : packet) (dest : Z) (s : ipout) : option (Z * ipout) :=
  let? (r, a) := etharp_output netifs n p dest (arp_of s) in Some (r, set_arp a s).

(** Mirroring [left_to_copy] bytes of the chain from [poff] on: the pieces, what is left of
    the chain and the offset in it; the inner [None] is a failed allocation. *)
Fixpoint mirror (left_to_copy : Z) (p : list (list Z)) (poff : nat) (pieces : list (list Z)) (s : ipout) : option (option (list (list Z) * list (list Z) * nat) * ipout) :=
  match p with
  | [] => None
  | x :: next =>
      let plen := Z.of_nat (length x) - Z.of_nat poff in
      let newpbuflen := Z.min left_to_copy plen in
      if newpbuflen =? 0 then mirror left_to_copy next 0 pieces s
      else
        let (ok, s) := frag_alloc s in
        if negb ok then Some (None, frag_free (Z.of_nat (length pieces)) s)
        else
          let pieces := pieces ++ [take (Z.to_nat newpbuflen) (drop poff x)] in
          let left_to_copy := left_to_copy - newpbuflen in
          if left_to_copy =? 0 then Some (Some (pieces, p, (poff + Z.to_nat newpbuflen)%nat), s)
          else mirror left_to_copy next 0 pieces s
  end.

(** The header of a fragment. *)
Definition frag_header (original : list Z) (ofo fragsize : Z) (last : bool) : option (list Z) :=
  let tmp := Z.land IP_OFFMASK ofo in
  let tmp := if last then tmp else Z.lor tmp IP_MF in
  let h := IPH_CHKSUM_SET 0 (IPH_LEN_SET (lwip_htons (u16 (fragsize + Z.of_nat IP_HLEN))) (IPH_OFFSET_SET (lwip_htons tmp) original)) in
  let? c := chksum_of h in Some (IPH_CHKSUM_SET c h).

Fixpoint frag_loop (fuel : nat) (n dest nfb : Z) (original : list Z) (left ofo : Z) (p : list (list Z)) (poff : nat) (s : ipout) : option (Z * ipout) :=
  if left =? 0 then Some (ERR_OK, s)
  else
    match fuel with
    | O => None
    | S fuel =>
        let fragsize := Z.min left (nfb * 8) in
        let (ok, s) := frag_alloc s in
        if negb ok then Some (ERR_MEM, s)
        else if negb (Z.of_nat IP_HLEN <=? Z.of_nat (length (hd [] p))) then None
        else
          let? (r, s) := mirror fragsize p poff [] s in
          match r with
          | None => Some (ERR_MEM, frag_free 1 s)
          | Some (pieces, p, poff) =>
              let last := left <=? mtu n - Z.of_nat IP_HLEN in
              let? h := frag_header original ofo fragsize last in
              let rambuf := Packet ((false, h) :: map (pair false) pieces) SIZEOF_ETH_HDR in
              let? (_, s) := output n rambuf dest s in
              frag_loop fuel n dest nfb original (left - fragsize) (u16 (ofo + nfb)) p poff (frag_free (1 + Z.of_nat (length pieces)) s)
          end
    end.

(** The rounds of the loop are at most the number of bytes.  [LWIP_ERROR] is an assertion in this
    build. *)
Definition ip4_frag (n : Z) (p : packet) (dest : Z) (s : ipout) : option (Z * ipout) :=
  let b := packet_bytes p in
  let original := take IP_HLEN b in
  let nfb := u16 (Z.quot (mtu n - Z.of_nat IP_HLEN) 8) in
  if negb (IPH_HL b * 4 =? Z.of_nat IP_HLEN) then None
  else
    let tmp := lwip_htons (IPH_OFFSET b) in
    if negb (Z.land tmp IP_MF =? 0) then None
    else
      let left := u16 (Z.of_nat (length b) - Z.of_nat IP_HLEN) in
      frag_loop (Z.to_nat left) n dest nfb original left (Z.land tmp IP_OFFMASK) (segments p).*2 IP_HLEN s.

(** The checksum that is computed along with the header. *)
Definition inline_chksum (vhl tos len id ttl proto src dest : Z) : Z :=
  let chk_sum := u32 (PP_HTONS (Z.lor proto (Z.shiftl ttl 8))) in
  let chk_sum := u32 (chk_sum + Z.land dest 0xffff) in
  let chk_sum := u32 (chk_sum + Z.shiftr dest 16) in
  let chk_sum := u32 (chk_sum + PP_HTONS (Z.lor tos (Z.shiftl vhl 8))) in
  let chk_sum := u32 (chk_sum + len) in
  let chk_sum := u32 (chk_sum + id) in
  let chk_sum := u32 (chk_sum + Z.land src 0xffff) in
  let chk_sum := u32 (chk_sum + Z.shiftr src 16) in
  let chk_sum := u32 (Z.shiftr chk_sum 16 + Z.land chk_sum 0xffff) in
  let chk_sum := u32 (Z.shiftr chk_sum 16 + chk_sum) in
  u16 (not32 chk_sum).

(** [pbuf_header(p, IP_HLEN)]: room before the first payload. *)
Definition push_header (h : list Z) (p : packet) : option packet :=
  match segments p with
  | (false, x) :: l => if Z.of_nat (length h) <=? room p then Some (Packet ((false, h ++ x) :: l) (room p - Z.of_nat (length h))) else None
  | _ => None
  end.

Definition ip4_output_if_src (n : Z) (p : packet) (src dest ttl tos proto : Z) (s : ipout) : option (Z * ipout) :=
  let tot_len := u16 (Z.of_nat (length (packet_bytes p)) + Z.of_nat IP_HLEN) in
  let len := lwip_htons tot_len in
  let id := lwip_htons (ip_id s) in
  let c := inline_chksum 0x45 tos len id ttl proto src dest in
  match push_header (ip_hdr 0x45 tos len id 0 ttl proto c src dest) p with
  | None => Some (ERR_BUF, s)
  | Some p =>
      let s := IpOut (u16 (ip_id s + 1)) (frag_memory s) (frag_held s) (arp_of s) in
      if negb (mtu n =? 0) && (mtu n <? tot_len) then ip4_frag n p dest s
      else output n p dest s
  end.

Definition ip4_output_if (n : Z) (p : packet) (src dest ttl tos proto : Z) (s : ipout) : option (Z * ipout) :=
  let src_used := if ip4_addr_isany_val src then netif_ip4_addr netifs n else src in
  ip4_output_if_src n p src_used dest ttl tos proto s.

Definition ip4_output (p : packet) (src dest ttl tos proto : Z) (s : ipout) : option (Z * ipout) :=
  match ip4_route dest with
  | None => Some (ERR_RTE, s)
  | Some n => ip4_output_if n p src dest ttl tos proto s
  end.

(** ** Receiving *)

(** [pbuf_realloc]: the first [n] bytes of a chain. *)
Fixpoint realloc_chain (n : nat) (segs : list (list Z)) : list (list Z) :=
  match segs with
  | [] => []
  | x :: l => if (length x <? n)%nat then x :: realloc_chain (n - length x) l else [take n x]
  end.

(** What becomes of a packet. *)
Inductive ip4_result :=
| Consumed
| Deliver (proto src dest : Z) (d : datagram)
| ProtoUnreach (b : list Z).

(** The interface a packet is for: the one it came from first, then the others. *)
Definition accepts (dest n : Z) : bool :=
  netif_is_up n && negb (ip4_addr_isany_val (netif_ip4_addr netifs n)) &&
  ((dest =? netif_ip4_addr netifs n) || ip4_addr_isbroadcast_u32 dest (ip4 (netifs n))).

Definition match_netif (inp dest : Z) : option Z :=
  if ip4_addr_ismulticast dest then
    if netif_is_up inp && negb (ip4_addr_isany_val (netif_ip4_addr netifs inp)) then Some inp else None
  else if accepts dest inp then Some inp
  else if ip4_addr_isloopback dest then None
  else head (filter (fun n => accepts dest n = true) (filter (fun n => n <> inp) netif_list)).

Definition ip4_input (inp : Z) (id : nat) (segs : list (list Z)) (s : reass) : option (ip4_result * reass) :=
  let b := concat segs in
  let drop_packet s := let? s := free_chain id s in Some (Consumed, s) in
  if (length b <? 4)%nat then None
  else if negb (IPH_V b =? 4) then drop_packet s
  else
    let iphdr_hlen := IPH_HL b * 4 in
    let iphdr_len := lwip_htons (IPH_LEN b) in
    let segs := if iphdr_len <? Z.of_nat (length b) then realloc_chain (Z.to_nat iphdr_len) segs else segs in
    let plen := Z.of_nat (length (hd [] segs)) in
    if (plen <? iphdr_hlen) || (Z.of_nat (length (concat segs)) <? iphdr_len) || (iphdr_hlen <? Z.of_nat IP_HLEN) then drop_packet s
    else
      let b := concat segs in
      let? c := chksum_of (take (Z.to_nat iphdr_hlen) b) in
      if negb (c =? 0) then drop_packet s
      else
        let dest := iph_dest b in
        let src := iph_src b in
        let netif := match_netif inp dest in
        if ip4_addr_isbroadcast_u32 src (ip4 (netifs inp)) || ip4_addr_ismulticast src then drop_packet s
        else
          match netif with
          | None => drop_packet s
          | Some n =>
              let? (d, s) :=
                if negb (Z.land (IPH_OFFSET b) (PP_HTONS (Z.lor IP_OFFMASK IP_MF)) =? 0) then ip4_reass id segs s
                else Some (Some (Datagram [id] segs), s) in
              match d with
              | None => Some (Consumed, s)
              | Some d =>
                  let b := concat (d_segs d) in
                  let proto := IPH_PROTO b in
                  if (proto =? IP_PROTO_UDP) || (proto =? IP_PROTO_TCP) || (proto =? IP_PROTO_ICMP) then
                    Some (Deliver proto src dest (Datagram (d_ids d) (match d_segs d with x :: l => drop (Z.to_nat iphdr_hlen) x :: l | [] => [] end)), s)
                  else
                    let? s := foldl (fun s i => let? s := s in free_chain i s) (Some s) (d_ids d) in
                    Some (if negb (ip4_addr_isbroadcast_u32 dest (ip4 (netifs n))) && negb (ip4_addr_ismulticast dest) then ProtoUnreach b else Consumed, s)
              end
          end.
End ip.
