(* ===== verification/Ip4Reass.v ===== *)
(** * Reassembly in any order

    The fragments of a datagram, in whatever order they come, are put together to the
    datagram, and the state is as it was before. *)

From Stdlib Require Import ZArith Lia.
From stdpp Require Import base gmap list numbers relations.
From S2P Require Import Prelude LwipDef Ip4Addr InetChksum InetChksumSpec InetChksumProof InetChksumTheorems Etharp Ip4.
From stdpp Require Import sets list.
Import OptionNotations.

Local Open Scope Z_scope.

(** ** Lists of fragments *)

Definition f_len (f : frag) : Z := f_end f - f_start f.
Definition positive (f : frag) : Prop := f_start f < f_end f.

Fixpoint total (l : list frag) : Z := match l with [] => 0 | f :: l => f_len f + total l end.

(** Without holes from the first one on. *)
Definition linked (l : list frag) : bool := match l with [] => true | f :: l => no_holes_after f l end.

Lemma no_holes_app a l f r : no_holes_after a (l ++ f :: r) = no_holes_after a (l ++ [f]) && no_holes_after f r.
Proof. revert a. induction l as [|x l IH]; intros a; cbn [app no_holes_after]; [by rewrite andb_true_r|]. by rewrite IH, andb_assoc. Qed.

Lemma linked_app l f r : linked (l ++ f :: r) = linked (l ++ [f]) && no_holes_after f r.
Proof. destruct l as [|a l]; [done|]. apply no_holes_app. Qed.

Lemma no_holes_total a l f : no_holes_after a (l ++ [f]) = true -> total (a :: l ++ [f]) = f_end f - f_start a.
Proof.
  revert a. induction l as [|x l IH]; intros a H; cbn [app no_holes_after] in H; apply andb_true_iff in H as [E%Z.eqb_eq H]; unfold f_len in *.
  - cbn. unfold f_len. lia.
  - specialize (IH x H). cbn [app total] in *. unfold f_len in *. lia.
Qed.

(** The end of the last one. *)
Lemma linked_total l f : linked (l ++ [f]) = true -> (forall x, head (l ++ [f]) = Some x -> f_start x = 0) -> total (l ++ [f]) = f_end f.
Proof.
  destruct l as [|a l]; intros H H0; cbn [app].
  - cbn. unfold f_len. rewrite (H0 f) by done. lia.
  - rewrite (no_holes_total a l f H), (H0 a) by done. lia.
Qed.

(** Fragments that are selected by their numbers. *)
Definition got (R : gset nat) (l : list frag) : list frag := filter (fun f => f_id f ∈ R) l.

Lemma got_app R l1 l2 : got R (l1 ++ l2) = got R l1 ++ got R l2.
Proof. apply filter_app. Qed.

Lemma got_empty l : got ∅ l = [].
Proof. induction l as [|f l IH]; [done|]. unfold got in *. rewrite filter_cons. destruct (decide (f_id f ∈ (∅ : gset nat))); [set_solver|done]. Qed.

Lemma got_total R l : Forall positive l -> total (got R l) <= total l /\ (total (got R l) = total l -> got R l = l).
Proof.
  induction l as [|f l IH]; intros H; [done|]. apply Forall_cons in H as [Hf Hl]. specialize (IH Hl) as [IH1 IH2]. unfold got in *. rewrite filter_cons. unfold positive in Hf.
  destruct (decide (f_id f ∈ R)); cbn [total]; unfold f_len in *; [|lia]. split; [lia|]. intros E. f_equal. apply IH2. lia.
Qed.

Lemma got_forall (P : frag -> Prop) R l : Forall P l -> Forall P (got R l).
Proof. rewrite !Forall_forall. intros H x Hx. apply H. unfold got in Hx. by apply list_elem_of_filter in Hx as [_ Hx]. Qed.

(** All fragments are there when the last one is and there is no hole. *)
Lemma got_complete R l f : Forall positive (l ++ [f]) -> linked (l ++ [f]) = true -> (forall x, head (l ++ [f]) = Some x -> f_start x = 0) -> f_id f ∈ R ->
  linked (got R (l ++ [f])) = true -> (forall x, head (got R (l ++ [f])) = Some x -> f_start x = 0) -> got R (l ++ [f]) = l ++ [f].
Proof.
  intros Hpos Hl H0 Hf Hlg H0g. apply (got_total R); [done|]. rewrite (linked_total l f Hl H0).
  assert (E : got R (l ++ [f]) = got R l ++ [f]) by (rewrite got_app; f_equal; unfold got; rewrite filter_cons; by destruct (decide _)).
  rewrite E in *. by rewrite (linked_total (got R l) f Hlg H0g).
Qed.

(** In order and without overlaps. *)
Definition ordered (l : list frag) : Prop := forall i j x y, l !! i = Some x -> l !! j = Some y -> (i < j)%nat -> f_end x <= f_start y.

(** ** The place of a fragment *)

Lemma chain_loop_ok n l1 : forall prev before l2 valid,
  Forall positive l1 -> positive n ->
  (match prev with Some p => f_end p <= f_start n | None => True end) ->
  Forall (fun x => f_end x <= f_start n) l1 -> Forall (fun x => f_end n <= f_start x) l2 ->
  chain_loop n prev before (l1 ++ l2) valid =
  Chained (before ++ l1) l2 (valid && match prev with Some p => no_holes_after p (l1 ++ [n]) | None => linked (l1 ++ [n]) end).
Proof.
  induction l1 as [|x l1 IH]; intros prev before l2 valid Hp Hn Hprev H1 H2; cbn [app].
  - rewrite app_nil_r. assert (Ev : match prev with Some p => no_holes_after p [n] | None => linked [n] end = no_hole prev n) by (destruct prev; cbn; [by rewrite andb_true_r|done]).
    rewrite Ev. unfold positive in Hn. destruct l2 as [|t l2]; cbn [chain_loop].
    + destruct prev as [p|]; [|by rewrite andb_true_r]. by destruct (Z.leb_spec (f_end p) (f_start n)); [|lia].
    + apply Forall_cons in H2 as [Ht _]. destruct (Z.ltb_spec (f_start n) (f_start t)); [|lia].
      destruct (Z.ltb_spec (f_start t) (f_end n)); [lia|]. destruct prev as [p|]; [|by rewrite andb_true_r]. by destruct (Z.ltb_spec (f_start n) (f_end p)); [lia|].
  - apply Forall_cons in Hp as [Hx Hp]. apply Forall_cons in H1 as [Hxn H1]. unfold positive in Hx. cbn [chain_loop].
    destruct (Z.ltb_spec (f_start n) (f_start x)); [lia|]. destruct (Z.eqb_spec (f_start n) (f_start x)); [lia|]. destruct (Z.ltb_spec (f_start n) (f_end x)); [lia|].
    rewrite IH by done. rewrite <- app_assoc. f_equal. rewrite <- andb_assoc. f_equal. destruct prev; done.
Qed.

(** A fragment is put in its place among those that are there. *)
Lemma chain_place R l1 f l2 : Forall positive (l1 ++ f :: l2) -> ordered (l1 ++ f :: l2) -> NoDup (map f_id (l1 ++ f :: l2)) -> f_id f ∉ R ->
  got R (l1 ++ f :: l2) = got R l1 ++ got R l2 /\ got (R ∪ {[f_id f]}) (l1 ++ f :: l2) = got R l1 ++ f :: got R l2 /\
  chain_loop f None [] (got R (l1 ++ f :: l2)) true = Chained (got R l1) (got R l2) (linked (got R l1 ++ [f])).
Proof.
  intros Hp Ho Hnd HR.
  assert (E1 : got R (l1 ++ f :: l2) = got R l1 ++ got R l2) by (rewrite got_app; f_equal; unfold got; rewrite filter_cons; by destruct (decide _)).
  assert (Hne : forall l, f_id f ∉ map f_id l -> got (R ∪ {[f_id f]}) l = got R l).
  { intros l. induction l as [|x l IH]; intros Hl; [done|]. cbn [map] in Hl. apply not_elem_of_cons in Hl as [Hx Hl]. unfold got in *. rewrite !filter_cons, (IH Hl).
    destruct (decide (f_id x ∈ R ∪ {[f_id f]})), (decide (f_id x ∈ R)); try done; set_solver. }
  rewrite map_app, map_cons in Hnd. apply NoDup_app in Hnd as (_ & Hn1 & Hnd2). apply NoDup_cons in Hnd2 as [Hn2 _].
  assert (Hn1' : f_id f ∉ map f_id l1) by (intros Hin; apply (Hn1 _ Hin), elem_of_cons; by left).
  split; [done|]. split.
  - rewrite got_app, (Hne l1 Hn1'). f_equal. unfold got at 1. rewrite filter_cons. destruct (decide (f_id f ∈ R ∪ {[f_id f]})) as [_|Hx]; [|set_solver]. f_equal. by apply (Hne l2).
  - rewrite E1. apply Forall_app in Hp as [Hp1 [Hpf Hp2]%Forall_cons]. apply (chain_loop_ok f (got R l1) None [] (got R l2) true); try done.
    + by apply got_forall.
    + apply got_forall, Forall_lookup. intros i x Hi. apply (Ho i (length l1) x f); [by apply lookup_app_l_Some|by rewrite lookup_app_r, Nat.sub_diag by lia|by eapply lookup_lt_Some].
    + apply got_forall, Forall_lookup. intros i x Hi. apply (Ho (length l1) (length l1 + S i)%nat f x); [by rewrite lookup_app_r, Nat.sub_diag by lia| |lia].
      rewrite lookup_app_r by lia. by replace (length l1 + S i - length l1)%nat with (S i) by lia.
Qed.

Lemma no_holes_after_all a l : no_holes_after a l = true -> Forall positive l -> Forall (fun x => f_end a <= f_start x) l.
Proof.
  revert a. induction l as [|x l IH]; intros a H Hp; [done|]. cbn [no_holes_after] in H. apply andb_true_iff in H as [E%Z.eqb_eq H].
  apply Forall_cons in Hp as [Hx Hp]. unfold positive in Hx. constructor; [lia|]. eapply Forall_impl; [by apply (IH x)|]. cbn. lia.
Qed.

Lemma linked_ordered l : linked l = true -> Forall positive l -> ordered l.
Proof.
  induction l as [|a l IH]; intros H Hp i j x y Hi Hj Hij; [by rewrite lookup_nil in Hi|]. apply Forall_cons in Hp as [Ha Hp]. cbn [linked] in H.
  destruct i as [|i], j as [|j]; try lia.
  - injection Hi as <-. pose proof (no_holes_after_all a l H Hp) as Hall. rewrite Forall_lookup in Hall. by apply (Hall j).
  - apply (IH) with (i := i) (j := j); try done; [|lia]. destruct l as [|b l]; [done|]. cbn [no_holes_after] in H. by apply andb_true_iff in H as [_ H].
Qed.

(** ** Checksums of headers *)

Lemma chksum_of_bytes b : bytes b -> (length b <= 60)%nat -> chksum_of b = Some (65535 - oc (word_sum b)).
Proof.
  intros Hb Hl. unfold chksum_of, inet_chksum. destruct (chksum_spec (write ∅ 0 b) 0 (length b) b (load_write _ _ _) Hb ltac:(lia)) as (r & -> & Hr & Hq). cbn [mbind option_bind].
  f_equal. apply not16_oc; [|done]. rewrite Hq. by apply of_le_word_sum.
Qed.

(** ** The fragments of a datagram *)


Definition frag_bytes (f : frag) : list Z := concat (f_segs f).
Definition frag_clen (f : frag) : Z := Z.of_nat (length (f_segs f)).
Fixpoint clens (l : list frag) : Z := match l with [] => 0 | f :: l => frag_clen f + clens l end.

Lemma field_take off len k b : (off + len <= k)%nat -> field off len (take k b) = field off len b.
Proof. intros H. unfold field. rewrite !take_drop_commute, take_take. f_equal. f_equal. lia. Qed.

Lemma clens_got R l : 0 <= clens (got R l) <= clens l.
Proof. induction l as [|f l IH]; [done|]. unfold got in *. rewrite filter_cons. cbn [clens]. unfold frag_clen in *. destruct (decide (f_id f ∈ R)); cbn [clens]; unfold frag_clen; lia. Qed.

Lemma clens_app l1 l2 : clens (l1 ++ l2) = clens l1 + clens l2.
Proof. induction l1 as [|f l1 IH]; cbn [app clens]; lia. Qed.

Lemma clen_small l : Z.of_nat (length l) <= 10 -> chain_clen l = Z.of_nat (length l).
Proof. intros H. unfold chain_clen. apply u16_small. lia. Qed.

(** Packets of the same datagram. *)
Definition same_key (a b : list Z) : Prop := iph_src a = iph_src b /\ iph_dest a = iph_dest b /\ IPH_ID a = IPH_ID b.

Lemma match_key a b : IP_ADDRESSES_AND_ID_MATCH a b = true <-> same_key a b.
Proof. unfold IP_ADDRESSES_AND_ID_MATCH, same_key. rewrite !andb_true_iff, !Z.eqb_eq. tauto. Qed.

Lemma key_take b : same_key (take IP_HLEN b) b.
Proof. unfold same_key, iph_src, iph_dest, IPH_ID. by rewrite !field_take by (unfold IP_HLEN; lia). Qed.

Lemma key_sym a b : same_key a b -> same_key b a.
Proof. unfold same_key. intuition congruence. Qed.

Lemma key_trans a b c : same_key a b -> same_key b c -> same_key a c.
Proof. unfold same_key. intuition congruence. Qed.

Lemma find_datagram_none hdr l : forall i, Forall (fun r => ~ same_key (rd_iphdr r) hdr) l -> find_datagram hdr i l = None.
Proof.
  induction l as [|r l IH]; intros i H; [done|]. apply Forall_cons in H as [Hr H]. cbn [find_datagram].
  destruct (IP_ADDRESSES_AND_ID_MATCH (rd_iphdr r) hdr) eqn:E; [by apply match_key in E|]. by apply IH.
Qed.

Definition frag_offset (b : list Z) : Z := Z.land (lwip_htons (IPH_OFFSET b)) IP_OFFMASK.

(** What the header of a fragment says. *)
Record frag_ok (key : list Z) (last : bool) (f : frag) : Prop := {
  fo_hl : IPH_HL (frag_bytes f) * 4 = 20;
  fo_start : u16 (frag_offset (frag_bytes f) * 8) = f_start f;
  fo_zero : frag_offset (frag_bytes f) = 0 <-> f_start f = 0;
  fo_len : u16 (lwip_htons (IPH_LEN (frag_bytes f)) - IPH_HL (frag_bytes f) * 4) = f_len f;
  fo_range : 0 <= f_start f < f_end f;
  fo_end : f_end f <= 65515;
  fo_last : (Z.land (IPH_OFFSET (frag_bytes f)) (PP_HTONS IP_MF) =? 0) = last;
  fo_key : same_key key (frag_bytes f)
}.

(** The header of the datagram. *)
Definition whole_header (len : Z) (h : list Z) : list Z :=
  let h := IPH_CHKSUM_SET 0 (IPH_OFFSET_SET 0 (IPH_LEN_SET (lwip_htons (u16 (len + Z.of_nat IP_HLEN))) h)) in
  IPH_CHKSUM_SET (65535 - oc (word_sum h)) h.

(** A sequence of fragments comes in. *)
Fixpoint reass_all (l : list frag) (s : reass) : option (list (option datagram) * reass) :=
  match l with
  | [] => Some ([], s)
  | f :: l =>
      let? (r, s) := ip4_reass (f_id f) (f_segs f) s in
      let? (rs, s) := reass_all l s in
      Some (r :: rs, s)
  end.

Section datagram.
Context (key : list Z) (f0 : frag) (fi : list frag) (fl : frag) (s0 : reass).

(** All the fragments, at least two. *)
Definition fs : list frag := f0 :: fi ++ [fl].

Record fragments_ok : Prop := {
  fs_first : Forall (frag_ok key false) (f0 :: fi);
  fs_last : frag_ok key true fl;
  fs_linked : linked fs = true;
  fs_zero : f_start f0 = 0;
  fs_ids : NoDup (map f_id fs);
  fs_header : bytes (take IP_HLEN (frag_bytes f0)) /\ (IP_HLEN <= length (frag_bytes f0))%nat
}.

(** There is room for them, and no other datagram of the same name. *)
Record room_ok : Prop := {
  rm_key : Forall (fun r => ~ same_key (rd_iphdr r) key) (reassdatagrams s0);
  rm_datagrams : (length (reassdatagrams s0) < MEMP_NUM_REASSDATA)%nat;
  rm_count : 0 <= ip_reass_pbufcount s0;
  rm_pbufs : ip_reass_pbufcount s0 + clens fs <= IP_REASS_MAX_PBUFS
}.

Context (Hfs : fragments_ok) (Hroom : room_ok).

Lemma fs_ok f : f ∈ fs -> exists last, frag_ok key last f /\ (last = true <-> f = fl).
Proof.
  unfold fs. intros Hf. assert (Hnl : forall g, g ∈ f0 :: fi -> g <> fl).
  { intros g Hg ->. pose proof (fs_first Hfs) as H. rewrite Forall_forall in H. specialize (H fl Hg). pose proof (fo_last _ _ _ H) as E1. pose proof (fo_last _ _ _ (fs_last Hfs)) as E2. congruence. }
  rewrite app_comm_cons in Hf. apply elem_of_app in Hf as [Hf|Hf%list_elem_of_singleton].
  - exists false. pose proof (fs_first Hfs) as H. rewrite Forall_forall in H. split; [by apply H|]. split; [done|]. intros ->. by destruct (Hnl fl Hf).
  - subst f. exists true. split; [apply Hfs|done].
Qed.

Lemma fs_positive : Forall positive fs.
Proof. apply Forall_forall. intros f Hf. destruct (fs_ok f Hf) as (l & H & _). unfold positive. pose proof (fo_range _ _ _ H). lia. Qed.

(** The header that is kept: that of the first fragment once it is there. *)
Definition header_ok (R : gset nat) (h : list Z) : Prop :=
  exists g, g ∈ fs /\ f_id g ∈ R /\ h = take IP_HLEN (frag_bytes g) /\ (f_id f0 ∈ R -> g = f0).

Definition seen_last (R : gset nat) : bool := bool_decide (f_id fl ∈ R).

(** The entry of the datagram when the fragments in [R] are there. *)
Definition entry_of (R : gset nat) (h : list Z) : ip_reassdata :=
  ReassData (got R fs) h (if seen_last R then f_end fl else 0) (if seen_last R then IP_REASS_FLAG_LASTFRAG else 0) IP_REASS_MAXAGE.

Definition state_of (R : gset nat) (h : list Z) : reass :=
  Reass (entry_of R h :: reassdatagrams s0) (ip_reass_pbufcount s0 + clens (got R fs)) (live s0) (time_exceeded s0).

(** Nothing has come yet, or some fragments. *)
Definition progress (R : gset nat) (s : reass) : Prop := R = ∅ /\ s = s0 \/ exists h, header_ok R h /\ s = state_of R h.

Lemma same_frag f g : f ∈ fs -> g ∈ fs -> f_id f = f_id g -> f = g.
Proof.
  intros [i Hi]%list_elem_of_lookup [j Hj]%list_elem_of_lookup E. pose proof (fs_ids Hfs) as Hnd. rewrite NoDup_alt in Hnd.
  assert (i = j) as -> by (apply (Hnd i j (f_id f)); rewrite list_lookup_fmap; [by rewrite Hi|by rewrite Hj, E]). congruence.
Qed.

Lemma start_first f : f ∈ fs -> f_start f = 0 -> f = f0.
Proof.
  intros [i Hi]%list_elem_of_lookup E. destruct i as [|i]; [by injection Hi as <-|]. pose proof (linked_ordered fs (fs_linked Hfs) fs_positive 0%nat (S i) f0 f eq_refl Hi ltac:(lia)) as H.
  destruct (fs_ok f0 ltac:(unfold fs; set_solver)) as (l & Hok & _). pose proof (fo_range _ _ _ Hok). pose proof (fs_zero Hfs). lia.
Qed.

(** The entry is found or made, and its header brought up to date. *)
Lemma enter R s f : progress R s -> f ∈ fs -> f_id f ∉ R ->
  exists h, header_ok (R ∪ {[f_id f]}) h /\
    (match find_datagram (frag_bytes f) 0 (reassdatagrams s) with
     | None => let? (ok, s) := ip_reass_enqueue_new_datagram (frag_bytes f) (chain_clen (f_segs f)) s in Some (if ok then Some 0%nat else None, s)
     | Some i =>
         let? ipr := reassdatagrams s !! i in
         if (frag_offset (frag_bytes f) =? 0) && negb (frag_offset (rd_iphdr ipr) =? 0) then
           Some (Some i, set_datagrams (<[i := ReassData (rd_p ipr) (take IP_HLEN (frag_bytes f)) (rd_datagram_len ipr) (rd_flags ipr) (rd_timer ipr)]> (reassdatagrams s)) s)
         else Some (Some i, s)
     end) = Some (Some 0%nat, state_of R h).
Proof.
  intros Hp Hf HR. destruct (fs_ok f Hf) as (last & Hok & _). destruct Hp as [[-> ->]|(h & (g & Hg & HgR & -> & Hg0) & ->)].
  - rewrite find_datagram_none; [|eapply Forall_impl; [apply Hroom|]; cbn; intros r Hr Hk; apply Hr; eapply key_trans; [exact Hk|apply key_sym, Hok]].
    unfold ip_reass_enqueue_new_datagram. rewrite bool_decide_eq_false_2 by (pose proof (rm_datagrams Hroom); lia). cbn [mbind option_bind].
    exists (take IP_HLEN (frag_bytes f)). split.
    + exists f. split; [done|]. split; [set_solver|]. split; [done|]. intros Hin. apply same_frag; [done|by unfold fs; set_solver|set_solver].
    + unfold state_of, entry_of, seen_last. rewrite bool_decide_eq_false_2 by set_solver. rewrite got_empty. unfold set_datagrams. cbn. by rewrite Z.add_0_r.
  - assert (Hm : IP_ADDRESSES_AND_ID_MATCH (take IP_HLEN (frag_bytes g)) (frag_bytes f) = true).
    { apply match_key. destruct (fs_ok g Hg) as (? & Hgok & _). eapply key_trans; [apply key_take|]. eapply key_trans; [apply key_sym, Hgok|apply Hok]. }
    cbn [reassdatagrams state_of find_datagram entry_of rd_iphdr]. rewrite Hm. cbn [lookup list_lookup mbind option_bind rd_iphdr].
    assert (Eo : frag_offset (take IP_HLEN (frag_bytes g)) = frag_offset (frag_bytes g)) by (unfold frag_offset, IPH_OFFSET; by rewrite field_take by (unfold IP_HLEN; lia)).
    change (rd_iphdr (entry_of R (take IP_HLEN (frag_bytes g)))) with (take IP_HLEN (frag_bytes g)). rewrite Eo.
    destruct (fs_ok g Hg) as (lg & Hgok & _). destruct (decide (f = f0)) as [Ef|Hne].
    + exists (take IP_HLEN (frag_bytes f)). split; [exists f; split; [done|]; split; [set_solver|]; split; [done|]; by intros _|].
      assert (E1 : frag_offset (frag_bytes f) = 0) by (apply (fo_zero _ _ _ Hok); rewrite Ef; apply Hfs).
      assert (E2 : frag_offset (frag_bytes g) <> 0) by (intros E; apply (fo_zero _ _ _ Hgok) in E; apply (start_first g Hg) in E; congruence).
      apply Z.eqb_neq in E2. rewrite E1, E2. done.
    + exists (take IP_HLEN (frag_bytes g)). split.
      * exists g. split; [done|]. split; [set_solver|]. split; [done|]. intros H. apply Hg0. apply elem_of_union in H as [H|H%elem_of_singleton]; [done|].
        destruct Hne. apply same_frag; [done|unfold fs; set_solver|done].
      * assert (E1 : frag_offset (frag_bytes f) <> 0) by (intros E; apply Hne, (start_first f Hf), (fo_zero _ _ _ Hok), E). apply Z.eqb_neq in E1. by rewrite E1.
Qed.

Lemma fl_in : fl ∈ fs.
Proof. unfold fs. set_solver. Qed.

Lemma seen_last_add R f : f ∈ fs -> seen_last (R ∪ {[f_id f]}) = bool_decide (f = fl) || seen_last R.
Proof.
  intros Hf. unfold seen_last. destruct (decide (f = fl)) as [->|Hne].
  - rewrite (bool_decide_eq_true_2 (fl = fl)) by done. apply bool_decide_eq_true_2. set_solver.
  - rewrite (bool_decide_eq_false_2 (f = fl)) by done. apply bool_decide_ext. rewrite elem_of_union, elem_of_singleton. split; [|by left].
    intros [H|E]; [done|]. destruct Hne. symmetry. apply same_frag; [apply fl_in|done|done].
Qed.

(** Whether the datagram is complete. *)
Definition complete (l : list frag) : bool := match l with [] => false | f :: _ => linked l && (f_start f =? 0) end.

Lemma complete_iff R : f_id fl ∈ R -> complete (got R fs) = true <-> got R fs = fs.
Proof.
  intros Hl. split; [|intros ->; unfold complete; cbn [fs]; apply andb_true_iff; split; [apply Hfs|apply Z.eqb_eq, Hfs]].
  intros Hc. unfold fs in *. rewrite app_comm_cons in *. apply got_complete; try done.
  - rewrite <- app_comm_cons. apply fs_positive.
  - rewrite <- app_comm_cons. apply Hfs.
  - intros x [= <-]. apply Hfs.
  - destruct (got R _) as [|g l]; [done|]. by apply andb_true_iff in Hc as [Hc _].
  - intros x Hx. destruct (got R _) as [|g l]; [done|]. injection Hx as <-. apply andb_true_iff in Hc as [_ Hc]. by apply Z.eqb_eq.
Qed.

(** The fragment is put into the entry. *)
Lemma chain_entry R h f last : frag_ok key last f -> f ∈ fs -> f_id f ∉ R ->
  ip_reass_chain_frag_into_datagram_and_validate 0 (f_id f) (f_segs f) last (state_of R h) =
  Some (if (last || seen_last R) && complete (got (R ∪ {[f_id f]}) fs) then IP_REASS_VALIDATE_TELEGRAM_FINISHED else IP_REASS_VALIDATE_PBUF_QUEUED,
    set_datagrams (ReassData (got (R ∪ {[f_id f]}) fs) h (rd_datagram_len (entry_of R h)) (rd_flags (entry_of R h)) IP_REASS_MAXAGE :: reassdatagrams s0) (state_of R h)).
Proof.
  intros Hok Hf HR. unfold ip_reass_chain_frag_into_datagram_and_validate. fold (frag_bytes f) (frag_offset (frag_bytes f)). rewrite (fo_start _ _ _ Hok), (fo_len _ _ _ Hok).
  pose proof (fo_range _ _ _ Hok) as Hr. pose proof (fo_end _ _ _ Hok) as He. unfold f_len. replace (f_start f + (f_end f - f_start f)) with (f_end f) by lia. rewrite u16_small by lia.
  replace (Frag (f_id f) (f_start f) (f_end f) (f_segs f)) with f by (by destruct f). cbn [reassdatagrams state_of lookup list_lookup mbind option_bind].
  apply list_elem_of_split in Hf as (l1 & l2 & Efs). cbn [rd_p entry_of].
  destruct (chain_place R l1 f l2) as (_ & E2 & E3); [rewrite <- Efs; apply fs_positive|rewrite <- Efs; apply linked_ordered; [apply Hfs|apply fs_positive]|rewrite <- Efs; apply Hfs|done|].
  rewrite <- Efs in E2, E3. rewrite E3. rewrite <- E2. cbv zeta.
  assert (Efl : negb (Z.land (rd_flags (entry_of R h)) IP_REASS_FLAG_LASTFRAG =? 0) = seen_last R) by (unfold entry_of; cbn [rd_flags]; by destruct (seen_last R)).
  rewrite Efl. change (rd_iphdr (entry_of R h)) with h. change (rd_timer (entry_of R h)) with IP_REASS_MAXAGE. cbn [insert list_insert set_datagrams reassdatagrams state_of].
  destruct (last || seen_last R) eqn:Els; [|done]. cbn [andb].
  assert (Ecomp : exists x, head (got (R ∪ {[f_id f]}) fs) = Some x /\ linked (got R l1 ++ [f]) && (f_start x =? 0) && no_holes_after f (got R l2) = complete (got (R ∪ {[f_id f]}) fs)).
  { rewrite E2. assert (Hc : forall a b c : bool, a && b && c = a && c && b) by (by intros [] [] []).
    destruct (got R l1) as [|x l]; [exists f|exists x]; (split; [done|]); rewrite Hc, <- linked_app; done. }
  destruct Ecomp as (x & Ehd & Ecomp). rewrite Ehd. cbn [mbind option_bind]. rewrite Ecomp. destruct (complete _) eqn:Ec; [|done].
  rewrite bool_decide_eq_false_2; [done|]. intros Elen.
  assert (Hl : f_id fl ∈ R ∪ {[f_id f]}).
  { apply orb_true_iff in Els as [El|El]; [|unfold seen_last in El; apply bool_decide_eq_true in El; set_solver]. destruct (fs_ok f) as (last' & Hok' & Hl'); [rewrite Efs; set_solver|].
    assert (f = fl) as -> by (apply Hl'; rewrite <- (fo_last _ _ _ Hok'), (fo_last _ _ _ Hok); done). set_solver. }
  apply (complete_iff _ Hl) in Ec. rewrite Ec in Elen. unfold fs in Elen. cbn in Elen. rewrite length_app in Elen. cbn in Elen. lia.
Qed.

(** The datagram. *)
Definition whole : datagram :=
  Datagram (map f_id fs) (show_header (whole_header (f_end fl) (take IP_HLEN (frag_bytes f0))) (f_segs f0) ++ concat (map (fun f => hide_header (f_segs f)) (tail fs))).

Lemma bytes_set_field off v h : bytes v -> bytes h -> bytes (set_field off v h).
Proof. intros Hv Hh. unfold set_field. rewrite !Forall_app. split; [by apply Forall_take|]. split; [done|by apply Forall_drop]. Qed.

Lemma length_set_field off v h : (off + length v <= length h)%nat -> length (set_field off v h) = length h.
Proof. intros H. unfold set_field. rewrite !length_app, length_take, length_drop. lia. Qed.

Lemma length_whole : Z.of_nat (length (d_segs whole)) = clens fs.
Proof.
  unfold whole. cbn [d_segs tail fs clens]. rewrite length_app. assert (E1 : forall h, Z.of_nat (length (show_header h (f_segs f0))) = frag_clen f0).
  { intros h. unfold frag_clen. destruct (fs_header Hfs) as [_ Hl]. unfold frag_bytes in Hl. destruct (f_segs f0); [unfold IP_HLEN in Hl; cbn in Hl; lia|done]. }
  rewrite Nat2Z.inj_add, E1. f_equal. clear. induction (fi ++ [fl]) as [|f l IH]; [done|]. cbn [map concat clens]. rewrite length_app, Nat2Z.inj_add, IH. f_equal. unfold frag_clen. by destruct (f_segs f).
Qed.

Lemma finish R h : header_ok R h -> got R fs = fs -> reass_finish 0 (state_of R h) = Some (whole, s0).
Proof.
  intros (g & Hg & HgR & -> & Hg0) Eall. assert (Hin : forall x, x ∈ fs -> f_id x ∈ R).
  { intros x Hx. rewrite <- Eall in Hx. unfold got in Hx. by apply list_elem_of_filter in Hx as [Hx _]. }
  assert (g = f0) as -> by (apply Hg0, Hin; unfold fs; set_solver).
  assert (Esl : seen_last R = true) by (apply bool_decide_eq_true_2, Hin, fl_in). unfold state_of, entry_of. rewrite Esl, Eall.
  unfold reass_finish. cbn [reassdatagrams lookup list_lookup mbind option_bind rd_p head fs rd_datagram_len rd_iphdr].
  destruct (fs_header Hfs) as [Hb Hl]. set (h1 := IPH_CHKSUM_SET 0 _).
  assert (Hh1 : bytes h1 /\ length h1 = IP_HLEN).
  { unfold h1, IPH_CHKSUM_SET, IPH_OFFSET_SET, IPH_LEN_SET. split; [repeat apply bytes_set_field; auto with words|].
    rewrite !length_set_field; rewrite ?length_set_field; rewrite ?length_set_field; rewrite ?length_le_bytes, ?length_take; unfold IP_HLEN in *; lia. }
  rewrite chksum_of_bytes; [|apply Hh1|rewrite (proj2 Hh1); unfold IP_HLEN; lia]. cbn [mbind option_bind].
  change (Datagram _ (show_header _ (f_segs f0) ++ _)) with whole. change (show_header _ (f_segs f0) ++ _) with (d_segs whole). f_equal. f_equal.
  unfold ip_reass_dequeue_datagram. cbn [reassdatagrams set_datagrams delete list_delete ip_reass_pbufcount live time_exceeded].
  pose proof length_whole as Elen. pose proof (rm_count Hroom). pose proof (rm_pbufs Hroom). unfold IP_REASS_MAX_PBUFS in *.
  rewrite clen_small by (rewrite Elen; lia). rewrite Elen. unfold set_count, set_datagrams. cbn [reassdatagrams live time_exceeded].
  replace (ip_reass_pbufcount s0 + _ - clens fs) with (ip_reass_pbufcount s0) by (unfold fs; lia).
  rewrite u16_small by (pose proof (clens_got ∅ fs); lia). by destruct s0.
Qed.

Lemma reass_step R s f : progress R s -> f ∈ fs -> f_id f ∉ R ->
  exists h, header_ok (R ∪ {[f_id f]}) h /\ ip4_reass (f_id f) (f_segs f) s =
    if bool_decide (got (R ∪ {[f_id f]}) fs = fs) then Some (Some whole, s0) else Some (None, state_of (R ∪ {[f_id f]}) h).
Proof.
  intros Hp Hf HR. destruct (fs_ok f Hf) as (last & Hok & Hlast). destruct (enter R s f Hp Hf HR) as (h & Hh & Eenter). exists h. split; [done|].
  unfold ip4_reass. fold (frag_bytes f). rewrite (fo_hl _ _ _ Hok). change (negb (20 =? Z.of_nat IP_HLEN)) with false. cbv iota.
  pose proof (rm_count Hroom) as Hc0. pose proof (rm_pbufs Hroom) as Hpb. unfold IP_REASS_MAX_PBUFS in *.
  assert (Ecl : clens (got (R ∪ {[f_id f]}) fs) = clens (got R fs) + frag_clen f).
  { apply list_elem_of_split in Hf as (l1 & l2 & Efs). destruct (chain_place R l1 f l2) as (E1 & E2 & _); [rewrite <- Efs; apply fs_positive|rewrite <- Efs; apply linked_ordered; [apply Hfs|apply fs_positive]|rewrite <- Efs; apply Hfs|done|].
    rewrite Efs, E1, E2, !clens_app. cbn [clens]. lia. }
  pose proof (clens_got (R ∪ {[f_id f]}) fs) as Hcl. pose proof (clens_got R fs) as Hcl0. assert (Hfc : 0 <= frag_clen f) by (unfold frag_clen; lia).
  assert (Hcl1 : chain_clen (f_segs f) = frag_clen f) by (apply clen_small; unfold frag_clen in *; lia).
  assert (Hcnt : ip_reass_pbufcount s = ip_reass_pbufcount s0 + clens (got R fs)) by (destruct Hp as [[-> ->]|(h' & _ & ->)]; [rewrite got_empty; cbn; lia|done]).
  rewrite Hcl1, Hcnt. destruct (Z.ltb_spec 10 (ip_reass_pbufcount s0 + clens (got R fs) + frag_clen f)) as [|_]; [lia|]. cbn [mbind option_bind].
  rewrite Hcl1 in Eenter. unfold frag_offset in Eenter. rewrite Eenter. fold (frag_offset (frag_bytes f)). cbn [mbind option_bind].
  rewrite (fo_last _ _ _ Hok), (fo_start _ _ _ Hok). rewrite <- (fo_hl _ _ _ Hok), (fo_len _ _ _ Hok). pose proof (fo_range _ _ _ Hok) as Hr. pose proof (fo_end _ _ _ Hok) as He.
  unfold f_len. replace (f_start f + (f_end f - f_start f)) with (f_end f) by lia. rewrite (u16_small (f_end f)) by lia.
  destruct (Z.ltb_spec (f_end f) (f_start f)) as [|_]; [lia|]. destruct (Z.ltb_spec (0xffff - Z.of_nat IP_HLEN) (f_end f)) as [H|_]; [unfold IP_HLEN in H; lia|]. rewrite andb_false_r.
  rewrite (chain_entry R h f last Hok Hf HR). cbn [mbind option_bind].
  assert (Esl : last || seen_last R = seen_last (R ∪ {[f_id f]})).
  { rewrite (seen_last_add R f Hf). f_equal. destruct last; symmetry; [apply bool_decide_eq_true_2; by apply Hlast|apply bool_decide_eq_false_2; intros E; by apply Hlast in E]. }
  rewrite Esl.
  assert (Ecomp : seen_last (R ∪ {[f_id f]}) && complete (got (R ∪ {[f_id f]}) fs) = bool_decide (got (R ∪ {[f_id f]}) fs = fs)).
  { destruct (seen_last (R ∪ {[f_id f]})) eqn:E; cbn [andb].
    - apply bool_decide_eq_true in E. destruct (complete _) eqn:Ec; symmetry; [by apply bool_decide_eq_true_2, complete_iff|apply bool_decide_eq_false_2; intros Ex; apply complete_iff in Ex; [congruence|done]].
    - symmetry. apply bool_decide_eq_false_2. intros Ex. apply bool_decide_eq_false in E. apply E. pose proof fl_in as Hin. rewrite <- Ex in Hin. unfold got in Hin. by apply list_elem_of_filter in Hin as [Hin _]. }
  rewrite Ecomp.
  assert (Est : forall s1, s1 = (let s1 := set_count (ip_reass_pbufcount s0 + clens (got R fs) + frag_clen f) (set_datagrams (ReassData (got (R ∪ {[f_id f]}) fs) h (rd_datagram_len (entry_of R h)) (rd_flags (entry_of R h)) IP_REASS_MAXAGE :: reassdatagrams s0) (state_of R h)) in
      if last then set_datagrams (ReassData (got (R ∪ {[f_id f]}) fs) h (f_end f) (Z.lor (rd_flags (entry_of R h)) IP_REASS_FLAG_LASTFRAG) IP_REASS_MAXAGE :: reassdatagrams s0) s1 else s1) -> s1 = state_of (R ∪ {[f_id f]}) h).
  { intros s1 ->. assert (Eu : u16 (ip_reass_pbufcount s0 + clens (got R fs) + frag_clen f) = ip_reass_pbufcount s0 + clens (got (R ∪ {[f_id f]}) fs)) by (rewrite u16_small; lia).
    unfold set_count, set_datagrams, state_of, entry_of. cbn [reassdatagrams ip_reass_pbufcount live time_exceeded rd_datagram_len rd_flags]. rewrite <- Esl, Eu. destruct last; cbn [orb]; [|done].
    rewrite (proj1 Hlast eq_refl). by destruct (seen_last R). }
  set (v := if bool_decide _ then _ else _).
  assert (Ev : forall (A : Type) (a b : A), match v with IP_REASS_VALIDATE_PBUF_DROPPED => a | _ => b end = b) by (intros; unfold v; by destruct (bool_decide _)). rewrite Ev.
  cbn [reassdatagrams set_count set_datagrams state_of lookup list_lookup mbind option_bind rd_p rd_iphdr rd_timer rd_flags insert list_insert ip_reass_pbufcount].
  set (s1 := if last then _ else _). rewrite (Est s1 eq_refl). unfold v. case_bool_decide as Eall; [|done]. by rewrite (finish _ _ Hh Eall).
Qed.

Lemma got_all R : got R fs = fs <-> forall x, x ∈ fs -> f_id x ∈ R.
Proof.
  split; [intros E x Hx; rewrite <- E in Hx; unfold got in Hx; by apply list_elem_of_filter in Hx as [Hx _]|]. generalize fs as l.
  induction l as [|f l IH]; intros H; [done|]. unfold got in *. rewrite filter_cons. destruct (decide (f_id f ∈ R)) as [_|Hn]; [|destruct Hn; apply H; set_solver]. f_equal. apply IH. set_solver.
Qed.

(** Those that are missing come, in any order. *)
Lemma progress_all l : forall R s, progress R s -> NoDup l -> (forall x, x ∈ l <-> x ∈ fs /\ f_id x ∉ R) -> l <> [] ->
  reass_all l s = Some (replicate (length l - 1) None ++ [Some whole], s0).
Proof.
  induction l as [|f l IH]; intros R s Hp Hnd Hl Hne; [done|]. apply NoDup_cons in Hnd as [Hfl Hnd]. destruct (proj1 (Hl f) ltac:(set_solver)) as [Hf HR].
  destruct (reass_step R s f Hp Hf HR) as (h & Hh & E). cbn [reass_all]. rewrite E.
  assert (Hl' : forall x, x ∈ l <-> x ∈ fs /\ f_id x ∉ R ∪ {[f_id f]}).
  { intros x. split.
    - intros Hx. destruct (proj1 (Hl x) ltac:(set_solver)) as [H1 H2]. split; [done|]. rewrite not_elem_of_union, not_elem_of_singleton. split; [done|]. intros Ex. apply Hfl.
      by rewrite <- (same_frag x f H1 Hf Ex).
    - intros [H1 H2]. rewrite not_elem_of_union, not_elem_of_singleton in H2. destruct H2 as [H2 H3]. assert (Hx : x ∈ f :: l) by (by apply Hl). by apply elem_of_cons in Hx as [->|Hx]. }
  destruct l as [|g l].
  - rewrite bool_decide_eq_true_2; [done|]. apply got_all. intros x Hx. destruct (decide (f_id x ∈ R ∪ {[f_id f]})); [done|]. exfalso. apply (not_elem_of_nil x), Hl'. done.
  - rewrite bool_decide_eq_false_2; [|intros Ex; destruct (proj1 (Hl' g) ltac:(set_solver)) as [H1 H2]; apply H2, (proj1 (got_all _) Ex), H1].
    cbn [mbind option_bind]. rewrite (IH (R ∪ {[f_id f]}) (state_of (R ∪ {[f_id f]}) h)); try done; [|right; by exists h]. cbn [mbind option_bind length Nat.sub replicate app]. by rewrite Nat.sub_0_r.
Qed.

(** The fragments in any order. *)
Lemma reass_any_order l : l ≡ₚ fs -> reass_all l s0 = Some (replicate (length l - 1) None ++ [Some whole], s0).
Proof.
  intros Hl. apply (progress_all l ∅); [by left| | |].
  - rewrite Hl. eapply NoDup_fmap_1. apply (fs_ids Hfs).
  - intros x. rewrite Hl. set_solver.
  - intros ->. apply Permutation_nil_l in Hl. done.
Qed.
End datagram.

(** ** The timer *)

Definition ids_of (l : list ip_reassdata) : list nat := concat (map (fun r => map f_id (rd_p r)) l).
Fixpoint all_clens (l : list ip_reassdata) : Z := match l with [] => 0 | r :: l => clens (rd_p r) + all_clens l end.

(** Every datagram in the list has a fragment, and the pbufs that are counted are theirs. *)
Record reass_ok (s : reass) : Prop := {
  ro_entries : Forall (fun r => rd_p r <> [] /\ 0 <= rd_timer r <= IP_REASS_MAXAGE) (reassdatagrams s);
  ro_ids : NoDup (ids_of (reassdatagrams s));
  ro_live : list_to_set (ids_of (reassdatagrams s)) ⊆ live s;
  ro_count : ip_reass_pbufcount s = all_clens (reassdatagrams s);
  ro_bound : ip_reass_pbufcount s < 65536
}.

Lemma clens_nonneg l : 0 <= clens l.
Proof. induction l as [|f l IH]; cbn [clens]; unfold frag_clen; lia. Qed.

Lemma all_clens_app l1 l2 : all_clens (l1 ++ l2) = all_clens l1 + all_clens l2.
Proof. induction l1 as [|r l IH]; cbn [app all_clens]; lia. Qed.

Lemma all_clens_nonneg l : 0 <= all_clens l.
Proof. induction l as [|r l IH]; cbn [all_clens]; [lia|]. pose proof (clens_nonneg (rd_p r)). lia. Qed.

Lemma ids_app l1 l2 : ids_of (l1 ++ l2) = ids_of l1 ++ ids_of l2.
Proof. unfold ids_of. by rewrite map_app, concat_app. Qed.

Lemma free_frags_ok l : forall freed s, NoDup (map f_id l) -> list_to_set (map f_id l) ⊆ live s -> 0 <= freed -> freed + clens l < 65536 ->
  free_frags l freed s = Some (freed + clens l, Reass (reassdatagrams s) (ip_reass_pbufcount s) (live s ∖ list_to_set (map f_id l)) (time_exceeded s)).
Proof.
  induction l as [|f l IH]; intros freed s Hnd Hl Hf Hb; cbn [free_frags map clens list_to_set] in *.
  - rewrite Z.add_0_r. destruct s. cbn. do 3 f_equal. set_solver.
  - apply NoDup_cons in Hnd as [Hn Hnd]. pose proof (clens_nonneg l). assert (Hfc : 0 <= frag_clen f) by (unfold frag_clen; lia).
    assert (Ec : chain_clen (f_segs f) = frag_clen f) by (unfold chain_clen, frag_clen in *; apply u16_small; lia). rewrite Ec. destruct (Z.leb_spec (freed + frag_clen f) 65535); [|lia].
    unfold free_chain. destruct (decide (f_id f ∈ live s)); [|set_solver]. cbn [mbind option_bind]. rewrite IH; [|done| |lia|lia].
    + cbn [reassdatagrams ip_reass_pbufcount live time_exceeded]. rewrite Z.add_assoc. do 3 f_equal. set_solver.
    + cbn [live]. intros x Hx. apply elem_of_difference. split; [set_solver|]. apply not_elem_of_singleton. intros ->. apply Hn. by rewrite elem_of_list_to_set in Hx.
Qed.

Definition tick (r : ip_reassdata) : ip_reassdata := ReassData (rd_p r) (rd_iphdr r) (rd_datagram_len r) (rd_flags r) (rd_timer r - 1).

Lemma free_complete_ok s pre r post : reass_ok s -> reassdatagrams s = pre ++ r :: post ->
  exists s', ip_reass_free_complete_datagram (length pre) s = Some (clens (rd_p r), s') /\ reass_ok s' /\ reassdatagrams s' = pre ++ post /\ live s' = live s ∖ list_to_set (map f_id (rd_p r)).
Proof.
  intros [H1 H2 H3 H4 H5] E. rewrite E in *. apply Forall_app in H1 as [Hp1 [[Hr Ht] Hp2]%Forall_cons]. rewrite ids_app in H2, H3. change (ids_of (r :: post)) with (map f_id (rd_p r) ++ ids_of post) in H2, H3.
  apply NoDup_app in H2 as (Hn1 & Hn12 & Hn2). apply NoDup_app in Hn2 as (Hnr & Hnr2 & Hn2). rewrite all_clens_app in H4. cbn [all_clens] in H4.
  pose proof (clens_nonneg (rd_p r)). pose proof (all_clens_nonneg pre). pose proof (all_clens_nonneg post).
  unfold ip_reass_free_complete_datagram. rewrite E, list_lookup_middle by done. cbn [mbind option_bind]. destruct (rd_p r) as [|f l] eqn:Ep; [done|]. cbn [head mbind option_bind]. rewrite <- Ep in *.
  set (s1 := if f_start f =? 0 then _ else s). assert (Es1 : reassdatagrams s1 = pre ++ r :: post /\ ip_reass_pbufcount s1 = ip_reass_pbufcount s /\ live s1 = live s) by (unfold s1; by destruct (f_start f =? 0)).
  destruct Es1 as (A1 & A2 & A3). rewrite free_frags_ok; [|done|rewrite A3; set_solver|lia|lia]. rewrite Z.add_0_l. cbn [mbind option_bind]. unfold ip_reass_dequeue_datagram. cbn [reassdatagrams set_datagrams ip_reass_pbufcount].
  rewrite A1, A2, A3. rewrite delete_middle. destruct (Z.leb_spec (clens (rd_p r)) (ip_reass_pbufcount s)); [|lia]. eexists. split; [done|]. split; [|done].
  split; unfold set_count, set_datagrams; cbn [reassdatagrams live ip_reass_pbufcount].
  - by apply Forall_app.
  - rewrite ids_app. apply NoDup_app. split; [done|]. split; [|done]. intros x Hx Hx2. apply (Hn12 x Hx). apply elem_of_app. by right.
  - rewrite ids_app. intros x Hx. apply elem_of_list_to_set in Hx. apply elem_of_difference. split; [set_solver|]. rewrite elem_of_list_to_set. intros Hxr.
    apply elem_of_app in Hx as [Hx|Hx]; [apply (Hn12 x Hx), elem_of_app; by left|by apply (Hnr2 x Hxr)].
  - rewrite all_clens_app. rewrite u16_small by lia. lia.
  - rewrite u16_small by lia. lia.
Qed.

(** The loop: those that have time left lose a tick, the others are freed. *)
Lemma reass_tmr_loop_ok post : forall fuel pre s, reass_ok s -> reassdatagrams s = pre ++ post -> (length post <= fuel)%nat ->
  exists s', reass_tmr_loop fuel (length pre) s = Some s' /\ reass_ok s' /\ reassdatagrams s' = pre ++ map tick (filter (fun r => 0 < rd_timer r) post) /\
    live s' ∖ list_to_set (ids_of (reassdatagrams s')) = live s ∖ list_to_set (ids_of (reassdatagrams s)).
Proof.
  induction post as [|r post IH]; intros fuel pre s Hs E Hf.
  { exists s. split; [|done]. assert (En : reassdatagrams s !! length pre = None) by (rewrite E, app_nil_r; by apply lookup_ge_None_2). by destruct fuel; cbn [reass_tmr_loop]; rewrite En. }
  cbn in Hf. destruct fuel as [|fuel]; [lia|]. cbn [reass_tmr_loop].
  assert (Elk : reassdatagrams s !! length pre = Some r) by (rewrite E; by apply list_lookup_middle). rewrite Elk, filter_cons.
  destruct (Z.ltb_spec 0 (rd_timer r)) as [Ht|Ht], (decide (0 < rd_timer r)) as [Hd|Hd]; try lia.
  - set (s1 := set_datagrams _ s). assert (E1 : reassdatagrams s1 = (pre ++ [tick r]) ++ post) by (unfold s1; cbn [set_datagrams reassdatagrams]; rewrite E; pose proof (insert_app_r pre (r :: post) 0 (tick r)) as Ei; rewrite Nat.add_0_r in Ei; unfold tick in Ei; rewrite Ei; by rewrite <- app_assoc).
    assert (Eids : ids_of (reassdatagrams s1) = ids_of (reassdatagrams s)) by (rewrite E1, E, !ids_app, <- app_assoc; f_equal; change (ids_of [tick r]) with (map f_id (rd_p r) ++ []); by rewrite app_nil_r).
    assert (Ecl : all_clens (reassdatagrams s1) = all_clens (reassdatagrams s)) by (rewrite E1, E, !all_clens_app; cbn [all_clens tick rd_p]; lia).
    assert (Hs1 : reass_ok s1).
    { destruct Hs as [H1 H2 H3 H4 H5]. split; rewrite ?Eids, ?Ecl; try done. rewrite E1. rewrite E in H1. apply Forall_app in H1 as [Hp1 [[Hr Htr] Hp2]%Forall_cons]. apply Forall_app. split; [|done]. apply Forall_app. split; [done|].
      constructor; [|done]. split; [done|]. cbn [tick rd_timer]. lia. }
    destruct (IH fuel (pre ++ [tick r]) s1 Hs1 E1 ltac:(lia)) as (s' & E' & Hs' & Ed & El). rewrite length_app, Nat.add_1_r in E'. exists s'. split; [exact E'|]. split; [done|]. split; [rewrite Ed; cbn [map]; by rewrite <- app_assoc|].
    rewrite El, Eids. done.
  - destruct (free_complete_ok s pre r post Hs E) as (s1 & -> & Hs1 & E1 & El1). cbn [mbind option_bind]. destruct (IH fuel pre s1 Hs1 E1 ltac:(lia)) as (s' & E' & Hs' & Ed & El). exists s'. split; [done|]. split; [done|]. split; [done|].
    rewrite El, E1, El1, E, !ids_app. change (ids_of (r :: post)) with (map f_id (rd_p r) ++ ids_of post). rewrite !list_to_set_app_L. set_solver.
Qed.

Lemma reass_tmr_ok s : reass_ok s -> exists s', ip_reass_tmr s = Some s' /\ reass_ok s' /\ reassdatagrams s' = map tick (filter (fun r => 0 < rd_timer r) (reassdatagrams s)) /\
  live s' ∖ list_to_set (ids_of (reassdatagrams s')) = live s ∖ list_to_set (ids_of (reassdatagrams s)).
Proof. intros Hs. apply (reass_tmr_loop_ok (reassdatagrams s) _ [] s Hs eq_refl). done. Qed.

(** [k] runs of the timer. *)
Fixpoint reass_ticks (k : nat) (s : reass) : option reass :=
  match k with
  | O => Some s
  | S k => let? s := ip_reass_tmr s in reass_ticks k s
  end.

Lemma ticks_ok k : forall s b, reass_ok s -> Forall (fun r => rd_timer r <= b) (reassdatagrams s) ->
  exists s', reass_ticks k s = Some s' /\ reass_ok s' /\ Forall (fun r => rd_timer r <= b - Z.of_nat k) (reassdatagrams s') /\
    live s' ∖ list_to_set (ids_of (reassdatagrams s')) = live s ∖ list_to_set (ids_of (reassdatagrams s)).
Proof.
  induction k as [|k IH]; intros s b Hs Hb.
  - exists s. split; [done|]. split; [done|]. split; [|done]. eapply Forall_impl; [exact Hb|]. cbn. lia.
  - destruct (reass_tmr_ok s Hs) as (s1 & E1 & Hs1 & Ed & El1). cbn [reass_ticks]. rewrite E1. cbn [mbind option_bind].
    destruct (IH s1 (b - 1) Hs1) as (s' & E' & Hs' & Ht & El'); [|exists s'; split; [done|]; split; [done|]; split; [eapply Forall_impl; [exact Ht|]; cbn; lia|congruence]].
    rewrite Ed. apply Forall_map, Forall_forall. intros r Hr. apply list_elem_of_filter in Hr as [_ Hr]. rewrite Forall_forall in Hb. specialize (Hb r Hr). cbn. lia.
Qed.

(** ** Histories *)

(** A last fragment that ends beyond the largest datagram. *)
Definition oversized (segs : list (list Z)) : bool :=
  let fraghdr := concat segs in
  let offset := u16 (Z.land (lwip_htons (IPH_OFFSET fraghdr)) IP_OFFMASK * 8) in
  let datagram_len := u16 (offset + u16 (lwip_htons (IPH_LEN fraghdr) - IPH_HL fraghdr * 4)) in
  (Z.land (IPH_OFFSET fraghdr) (PP_HTONS IP_MF) =? 0) && ((datagram_len <? offset) || (0xffff - Z.of_nat IP_HLEN <? datagram_len)).

Definition arrive (id : nat) (s : reass) : reass := Reass (reassdatagrams s) (ip_reass_pbufcount s) ({[id]} ∪ live s) (time_exceeded s).

(** A packet comes in and is handed to the reassembly, the timer runs, or a chain that is not
    waiting is freed by the layer it was handed to. *)
Inductive reass_move : reass -> reass -> Prop :=
| rm_fragment id segs r s s' :
    id ∉ live s -> segs <> [] -> Z.of_nat (length segs) < 65536 -> oversized segs = false ->
    ip4_reass id segs (arrive id s) = Some (r, s') -> reass_move s s'
| rm_tick s s' : ip_reass_tmr s = Some s' -> reass_move s s'
| rm_free id s s' : id ∉ ids_of (reassdatagrams s) -> free_chain id s = Some s' -> reass_move s s'.

Definition reass_empty : reass := Reass [] 0 ∅ [].
Definition reass_reach (s : reass) : Prop := rtc reass_move reass_empty s.

Definition pbufs_ok (r : ip_reassdata) : Prop := Forall (fun f => f_segs f <> []) (rd_p r).

Record reass_inv (s : reass) : Prop := {
  ri_ok : reass_ok s;
  ri_segs : Forall pbufs_ok (reassdatagrams s)
}.

(** What is not waiting stays so, and stays live. *)
Definition keeps (s s' : reass) : Prop :=
  ip_reass_pbufcount s' <= ip_reass_pbufcount s /\ forall x, x ∉ ids_of (reassdatagrams s) -> x ∉ ids_of (reassdatagrams s') /\ (x ∈ live s -> x ∈ live s').

Lemma keeps_refl s : keeps s s.
Proof. split; [lia|]. by intros x. Qed.

Lemma keeps_trans s1 s2 s3 : keeps s1 s2 -> keeps s2 s3 -> keeps s1 s3.
Proof. intros [C1 H1] [C2 H2]. split; [lia|]. intros x Hx. destruct (H1 x Hx) as [H1a H1b], (H2 x) as [H2a H2b]; [done|]. auto. Qed.

Lemma free_complete_inv i s c s' : reass_inv s -> ip_reass_free_complete_datagram i s = Some (c, s') -> reass_inv s' /\ keeps s s'.
Proof.
  intros [Hok Hsg] E. destruct (reassdatagrams s !! i) as [r|] eqn:Hi; [|unfold ip_reass_free_complete_datagram in E; by rewrite Hi in E].
  pose proof (take_drop_middle _ _ _ Hi) as Em. pose proof (lookup_lt_Some _ _ _ Hi) as Hlt. symmetry in Em.
  destruct (free_complete_ok s _ r _ Hok Em) as (s1 & E1 & Hok1 & Ed & El). rewrite length_take, Nat.min_l in E1 by lia. rewrite E in E1. injection E1 as -> <-.
  rewrite Em in Hsg. apply Forall_app in Hsg as [Hs1 [_ Hs2]%Forall_cons]. split; [split; [done|]; rewrite Ed; by apply Forall_app|].
  split.
  { rewrite (ro_count _ Hok), (ro_count _ Hok1), Em, Ed, !all_clens_app. cbn [all_clens]. pose proof (clens_nonneg (rd_p r)). lia. }
  intros x Hx. rewrite Em, ids_app in Hx. change (ids_of (r :: ?l)) with (map f_id (rd_p r) ++ ids_of l) in Hx. rewrite Ed, ids_app, El. set_solver.
Qed.

Lemma remove_loop_inv fuel : forall hdr need freed s c s', reass_inv s -> remove_loop fuel hdr need freed s = Some (c, s') -> reass_inv s' /\ keeps s s'.
Proof.
  induction fuel as [|fuel IH]; intros hdr need freed s c s' Hs E; cbn [remove_loop] in E; destruct (oldest_loop _ _ _ _ _) as [[[i t]|] other].
  1,3: destruct (ip_reass_free_complete_datagram i s) as [[k s1]|] eqn:Ef; [|done]; cbn [mbind option_bind] in E; destruct (free_complete_inv i s k s1 Hs Ef) as [H1 H2].
  3,4: cbn [mbind option_bind] in E.
  - destruct (_ && _); [done|]. by injection E as _ <-.
  - destruct (_ && _); [|by injection E as _ <-]. destruct (IH _ _ _ _ _ _ H1 E) as [H3 H4]. split; [done|by eapply keeps_trans].
  - destruct (_ && _); [done|]. injection E as _ <-. split; [done|]. apply keeps_refl.
  - destruct (_ && _); [|injection E as _ <-; split; [done|]; apply keeps_refl]. by apply (IH _ _ _ _ _ _ Hs E).
Qed.

(** The state while a fragment is put into the datagram [r], which may have none yet. *)
Record partial (s : reass) (pre : list ip_reassdata) (r : ip_reassdata) (post : list ip_reassdata) : Prop := {
  pt_list : reassdatagrams s = pre ++ r :: post;
  pt_rest : Forall (fun r => rd_p r <> [] /\ 0 <= rd_timer r <= IP_REASS_MAXAGE) (pre ++ post);
  pt_timer : 0 <= rd_timer r <= IP_REASS_MAXAGE;
  pt_segs : Forall pbufs_ok (pre ++ r :: post);
  pt_ids : NoDup (ids_of (pre ++ r :: post));
  pt_live : list_to_set (ids_of (pre ++ r :: post)) ⊆ live s;
  pt_count : ip_reass_pbufcount s = all_clens (pre ++ r :: post);
  pt_bound : ip_reass_pbufcount s < 65536
}.

Lemma inv_partial s i r : reass_inv s -> reassdatagrams s !! i = Some r -> exists pre post, partial s pre r post /\ length pre = i.
Proof.
  intros [[H1 H2 H3 H4 H5] H6] Hi. pose proof (take_drop_middle _ _ _ Hi) as Em. pose proof (lookup_lt_Some _ _ _ Hi) as Hlt. symmetry in Em.
  exists (take i (reassdatagrams s)), (drop (S i) (reassdatagrams s)). split; [|rewrite length_take; lia]. rewrite Em in H1. apply Forall_app in H1 as [Hp1 [[_ Ht] Hp2]%Forall_cons].
  split; rewrite <- ?Em; try done. by apply Forall_app.
Qed.

Lemma partial_inv s pre r post : partial s pre r post -> rd_p r <> [] -> reass_inv s.
Proof.
  intros [E H1 H2 H3 H4 H5 H6 H7] Hr. split; [|by rewrite E]. split; rewrite ?E; try done. apply Forall_app in H1 as [Hp1 Hp2]. apply Forall_app. split; [done|]. by constructor.
Qed.

Lemma insert_at_middle (pre post : list ip_reassdata) r r' : <[length pre := r']> (pre ++ r :: post) = pre ++ r' :: post.
Proof. pose proof (insert_app_r pre (r :: post) 0 r') as E. by rewrite Nat.add_0_r in E. Qed.

Lemma ids_middle pre r post : ids_of (pre ++ r :: post) = ids_of pre ++ map f_id (rd_p r) ++ ids_of post.
Proof. by rewrite ids_app. Qed.

(** The datagram is changed, with the same fragments. *)
Lemma partial_set s pre r post r' : partial s pre r post -> rd_p r' = rd_p r -> rd_timer r' = rd_timer r ->
  partial (set_datagrams (<[length pre := r']> (reassdatagrams s)) s) pre r' post.
Proof.
  intros [E H1 H2 H3 H4 H5 H6 H7] Ep Et. unfold set_datagrams. rewrite E, insert_at_middle. split; cbn [reassdatagrams live ip_reass_pbufcount]; rewrite ?ids_middle, ?all_clens_app in *; cbn [all_clens] in *; rewrite ?Ep, ?Et; try done.
  apply Forall_app in H3 as [Hp1 [Hr Hp2]%Forall_cons]. apply Forall_app. split; [done|]. constructor; [|done]. unfold pbufs_ok in *. by rewrite Ep.
Qed.

Lemma chain_loop_list n l : forall prev before valid b a v, chain_loop n prev before l valid = Chained b a v -> b ++ a = before ++ l.
Proof.
  induction l as [|t l IH]; intros prev before valid b a v E; cbn [chain_loop] in E.
  - destruct prev as [p|]; [destruct (_ <=? _); [|done]|]; by injection E as <- <- _.
  - destruct (f_start n <? f_start t).
    + destruct prev as [p|]; [destruct (_ || _); [done|]|destruct (_ <? _); [done|]]; by injection E as <- <- _.
    + destruct (_ =? _); [done|]. destruct (_ <? _); [done|]. apply IH in E. by rewrite E, <- app_assoc.
Qed.

(** A fragment comes to the datagram: it is dropped, and its chain is freed, or it waits with the
    others. *)
Lemma chain_partial s pre r post id segs is_last v s' : partial s pre r post ->
  ip_reass_chain_frag_into_datagram_and_validate (length pre) id segs is_last s = Some (v, s') ->
  (v = IP_REASS_VALIDATE_PBUF_DROPPED /\ id ∉ live s') \/
  (v <> IP_REASS_VALIDATE_PBUF_DROPPED /\ exists b a n, f_id n = id /\ f_segs n = segs /\ b ++ a = rd_p r /\
     s' = set_datagrams (pre ++ ReassData (b ++ n :: a) (rd_iphdr r) (rd_datagram_len r) (rd_flags r) (rd_timer r) :: post) s).
Proof.
  intros Hp E. unfold ip_reass_chain_frag_into_datagram_and_validate in E. pose proof (pt_list _ _ _ _ Hp) as El. rewrite El, list_lookup_middle in E by done. cbn [mbind option_bind] in E.
  set (n := Frag id _ _ segs) in *. destruct (chain_loop n None [] (rd_p r) true) as [| |b a ok] eqn:Ec; [|done|].
  - left. unfold free_chain in E. destruct (decide _); [|done]. injection E as <- <-. split; [done|]. cbn [live]. set_solver.
  - right. apply chain_loop_list in Ec. cbn [app] in Ec. rewrite insert_at_middle in E. set (s1 := set_datagrams _ s) in *.
    assert (Hend : v <> IP_REASS_VALIDATE_PBUF_DROPPED /\ s' = s1).
    { destruct (is_last || _); [|by injection E as <- <-]. destruct (head _) as [f|]; [|done]. cbn [mbind option_bind] in E. destruct (_ && _ && _); [|by injection E as <- <-].
      destruct (bool_decide _); [done|]. by injection E as <- <-. }
    destruct Hend as [Hv ->]. split; [done|]. by exists b, a, n.
Qed.

(** With the fragment counted. *)
Lemma partial_add s pre r post id segs b a n : partial s pre r post -> id ∈ live s -> id ∉ ids_of (pre ++ r :: post) -> segs <> [] ->
  f_id n = id -> f_segs n = segs -> b ++ a = rd_p r -> ip_reass_pbufcount s + Z.of_nat (length segs) < 65536 ->
  let r' := ReassData (b ++ n :: a) (rd_iphdr r) (rd_datagram_len r) (rd_flags r) (rd_timer r) in
  partial (set_count (ip_reass_pbufcount s + Z.of_nat (length segs)) (set_datagrams (pre ++ r' :: post) s)) pre r' post.
Proof.
  intros [E H1 H2 H3 H4 H5 H6 H7] Hid Hnot Hseg En1 En2 Eb Hc r'. pose proof (all_clens_nonneg (pre ++ r :: post)) as Hnn.
  assert (Hperm : ids_of (pre ++ r' :: post) ≡ₚ id :: ids_of (pre ++ r :: post)).
  { rewrite !ids_middle, <- Eb. cbn [r' rd_p]. rewrite !map_app. cbn [map]. rewrite En1. solve_Permutation. }
  unfold set_count, set_datagrams. split; cbn [reassdatagrams live ip_reass_pbufcount]; try done.
  - apply Forall_app in H3 as [Hp1 [Hr Hp2]%Forall_cons]. apply Forall_app. split; [done|]. constructor; [|done]. unfold pbufs_ok in *. rewrite <- Eb in Hr. cbn [r' rd_p].
    apply Forall_app in Hr as [Hb Ha]. apply Forall_app. split; [done|]. constructor; [by rewrite En2|done].
  - rewrite Hperm. by apply NoDup_cons.
  - rewrite Hperm. cbn [list_to_set]. set_solver.
  - rewrite u16_small by lia. rewrite H6, !all_clens_app. cbn [all_clens r' rd_p]. rewrite <- Eb, !clens_app. cbn [clens]. unfold frag_clen. rewrite En2. lia.
  - rewrite u16_small by lia. lia.
Qed.

(** The pbufs of a complete datagram are those of its fragments. *)
Lemma finish_count h f l : f_segs f <> [] ->
  Z.of_nat (length (show_header h (f_segs f) ++ concat (map (fun f => hide_header (f_segs f)) l))) = frag_clen f + clens l.
Proof.
  intros Hf. rewrite length_app, Nat2Z.inj_add. f_equal; [unfold frag_clen; by destruct (f_segs f)|]. clear. induction l as [|f l IH]; [done|].
  cbn [map concat clens]. rewrite length_app, Nat2Z.inj_add, IH. f_equal. unfold frag_clen. by destruct (f_segs f).
Qed.

Lemma finish_inv s pre r post d s' : partial s pre r post -> reass_finish (length pre) s = Some (d, s') -> reass_inv s'.
Proof.
  intros [E H1 H2 H3 H4 H5 H6 H7] Ef. unfold reass_finish in Ef. rewrite E, list_lookup_middle in Ef by done. cbn [mbind option_bind] in Ef.
  destruct (rd_p r) as [|f l] eqn:Er; [done|]. cbn [head tail mbind option_bind] in Ef. destruct (chksum_of _) as [c|]; [|done]. cbn [mbind option_bind] in Ef. injection Ef as _ <-.
  rewrite Forall_app, Forall_cons in H3. destruct H3 as (Hp1 & Hr & Hp2). unfold pbufs_ok in Hr. rewrite Er, Forall_cons in Hr. destruct Hr as [Hf Hl].
  assert (Hnd : NoDup (ids_of (pre ++ post)) /\ ids_of (pre ++ post) ⊆ ids_of (pre ++ r :: post)).
  { rewrite ids_middle, ids_app in *. split; [|set_solver]. apply NoDup_app in H4 as (N1 & N2 & N3). apply NoDup_app in N3 as (_ & _ & N3). apply NoDup_app. split; [done|]. split; [|done]. set_solver. }
  destruct Hnd as [Hnd Hsub]. rewrite all_clens_app in H6. cbn [all_clens] in H6. rewrite Er in H6. cbn [clens] in H6. pose proof (all_clens_nonneg pre). pose proof (all_clens_nonneg post). pose proof (clens_nonneg l).
  assert (Hfc : 0 <= frag_clen f) by (unfold frag_clen; lia).
  unfold chain_clen. rewrite (finish_count _ f l Hf), (u16_small (frag_clen f + clens l)) by lia. unfold ip_reass_dequeue_datagram, set_count, set_datagrams. cbn [reassdatagrams ip_reass_pbufcount live]. rewrite E, delete_middle.
  split; [split|]; cbn [reassdatagrams ip_reass_pbufcount live]; try done.
  - set_solver.
  - rewrite u16_small, all_clens_app by lia. lia.
  - rewrite u16_small by lia. lia.
  - by apply Forall_app.
Qed.

Lemma null_inv id s r s' : reass_inv s -> id ∉ ids_of (reassdatagrams s) -> (let? s := free_chain id s in Some (@None datagram, s)) = Some (r, s') -> reass_inv s'.
Proof.
  intros [[H1 H2 H3 H4 H5] H6] Hid E. unfold free_chain in E. destruct (decide _); [|done]. injection E as _ <-. split; [split|]; cbn [reassdatagrams live ip_reass_pbufcount]; try done. set_solver.
Qed.

(** The end of [ip4_reass], from where the fragment is put into its datagram. *)
Lemma place_inv s pre r post id segs is_last len flags res s' : partial s pre r post -> id ∈ live s -> id ∉ ids_of (pre ++ r :: post) -> segs <> [] ->
  Z.of_nat (length segs) < 65536 -> ip_reass_pbufcount s + Z.of_nat (length segs) < 65536 ->
  (let? (valid, s) := ip_reass_chain_frag_into_datagram_and_validate (length pre) id segs is_last s in
   match valid with
   | IP_REASS_VALIDATE_PBUF_DROPPED => let? s := free_chain id s in Some (None, s)
   | _ =>
       let s := set_count (ip_reass_pbufcount s + chain_clen segs) s in
       let? ipr := reassdatagrams s !! length pre in
       let s := if is_last then set_datagrams (<[length pre := ReassData (rd_p ipr) (rd_iphdr ipr) len (flags ipr) (rd_timer ipr)]> (reassdatagrams s)) s else s in
       match valid with
       | IP_REASS_VALIDATE_TELEGRAM_FINISHED => let? (d, s) := reass_finish (length pre) s in Some (Some d, s)
       | _ => Some (None, s)
       end
   end) = Some (res, s') -> reass_inv s'.
Proof.
  intros Hp Hid Hnot Hseg Hl Hc E. destruct (ip_reass_chain_frag_into_datagram_and_validate _ _ _ _ _) as [[v s1]|] eqn:Ec; [|done]. cbn [mbind option_bind] in E.
  destruct (chain_partial s pre r post id segs is_last v s1 Hp Ec) as [[-> Hd]|(Hv & b & a & n & En1 & En2 & Eb & Es1)].
  { unfold free_chain in E. by destruct (decide _). }
  pose proof (partial_add s pre r post id segs b a n Hp Hid Hnot Hseg En1 En2 Eb Hc) as Hadd. cbv zeta in Hadd. set (r' := ReassData _ _ _ _ _) in *.
  assert (Hcl : chain_clen segs = Z.of_nat (length segs)) by (unfold chain_clen; apply u16_small; lia). rewrite Hcl in E.
  replace (ip_reass_pbufcount s1) with (ip_reass_pbufcount s) in E by (by rewrite Es1). rewrite Es1 in E. set (s2 := set_count _ _) in *.
  assert (Hlk : reassdatagrams s2 !! length pre = Some r') by (rewrite (pt_list _ _ _ _ Hadd); by apply list_lookup_middle). rewrite Hlk in E. cbn [mbind option_bind] in E.
  set (s3 := if is_last then _ else s2) in *.
  assert (H3 : exists r3, partial s3 pre r3 post /\ rd_p r3 <> []).
  { unfold s3. destruct is_last; [|exists r'; split; [done|]; cbn; by destruct b]. eexists. split; [by apply (partial_set _ _ r')|]. cbn. by destruct b. }
  destruct H3 as (r3 & Hp3 & Hne3). destruct v; [done|by injection E as _ <-; eapply partial_inv|]. destruct (reass_finish (length pre) s3) as [[d s4]|] eqn:Ef; [|done]. injection E as _ <-. by apply (finish_inv s3 pre r3 post d).
Qed.

(** A new datagram, without fragments yet. *)
Lemma enqueue_partial hdr clen s ok s' : reass_inv s -> ip_reass_enqueue_new_datagram hdr clen s = Some (ok, s') ->
  exists s1, reass_inv s1 /\ keeps s s1 /\ if ok then s' = set_datagrams (ReassData [] (take IP_HLEN hdr) 0 0 IP_REASS_MAXAGE :: reassdatagrams s1) s1 else s' = s1.
Proof.
  intros Hs E. unfold ip_reass_enqueue_new_datagram in E. destruct (bool_decide _).
  - destruct (ip_reass_remove_oldest_datagram hdr clen s) as [[freed s1]|] eqn:Er; [|done]. destruct (remove_loop_inv _ _ _ _ _ _ _ Hs Er) as [H1 H2]. cbn [mbind option_bind] in E.
    exists s1. split; [done|]. split; [done|]. destruct (if clen <=? freed then _ else true); by injection E as <- <-.
  - cbn [mbind option_bind] in E. injection E as <- <-. exists s. split; [done|]. split; [apply keeps_refl|done].
Qed.

Lemma new_partial s r : reass_inv s -> rd_p r = [] -> rd_timer r = IP_REASS_MAXAGE -> partial (set_datagrams (r :: reassdatagrams s) s) [] r (reassdatagrams s).
Proof.
  intros [[H1 H2 H3 H4 H5] H6] Er Et. unfold set_datagrams. split; cbn [app reassdatagrams live ip_reass_pbufcount]; rewrite ?Et; try done.
  - by apply Forall_cons; split; [unfold pbufs_ok; rewrite Er|].
  - change (ids_of (r :: ?l)) with (map f_id (rd_p r) ++ ids_of l). by rewrite Er.
  - change (ids_of (r :: ?l)) with (map f_id (rd_p r) ++ ids_of l). by rewrite Er.
  - cbn [all_clens]. rewrite Er. cbn [clens]. lia.
Qed.

Lemma ip4_reass_inv id segs s r s' : reass_inv s -> id ∈ live s -> id ∉ ids_of (reassdatagrams s) -> segs <> [] -> Z.of_nat (length segs) < 65536 ->
  oversized segs = false -> ip4_reass id segs s = Some (r, s') -> reass_inv s'.
Proof.
  intros Hs Hid Hnot Hseg Hl Hov E. unfold ip4_reass in E. destruct (negb _); [by apply (null_inv id s r)|].
  assert (Hcl : chain_clen segs = Z.of_nat (length segs)) by (unfold chain_clen; apply u16_small; lia).
  set (first := if IP_REASS_MAX_PBUFS <? _ then _ else Some (false, s)) in E. destruct first as [[overflow s1]|] eqn:Ef; [|done]. cbn [mbind option_bind] in E.
  assert (H1 : reass_inv s1 /\ keeps s s1 /\ (overflow = false -> ip_reass_pbufcount s1 + Z.of_nat (length segs) <= IP_REASS_MAX_PBUFS)).
  { unfold first in Ef. rewrite Hcl in Ef. destruct (Z.ltb_spec IP_REASS_MAX_PBUFS (ip_reass_pbufcount s + Z.of_nat (length segs))) as [Hbig|Hsmall].
    - destruct (ip_reass_remove_oldest_datagram (concat segs) (Z.of_nat (length segs)) s) as [[freed s2]|] eqn:Er; [|done]. destruct (remove_loop_inv _ _ _ _ _ _ _ Hs Er) as [H1 H2]. injection Ef as <- <-. split; [done|]. split; [done|].
      intros [_ H]%orb_false_iff. apply Z.ltb_ge in H. done.
    - injection Ef as <- <-. split; [done|]. split; [apply keeps_refl|done]. }
  destruct H1 as (Hs1 & Hk1 & Hcnt). destruct (proj2 Hk1 id Hnot) as [Hnot1 Hid1]. specialize (Hid1 Hid). destruct overflow; [by apply (null_inv id s1 r)|]. specialize (Hcnt eq_refl). unfold IP_REASS_MAX_PBUFS in Hcnt.
  destruct (find_datagram _ 0 (reassdatagrams s1)) as [i|].
  - destruct (reassdatagrams s1 !! i) as [ipr|] eqn:Hi; [|done]. cbn [mbind option_bind] in E. destruct (inv_partial s1 i ipr Hs1 Hi) as (pre & post & Hp & <-).
    set (upd := if _ && negb _ then _ else Some (Some (length pre), s1)) in E.
    assert (Hu : exists r2 s2, upd = Some (Some (length pre), s2) /\ partial s2 pre r2 post /\ rd_p r2 = rd_p ipr /\ live s2 = live s1 /\ ip_reass_pbufcount s2 = ip_reass_pbufcount s1).
    { unfold upd. destruct (_ && negb _); [|by exists ipr, s1]. eexists _, _. split; [done|]. split; [by apply (partial_set s1 pre ipr post)|]. done. }
    destruct Hu as (r2 & s2 & -> & Hp2 & Er2 & El2 & Ec2). cbn [mbind option_bind] in E. fold (oversized segs) in E. rewrite Hov in E.
    rewrite (pt_list _ _ _ _ Hp), ids_middle, <- Er2, <- ids_middle in Hnot1. rewrite <- El2 in Hid1. rewrite <- Ec2 in Hcnt.
    apply (place_inv s2 pre r2 post id segs _ _ (fun ipr => Z.lor (rd_flags ipr) IP_REASS_FLAG_LASTFRAG) r s' Hp2 Hid1 Hnot1 Hseg Hl ltac:(lia) E).
  - destruct (ip_reass_enqueue_new_datagram _ _ s1) as [[ok s2]|] eqn:Ee; [|done]. cbn [mbind option_bind] in E. destruct (enqueue_partial _ _ _ _ _ Hs1 Ee) as (s3 & Hs3 & Hk3 & Es2).
    destruct Hk3 as [Hc3 Hk3]. destruct (Hk3 id Hnot1) as [Hnot3 Hid3]. specialize (Hid3 Hid1). destruct ok; [|subst s2; by apply (null_inv id s3 r)]. fold (oversized segs) in E. rewrite Hov in E. rewrite Es2 in E. clear Es2 Ee.
    set (r0 := ReassData [] _ 0 0 IP_REASS_MAXAGE) in E. pose proof (new_partial s3 r0 Hs3 eq_refl eq_refl) as Hp.
    apply (place_inv _ [] r0 (reassdatagrams s3) id segs _ _ (fun ipr => Z.lor (rd_flags ipr) IP_REASS_FLAG_LASTFRAG) r s' Hp Hid3 Hnot3 Hseg Hl ltac:(cbn [set_datagrams ip_reass_pbufcount]; lia) E).
Qed.

Lemma reass_move_inv s s' : reass_move s s' -> reass_inv s -> reass_inv s'.
Proof.
  intros [id segs r s1 s2 Hid Hseg Hl Hov E|s1 s2 E|id s1 s2 Hid E] Hs.
  - assert (Hni : id ∉ ids_of (reassdatagrams s1)) by (intros H; apply Hid, (ro_live _ (ri_ok _ Hs)); by apply elem_of_list_to_set).
    apply (ip4_reass_inv id segs (arrive id s1) r s2); try done; [|cbn; set_solver].
    destruct Hs as [[H1 H2 H3 H4 H5] H6]. split; [|done]. split; try done. cbn [arrive live]. set_solver.
  - destruct (reass_tmr_ok s1 (ri_ok _ Hs)) as (s3 & E3 & Hs3 & Ed & _). rewrite E in E3. injection E3 as <-. split; [done|]. rewrite Ed. apply Forall_map, Forall_forall. intros r Hr.
    apply list_elem_of_filter in Hr as [_ Hr]. pose proof (ri_segs _ Hs) as H6. rewrite Forall_forall in H6. exact (H6 r Hr).
  - apply (null_inv id s1 None s2 Hs Hid). by rewrite E.
Qed.

Lemma reach_inv s : reass_reach s -> reass_inv s.
Proof.
  intros H. assert (H0 : reass_inv reass_empty) by (split; [split; try done; constructor|done]). unfold reass_reach in H.
  induction H as [|s1 s2 s3 H12 _ IH]; [done|]. apply IH. by apply (reass_move_inv s1).
Qed.
