(* ===== verification/Ip4Theorems.v ===== *)
(** * IP datagrams between two hosts *)

From Stdlib Require Import ZArith Lia.
From stdpp Require Import base gmap list numbers relations.
From S2P Require Import Prelude LwipDef Ip4Addr InetChksum InetChksumSpec InetChksumProof InetChksumTheorems Etharp EtharpProof Ip4 Ip4Reass.
From stdpp Require Import sets list.
Import OptionNotations.

Local Open Scope Z_scope.

(** ** Headers *)

Lemma length_ip_hdr vhl tos len id off ttl proto c src dest : length (ip_hdr vhl tos len id off ttl proto c src dest) = 20%nat.
Proof. done. Qed.

Lemma bytes_ip_hdr vhl tos len id off ttl proto c src dest : bytes (ip_hdr vhl tos len id off ttl proto c src dest).
Proof. unfold ip_hdr. rewrite !Forall_app. repeat split; apply bytes_le_bytes. Qed.

(** Fields of a header, whatever follows it. *)
Lemma hdr_bytes vhl tos len id off ttl proto c src dest d :
  let b := ip_hdr vhl tos len id off ttl proto c src dest ++ d in
  field 0 1 b = le_bytes 1 vhl /\ field 2 2 b = le_bytes 2 len /\ field 4 2 b = le_bytes 2 id /\ field 6 2 b = le_bytes 2 off /\ field 9 1 b = le_bytes 1 proto /\
  field 12 4 b = le_bytes 4 src /\ field 16 4 b = le_bytes 4 dest.
Proof. repeat split. Qed.

Lemma hdr_set vhl tos len id off ttl proto c src dest v :
  let h := ip_hdr vhl tos len id off ttl proto c src dest in
  IPH_LEN_SET v h = ip_hdr vhl tos v id off ttl proto c src dest /\ IPH_OFFSET_SET v h = ip_hdr vhl tos len id v ttl proto c src dest /\
  IPH_CHKSUM_SET v h = ip_hdr vhl tos len id off ttl proto v src dest.
Proof. repeat split. Qed.

(** The numbers in a header. *)
Lemma ip_hdr_fields tos len id off ttl proto c src dest d : 0 <= len < 65536 -> 0 <= id < 65536 -> 0 <= off < 65536 -> 0 <= proto < 256 -> is_u 32 src -> is_u 32 dest ->
  let b := ip_hdr 0x45 tos len id off ttl proto c src dest ++ d in
  IPH_V b = 4 /\ IPH_HL b = 5 /\ IPH_LEN b = len /\ IPH_ID b = id /\ IPH_OFFSET b = off /\ IPH_PROTO b = proto /\ iph_src b = src /\ iph_dest b = dest.
Proof.
  intros Hl Hi Ho Hp Hs Hd b. destruct (hdr_bytes 0x45 tos len id off ttl proto c src dest d) as (F0 & F1 & F2 & F3 & F4 & F5 & F6). fold b in F0, F1, F2, F3, F4, F5, F6.
  unfold is_u in *. unfold IPH_V, IPH_HL, IPH_LEN, IPH_ID, IPH_OFFSET, IPH_PROTO, iph_src, iph_dest. rewrite F0, F1, F2, F3, F4, F5, F6, !of_le_le_bytes.
  do 2 (split; [done|]). rewrite !Z.mod_small by (cbn; lia). done.
Qed.

Lemma htons_twice x : 0 <= x < 65536 -> lwip_htons (lwip_htons x) = x /\ 0 <= lwip_htons x < 65536.
Proof.
  intros Hx. assert (H1 : 0 <= x / 256 < 256) by (split; [apply Z.div_pos; lia|apply Z.div_lt_upper_bound; lia]). pose proof (Z.mod_pos_bound x 256 ltac:(lia)) as H2.
  rewrite (lwip_htons_value x Hx). split; [|lia]. rewrite lwip_htons_value by lia. clear H1 H2. Z.div_mod_to_equations. lia.
Qed.

(** The field of a fragment: its offset and whether there are more. *)
Definition offset_field (ofo : Z) (last : bool) : Z := if last then Z.land IP_OFFMASK ofo else Z.lor (Z.land IP_OFFMASK ofo) IP_MF.

Definition offset_check (ofo : Z) (last : bool) : bool :=
  let o := lwip_htons (offset_field ofo last) in
  (Z.land (lwip_htons o) IP_OFFMASK =? ofo) && (0 <=? o) && (o <? 65536) &&
  eqb (Z.land o (PP_HTONS IP_MF) =? 0) last && eqb (Z.land o (PP_HTONS (Z.lor IP_OFFMASK IP_MF)) =? 0) (last && (ofo =? 0)).

Lemma offset_checked : forallb (fun ofo => offset_check ofo true && offset_check ofo false) (seqZ 0 8192) = true.
Proof. by vm_compute. Qed.

Lemma offset_field_facts ofo last : 0 <= ofo < 8192 ->
  let o := lwip_htons (offset_field ofo last) in
  Z.land (lwip_htons o) IP_OFFMASK = ofo /\ 0 <= o < 65536 /\ (Z.land o (PP_HTONS IP_MF) =? 0) = last /\
  (Z.land o (PP_HTONS (Z.lor IP_OFFMASK IP_MF)) =? 0) = last && (ofo =? 0).
Proof.
  intros Ho o. pose proof offset_checked as H. rewrite forallb_forall in H. specialize (H ofo). rewrite andb_true_iff in H.
  assert (Hc : offset_check ofo last = true) by (destruct last; apply H; apply list_elem_of_In, elem_of_seqZ; lia). unfold offset_check in Hc. fold o in Hc.
  rewrite !andb_true_iff, Z.eqb_eq, Z.leb_le, Z.ltb_lt, !eqb_true_iff in Hc. tauto.
Qed.

(** ** Checksums *)

Lemma hdr_accepted vhl tos len id off ttl proto src dest :
  let c := 65535 - oc (word_sum (ip_hdr vhl tos len id off ttl proto 0 src dest)) in
  chksum_of (ip_hdr vhl tos len id off ttl proto c src dest) = Some 0.
Proof.
  intros c. rewrite chksum_of_bytes; [|apply bytes_ip_hdr|rewrite length_ip_hdr; lia]. f_equal.
  set (x := le_bytes 1 vhl ++ le_bytes 1 tos ++ le_bytes 2 len ++ le_bytes 2 id ++ le_bytes 2 off ++ le_bytes 1 ttl ++ le_bytes 1 proto).
  set (y := le_bytes 4 src ++ le_bytes 4 dest). apply (filled_in x y c); [by exists 5%nat| |done].
  change (x ++ [0; 0] ++ y) with (ip_hdr vhl tos len id off ttl proto 0 src dest). apply bytes_ip_hdr.
Qed.

Lemma word_pair z : 0 <= z < 65536 -> word_sum (le_bytes 2 z) = z.
Proof.
  intros Hz. cbn. rewrite (Z.mod_small (z / 256)) by (split; [by apply Z.div_pos; lia|apply Z.div_lt_upper_bound; lia]). pose proof (Z.div_mod z 256 ltac:(lia)). lia.
Qed.

Lemma word_two a b : 0 <= a < 256 -> 0 <= b < 256 -> word_sum (le_bytes 1 a ++ le_bytes 1 b) = a + 256 * b.
Proof. intros Ha Hb. cbn. rewrite !Z.mod_small by lia. lia. Qed.

Lemma word_quad z : is_u 32 z -> word_sum (le_bytes 4 z) = Z.land z 0xffff + Z.shiftr z 16.
Proof.
  intros Hz. rewrite (halves z Hz). f_equal. change 0xffff with (Z.ones 16). rewrite Z.land_ones by lia. apply Z.mod_small. unfold is_u in Hz. rewrite Z.shiftr_div_pow2 by lia.
  split; [apply Z.div_pos; lia|apply Z.div_lt_upper_bound; lia].
Qed.

Lemma swapped_pair lo hi : 0 <= lo < 256 -> 0 <= hi < 256 -> PP_HTONS (Z.lor lo (Z.shiftl hi 8)) = hi + 256 * lo.
Proof.
  intros Hl Hh. assert (E : Z.lor lo (Z.shiftl hi 8) = lo + 256 * hi).
  { pose proof (Z.add_lor_land lo (Z.shiftl hi 8)) as Ea. assert (Z.land lo (Z.shiftl hi 8) = 0) as E0; [|rewrite E0, Z.add_0_r in Ea; rewrite Ea, Z.shiftl_mul_pow2 by lia; lia].
    apply Z.bits_inj'. intros k Hk. rewrite Z.land_spec, Z.bits_0. destruct (Z.ltb_spec k 8); [rewrite Z.shiftl_spec_low by done; apply andb_false_r|].
    rewrite (Z.bits_above_log2 lo k); [done|lia|]. destruct (decide (lo = 0)) as [->|]; [cbn; lia|]. apply Z.log2_lt_pow2; [lia|]. assert (2 ^ 8 <= 2 ^ k) by (apply Z.pow_le_mono_r; lia). lia. }
  rewrite E, htons_value by lia. clear E. Z.div_mod_to_equations. lia.
Qed.

Lemma fold_not S : 0 <= S < 1000000 -> u16 (not32 (u32 (Z.shiftr (u32 (Z.shiftr S 16 + Z.land S 65535)) 16 + u32 (Z.shiftr S 16 + Z.land S 65535)))) = 65535 - oc S.
Proof.
  intros HS. change (u32 (Z.shiftr S 16 + Z.land S 65535)) with (FOLD_U32T S). rewrite fold_value by lia. set (s1 := S / 65536 + S mod 65536).
  assert (H1 : 0 <= s1 <= 65551) by (unfold s1; Z.div_mod_to_equations; lia). rewrite (Z.shiftr_div_pow2 s1) by lia. change (2 ^ 16) with 65536.
  assert (H2 : s1 / 65536 = 0 /\ s1 < 65536 \/ s1 / 65536 = 1 /\ 65536 <= s1) by (clear HS; Z.div_mod_to_equations; lia).
  rewrite (u32_small (s1 / 65536 + s1)) by lia. unfold not32, u16, u32, wrap.
  assert (E : Z.lnot (s1 / 65536 + s1) = - (s1 / 65536 + s1) - 1) by (unfold Z.lnot; lia). rewrite E. set (a := s1 / 65536 + s1) in *.
  replace (- a - 1) with (65535 - a mod 65536 + (- (a / 65536) - 1) * 65536) by (pose proof (Z.div_mod a 65536 ltac:(lia)); lia).
  assert (Ha : 0 <= a <= 65552) by (unfold a; lia).
  assert (Emod : ((65535 - a mod 65536 + (- (a / 65536) - 1) * 65536) mod 2 ^ 32) mod 2 ^ 16 = 65535 - a mod 65536).
  { rewrite Z.mod_mod_divide by (by exists 65536). change (2 ^ 16) with 65536. rewrite Z.mod_add by lia.
    apply Z.mod_small. pose proof (Z.mod_pos_bound a 65536 ltac:(lia)). lia. }
  rewrite Emod. f_equal. apply oc_unique; [|pose proof (Z.mod_pos_bound a 65536 ltac:(lia)); lia].
  assert (Eam : a mod 65536 = if 65536 <=? s1 then s1 - 65535 else s1).
  { unfold a. destruct (Z.leb_spec 65536 s1), H2 as [[E1 ?]|[E1 ?]]; try lia; rewrite E1; [|by rewrite Z.mod_small by lia].
    replace (1 + s1) with (s1 - 65535 + 1 * 65536) by lia. rewrite Z.mod_add, Z.mod_small by lia. done. }
  rewrite Eam. pose proof (Z.div_mod S 65536 ltac:(lia)) as ES. pose proof (Z.mod_pos_bound S 65536 ltac:(lia)). pose proof (Z.div_pos S 65536 ltac:(lia) ltac:(lia)).
  destruct (Z.leb_spec 65536 s1); (split; [lia|]); (split; [lia|]); (split; [unfold s1 in *; lia|]); [exists (- (S / 65536) - 1)|exists (- (S / 65536))]; unfold s1; lia.
Qed.

(** The checksum that is added up while the header is written is that of the header. *)
Lemma inline_chksum_spec vhl tos len id ttl proto src dest : is_byte vhl -> is_byte tos -> is_byte ttl -> is_byte proto ->
  0 <= len < 65536 -> 0 <= id < 65536 -> is_u 32 src -> is_u 32 dest ->
  inline_chksum vhl tos len id ttl proto src dest = 65535 - oc (word_sum (ip_hdr vhl tos len id 0 ttl proto 0 src dest)).
Proof.
  unfold is_byte. intros Hv Ht Htt Hp Hl Hi Hs Hd. unfold inline_chksum. rewrite !swapped_pair by done.
  assert (Hq : forall z, is_u 32 z -> 0 <= Z.land z 0xffff <= 65535 /\ 0 <= Z.shiftr z 16 <= 65535).
  { intros z Hz. split; [apply land_ffff|]. unfold is_u in Hz. rewrite Z.shiftr_div_pow2 by lia. assert (z / 2 ^ 16 < 65536) by (apply Z.div_lt_upper_bound; lia). pose proof (Z.div_pos z (2 ^ 16)). lia. }
  pose proof (Hq src Hs) as [Hs1 Hs2]. pose proof (Hq dest Hd) as [Hd1 Hd2].
  assert (Ew : word_sum (ip_hdr vhl tos len id 0 ttl proto 0 src dest) = (vhl + 256 * tos) + len + id + (ttl + 256 * proto) + (Z.land src 0xffff + Z.shiftr src 16) + (Z.land dest 0xffff + Z.shiftr dest 16)).
  { pose proof (word_quad src Hs) as W1. pose proof (word_quad dest Hd) as W2. pose proof (word_two vhl tos Hv Ht) as W3. pose proof (word_two ttl proto Htt Hp) as W4.
    pose proof (word_pair len Hl) as W5. pose proof (word_pair id Hi) as W6. rewrite <- W1, <- W2, <- W3, <- W4. rewrite <- W5 at 2. rewrite <- W6 at 2. clear.
    unfold ip_hdr. cbn [le_bytes app word_sum]. change (0 / 256) with 0. change (0 mod 256) with 0. ring. }
  set (S := word_sum _) in *. clearbody S.
  repeat match goal with |- context [u32 ?x] => lazymatch x with context [u32 _] => fail | _ => rewrite (u32_small x) by lia end end.
  match goal with |- context [Z.land ?x 65535 ] => match x with context [proto] => replace x with S by lia end end.
  apply fold_not. lia.
Qed.

(** ** Receiving *)

Section packets.
Context (tos id ttl proto src dest : Z).

(** An IP packet with offset field [off] and its checksum. *)
Definition ip_packet (off : Z) (d : list Z) : list Z :=
  let len := lwip_htons (Z.of_nat (length d) + 20) in
  ip_hdr 0x45 tos len id off ttl proto (65535 - oc (word_sum (ip_hdr 0x45 tos len id off ttl proto 0 src dest))) src dest ++ d.

Definition transport : bool := (proto =? IP_PROTO_UDP) || (proto =? IP_PROTO_TCP) || (proto =? IP_PROTO_ICMP).

Record packet_ok : Prop := {
  po_id : 0 <= id < 65536;
  po_src : is_u 32 src;
  po_dest : is_u 32 dest;
  po_transport : transport = true
}.

Context (Hpk : packet_ok).

Lemma po_proto : 0 <= proto < 256.
Proof. pose proof (po_transport Hpk) as H. unfold transport, IP_PROTO_UDP, IP_PROTO_TCP, IP_PROTO_ICMP in H. rewrite !orb_true_iff, !Z.eqb_eq in H. lia. Qed.

Lemma packet_fields off d : Z.of_nat (length d) <= 65515 -> 0 <= off < 65536 ->
  let b := ip_packet off d in
  IPH_V b = 4 /\ IPH_HL b = 5 /\ lwip_htons (IPH_LEN b) = Z.of_nat (length d) + 20 /\ IPH_ID b = id /\ IPH_OFFSET b = off /\ IPH_PROTO b = proto /\ iph_src b = src /\ iph_dest b = dest /\
  chksum_of (take 20 b) = Some 0 /\ length b = (length d + 20)%nat /\ drop 20 b = d.
Proof.
  intros Hd Ho b. destruct (htons_twice (Z.of_nat (length d) + 20) ltac:(lia)) as [E1 E2]. destruct Hpk as [H1 H2 H3 _].
  destruct (ip_hdr_fields tos (lwip_htons (Z.of_nat (length d) + 20)) id off ttl proto (65535 - oc (word_sum (ip_hdr 0x45 tos (lwip_htons (Z.of_nat (length d) + 20)) id off ttl proto 0 src dest))) src dest d E2 H1 Ho po_proto H2 H3)
    as (F1 & F2 & F3 & F4 & F5 & F6 & F7 & F8). unfold b, ip_packet. rewrite F1, F2, F3, F4, F5, F6, F7, F8, E1. do 8 (split; [done|]).
  split; [rewrite take_app_length' by done; apply hdr_accepted|]. split; [by rewrite length_app, length_ip_hdr, Nat.add_comm|by rewrite drop_app_length'].
Qed.

Context (netifs : Z -> arp_netif) (netif_list : list Z) (inp n : Z).
Context (Hsrc : ip4_addr_isbroadcast_u32 src (ip4 (netifs inp)) || ip4_addr_ismulticast src = false) (Hdest : match_netif netifs netif_list inp dest = Some n).

(** What is handed to the transport. *)
Definition hand_up (d : datagram) : datagram := Datagram (d_ids d) (hide_header (d_segs d)).

Lemma input_packet i segs s off d : concat segs = ip_packet off d -> (IP_HLEN <= length (hd [] segs))%nat -> Z.of_nat (length d) <= 65515 -> 0 <= off < 65536 ->
  ip4_input netifs netif_list inp i segs s =
  (let? (r, s) := (if Z.land off (PP_HTONS (Z.lor IP_OFFMASK IP_MF)) =? 0 then Some (Some (Datagram [i] segs), s) else ip4_reass i segs s) in
   match r with
   | None => Some (Consumed, s)
   | Some d =>
       if (IPH_PROTO (concat (d_segs d)) =? IP_PROTO_UDP) || (IPH_PROTO (concat (d_segs d)) =? IP_PROTO_TCP) || (IPH_PROTO (concat (d_segs d)) =? IP_PROTO_ICMP) then
         Some (Deliver (IPH_PROTO (concat (d_segs d))) src dest (hand_up d), s)
       else
         let? s := foldl (fun s i => let? s := s in free_chain i s) (Some s) (d_ids d) in
         Some (if negb (ip4_addr_isbroadcast_u32 dest (ip4 (netifs n))) && negb (ip4_addr_ismulticast dest) then ProtoUnreach (concat (d_segs d)) else Consumed, s)
   end).
Proof.
  intros Hb Hhd Hd Ho. destruct (packet_fields off d Hd Ho) as (F1 & F2 & F3 & F4 & F5 & F6 & F7 & F8 & F9 & F10 & F11). unfold ip4_input. rewrite Hb.
  destruct (Nat.ltb_spec (length (ip_packet off d)) 4) as [|_]; [lia|]. rewrite F1, F2, F3. change (negb (4 =? 4)) with false. cbv iota.
  destruct (Z.ltb_spec (Z.of_nat (length d) + 20) (Z.of_nat (length (ip_packet off d)))) as [|_]; [lia|]. rewrite Hb.
  destruct (Z.ltb_spec (Z.of_nat (length (hd [] segs))) (5 * 4)) as [|_]; [unfold IP_HLEN in Hhd; lia|].
  destruct (Z.ltb_spec (Z.of_nat (length (ip_packet off d))) (Z.of_nat (length d) + 20)) as [|_]; [lia|]. change (5 * 4 <? Z.of_nat IP_HLEN) with false. cbn [orb].
  change (Z.to_nat (5 * 4)) with 20%nat. rewrite F9. cbn [mbind option_bind]. change (negb (0 =? 0)) with false. cbv iota. rewrite F7, F8, Hsrc, Hdest, F5.
  destruct (Z.land off (PP_HTONS (Z.lor IP_OFFMASK IP_MF)) =? 0); cbn [negb mbind option_bind]; [done|]. done.
Qed.

(** A fragment says what it is. *)
Lemma packet_frag f ofo last d : frag_bytes f = ip_packet (lwip_htons (offset_field ofo last)) d -> f_start f = 8 * ofo -> f_end f = 8 * ofo + Z.of_nat (length d) ->
  0 <= ofo -> d <> [] -> f_end f <= 65515 -> frag_ok (ip_packet 0 []) last f.
Proof.
  intros Hb Hs He Ho Hd Hend. assert (Hl : (0 < length d)%nat) by (destruct d; [done|cbn; lia]). destruct (offset_field_facts ofo last ltac:(lia)) as (O1 & O2 & O3 & O4).
  destruct (packet_fields (lwip_htons (offset_field ofo last)) d ltac:(lia) O2) as (F1 & F2 & F3 & F4 & F5 & F6 & F7 & F8 & _).
  destruct (packet_fields 0 [] ltac:(cbn; lia) ltac:(lia)) as (_ & _ & _ & G4 & _ & _ & G7 & G8 & _).
  assert (Eo : frag_offset (frag_bytes f) = ofo) by (unfold frag_offset; by rewrite Hb, F5, O1). split.
  - by rewrite Hb, F2.
  - rewrite Eo, u16_small by lia. lia.
  - rewrite Eo. lia.
  - rewrite Hb, F2, F3. unfold f_len. rewrite u16_small by lia. lia.
  - lia.
  - done.
  - by rewrite Hb, F5.
  - unfold same_key. by rewrite Hb, F4, F7, F8, G4, G7, G8.
Qed.
End packets.

(** ** Sending to a known address *)

Section sending.
Context (netifs : Z -> arp_netif) (mtu : Z -> Z) (n ip : Z) (mac : list Z).

(** The address is on the network of the interface, and its hardware address known and
    not about to expire; the driver takes every frame. *)
Record ready (s : arp) : Prop := {
  rd_arp : arp_ok s;
  rd_link : link s = [];
  rd_entry : exists i e, arp_table s !! i = Some e /\ matches ip e /\ stable (state e) = true /\ ethaddr e = mac /\ ctime e < ARP_AGE_REREQUEST_USED_UNICAST
}.

Context (Hlocal : non_unicast netifs n ip = false) (Hnet : ip4_addr_netcmp ip (ip_addr (ip4 (netifs n))) (netmask (ip4 (netifs n))) = true).

Lemma find_stable_some l i e : forall k, l !! i = Some e -> stable (state e) = true -> ipaddr e = ip -> exists j, find_stable ip k l = Some j.
Proof.
  revert i. induction l as [|x l IH]; intros i k Hi Hst Hip; [by rewrite lookup_nil in Hi|]. cbn [find_stable]. destruct (stable (state x) && (ip =? ipaddr x)) eqn:E; [eauto|].
  destruct i as [|i]; [injection Hi as ->; by rewrite Hst, Hip, Z.eqb_refl in E|]. by apply (IH i).
Qed.

Lemma index_sends i e p s : arp_ok s -> link s = [] -> arp_table s !! i = Some e -> stable (state e) = true -> ctime e < ARP_AGE_REREQUEST_USED_UNICAST -> header_fits p = true ->
  exists s', etharp_output_to_arp_index netifs n p i s = Some (ERR_OK, s') /\ arp_ok s' /\ link s' = [] /\ arp_table s' = arp_table s /\
    sent s' = sent s ++ [eth_hdr (ethaddr e) (hwaddr (netifs n)) ETHTYPE_IP ++ packet_bytes p].
Proof.
  intros Hs Hl Hi Hst Ht Hp. destruct (output_to_index_ok netifs n p i e s Hs Hi Hst) as (r & s' & E & Hs'). pose proof E as E0. unfold etharp_output_to_arp_index in E.
  rewrite Hi in E. cbn [mbind option_bind] in E. rewrite Hst in E. cbn [negb] in E. unfold ARP_AGE_REREQUEST_USED_UNICAST, ARP_AGE_REREQUEST_USED_BROADCAST, ARP_MAXAGE in *.
  destruct (Z.leb_spec (300 - 15) (ctime e)); [lia|]. destruct (Z.leb_spec (300 - 30) (ctime e)); [lia|].
  assert (Esame : (if bool_decide (state e = ETHARP_STATE_STABLE) then s else s) = s) by (by destruct (bool_decide _)). rewrite Esame in E.
  unfold ethernet_output, linkoutput in E. rewrite Hp, Hl in E. injection E as <- <-. eexists. split; [exact E0|]. done.
Qed.

Lemma output_sends p s : ready s -> header_fits p = true ->
  exists s', etharp_output netifs n p ip s = Some (ERR_OK, s') /\ ready s' /\ sent s' = sent s ++ [eth_hdr mac (hwaddr (netifs n)) ETHTYPE_IP ++ packet_bytes p].
Proof.
  intros [Hs Hl (i & e & Hi & Hm & Hst & Hmac & Ht)] Hp. unfold etharp_output. unfold non_unicast in Hlocal. apply orb_false_iff in Hlocal as [[H1 H2]%orb_false_iff _].
  rewrite H1, H2, Hnet. cbn [negb andb].
  assert (Hsame : forall j ej, arp_table s !! j = Some ej -> stable (state ej) = true -> ipaddr ej = ip -> j = i).
  { intros j ej Hj Hstj Hipj. apply (ao_unique _ Hs j i ej e); try done; [intros E; by rewrite E in Hstj|apply Hm|destruct Hm; congruence]. }
  assert (Hsend : forall s1, arp_ok s1 -> link s1 = [] -> arp_table s1 = arp_table s -> sent s1 = sent s ->
    exists s', etharp_output_to_arp_index netifs n p i s1 = Some (ERR_OK, s') /\ ready s' /\ sent s' = sent s ++ [eth_hdr mac (hwaddr (netifs n)) ETHTYPE_IP ++ packet_bytes p]).
  { intros s1 Hs1 Hl1 Et Es. destruct (index_sends i e p s1) as (s' & E & Hs' & Hl' & Et' & W); try done; [by rewrite Et|]. exists s'. split; [done|]. split; [|by rewrite W, Es, Hmac].
    split; [done|done|]. exists i, e. by rewrite Et', Et. }
  destruct (entry_at s (etharp_cached_entry s) Hs (ao_hint _ Hs)) as (c & Hc & _). rewrite Hc. cbn [mbind option_bind].
  destruct (stable (state c) && (ip =? ipaddr c)) eqn:Ec.
  - apply andb_true_iff in Ec as [Ec1 Ec2%Z.eqb_eq]. rewrite (Hsame _ c Hc Ec1 (eq_sym Ec2)) in *. by apply Hsend.
  - destruct (find_stable_some (arp_table s) i e 0 Hi Hst (proj2 Hm)) as (j & Ej). rewrite Ej. destruct (find_stable_ok ip (arp_table s) 0 j Ej) as (x & j' & -> & Hj & Hstx & Hipx).
    rewrite Nat.add_0_l. assert (Hii := Hsame j' x Hj Hstx Hipx). subst j'. apply Hsend; try done. apply hint_ok; [done|]. apply lookup_lt_Some in Hi. by rewrite (ao_size _ Hs) in Hi.
Qed.

(** ** Fragmentation *)

(** The bytes from an offset on are mirrored in order. *)
Lemma mirror_ok p : forall left poff pieces s, frag_memory s = [] -> (poff <= length (hd [] p))%nat -> 0 < left <= Z.of_nat (length (drop poff (concat p))) ->
  exists new p' poff', mirror left p poff pieces s = Some (Some (pieces ++ new, p', poff'), IpOut (ip_id s) [] (frag_held s + Z.of_nat (length new)) (arp_of s)) /\
    concat new = take (Z.to_nat left) (drop poff (concat p)) /\ drop poff' (concat p') = drop (Z.to_nat left) (drop poff (concat p)) /\ (poff' <= length (hd [] p'))%nat /\ p' `suffix_of` p.
Proof.
  induction p as [|x p IH]; intros left poff pieces s Hm Hpoff Hleft; [rewrite length_drop in Hleft; cbn in Hleft; lia|]. cbn [hd] in Hpoff. cbn [mirror concat] in *.
  rewrite length_drop, length_app in Hleft. assert (Ed : drop poff (x ++ concat p) = drop poff x ++ concat p) by (by apply drop_app_le).
  rewrite Ed. assert (Elen : length (drop poff x) = (length x - poff)%nat) by apply length_drop.
  destruct (Z.eqb_spec (Z.min left (Z.of_nat (length x) - Z.of_nat poff)) 0) as [Ez|Hnz].
  { destruct (IH left 0%nat pieces s Hm (Nat.le_0_l _)) as (new & p' & poff' & E & H1 & H2 & H3 & H4); [rewrite drop_0; lia|]. exists new, p', poff'. split; [done|]. rewrite drop_0 in H1, H2.
    assert (Ex : drop poff x = []) by (apply length_zero_iff_nil; lia). rewrite Ex. do 3 (split; [done|]). by apply suffix_cons_r. }
  unfold frag_alloc. rewrite Hm. cbn [negb]. set (k := Z.min left (Z.of_nat (length x) - Z.of_nat poff)) in *. destruct (Z.eqb_spec (left - k) 0) as [Ez|Hne].
  - assert (k = left) as Ek by lia. exists [take (Z.to_nat left) (drop poff x)], (x :: p), (poff + Z.to_nat left)%nat. split; [rewrite Ek; cbn; by rewrite Hm || done|].
    cbn [concat hd]. rewrite app_nil_r. split; [by rewrite take_app_le by lia|]. split; [|split; [lia|done]]. rewrite <- drop_drop, Ed. rewrite Nat.add_comm || idtac. done.
  - assert (Ek : k = Z.of_nat (length x) - Z.of_nat poff) by lia. set (s1 := IpOut _ _ _ _).
    destruct (IH (left - k) 0%nat (pieces ++ [take (Z.to_nat k) (drop poff x)]) s1 eq_refl (Nat.le_0_l _)) as (new & p' & poff' & E & H1 & H2 & H3 & H4); [rewrite drop_0; lia|].
    assert (Etk : take (Z.to_nat k) (drop poff x) = drop poff x) by (apply take_ge; lia).
    exists (drop poff x :: new), p', poff'. rewrite Etk in E. rewrite Etk, E. split; [|cbn [concat]; rewrite H1, H2, drop_0; split; [|split; [|split; [done|by apply suffix_cons_r]]]].
    + rewrite <- app_assoc. unfold s1. cbn [app ip_id frag_held arp_of]. by replace (frag_held s + 1 + Z.of_nat (length new)) with (frag_held s + Z.of_nat (length (drop poff x :: new))) by (cbn [length]; lia).
    + replace (Z.to_nat left) with (length (drop poff x) + Z.to_nat (left - k))%nat by lia. by rewrite take_app_add.
    + replace (Z.to_nat left) with (length (drop poff x) + Z.to_nat (left - k))%nat by lia. by rewrite drop_app_add.
Qed.

(** The data of the fragments: offset in units of eight bytes, bytes, whether it is the last. *)
Fixpoint pieces (fuel k : nat) (ofo : Z) (d : list Z) : list (Z * list Z * bool) :=
  match fuel with
  | O => []
  | S fuel =>
      match d with
      | [] => []
      | _ => (ofo, take k d, bool_decide (length d <= k)%nat) :: pieces fuel k (ofo + Z.of_nat k / 8) (drop k d)
      end
  end.

Lemma pieces_one k ofo d : d <> [] -> (length d <= k)%nat -> pieces (length d) k ofo d = [(ofo, d, true)].
Proof.
  intros Hd Hk. destruct d as [|y d]; [done|]. cbn [length pieces]. rewrite take_ge, drop_ge by done. rewrite bool_decide_eq_true_2 by done. by destruct (length d).
Qed.

Context (tos id ttl proto src : Z) (k : nat).
Context (Hpk : packet_ok id proto src ip) (Hmtu : mtu n = Z.of_nat k + 20) (Hk : (0 < k)%nat /\ Z.of_nat k <= 65515 /\ (8 | Z.of_nat k)).

Definition frame_of (pc : Z * list Z * bool) : list Z :=
  let '(ofo, d, last) := pc in eth_hdr mac (hwaddr (netifs n)) ETHTYPE_IP ++ ip_packet tos id ttl proto src ip (lwip_htons (offset_field ofo last)) d.

Lemma frag_header_packet len c ofo d (last : bool) : Z.of_nat (length d) <= 65515 ->
  exists h, frag_header (ip_hdr 0x45 tos len id 0 ttl proto c src ip) ofo (Z.of_nat (length d)) last = Some h /\
    h ++ d = ip_packet tos id ttl proto src ip (lwip_htons (offset_field ofo last)) d.
Proof.
  intros Hd. unfold frag_header. fold (offset_field ofo last). destruct (hdr_set 0x45 tos len id 0 ttl proto c src ip (lwip_htons (offset_field ofo last))) as (_ & -> & _).
  destruct (hdr_set 0x45 tos len id (lwip_htons (offset_field ofo last)) ttl proto c src ip (lwip_htons (u16 (Z.of_nat (length d) + Z.of_nat IP_HLEN)))) as (-> & _ & _).
  set (len' := lwip_htons (u16 _)). destruct (hdr_set 0x45 tos len' id (lwip_htons (offset_field ofo last)) ttl proto c src ip 0) as (_ & _ & ->).
  rewrite chksum_of_bytes; [|apply bytes_ip_hdr|rewrite length_ip_hdr; lia]. cbn [mbind option_bind]. eexists. split; [done|]. unfold ip_packet.
  replace len' with (lwip_htons (Z.of_nat (length d) + 20)); [done|]. unfold len'. f_equal. symmetry. change (Z.of_nat IP_HLEN) with 20. apply u16_small. lia.
Qed.

Lemma frag_loop_sends len c fuel : forall d ofo p poff s,
  drop poff (concat p) = d -> (length d <= fuel)%nat -> (poff <= length (hd [] p))%nat -> Forall (fun x => IP_HLEN <= length x)%nat p -> ready (arp_of s) -> frag_memory s = [] -> 0 <= ofo -> 8 * ofo + Z.of_nat (length d) <= 65515 ->
  exists s', frag_loop netifs mtu fuel n ip (Z.of_nat k / 8) (ip_hdr 0x45 tos len id 0 ttl proto c src ip) (Z.of_nat (length d)) ofo p poff s = Some (ERR_OK, s') /\
    ready (arp_of s') /\ frag_memory s' = [] /\ frag_held s' = frag_held s /\ ip_id s' = ip_id s /\
    sent (arp_of s') = sent (arp_of s) ++ map frame_of (pieces fuel k ofo d).
Proof.
  destruct Hk as (Hk0 & Hk1 & Hk8). assert (Ek8 : Z.of_nat k / 8 * 8 = Z.of_nat k) by (destruct Hk8 as [q Eq]; rewrite Eq, Z.div_mul by lia; done).
  induction fuel as [|fuel IH]; intros d ofo p poff s Hd Hf Hpoff Hall Hr Hm Ho Hend.
  { destruct d; [|cbn in Hf; lia]. exists s. cbn. rewrite app_nil_r. split; [done|]. done. }
  destruct d as [|x d0]; [exists s; cbn; rewrite app_nil_r; split; [done|]; done|]. set (d := x :: d0) in *. cbn [frag_loop].
  assert (Hlen : (0 < length d)%nat) by (cbn; lia). destruct (Z.eqb_spec (Z.of_nat (length d)) 0) as [|_]; [lia|]. rewrite Ek8.
  unfold frag_alloc at 1. rewrite Hm. cbn [negb]. set (s1 := IpOut (ip_id s) [] (frag_held s + 1) (arp_of s)).
  assert (Hhd : (IP_HLEN <= length (hd [] p))%nat) by (destruct p as [|y p]; [cbn in Hd; by rewrite drop_nil in Hd|by apply Forall_cons in Hall as [? _]]).
  rewrite (proj2 (Z.leb_le _ _)) by lia. cbn [negb].
  assert (Efs : Z.min (Z.of_nat (length d)) (Z.of_nat k) = Z.of_nat (length (take k d))) by (rewrite length_take; lia). rewrite Efs.
  destruct (mirror_ok p (Z.of_nat (length (take k d))) poff [] s1 eq_refl Hpoff) as (new & p' & poff' & E & H1 & H2 & H3 & [pre Hpre]); [rewrite Hd, length_take; lia|].
  rewrite E. cbn [mbind option_bind app]. rewrite Hd, Nat2Z.id in H1, H2.
  assert (Etk : take (length (take k d)) d = take k d /\ drop (length (take k d)) d = drop k d).
  { rewrite length_take. destruct (decide (k <= length d)%nat); [by rewrite Nat.min_l by done|]. rewrite Nat.min_r by lia. by rewrite !take_ge, !drop_ge by lia. }
  destruct Etk as [Etk Edr]. rewrite Etk in H1. rewrite Edr in H2. rewrite Hmtu. change (Z.of_nat IP_HLEN) with 20. replace (Z.of_nat k + 20 - 20) with (Z.of_nat k) by lia.
  assert (Elast : (Z.of_nat (length d) <=? Z.of_nat k) = bool_decide (length d <= k)%nat) by (case_bool_decide; [apply Z.leb_le|apply Z.leb_gt]; lia). rewrite Elast.
  destruct (frag_header_packet len c ofo (take k d) (bool_decide (length d <= k)%nat)) as (h & -> & Eh); [rewrite length_take; lia|]. cbn [mbind option_bind].
  set (rambuf := Packet _ _). set (s2 := IpOut _ _ _ _).
  assert (Eb : packet_bytes rambuf = ip_packet tos id ttl proto src ip (lwip_htons (offset_field ofo (bool_decide (length d <= k)%nat))) (take k d)).
  { unfold packet_bytes, rambuf. cbn [segments fmap list_fmap concat snd]. rewrite <- Eh. f_equal. rewrite <- H1. f_equal. rewrite <- list_fmap_compose. clear. induction new; cbn; congruence. }
  destruct (output_sends rambuf (arp_of s2) Hr eq_refl) as (a & Eo & Ha & Wa). unfold output. rewrite Eo. cbn [mbind option_bind].
  set (s3 := frag_free _ _). assert (Edl : Z.of_nat (length d) - Z.of_nat (length (take k d)) = Z.of_nat (length (drop k d))) by (rewrite length_take, length_drop; lia). rewrite Edl.
  assert (Hnk : 0 <= Z.of_nat k / 8 <= Z.of_nat k) by lia.
  rewrite (u16_small (ofo + Z.of_nat k / 8)) by lia.
  destruct (decide (length d <= k)%nat) as [Hlast|Hmore].
  - assert (Edn : drop k d = []) by (by apply drop_ge). exists s3. rewrite Edn. cbn [length]. split; [by destruct fuel|]. split; [done|]. split; [done|]. split; [unfold s3; cbn; lia|]. split; [done|].
    unfold s3. cbn [frag_free set_arp arp_of]. rewrite Wa. f_equal. cbn [pieces]. change (match d with [] => _ | _ => _ end) with ((ofo, take k d, bool_decide (length d <= k)%nat) :: pieces fuel k (ofo + Z.of_nat k / 8) (drop k d)).
    rewrite Edn. replace (pieces fuel k (ofo + Z.of_nat k / 8) []) with (@nil (Z * list Z * bool)) by (by destruct fuel). cbn [map frame_of]. by rewrite Eb.
  - destruct (IH (drop k d) (ofo + Z.of_nat k / 8) p' poff' s3) as (s' & E' & R1 & R2 & R3 & R4 & R5); try done; [rewrite length_drop; lia|rewrite Hpre in Hall; by apply Forall_app in Hall as [_ ?]|lia|rewrite length_drop; lia|].
    exists s'. split; [exact E'|]. split; [done|]. split; [done|]. split; [rewrite R3; unfold s3; cbn; lia|]. split; [by rewrite R4|].
    rewrite R5. unfold s3. cbn [frag_free set_arp arp_of]. rewrite Wa. rewrite <- app_assoc. f_equal. cbn [pieces]. change (match d with [] => _ | _ => _ end) with ((ofo, take k d, bool_decide (length d <= k)%nat) :: pieces fuel k (ofo + Z.of_nat k / 8) (drop k d)).
    cbn [map frame_of app]. by rewrite Eb.
Qed.

Lemma push_ok h p x l : segments p = (false, x) :: l -> Z.of_nat (length h) <= room p ->
  push_header h p = Some (Packet ((false, h ++ x) :: l) (room p - Z.of_nat (length h))).
Proof. intros Hp Hr. unfold push_header. rewrite Hp. by destruct (Z.leb_spec (Z.of_nat (length h)) (room p)); [|lia]. Qed.

(** A packet goes out as one frame or as fragments. *)
Lemma output_if_sends p x l s : segments p = (false, x) :: l -> 34 <= room p -> packet_bytes p <> [] -> Z.of_nat (length (packet_bytes p)) <= 65515 ->
  (mtu n < Z.of_nat (length (packet_bytes p)) + 20 -> Forall (fun x => IP_HLEN <= length x.2)%nat l) ->
  is_byte tos -> is_byte ttl -> ready (arp_of s) -> frag_memory s = [] -> id = lwip_htons (ip_id s) ->
  exists s', ip4_output_if_src netifs mtu n p src ip ttl tos proto s = Some (ERR_OK, s') /\ ready (arp_of s') /\ frag_held s' = frag_held s /\
    sent (arp_of s') = sent (arp_of s) ++ map frame_of (pieces (length (packet_bytes p)) k 0 (packet_bytes p)).
Proof.
  intros Hp Hroom Hne Hlen Hparts Htos Httl Hr Hm Hid. unfold ip4_output_if_src. rewrite <- Hid. destruct Hpk as [Hid' Hsrc Hdest _]. pose proof (po_proto _ _ _ _ Hpk) as Hproto. destruct Hk as (Hk0 & Hk1 & Hk8).
  set (d := packet_bytes p) in *. change (Z.of_nat IP_HLEN) with 20. rewrite (u16_small (Z.of_nat (length d) + 20)) by lia.
  destruct (htons_twice (Z.of_nat (length d) + 20) ltac:(lia)) as [_ Hl]. rewrite inline_chksum_spec by (try done; unfold is_byte in *; lia).
  set (h := ip_hdr 0x45 tos _ id 0 ttl proto _ src ip). rewrite (push_ok h p x l Hp) by (unfold h; rewrite length_ip_hdr; lia). change (Z.of_nat (length h)) with 20.
  assert (Ed : d = x ++ concat (l.*2)) by (unfold d, packet_bytes; by rewrite Hp). set (s1 := IpOut _ _ _ _). rewrite Hmtu.
  destruct (Z.eqb_spec (Z.of_nat k + 20) 0) as [|_]; [lia|]. cbn [negb andb]. set (p1 := Packet _ _).
  assert (Hhd : h ++ d = ip_packet tos id ttl proto src ip 0 d) by done.
  assert (Eb : packet_bytes p1 = h ++ d) by (unfold packet_bytes, p1; cbn [segments fmap list_fmap concat snd]; rewrite Ed; by rewrite <- app_assoc).
  destruct (Z.ltb_spec (Z.of_nat k + 20) (Z.of_nat (length d) + 20)) as [Hbig|Hsmall].
  - unfold ip4_frag. rewrite Eb. rewrite take_app_length' by done. rewrite Hhd. destruct (packet_fields tos id ttl proto src ip Hpk 0 d Hlen ltac:(lia)) as (_ & F2 & _ & _ & F5 & _ & _ & _ & _ & F10 & F11).
    rewrite F2, F5, F10. change (negb (5 * 4 =? Z.of_nat IP_HLEN)) with false. cbv iota. change (lwip_htons 0) with 0. change (Z.land 0 IP_MF) with 0. change (negb (0 =? 0)) with false. change (Z.land 0 IP_OFFMASK) with 0. cbv iota.
    change (Z.of_nat IP_HLEN) with 20. replace (Z.of_nat (length d + 20) - 20) with (Z.of_nat (length d)) by lia. rewrite (u16_small (Z.of_nat (length d))) by lia. rewrite Nat2Z.id, Hmtu.
    replace (Z.of_nat k + 20 - 20) with (Z.of_nat k) by lia. rewrite Z.quot_div_nonneg by lia. rewrite (u16_small (Z.of_nat k / 8)) by (split; [apply Z.div_pos; lia|apply Z.div_lt_upper_bound; lia]).
    destruct (frag_loop_sends (lwip_htons (Z.of_nat (length d) + 20)) (65535 - oc (word_sum (ip_hdr 69 tos (lwip_htons (Z.of_nat (length d) + 20)) id 0 ttl proto 0 src ip))) (length d) d 0 (segments p1).*2 IP_HLEN s1)
      as (s' & E & R1 & R2 & R3 & R4 & R5); try done; [change (hd [] (segments p1).*2) with (h ++ x); rewrite length_app; change (length h) with 20%nat; unfold IP_HLEN; lia| |exists s'; by rewrite R3, R5].
    change (Forall (fun y => IP_HLEN <= length y)%nat ((h ++ x) :: l.*2)). constructor; [rewrite length_app; change (length h) with 20%nat; unfold IP_HLEN; lia|]. apply Forall_fmap, Hparts. fold d. lia.
  - destruct (output_sends p1 (arp_of s1) Hr) as (a & E & Ha & W); [unfold header_fits, p1; cbn [segments room negb andb]; apply Z.leb_le; unfold SIZEOF_ETH_HDR; lia|].
    unfold output. rewrite E. cbn [mbind option_bind]. eexists. split; [done|]. split; [done|]. split; [done|]. cbn [set_arp arp_of]. rewrite W. f_equal.
    rewrite pieces_one by (try done; lia). cbn [map frame_of].
    change (lwip_htons (offset_field 0 true)) with 0. by rewrite Eb, Hhd.
Qed.
End sending.

(** ** From pieces to fragments *)

(** Pieces of data that follow one another from [start] on, the last one marked. *)
Fixpoint good (start : Z) (l : list (Z * list Z * bool)) : Prop :=
  match l with
  | [] => False
  | (o, d, last) :: l => 8 * o = start /\ d <> [] /\ match l with [] => last = true | _ => last = false /\ good (start + Z.of_nat (length d)) l end
  end.

Definition piece_data (pc : Z * list Z * bool) : list Z := snd (fst pc).

Lemma pieces_good k fuel : forall ofo d, (0 < k)%nat -> (8 | Z.of_nat k) -> d <> [] -> (length d <= fuel)%nat ->
  good (8 * ofo) (pieces fuel k ofo d) /\ concat (map piece_data (pieces fuel k ofo d)) = d.
Proof.
  induction fuel as [|fuel IH]; intros ofo d Hk H8 Hd Hf; [destruct d; [done|cbn in Hf; lia]|]. destruct d as [|x d0]; [done|]. set (d := x :: d0) in *.
  change (pieces (S fuel) k ofo d) with ((ofo, take k d, bool_decide (length d <= k)%nat) :: pieces fuel k (ofo + Z.of_nat k / 8) (drop k d)).
  assert (Hne : take k d <> []) by (destruct k; [lia|done]). destruct (decide (length d <= k)%nat) as [Hl|Hl].
  - assert (Edr : drop k d = []) by (by apply drop_ge). rewrite Edr. replace (pieces fuel k (ofo + Z.of_nat k / 8) []) with (@nil (Z * list Z * bool)) by (by destruct fuel).
    rewrite bool_decide_eq_true_2 by done. cbn [good map concat piece_data fst snd]. rewrite app_nil_r, take_ge by done. done.
  - assert (Edr : drop k d <> []) by (intros E; apply (f_equal length) in E; rewrite length_drop in E; cbn [length] in E; lia).
    destruct (IH (ofo + Z.of_nat k / 8) (drop k d) Hk H8 Edr) as [IH1 IH2]; [rewrite length_drop; lia|]. rewrite bool_decide_eq_false_2 by done. cbn [map concat piece_data fst snd]. rewrite IH2, take_drop. split; [|done].
    cbn [good]. split; [done|]. split; [done|]. destruct (pieces fuel k (ofo + Z.of_nat k / 8) (drop k d)) as [|pc l]; [done|]. split; [done|]. rewrite length_take, Nat.min_l by lia.
    destruct H8 as [q Eq]. rewrite Eq, Z.div_mul in IH1 by lia. rewrite Eq. by replace (8 * ofo + q * 8) with (8 * (ofo + q)) by lia.
Qed.

Lemma pieces_fit k fuel : forall ofo d pc, pc ∈ pieces fuel k ofo d -> (length (piece_data pc) <= k)%nat.
Proof.
  induction fuel as [|fuel IH]; intros ofo d pc Hpc; cbn [pieces] in Hpc; [by apply elem_of_nil in Hpc|]. destruct d as [|x d]; [by apply elem_of_nil in Hpc|].
  apply elem_of_cons in Hpc as [->|Hpc]; [unfold piece_data; cbn [fst snd]; rewrite length_take; lia|by apply (IH _ _ _ Hpc)].
Qed.

Definition to_frag (pc : Z * list Z * bool) (it : nat * list (list Z)) : frag :=
  Frag it.1 (8 * fst (fst pc)) (8 * fst (fst pc) + Z.of_nat (length (piece_data pc))) it.2.

Section delivery.
Context (tos id ttl proto src dest : Z) (Hpk : packet_ok id proto src dest).

(** A received packet that holds a piece. *)
Definition holds (pc : Z * list Z * bool) (it : nat * list (list Z)) : Prop :=
  concat it.2 = ip_packet tos id ttl proto src dest (lwip_htons (offset_field (fst (fst pc)) (snd pc))) (piece_data pc) /\ (IP_HLEN <= length (hd [] it.2))%nat.

Lemma good_frags pcs : forall items start, good start pcs -> Forall2 holds pcs items -> 0 <= start -> start + Z.of_nat (length (concat (map piece_data pcs))) <= 65515 ->
  let fs := zip_with to_frag pcs items in
  exists fi fl, fs = fi ++ [fl] /\ Forall (frag_ok (ip_packet tos id ttl proto src dest 0 []) false) fi /\ frag_ok (ip_packet tos id ttl proto src dest 0 []) true fl /\
    linked fs = true /\ (forall f, head fs = Some f -> f_start f = start) /\ f_end fl = start + Z.of_nat (length (concat (map piece_data pcs))) /\
    concat (map (fun f => drop IP_HLEN (frag_bytes f)) fs) = concat (map piece_data pcs) /\ Forall (fun f => (IP_HLEN <= length (hd [] (f_segs f)))%nat) fs.
Proof.
  induction pcs as [|[[o d] last] pcs IH]; intros items start Hg Hh Hs Hend fs; [done|]. apply Forall2_cons_inv_l in Hh as (it & items' & [Hit Hhd] & Hh & ->). cbn [good] in Hg. destruct Hg as (Eo & Hd & Hg).
  cbn [map concat piece_data fst snd] in *. rewrite length_app in Hend. set (f := to_frag (o, d, last) it).
  assert (Hf : frag_ok (ip_packet tos id ttl proto src dest 0 []) last f) by (apply (packet_frag tos id ttl proto src dest Hpk f o last d); try done; cbn; lia).
  destruct (offset_field_facts o last ltac:(lia)) as (_ & Hor & _). destruct (packet_fields tos id ttl proto src dest Hpk (lwip_htons (offset_field o last)) d ltac:(lia) Hor) as (_ & _ & _ & _ & _ & _ & _ & _ & _ & _ & F11).
  assert (Edrop : drop IP_HLEN (frag_bytes f) = d) by (unfold frag_bytes, f; cbn [to_frag f_segs]; rewrite Hit; exact F11).
  destruct pcs as [|pc pcs].
  - apply Forall2_nil_inv_l in Hh as ->. subst last. exists [], f. split; [done|]. split; [done|]. split; [done|]. split; [done|]. split; [intros g [= <-]; cbn; lia|]. split; [cbn; rewrite app_nil_r; lia|].
    unfold fs. cbn [zip_with map concat]. fold f. rewrite Edrop. split; [done|]. by constructor.
  - destruct Hg as [-> Hg]. destruct (IH items' (start + Z.of_nat (length d)) Hg Hh ltac:(lia) ltac:(lia)) as (fi & fl & E & H1 & H2 & H3 & H4 & H5 & H6 & H7).
    unfold fs. change (zip_with to_frag ((o, d, false) :: pc :: pcs) (it :: items')) with (f :: zip_with to_frag (pc :: pcs) items'). exists (f :: fi), fl. rewrite E in *. split; [done|]. split; [by constructor|]. split; [done|]. split.
    + destruct (fi ++ [fl]) as [|g l]; [done|]. cbn [linked no_holes_after] in *. rewrite H3, andb_true_r. apply Z.eqb_eq. rewrite (H4 g) by done. cbn. lia.
    + split; [intros g [= <-]; cbn; lia|]. split; [rewrite H5, length_app; lia|]. cbn [map concat]. rewrite Edrop, H6. split; [done|]. by constructor.
Qed.

Lemma hide_concat segs : (IP_HLEN <= length (hd [] segs))%nat -> concat (hide_header segs) = drop IP_HLEN (concat segs).
Proof. destruct segs as [|x l]; cbn [hd hide_header concat]; intros H; [done|]. by rewrite drop_app_le. Qed.

Lemma show_concat h segs : (IP_HLEN <= length (hd [] segs))%nat -> concat (show_header h segs) = h ++ drop IP_HLEN (concat segs).
Proof. destruct segs as [|x l]; cbn [hd show_header concat]; intros H; [unfold IP_HLEN in H; cbn in H; lia|]. by rewrite drop_app_le, app_assoc. Qed.

Lemma whole_concat f0 fi fl : Forall (fun f => (IP_HLEN <= length (hd [] (f_segs f)))%nat) (f0 :: fi ++ [fl]) ->
  let h := whole_header (f_end fl) (take IP_HLEN (frag_bytes f0)) in
  concat (d_segs (whole f0 fi fl)) = h ++ concat (map (fun f => drop IP_HLEN (frag_bytes f)) (f0 :: fi ++ [fl])).
Proof.
  intros Hl h. apply Forall_cons in Hl as [H0 Hl]. unfold whole. cbn [d_segs tail fs map concat]. rewrite concat_app, show_concat by done. fold h. rewrite <- app_assoc. do 2 f_equal.
  induction Hl as [|f l Hf Hl IH]; [done|]. cbn [map concat]. rewrite concat_app, IH, hide_concat by done. done.
Qed.

(** The header of the datagram is that of its packets. *)
Lemma whole_header_packet len off d : exists c, whole_header len (take IP_HLEN (ip_packet tos id ttl proto src dest off d)) =
  ip_hdr 0x45 tos (lwip_htons (u16 (len + 20))) id 0 ttl proto c src dest.
Proof. unfold ip_packet. rewrite take_app_length' by done. eexists. unfold whole_header. cbv zeta. reflexivity. Qed.

Context (netifs : Z -> arp_netif) (netif_list : list Z) (inp n : Z).

(** Packets come in one after the other. *)
Fixpoint receive_all (l : list (nat * list (list Z))) (s : reass) : option (list ip4_result * reass) :=
  match l with
  | [] => Some ([], s)
  | it :: l =>
      let? (r, s) := ip4_input netifs netif_list inp it.1 it.2 s in
      let? (rs, s) := receive_all l s in
      Some (r :: rs, s)
  end.

Context (Hsrc : ip4_addr_isbroadcast_u32 src (ip4 (netifs inp)) || ip4_addr_ismulticast src = false) (Hdest : match_netif netifs netif_list inp dest = Some n).

Definition handed (r : option datagram) : ip4_result := match r with Some d => Deliver proto src dest (hand_up d) | None => Consumed end.

(** Fragments go to the reassembly. *)
Lemma receive_frags l : forall s rs s', reass_all l s = Some (rs, s') ->
  Forall (fun f => exists ofo last d, frag_bytes f = ip_packet tos id ttl proto src dest (lwip_htons (offset_field ofo last)) d /\ 0 <= ofo < 8192 /\
    Z.of_nat (length d) <= 65515 /\ last && (ofo =? 0) = false /\ (IP_HLEN <= length (hd [] (f_segs f)))%nat) l ->
  Forall (fun r => match r with Some d => IPH_PROTO (concat (d_segs d)) = proto | None => True end) rs ->
  receive_all (map (fun f => (f_id f, f_segs f)) l) s = Some (map handed rs, s').
Proof.
  induction l as [|f l IH]; intros s rs s' E Hl Hrs; cbn [reass_all map receive_all] in *; [by injection E as <- <-|].
  apply Forall_cons in Hl as [(ofo & last & d & Hb & Ho & Hd & Hnz & Hhd) Hl]. destruct (offset_field_facts ofo last Ho) as (_ & Hor & _ & Hoz). rewrite Hnz in Hoz.
  cbn [fst snd]. rewrite (input_packet tos id ttl proto src dest Hpk netifs netif_list inp n Hsrc Hdest (f_id f) (f_segs f) s _ d Hb Hhd Hd Hor). rewrite Hoz.
  destruct (ip4_reass (f_id f) (f_segs f) s) as [[r s1]|]; [|done]. cbn [mbind option_bind] in *. destruct (reass_all l s1) as [[rs1 s2]|] eqn:E2; [|done]. cbn [mbind option_bind] in E. injection E as <- <-.
  apply Forall_cons in Hrs as [Hr Hrs]. specialize (IH s1 rs1 s2 E2 Hl Hrs).
  assert (Er : match r with
     | None => Some (Consumed, s1)
     | Some d =>
       if (IPH_PROTO (concat (d_segs d)) =? IP_PROTO_UDP) || (IPH_PROTO (concat (d_segs d)) =? IP_PROTO_TCP) || (IPH_PROTO (concat (d_segs d)) =? IP_PROTO_ICMP) then
         Some (Deliver (IPH_PROTO (concat (d_segs d))) src dest (hand_up d), s1)
       else
         let? s := foldl (fun s i => let? s := s in free_chain i s) (Some s1) (d_ids d) in
         Some (if negb (ip4_addr_isbroadcast_u32 dest (ip4 (netifs n))) && negb (ip4_addr_ismulticast dest) then ProtoUnreach (concat (d_segs d)) else Consumed, s)
     end = Some (handed r, s1)).
  { destruct r as [w|]; [|done]. rewrite Hr. pose proof (po_transport _ _ _ _ Hpk) as Ht. unfold transport in Ht. by rewrite Ht. }
  rewrite Er. cbn [mbind option_bind]. rewrite IH. done.
Qed.

(** The receiver has room, and no datagram of the same name. *)
Definition pbufs_of (items : list (nat * list (list Z))) : Z := foldr (fun it k => Z.of_nat (length it.2) + k) 0 items.

Record room_for (items : list (nat * list (list Z))) (s : reass) : Prop := {
  rf_key : Forall (fun r => ~ same_key (rd_iphdr r) (ip_packet tos id ttl proto src dest 0 [])) (reassdatagrams s);
  rf_datagrams : (length (reassdatagrams s) < MEMP_NUM_REASSDATA)%nat;
  rf_count : 0 <= ip_reass_pbufcount s;
  rf_pbufs : ip_reass_pbufcount s + pbufs_of items <= IP_REASS_MAX_PBUFS
}.

Lemma zip_items pcs items : Forall2 holds pcs items ->
  map (fun f => (f_id f, f_segs f)) (zip_with to_frag pcs items) = items /\ map f_id (zip_with to_frag pcs items) = map fst items /\ clens (zip_with to_frag pcs items) = pbufs_of items.
Proof. induction 1 as [|pc it pcs items _ _ (IH1 & IH2 & IH3)]; [done|]. cbn. rewrite IH1, IH2, IH3. by destruct it. Qed.

Lemma good_packets pcs : forall items start, good start pcs -> Forall2 holds pcs items -> 0 <= start -> start + Z.of_nat (length (concat (map piece_data pcs))) <= 65515 -> 0 < start \/ (2 <= length pcs)%nat ->
  Forall (fun f => exists ofo last d, frag_bytes f = ip_packet tos id ttl proto src dest (lwip_htons (offset_field ofo last)) d /\ 0 <= ofo < 8192 /\
    Z.of_nat (length d) <= 65515 /\ last && (ofo =? 0) = false /\ (IP_HLEN <= length (hd [] (f_segs f)))%nat) (zip_with to_frag pcs items).
Proof.
  induction pcs as [|[[o d] last] pcs IH]; intros items start Hg Hh Hs Hend Hor; [done|]. apply Forall2_cons_inv_l in Hh as (it & items' & [Hit Hhd] & Hh & ->). cbn [good] in Hg. destruct Hg as (Eo & Hd & Hg).
  cbn [map concat piece_data fst snd] in *. rewrite length_app in Hend. assert (Hl : (0 < length d)%nat) by (destruct d; [done|cbn; lia]).
  change (zip_with to_frag ((o, d, last) :: pcs) (it :: items')) with (to_frag (o, d, last) it :: zip_with to_frag pcs items'). constructor.
  - exists o, last, d. split; [exact Hit|]. split; [lia|]. split; [lia|]. split; [|done]. destruct pcs as [|pc pcs]; [|by destruct Hg as [-> _]]. subst last. cbn [andb]. apply Z.eqb_neq. cbn in Hor. lia.
  - destruct pcs as [|pc pcs]; [apply Forall2_nil_inv_l in Hh as ->; constructor|]. destruct Hg as [-> Hg]. apply (IH items' (start + Z.of_nat (length d))); try done; [lia|lia|left; lia].
Qed.

Lemma deliver_pieces pcs items arrivals s : good 0 pcs -> Forall2 holds pcs items -> Z.of_nat (length (concat (map piece_data pcs))) <= 65515 ->
  NoDup (map fst items) -> arrivals ≡ₚ items -> room_for items s ->
  exists d, receive_all arrivals s = Some (replicate (length arrivals - 1) Consumed ++ [Deliver proto src dest d], s) /\ concat (d_segs d) = concat (map piece_data pcs).
Proof.
  intros Hg Hh Hlen Hnd Hperm [R1 R2 R3 R4]. destruct pcs as [|pc [|pc2 pcs]]; [done| |].
  - apply Forall2_cons_inv_l in Hh as (it & ? & [Hb Hhd] & Hh & ->). apply Forall2_nil_inv_l in Hh as ->. apply Permutation_singleton_r in Hperm as ->.
    destruct pc as [[o dt] last]. cbn [good] in Hg. destruct Hg as (Eo & Hd & ->). assert (o = 0) as -> by lia. cbn [map concat piece_data fst snd] in *. rewrite app_nil_r in *.
    change (lwip_htons (offset_field 0 true)) with 0 in Hb. cbn [receive_all]. rewrite (input_packet tos id ttl proto src dest Hpk netifs netif_list inp n Hsrc Hdest it.1 it.2 s 0 dt Hb Hhd Hlen ltac:(lia)).
    change (Z.land 0 _ =? 0) with true. cbn [mbind option_bind d_segs]. rewrite Hb. destruct (packet_fields tos id ttl proto src dest Hpk 0 dt Hlen ltac:(lia)) as (_ & _ & _ & _ & _ & F6 & _ & _ & _ & _ & F11).
    rewrite F6. pose proof (po_transport _ _ _ _ Hpk) as Ht. unfold transport in Ht. rewrite Ht. cbn [mbind option_bind]. eexists. split; [done|]. unfold hand_up. cbn [d_segs]. rewrite hide_concat, Hb by done. exact F11.
  - destruct (zip_items _ _ Hh) as (Z1 & Z2 & Z3). destruct (good_frags _ items 0 Hg Hh ltac:(lia) ltac:(lia)) as (fi & fl & E & H1 & H2 & H3 & H4 & H5 & H6 & H7).
    assert (Hf0 : exists f0 fi', fi = f0 :: fi').
    { destruct fi as [|f0 fi']; [|eauto]. apply (f_equal length) in E. rewrite length_zip_with in E. apply Forall2_length in Hh. rewrite <- Hh in E. cbn in E. lia. }
    destruct Hf0 as (f0 & fi' & ->). set (fs := zip_with to_frag (pc :: pc2 :: pcs) items) in *. cbn [app] in E.
    assert (Hpkt : Forall (fun f => exists ofo last d, frag_bytes f = ip_packet tos id ttl proto src dest (lwip_htons (offset_field ofo last)) d /\ 0 <= ofo < 8192 /\
      Z.of_nat (length d) <= 65515 /\ last && (ofo =? 0) = false /\ (IP_HLEN <= length (hd [] (f_segs f)))%nat) fs).
    { apply (good_packets _ items 0); try done. right. cbn. lia. }
    assert (Hfs : fragments_ok (ip_packet tos id ttl proto src dest 0 []) f0 fi' fl).
    { unfold Ip4Reass.fs in *. split; unfold Ip4Reass.fs; rewrite <- ?E; try done.
      - apply (H4 f0). by rewrite E.
      - by rewrite Z2.
      - rewrite E in Hpkt. apply Forall_cons in Hpkt as [(ofo & last & d & Hb & _) _]. rewrite Hb. unfold ip_packet. rewrite take_app_length' by done. split; [apply bytes_ip_hdr|rewrite length_app, length_ip_hdr; unfold IP_HLEN; lia]. }
    assert (Hroom : room_ok (ip_packet tos id ttl proto src dest 0 []) f0 fi' fl s) by (split; try done; unfold Ip4Reass.fs; rewrite <- E, Z3; done).
    rewrite <- Z1 in Hperm. apply Permutation_map_inv in Hperm as (l & -> & Hperm). symmetry in Hperm. rewrite E in Hperm.
    pose proof (reass_any_order _ f0 fi' fl s Hfs Hroom l Hperm) as Er.
    assert (Ew : concat (d_segs (whole f0 fi' fl)) = whole_header (f_end fl) (take IP_HLEN (frag_bytes f0)) ++ concat (map piece_data (pc :: pc2 :: pcs))).
    { rewrite whole_concat by (by rewrite <- E). by rewrite <- E, H6. }
    assert (Hhdr : exists c len', whole_header (f_end fl) (take IP_HLEN (frag_bytes f0)) = ip_hdr 0x45 tos len' id 0 ttl proto c src dest).
    { rewrite E in Hpkt. apply Forall_cons in Hpkt as [(ofo & last & d & -> & _) _]. destruct (whole_header_packet (f_end fl) (lwip_htons (offset_field ofo last)) d) as [c Ec]. eauto. }
    destruct Hhdr as (c & len' & Eh). rewrite Eh in Ew.
    assert (Hproto : IPH_PROTO (concat (d_segs (whole f0 fi' fl))) = proto).
    { rewrite Ew. unfold IPH_PROTO. destruct (hdr_bytes 0x45 tos len' id 0 ttl proto c src dest (concat (map piece_data (pc :: pc2 :: pcs)))) as (_ & _ & _ & _ & -> & _). rewrite of_le_le_bytes. apply Z.mod_small. pose proof (po_proto _ _ _ _ Hpk). cbn. lia. }
    rewrite (receive_frags l s _ s Er).
    + exists (hand_up (whole f0 fi' fl)). split; [rewrite map_app, length_map; change (map handed (replicate (length l - 1) None)) with (handed <$> replicate (length l - 1) (@None datagram)); by rewrite fmap_replicate|]. unfold hand_up. cbn [d_segs].
      assert (Hhid : concat (hide_header (d_segs (whole f0 fi' fl))) = drop IP_HLEN (concat (d_segs (whole f0 fi' fl)))).
      { apply hide_concat. unfold whole. cbn [d_segs]. rewrite E in H7. apply Forall_cons in H7 as [H0 _]. destruct (f_segs f0) as [|x r] eqn:Ef; [unfold IP_HLEN in H0; cbn in H0; lia|].
        cbn [show_header app hd]. rewrite length_app, Eh, length_ip_hdr. unfold IP_HLEN. lia. }
      rewrite Hhid, Ew. by rewrite drop_app_length'.
    + rewrite Hperm, <- E. exact Hpkt.
    + apply Forall_app. split; [by apply Forall_replicate|]. by constructor.
Qed.
End delivery.

(** ** Theorems *)

Lemma frame_input netifs n mac hw b s : length mac = 6%nat -> length hw = 6%nat -> b <> [] -> Z.land (netif_flags (ip4 (netifs n))) NETIF_FLAG_ETHARP <> 0 ->
  let frame := eth_hdr mac hw ETHTYPE_IP ++ b in
  drop 14 frame = b /\ ethernet_input netifs n frame s = Some (Some (link_layer_flags mac, b), s).
Proof.
  intros Hm Hh Hb Hf frame. do 6 (destruct mac as [|? mac]; [done|]). destruct mac; [|done]. do 6 (destruct hw as [|? hw]; [done|]). destruct hw; [|done].
  split; [done|]. unfold ethernet_input. destruct (Z.leb_spec (Z.of_nat (length frame)) SIZEOF_ETH_HDR) as [H|_]; [unfold frame, SIZEOF_ETH_HDR in H; destruct b; [done|]; cbn in H; lia|].
  apply Z.eqb_neq in Hf. rewrite Hf. done.
Qed.

(** C3: An IP packet is delivered intact from one host to another, whole or in fragments, over
    an interface whose payload is a multiple of eight bytes.  When the hardware address of
    the destination is known and memory suffices, and, for a packet that has to be
    fragmented, no pbuf but the first is shorter than an IP header, [ip4_output]
    sends frames that fit the interface and gives all its memory back; the Ethernet layer of the
    other host accepts each of them.  In whatever order the frames come in, and however
    they are laid out in pbufs, as long as the other host has room for them (ten pbufs and
    five datagrams in reassembly, none of the same name), [ip4_input] hands
    exactly the bytes of the packet up to the transport protocol, once, when the last one is
    in, and the state of the reassembly is what it was before. *)
Theorem ip_datagram_delivered netA listA defA mtu nA netB listB nB m mac k p x l src dest ttl tos proto sA sB aB :
  let src_used := if ip4_addr_isany_val src then netif_ip4_addr netA nA else src in
  let id := lwip_htons (ip_id sA) in
  ip4_route netA listA defA dest = Some nA -> ready dest mac (arp_of sA) -> frag_memory sA = [] -> 0 <= ip_id sA < 65536 ->
  non_unicast netA nA dest = false -> ip4_addr_netcmp dest (ip_addr (ip4 (netA nA))) (netmask (ip4 (netA nA))) = true ->
  mtu nA = Z.of_nat k + 20 -> (0 < k)%nat -> Z.of_nat k <= 65515 -> (8 | Z.of_nat k) ->
  segments p = (false, x) :: l -> 34 <= room p -> packet_bytes p <> [] -> Z.of_nat (length (packet_bytes p)) <= 65515 ->
  (mtu nA < Z.of_nat (length (packet_bytes p)) + 20 -> Forall (fun b => IP_HLEN <= length b.2)%nat l) ->
  is_byte tos -> is_byte ttl -> transport proto = true -> is_u 32 src_used -> is_u 32 dest ->
  length mac = 6%nat -> length (hwaddr (netA nA)) = 6%nat -> Z.land (netif_flags (ip4 (netB nB))) NETIF_FLAG_ETHARP <> 0 ->
  ip4_addr_isbroadcast_u32 src_used (ip4 (netB nB)) || ip4_addr_ismulticast src_used = false -> match_netif netB listB nB dest = Some m ->
  exists sA' frames,
    ip4_output netA mtu listA defA p src dest ttl tos proto sA = Some (ERR_OK, sA') /\
    sent (arp_of sA') = sent (arp_of sA) ++ frames /\ frag_held sA' = frag_held sA /\
    Forall (fun f => Z.of_nat (length f) <= 14 + mtu nA /\ ethernet_input netB nB f aB = Some (Some (link_layer_flags mac, drop 14 f), aB)) frames /\
    forall items arrivals,
      Forall2 (fun f it => concat it.2 = drop 14 f /\ (IP_HLEN <= length (hd [] it.2))%nat) frames items -> NoDup (map fst items) -> arrivals ≡ₚ items ->
      room_for tos id ttl proto src_used dest items sB ->
      exists d, receive_all netB listB nB arrivals sB = Some (replicate (length arrivals - 1) Consumed ++ [Deliver proto src_used dest d], sB) /\
        concat (d_segs d) = packet_bytes p.
Proof.
  intros src_used id Hroute Hready Hm Hid Hlocal Hnet Hmtu Hk0 Hk1 Hk8 Hp Hroom Hne Hlen Hparts Htos Httl Htr Hsu Hdu Hmac Hhw HfB HsB HdB.
  assert (Hpk : packet_ok id proto src_used dest) by (split; try done; by apply htons_twice).
  destruct (output_if_sends netA mtu nA dest mac Hlocal Hnet tos id ttl proto src_used k Hpk Hmtu (conj Hk0 (conj Hk1 Hk8)) p x l sA Hp Hroom Hne Hlen Hparts Htos Httl Hready Hm eq_refl) as (sA' & E & _ & Hheld & Hsent).
  set (d := packet_bytes p) in *. set (pcs := pieces (length d) k 0 d) in *. destruct (pieces_good k (length d) 0 d Hk0 Hk8 Hne (le_n _)) as [Hgood Hdata]. fold pcs in Hgood, Hdata.
  exists sA', (map (frame_of netA nA dest mac tos id ttl proto src_used) pcs). split; [unfold ip4_output; by rewrite Hroute|]. split; [done|]. split; [done|].
  assert (Hb : forall pc, ip_packet tos id ttl proto src_used dest (lwip_htons (offset_field (fst (fst pc)) (snd pc))) (piece_data pc) <> []) by (by intros pc).
  assert (Hfr : forall pc, frame_of netA nA dest mac tos id ttl proto src_used pc = eth_hdr mac (hwaddr (netA nA)) ETHTYPE_IP ++ ip_packet tos id ttl proto src_used dest (lwip_htons (offset_field (fst (fst pc)) (snd pc))) (piece_data pc)) by (by intros [[? ?] ?]).
  split.
  - apply Forall_map, Forall_forall. intros pc Hpc. rewrite Hfr. destruct (frame_input netB nB mac (hwaddr (netA nA)) _ aB Hmac Hhw (Hb pc) HfB) as [H1 H2]. split; [|by rewrite H1].
    assert (Hk : (length (piece_data pc) <= k)%nat) by (by apply (pieces_fit k (length d) 0 d)). unfold eth_hdr, ip_packet. rewrite !length_app, length_ip_hdr, Hmac, Hhw, length_le_bytes, Hmtu. lia.
  - intros items arrivals Hitems Hnd Hperm Hrf. rewrite <- Hdata. apply (deliver_pieces tos id ttl proto src_used dest Hpk netB listB nB m HsB HdB pcs items arrivals sB); try done; [|by rewrite Hdata].
    clearbody pcs. clear -aB Hitems Hmac Hhw Hb Hfr HfB. remember (map _ pcs) as frames eqn:Ef. revert pcs Ef. induction Hitems as [|f it frames items [H1 H2] Hitems IH]; intros pcs Ef; destruct pcs as [|pc pcs]; try done.
    injection Ef as -> ->. constructor; [|by apply IH]. split; [|done]. rewrite H1, Hfr. by destruct (frame_input netB nB mac (hwaddr (netA nA)) _ aB Hmac Hhw (Hb pc) HfB) as [-> _].
Qed.

(** C30: Incomplete datagrams do not stay.  After any history of fragments that come in, whole
    datagrams that are handed up and freed, and runs of the timer, in which no last fragment
    ended beyond the largest datagram and which did not halt the system (see
    [oversized_fragment_fails] and [duplicate_fragment_fails]), four runs of the timer
    succeed; then every datagram that was being put together is gone, its pbufs are freed, each
    once, and none is counted any more. *)
Theorem reass_times_out s : reass_reach s ->
  exists s', reass_ticks 4 s = Some s' /\ reassdatagrams s' = [] /\ ip_reass_pbufcount s' = 0 /\ live s' = live s ∖ list_to_set (ids_of (reassdatagrams s)).
Proof.
  intros [Hs _]%reach_inv. destruct (ticks_ok 4 s IP_REASS_MAXAGE Hs) as (s' & E & Hs' & Ht & El); [eapply Forall_impl; [apply (ro_entries _ Hs)|]; cbn; intros r [_ H]; lia|].
  assert (Hnil : reassdatagrams s' = []).
  { destruct (reassdatagrams s') as [|r l] eqn:Ed; [done|]. pose proof (ro_entries _ Hs') as He. rewrite Ed in He. apply Forall_cons in He as [[_ He] _]. apply Forall_cons in Ht as [Ht _]. unfold IP_REASS_MAXAGE in *. lia. }
  exists s'. split; [done|]. split; [done|]. split; [by rewrite (ro_count _ Hs'), Hnil|]. rewrite <- El, Hnil. unfold ids_of. cbn. set_solver.
Qed.

Lemma chain_duplicate n A f B : forall prev before valid, Forall (fun x => f_start x < f_end x <= f_start n) A -> f_start n = f_start f -> chain_loop n prev before (A ++ f :: B) valid = ChainDropped.
Proof.
  induction A as [|x A IH]; intros prev before valid HA E; cbn [app chain_loop].
  - destruct (Z.ltb_spec (f_start n) (f_start f)); [lia|]. by rewrite E, Z.eqb_refl.
  - apply Forall_cons in HA as [Hx HA]. destruct (Z.ltb_spec (f_start n) (f_start x)); [lia|]. destruct (Z.eqb_spec (f_start n) (f_start x)); [lia|]. destruct (Z.ltb_spec (f_start n) (f_end x)); [lia|]. by apply IH.
Qed.


Lemma free_frags_datagrams l : forall k s r s', free_frags l k s = Some (r, s') -> reassdatagrams s' = reassdatagrams s.
Proof.
  induction l as [|f l IH]; intros k s r s' E; cbn [free_frags] in E; [by injection E as _ <-|]. destruct (_ <=? _); [|done]. unfold free_chain in E. destruct (decide _); [|done]. cbn [mbind option_bind] in E. by apply IH in E.
Qed.

Lemma free_complete_front i s r s' : ip_reass_free_complete_datagram (S i) s = Some (r, s') -> reassdatagrams s' !! 0%nat = reassdatagrams s !! 0%nat.
Proof.
  unfold ip_reass_free_complete_datagram. intros E. destruct (reassdatagrams s !! S i) as [d|]; [|done]. cbn [mbind option_bind] in E. destruct (head (rd_p d)) as [f|]; [|done]. cbn [mbind option_bind] in E.
  destruct (free_frags _ _ _) as [[k s1]|] eqn:Ef; [|done]. cbn [mbind option_bind] in E. apply free_frags_datagrams in Ef. destruct (_ <=? _); [|done]. injection E as _ <-. unfold ip_reass_dequeue_datagram, set_datagrams, set_count. cbn [reassdatagrams].
  rewrite Ef. assert (Es : reassdatagrams (if f_start f =? 0 then icmp_time_exceeded (rd_iphdr d ++ drop IP_HLEN (concat (f_segs f))) s else s) = reassdatagrams s) by (by destruct (f_start f =? 0)). rewrite Es. by destruct (reassdatagrams s).
Qed.

Lemma tmr_loop_front fuel : forall i s s', reass_tmr_loop fuel (S i) s = Some s' -> reassdatagrams s' !! 0%nat = reassdatagrams s !! 0%nat.
Proof.
  induction fuel as [|fuel IH]; intros i s s' E; cbn [reass_tmr_loop] in E; destruct (reassdatagrams s !! S i) as [r|]; try done; try (by injection E as <-).
  destruct (0 <? rd_timer r).
  - apply IH in E. rewrite E. cbn [set_datagrams reassdatagrams]. by destruct (reassdatagrams s).
  - destruct (ip_reass_free_complete_datagram (S i) s) as [[k s1]|] eqn:Ef; [|done]. cbn [mbind option_bind] in E. apply IH in E. rewrite E. by apply free_complete_front in Ef.
Qed.

(** A datagram without fragments at the front of the list. *)
Definition hollow (t : Z) (s : reass) : Prop := exists r, reassdatagrams s !! 0%nat = Some r /\ rd_p r = [] /\ rd_timer r = t.

Lemma hollow_tick t s s' : hollow t s -> ip_reass_tmr s = Some s' -> 0 < t /\ hollow (t - 1) s'.
Proof.
  intros (r & Hr & Hp & Ht) E. unfold ip_reass_tmr in E. destruct (reassdatagrams s) as [|r' l] eqn:Ed; [done|]. injection Hr as ->. cbn [length reass_tmr_loop] in E. rewrite Ed in E. cbn [lookup list_lookup] in E.
  rewrite Ht in E. destruct (Z.ltb_spec 0 t) as [Hlt|Hge].
  - split; [done|]. apply tmr_loop_front in E. exists (ReassData (rd_p r) (rd_iphdr r) (rd_datagram_len r) (rd_flags r) (t - 1)). rewrite E. done.
  - unfold ip_reass_free_complete_datagram in E. rewrite Ed in E. cbn [lookup list_lookup mbind option_bind] in E. by rewrite Hp in E.
Qed.

Lemma hollow_fails k : forall t s, hollow t s -> 0 <= t < Z.of_nat k -> reass_ticks k s = None.
Proof.
  induction k as [|k IH]; intros t s Hs Ht; [lia|]. cbn [reass_ticks]. destruct (ip_reass_tmr s) as [s1|] eqn:E; [|done]. cbn [mbind option_bind]. destruct (hollow_tick t s s1 Hs E) as [Hpos Hh]. apply (IH (t - 1) s1 Hh). lia.
Qed.

(** A last fragment that ends beyond the largest datagram is dropped, but the entry that was made
    for it stays without a fragment, and the timer reads through its null pointer
    within four runs. *)
Theorem oversized_fragment_fails id segs s : let b := concat segs in
  let offset := u16 (frag_offset b * 8) in let datagram_len := u16 (offset + u16 (lwip_htons (IPH_LEN b) - IPH_HL b * 4)) in
  IPH_HL b * 4 = 20 -> Z.land (IPH_OFFSET b) (PP_HTONS IP_MF) = 0 -> datagram_len < offset \/ 65515 < datagram_len ->
  Forall (fun r => ~ same_key (rd_iphdr r) b) (reassdatagrams s) -> (length (reassdatagrams s) < MEMP_NUM_REASSDATA)%nat ->
  ip_reass_pbufcount s + chain_clen segs <= IP_REASS_MAX_PBUFS -> id ∈ live s ->
  exists s1, ip4_reass id segs s = Some (None, s1) /\ reass_ticks 4 s1 = None.
Proof.
  intros b offset datagram_len Hhl Hlast Hbad Hkey Hlen Hcnt Hid. unfold ip4_reass. fold b (frag_offset b). fold offset. fold datagram_len. rewrite Hhl. change (negb (20 =? Z.of_nat IP_HLEN)) with false. cbv iota.
  destruct (Z.ltb_spec IP_REASS_MAX_PBUFS (ip_reass_pbufcount s + chain_clen segs)) as [|_]; [lia|]. cbn [mbind option_bind]. rewrite (find_datagram_none b (reassdatagrams s) 0 Hkey).
  unfold ip_reass_enqueue_new_datagram. rewrite bool_decide_eq_false_2 by lia. cbn [mbind option_bind]. rewrite Hlast. change (0 =? 0) with true. cbn [andb].
  assert (Hb : (datagram_len <? offset) || (0xffff - Z.of_nat IP_HLEN <? datagram_len) = true) by (apply orb_true_iff; rewrite !Z.ltb_lt; unfold IP_HLEN; lia). rewrite Hb.
  unfold free_chain. cbn [set_datagrams live]. destruct (decide (id ∈ live s)); [|done]. cbn [mbind option_bind]. eexists. split; [done|]. apply (hollow_fails 4 IP_REASS_MAXAGE); [|unfold IP_REASS_MAXAGE; lia].
  eexists. split; [done|]. done.
Qed.

(** ** Witnesses *)

(** Host 1 knows the hardware address of host 2; packets of 20 bytes over an interface
    that takes 36. *)
Definition answer : list Z := arp_frame ARP_REPLY [2; 0; 0; 0; 0; 2] [2; 0; 0; 0; 0; 1] [2; 0; 0; 0; 0; 2] (ip_of 2) [2; 0; 0; 0; 0; 1] (ip_of 1).
Definition knowing : arp := default (arp_init [] []) (run_ops (host 1) [OpInput 0 answer] (arp_init [] [])).
Definition sender : ipout := IpOut 7 [] 0 knowing.
Definition receiver : reass := Reass [] 0 {[0%nat; 1%nat; 2%nat]} [].
Definition data (n : nat) : packet := Packet [(false, seqZ 1 (Z.of_nat n))] 54.

Lemma knowing_ready : ready (ip_of 2) [2; 0; 0; 0; 0; 2] knowing.
Proof.
  split; [|by vm_compute|].
  - destruct (run_ops_ok (host 1) [OpInput 0 answer] (arp_init [] []) (arp_init_ok [] [])) as (s & E & Hs); [constructor; [vm_compute; lia|constructor]|]. unfold knowing. by rewrite E.
  - exists 0%nat, (default empty_entry (arp_table knowing !! 0%nat)). vm_compute. repeat split; done.
Qed.

Lemma ip_datagram_delivered_witness : exists sA' frames,
  ip4_output (host 1) (fun _ => 36) [0] None (data 20) 0 (ip_of 2) 64 0 IP_PROTO_UDP sender = Some (ERR_OK, sA') /\
  sent (arp_of sA') = sent (arp_of sender) ++ frames /\ frag_held sA' = frag_held sender /\
  Forall (fun f => Z.of_nat (length f) <= 14 + 36 /\ ethernet_input (host 2) 0 f (arp_init [] []) = Some (Some (link_layer_flags [2; 0; 0; 0; 0; 2], drop 14 f), arp_init [] [])) frames /\
  forall items arrivals,
    Forall2 (fun f it => concat it.2 = drop 14 f /\ (IP_HLEN <= length (hd [] it.2))%nat) frames items -> NoDup (map fst items) -> arrivals ≡ₚ items ->
    room_for 0 (lwip_htons 7) 64 IP_PROTO_UDP (ip_of 1) (ip_of 2) items receiver ->
    exists d, receive_all (host 2) [0] 0 arrivals receiver = Some (replicate (length arrivals - 1) Consumed ++ [Deliver IP_PROTO_UDP (ip_of 1) (ip_of 2) d], receiver) /\
      concat (d_segs d) = packet_bytes (data 20).
Proof.
  apply (ip_datagram_delivered (host 1) [0] None (fun _ => 36) 0 (host 2) [0] 0 0 [2; 0; 0; 0; 0; 2] 16 (data 20) (seqZ 1 20) [] 0 (ip_of 2) 64 0 IP_PROTO_UDP sender receiver (arp_init [] []));
    try (by vm_compute); try apply knowing_ready; [lia|by exists 2].
Defined.

(** The fragments as host 2 receives them, each in one pbuf, and two lying in its queue. *)
Definition sent_by (s : option (Z * ipout)) : list (list Z) := match s with Some (_, s) => sent (arp_of s) | None => [] end.
Definition packets : list (list Z) := map (drop 14) (sent_by (ip4_output (host 1) (fun _ => 36) [0] None (data 20) 0 (ip_of 2) 64 0 IP_PROTO_UDP sender)).
Definition as_items (l : list (list Z)) : list (nat * list (list Z)) := imap (fun i b => (i, [b])) l.

(** The frames come in the other order. *)
Example fragments_swapped : match receive_all (host 2) [0] 0 (rev (as_items packets)) receiver with
  | Some ([Consumed; Deliver _ _ _ d], s) => concat (d_segs d) = packet_bytes (data 20) /\ reassdatagrams s = []
  | _ => False
  end.
Proof. by vm_compute. Qed.

Definition one_queued : reass := match ip4_reass 0 [nth 0 packets []] (arrive 0 reass_empty) with Some (_, s) => s | None => reass_empty end.

Lemma reass_times_out_witness : reassdatagrams one_queued <> [] /\ exists s', reass_ticks 4 one_queued = Some s' /\ reassdatagrams s' = [] /\ ip_reass_pbufcount s' = 0 /\
  live s' = live one_queued ∖ list_to_set (ids_of (reassdatagrams one_queued)).
Proof.
  split; [by vm_compute|]. apply reass_times_out. apply rtc_once, (rm_fragment 0 [nth 0 packets []] None); [set_solver|done|by vm_compute..].
Defined.

(** When the interface takes 30 bytes, ten bytes are left for the data of a fragment, of
    which eight are used; the test for the last fragment compares with ten. *)
Definition unaligned : list (list Z) := map (drop 14) (sent_by (ip4_output (host 1) (fun _ => 30) [0] None (data 18) 0 (ip_of 2) 64 0 IP_PROTO_UDP sender)).

(** When the payload of the interface is not a multiple of eight, the fragment before the last is
    marked as the last one when the rest would have fitted: the receiver takes the
    datagram for complete without its end. *)
Theorem unaligned_mtu_truncates : match receive_all (host 2) [0] 0 (as_items unaligned) receiver with
  | Some ([Consumed; Deliver _ _ _ d; Consumed], _) => concat (d_segs d) = take 16 (packet_bytes (data 18))
  | _ => False
  end.
Proof. by vm_compute. Qed.

(** A chain of 15, 4 and 20 bytes, sent in fragments of 16 bytes: the second fragment starts in the
    pbuf of four bytes. *)
Definition short_pbuf : packet := Packet [(false, seqZ 0 15); (false, seqZ 15 4); (false, seqZ 19 20)] 54.

(** A packet that has to be fragmented halts the system when a fragment starts in a pbuf that is
    shorter than an IP header: the assertion that is meant for the pbuf with the header is evaluated
    for the current pbuf of every fragment. *)
Theorem short_pbuf_halts : ip4_output (host 1) (fun _ => 36) [0] None short_pbuf 0 (ip_of 2) 64 0 IP_PROTO_UDP sender = None.
Proof. by vm_compute. Qed.

Definition first_frag : frag := Frag 0 0 16 [nth 0 packets []].
Definition second_frag : frag := Frag 1 16 20 [nth 1 packets []].


(** The last eight bytes of a datagram of 65536 bytes. *)
Definition beyond : list Z := ip_packet 0 (lwip_htons 7) 64 IP_PROTO_UDP (ip_of 1) (ip_of 2) (lwip_htons (offset_field 8191 true)) (seqZ 0 8).

Lemma oversized_fragment_fails_witness : exists s1, ip4_reass 0 [beyond] receiver = Some (None, s1) /\ reass_ticks 4 s1 = None.
Proof. apply oversized_fragment_fails; [by vm_compute|by vm_compute|left; by vm_compute|done|vm_compute; lia|by vm_compute|unfold receiver; cbn [live]; set_solver]. Defined.
