(* ===== verification/MqttRing.v ===== *)
(** * The MQTT output path: ring buffer and message building

    [ext/lwip/src/apps/mqtt/mqtt.c], "Output ring buffer" and "Output message
    build helpers".  Indices are free-running 16-bit counters masked on access.
    TCP is behind an interface whose laws are what lwIP documents of
    [tcp_write]: accepted bytes are queued for transmission in order, a refused
    call queues nothing. *)

From Stdlib Require Import ZArith Lia.
From stdpp Require Import base list option numbers.
From S2P Require Import Prelude.

Local Open Scope Z_scope.

Definition MQTT_OUTPUT_RINGBUF_SIZE : Z := 256.
Definition MQTT_RINGBUF_IDX_MASK : Z := MQTT_OUTPUT_RINGBUF_SIZE - 1.

Definition ERR_OK : Z := 0.
Definition ERR_MEM : Z := -1.

Record mqtt_ringbuf_t := Ring { rb_put : Z; rb_get : Z; rb_buf : list Z }.

Definition mqtt_ringbuf_put (item : Z) (rb : mqtt_ringbuf_t) : mqtt_ringbuf_t :=
  Ring (u16 (rb_put rb + 1)) (rb_get rb)
       (<[Z.to_nat (Z.land (rb_put rb) MQTT_RINGBUF_IDX_MASK) := u8 item]> (rb_buf rb)).
Definition mqtt_ringbuf_len (rb : mqtt_ringbuf_t) : Z := u16 (rb_put rb - rb_get rb).
Definition mqtt_ringbuf_free (rb : mqtt_ringbuf_t) : Z :=
  MQTT_OUTPUT_RINGBUF_SIZE - mqtt_ringbuf_len rb.
Definition mqtt_ringbuf_linear_read_length (rb : mqtt_ringbuf_t) : Z :=
  Z.min (mqtt_ringbuf_len rb)
        (MQTT_OUTPUT_RINGBUF_SIZE - Z.land (rb_get rb) MQTT_RINGBUF_IDX_MASK).
(** The [n] bytes from the get position on. *)
Definition mqtt_ringbuf_read (n : Z) (rb : mqtt_ringbuf_t) : list Z :=
  take (Z.to_nat n) (drop (Z.to_nat (Z.land (rb_get rb) MQTT_RINGBUF_IDX_MASK)) (rb_buf rb)).
Definition mqtt_ringbuf_advance_get_idx (n : Z) (rb : mqtt_ringbuf_t) : mqtt_ringbuf_t :=
  Ring (rb_put rb) (u16 (rb_get rb + n)) (rb_buf rb).

(** ** TCP *)

Class TcpOps (T : Type) := {
  tcp_sndbuf : T -> Z;
  tcp_write : T -> list Z -> Z -> Z * T;
  tcp_output : T -> T;
  tcp_queued : T -> list Z      (* bytes accepted so far, oldest first *)
}.

Class TcpLaws (T : Type) `{TcpOps T} : Prop := {
  tcp_sndbuf_u16 t : is_u 16 (tcp_sndbuf t);
  tcp_write_ok t l f t' : tcp_write t l f = (ERR_OK, t') -> tcp_queued t' = tcp_queued t ++ l;
  tcp_write_err t l f e t' : tcp_write t l f = (e, t') -> e <> ERR_OK -> tcp_queued t' = tcp_queued t;
  tcp_output_queued t : tcp_queued (tcp_output t) = tcp_queued t
}.

Definition TCP_WRITE_FLAG_COPY : Z := 1.
Definition TCP_WRITE_FLAG_MORE : Z := 2.

Section Output.
Context {T : Type} `{TcpOps T}.

Definition mqtt_output_send (rb : mqtt_ringbuf_t) (tpcb : T) : mqtt_ringbuf_t * T :=
  let ringbuf_lin_len := u16 (mqtt_ringbuf_linear_read_length rb) in
  let send_len := tcp_sndbuf tpcb in
  if (send_len =? 0) || (ringbuf_lin_len =? 0) then (rb, tpcb)
  else
    let '(send_len, wrap) :=
      if ringbuf_lin_len <? send_len
      then (ringbuf_lin_len, ringbuf_lin_len <? mqtt_ringbuf_len rb)
      else (send_len, false) in
    let '(err, tpcb) := tcp_write tpcb (mqtt_ringbuf_read send_len rb)
      (Z.lor TCP_WRITE_FLAG_COPY (if wrap then TCP_WRITE_FLAG_MORE else 0)) in
    let '(err, send_len, rb, tpcb) :=
      if (err =? ERR_OK) && wrap then
        let rb := mqtt_ringbuf_advance_get_idx send_len rb in
        let send_len := u16 (Z.min (tcp_sndbuf tpcb) (mqtt_ringbuf_linear_read_length rb)) in
        let '(err, tpcb) := tcp_write tpcb (mqtt_ringbuf_read send_len rb) TCP_WRITE_FLAG_COPY in
        (err, send_len, rb, tpcb)
      else (err, send_len, rb, tpcb) in
    if err =? ERR_OK then (mqtt_ringbuf_advance_get_idx send_len rb, tcp_output tpcb)
    else (rb, tpcb).
End Output.

(** ** Message building *)

Definition mqtt_output_append_u8 (value : Z) (rb : mqtt_ringbuf_t) : mqtt_ringbuf_t :=
  mqtt_ringbuf_put value rb.

Definition mqtt_output_append_u16 (value : Z) (rb : mqtt_ringbuf_t) : mqtt_ringbuf_t :=
  mqtt_ringbuf_put (Z.land value 0xff) (mqtt_ringbuf_put (Z.shiftr value 8) rb).

Fixpoint mqtt_output_append_buf (data : list Z) (rb : mqtt_ringbuf_t) : mqtt_ringbuf_t :=
  match data with
  | [] => rb
  | b :: data => mqtt_output_append_buf data (mqtt_ringbuf_put b rb)
  end.

Definition mqtt_output_append_string (str : list Z) (length : Z) (rb : mqtt_ringbuf_t)
    : mqtt_ringbuf_t :=
  let rb := mqtt_ringbuf_put (Z.shiftr length 8) rb in
  let rb := mqtt_ringbuf_put (Z.land length 0xff) rb in
  mqtt_output_append_buf (take (Z.to_nat length) str) rb.

(** [do ... while (r_length > 0)]: a 16-bit length takes at most three rounds. *)
Fixpoint append_length (fuel : nat) (r_length : Z) (rb : mqtt_ringbuf_t) : option mqtt_ringbuf_t :=
  match fuel with
  | O => None
  | S fuel =>
      let rb := mqtt_output_append_u8
        (Z.lor (Z.land r_length 0x7f) (if 128 <=? r_length then 0x80 else 0)) rb in
      let r_length := Z.shiftr r_length 7 in
      if 0 <? r_length then append_length fuel r_length rb else Some rb
  end.

Definition mqtt_output_append_fixed_header (msg_type dup qos retain r_length : Z)
    (rb : mqtt_ringbuf_t) : option mqtt_ringbuf_t :=
  let rb := mqtt_output_append_u8
    (Z.lor (Z.lor (Z.lor (Z.shiftl (Z.land msg_type 0x0f) 4) (Z.shiftl (Z.land dup 1) 3))
                  (Z.shiftl (Z.land qos 3) 1)) (Z.land retain 1)) rb in
  append_length 3 r_length rb.

Fixpoint count_length (fuel : nat) (total_len r_length : Z) : option Z :=
  match fuel with
  | O => None
  | S fuel =>
      let total_len := u16 (total_len + 1) in
      let r_length := Z.shiftr r_length 7 in
      if 0 <? r_length then count_length fuel total_len r_length else Some total_len
  end.

Definition mqtt_output_check_space (rb : mqtt_ringbuf_t) (r_length : Z) : option bool :=
  match count_length 3 (u16 (1 + r_length)) r_length with
  | Some total_len => Some (total_len <=? mqtt_ringbuf_free rb)
  | None => None
  end.

(** ** The buffer as a queue *)

Record ring_wf (rb : mqtt_ringbuf_t) : Prop := {
  wf_put : is_u 16 (rb_put rb);
  wf_get : is_u 16 (rb_get rb);
  wf_size : length (rb_buf rb) = 256%nat;
  wf_len : mqtt_ringbuf_len rb <= MQTT_OUTPUT_RINGBUF_SIZE
}.

(** The bytes in the buffer, oldest first. *)
Definition ring_contents (rb : mqtt_ringbuf_t) : list Z :=
  map (fun i => nth (Z.to_nat ((rb_get rb + Z.of_nat i) mod 256)) (rb_buf rb) 0)
      (seq 0 (Z.to_nat (mqtt_ringbuf_len rb))).

Lemma land_mask z : Z.land z MQTT_RINGBUF_IDX_MASK = z mod 256.
Proof. change MQTT_RINGBUF_IDX_MASK with (Z.ones 8). by rewrite Z.land_ones by lia. Qed.

Lemma length_ring_contents rb :
  0 <= mqtt_ringbuf_len rb -> Z.of_nat (length (ring_contents rb)) = mqtt_ringbuf_len rb.
Proof. intros. unfold ring_contents. rewrite length_map, length_seq. lia. Qed.

Lemma len_range rb : is_u 16 (mqtt_ringbuf_len rb).
Proof. apply wrap_range. lia. Qed.

Lemma put_wf rb b : ring_wf rb -> mqtt_ringbuf_len rb < 256 -> ring_wf (mqtt_ringbuf_put b rb).
Proof.
  intros [Hp Hg Hs Hl] Hf. split; cbn.
  - apply wrap_range; lia.
  - done.
  - by rewrite length_insert.
  - unfold mqtt_ringbuf_len in *; cbn. unfold MQTT_OUTPUT_RINGBUF_SIZE in *. wsolve.
Qed.

Lemma put_len rb b :
  ring_wf rb -> mqtt_ringbuf_len rb < 256 ->
  mqtt_ringbuf_len (mqtt_ringbuf_put b rb) = mqtt_ringbuf_len rb + 1.
Proof. intros [Hp Hg Hs Hl] Hf. unfold mqtt_ringbuf_len in *; cbn. wsolve. Qed.

Lemma put_contents rb b :
  ring_wf rb -> mqtt_ringbuf_len rb < 256 ->
  ring_contents (mqtt_ringbuf_put b rb) = ring_contents rb ++ [u8 b].
Proof.
  intros Hwf Hf. pose proof Hwf as [Hp Hg Hs Hl]. unfold ring_contents.
  rewrite put_len by done. pose proof (len_range rb) as [Hl0 _].
  rewrite Z2Nat.inj_add, seq_app, map_app by lia. cbn [seq map rb_get mqtt_ringbuf_put rb_buf].
  rewrite land_mask.
  assert (rb_put rb mod 256 = (rb_get rb + mqtt_ringbuf_len rb) mod 256) as E.
  { unfold mqtt_ringbuf_len. wsolve. }
  f_equal.
  - apply map_ext_in. intros i Hi. apply in_seq in Hi.
    rewrite !nth_lookup, list_lookup_insert_ne; [done|].
    intros Heq. assert ((rb_get rb + Z.of_nat i) mod 256 = rb_put rb mod 256) as Heq'.
    { pose proof (Z.mod_pos_bound (rb_put rb) 256). pose proof (Z.mod_pos_bound (rb_get rb + Z.of_nat i) 256). lia. }
    rewrite E in Heq'. Z.div_mod_to_equations; lia.
  - change (Z.to_nat 1) with 1%nat. cbn [seq map]. f_equal. rewrite Nat.add_0_l, Z2Nat.id by lia. rewrite <- E, nth_lookup, list_lookup_insert_eq; [done|].
    rewrite Hs. pose proof (Z.mod_pos_bound (rb_put rb) 256). lia.
Qed.

Lemma append_buf_contents l : forall rb,
  ring_wf rb -> mqtt_ringbuf_len rb + Z.of_nat (length l) <= 256 ->
  ring_wf (mqtt_output_append_buf l rb) /\
  mqtt_ringbuf_len (mqtt_output_append_buf l rb) = mqtt_ringbuf_len rb + Z.of_nat (length l) /\
  ring_contents (mqtt_output_append_buf l rb) = ring_contents rb ++ map u8 l.
Proof.
  induction l as [|b l IH]; intros rb Hwf Hl; cbn [mqtt_output_append_buf map].
  { rewrite app_nil_r. cbn [length]. split; [done|]. split; [lia|done]. }
  cbn [length] in Hl.
  destruct (IH (mqtt_ringbuf_put b rb)) as (H1 & H2 & H3).
  - apply put_wf; [done|lia].
  - rewrite put_len by (done || lia). lia.
  - split; [done|]. rewrite H2, H3, put_len, put_contents, <- app_assoc by (done || lia).
    split; [cbn [length]; lia|done].
Qed.

(** The builders write fixed byte strings. *)
Lemma append_u16_buf v rb :
  mqtt_output_append_u16 v rb = mqtt_output_append_buf [Z.shiftr v 8; Z.land v 0xff] rb.
Proof. done. Qed.

Lemma append_string_buf str n rb :
  mqtt_output_append_string str n rb =
    mqtt_output_append_buf (Z.shiftr n 8 :: Z.land n 0xff :: take (Z.to_nat n) str) rb.
Proof. done. Qed.

Fixpoint length_bytes (fuel : nat) (n : Z) : list Z :=
  match fuel with
  | O => []
  | S fuel =>
      Z.lor (Z.land n 0x7f) (if 128 <=? n then 0x80 else 0) ::
      (if 0 <? Z.shiftr n 7 then length_bytes fuel (Z.shiftr n 7) else [])
  end.

Definition header_byte (msg_type dup qos retain : Z) : Z :=
  Z.lor (Z.lor (Z.lor (Z.shiftl (Z.land msg_type 0x0f) 4) (Z.shiftl (Z.land dup 1) 3))
               (Z.shiftl (Z.land qos 3) 1)) (Z.land retain 1).

Definition fixed_header (msg_type dup qos retain r_length : Z) : list Z :=
  header_byte msg_type dup qos retain :: length_bytes 3 r_length.

Lemma shiftr7_lt n k : 0 <= n < 2 ^ (7 * Z.succ k) -> 0 <= k -> 0 <= Z.shiftr n 7 < 2 ^ (7 * k).
Proof.
  intros [Hn Hlt] Hk. rewrite Z.shiftr_div_pow2 by lia. split; [apply Z.div_pos; lia|].
  apply Z.div_lt_upper_bound; [lia|]. rewrite <- Z.pow_add_r by lia.
  by replace (7 + 7 * k) with (7 * Z.succ k) by lia.
Qed.

Lemma append_length_buf fuel : forall n rb,
  0 <= n < 2 ^ (7 * Z.of_nat fuel) -> (0 < fuel)%nat ->
  append_length fuel n rb = Some (mqtt_output_append_buf (length_bytes fuel n) rb).
Proof.
  induction fuel as [|fuel IH]; intros n rb Hn Hf; [lia|].
  rewrite Nat2Z.inj_succ in Hn. pose proof (shiftr7_lt n (Z.of_nat fuel) Hn ltac:(lia)) as Hs.
  cbn [append_length length_bytes mqtt_output_append_buf]. unfold mqtt_output_append_u8.
  destruct (Z.ltb_spec 0 (Z.shiftr n 7)); [|done].
  rewrite IH; [done|done|]. destruct fuel; [cbn in Hs; lia|lia].
Qed.

Lemma append_fixed_header_buf t d q r n rb :
  is_u 16 n ->
  mqtt_output_append_fixed_header t d q r n rb
    = Some (mqtt_output_append_buf (fixed_header t d q r n) rb).
Proof.
  intros [Hn Hlt]. unfold mqtt_output_append_fixed_header, fixed_header.
  rewrite append_length_buf by (cbn; lia). done.
Qed.

Lemma append_buf_app l1 l2 rb :
  mqtt_output_append_buf l2 (mqtt_output_append_buf l1 rb) = mqtt_output_append_buf (l1 ++ l2) rb.
Proof. revert rb. induction l1 as [|b l1 IH]; intros rb; [done|]. apply IH. Qed.

(** [mqtt_output_check_space] counts the header bytes, in 16 bits. *)
Lemma count_length_bytes fuel : forall t n,
  0 <= n < 2 ^ (7 * Z.of_nat fuel) -> (0 < fuel)%nat ->
  count_length fuel (u16 t) n = Some (u16 (t + Z.of_nat (length (length_bytes fuel n)))).
Proof.
  induction fuel as [|fuel IH]; intros t n Hn Hf; [lia|].
  rewrite Nat2Z.inj_succ in Hn. pose proof (shiftr7_lt n (Z.of_nat fuel) Hn ltac:(lia)) as Hs.
  cbn [count_length length_bytes length].
  assert (u16 (u16 t + 1) = u16 (t + 1)) as -> by apply wrap_add_l.
  destruct (Z.ltb_spec 0 (Z.shiftr n 7)).
  - rewrite IH; [do 2 f_equal; lia|done|]. destruct fuel; [cbn in Hs; lia|lia].
  - do 2 f_equal.
Qed.

Lemma length_length_bytes n : is_u 16 n -> (1 <= length (length_bytes 3 n) <= 3)%nat.
Proof.
  intros _. cbn [length_bytes]. repeat match goal with |- context [0 <? ?x] => destruct (0 <? x) end;
    cbn [length]; lia.
Qed.

Lemma check_space_spec rb n :
  is_u 16 n ->
  mqtt_output_check_space rb n =
    Some (u16 (1 + Z.of_nat (length (length_bytes 3 n)) + n) <=? mqtt_ringbuf_free rb).
Proof.
  intros Hn. unfold mqtt_output_check_space. pose proof Hn as [??].
  rewrite count_length_bytes by (cbn; lia). do 3 f_equal. lia.
Qed.

(** A positive answer means the whole message fits, unless the 16-bit total
    wraps around. *)
Lemma check_space_fits rb n t d q r :
  ring_wf rb -> 0 <= n < 65532 -> mqtt_output_check_space rb n = Some true ->
  mqtt_ringbuf_len rb + Z.of_nat (length (fixed_header t d q r n)) + n <= 256.
Proof.
  intros Hwf Hn H. rewrite check_space_spec in H by (unfold is_u; lia). apply (inj Some) in H.
  apply Z.leb_le in H. pose proof (length_length_bytes n ltac:(unfold is_u; lia)).
  rewrite u16_small in H by lia. unfold mqtt_ringbuf_free, MQTT_OUTPUT_RINGBUF_SIZE in H.
  unfold fixed_header. cbn [length]. lia.
Qed.

(** ** Reading *)

Lemma advance_wf n rb :
  ring_wf rb -> 0 <= n <= mqtt_ringbuf_len rb ->
  ring_wf (mqtt_ringbuf_advance_get_idx n rb) /\
  mqtt_ringbuf_len (mqtt_ringbuf_advance_get_idx n rb) = mqtt_ringbuf_len rb - n.
Proof.
  intros [Hp Hg Hs Hl] Hn.
  assert (mqtt_ringbuf_len (mqtt_ringbuf_advance_get_idx n rb) = mqtt_ringbuf_len rb - n) as E.
  { unfold mqtt_ringbuf_len in *; cbn. wsolve. }
  split; [|done]. split; cbn [rb_put rb_get rb_buf mqtt_ringbuf_advance_get_idx];
    [done|apply wrap_range; lia|done|rewrite E; lia].
Qed.

Lemma advance_contents n rb :
  ring_wf rb -> 0 <= n <= mqtt_ringbuf_len rb ->
  ring_contents (mqtt_ringbuf_advance_get_idx n rb) = drop (Z.to_nat n) (ring_contents rb).
Proof.
  intros Hwf Hn. unfold ring_contents. destruct (advance_wf n rb Hwf Hn) as [_ ->].
  rewrite skipn_map. rewrite Z2Nat.inj_sub by lia. rewrite skipn_seq, Nat.add_0_l.
  rewrite <- (Nat.add_0_r (Z.to_nat n)) at 2.
  replace (seq (Z.to_nat n + 0) (Z.to_nat (mqtt_ringbuf_len rb) - Z.to_nat n))
    with (map (fun i => (Z.to_nat n + i)%nat) (seq 0 (Z.to_nat (mqtt_ringbuf_len rb) - Z.to_nat n))).
  2: { rewrite Nat.add_0_r. generalize (Z.to_nat (mqtt_ringbuf_len rb) - Z.to_nat n)%nat.
       intros k. apply list_eq. intros i. rewrite list_lookup_fmap.
       destruct (decide (i < k)%nat).
       - rewrite !lookup_seq_lt by done. done.
       - rewrite !lookup_seq_ge by lia. done. }
  rewrite map_map. apply map_ext. intros i. cbn [rb_get rb_buf mqtt_ringbuf_advance_get_idx].
  do 2 f_equal. destruct Hwf as [_ [??] _ _]. wsolve.
Qed.

Lemma read_contents n rb :
  ring_wf rb -> 0 <= n <= mqtt_ringbuf_linear_read_length rb ->
  mqtt_ringbuf_read n rb = take (Z.to_nat n) (ring_contents rb).
Proof.
  intros [Hp Hg Hs Hl] Hn. unfold mqtt_ringbuf_read, mqtt_ringbuf_linear_read_length in *.
  rewrite land_mask in *. unfold MQTT_OUTPUT_RINGBUF_SIZE in *.
  pose proof (Z.mod_pos_bound (rb_get rb) 256 ltac:(lia)) as Hm.
  apply list_eq. intros i. destruct (decide (i < Z.to_nat n)%nat) as [Hi|Hi].
  - rewrite !lookup_take_lt by done. rewrite lookup_drop. unfold ring_contents.
    rewrite list_lookup_fmap, lookup_seq_lt by lia. cbn [fmap option_fmap option_map].
    rewrite Nat.add_0_l. replace ((rb_get rb + Z.of_nat i) mod 256) with (rb_get rb mod 256 + Z.of_nat i)
      by (Z.div_mod_to_equations; lia).
    rewrite Z2Nat.inj_add, Nat2Z.id by lia.
    destruct (lookup_lt_is_Some_2 (rb_buf rb) (Z.to_nat (rb_get rb mod 256) + i)) as [x Hx]; [lia|].
    by rewrite Hx, (nth_lookup_Some _ _ _ _ Hx).
  - rewrite !lookup_take_ge by lia. done.
Qed.

(** ** Properties *)

(** One successful write moves the first [n] bytes of the buffer to TCP. *)
Lemma write_moves {T} `{TcpLaws T} rb n f (t t' : T) e :
  ring_wf rb -> 0 <= n <= mqtt_ringbuf_linear_read_length rb ->
  tcp_write t (mqtt_ringbuf_read n rb) f = (e, t') ->
  let rb' := if e =? ERR_OK then mqtt_ringbuf_advance_get_idx n rb else rb in
  tcp_queued t' ++ ring_contents rb' = tcp_queued t ++ ring_contents rb /\ ring_wf rb' /\
  mqtt_ringbuf_len rb' <= mqtt_ringbuf_len rb.
Proof.
  intros Hwf Hn E. assert (n <= mqtt_ringbuf_len rb) by
    (unfold mqtt_ringbuf_linear_read_length in Hn; lia).
  destruct (Z.eqb_spec e ERR_OK) as [->|Hne]; cbn zeta.
  - rewrite (tcp_write_ok _ _ _ _ E), read_contents, advance_contents by (done || lia).
    rewrite <- app_assoc, take_drop. split; [done|]. destruct (advance_wf n rb Hwf) as [Hw ->]; [lia|].
    split; [done|lia].
  - by rewrite (tcp_write_err _ _ _ _ _ E Hne).
Qed.

Lemma linear_range rb : ring_wf rb -> 0 <= mqtt_ringbuf_linear_read_length rb <= 256.
Proof.
  intros [Hp Hg Hs Hl]. unfold mqtt_ringbuf_linear_read_length. rewrite land_mask.
  pose proof (len_range rb). pose proof (Z.mod_pos_bound (rb_get rb) 256 ltac:(lia)).
  unfold MQTT_OUTPUT_RINGBUF_SIZE, is_u in *. lia.
Qed.

Lemma output_send_spec {T : Type} `{TcpLaws T} (rb : mqtt_ringbuf_t) (t : T) :
  ring_wf rb ->
  let '(rb', t') := mqtt_output_send rb t in
  tcp_queued t' ++ ring_contents rb' = tcp_queued t ++ ring_contents rb /\ ring_wf rb' /\
  mqtt_ringbuf_len rb' <= mqtt_ringbuf_len rb.
Proof.
  intros Hwf. unfold mqtt_output_send. pose proof (linear_range rb Hwf) as Hlin.
  rewrite u16_small by lia. pose proof (tcp_sndbuf_u16 t) as [Hsnd _].
  destruct (_ || _); [done|].
  destruct (if _ <? tcp_sndbuf t then _ else _) as [n wrap] eqn:En.
  assert (0 <= n <= mqtt_ringbuf_linear_read_length rb) as Hn.
  { destruct (Z.ltb_spec (mqtt_ringbuf_linear_read_length rb) (tcp_sndbuf t)); injection En as <- _; lia. }
  clear En. destruct (tcp_write t _ _) as [e t1] eqn:E1.
  destruct (write_moves rb n _ t t1 e Hwf Hn E1) as (Hq1 & Hwf1 & Hl1).
  destruct (Z.eqb_spec e ERR_OK) as [->|Hne]; cbn [andb].
  2: { rewrite (proj2 (Z.eqb_neq e ERR_OK)) by done. done. }
  destruct wrap; [|cbv beta iota zeta; by rewrite ?Z.eqb_refl, tcp_output_queued].
  set (rb1 := mqtt_ringbuf_advance_get_idx n rb) in *.
  pose proof (linear_range rb1 Hwf1) as Hlin1. pose proof (tcp_sndbuf_u16 t1) as [Hsnd1 _].
  rewrite u16_small by lia. set (k := Z.min _ _).
  destruct (tcp_write t1 _ _) as [e2 t2] eqn:E2.
  assert (0 <= k <= mqtt_ringbuf_linear_read_length rb1) as Hk by lia.
  destruct (write_moves rb1 k _ t1 t2 e2 Hwf1 Hk E2) as (Hq2 & Hwf2 & Hl2).
  destruct (Z.eqb_spec e2 ERR_OK) as [->|Hne2]; [rewrite ?Z.eqb_refl, tcp_output_queued|];
    (split; [congruence|]); (split; [done|lia]).
Qed.

(** [mqtt_output_send] neither loses, duplicates nor reorders bytes: whatever
    TCP accepts or refuses, and whether or not the data wraps around the end of
    the buffer, the bytes handed to TCP followed by those still in the ring
    buffer are the same sequence before and after. *)
Theorem mqtt_output_send_fifo {T : Type} `{TcpLaws T} (rb : mqtt_ringbuf_t) (t : T) :
  ring_wf rb ->
  let '(rb', t') := mqtt_output_send rb t in
  tcp_queued t' ++ ring_contents rb' = tcp_queued t ++ ring_contents rb /\ ring_wf rb' /\
  mqtt_ringbuf_len rb' <= mqtt_ringbuf_len rb.
Proof. apply output_send_spec. Qed.

(** A TCP that accepts as much as it has room for. *)
Record sink := Sink { room : Z; sent : list Z }.
#[global] Instance sink_ops : TcpOps sink := {
  tcp_sndbuf s := u16 (room s);
  tcp_write s l _ :=
    if Z.of_nat (length l) <=? room s
    then (ERR_OK, Sink (room s - Z.of_nat (length l)) (sent s ++ l)) else (ERR_MEM, s);
  tcp_output s := s;
  tcp_queued := sent
}.
#[global] Instance sink_laws : TcpLaws sink.
Proof.
  split; cbn.
  - intros. apply wrap_range. lia.
  - intros t l _ t'. destruct (_ <=? _); [by intros [= <-]|done].
  - intros t l _ e t'. destruct (_ <=? _); [by intros [= <- _]|by intros [= _ <-]].
  - done.
Qed.

Definition wrapped_ring : mqtt_ringbuf_t :=
  mqtt_output_append_buf [1; 2; 3; 4; 5] (Ring 254 254 (repeat 0 256)).

Lemma wrapped_ring_wf : ring_wf wrapped_ring.
Proof. split; by vm_compute. Qed.

Lemma mqtt_output_send_fifo_witness :
  sent (snd (mqtt_output_send wrapped_ring (Sink 4 [9])))
    ++ ring_contents (fst (mqtt_output_send wrapped_ring (Sink 4 [9]))) = [9; 1; 2; 3; 4; 5].
Proof.
  pose proof (mqtt_output_send_fifo wrapped_ring (Sink 4 [9]) wrapped_ring_wf) as H.
  destruct (mqtt_output_send wrapped_ring (Sink 4 [9])) as [rb' t'].
  destruct H as [H _]. exact H.
Defined.

(** The space check of the output buffer is computed in 16 bits: for a
    remaining length of 65532 or more it wraps around and reports that the
    message fits into the 256-byte ring buffer, whatever the buffer holds. *)
Theorem mqtt_check_space_wraps (rb : mqtt_ringbuf_t) (r_length : Z) :
  ring_wf rb -> 65532 <= r_length < 65536 -> mqtt_ringbuf_len rb <= 252 ->
  mqtt_output_check_space rb r_length = Some true.
Proof.
  intros Hwf Hr Hl. rewrite check_space_spec by (unfold is_u; lia).
  assert (length (length_bytes 3 r_length) = 3%nat) as ->.
  { assert (r_length = 65532 \/ r_length = 65533 \/ r_length = 65534 \/ r_length = 65535) as Hc by lia.
    by destruct Hc as [->|[->|[->| ->]]]. }
  f_equal. apply Z.leb_le. unfold mqtt_ringbuf_free, MQTT_OUTPUT_RINGBUF_SIZE.
  change (Z.of_nat 3) with 3. wsolve.
Qed.

Lemma mqtt_check_space_wraps_witness :
  mqtt_output_check_space wrapped_ring 65535 = Some true.
Proof.
  apply mqtt_check_space_wraps; [apply wrapped_ring_wf|lia|by vm_compute].
Defined.
