(* ===== verification/MqttReq.v ===== *)
(** * MQTT requests in flight: the request queue of [mqtt.c]

    Requests live in a fixed array of four slots and are chained by pointers; a
    slot that points to itself is free.  Each request stores its timeout
    relative to the one before it.  A slot is its array index; [None] is the
    null pointer.  The queue is refined to the list of slots with absolute
    deadlines. *)

From Stdlib Require Import ZArith Lia.
From stdpp Require Import base list option numbers.
From S2P Require Import Prelude.
From stdpp Require Import sets list.
Import OptionNotations.

Local Open Scope Z_scope.

Definition MQTT_REQ_MAX_IN_FLIGHT : nat := 4.
Definition MQTT_REQ_TIMEOUT : Z := 30.
Definition ERR_TIMEOUT : Z := -3.

Record mqtt_request_t := Req {
  next : option nat;
  req_cb : option Z;          (* callback, [None] is null *)
  req_arg : Z;
  req_pkt_id : Z;
  timeout_diff : Z
}.

Definition set_next (n : option nat) (r : mqtt_request_t) : mqtt_request_t :=
  Req n (req_cb r) (req_arg r) (req_pkt_id r) (timeout_diff r).
Definition set_timeout_diff (d : Z) (r : mqtt_request_t) : mqtt_request_t :=
  Req (next r) (req_cb r) (req_arg r) (req_pkt_id r) d.

(** A call of a request's callback. *)
Record req_event := ReqEvent { ev_cb : Z; ev_arg : Z; ev_err : Z }.

(** ** Operations *)

(** The search of [mqtt_create_request] from slot [n] on. *)
Fixpoint find_free (n fuel : nat) (r_objs : list mqtt_request_t) : option (option nat) :=
  match fuel with
  | O => Some None
  | S fuel =>
      let? r := r_objs !! n in
      if bool_decide (next r = Some n) then Some (Some n) else find_free (S n) fuel r_objs
  end.

Definition mqtt_create_request (pkt_id : Z) (cb : option Z) (arg : Z) (r_objs : list mqtt_request_t)
    : option (option nat * list mqtt_request_t) :=
  let? o := find_free 0 MQTT_REQ_MAX_IN_FLIGHT r_objs in
  match o with
  | Some n =>
      let? r := r_objs !! n in
      Some (Some n, <[n := Req None cb arg pkt_id (timeout_diff r)]> r_objs)
  | None => Some (None, r_objs)
  end.

(** The loop of [mqtt_append_request]: total time and last element.  Chains are
    no longer than the array; a longer walk is a cycle and never ends. *)
Fixpoint walk (fuel : nat) (iter : option nat) (time_before : Z) (head : option nat)
    (reqs : list mqtt_request_t) : option (Z * option nat) :=
  match iter with
  | None => Some (time_before, head)
  | Some i =>
      match fuel with
      | O => None
      | S fuel =>
          let? r := reqs !! i in
          walk fuel (next r) (s16 (time_before + timeout_diff r)) (Some i) reqs
      end
  end.

Definition mqtt_append_request (tail : option nat) (r : nat) (reqs : list mqtt_request_t)
    : option (option nat * list mqtt_request_t) :=
  let? (time_before, head) := walk (length reqs) tail 0 None reqs in
  if time_before <=? MQTT_REQ_TIMEOUT then
    let? rq := reqs !! r in
    let reqs := <[r := set_timeout_diff (u16 (MQTT_REQ_TIMEOUT - time_before)) rq]> reqs in
    match head with
    | None => Some (Some r, reqs)
    | Some h =>
        let? hd := reqs !! h in
        Some (tail, <[h := set_next (Some r) hd]> reqs)
    end
  else None.

Definition mqtt_delete_request (r : option nat) (reqs : list mqtt_request_t)
    : option (list mqtt_request_t) :=
  match r with
  | None => Some reqs
  | Some n => let? rq := reqs !! n in Some (<[n := set_next (Some n) rq]> reqs)
  end.

(** The search of [mqtt_take_request]: the element and its predecessor. *)
Fixpoint find_request (fuel : nat) (iter prev : option nat) (pkt_id : Z)
    (reqs : list mqtt_request_t) : option (option (nat * option nat)) :=
  match iter with
  | None => Some None
  | Some i =>
      match fuel with
      | O => None
      | S fuel =>
          let? r := reqs !! i in
          if req_pkt_id r =? pkt_id then Some (Some (i, prev))
          else find_request fuel (next r) (Some i) pkt_id reqs
      end
  end.

Definition mqtt_take_request (tail : option nat) (pkt_id : Z) (reqs : list mqtt_request_t)
    : option (option nat * option nat * list mqtt_request_t) :=
  let? found := find_request (length reqs) tail None pkt_id reqs in
  match found with
  | None => Some (None, tail, reqs)
  | Some (iter, prev) =>
      let? r := reqs !! iter in
      let? (tail, reqs) :=
        (match prev with
         | None => Some (next r, reqs)
         | Some p => let? pr := reqs !! p in Some (tail, <[p := set_next (next r) pr]> reqs)
         end) in
      let? reqs :=
        (match next r with
         | Some n =>
             let? nr := reqs !! n in
             Some (<[n := set_timeout_diff (u16 (timeout_diff nr + timeout_diff r)) nr]> reqs)
         | None => Some reqs
         end) in
      Some (Some iter, tail, <[iter := set_next None r]> reqs)
  end.

(** The loop of [mqtt_request_time_elapsed]; the callbacks do not use the queue
    themselves. *)
Fixpoint time_elapsed_loop (fuel : nat) (tail : option nat) (t : Z) (reqs : list mqtt_request_t)
    : option (option nat * list mqtt_request_t * list req_event) :=
  match tail with
  | None => Some (None, reqs, [])
  | Some i =>
      if t <=? 0 then Some (tail, reqs, [])
      else
        match fuel with
        | O => None
        | S fuel =>
            let? r := reqs !! i in
            if timeout_diff r <=? t then
              let t := u8 (t - u8 (timeout_diff r)) in
              let evs := match req_cb r with
                         | Some c => [ReqEvent c (req_arg r) ERR_TIMEOUT]
                         | None => []
                         end in
              let? reqs := mqtt_delete_request (Some i) reqs in
              let? (tail, reqs, evs') := time_elapsed_loop fuel (next r) t reqs in
              Some (tail, reqs, evs ++ evs')
            else
              Some (tail, <[i := set_timeout_diff (u16 (timeout_diff r - t)) r]> reqs, [])
        end
  end.

Definition mqtt_request_time_elapsed (tail : option nat) (t : Z) (reqs : list mqtt_request_t)
    : option (option nat * list mqtt_request_t * list req_event) :=
  time_elapsed_loop (length reqs) tail t reqs.

Fixpoint clear_loop (fuel : nat) (iter : option nat) (reqs : list mqtt_request_t)
    : option (list mqtt_request_t) :=
  match iter with
  | None => Some reqs
  | Some i =>
      match fuel with
      | O => None
      | S fuel =>
          let? r := reqs !! i in
          let nx := next r in
          let? reqs := mqtt_delete_request (Some i) reqs in
          clear_loop fuel nx reqs
      end
  end.

Definition mqtt_clear_requests (tail : option nat) (reqs : list mqtt_request_t)
    : option (option nat * list mqtt_request_t) :=
  let? reqs := clear_loop (length reqs) tail reqs in
  Some (None, reqs).

Definition mqtt_init_requests (r_objs : list mqtt_request_t) : list mqtt_request_t :=
  imap (fun n r => set_next (Some n) r) r_objs.

(** ** The queue as a list *)

(** The slots [l] are chained from [tail]. *)
Fixpoint chain (reqs : list mqtt_request_t) (tail : option nat) (l : list nat) : Prop :=
  match l with
  | [] => tail = None
  | i :: l => tail = Some i /\ exists r, reqs !! i = Some r /\ chain reqs (next r) l
  end.

(** Slots outside the queue are free, except the [extra] ones. *)
Record queue_wf (reqs : list mqtt_request_t) (tail : option nat) (l extra : list nat) : Prop := {
  q_size : length reqs = MQTT_REQ_MAX_IN_FLIGHT;
  q_chain : chain reqs tail l;
  q_nodup : NoDup l;
  q_extra : forall n, n ∈ extra -> n ∉ l;
  q_free : forall n r, reqs !! n = Some r -> n ∉ l ++ extra -> next r = Some n
}.

(** Time left for each queued request. *)
Fixpoint deadlines (reqs : list mqtt_request_t) (t0 : Z) (l : list nat) : list Z :=
  match l with
  | [] => []
  | i :: l =>
      let t := t0 + default 0 (timeout_diff <$> reqs !! i) in
      t :: deadlines reqs t l
  end.

(** The relative timeouts are values of their type and end by the full timeout. *)
Definition timed (reqs : list mqtt_request_t) (l : list nat) : Prop :=
  (forall i r, i ∈ l -> reqs !! i = Some r -> 0 <= timeout_diff r <= MQTT_REQ_TIMEOUT) /\
  Forall (fun d => d <= MQTT_REQ_TIMEOUT) (deadlines reqs 0 l).

(** ** Lemmas on chains *)

Lemma chain_lookup reqs tail l i :
  chain reqs tail l -> i ∈ l -> is_Some (reqs !! i).
Proof.
  revert tail. induction l as [|j l IH]; intros tail H Hi; [by apply elem_of_nil in Hi|].
  destruct H as (_ & r & Hr & H). apply elem_of_cons in Hi as [->|Hi]; eauto.
Qed.

(** Only the [next] fields of the queued slots matter. *)
Lemma chain_ext reqs reqs' tail l :
  (forall i, i ∈ l -> next <$> reqs' !! i = next <$> reqs !! i) ->
  chain reqs tail l -> chain reqs' tail l.
Proof.
  revert tail. induction l as [|j l IH]; intros tail He H; [done|].
  destruct H as (-> & r & Hr & H). split; [done|].
  pose proof (He j ltac:(left)) as Hj. rewrite Hr in Hj.
  destruct (reqs' !! j) as [r'|] eqn:Hr'; [|done]. cbn in Hj. injection Hj as Hj.
  exists r'. split; [done|]. rewrite Hj. apply IH; [|done]. intros i Hi. apply He. by right.
Qed.

Lemma chain_insert_ne reqs tail l n r :
  n ∉ l -> chain reqs tail l -> chain (<[n := r]> reqs) tail l.
Proof.
  intros Hn. apply chain_ext. intros i Hi. rewrite list_lookup_insert_ne; [done|].
  intros ->. done.
Qed.

Lemma deadlines_ext reqs reqs' t l :
  (forall i, i ∈ l -> timeout_diff <$> reqs' !! i = timeout_diff <$> reqs !! i) ->
  deadlines reqs' t l = deadlines reqs t l.
Proof.
  revert t. induction l as [|j l IH]; intros t He; [done|]. cbn [deadlines].
  rewrite (He j) by left. f_equal. apply IH. intros i Hi. apply He. by right.
Qed.

Lemma deadlines_app reqs t l1 l2 :
  deadlines reqs t (l1 ++ l2) =
    deadlines reqs t l1 ++ deadlines reqs (List.last (deadlines reqs t l1) t) l2.
Proof.
  revert t. induction l1 as [|j l1 IH]; intros t; [done|]. cbn [deadlines app].
  rewrite IH. f_equal. f_equal. f_equal.
  set (t1 := t + _). destruct (deadlines reqs t1 l1) as [|x ds]; [done|].
  clear. revert x. induction ds as [|y ds IH]; intros x; [done|]. apply (IH y).
Qed.

Lemma chain_short reqs tail l :
  chain reqs tail l -> NoDup l -> (length l <= length reqs)%nat.
Proof.
  intros Hc Hn. rewrite <- (length_seq (length reqs) 0).
  apply NoDup_incl_length; [by apply NoDup_ListNoDup|]. intros i Hi. apply in_seq.
  apply list_elem_of_In in Hi. apply chain_lookup with (i := i) in Hc as [r Hr]; [|done].
  apply lookup_lt_Some in Hr. lia.
Qed.

Lemma list_last_cons {A} (x d : A) l : List.last (x :: l) d = List.last l x.
Proof.
  revert x d. induction l as [|z l IH]; intros x d; [done|].
  change (List.last (x :: z :: l) d) with (List.last (z :: l) d). by rewrite !IH.
Qed.

Lemma walk_spec reqs l : forall fuel tail t hd,
  chain reqs tail l -> (length l <= fuel)%nat ->
  Forall (fun d => - 2 ^ 15 <= d < 2 ^ 15) (deadlines reqs t l) ->
  walk fuel tail t hd reqs = Some (List.last (deadlines reqs t l) t, List.last (map Some l) hd).
Proof.
  induction l as [|i l IH]; intros fuel tail t hd Hc Hf Hd; cbn [deadlines map chain] in *.
  { subst. by destruct fuel. }
  destruct Hc as (-> & r & Hr & Hc). destruct fuel as [|fuel]; [cbn in Hf; lia|].
  cbn [walk]. rewrite Hr in *. cbn [fmap option_fmap option_map default from_option id] in *.
  apply Forall_cons_1 in Hd as [Hd Hds].
  rewrite (swrap_small 16) by lia. rewrite IH; [|done|cbn in Hf; lia|done].
  by rewrite !list_last_cons.
Qed.

(** Redirecting the link of slot [h] to another chain. *)
Lemma chain_relink reqs h rh nx l l1 l2 : forall tail,
  chain reqs tail (l ++ h :: l1) -> NoDup (l ++ h :: l2) -> chain reqs nx l2 ->
  reqs !! h = Some rh ->
  chain (<[h := set_next nx rh]> reqs) tail (l ++ h :: l2).
Proof.
  induction l as [|j l IH]; intros tail Hc Hnd H2 Hrh; cbn [app chain] in *;
    destruct Hc as (-> & r & Hr & Hc); apply NoDup_cons in Hnd as [Hj Hnd].
  - split; [done|]. exists (set_next nx rh).
    split; [by apply list_lookup_insert_eq, lookup_lt_Some with rh|]. by apply chain_insert_ne.
  - split; [done|]. exists r. split; [|by apply IH].
    rewrite list_lookup_insert_ne; [done|]. intros ->. apply Hj, elem_of_app. right. left.
Qed.

Lemma chain_append reqs n rn h rh l tail :
  chain reqs tail (l ++ [h]) -> NoDup (l ++ [h; n]) ->
  reqs !! n = Some rn -> next rn = None -> reqs !! h = Some rh ->
  chain (<[h := set_next (Some n) rh]> reqs) tail (l ++ [h; n]).
Proof.
  intros Hc Hnd Hrn Hnx Hrh. apply (chain_relink _ _ _ _ _ []); try done.
  split; [done|]. by exists rn.
Qed.

Lemma chain_split reqs tail l i l2 :
  chain reqs tail (l ++ i :: l2) -> exists r, reqs !! i = Some r /\ chain reqs (next r) l2.
Proof.
  revert tail. induction l as [|j l IH]; intros tail Hc; cbn [app chain] in Hc;
    destruct Hc as (_ & r & Hr & Hc); eauto.
Qed.

Lemma deadlines_range reqs l t :
  (forall i r, i ∈ l -> reqs !! i = Some r -> 0 <= timeout_diff r) -> 0 <= t ->
  Forall (fun d => t <= d) (deadlines reqs t l).
Proof.
  revert t. induction l as [|i l IH]; intros t Hr Ht; [constructor|]. cbn [deadlines].
  assert (0 <= default 0 (timeout_diff <$> reqs !! i)) as H0.
  { destruct (reqs !! i) as [r|] eqn:E; cbn; [|lia]. apply (Hr i r); [left|done]. }
  constructor; [lia|]. eapply Forall_impl.
  - apply IH; [|lia]. intros j r Hj. apply Hr. by right.
  - cbn. lia.
Qed.

Lemma chain_no_self reqs tail l i r :
  chain reqs tail l -> NoDup l -> i ∈ l -> reqs !! i = Some r -> next r <> Some i.
Proof.
  revert tail. induction l as [|j l IH]; intros tail Hc Hn Hi Hr; [by apply elem_of_nil in Hi|].
  destruct Hc as (_ & r' & Hr' & Hc). apply NoDup_cons in Hn as [Hj Hn].
  apply elem_of_cons in Hi as [->|Hi]; [|by eapply IH].
  rewrite Hr in Hr'. injection Hr' as <-. intros E. rewrite E in Hc.
  destruct l as [|k l]; [done|]. destruct Hc as [[= ->] _]. apply Hj. left.
Qed.

(** ** Correctness of the operations *)

Lemma find_free_spec r_objs : forall fuel n,
  (n + fuel <= length r_objs)%nat ->
  exists o, find_free n fuel r_objs = Some o /\
    match o with
    | Some k => (n <= k)%nat /\ exists r, r_objs !! k = Some r /\ next r = Some k
    | None => forall k r, (n <= k < n + fuel)%nat -> r_objs !! k = Some r -> next r <> Some k
    end.
Proof.
  induction fuel as [|fuel IH]; intros n Hn; cbn [find_free].
  { exists None. split; [done|]. intros; lia. }
  destruct (lookup_lt_is_Some_2 r_objs n) as [r Hr]; [lia|]. rewrite Hr.
  case_bool_decide as Hb; [exists (Some n); eauto|].
  destruct (IH (S n)) as (o & E & Ho); [lia|]. exists o. split; [done|].
  destruct o as [k|]; [destruct Ho; split; [lia|done]|].
  intros k r' Hk Hr'. destruct (decide (k = n)) as [->|]; [congruence|].
  apply (Ho k); [lia|done].
Qed.

Lemma create_spec reqs tail l ex pkt cb arg :
  queue_wf reqs tail l ex ->
  exists o reqs', mqtt_create_request pkt cb arg reqs = Some (o, reqs') /\
    match o with
    | Some n => (n ∉ l) /\ queue_wf reqs' tail l (n :: ex) /\
        (exists r, reqs' !! n = Some r /\ next r = None /\ req_cb r = cb /\ req_arg r = arg /\
           req_pkt_id r = pkt) /\
        (forall i, i <> n -> reqs' !! i = reqs !! i)
    | None => (forall k, (k < MQTT_REQ_MAX_IN_FLIGHT)%nat -> k ∈ l ++ ex) /\ reqs' = reqs
    end.
Proof.
  intros [Hs Hc Hn Hx Hf]. unfold mqtt_create_request.
  destruct (find_free_spec reqs MQTT_REQ_MAX_IN_FLIGHT 0) as (o & -> & Ho); [by rewrite Hs|].
  destruct o as [k|].
  - destruct Ho as (_ & r & Hr & Hk). rewrite Hr. eexists _, _. split; [done|].
    assert (k ∉ l) as Hkl by (intros Hin; by apply (chain_no_self reqs tail l k r)).
    pose proof (lookup_lt_Some _ _ _ Hr) as Hlt.
    split; [done|]. split; [|split].
    + split; [by rewrite length_insert|by apply chain_insert_ne|done| |].
      * intros n Hin. apply elem_of_cons in Hin as [->|Hin]; [done|by apply Hx].
      * intros n r' Hr' Hnin. apply not_elem_of_app in Hnin as [Hnl Hnk].
        apply not_elem_of_cons in Hnk as [Hnk Hnx]. rewrite list_lookup_insert_ne in Hr' by done.
        apply Hf; [done|]. by apply not_elem_of_app.
    + eexists. split; [by apply list_lookup_insert_eq|]. done.
    + intros i Hi. by apply list_lookup_insert_ne.
  - eexists _, _. split; [done|]. split; [|done].
    intros k Hk. destruct (decide (k ∈ l ++ ex)) as [|Hkl]; [done|].
    destruct (lookup_lt_is_Some_2 reqs k) as [r Hr]; [rewrite Hs; lia|].
    by destruct (Ho k r); [lia|done|]; apply Hf.
Qed.

Lemma delete_spec reqs tail l n ex :
  queue_wf reqs tail l (n :: ex) -> (n < MQTT_REQ_MAX_IN_FLIGHT)%nat ->
  exists reqs', mqtt_delete_request (Some n) reqs = Some reqs' /\ queue_wf reqs' tail l ex /\
    (forall i, i <> n -> reqs' !! i = reqs !! i).
Proof.
  intros [Hs Hc Hn Hx Hf] Hlt. unfold mqtt_delete_request.
  destruct (lookup_lt_is_Some_2 reqs n) as [r Hr]; [by rewrite Hs|]. rewrite Hr.
  eexists. split; [done|]. split; [|intros; by apply list_lookup_insert_ne].
  split; [by rewrite length_insert| |done|intros k Hk; apply Hx; by right|].
  - apply chain_insert_ne; [|done]. apply Hx. left.
  - intros k r' Hr' Hk. apply not_elem_of_app in Hk as [Hkl Hkx]. destruct (decide (k = n)) as [->|Hne].
    + rewrite list_lookup_insert_eq in Hr' by (by rewrite Hs). by injection Hr' as <-.
    + rewrite list_lookup_insert_ne in Hr' by done. apply Hf; [done|].
      by rewrite not_elem_of_app, not_elem_of_cons.
Qed.

Lemma update_frame {A} (f : mqtt_request_t -> A) (reqs : list mqtt_request_t) (h : nat) r r' (i : nat) :
  reqs !! h = Some r -> f r' = f r -> f <$> <[h := r']> reqs !! i = f <$> reqs !! i.
Proof.
  intros Hh Hf. destruct (decide (i = h)) as [->|].
  - rewrite list_lookup_insert_eq by by eapply lookup_lt_Some. rewrite Hh. cbn. by rewrite Hf.
  - by rewrite list_lookup_insert_ne.
Qed.

(** Hooking the new slot behind the last one. *)
Lemma link_spec reqs tail l n rn ex :
  length reqs = MQTT_REQ_MAX_IN_FLIGHT -> chain reqs tail l -> NoDup (l ++ [n]) ->
  (forall k, k ∈ ex -> k ∉ l ++ [n]) ->
  (forall k r, reqs !! k = Some r -> k ∉ (l ++ [n]) ++ ex -> next r = Some k) ->
  reqs !! n = Some rn -> next rn = None ->
  exists tail' reqs',
    (match List.last (map Some l) None with
     | None => Some (Some n, reqs)
     | Some h => let? hd := reqs !! h in Some (tail, <[h := set_next (Some n) hd]> reqs)
     end) = Some (tail', reqs') /\
    queue_wf reqs' tail' (l ++ [n]) ex /\
    (forall i, timeout_diff <$> reqs' !! i = timeout_diff <$> reqs !! i) /\
    (forall i, req_pkt_id <$> reqs' !! i = req_pkt_id <$> reqs !! i).
Proof.
  intros Hs Hc Hnd Hex Hf Hrn Hnx. destruct l as [|h l _] using rev_ind.
  { cbn. eexists _, _. split; [done|]. split; [|done].
    split; [done| |exact Hnd|exact Hex|exact Hf]. cbn. split; [done|]. by exists rn. }
  rewrite map_app. cbn [map]. rewrite List.last_last.
  assert ((l ++ [h]) ++ [n] = l ++ [h; n]) as Ea by by rewrite <- app_assoc. rewrite Ea in *.
  destruct (chain_lookup reqs tail (l ++ [h]) h Hc) as [rh Hrh]; [apply elem_of_app; right; left|].
  rewrite Hrh. eexists _, _. split; [done|].
  split; [|split; intros i; by apply update_frame with rh].
  split; [by rewrite length_insert|by apply (chain_append reqs n rn h rh l)|done|done|].
  intros k r Hk Hin. apply Hf; [|done].
  rewrite list_lookup_insert_ne in Hk; [done|]. intros ->.
  apply Hin. rewrite !elem_of_app. left. right. left.
Qed.

Lemma append_spec reqs tail l n r ex :
  queue_wf reqs tail l (n :: ex) -> timed reqs l -> reqs !! n = Some r -> next r = None ->
  exists tail' reqs', mqtt_append_request tail n reqs = Some (tail', reqs') /\
    queue_wf reqs' tail' (l ++ [n]) (filter (fun k => k <> n) ex) /\
    deadlines reqs' 0 (l ++ [n]) = deadlines reqs 0 l ++ [MQTT_REQ_TIMEOUT] /\
    (forall i, req_pkt_id <$> reqs' !! i = req_pkt_id <$> reqs !! i).
Proof.
  intros [Hs Hc Hnd Hx Hf] [Hd Hdl] Hr Hnx. unfold mqtt_append_request.
  pose proof (lookup_lt_Some _ _ _ Hr) as Hlt.
  assert (n ∉ l) as Hnl by (apply Hx; left).
  assert (Forall (fun d => 0 <= d) (deadlines reqs 0 l)) as Hpos
    by (apply deadlines_range; [|lia]; intros i r0 Hi Hr0; by destruct (Hd i r0)).
  rewrite (walk_spec reqs l); [|done|by eapply chain_short|].
  2: { eapply Forall_impl; [apply Forall_and; split; [exact Hpos|exact Hdl]|].
       cbn. unfold MQTT_REQ_TIMEOUT. lia. }
  set (tb := List.last (deadlines reqs 0 l) 0).
  assert (0 <= tb <= MQTT_REQ_TIMEOUT) as Htb.
  { unfold tb. destruct (deadlines reqs 0 l) as [|d ds] eqn:E; [unfold MQTT_REQ_TIMEOUT; cbn; lia|].
    rewrite list_last_cons. rewrite <- E in *.
    assert (List.last ds d ∈ deadlines reqs 0 l) as Hin.
    { rewrite E. clear. revert d. induction ds as [|x ds IH]; intros d; [left|].
      rewrite list_last_cons. right. apply IH. }
    rewrite Forall_forall in Hpos, Hdl. split; [by apply Hpos|by apply Hdl]. }
  rewrite (proj2 (Z.leb_le tb MQTT_REQ_TIMEOUT)) by lia. rewrite Hr.
  rewrite u16_small by (unfold MQTT_REQ_TIMEOUT in *; lia).
  set (rn := set_timeout_diff _ r). set (reqs1 := <[n := rn]> reqs).
  assert (reqs1 !! n = Some rn) as Hrn by by apply list_lookup_insert_eq.
  assert (chain reqs1 tail l) as Hc1 by by apply chain_insert_ne.
  assert (deadlines reqs1 0 l = deadlines reqs 0 l) as Hdl1.
  { apply deadlines_ext. intros i Hi. unfold reqs1. rewrite list_lookup_insert_ne; [done|].
    intros ->. done. }
  assert (forall i, req_pkt_id <$> reqs1 !! i = req_pkt_id <$> reqs !! i) as Hpk1.
  { intros i. unfold reqs1. destruct (decide (i = n)) as [->|].
    - by rewrite list_lookup_insert_eq, Hr.
    - by rewrite list_lookup_insert_ne. }
  assert (deadlines reqs1 0 (l ++ [n]) = deadlines reqs 0 l ++ [MQTT_REQ_TIMEOUT]) as Hall.
  { rewrite deadlines_app, Hdl1. fold tb. cbn [deadlines]. rewrite Hrn. cbn.
    do 2 f_equal. lia. }
  destruct (link_spec reqs1 tail l n rn (filter (fun k => k <> n) ex))
    as (tail' & reqs' & E & Hwf & Htd & Hpk); try done.
  - unfold reqs1. by rewrite length_insert.
  - apply NoDup_app. split; [done|]. split; [|apply NoDup_singleton].
    intros x Hxl ->%list_elem_of_singleton. done.
  - intros k Hk. apply list_elem_of_filter in Hk as [Hkn Hk]. rewrite not_elem_of_app, list_elem_of_singleton.
    split; [|done]. apply Hx. by right.
  - intros k r0 Hk Hin. rewrite !not_elem_of_app, list_elem_of_singleton in Hin.
    destruct Hin as [[Hkl Hkn] Hkx]. unfold reqs1 in Hk. rewrite list_lookup_insert_ne in Hk by done.
    apply Hf; [done|]. rewrite not_elem_of_app, not_elem_of_cons. split; [done|]. split; [done|].
    intros Hin. apply Hkx, list_elem_of_filter. done.
  - exists tail', reqs'. split; [exact E|]. split; [done|]. split.
    + rewrite <- Hall. apply deadlines_ext. intros i _. apply Htd.
    + intros i. by rewrite Hpk.
Qed.

Lemma find_request_spec reqs pkt l : forall fuel tail prev,
  chain reqs tail l -> (length l <= fuel)%nat ->
  exists o, find_request fuel tail prev pkt reqs = Some o /\
    match o with
    | None => forall i r, i ∈ l -> reqs !! i = Some r -> req_pkt_id r <> pkt
    | Some (i, p) => exists l1 l2 r, l = l1 ++ i :: l2 /\ p = List.last (map Some l1) prev /\
        reqs !! i = Some r /\ req_pkt_id r = pkt /\
        (forall j r, j ∈ l1 -> reqs !! j = Some r -> req_pkt_id r <> pkt)
    end.
Proof.
  induction l as [|i l IH]; intros fuel tail prev Hc Hf; cbn [chain] in Hc.
  { subst. exists None. split; [by destruct fuel|]. intros i r Hi. by apply elem_of_nil in Hi. }
  destruct Hc as (-> & r & Hr & Hc). destruct fuel as [|fuel]; [cbn in Hf; lia|].
  cbn [find_request]. rewrite Hr. destruct (Z.eqb_spec (req_pkt_id r) pkt) as [Hp|Hp].
  { eexists. split; [done|]. exists [], l, r. repeat split; try done.
    intros j r' Hj. by apply elem_of_nil in Hj. }
  destruct (IH fuel (next r) (Some i) Hc) as (o & E & Ho); [cbn in Hf; lia|].
  exists o. split; [done|]. destruct o as [[k p]|].
  - destruct Ho as (l1 & l2 & rk & -> & -> & Hk & Hpk & Hne). exists (i :: l1), l2, rk.
    split; [done|]. split; [cbn [map]; by rewrite list_last_cons|]. repeat split; try done.
    intros j r' Hj Hr'. apply elem_of_cons in Hj as [->|Hj]; [congruence|eauto].
  - intros j r' Hj Hr'. apply elem_of_cons in Hj as [->|Hj]; [congruence|eauto].
Qed.

(** The unlinking statements of [mqtt_take_request]. *)
Lemma unlink_spec reqs tail l1 i l2 r :
  chain reqs tail (l1 ++ i :: l2) -> NoDup (l1 ++ i :: l2) -> reqs !! i = Some r ->
  exists tail' reqs',
    (match List.last (map Some l1) None with
     | None => Some (next r, reqs)
     | Some p => let? pr := reqs !! p in Some (tail, <[p := set_next (next r) pr]> reqs)
     end) = Some (tail', reqs') /\
    chain reqs' tail' (l1 ++ l2) /\ length reqs' = length reqs /\
    (forall k, timeout_diff <$> reqs' !! k = timeout_diff <$> reqs !! k) /\
    (forall k, k ∉ l1 -> reqs' !! k = reqs !! k).
Proof.
  intros Hc Hnd Hr. destruct (chain_split _ _ _ _ _ Hc) as (r' & Hr' & Hc2).
  rewrite Hr in Hr'. injection Hr' as <-.
  destruct l1 as [|p l1 _] using rev_ind; [by eexists _, _|].
  rewrite map_app. cbn [map]. rewrite List.last_last, <- app_assoc in *. cbn [app] in *.
  destruct (chain_lookup reqs tail _ p Hc) as [rp Hrp]; [apply elem_of_app; right; left|].
  rewrite Hrp. eexists _, _. split; [done|].
  assert (NoDup (l1 ++ p :: l2)) as Hnd2.
  { apply NoDup_app in Hnd as (H1 & H2 & H3). apply NoDup_app. split; [done|]. split.
    - intros x Hx Hin. apply (H2 x Hx). apply elem_of_cons in Hin as [->|Hin]; [left|].
      right. by right.
    - apply NoDup_cons in H3 as [H3 H4]. apply NoDup_cons in H4 as [_ H4]. apply NoDup_cons.
      split; [|done]. intros Hin. apply H3. by right. }
  split; [by eapply chain_relink|]. split; [apply length_insert|]. split.
  - intros k. by apply update_frame with rp.
  - intros k Hk. apply list_lookup_insert_ne. intros ->. apply Hk, elem_of_app. right. left.
Qed.

Lemma deadlines_shift reqs reqs' t d l :
  (forall k, k ∈ tail l -> timeout_diff <$> reqs' !! k = timeout_diff <$> reqs !! k) ->
  NoDup l ->
  (forall k r, head l = Some k -> reqs !! k = Some r ->
     exists r', reqs' !! k = Some r' /\ timeout_diff r' = timeout_diff r + d) ->
  (forall k, k ∈ l -> is_Some (reqs !! k)) ->
  deadlines reqs' t l = deadlines reqs (t + d) l.
Proof.
  intros He Hnd Hh Hs. destruct l as [|k l]; [done|]. cbn [deadlines].
  destruct (Hs k) as [r Hr]; [left|]. destruct (Hh k r eq_refl Hr) as (r' & Hr' & Hd).
  rewrite Hr, Hr'. cbn. rewrite Hd.
  replace (t + d + timeout_diff r) with (t + (timeout_diff r + d)) by lia. f_equal.
  apply deadlines_ext. intros j Hj. by apply He.
Qed.

Lemma chain_head reqs tail l : chain reqs tail l -> tail = head l.
Proof. destruct l; cbn; [done|]. by intros [-> _]. Qed.

(** The successor inherits the remaining time of the removed request. *)
Lemma bump_spec (reqs : list mqtt_request_t) l d :
  (forall k, k ∈ l -> is_Some (reqs !! k)) ->
  (forall k r, k ∈ l -> reqs !! k = Some r -> is_u 16 (timeout_diff r + d)) ->
  exists reqs',
    (match head l with
     | Some n =>
         let? nr := reqs !! n in
         Some (<[n := set_timeout_diff (u16 (timeout_diff nr + d)) nr]> reqs)
     | None => Some reqs
     end) = Some reqs' /\
    length reqs' = length reqs /\
    (forall k, next <$> reqs' !! k = next <$> reqs !! k) /\
    (forall k, head l <> Some k -> reqs' !! k = reqs !! k) /\
    (forall k r, head l = Some k -> reqs !! k = Some r ->
       exists r', reqs' !! k = Some r' /\ timeout_diff r' = timeout_diff r + d).
Proof.
  intros Hs Hr. destruct l as [|n l]; cbn [head].
  { eexists. repeat split; done. }
  destruct (Hs n) as [nr Hnr]; [left|]. rewrite Hnr. eexists. split; [done|].
  assert (is_u 16 (timeout_diff nr + d)) as Hu by (apply (Hr n); [left|done]).
  split; [apply length_insert|]. split; [intros k; by apply update_frame with nr|]. split.
  - intros k Hk. apply list_lookup_insert_ne. congruence.
  - intros k r [= <-] Hk. rewrite Hnr in Hk. injection Hk as <-.
    eexists. split; [by apply list_lookup_insert_eq, lookup_lt_Some with nr|]. cbn.
    apply u16_small. exact Hu.
Qed.

Lemma delete_middle {A} (l1 l2 : list A) x : delete (length l1) (l1 ++ x :: l2) = l1 ++ l2.
Proof. induction l1 as [|y l1 IH]; [done|]. cbn. by f_equal. Qed.

Lemma length_deadlines reqs t l : length (deadlines reqs t l) = length l.
Proof. revert t. induction l; intros; cbn; [done|]. by f_equal. Qed.

Lemma take_deadlines reqs reqs' l1 i l2 r :
  (forall k, k ∈ l1 -> timeout_diff <$> reqs' !! k = timeout_diff <$> reqs !! k) ->
  (forall k, k ∈ tail l2 -> timeout_diff <$> reqs' !! k = timeout_diff <$> reqs !! k) ->
  (forall k rk, head l2 = Some k -> reqs !! k = Some rk ->
     exists r', reqs' !! k = Some r' /\ timeout_diff r' = timeout_diff rk + timeout_diff r) ->
  (forall k, k ∈ l2 -> is_Some (reqs !! k)) -> NoDup l2 -> reqs !! i = Some r ->
  deadlines reqs' 0 (l1 ++ l2) = delete (length l1) (deadlines reqs 0 (l1 ++ i :: l2)).
Proof.
  intros H1 H2 Hh Hs Hnd Hr. rewrite !deadlines_app. cbn [deadlines]. rewrite Hr. cbn.
  rewrite <- (length_deadlines reqs 0 l1), delete_middle.
  rewrite (deadlines_ext reqs reqs' 0 l1) by done. f_equal.
  by apply deadlines_shift.
Qed.

Lemma take_spec reqs tail l pkt ex :
  queue_wf reqs tail l ex -> timed reqs l ->
  exists o tail' reqs', mqtt_take_request tail pkt reqs = Some (o, tail', reqs') /\
    match o with
    | None => tail' = tail /\ reqs' = reqs /\
        (forall i r, i ∈ l -> reqs !! i = Some r -> req_pkt_id r <> pkt)
    | Some i => exists l1 l2 r, l = l1 ++ i :: l2 /\ reqs !! i = Some r /\ req_pkt_id r = pkt /\
        (forall j r, j ∈ l1 -> reqs !! j = Some r -> req_pkt_id r <> pkt) /\
        queue_wf reqs' tail' (l1 ++ l2) (i :: ex) /\
        deadlines reqs' 0 (l1 ++ l2) = delete (length l1) (deadlines reqs 0 l)
    end.
Proof.
  intros [Hs Hc Hn Hx Hf] [Hd Hdl]. unfold mqtt_take_request.
  destruct (find_request_spec reqs pkt l (length reqs) tail None Hc) as (o & -> & Ho);
    [by eapply chain_short|].
  destruct o as [[i p]|]; [|by eexists _, _, _].
  destruct Ho as (l1 & l2 & r & -> & -> & Hr & Hp & Hne). rewrite Hr.
  destruct (unlink_spec reqs tail l1 i l2 r Hc Hn Hr) as (tail1 & reqs1 & -> & Hc1 & Hs1 & Htd1 & Hk1).
  destruct (chain_split _ _ _ _ _ Hc) as (r' & Hr' & Hc2). rewrite Hr in Hr'. injection Hr' as <-.
  rewrite (chain_head _ _ _ Hc2).
  apply NoDup_app in Hn as (Hn1 & Hn12 & Hn2). apply NoDup_cons in Hn2 as [Hi2 Hn2].
  assert (i ∉ l1) as Hi1 by (intros Hin; apply (Hn12 i Hin); left).
  assert (forall k, k ∈ l2 -> k ∉ l1) as Hdis.
  { intros k Hk Hkl. apply (Hn12 k Hkl). by right. }
  assert (forall k, k ∈ l2 -> reqs1 !! k = reqs !! k) as Hk2 by (intros k Hk; apply Hk1, Hdis, Hk).
  assert (forall k r0, k ∈ l1 ++ i :: l2 -> reqs !! k = Some r0 -> 0 <= timeout_diff r0 <= 30) as Hd' by exact Hd.
  destruct (bump_spec reqs1 l2 (timeout_diff r)) as (reqs2 & -> & Hs2 & Hnx2 & Heq2 & Hbump).
  { intros k Hk. rewrite Hk2 by done. by apply (chain_lookup _ _ _ k Hc2). }
  { intros k rk Hk Hrk. rewrite Hk2 in Hrk by done.
    pose proof (Hd' k rk ltac:(apply elem_of_app; right; by right) Hrk).
    pose proof (Hd' i r ltac:(apply elem_of_app; right; left) Hr). unfold is_u. lia. }
  eexists (Some i), tail1, _. split; [done|]. exists l1, l2, r. repeat (split; [done|]).
  assert (i ∉ l1 ++ l2) as Hi by (rewrite elem_of_app; tauto).
  split; [split|].
  - rewrite length_insert. congruence.
  - apply chain_insert_ne; [done|]. apply chain_ext with reqs1; [|done]. intros k _. apply Hnx2.
  - apply NoDup_app. split; [done|]. split; [|done]. intros x Hx1 Hx2. by apply (Hdis x).
  - intros k Hk. apply elem_of_cons in Hk as [->|Hk]; [done|]. apply Hx in Hk.
    rewrite not_elem_of_app, not_elem_of_cons in Hk. rewrite not_elem_of_app. tauto.
  - intros k rk Hk Hin. rewrite !not_elem_of_app, not_elem_of_cons in Hin.
    destruct Hin as ((Hkl1 & Hkl2) & Hki & Hkx). rewrite list_lookup_insert_ne in Hk by done.
    rewrite Heq2 in Hk by (intros Hh; apply Hkl2; destruct l2; [done|]; injection Hh as ->; left).
    rewrite Hk1 in Hk by done. apply Hf; [done|].
    rewrite !not_elem_of_app, not_elem_of_cons. done.
  - apply take_deadlines with r; try done.
    + intros k Hk. rewrite list_lookup_insert_ne by (intros ->; done).
      rewrite Heq2; [apply Htd1|]. intros Hh. apply (Hdis k); [|done].
      destruct l2; [done|]. injection Hh as ->. left.
    + intros k Hk. assert (k ∈ l2) as Hkl by (destruct l2; [by apply elem_of_nil in Hk|by right]).
      rewrite list_lookup_insert_ne by (intros ->; done).
      rewrite Heq2; [by rewrite Hk2|]. intros Hh. destruct l2 as [|x l2]; [done|].
      injection Hh as ->. apply NoDup_cons in Hn2 as [Hnx _]. done.
    + intros k rk Hh Hrk. assert (k ∈ l2) as Hkl by (destruct l2; [done|injection Hh as ->; left]).
      rewrite list_lookup_insert_ne by (intros ->; done). apply Hbump; [done|]. by rewrite Hk2.
    + intros k Hk. by apply (chain_lookup _ _ _ k Hc2).
Qed.

(** ** Timeouts *)

Lemma deadlines_from reqs t l : deadlines reqs t l = map (Z.add t) (deadlines reqs 0 l).
Proof.
  revert t. induction l as [|i l IH]; intros t; [done|]. cbn [deadlines map].
  set (d := default 0 _). f_equal. rewrite (IH (t + d)), (IH (0 + d)), map_map.
  apply map_ext. intros x. lia.
Qed.

(** The callback of a slot, if any, reports the timeout. *)
Definition timeout_event (reqs : list mqtt_request_t) (i : nat) : list req_event :=
  match reqs !! i with
  | Some r => match req_cb r with
              | Some c => [ReqEvent c (req_arg r) ERR_TIMEOUT]
              | None => []
              end
  | None => []
  end.

Lemma timeout_event_insert reqs i r l :
  i ∉ l -> concat (map (timeout_event (<[i := r]> reqs)) l) = concat (map (timeout_event reqs) l).
Proof.
  intros Hi. f_equal. apply map_ext_in. intros k Hk. unfold timeout_event.
  rewrite list_lookup_insert_ne; [done|]. intros ->. apply Hi. by apply list_elem_of_In.
Qed.

Lemma Forall_map_add (P Q : Z -> Prop) d l :
  (forall x, P x -> Q (d + x)) -> Forall P l -> Forall Q (map (Z.add d) l).
Proof. intros H HP. induction HP; cbn; constructor; auto. Qed.

(** What the loop does to a queue of slots [l]: the first [n] requests expire. *)
Record elapsed (reqs reqs' : list mqtt_request_t) (tail' : option nat) (l : list nat) (n : nat) (t : Z)
    : Prop := {
  el_chain : chain reqs' tail' (drop n l);
  el_size : length reqs' = length reqs;
  el_frame : forall k, k ∉ l -> reqs' !! k = reqs !! k;
  el_freed : forall k, k ∈ take n l -> exists r, reqs' !! k = Some r /\ next r = Some k;
  el_due : Forall (fun d => d <= t) (take n (deadlines reqs 0 l));
  el_late : Forall (fun d => t <= d) (drop n (deadlines reqs 0 l));
  el_left : deadlines reqs' 0 (drop n l) = map (fun d => d - t) (drop n (deadlines reqs 0 l))
}.

Lemma elapsed_none reqs tail l t :
  chain reqs tail l -> t = 0 -> Forall (fun d => 0 <= d) (deadlines reqs 0 l) ->
  elapsed reqs reqs tail l 0 t.
Proof.
  intros Hc -> Hd. split; rewrite ?drop_0; try done.
  - intros k Hk. by apply elem_of_nil in Hk.
  - symmetry. erewrite map_ext; [apply map_id|]. intros. unfold id. cbn. lia.
Qed.

Lemma elapsed_partial reqs i r l t :
  chain reqs (Some i) (i :: l) -> NoDup (i :: l) -> reqs !! i = Some r -> t < timeout_diff r ->
  is_u 16 (timeout_diff r) -> 0 <= t ->
  (forall j rj, j ∈ l -> reqs !! j = Some rj -> 0 <= timeout_diff rj) ->
  elapsed reqs (<[i := set_timeout_diff (u16 (timeout_diff r - t)) r]> reqs) (Some i) (i :: l) 0 t.
Proof.
  intros Hc Hnd Hr Ht Hu Ht0 Hpos. pose proof (lookup_lt_Some _ _ _ Hr) as Hlt.
  rewrite u16_small by (unfold is_u in Hu; lia). apply NoDup_cons in Hnd as [Hi Hnd].
  split; rewrite ?drop_0.
  - eapply chain_ext; [|exact Hc]. intros k _. by apply update_frame with r.
  - apply length_insert.
  - intros k Hk. apply list_lookup_insert_ne. intros ->. apply Hk. left.
  - intros k Hk. by apply elem_of_nil in Hk.
  - constructor.
  - cbn [deadlines]. rewrite Hr. cbn. constructor; [lia|].
    eapply Forall_impl; [apply deadlines_range; [exact Hpos|lia]|]. cbn. lia.
  - cbn [deadlines map]. rewrite Hr, list_lookup_insert_eq by done. cbn. f_equal.
    rewrite (deadlines_ext reqs) by (intros k Hk; rewrite list_lookup_insert_ne; [done|intros ->; done]).
    rewrite !(deadlines_from _ (timeout_diff r - t)), !(deadlines_from _ (timeout_diff r)), map_map.
    apply map_ext. intros. lia.
Qed.

Lemma elapsed_cons reqs reqs' tail' i r l n t :
  NoDup (i :: l) -> reqs !! i = Some r -> 0 <= timeout_diff r <= t ->
  elapsed (<[i := set_next (Some i) r]> reqs) reqs' tail' l n (t - timeout_diff r) ->
  elapsed reqs reqs' tail' (i :: l) (S n) t.
Proof.
  intros Hnd Hr Ht [H1 H2 H3 H4 H5 H6 H7]. apply NoDup_cons in Hnd as [Hi Hnd].
  pose proof (lookup_lt_Some _ _ _ Hr) as Hlt.
  assert (deadlines (<[i := set_next (Some i) r]> reqs) 0 l = deadlines reqs 0 l) as E.
  { apply deadlines_ext. intros k _. by apply update_frame with r. }
  rewrite E in *. split; cbn [drop deadlines take] in *; rewrite ?Hr;
    cbn [fmap option_fmap option_map default from_option id]; rewrite ?(deadlines_from reqs (0 + timeout_diff r)).
  - done.
  - by rewrite H2, length_insert.
  - intros k Hk. apply not_elem_of_cons in Hk as [Hki Hk]. rewrite H3 by done.
    by apply list_lookup_insert_ne.
  - intros k Hk. apply elem_of_cons in Hk as [->|Hk]; [|by apply H4].
    rewrite H3 by done. eexists. split; [by apply list_lookup_insert_eq|done].
  - constructor; [lia|]. rewrite firstn_map. eapply Forall_map_add; [|exact H5]. cbn. lia.
  - rewrite skipn_map. eapply Forall_map_add; [|exact H6]. cbn. lia.
  - rewrite H7, skipn_map, map_map. apply map_ext. intros. lia.
Qed.

Lemma time_elapsed_loop_spec l : forall fuel tail t reqs,
  chain reqs tail l -> NoDup l -> (length l <= fuel)%nat -> 0 <= t < 256 ->
  (forall j r, j ∈ l -> reqs !! j = Some r -> is_u 16 (timeout_diff r)) ->
  exists n tail' reqs',
    time_elapsed_loop fuel tail t reqs
      = Some (tail', reqs', concat (map (timeout_event reqs) (take n l))) /\
    (n <= length l)%nat /\ elapsed reqs reqs' tail' l n t.
Proof.
  induction l as [|i l IH]; intros fuel tail t reqs Hc Hnd Hf Ht Hu.
  { cbn in Hc. subst tail. exists 0%nat, None, reqs. split; [by destruct fuel|]. split; [done|].
    by split; try done; intros k Hk; apply elem_of_nil in Hk. }
  assert (forall j r, j ∈ i :: l -> reqs !! j = Some r -> 0 <= timeout_diff r) as Hpos
    by (intros j r Hj Hr; by destruct (Hu j r)).
  pose proof Hc as (-> & r & Hr & Hcl).
  destruct (Z.leb_spec t 0) as [Hz|Hz].
  { exists 0%nat, (Some i), reqs. split.
    - destruct fuel; cbn; by rewrite (proj2 (Z.leb_le t 0)).
    - split; [lia|]. apply elapsed_none; [done|lia|]. apply deadlines_range; [done|lia]. }
  destruct fuel as [|fuel]; [cbn in Hf; lia|]. cbn [time_elapsed_loop].
  rewrite (proj2 (Z.leb_gt t 0)) by done. rewrite Hr.
  assert (is_u 16 (timeout_diff r)) as Hur by (apply (Hu i); [left|done]).
  assert (0 <= timeout_diff r) as Hpr by by destruct Hur.
  destruct (Z.leb_spec (timeout_diff r) t) as [Hd|Hd].
  - rewrite (u8_small (timeout_diff r)), (u8_small (t - timeout_diff r)) by lia.
    cbn [mqtt_delete_request]. rewrite Hr. pose proof Hnd as Hnd'. apply NoDup_cons in Hnd' as [Hi Hnl].
    destruct (IH fuel (next r) (t - timeout_diff r) (<[i := set_next (Some i) r]> reqs))
      as (n & tail' & reqs' & -> & Hn & He); [by apply chain_insert_ne|done|cbn in Hf; lia|lia| |].
    { intros j rj Hj Hrj. rewrite list_lookup_insert_ne in Hrj by (intros ->; done).
      apply (Hu j); [by right|done]. }
    exists (S n), tail', reqs'. split; [|split; [cbn; lia|by eapply elapsed_cons]].
    do 2 f_equal. cbn [take map concat]. rewrite timeout_event_insert.
    + f_equal. unfold timeout_event. by rewrite Hr.
    + intros Hin. apply Hi. rewrite <- (take_drop n l). apply elem_of_app. by left.
  - exists 0%nat. eexists _, _. split; [done|]. split; [lia|].
    apply elapsed_partial; try done; [lia|]. intros j rj Hj. apply Hpos. by right.
Qed.

Lemma clear_loop_spec l : forall fuel tail reqs,
  chain reqs tail l -> NoDup l -> (length l <= fuel)%nat ->
  exists reqs', clear_loop fuel tail reqs = Some reqs' /\ length reqs' = length reqs /\
    (forall k, k ∉ l -> reqs' !! k = reqs !! k) /\
    (forall k, k ∈ l -> exists r, reqs' !! k = Some r /\ next r = Some k).
Proof.
  induction l as [|i l IH]; intros fuel tail reqs Hc Hnd Hf.
  { cbn in Hc. subst. exists reqs. split; [by destruct fuel|]. repeat split; try done.
    intros k Hk. by apply elem_of_nil in Hk. }
  destruct Hc as (-> & r & Hr & Hc). apply NoDup_cons in Hnd as [Hi Hnd].
  destruct fuel as [|fuel]; [cbn in Hf; lia|]. cbn [clear_loop mqtt_delete_request]. rewrite Hr.
  destruct (IH fuel (next r) (<[i := set_next (Some i) r]> reqs)) as (reqs' & -> & Hs & Hfr & Hfree);
    [by apply chain_insert_ne|done|cbn in Hf; lia|].
  exists reqs'. split; [done|]. split; [by rewrite Hs, length_insert|]. split.
  - intros k Hk. apply not_elem_of_cons in Hk as [Hki Hk]. rewrite Hfr by done.
    by apply list_lookup_insert_ne.
  - intros k Hk. apply elem_of_cons in Hk as [->|Hk]; [|by apply Hfree].
    rewrite Hfr by done. eexists.
    split; [by apply list_lookup_insert_eq, lookup_lt_Some with r|done].
Qed.

Lemma clear_spec reqs tail l :
  queue_wf reqs tail l [] ->
  exists reqs', mqtt_clear_requests tail reqs = Some (None, reqs') /\ queue_wf reqs' None [] [].
Proof.
  intros [Hs Hc Hn Hx Hf]. unfold mqtt_clear_requests.
  destruct (clear_loop_spec l (length reqs) tail reqs Hc Hn) as (reqs' & -> & Hs' & Hfr & Hfree);
    [by eapply chain_short|].
  exists reqs'. split; [done|]. split; [congruence|done|constructor|intros k Hk; by apply elem_of_nil in Hk|].
  intros k r Hk _. destruct (decide (k ∈ l)) as [Hin|Hin].
  - destruct (Hfree k Hin) as (r' & Hr' & Hnx). congruence.
  - rewrite Hfr in Hk by done. apply Hf; [done|]. by rewrite app_nil_r.
Qed.

Lemma init_spec reqs :
  length reqs = MQTT_REQ_MAX_IN_FLIGHT -> queue_wf (mqtt_init_requests reqs) None [] [].
Proof.
  intros Hs. unfold mqtt_init_requests. split; [by rewrite length_imap|done|constructor|intros k Hk; by apply elem_of_nil in Hk|].
  intros k r Hk _. rewrite list_lookup_imap in Hk. destruct (reqs !! k); [|done].
  by injection Hk as <-.
Qed.

Lemma timed_ext reqs reqs' l :
  (forall k, k ∈ l -> reqs' !! k = reqs !! k) -> timed reqs l -> timed reqs' l.
Proof.
  intros He [H1 H2]. split.
  - intros i r Hi Hr. apply (H1 i); [done|]. by rewrite <- He.
  - rewrite (deadlines_ext reqs reqs'); [done|]. intros i Hi. by rewrite He.
Qed.

Lemma time_elapsed_spec (reqs : list mqtt_request_t) (tail : option nat) (l ex : list nat) (t : Z) :
  queue_wf reqs tail l ex -> timed reqs l -> 0 <= t < 256 ->
  exists n tail' reqs',
    mqtt_request_time_elapsed tail t reqs
      = Some (tail', reqs', concat (map (timeout_event reqs) (take n l))) /\
    queue_wf reqs' tail' (drop n l) ex /\
    Forall (fun d => d <= t) (take n (deadlines reqs 0 l)) /\
    Forall (fun d => t <= d) (drop n (deadlines reqs 0 l)) /\
    deadlines reqs' 0 (drop n l) = map (fun d => d - t) (drop n (deadlines reqs 0 l)).
Proof.
  intros [Hs Hc Hn Hx Hf] [Ht1 Ht2] Ht. unfold mqtt_request_time_elapsed.
  destruct (time_elapsed_loop_spec l (length reqs) tail t reqs) as (n & tail' & reqs' & -> & _ & He);
    [done|done|by eapply chain_short|done| |].
  { intros j r Hj Hr. pose proof (Ht1 j r Hj Hr). unfold is_u, MQTT_REQ_TIMEOUT in *. lia. }
  destruct He as [H1 H2 H3 H4 H5 H6 H7].
  exists n, tail', reqs'. split; [done|]. split; [|done].
  assert (NoDup (take n l ++ drop n l)) as Hnd by by rewrite take_drop.
  apply NoDup_app in Hnd as (_ & Hdis & Hnd).
  split; [congruence|done|done| |].
  { intros k Hk Hin. apply (Hx k Hk). rewrite <- (take_drop n l). apply elem_of_app. by right. }
  intros k r Hk Hin. apply not_elem_of_app in Hin as [Hin Hkx].
  destruct (decide (k ∈ take n l)) as [Hkt|Hkt].
  - destruct (H4 k Hkt) as (r' & Hr' & Hnx). congruence.
  - assert (k ∉ l) as Hkl by (rewrite <- (take_drop n l), elem_of_app; tauto).
    rewrite H3 in Hk by done. apply Hf; [done|]. by apply not_elem_of_app.
Qed.

(** All slots are queued exactly when four requests are. *)
Lemma queue_full reqs tail l ex :
  queue_wf reqs tail l ex ->
  length l = MQTT_REQ_MAX_IN_FLIGHT <-> forall k, (k < MQTT_REQ_MAX_IN_FLIGHT)%nat -> k ∈ l.
Proof.
  intros [Hs Hc Hn _ _].
  assert (incl l (seq 0 MQTT_REQ_MAX_IN_FLIGHT)) as Hincl.
  { intros k Hk. apply in_seq. apply list_elem_of_In, (chain_lookup _ _ _ _ Hc) in Hk as [r Hr].
    apply lookup_lt_Some in Hr. rewrite Hs in Hr. lia. }
  split.
  - intros Hl k Hk. apply list_elem_of_In. apply (NoDup_length_incl (l' := seq 0 MQTT_REQ_MAX_IN_FLIGHT));
      [by apply NoDup_ListNoDup|rewrite length_seq; lia|done|]. apply in_seq. lia.
  - intros H. apply Nat.le_antisymm.
    + rewrite <- (length_seq MQTT_REQ_MAX_IN_FLIGHT 0). apply NoDup_incl_length; [by apply NoDup_ListNoDup|done].
    + rewrite <- (length_seq MQTT_REQ_MAX_IN_FLIGHT 0) at 1. apply NoDup_incl_length; [apply seq_NoDup|].
      intros k Hk. apply list_elem_of_In, H. apply in_seq in Hk. lia.
Qed.

(** ** Properties *)

(** A new request is refused exactly when all four slots are queued.
    Otherwise creating and appending it puts it at the end of the queue with the
    full timeout of thirty seconds, and leaves the order and the remaining time
    of every other request as they were. *)
Theorem request_enqueue (reqs : list mqtt_request_t) (tail : option nat) (l : list nat)
    (pkt : Z) (cb : option Z) (arg : Z) :
  queue_wf reqs tail l [] -> timed reqs l ->
  if (length l =? MQTT_REQ_MAX_IN_FLIGHT)%nat
  then mqtt_create_request pkt cb arg reqs = Some (None, reqs)
  else exists n reqs1 tail' reqs',
    mqtt_create_request pkt cb arg reqs = Some (Some n, reqs1) /\
    mqtt_append_request tail n reqs1 = Some (tail', reqs') /\
    queue_wf reqs' tail' (l ++ [n]) [] /\
    deadlines reqs' 0 (l ++ [n]) = deadlines reqs 0 l ++ [MQTT_REQ_TIMEOUT] /\
    req_pkt_id <$> reqs' !! n = Some pkt.
Proof.
  intros Hwf Ht. destruct (create_spec reqs tail l [] pkt cb arg Hwf) as (o & reqs1 & E & Ho).
  destruct o as [n|].
  - destruct Ho as (Hn & Hwf1 & (r & Hr & Hnx & _ & _ & Hp) & Hfr).
    assert (length l <> MQTT_REQ_MAX_IN_FLIGHT) as Hlen.
    { intros Hl. pose proof (lookup_lt_Some _ _ _ Hr) as Hlt. rewrite (q_size _ _ _ _ Hwf1) in Hlt.
      apply Hn, (queue_full _ _ _ _ Hwf); [done|done]. }
    rewrite (proj2 (Nat.eqb_neq _ _) Hlen).
    assert (forall k, k ∈ l -> reqs1 !! k = reqs !! k) as Hfr'
      by (intros k Hk; apply Hfr; intros ->; done).
    destruct (append_spec reqs1 tail l n r [] Hwf1 (timed_ext _ _ _ Hfr' Ht) Hr Hnx)
      as (tail' & reqs' & E' & Hwf' & Hd & Hpk).
    exists n, reqs1, tail', reqs'. repeat (split; [done|]). split.
    + rewrite Hd. f_equal. apply deadlines_ext. intros k Hk. by rewrite Hfr'.
    + rewrite Hpk, Hr. cbn. by rewrite Hp.
  - destruct Ho as [Hl ->]. rewrite app_nil_r in Hl. rewrite (proj2 (Nat.eqb_eq _ _)); [done|].
    by apply (queue_full _ _ _ _ Hwf).
Qed.

Definition free_slots : list mqtt_request_t :=
  mqtt_init_requests (repeat (Req None None 0 0 0) 4).

Lemma free_slots_wf : queue_wf free_slots None [] [].
Proof. by apply init_spec. Qed.

Lemma free_slots_timed : timed free_slots [].
Proof. split; [|constructor]. intros i r Hi. by apply elem_of_nil in Hi. Qed.

Lemma request_enqueue_witness :
  exists n reqs1 tail' reqs',
    mqtt_create_request 7 (Some 1) 2 free_slots = Some (Some n, reqs1) /\
    mqtt_append_request None n reqs1 = Some (tail', reqs').
Proof.
  destruct (request_enqueue free_slots None [] 7 (Some 1) 2 free_slots_wf free_slots_timed)
    as (n & reqs1 & tail' & reqs' & H1 & H2 & _).
  by exists n, reqs1, tail', reqs'.
Defined.

(** A queue of two requests with packet identifiers 7 and 9, the first half
    through its time. *)
Definition two_slots : list mqtt_request_t :=
  [Req (Some 1%nat) (Some 1) 10 7 15; Req None (Some 1) 11 9 15; Req (Some 2%nat) None 0 0 0;
   Req (Some 3%nat) None 0 0 0].

Lemma two_slots_wf : queue_wf two_slots (Some 0%nat) [0%nat; 1%nat] [].
Proof.
  split; [done| |repeat constructor; set_solver|intros k Hk; by apply elem_of_nil in Hk|].
  - cbn. split; [done|]. eexists. split; [done|]. split; [done|]. eexists. by split.
  - intros [|[|[|[|n]]]] r Hr Hn; cbn in Hr; simplify_eq; try done; set_solver.
Qed.

Lemma two_slots_timed : timed two_slots [0%nat; 1%nat].
Proof.
  split; [|by repeat constructor]. intros [|[|n]] r Hi Hr; cbn in Hr; simplify_eq;
    unfold MQTT_REQ_TIMEOUT; cbn; try lia. set_solver.
Qed.

(** Taking a request by packet identifier removes the first request with
    that identifier, if there is one, and leaves the order and the remaining
    time of all others unchanged; otherwise nothing changes. *)
Theorem request_take (reqs : list mqtt_request_t) (tail : option nat) (l : list nat) (pkt : Z) :
  queue_wf reqs tail l [] -> timed reqs l ->
  exists o tail' reqs', mqtt_take_request tail pkt reqs = Some (o, tail', reqs') /\
    match o with
    | None => tail' = tail /\ reqs' = reqs /\
        (forall i r, i ∈ l -> reqs !! i = Some r -> req_pkt_id r <> pkt)
    | Some i => exists l1 l2 r, l = l1 ++ i :: l2 /\ reqs !! i = Some r /\ req_pkt_id r = pkt /\
        (forall j r, j ∈ l1 -> reqs !! j = Some r -> req_pkt_id r <> pkt) /\
        queue_wf reqs' tail' (l1 ++ l2) [i] /\
        deadlines reqs' 0 (l1 ++ l2) = delete (length l1) (deadlines reqs 0 l)
    end.
Proof. apply take_spec. Qed.

Lemma request_take_witness :
  exists o tail' reqs', mqtt_take_request (Some 0%nat) 7 two_slots = Some (o, tail', reqs').
Proof.
  destruct (request_take two_slots (Some 0%nat) [0%nat; 1%nat] 7 two_slots_wf two_slots_timed)
    as (o & tail' & reqs' & H & _). by exists o, tail', reqs'.
Defined.

(** After [t] seconds a prefix of the queue has expired: every expired
    request was due, its slot is free again and its callback ran with
    [ERR_TIMEOUT], in queue order; every remaining request was not overdue and
    has exactly [t] seconds less to go. *)
Theorem request_time_elapsed (reqs : list mqtt_request_t) (tail : option nat) (l : list nat) (t : Z) :
  queue_wf reqs tail l [] -> timed reqs l -> 0 <= t < 256 ->
  exists n tail' reqs',
    mqtt_request_time_elapsed tail t reqs
      = Some (tail', reqs', concat (map (timeout_event reqs) (take n l))) /\
    queue_wf reqs' tail' (drop n l) [] /\
    Forall (fun d => d <= t) (take n (deadlines reqs 0 l)) /\
    Forall (fun d => t <= d) (drop n (deadlines reqs 0 l)) /\
    deadlines reqs' 0 (drop n l) = map (fun d => d - t) (drop n (deadlines reqs 0 l)).
Proof. apply time_elapsed_spec. Qed.

Lemma request_time_elapsed_witness :
  exists n tail' reqs', mqtt_request_time_elapsed (Some 0%nat) 20 two_slots
    = Some (tail', reqs', concat (map (timeout_event two_slots) (take n [0%nat; 1%nat]))).
Proof.
  destruct (request_time_elapsed two_slots (Some 0%nat) [0%nat; 1%nat] 20 two_slots_wf
    two_slots_timed) as (n & tail' & reqs' & H & _); [lia|]. by exists n, tail', reqs'.
Defined.
