(* ===== verification/Mqtt.v ===== *)
(** * The MQTT client: [ext/lwip/src/apps/mqtt/mqtt.c]

    Client state, connection handling, timers, incoming messages and the public
    interface.  Calls into the TCP layer, the timer service and the client's
    callbacks are recorded in a log, oldest first; their results come from the
    TCP interface.  [None] is a halt ([LWIP_ASSERT] and [LWIP_ERROR] end in
    [osalSysHalt] on this port) or an access outside an object.  The callbacks
    do not call back into the client. *)

From Stdlib Require Import ZArith Lia.
From stdpp Require Import base list option numbers.
From S2P Require Import Prelude MqttRing MqttReq.
Import OptionNotations.

Local Open Scope Z_scope.

(** ** Constants *)

Definition TCP_DISCONNECTED : Z := 0.
Definition TCP_CONNECTING : Z := 1.
Definition MQTT_CONNECTING : Z := 2.
Definition MQTT_CONNECTED : Z := 3.

Definition MQTT_MSG_TYPE_CONNECT : Z := 1.
Definition MQTT_MSG_TYPE_CONNACK : Z := 2.
Definition MQTT_MSG_TYPE_PUBLISH : Z := 3.
Definition MQTT_MSG_TYPE_PUBACK : Z := 4.
Definition MQTT_MSG_TYPE_PUBREC : Z := 5.
Definition MQTT_MSG_TYPE_PUBREL : Z := 6.
Definition MQTT_MSG_TYPE_PUBCOMP : Z := 7.
Definition MQTT_MSG_TYPE_SUBSCRIBE : Z := 8.
Definition MQTT_MSG_TYPE_SUBACK : Z := 9.
Definition MQTT_MSG_TYPE_UNSUBSCRIBE : Z := 10.
Definition MQTT_MSG_TYPE_UNSUBACK : Z := 11.
Definition MQTT_MSG_TYPE_PINGREQ : Z := 12.
Definition MQTT_MSG_TYPE_PINGRESP : Z := 13.

Definition MQTT_CTL_PACKET_TYPE (b : Z) : Z := Z.shiftr (Z.land b 0xf0) 4.
Definition MQTT_CTL_PACKET_QOS (b : Z) : Z := Z.shiftr (Z.land b 0x6) 1.

Definition MQTT_CONNECT_FLAG_WILL_RETAIN : Z := 32.
Definition MQTT_CONNECT_FLAG_WILL : Z := 4.
Definition MQTT_CONNECT_FLAG_CLEAN_SESSION : Z := 2.

Definition MQTT_CONNECT_ACCEPTED : Z := 0.
Definition MQTT_CONNECT_DISCONNECTED : Z := 256.
Definition MQTT_CONNECT_TIMEOUT : Z := 257.
Definition MQTT_DATA_FLAG_LAST : Z := 1.

Definition MQTT_VAR_HEADER_BUFFER_LEN : Z := 128.
Definition MQTT_CYCLIC_TIMER_INTERVAL : Z := 5.
Definition MQTT_CONNECT_TIMOUT : Z := 100.

Definition ERR_ABRT : Z := -13.
Definition ERR_CONN : Z := -11.
Definition ERR_ISCONN : Z := -10.
Definition ERR_ARG : Z := -16.
Definition ERR_VAL : Z := -6.

(** ** State *)

Record mqtt_client_t := Client {
  cyclic_tick : Z;
  keep_alive : Z;
  server_watchdog : Z;
  pkt_id_seq : Z;
  inpub_pkt_id : Z;
  conn_state : Z;
  conn : bool;                 (* the pcb pointer is not null *)
  connect_cb : bool;           (* callback pointers that are not null *)
  pend_req_queue : option nat;
  req_list : list mqtt_request_t;
  data_cb : bool;
  pub_cb : bool;
  msg_idx : Z;
  rx_buffer : list Z;
  output : mqtt_ringbuf_t
}.

Inductive mqtt_event :=
| EvConnectCb (status : Z)
| EvPubCb (topic : list Z) (tot_len : Z)
| EvDataCb (data : list Z) (flags : Z)
| EvReqCb (e : req_event)
| EvTcpUnhook
| EvTcpHook
| EvTcpRecved (n : Z)
| EvPbufFree
| EvTimeout (ms : Z)
| EvUntimeout.

Class TcpConnOps (T : Type) := {
  tcp_new : T -> bool * T;
  tcp_bind : T -> Z * T;
  tcp_connect : T -> Z * T;
  tcp_close : T -> Z * T;
  tcp_abort : T -> T
}.

Record mstate (T : Type) := MState { client : mqtt_client_t; tcp : T; log : list mqtt_event }.
Arguments MState {T} _ _ _.
Arguments client {T} _.
Arguments tcp {T} _.
Arguments log {T} _.

Definition set_cyclic_tick (v : Z) (c : mqtt_client_t) : mqtt_client_t :=
  Client v (keep_alive c) (server_watchdog c) (pkt_id_seq c) (inpub_pkt_id c) (conn_state c) (conn c)
    (connect_cb c) (pend_req_queue c) (req_list c) (data_cb c) (pub_cb c) (msg_idx c) (rx_buffer c) (output c).
Definition set_server_watchdog (v : Z) (c : mqtt_client_t) : mqtt_client_t :=
  Client (cyclic_tick c) (keep_alive c) v (pkt_id_seq c) (inpub_pkt_id c) (conn_state c) (conn c)
    (connect_cb c) (pend_req_queue c) (req_list c) (data_cb c) (pub_cb c) (msg_idx c) (rx_buffer c) (output c).
Definition set_pkt_id_seq (v : Z) (c : mqtt_client_t) : mqtt_client_t :=
  Client (cyclic_tick c) (keep_alive c) (server_watchdog c) v (inpub_pkt_id c) (conn_state c) (conn c)
    (connect_cb c) (pend_req_queue c) (req_list c) (data_cb c) (pub_cb c) (msg_idx c) (rx_buffer c) (output c).
Definition set_inpub_pkt_id (v : Z) (c : mqtt_client_t) : mqtt_client_t :=
  Client (cyclic_tick c) (keep_alive c) (server_watchdog c) (pkt_id_seq c) v (conn_state c) (conn c)
    (connect_cb c) (pend_req_queue c) (req_list c) (data_cb c) (pub_cb c) (msg_idx c) (rx_buffer c) (output c).
Definition set_conn_state (v : Z) (c : mqtt_client_t) : mqtt_client_t :=
  Client (cyclic_tick c) (keep_alive c) (server_watchdog c) (pkt_id_seq c) (inpub_pkt_id c) v (conn c)
    (connect_cb c) (pend_req_queue c) (req_list c) (data_cb c) (pub_cb c) (msg_idx c) (rx_buffer c) (output c).
Definition set_conn (v : bool) (c : mqtt_client_t) : mqtt_client_t :=
  Client (cyclic_tick c) (keep_alive c) (server_watchdog c) (pkt_id_seq c) (inpub_pkt_id c) (conn_state c) v
    (connect_cb c) (pend_req_queue c) (req_list c) (data_cb c) (pub_cb c) (msg_idx c) (rx_buffer c) (output c).
Definition set_requests (q : option nat) (l : list mqtt_request_t) (c : mqtt_client_t) : mqtt_client_t :=
  Client (cyclic_tick c) (keep_alive c) (server_watchdog c) (pkt_id_seq c) (inpub_pkt_id c) (conn_state c)
    (conn c) (connect_cb c) q l (data_cb c) (pub_cb c) (msg_idx c) (rx_buffer c) (output c).
Definition set_callbacks (d p : bool) (c : mqtt_client_t) : mqtt_client_t :=
  Client (cyclic_tick c) (keep_alive c) (server_watchdog c) (pkt_id_seq c) (inpub_pkt_id c) (conn_state c)
    (conn c) (connect_cb c) (pend_req_queue c) (req_list c) d p (msg_idx c) (rx_buffer c) (output c).
Definition set_rx (i : Z) (l : list Z) (c : mqtt_client_t) : mqtt_client_t :=
  Client (cyclic_tick c) (keep_alive c) (server_watchdog c) (pkt_id_seq c) (inpub_pkt_id c) (conn_state c)
    (conn c) (connect_cb c) (pend_req_queue c) (req_list c) (data_cb c) (pub_cb c) i l (output c).
Definition set_output (o : mqtt_ringbuf_t) (c : mqtt_client_t) : mqtt_client_t :=
  Client (cyclic_tick c) (keep_alive c) (server_watchdog c) (pkt_id_seq c) (inpub_pkt_id c) (conn_state c)
    (conn c) (connect_cb c) (pend_req_queue c) (req_list c) (data_cb c) (pub_cb c) (msg_idx c) (rx_buffer c) o.

(** The client after [memset(client, 0, sizeof(mqtt_client_t))]. *)
Definition zero_client : mqtt_client_t :=
  Client 0 0 0 0 0 TCP_DISCONNECTED false false None (repeat (Req None None 0 0 0) MQTT_REQ_MAX_IN_FLIGHT)
    false false 0 (repeat 0 (Z.to_nat MQTT_VAR_HEADER_BUFFER_LEN))
    (Ring 0 0 (repeat 0 (Z.to_nat MQTT_OUTPUT_RINGBUF_SIZE))).

Section Client.
Context {T : Type} `{TcpOps T, TcpConnOps T}.

Definition on_client (f : mqtt_client_t -> mqtt_client_t) (s : mstate T) : mstate T :=
  MState (f (client s)) (tcp s) (log s).
Definition emit_ev (e : mqtt_event) (s : mstate T) : mstate T :=
  MState (client s) (tcp s) (log s ++ [e]).
Definition with_tcp (t : T) (s : mstate T) : mstate T := MState (client s) t (log s).

Definition msg_generate_packet_id (c : mqtt_client_t) : Z * mqtt_client_t :=
  let c := set_pkt_id_seq (u16 (pkt_id_seq c + 1)) c in
  let c := if pkt_id_seq c =? 0 then set_pkt_id_seq (u16 (pkt_id_seq c + 1)) c else c in
  (pkt_id_seq c, c).

(** [mqtt_output_send(&client->output, tpcb)] for a pcb that is not null. *)
Definition output_send (s : mstate T) : mstate T :=
  let '(rb, t) := mqtt_output_send (output (client s)) (tcp s) in
  MState (set_output rb (client s)) t (log s).
(** [mqtt_output_send(&client->output, client->conn)] *)
Definition send_output (s : mstate T) : option (mstate T) :=
  if conn (client s) then Some (output_send s) else None.

Definition mqtt_close (reason : Z) (s : mstate T) : option (mstate T) :=
  let s :=
    if conn (client s) then
      let s := emit_ev EvTcpUnhook s in
      let '(res, t) := tcp_close (tcp s) in
      let t := if negb (res =? ERR_OK) then tcp_abort t else t in
      on_client (set_conn false) (with_tcp t s)
    else s in
  let? (q, reqs) := mqtt_clear_requests (pend_req_queue (client s)) (req_list (client s)) in
  let s := on_client (set_requests q reqs) s in
  let s := emit_ev EvUntimeout s in
  if negb (conn_state (client s) =? TCP_DISCONNECTED) then
    let s := on_client (set_conn_state TCP_DISCONNECTED) s in
    Some (if connect_cb (client s) then emit_ev (EvConnectCb reason) s else s)
  else Some s.

Definition emit_reqs (evs : list req_event) (s : mstate T) : mstate T :=
  MState (client s) (tcp s) (log s ++ map EvReqCb evs).

Definition mqtt_cyclic_timer (s : mstate T) : option (mstate T) :=
  let? (s, restart_timer) :=
    (if conn_state (client s) =? MQTT_CONNECTING then
       let s := on_client (fun c => set_cyclic_tick (u16 (cyclic_tick c + 1)) c) s in
       if MQTT_CONNECT_TIMOUT <=? cyclic_tick (client s) * MQTT_CYCLIC_TIMER_INTERVAL then
         let? s := mqtt_close MQTT_CONNECT_TIMEOUT s in Some (s, false)
       else Some (s, true)
     else if conn_state (client s) =? MQTT_CONNECTED then
       let? (q, reqs, evs) := mqtt_request_time_elapsed (pend_req_queue (client s))
         MQTT_CYCLIC_TIMER_INTERVAL (req_list (client s)) in
       let s := emit_reqs evs (on_client (set_requests q reqs) s) in
       if 0 <? keep_alive (client s) then
         let s := on_client (fun c => set_server_watchdog (u16 (server_watchdog c + 1)) c) s in
         let? (s, restart_timer) :=
           (if keep_alive (client s) + keep_alive (client s) / 2 <?
               server_watchdog (client s) * MQTT_CYCLIC_TIMER_INTERVAL then
              let? s := mqtt_close MQTT_CONNECT_TIMEOUT s in Some (s, false)
            else Some (s, true)) in
         if keep_alive (client s) <=? cyclic_tick (client s) * MQTT_CYCLIC_TIMER_INTERVAL then
           let? fits := mqtt_output_check_space (output (client s)) 0 in
           if fits : bool then
             let? rb := mqtt_output_append_fixed_header MQTT_MSG_TYPE_PINGREQ 0 0 0 0
               (output (client s)) in
             Some (on_client (fun c => set_cyclic_tick 0 (set_output rb c)) s, restart_timer)
           else Some (s, restart_timer)
         else Some (on_client (fun c => set_cyclic_tick (u16 (cyclic_tick c + 1)) c) s, restart_timer)
       else Some (s, true)
     else Some (s, false)) in
  Some (if restart_timer : bool then emit_ev (EvTimeout (MQTT_CYCLIC_TIMER_INTERVAL * 1000)) s else s).

Definition pub_ack_rec_rel_response (msg pkt_id qos : Z) (s : mstate T) : option (Z * mstate T) :=
  let? fits := mqtt_output_check_space (output (client s)) 2 in
  if fits : bool then
    let? rb := mqtt_output_append_fixed_header msg 0 qos 0 2 (output (client s)) in
    let rb := mqtt_output_append_u16 pkt_id rb in
    let? s := send_output (on_client (set_output rb) s) in
    Some (ERR_OK, s)
  else Some (ERR_MEM, s).

Definition mqtt_incomming_suback (r : mqtt_request_t) (result : Z) (s : mstate T) : mstate T :=
  match req_cb r with
  | Some cb => emit_ev (EvReqCb (ReqEvent cb (req_arg r) (if result <? 3 then ERR_OK else ERR_ABRT))) s
  | None => s
  end.

(** ** Incoming messages *)

(** [rx_buffer[i]] *)
Definition rx (i : Z) (s : mstate T) : option Z :=
  if 0 <=? i then rx_buffer (client s) !! Z.to_nat i else None.
Definition set_rx_byte (i v : Z) (s : mstate T) : option (mstate T) :=
  let? _ := rx i s in
  Some (on_client (fun c => set_rx (msg_idx c) (<[Z.to_nat i := v]> (rx_buffer c)) c) s).
(** [n] bytes of [rx_buffer] from index [i]. *)
Definition rx_slice (i n : Z) (s : mstate T) : option (list Z) :=
  if (0 <=? i) && (0 <=? n) && (i + n <=? Z.of_nat (length (rx_buffer (client s))))
  then Some (take (Z.to_nat n) (drop (Z.to_nat i) (rx_buffer (client s)))) else None.

(** The PUBLISH branch of [mqtt_message_received]; the boolean is false for the
    jump to [out_disconnect]. *)
Definition publish_received (fixed_hdr_idx length remaining_length : Z) (s : mstate T)
    : option (mstate T * bool) :=
  let var_hdr_payload := fixed_hdr_idx in
  let? b0 := rx 0 s in
  let qos := MQTT_CTL_PACKET_QOS b0 in
  let? (s, payload_offset, payload_length, ok) :=
    (if msg_idx (client s) <=? MQTT_VAR_HEADER_BUFFER_LEN then
       let? t0 := rx var_hdr_payload s in
       let? t1 := rx (var_hdr_payload + 1) s in
       let topic_len := u16 (Z.shiftl t0 8 + t1) in
       let topic := var_hdr_payload + 2 in
       let after_topic := u16 (2 + topic_len) in
       if length <? after_topic + (if truthy qos then 2 else 1) then Some (s, 0, 0, false)
       else
         let? (s, after_topic) :=
           (if 0 <? qos then
              let? p0 := rx (var_hdr_payload + after_topic) s in
              let? p1 := rx (var_hdr_payload + after_topic + 1) s in
              Some (on_client (set_inpub_pkt_id (u16 (Z.shiftl p0 8 + p1))) s, u16 (after_topic + 2))
            else Some (on_client (set_inpub_pkt_id 0) s, after_topic)) in
         let? bkp := rx (topic + topic_len) s in
         let? s := set_rx_byte (topic + topic_len) 0 s in
         let payload_length := u16 (length - after_topic) in
         let? name := rx_slice topic (topic_len + 1) s in
         let s := if pub_cb (client s)
                  then emit_ev (EvPubCb name (u32 (remaining_length + payload_length))) s else s in
         let? s := set_rx_byte (topic + topic_len) bkp s in
         Some (s, after_topic, payload_length, true)
     else Some (s, 0, length, true)) in
  if negb ok then Some (s, false)
  else if (0 <? payload_length) || (remaining_length =? 0) then
    if data_cb (client s) then
      let? data := rx_slice (var_hdr_payload + payload_offset) payload_length s in
      let s := emit_ev (EvDataCb data (if remaining_length =? 0 then MQTT_DATA_FLAG_LAST else 0)) s in
      if (remaining_length =? 0) && (0 <? qos) then
        let resp_msg := if qos =? 1 then MQTT_MSG_TYPE_PUBACK else MQTT_MSG_TYPE_PUBREC in
        let? (_, s) := pub_ack_rec_rel_response resp_msg (inpub_pkt_id (client s)) 0 s in
        Some (s, true)
      else Some (s, true)
    else None
  else Some (s, true).

Definition mqtt_message_received (fixed_hdr_idx length remaining_length : Z) (s : mstate T)
    : option (Z * mstate T) :=
  let? b0 := rx 0 s in
  let pkt_type := MQTT_CTL_PACKET_TYPE b0 in
  if pkt_type =? MQTT_MSG_TYPE_CONNACK then
    if conn_state (client s) =? MQTT_CONNECTING then
      let? res := rx (fixed_hdr_idx + 1) s in
      if res =? MQTT_CONNECT_ACCEPTED then
        let s := on_client (fun c => set_conn_state MQTT_CONNECTED (set_cyclic_tick 0 c)) s in
        Some (res, if connect_cb (client s) then emit_ev (EvConnectCb res) s else s)
      else Some (res, s)
    else Some (MQTT_CONNECT_ACCEPTED, s)
  else if pkt_type =? MQTT_MSG_TYPE_PINGRESP then Some (MQTT_CONNECT_ACCEPTED, s)
  else if pkt_type =? MQTT_MSG_TYPE_PUBLISH then
    let? (s, ok) := publish_received fixed_hdr_idx length remaining_length s in
    Some (if ok : bool then MQTT_CONNECT_ACCEPTED else MQTT_CONNECT_DISCONNECTED, s)
  else
    let? p0 := rx fixed_hdr_idx s in
    let? p1 := rx (fixed_hdr_idx + 1) s in
    let pkt_id := Z.lor (u16 (Z.shiftl p0 8)) p1 in
    if pkt_id =? 0 then Some (MQTT_CONNECT_DISCONNECTED, s)
    else if pkt_type =? MQTT_MSG_TYPE_PUBREC then
      let? (_, s) := pub_ack_rec_rel_response MQTT_MSG_TYPE_PUBREL pkt_id 1 s in
      Some (MQTT_CONNECT_ACCEPTED, s)
    else if pkt_type =? MQTT_MSG_TYPE_PUBREL then
      let? (_, s) := pub_ack_rec_rel_response MQTT_MSG_TYPE_PUBCOMP pkt_id 0 s in
      Some (MQTT_CONNECT_ACCEPTED, s)
    else if (pkt_type =? MQTT_MSG_TYPE_SUBACK) || (pkt_type =? MQTT_MSG_TYPE_UNSUBACK) ||
            (pkt_type =? MQTT_MSG_TYPE_PUBCOMP) || (pkt_type =? MQTT_MSG_TYPE_PUBACK) then
      let? (o, q, reqs) := mqtt_take_request (pend_req_queue (client s)) pkt_id (req_list (client s)) in
      let s := on_client (set_requests q reqs) s in
      match o with
      | None => Some (MQTT_CONNECT_ACCEPTED, s)
      | Some n =>
          let? r := reqs !! n in
          let? (s, ok) :=
            (if pkt_type =? MQTT_MSG_TYPE_SUBACK then
               if length <? 3 then Some (s, false)
               else let? p2 := rx (fixed_hdr_idx + 2) s in Some (mqtt_incomming_suback r p2 s, true)
             else Some (match req_cb r with
                        | Some cb => emit_ev (EvReqCb (ReqEvent cb (req_arg r) ERR_OK)) s
                        | None => s
                        end, true)) in
          if negb ok then Some (MQTT_CONNECT_DISCONNECTED, s)
          else
            let? reqs := mqtt_delete_request (Some n) (req_list (client s)) in
            Some (MQTT_CONNECT_ACCEPTED, on_client (fun c => set_requests (pend_req_queue c) reqs c) s)
      end
    else Some (MQTT_CONNECT_DISCONNECTED, s).

(** The locals of [mqtt_parse_incoming]. *)
Record parse_locals := Locals {
  in_offset : Z; msg_rem_len : Z; fixed_hdr_idx : Z; hdr_b : Z
}.

(** The branch of the loop that reads a byte of the fixed header. *)
Definition parse_header (p : list Z) (v : parse_locals) (s : mstate T)
    : option (mstate T * parse_locals) :=
  let? (b, off, s) :=
    (if fixed_hdr_idx v <? msg_idx (client s) then
       let? b := rx (fixed_hdr_idx v) s in Some (b, in_offset v, s)
     else
       let? b := p !! Z.to_nat (in_offset v) in
       let? s' := set_rx_byte (msg_idx (client s)) b s in
       Some (b, u16 (in_offset v + 1),
             on_client (fun c => set_rx (u32 (msg_idx c + 1)) (rx_buffer c) c) s')) in
  let fh := u8 (fixed_hdr_idx v + 1) in
  if 2 <=? fh then
    let sh := (fh - 2) * 7 in
    if 32 <=? sh then None
    else
      let rem := Z.lor (msg_rem_len v) (u32 (Z.shiftl (Z.land b 0x7f) sh)) in
      if Z.land b 0x80 =? 0 then
        if rem =? 0 then
          let? (_, s) := mqtt_message_received fh 0 0 s in
          Some (on_client (fun c => set_rx 0 (rx_buffer c) c) s, Locals off rem 0 b)
        else Some (s, Locals off (u32 (rem + fh - msg_idx (client s))) fh b)
      else Some (s, Locals off rem fh b)
  else Some (s, Locals off (msg_rem_len v) fh b).

(** The branch that copies message bytes; [inl] continues the loop, [inr]
    returns. *)
Definition parse_body (p : list Z) (v : parse_locals) (s : mstate T)
    : option (mstate T * parse_locals + Z * mstate T) :=
  let fh := fixed_hdr_idx v in
  let idx := msg_idx (client s) in
  let cpy_start := u16 (u32 (idx - fh) mod (MQTT_VAR_HEADER_BUFFER_LEN - fh) + fh) in
  let cpy_len := u16 (Z.min (u16 (Z.of_nat (length p) - in_offset v)) (msg_rem_len v)) in
  let buffer_space := u16 (MQTT_VAR_HEADER_BUFFER_LEN - cpy_start) in
  let cpy_len := if buffer_space <? cpy_len then buffer_space else cpy_len in
  let data := take (Z.to_nat cpy_len) (drop (Z.to_nat (in_offset v)) p) in
  let? _ := rx_slice cpy_start cpy_len s in
  let s := on_client (fun c => set_rx (u32 (idx + cpy_len))
             (list_inserts (Z.to_nat cpy_start) data (rx_buffer c)) c) s in
  let off := u16 (in_offset v + cpy_len) in
  let rem := u32 (msg_rem_len v - cpy_len) in
  if (rem =? 0) || (cpy_len =? buffer_space) then
    let? (res, s) := mqtt_message_received fh (u16 (cpy_start + cpy_len - fh)) rem s in
    if negb (res =? MQTT_CONNECT_ACCEPTED) then Some (inr (res, s))
    else if rem =? 0 then
      Some (inl (on_client (fun c => set_rx 0 (rx_buffer c) c) s, Locals off rem 0 (hdr_b v)))
    else Some (inl (s, Locals off rem fh (hdr_b v)))
  else Some (inl (s, Locals off rem fh (hdr_b v))).

(** The [while] loop; the outer [None] is lack of fuel. *)
Fixpoint parse_loop (fuel : nat) (p : list Z) (v : parse_locals) (s : mstate T)
    : option (option (Z * mstate T)) :=
  if Z.of_nat (length p) <=? in_offset v then Some (Some (MQTT_CONNECT_ACCEPTED, s))
  else
    match fuel with
    | O => None
    | S fuel =>
        if (fixed_hdr_idx v <? 2) || negb (Z.land (hdr_b v) 0x80 =? 0) then
          match parse_header p v s with
          | Some (s, v) => parse_loop fuel p v s
          | None => Some None
          end
        else
          match parse_body p v s with
          | Some (inl (s, v)) => parse_loop fuel p v s
          | Some (inr r) => Some (Some r)
          | None => Some None
          end
    end.

(** Every iteration consumes input, except the re-reading of a header of at
    most six bytes at the start. *)
Definition mqtt_parse_incoming (p : list Z) (s : mstate T) : option (Z * mstate T) :=
  match parse_loop (length p + 8) p (Locals 0 0 0 0) s with
  | Some r => r
  | None => None
  end.

(** ** TCP callbacks *)

(** [None] for [p] is the null pointer: the remote end closed the connection.
    The pcb the data came from must be the client's. *)
Definition mqtt_tcp_recv_cb (p : option (list Z)) (err : Z) (s : mstate T) : option (Z * mstate T) :=
  if negb (conn (client s)) then None
  else match p with
  | None => let? s := mqtt_close MQTT_CONNECT_DISCONNECTED s in Some (ERR_OK, s)
  | Some p =>
      if negb (err =? ERR_OK) then Some (err, emit_ev EvPbufFree s)
      else
        let s := emit_ev (EvTcpRecved (Z.of_nat (length p))) s in
        let? (res, s) := mqtt_parse_incoming p s in
        let s := emit_ev EvPbufFree s in
        let? s := (if negb (res =? MQTT_CONNECT_ACCEPTED) then mqtt_close res s else Some s) in
        Some (ERR_OK, if negb (keep_alive (client s) =? 0) then on_client (set_server_watchdog 0) s else s)
  end.

(** The [while] loop that completes QoS 0 publishes, packet identifier 0. *)
Fixpoint complete_qos0 (fuel : nat) (s : mstate T) : option (mstate T) :=
  match fuel with
  | O => None
  | S fuel =>
      let? (o, q, reqs) := mqtt_take_request (pend_req_queue (client s)) 0 (req_list (client s)) in
      let s := on_client (set_requests q reqs) s in
      match o with
      | None => Some s
      | Some n =>
          let? r := reqs !! n in
          let s := match req_cb r with
                   | Some cb => emit_ev (EvReqCb (ReqEvent cb (req_arg r) ERR_OK)) s
                   | None => s
                   end in
          let? reqs := mqtt_delete_request (Some n) (req_list (client s)) in
          complete_qos0 fuel (on_client (fun c => set_requests (pend_req_queue c) reqs c) s)
      end
  end.

Definition mqtt_tcp_sent_cb (s : mstate T) : option (Z * mstate T) :=
  if conn_state (client s) =? MQTT_CONNECTED then
    let s := on_client (fun c => set_server_watchdog 0 (set_cyclic_tick 0 c)) s in
    let? s := complete_qos0 (S MQTT_REQ_MAX_IN_FLIGHT) s in
    let? s := send_output s in
    Some (ERR_OK, s)
  else Some (ERR_OK, s).

Definition mqtt_tcp_err_cb (s : mstate T) : option (mstate T) :=
  mqtt_close MQTT_CONNECT_DISCONNECTED (on_client (set_conn false) s).

Definition mqtt_tcp_poll_cb (s : mstate T) : Z * mstate T :=
  if conn_state (client s) =? MQTT_CONNECTED then (ERR_OK, output_send s) else (ERR_OK, s).

Definition mqtt_tcp_connect_cb (err : Z) (s : mstate T) : option (Z * mstate T) :=
  if negb (err =? ERR_OK) then Some (err, s)
  else
    let s := on_client (fun c => set_rx 0 (rx_buffer c) c) s in
    let s := emit_ev EvTcpHook s in
    let s := on_client (set_conn_state MQTT_CONNECTING) s in
    let s := emit_ev (EvTimeout (MQTT_CYCLIC_TIMER_INTERVAL * 1000)) s in
    let s := on_client (set_cyclic_tick 0) s in
    let? s := send_output s in
    Some (ERR_OK, s).

(** ** Public interface

    Strings are given without their terminator; [payload] is [None] for a null
    pointer. *)

Definition mqtt_publish (topic : list Z) (payload : option (list Z)) (payload_length qos retain : Z)
    (cb : option Z) (arg : Z) (s : mstate T) : option (Z * mstate T) :=
  if conn_state (client s) =? TCP_DISCONNECTED then Some (ERR_CONN, s)
  else if 0xFFFF - 2 <? Z.of_nat (length topic) then None
  else
    let topic_len := Z.of_nat (length topic) in
    let total_len := 2 + topic_len + payload_length in
    if 0xFFFF <? total_len then None
    else
      let remaining_length := u16 total_len in
      let '(pkt_id, remaining_length, s) :=
        if 0 <? qos then
          let '(id, c) := msg_generate_packet_id (client s) in
          (id, u16 (remaining_length + 2), on_client (fun _ => c) s)
        else (0, remaining_length, s) in
      let? (o, reqs) := mqtt_create_request pkt_id cb arg (req_list (client s)) in
      let s := on_client (fun c => set_requests (pend_req_queue c) reqs c) s in
      match o with
      | None => Some (ERR_MEM, s)
      | Some r =>
          let? fits := mqtt_output_check_space (output (client s)) remaining_length in
          if negb fits then
            let? reqs := mqtt_delete_request (Some r) (req_list (client s)) in
            Some (ERR_MEM, on_client (fun c => set_requests (pend_req_queue c) reqs c) s)
          else
            let? rb := mqtt_output_append_fixed_header MQTT_MSG_TYPE_PUBLISH 0 qos retain
              remaining_length (output (client s)) in
            let rb := mqtt_output_append_string topic topic_len rb in
            let rb := if 0 <? qos then mqtt_output_append_u16 pkt_id rb else rb in
            let rb := match payload with
                      | Some data =>
                          if 0 <? payload_length
                          then mqtt_output_append_buf (take (Z.to_nat payload_length) data) rb else rb
                      | None => rb
                      end in
            let s := on_client (set_output rb) s in
            let? (q, reqs) := mqtt_append_request (pend_req_queue (client s)) r (req_list (client s)) in
            let? s := send_output (on_client (set_requests q reqs) s) in
            Some (ERR_OK, s)
      end.

Definition mqtt_sub_unsub (topic : list Z) (qos : Z) (cb : option Z) (arg sub : Z) (s : mstate T)
    : option (Z * mstate T) :=
  if 0xFFFF - 2 <? Z.of_nat (length topic) then None
  else
    let topic_len := Z.of_nat (length topic) in
    let total_len := topic_len + 2 + 2 + (if truthy sub then 1 else 0) in
    if 0xFFFF <? total_len then None
    else if negb (qos <? 3) then None
    else if conn_state (client s) =? TCP_DISCONNECTED then Some (ERR_CONN, s)
    else
      let remaining_length := u16 total_len in
      let '(pkt_id, c) := msg_generate_packet_id (client s) in
      let s := on_client (fun _ => c) s in
      let? (o, reqs) := mqtt_create_request pkt_id cb arg (req_list (client s)) in
      let s := on_client (fun c => set_requests (pend_req_queue c) reqs c) s in
      match o with
      | None => Some (ERR_MEM, s)
      | Some r =>
          let? fits := mqtt_output_check_space (output (client s)) remaining_length in
          if negb fits then
            let? reqs := mqtt_delete_request (Some r) (req_list (client s)) in
            Some (ERR_MEM, on_client (fun c => set_requests (pend_req_queue c) reqs c) s)
          else
            let? rb := mqtt_output_append_fixed_header
              (if truthy sub then MQTT_MSG_TYPE_SUBSCRIBE else MQTT_MSG_TYPE_UNSUBSCRIBE) 0 1 0
              remaining_length (output (client s)) in
            let rb := mqtt_output_append_u16 pkt_id rb in
            let rb := mqtt_output_append_string topic topic_len rb in
            let rb := if truthy sub then mqtt_output_append_u8 (Z.min qos 2) rb else rb in
            let s := on_client (set_output rb) s in
            let? (q, reqs) := mqtt_append_request (pend_req_queue (client s)) r (req_list (client s)) in
            let? s := send_output (on_client (set_requests q reqs) s) in
            Some (ERR_OK, s)
      end.

Definition mqtt_set_inpub_callback (pub data : bool) (s : mstate T) : mstate T :=
  on_client (set_callbacks data pub) s.

Record mqtt_connect_client_info_t := ConnectInfo {
  ci_client_id : list Z;
  ci_keep_alive : Z;
  ci_will_topic : option (list Z);
  ci_will_msg : option (list Z);
  ci_will_qos : Z;
  ci_will_retain : Z
}.

(** Flags, topic, message and remaining length of the will part of CONNECT. *)
Definition connect_will (ci : mqtt_connect_client_info_t) (remaining_length : Z)
    : option (Z * list Z * list Z * Z) :=
  match ci_will_topic ci, ci_will_msg ci with
  | Some wt, Some wm =>
      let flags := Z.lor MQTT_CONNECT_FLAG_WILL (Z.shiftl (Z.land (ci_will_qos ci) 3) 3) in
      let flags := if truthy (ci_will_retain ci) then Z.lor flags MQTT_CONNECT_FLAG_WILL_RETAIN else flags in
      if (0xFF <? Z.of_nat (length wt)) || (Z.of_nat (length wt) <=? 0) ||
         (0xFF <? Z.of_nat (length wm)) then None
      else
        let len := remaining_length + 2 + Z.of_nat (length wt) + 2 + Z.of_nat (length wm) in
        if 0xFFFF <? len then None else Some (u8 flags, wt, wm, u16 len)
  | _, _ => Some (0, [], [], remaining_length)
  end.

(** The string literal "MQTT". *)
Definition str_MQTT : list Z := [77; 81; 84; 84].

Definition mqtt_client_connect (cb : bool) (ci : mqtt_connect_client_info_t) (s : mstate T)
    : option (Z * mstate T) :=
  if negb (conn_state (client s) =? TCP_DISCONNECTED) then Some (ERR_ISCONN, s)
  else
    let c := Client 0 (ci_keep_alive ci) 0 0 0 TCP_DISCONNECTED false cb None
      (mqtt_init_requests (req_list zero_client)) false false 0 (rx_buffer zero_client)
      (output zero_client) in
    let s := on_client (fun _ => c) s in
    let? (flags, wt, wm, remaining_length) := connect_will ci (2 + 4 + 1 + 1 + 2) in
    let flags := Z.lor flags MQTT_CONNECT_FLAG_CLEAN_SESSION in
    let id_len := Z.of_nat (length (ci_client_id ci)) in
    if 0xFFFF <? id_len then None
    else
      let len := remaining_length + 2 + id_len in
      if 0xFFFF <? len then None
      else
        let remaining_length := u16 len in
        let? fits := mqtt_output_check_space (output (client s)) remaining_length in
        if negb fits then Some (ERR_MEM, s)
        else
          let '(ok, t) := tcp_new (tcp s) in
          let s := on_client (set_conn ok) (with_tcp t s) in
          if negb ok then Some (ERR_MEM, s)
          else
            let '(err, t) := tcp_bind (tcp s) in
            let s := with_tcp t s in
            if negb (err =? ERR_OK) then Some (err, on_client (set_conn false) (with_tcp (tcp_abort (tcp s)) s))
            else
              let '(err, t) := tcp_connect (tcp s) in
              let s := with_tcp t s in
              if negb (err =? ERR_OK) then Some (err, on_client (set_conn false) (with_tcp (tcp_abort (tcp s)) s))
              else
                let s := on_client (set_conn_state TCP_CONNECTING) s in
                let? rb := mqtt_output_append_fixed_header MQTT_MSG_TYPE_CONNECT 0 0 0 remaining_length
                  (output (client s)) in
                let rb := mqtt_output_append_string str_MQTT 4 rb in
                let rb := mqtt_output_append_u8 4 rb in
                let rb := mqtt_output_append_u8 flags rb in
                let rb := mqtt_output_append_u16 (ci_keep_alive ci) rb in
                let rb := mqtt_output_append_string (ci_client_id ci) id_len rb in
                let rb := if negb (Z.land flags MQTT_CONNECT_FLAG_WILL =? 0) then
                            let rb := mqtt_output_append_string wt (Z.of_nat (length wt)) rb in
                            mqtt_output_append_string wm (Z.of_nat (length wm)) rb
                          else rb in
                Some (ERR_OK, on_client (set_output rb) s).

Definition mqtt_disconnect (s : mstate T) : option (mstate T) :=
  if negb (conn_state (client s) =? TCP_DISCONNECTED) then
    mqtt_close 0 (on_client (set_conn_state TCP_DISCONNECTED) s)
  else Some s.

Definition mqtt_client_is_connected (s : mstate T) : bool :=
  conn_state (client s) =? MQTT_CONNECTED.
End Client.
