(* ===== verification/MqttInv.v ===== *)
(** * The invariant of the MQTT client

    The output buffer, the request queue and the connection state stay
    well-formed under every operation and callback of [mqtt.c]. *)

From Stdlib Require Import ZArith Lia.
From stdpp Require Import base list option numbers.
From S2P Require Import Prelude MqttRing MqttReq Mqtt.
From stdpp Require Import sets list.
Import OptionNotations.

Local Open Scope Z_scope.

(** [mcbn] computes projections of updated states. *)
Tactic Notation "mcbn" :=
  cbn [on_client emit_ev emit_reqs with_tcp client tcp log
       set_cyclic_tick set_server_watchdog set_pkt_id_seq set_inpub_pkt_id set_conn_state set_conn
       set_requests set_callbacks set_rx set_output
       cyclic_tick keep_alive server_watchdog pkt_id_seq inpub_pkt_id conn_state conn connect_cb
       pend_req_queue req_list data_cb pub_cb msg_idx rx_buffer output negb andb].
Tactic Notation "mcbn" "in" "*" :=
  cbn [on_client emit_ev emit_reqs with_tcp client tcp log
       set_cyclic_tick set_server_watchdog set_pkt_id_seq set_inpub_pkt_id set_conn_state set_conn
       set_requests set_callbacks set_rx set_output
       cyclic_tick keep_alive server_watchdog pkt_id_seq inpub_pkt_id conn_state conn connect_cb
       pend_req_queue req_list data_cb pub_cb msg_idx rx_buffer output negb andb] in *.

(** ** Deadlines of the request queue *)

Fixpoint ascending (t : Z) (ds : list Z) : Prop :=
  match ds with
  | [] => True
  | d :: ds => t <= d /\ ascending d ds
  end.

Lemma ascending_weaken t t' ds : t' <= t -> ascending t ds -> ascending t' ds.
Proof. destruct ds; cbn; [done|]. intros ? [? ?]. split; [lia|done]. Qed.

Lemma ascending_delete k : forall t ds, ascending t ds -> ascending t (delete k ds).
Proof.
  induction k as [|k IH]; intros t [|d ds] H; try done.
  - destruct H as [Hd H]. by apply (ascending_weaken d).
  - destruct H as [Hd H]. split; [done|]. by apply IH.
Qed.

Lemma ascending_drop n : forall t ds, ascending t ds -> ascending t (drop n ds).
Proof.
  induction n as [|n IH]; intros t [|d ds] H; try done. destruct H as [Hd H].
  apply (ascending_weaken d); [done|]. by apply IH.
Qed.

Lemma ascending_snoc t ds d :
  ascending t ds -> t <= d -> Forall (fun x => x <= d) ds -> ascending t (ds ++ [d]).
Proof.
  revert t. induction ds as [|x ds IH]; intros t H Ht Hf; [done|]. destruct H as [Hx H].
  apply Forall_cons_1 in Hf as [? ?]. split; [done|]. by apply IH.
Qed.

Lemma ascending_shift t k ds : ascending t ds -> ascending (t - k) (map (fun d => d - k) ds).
Proof.
  revert t. induction ds as [|x ds IH]; intros t H; [done|]. destruct H as [Hx H].
  split; [lia|]. by apply IH.
Qed.

Lemma ascending_lower t t' ds : Forall (fun d => t' <= d) ds -> ascending t ds -> ascending t' ds.
Proof. destruct ds; [done|]. intros H [_ H2]. apply Forall_cons_1 in H as [? _]. by split. Qed.

Lemma ascending_deadlines reqs l t tail :
  chain reqs tail l ->
  (ascending t (deadlines reqs t l) <->
   forall i r, i ∈ l -> reqs !! i = Some r -> 0 <= timeout_diff r).
Proof.
  revert t tail. induction l as [|i l IH]; intros t tail Hc.
  { split; [|done]. intros _ i r Hi. by apply elem_of_nil in Hi. }
  destruct Hc as (-> & r & Hr & Hc). cbn [deadlines ascending]. rewrite Hr. cbn [fmap option_fmap option_map default from_option id].
  rewrite (IH _ _ Hc). split.
  - intros [H0 H] j rj Hj Hrj. apply elem_of_cons in Hj as [->|Hj]; [|by eapply H].
    rewrite Hr in Hrj. injection Hrj as <-. lia.
  - intros H. split; [|intros j rj Hj; apply H; by right].
    pose proof (H i r ltac:(left) Hr). lia.
Qed.

Lemma timed_deadlines reqs tail l :
  chain reqs tail l ->
  timed reqs l <->
  ascending 0 (deadlines reqs 0 l) /\ Forall (fun d => d <= MQTT_REQ_TIMEOUT) (deadlines reqs 0 l).
Proof.
  intros Hc. rewrite (ascending_deadlines _ _ _ _ Hc). unfold timed. split; intros [H1 H2]; split; try done.
  - intros i r Hi Hr. by destruct (H1 i r Hi Hr).
  - intros i r Hi Hr. split; [by eapply H1|]. clear Hc tail.
    assert (forall l t, 0 <= t -> i ∈ l ->
      (forall j rj, j ∈ l -> reqs !! j = Some rj -> 0 <= timeout_diff rj) ->
      Forall (fun d => d <= MQTT_REQ_TIMEOUT) (deadlines reqs t l) ->
      timeout_diff r <= MQTT_REQ_TIMEOUT) as G; [|by eapply (G l 0)].
    clear -Hr. induction l as [|j l IH]; intros t Ht Hi Hp Hf; [by apply elem_of_nil in Hi|].
    cbn [deadlines] in Hf. apply Forall_cons_1 in Hf as [Hd Hf].
    apply elem_of_cons in Hi as [<-|Hi]; [rewrite Hr in Hd; cbn in Hd; lia|].
    eapply IH; [|done| |exact Hf].
    + destruct (reqs !! j) as [rj|] eqn:Hj; cbn; [|lia]. pose proof (Hp j rj ltac:(left) Hj). lia.
    + intros k rk Hk. apply Hp. by right.
Qed.

(** ** Requests: well-formed and timed *)

Definition reqs_ok (q : option nat) (reqs : list mqtt_request_t) (l extra : list nat) : Prop :=
  queue_wf reqs q l extra /\ timed reqs l.

Lemma reqs_ok_create q reqs l ex pkt cb arg o reqs' :
  reqs_ok q reqs l ex -> mqtt_create_request pkt cb arg reqs = Some (o, reqs') ->
  match o with
  | Some n => reqs_ok q reqs' l (n :: ex) /\ (n < MQTT_REQ_MAX_IN_FLIGHT)%nat /\
      exists r, reqs' !! n = Some r /\ next r = None /\ req_pkt_id r = pkt
  | None => reqs' = reqs /\ forall k, (k < MQTT_REQ_MAX_IN_FLIGHT)%nat -> k ∈ l ++ ex
  end.
Proof.
  intros [Hq Ht] E. destruct (create_spec reqs q l ex pkt cb arg Hq) as (o' & reqs1 & E' & H).
  rewrite E in E'. apply (inj Some) in E'. injection E' as <- <-. destruct o as [n|]; [|by destruct H].
  destruct H as (Hn & Hq' & (r & Hr & Hnx & _ & _ & Hp) & Hfr). split; [split; [done|]|].
  - eapply timed_ext; [|done]. intros k Hk. apply Hfr. intros ->. done.
  - split; [|eauto]. apply lookup_lt_Some in Hr. by rewrite (q_size _ _ _ _ Hq') in Hr.
Qed.

Lemma reqs_ok_append q reqs l n r ex :
  reqs_ok q reqs l (n :: ex) -> reqs !! n = Some r -> next r = None ->
  exists q' reqs', mqtt_append_request q n reqs = Some (q', reqs') /\
    reqs_ok q' reqs' (l ++ [n]) (filter (fun k => k <> n) ex) /\
    req_pkt_id <$> reqs' !! n = Some (req_pkt_id r).
Proof.
  intros [Hq Ht] Hr Hnx.
  destruct (append_spec reqs q l n r ex Hq Ht Hr Hnx) as (q' & reqs' & E & Hq' & Hd & Hp).
  exists q', reqs'. split; [done|]. rewrite Hp, Hr. split; [|done]. split; [done|].
  apply (timed_deadlines _ _ _ (q_chain _ _ _ _ Hq)) in Ht as [H1 H2].
  apply (timed_deadlines _ _ _ (q_chain _ _ _ _ Hq')). rewrite Hd. split.
  - by apply ascending_snoc.
  - apply Forall_app. split; [done|]. by constructor.
Qed.

Lemma reqs_ok_delete q reqs l n ex :
  reqs_ok q reqs l (n :: ex) -> (n < MQTT_REQ_MAX_IN_FLIGHT)%nat ->
  exists reqs', mqtt_delete_request (Some n) reqs = Some reqs' /\ reqs_ok q reqs' l ex.
Proof.
  intros [Hq Ht] Hn. destruct (delete_spec reqs q l n ex Hq Hn) as (reqs' & E & Hq' & Hfr).
  exists reqs'. split; [done|]. split; [done|]. eapply timed_ext; [|done].
  intros k Hk. apply Hfr. intros ->. apply (q_extra _ _ _ _ Hq n); [left|done].
Qed.

Lemma reqs_ok_take q reqs l ex pkt :
  reqs_ok q reqs l ex ->
  exists o q' reqs', mqtt_take_request q pkt reqs = Some (o, q', reqs') /\
    match o with
    | None => q' = q /\ reqs' = reqs /\
        (forall i r, i ∈ l -> reqs !! i = Some r -> req_pkt_id r <> pkt)
    | Some i => exists l1 l2, l = l1 ++ i :: l2 /\ reqs_ok q' reqs' (l1 ++ l2) (i :: ex) /\
        (i < MQTT_REQ_MAX_IN_FLIGHT)%nat
    end.
Proof.
  intros [Hq Ht]. destruct (take_spec reqs q l pkt ex Hq Ht) as (o & q' & reqs' & E & H).
  exists o, q', reqs'. split; [done|]. destruct o as [i|]; [|done].
  destruct H as (l1 & l2 & r & -> & Hr & _ & _ & Hq' & Hd). exists l1, l2. split; [done|].
  split; [split; [done|]|apply lookup_lt_Some in Hr; by rewrite (q_size _ _ _ _ Hq) in Hr].
  apply (timed_deadlines _ _ _ (q_chain _ _ _ _ Hq)) in Ht as [H1 H2].
  apply (timed_deadlines _ _ _ (q_chain _ _ _ _ Hq')). rewrite Hd. split.
  - by apply ascending_delete.
  - by apply Forall_delete.
Qed.

Lemma reqs_ok_elapsed q reqs l ex t :
  reqs_ok q reqs l ex -> 0 <= t < 256 ->
  exists n q' reqs', mqtt_request_time_elapsed q t reqs
      = Some (q', reqs', concat (map (timeout_event reqs) (take n l))) /\
    reqs_ok q' reqs' (drop n l) ex.
Proof.
  intros [Hq Ht] Htr.
  destruct (time_elapsed_spec reqs q l ex t Hq Ht Htr) as (n & q' & reqs' & E & Hq' & _ & Hl & Hd).
  exists n, q', reqs'. split; [done|]. split; [done|].
  apply (timed_deadlines _ _ _ (q_chain _ _ _ _ Hq)) in Ht as [H1 H2].
  apply (timed_deadlines _ _ _ (q_chain _ _ _ _ Hq')). rewrite Hd. split.
  - apply (ascending_weaken (t - t)); [lia|]. apply ascending_shift, (ascending_lower 0); [done|].
    by apply ascending_drop.
  - apply Forall_map. apply (Forall_drop _ n) in H2. eapply Forall_impl; [exact H2|].
    intros d Hd'. cbn in Hd' |- *. lia.
Qed.

Lemma reqs_ok_init reqs :
  length reqs = MQTT_REQ_MAX_IN_FLIGHT -> reqs_ok None (mqtt_init_requests reqs) [] [].
Proof.
  intros H. split; [by apply init_spec|]. split; [|constructor].
  intros i r Hi. by apply elem_of_nil in Hi.
Qed.

(** ** The client *)

(** [l] is the queue of requests in flight, [ex] may hold further slots that are
    not free.  A disconnected client has no pcb and no requests; its slots are
    initialised on connecting. *)
Record client_ok (c : mqtt_client_t) (l ex : list nat) : Prop := {
  ok_ids : is_u 16 (pkt_id_seq c);
  ok_ring : ring_wf (output c);
  ok_rx : length (rx_buffer c) = Z.to_nat MQTT_VAR_HEADER_BUFFER_LEN;
  ok_conn : conn c = negb (conn_state c =? TCP_DISCONNECTED);
  ok_reqs : conn c = true -> reqs_ok (pend_req_queue c) (req_list c) l ex;
  ok_idle : conn c = false -> l = [] /\ ex = [] /\ pend_req_queue c = None
}.

Lemma client_ok_set c c' l ex :
  client_ok c l ex -> is_u 16 (pkt_id_seq c') -> output c' = output c -> length (rx_buffer c') = length (rx_buffer c) ->
  conn c' = conn c -> (conn_state c' =? TCP_DISCONNECTED) = (conn_state c =? TCP_DISCONNECTED) ->
  pend_req_queue c' = pend_req_queue c -> req_list c' = req_list c ->
  client_ok c' l ex.
Proof.
  intros [H0 H1 H2 H3 H4 H5] Ei Eo Er Ec Es Eq El.
  split; rewrite ?Eo, ?Er, ?Ec, ?Es, ?Eq, ?El; auto.
Qed.

Lemma client_ok_output c rb l ex : client_ok c l ex -> ring_wf rb -> client_ok (set_output rb c) l ex.
Proof. intros [H0 H1 H2 H3 H4 H5] Hr. by split. Qed.

Lemma client_ok_requests c q reqs l ex l' ex' :
  client_ok c l ex -> conn c = true -> reqs_ok q reqs l' ex' -> client_ok (set_requests q reqs c) l' ex'.
Proof.
  intros [H0 H1 H2 H3 H4 H5] Hc Hr. split; cbn; try done. intros Hf. congruence.
Qed.

Lemma client_ok_update c c' l ex l' ex' :
  client_ok c l ex -> conn c = true -> is_u 16 (pkt_id_seq c') -> ring_wf (output c') ->
  length (rx_buffer c') = length (rx_buffer c) -> conn c' = conn c -> conn_state c' = conn_state c ->
  reqs_ok (pend_req_queue c') (req_list c') l' ex' -> client_ok c' l' ex'.
Proof.
  intros [H0 H1 H2 H3 H4 H5] Hc Hi Hr Hx Hc' Hs Hq. split; rewrite ?Hc', ?Hs; try done; congruence.
Qed.

Section Preserve.
Context {T : Type} {tops : TcpOps T} {tlaws : TcpLaws T} {tconn : TcpConnOps T}.

Lemma send_wf rb (t : T) rb' t' :
  ring_wf rb -> mqtt_output_send rb t = (rb', t') ->
  ring_wf rb' /\ tcp_queued t' ++ ring_contents rb' = tcp_queued t ++ ring_contents rb.
Proof.
  intros Hwf E. pose proof (output_send_spec rb t Hwf) as Hs. rewrite E in Hs. tauto.
Qed.

Lemma output_send_client (s : mstate T) l ex :
  client_ok (client s) l ex ->
  client_ok (client (output_send s)) l ex /\
  tcp_queued (tcp (output_send s)) ++ ring_contents (output (client (output_send s)))
    = tcp_queued (tcp s) ++ ring_contents (output (client s)) /\
  (exists rb, client (output_send s) = set_output rb (client s)) /\
  log (output_send s) = log s.
Proof.
  intros Hok. unfold output_send. destruct (mqtt_output_send _ _) as [rb t] eqn:E.
  apply send_wf in E as [Hw Hq]; [|apply Hok]. cbn [client tcp log].
  split; [by apply client_ok_output|]. split; [done|]. eauto.
Qed.

(** Closing needs less than the invariant and always ends disconnected, with no
    request in flight. *)
Record closable (c : mqtt_client_t) : Prop := {
  cl_ids : is_u 16 (pkt_id_seq c);
  cl_ring : ring_wf (output c);
  cl_rx : length (rx_buffer c) = Z.to_nat MQTT_VAR_HEADER_BUFFER_LEN;
  cl_chain : exists l, chain (req_list c) (pend_req_queue c) l /\ NoDup l
}.

Lemma client_ok_closable c l ex : client_ok c l ex -> closable c.
Proof.
  intros [H0 H1 H2 H3 H4 H5]. split; [done|done|done|]. destruct (conn c).
  - destruct (H4 eq_refl) as [[_ Hc Hn _ _] _]. by exists l.
  - destruct (H5 eq_refl) as (_ & _ & ->). exists []. split; [done|constructor].
Qed.

Lemma close_spec reason (s : mstate T) :
  closable (client s) ->
  exists s', mqtt_close reason s = Some s' /\ client_ok (client s') [] [] /\
    conn_state (client s') = TCP_DISCONNECTED /\
    output (client s') = output (client s) /\ keep_alive (client s') = keep_alive (client s) /\
    cyclic_tick (client s') = cyclic_tick (client s) /\
    log s' = log s ++ (if conn (client s) then [EvTcpUnhook] else []) ++ [EvUntimeout] ++
      (if negb (conn_state (client s) =? TCP_DISCONNECTED) && connect_cb (client s)
       then [EvConnectCb reason] else []).
Proof.
  intros [Hid Hr Hx (l & Hc & Hn)]. unfold mqtt_close.
  assert (exists reqs', mqtt_clear_requests (pend_req_queue (client s)) (req_list (client s))
    = Some (None, reqs')) as [reqs' E].
  { unfold mqtt_clear_requests.
    destruct (clear_loop_spec l (length (req_list (client s))) _ _ Hc Hn) as (reqs' & -> & _);
      [by eapply chain_short|]. by exists reqs'. }
  destruct (conn (client s)) eqn:Econn; [destruct (tcp_close _) as [res t]|]; mcbn; rewrite E; mcbn;
    (destruct (Z.eqb_spec (conn_state (client s)) TCP_DISCONNECTED) as [Es|Es]; cbn [negb]);
    mcbn; try (destruct (connect_cb (client s)));
    eexists; (split; [done|]); mcbn; rewrite <- ?app_assoc, ?app_nil_r;
    (split; [split; mcbn; rewrite ?Es, ?Econn; done|by repeat split]).
Qed.
End Preserve.
