(* ===== verification/MqttSend.v ===== *)
(** * Outgoing MQTT messages

    PUBLISH, SUBSCRIBE, UNSUBSCRIBE and CONNECT: the bytes each call adds to the
    output stream, and the request it leaves in flight. *)

From Stdlib Require Import ZArith Lia.
From stdpp Require Import base list option numbers.
From S2P Require Import Prelude MqttRing MqttReq Mqtt MqttInv.
From stdpp Require Import sets list.
Import OptionNotations.

Local Open Scope Z_scope.

(** ** MQTT packets *)

Definition be16 (n : Z) : list Z := [Z.shiftr n 8; Z.land n 0xff].
Definition utf8 (str : list Z) : list Z := be16 (Z.of_nat (length str)) ++ str.

Definition publish_packet (topic payload : list Z) (qos retain pkt_id : Z) : list Z :=
  let body := utf8 topic ++ (if 0 <? qos then be16 pkt_id else []) ++ payload in
  fixed_header MQTT_MSG_TYPE_PUBLISH 0 qos retain (Z.of_nat (length body)) ++ body.

Definition subscribe_packet (topic : list Z) (qos pkt_id sub : Z) : list Z :=
  let body := be16 pkt_id ++ utf8 topic ++ (if truthy sub then [qos] else []) in
  fixed_header (if truthy sub then MQTT_MSG_TYPE_SUBSCRIBE else MQTT_MSG_TYPE_UNSUBSCRIBE) 0 1 0
    (Z.of_nat (length body)) ++ body.

Definition connect_packet (ci : mqtt_connect_client_info_t) : list Z :=
  let will :=
    match ci_will_topic ci, ci_will_msg ci with Some wt, Some wm => Some (wt, wm) | _, _ => None end in
  let flags :=
    match will with
    | Some _ => 4 + 8 * (ci_will_qos ci mod 4) + (if truthy (ci_will_retain ci) then 32 else 0)
    | None => 0
    end + 2 in
  let body := utf8 str_MQTT ++ [4; flags] ++ be16 (ci_keep_alive ci) ++ utf8 (ci_client_id ci) ++
    match will with Some (wt, wm) => utf8 wt ++ utf8 wm | None => [] end in
  fixed_header MQTT_MSG_TYPE_CONNECT 0 0 0 (Z.of_nat (length body)) ++ body.

(** The packet identifier the next request gets: never zero. *)
Definition next_id (c : mqtt_client_t) : Z :=
  if pkt_id_seq c =? 65535 then 1 else pkt_id_seq c + 1.

Lemma generate_packet_id c :
  is_u 16 (pkt_id_seq c) -> msg_generate_packet_id c = (next_id c, set_pkt_id_seq (next_id c) c).
Proof.
  intros Hc. unfold msg_generate_packet_id, next_id. unfold is_u in Hc. mcbn.
  destruct (Z.eqb_spec (pkt_id_seq c) 65535) as [E|E].
  - rewrite E. done.
  - rewrite u16_small by lia. destruct (Z.eqb_spec (pkt_id_seq c + 1) 0); [lia|]. mcbn. done.
Qed.

Lemma next_id_range c : is_u 16 (pkt_id_seq c) -> 0 < next_id c < 65536.
Proof. intros Hc. unfold next_id, is_u in *. destruct (Z.eqb_spec (pkt_id_seq c) 65535); lia. Qed.

Lemma u8_shiftr8 n : is_u 16 n -> is_byte (Z.shiftr n 8).
Proof.
  intros Hn. unfold is_byte, is_u in *. rewrite Z.shiftr_div_pow2 by lia.
  change (2 ^ 8) with 256. Z.div_mod_to_equations; lia.
Qed.

Lemma land_ff_byte n : is_byte (Z.land n 0xff).
Proof. change 0xff with (Z.ones 8). rewrite Z.land_ones by lia. apply Z.mod_pos_bound. lia. Qed.

Lemma bytes_be16 n : is_u 16 n -> bytes (be16 n).
Proof. intros. repeat constructor; by apply u8_shiftr8 || apply land_ff_byte. Qed.

Lemma bytes_utf8 str : bytes str -> Z.of_nat (length str) < 65536 -> bytes (utf8 str).
Proof. intros. apply Forall_app. split; [|done]. apply bytes_be16. unfold is_u. lia. Qed.

Lemma map_u8_bytes l : bytes l -> map u8 l = l.
Proof.
  induction 1 as [|b l Hb _ IH]; [done|]. cbn [map]. rewrite IH. f_equal.
  apply u8_small. done.
Qed.

Lemma lor_byte a b : is_byte a -> is_byte b -> is_byte (Z.lor a b).
Proof. apply (is_u_lor 8). lia. Qed.

Lemma land_ones_le z k : 0 <= k -> 0 <= Z.land z (Z.ones k) < 2 ^ k.
Proof. intros. rewrite Z.land_ones by lia. apply Z.mod_pos_bound, Z.pow_pos_nonneg; lia. Qed.

Lemma bytes_fixed_header t d q r n : bytes (fixed_header t d q r n).
Proof.
  assert (forall z k j, 0 <= k -> 0 <= j -> k + j <= 8 -> is_byte (Z.shiftl (Z.land z (Z.ones k)) j)) as Hs.
  { intros z k j Hk Hj Hkj. pose proof (land_ones_le z k Hk). unfold is_byte.
    rewrite Z.shiftl_mul_pow2 by lia. split; [apply Z.mul_nonneg_nonneg; [lia|apply Z.pow_nonneg; lia]|].
    apply Z.lt_le_trans with (2 ^ k * 2 ^ j).
    - apply Z.mul_lt_mono_pos_r; [apply Z.pow_pos_nonneg; lia|lia].
    - rewrite <- Z.pow_add_r by lia. change 256 with (2 ^ 8). apply Z.pow_le_mono_r; lia. }
  constructor.
  - unfold header_byte. repeat apply lor_byte.
    + apply (Hs t 4 4); lia.
    + apply (Hs d 1 3); lia.
    + apply (Hs q 2 1); lia.
    + pose proof (Hs r 1 0 ltac:(lia) ltac:(lia) ltac:(lia)) as H. by rewrite Z.shiftl_0_r in H.
  - generalize 3%nat. intros fuel. revert n. induction fuel as [|fuel IH]; intros n; [constructor|].
    cbn [length_bytes]. constructor; [|case_match; [apply IH|constructor]].
    apply lor_byte; [|destruct (128 <=? n); done].
    pose proof (land_ones_le n 7 ltac:(lia)). unfold is_byte. change 0x7f with (Z.ones 7). lia.
Qed.

(** ** What sending leaves alone *)

(** Only the output buffer, the requests and the packet identifiers changed. *)
Definition sent_only (c c' : mqtt_client_t) : Prop :=
  exists i q reqs rb, c' = set_output rb (set_requests q reqs (set_pkt_id_seq i c)).

Lemma sent_only_refl c : sent_only c c.
Proof. exists (pkt_id_seq c), (pend_req_queue c), (req_list c), (output c). by destruct c. Qed.

Lemma sent_only_trans c1 c2 c3 : sent_only c1 c2 -> sent_only c2 c3 -> sent_only c1 c3.
Proof.
  intros (i & q & reqs & rb & ->) (i' & q' & reqs' & rb' & ->). by exists i', q', reqs', rb'.
Qed.

Lemma sent_only_id i c : sent_only c (set_pkt_id_seq i c).
Proof. exists i, (pend_req_queue c), (req_list c), (output c). by destruct c. Qed.

(** ** Requests that send a message

    [mqtt_publish] and [mqtt_sub_unsub] end in the same steps: allocate a
    request, check the space, append the message, queue the request, send. *)

Section Send.
Context {T : Type} `{TcpLaws T, TcpConnOps T}.

(** The bytes given to TCP and those waiting in the output buffer. *)
Definition stream (s : mstate T) : list Z := tcp_queued (tcp s) ++ ring_contents (output (client s)).

Definition enqueue (pkt_id : Z) (cb : option Z) (arg r_length : Z) (msg : list Z) (s : mstate T)
    : option (Z * mstate T) :=
  let? (o, reqs) := mqtt_create_request pkt_id cb arg (req_list (client s)) in
  let s := on_client (fun c => set_requests (pend_req_queue c) reqs c) s in
  match o with
  | None => Some (ERR_MEM, s)
  | Some r =>
      let? fits := mqtt_output_check_space (output (client s)) r_length in
      if negb fits then
        let? reqs := mqtt_delete_request (Some r) (req_list (client s)) in
        Some (ERR_MEM, on_client (fun c => set_requests (pend_req_queue c) reqs c) s)
      else
        let s := on_client (set_output (mqtt_output_append_buf msg (output (client s)))) s in
        let? (q, reqs) := mqtt_append_request (pend_req_queue (client s)) r (req_list (client s)) in
        let? s := send_output (on_client (set_requests q reqs) s) in
        Some (ERR_OK, s)
  end.

(** What such a call guarantees: with [err] = [ERR_OK] the message follows the
    stream and one more request is in flight; otherwise nothing is sent and no
    request is added, because no slot is free or the message does not fit. *)
Definition enqueued (s s' : mstate T) (l ex : list nat) (err pkt_id : Z) (msg : list Z) : Prop :=
  (err = ERR_OK /\ stream s' = stream s ++ msg /\
   exists n ex', client_ok (client s') (l ++ [n]) ex' /\ ex' ⊆ ex /\
     req_pkt_id <$> req_list (client s') !! n = Some pkt_id) \/
  (err = ERR_MEM /\ tcp s' = tcp s /\ output (client s') = output (client s) /\
   client_ok (client s') l ex /\
   ((forall k, (k < MQTT_REQ_MAX_IN_FLIGHT)%nat -> k ∈ l ++ ex) \/
    mqtt_ringbuf_free (output (client s)) < Z.of_nat (length msg))).

Lemma enqueue_spec s l ex pkt_id cb arg t d q r n body :
  client_ok (client s) l ex -> conn (client s) = true ->
  n = Z.of_nat (length body) -> n < 65532 -> bytes body ->
  exists err s', enqueue pkt_id cb arg n (fixed_header t d q r n ++ body) s = Some (err, s') /\
    enqueued s s' l ex err pkt_id (fixed_header t d q r n ++ body) /\
    log s' = log s /\ conn_state (client s') = conn_state (client s).
Proof.
  intros Hok Hc Hn Hlt Hb. pose proof (ok_reqs _ _ _ Hok Hc) as Hrq. unfold enqueue.
  destruct (create_spec _ _ _ _ pkt_id cb arg (proj1 Hrq)) as (o & reqs1 & E & _). rewrite E.
  apply (reqs_ok_create _ _ _ _ _ _ _ _ _ Hrq) in E. mcbn.
  destruct o as [i|].
  2: { destruct E as [-> Hl]. eexists _, _. split; [done|]. split; [|done]. right. mcbn.
       split; [done|]. split; [done|]. split; [done|]. split; [|by left].
       apply (client_ok_set (client s)); try done. apply Hok. }
  destruct E as (Hrq1 & Hi & rq & Hrqi & Hnx & Hpk).
  rewrite check_space_spec by (unfold is_u; lia).
  pose proof (length_length_bytes n ltac:(unfold is_u; lia)) as Hlb.
  rewrite u16_small by lia.
  assert (1 + Z.of_nat (length (length_bytes 3 n)) + n = Z.of_nat (length (fixed_header t d q r n ++ body)))
    as Elen by (rewrite length_app; unfold fixed_header; cbn [length]; lia).
  rewrite Elen. destruct (Z.leb_spec (Z.of_nat (length (fixed_header t d q r n ++ body)))
    (mqtt_ringbuf_free (output (client s)))) as [Hfit|Hfull]; cbn [negb].
  - destruct (reqs_ok_append _ _ _ _ _ _ Hrq1 Hrqi Hnx) as (q' & reqs2 & -> & Hrq2 & Hpk2).
    unfold send_output. mcbn. rewrite Hc.
    destruct (append_buf_contents (fixed_header t d q r n ++ body) (output (client s)))
      as (Hw & _ & Hcont); [apply Hok|unfold mqtt_ringbuf_free, MQTT_OUTPUT_RINGBUF_SIZE in Hfit; lia|].
    rewrite map_u8_bytes in Hcont by (apply Forall_app; split; [apply bytes_fixed_header|done]).
    match goal with |- context [output_send ?x] => set (s1 := x) end.
    assert (client_ok (client s1) (l ++ [i]) (filter (fun k => k <> i) ex)) as Hok1.
    { apply (client_ok_update (client s) _ l ex); try done. apply Hok. }
    destruct (output_send_client s1 _ _ Hok1) as (Hok2 & Hs & (rb & Ec) & El).
    eexists _, _. split; [done|]. rewrite El, Ec. split; [|done]. left. split; [done|]. split.
    + unfold stream. rewrite Hs. unfold s1. mcbn. by rewrite Hcont, app_assoc.
    + exists i, (filter (fun k => k <> i) ex). split; [done|].
      split; [by intros k Hk; apply list_elem_of_filter in Hk as [_ Hk]|]. rewrite Ec. unfold s1. mcbn. rewrite Hpk2. by rewrite Hpk.
  - destruct (reqs_ok_delete _ _ _ _ _ Hrq1 Hi) as (reqs2 & -> & Hrq2).
    eexists _, _. split; [done|]. split; [|done]. right. mcbn.
    split; [done|]. split; [done|]. split; [done|]. split; [|by right].
    apply (client_ok_update (client s) _ l ex); try done; apply Hok.
Qed.

Lemma send_output_only (s s' : mstate T) : send_output s = Some s' -> sent_only (client s) (client s').
Proof.
  unfold send_output, output_send. destruct (conn _); [|done]. destruct (mqtt_output_send _ _) as [rb t].
  intros [= <-]. exists (pkt_id_seq (client s)), (pend_req_queue (client s)), (req_list (client s)), rb.
  by destruct s as [[] ? ?].
Qed.

Lemma enqueue_only pkt cb arg n msg (s s' : mstate T) r :
  enqueue pkt cb arg n msg s = Some (r, s') -> sent_only (client s) (client s').
Proof.
  unfold enqueue. destruct (mqtt_create_request _ _ _ _) as [[[i|] reqs]|]; [| |done].
  2: { intros [= _ <-]. eapply sent_only_trans; [apply sent_only_refl|].
       exists (pkt_id_seq (client s)), (pend_req_queue (client s)), reqs, (output (client s)). by destruct s as [[] ? ?]. }
  destruct (mqtt_output_check_space _ _) as [[]|]; [| |done]; cbn [negb].
  - destruct (mqtt_append_request _ _ _) as [[q reqs']|]; [|done].
    destruct (send_output _) as [s1|] eqn:E; [|done]. intros [= _ <-]. apply send_output_only in E.
    eapply sent_only_trans; [|exact E]. exists (pkt_id_seq (client s)). eexists _, _, _. by destruct s as [[] ? ?].
  - destruct (mqtt_delete_request _ _) as [reqs'|]; [|done]. intros [= _ <-].
    exists (pkt_id_seq (client s)), (pend_req_queue (client s)), reqs', (output (client s)). by destruct s as [[] ? ?].
Qed.

Lemma append_payload payload rb :
  (if 0 <? Z.of_nat (length payload)
   then mqtt_output_append_buf (take (Z.to_nat (Z.of_nat (length payload))) payload) rb else rb) =
  mqtt_output_append_buf payload rb.
Proof.
  destruct payload as [|b payload]; [done|].
  destruct (Z.ltb_spec 0 (Z.of_nat (length (b :: payload)))) as [_|Hn]; [|cbn [length] in Hn; lia].
  by rewrite Nat2Z.id, firstn_all.
Qed.

Lemma append_topic topic rb :
  mqtt_output_append_string topic (Z.of_nat (length topic)) rb = mqtt_output_append_buf (utf8 topic) rb.
Proof. by rewrite append_string_buf, Nat2Z.id, firstn_all. Qed.

Lemma publish_enqueue topic payload qos retain cb arg s :
  conn_state (client s) <> TCP_DISCONNECTED -> is_u 16 (pkt_id_seq (client s)) ->
  4 + Z.of_nat (length topic) + Z.of_nat (length payload) < 65532 ->
  let id := if 0 <? qos then next_id (client s) else 0 in
  let body := utf8 topic ++ (if 0 <? qos then be16 id else []) ++ payload in
  mqtt_publish topic (Some payload) (Z.of_nat (length payload)) qos retain cb arg s =
    enqueue id cb arg (Z.of_nat (length body)) (publish_packet topic payload qos retain id)
      (if 0 <? qos then on_client (set_pkt_id_seq id) s else s).
Proof.
  intros Hc Hid Hlen id body. unfold mqtt_publish.
  rewrite (proj2 (Z.eqb_neq _ _) Hc).
  destruct (Z.ltb_spec (0xFFFF - 2) (Z.of_nat (length topic))); [lia|].
  destruct (Z.ltb_spec 0xFFFF (2 + Z.of_nat (length topic) + Z.of_nat (length payload))); [lia|].
  rewrite (u16_small (2 + _ + _)) by lia. rewrite (generate_packet_id _ Hid).
  assert (Z.of_nat (length body) =
    2 + Z.of_nat (length topic) + Z.of_nat (length payload) + (if 0 <? qos then 2 else 0)) as Eb.
  { unfold body, utf8, be16. rewrite !length_app. destruct (0 <? qos); cbn [length]; lia. }
  assert (is_u 16 (Z.of_nat (length body))) as Hu by (unfold is_u; destruct (0 <? qos); lia).
  unfold publish_packet, enqueue. fold body. set (n := Z.of_nat (length body)) in *.
  assert (body = utf8 topic ++ (if 0 <? qos then be16 id else []) ++ payload) as Ebody by done.
  clearbody body. destruct (0 <? qos).
  - rewrite u16_small by lia. rewrite <- Eb. change (on_client (fun _ => ?c) s) with (MState c (tcp s) (log s)). mcbn.
    destruct (mqtt_create_request _ _ _ _) as [[[r|] reqs]|]; try done. mcbn.
    destruct (mqtt_output_check_space _ _) as [[]|]; try done. cbn [negb].
    rewrite append_fixed_header_buf by done.
    rewrite append_payload, append_topic, append_u16_buf, !append_buf_app.
    change [Z.shiftr ?i 8; Z.land ?i 255] with (be16 i). by rewrite Ebody, ?app_assoc.
  - rewrite Z.add_0_r in Eb. rewrite <- Eb.
    destruct (mqtt_create_request _ _ _ _) as [[[r|] reqs]|]; try done. mcbn.
    destruct (mqtt_output_check_space _ _) as [[]|]; try done. cbn [negb].
    rewrite append_fixed_header_buf by done.
    rewrite append_payload, append_topic, !append_buf_app. by rewrite Ebody, ?app_assoc, ?app_nil_r.
Qed.

Lemma subscribe_enqueue topic qos cb arg sub s :
  conn_state (client s) <> TCP_DISCONNECTED -> is_u 16 (pkt_id_seq (client s)) ->
  5 + Z.of_nat (length topic) < 65532 -> 0 <= qos < 3 ->
  let id := next_id (client s) in
  mqtt_sub_unsub topic qos cb arg sub s =
    enqueue id cb arg (Z.of_nat (length topic) + 2 + 2 + (if truthy sub then 1 else 0))
      (subscribe_packet topic qos id sub) (on_client (set_pkt_id_seq id) s).
Proof.
  intros Hc Hid Hlen Hq id. unfold mqtt_sub_unsub.
  set (n := Z.of_nat (length topic) + 2 + 2 + (if truthy sub then 1 else 0)).
  assert (0 <= n < 65532) as Hn by (unfold n; destruct (truthy sub); lia).
  destruct (Z.ltb_spec (0xFFFF - 2) (Z.of_nat (length topic))); [lia|].
  destruct (Z.ltb_spec 0xFFFF n); [lia|].
  destruct (Z.ltb_spec qos 3); [|lia]. cbn [negb].
  rewrite (proj2 (Z.eqb_neq _ _) Hc), (generate_packet_id _ Hid), u16_small by lia.
  unfold enqueue, subscribe_packet.
  change (on_client (fun _ => ?c) s) with (MState c (tcp s) (log s)). mcbn.
  destruct (mqtt_create_request _ _ _ _) as [[[r|] reqs]|]; try done. mcbn.
  destruct (mqtt_output_check_space _ _) as [[]|]; try done. cbn [negb].
  rewrite append_fixed_header_buf by (unfold is_u; lia).
  rewrite append_topic, append_u16_buf, !append_buf_app. fold id.
  change [Z.shiftr ?i 8; Z.land ?i 255] with (be16 i).
  rewrite (Z.min_l qos 2) by lia.
  replace (Z.of_nat (length (be16 id ++ utf8 topic ++ (if truthy sub then [qos] else [])))) with n
    by (unfold n, be16, utf8, be16; rewrite !length_app; destruct (truthy sub); cbn [length]; lia).
  destruct (truthy sub); cbn [mqtt_output_append_u8]; rewrite ?app_nil_r; [|done].
  change (mqtt_output_append_u8 qos ?rb) with (mqtt_output_append_buf [qos] rb).
  by rewrite !append_buf_app, ?app_assoc.
Qed.

Lemma publish_spec (s : mstate T) (l ex : list nat) (topic payload : list Z) (qos retain : Z)
    (cb : option Z) (arg : Z) :
  client_ok (client s) l ex -> bytes topic -> bytes payload ->
  4 + Z.of_nat (length topic) + Z.of_nat (length payload) < 65532 ->
  let id := if 0 <? qos then next_id (client s) else 0 in
  exists err s',
    mqtt_publish topic (Some payload) (Z.of_nat (length payload)) qos retain cb arg s = Some (err, s') /\
    sent_only (client s) (client s') /\
    (if conn_state (client s) =? TCP_DISCONNECTED then err = ERR_CONN /\ s' = s
     else enqueued s s' l ex err id (publish_packet topic payload qos retain id)).
Proof.
  intros Hok Ht Hp Hlen id. destruct (Z.eqb_spec (conn_state (client s)) TCP_DISCONNECTED) as [E|E].
  { exists ERR_CONN, s. split; [|split; [apply sent_only_refl|done]]. unfold mqtt_publish. by rewrite E. }
  assert (conn (client s) = true) as Hc by (by rewrite (ok_conn _ _ _ Hok), (proj2 (Z.eqb_neq _ _) E)).
  pose proof (ok_ids _ _ _ Hok) as Hid. rewrite (publish_enqueue _ _ _ _ _ _ _ E Hid Hlen). fold id.
  assert (is_u 16 id) as Hu
    by (unfold id, is_u; pose proof (next_id_range _ Hid); destruct (0 <? qos); lia).
  set (s1 := if 0 <? qos then on_client (set_pkt_id_seq id) s else s).
  assert (client_ok (client s1) l ex /\ conn (client s1) = true /\
    output (client s1) = output (client s) /\ tcp s1 = tcp s) as (Hok1 & Hc1 & Eo & Et).
  { unfold s1. destruct (0 <? qos); mcbn; [|done].
    split; [|done]. by apply (client_ok_set (client s)). }
  set (body := utf8 topic ++ (if 0 <? qos then be16 id else []) ++ payload).
  destruct (enqueue_spec s1 l ex id cb arg MQTT_MSG_TYPE_PUBLISH 0 qos retain (Z.of_nat (length body)) body)
    as (err & s' & E' & Hen & _); try done.
  - unfold body, utf8, be16. rewrite !length_app. destruct (0 <? qos); cbn [length]; lia.
  - apply Forall_app. split; [apply bytes_utf8; [done|lia]|].
    apply Forall_app. split; [|done]. destruct (0 <? qos); [by apply bytes_be16|constructor].
  - exists err, s'. split; [done|]. split; [|unfold enqueued, stream in *; by rewrite Eo, Et in Hen].
    apply enqueue_only in E'. eapply sent_only_trans; [|exact E']. unfold s1.
    destruct (0 <? qos); [apply sent_only_id|apply sent_only_refl].
Qed.

(** C24: A publish of a total length below 65532 on a connection that is open appends exactly the MQTT PUBLISH
    packet for its arguments (fixed header, topic, packet identifier for QoS 1
    and 2, payload) to the outgoing byte stream and leaves one request in flight
    under that identifier, or it returns [ERR_MEM] because four requests are in
    flight (or slots lost) or the packet does not fit the buffer, and sends nothing.  A
    disconnected client returns [ERR_CONN]. *)
Theorem mqtt_publish_packet (s : mstate T) (l ex : list nat) (topic payload : list Z) (qos retain : Z)
    (cb : option Z) (arg : Z) :
  client_ok (client s) l ex -> bytes topic -> bytes payload ->
  4 + Z.of_nat (length topic) + Z.of_nat (length payload) < 65532 ->
  let id := if 0 <? qos then next_id (client s) else 0 in
  exists err s',
    mqtt_publish topic (Some payload) (Z.of_nat (length payload)) qos retain cb arg s = Some (err, s') /\
    sent_only (client s) (client s') /\
    (if conn_state (client s) =? TCP_DISCONNECTED then err = ERR_CONN /\ s' = s
     else enqueued s s' l ex err id (publish_packet topic payload qos retain id)).
Proof. apply publish_spec. Qed.

Lemma subscribe_spec (s : mstate T) (l ex : list nat) (topic : list Z) (qos sub : Z)
    (cb : option Z) (arg : Z) :
  client_ok (client s) l ex -> bytes topic -> 5 + Z.of_nat (length topic) < 65532 -> 0 <= qos < 3 ->
  let id := next_id (client s) in
  exists err s', mqtt_sub_unsub topic qos cb arg sub s = Some (err, s') /\
    sent_only (client s) (client s') /\
    (if conn_state (client s) =? TCP_DISCONNECTED then err = ERR_CONN /\ s' = s
     else 0 < id < 65536 /\ enqueued s s' l ex err id (subscribe_packet topic qos id sub)).
Proof.
  intros Hok Ht Hlen Hq id. destruct (Z.eqb_spec (conn_state (client s)) TCP_DISCONNECTED) as [E|E].
  { exists ERR_CONN, s. split; [|split; [apply sent_only_refl|done]]. unfold mqtt_sub_unsub.
    destruct (Z.ltb_spec (0xFFFF - 2) (Z.of_nat (length topic))); [lia|].
    destruct (Z.ltb_spec 0xFFFF (Z.of_nat (length topic) + 2 + 2 + (if truthy sub then 1 else 0)));
      [destruct (truthy sub); lia|].
    destruct (Z.ltb_spec qos 3); [|lia]. by rewrite E. }
  assert (conn (client s) = true) as Hc by (by rewrite (ok_conn _ _ _ Hok), (proj2 (Z.eqb_neq _ _) E)).
  pose proof (ok_ids _ _ _ Hok) as Hid. rewrite (subscribe_enqueue _ _ _ _ _ _ E Hid Hlen Hq). fold id.
  pose proof (next_id_range _ Hid) as Hr.
  set (body := be16 id ++ utf8 topic ++ (if truthy sub then [qos] else [])).
  assert (Z.of_nat (length topic) + 2 + 2 + (if truthy sub then 1 else 0) = Z.of_nat (length body)) as En
    by (unfold body, utf8, be16; rewrite !length_app; destruct (truthy sub); cbn [length]; lia).
  rewrite En.
  destruct (enqueue_spec (on_client (set_pkt_id_seq id) s) l ex id cb arg
    (if truthy sub then MQTT_MSG_TYPE_SUBSCRIBE else MQTT_MSG_TYPE_UNSUBSCRIBE) 0 1 0
    (Z.of_nat (length body)) body) as (err & s' & E' & Hen & _); try done.
  - apply (client_ok_set (client s)); try done. unfold is_u. mcbn. unfold id. lia.
  - rewrite <- En. destruct (truthy sub); lia.
  - apply Forall_app. split; [apply bytes_be16; unfold is_u, id; lia|].
    apply Forall_app. split; [apply bytes_utf8; [done|lia]|].
    destruct (truthy sub); constructor; [unfold is_byte; lia|constructor].
  - exists err, s'. split; [done|]. split; [|done].
    apply enqueue_only in E'. eapply sent_only_trans; [|exact E']. apply sent_only_id.
Qed.

(** A subscribe or unsubscribe on an open connection appends exactly the
    SUBSCRIBE or UNSUBSCRIBE packet, with a packet identifier that is not zero
    and under which the request is in flight, or returns [ERR_MEM] and sends
    nothing; on a closed connection it returns [ERR_CONN]. *)
Theorem mqtt_subscribe_packet (s : mstate T) (l ex : list nat) (topic : list Z) (qos sub : Z)
    (cb : option Z) (arg : Z) :
  client_ok (client s) l ex -> bytes topic -> 5 + Z.of_nat (length topic) < 65532 -> 0 <= qos < 3 ->
  let id := next_id (client s) in
  exists err s', mqtt_sub_unsub topic qos cb arg sub s = Some (err, s') /\
    sent_only (client s) (client s') /\
    (if conn_state (client s) =? TCP_DISCONNECTED then err = ERR_CONN /\ s' = s
     else 0 < id < 65536 /\ enqueued s s' l ex err id (subscribe_packet topic qos id sub)).
Proof. apply subscribe_spec. Qed.

(** The will part of a client's connect information. *)
Definition ci_will (ci : mqtt_connect_client_info_t) : option (list Z * list Z) :=
  match ci_will_topic ci, ci_will_msg ci with Some wt, Some wm => Some (wt, wm) | _, _ => None end.

Record connect_info_ok (ci : mqtt_connect_client_info_t) : Prop := {
  ci_id_ok : bytes (ci_client_id ci) /\ Z.of_nat (length (ci_client_id ci)) < 60000;
  ci_ka_ok : is_u 16 (ci_keep_alive ci);
  ci_will_ok : forall wt wm, ci_will ci = Some (wt, wm) ->
    bytes wt /\ bytes wm /\ 0 < Z.of_nat (length wt) <= 255 /\ Z.of_nat (length wm) <= 255
}.

Definition will_flags (ci : mqtt_connect_client_info_t) : Z :=
  match ci_will ci with
  | Some _ => 4 + 8 * (ci_will_qos ci mod 4) + (if truthy (ci_will_retain ci) then 32 else 0)
  | None => 0
  end.

Lemma connect_flags ci :
  let f := Z.lor MQTT_CONNECT_FLAG_WILL (Z.shiftl (Z.land (ci_will_qos ci) 3) 3) in
  let f := if truthy (ci_will_retain ci) then Z.lor f MQTT_CONNECT_FLAG_WILL_RETAIN else f in
  u8 f = 4 + 8 * (ci_will_qos ci mod 4) + (if truthy (ci_will_retain ci) then 32 else 0).
Proof.
  cbv zeta.
  assert (Z.land (ci_will_qos ci) 3 = ci_will_qos ci mod 4) as -> by (apply (Z.land_ones _ 2); lia).
  pose proof (Z.mod_pos_bound (ci_will_qos ci) 4 ltac:(lia)) as Hm.
  set (q := ci_will_qos ci mod 4) in *. clearbody q.
  assert (q = 0 \/ q = 1 \/ q = 2 \/ q = 3) as Hq by lia.
  destruct (truthy (ci_will_retain ci)), Hq as [ -> | [ -> | [ -> | -> ]]]; done.
Qed.

Lemma connect_will_spec ci :
  connect_info_ok ci ->
  connect_will ci 10 = Some (will_flags ci,
    match ci_will ci with Some (wt, _) => wt | None => [] end,
    match ci_will ci with Some (_, wm) => wm | None => [] end,
    10 + match ci_will ci with
         | Some (wt, wm) => 4 + Z.of_nat (length wt) + Z.of_nat (length wm) | None => 0 end).
Proof.
  intros [_ _ Hw]. unfold connect_will, will_flags. unfold ci_will in *.
  destruct (ci_will_topic ci) as [wt|], (ci_will_msg ci) as [wm|]; try done.
  destruct (Hw wt wm eq_refl) as (_ & _ & H2 & H3).
  destruct (Z.ltb_spec 0xFF (Z.of_nat (length wt))); [lia|].
  destruct (Z.leb_spec (Z.of_nat (length wt)) 0); [lia|].
  destruct (Z.ltb_spec 0xFF (Z.of_nat (length wm))); [lia|]. cbn [orb].
  destruct (Z.ltb_spec 0xFFFF (10 + 2 + Z.of_nat (length wt) + 2 + Z.of_nat (length wm))); [lia|].
  rewrite connect_flags, u16_small by lia. do 2 f_equal. lia.
Qed.

Definition connect_body (ci : mqtt_connect_client_info_t) : list Z :=
  utf8 str_MQTT ++ [4; will_flags ci + 2] ++ be16 (ci_keep_alive ci) ++ utf8 (ci_client_id ci) ++
  match ci_will ci with Some (wt, wm) => utf8 wt ++ utf8 wm | None => [] end.

Lemma connect_packet_body ci :
  connect_packet ci
  = fixed_header MQTT_MSG_TYPE_CONNECT 0 0 0 (Z.of_nat (length (connect_body ci))) ++ connect_body ci.
Proof. done. Qed.

Lemma will_flags_range ci : 0 <= will_flags ci <= 60.
Proof.
  unfold will_flags. destruct (ci_will ci); [|lia].
  pose proof (Z.mod_pos_bound (ci_will_qos ci) 4). destruct (truthy _); lia.
Qed.

Lemma bytes_connect_body ci : connect_info_ok ci -> bytes (connect_body ci).
Proof.
  intros [[Hb Hl] Hk Hw]. unfold connect_body. pose proof (will_flags_range ci).
  apply Forall_app_2; [apply bytes_utf8; [repeat constructor; done|done]|].
  apply Forall_app_2; [repeat constructor; lia|].
  apply Forall_app_2; [by apply bytes_be16|].
  apply Forall_app_2; [apply bytes_utf8; [done|lia]|].
  destruct (ci_will ci) as [[wt wm]|] eqn:E; [|constructor].
  destruct (Hw wt wm eq_refl) as (H1' & H2' & H3 & H4).
  apply Forall_app_2; apply bytes_utf8; auto; lia.
Qed.

Lemma length_connect_body ci :
  Z.of_nat (length (connect_body ci)) = 12 + Z.of_nat (length (ci_client_id ci)) +
    match ci_will ci with
    | Some (wt, wm) => 4 + Z.of_nat (length wt) + Z.of_nat (length wm) | None => 0 end.
Proof.
  unfold connect_body, utf8, be16. rewrite !length_app. cbn [length str_MQTT].
  destruct (ci_will ci) as [[wt wm]|]; rewrite ?length_app; cbn [length]; lia.
Qed.

Lemma will_flags_set ci :
  Z.lor (will_flags ci) MQTT_CONNECT_FLAG_CLEAN_SESSION = will_flags ci + 2 /\
  negb (Z.land (will_flags ci + 2) MQTT_CONNECT_FLAG_WILL =? 0)
    = match ci_will ci with Some _ => true | None => false end.
Proof.
  unfold will_flags. destruct (ci_will ci); [|done].
  pose proof (Z.mod_pos_bound (ci_will_qos ci) 4 ltac:(lia)) as Hm.
  set (q := ci_will_qos ci mod 4) in *. clearbody q.
  assert (q = 0 \/ q = 1 \/ q = 2 \/ q = 3) as Hq by lia.
  destruct (truthy (ci_will_retain ci)), Hq as [ -> | [ -> | [ -> | -> ]]]; done.
Qed.

Lemma append_connect ci rb :
  connect_info_ok ci ->
  (let? rb := mqtt_output_append_fixed_header MQTT_MSG_TYPE_CONNECT 0 0 0
      (Z.of_nat (length (connect_body ci))) rb in
   let rb := mqtt_output_append_string str_MQTT 4 rb in
   let rb := mqtt_output_append_u8 4 rb in
   let rb := mqtt_output_append_u8 (will_flags ci + 2) rb in
   let rb := mqtt_output_append_u16 (ci_keep_alive ci) rb in
   let rb := mqtt_output_append_string (ci_client_id ci) (Z.of_nat (length (ci_client_id ci))) rb in
   Some (match ci_will ci with
         | Some (wt, wm) => mqtt_output_append_string wm (Z.of_nat (length wm))
             (mqtt_output_append_string wt (Z.of_nat (length wt)) rb)
         | None => rb end)) = Some (mqtt_output_append_buf (connect_packet ci) rb).
Proof.
  intros [[_ Hl] _ Hw]. rewrite append_fixed_header_buf.
  2: { rewrite length_connect_body. unfold is_u. destruct (ci_will ci) as [[wt wm]|] eqn:E; [|lia].
       destruct (Hw wt wm eq_refl) as (_ & _ & H3 & H4). lia. }
  change 4 with (Z.of_nat (length str_MQTT)) at 1. rewrite connect_packet_body, <- !append_buf_app.
  rewrite !append_topic. f_equal. unfold connect_body. rewrite <- !append_buf_app.
  destruct (ci_will ci) as [[wt wm]|]; rewrite ?append_topic, <- ?append_buf_app; done.
Qed.

(** The result code of a connect attempt. *)
Definition connect_result (ci : mqtt_connect_client_info_t) (t : T) : Z :=
  if 256 <? Z.of_nat (length (connect_packet ci)) then ERR_MEM
  else
    let '(ok, t) := tcp_new t in
    if negb ok then ERR_MEM
    else
      let '(err, t) := tcp_bind t in
      if negb (err =? ERR_OK) then err else fst (tcp_connect t).

Lemma fresh_ring_wf : ring_wf (output zero_client).
Proof. split; by vm_compute. Qed.

Lemma fresh_client_ok ka cb (up : bool) rb :
  ring_wf rb ->
  client_ok (Client 0 ka 0 0 0 (if up then TCP_CONNECTING else TCP_DISCONNECTED) up cb None
    (mqtt_init_requests (req_list zero_client)) false false 0 (rx_buffer zero_client) rb) [] [].
Proof.
  intros Hr. split; cbn [output rx_buffer conn conn_state pend_req_queue req_list pkt_id_seq]; try done.
  - by destruct up.
  - intros _. by apply reqs_ok_init.
Qed.

Lemma connect_space ci :
  Z.of_nat (length (connect_body ci)) < 65000 ->
  mqtt_output_check_space (output zero_client) (Z.of_nat (length (connect_body ci)))
  = Some (negb (256 <? Z.of_nat (length (connect_packet ci)))).
Proof.
  intros Hl. rewrite check_space_spec by (unfold is_u; lia).
  pose proof (length_length_bytes (Z.of_nat (length (connect_body ci))) ltac:(unfold is_u; lia)) as Hlb.
  rewrite u16_small by lia.
  replace (1 + _ + _) with (Z.of_nat (length (connect_packet ci)))
    by (rewrite connect_packet_body, length_app; unfold fixed_header; cbn [length]; lia).
  change (mqtt_ringbuf_free (output zero_client)) with 256. by rewrite Z.leb_antisym.
Qed.

Lemma connect_spec (s : mstate T) (cb : bool) (ci : mqtt_connect_client_info_t) :
  connect_info_ok ci ->
  exists s', mqtt_client_connect cb ci s
    = Some (if conn_state (client s) =? TCP_DISCONNECTED then connect_result ci (tcp s) else ERR_ISCONN, s') /\
  (if conn_state (client s) =? TCP_DISCONNECTED then
     client_ok (client s') [] [] /\
     if connect_result ci (tcp s) =? ERR_OK
     then conn_state (client s') = TCP_CONNECTING /\ keep_alive (client s') = ci_keep_alive ci /\
          ring_contents (output (client s')) = connect_packet ci /\
          connect_cb (client s') = cb /\ pkt_id_seq (client s') = 0 /\ log s' = log s
     else conn_state (client s') = TCP_DISCONNECTED
   else s' = s).
Proof.
  intros Hci. unfold mqtt_client_connect.
  destruct (Z.eqb_spec (conn_state (client s)) TCP_DISCONNECTED) as [E|E]; cbn [negb]; [|by exists s].
  change (2 + 4 + 1 + 1 + 2) with 10. rewrite (connect_will_spec ci Hci).
  pose proof (length_connect_body ci) as El. pose proof Hci as [[_ Hl] _ Hw].
  assert (0 <= match ci_will ci with
    | Some (wt, wm) => 4 + Z.of_nat (length wt) + Z.of_nat (length wm) | None => 0 end <= 600) as Hwl.
  { destruct (ci_will ci) as [[wt wm]|]; [|lia]. destruct (Hw wt wm eq_refl) as (_ & _ & ? & ?). lia. }
  destruct (Z.ltb_spec 0xFFFF (Z.of_nat (length (ci_client_id ci)))); [lia|].
  match goal with |- context [0xFFFF <? ?n] =>
    replace n with (Z.of_nat (length (connect_body ci))) by lia end.
  destruct (Z.ltb_spec 0xFFFF (Z.of_nat (length (connect_body ci)))); [lia|].
  rewrite u16_small by lia. destruct (will_flags_set ci) as [-> Hwf].
  mcbn. rewrite connect_space by lia. unfold connect_result. destruct (Z.ltb_spec 256 (Z.of_nat (length (connect_packet ci)))) as [Hb|Hb];
    cbn [negb].
  { eexists. split; [done|]. mcbn. split; [|done]. apply (fresh_client_ok _ _ false), fresh_ring_wf. }
  destruct (tcp_new (tcp s)) as [[] t1]; mcbn.
  2: { eexists. split; [done|]. mcbn. split; [|done]. apply (fresh_client_ok _ _ false), fresh_ring_wf. }
  destruct (tcp_bind t1) as [e1 t2]. destruct (Z.eqb_spec e1 ERR_OK) as [->|Hne]; mcbn.
  2: { eexists. split; [done|]. mcbn. rewrite (proj2 (Z.eqb_neq _ _) Hne). split; [|done].
       apply (fresh_client_ok _ _ false), fresh_ring_wf. }
  destruct (tcp_connect t2) as [e2 t3]. cbn [fst]. destruct (Z.eqb_spec e2 ERR_OK) as [->|Hne]; mcbn.
  2: { eexists. split; [done|]. mcbn. split; [|done]. apply (fresh_client_ok _ _ false), fresh_ring_wf. }
  pose proof (append_connect ci (output zero_client) Hci) as Ha.
  destruct (mqtt_output_append_fixed_header _ _ _ _ _ _) as [rb|]; [|done]. apply (inj Some) in Ha.
  eexists. split; [done|]. mcbn. rewrite Hwf. set (rb' := if _ : bool then _ else _).
  assert (rb' = mqtt_output_append_buf (connect_packet ci) (output zero_client)) as ->
    by (unfold rb'; rewrite <- Ha; by destruct (ci_will ci) as [[wt wm]|]).
  destruct (append_buf_contents (connect_packet ci) (output zero_client) fresh_ring_wf)
    as (Hw' & _ & Hcont); [change (mqtt_ringbuf_len (output zero_client)) with 0; lia|].
  split; [by apply (fresh_client_ok _ _ true)|]. split; [done|]. split; [done|].
  split; [|done]. rewrite Hcont, map_u8_bytes; [done|].
  rewrite connect_packet_body. apply Forall_app_2; [apply bytes_fixed_header|by apply bytes_connect_body].
Qed.

(** A connect attempt on a disconnected client either fails with the error of
    the first step that failed (no room for the packet, no pcb, bind, connect)
    and leaves it disconnected without a pcb, or leaves it in [TCP_CONNECTING]
    with exactly the MQTT CONNECT packet (protocol level 4, clean session, keep
    alive, client identifier and will) in the output buffer.  A client that is
    not disconnected is refused with [ERR_ISCONN]. *)
Theorem mqtt_connect_packet (s : mstate T) (cb : bool) (ci : mqtt_connect_client_info_t) :
  connect_info_ok ci ->
  exists s', mqtt_client_connect cb ci s
    = Some (if conn_state (client s) =? TCP_DISCONNECTED then connect_result ci (tcp s) else ERR_ISCONN, s') /\
  (if conn_state (client s) =? TCP_DISCONNECTED then
     client_ok (client s') [] [] /\
     if connect_result ci (tcp s) =? ERR_OK
     then conn_state (client s') = TCP_CONNECTING /\ keep_alive (client s') = ci_keep_alive ci /\
          ring_contents (output (client s')) = connect_packet ci /\
          connect_cb (client s') = cb /\ pkt_id_seq (client s') = 0 /\ log s' = log s
     else conn_state (client s') = TCP_DISCONNECTED
   else s' = s).
Proof. apply connect_spec. Qed.
End Send.

(** ** Samples *)

(** A TCP service that accepts everything. *)
#[global] Instance sink_conn : TcpConnOps sink := {
  tcp_new s := (true, s);
  tcp_bind s := (ERR_OK, s);
  tcp_connect s := (ERR_OK, s);
  tcp_close s := (ERR_OK, s);
  tcp_abort s := s
}.

(** A client that is connected, with an empty buffer and no requests. *)
Definition sample_client : mqtt_client_t :=
  Client 0 10 0 41 0 MQTT_CONNECTED true true None (mqtt_init_requests (req_list zero_client))
    true true 0 (rx_buffer zero_client) (output zero_client).
Definition sample_state : mstate sink := MState sample_client (Sink 1000 []) [].

Lemma sample_ok : client_ok sample_client [] [].
Proof.
  split; [done|apply fresh_ring_wf|done|done|intros _; by apply reqs_ok_init|done].
Qed.

Lemma mqtt_publish_packet_witness :
  exists err s', mqtt_publish [116] (Some [1; 2]) 2 1 0 None 0 sample_state = Some (err, s') /\
    enqueued sample_state s' [] [] err 42 (publish_packet [116] [1; 2] 1 0 42).
Proof.
  destruct (mqtt_publish_packet sample_state [] [] [116] [1; 2] 1 0 None 0 sample_ok)
    as (err & s' & E & _ & Hs); [by repeat constructor|by repeat constructor|done|].
  exists err, s'. split; [exact E|]. vm_compute (conn_state _ =? _) in Hs. exact Hs.
Defined.

Lemma mqtt_subscribe_packet_witness :
  exists err s', mqtt_sub_unsub [116] 0 None 0 1 sample_state = Some (err, s') /\
    0 < 42 < 65536 /\ enqueued sample_state s' [] [] err 42 (subscribe_packet [116] 0 42 1).
Proof.
  destruct (mqtt_subscribe_packet sample_state [] [] [116] 0 1 None 0 sample_ok)
    as (err & s' & E & _ & Hs); [by repeat constructor|done|done|].
  exists err, s'. split; [exact E|]. exact Hs.
Defined.

Definition sample_info : mqtt_connect_client_info_t :=
  ConnectInfo [97; 98] 10 (Some [119]) (Some [1; 2; 3]) 1 0.

Lemma sample_info_ok : connect_info_ok sample_info.
Proof.
  split; [split; [by repeat constructor|done]|done|]. intros wt wm. unfold ci_will, sample_info. cbn.
  intros [= <- <-]. cbn. repeat split; try lia; by repeat constructor.
Qed.

Lemma mqtt_connect_packet_witness :
  exists s', mqtt_client_connect true sample_info (MState zero_client (Sink 1000 []) []) = Some (ERR_OK, s') /\
    ring_contents (output (client s')) =
      [16; 22; 0; 4; 77; 81; 84; 84; 4; 14; 0; 10; 0; 2; 97; 98; 0; 1; 119; 0; 3; 1; 2; 3].
Proof.
  destruct (mqtt_connect_packet (MState zero_client (Sink 1000 []) []) true sample_info sample_info_ok)
    as (s' & E & _ & H). exists s'. split; [exact E|]. destruct H as (_ & _ & H & _). exact H.
Defined.
