(* ===== verification/MqttParse.v ===== *)
(** * The incoming MQTT message parser

    [mqtt_parse_incoming] gets the byte stream in segments of any size and keeps
    its place in [rx_buffer] and [msg_idx].  A segment boundary makes no
    difference, and a PUBLISH longer than the buffer is handed over completely. *)

From Stdlib Require Import ZArith Lia.
From stdpp Require Import base list option numbers.
From S2P Require Import Prelude MqttRing MqttReq Mqtt MqttInv MqttSend.
From stdpp Require Import sets list.
Import OptionNotations.

Local Open Scope Z_scope.

Section Parse.
Context {T : Type} {tops : TcpOps T} {tlaws : TcpLaws T} {tconn : TcpConnOps T}.
Implicit Types s : mstate T.

(** ** Handling a message leaves the receive buffer alone *)

Definition same_rx s s' : Prop :=
  rx_buffer (client s') = rx_buffer (client s) /\ msg_idx (client s') = msg_idx (client s).

Lemma same_rx_refl s : same_rx s s.
Proof. done. Qed.
Lemma same_rx_trans s1 s2 s3 : same_rx s1 s2 -> same_rx s2 s3 -> same_rx s1 s3.
Proof. unfold same_rx. intuition congruence. Qed.

Lemma send_output_rx s s' : send_output s = Some s' -> same_rx s s'.
Proof.
  unfold send_output, output_send. destruct (conn _); [|done].
  destruct (mqtt_output_send _ _). by intros [= <-].
Qed.

Lemma response_rx msg id q s r s' : pub_ack_rec_rel_response msg id q s = Some (r, s') -> same_rx s s'.
Proof.
  unfold pub_ack_rec_rel_response. intros E. repeat (case_match; simplify_eq; try done).
  by match goal with H : send_output _ = _ |- _ => apply send_output_rx in H end.
Qed.

Lemma set_rx_byte_inv i v s s' :
  set_rx_byte i v s = Some s' ->
  is_Some (rx i s) /\ 0 <= i /\
  s' = MState (set_rx (msg_idx (client s)) (<[Z.to_nat i := v]> (rx_buffer (client s))) (client s))
         (tcp s) (log s).
Proof.
  unfold set_rx_byte. destruct (rx i s) as [b|] eqn:E; [|done]. intros [= <-].
  split; [done|]. split; [|done]. unfold rx in E. by destruct (Z.leb_spec 0 i).
Qed.

Lemma rx_lookup i s b : rx i s = Some b -> rx_buffer (client s) !! Z.to_nat i = Some b.
Proof. unfold rx. by destruct (0 <=? i). Qed.

(** Terminating the topic in the buffer and undoing it. *)
Lemma terminate_restore i b s s1 s2 s3 :
  rx i s = Some b -> set_rx_byte i 0 s = Some s1 -> same_rx s1 s2 ->
  set_rx_byte i b s2 = Some s3 -> same_rx s s3.
Proof.
  intros Hb H1 [H2 H2'] H3. apply set_rx_byte_inv in H1 as (_ & Hi & ->).
  apply set_rx_byte_inv in H3 as (_ & _ & ->). mcbn in *. split; mcbn; [|by rewrite H2'].
  rewrite H2. cbn [rx_buffer set_rx client]. rewrite list_insert_insert_eq.
  apply list_insert_id. by apply rx_lookup.
Qed.

Lemma publish_received_rx fh len rem s s' ok :
  publish_received fh len rem s = Some (s', ok) -> same_rx s s'.
Proof.
  unfold publish_received. intros E.
  destruct (rx 0 s) as [b0|]; [|done]. cbv zeta in E.
  match type of E with (let? _ := ?c in _) = _ => destruct c as [[[[s1 po] pl] ok1]|] eqn:E1; [|done] end.
  assert (same_rx s s1) as H1.
  { destruct (msg_idx (client s) <=? MQTT_VAR_HEADER_BUFFER_LEN); [|by simplify_eq].
    destruct (rx fh s) as [t0|]; [|done]. destruct (rx (fh + 1) s) as [t1|]; [|done].
    destruct (len <? _); [by simplify_eq|].
    match type of E1 with (let? _ := ?c in _) = _ => destruct c as [[s2 at2]|] eqn:E2; [|done] end.
    assert (same_rx s s2) as H2.
    { destruct (0 <? MQTT_CTL_PACKET_QOS b0); [|by simplify_eq].
      destruct (rx (fh + u16 (2 + _)) s); [|done]. destruct (rx (fh + u16 (2 + _) + 1) s); [|done].
      by simplify_eq. }
    destruct (rx _ s2) as [bkp|] eqn:Eb; [|done].
    destruct (set_rx_byte _ 0 s2) as [s3|] eqn:E3; [|done].
    destruct (rx_slice _ _ s3) as [name|]; [|done].
    match type of E1 with (let? _ := set_rx_byte _ _ ?x in _) = _ => set (s4 := x) in E1 end.
    destruct (set_rx_byte _ bkp s4) as [s5|] eqn:E5; [|done]. simplify_eq.
    eapply same_rx_trans; [exact H2|]. eapply terminate_restore; [exact Eb|exact E3| |exact E5].
    unfold s4. by destruct (pub_cb _). }
  eapply same_rx_trans; [exact H1|]. clear E1 H1.
  repeat (case_match; simplify_eq; try done).
  all: match goal with H : pub_ack_rec_rel_response _ _ _ _ = _ |- _ => apply response_rx in H; exact H end.
Qed.

Lemma suback_rx r b s : same_rx s (mqtt_incomming_suback r b s).
Proof. unfold mqtt_incomming_suback. by destruct (req_cb r). Qed.

Lemma message_received_rx fh len rem s res s' :
  mqtt_message_received fh len rem s = Some (res, s') -> same_rx s s'.
Proof.
  unfold mqtt_message_received. intros E.
  repeat (case_match; simplify_eq; try done).
  all: try match goal with H : pub_ack_rec_rel_response _ _ _ _ = _ |- _ => by apply response_rx in H end.
  all: try match goal with H : publish_received _ _ _ _ = _ |- _ => by apply publish_received_rx in H end.
  all: unfold same_rx, mqtt_incomming_suback; by repeat case_match.
Qed.

(** ** Steps of the loop

    The loop over the rest of the input: only the bytes from [in_offset] on
    matter. *)

Definition ploop (fuel : nat) (p : list Z) (rem fh b : Z) s : option (option (Z * mstate T)) :=
  parse_loop fuel p (Locals 0 rem fh b) s.

Definition in_header (fh b : Z) : bool := (fh <? 2) || negb (Z.land b 0x80 =? 0).

(** What reading header byte [b] as number [fh] does. *)
Definition header_byte_read (b rem fh : Z) s : option (mstate T * Z * Z) :=
  if 2 <=? fh then
    if 32 <=? (fh - 2) * 7 then None
    else
      let rem := Z.lor rem (u32 (Z.shiftl (Z.land b 0x7f) ((fh - 2) * 7))) in
      if Z.land b 0x80 =? 0 then
        if rem =? 0 then
          let? (_, st) := mqtt_message_received fh 0 0 s in
          Some (on_client (fun c => set_rx 0 (rx_buffer c) c) st, rem, 0)
        else Some (s, u32 (rem + fh - msg_idx (client s)), fh)
      else Some (s, rem, fh)
  else Some (s, rem, fh).

Lemma parse_header_eq p off rem fh b s :
  parse_header p (Locals off rem fh b) s =
  (if fh <? msg_idx (client s) then
     let? x := rx fh s in
     let? (st, rem, fh) := header_byte_read x rem (u8 (fh + 1)) s in Some (st, Locals off rem fh x)
   else
     let? x := p !! Z.to_nat off in
     let? st := set_rx_byte (msg_idx (client s)) x s in
     let? (st, rem, fh) := header_byte_read x rem (u8 (fh + 1))
       (on_client (fun c => set_rx (u32 (msg_idx c + 1)) (rx_buffer c) c) st) in
     Some (st, Locals (u16 (off + 1)) rem fh x)).
Proof.
  unfold parse_header, header_byte_read. cbn [in_offset msg_rem_len fixed_hdr_idx hdr_b].
  destruct (fh <? msg_idx (client s)).
  - destruct (rx fh s); [|done]. by repeat case_match.
  - destruct (p !! Z.to_nat off); [|done]. destruct (set_rx_byte _ _ s); [|done]. by repeat case_match.
Qed.


Lemma header_byte_read_rem b rem fh s s' rem' fh' :
  is_u 32 rem -> header_byte_read b rem fh s = Some (s', rem', fh') -> is_u 32 rem'.
Proof.
  intros Hr E. unfold header_byte_read in E.
  assert (forall x, is_u 32 (Z.lor rem (u32 x))) as Hl
    by (intros x; apply is_u_lor; [lia|done|apply wrap_range; lia]).
  repeat (case_match; simplify_eq; try done). by apply wrap_range.
Qed.

(** One copy step, on the rest of the input. *)
Definition body_step (p : list Z) (rem fh : Z) s : option (mstate T * Z * Z * Z + Z * mstate T) :=
  match parse_body p (Locals 0 rem fh 0) s with
  | Some (inl (st, v)) => Some (inl (st, in_offset v, msg_rem_len v, fixed_hdr_idx v))
  | Some (inr r) => Some (inr r)
  | None => None
  end.

Lemma parse_body_shift p off rem fh b s :
  0 <= off <= Z.of_nat (length p) -> Z.of_nat (length p) < 65536 -> is_u 32 rem ->
  parse_body p (Locals off rem fh b) s =
    match body_step (drop (Z.to_nat off) p) rem fh s with
    | Some (inl (st, k, rem, fh)) => Some (inl (st, Locals (off + k) rem fh b))
    | Some (inr r) => Some (inr r)
    | None => None
    end /\
  match body_step (drop (Z.to_nat off) p) rem fh s with
  | Some (inl (st, k, rem, fh)) => 0 <= k <= Z.of_nat (length p) - off /\ is_u 32 rem
  | _ => True
  end.
Proof.
  intros Hoff Hp Hrem. unfold body_step, parse_body.
  cbn [in_offset msg_rem_len fixed_hdr_idx hdr_b]. rewrite length_drop, Z.sub_0_r.
  replace (Z.of_nat (length p - Z.to_nat off)) with (Z.of_nat (length p) - off) by lia.
  change (drop (Z.to_nat 0) ?q) with q.
  set (start := u16 (u32 _ mod _ + fh)). set (space := u16 (128 - start)).
  change (u16 (MQTT_VAR_HEADER_BUFFER_LEN - start)) with space.
  set (c0 := u16 (Z.min (u16 (Z.of_nat (length p) - off)) rem)).
  assert (0 <= c0 <= Z.of_nat (length p) - off) as Hc0.
  { unfold c0. rewrite (u16_small (_ - _)) by lia. unfold is_u in Hrem. rewrite u16_small; lia. }
  assert (0 <= space) as Hsp by (apply wrap_range; lia).
  set (c := if space <? c0 then space else c0).
  assert (0 <= c <= Z.of_nat (length p) - off) as Hc
    by (unfold c; destruct (Z.ltb_spec space c0); lia).
  clearbody c. rewrite Z.add_0_l, !(u16_small (_ + c)), (u16_small c) by lia.
  pose proof (wrap_range 32 (rem - c) ltac:(lia)) as Hr. change (wrap 32 (rem - c)) with (u32 (rem - c)) in Hr.
  split; repeat (case_match; simplify_eq; try done).
Qed.

Lemma parse_loop_shift fuel : forall p off rem fh b s,
  0 <= off <= Z.of_nat (length p) -> Z.of_nat (length p) < 65536 -> is_u 32 rem ->
  parse_loop fuel p (Locals off rem fh b) s = ploop fuel (drop (Z.to_nat off) p) rem fh b s.
Proof.
  induction fuel as [|fuel IH]; intros p off rem fh b s Hoff Hp Hrem; unfold ploop; cbn [parse_loop].
  all: cbn [in_offset msg_rem_len fixed_hdr_idx hdr_b]; rewrite length_drop.
  all: destruct (Z.leb_spec (Z.of_nat (length p)) off), (Z.leb_spec (Z.of_nat (length p - Z.to_nat off)) 0);
    try lia; try done.
  destruct ((fh <? 2) || negb (Z.land b 0x80 =? 0)).
  - rewrite !parse_header_eq. destruct (fh <? msg_idx (client s)).
    + destruct (rx fh s) as [x|]; [|done].
      destruct (header_byte_read _ _ _ _) as [[[st rem'] fh']|] eqn:E; [|done].
      by rewrite IH by (done || by eapply header_byte_read_rem).
    + rewrite lookup_drop. change (Z.to_nat 0) with 0%nat. rewrite Nat.add_0_r.
      destruct (p !! Z.to_nat off) as [x|] eqn:Ex; [|done].
      destruct (set_rx_byte _ _ _) as [s1|]; [|done].
      destruct (header_byte_read _ _ _ _) as [[[st rem'] fh']|] eqn:E; [|done].
      apply header_byte_read_rem in E; [|done].
      rewrite !u16_small by lia. rewrite !IH by (rewrite ?length_drop; done || lia).
      rewrite drop_drop. do 2 f_equal. lia.
  - destruct (parse_body_shift p off rem fh b s Hoff Hp Hrem) as [-> Hk].
    destruct (parse_body_shift (drop (Z.to_nat off) p) 0 rem fh b s) as [-> _];
      [lia|rewrite length_drop; lia|done|].
    rewrite drop_0 in *. destruct (body_step _ _ _ _) as [[[[[st k] rem'] fh']|r]|]; try done.
    destruct Hk as [Hk Hr]. rewrite !IH by (rewrite ?length_drop; done || lia).
    rewrite drop_drop. do 2 f_equal. lia.
Qed.

(** ** Where the parser is

    The local variables of the loop are determined by the bytes stored in
    [rx_buffer]: a partial header, or a complete header and the number of bytes
    of the message received so far. *)

Fixpoint len_of (i : nat) (bs : list Z) : Z :=
  match bs with
  | [] => 0
  | b :: bs => Z.lor (u32 (Z.shiftl (Z.land b 0x7f) (7 * Z.of_nat i))) (len_of (S i) bs)
  end.

Definition continued (b : Z) : Prop := Z.land b 0x80 <> 0.

Definition last_is (h : list Z) (b : Z) : Prop := (2 <= length h)%nat -> last h = Some b.

Definition stored s (h : list Z) : Prop :=
  length (rx_buffer (client s)) = 128%nat /\ take (length h) (rx_buffer (client s)) = h /\
  (length h <= 6)%nat.

Inductive rx_state s : Z -> Z -> Z -> Prop :=
| rx_header h b :
    stored s h -> Forall continued (tail h) -> last_is h b ->
    msg_idx (client s) = Z.of_nat (length h) ->
    rx_state s (len_of 0 (tail h)) (Z.of_nat (length h)) b
| rx_body b0 cs e :
    let h := b0 :: cs ++ [e] in
    stored s h -> Forall continued cs -> ~ continued e ->
    Z.of_nat (length h) <= msg_idx (client s) < len_of 0 (cs ++ [e]) + Z.of_nat (length h) ->
    rx_state s (len_of 0 (cs ++ [e]) + Z.of_nat (length h) - msg_idx (client s)) (Z.of_nat (length h)) e.

Definition rx_ok s : Prop := exists rem fh b, rx_state s rem fh b.

Lemma len_of_app i bs b :
  len_of i (bs ++ [b]) = Z.lor (len_of i bs) (u32 (Z.shiftl (Z.land b 0x7f) (7 * Z.of_nat (i + length bs)))).
Proof.
  revert i. induction bs as [|c bs IH]; intros i; cbn [len_of app length].
  - rewrite Nat.add_0_r, Z.lor_0_r. by rewrite Z.lor_0_l.
  - rewrite IH, Z.lor_assoc. do 2 f_equal. f_equal. f_equal. lia.
Qed.

Lemma len_of_range i bs : is_u 32 (len_of i bs).
Proof.
  revert i. induction bs as [|c bs IH]; intros i; cbn [len_of]; [done|].
  apply is_u_lor; [lia|apply wrap_range; lia|done].
Qed.

Lemma tail_app {A} (x : A) h y : tail ((x :: h) ++ [y]) = h ++ [y].
Proof. done. Qed.

(** Reading the next header byte [x] after the bytes [h]. *)
Lemma header_read_eq h x s :
  (length h < 6)%nat ->
  header_byte_read x (len_of 0 (tail h)) (u8 (Z.of_nat (length h) + 1)) s =
    let total := len_of 0 (tail (h ++ [x])) in
    let fh := Z.of_nat (length h) + 1 in
    if (1 <=? length h)%nat && (Z.land x 0x80 =? 0) then
      if total =? 0 then
        let? (_, st) := mqtt_message_received fh 0 0 s in
        Some (on_client (fun c => set_rx 0 (rx_buffer c) c) st, 0, 0)
      else Some (s, u32 (total + fh - msg_idx (client s)), fh)
    else Some (s, total, fh).
Proof.
  intros Hl. unfold header_byte_read. rewrite u8_small by lia. cbv zeta.
  destruct h as [|b0 h]; [done|]. cbn [tail length app] in *.
  destruct (Z.leb_spec 2 (Z.of_nat (S (length h)) + 1)); [|lia].
  destruct (Z.leb_spec 32 ((Z.of_nat (S (length h)) + 1 - 2) * 7)); [lia|].
  rewrite len_of_app. replace ((Z.of_nat (S (length h)) + 1 - 2) * 7) with (7 * Z.of_nat (0 + length h)) by lia.
  destruct (Nat.leb_spec 1 (S (length h))); [|lia]. cbn [andb].
  destruct (Z.land x 0x80 =? 0); [|done].
  destruct (Z.eqb_spec (Z.lor (len_of 0 h) (u32 (Z.shiftl (Z.land x 127) (7 * Z.of_nat (0 + length h))))) 0)
    as [->|]; done.
Qed.

Lemma ploop_b_irrelevant n p rem fh b b' s : fh < 2 -> ploop n p rem fh b s = ploop n p rem fh b' s.
Proof.
  intros Hf. unfold ploop. destruct n; cbn [parse_loop in_offset msg_rem_len fixed_hdr_idx hdr_b]; [done|].
  destruct (Z.ltb_spec fh 2); [|lia]. cbn [orb]. by rewrite !parse_header_eq.
Qed.

Lemma in_header_stored h b :
  last_is h b -> Forall continued (tail h) -> in_header (Z.of_nat (length h)) b = true.
Proof.
  intros Hb Hc. unfold in_header. destruct (Z.ltb_spec (Z.of_nat (length h)) 2) as [|Hl]; [done|].
  cbn [orb]. apply negb_true_iff, Z.eqb_neq. destruct h as [|b0 h]; [cbn in Hl; lia|].
  specialize (Hb ltac:(lia)). cbn [tail length] in *.
  destruct h as [|b1 h] using rev_ind; [cbn in Hl; lia|].
  rewrite app_comm_cons, last_snoc in Hb. injection Hb as ->.
  apply Forall_app in Hc as [_ Hc]. by apply Forall_cons_1 in Hc as [? _].
Qed.

Lemma stored_lookup s h1 x h2 : stored s (h1 ++ x :: h2) -> rx (Z.of_nat (length h1)) s = Some x.
Proof.
  intros (_ & Ht & _). unfold rx. destruct (Z.leb_spec 0 (Z.of_nat (length h1))); [|lia].
  rewrite Nat2Z.id. rewrite <- (lookup_take_lt _ (length (h1 ++ x :: h2))) by (rewrite length_app; cbn; lia).
  rewrite Ht. rewrite lookup_app_r by lia. by rewrite Nat.sub_diag.
Qed.

Lemma stored_prefix s h1 h2 : stored s (h1 ++ h2) -> stored s h1.
Proof.
  intros (Hl & Ht & Hs). rewrite length_app in *. split; [done|]. split; [|lia].
  apply (f_equal (take (length h1))) in Ht. rewrite take_take, take_app_length in Ht.
  by rewrite Nat.min_l in Ht by lia.
Qed.

Lemma ploop_reread n p h x h2 b s :
  stored s (h ++ x :: h2) -> Forall continued (tail h) -> last_is h b ->
  Z.of_nat (length h) < msg_idx (client s) -> p <> [] ->
  ploop (S n) p (len_of 0 (tail h)) (Z.of_nat (length h)) b s =
    match header_byte_read x (len_of 0 (tail h)) (u8 (Z.of_nat (length h) + 1)) s with
    | Some (st, rem, fh) => ploop n p rem fh x st
    | None => Some None
    end.
Proof.
  intros Hst Hc Hb Hi Hp. unfold ploop at 1. cbn [parse_loop in_offset fixed_hdr_idx hdr_b].
  destruct (Z.leb_spec (Z.of_nat (length p)) 0); [destruct p; [done|cbn [length] in *; lia]|].
  pose proof (in_header_stored h b Hb Hc) as Hin. unfold in_header in Hin. rewrite Hin.
  rewrite parse_header_eq. destruct (Z.ltb_spec (Z.of_nat (length h)) (msg_idx (client s))); [|lia].
  rewrite (stored_lookup _ _ _ _ Hst). by destruct (header_byte_read _ _ _ _) as [[[st r] f]|].
Qed.

(** A new segment first reads the stored part of the header again. *)
Lemma reread_header n p s h2 : forall h b,
  stored s (h ++ h2) -> Forall continued (tail (h ++ h2)) -> last_is h b ->
  Z.of_nat (length (h ++ h2)) <= msg_idx (client s) -> p <> [] ->
  exists b', last_is (h ++ h2) b' /\
  ploop (length h2 + n) p (len_of 0 (tail h)) (Z.of_nat (length h)) b s =
  ploop n p (len_of 0 (tail (h ++ h2))) (Z.of_nat (length (h ++ h2))) b' s.
Proof.
  induction h2 as [|x h2 IH]; intros h b Hst Hc Hb Hi Hp.
  { exists b. rewrite app_nil_r. done. }
  assert (Forall continued (tail h)) as Hc1.
  { destruct h; [constructor|]. cbn [tail app] in *. by apply Forall_app in Hc as [? _]. }
  cbn [length Nat.add].
  rewrite (ploop_reread _ _ _ _ _ _ _ Hst Hc1 Hb) by (done || (rewrite length_app in Hi; cbn in Hi; lia)).
  assert (length h < 6)%nat as Hl
    by (destruct Hst as (_ & _ & Hl); rewrite length_app in Hl; cbn in Hl; lia).
  rewrite header_read_eq by done. cbv zeta.
  assert (((1 <=? length h)%nat && (Z.land x 0x80 =? 0)) = false) as ->.
  { destruct h as [|b0 h]; [done|]. cbn [tail app] in Hc. apply Forall_app in Hc as [_ Hc].
    apply Forall_cons_1 in Hc as [Hx _]. unfold continued in Hx.
    by rewrite (proj2 (Z.eqb_neq _ _) Hx), andb_false_r. }
  replace (Z.of_nat (length h) + 1) with (Z.of_nat (length (h ++ [x]))) by (rewrite length_app; cbn; lia).
  assert (h ++ x :: h2 = (h ++ [x]) ++ h2) as Eh by by rewrite <- app_assoc.
  rewrite Eh in *. apply IH; try done. intros _. apply last_snoc.
Qed.

Lemma not_continued e : ~ continued e -> (Z.land e 0x80 =? 0) = true.
Proof. unfold continued. intros. apply Z.eqb_eq. lia. Qed.

Lemma last_is_nil b : last_is [] b.
Proof. intros Hl. cbn in Hl. lia. Qed.

Lemma rx_state_fh s rem fh b : rx_state s rem fh b -> 0 <= fh <= 6.
Proof. intros [h b' (_ & _ & Hl) _ _ _|b0 cs e h (_ & _ & Hl) _ _ _]; [lia|unfold h in *; lia]. Qed.

Lemma rescan s rem fh b b0 n p :
  rx_state s rem fh b -> is_u 32 (msg_idx (client s)) -> p <> [] ->
  ploop (Z.to_nat fh + n) p 0 0 b0 s = ploop n p rem fh b s.
Proof.
  intros Hs Hu Hp. destruct Hs as [h b Hst Hc Hb Hi|c0 cs e h Hst Hc He Hi]; rewrite Nat2Z.id.
  - destruct (reread_header n p s h [] b0) as (b' & Hb' & E);
      [done|done|apply last_is_nil|cbn [app]; lia|done|].
    etransitivity; [exact E|]. cbn [app] in *.
    destruct (decide (2 <= length h)%nat) as [Hl|]; [|apply ploop_b_irrelevant; lia].
    specialize (Hb Hl). specialize (Hb' Hl). congruence.
  - destruct (reread_header (S n) p s (c0 :: cs) [] b0) as (b' & Hb' & E);
      [|done|apply last_is_nil| |done|].
    { unfold h in Hst. rewrite app_comm_cons in Hst. by apply stored_prefix in Hst. }
    { unfold h in Hi. cbn [length app] in *. rewrite length_app in Hi. cbn [length] in Hi. lia. }
    replace (length h + n)%nat with (length (c0 :: cs) + S n)%nat
      by (unfold h; cbn [length]; rewrite length_app; cbn [length]; lia).
    change (ploop (length (c0 :: cs) + S n) p 0 0 b0 s)
      with (ploop (length (c0 :: cs) + S n) p (len_of 0 (tail [])) (Z.of_nat (length (@nil Z))) b0 s).
    rewrite E. cbn [app tail]. unfold h in Hst, Hi |- *. rewrite app_comm_cons in Hst.
    rewrite app_comm_cons, length_app in *. cbn [length] in Hi.
    pose proof (ploop_reread n p (c0 :: cs) e [] b' s Hst Hc Hb') as E2.
    cbn [tail] in E2. rewrite E2 by (done || (cbn [length] in *; lia)).
    rewrite (header_read_eq (c0 :: cs)) by (destruct Hst as (_ & _ & Hl); rewrite length_app in Hl; cbn in Hl |- *; lia).
    cbv zeta. rewrite (not_continued e He).
    cbn [length Nat.leb andb app tail]. destruct (Z.eqb_spec (len_of 0 (cs ++ [e])) 0); [cbn [length] in *; lia|].
    pose proof (len_of_range 0 (cs ++ [e])) as Hr. unfold is_u in Hr, Hu. cbn [length] in Hi.
    rewrite u32_small by lia. f_equal; cbn [length]; lia.
Qed.

(** ** A header byte from the input *)

(** The state with the header byte [x] stored. *)
Definition store_byte (x : Z) s : mstate T :=
  on_client (fun c => set_rx (msg_idx c + 1) (<[Z.to_nat (msg_idx c) := x]> (rx_buffer c)) c) s.

Lemma stored_snoc s h x :
  stored s h -> msg_idx (client s) = Z.of_nat (length h) -> (length h < 6)%nat ->
  stored (store_byte x s) (h ++ [x]).
Proof.
  intros (Hl & Ht & _) Hi Hs. unfold stored, store_byte. mcbn. rewrite length_insert, length_app.
  cbn [length]. split; [done|]. split; [|lia]. rewrite Hi, Nat2Z.id.
  rewrite Nat.add_1_r. erewrite take_S_r by (apply list_lookup_insert_eq; lia).
  by rewrite take_insert_ge, Ht by lia.
Qed.

Lemma set_rx_byte_eq i v s :
  0 <= i < 128 -> length (rx_buffer (client s)) = 128%nat ->
  set_rx_byte i v s =
    Some (on_client (fun c => set_rx (msg_idx c) (<[Z.to_nat i := v]> (rx_buffer c)) c) s).
Proof.
  intros Hi Hl. unfold set_rx_byte, rx. destruct (Z.leb_spec 0 i); [|lia].
  destruct (lookup_lt_is_Some_2 (rx_buffer (client s)) (Z.to_nat i)) as [b ->]; [lia|done].
Qed.

Lemma ploop_header n x p h b s :
  stored s h -> Forall continued (tail h) -> last_is h b -> msg_idx (client s) = Z.of_nat (length h) ->
  Z.of_nat (length p) < 65535 ->
  ploop (S n) (x :: p) (len_of 0 (tail h)) (Z.of_nat (length h)) b s =
    match header_byte_read x (len_of 0 (tail h)) (u8 (Z.of_nat (length h) + 1)) (store_byte x s) with
    | Some (st, rem, fh) => ploop n p rem fh x st
    | None => Some None
    end.
Proof.
  intros Hst Hc Hb Hi Hp. pose proof Hst as (Hl & _ & Hs).
  unfold ploop at 1. cbn [parse_loop in_offset fixed_hdr_idx hdr_b length].
  destruct (Z.leb_spec (Z.of_nat (S (length p))) 0); [lia|].
  pose proof (in_header_stored h b Hb Hc) as Hin. unfold in_header in Hin. rewrite Hin.
  rewrite parse_header_eq. destruct (Z.ltb_spec (Z.of_nat (length h)) (msg_idx (client s))); [lia|].
  change ((x :: p) !! Z.to_nat 0) with (Some x). cbv iota beta.
  rewrite set_rx_byte_eq by (done || lia). cbv iota beta.
  assert (on_client (fun c => set_rx (u32 (msg_idx c + 1)) (rx_buffer c) c)
    (on_client (fun c => set_rx (msg_idx c) (<[Z.to_nat (msg_idx (client s)) := x]> (rx_buffer c)) c) s)
    = store_byte x s) as ->.
  { unfold store_byte, on_client. mcbn. rewrite u32_small by lia. done. }
  destruct (header_byte_read _ _ _ _) as [[[st rem] fh]|] eqn:E; [|done].
  apply header_byte_read_rem in E; [|apply len_of_range].
  rewrite parse_loop_shift; [done|rewrite u16_small by lia; cbn [length]; lia|cbn [length]; lia|done].
Qed.

(** Reading it either fails for good or gives the next state. *)
Lemma header_consume x h b s :
  stored s h -> Forall continued (tail h) -> last_is h b -> msg_idx (client s) = Z.of_nat (length h) ->
  exists o,
    (forall n p, Z.of_nat (length p) < 65535 ->
       ploop (S n) (x :: p) (len_of 0 (tail h)) (Z.of_nat (length h)) b s =
       match o with Some (st, rem, fh) => ploop n p rem fh x st | None => Some None end) /\
    match o with
    | Some (st, rem, fh) => rx_state st rem fh x /\ 0 <= msg_idx (client st) <= msg_idx (client s) + 1
    | None => True
    end.
Proof.
  intros Hst Hc Hb Hi. eexists. split; [intros n p Hp; by apply ploop_header|].
  pose proof Hst as (Hl & _ & Hs). destruct (decide (length h = 6%nat)) as [E6|E6].
  { rewrite E6. done. }
  rewrite header_read_eq by lia. cbv zeta.
  pose proof (stored_snoc s h x Hst Hi ltac:(lia)) as Hst'.
  assert (msg_idx (client (store_byte x s)) = Z.of_nat (length (h ++ [x]))) as Hi'
    by (unfold store_byte; mcbn; rewrite length_app; cbn [length]; lia).
  replace (Z.of_nat (length h) + 1) with (Z.of_nat (length (h ++ [x]))) by (rewrite length_app; cbn; lia).
  assert (0 <= msg_idx (client (store_byte x s)) <= msg_idx (client s) + 1) as Hb1
    by (unfold store_byte; mcbn; lia).
  destruct ((1 <=? length h)%nat && (Z.land x 0x80 =? 0)) eqn:Eend.
  - apply andb_prop in Eend as [Eh Ex]. apply Nat.leb_le in Eh. apply Z.eqb_eq in Ex.
    destruct h as [|b0 cs]; [cbn in Eh; lia|]. cbn [app tail].
    destruct (Z.eqb_spec (len_of 0 (cs ++ [x])) 0) as [|Hne].
    + destruct (mqtt_message_received _ _ _ _) as [[res st]|] eqn:Em; [|done].
      apply message_received_rx in Em as [Em _]. split; [|mcbn; lia].
      apply (rx_header _ []); [|constructor|apply last_is_nil|done].
      unfold stored. mcbn. rewrite Em. unfold store_byte. mcbn. rewrite length_insert.
      split; [done|]. split; [done|cbn; lia].
    + split; [|done]. pose proof (len_of_range 0 (cs ++ [x])) as Hr. unfold is_u in Hr.
      cbn [app] in Hi', Hst'. rewrite u32_small by lia.
      apply rx_body; [done|done|unfold continued; lia|rewrite Hi'; lia].
  - split; [|done]. apply rx_header; [done| |intros _; apply last_snoc|done].
    destruct h as [|b0 cs]; [constructor|]. cbn [app tail length Nat.leb andb] in *.
    apply Forall_app. split; [done|]. constructor; [|constructor]. by apply Z.eqb_neq.
Qed.

(** ** Message bytes *)

Definition cpy_start (fh : Z) s : Z := (msg_idx (client s) - fh) mod (128 - fh) + fh.

Definition copy_in (fh : Z) (data : list Z) s : mstate T :=
  on_client (fun c => set_rx (msg_idx c + Z.of_nat (length data))
    (list_inserts (Z.to_nat (cpy_start fh s)) data (rx_buffer c)) c) s.

(** What follows a copy that leaves [rem] bytes of the message and [space] bytes
    of the buffer; [len] bytes after the header are in the buffer. *)
Definition body_next (fh len rem space : Z) s : option (mstate T * Z * Z + Z * mstate T) :=
  if (rem =? 0) || (space =? 0) then
    let? (res, st) := mqtt_message_received fh len rem s in
    if negb (res =? MQTT_CONNECT_ACCEPTED) then Some (inr (res, st))
    else if rem =? 0 then Some (inl (on_client (fun c => set_rx 0 (rx_buffer c) c) st, 0, 0))
    else Some (inl (st, rem, fh))
  else Some (inl (s, rem, fh)).

Definition cpy_len (p : list Z) (rem fh : Z) s : Z :=
  Z.min (Z.min (Z.of_nat (length p)) rem) (128 - cpy_start fh s).

Lemma cpy_start_range fh s : 0 <= fh <= 6 -> fh <= cpy_start fh s < 128.
Proof.
  intros Hf. unfold cpy_start. pose proof (Z.mod_pos_bound (msg_idx (client s) - fh) (128 - fh)). lia.
Qed.

Lemma body_step_eq p rem fh s :
  length (rx_buffer (client s)) = 128%nat -> 0 <= fh <= 6 -> fh <= msg_idx (client s) ->
  msg_idx (client s) + Z.of_nat (length p) < 2 ^ 32 -> Z.of_nat (length p) < 65536 -> is_u 32 rem ->
  let c := cpy_len p rem fh s in
  body_step p rem fh s =
    match body_next fh (cpy_start fh s + c - fh) (rem - c) (128 - cpy_start fh s - c)
            (copy_in fh (take (Z.to_nat c) p) s) with
    | Some (inl (st, rem, fh)) => Some (inl (st, c, rem, fh))
    | Some (inr r) => Some (inr r)
    | None => None
    end.
Proof.
  intros Hl Hf Hi Hlt Hp Hrem c. unfold body_step, parse_body, is_u in *.
  cbn [in_offset msg_rem_len fixed_hdr_idx hdr_b].
  pose proof (cpy_start_range fh s Hf) as Hst.
  rewrite (u32_small (_ - _)) by lia. change MQTT_VAR_HEADER_BUFFER_LEN with 128.
  change ((msg_idx (client s) - fh) mod (128 - fh) + fh) with (cpy_start fh s).
  rewrite (u16_small (cpy_start fh s)), Z.sub_0_r, (u16_small (Z.of_nat (length p))) by lia.
  rewrite (u16_small (Z.min _ _)), (u16_small (128 - _)) by lia.
  assert ((if 128 - cpy_start fh s <? Z.min (Z.of_nat (length p)) rem then 128 - cpy_start fh s
           else Z.min (Z.of_nat (length p)) rem) = c) as ->
    by (unfold c, cpy_len; destruct (Z.ltb_spec (128 - cpy_start fh s) (Z.min (Z.of_nat (length p)) rem)); lia).
  assert (0 <= c <= Z.of_nat (length p) /\ c <= rem /\ c <= 128 - cpy_start fh s) as Hc
    by (unfold c, cpy_len; lia).
  unfold rx_slice. destruct (Z.leb_spec 0 (cpy_start fh s)); [|lia]. destruct (Z.leb_spec 0 c); [|lia].
  destruct (Z.leb_spec (cpy_start fh s + c) (Z.of_nat (length (rx_buffer (client s))))); [|lia]. cbn [andb].
  rewrite Z.add_0_l, (u32_small (_ + c)), (u32_small (rem - c)), (u16_small c), (u16_small (_ + c - fh)) by lia.
  change (drop (Z.to_nat 0) p) with p.
  assert (on_client (fun c0 => set_rx (msg_idx (client s) + c)
    (list_inserts (Z.to_nat (cpy_start fh s)) (take (Z.to_nat c) p) (rx_buffer c0)) c0) s
    = copy_in fh (take (Z.to_nat c) p) s) as ->.
  { unfold copy_in, on_client. rewrite length_take_le by lia. by rewrite Z2Nat.id by lia. }
  unfold body_next. replace (c =? 128 - cpy_start fh s) with (128 - cpy_start fh s - c =? 0)
    by (destruct (Z.eqb_spec (128 - cpy_start fh s - c) 0), (Z.eqb_spec c (128 - cpy_start fh s)); lia).
  destruct ((rem - c =? 0) || (128 - cpy_start fh s - c =? 0)); [|done].
  destruct (mqtt_message_received _ _ _ _) as [[res st]|]; [|done].
  destruct (negb (res =? MQTT_CONNECT_ACCEPTED)); [done|].
  by destruct (Z.eqb_spec (rem - c) 0) as [->|].
Qed.

Lemma ploop_body n p rem fh b s :
  length (rx_buffer (client s)) = 128%nat -> 2 <= fh <= 6 -> fh <= msg_idx (client s) -> ~ continued b ->
  msg_idx (client s) + Z.of_nat (length p) < 2 ^ 32 -> Z.of_nat (length p) < 65536 -> is_u 32 rem ->
  p <> [] ->
  let c := cpy_len p rem fh s in
  ploop (S n) p rem fh b s =
    match body_next fh (cpy_start fh s + c - fh) (rem - c) (128 - cpy_start fh s - c)
            (copy_in fh (take (Z.to_nat c) p) s) with
    | Some (inl (st, rem, fh)) => ploop n (drop (Z.to_nat c) p) rem fh b st
    | Some (inr r) => Some (Some r)
    | None => Some None
    end.
Proof.
  intros Hl Hf Hi Hb Hlt Hp Hrem Hne c. unfold ploop at 1.
  cbn [parse_loop in_offset fixed_hdr_idx hdr_b].
  destruct (Z.leb_spec (Z.of_nat (length p)) 0); [destruct p; [done|cbn [length] in *; lia]|].
  destruct (Z.ltb_spec fh 2); [lia|]. rewrite (not_continued b Hb). cbn [orb negb].
  destruct (parse_body_shift p 0 rem fh b s) as [-> Hk]; [lia|done|done|].
  change (drop (Z.to_nat 0) p) with p in *. rewrite body_step_eq in * by (done || lia). fold c in Hk |- *.
  destruct (body_next _ _ _ _ _) as [[[[st rem'] fh']|r]|]; try done.
  destruct Hk as [Hk Hr]. rewrite Z.add_0_l. by rewrite parse_loop_shift by (done || lia).
Qed.

Lemma stored_copy s h data : stored s h -> stored (copy_in (Z.of_nat (length h)) data s) h.
Proof.
  intros (Hl & Ht & Hs). pose proof (cpy_start_range (Z.of_nat (length h)) s ltac:(lia)) as Hc.
  unfold stored, copy_in. mcbn. rewrite length_inserts. split; [done|]. split; [|done].
  rewrite <- Ht at 3. apply list_eq. intros j.
  destruct (decide (j < length h)%nat); [|by rewrite !lookup_take_ge by lia].
  rewrite !lookup_take_lt by done. apply list_lookup_inserts_lt. lia.
Qed.

Lemma copy_in_app fh d1 d2 s :
  0 <= fh <= 6 -> Z.of_nat (length d1) < 128 - cpy_start fh s ->
  cpy_start fh (copy_in fh d1 s) = cpy_start fh s + Z.of_nat (length d1) /\
  copy_in fh d2 (copy_in fh d1 s) = copy_in fh (d1 ++ d2) s.
Proof.
  intros Hf Hd.
  assert (cpy_start fh (copy_in fh d1 s) = cpy_start fh s + Z.of_nat (length d1)) as Es.
  { pose proof (cpy_start_range fh s Hf) as Hr. unfold copy_in. unfold cpy_start in *. mcbn.
    replace (msg_idx (client s) + Z.of_nat (length d1) - fh)
      with (msg_idx (client s) - fh + Z.of_nat (length d1)) by lia.
    rewrite <- Zplus_mod_idemp_l, Z.mod_small; lia. }
  split; [done|]. pose proof (cpy_start_range fh s Hf).
  unfold copy_in at 1. rewrite Es. unfold copy_in, on_client. mcbn. unfold set_rx. mcbn.
  rewrite list_inserts_app_l, length_app. do 2 f_equal; [lia|].
  f_equal. lia.
Qed.

(** The facts of a state inside a message. *)
Record in_body s (b0 : Z) (cs : list Z) (e : Z) : Prop := {
  ib_stored : stored s (b0 :: cs ++ [e]);
  ib_cont : Forall continued cs;
  ib_end : ~ continued e;
  ib_idx : Z.of_nat (length (b0 :: cs ++ [e])) <= msg_idx (client s)
           < len_of 0 (cs ++ [e]) + Z.of_nat (length (b0 :: cs ++ [e]))
}.

Lemma body_next_state s b0 cs e len rem space data st r f :
  in_body s b0 cs e ->
  let fh := Z.of_nat (length (b0 :: cs ++ [e])) in
  rem = len_of 0 (cs ++ [e]) + fh - msg_idx (client s) - Z.of_nat (length data) -> 0 <= rem ->
  body_next fh len rem space (copy_in fh data s) = Some (inl (st, r, f)) ->
  rx_state st r f e /\ 0 <= msg_idx (client st) <= msg_idx (client s) + Z.of_nat (length data).
Proof.
  intros [Hst Hc He Hi] fh Hrem Hr0 E.
  assert (forall st', same_rx (copy_in fh data s) st' -> 0 < rem -> rx_state st' rem fh e) as Hstay.
  { intros st' [Hx Hm] Hpos.
    assert (msg_idx (client st') = msg_idx (client s) + Z.of_nat (length data)) as Hm'
      by (rewrite Hm; unfold copy_in; mcbn; done).
    replace rem with (len_of 0 (cs ++ [e]) + fh - msg_idx (client st')) by lia.
    apply rx_body; [|done|done|fold fh; lia].
    apply (stored_copy s _ data) in Hst. unfold stored in *. by rewrite Hx. }
  unfold body_next in E.
  destruct ((rem =? 0) || (space =? 0)) eqn:Eb.
  - destruct (mqtt_message_received _ _ _ _) as [[res st1]|] eqn:Em; [|done].
    pose proof (message_received_rx _ _ _ _ _ _ Em) as Hrx.
    destruct (negb _); [done|]. destruct (Z.eqb_spec rem 0) as [E0|E0]; simplify_eq.
    + split; [|mcbn; lia]. apply (rx_header _ []); [|constructor|apply last_is_nil|done].
      destruct Hrx as [Hrx _]. unfold stored. mcbn. rewrite Hrx.
      unfold copy_in. mcbn. rewrite length_inserts. split; [apply Hst|]. split; [done|cbn; lia].
    + split; [apply Hstay; [done|lia]|]. destruct Hrx as [_ ->]. unfold copy_in. mcbn. lia.
  - apply orb_false_iff in Eb as [E0 _]. apply Z.eqb_neq in E0. simplify_eq.
    split; [apply Hstay; [apply same_rx_refl|lia]|]. unfold copy_in. mcbn. lia.
Qed.

(** ** Segments *)

(** The loop on [p1] ends with [r], and the loop on [p1 ++ p2] goes on from
    there. *)
Definition continues (p2 : list Z) (whole : option (option (Z * mstate T))) (r : option (Z * mstate T))
    : Prop :=
  match r with
  | Some (res, s1) =>
      if res =? MQTT_CONNECT_ACCEPTED then
        exists rem fh b m, rx_state s1 rem fh b /\
          0 <= msg_idx (client s1) /\ msg_idx (client s1) + Z.of_nat (length p2) < 2 ^ 32 /\
          (length p2 <= m)%nat /\ whole = ploop m p2 rem fh b s1
      else whole = Some r
  | None => whole = Some r
  end.

Lemma ploop_nil n rem fh b s : ploop n [] rem fh b s = Some (Some (MQTT_CONNECT_ACCEPTED, s)).
Proof. by destruct n. Qed.

(** [p1] ends inside a message that [p2] continues. *)
Lemma body_partial m p1 p2 s b0 cs e :
  in_body s b0 cs e ->
  let fh := Z.of_nat (length (b0 :: cs ++ [e])) in
  let rem := len_of 0 (cs ++ [e]) + fh - msg_idx (client s) in
  let n1 := Z.of_nat (length p1) in
  0 < n1 < rem -> n1 < 128 - cpy_start fh s ->
  msg_idx (client s) + n1 + Z.of_nat (length p2) < 2 ^ 32 -> n1 + Z.of_nat (length p2) < 65536 ->
  ploop (S m) (p1 ++ p2) rem fh e s = ploop (S m) p2 (rem - n1) fh e (copy_in fh p1 s).
Proof.
  intros [Hst Hc He Hi] fh rem n1 Hr Hsp Hlt H16. pose proof Hst as (Hl & _ & Hs).
  assert (2 <= fh <= 6) as Hf
    by (unfold fh; cbn [length] in *; rewrite length_app in *; cbn [length] in *; lia).
  pose proof (len_of_range 0 (cs ++ [e])) as Ht. unfold is_u in Ht. fold fh in Hi.
  destruct (copy_in_app fh p1 (take (Z.to_nat (cpy_len p2 (rem - n1) fh (copy_in fh p1 s))) p2) s)
    as [Es Ec]; [lia|done|]. fold n1 in Es.
  assert (p1 <> []) as Hne by (intros ->; cbn in n1; lia).
  destruct p2 as [|y p2].
  { rewrite app_nil_r, ploop_nil. cbn [length] in Hlt, H16.
    rewrite ploop_body; [|done|lia|lia|done|fold n1; lia|fold n1; lia|unfold is_u, rem; lia|done].
    assert (cpy_len p1 rem fh s = n1) as -> by (unfold cpy_len; fold n1; lia).
    unfold body_next. destruct (Z.eqb_spec (rem - n1) 0); [lia|].
    destruct (Z.eqb_spec (128 - cpy_start fh s - n1) 0); [lia|]. cbn [orb].
    unfold n1. rewrite Nat2Z.id, drop_all, firstn_all. apply ploop_nil. }
  apply (stored_copy _ _ p1) in Hst as (Hl' & _). fold fh in Hl'.
  assert (msg_idx (client (copy_in fh p1 s)) = msg_idx (client s) + n1) as Ei by done.
  rewrite (ploop_body m (y :: p2)); [|done|lia|lia|done|lia|lia|unfold is_u, rem; lia|done].
  rewrite (ploop_body m (p1 ++ y :: p2)); [|done|lia|lia|done| | |unfold is_u, rem; lia|by destruct p1];
    try (rewrite length_app, Nat2Z.inj_add; fold n1; lia).
  set (c2 := cpy_len (y :: p2) (rem - n1) fh (copy_in fh p1 s)) in *.
  assert (cpy_len (p1 ++ y :: p2) rem fh s = n1 + c2) as ->.
  { unfold c2, cpy_len. rewrite Es, length_app. unfold n1 in *. lia. }
  assert (0 <= c2) as Hc2 by (unfold c2, cpy_len; rewrite Es; lia).
  rewrite Ec, Es. replace (Z.to_nat (n1 + c2)) with (length p1 + Z.to_nat c2)%nat by (unfold n1; lia).
  rewrite take_app_add, drop_app_add.
  replace (cpy_start fh s + (n1 + c2) - fh) with (cpy_start fh s + n1 + c2 - fh) by lia.
  replace (rem - (n1 + c2)) with (rem - n1 - c2) by lia.
  by replace (128 - cpy_start fh s - (n1 + c2)) with (128 - (cpy_start fh s + n1) - c2) by lia.
Qed.

(** The copy step ends at the end of the message or of the buffer. *)
Lemma body_same m p1 p2 s b0 cs e :
  in_body s b0 cs e ->
  let fh := Z.of_nat (length (b0 :: cs ++ [e])) in
  let rem := len_of 0 (cs ++ [e]) + fh - msg_idx (client s) in
  let n1 := Z.of_nat (length p1) in
  let c := cpy_len p1 rem fh s in
  p1 <> [] -> Z.min rem (128 - cpy_start fh s) <= n1 ->
  msg_idx (client s) + n1 + Z.of_nat (length p2) < 2 ^ 32 -> n1 + Z.of_nat (length p2) < 65536 ->
  0 < c <= n1 /\ c <= rem /\
  ploop (S m) (p1 ++ p2) rem fh e s =
    match body_next fh (cpy_start fh s + c - fh) (rem - c) (128 - cpy_start fh s - c)
            (copy_in fh (take (Z.to_nat c) p1) s) with
    | Some (inl (st, rem, fh)) => ploop m (drop (Z.to_nat c) p1 ++ p2) rem fh e st
    | Some (inr r) => Some (Some r)
    | None => Some None
    end.
Proof.
  intros [Hst Hc He Hi] fh rem n1 c Hne Hmin Hlt H16. pose proof Hst as (Hl & _ & Hs).
  assert (2 <= fh <= 6) as Hf
    by (unfold fh; cbn [length] in *; rewrite length_app in *; cbn [length] in *; lia).
  pose proof (len_of_range 0 (cs ++ [e])) as Ht. unfold is_u in Ht. fold fh in Hi.
  pose proof (cpy_start_range fh s ltac:(lia)) as Hr.
  assert (0 < n1) as Hn1 by (unfold n1; destruct p1; [done|cbn [length]; lia]).
  assert (0 < c <= n1 /\ c <= rem) as Hcr by (unfold c, cpy_len; fold n1; lia).
  split; [apply Hcr|]. split; [apply Hcr|].
  rewrite ploop_body; [|done|lia|lia|done| | |unfold is_u, rem; lia|by destruct p1];
    try (rewrite length_app, Nat2Z.inj_add; fold n1; lia).
  assert (cpy_len (p1 ++ p2) rem fh s = c) as ->
    by (unfold c, cpy_len; rewrite length_app, Nat2Z.inj_add; fold n1; lia).
  rewrite take_app_le, drop_app_le by (unfold n1 in *; lia). done.
Qed.

Lemma ploop_split k : forall p1 p2 rem fh b s n m,
  (length p1 <= k)%nat -> rx_state s rem fh b -> (length p1 <= n)%nat ->
  (length p1 + length p2 <= m)%nat -> 0 <= msg_idx (client s) ->
  msg_idx (client s) + Z.of_nat (length p1) + Z.of_nat (length p2) < 2 ^ 32 ->
  Z.of_nat (length p1) + Z.of_nat (length p2) < 65536 ->
  exists r, ploop n p1 rem fh b s = Some r /\ continues p2 (ploop m (p1 ++ p2) rem fh b s) r.
Proof.
  induction k as [|k IH]; intros p1 p2 rem fh b s n m Hk Hs Hn Hm H0 Hlt H16.
  all: destruct p1 as [|x p1]; [rewrite ploop_nil; eexists; split; [done|];
    exists rem, fh, b, m; cbn [length] in *; repeat (split; [done || lia|]); done|].
  { cbn in Hk. lia. }
  destruct n as [|n]; [cbn in Hn; lia|]. destruct m as [|m]; [cbn in Hm; lia|].
  destruct Hs as [h b Hst Hc Hb Hi|b0 cs e h Hst Hc He Hi].
  - destruct (header_consume x h b s Hst Hc Hb Hi) as (o & E & Ho). cbn [app length] in *.
    rewrite !E by (rewrite ?length_app; lia).
    destruct o as [[[st rem'] fh']|]; [|by eexists]. destruct Ho as [Hs' Hi'].
    apply IH; try done; lia.
  - assert (in_body s b0 cs e) as Hib by done. unfold h in *.
    set (fh := Z.of_nat (length (b0 :: cs ++ [e]))) in *.
    set (rem := len_of 0 (cs ++ [e]) + fh - msg_idx (client s)) in *.
    destruct (Z.le_gt_cases (Z.min rem (128 - cpy_start fh s)) (Z.of_nat (length (x :: p1)))) as [Hmin|Hmin].
    + destruct (body_same m (x :: p1) p2 s b0 cs e Hib) as (Hc1 & Hc2 & E); [done|done|lia|lia|].
      destruct (body_same n (x :: p1) [] s b0 cs e Hib) as (_ & _ & E'); [done|done|cbn [length] in *; lia|cbn [length] in *; lia|].
      rewrite !app_nil_r in E'. fold fh rem in Hc1, Hc2, E, E'. rewrite E, E'.
      set (c := cpy_len (x :: p1) rem fh s) in *.
      destruct (body_next _ _ _ _ _) as [[[[st rem'] fh']|[res s1]]|] eqn:En; [| |by eexists].
      * apply (body_next_state s b0 cs e) in En; [|done| |lia].
        2: { rewrite length_take_le by lia. rewrite Z2Nat.id by lia. done. }
        rewrite length_take_le in En by lia. destruct En as [Hs' Hi'].
        apply IH; try done; rewrite ?length_drop; lia.
      * eexists. split; [done|]. unfold body_next in En.
        destruct (_ || _); [|done]. destruct (mqtt_message_received _ _ _ _) as [[res' st]|]; [|done].
        destruct (Z.eqb_spec res' MQTT_CONNECT_ACCEPTED) as [->|Hres]; cbn [negb] in En.
        { by destruct (rem - c =? 0). }
        simplify_eq. unfold continues. by rewrite (proj2 (Z.eqb_neq _ _) Hres).
    + pose proof (body_partial n (x :: p1) [] s b0 cs e Hib) as E'. cbv zeta in E'.
      pose proof (body_partial m (x :: p1) p2 s b0 cs e Hib) as E. cbv zeta in E. fold fh rem in E, E'.
      rewrite app_nil_r, ploop_nil in E'.
      eexists. split; [apply E'; cbn [length] in *; lia|]. rewrite E by (cbn [length] in *; lia).
      destruct (body_next_state s b0 cs e 0 (rem - Z.of_nat (length (x :: p1))) 1 (x :: p1)
        (copy_in fh (x :: p1) s) (rem - Z.of_nat (length (x :: p1))) fh Hib) as [Hs' Hi'];
        [done|lia| |].
      { unfold body_next. destruct (Z.eqb_spec (rem - Z.of_nat (length (x :: p1))) 0); [lia|done]. }
      unfold continues. rewrite Z.eqb_refl. eexists _, _, _, (S m).
      split; [exact Hs'|]. split; [lia|]. split; [lia|]. split; [cbn [length] in *; lia|done].
Qed.

Lemma parse_incoming_ploop p s :
  mqtt_parse_incoming p s = match ploop (length p + 8) p 0 0 0 s with Some r => r | None => None end.
Proof. done. Qed.

(** With enough fuel the loop from the stored position has the result of the
    call. *)
Lemma parse_incoming_at p rem fh b s n :
  rx_state s rem fh b -> 0 <= msg_idx (client s) -> msg_idx (client s) + Z.of_nat (length p) < 2 ^ 32 ->
  Z.of_nat (length p) < 65536 -> (length p <= n)%nat ->
  ploop n p rem fh b s = Some (mqtt_parse_incoming p s) /\
  ploop (length p + 8) p 0 0 0 s = Some (mqtt_parse_incoming p s).
Proof.
  intros Hs H0 Hlt H16 Hn. rewrite parse_incoming_ploop. destruct p as [|x p].
  { by rewrite !ploop_nil. }
  pose proof (rx_state_fh _ _ _ _ Hs) as Hf.
  pose proof (rescan s rem fh b 0 (length (x :: p) + 8 - Z.to_nat fh) (x :: p) Hs
    ltac:(unfold is_u; lia) ltac:(done)) as E.
  replace (Z.to_nat fh + (length (x :: p) + 8 - Z.to_nat fh))%nat with (length (x :: p) + 8)%nat in E by lia.
  rewrite E.
  destruct (ploop_split (length (x :: p)) (x :: p) [] rem fh b s n (length (x :: p) + 8 - Z.to_nat fh))
    as (r & -> & Hc); try done; try (cbn [length] in *; lia).
  rewrite app_nil_r in Hc. destruct r as [[res s1]|]; cbn [continues] in Hc; [|by rewrite Hc].
  destruct (Z.eqb_spec res MQTT_CONNECT_ACCEPTED) as [->|]; [|by rewrite Hc].
  destruct Hc as (rem' & fh' & b' & m & _ & _ & _ & _ & ->). by rewrite ploop_nil.
Qed.

(** C8: Segmentation does not matter: parsing the bytes of two segments in one
    call gives the same callbacks, replies, state and result as parsing them in
    two calls, wherever in a header or a message the boundary is; an error in
    the first segment ends both. *)
Theorem mqtt_parse_segments (s : mstate T) (p1 p2 : list Z) :
  rx_ok s -> 0 <= msg_idx (client s) ->
  msg_idx (client s) + Z.of_nat (length (p1 ++ p2)) < 2 ^ 32 -> Z.of_nat (length (p1 ++ p2)) < 65536 ->
  mqtt_parse_incoming (p1 ++ p2) s =
    match mqtt_parse_incoming p1 s with
    | Some (res, s1) => if res =? MQTT_CONNECT_ACCEPTED then mqtt_parse_incoming p2 s1 else Some (res, s1)
    | None => None
    end.
Proof.
  intros (rem & fh & b & Hs) H0 Hlt H16. rewrite length_app in *.
  destruct (ploop_split (length p1) p1 p2 rem fh b s (length p1) (length p1 + length p2))
    as (r & E & Hc); try done; try lia.
  destruct (parse_incoming_at p1 rem fh b s (length p1)) as [E1 _]; try done; try lia.
  destruct (parse_incoming_at (p1 ++ p2) rem fh b s (length p1 + length p2)) as [E2 _];
    rewrite ?length_app; try done; try lia.
  rewrite E in E1. apply (inj Some) in E1. rewrite <- E1. rewrite E2 in Hc.
  destruct r as [[res s1]|]; cbn [continues] in Hc; [|by apply (inj Some) in Hc].
  destruct (Z.eqb_spec res MQTT_CONNECT_ACCEPTED) as [->|]; [|by apply (inj Some) in Hc].
  destruct Hc as (rem' & fh' & b' & m & Hs1 & H01 & Hlt1 & Hm & Hw).
  destruct (parse_incoming_at p2 rem' fh' b' s1 m) as [E3 _]; try done; try lia.
  rewrite E3 in Hw. by apply (inj Some) in Hw.
Qed.

(** The parser terminates on every segment: the loop of
    [mqtt_parse_incoming] takes at most as many rounds as there are bytes in the
    segment, plus six to read a stored header again, and the parser's position
    is well-formed again when it returns without an error. *)
Theorem mqtt_parse_terminates (s : mstate T) (p : list Z) :
  rx_ok s -> 0 <= msg_idx (client s) ->
  msg_idx (client s) + Z.of_nat (length p) < 2 ^ 32 -> Z.of_nat (length p) < 65536 ->
  parse_loop (length p + 8) p (Locals 0 0 0 0) s <> None /\
  match mqtt_parse_incoming p s with
  | Some (res, s') => res = MQTT_CONNECT_ACCEPTED -> rx_ok s' /\ 0 <= msg_idx (client s')
  | None => True
  end.
Proof.
  intros (rem & fh & b & Hs) H0 Hlt H16.
  destruct (parse_incoming_at p rem fh b s (length p)) as [E1 E2]; try done.
  split; [unfold ploop in E2; by rewrite E2|].
  destruct (ploop_split (length p) p [] rem fh b s (length p) (length p))
    as (r & E & Hc); try done; try (cbn [length]; lia).
  rewrite E1 in E. apply (inj Some) in E. rewrite E. destruct r as [[res s1]|]; [|done].
  intros ->. cbn [continues] in Hc. rewrite Z.eqb_refl in Hc.
  destruct Hc as (rem' & fh' & b' & m & Hs1 & H01 & _). split; [by exists rem', fh', b'|done].
Qed.
End Parse.
