(* ===== verification/MqttDeliver.v ===== *)
(** * Delivery of an incoming PUBLISH

    A PUBLISH packet, longer than the receive buffer or not, is delivered as one
    publish callback with topic and total length and a series of data callbacks
    whose contents concatenate to the payload. *)

From Stdlib Require Import ZArith Lia.
From stdpp Require Import base list option numbers.
From S2P Require Import Prelude MqttRing MqttReq Mqtt MqttInv MqttSend MqttParse.
From stdpp Require Import sets list.
Import OptionNotations.

Local Open Scope Z_scope.

(** ** The remaining length *)

Lemma land_lor_128 x : Z.land (Z.lor (Z.land x 0x7f) 0x80) 0x80 = 0x80.
Proof. rewrite Z.land_lor_distr_l, <- Z.land_assoc. by rewrite Z.land_0_r. Qed.

Lemma land_lor_127 x : Z.land (Z.lor (Z.land x 0x7f) 0x80) 0x7f = Z.land x 0x7f.
Proof. rewrite Z.land_lor_distr_l, <- Z.land_assoc. by rewrite Z.lor_0_r. Qed.

Lemma land_7f x : 0 <= x < 128 -> Z.land x 0x7f = x.
Proof. intros. change 0x7f with (Z.ones 7). rewrite Z.land_ones by lia. by apply Z.mod_small. Qed.

Lemma land_small_80 x : 0 <= x < 128 -> Z.land x 0x80 = 0.
Proof.
  intros Hx. rewrite <- (land_7f x Hx), <- Z.land_assoc. apply Z.land_0_r.
Qed.

Lemma lor_pieces n k : 0 <= n -> 0 < k -> Z.lor (Z.land n (Z.ones k)) (Z.shiftl (Z.shiftr n k) k) = n.
Proof.
  intros Hn Hk. apply Z.bits_inj'. intros i Hi. rewrite Z.lor_spec, Z.land_spec, Z.shiftl_spec by lia.
  destruct (Z.lt_ge_cases i k).
  - rewrite Z.ones_spec_low, (Z.testbit_neg_r _ (i - k)) by lia. by rewrite andb_true_r, orb_false_r.
  - rewrite Z.ones_spec_high, Z.shiftr_spec by lia. rewrite andb_false_r. cbn [orb]. f_equal. lia.
Qed.

Lemma shiftl_u32 x i k : 0 <= x < 2 ^ k -> 0 <= i -> 0 <= k -> k + i <= 32 -> u32 (Z.shiftl x i) = Z.shiftl x i.
Proof.
  intros Hx Hi Hk Hki. apply u32_small. rewrite Z.shiftl_mul_pow2 by lia.
  pose proof (Z.pow_pos_nonneg 2 i ltac:(lia) Hi). split; [apply Z.mul_nonneg_nonneg; lia|].
  apply Z.lt_le_trans with (2 ^ k * 2 ^ i); [apply Z.mul_lt_mono_pos_r; lia|].
  rewrite <- Z.pow_add_r by lia. apply Z.pow_le_mono_r; lia.
Qed.

(** The encoding of the remaining length decodes to it. *)
Lemma length_bytes_decode fuel : forall i n,
  0 <= n < 2 ^ (7 * Z.of_nat fuel) -> (0 < fuel)%nat -> 7 * (Z.of_nat i + Z.of_nat fuel) <= 32 ->
  exists cs e, length_bytes fuel n = cs ++ [e] /\ Forall continued cs /\ ~ continued e /\
    len_of i (cs ++ [e]) = Z.shiftl n (7 * Z.of_nat i) /\ (length cs < fuel)%nat.
Proof.
  induction fuel as [|fuel IH]; intros i n Hn Hf Hi; [lia|]. cbn [length_bytes].
  assert ((0 <? Z.shiftr n 7) = (128 <=? n)) as ->.
  { rewrite Z.shiftr_div_pow2 by lia. change (2 ^ 7) with 128.
    destruct (Z.ltb_spec 0 (n / 128)), (Z.leb_spec 128 n); try done; Z.div_mod_to_equations; lia. }
  destruct (Z.leb_spec 128 n) as [Hge|Hlt].
  - assert (0 < fuel)%nat as Hf1 by (destruct fuel; [cbn in Hn; lia|lia]).
    assert (0 <= Z.shiftr n 7 < 2 ^ (7 * Z.of_nat fuel)) as Hn1
      by (apply shiftr7_lt; [|lia]; by rewrite <- Nat2Z.inj_succ).
    destruct (IH (S i) (Z.shiftr n 7) Hn1 Hf1 ltac:(lia)) as (cs & e & -> & Hc & He & Hl & Hlen).
    exists (Z.lor (Z.land n 127) 128 :: cs), e. split; [done|]. split.
    { constructor; [|done]. unfold continued. rewrite land_lor_128. lia. }
    split; [done|]. split; [|cbn [length]; lia]. cbn [app len_of]. rewrite Hl, land_lor_127.
    rewrite (shiftl_u32 _ _ 7) by (lia || apply (land_ones_le n 7); lia).
    replace (7 * Z.of_nat (S i)) with (7 + 7 * Z.of_nat i) by lia.
    rewrite <- Z.shiftl_shiftl, <- Z.shiftl_lor by lia. f_equal. apply (lor_pieces n 7); lia.
  - exists [], (Z.lor (Z.land n 127) 0). rewrite Z.lor_0_r, land_7f by lia. split; [done|].
    split; [constructor|]. split; [unfold continued; rewrite land_small_80 by lia; lia|].
    split; [|cbn; lia]. cbn [app len_of]. rewrite Z.lor_0_r, land_7f by lia. apply (shiftl_u32 _ _ 7); lia.
Qed.

(** ** Buffer contents *)

Lemma list_inserts_eq {A} (d : list A) : forall k l,
  (k + length d <= length l)%nat -> list_inserts k d l = take k l ++ d ++ drop (k + length d) l.
Proof.
  induction d as [|x d IH]; intros k l Hk; cbn [list_inserts length] in *.
  { rewrite Nat.add_0_r. cbn [app]. by rewrite take_drop. }
  rewrite IH by lia. destruct (lookup_lt_is_Some_2 l k) as [y Hy]; [lia|].
  rewrite (take_S_r _ _ _ Hy), <- app_assoc.
  rewrite insert_app_r_alt by (rewrite length_take; lia).
  rewrite length_take_le, Nat.sub_diag by lia. cbn. do 3 f_equal. by rewrite Nat.add_succ_r.
Qed.

Lemma insert_middle {A} (a : list A) x y c : <[length a := y]> (a ++ x :: c) = a ++ y :: c.
Proof. by rewrite insert_app_r_alt, Nat.sub_diag by lia. Qed.

Lemma slice_middle {A} (a b c : list A) : take (length b) (drop (length a) (a ++ b ++ c)) = b.
Proof. by rewrite drop_app_length, take_app_length. Qed.

Lemma hi_lo n : is_u 16 n -> u16 (Z.shiftl (Z.shiftr n 8) 8 + Z.land n 0xff) = n.
Proof.
  intros Hn. unfold is_u in Hn. rewrite Z.shiftl_mul_pow2, Z.shiftr_div_pow2 by lia.
  change 0xff with (Z.ones 8). rewrite Z.land_ones by lia. change (2 ^ 8) with 256.
  rewrite u16_small; Z.div_mod_to_equations; lia.
Qed.

Section Deliver.
Context {T : Type} {tops : TcpOps T} {tlaws : TcpLaws T} {tconn : TcpConnOps T}.
Implicit Types s : mstate T.

Lemma rx_slice_middle s a b c i n :
  rx_buffer (client s) = a ++ b ++ c -> i = Z.of_nat (length a) -> n = Z.of_nat (length b) ->
  rx_slice i n s = Some b.
Proof.
  intros Hr -> ->. unfold rx_slice. rewrite Hr, !length_app, !Nat2Z.id, slice_middle.
  destruct (Z.leb_spec 0 (Z.of_nat (length a))); [|lia].
  destruct (Z.leb_spec 0 (Z.of_nat (length b))); [|lia].
  by destruct (Z.leb_spec (Z.of_nat (length a) + Z.of_nat (length b))
    (Z.of_nat (length a + (length b + length c)))); [|lia].
Qed.

Lemma rx_middle s a x c i :
  rx_buffer (client s) = a ++ x :: c -> i = Z.of_nat (length a) -> rx i s = Some x.
Proof.
  intros Hr ->. unfold rx. destruct (Z.leb_spec 0 (Z.of_nat (length a))); [|lia].
  rewrite Hr, Nat2Z.id, lookup_app_r by lia. by rewrite Nat.sub_diag.
Qed.

Lemma set_rx_byte_middle s a x y c i :
  rx_buffer (client s) = a ++ x :: c -> i = Z.of_nat (length a) ->
  set_rx_byte i y s = Some (on_client (fun cl => set_rx (msg_idx cl) (a ++ y :: c) cl) s).
Proof.
  intros Hr Hi. unfold set_rx_byte. rewrite (rx_middle s a x c i Hr Hi). subst i.
  unfold on_client. by rewrite Hr, Nat2Z.id, insert_middle.
Qed.

(** ** One fragment *)

(** The part of a message that is in the buffer when it is handled first. *)
Lemma publish_first s b0 hdr topic x pay rest fh rem :
  rx_buffer (client s) = (b0 :: hdr) ++ utf8 topic ++ (x :: pay) ++ rest ->
  fh = Z.of_nat (length (b0 :: hdr)) -> MQTT_CTL_PACKET_QOS b0 = 0 ->
  msg_idx (client s) <= 128 -> pub_cb (client s) = true -> data_cb (client s) = true ->
  Z.of_nat (length topic) + Z.of_nat (length pay) < 1000 -> 0 <= rem < 2 ^ 31 ->
  exists c', publish_received fh (2 + Z.of_nat (length topic) + Z.of_nat (length (x :: pay))) rem s =
    Some (MState c' (tcp s) (log s ++
      [EvPubCb (topic ++ [0]) (rem + Z.of_nat (length (x :: pay)));
       EvDataCb (x :: pay) (if rem =? 0 then MQTT_DATA_FLAG_LAST else 0)]), true) /\
    c' = set_inpub_pkt_id 0 (client s).
Proof.
  intros Hr Hfh Hq Hidx Hpub Hdata Hlen Hrem. unfold publish_received.
  assert (rx_buffer (client s) = (b0 :: hdr) ++ Z.shiftr (Z.of_nat (length topic)) 8 ::
    Z.land (Z.of_nat (length topic)) 0xff :: topic ++ x :: pay ++ rest) as Hr1
    by (rewrite Hr; unfold utf8, be16; cbn [app]; by rewrite <- ?app_assoc).
  rewrite (rx_middle s [] b0 _ 0 Hr1 eq_refl), Hq.
  destruct (Z.leb_spec (msg_idx (client s)) MQTT_VAR_HEADER_BUFFER_LEN) as [_|Hc];
    [|unfold MQTT_VAR_HEADER_BUFFER_LEN in Hc; lia].
  rewrite (rx_middle s _ _ _ fh Hr1 Hfh).
  rewrite (rx_middle s ((b0 :: hdr) ++ [Z.shiftr (Z.of_nat (length topic)) 8])
    (Z.land (Z.of_nat (length topic)) 0xff) (topic ++ x :: pay ++ rest) (fh + 1));
    [|by rewrite Hr1, <- app_assoc|rewrite length_app; cbn [length] in *; lia].
  rewrite hi_lo by (unfold is_u; lia). cbv zeta. rewrite (u16_small (2 + _)) by lia.
  destruct (Z.ltb_spec (2 + Z.of_nat (length topic) + Z.of_nat (length (x :: pay)))
    (2 + Z.of_nat (length topic) + (if truthy 0 then 2 else 1))) as [Hc|_]; [cbn in Hc; lia|].
  set (a := (b0 :: hdr) ++ utf8 topic).
  assert (rx_buffer (client s) = a ++ x :: pay ++ rest) as Hr2
    by (rewrite Hr; unfold a; by rewrite <- app_assoc).
  assert (fh + 2 + Z.of_nat (length topic) = Z.of_nat (length a)) as Ha
    by (unfold a, utf8, be16; rewrite !length_app; cbn [length] in *; lia).
  change (0 <? 0) with false. cbv iota beta.
  rewrite (rx_middle (on_client (set_inpub_pkt_id 0) s) a x _ _ Hr2 Ha).
  rewrite (set_rx_byte_middle (on_client (set_inpub_pkt_id 0) s) a x 0 _ _ Hr2 Ha).
  rewrite (rx_slice_middle _ ((b0 :: hdr) ++ be16 (Z.of_nat (length topic))) (topic ++ [0]) (pay ++ rest));
    [|mcbn; unfold a, utf8; rewrite <- !app_assoc; done
     |rewrite length_app; cbn [length be16] in *; lia|rewrite length_app; cbn; lia].
  mcbn. rewrite Hpub.
  match goal with |- context [set_rx_byte _ x ?st] =>
    rewrite (set_rx_byte_middle st a 0 x (pay ++ rest) _ eq_refl Ha) end.
  replace (2 + Z.of_nat (length topic) + Z.of_nat (length (x :: pay)) - (2 + Z.of_nat (length topic)))
    with (Z.of_nat (length (x :: pay))) by lia.
  rewrite u16_small, u32_small by (cbn [length]; lia). cbn [negb].
  destruct (Z.ltb_spec 0 (Z.of_nat (length (x :: pay)))) as [_|Hc]; [|cbn [length] in Hc; lia].
  cbn [orb]. match goal with |- context [data_cb (client ?st)] => set (s1 := st) end.
  assert (client s1 = set_inpub_pkt_id 0 (client s)) as Ec
    by (unfold s1; mcbn; rewrite <- Hr2; unfold set_rx, set_inpub_pkt_id; done).
  rewrite Ec. mcbn. rewrite Hdata.
  rewrite (rx_slice_middle s1 a (x :: pay) rest); [|by rewrite Ec|lia|done].
  rewrite andb_false_r. exists (client s1). split; [|done]. unfold emit_ev. do 3 f_equal.
  unfold s1. mcbn. by rewrite <- app_assoc.
Qed.

(** A later part of the message. *)
Lemma publish_more s b0 hdr pay rest fh rem :
  rx_buffer (client s) = (b0 :: hdr) ++ pay ++ rest -> fh = Z.of_nat (length (b0 :: hdr)) ->
  MQTT_CTL_PACKET_QOS b0 = 0 -> 128 < msg_idx (client s) -> data_cb (client s) = true ->
  pay <> [] ->
  publish_received fh (Z.of_nat (length pay)) rem s =
    Some (MState (client s) (tcp s) (log s ++
      [EvDataCb pay (if rem =? 0 then MQTT_DATA_FLAG_LAST else 0)]), true).
Proof.
  intros Hr Hfh Hq Hidx Hdata Hne. unfold publish_received.
  rewrite (rx_middle s [] b0 (hdr ++ pay ++ rest) 0 Hr eq_refl), Hq.
  destruct (Z.leb_spec (msg_idx (client s)) MQTT_VAR_HEADER_BUFFER_LEN) as [Hc|_];
    [unfold MQTT_VAR_HEADER_BUFFER_LEN in Hc; lia|]. cbn [negb].
  destruct (Z.ltb_spec 0 (Z.of_nat (length pay))); [|destruct pay; [done|cbn [length] in *; lia]].
  cbn [orb]. rewrite Hdata, Z.add_0_r, (rx_slice_middle s (b0 :: hdr) pay rest) by done.
  by rewrite andb_false_r.
Qed.

Lemma message_publish b0 rest fh len rem s s' :
  rx_buffer (client s) = b0 :: rest -> MQTT_CTL_PACKET_TYPE b0 = MQTT_MSG_TYPE_PUBLISH ->
  publish_received fh len rem s = Some (s', true) ->
  mqtt_message_received fh len rem s = Some (MQTT_CONNECT_ACCEPTED, s').
Proof.
  intros Hr Ht E. unfold mqtt_message_received. rewrite (rx_middle s [] b0 rest 0 Hr eq_refl).
  rewrite Ht, E. done.
Qed.

(** ** Chunks of a message *)

Definition reset_rx s : mstate T := on_client (fun c => set_rx 0 (rx_buffer c) c) s.

(** A state inside a message whose next byte goes right after the header. *)
Record at_start s (b0 : Z) (cs : list Z) (e : Z) (p : list Z) : Prop := {
  as_body : in_body s b0 cs e;
  as_fits : len_of 0 (cs ++ [e]) + Z.of_nat (length (b0 :: cs ++ [e])) - msg_idx (client s)
            = Z.of_nat (length p);
  as_aligned : cpy_start (Z.of_nat (length (b0 :: cs ++ [e]))) s = Z.of_nat (length (b0 :: cs ++ [e]));
  as_short : msg_idx (client s) + Z.of_nat (length p) < 2 ^ 31 /\ Z.of_nat (length p) < 65536
}.

Definition chunk (fh : Z) (p : list Z) : list Z := take (Z.to_nat (128 - fh)) p.

Lemma take_chunk fh p : take (length (chunk fh p)) p = chunk fh p.
Proof.
  unfold chunk. rewrite length_take.
  destruct (Nat.min_spec (Z.to_nat (128 - fh)) (length p)) as [[? ->]|[? ->]]; [done|].
  by rewrite !take_ge by lia.
Qed.

Lemma chunk_buffer s b0 cs e p :
  at_start s b0 cs e p ->
  let h := b0 :: cs ++ [e] in
  let fh := Z.of_nat (length h) in
  exists rest, rx_buffer (client (copy_in fh (chunk fh p) s)) = h ++ chunk fh p ++ rest.
Proof.
  intros [[(Hl & Ht & Hs) _ _ _] _ Ha _] h fh. unfold copy_in. mcbn. fold h in Ht, Hs, Ha.
  fold fh in Ha. rewrite Ha. unfold fh at 1. rewrite Nat2Z.id.
  rewrite list_inserts_eq.
  - exists (drop (length h + length (chunk fh p)) (rx_buffer (client s))). f_equal. exact Ht.
  - rewrite Hl. unfold chunk, fh, h in *. rewrite length_take. lia.
Qed.

Lemma chunk_step n s b0 cs e p s' :
  at_start s b0 cs e p -> p <> [] ->
  let fh := Z.of_nat (length (b0 :: cs ++ [e])) in
  let d := chunk fh p in
  let rest := drop (length d) p in
  mqtt_message_received fh (Z.of_nat (length d)) (Z.of_nat (length rest)) (copy_in fh d s)
    = Some (MQTT_CONNECT_ACCEPTED, s') ->
  ploop (S n) p (Z.of_nat (length p)) fh e s =
    (if (length rest =? 0)%nat then Some (Some (MQTT_CONNECT_ACCEPTED, reset_rx s'))
     else ploop n rest (Z.of_nat (length rest)) fh e s') /\
  ((0 < length rest)%nat -> at_start s' b0 cs e rest /\ 128 <= msg_idx (client s')).
Proof.
  intros [Hib Hfit Ha [Hlt H16]] Hne fh d rest E. pose proof Hib as [Hst Hc He Hi].
  pose proof Hst as (Hl & _ & Hs). fold fh in Hfit, Ha, Hi.
  assert (2 <= fh <= 6) as Hf
    by (unfold fh; cbn [length] in *; rewrite length_app in *; cbn [length] in *; lia).
  assert (length d = Nat.min (Z.to_nat (128 - fh)) (length p)) as Hd by (unfold d, chunk; apply length_take).
  assert (length rest = length p - length d)%nat as Hrest by (unfold rest; apply length_drop).
  assert (cpy_len p (Z.of_nat (length p)) fh s = Z.of_nat (length d)) as Ecl
    by (unfold cpy_len; rewrite Ha; lia).
  rewrite ploop_body; [|done|lia|lia|done|lia|lia|unfold is_u; lia|done].
  rewrite Ecl, Ha, Nat2Z.id.
  assert (take (length d) p = d) as -> by apply take_chunk.
  fold rest. replace (fh + Z.of_nat (length d) - fh) with (Z.of_nat (length d)) by lia.
  replace (Z.of_nat (length p) - Z.of_nat (length d)) with (Z.of_nat (length rest)) by lia.
  unfold body_next. rewrite E. pose proof (message_received_rx _ _ _ _ _ _ E) as [Hx Hm].
  assert ((Z.of_nat (length rest) =? 0) || (128 - fh - Z.of_nat (length d) =? 0) = true) as ->.
  { destruct (Z.eqb_spec (Z.of_nat (length rest)) 0); [done|]. apply Z.eqb_eq. lia. }
  rewrite Z.eqb_refl. cbn [negb]. split.
  - destruct (Z.eqb_spec (Z.of_nat (length rest)) 0) as [E0|E0], (Nat.eqb_spec (length rest) 0); try lia; [|done].
    replace rest with (@nil Z) by (by destruct rest). by rewrite ploop_nil.
  - intros Hpos. assert (Z.of_nat (length d) = 128 - fh) as Hd' by lia.
    unfold copy_in in Hm. mcbn in *.
    assert (msg_idx (client s') = msg_idx (client s) + (128 - fh)) as Hm' by lia.
    split; [|lia]. split.
    + split; [|done|done|fold fh; lia]. apply (stored_copy _ _ d) in Hst. unfold stored in *. by rewrite Hx.
    + fold fh. lia.
    + fold fh. unfold cpy_start in *. rewrite Hm'.
      replace (msg_idx (client s) + (128 - fh) - fh) with (msg_idx (client s) - fh + 1 * (128 - fh)) by lia.
      by rewrite Z_mod_plus_full.
    + lia.
Qed.

(** The data callbacks of a payload in fragments: only the last one is flagged. *)
Definition fragments (chunks : list (list Z)) (lst : list Z) : list mqtt_event :=
  map (fun d => EvDataCb d 0) chunks ++ [EvDataCb lst MQTT_DATA_FLAG_LAST].

(** The state has changed in the receive buffer, the identifier of the incoming
    publish and the log only. *)
Definition received s (evs : list mqtt_event) s' : Prop :=
  tcp s' = tcp s /\ log s' = log s ++ evs /\ msg_idx (client s') = 0 /\
  length (rx_buffer (client s')) = length (rx_buffer (client s)) /\
  exists i l, client s' = set_inpub_pkt_id i (set_rx 0 l (client s)).

Lemma deliver_rest k : forall n p s b0 cs e,
  (length p <= k)%nat -> (length p <= n)%nat -> p <> [] -> at_start s b0 cs e p ->
  128 <= msg_idx (client s) -> data_cb (client s) = true ->
  MQTT_CTL_PACKET_TYPE b0 = MQTT_MSG_TYPE_PUBLISH -> MQTT_CTL_PACKET_QOS b0 = 0 ->
  exists chunks lst s',
    ploop n p (Z.of_nat (length p)) (Z.of_nat (length (b0 :: cs ++ [e]))) e s
      = Some (Some (MQTT_CONNECT_ACCEPTED, s')) /\
    concat chunks ++ lst = p /\ received s (fragments chunks lst) s'.
Proof.
  induction k as [|k IH]; intros n p s b0 cs e Hk Hn Hne Has Hidx Hdata Ht Hq;
    [destruct p; [done|cbn in Hk; lia]|].
  destruct n as [|n]; [destruct p; [done|cbn in Hn; lia]|].
  set (fh := Z.of_nat (length (b0 :: cs ++ [e]))). set (d := chunk fh p). set (rest := drop (length d) p).
  destruct (chunk_buffer s b0 cs e p Has) as (tl & Hbuf). fold fh d in Hbuf.
  assert (2 <= fh <= 6) as Hf.
  { destruct Has as [[(_ & _ & Hs) _ _ _] _ _ _]. unfold fh. cbn [length] in *. rewrite length_app in *.
    cbn [length] in *. lia. }
  assert (0 < length d <= length p)%nat as Hd.
  { unfold d, chunk. rewrite length_take. destruct p; [done|]. cbn [length]. lia. }
  assert (length rest = length p - length d)%nat as Hrest by (unfold rest; apply length_drop).
  assert (msg_idx (client (copy_in fh d s)) = msg_idx (client s) + Z.of_nat (length d)) as Hidx' by done.
  pose proof (publish_more (copy_in fh d s) b0 (cs ++ [e]) d tl fh (Z.of_nat (length rest)) Hbuf eq_refl Hq
    ltac:(lia) Hdata ltac:(intros E; rewrite E in Hd; cbn in Hd; lia)) as Ep.
  apply (message_publish b0 (cs ++ [e] ++ d ++ tl)) in Ep; [|by rewrite Hbuf; cbn [app]; rewrite <- app_assoc|done].
  destruct (chunk_step n s b0 cs e p _ Has Hne Ep) as [E Hnext]. fold fh d rest in E, Hnext |- *.
  rewrite E. destruct (Nat.eqb_spec (length rest) 0) as [E0|E0].
  - exists [], p. eexists. split; [done|]. split; [done|]. rewrite E0.
    assert (d = p) as Edp.
    { unfold d, chunk in *. apply take_ge. rewrite length_take in Hrest. lia. }
    split; [done|]. split; [mcbn; by rewrite Edp|]. split; [done|]. unfold reset_rx, copy_in. mcbn.
    rewrite length_inserts. split; [done|]. by eexists (inpub_pkt_id (client s)), _.
  - destruct (Hnext ltac:(lia)) as [Has' Hi'].
    destruct (IH n rest _ b0 cs e ltac:(lia) ltac:(lia) ltac:(by intros E1; rewrite E1 in E0)
      Has' Hi' Hdata Ht Hq) as (chunks & lst & s' & E' & Hcat & Ht' & Hlog & Hm & Hlen & ix & l & Hcl).
    exists (d :: chunks), lst, s'. split; [exact E'|]. split.
    { cbn [concat]. rewrite <- app_assoc, Hcat. unfold rest. rewrite <- (take_drop (length d) p) at 2.
      f_equal. symmetry. apply take_chunk. }
    split; [by rewrite Ht'|]. split.
    { rewrite Hlog. mcbn. rewrite (proj2 (Z.eqb_neq _ _)) by lia. unfold copy_in. mcbn.
      by rewrite <- app_assoc. }
    split; [done|]. split; [rewrite Hlen; unfold copy_in; mcbn; by rewrite length_inserts|].
    exists ix, l. rewrite Hcl. done.
Qed.

(** ** The header *)

Definition rx_only s s' : Prop := exists i l, s' = on_client (set_rx i l) s.

Lemma rx_only_trans s1 s2 s3 : rx_only s1 s2 -> rx_only s2 s3 -> rx_only s1 s3.
Proof. intros (i & l & ->) (i' & l' & ->). by exists i', l'. Qed.

Lemma store_byte_rx_only x s : rx_only s (store_byte x s).
Proof. by eexists _, _. Qed.

Lemma read_prefix n p h2 : forall h b s,
  stored s h -> msg_idx (client s) = Z.of_nat (length h) -> last_is h b ->
  Forall continued (tail (h ++ h2)) -> (length (h ++ h2) <= 6)%nat ->
  Z.of_nat (length h2 + length p) < 65536 ->
  exists b' s', last_is (h ++ h2) b' /\ stored s' (h ++ h2) /\
    msg_idx (client s') = Z.of_nat (length (h ++ h2)) /\ rx_only s s' /\
    ploop (length h2 + n) (h2 ++ p) (len_of 0 (tail h)) (Z.of_nat (length h)) b s =
    ploop n p (len_of 0 (tail (h ++ h2))) (Z.of_nat (length (h ++ h2))) b' s'.
Proof.
  induction h2 as [|x h2 IH]; intros h b s Hst Hi Hb Hc Hl Hp.
  { exists b, s. rewrite app_nil_r. do 3 (split; [done|]). split; [|done].
    exists (msg_idx (client s)), (rx_buffer (client s)). by destruct s as [[] ? ?]. }
  assert (Forall continued (tail h)) as Hc1.
  { destruct h; [constructor|]. cbn [tail app] in *. by apply Forall_app in Hc as [? _]. }
  cbn [length Nat.add app] in *. rewrite length_app in Hl. cbn [length] in Hl.
  rewrite ploop_header by (done || (rewrite length_app; lia)).
  rewrite header_read_eq by lia. cbv zeta.
  assert (((1 <=? length h)%nat && (Z.land x 0x80 =? 0)) = false) as ->.
  { destruct h as [|b0 h]; [done|]. cbn [tail app] in Hc. apply Forall_app in Hc as [_ Hc].
    apply Forall_cons_1 in Hc as [Hx _]. unfold continued in Hx.
    by rewrite (proj2 (Z.eqb_neq _ _) Hx), andb_false_r. }
  replace (Z.of_nat (length h) + 1) with (Z.of_nat (length (h ++ [x]))) by (rewrite length_app; cbn; lia).
  assert (h ++ x :: h2 = (h ++ [x]) ++ h2) as Eh by by rewrite <- app_assoc.
  rewrite Eh in *.
  destruct (IH (h ++ [x]) x (store_byte x s)) as (b' & s' & H1 & H2 & H3 & H4 & H5).
  - apply stored_snoc; [done|done|lia].
  - unfold store_byte. mcbn. rewrite length_app, Hi. cbn [length]. lia.
  - intros _. apply last_snoc.
  - done.
  - rewrite !length_app in *. cbn [length] in *. lia.
  - lia.
  - exists b', s'. do 3 (split; [done|]). split; [|exact H5].
    eapply rx_only_trans; [apply store_byte_rx_only|done].
Qed.

Lemma read_header n p b b0 cs e s :
  length (rx_buffer (client s)) = 128%nat -> msg_idx (client s) = 0 ->
  Forall continued cs -> ~ continued e -> (length cs <= 3)%nat -> 0 < len_of 0 (cs ++ [e]) ->
  Z.of_nat (length p) < 65000 ->
  let h := b0 :: cs ++ [e] in
  exists s', stored s' h /\ msg_idx (client s') = Z.of_nat (length h) /\ rx_only s s' /\
    ploop (length h + n) (h ++ p) 0 0 b s =
    ploop n p (len_of 0 (cs ++ [e])) (Z.of_nat (length h)) e s'.
Proof.
  intros Hl Hi Hc He Hcs Hpos Hp h.
  destruct (read_prefix (S n) (e :: p) (b0 :: cs) [] b s) as (b' & s1 & H1 & H2 & H3 & H4 & H5).
  { split; [done|]. split; [done|cbn; lia]. } { done. } { apply last_is_nil. } { done. }
  { cbn [app length]. lia. } { cbn [length]. lia. }
  cbn [app] in *. exists (store_byte e s1).
  assert (stored (store_byte e s1) h) as Hst.
  { unfold h. rewrite app_comm_cons. apply stored_snoc; [done|done|cbn [length]; lia]. }
  assert (msg_idx (client (store_byte e s1)) = Z.of_nat (length h)) as Hm.
  { unfold store_byte, h. mcbn. rewrite H3. cbn [length]. rewrite length_app. cbn [length]. lia. }
  split; [done|]. split; [done|].
  split; [eapply rx_only_trans; [done|apply store_byte_rx_only]|].
  replace (length h + n)%nat with (length (b0 :: cs) + S n)%nat
    by (unfold h; cbn [length]; rewrite length_app; cbn [length]; lia).
  replace (h ++ p) with (b0 :: cs ++ e :: p) by (unfold h; cbn [app]; by rewrite <- app_assoc).
  etransitivity; [exact H5|]. rewrite ploop_header by (done || lia).
  rewrite header_read_eq by (cbn [length]; lia). cbv zeta. rewrite (not_continued e He).
  cbn [length Nat.leb andb app tail]. destruct (Z.eqb_spec (len_of 0 (cs ++ [e])) 0); [lia|].
  assert (Z.of_nat (length h) = Z.of_nat (S (length cs)) + 1) as Elen
    by (unfold h; cbn [length]; rewrite length_app; cbn [length]; lia).
  pose proof (len_of_range 0 (cs ++ [e])) as Hr. unfold is_u in Hr.
  rewrite Hm, <- Elen, u32_small by lia. f_equal. lia.
Qed.

(** ** The whole packet *)

Lemma publish_header_byte retain :
  MQTT_CTL_PACKET_TYPE (header_byte MQTT_MSG_TYPE_PUBLISH 0 0 retain) = MQTT_MSG_TYPE_PUBLISH /\
  MQTT_CTL_PACKET_QOS (header_byte MQTT_MSG_TYPE_PUBLISH 0 0 retain) = 0.
Proof.
  unfold header_byte. pose proof (land_ones_le retain 1 ltac:(lia)) as Hr.
  change (Z.ones 1) with 1 in Hr. change (2 ^ 1) with 2 in Hr.
  assert (Z.land retain 1 = 0 \/ Z.land retain 1 = 1) as [-> | ->] by lia; done.
Qed.

(** The first fragment holds the topic and some of the payload. *)
Lemma first_chunk fh topic payload :
  2 <= fh <= 6 -> fh + 3 + Z.of_nat (length topic) <= 128 -> payload <> [] ->
  exists x pay rest, chunk fh (utf8 topic ++ payload) = utf8 topic ++ x :: pay /\
    payload = (x :: pay) ++ rest /\
    drop (length (chunk fh (utf8 topic ++ payload))) (utf8 topic ++ payload) = rest /\
    (length pay <= 126)%nat.
Proof.
  intros Hf Ht Hne. set (k := (Z.to_nat (128 - fh) - length (utf8 topic))%nat).
  assert (length (utf8 topic) = 2 + length topic)%nat as Hu by (unfold utf8, be16; rewrite length_app; done).
  assert (chunk fh (utf8 topic ++ payload) = utf8 topic ++ take k payload) as Hc.
  { unfold chunk. rewrite take_app. rewrite take_ge by lia. done. }
  assert (0 < k <= 126)%nat as Hk by (unfold k; lia). clearbody k.
  rewrite Hc. destruct payload as [|x payload]; [done|]. destruct k as [|k]; [lia|].
  exists x, (take k payload), (drop k payload). cbn [take]. split; [done|].
  split; [cbn [app]; by rewrite take_drop|]. split; [|rewrite length_take; lia].
  rewrite length_app, drop_app_add. cbn [length]. rewrite length_take. cbn [drop].
  destruct (Nat.min_spec k (length payload)) as [[? ->]|[? ->]]; [done|]. by rewrite !drop_ge by lia.
Qed.

Lemma received_trans s s1 s2 s' evs1 evs2 i :
  rx_only s s1 -> length (rx_buffer (client s1)) = length (rx_buffer (client s)) ->
  (exists j l, client s2 = set_inpub_pkt_id i (set_rx j l (client s1))) -> tcp s2 = tcp s1 ->
  length (rx_buffer (client s2)) = length (rx_buffer (client s1)) ->
  log s2 = log s1 ++ evs1 -> received s2 evs2 s' -> received s (evs1 ++ evs2) s'.
Proof.
  intros (j0 & l0 & ->) Hl (j & l & Hc) Ht Hl2 Hlog (H1 & H2 & H3 & H4 & i2 & l2 & H5).
  split; [by rewrite H1, Ht|]. split; [rewrite H2, Hlog; mcbn; by rewrite <- app_assoc|].
  split; [done|]. split; [congruence|]. exists i2, l2. rewrite H5, Hc. done.
Qed.

Lemma deliver_first n s b0 cs e topic payload :
  at_start s b0 cs e (utf8 topic ++ payload) -> msg_idx (client s) = Z.of_nat (length (b0 :: cs ++ [e])) ->
  pub_cb (client s) = true -> data_cb (client s) = true ->
  MQTT_CTL_PACKET_TYPE b0 = MQTT_MSG_TYPE_PUBLISH -> MQTT_CTL_PACKET_QOS b0 = 0 ->
  (length cs <= 2)%nat -> Z.of_nat (length topic) <= 121 -> payload <> [] ->
  let fh := Z.of_nat (length (b0 :: cs ++ [e])) in
  let p := utf8 topic ++ payload in
  exists x pay rest s2, payload = (x :: pay) ++ rest /\
    ploop (S n) p (Z.of_nat (length p)) fh e s =
      (if (length rest =? 0)%nat then Some (Some (MQTT_CONNECT_ACCEPTED, reset_rx s2))
       else ploop n rest (Z.of_nat (length rest)) fh e s2) /\
    ((0 < length rest)%nat -> at_start s2 b0 cs e rest /\ 128 <= msg_idx (client s2)) /\
    client s2 = set_inpub_pkt_id 0 (client (copy_in fh (chunk fh p) s)) /\ tcp s2 = tcp s /\
    log s2 = log s ++ [EvPubCb (topic ++ [0]) (Z.of_nat (length payload));
      EvDataCb (x :: pay) (if Z.of_nat (length rest) =? 0 then MQTT_DATA_FLAG_LAST else 0)].
Proof.
  intros Has Hidx Hpub Hdata Ht Hq Hcs Htl Hne fh p. fold p in Has. fold fh in Hidx.
  assert (2 <= fh <= 4) as Hf by (unfold fh; cbn [length]; rewrite length_app; cbn [length]; lia).
  destruct (first_chunk fh topic payload ltac:(lia) ltac:(lia) Hne) as (x & pay & rest & Ec & Ep & Er & Hpay).
  fold p in Ec, Er. destruct (chunk_buffer s b0 cs e p Has) as (tl & Hbuf). fold fh in Hbuf.
  rewrite Ec, <- app_assoc in Hbuf. pose proof (as_short _ _ _ _ _ Has) as [Hs31 Hs16].
  assert (Z.of_nat (length payload) = Z.of_nat (length (x :: pay)) + Z.of_nat (length rest)) as Hlp
    by (rewrite Ep, length_app; lia).
  assert (length p = 2 + length topic + length payload)%nat as Hlenp
    by (unfold p, utf8, be16; rewrite !length_app; done).
  assert (Z.of_nat (length (chunk fh p)) = 2 + Z.of_nat (length topic) + Z.of_nat (length (x :: pay))) as Hd
    by (rewrite Ec; unfold utf8, be16; rewrite !length_app; cbn [length]; lia).
  destruct (publish_first (copy_in fh (chunk fh p) s) b0 (cs ++ [e]) topic x pay tl fh
    (Z.of_nat (length rest))) as (c' & E1 & Hc'); [by rewrite Ec|done|done| |done|done|lia|cbn [length] in *; lia|].
  { unfold copy_in. mcbn. unfold chunk. rewrite length_take. lia. }
  rewrite <- Hd in E1. replace (Z.of_nat (length rest) + Z.of_nat (length (x :: pay)))
    with (Z.of_nat (length payload)) in E1 by lia.
  apply (message_publish b0 (cs ++ [e] ++ utf8 topic ++ (x :: pay) ++ tl)) in E1;
    [|by rewrite Ec, Hbuf; cbn [app]; rewrite <- app_assoc|done].
  rewrite <- Er in E1 at 1. 
  destruct (chunk_step n s b0 cs e p _ Has ltac:(by destruct topic) E1) as [E Hnext].
  fold fh in E, Hnext. rewrite Er in E, Hnext.
  exists x, pay, rest. eexists. split; [done|]. split; [exact E|]. split; [exact Hnext|]. done.
Qed.

Lemma deliver_body n s b0 cs e topic payload :
  at_start s b0 cs e (utf8 topic ++ payload) -> msg_idx (client s) = Z.of_nat (length (b0 :: cs ++ [e])) ->
  pub_cb (client s) = true -> data_cb (client s) = true ->
  MQTT_CTL_PACKET_TYPE b0 = MQTT_MSG_TYPE_PUBLISH -> MQTT_CTL_PACKET_QOS b0 = 0 ->
  (length cs <= 2)%nat -> Z.of_nat (length topic) <= 121 -> payload <> [] ->
  (length (utf8 topic ++ payload) <= n)%nat ->
  exists chunks lst s',
    ploop n (utf8 topic ++ payload) (Z.of_nat (length (utf8 topic ++ payload)))
      (Z.of_nat (length (b0 :: cs ++ [e]))) e s = Some (Some (MQTT_CONNECT_ACCEPTED, s')) /\
    concat chunks ++ lst = payload /\
    received s (EvPubCb (topic ++ [0]) (Z.of_nat (length payload)) :: fragments chunks lst) s'.
Proof.
  intros Has Hidx Hpub Hdata Ht Hq Hcs Htl Hne Hn. destruct n as [|n].
  { unfold utf8, be16 in Hn. rewrite !length_app in Hn. cbn in Hn. lia. }
  destruct (deliver_first n s b0 cs e topic payload) as (x & pay & rest & s2 & Ep & -> & Hnext & Hc & Ht2 & Hlog);
    try done.
  set (fh := Z.of_nat (length (b0 :: cs ++ [e]))) in *. set (p := utf8 topic ++ payload) in *.
  assert (length (rx_buffer (client s2)) = length (rx_buffer (client s))) as Hl
    by (rewrite Hc; unfold copy_in; mcbn; apply length_inserts).
  assert (exists j l, client s2 = set_inpub_pkt_id 0 (set_rx j l (client s))) as Hcl
    by (rewrite Hc; by eexists _, _).
  assert (rx_only s s) as Hrx.
  { exists (msg_idx (client s)), (rx_buffer (client s)). by destruct s as [[] ? ?]. }
  destruct (Nat.eqb_spec (length rest) 0) as [E0|E0].
  - destruct rest; [|done]. rewrite app_nil_r in Ep. exists [], payload, (reset_rx s2).
    split; [done|]. split; [done|]. destruct Hcl as (j & l & Hcl). split; [done|]. split.
    { unfold reset_rx. mcbn. by rewrite Hlog, <- Ep. }
    split; [done|]. split; [done|]. exists 0. eexists. unfold reset_rx. mcbn. rewrite Hcl. done.
  - destruct (Hnext ltac:(lia)) as [Has2 Hidx2].
    destruct (deliver_rest (length rest) n rest s2 b0 cs e) as (chunks & lst & s' & E' & Hcat & Hrec); try done.
    + unfold p, utf8, be16 in Hn. rewrite Ep, !length_app in Hn. cbn [length] in Hn. lia.
    + by intros ->.
    + destruct Hcl as (j & l & ->). done.
    + exists ((x :: pay) :: chunks), lst, s'. split; [exact E'|]. split.
      { cbn [concat]. rewrite <- app_assoc, Hcat. done. }
      apply (received_trans s s s2 s' [EvPubCb (topic ++ [0]) (Z.of_nat (length payload)); EvDataCb (x :: pay) 0]
        (fragments chunks lst) 0); try done. by rewrite Hlog, (proj2 (Z.eqb_neq _ _)) by lia.
Qed.

Lemma publish_delivered (s : mstate T) (topic payload : list Z) (retain : Z) :
  length (rx_buffer (client s)) = 128%nat -> msg_idx (client s) = 0 ->
  pub_cb (client s) = true -> data_cb (client s) = true ->
  Z.of_nat (length topic) <= 121 -> payload <> [] -> Z.of_nat (length payload) < 60000 ->
  exists chunks lst s',
    mqtt_parse_incoming (publish_packet topic payload 0 retain 0) s = Some (MQTT_CONNECT_ACCEPTED, s') /\
    concat chunks ++ lst = payload /\
    received s (EvPubCb (topic ++ [0]) (Z.of_nat (length payload)) :: fragments chunks lst) s'.
Proof.
  intros Hl Hi Hpub Hdata Htl Hne Hlen. set (body := utf8 topic ++ payload).
  assert (Z.of_nat (length body) = 2 + Z.of_nat (length topic) + Z.of_nat (length payload)) as Hb
    by (unfold body, utf8, be16; rewrite !length_app; cbn [length]; lia).
  change (publish_packet topic payload 0 retain 0)
    with (fixed_header MQTT_MSG_TYPE_PUBLISH 0 0 retain (Z.of_nat (length body)) ++ body).
  unfold fixed_header. set (b0 := header_byte MQTT_MSG_TYPE_PUBLISH 0 0 retain).
  destruct (length_bytes_decode 3 0 (Z.of_nat (length body))) as (cs & e & -> & Hc & He & Hd & Hcs);
    [change (2 ^ (7 * Z.of_nat 3)) with 2097152; lia|lia|lia|].
  change (7 * Z.of_nat 0) with 0 in Hd. rewrite Z.shiftl_0_r in Hd.
  destruct (publish_header_byte retain) as [Ht Hq]. fold b0 in Ht, Hq.
  rewrite parse_incoming_ploop. set (h := b0 :: cs ++ [e]).
  assert (2 <= Z.of_nat (length h) <= 4) as Hh by (unfold h; cbn [length]; rewrite length_app; cbn; lia).
  destruct (read_header (length body + 8) body 0 b0 cs e s) as (s1 & Hst & Hm & Hrx & E);
    [done|done|done|done|lia|rewrite Hd; lia|lia|]. fold h in Hst, Hm, E.
  replace (length (h ++ body) + 8)%nat with (length h + (length body + 8))%nat by (rewrite length_app; lia).
  rewrite E, Hd. destruct Hrx as (i1 & l1 & Es1).
  assert (at_start s1 b0 cs e body) as Has.
  { split; fold h; [split; try done; fold h; lia|lia| |lia].
    unfold cpy_start. rewrite Hm, Z.sub_diag, Z.mod_0_l by lia. lia. }
  destruct (deliver_body (length body + 8) s1 b0 cs e topic payload) as (chunks & lst & s' & E' & Hcat & Hrec);
    try done; try (by rewrite Es1); try (unfold body; lia).
  fold h body in E'. rewrite E'. exists chunks, lst, s'. split; [done|]. split; [done|].
  destruct Hrec as (H1 & H2 & H3 & H4 & i2 & l2 & H5). rewrite Es1 in *.
  split; [done|]. split; [done|]. split; [done|].
  split; [rewrite H4; destruct Hst as (-> & _); done|]. by exists i2, l2.
Qed.

(** C7: An incoming QoS 0 PUBLISH packet with a topic of at most 121 bytes and a
    payload of at least one and less than 60000 bytes is accepted and leads to
    one publish callback, with the terminated topic and the length of the
    payload, followed by data callbacks whose contents concatenate to the
    payload, the last one and only that one flagged; nothing is sent, and the
    parser is ready for the next packet.  An empty payload is refused
    ([mqtt_empty_publish_rejected]). *)
Theorem mqtt_publish_delivered (s : mstate T) (topic payload : list Z) (retain : Z) :
  length (rx_buffer (client s)) = 128%nat -> msg_idx (client s) = 0 ->
  pub_cb (client s) = true -> data_cb (client s) = true ->
  Z.of_nat (length topic) <= 121 -> payload <> [] -> Z.of_nat (length payload) < 60000 ->
  exists chunks lst s',
    mqtt_parse_incoming (publish_packet topic payload 0 retain 0) s = Some (MQTT_CONNECT_ACCEPTED, s') /\
    concat chunks ++ lst = payload /\
    received s (EvPubCb (topic ++ [0]) (Z.of_nat (length payload)) :: fragments chunks lst) s'.
Proof. apply publish_delivered. Qed.

(** A message that fits the buffer is handled in one call. *)
Lemma small_message s b0 cs e p :
  length (rx_buffer (client s)) = 128%nat -> msg_idx (client s) = 0 ->
  Forall continued cs -> ~ continued e -> (length cs <= 2)%nat ->
  len_of 0 (cs ++ [e]) = Z.of_nat (length p) -> (0 < length p <= 124)%nat ->
  let h := b0 :: cs ++ [e] in
  exists s1 rest, rx_only s s1 /\ rx_buffer (client s1) = h ++ p ++ rest /\
    length (rx_buffer (client s1)) = 128%nat /\
    msg_idx (client s1) = Z.of_nat (length h + length p) /\
    mqtt_parse_incoming (h ++ p) s =
      match mqtt_message_received (Z.of_nat (length h)) (Z.of_nat (length p)) 0 s1 with
      | Some (res, s2) => Some (res, if res =? MQTT_CONNECT_ACCEPTED then reset_rx s2 else s2)
      | None => None
      end.
Proof.
  intros Hl Hi Hc He Hcs Hd Hp h.
  assert (2 <= Z.of_nat (length h) <= 4) as Hh by (unfold h; cbn [length]; rewrite length_app; cbn; lia).
  destruct (read_header (length p + 8) p 0 b0 cs e s) as (s1 & Hst & Hm & Hrx & E);
    [done|done|done|done|lia|lia|lia|]. fold h in Hst, Hm, E.
  assert (at_start s1 b0 cs e p) as Has.
  { split; fold h; [split; try done; fold h; lia|lia| |lia].
    unfold cpy_start. rewrite Hm, Z.sub_diag, Z.mod_0_l by lia. lia. }
  assert (chunk (Z.of_nat (length h)) p = p) as Ech by (unfold chunk; apply take_ge; lia).
  destruct (chunk_buffer s1 b0 cs e p Has) as (rest & Hbuf). fold h in Hbuf. rewrite Ech in Hbuf.
  exists (copy_in (Z.of_nat (length h)) p s1), rest.
  split; [eapply rx_only_trans; [done|]; by eexists _, _|]. split; [done|].
  split; [destruct Hst as (Hl1 & _); unfold copy_in; mcbn; by rewrite length_inserts|].
  split; [unfold copy_in; mcbn; lia|].
  rewrite parse_incoming_ploop.
  replace (length (h ++ p) + 8)%nat with (length h + (length p + 8))%nat by (rewrite length_app; lia).
  rewrite E, Hd. replace (length p + 8)%nat with (S (length p + 7)) by lia.
  destruct Has as [[_ _ _ Hidx] Hfit Ha _]. fold h in Hidx, Hfit, Ha.
  rewrite ploop_body; [|apply Hst|lia|lia|done|lia|lia|unfold is_u; lia|by destruct p; [cbn in Hp; lia|]].
  assert (cpy_len p (Z.of_nat (length p)) (Z.of_nat (length h)) s1 = Z.of_nat (length p)) as ->
    by (unfold cpy_len; rewrite Ha; lia).
  rewrite Ha, Nat2Z.id, firstn_all, drop_all, Z.sub_diag.
  replace (Z.of_nat (length h) + Z.of_nat (length p) - Z.of_nat (length h)) with (Z.of_nat (length p)) by lia.
  unfold body_next. rewrite Z.eqb_refl. cbn [orb].
  destruct (mqtt_message_received _ _ _ _) as [[res s2]|]; [|done].
  destruct (Z.eqb_spec res MQTT_CONNECT_ACCEPTED) as [->|]; cbn [negb]; [|done]. by rewrite ploop_nil.
Qed.

Lemma small_header n :
  0 <= n < 128 -> len_of 0 ([] ++ [n]) = n /\ ~ continued n.
Proof.
  intros Hn. cbn [app len_of]. rewrite Z.lor_0_r, land_7f by lia.
  change (7 * Z.of_nat 0) with 0. rewrite Z.shiftl_0_r, u32_small by lia.
  split; [done|]. unfold continued. rewrite land_small_80 by lia. lia.
Qed.

(** A PUBLISH packet whose topic length field is 65534 or 65535 passes the
    length check, because the 16-bit sum with the two bytes of the field wraps,
    and the terminating zero is then written 64 kilobytes past the receive
    buffer. *)
Theorem mqtt_topic_length_wraps (s : mstate T) (lo : Z) (x : Z) :
  length (rx_buffer (client s)) = 128%nat -> msg_idx (client s) = 0 -> lo = 254 \/ lo = 255 ->
  mqtt_parse_incoming [0x30; 3; 0xff; lo; x] s = None.
Proof.
  intros Hl Hi Hlo. destruct (small_header 3 ltac:(lia)) as [Hd He].
  destruct (small_message s 0x30 [] 3 [0xff; lo; x]) as (s1 & rest & _ & Hbuf & Hl1 & Hm & E);
    [done|done|constructor|done|cbn; lia|done|cbn; lia|].
  cbn [app length] in *. rewrite E. unfold mqtt_message_received, publish_received.
  assert (forall i b, 0 <= i -> rx_buffer (client s1) !! Z.to_nat i = Some b -> rx i s1 = Some b) as Hrx
    by (intros i b Hi0 Hb; unfold rx; by destruct (Z.leb_spec 0 i); [|lia]).
  rewrite (Hrx 0 0x30) by (rewrite ?Hbuf; done). cbv zeta.
  change (MQTT_CTL_PACKET_TYPE 0x30) with 3. change (MQTT_CTL_PACKET_QOS 0x30) with 0. cbn [Z.eqb Pos.eqb].
  destruct (Z.leb_spec (msg_idx (client s1)) MQTT_VAR_HEADER_BUFFER_LEN) as [_|Hc];
    [|rewrite Hm in Hc; unfold MQTT_VAR_HEADER_BUFFER_LEN in Hc; lia].
  rewrite (Hrx (Z.of_nat 2) 0xff), (Hrx (Z.of_nat 2 + 1) lo) by (rewrite ?Hbuf; done || lia).
  assert (forall t : mstate T, rx_buffer (client t) = rx_buffer (client s1) ->
    rx (Z.of_nat 2 + 2 + u16 (Z.shiftl 0xff 8 + lo)) t = None) as Hout.
  { intros t Ht. unfold rx. rewrite Ht.
    assert (65534 <= u16 (Z.shiftl 0xff 8 + lo)) as Hbig by (destruct Hlo as [-> | ->]; vm_compute; done).
    destruct (0 <=? _); [|done]. apply lookup_ge_None. lia. }
  match goal with |- context [?a <? ?b + ?c] =>
    replace (a <? b + c) with false by (by destruct Hlo as [-> | ->]; vm_compute) end.
  change (0 <? 0) with false. cbv beta iota. by rewrite Hout.
Qed.

(** A QoS 0 PUBLISH without payload, which MQTT allows, is rejected: the
    length check wants a byte after the topic for the terminating zero, so the
    parser reports [MQTT_CONNECT_DISCONNECTED], on which the connection is
    closed; no callback sees the message. *)
Theorem mqtt_empty_publish_rejected (s : mstate T) (topic : list Z) (retain : Z) :
  length (rx_buffer (client s)) = 128%nat -> msg_idx (client s) = 0 -> Z.of_nat (length topic) <= 121 ->
  exists s', mqtt_parse_incoming (publish_packet topic [] 0 retain 0) s
    = Some (MQTT_CONNECT_DISCONNECTED, s') /\ log s' = log s.
Proof.
  intros Hl Hi Htl. set (n := 2 + Z.of_nat (length topic)).
  assert (Z.of_nat (length (utf8 topic)) = n) as Hn
    by (unfold n, utf8, be16; rewrite length_app; cbn [length]; lia).
  assert (publish_packet topic [] 0 retain 0
    = (header_byte MQTT_MSG_TYPE_PUBLISH 0 0 retain :: [] ++ [n]) ++ utf8 topic) as ->.
  { unfold publish_packet, fixed_header. change (0 <? 0) with false. cbn [app]. rewrite app_nil_r, Hn.
    f_equal. cbn [length_bytes]. destruct (Z.leb_spec 128 n); [unfold n in *; lia|].
    rewrite Z.lor_0_r, land_7f, Z.shiftr_div_pow2, Z.div_small by (unfold n; lia). done. }
  destruct (small_header n ltac:(unfold n; lia)) as [Hd He]. destruct (publish_header_byte retain) as [Ht Hq].
  set (b0 := header_byte MQTT_MSG_TYPE_PUBLISH 0 0 retain) in *.
  destruct (small_message s b0 [] n (utf8 topic)) as (s1 & rest & (ix & l & Hs1) & Hbuf & Hl1 & Hm & E);
    [done|done|constructor|done|cbn; lia|by rewrite Hd|unfold n in *; lia|].
  rewrite E. unfold mqtt_message_received, publish_received.
  rewrite (rx_middle s1 [] b0 _ 0 Hbuf eq_refl). cbv zeta. rewrite Ht, Hq.
  change (MQTT_MSG_TYPE_PUBLISH =? MQTT_MSG_TYPE_CONNACK) with false.
  change (MQTT_MSG_TYPE_PUBLISH =? MQTT_MSG_TYPE_PINGRESP) with false.
  change (MQTT_MSG_TYPE_PUBLISH =? MQTT_MSG_TYPE_PUBLISH) with true. cbv iota.
  destruct (Z.leb_spec (msg_idx (client s1)) MQTT_VAR_HEADER_BUFFER_LEN) as [_|Hc];
    [|rewrite Hm in Hc; unfold MQTT_VAR_HEADER_BUFFER_LEN in Hc; cbn [app length] in Hc; lia].
  set (hi := Z.shiftr (Z.of_nat (length topic)) 8). set (lo := Z.land (Z.of_nat (length topic)) 0xff).
  assert (rx_buffer (client s1) = [b0; n] ++ hi :: lo :: topic ++ rest) as Hbuf1
    by (rewrite Hbuf; unfold utf8, be16; done).
  rewrite (rx_middle s1 [b0; n] hi (lo :: topic ++ rest) (Z.of_nat (length (b0 :: [] ++ [n]))) Hbuf1 eq_refl).
  rewrite (rx_middle s1 [b0; n; hi] lo (topic ++ rest) (Z.of_nat (length (b0 :: [] ++ [n])) + 1) Hbuf1 eq_refl).
  unfold hi, lo. rewrite hi_lo, u16_small by (unfold is_u; lia).
  rewrite Hn. unfold n at 1. destruct (Z.ltb_spec (2 + Z.of_nat (length topic))
    (2 + Z.of_nat (length topic) + (if truthy 0 then 2 else 1))) as [_|Hc]; [|cbn in Hc; lia].
  exists s1. split; [done|]. by rewrite Hs1.
Qed.
End Deliver.

(** ** Samples *)

Lemma mqtt_parse_segments_witness :
  mqtt_parse_incoming ([0x30; 5; 0] ++ [1; 116; 7; 8]) sample_state =
    match mqtt_parse_incoming [0x30; 5; 0] sample_state with
    | Some (res, s1) => if res =? MQTT_CONNECT_ACCEPTED then mqtt_parse_incoming [1; 116; 7; 8] s1 else Some (res, s1)
    | None => None
    end.
Proof.
  apply mqtt_parse_segments; [|done|done|done].
  exists 0, 0, 0. apply (rx_header sample_state []); [by repeat split; cbn; lia|constructor|apply last_is_nil|done].
Defined.

Definition sample_bytes : list Z := [0x30; 5; 0; 1; 116; 7; 8].

Lemma mqtt_parse_terminates_witness :
  parse_loop (length sample_bytes + 8) sample_bytes (Locals 0 0 0 0) sample_state <> None.
Proof.
  destruct (mqtt_parse_terminates sample_state sample_bytes) as [H _]; [|done|done|done|exact H].
  exists 0, 0, 0. apply (rx_header sample_state []); [by repeat split; cbn; lia|constructor|apply last_is_nil|done].
Defined.

Lemma mqtt_publish_delivered_witness :
  exists chunks lst s',
    mqtt_parse_incoming (publish_packet [116] (repeat 7 200) 0 0 0) sample_state
      = Some (MQTT_CONNECT_ACCEPTED, s') /\ concat chunks ++ lst = repeat 7 200.
Proof.
  destruct (mqtt_publish_delivered sample_state [116] (repeat 7 200) 0)
    as (chunks & lst & s' & E & Hc & _); [done|done|done|done|done|done|done|].
  exists chunks, lst, s'. split; [exact E|exact Hc].
Defined.

Lemma mqtt_topic_length_wraps_witness :
  mqtt_parse_incoming [0x30; 3; 0xff; 0xff; 0] sample_state = None.
Proof. apply mqtt_topic_length_wraps; [done|done|by right]. Defined.

Lemma mqtt_empty_publish_rejected_witness :
  exists s', mqtt_parse_incoming [0x30; 3; 0; 1; 116] sample_state = Some (MQTT_CONNECT_DISCONNECTED, s').
Proof.
  destruct (mqtt_empty_publish_rejected sample_state [116] 0) as (s' & E & _); [done|done|done|].
  exists s'. exact E.
Defined.
