(* ===== verification/MqttState.v ===== *)
(** * The MQTT connection as a state machine

    Every call of the application and every callback of TCP and of the timer is a
    step; the client's invariant holds in all reachable states.  Connection
    acknowledgement, completion of requests, connect timeout and keep-alive. *)

From Stdlib Require Import ZArith Lia.
From stdpp Require Import base list option numbers relations.
From S2P Require Import Prelude MqttRing MqttReq Mqtt MqttInv MqttSend MqttParse MqttDeliver.
From stdpp Require Import sets list.
Import OptionNotations.

Local Open Scope Z_scope.

(** ** Taking a request out of the queue *)

Lemma take_result q pkt reqs i q' reqs' :
  mqtt_take_request q pkt reqs = Some (Some i, q', reqs') ->
  exists r, reqs !! i = Some r /\ reqs' !! i = Some (set_next None r).
Proof.
  unfold mqtt_take_request. intros E. repeat (case_match; simplify_eq; try done).
  all: eexists; (split; [done|]); apply list_lookup_insert_eq; rewrite ?length_insert.
  all: by eapply lookup_lt_Some.
Qed.

Section State.
Context {T : Type} {tops : TcpOps T} {tlaws : TcpLaws T} {tconn : TcpConnOps T}.
Implicit Types s : mstate T.

(** An open connection whose client is in order. *)
Definition open_ok s : Prop := (exists l ex, client_ok (client s) l ex) /\ conn (client s) = true.

(** Fields the invariant does not look at. *)
Definition minor_change (c c' : mqtt_client_t) : Prop :=
  pkt_id_seq c' = pkt_id_seq c /\ output c' = output c /\
  length (rx_buffer c') = length (rx_buffer c) /\ conn c' = conn c /\
  (conn_state c' =? TCP_DISCONNECTED) = (conn_state c =? TCP_DISCONNECTED) /\
  pend_req_queue c' = pend_req_queue c /\ req_list c' = req_list c.

Lemma minor_ok c c' l ex : client_ok c l ex -> minor_change c c' -> client_ok c' l ex.
Proof.
  intros Hok (E1 & E2 & E3 & E4 & E5 & E6 & E7). apply (client_ok_set c); try done.
  rewrite E1. apply Hok.
Qed.

Lemma minor_open s s' : open_ok s -> minor_change (client s) (client s') -> open_ok s'.
Proof.
  intros [(l & ex & Hok) Hc] Hm. split; [exists l, ex; by eapply minor_ok|].
  by destruct Hm as (_ & _ & _ & -> & _).
Qed.

Lemma response_ok msg id q s r s' l ex :
  client_ok (client s) l ex -> pub_ack_rec_rel_response msg id q s = Some (r, s') ->
  client_ok (client s') l ex /\ conn (client s') = conn (client s).
Proof.
  intros Hok. unfold pub_ack_rec_rel_response.
  destruct (mqtt_output_check_space _ 2) as [[]|] eqn:E; [| |done].
  2: by intros [= <- <-].
  pose proof (check_space_fits _ 2 msg 0 q 0 (ok_ring _ _ _ Hok) ltac:(lia) E) as Hfit.
  rewrite append_fixed_header_buf by done. rewrite append_u16_buf, append_buf_app.
  match goal with |- context [mqtt_output_append_buf ?l0 ?rb0] =>
    assert (ring_wf (mqtt_output_append_buf l0 rb0)) as Hw
      by (apply append_buf_contents; [apply Hok|rewrite length_app; cbn [length]; lia]);
    set (rb := mqtt_output_append_buf l0 rb0) in *; clearbody rb end.
  unfold send_output. mcbn. destruct (conn (client s)) eqn:Hc; [|done]. intros [= <- <-].
  destruct (output_send_client (on_client (set_output rb) s) l ex) as (Hok2 & _ & (rb2 & E2) & _);
    [by apply client_ok_output|]. split; [done|]. by rewrite E2.
Qed.

Lemma response_open msg id q s r s' :
  open_ok s -> pub_ack_rec_rel_response msg id q s = Some (r, s') -> open_ok s'.
Proof.
  intros [(l & ex & Hok) Hc] E. eapply response_ok in E as [Hok' Hc']; [|exact Hok].
  split; [by exists l, ex|by rewrite Hc'].
Qed.

Lemma publish_received_ok fh len rem s s' ok :
  open_ok s -> publish_received fh len rem s = Some (s', ok) -> open_ok s'.
Proof.
  intros Hs. unfold publish_received. destruct (rx 0 s) as [b0|]; [|done]. cbv zeta. intros E.
  match type of E with (let? _ := ?c in _) = _ => destruct c as [[[[s1 po] pl] ok1]|] eqn:E1; [|done] end.
  assert (open_ok s1) as H1.
  { destruct (msg_idx (client s) <=? MQTT_VAR_HEADER_BUFFER_LEN); [|by simplify_eq].
    destruct (rx fh s) as [t0|]; [|done]. destruct (rx (fh + 1) s) as [t1|]; [|done].
    destruct (len <? _); [by simplify_eq|].
    match type of E1 with (let? _ := ?c in _) = _ => destruct c as [[s2 at2]|] eqn:E2; [|done] end.
    assert (open_ok s2) as H2.
    { destruct (0 <? MQTT_CTL_PACKET_QOS b0); [|simplify_eq; by eapply minor_open].
      destruct (rx (fh + u16 (2 + _)) s); [|done]. destruct (rx (fh + u16 (2 + _) + 1) s); [|done].
      simplify_eq. by eapply minor_open. }
    destruct (rx _ s2) as [bkp|] eqn:Eb; [|done].
    destruct (set_rx_byte _ 0 s2) as [s3|] eqn:E3; [|done].
    destruct (rx_slice _ _ s3) as [name|]; [|done].
    match type of E1 with (let? _ := set_rx_byte _ _ ?x in _) = _ => set (s4 := x) in E1 end.
    destruct (set_rx_byte _ bkp s4) as [s5|] eqn:E5; [|done]. simplify_eq.
    apply set_rx_byte_inv in E3 as (_ & _ & ->). apply set_rx_byte_inv in E5 as (_ & _ & ->).
    apply (minor_open s2); [done|]. unfold minor_change, s4. destruct (pub_cb _); mcbn;
      by rewrite !length_insert. }
  clear E1. repeat (case_match; simplify_eq; try done).
  all: try (by apply (minor_open s1)).
  all: match goal with H : pub_ack_rec_rel_response _ _ _ _ = _ |- _ =>
         eapply response_open; [|exact H]; by apply (minor_open s1) end.
Qed.

(** Completing a request: it leaves the queue, its callback runs. *)
Lemma complete_ok s l ex pkt i q reqs s1 :
  client_ok (client s) l ex -> conn (client s) = true ->
  mqtt_take_request (pend_req_queue (client s)) pkt (req_list (client s)) = Some (Some i, q, reqs) ->
  minor_change (set_requests q reqs (client s)) (client s1) ->
  exists l1 l2 reqs', l = l1 ++ i :: l2 /\ client_ok (client s1) (l1 ++ l2) (i :: ex) /\
    mqtt_delete_request (Some i) (req_list (client s1)) = Some reqs' /\
    client_ok (set_requests (pend_req_queue (client s1)) reqs' (client s1)) (l1 ++ l2) ex.
Proof.
  intros Hok Hc E Hm. pose proof (ok_reqs _ _ _ Hok Hc) as Hrq.
  destruct (reqs_ok_take _ _ _ _ pkt Hrq) as (o & q' & reqs1 & E' & Ho).
  rewrite E in E'. simplify_eq. destruct Ho as (l1 & l2 & -> & Hrq1 & Hi).
  destruct (reqs_ok_delete _ _ _ _ _ Hrq1 Hi) as (reqs2 & Ed & Hrq2).
  destruct Hm as (E1 & E2 & E3 & E4 & E5 & E6 & E7). mcbn in *.
  exists l1, l2, reqs2. split; [done|]. rewrite E7.
  destruct Hok as [H0 H1 H2 H3 H4 H5].
  split; [|split; [done|]]; split; mcbn; rewrite ?E1, ?E2, ?E3, ?E4, ?E5, ?E6, ?E7; try done;
    intros; congruence.
Qed.

Lemma message_received_ok fh len rem s res s' :
  open_ok s -> mqtt_message_received fh len rem s = Some (res, s') -> open_ok s'.
Proof.
  intros Hs E. unfold mqtt_message_received in E.
  destruct (rx 0 s) as [b0|]; [|done]. cbv zeta in E.
  destruct (_ =? MQTT_MSG_TYPE_CONNACK).
  { destruct (Z.eqb_spec (conn_state (client s)) MQTT_CONNECTING) as [Ecs|]; [|by simplify_eq].
    destruct (rx _ s) as [b|]; [|done]. destruct (b =? _); simplify_eq; [|done].
    apply (minor_open s); [done|]. unfold minor_change.
    destruct (connect_cb _); mcbn; by rewrite Ecs. }
  destruct (_ =? MQTT_MSG_TYPE_PINGRESP); [by simplify_eq|].
  destruct (_ =? MQTT_MSG_TYPE_PUBLISH).
  { destruct (publish_received _ _ _ _) as [[s1 ok]|] eqn:Ep; [|done]. simplify_eq.
    by eapply publish_received_ok. }
  destruct (rx fh s) as [p0|]; [|done]. destruct (rx (fh + 1) s) as [p1|]; [|done].
  destruct (_ =? 0); [by simplify_eq|].
  destruct (_ =? MQTT_MSG_TYPE_PUBREC); [|destruct (_ =? MQTT_MSG_TYPE_PUBREL)].
  1-2: destruct (pub_ack_rec_rel_response _ _ _ _) as [[r s1]|] eqn:Er; [|done]; simplify_eq;
    by eapply response_open.
  destruct (_ || _); [|by simplify_eq]. destruct Hs as [(l & ex & Hok) Hc].
  destruct (mqtt_take_request _ _ _) as [[[[i|] q] reqs]|] eqn:Et; [| |done].
  2: { simplify_eq. destruct (reqs_ok_take _ _ _ _ (Z.lor (u16 (Z.shiftl p0 8)) p1) (ok_reqs _ _ _ Hok Hc))
         as (o & q' & reqs' & E' & Ho). rewrite Et in E'. simplify_eq. destruct Ho as (-> & -> & _).
       apply (minor_open s); [by split; [exists l, ex|]|done]. }
  destruct (reqs !! i) as [r|] eqn:Er; [|done].
  match type of E with (let? _ := ?c in _) = _ => destruct c as [[s1 ok]|] eqn:E1; [|done] end.
  assert (minor_change (set_requests q reqs (client s)) (client s1)) as Hm.
  { repeat (case_match; simplify_eq; try done). all: unfold mqtt_incomming_suback; by repeat case_match. }
  destruct (complete_ok s l ex _ i q reqs s1 Hok Hc Et Hm) as (l1 & l2 & reqs' & -> & Hok1 & Ed & Hok2).
  destruct Hm as (_ & _ & _ & Hm & _). mcbn in *.
  destruct ok; cbn [negb] in E.
  - rewrite Ed in E. simplify_eq. split; [by exists (l1 ++ l2), ex|]. mcbn. by rewrite Hm.
  - simplify_eq. split; [by exists (l1 ++ l2), (i :: ex)|]. by rewrite Hm.
Qed.

(** ** Callbacks preserve the invariant *)

Lemma set_rx_open s i l :
  open_ok s -> length l = length (rx_buffer (client s)) ->
  open_ok (on_client (fun c => set_rx i l c) s).
Proof. intros Hs Hl. apply (minor_open s); [done|]. unfold minor_change. by mcbn. Qed.

Lemma header_byte_read_ok x r f s s' r' f' :
  open_ok s -> header_byte_read x r f s = Some (s', r', f') -> open_ok s'.
Proof.
  intros Hs Eh. unfold header_byte_read in Eh.
  destruct (2 <=? f); [|by simplify_eq]. destruct (32 <=? _); [done|].
  destruct (_ =? 0); [|by simplify_eq]. destruct (_ =? 0); [|by simplify_eq].
  destruct (mqtt_message_received f 0 0 s) as [[res st1]|] eqn:Em; [|done]. simplify_eq.
  apply message_received_ok in Em; [|done]. by apply (minor_open st1).
Qed.

Lemma parse_header_ok p v s s' v' : open_ok s -> parse_header p v s = Some (s', v') -> open_ok s'.
Proof.
  intros Hs E. destruct v as [off rem fh b]. rewrite parse_header_eq in E.
  destruct (fh <? msg_idx (client s)).
  - destruct (rx fh s) as [x|]; [|done].
    destruct (header_byte_read _ _ _ _) as [[[st r] f]|] eqn:Eh; [|done]. simplify_eq.
    by eapply header_byte_read_ok.
  - destruct (p !! _) as [x|]; [|done]. destruct (set_rx_byte _ x s) as [s1|] eqn:E1; [|done].
    destruct (header_byte_read _ _ _ _) as [[[st r] f]|] eqn:Eh; [|done]. simplify_eq.
    eapply header_byte_read_ok; [|exact Eh]. apply set_rx_byte_inv in E1 as (_ & _ & ->).
    apply (minor_open s); [done|]. unfold minor_change. mcbn. by rewrite length_insert.
Qed.

Lemma parse_body_ok p v s r :
  open_ok s -> parse_body p v s = Some r ->
  match r with inl (s', _) => open_ok s' | inr (_, s') => open_ok s' end.
Proof.
  intros Hs E. unfold parse_body in E. destruct (rx_slice _ _ s) as [d|]; [|done].
  match type of E with context [on_client ?f s] => assert (open_ok (on_client f s)) as H1;
    [|set (s1 := on_client f s) in *; clearbody s1] end.
  { apply (minor_open s); [done|]. unfold minor_change. mcbn. by rewrite length_inserts. }
  destruct (_ || _); [|by simplify_eq].
  destruct (mqtt_message_received _ _ _ _) as [[res s2]|] eqn:Em; [|done].
  apply message_received_ok in Em; [|done].
  destruct (negb _); [by simplify_eq|]. destruct (_ =? 0); simplify_eq; [|done]. by apply (minor_open s2).
Qed.

Lemma parse_loop_ok fuel : forall p v s res s',
  open_ok s -> parse_loop fuel p v s = Some (Some (res, s')) -> open_ok s'.
Proof.
  induction fuel as [|fuel IH]; intros p v s res s' Hs E; cbn [parse_loop] in E.
  all: destruct (_ <=? in_offset v); [by simplify_eq|]; try done.
  destruct (_ || _).
  - destruct (parse_header p v s) as [[s1 v1]|] eqn:Eh; [|done].
    eapply IH; [|exact E]. by eapply parse_header_ok.
  - destruct (parse_body p v s) as [[[s1 v1]|[r1 s1]]|] eqn:Eb; [| |done];
      apply parse_body_ok in Eb; [|done| |done].
    + by eapply IH.
    + by simplify_eq.
Qed.

Definition inv s : Prop := exists l ex, client_ok (client s) l ex.

Lemma open_inv s : open_ok s -> inv s.
Proof. by intros [H _]. Qed.

Lemma minor_inv s s' : inv s -> minor_change (client s) (client s') -> inv s'.
Proof. intros (l & ex & H) Hm. exists l, ex. by eapply minor_ok. Qed.

Lemma close_inv reason s s' : closable (client s) -> mqtt_close reason s = Some s' -> inv s'.
Proof.
  intros Hc E. destruct (close_spec reason s Hc) as (s1 & E1 & Hok & _). rewrite E in E1.
  simplify_eq. by exists [], [].
Qed.

Lemma inv_closable s : inv s -> closable (client s).
Proof. intros (l & ex & H). by eapply client_ok_closable. Qed.

Lemma recv_inv p err s r s' : inv s -> mqtt_tcp_recv_cb p err s = Some (r, s') -> inv s'.
Proof.
  intros Hs E. unfold mqtt_tcp_recv_cb in E. destruct (conn (client s)) eqn:Hc; [|done]. cbn [negb] in E.
  destruct p as [p|].
  2: { destruct (mqtt_close _ s) as [s1|] eqn:E1; [|done]. simplify_eq.
       eapply close_inv; [|exact E1]. by apply inv_closable. }
  destruct (negb (err =? ERR_OK)); [simplify_eq; by apply (minor_inv s)|].
  destruct (mqtt_parse_incoming _ _) as [[res s1]|] eqn:Ep; [|done].
  assert (open_ok s1) as Ho.
  { rewrite parse_incoming_ploop in Ep. destruct (ploop _ _ _ _ _ _) as [[[res' s2]|]|] eqn:El; try done.
    simplify_eq. eapply parse_loop_ok; [|exact El]. apply (minor_open s); [by split|done]. }
  match type of E with (let? _ := ?c in _) = _ => destruct c as [s2|] eqn:Ecl; [|done] end. simplify_eq.
  assert (inv s2) as H2.
  { destruct (negb _); [eapply close_inv; [|exact Ecl]|]; simplify_eq.
    - destruct (open_inv _ Ho) as (l & ex & Hok). by eapply client_ok_closable.
    - apply (minor_inv s1); [by apply open_inv|done]. }
  destruct (negb (keep_alive (client s2) =? 0)); [by apply (minor_inv s2)|done].
Qed.

Lemma output_send_open s : open_ok s -> open_ok (output_send s).
Proof.
  intros [(l & ex & Hok) Hc]. destruct (output_send_client s l ex Hok) as (Hok' & _ & (rb & E) & _).
  split; [by exists l, ex|]. by rewrite E.
Qed.

Lemma complete_qos0_ok fuel : forall s s', open_ok s -> complete_qos0 fuel s = Some s' -> open_ok s'.
Proof.
  induction fuel as [|fuel IH]; intros s s' Hs E; [done|]. cbn [complete_qos0] in E.
  destruct (mqtt_take_request _ _ _) as [[[o q] reqs]|] eqn:Et; [|done].
  destruct Hs as [(l & ex & Hok) Hc]. destruct o as [i|].
  2: { simplify_eq. destruct (reqs_ok_take _ _ _ _ 0 (ok_reqs _ _ _ Hok Hc)) as (o & q' & reqs' & E' & Ho).
       rewrite Et in E'. simplify_eq. destruct Ho as (-> & -> & _).
       apply (minor_open s); [by split; [exists l, ex|]|done]. }
  destruct (reqs !! i) as [r|]; [|done].
  set (s1 := match req_cb r with
             | Some cb => emit_ev (EvReqCb (ReqEvent cb (req_arg r) ERR_OK)) (on_client (set_requests q reqs) s)
             | None => on_client (set_requests q reqs) s
             end) in E.
  assert (minor_change (set_requests q reqs (client s)) (client s1)) as Hm
    by (unfold s1; by destruct (req_cb r)).
  destruct (complete_ok s l ex 0 i q reqs s1 Hok Hc Et Hm) as (l1 & l2 & reqs' & -> & _ & Ed & Hok2).
  rewrite Ed in E. eapply IH; [|exact E]. split; [by exists (l1 ++ l2), ex|]. mcbn.
  destruct Hm as (_ & _ & _ & Hm & _). mcbn in *. by rewrite Hm.
Qed.

Lemma sent_inv s r s' : inv s -> conn (client s) = true -> mqtt_tcp_sent_cb s = Some (r, s') -> inv s'.
Proof.
  intros Hs Hc E. unfold mqtt_tcp_sent_cb in E. destruct (_ =? _); [|by simplify_eq].
  destruct (complete_qos0 _ _) as [s1|] eqn:E1; [|done].
  apply complete_qos0_ok in E1; [|apply (minor_open s); by split].
  unfold send_output in E. destruct (conn (client s1)); [|done]. simplify_eq.
  by apply open_inv, output_send_open.
Qed.

Lemma ping_inv s rb :
  inv s -> mqtt_output_check_space (output (client s)) 0 = Some true ->
  mqtt_output_append_fixed_header MQTT_MSG_TYPE_PINGREQ 0 0 0 0 (output (client s)) = Some rb ->
  inv (on_client (fun c => set_cyclic_tick 0 (set_output rb c)) s).
Proof.
  intros (l & ex & Hok) Hf E. exists l, ex.
  pose proof (check_space_fits _ 0 MQTT_MSG_TYPE_PINGREQ 0 0 0 (ok_ring _ _ _ Hok) ltac:(lia) Hf) as Hfit.
  rewrite append_fixed_header_buf in E by done. apply (inj Some) in E.
  assert (ring_wf rb) as Hw by (rewrite <- E; apply append_buf_contents; [apply Hok|lia]).
  by apply (minor_ok (set_output rb (client s))); [apply client_ok_output|].
Qed.

Lemma timer_inv s s' : inv s -> mqtt_cyclic_timer s = Some s' -> inv s'.
Proof.
  intros Hs E. unfold mqtt_cyclic_timer in E.
  match type of E with (let? _ := ?c in _) = _ => destruct c as [[s1 rt]|] eqn:E1; [|done] end. simplify_eq.
  assert (inv s1) as H1; [|destruct rt; [by apply (minor_inv s1)|done]].
  destruct (conn_state (client s) =? MQTT_CONNECTING) eqn:Ec1.
  { destruct (_ <=? _); [|simplify_eq; by apply (minor_inv s)].
    destruct (mqtt_close _ _) as [s2|] eqn:Ecl; [|done]. simplify_eq.
    eapply close_inv; [|exact Ecl]. apply inv_closable. by apply (minor_inv s). }
  destruct (conn_state (client s) =? MQTT_CONNECTED) eqn:Ec2; [|by simplify_eq].
  apply Z.eqb_eq in Ec2. destruct Hs as (l & ex & Hok).
  assert (conn (client s) = true) as Hc by (by rewrite (ok_conn _ _ _ Hok), Ec2).
  destruct (reqs_ok_elapsed _ _ _ _ MQTT_CYCLIC_TIMER_INTERVAL (ok_reqs _ _ _ Hok Hc))
    as (n & q & reqs & Ee & Hrq); [unfold MQTT_CYCLIC_TIMER_INTERVAL; lia|]. rewrite Ee in E1.
  match type of E1 with context [emit_reqs ?evs ?st] => set (s2 := emit_reqs evs st) in E1 end.
  assert (inv s2) as H2 by (exists (drop n l), ex; by apply (client_ok_requests _ _ _ l ex)).
  clearbody s2. destruct (0 <? keep_alive (client s2)); [|by simplify_eq].
  match type of E1 with (let? _ := ?c in _) = _ => destruct c as [[s3 rt3]|] eqn:E3; [|done] end.
  assert (inv s3) as H3.
  { destruct (_ <? _); [|simplify_eq; by apply (minor_inv s2)].
    destruct (mqtt_close _ _) as [s4|] eqn:Ecl; [|done]. simplify_eq.
    eapply close_inv; [|exact Ecl]. apply inv_closable. by apply (minor_inv s2). }
  destruct (_ <=? _); [|simplify_eq; by apply (minor_inv s3)].
  destruct (mqtt_output_check_space _ 0) as [[]|] eqn:Ef; [| |done]; [|by simplify_eq].
  destruct (mqtt_output_append_fixed_header _ _ _ _ _ _) as [rb|] eqn:Ea; [|done]. simplify_eq.
  by apply ping_inv.
Qed.

(** ** Reachable states

    The application calls the public functions, with strings and payloads whose
    packet length fits 16 bits; TCP calls its callbacks only for a pcb that
    exists, and reports a new connection only while one is being set up. *)

Inductive mqtt_step : mstate T -> mstate T -> Prop :=
| step_connect cb ci s r s' :
    connect_info_ok ci -> mqtt_client_connect cb ci s = Some (r, s') -> mqtt_step s s'
| step_disconnect s s' : mqtt_disconnect s = Some s' -> mqtt_step s s'
| step_publish topic payload qos retain cb arg s r s' :
    bytes topic -> bytes payload -> 4 + Z.of_nat (length topic) + Z.of_nat (length payload) < 65532 ->
    mqtt_publish topic (Some payload) (Z.of_nat (length payload)) qos retain cb arg s = Some (r, s') ->
    mqtt_step s s'
| step_subscribe topic qos cb arg sub s r s' :
    bytes topic -> 5 + Z.of_nat (length topic) < 65532 -> 0 <= qos < 3 ->
    mqtt_sub_unsub topic qos cb arg sub s = Some (r, s') -> mqtt_step s s'
| step_callbacks pub data s : mqtt_step s (mqtt_set_inpub_callback pub data s)
| step_timer s s' : mqtt_cyclic_timer s = Some s' -> mqtt_step s s'
| step_connected err s r s' :
    conn_state (client s) = TCP_CONNECTING -> mqtt_tcp_connect_cb err s = Some (r, s') -> mqtt_step s s'
| step_recv p err s r s' : mqtt_tcp_recv_cb p err s = Some (r, s') -> mqtt_step s s'
| step_sent s r s' : conn (client s) = true -> mqtt_tcp_sent_cb s = Some (r, s') -> mqtt_step s s'
| step_poll s : conn (client s) = true -> mqtt_step s (snd (mqtt_tcp_poll_cb s))
| step_err s s' : mqtt_tcp_err_cb s = Some s' -> mqtt_step s s'.

Definition reachable (t : T) : mstate T -> Prop := rtc mqtt_step (MState zero_client t []).

Lemma step_inv s s' : mqtt_step s s' -> inv s -> inv s'.
Proof.
  intros Hst Hinv. pose proof Hinv as (l & ex & Hok).
  destruct Hst as [cb ci s r s' Hci E|s s' E|topic payload qos retain cb arg s r s' Ht Hp Hl E
    |topic qos cb arg sub s r s' Ht Hl Hq E|pub data s|s s' E|err s r s' Hcs E|p err s r s' E|s r s' Hc E
    |s Hc|s s' E].
  - destruct (connect_spec s cb ci Hci) as (s1 & E1 & H). rewrite E in E1. simplify_eq.
    destruct (_ =? TCP_DISCONNECTED); [destruct H as [H _]; by exists [], []|by subst].
  - unfold mqtt_disconnect in E. destruct (negb _); [|by simplify_eq]. eapply close_inv; [|exact E].
    destruct (inv_closable s Hinv) as [H0 H1 H2 H3]. by split.
  - destruct (publish_spec s l ex topic payload qos retain cb arg Hok Ht Hp Hl) as (err & s1 & E1 & _ & H).
    rewrite E in E1. simplify_eq. destruct (_ =? _); [by destruct H as [_ ->]|].
    destruct H as [(_ & _ & n & ex' & H & _)|(_ & _ & _ & H & _)]; [by exists (l ++ [n]), ex'|by exists l, ex].
  - destruct (subscribe_spec s l ex topic qos sub cb arg Hok Ht Hl Hq) as (err & s1 & E1 & _ & H).
    rewrite E in E1. simplify_eq. destruct (_ =? _); [by destruct H as [_ ->]|].
    destruct H as [_ [(_ & _ & n & ex' & H & _)|(_ & _ & _ & H & _)]]; [by exists (l ++ [n]), ex'|by exists l, ex].
  - by apply (minor_inv s).
  - by eapply timer_inv.
  - unfold mqtt_tcp_connect_cb in E. destruct (negb (err =? ERR_OK)); [by simplify_eq|].
    unfold send_output in E. mcbn in *. destruct (conn (client s)) eqn:Hc; [|done]. simplify_eq.
    apply open_inv, output_send_open. apply (minor_open s); [by split|].
    unfold minor_change. mcbn. by rewrite Hcs.
  - by eapply recv_inv.
  - by eapply sent_inv.
  - unfold mqtt_tcp_poll_cb. destruct (_ =? _); [|done]. apply open_inv, output_send_open. by split.
  - unfold mqtt_tcp_err_cb in E. eapply close_inv; [|exact E].
    destruct (inv_closable s Hinv) as [H0 H1 H2 H3]. by split.
Qed.

Lemma init_inv t : inv (MState zero_client t []).
Proof. exists [], []. split; done. Qed.

(** C6: In every state the client can reach by calls (publishes and subscriptions of
    lengths below 65532), TCP events and timer ticks in any order, whatever the
    server sends, the output buffer is
    well-formed (never more than its 256 bytes), the pending requests are a
    chain of distinct slots with increasing deadlines of at most thirty seconds,
    and the client holds a TCP connection exactly when it is not disconnected. *)
Theorem mqtt_invariant (t : T) (s : mstate T) :
  reachable t s ->
  ring_wf (output (client s)) /\ length (rx_buffer (client s)) = 128%nat /\
  conn (client s) = negb (conn_state (client s) =? TCP_DISCONNECTED) /\
  exists l, chain (req_list (client s)) (pend_req_queue (client s)) l /\ NoDup l /\
    (conn (client s) = true -> timed (req_list (client s)) l) /\ (conn (client s) = false -> l = []).
Proof.
  intros Hr. assert (inv s) as (l & ex & [H0 H1 H2 H3 H4 H5]).
  { unfold reachable in Hr. remember (MState zero_client t []) as s0 eqn:E0.
    assert (inv s0) as Hi by (subst; apply init_inv). clear E0.
    induction Hr as [|x y z Hxy Hyz IH]; [done|]. apply IH. by eapply step_inv. }
  split; [done|]. split; [done|]. split; [done|]. exists l. destruct (conn (client s)).
  - destruct (H4 eq_refl) as [[_ Hc Hn _ _] Ht]. done.
  - destruct (H5 eq_refl) as (-> & _ & ->). repeat split; try done. constructor.
Qed.
End State.

Lemma mqtt_invariant_witness :
  exists s : mstate sink, reachable (Sink 1000 []) s /\ conn_state (client s) = TCP_CONNECTING /\
    ring_wf (output (client s)).
Proof.
  destruct (mqtt_client_connect true sample_info (MState zero_client (Sink 1000 []) []))
    as [[r s]|] eqn:E; [|by vm_compute in E].
  assert (reachable (Sink 1000 []) s) as Hr.
  { eapply rtc_l; [|apply rtc_refl]. eapply step_connect; [apply sample_info_ok|exact E]. }
  exists s. split; [exact Hr|]. split.
  - vm_compute in E. injection E as <- <-. reflexivity.
  - exact (proj1 (mqtt_invariant (Sink 1000 []) s Hr)).
Defined.
