(* ===== verification/MqttSession.v ===== *)
(** * The course of an MQTT session

    What the client does on CONNACK, on acknowledgements and on the passing of
    time: connection set up and refused, completion of requests, time-out of a
    connection attempt. *)

From Stdlib Require Import ZArith Lia.
From stdpp Require Import base list option numbers relations.
From S2P Require Import Prelude MqttRing MqttReq Mqtt MqttInv MqttSend MqttParse MqttDeliver MqttState.
From stdpp Require Import sets list.
Import OptionNotations.

Local Open Scope Z_scope.

Section Session.
Context {T : Type} {tops : TcpOps T} {tlaws : TcpLaws T} {tconn : TcpConnOps T}.
Implicit Types s : mstate T.

(** ** CONNACK *)

Definition connack_packet (flags rc : Z) : list Z := [0x20; 2; flags; rc].

(** Accepting the connection. *)
Definition accept (l : list Z) s : mstate T :=
  MState (set_conn_state MQTT_CONNECTED (set_cyclic_tick 0 (set_rx 0 l (client s)))) (tcp s)
    (log s ++ if connect_cb (client s) then [EvConnectCb MQTT_CONNECT_ACCEPTED] else []).

Lemma connack_parse s flags rc :
  length (rx_buffer (client s)) = 128%nat -> msg_idx (client s) = 0 -> conn_state (client s) = MQTT_CONNECTING ->
  exists i l, length l = 128%nat /\
    mqtt_parse_incoming (connack_packet flags rc) s
    = Some (rc, if rc =? MQTT_CONNECT_ACCEPTED then accept l s else on_client (set_rx i l) s).
Proof.
  intros Hl Hi Hcs. destruct (small_header 2 ltac:(lia)) as [Hd He].
  destruct (small_message s 0x20 [] 2 [flags; rc]) as (s1 & rest & (i & l & Hs1) & Hbuf & Hl1 & Hm & E);
    [done|done|constructor|done|cbn; lia|done|cbn; lia|].
  change ((0x20 :: [] ++ [2]) ++ [flags; rc]) with (connack_packet flags rc) in E. rewrite E.
  unfold mqtt_message_received. rewrite (rx_middle s1 [] 0x20 _ 0 Hbuf eq_refl).
  change (MQTT_CTL_PACKET_TYPE 0x20 =? MQTT_MSG_TYPE_CONNACK) with true. cbv zeta iota.
  assert ((conn_state (client s1) =? MQTT_CONNECTING) = true) as -> by (rewrite Hs1; mcbn; by rewrite Hcs).
  change (Z.of_nat (length (0x20 :: [] ++ [2])) + 1) with 3.
  rewrite (rx_middle s1 [0x20; 2; flags] rc rest 3 Hbuf eq_refl).
  exists i, l. rewrite Hs1 in Hl1. split; [exact Hl1|].
  destruct (Z.eqb_spec rc MQTT_CONNECT_ACCEPTED) as [->|Hrc].
  - rewrite Z.eqb_refl. unfold reset_rx, accept, emit_ev, on_client. rewrite Hs1. mcbn.
    destruct (connect_cb (client s)); mcbn; by rewrite ?app_nil_r.
  - rewrite (proj2 (Z.eqb_neq _ _) Hrc). by rewrite Hs1.
Qed.

Lemma connack_spec s l ex flags rc :
  client_ok (client s) l ex -> msg_idx (client s) = 0 -> conn_state (client s) = MQTT_CONNECTING ->
  connect_cb (client s) = true ->
  exists s', mqtt_tcp_recv_cb (Some (connack_packet flags rc)) ERR_OK s = Some (ERR_OK, s') /\
    if rc =? MQTT_CONNECT_ACCEPTED then
      conn_state (client s') = MQTT_CONNECTED /\ client_ok (client s') l ex /\ msg_idx (client s') = 0 /\
      output (client s') = output (client s) /\ pkt_id_seq (client s') = pkt_id_seq (client s) /\ tcp s' = tcp s /\
      log s' = log s ++ [EvTcpRecved 4; EvConnectCb MQTT_CONNECT_ACCEPTED; EvPbufFree]
    else
      conn_state (client s') = TCP_DISCONNECTED /\ client_ok (client s') [] [] /\
      log s' = log s ++ [EvTcpRecved 4; EvPbufFree; EvTcpUnhook; EvUntimeout; EvConnectCb rc].
Proof.
  intros Hok Hi Hcs Hcb. pose proof (ok_conn _ _ _ Hok) as Hc. rewrite Hcs in Hc.
  unfold mqtt_tcp_recv_cb. rewrite Hc.
  change (negb (negb (MQTT_CONNECTING =? TCP_DISCONNECTED))) with false.
  change (negb (ERR_OK =? ERR_OK)) with false. cbv iota.
  set (s0 := emit_ev _ s).
  destruct (connack_parse s0 flags rc) as (i & b & Hb & E); [apply (ok_rx _ _ _ Hok)|done|done|].
  rewrite E. destruct (Z.eqb_spec rc MQTT_CONNECT_ACCEPTED) as [->|Hrc]; cbn [negb].
  - change (negb (MQTT_CONNECT_ACCEPTED =? MQTT_CONNECT_ACCEPTED)) with false. cbv iota.
    assert (log (accept b s0) = log s ++ [EvTcpRecved 4; EvConnectCb MQTT_CONNECT_ACCEPTED]) as El
      by (unfold accept, s0; mcbn; rewrite Hcb, <- app_assoc; done).
    assert (forall c, minor_change (client s) c -> client_ok c l ex) as Hmin by (intros; by eapply minor_ok).
    assert (client (accept b s0) = set_conn_state MQTT_CONNECTED (set_cyclic_tick 0 (set_rx 0 b (client s)))) as Ec
      by done.
    assert (tcp (accept b s0) = tcp s) as Et by done.
    set (s1 := accept b s0) in *. clearbody s1.
    destruct (negb (keep_alive _ =? 0)); (eexists; split; [done|]); mcbn; rewrite El, Et, Ec, <- app_assoc; mcbn;
      (split; [done|]); (split; [|done]); apply Hmin; unfold minor_change; mcbn; rewrite Hcs;
      repeat split; rewrite Hb; symmetry; apply (ok_rx _ _ _ Hok).
  - set (s1 := emit_ev EvPbufFree _).
    assert (client_ok (client s1) l ex) as Hok1.
    { apply (minor_ok (client s)); [done|]. unfold s1, minor_change. mcbn. repeat split.
      rewrite Hb. symmetry. apply (ok_rx _ _ _ Hok). }
    destruct (close_spec rc s1 (client_ok_closable _ _ _ Hok1)) as (s2 & -> & Hok2 & Hd & _ & _ & _ & Hlog).
    assert (log s2 = log s ++ [EvTcpRecved 4; EvPbufFree; EvTcpUnhook; EvUntimeout; EvConnectCb rc]) as El.
    { rewrite Hlog. change (conn (client s1)) with (conn (client s)).
      change (conn_state (client s1)) with (conn_state (client s)).
      change (connect_cb (client s1)) with (connect_cb (client s)).
      change (log s1) with ((log s ++ [EvTcpRecved 4]) ++ [EvPbufFree]).
      rewrite Hc, Hcs, Hcb. by rewrite <- !app_assoc. }
    destruct (negb (keep_alive _ =? 0)); (eexists; split; [done|]); mcbn; [|done].
    split; [done|]. split; [|done]. apply (minor_ok (client s2)); [done|]. by unfold minor_change; mcbn.
Qed.

(** A CONNACK that arrives while the connection is being set up decides it:
    code 0 makes the client connected, with its queues untouched, and tells the
    application so; any other code closes the connection, drops all requests
    and hands that code to the application. *)
Theorem mqtt_connack (s : mstate T) (l ex : list nat) (flags rc : Z) :
  client_ok (client s) l ex -> msg_idx (client s) = 0 -> conn_state (client s) = MQTT_CONNECTING ->
  connect_cb (client s) = true ->
  exists s', mqtt_tcp_recv_cb (Some (connack_packet flags rc)) ERR_OK s = Some (ERR_OK, s') /\
    if rc =? MQTT_CONNECT_ACCEPTED then
      conn_state (client s') = MQTT_CONNECTED /\ client_ok (client s') l ex /\ msg_idx (client s') = 0 /\
      output (client s') = output (client s) /\ pkt_id_seq (client s') = pkt_id_seq (client s) /\ tcp s' = tcp s /\
      log s' = log s ++ [EvTcpRecved 4; EvConnectCb MQTT_CONNECT_ACCEPTED; EvPbufFree]
    else
      conn_state (client s') = TCP_DISCONNECTED /\ client_ok (client s') [] [] /\
      log s' = log s ++ [EvTcpRecved 4; EvPbufFree; EvTcpUnhook; EvUntimeout; EvConnectCb rc].
Proof. apply connack_spec. Qed.

(** ** Acknowledgements *)

Definition ack_packet (t id : Z) (codes : list Z) : list Z :=
  Z.shiftl t 4 :: (2 + Z.of_nat (length codes)) :: be16 id ++ codes.

Definition is_ack (t : Z) : Prop :=
  t = MQTT_MSG_TYPE_PUBACK \/ t = MQTT_MSG_TYPE_PUBCOMP \/ t = MQTT_MSG_TYPE_SUBACK \/
  t = MQTT_MSG_TYPE_UNSUBACK.

(** What the acknowledgement says about the request. *)
Definition ack_error (t : Z) (codes : list Z) : Z :=
  match codes with
  | c :: _ => if (t =? MQTT_MSG_TYPE_SUBACK) && negb (c <? 3) then ERR_ABRT else ERR_OK
  | [] => ERR_OK
  end.

Definition req_events (r : mqtt_request_t) (err : Z) : list mqtt_event :=
  match req_cb r with Some cb => [EvReqCb (ReqEvent cb (req_arg r) err)] | None => [] end.

Lemma packet_id id : 0 < id < 65536 -> Z.lor (u16 (Z.shiftl (Z.shiftr id 8) 8)) (Z.land id 0xff) = id.
Proof.
  intros Hid. rewrite u16_small.
  - change 0xff with (Z.ones 8). rewrite Z.lor_comm. apply (lor_pieces id 8); lia.
  - rewrite Z.shiftl_mul_pow2, Z.shiftr_div_pow2 by lia. change (2 ^ 8) with 256. Z.div_mod_to_equations; lia.
Qed.

Lemma split_unique {A} (i : A) l1 : forall l2 k1 k2,
  NoDup (l1 ++ i :: l2) -> l1 ++ i :: l2 = k1 ++ i :: k2 -> l1 = k1 /\ l2 = k2.
Proof.
  induction l1 as [|x l1 IH]; intros l2 [|y k1] k2 Hn E; cbn [app] in *.
  - by injection E.
  - injection E as -> E. apply NoDup_cons in Hn as [Hn _]. rewrite E in Hn. set_solver.
  - injection E as -> E. apply NoDup_cons in Hn as [Hn _]. set_solver.
  - injection E as -> E. apply NoDup_cons in Hn as [_ Hn]. destruct (IH _ _ _ Hn E) as [-> ->]. done.
Qed.

(** The branch of [mqtt_message_received] for acknowledgements. *)
Lemma ack_received s1 t id codes rest n :
  is_ack t -> 0 < id < 65536 -> (t = MQTT_MSG_TYPE_SUBACK -> codes <> []) ->
  rx_buffer (client s1) = [Z.shiftl t 4; n] ++ (be16 id ++ codes) ++ rest ->
  mqtt_message_received 2 (Z.of_nat (length (be16 id ++ codes))) 0 s1 =
    (let? (o, q, reqs) := mqtt_take_request (pend_req_queue (client s1)) id (req_list (client s1)) in
    match o with
    | None => Some (MQTT_CONNECT_ACCEPTED, on_client (set_requests q reqs) s1)
    | Some i =>
        let? r := reqs !! i in
        let? reqs' := mqtt_delete_request (Some i) reqs in
        Some (MQTT_CONNECT_ACCEPTED, MState (set_requests q reqs' (client s1)) (tcp s1)
          (log s1 ++ req_events r (ack_error t codes)))
    end).
Proof.
  intros Hack Hid Hsub Hbuf. unfold mqtt_message_received.
  rewrite (rx_middle s1 [] (Z.shiftl t 4) _ 0 Hbuf eq_refl). cbv zeta.
  assert (MQTT_CTL_PACKET_TYPE (Z.shiftl t 4) = t) as -> by (by destruct Hack as [ -> | [ -> | [ -> | -> ]]]).
  rewrite (rx_middle s1 [Z.shiftl t 4; n] (Z.shiftr id 8) (Z.land id 0xff :: codes ++ rest) 2 Hbuf eq_refl).
  rewrite (rx_middle s1 [Z.shiftl t 4; n; Z.shiftr id 8] (Z.land id 0xff) (codes ++ rest) (2 + 1) Hbuf eq_refl).
  rewrite (packet_id id Hid), (proj2 (Z.eqb_neq id 0)) by lia.
  assert (((t =? MQTT_MSG_TYPE_CONNACK) = false) /\ (t =? MQTT_MSG_TYPE_PINGRESP) = false /\
    (t =? MQTT_MSG_TYPE_PUBLISH) = false /\ (t =? MQTT_MSG_TYPE_PUBREC) = false /\
    (t =? MQTT_MSG_TYPE_PUBREL) = false /\
    ((t =? MQTT_MSG_TYPE_SUBACK) || (t =? MQTT_MSG_TYPE_UNSUBACK) || (t =? MQTT_MSG_TYPE_PUBCOMP) ||
     (t =? MQTT_MSG_TYPE_PUBACK)) = true) as (-> & -> & -> & -> & -> & ->)
    by (by destruct Hack as [ -> | [ -> | [ -> | -> ]]]).
  destruct (mqtt_take_request _ _ _) as [[[[i|] q] reqs]|]; try done.
  destruct (reqs !! i) as [r|] eqn:Er; [|done].
  destruct (Z.eqb_spec t MQTT_MSG_TYPE_SUBACK) as [Et|Et].
  - destruct codes as [|c codes]; [by destruct (Hsub Et)|].
    destruct (Z.ltb_spec (Z.of_nat (length (be16 id ++ c :: codes))) 3) as [Hc|_];
      [rewrite length_app in Hc; cbn [length be16] in Hc; lia|].
    assert (forall st : mstate T, rx_buffer (client st) = rx_buffer (client s1) -> rx (2 + 2) st = Some c) as Hrx
      by (intros st Hst; apply (rx_middle st [Z.shiftl t 4; n; Z.shiftr id 8; Z.land id 0xff] c (codes ++ rest));
          [rewrite Hst; apply Hbuf|done]).
    rewrite Hrx by done. unfold mqtt_incomming_suback, req_events, ack_error.
    rewrite Et, Z.eqb_refl. cbn [andb negb].
    destruct (req_cb r) as [cb|]; mcbn; [|destruct (mqtt_delete_request _ _); [by rewrite app_nil_r|done]].
    by destruct (mqtt_delete_request _ _), (c <? 3).
  - unfold req_events. assert (ack_error t codes = ERR_OK) as ->
      by (unfold ack_error; rewrite (proj2 (Z.eqb_neq _ _) Et); by destruct codes).
    cbn [negb]. destruct (req_cb r) as [cb|]; mcbn; [done|].
    destruct (mqtt_delete_request _ _); [by rewrite app_nil_r|done].
Qed.

(** An acknowledgement (PUBACK, PUBCOMP, SUBACK or UNSUBACK) completes the
    oldest request in flight with its packet identifier: the request leaves the
    queue, its slot is free again, and its callback is told the outcome, for a
    SUBACK an error exactly when the server refused the subscription.  The
    other requests are untouched, and an acknowledgement nobody waits for
    changes nothing. *)
Theorem mqtt_ack_completes (s : mstate T) (l ex : list nat) (t id : Z) (codes : list Z) :
  client_ok (client s) l ex -> conn (client s) = true -> msg_idx (client s) = 0 ->
  is_ack t -> 0 < id < 65536 -> (t = MQTT_MSG_TYPE_SUBACK -> codes <> []) -> (length codes <= 100)%nat ->
  exists s', mqtt_parse_incoming (ack_packet t id codes) s = Some (MQTT_CONNECT_ACCEPTED, s') /\
    msg_idx (client s') = 0 /\
    ((exists l1 i l2 r, l = l1 ++ i :: l2 /\ req_list (client s) !! i = Some r /\ req_pkt_id r = id /\
        (forall j rj, j ∈ l1 -> req_list (client s) !! j = Some rj -> req_pkt_id rj <> id) /\
        client_ok (client s') (l1 ++ l2) ex /\ log s' = log s ++ req_events r (ack_error t codes)) \/
     ((forall j rj, j ∈ l -> req_list (client s) !! j = Some rj -> req_pkt_id rj <> id) /\
      client_ok (client s') l ex /\ log s' = log s)).
Proof.
  intros Hok Hc Hi Hack Hid Hsub Hlen. set (p := be16 id ++ codes). set (n := 2 + Z.of_nat (length codes)).
  assert (Z.of_nat (length p) = n) as Hn by (unfold p, n; rewrite length_app; cbn [length be16]; lia).
  destruct (small_header n ltac:(unfold n; lia)) as [Hd He].
  destruct (small_message s (Z.shiftl t 4) [] n p) as (s1 & rest & (ix & b & Hs1) & Hbuf & Hl1 & Hm & E);
    [apply (ok_rx _ _ _ Hok)|done|constructor|done|cbn; lia|by rewrite Hd|lia|].
  change ((Z.shiftl t 4 :: [] ++ [n]) ++ p) with (ack_packet t id codes) in E. rewrite E.
  change (Z.of_nat (length (Z.shiftl t 4 :: [] ++ [n]))) with 2.
  unfold p. rewrite (ack_received s1 t id codes rest n Hack Hid Hsub Hbuf).
  pose proof (ok_reqs _ _ _ Hok Hc) as [Hq Ht].
  destruct (take_spec _ _ _ id _ Hq Ht) as (o & q & reqs & Et & Ho).
  assert (client_ok (client s1) l ex) as Hok1.
  { apply (minor_ok (client s)); [done|]. rewrite Hs1 in Hl1 |- *. unfold minor_change. mcbn in *.
    repeat split. rewrite Hl1. symmetry. apply (ok_rx _ _ _ Hok). }
  assert (pend_req_queue (client s1) = pend_req_queue (client s) /\ req_list (client s1) = req_list (client s) /\
    conn (client s1) = true /\ log s1 = log s) as (Eq & Er & Ec1 & El1) by (rewrite Hs1; mcbn; done).
  rewrite Eq, Er, Et. destruct o as [i|].
  - destruct Ho as (l1 & l2 & r & -> & Hr & Hp & Hfst & _).
    destruct (take_result _ _ _ _ _ _ Et) as (r' & Hr' & Hri). rewrite Hr in Hr'. apply (inj Some) in Hr' as <-.
    rewrite Hri. rewrite <- Eq, <- Er in Et.
    destruct (complete_ok s1 _ ex id i q reqs (on_client (set_requests q reqs) s1) Hok1 Ec1 Et)
      as (k1 & k2 & reqs' & El & _ & Ed & Hok2); [done|]. mcbn in *. rewrite Ed. eexists. split; [done|].
    unfold reset_rx. mcbn. split; [done|]. left. exists l1, i, l2, r.
    destruct (split_unique i l1 l2 k1 k2 (q_nodup _ _ _ _ Hq) El) as [<- <-].
    split; [done|]. split; [done|]. split; [done|]. split; [done|]. rewrite El1. split; [|done].
    by apply (minor_ok _ _ _ _ Hok2).
  - destruct Ho as (-> & -> & Hno). eexists. split; [done|]. unfold reset_rx. mcbn. split; [done|]. right.
    split; [done|]. split; [|done]. apply (minor_ok (client s1)); [done|]. unfold minor_change. by mcbn.
Qed.

(** ** Time-out of a connection attempt *)

(** [n] runs of the cyclic timer, five seconds apart, with nothing in between. *)
Fixpoint ticks (n : nat) s : option (mstate T) :=
  match n with
  | O => Some s
  | S n => match ticks n s with Some s1 => mqtt_cyclic_timer s1 | None => None end
  end.

Lemma connecting_ticks n s :
  conn_state (client s) = MQTT_CONNECTING -> cyclic_tick (client s) = 0 -> (n < 20)%nat ->
  ticks n s = Some (MState (set_cyclic_tick (Z.of_nat n) (client s)) (tcp s)
    (log s ++ repeat (EvTimeout 5000) n)).
Proof.
  intros Hcs Ht. induction n as [|n IH]; intros Hn.
  - cbn [ticks repeat]. rewrite app_nil_r. destruct s as [[] ? ?]. cbn in *. by rewrite Ht.
  - cbn [ticks]. rewrite IH by lia. unfold mqtt_cyclic_timer. mcbn. rewrite Hcs.
    change (MQTT_CONNECTING =? MQTT_CONNECTING) with true. cbv iota.
    rewrite u16_small by lia. unfold MQTT_CONNECT_TIMOUT, MQTT_CYCLIC_TIMER_INTERVAL.
    destruct (Z.leb_spec 100 ((Z.of_nat n + 1) * 5)); [lia|].
    unfold emit_ev, on_client. mcbn. rewrite <- app_assoc.
    replace [EvTimeout (5 * 1000)] with (repeat (EvTimeout 5000) 1) by done.
    rewrite <- repeat_app, Nat.add_1_r, u16_small by lia.
    by replace (Z.of_nat (S n)) with (Z.of_nat n + 1) by lia.
Qed.

(** C35: A connection attempt the server never answers ends: the client stays in
    the connecting state for nineteen runs of the five second timer, and the
    twentieth, after 100 seconds, closes it, drops the requests and reports the
    time-out to the application. *)
Theorem mqtt_connect_times_out (s : mstate T) (l ex : list nat) :
  client_ok (client s) l ex -> conn_state (client s) = MQTT_CONNECTING -> cyclic_tick (client s) = 0 ->
  connect_cb (client s) = true ->
  (forall n, (n < 20)%nat -> exists s1, ticks n s = Some s1 /\ conn_state (client s1) = MQTT_CONNECTING) /\
  exists s2, ticks 20 s = Some s2 /\ client_ok (client s2) [] [] /\
    conn_state (client s2) = TCP_DISCONNECTED /\
    log s2 = log s ++ repeat (EvTimeout 5000) 19 ++ [EvTcpUnhook; EvUntimeout; EvConnectCb MQTT_CONNECT_TIMEOUT].
Proof.
  intros Hok Hcs Ht Hcb. split.
  { intros n Hn. rewrite connecting_ticks by done. by eexists. }
  change (ticks 20 s) with (match ticks 19 s with Some s1 => mqtt_cyclic_timer s1 | None => None end).
  rewrite connecting_ticks by (done || lia). unfold mqtt_cyclic_timer. mcbn. rewrite Hcs.
  change (MQTT_CONNECTING =? MQTT_CONNECTING) with true. cbv iota. change (u16 (Z.of_nat 19 + 1)) with 20.
  change (MQTT_CONNECT_TIMOUT <=? 20 * MQTT_CYCLIC_TIMER_INTERVAL) with true. cbv iota.
  set (s1 := on_client _ _).
  assert (client_ok (client s1) l ex) as Hok1 by (by apply (minor_ok (client s))).
  destruct (close_spec MQTT_CONNECT_TIMEOUT s1 (client_ok_closable _ _ _ Hok1))
    as (s2 & -> & Hok2 & Hd & _ & _ & _ & Hlog).
  exists s2. split; [done|]. split; [done|]. split; [done|]. rewrite Hlog.
  change (conn (client s1)) with (conn (client s)). change (conn_state (client s1)) with (conn_state (client s)).
  change (connect_cb (client s1)) with (connect_cb (client s)).
  change (log s1) with (log s ++ repeat (EvTimeout 5000) 19).
  rewrite (ok_conn _ _ _ Hok), Hcs, Hcb. by rewrite <- !app_assoc.
Qed.
End Session.

(** ** Samples *)

(** A client waiting for CONNACK, and one with two subscriptions in flight. *)
Definition connecting_client : mqtt_client_t := set_conn_state MQTT_CONNECTING sample_client.
Definition connecting_state : mstate sink := MState connecting_client (Sink 1000 []) [].

Lemma connecting_ok : client_ok connecting_client [] [].
Proof. apply (minor_ok sample_client); [apply sample_ok|done]. Qed.

Lemma mqtt_connack_witness :
  exists s', mqtt_tcp_recv_cb (Some (connack_packet 0 5)) ERR_OK connecting_state = Some (ERR_OK, s') /\
    conn_state (client s') = TCP_DISCONNECTED.
Proof.
  destruct (mqtt_connack connecting_state [] [] 0 5 connecting_ok) as (s' & E & H & _); [done|done|done|].
  exists s'. split; [exact E|exact H].
Defined.

Lemma mqtt_ack_completes_witness :
  exists s1 s2, mqtt_sub_unsub [116] 0 (Some 7) 9 1 sample_state = Some (ERR_OK, s1) /\
    mqtt_parse_incoming (ack_packet MQTT_MSG_TYPE_SUBACK 42 [0x80]) s1 = Some (MQTT_CONNECT_ACCEPTED, s2) /\
    log s2 = [EvReqCb (ReqEvent 7 9 ERR_ABRT)].
Proof.
  destruct (subscribe_spec sample_state [] [] [116] 0 1 (Some 7) 9 sample_ok)
    as (err & s1 & E & _ & H); [by repeat constructor|done|done|].
  exists s1. assert (Hs : mqtt_sub_unsub [116] 0 (Some 7) 9 1 sample_state = Some (ERR_OK, s1))
    by (rewrite E; vm_compute in E; injection E as <- <-; reflexivity).
  rewrite Hs in E. injection E as <-. change (conn_state (client sample_state) =? TCP_DISCONNECTED) with false in H.
  destruct H as [_ [(_ & _ & n & ex & Hok & Hsub & Hid)|(Hf & _)]]; [|discriminate Hf].
  assert (conn (client s1) = true /\ msg_idx (client s1) = 0 /\ log s1 = [] /\ req_list (client s1) !! 0%nat = Some
    (Req None (Some 7) 9 42 30)) as (Hc & Hi & Hl & Hr)
    by (vm_compute in Hs; injection Hs as <-; repeat split; reflexivity).
  destruct (mqtt_ack_completes s1 ([] ++ [n]) ex MQTT_MSG_TYPE_SUBACK 42 [0x80] Hok Hc Hi)
    as (s2 & E2 & _ & Ho); [by right; right; left|lia|discriminate|cbn; lia|].
  exists s2. split; [exact Hs|]. split; [exact E2|].
  assert (n = 0%nat) as -> by (destruct n as [|[|[|[|n]]]]; [done|..]; vm_compute in Hs; injection Hs as <-; discriminate Hid).
  destruct Ho as [(l1 & i & l2 & r & El & Hri & _ & _ & _ & Hlog)|(Hno & _)].
  - assert (i = 0%nat) as -> by (destruct l1 as [|? [|]]; by injection El).
    rewrite Hr in Hri. injection Hri as <-. rewrite Hl in Hlog. exact Hlog.
  - destruct (Hno 0%nat _ ltac:(left) Hr). reflexivity.
Defined.

Lemma mqtt_connect_times_out_witness :
  exists s2, ticks 20 connecting_state = Some s2 /\ conn_state (client s2) = TCP_DISCONNECTED.
Proof.
  destruct (mqtt_connect_times_out connecting_state [] [] connecting_ok) as [_ (s2 & E & _ & H & _)];
    [done|done|done|]. exists s2. split; [exact E|exact H].
Defined.
