(* ===== verification/Comms.v ===== *)
(** * Communication: [src/src/comms.c] and [comms.h]

    The callbacks the MQTT client makes into [comms_t], the heartbeat and the
    communication thread.  The thread is a state machine whose states are the
    points at which it sleeps; a step runs from one sleep to the next.  The
    callbacks run in the network thread, when a TCP event or the timer enters
    the client; they do not call the client themselves, so they are run on the
    events of the call after it. *)

From Stdlib Require Import ZArith Lia String Ascii.
From stdpp Require Import base gmap list option numbers.
From S2P Require Import Prelude Cwpack CwUnpack Util ChTime MqttRing MqttReq Mqtt Command.
Import OptionNotations.

Local Open Scope Z_scope.

(** ** Constants *)

(** The characters of a string literal, without the terminator. *)
Definition chars (str : string) : list Z := map (fun a => Z.of_N (N_of_ascii a)) (list_ascii_of_string str).

Definition TOPIC_BASE : string := "controller/________________________/".
Definition M1_BASE : string := TOPIC_BASE ++ "m1/".
Definition M1_CMD : string := M1_BASE ++ "cmd".
Definition M1_TELEM : string := M1_BASE ++ "telem".
Definition HEARTBEAT_TOPIC_BASE : string := TOPIC_BASE ++ "heartbeat".
Definition HEARTBEAT_INTERVAL : Z := 1000.
Definition BUFFER_SIZE : Z := 1024.

(** The literal "uptime". *)
Definition str_uptime : list Z := [117; 112; 116; 105; 109; 101].

Definition client_info : mqtt_connect_client_info_t :=
  ConnectInfo (chars "mqtt_client_ex") 0 None None 0 0.

(** ** State *)

(** [pub_buffer] and [sub_buffer] are the addresses of the arrays. *)
Record comms_t := Comms {
  connection_status : Z;
  connection_response_received : bool;
  m1_cmd_topic : list Z;
  m1_telem_topic : list Z;
  pub_buffer : Z;
  sub_buffer : Z;
  sub_ptr : Z;
  time_last_heartbeat : Z;
  incoming_publish : Z
}.

Definition set_connection (st : Z) (rcv : bool) (c : comms_t) : comms_t :=
  Comms st rcv (m1_cmd_topic c) (m1_telem_topic c) (pub_buffer c) (sub_buffer c) (sub_ptr c)
    (time_last_heartbeat c) (incoming_publish c).
Definition set_topics (cmd telem : list Z) (c : comms_t) : comms_t :=
  Comms (connection_status c) (connection_response_received c) cmd telem (pub_buffer c) (sub_buffer c)
    (sub_ptr c) (time_last_heartbeat c) (incoming_publish c).
Definition set_incoming (p kind : Z) (c : comms_t) : comms_t :=
  Comms (connection_status c) (connection_response_received c) (m1_cmd_topic c) (m1_telem_topic c)
    (pub_buffer c) (sub_buffer c) p (time_last_heartbeat c) kind.
Definition set_heartbeat (t : Z) (c : comms_t) : comms_t :=
  Comms (connection_status c) (connection_response_received c) (m1_cmd_topic c) (m1_telem_topic c)
    (pub_buffer c) (sub_buffer c) (sub_ptr c) t (incoming_publish c).

(** The system around a [comms_t]: memory, the application's data [appl], the
    MQTT client [mq] and the cached identifier of [uniqueID]. *)
Record world (T M : Type) := World {
  comms : comms_t; mem : gmap Z Z; appl : M; mq : mstate T; uid_ptr : Z
}.
Arguments World {T M} _ _ _ _ _.
Arguments comms {T M} _.
Arguments mem {T M} _.
Arguments appl {T M} _.
Arguments mq {T M} _.
Arguments uid_ptr {T M} _.

(** [strncmp(a, b, n)] over two arrays; [None] is a read past the end of one. *)
Fixpoint strncmp_arrays (a b : list Z) (n : nat) : option Z :=
  match n with
  | O => Some 0
  | S n =>
      match a, b with
      | x :: a, y :: b => if x =? y then if x =? 0 then Some 0 else strncmp_arrays a b n else Some (x - y)
      | _, _ => None
      end
  end.

(** [memcpy(dst + k, src, length src)] within the array [dst]. *)
Definition copy_at (dst : list Z) (k : nat) (src : list Z) : option (list Z) :=
  if decide (k + length src <= length dst)%nat then Some (list_inserts k src dst) else None.

Section Comms.
Context {T M : Type} {tops : TcpOps T} {tconn : TcpConnOps T}.

(** The handlers of the application, null pointers being [None], and what the
    uninitialised [cw_unpack_context] on the stack holds. *)
Context (inpub_cb : option (Z -> M -> unpack_state -> option (M * unpack_state))).
Context (telem_cb : option (M -> pack_state -> option (Z * pack_state))).
Context (it0 : cwpack_item).
(** The static buffer of [uniqueID]. *)
Context (uid_buf : Z).

Definition on_comms (f : comms_t -> comms_t) (w : world T M) : world T M :=
  World (f (comms w)) (mem w) (appl w) (mq w) (uid_ptr w).
Definition with_mem (m : gmap Z Z) (w : world T M) : world T M := World (comms w) m (appl w) (mq w) (uid_ptr w).
Definition with_mq (q : mstate T) (w : world T M) : world T M := World (comms w) (mem w) (appl w) q (uid_ptr w).

(** ** Callbacks of the MQTT client *)

Definition mqtt_cb (status : Z) (w : world T M) : world T M := on_comms (set_connection status true) w.

Definition process_incoming_publish (w : world T M) : option (world T M) :=
  let len := u32 (sub_ptr (comms w) - sub_buffer (comms w)) in
  let uc := snd (cw_unpack_context_init it0 (sub_buffer (comms w)) len (mem w)) in
  match inpub_cb with
  | Some cb =>
      let? (a, uc) := cb (incoming_publish (comms w)) (appl w) uc in
      Some (World (comms w) (umem uc) a (mq w) (uid_ptr w))
  | None => Some w
  end.

Definition mqtt_pub_cb (topic : list Z) (tot_len : Z) (w : world T M) : option (world T M) :=
  let w := on_comms (fun c => set_incoming (sub_buffer c) INPUB_NONE c) w in
  if BUFFER_SIZE <? tot_len then Some w
  else
    let? r := strncmp_arrays topic (m1_cmd_topic (comms w)) (length (m1_cmd_topic (comms w))) in
    Some (if r =? 0 then on_comms (fun c => set_incoming (sub_ptr c) INPUB_CMD_M1 c) w else w).

Definition mqtt_data_cb (data : list Z) (flags : Z) (w : world T M) : option (world T M) :=
  let len := u16 (Z.of_nat (length data)) in
  if incoming_publish (comms w) =? INPUB_NONE then Some w
  else if BUFFER_SIZE <? u32 (sub_ptr (comms w) - sub_buffer (comms w) + len) then Some w
  else
    let? m := store (mem w) (sub_ptr (comms w)) (take (Z.to_nat len) data) in
    let w := with_mem m w in
    let w := on_comms (fun c => set_incoming (sub_ptr c + len) (incoming_publish c) c) w in
    if truthy (Z.land flags MQTT_DATA_FLAG_LAST) then
      let? w' := process_incoming_publish w in
      Some (on_comms (fun c => set_incoming (sub_ptr c) INPUB_NONE c) w')
    else Some w.

(** The callbacks among the events of the client, which were registered with the
    [comms_t] as their argument; requests of this program have no callback. *)
Definition callback (e : mqtt_event) (w : world T M) : option (world T M) :=
  match e with
  | EvConnectCb status => Some (mqtt_cb status w)
  | EvPubCb topic tot_len => mqtt_pub_cb topic tot_len w
  | EvDataCb data flags => mqtt_data_cb data flags w
  | _ => Some w
  end.

Fixpoint callbacks (evs : list mqtt_event) (w : world T M) : option (world T M) :=
  match evs with
  | [] => Some w
  | e :: evs => let? w' := callback e w in callbacks evs w'
  end.

(** An entry into the client by the network thread. *)
Definition network {A : Type} (f : mstate T -> option (A * mstate T)) (w : world T M) : option (A * world T M) :=
  let? (a, q) := f (MState (client (mq w)) (tcp (mq w)) []) in
  let? w' := callbacks (log q) (with_mq (MState (client q) (tcp q) []) w) in
  Some (a, w').

(** ** Outgoing messages *)

(** [mqtt_publish(&c->client, topic, pc.start, pc.current - pc.start, 0, 0, NULL, NULL)] *)
Definition publish_packed (topic : list Z) (pc : pack_state) (w : world T M) : option (Z * world T M) :=
  let len := s32 (current (ctx pc) - start (ctx pc)) in
  let? payload := load (pmem pc) (start (ctx pc)) (Z.to_nat (u16 len)) in
  let? (err, q) := mqtt_publish topic (Some payload) (u16 len) 0 0 None 0 (mq w) in
  Some (err, with_mq q (with_mem (pmem pc) w)).

(** The topic array up to its terminator. *)
Fixpoint c_string (a : list Z) : list Z :=
  match a with
  | [] => []
  | x :: a => if x =? 0 then [] else x :: c_string a
  end.

Definition heartbeat (topic : list Z) (time_now : Z) (w : world T M) : option (Z * world T M) :=
  if HEARTBEAT_INTERVAL <=? TIME_I2MS (u32 (time_now - time_last_heartbeat (comms w))) then
    let pc := snd (cw_pack_context_init (pub_buffer (comms w)) BUFFER_SIZE (mem w)) in
    let? pc := exec (cw_pack_map_size None 1) pc in
    let? pc := exec (cw_pack_str None str_uptime 6) pc in
    let? pc := exec (cw_pack_unsigned None time_now) pc in
    let? (err, w') := publish_packed topic pc w in
    Some (err, on_comms (set_heartbeat time_now) w')
  else Some (ERR_OK, w).

(** The telemetry branch of the inner loop; the result is [next_outpub]. *)
Definition telemetry (time_now next_outpub : Z) (w : world T M) : option (Z * world T M) :=
  match telem_cb with
  | Some cb =>
      if next_outpub <? time_now then
        let pc := snd (cw_pack_context_init (pub_buffer (comms w)) BUFFER_SIZE (mem w)) in
        let? (delay, pc) := cb (appl w) pc in
        let? (_, w') := publish_packed (c_string (m1_telem_topic (comms w))) pc w in
        Some (u32 (time_now + delay), w')
      else Some (next_outpub, w)
  | None => Some (next_outpub, w)
  end.

(** ** The communication thread *)

(** Where the thread is: not started, sleeping before [mqtt_client_connect],
    polling for the response, or sleeping in the inner loop; the last three
    hold the local [heartbeat_topic]. *)
Inductive thread :=
| Start
| Backoff (heartbeat_topic : list Z)
| Await (heartbeat_topic : list Z)
| Running (heartbeat_topic : list Z) (next_outpub : Z).

(** Topic literal with the identifier copied to offset 11. *)
Definition make_topic (base : string) (id : list Z) : option (list Z) :=
  copy_at (chars base ++ [0]) 11 id.

Definition enter (w : world T M) : option (thread * Z * world T M) :=
  let? (p, us) := uniqueID uid_buf (UidState (uid_ptr w) (mem w)) in
  let? id := load (uid_mem us) p 24 in
  let? hb := make_topic HEARTBEAT_TOPIC_BASE id in
  let? cmd := make_topic M1_CMD id in
  let? telem := make_topic M1_TELEM id in
  let w := World (set_topics cmd telem (comms w)) (uid_mem us) (appl w) (mq w) (uid us) in
  let w := on_comms (fun c => set_connection (connection_status c) false c) w in
  Some (Backoff (c_string hb), TIME_MS2I 2000, w).

(** The inner loop from its condition to its sleep; when it ends, the outer loop
    starts over. *)
Definition run_loop (hb : list Z) (next_outpub t_loop t_hb : Z) (w : world T M) : option (thread * Z * world T M) :=
  if connection_status (comms w) =? MQTT_CONNECT_ACCEPTED then
    let? (next_outpub, w1) := telemetry t_loop next_outpub w in
    let? (_, w2) := heartbeat hb t_hb w1 in
    Some (Running hb next_outpub, TIME_MS2I 1, w2)
  else
    Some (Backoff hb, TIME_MS2I 2000, on_comms (fun c => set_connection (connection_status c) false c) w).

(** After [mqtt_client_connect] has succeeded. *)
Definition await (hb : list Z) (t_sub t_loop t_hb : Z) (w : world T M) : option (thread * Z * world T M) :=
  if negb (connection_response_received (comms w)) then Some (Await hb, TIME_MS2I 100, w)
  else if negb (connection_status (comms w) =? MQTT_CONNECT_ACCEPTED) then
    Some (Backoff hb, TIME_MS2I 2000, on_comms (fun c => set_connection (connection_status c) false c) w)
  else
    let w := with_mq (mqtt_set_inpub_callback true true (mq w)) w in
    let? (_, q) := mqtt_sub_unsub (c_string (m1_cmd_topic (comms w))) 0 None 0 1 (mq w) in
    run_loop hb t_sub t_loop t_hb (with_mq q w).

(** One step of [_CommTask]: the new state, how long the thread sleeps and the
    effect.  The arguments are the successive readings of the system time. *)
Definition _CommTask (th : thread) (t_sub t_loop t_hb : Z) (w : world T M) : option (thread * Z * world T M) :=
  match th with
  | Start => enter w
  | Backoff hb =>
      let? (err, q) := mqtt_client_connect true client_info (mq w) in
      let w := with_mq q w in
      if negb (err =? ERR_OK) then Some (Backoff hb, TIME_MS2I 2000, w)
      else await hb t_sub t_loop t_hb w
  | Await hb => await hb t_sub t_loop t_hb w
  | Running hb next_outpub => run_loop hb next_outpub t_loop t_hb w
  end.

(** [CommsInit]: the thread is created and has not run. *)
Definition CommsInit (w : world T M) : thread * world T M :=
  (Start, on_comms (fun c => set_connection MQTT_CONNECT_DISCONNECTED (connection_response_received c) c) w).
End Comms.
