(* ===== verification/CommsProof.v ===== *)
(** * Properties of the communication component

    Reassembly of a command message from the fragments the MQTT client delivers,
    the command path from TCP to the motor, the heartbeat, the telemetry
    schedule and the life of a session. *)

From Stdlib Require Import ZArith Lia SpecFloat.
From stdpp Require Import base gmap list option numbers relations.
From S2P Require Import Prelude Float32 Cwpack CwpackSpec CwpackProof CwUnpack CwDecode CwRoundtrip.
From S2P Require Import Util ChTime Motor Command.
From S2P Require Import MqttRing MqttReq Mqtt MqttInv MqttSend MqttParse MqttDeliver MqttState Comms.
From stdpp Require Import sets list.
Import OptionNotations.

Local Open Scope Z_scope.

(** ** Topics *)

Definition nonzero (l : list Z) : Prop := Forall (fun c => c <> 0) l.

Lemma c_string_terminated l r : nonzero l -> c_string (l ++ 0 :: r) = l.
Proof.
  induction 1 as [|x l Hx _ IH]; [done|]. cbn [app c_string].
  by rewrite (proj2 (Z.eqb_neq x 0) Hx), IH.
Qed.

(** Comparison with a stored topic is equality of C strings. *)
Lemma strncmp_topic c : forall t,
  nonzero c ->
  exists r, strncmp_arrays (t ++ [0]) (c ++ [0]) (S (length c)) = Some r /\
    (r =? 0) = bool_decide (c_string (t ++ [0]) = c).
Proof.
  induction c as [|y c IH]; intros t Hc.
  - destruct t as [|x t]; [by eexists|]. cbn [app length strncmp_arrays c_string].
    destruct (Z.eqb_spec x 0) as [->|Hx]; [by eexists|]. exists (x - 0). split; [done|].
    rewrite Z.sub_0_r. by apply Z.eqb_neq.
  - apply Forall_cons in Hc as [Hy Hc]. destruct t as [|x t].
    + change (c_string ([] ++ [0])) with (@nil Z). cbn [app length strncmp_arrays]. rewrite (proj2 (Z.eqb_neq 0 y)) by auto.
      exists (0 - y). split; [done|]. by apply Z.eqb_neq; lia.
    + change (length (y :: c)) with (S (length c)).
      cbn [app strncmp_arrays c_string].
      destruct (Z.eqb_spec x y) as [->|Hxy].
      * rewrite (proj2 (Z.eqb_neq y 0) Hy). destruct (IH t Hc) as (r & E & Hr).
        exists r. split; [exact E|]. rewrite Hr. apply bool_decide_ext. split; congruence.
      * exists (x - y). split; [done|]. rewrite bool_decide_false; [apply Z.eqb_neq; lia|].
        destruct (Z.eqb_spec x 0); congruence.
Qed.

Section Incoming.
Context {T M : Type} {tops : TcpOps T} {tlaws : TcpLaws T} {tconn : TcpConnOps T}.
Context (inpub_cb : option (Z -> M -> unpack_state -> option (M * unpack_state))) (it0 : cwpack_item).
Implicit Types w : world T M.

Lemma callbacks_app evs1 evs2 w :
  callbacks inpub_cb it0 (evs1 ++ evs2) w
  = match callbacks inpub_cb it0 evs1 w with
    | Some w' => callbacks inpub_cb it0 evs2 w' | None => None end.
Proof.
  revert w. induction evs1 as [|e evs1 IH]; intros w; [done|]. cbn [app callbacks].
  destruct (callback inpub_cb it0 e w); [apply IH|done].
Qed.

(** Room for a command message and the state of the buffers. *)
Record buffers_ok (w : world T M) : Prop := {
  sub_low : 0 <= sub_buffer (comms w);
  sub_top : sub_buffer (comms w) + BUFFER_SIZE < 2 ^ 32;
  sub_alloc : allocated (mem w) (sub_buffer (comms w)) BUFFER_SIZE
}.

Definition pending w : Z := sub_ptr (comms w) - sub_buffer (comms w).

(** The handler is called on the bytes received since [sub_buffer]. *)
Definition handled w (len : Z) (m : gmap Z Z) : option (world T M) :=
  let uc := snd (cw_unpack_context_init it0 (sub_buffer (comms w)) len m) in
  match inpub_cb with
  | Some cb =>
      match cb INPUB_CMD_M1 (appl w) uc with
      | Some (a, uc) =>
          Some (World (set_incoming (sub_buffer (comms w) + len) INPUB_NONE (comms w)) (umem uc) a (mq w) (uid_ptr w))
      | None => None
      end
  | None => Some (World (set_incoming (sub_buffer (comms w) + len) INPUB_NONE (comms w)) m (appl w) (mq w) (uid_ptr w))
  end.

Lemma data_stored d w :
  buffers_ok w -> incoming_publish (comms w) = INPUB_CMD_M1 ->
  0 <= pending w -> pending w + Z.of_nat (length d) <= BUFFER_SIZE ->
  mqtt_data_cb inpub_cb it0 d 0 w
  = Some (World (set_incoming (sub_ptr (comms w) + Z.of_nat (length d)) INPUB_CMD_M1 (comms w))
      (write (mem w) (sub_ptr (comms w)) d) (appl w) (mq w) (uid_ptr w)).
Proof.
  intros [Hl Ht Ha] Hi Hp Hd. unfold pending, BUFFER_SIZE in *. unfold mqtt_data_cb. rewrite Hi.
  change (INPUB_CMD_M1 =? INPUB_NONE) with false. cbv iota zeta.
  rewrite (u16_small (Z.of_nat (length d))), Nat2Z.id, firstn_all by lia. rewrite u32_small by lia.
  destruct (Z.ltb_spec BUFFER_SIZE (sub_ptr (comms w) - sub_buffer (comms w) + Z.of_nat (length d)));
    [unfold BUFFER_SIZE in *; lia|].
  rewrite store_allocated by (eapply allocated_sub; [exact Ha|lia|lia]).
  change (truthy (Z.land 0 MQTT_DATA_FLAG_LAST)) with false. unfold on_comms, with_mem. cbn [comms mem appl mq uid_ptr].
  by rewrite Hi.
Qed.

Lemma data_last d w :
  buffers_ok w -> incoming_publish (comms w) = INPUB_CMD_M1 ->
  0 <= pending w -> pending w + Z.of_nat (length d) <= BUFFER_SIZE ->
  mqtt_data_cb inpub_cb it0 d MQTT_DATA_FLAG_LAST w
  = handled w (pending w + Z.of_nat (length d)) (write (mem w) (sub_ptr (comms w)) d).
Proof.
  intros [Hl Ht Ha] Hi Hp Hd. unfold pending, BUFFER_SIZE in *. unfold mqtt_data_cb. rewrite Hi.
  change (INPUB_CMD_M1 =? INPUB_NONE) with false. cbv iota zeta.
  rewrite (u16_small (Z.of_nat (length d))), Nat2Z.id, firstn_all by lia. rewrite u32_small by lia.
  destruct (Z.ltb_spec BUFFER_SIZE (sub_ptr (comms w) - sub_buffer (comms w) + Z.of_nat (length d)));
    [unfold BUFFER_SIZE in *; lia|].
  rewrite store_allocated by (eapply allocated_sub; [exact Ha|lia|lia]).
  change (truthy (Z.land MQTT_DATA_FLAG_LAST MQTT_DATA_FLAG_LAST)) with true. cbv iota.
  unfold process_incoming_publish, handled. cbn [comms with_mem on_comms set_incoming sub_ptr sub_buffer mem
    incoming_publish appl mq uid_ptr].
  rewrite u32_small by lia.
  replace (sub_ptr (comms w) + Z.of_nat (length d) - sub_buffer (comms w))
    with (sub_ptr (comms w) - sub_buffer (comms w) + Z.of_nat (length d)) by lia.
  replace (sub_buffer (comms w) + (sub_ptr (comms w) - sub_buffer (comms w) + Z.of_nat (length d)))
    with (sub_ptr (comms w) + Z.of_nat (length d)) by lia.
  destruct inpub_cb as [cb|]; [|done].
  rewrite Hi. by destruct (cb _ _ _) as [[a uc]|].
Qed.

Lemma fragments_stored chunks lst : forall w,
  buffers_ok w -> incoming_publish (comms w) = INPUB_CMD_M1 -> 0 <= pending w ->
  pending w + Z.of_nat (length (concat chunks ++ lst)) <= BUFFER_SIZE ->
  callbacks inpub_cb it0 (fragments chunks lst) w
  = handled w (pending w + Z.of_nat (length (concat chunks ++ lst)))
      (write (mem w) (sub_ptr (comms w)) (concat chunks ++ lst)).
Proof.
  induction chunks as [|d chunks IH]; intros w Hb Hi Hp Hd.
  - cbn [fragments map app callbacks callback concat] in *. rewrite data_last by done.
    by destruct (handled _ _ _).
  - cbn [concat] in *. rewrite <- app_assoc, length_app in Hd.
    change (fragments (d :: chunks) lst) with (EvDataCb d 0 :: fragments chunks lst).
    cbn [callbacks callback]. rewrite data_stored by (done || lia).
    set (w1 := World _ _ _ _ _).
    assert (pending w1 = pending w + Z.of_nat (length d)) as Ep by (unfold pending, w1; cbn; lia).
    rewrite IH; [|destruct Hb; split; try done; by apply allocated_write|done|lia|lia].
    rewrite Ep, <- app_assoc, (length_app d (concat chunks ++ lst)). unfold handled.
    cbn [w1 comms mem appl mq uid_ptr set_incoming sub_ptr sub_buffer]. rewrite <- write_app.
    by rewrite Nat2Z.inj_add, <- Z.add_assoc.
Qed.

Lemma callbacks_fragments_none chunks lst w :
  incoming_publish (comms w) = INPUB_NONE -> callbacks inpub_cb it0 (fragments chunks lst) w = Some w.
Proof.
  intros Hi. assert (forall d f, mqtt_data_cb inpub_cb it0 d f w = Some w) as Hd
    by (intros; unfold mqtt_data_cb; by rewrite Hi).
  induction chunks as [|d chunks IH]; cbn [fragments map app callbacks callback]; by rewrite Hd.
Qed.

(** Whether a message is a command that fits the buffer. *)
Definition is_command w (topic : list Z) (n : Z) : bool :=
  (n <=? BUFFER_SIZE) && bool_decide (c_string (topic ++ [0]) = c_string (m1_cmd_topic (comms w))).

Lemma message_handled w topic cmd chunks lst :
  buffers_ok w -> m1_cmd_topic (comms w) = cmd ++ [0] -> nonzero cmd ->
  let n := Z.of_nat (length (concat chunks ++ lst)) in
  callbacks inpub_cb it0 (EvPubCb (topic ++ [0]) n :: fragments chunks lst) w
  = if is_command w topic n
    then handled w n (write (mem w) (sub_buffer (comms w)) (concat chunks ++ lst))
    else Some (on_comms (set_incoming (sub_buffer (comms w)) INPUB_NONE) w).
Proof.
  intros Hb Ht Hz n. cbn [callbacks callback]. unfold mqtt_pub_cb, is_command.
  rewrite Z.leb_antisym. destruct (Z.ltb_spec BUFFER_SIZE n) as [Hn|Hn]; cbn [negb andb].
  { by rewrite callbacks_fragments_none. }
  set (w0 := on_comms _ w). change (m1_cmd_topic (comms w0)) with (m1_cmd_topic (comms w)).
  rewrite Ht, (c_string_terminated cmd [] Hz), length_app, Nat.add_1_r.
  destruct (strncmp_topic cmd topic Hz) as (r & -> & ->).
  case_bool_decide; [|by rewrite callbacks_fragments_none].
  set (w1 := on_comms _ w0).
  assert (pending w1 = 0) as Hp by (unfold pending, w1, w0; cbn; lia).
  rewrite fragments_stored; [|by destruct Hb|done|lia|rewrite Hp; fold n; lia].
  rewrite Hp. fold n. by rewrite Z.add_0_l.
Qed.

(** However a PUBLISH reaches the component in fragments, the command handler
    is called exactly when the topic is the command topic of this device and
    the payload has at most 1024 bytes, once, on a context that holds exactly
    the payload; any other message leaves memory and application untouched.
    Either way the component is ready for the next message. *)
Theorem comms_reassembles (w : world T M) (topic cmd : list Z) (chunks : list (list Z)) (lst : list Z) :
  buffers_ok w -> m1_cmd_topic (comms w) = cmd ++ [0] -> nonzero cmd ->
  let payload := concat chunks ++ lst in
  let n := Z.of_nat (length payload) in
  let m := write (mem w) (sub_buffer (comms w)) payload in
  callbacks inpub_cb it0 (EvPubCb (topic ++ [0]) n :: fragments chunks lst) w
  = if is_command w topic n
    then
      match inpub_cb with
      | Some cb =>
          match cb INPUB_CMD_M1 (appl w) (snd (cw_unpack_context_init it0 (sub_buffer (comms w)) n m)) with
          | Some (a, uc) =>
              Some (World (set_incoming (sub_buffer (comms w) + n) INPUB_NONE (comms w)) (umem uc) a (mq w) (uid_ptr w))
          | None => None
          end
      | None => Some (World (set_incoming (sub_buffer (comms w) + n) INPUB_NONE (comms w)) m (appl w) (mq w) (uid_ptr w))
      end
    else Some (on_comms (set_incoming (sub_buffer (comms w)) INPUB_NONE) w).
Proof. intros Hb Ht Hz. exact (message_handled w topic cmd chunks lst Hb Ht Hz). Qed.
End Incoming.

(** ** From TCP to the motor *)

Section Command.
Context {T : Type} {tops : TcpOps T} {tlaws : TcpLaws T} {tconn : TcpConnOps T}.
Context (it0 : cwpack_item).
Notation net := (@network T motor_control_t (Some handle_incoming_command) it0).

(** The client is connected, between two messages, with the callbacks of the
    component registered. *)
Record listening (c : mqtt_client_t) : Prop := {
  li_conn : conn c = true;
  li_rx : length (rx_buffer c) = 128%nat;
  li_idle : msg_idx c = 0;
  li_pub : pub_cb c = true;
  li_data : data_cb c = true
}.

(** What the client reports when a PUBLISH arrives. *)
Lemma recv_publish (q : mstate T) topic payload retain :
  listening (client q) -> Z.of_nat (length topic) <= 121 -> payload <> [] -> Z.of_nat (length payload) < 60000 ->
  let packet := publish_packet topic payload 0 retain 0 in
  exists chunks lst c',
    mqtt_tcp_recv_cb (Some packet) ERR_OK (MState (client q) (tcp q) [])
    = Some (ERR_OK, MState c' (tcp q)
        ([EvTcpRecved (Z.of_nat (length packet))] ++
         (EvPubCb (topic ++ [0]) (Z.of_nat (length payload)) :: fragments chunks lst) ++ [EvPbufFree])) /\
    concat chunks ++ lst = payload /\ listening c' /\ conn_state c' = conn_state (client q).
Proof.
  intros [Hc Hrx Hi Hp Hd] Ht Hne Hl packet. unfold mqtt_tcp_recv_cb. mcbn. rewrite Hc.
  change (negb (ERR_OK =? ERR_OK)) with false. cbn [negb].
  set (s0 := emit_ev _ _).
  destruct (publish_delivered s0 topic payload retain) as (chunks & lst & s' & E & Hcat & Hrec); [done..|].
  fold packet in E. rewrite E. change (negb (MQTT_CONNECT_ACCEPTED =? MQTT_CONNECT_ACCEPTED)) with false.
  destruct Hrec as (Et & El & Em & Ebl & i & l & Ec). rewrite Ec in Ebl. mcbn in *.
  exists chunks, lst.
  destruct (negb (keep_alive (client s') =? 0)); eexists; (split; [|split; [exact Hcat|]]).
  1, 3: unfold on_client, emit_ev; cbn [client tcp log]; rewrite Et, El; cbn [app]; done.
  all: rewrite Ec; mcbn; (split; [split; mcbn; [done|rewrite Ebl; exact Hrx|done|done|done]|done]).
Qed.

Lemma received_input (w : world T motor_control_t) msg :
  buffers_ok w -> Z.of_nat (length msg) + 9 <= BUFFER_SIZE ->
  let n := Z.of_nat (length msg) in
  let uc := snd (cw_unpack_context_init it0 (sub_buffer (comms w)) n (write (mem w) (sub_buffer (comms w)) msg)) in
  input uc (msg ++ []) /\ allocated (umem uc) (ucurrent (uctx uc)) (n + 9) /\ ureturn_code (uctx uc) = 0.
Proof.
  intros [Hl Ht Ha] Hm n uc. unfold BUFFER_SIZE in *.
  assert (u32 (sub_buffer (comms w) + n) = sub_buffer (comms w) + n) as Eu by (apply u32_small; unfold n; lia).
  split; [|split; [|done]].
  - rewrite app_nil_r. split; cbn [uc snd cw_unpack_context_init umem uctx ucurrent uend]; rewrite ?Eu.
    + apply load_write.
    + lia.
    + unfold n. lia.
    + unfold n. lia.
  - cbn [uc snd cw_unpack_context_init umem uctx ucurrent]. apply allocated_write.
    eapply allocated_sub; [exact Ha|lia|unfold n; lia].
Qed.

End Command.

(** ** Outgoing messages *)

Section Outgoing.
Context {T M : Type} {tops : TcpOps T} {tlaws : TcpLaws T} {tconn : TcpConnOps T}.
Context (telem_cb : option (M -> pack_state -> option (Z * pack_state))).
Implicit Types w : world T M.

Record pub_buffer_ok w : Prop := {
  pub_low : 0 <= pub_buffer (comms w);
  pub_top : pub_buffer (comms w) + BUFFER_SIZE + 9 < 2 ^ 32;
  pub_alloc : allocated (mem w) (pub_buffer (comms w)) BUFFER_SIZE
}.

(** A pack context on the publish buffer. *)
Definition fresh_context w : pack_state :=
  snd (cw_pack_context_init (pub_buffer (comms w)) BUFFER_SIZE (mem w)).

(** The context after items have been packed. *)
Definition packed (cs : list pack_cmd) w : pack_state :=
  PackState (set_current (pub_buffer (comms w) + Z.of_nat (length (enc_all cs))) (ctx (fresh_context w)))
    (write (mem w) (pub_buffer (comms w)) (enc_all cs)).

Lemma pack_fresh cs w :
  pub_buffer_ok w -> Forall cmd_ok cs -> Z.of_nat (length (enc_all cs)) <= BUFFER_SIZE ->
  pack_all cs (fresh_context w) = Some (packed cs w).
Proof.
  intros [Hl Ht Ha] Hok Hn. unfold BUFFER_SIZE in *.
  assert (end_ (ctx (fresh_context w)) = pub_buffer (comms w) + 1024) as He
    by (cbn; unfold BUFFER_SIZE; apply u32_small; lia).
  assert (current (ctx (fresh_context w)) = pub_buffer (comms w)) as Ec by done.
  assert (start (ctx (fresh_context w)) = pub_buffer (comms w)) as Es by done.
  apply pack_all_write; rewrite ?He, ?Ec; try done; try lia.
  split; rewrite ?He, ?Ec, ?Es; try lia. eapply allocated_sub; [exact Ha|lia|lia].
Qed.

Lemma publish_packed_eq topic cs w :
  pub_buffer_ok w -> Z.of_nat (length (enc_all cs)) <= BUFFER_SIZE ->
  publish_packed topic (packed cs w) w
  = match mqtt_publish topic (Some (enc_all cs)) (Z.of_nat (length (enc_all cs))) 0 0 None 0 (mq w) with
    | Some (err, q) => Some (err, with_mq q (with_mem (write (mem w) (pub_buffer (comms w)) (enc_all cs)) w))
    | None => None
    end.
Proof.
  intros [Hl Ht Ha] Hn. unfold BUFFER_SIZE in *. unfold publish_packed.
  cbn [packed ctx set_current current start pmem fresh_context cw_pack_context_init snd].
  replace (pub_buffer (comms w) + Z.of_nat (length (enc_all cs)) - pub_buffer (comms w))
    with (Z.of_nat (length (enc_all cs))) by lia.
  assert (s32 (Z.of_nat (length (enc_all cs))) = Z.of_nat (length (enc_all cs))) as ->
    by (apply swrap_small; lia).
  rewrite u16_small by lia. by rewrite Nat2Z.id, load_write.
Qed.

(** Publishing packed items adds their encoding as one PUBLISH packet. *)
Lemma publish_packed_spec topic cs w l ex :
  pub_buffer_ok w -> Forall cmd_ok cs -> Z.of_nat (length (enc_all cs)) <= BUFFER_SIZE ->
  client_ok (client (mq w)) l ex -> bytes topic -> Z.of_nat (length topic) <= 1000 -> bytes (enc_all cs) ->
  exists err q,
    publish_packed topic (packed cs w) w
      = Some (err, with_mq q (with_mem (write (mem w) (pub_buffer (comms w)) (enc_all cs)) w)) /\
    sent_only (client (mq w)) (client q) /\
    if conn_state (client (mq w)) =? TCP_DISCONNECTED then err = ERR_CONN /\ q = mq w
    else enqueued (mq w) q l ex err 0 (publish_packet topic (enc_all cs) 0 0 0).
Proof.
  intros Hp Hcs Hn Hok Ht Htl Hb. rewrite (publish_packed_eq topic cs w Hp Hn). unfold BUFFER_SIZE in *.
  destruct (publish_spec (mq w) l ex topic (enc_all cs) 0 0 None 0 Hok Ht Hb) as (err & q & -> & Ho & H); [lia|].
  by exists err, q.
Qed.

(** ** Heartbeat *)

Definition uptime_items (t : Z) : list pack_cmd := [PMap 1; PStr str_uptime; PUnsigned t].

Lemma enc_unsigned_bytes i :
  is_u 32 i -> bytes (enc_unsigned i) /\ Z.of_nat (length (enc_unsigned i)) <= 5.
Proof.
  intros Hi. unfold is_u in Hi. unfold enc_unsigned. pose proof (bytes_be_bytes 2 i). pose proof (bytes_be_bytes 4 i).
  destruct (Z.ltb_spec i 128); [split; [constructor; [unfold is_byte; lia|constructor]|cbn [length]; lia]|].
  destruct (Z.ltb_spec i 256);
    [split; [repeat (constructor; [unfold is_byte; lia|]); constructor|cbn [length]; lia]|].
  destruct (Z.ltb_spec i 0x10000);
    [split; [constructor; [unfold is_byte; lia|done]|cbn [length]; rewrite length_be_bytes; lia]|].
  destruct (Z.ltb_spec i 0x100000000); [|lia].
  split; [constructor; [unfold is_byte; lia|done]|cbn [length]; rewrite length_be_bytes; lia].
Qed.

Lemma enc_uptime t : enc_all (uptime_items t) = (0x81 :: 0xa6 :: str_uptime) ++ enc_unsigned t.
Proof. unfold uptime_items, enc_all. cbn [map concat]. by rewrite app_nil_r. Qed.

Lemma uptime_ok t : is_u 32 t ->
  Forall cmd_ok (uptime_items t) /\ bytes (enc_all (uptime_items t)) /\
  Z.of_nat (length (enc_all (uptime_items t))) <= 13.
Proof.
  intros Ht. destruct (enc_unsigned_bytes t Ht) as [Hb Hl]. split.
  { unfold uptime_items. repeat apply List.Forall_cons; try done.
    - split; [by repeat constructor|done].
    - unfold is_u in *. cbn. unfold is_u. lia. }
  rewrite enc_uptime. split; [apply Forall_app_2; [by repeat constructor|done]|].
  rewrite length_app, Nat2Z.inj_add. change (Z.of_nat (length (0x81 :: 0xa6 :: str_uptime))) with 8. lia.
Qed.

Lemma heartbeat_packs topic t w :
  heartbeat topic t w =
    if HEARTBEAT_INTERVAL <=? TIME_I2MS (u32 (t - time_last_heartbeat (comms w))) then
      match pack_all (uptime_items t) (fresh_context w) with
      | Some pc => match publish_packed topic pc w with
                   | Some (err, w') => Some (err, on_comms (set_heartbeat t) w')
                   | None => None
                   end
      | None => None
      end
    else Some (ERR_OK, w).
Proof.
  unfold heartbeat. destruct (_ <=? _); [|done]. fold (fresh_context w). unfold pack_all, uptime_items. cbn [pack].
  change (Z.of_nat (length str_uptime)) with 6.
  destruct (exec (cw_pack_map_size None 1) _); [|done].
  destruct (exec (cw_pack_str None str_uptime 6) _); [|done].
  by destruct (exec (cw_pack_unsigned None t) _).
Qed.

(** The interval of one second, in ticks of 100 microseconds, rounded up. *)
Lemma heartbeat_due k : is_u 32 k -> (HEARTBEAT_INTERVAL <=? TIME_I2MS k) = (9991 <=? k).
Proof.
  intros Hk. unfold is_u, HEARTBEAT_INTERVAL, TIME_I2MS, CH_CFG_ST_FREQUENCY in *.
  rewrite u64_small, u32_small by (Z.div_mod_to_equations; lia).
  destruct (Z.leb_spec 9991 k); [apply Z.leb_le|apply Z.leb_gt]; Z.div_mod_to_equations; lia.
Qed.

Lemma heartbeat_spec w topic t l ex :
  pub_buffer_ok w -> client_ok (client (mq w)) l ex -> is_u 32 t -> bytes topic -> Z.of_nat (length topic) <= 1000 ->
  if 9991 <=? u32 (t - time_last_heartbeat (comms w)) then
    exists err q, heartbeat topic t w = Some (err, on_comms (set_heartbeat t) (with_mq q
        (with_mem (write (mem w) (pub_buffer (comms w)) (enc_all (uptime_items t))) w))) /\
      sent_only (client (mq w)) (client q) /\
      if conn_state (client (mq w)) =? TCP_DISCONNECTED then err = ERR_CONN /\ q = mq w
      else enqueued (mq w) q l ex err 0 (publish_packet topic (enc_all (uptime_items t)) 0 0 0)
  else heartbeat topic t w = Some (ERR_OK, w).
Proof.
  intros Hp Hok Ht Hb Hl. rewrite heartbeat_packs, heartbeat_due by (apply wrap_range; lia).
  destruct (9991 <=? _); [|done]. destruct (uptime_ok t Ht) as (Hcs & Hbs & Hn).
  rewrite (pack_fresh _ w Hp Hcs) by (unfold BUFFER_SIZE; lia).
  destruct (publish_packed_spec topic (uptime_items t) w l ex Hp Hcs) as (err & q & -> & H);
    [unfold BUFFER_SIZE; lia|done..|].
  by exists err, q.
Qed.

(** The heartbeat is published exactly when 999.1 ms have passed since the
    last one, also across the wrap-around of the system time: one PUBLISH packet
    whose payload is the MessagePack map from "uptime" to the time in ticks is
    appended to the outgoing stream (or [ERR_MEM] or [ERR_CONN] says why not),
    and the next interval starts; before that nothing happens. *)
Theorem heartbeat_published (w : world T M) (topic : list Z) (t : Z) (l ex : list nat) :
  pub_buffer_ok w -> client_ok (client (mq w)) l ex -> is_u 32 t ->
  bytes topic -> Z.of_nat (length topic) <= 1000 ->
  exists err w', heartbeat topic t w = Some (err, w') /\
    if 9991 <=? u32 (t - time_last_heartbeat (comms w)) then
      time_last_heartbeat (comms w') = t /\
      (if conn_state (client (mq w)) =? TCP_DISCONNECTED then err = ERR_CONN /\ mq w' = mq w
       else enqueued (mq w) (mq w') l ex err 0
         (publish_packet topic ((0x81 :: 0xa6 :: str_uptime) ++ enc_unsigned t) 0 0 0))
    else err = ERR_OK /\ w' = w.
Proof.
  intros Hp Hok Ht Hb Hl. pose proof (heartbeat_spec w topic t l ex Hp Hok Ht Hb Hl) as H.
  destruct (9991 <=? _); [|by eexists _, _]. destruct H as (err & q & -> & _ & H). rewrite enc_uptime in H.
  eexists _, _. split; [done|]. by split.
Qed.
End Outgoing.

(** ** Telemetry *)

Section Telemetry.
Context {T : Type} {tops : TcpOps T} {tlaws : TcpLaws T} {tconn : TcpConnOps T}.
Notation telem := (@telemetry T motor_control_t tops (Some dispatch_telemetry)).

Definition telemetry_items (mc : motor_control_t) : list pack_cmd :=
  [PMap 1; PStr str_i_a; PFloat (f32_to_bits (i_a mc))].

Lemma telemetry_items_ok mc : is_u 32 (f32_to_bits (i_a mc)) ->
  Forall cmd_ok (telemetry_items mc) /\ bytes (enc_all (telemetry_items mc)) /\
  Z.of_nat (length (enc_all (telemetry_items mc))) = 10.
Proof.
  intros Hf. unfold telemetry_items. split.
  { repeat apply List.Forall_cons; try done. split; [by repeat constructor|done]. }
  unfold enc_all. cbn [map concat]. rewrite app_nil_r.
  change (enc1 (PFloat ?f)) with (0xca :: be_bytes 4 f). split; [|by rewrite !length_app].
  apply Forall_app_2; [by repeat constructor|]. apply Forall_app_2; [by repeat constructor|].
  constructor; [done|]. apply bytes_be_bytes.
Qed.

Lemma telemetry_spec (w : world T motor_control_t) (topic : list Z) (t next : Z) l ex :
  pub_buffer_ok w -> client_ok (client (mq w)) l ex -> is_u 32 (f32_to_bits (i_a (appl w))) ->
  m1_telem_topic (comms w) = topic ++ [0] -> nonzero topic -> bytes topic -> Z.of_nat (length topic) <= 1000 ->
  next < t ->
  exists err q, telem t next w = Some (u32 (t + 200), with_mq q
      (with_mem (write (mem w) (pub_buffer (comms w)) (enc_all (telemetry_items (appl w)))) w)) /\
    sent_only (client (mq w)) (client q) /\
    if conn_state (client (mq w)) =? TCP_DISCONNECTED then q = mq w
    else enqueued (mq w) q l ex err 0 (publish_packet topic (enc_all (telemetry_items (appl w))) 0 0 0).
Proof.
  intros Hp Hok Hf Ht Hz Hb Hl Hn. unfold telemetry. rewrite (proj2 (Z.ltb_lt _ _) Hn). fold (fresh_context w).
  rewrite dispatch_telemetry_packs. fold (telemetry_items (appl w)).
  destruct (telemetry_items_ok _ Hf) as (Hcs & Hbs & Hlen).
  rewrite (pack_fresh _ w Hp Hcs) by (unfold BUFFER_SIZE; lia).
  rewrite Ht, (c_string_terminated topic [] Hz).
  destruct (publish_packed_spec topic (telemetry_items (appl w)) w l ex Hp Hcs) as (err & q & -> & Ho & H);
    [unfold BUFFER_SIZE; lia|done..|].
  exists err, q. split; [done|]. split; [done|]. by destruct (_ =? _); [destruct H|].
Qed.

(** The telemetry schedule breaks at the wrap-around of the system time: a
    message sent 201 ticks before it is published as it should be, but sets the
    next time to the largest tick, which no later reading exceeds, so no
    telemetry is ever sent again on this connection. *)
Theorem telemetry_stops_at_wrap (w : world T motor_control_t) (topic : list Z) (next : Z) (l ex : list nat) :
  pub_buffer_ok w -> client_ok (client (mq w)) l ex -> is_u 32 (f32_to_bits (i_a (appl w))) ->
  m1_telem_topic (comms w) = topic ++ [0] -> nonzero topic -> bytes topic -> Z.of_nat (length topic) <= 1000 ->
  conn_state (client (mq w)) <> TCP_DISCONNECTED -> next < 2 ^ 32 - 201 ->
  exists err w1, telem (2 ^ 32 - 201) next w = Some (2 ^ 32 - 1, w1) /\
    enqueued (mq w) (mq w1) l ex err 0 (publish_packet topic (enc_all (telemetry_items (appl w))) 0 0 0) /\
    forall (t : Z) (w2 : world T motor_control_t), is_u 32 t -> telem t (2 ^ 32 - 1) w2 = Some (2 ^ 32 - 1, w2).
Proof.
  intros Hp Hok Hf Ht Hz Hb Hl Hc Hn.
  destruct (telemetry_spec w topic _ next l ex Hp Hok Hf Ht Hz Hb Hl Hn) as (err & q & E & _ & H).
  rewrite (proj2 (Z.eqb_neq _ _) Hc) in H. exists err. eexists. split; [exact E|]. split; [exact H|].
  intros t w2 Ht2. unfold is_u in Ht2. unfold telemetry. rewrite (proj2 (Z.ltb_ge _ _)) by lia. done.
Qed.
End Telemetry.
