(* ===== verification/CommsSystem.v ===== *)
(** * The communication component as a system

    The communication thread, the network thread with the MQTT client and the
    motor interrupt work on shared state, in steps that do not interrupt each
    other: the thread from sleep to sleep, the client's work on a network event,
    and each callback.  The thread's steps never fault, every order of steps
    preserves the invariant of the system, and a session is established whenever
    the server answers. *)

From Stdlib Require Import ZArith Lia SpecFloat.
From stdpp Require Import base gmap list option numbers relations.
From S2P Require Import Prelude Float32 Cwpack CwpackSpec CwpackProof CwUnpack CwDecode CwRoundtrip.
From S2P Require Import Util ChTime Motor Command.
From S2P Require Import MqttRing MqttReq Mqtt MqttInv MqttSend MqttParse MqttDeliver MqttState MqttSession.
From S2P Require Import Comms CommsProof.
From stdpp Require Import sets list.
Import OptionNotations.

Local Open Scope Z_scope.

(** ** Topics of the device *)

Lemma nibble_char n : 48 <= nibbleToHex n <= 70.
Proof.
  pose proof (digit_value_nibble n) as H. unfold digit_value in H.
  destruct (Z.leb_spec 48 (nibbleToHex n)), (Z.leb_spec (nibbleToHex n) 57); cbn [andb] in H; [lia| | |];
    destruct (Z.leb_spec 65 (nibbleToHex n)), (Z.leb_spec (nibbleToHex n) 70); cbn [andb] in H; done || lia.
Qed.

(** A topic of the firmware: a C string of bytes. *)
Record topic_ok (t : list Z) : Prop := {
  tp_nonzero : nonzero t;
  tp_bytes : bytes t;
  tp_length : Z.of_nat (length t) <= 121
}.

Lemma hex_chars l : nonzero (hex_of l) /\ bytes (hex_of l).
Proof.
  unfold hex_of. induction l as [|b l [IH1 IH2]]; [by split; constructor|]. cbn [map concat].
  pose proof (nibble_char (Z.shiftr b 4)). pose proof (nibble_char b).
  split; (constructor; [|constructor; [|done]]); unfold is_byte; lia.
Qed.

(** A topic literal with the device's identifier. *)
Definition with_id (base : list Z) (id : list Z) : list Z := take 11 base ++ id ++ drop 35 base.

Lemma make_topic_ok base id :
  length id = 24%nat -> (35 <= length (chars base))%nat ->
  make_topic base id = Some (with_id (chars base) id ++ [0]).
Proof.
  intros Hid Hb. unfold make_topic, copy_at. rewrite length_app. cbn [length].
  rewrite decide_True by lia. rewrite list_inserts_eq by (rewrite length_app; cbn [length]; lia).
  rewrite Hid. unfold with_id. rewrite take_app_le, drop_app_le by lia. by rewrite <- !app_assoc.
Qed.

Lemma with_id_ok base id :
  topic_ok base -> nonzero id -> bytes id -> (length id <= 24)%nat -> (35 <= length base)%nat ->
  topic_ok (with_id base id).
Proof.
  intros [H1 H2 H3] Hn Hb Hl Hbl. unfold with_id.
  split; try (apply Forall_app_2; [by apply Forall_take|]; apply Forall_app_2; [done|by apply Forall_drop]).
  rewrite !length_app, length_take, length_drop. lia.
Qed.

Lemma literal_topics :
  topic_ok (chars M1_CMD) /\ topic_ok (chars M1_TELEM) /\ topic_ok (chars HEARTBEAT_TOPIC_BASE).
Proof.
  assert (forall t, forallb (fun c => (0 <? c) && (c <? 256)) t = true -> Z.of_nat (length t) <= 121 -> topic_ok t)
    as H.
  { intros t Ht Hl.
    assert (Forall (fun c => 0 < c < 256) t) as Hf.
    { apply Forall_forall. intros c Hc. apply list_elem_of_In in Hc.
      pose proof (proj1 (forallb_forall _ t) Ht c Hc) as E. apply andb_prop in E as [E1 E2].
      apply Z.ltb_lt in E1. apply Z.ltb_lt in E2. lia. }
    split; [| |done]; (eapply Forall_impl; [exact Hf|]); intros c Hc; cbn in *; unfold is_byte; lia. }
  split; [|split]; apply H; vm_compute; done || discriminate.
Qed.

(** ** The firmware *)

Section System.
Context {T : Type} {tops : TcpOps T} {tlaws : TcpLaws T} {tconn : TcpConnOps T}.
Context (it0 : cwpack_item) (uid_buf : Z).
Notation fworld := (world T motor_control_t).
Notation step := (@_CommTask T motor_control_t tops tconn (Some dispatch_telemetry) uid_buf).
Implicit Types w : fworld.

(** The local [heartbeat_topic] of a running thread. *)
Definition thread_topic (th : thread) : option (list Z) :=
  match th with
  | Start => None
  | Backoff hb | Await hb | Running hb _ => Some hb
  end.

(** The invariant of the system once the thread has started. *)
Record system_ok (th : thread) w : Prop := {
  so_client : inv (mq w);
  so_sub : buffers_ok w;
  so_pub : pub_buffer_ok w;
  so_recv : incoming_publish (comms w) <> INPUB_NONE -> 0 <= pending w <= BUFFER_SIZE;
  so_cmd : exists t, m1_cmd_topic (comms w) = t ++ [0] /\ topic_ok t;
  so_telem : exists t, m1_telem_topic (comms w) = t ++ [0] /\ topic_ok t;
  so_hb : exists hb, thread_topic th = Some hb /\ topic_ok hb;
  so_ia : is_u 32 (f32_to_bits (i_a (appl w)))
}.

Lemma system_ok_thread th th' w : system_ok th w -> thread_topic th' = thread_topic th -> system_ok th' w.
Proof. intros [H1 H2 H3 H4 H5 H6 H7 H8] E. split; try done. by rewrite E. Qed.

Lemma system_ok_status th w st r : system_ok th w -> system_ok th (on_comms (set_connection st r) w).
Proof. intros [H1 H2 H3 H4 H5 H6 H7 H8]. split; try done; [by destruct H2|by destruct H3]. Qed.

Lemma system_ok_mq th w q : system_ok th w -> inv q -> system_ok th (with_mq q w).
Proof. intros [H1 H2 H3 H4 H5 H6 H7 H8] Hq. split; try done; [by destruct H2|by destruct H3]. Qed.

Lemma system_ok_mem th w a l : system_ok th w -> system_ok th (with_mem (write (mem w) a l) w).
Proof.
  intros [H1 H2 H3 H4 H5 H6 H7 H8]. split; try done.
  - destruct H2. split; try done. by apply allocated_write.
  - destruct H3. split; try done. by apply allocated_write.
Qed.

Lemma enqueued_inv (s s' : mstate T) l ex err id msg : enqueued s s' l ex err id msg -> inv s'.
Proof.
  intros [(_ & _ & n & ex' & H & _)|(_ & _ & _ & H & _)]; [by exists (l ++ [n]), ex'|by exists l, ex].
Qed.

(** The outgoing stream only grows. *)
Definition extends (s s' : mstate T) : Prop := exists bs, stream s' = stream s ++ bs.

Lemma extends_refl s : extends s s.
Proof. exists []. by rewrite app_nil_r. Qed.

Lemma extends_trans s1 s2 s3 : extends s1 s2 -> extends s2 s3 -> extends s1 s3.
Proof. intros [b1 E1] [b2 E2]. exists (b1 ++ b2). by rewrite E2, E1, app_assoc. Qed.

Lemma enqueued_extends (s s' : mstate T) l ex err id msg : enqueued s s' l ex err id msg -> extends s s'.
Proof.
  intros [(_ & H & _)|(_ & Ht & Ho & _)]; [by exists msg|].
  exists []. unfold stream. by rewrite Ht, Ho, app_nil_r.
Qed.

Lemma telemetry_step th w t next :
  system_ok th w ->
  exists next' w', @telemetry T motor_control_t tops (Some dispatch_telemetry) t next w = Some (next', w') /\
    system_ok th w' /\ comms w' = comms w /\ extends (mq w) (mq w') /\
    sent_only (client (mq w)) (client (mq w')).
Proof.
  intros Hs. pose proof Hs as [[l [ex Hok]] _ Hp _ _ (tt & Ett & [Hz Hb Hl]) _ Hia].
  destruct (Z.ltb_spec next t) as [Hn|Hn].
  - destruct (telemetry_spec w tt t next l ex Hp Hok Hia Ett Hz Hb) as (err & q & E & Ho & H); [lia|done|].
    eexists _, _. split; [exact E|].
    assert (inv q /\ extends (mq w) q) as [Hi He].
    { destruct (_ =? _); [subst; split; [by exists l, ex|apply extends_refl]|].
      split; [by eapply enqueued_inv|by eapply enqueued_extends]. }
    split; [|done]. apply system_ok_mq; [by apply system_ok_mem|done].
  - exists next, w. unfold telemetry. rewrite (proj2 (Z.ltb_ge _ _) Hn).
    split; [done|]. split; [done|]. split; [done|]. split; [apply extends_refl|apply sent_only_refl].
Qed.

Lemma heartbeat_step th w hb t :
  system_ok th w -> thread_topic th = Some hb -> is_u 32 t ->
  exists err w', heartbeat hb t w = Some (err, w') /\ system_ok th w' /\
    m1_cmd_topic (comms w') = m1_cmd_topic (comms w) /\ extends (mq w) (mq w') /\
    sent_only (client (mq w)) (client (mq w')).
Proof.
  intros Hs Eh Ht. pose proof Hs as [[l [ex Hok]] _ Hp _ _ _ (hb' & Eh' & [Hz Hb Hl]) _].
  rewrite Eh in Eh'. injection Eh' as <-.
  pose proof (heartbeat_spec w hb t l ex Hp Hok Ht Hb ltac:(lia)) as H.
  destruct (9991 <=? _);
    [|exists ERR_OK, w; split; [exact H|]; split; [done|]; split; [done|];
      split; [apply extends_refl|apply sent_only_refl]].
  destruct H as (err & q & -> & Ho & H). eexists _, _. split; [done|].
  assert (inv q /\ extends (mq w) q) as [Hi He].
  { destruct (_ =? _); [destruct H as [_ ->]; split; [by exists l, ex|apply extends_refl]|].
    split; [by eapply enqueued_inv|by eapply enqueued_extends]. }
  split; [|done]. apply (system_ok_mem th w (pub_buffer (comms w)) (enc_all (uptime_items t))) in Hs.
  apply (system_ok_mq _ _ q) in Hs; [|done]. destruct Hs as [H1 H2 H3 H4 H5 H6 H7 H8].
  split; try done; [by destruct H2|by destruct H3].
Qed.

(** Result of a step: a state in which the invariant holds, and a sleep. *)
Definition step_ok (r : option (thread * Z * fworld)) : Prop :=
  exists th d w, r = Some (th, d, w) /\ 0 < d /\ system_ok th w.

Lemma run_loop_step th w hb next t1 t2 :
  system_ok th w -> thread_topic th = Some hb -> is_u 32 t2 ->
  step_ok (@run_loop T motor_control_t tops (Some dispatch_telemetry) hb next t1 t2 w).
Proof.
  intros Hs Eh Ht. unfold run_loop. destruct (_ =? _).
  - destruct (telemetry_step th w t1 next Hs) as (next' & w1 & -> & Hs1 & _).
    destruct (heartbeat_step th w1 hb t2 Hs1 Eh Ht) as (err & w2 & -> & Hs2 & _).
    eexists _, _, _. split; [done|]. split; [done|]. by apply (system_ok_thread th).
  - eexists _, _, _. split; [done|]. split; [done|].
    apply (system_ok_thread th); [by apply system_ok_status|done].
Qed.

Lemma await_step th w hb t0 t1 t2 :
  system_ok th w -> thread_topic th = Some hb -> is_u 32 t2 ->
  step_ok (@await T motor_control_t tops (Some dispatch_telemetry) hb t0 t1 t2 w).
Proof.
  intros Hs Eh Ht. unfold await. destruct (negb (connection_response_received _)).
  { eexists _, _, _. split; [done|]. split; [done|]. by apply (system_ok_thread th). }
  destruct (negb _).
  { eexists _, _, _. split; [done|]. split; [done|].
    apply (system_ok_thread th); [by apply system_ok_status|done]. }
  pose proof Hs as [Hi _ _ _ (ct & Ec & [Hz Hb Hl]) _ _ _].
  set (w1 := with_mq _ w). assert (system_ok th w1) as Hs1
    by (apply system_ok_mq; [done|]; apply (minor_inv (mq w)); [done|done]).
  pose proof (so_client _ _ Hs1) as (l & ex & Hok).
  change (m1_cmd_topic (comms w1)) with (m1_cmd_topic (comms w)). rewrite Ec, (c_string_terminated ct [] Hz).
  destruct (subscribe_spec (mq w1) l ex ct 0 1 None 0 Hok Hb) as (err & q & -> & _ & H); [lia|lia|].
  apply (run_loop_step th); [|done|done]. apply system_ok_mq; [done|].
  destruct (_ =? _); [destruct H as [_ ->]; by exists l, ex|]. destruct H as [_ H]. by eapply enqueued_inv.
Qed.

Lemma client_info_ok : connect_info_ok client_info.
Proof. split; [split; [by repeat constructor|done]|done|done]. Qed.

Lemma thread_step th w t0 t1 t2 :
  system_ok th w -> is_u 32 t2 -> step_ok (step th t0 t1 t2 w).
Proof.
  intros Hs Ht. pose proof (so_hb _ _ Hs) as (hb & Eh & Hhb).
  destruct th as [|hb'|hb'|hb' next]; [done|..]; injection Eh as <-; cbn [_CommTask].
  - destruct (connect_spec (mq w) true client_info client_info_ok) as (q & -> & Hq).
    assert (inv q) as Hi.
    { destruct (conn_state (client (mq w)) =? TCP_DISCONNECTED); [destruct Hq as [Hq _]; by exists [], []|].
      subst. apply Hs. }
    apply (system_ok_mq _ _ q) in Hs; [|done].
    destruct (negb _); [|by eapply await_step].
    eexists _, _, _. split; [done|]. by split.
  - by eapply await_step.
  - by eapply run_loop_step.
Qed.

(** ** Callbacks from the network thread *)

Notation handler := (Some handle_incoming_command).

Lemma data_cb_ok th w d f w' :
  system_ok th w -> mqtt_data_cb handler it0 d f w = Some w' -> system_ok th w'.
Proof.
  intros Hs. unfold mqtt_data_cb. destruct (Z.eqb_spec (incoming_publish (comms w)) INPUB_NONE) as [Hi|Hi];
    [by intros [= <-]|].
  pose proof (wrap_range 16 (Z.of_nat (length d)) ltac:(lia)) as Hlen.
  change (wrap 16 ?x) with (u16 x) in Hlen. set (n := u16 (Z.of_nat (length d))) in *. unfold is_u in Hlen.
  pose proof Hs as [H1 [Hl Ht Ha] [Hl' Ht' Ha'] H4 H5 H6 H7 H8]. specialize (H4 Hi).
  unfold pending, BUFFER_SIZE in *. rewrite u32_small by lia.
  destruct (Z.ltb_spec 1024 (sub_ptr (comms w) - sub_buffer (comms w) + n)) as [Hb|Hb]; [by intros [= <-]|].
  unfold store. destruct (allocatedb _ _ _); [|done]. cbn [store].
  set (w1 := on_comms _ _).
  assert (system_ok th w1) as Hs1.
  { split; try done; [split; try done; by apply allocated_write|split; try done; by apply allocated_write|].
    intros _. unfold pending, w1, BUFFER_SIZE. cbn. lia. }
  clearbody w1. destruct (truthy _); [|by intros [= <-]].
  unfold process_incoming_publish. destruct (handle_incoming_command _ _ _) as [[mc uc]|] eqn:E; [|done].
  apply command_keeps in E as [Em Ei]. intros [= <-].
  destruct Hs1 as [G1 [Gl Gt Ga] [Gl' Gt' Ga'] G4 G5 G6 G7 G8].
  change (umem uc = mem w1) in Em. split; try done.
  - split; try done. cbn [mem on_comms]. by rewrite Em.
  - split; try done. cbn [mem on_comms]. by rewrite Em.
  - cbn [appl on_comms]. by rewrite Ei.
Qed.

Lemma callback_ok th w e w' :
  system_ok th w -> callback handler it0 e w = Some w' -> system_ok th w'.
Proof.
  intros Hs. destruct e; cbn [callback]; try (by intros [= <-]).
  - intros [= <-]. by apply system_ok_status.
  - unfold mqtt_pub_cb. set (w0 := on_comms _ w).
    assert (system_ok th w0) as Hs0 by (destruct Hs as [H1 [] [] H4 H5 H6 H7 H8]; split; try done; by intros []).
    destruct (_ <? _); [by intros [= <-]|]. destruct (strncmp_arrays _ _ _) as [r|]; [|done].
    destruct (r =? 0); intros [= <-]; [|done]. destruct Hs0 as [H1 [] [] H4 H5 H6 H7 H8].
    split; try done. intros _. unfold pending, BUFFER_SIZE, w0. cbn. lia.
  - by apply data_cb_ok.
Qed.

(** ** Interleaving of steps *)

(** What the network thread does with the client: TCP events for the pcb the
    client holds, and its timer. *)
Inductive net_step : mstate T -> mstate T -> Prop :=
| net_connected err s r s' :
    conn_state (client s) = TCP_CONNECTING -> mqtt_tcp_connect_cb err s = Some (r, s') -> net_step s s'
| net_recv p err s r s' : mqtt_tcp_recv_cb p err s = Some (r, s') -> net_step s s'
| net_sent s r s' : conn (client s) = true -> mqtt_tcp_sent_cb s = Some (r, s') -> net_step s s'
| net_poll s : conn (client s) = true -> net_step s (snd (mqtt_tcp_poll_cb s))
| net_err s s' : mqtt_tcp_err_cb s = Some s' -> net_step s s'
| net_timer s s' : mqtt_cyclic_timer s = Some s' -> net_step s s'.

Lemma net_mqtt_step s s' : net_step s s' -> mqtt_step s s'.
Proof.
  destruct 1 as [err s r s' Hc E|p err s r s' E|s r s' Hc E|s Hc|s s' E|s s' E].
  - exact (step_connected err s r s' Hc E).
  - exact (step_recv p err s r s' E).
  - exact (step_sent s r s' Hc E).
  - exact (step_poll s Hc).
  - exact (step_err s s' E).
  - exact (step_timer s s' E).
Qed.

(** One step of the whole; between the steps, the callbacks that the network thread
    still has to make for the event it handles.  The thread runs from one sleep
    to the next, between any two callbacks; the network thread takes the next
    event when it has made the callbacks of the one before, the client's own
    work of an event being one step and each callback another; the motor
    interrupt may measure any current.  A step is not interrupted by another. *)
Inductive sys_step : thread * fworld * list mqtt_event -> thread * fworld * list mqtt_event -> Prop :=
| sys_thread th w evs t0 t1 t2 th' d w' :
    is_u 32 t2 -> step th t0 t1 t2 w = Some (th', d, w') -> sys_step (th, w, evs) (th', w', evs)
| sys_network th w q :
    net_step (MState (client (mq w)) (tcp (mq w)) []) q ->
    sys_step (th, w, []) (th, with_mq (MState (client q) (tcp q) []) w, log q)
| sys_callback th w e evs w' :
    callback handler it0 e w = Some w' -> sys_step (th, w, e :: evs) (th, w', evs)
| sys_motor th w evs mc :
    is_u 32 (f32_to_bits (i_a mc)) ->
    sys_step (th, w, evs) (th, World (comms w) (mem w) mc (mq w) (uid_ptr w), evs).

Definition state_ok (x : thread * fworld * list mqtt_event) : Prop := system_ok x.1.1 x.1.2.

Lemma sys_step_ok x y : sys_step x y -> state_ok x -> state_ok y.
Proof.
  unfold state_ok. intros [th w evs t0 t1 t2 th' d w' Ht E|th w q Hn|th w e evs w' E|th w evs mc Hmc]; cbn [fst snd]; intros Hs.
  - destruct (thread_step th w t0 t1 t2 Hs Ht) as (a & e & v & E' & _ & Hv). rewrite E in E'. by simplify_eq.
  - apply system_ok_mq; [done|]. assert (inv q) as (l & ex & Hq); [|by exists l, ex].
    eapply step_inv; [by apply net_mqtt_step|]. destruct (so_client _ _ Hs) as (l & ex & Hok). by exists l, ex.
  - by eapply callback_ok.
  - destruct Hs as [H1 [] [] H4 H5 H6 H7 H8]. by split.
Qed.

Lemma system_reaches x y : rtc sys_step x y -> state_ok x -> state_ok y.
Proof. induction 1 as [|x y z Hxy _ IH]; [done|]. intros Hx. apply IH. by eapply sys_step_ok. Qed.

(** C25: The communication thread never fails.  The state is one that a started
    system reaches by steps of the thread from sleep to sleep, network events
    (with any data from the server, as long as the client itself does not fault
    on it), the callbacks of these events one by one, and the motor interrupt, in any
    order in which a step ends before the next begins; in particular the thread
    may run between two callbacks of one event.  In every such state the
    thread's next step returns: no access outside a buffer, no halt, and it ends
    in a sleep; and received data only ever goes to the 1024 bytes of the receive
    buffer.  The theorem does not cover the thread preempting the network thread
    inside a function of the client or a callback, which no lock in the code
    prevents. *)
Theorem comms_thread_never_fails (th0 th : thread) (w0 w : fworld) (evs : list mqtt_event) (t0 t1 t2 : Z) :
  system_ok th0 w0 -> rtc sys_step (th0, w0, []) (th, w, evs) -> is_u 32 t2 ->
  (exists th' d w', step th t0 t1 t2 w = Some (th', d, w') /\ 0 < d /\ system_ok th' w') /\
  (incoming_publish (comms w) <> INPUB_NONE ->
   sub_buffer (comms w) <= sub_ptr (comms w) <= sub_buffer (comms w) + BUFFER_SIZE).
Proof.
  intros H0 Hr Ht. apply system_reaches in Hr; [|done]. unfold state_ok in Hr. cbn [fst snd] in Hr. split.
  - by apply thread_step.
  - intros Hi. pose proof (so_recv _ _ Hr Hi) as H. unfold pending in H. lia.
Qed.

(** ** Start of the thread *)

(** The state [CommsInit] finds: buffers in RAM, the identifier in ROM, a cleared
    client. *)
Record boot_ok (ids : list Z) w : Prop := {
  bo_client : inv (mq w);
  bo_sub : buffers_ok w;
  bo_pub : pub_buffer_ok w;
  bo_idle : incoming_publish (comms w) = INPUB_NONE;
  bo_uid : uid_ptr w = 0 /\ 0 < uid_buf /\ allocated (mem w) uid_buf 25;
  bo_rom : length ids = STM32_UUID_LEN /\ load (mem w) STM32_UUID STM32_UUID_LEN = Some ids;
  bo_apart : STM32_UUID + 12 <= uid_buf \/ uid_buf + 25 <= STM32_UUID;
  bo_ia : is_u 32 (f32_to_bits (i_a (appl w)))
}.

Definition device_topic (base : list Z) (ids : list Z) : list Z := with_id base (hex_of ids).

Lemma enter_step ids w :
  boot_ok ids w ->
  exists w', enter uid_buf w
    = Some (Backoff (device_topic (chars HEARTBEAT_TOPIC_BASE) ids), TIME_MS2I 2000, w') /\
    system_ok (Backoff (device_topic (chars HEARTBEAT_TOPIC_BASE) ids)) w' /\
    m1_cmd_topic (comms w') = device_topic (chars M1_CMD) ids ++ [0] /\
    mq w' = mq w /\ connection_response_received (comms w') = false.
Proof.
  intros [H1 [Hl Ht Ha] [Hl' Ht' Ha'] H4 (Hu & Hub & Hua) [Hn Hld] Hap H8]. unfold enter. rewrite Hu.
  destruct (uniqueID_cached uid_buf ids (mem w) Hn Hld Hub Hua Hap) as (us & E & Eid & _ & Eus). rewrite E, Eid.
  destruct (hex_chars ids) as [Hz Hb].
  assert (length (hex_of ids) = 24%nat) as Hlen by (rewrite length_hex_of, Hn; done).
  destruct literal_topics as (Lc & Lt & Lh).
  rewrite !make_topic_ok by (done || (vm_compute; lia)).
  assert (forall b, topic_ok b -> (35 <= length b)%nat -> topic_ok (device_topic b ids)) as Hok
    by (intros; apply with_id_ok; try done; lia).
  fold (device_topic (chars HEARTBEAT_TOPIC_BASE) ids) (device_topic (chars M1_CMD) ids)
    (device_topic (chars M1_TELEM) ids).
  rewrite (c_string_terminated _ []) by (apply Hok; [done|vm_compute; lia]).
  eexists. split; [done|]. split; [|done].
  assert (forall a n, allocated (mem w) a n -> allocated (uid_mem us) a n) as Hal.
  { intros a n Hn'. rewrite Eus. by apply allocated_write. }
  split; try done.
  - split; try done. by apply Hal.
  - split; try done. by apply Hal.
  - exists (device_topic (chars M1_CMD) ids). split; [done|]. apply Hok; [done|vm_compute; lia].
  - exists (device_topic (chars M1_TELEM) ids). split; [done|]. apply Hok; [done|vm_compute; lia].
  - exists (device_topic (chars HEARTBEAT_TOPIC_BASE) ids). split; [done|]. apply Hok; [done|vm_compute; lia].
Qed.

(** ** A session *)

Notation net := (@network T motor_control_t handler it0).

(** The TCP connection is up: CONNECT goes out. *)
Lemma tcp_up w :
  client_ok (client (mq w)) [] [] -> conn_state (client (mq w)) = TCP_CONNECTING ->
  exists q, net (mqtt_tcp_connect_cb ERR_OK) w = Some (ERR_OK, with_mq q w) /\
    client_ok (client q) [] [] /\ conn_state (client q) = MQTT_CONNECTING /\ msg_idx (client q) = 0 /\
    connect_cb (client q) = connect_cb (client (mq w)) /\ pkt_id_seq (client q) = pkt_id_seq (client (mq w)) /\
    stream q = stream (mq w) /\
    mqtt_ringbuf_len (output (client q)) <= mqtt_ringbuf_len (output (client (mq w))).
Proof.
  intros Hok Hcs. pose proof (ok_conn _ _ _ Hok) as Hc. rewrite Hcs in Hc.
  unfold network, mqtt_tcp_connect_cb. change (negb (ERR_OK =? ERR_OK)) with false. cbv iota.
  unfold send_output. mcbn. rewrite Hc. change (negb (TCP_CONNECTING =? TCP_DISCONNECTED)) with true. cbv iota.
  set (s0 := on_client _ _).
  assert (client_ok (client s0) [] []) as Hok0.
  { apply (minor_ok (client (mq w))); [done|]. unfold minor_change, s0. mcbn. by rewrite Hcs. }
  pose proof (output_send_spec (output (client s0)) (tcp s0) (ok_ring _ _ _ Hok0)) as Hlen.
  destruct (output_send_client s0 _ _ Hok0) as (Hok1 & Hst & (rb & Ec) & El).
  assert (mqtt_ringbuf_len (output (client (output_send s0))) <= mqtt_ringbuf_len (output (client s0))) as Hl.
  { unfold output_send. destruct (mqtt_output_send _ _) as [rb' t']. apply Hlen. }
  rewrite El. exists (MState (client (output_send s0)) (tcp (output_send s0)) []). split; [done|].
  unfold stream. cbn [client tcp]. split; [exact Hok1|].
  do 4 (split; [by rewrite Ec|]). split; [exact Hst|exact Hl].
Qed.

Lemma connack_accepted w flags :
  client_ok (client (mq w)) [] [] -> msg_idx (client (mq w)) = 0 ->
  conn_state (client (mq w)) = MQTT_CONNECTING -> connect_cb (client (mq w)) = true ->
  exists q, net (mqtt_tcp_recv_cb (Some (connack_packet flags MQTT_CONNECT_ACCEPTED)) ERR_OK) w
      = Some (ERR_OK, on_comms (set_connection MQTT_CONNECT_ACCEPTED true) (with_mq q w)) /\
    client_ok (client q) [] [] /\ conn_state (client q) = MQTT_CONNECTED /\ msg_idx (client q) = 0 /\
    output (client q) = output (client (mq w)) /\ pkt_id_seq (client q) = pkt_id_seq (client (mq w)) /\
    tcp q = tcp (mq w).
Proof.
  intros Hok Hi Hcs Hcb. unfold network.
  destruct (connack_spec (MState (client (mq w)) (tcp (mq w)) []) [] [] flags MQTT_CONNECT_ACCEPTED Hok Hi Hcs Hcb)
    as (s' & -> & H). change (MQTT_CONNECT_ACCEPTED =? MQTT_CONNECT_ACCEPTED) with true in H. cbv iota in H.
  destruct H as (H1 & H2 & H3 & H4 & H5 & H6 & ->). exists (MState (client s') (tcp s') []). by split.
Qed.

(** Subscribing on a fresh connection succeeds: there is room and a free slot. *)
Lemma fresh_subscribe (q : mstate T) cmd :
  client_ok (client q) [] [] -> conn_state (client q) = MQTT_CONNECTED -> pkt_id_seq (client q) = 0 ->
  topic_ok cmd -> mqtt_ringbuf_len (output (client q)) <= 100 ->
  exists q', mqtt_sub_unsub cmd 0 None 0 1 q = Some (ERR_OK, q') /\ inv q' /\
    sent_only (client q) (client q') /\ stream q' = stream q ++ subscribe_packet cmd 0 1 1.
Proof.
  intros Hok Hcs Hid [Hz Hb Hl] Hlen.
  destruct (subscribe_spec q [] [] cmd 0 1 None 0 Hok Hb) as (err & q' & E & Ho & H); [lia|lia|].
  rewrite Hcs in H. change (MQTT_CONNECTED =? TCP_DISCONNECTED) with false in H.
  assert (next_id (client q) = 1) as En by (unfold next_id; by rewrite Hid). rewrite En in H.
  destruct H as [_ H]. pose proof (enqueued_inv _ _ _ _ _ _ _ H) as Hi.
  destruct H as [(-> & Hst & _)|(_ & _ & _ & _ & [Hfull|Hfree])].
  - by exists q'.
  - specialize (Hfull 0%nat ltac:(unfold MQTT_REQ_MAX_IN_FLIGHT; lia)). set_solver.
  - exfalso. unfold mqtt_ringbuf_free, MQTT_OUTPUT_RINGBUF_SIZE in Hfree.
    assert (Z.of_nat (length (subscribe_packet cmd 0 1 1)) <= 150); [|lia].
    unfold subscribe_packet. set (body := be16 1 ++ _). rewrite length_app.
    assert (Z.of_nat (length body) <= 126) as Hbl
      by (unfold body, utf8, be16; rewrite !length_app; change (truthy 1) with true; cbn [length]; lia).
    pose proof (length_length_bytes (Z.of_nat (length body)) ltac:(unfold is_u; lia)).
    unfold fixed_header. cbn [length]. lia.
Qed.

(** One run of the inner loop on an open connection. *)
Lemma running_step th w hb next t1 t2 :
  system_ok th w -> thread_topic th = Some hb -> is_u 32 t2 ->
  connection_status (comms w) = MQTT_CONNECT_ACCEPTED ->
  exists next' w', @run_loop T motor_control_t tops (Some dispatch_telemetry) hb next t1 t2 w
      = Some (Running hb next', TIME_MS2I 1, w') /\
    extends (mq w) (mq w') /\ sent_only (client (mq w)) (client (mq w')).
Proof.
  intros Hs Eh Ht Hst. unfold run_loop. rewrite Hst, Z.eqb_refl.
  destruct (telemetry_step th w t1 next Hs) as (next' & w1 & -> & Hs1 & _ & He1 & Ho1).
  destruct (heartbeat_step th w1 hb t2 Hs1 Eh Ht) as (err & w2 & -> & _ & _ & He2 & Ho2).
  exists next', w2. split; [done|]. split; [by eapply extends_trans|by eapply sent_only_trans].
Qed.

(** C10: A session is established.  When the thread has slept after a lost
    connection and TCP has resources, it starts a connection and waits; when
    TCP reports the connection and the server answers with CONNACK 0, the
    thread's next step finds it, registers its callbacks, subscribes and is
    running: the client is connected and listening for commands, and the bytes
    sent on the connection are exactly CONNECT, then SUBSCRIBE for the command
    topic, then messages of the running thread. *)
Theorem session_established (w : fworld) (hb cmd : list Z) (flags t0 t1 t2 u0 u1 u2 : Z) :
  system_ok (Backoff hb) w -> m1_cmd_topic (comms w) = cmd ++ [0] -> topic_ok cmd ->
  connection_response_received (comms w) = false -> conn_state (client (mq w)) = TCP_DISCONNECTED ->
  connect_result client_info (tcp (mq w)) = ERR_OK -> is_u 32 u2 ->
  exists w1 w2 w3 next w4 bs,
    step (Backoff hb) t0 t1 t2 w = Some (Await hb, TIME_MS2I 100, w1) /\
    net (mqtt_tcp_connect_cb ERR_OK) w1 = Some (ERR_OK, w2) /\
    net (mqtt_tcp_recv_cb (Some (connack_packet flags MQTT_CONNECT_ACCEPTED)) ERR_OK) w2 = Some (ERR_OK, w3) /\
    step (Await hb) u0 u1 u2 w3 = Some (Running hb next, TIME_MS2I 1, w4) /\
    conn_state (client (mq w4)) = MQTT_CONNECTED /\ listening (client (mq w4)) /\
    stream (mq w4) = tcp_queued (tcp (mq w1)) ++ connect_packet client_info ++ subscribe_packet cmd 0 1 1 ++ bs.
Proof.
  intros Hs Hct Hcmd Hresp Hcs Hres Ht. cbn [_CommTask].
  destruct (connect_spec (mq w) true client_info client_info_ok) as (q1 & -> & H1).
  rewrite Hcs, Hres in *. change (TCP_DISCONNECTED =? TCP_DISCONNECTED) with true in *.
  change (ERR_OK =? ERR_OK) with true in *. cbn [negb]. cbv iota in H1.
  destruct H1 as (Hok1 & Hcs1 & _ & Hring & Hcb1 & Hid1 & _).
  unfold await at 1. cbn [with_mq comms]. rewrite Hresp. cbn [negb].
  set (w1 := with_mq q1 w).
  assert (mqtt_ringbuf_len (output (client q1)) <= 100) as Hl1.
  { rewrite <- length_ring_contents by (by destruct (len_range (output (client q1)))). rewrite Hring. by vm_compute. }
  destruct (tcp_up w1 Hok1 Hcs1) as (q2 & E2 & Hok2 & Hcs2 & Hi2 & Hcb2 & Hid2 & Hst2 & Hl2).
  set (w2 := with_mq q2 w1) in *.
  destruct (connack_accepted w2 flags Hok2 Hi2 Hcs2) as (q3 & E3 & Hok3 & Hcs3 & Hi3 & Ho3 & Hid3 & Ht3);
    [exact (eq_trans Hcb2 Hcb1)|]. set (w3 := on_comms _ _) in *.
  set (q3' := mqtt_set_inpub_callback true true q3).
  destruct (fresh_subscribe q3' cmd) as (q4 & E4 & Hi4 & Hso4 & Hst4);
    [by apply (minor_ok (client q3))|done|exact (eq_trans Hid3 (eq_trans Hid2 Hid1))|done|unfold q3'; mcbn|].
  { change (output (client (mqtt_set_inpub_callback true true q3))) with (output (client q3)). rewrite Ho3. cbn in *. lia. }
  assert (system_ok (Await hb) (with_mq q4 (with_mq q3' w3))) as Hs4.
  { apply system_ok_mq; [|done]. apply system_ok_mq; [|exists [], []; by apply (minor_ok (client q3))].
    apply system_ok_status, system_ok_mq; [|by exists [], []]. apply system_ok_mq; [|by exists [], []].
    apply system_ok_mq; [|by exists [], []]. by apply (system_ok_thread (Backoff hb)). }
  destruct (running_step (Await hb) (with_mq q4 (with_mq q3' w3)) hb u0 u1 u2 Hs4 eq_refl Ht eq_refl)
    as (next & w4 & E5 & [bs Hbs] & Hso5).
  exists w1, w2, w3, next, w4, bs. split; [done|]. split; [exact E2|]. split; [exact E3|].
  assert (sent_only (client q3') (client (mq w4))) as (i & q & reqs & rb & Ec) by (by eapply sent_only_trans).
  split; [|split; [by rewrite Ec|split]].
  - unfold await. change (connection_response_received (comms w3)) with true. cbn [negb].
    change (connection_status (comms w3) =? MQTT_CONNECT_ACCEPTED) with true. cbn [negb].
    change (m1_cmd_topic (comms (with_mq (mqtt_set_inpub_callback true true (mq w3)) w3)))
      with (m1_cmd_topic (comms w)). rewrite Hct, (c_string_terminated cmd []) by apply Hcmd.
    change (mqtt_set_inpub_callback true true (mq w3)) with q3'. cbn [mq with_mq]. rewrite E4. exact E5.
  - rewrite Ec. split; mcbn; try done.
    + change (conn (client q3) = true). by rewrite (ok_conn _ _ _ Hok3), Hcs3.
    + apply (ok_rx _ _ _ Hok3).
  - rewrite Hbs. cbn [mq with_mq]. rewrite Hst4. change (stream q3') with (stream q3).
    assert (stream q3 = stream q2) as -> by (unfold stream; by rewrite Ho3, Ht3).
    rewrite Hst2. unfold stream. change (mq w1) with q1. rewrite Hring. by rewrite <- !app_assoc.
Qed.
End System.

(** ** Samples *)

Definition sample_mem : gmap Z Z :=
  write (write ∅ 0x20001000 (repeat 0 1024)) 0x20002000 (repeat 0 1024).
Definition sample_world (c : mqtt_client_t) : world sink motor_control_t :=
  World (Comms MQTT_CONNECT_DISCONNECTED false [116; 0] [117; 0] 0x20001000 0x20002000 0x20002000 0 INPUB_NONE)
    sample_mem m1_static (MState c (Sink 1000 []) []) 0.

Lemma sample_buffers c : buffers_ok (sample_world c) /\ pub_buffer_ok (sample_world c).
Proof. split; (split; [done|done|apply allocatedb_spec; vm_compute; reflexivity]). Qed.

Lemma small_topic t : 0 < t < 256 -> topic_ok [t].
Proof. intros Ht. split; [|repeat constructor; unfold is_byte; lia|done]. repeat constructor. lia. Qed.

Lemma sample_system c l ex :
  client_ok c l ex -> system_ok (Backoff [104]) (sample_world c).
Proof.
  intros Hok. destruct (sample_buffers c) as [H1 H2]. split; try done.
  - by exists l, ex.
  - exists [116]. split; [done|]. by apply small_topic.
  - exists [117]. split; [done|]. by apply small_topic.
  - exists [104]. split; [done|]. by apply small_topic.
Qed.

Lemma sample_listening : listening sample_client.
Proof. split; done. Qed.

Lemma comms_reassembles_witness :
  callbacks (T := sink) None (Item 0 0)
    (EvPubCb ([116] ++ [0]) 4 :: fragments [[1]; [2; 3]] [4]) (sample_world sample_client)
  = Some (World (set_incoming 0x20002004 INPUB_NONE (comms (sample_world sample_client)))
      (write sample_mem 0x20002000 [1; 2; 3; 4]) m1_static (MState sample_client (Sink 1000 []) []) 0).
Proof.
  exact (comms_reassembles None (Item 0 0) (sample_world sample_client) [116] [116] [[1]; [2; 3]] [4]
    (proj1 (sample_buffers sample_client)) eq_refl (tp_nonzero [116] (small_topic 116 ltac:(lia)))).
Defined.


Lemma heartbeat_published_witness :
  exists err w', heartbeat [104] 20000 (sample_world sample_client) = Some (err, w') /\
    time_last_heartbeat (comms w') = 20000.
Proof.
  destruct (heartbeat_published (sample_world sample_client) [104] 20000 [] []
    (proj2 (sample_buffers sample_client)) sample_ok) as (err & w' & E & H).
  - unfold is_u. lia.
  - by repeat constructor.
  - cbn. lia.
  - exists err, w'. split; [exact E|exact (proj1 H)].
Defined.

Lemma telemetry_stops_at_wrap_witness :
  exists w1, telemetry (Some dispatch_telemetry) (2 ^ 32 - 201) 0 (sample_world sample_client)
    = Some (2 ^ 32 - 1, w1).
Proof.
  destruct (telemetry_stops_at_wrap (sample_world sample_client) [117] 0 [] []
    (proj2 (sample_buffers sample_client)) sample_ok) as (err & w1 & E & _).
  - vm_compute. split; [discriminate|reflexivity].
  - reflexivity.
  - apply small_topic. lia.
  - apply (small_topic 117). lia.
  - vm_compute. discriminate.
  - vm_compute. discriminate.
  - lia.
  - exists w1. exact E.
Defined.

(** A command arrives; the thread runs when the first callback was made and the
    second was not. *)
Definition received_q : mstate sink :=
  from_option snd (MState sample_client (Sink 1000 []) [])
    (mqtt_tcp_recv_cb (Some [0x30; 5; 0; 1; 116; 7; 8]) ERR_OK (MState sample_client (Sink 1000 []) [])).
Definition received_world : world sink motor_control_t :=
  with_mq (MState (client received_q) (tcp received_q) []) (sample_world sample_client).
Definition announced_world : world sink motor_control_t :=
  default received_world (mqtt_pub_cb [116; 0] 2 received_world).

Lemma announced_reached :
  rtc (sys_step (Item 0 0) 0x20000000) (Backoff [104], sample_world sample_client, [])
    (Backoff [104], announced_world, [EvDataCb [7; 8] 1; EvPbufFree]).
Proof.
  apply (rtc_l _ _ (Backoff [104], received_world, [EvTcpRecved 7; EvPubCb [116; 0] 2; EvDataCb [7; 8] 1; EvPbufFree])).
  - assert (log received_q = [EvTcpRecved 7; EvPubCb [116; 0] 2; EvDataCb [7; 8] 1; EvPbufFree]) as <- by (vm_compute; reflexivity).
    refine (sys_network (Item 0 0) _ _ (sample_world sample_client) received_q _).
    apply (net_recv (Some [0x30; 5; 0; 1; 116; 7; 8]) ERR_OK _ ERR_OK). vm_compute. reflexivity.
  - eapply rtc_l; [by apply sys_callback|]. apply rtc_once, sys_callback. vm_compute. reflexivity.
Qed.

Lemma comms_thread_never_fails_witness :
  incoming_publish (comms announced_world) <> INPUB_NONE /\
  exists th d w', _CommTask (Some dispatch_telemetry) 0x20000000 (Backoff [104]) 0 0 0 announced_world
    = Some (th, d, w') /\ 0 < d.
Proof.
  split; [vm_compute; discriminate|].
  destruct (comms_thread_never_fails (Item 0 0) 0x20000000 _ _ _ _ _ 0 0 0
    (sample_system _ _ _ sample_ok) announced_reached) as [(th & d & w' & E & Hd & _) _]; [unfold is_u; lia|].
  exists th, d, w'. split; [exact E|exact Hd].
Defined.

Lemma zero_client_ok : client_ok zero_client [] [].
Proof. split; done. Qed.

Lemma session_established_witness :
  exists w1, _CommTask (Some dispatch_telemetry) 0x20000000 (Backoff [104]) 0 0 0 (sample_world zero_client)
    = Some (Await [104], TIME_MS2I 100, w1).
Proof.
  destruct (session_established (Item 0 0) 0x20000000 (sample_world zero_client) [104] [116] 0 0 0 0 0 0 0
    (sample_system _ _ _ zero_client_ok) eq_refl (small_topic 116 ltac:(lia))) as (w1 & _ & _ & _ & _ & _ & E & _).
  - reflexivity.
  - reflexivity.
  - vm_compute. reflexivity.
  - unfold is_u. lia.
  - exists w1. exact E.
Defined.
